(* ===== verification/_CoqProject ===== *)
-Q . S2P
Prelude.v
KString.v
Ringbuf.v
RingbufSpsc.v
Phys.v
PhysSpec.v
PhysInit.v
PhysIface.v
VRegion.v
PageTable.v
PageTableSpec.v
VmSpace.v
Shm.v
ShmSpec.v
Slab.v
Port.v
RbTree.v
Sched.v
SchedSpec.v
VfsPath.v
Vfs.v
VfsSpec.v
Ramfs.v
RamfsSpec.v
Fat32.v
Fat32Spec.v
Fat32Write.v
Security.v
SecuritySpec.v
Usr.v
UsrSpec.v
UsrText.v
Block.v
Gpt.v
GptSpec.v
UserMem.v
UserMemSpec.v
Elf.v
ElfSpec.v
ElfStack.v
Syscall.v
SyscallSpec.v
SyscallIds.v
SvcMgr.v
SvcMgrSpec.v
UserDemo.v
Adf.v
AdfSpec.v
AdfDemo.v
Kbd.v
Font.v
Fbcon.v
FbconSpec.v
Cpu.v
CpuSpec.v
Irq.v
IrqSpec.v
IrqDemo.v
BootCfg.v
BootCfgSpec.v
Boot.v
BootSpec.v
BootDemo.v
Installer.v
InstallerSpec.v
InstallerUsr.v
InstallerLogin.v
Virtio.v
VirtioSpec.v
VirtioInit.v
VirtioDemo.v
