(* ===== verification/Prelude.v ===== *)
(** * OpenASD kernel: verification library

    OpenASD is an x86-64 operating system in C.  This library models its boot loader, the parts of its
    kernel that are data structures, algorithms and protocols with hardware, and the disk side of its
    installer, function by function, and proves what makes them correct.  Paths below are under
    src/kernel/, but for boot/ and init/, which are src/boot/ and src/init/.

    ** The parts and how they fit together

    The boot loader (boot/asdboot.c) reads its configuration, loads a kernel, and hands over a memory
    map in which everything it placed is marked.  From that map [amm_phys_init] (mm/mm.c) makes a buddy allocator.
    Page tables, address spaces, shared memory and the kernel heap take their pages from it.  The scheduler
    (sched/sched.c) keeps processes in red-black trees per CPU.  Processes exchange messages
    through ports (ipc/port.c) on ring buffers (ipc/ringbuf.h), and open files through the virtual
    file system (vfs/vfs.c), whose backends are the memory file system (vfs/ramfs.c) and FAT volumes
    (vfs/fat32.c).  System calls (arch/syscall.c) reach all of these from user mode: they copy between
    the kernel and the memory of the process through its page tables.  A program is loaded from a
    file into a new address space (arch/elf.c); the service manager (init/svcmgr.c) starts the
    services that way, in the order of their dependencies.  Drivers are modules that the driver
    framework (drv/adf.c) reads from files, links into the kernel heap and starts.  The security
    module (security/security.c) supplies random numbers, logs events and limits failed
    logins; the account database (usr/usr.c) takes its salts from there.  Faults, the timer and the
    keyboard enter through the interrupt stubs and the dispatcher (arch/idt.c, arch/isr.S), behind the descriptor
    tables (arch/gdt.c) and the interrupt controller (arch/pic.c); output goes to a terminal on the
    frame buffer (console/fbcon.c).  The installer (init/installer.c) writes a partition table
    (block/gpt.c) to a device of the block layer (block/block.c), copies the boot medium into it and
    saves the accounts, which the next start loads; the device is one of the virtio driver
    (drv/virtio_blk.c).

    ** Conventions

    A C integer is a [Z] kept in range by the wrap functions below.  A byte is a [Z] from 0 to
    255, a buffer a [list Z], a string a list with a terminating zero.  State is passed explicitly.
    [None] is undefined behaviour or a hang: an access outside an object, a null or dangling
    pointer, a lock taken twice, a loop that does not end.  A theorem of the form
    [exists r, f x = Some r /\ ...] therefore says that the function returns and touches only its
    own memory.  Constants keep their names in C.  Code outside the modelled files (drivers, the clock,
    [kmalloc] for ports, ramfs, driver modules and the scheduler) is an argument; where more than its type is needed, a class states what is
    relied on, and an instance shows that it can be met.

    ** Files

    - [Prelude]: integers, slices, tables, tactics and hint databases.
    - [KString]: lib/string.c.  [memmove] with overlap, comparison, copying.
    - [Ringbuf], [RingbufSpsc]: ipc/ringbuf.h.  The first is sequential: push and pop refine a
      queue.  The second interleaves the steps of one producer and one consumer and shows that
      the items come out as they went in.
    - [Phys], [PhysSpec], [PhysInit], [PhysIface]: the page allocator of mm/mm.c.  Invariant of the
      free lists and the page array, allocation and freeing with coalescing, the scan of the memory
      map, and the class [BlockAlloc] its clients are proved against.
    - [VRegion]: the sorted region list of an address space.
    - [PageTable], [PageTableSpec]: four-level tables word by word; mapping a page changes the
      translation of that page only; page faults and population.
    - [VmSpace]: creating and destroying address spaces.
    - [Shm], [ShmSpec]: named shared memory objects; creating, attaching and unmapping keep every
      object's name, block and addresses its own.
    - [Slab]: [kmalloc] and [kfree]; live objects never overlap.
    - [Port]: ports refine a queue of messages, with the errors of a full queue.
    - [RbTree]: the intrusive trees; insertion keeps order and balance, removal keeps order.
    - [Sched], [SchedSpec]: every operation of sched.c; queueing, picking, waking and stealing.
    - [VfsPath]: path canonicalization against split, resolve and join.
    - [Vfs], [VfsSpec]: mounts, nodes and descriptors; opening and closing with every error path,
      against the class [Backend].
    - [Ramfs], [RamfsSpec]: the memory file system; an instance of [Backend]; what is written
      through a descriptor is read back.
    - [Fat32], [Fat32Spec], [Fat32Write]: FAT volumes byte by byte.  Reading follows the cluster chain,
      searching a directory is searching the list of its entries, an accepted header describes a
      volume that fits, and storing a file changes nothing else.
    - [Security], [SecuritySpec]: entropy pool, audit ring, lockout after five failures and its end.
    - [Usr], [UsrSpec], [UsrText]: accounts.  [UsrSpec] has the password hash, the permission check and
      the tables; [UsrText] the text format: reading ends on every terminated text, reachable
      databases are well formed, and what is written is read back.
    - [Block], [Gpt], [GptSpec]: block devices, CRC32 against its bitwise definition, and the
      partition table as a reader checks it, for any device of the class [Disk].
    - [UserMem], [UserMemSpec]: the copies between kernel and user memory.  [uspace] is a process as the
      page tables show it, [usteps] what a sequence of accesses may do to it.
    - [Elf], [ElfSpec], [ElfStack]: the loader and the initial stack, as the new process sees them.
    - [Syscall]: every handler and the dispatcher, and the creation of a process, on the state
      [kern_t] that puts memory, regions, scheduler, file system and console together.
    - [SyscallSpec]: [sys_write] to the console, [sys_mmap] and [sys_brk] against [user_proc];
      [SyscallIds]: a frame argument over the whole dispatcher, for the identity of processes.
    - [SvcMgr], [SvcMgrSpec]: the parser of service definitions returns on every text; the waves are a
      layering of the dependency graph, and a cycle is found exactly when there is one.
    - [Adf], [AdfSpec], [AdfDemo]: the driver framework.  The sections of a module lie side by side in
      its block, relocation stores the fields it should and nothing else, and the table of modules stays
      well-formed whichever way a load ends, for any [kmalloc] and drivers of the class [AdfEnv].
      The last file loads a sample module from a memory file system.
    - [Kbd], [Font], [Fbcon], [FbconSpec]: the keyboard buffer, a queue, and the console.  Every character
      is drawn inside the frame buffer, and what the screen shows is that of an abstract terminal.
    - [Cpu], [CpuSpec]: descriptor tables, gates, the stubs of isr.S, the interrupt controller and the
      timer, down to the words that are loaded; a sleep ends.
    - [Irq], [IrqSpec], [IrqDemo]: the dispatcher of interrupts on the state of the system calls.  A fault
      of a process ends at most that process.
    - [BootCfg], [BootCfgSpec]: the configuration of the boot loader and its menu: what is printed is
      parsed back, and a choice is always made.
    - [Boot], [BootSpec], [BootDemo]: the kernel image, the memory map and the hand-over, on firmware
      that is a record of functions.  No page in use is free in the map, nor later in the page allocator.
    - [Installer], [InstallerSpec], [InstallerUsr], [InstallerLogin]: the installer.  The copy, for any
      disks of the class [Disks]; the account block and its loading; and both with the account
      database, from a typed password to the check of a login.
    - [Virtio], [VirtioSpec], [VirtioInit], [VirtioDemo]: the virtio driver on the bytes it shares with its
      device.  [VirtioBlk] is the contract of the device, [Disks] the one that follows for the clients;
      [VirtioInit] has the search for devices and [VirtioDemo] a device.
    - [UserDemo]: a sample process and kernel: the witnesses of the theorems on user memory, the
      loader and the system calls, and runs of the model that exhibit flaws.

    ** Reading the theorems

    Each component has a representation predicate or invariant (for instance [phys_inv],
    [pt_inv], [sched_inv], [vfs_inv], [ramfs_inv], [usr_inv]) and a theorem per operation: from a
    state in the invariant the operation returns, with this result on each branch, in a state that
    represents the changed abstract value.  [adf_load] runs the code of a driver, which may not
    return: its theorem is about every way in which it does.  Theorems with hypotheses are followed by a witness, the
    same theorem at a concrete state.  Lemmas under a heading on flaws are closed statements that
    exhibit a defect of the code as it stands.

    ** Fuel and bounds

    Loops over linked structures take fuel.  The bound is the number of elements the structure can
    have (pages, nodes, characters of a path, bytes of a text), and running out of it is [None], so
    the theorems above include that it is enough.  Counters keep their width: the ring buffer
    indices and file offsets wrap at 64 bits, the audit counter at 32 bits (its theorem assumes
    fewer than 2^32 events).  A copy to or from user memory moves at least one byte per turn, so its
    length is enough fuel; the waves of services need one turn more than there are services.  A wait for
    hardware ends because of what the hardware does: the theorems on the timer, the boot menu and the
    virtio queue say after how much of it.  The driver's own bound of 50 million turns is kept as a
    binary number, so that a run is as long as the turns it takes.

    ** Not modelled

    - Assembly other than the interrupt stubs: the context switch and the entry of system calls.  The
      kernel's start-up order (entry.c) and the second boot stub (boot/uki_stub.c).
    - Parts of modelled files that are hardware access: the registers and the stack of
      [syscall_init] and the interrupts that arrive while [sys_read] waits (arch/syscall.c); in the boot loader
      the screen output, the prompt for a path and the search for the frame buffer.
    - [amm_kernel_pml4_init] of mm/mm.c and the FFS backend (vfs/ffs.c), which can open only its root
      directory: they could be modelled on top of what is here.
    - The dialogs of the installer, which enter as the strings they leave, the directories it makes on
      the live system, the shell and the line editor of init/, and the programs of userland/.
    - The output of logs and messages.
    - Weak memory and preemption, except for the ring buffer: operations that hold a lock from
      start to end are atomic. *)

From Stdlib Require Import ZArith Lia.
From stdpp Require Import base list gmap strings.

Local Open Scope Z_scope.

(** ** Machine integers

    A [w]-bit unsigned C integer is a [Z] kept in range by the wrap functions
    below; signed casts are the two's complement ones of the x86-64 ABI. *)

Definition u8 (x : Z) : Z := x mod 2 ^ 8.
Definition u16 (x : Z) : Z := x mod 2 ^ 16.
Definition u32 (x : Z) : Z := x mod 2 ^ 32.
Definition u64 (x : Z) : Z := x mod 2 ^ 64.
Definition i8 (x : Z) : Z := (x + 2 ^ 7) mod 2 ^ 8 - 2 ^ 7.
Definition i16 (x : Z) : Z := (x + 2 ^ 15) mod 2 ^ 16 - 2 ^ 15.
Definition i32 (x : Z) : Z := (x + 2 ^ 31) mod 2 ^ 32 - 2 ^ 31.
Definition i64 (x : Z) : Z := (x + 2 ^ 63) mod 2 ^ 64 - 2 ^ 63.

(** The bytes of a C string literal, without the terminator. *)
Definition c_str (s : string) : list Z :=
  map (fun a => Z.of_N (Ascii.N_of_ascii a)) (String.list_ascii_of_string s).

(** [n] elements of an array from index [i] on. *)
Definition slice {A} (i n : nat) (l : list A) : list A := take n (drop i l).

(** [m[i] = b]; [None] when the store is outside the object. *)
Definition put (m : list Z) (i : nat) (b : Z) : option (list Z) :=
  if decide (i < length m)%nat then Some (<[i := b]> m) else None.

(** Little-endian integers of [n] bytes. *)
Fixpoint le_bytes (n : nat) (v : Z) : list Z :=
  match n with
  | O => []
  | S n' => v mod 256 :: le_bytes n' (v / 256)
  end.

Fixpoint le_val (l : list Z) : Z :=
  match l with
  | [] => 0
  | b :: l' => b + 256 * le_val l'
  end.

(** ** Tables scanned by a for-loop with a break *)

Fixpoint find_idx {A} (p : A -> bool) (l : list A) : option nat :=
  match l with
  | [] => None
  | x :: l' => if p x then Some 0%nat else S <$> find_idx p l'
  end.

(** ** Tactics *)

Create HintDb cint discriminated.
Create Rewrite HintDb cint.
Create Rewrite HintDb cint_small.

(** Unfold the wrap functions and call the linear solver on the resulting
    divisions by constants. *)
Ltac wrap_lia :=
  unfold u8, u16, u32, u64, i8, i16, i32, i64 in *;
  Z.div_mod_to_equations; lia.

(** Case analysis on every boolean integer comparison of the goal or of the
    hypotheses, with the comparison reflected. *)
Ltac bool_cases :=
  repeat match goal with
  | |- context [?a =? ?b] => destruct (Z.eqb_spec a b)
  | |- context [?a <? ?b] => destruct (Z.ltb_spec a b)
  | |- context [?a <=? ?b] => destruct (Z.leb_spec a b)
  | H : context [?a =? ?b] |- _ => destruct (Z.eqb_spec a b)
  | H : context [?a <? ?b] |- _ => destruct (Z.ltb_spec a b)
  | H : context [?a <=? ?b] |- _ => destruct (Z.leb_spec a b)
  end.

(** Inversion of a computation that returned: every bind returned and every test went one way. *)
Ltac run_inv :=
  repeat (match goal with
  | H : mbind _ _ = Some _ |- _ => apply bind_Some in H as (? & ? & H)
  | H : Some _ = Some _ |- _ => injection H; clear H; intros; subst
  | H : None = Some _ |- _ => discriminate H
  | H : context [match ?x with _ => _ end] |- _ =>
      lazymatch type of H with _ = Some _ => destruct x eqn:? end
  end; cbn beta iota in * ).

(** ** Lemmas on machine integers *)

Lemma u64_range x : 0 <= u64 x < 2 ^ 64.
Proof. apply Z.mod_pos_bound. lia. Qed.

Lemma u32_range x : 0 <= u32 x < 2 ^ 32.
Proof. apply Z.mod_pos_bound. lia. Qed.

Lemma u8_range x : 0 <= u8 x < 2 ^ 8.
Proof. apply Z.mod_pos_bound. lia. Qed.

Lemma u64_small x : 0 <= x < 2 ^ 64 -> u64 x = x.
Proof. apply Z.mod_small. Qed.

Lemma u32_small x : 0 <= x < 2 ^ 32 -> u32 x = x.
Proof. apply Z.mod_small. Qed.

Lemma u16_small x : 0 <= x < 2 ^ 16 -> u16 x = x.
Proof. apply Z.mod_small. Qed.

Lemma u8_small x : 0 <= x < 2 ^ 8 -> u8 x = x.
Proof. apply Z.mod_small. Qed.

Lemma u64_idemp x : u64 (u64 x) = u64 x.
Proof. apply u64_small, u64_range. Qed.

Lemma u64_add_l x y : u64 (u64 x + y) = u64 (x + y).
Proof. unfold u64. apply Zplus_mod_idemp_l. Qed.

Lemma u64_sub_l x y : u64 (u64 x - y) = u64 (x - y).
Proof. unfold u64. apply Zminus_mod_idemp_l. Qed.

Lemma u64_sub_r x y : u64 (x - u64 y) = u64 (x - y).
Proof. unfold u64. apply Zminus_mod_idemp_r. Qed.

Lemma u32_add_l x y : u32 (u32 x + y) = u32 (x + y).
Proof. unfold u32. apply Zplus_mod_idemp_l. Qed.

Lemma u32_sub_l x y : u32 (u32 x - y) = u32 (x - y).
Proof. unfold u32. apply Zminus_mod_idemp_l. Qed.

#[export] Hint Resolve u64_range u32_range u8_range : cint.
#[export] Hint Rewrite u64_idemp u64_add_l u64_sub_l u64_sub_r u32_add_l u32_sub_l : cint.
#[export] Hint Rewrite u64_small u32_small u16_small u8_small using lia : cint_small.

(** One step of a sequence of fallible operations, without reducing the rest. *)
Lemma bind_eq {A B} (f : A -> option B) mx x : mx = Some x -> mx ≫= f = f x.
Proof. by intros ->. Qed.

(** ** Little-endian integers *)

Lemma length_le_bytes n v : length (le_bytes n v) = n.
Proof. revert v. induction n as [|n IH]; intros v; simpl; [done|by rewrite IH]. Qed.

Lemma le_val_bytes n v : 0 <= v < 256 ^ Z.of_nat n -> le_val (le_bytes n v) = v.
Proof.
  revert v. induction n as [|n IH]; intros v Hv; cbn [le_bytes le_val]; [simpl in Hv; lia|].
  rewrite Nat2Z.inj_succ, Z.pow_succ_r in Hv by lia. pose proof (Z.div_mod v 256 ltac:(lia)).
  rewrite IH; [lia|]. split; [apply Z.div_pos; lia|]. apply Z.div_lt_upper_bound; lia.
Qed.

Lemma le_val_range l :
  Forall (fun b => 0 <= b < 256) l -> 0 <= le_val l < 256 ^ Z.of_nat (length l).
Proof.
  induction 1 as [|b l Hb _ IH]; cbn [le_val length]; [lia|].
  rewrite Nat2Z.inj_succ, Z.pow_succ_r by lia. lia.
Qed.

(** Bits that do not meet are added. *)
(** Masking the low [k] bits rounds down. *)
Lemma mask_round x k : 0 <= k -> 0 <= x < 2 ^ 64 -> Z.land x (u64 (Z.lnot (2 ^ k - 1))) = x / 2 ^ k * 2 ^ k.
Proof.
  intros Hk Hx. unfold u64. rewrite <- Z.land_ones by lia. rewrite Z.land_assoc, <- Z.land_assoc, (Z.land_comm (Z.lnot _)), Z.land_assoc. rewrite Z.land_ones, Z.mod_small by lia.
  rewrite <- Z.ldiff_land, Z.sub_1_r, <- Z.ones_equiv. rewrite Z.ldiff_ones_r by lia. by rewrite Z.shiftl_mul_pow2, Z.shiftr_div_pow2 by lia.
Qed.

Lemma lor_shiftl a b k : 0 <= k -> 0 <= a < 2 ^ k -> Z.lor a (Z.shiftl b k) = a + b * 2 ^ k.
Proof.
  intros Hk Ha. rewrite <- Z.shiftl_mul_pow2 by done. symmetry. apply Z.add_nocarry_lor.
  apply Z.bits_inj'. intros i Hi. rewrite Z.land_spec, Z.bits_0. destruct (Z.ltb_spec i k).
  - rewrite (Z.shiftl_spec_low b) by done. apply andb_false_r.
  - replace (Z.testbit a i) with false; [done|]. symmetry. destruct (Z.eq_dec a 0) as [->|]; [apply Z.bits_0|].
    apply Z.bits_above_log2; [lia|]. apply Z.lt_le_trans with k; [|done]. apply Z.log2_lt_pow2; lia.
Qed.

(** ** Lemmas on [find_idx] *)

Section find_idx.
Context {A : Type} (p : A -> bool).

Lemma find_idx_Some l i :
  find_idx p l = Some i <->
  exists x, l !! i = Some x /\ p x = true /\
    forall j y, (j < i)%nat -> l !! j = Some y -> p y = false.
Proof.
  revert i. induction l as [|a l IH]; intros i; simpl.
  { split; [done|]. intros (x & Hx & _). done. }
  destruct (p a) eqn:Ha.
  - split.
    + intros [= <-]. exists a. split_and!; [done|done|lia].
    + intros (x & Hx & Hp & Hmin). destruct i as [|i]; [done|].
      specialize (Hmin 0%nat a ltac:(lia) eq_refl). congruence.
  - split.
    + intros (k & Hk & ->)%fmap_Some. apply IH in Hk as (x & Hx & Hp & Hmin).
      exists x. split_and!; [done|done|]. intros [|j] y Hj Hy; simplify_eq/=; [done|].
      eapply Hmin; [|done]. lia.
    + intros (x & Hx & Hp & Hmin). destruct i as [|i]; simplify_eq/=; [congruence|].
      rewrite (proj2 (IH i)); [done|]. exists x. split_and!; [done|done|].
      intros j y Hj Hy. apply (Hmin (S j) y); [lia|done].
Qed.

Lemma find_idx_None l :
  find_idx p l = None <-> forall i x, l !! i = Some x -> p x = false.
Proof.
  induction l as [|a l IH]; simpl; [split; [done|done]|].
  destruct (p a) eqn:Ha; split; try done.
  - intros H. specialize (H 0%nat a eq_refl). congruence.
  - intros H%fmap_None [|i] x Hx; simplify_eq/=; [done|]. by eapply (proj1 IH).
  - intros H. rewrite (proj2 IH); [done|]. intros i x Hx. apply (H (S i)). done.
Qed.

Lemma find_idx_is_Some l i x :
  l !! i = Some x -> p x = true -> is_Some (find_idx p l).
Proof.
  intros Hx Hp. destruct (find_idx p l) eqn:E; [done|].
  rewrite find_idx_None in E. rewrite (E i x Hx) in Hp. done.
Qed.

Lemma find_idx_lt l i : find_idx p l = Some i -> (i < length l)%nat.
Proof. intros (x & Hx & _)%find_idx_Some. by eapply lookup_lt_Some. Qed.

End find_idx.

(** ** Lemmas on array slices and block updates *)

Section slices.
Context {A : Type}.
Implicit Types l k : list A.

Lemma length_slice i n l : (i + n <= length l)%nat -> length (slice i n l) = n.
Proof. intros. unfold slice. rewrite length_take, length_drop. lia. Qed.

Lemma lookup_slice i n l j : (j < n)%nat -> slice i n l !! j = l !! (i + j)%nat.
Proof. intros. unfold slice. rewrite lookup_take_lt by done. apply lookup_drop. Qed.

Lemma slice_insert_out i n j x l :
  (j < i \/ i + n <= j)%nat -> slice i n (<[j := x]> l) = slice i n l.
Proof.
  intros H. apply list_eq. intros k. destruct (decide (k < n)%nat).
  - rewrite !lookup_slice by done. apply list_lookup_insert_ne. lia.
  - unfold slice. rewrite !lookup_take_ge by lia. done.
Qed.

Lemma slice_S i n l x : l !! i = Some x -> slice i (S n) l = x :: slice (S i) n l.
Proof. intros H. unfold slice. by rewrite (drop_S _ _ _ H). Qed.

Lemma slice_snoc i n l x :
  l !! (i + n)%nat = Some x -> slice i (S n) l = slice i n l ++ [x].
Proof.
  intros H. apply take_S_r. by rewrite lookup_drop.
Qed.

Lemma list_inserts_insert_ge i j k x l :
  (i + length k <= j)%nat ->
  list_inserts i k (<[j := x]> l) = <[j := x]> (list_inserts i k l).
Proof.
  revert i. induction k as [|y k IH]; intros i Hj; simpl in *; [done|].
  rewrite IH by lia. apply list_insert_insert_ne. lia.
Qed.

Lemma inserts_app i k k' l :
  list_inserts (i + length k) k' (list_inserts i k l) = list_inserts i (k ++ k') l.
Proof.
  revert i. induction k as [|x k IH]; intros i; simpl; [by rewrite Nat.add_0_r|].
  rewrite <- IH. replace (i + S (length k))%nat with (S i + length k)%nat by lia.
  symmetry. apply list_insert_inserts_lt. lia.
Qed.

Lemma inserts_prefix k l :
  (length k <= length l)%nat -> list_inserts 0 k l = k ++ drop (length k) l.
Proof.
  intros H. apply list_eq. intros i. destruct (decide (i < length k)%nat).
  - rewrite list_lookup_inserts, lookup_app_l by lia. by rewrite Nat.sub_0_r.
  - rewrite list_lookup_inserts_ge, lookup_app_r, lookup_drop by lia. f_equal. lia.
Qed.

Lemma slice_inserts_same i k l :
  (i + length k <= length l)%nat -> slice i (length k) (list_inserts i k l) = k.
Proof.
  intros H. apply list_eq. intros j. destruct (decide (j < length k)%nat).
  - rewrite lookup_slice by done. rewrite list_lookup_inserts by lia. f_equal. lia.
  - unfold slice. rewrite lookup_take_ge by lia. symmetry. apply lookup_ge_None. lia.
Qed.

Lemma slice_inserts_other i n j k l :
  (i + n <= j \/ j + length k <= i)%nat -> slice i n (list_inserts j k l) = slice i n l.
Proof.
  intros H. apply list_eq. intros a. destruct (decide (a < n)%nat).
  - rewrite !lookup_slice by done. destruct H.
    + apply list_lookup_inserts_lt. lia.
    + apply list_lookup_inserts_ge. lia.
  - unfold slice. rewrite !lookup_take_ge by lia. done.
Qed.

Lemma drop_inserts_ge i n k l : (i + length k <= n)%nat -> drop n (list_inserts i k l) = drop n l.
Proof. intros H. apply list_eq. intros j. rewrite !lookup_drop. apply list_lookup_inserts_ge. lia. Qed.

Lemma inserts_at (s k tail : list A) :
  (length k <= length tail)%nat -> list_inserts (length s) k (s ++ tail) = s ++ k ++ drop (length k) tail.
Proof.
  intros Hk. rewrite <- (inserts_prefix k tail) by done. pose proof (list_inserts_app_r k s tail 0) as H.
  by rewrite Nat.add_0_r in H.
Qed.

Lemma slice_slice i n j m l :
  (j + m <= n)%nat -> slice j m (slice i n l) = slice (i + j) m l.
Proof.
  intros H. apply list_eq. intros a. destruct (decide (a < m)%nat).
  - rewrite !lookup_slice by lia. f_equal. lia.
  - unfold slice. rewrite !lookup_take_ge by lia. done.
Qed.

End slices.

Lemma put_at s b x tail : put (s ++ x :: tail) (length s) b = Some (s ++ b :: tail).
Proof.
  unfold put. case_decide as H; [|rewrite length_app in H; simpl in H; lia].
  by rewrite <- (Nat.add_0_r (length s)), insert_app_r.
Qed.
