(* ===== verification/KString.v ===== *)
(** * The kernel's C string and memory routines (src/kernel/lib/string.c)

    A pointer that is only read is the list of bytes from it to the end of its
    object; a buffer that is written is the list of its bytes.  Reading or
    writing past the end is undefined behaviour in C and is [None] here.
    [memmove], [memcpy] and [memcmp] work inside one object so that overlapping
    ranges can be expressed: [m] is the object, [d] and [s] the offsets of the
    two pointers.  Bytes are [0..255]; [char] is signed on x86-64. *)

From Stdlib Require Import ZArith Lia.
From stdpp Require Import base list.
From S2P Require Import Prelude.

Local Open Scope Z_scope.

Fixpoint memset (m : list Z) (s : nat) (c : Z) (n : nat) : option (list Z) :=
  match n with
  | O => Some m
  | S n' =>
      if decide (s < length m)%nat then memset (<[s := u8 c]> m) (S s) c n' else None
  end.

Fixpoint memcpy (m : list Z) (d s n : nat) : option (list Z) :=
  match n with
  | O => Some m
  | S n' =>
      b ← m !! s;
      if decide (d < length m)%nat then memcpy (<[d := b]> m) (S d) (S s) n' else None
  end.

(** [memcpy] between two objects: [src] is the bytes from the source pointer
    on, [d] the destination offset in [dst]. *)
Fixpoint memcpy_obj (dst : list Z) (d : nat) (src : list Z) (n : nat) {struct n} : option (list Z) :=
  match n with
  | O => Some dst
  | S n' =>
      match src with
      | [] => None
      | b :: src' =>
          if decide (d < length dst)%nat then memcpy_obj (<[d := b]> dst) (S d) src' n' else None
      end
  end.

(** The backward loop of [memmove]: [while (n--) *--d = *--s], entered with
    [d] and [s] already advanced by [n]. *)
Fixpoint memmove_back (m : list Z) (d s n : nat) : option (list Z) :=
  match n with
  | O => Some m
  | S n' =>
      b ← m !! Nat.pred s;
      if decide (Nat.pred d < length m)%nat
      then memmove_back (<[Nat.pred d := b]> m) (Nat.pred d) (Nat.pred s) n'
      else None
  end.

Definition memmove (m : list Z) (d s n : nat) : option (list Z) :=
  if decide (d < s)%nat then memcpy m d s n else memmove_back m (d + n)%nat (s + n)%nat n.

Fixpoint memcmp (p1 p2 : list Z) (n : nat) {struct n} : option Z :=
  match n with
  | O => Some 0
  | S n' =>
      match p1, p2 with
      | b1 :: p1', b2 :: p2' => if b1 =? b2 then memcmp p1' p2' n' else Some (b1 - b2)
      | _, _ => None
      end
  end.

Fixpoint strcmp (s1 s2 : list Z) : option Z :=
  match s1, s2 with
  | b1 :: s1', b2 :: s2' =>
      if negb (b1 =? 0) && (b1 =? b2) then strcmp s1' s2' else Some (b1 - b2)
  | _, _ => None
  end.

Fixpoint strncmp (s1 s2 : list Z) (n : nat) {struct n} : option Z :=
  match n with
  | O => Some 0
  | S n' =>
      match s1, s2 with
      | b1 :: s1', b2 :: s2' =>
          if (b1 =? 0) || (b2 =? 0) || negb (b1 =? b2) then Some (b1 - b2)
          else strncmp s1' s2' n'
      | _, _ => None
      end
  end.

Fixpoint strlen (s : list Z) : option nat :=
  match s with
  | [] => None
  | b :: s' => if b =? 0 then Some O else S <$> strlen s'
  end.

(** [strncpy]: the loop that copies up to the terminator, then the loop that
    pads with zeros; [i] is the index both loops share. *)
Fixpoint strncpy_pad (dest : list Z) (i n : nat) : option (list Z) :=
  match n with
  | O => Some dest
  | S n' =>
      if decide (i < length dest)%nat then strncpy_pad (<[i := 0]> dest) (S i) n' else None
  end.

Fixpoint strncpy_from (dest src : list Z) (i n : nat) {struct n} : option (list Z) :=
  match n with
  | O => Some dest
  | S n' =>
      match src with
      | [] => None
      | b :: src' =>
          if b =? 0 then strncpy_pad dest i n
          else if decide (i < length dest)%nat
               then strncpy_from (<[i := b]> dest) src' (S i) n'
               else None
      end
  end.

Definition strncpy (dest src : list Z) (n : nat) : option (list Z) :=
  strncpy_from dest src 0 n.

(** [strchr] compares the promoted signed [char] with the [int] argument and
    stops at the terminator; the result is the offset of the match. *)
Fixpoint strchr (s : list Z) (c : Z) : option (option nat) :=
  match s with
  | [] => None
  | b :: s' =>
      if b =? 0 then Some None
      else if i8 b =? c then Some (Some O)
      else match strchr s' c with Some r => Some (option_map S r) | None => None end
  end.

(** [strrchr] narrows the argument to [char] first; [i] is the offset of [s]
    from the start of the string and [last] the last match so far. *)
Fixpoint strrchr_from (s : list Z) (c : Z) (i : nat) (last : option nat) : option (option nat) :=
  match s with
  | [] => None
  | b :: s' =>
      if b =? 0 then Some last
      else strrchr_from s' c (S i) (if i8 b =? i8 c then Some i else last)
  end.

Definition strrchr (s : list Z) (c : Z) : option (option nat) := strrchr_from s c 0 None.

Fixpoint strncat_loop (dest src : list Z) (i n : nat) {struct n} : option (list Z) :=
  let stop := if decide (i < length dest)%nat then Some (<[i := 0]> dest) else None in
  match n with
  | O => stop
  | S n' =>
      match src with
      | [] => None
      | b :: src' =>
          if b =? 0 then stop
          else if decide (i < length dest)%nat
               then strncat_loop (<[i := b]> dest) src' (S i) n'
               else None
      end
  end.

Definition strncat (dest src : list Z) (n : nat) : option (list Z) :=
  dest_len ← strlen dest;
  strncat_loop dest src dest_len n.

(** ** NUL-terminated strings *)

(** [cstring s str] says that the bytes at [s] hold the string [str]: the
    characters, none of them zero, a terminator, and anything after it. *)
Definition cstring (s str : list Z) : Prop :=
  exists rest, s = str ++ 0 :: rest /\ Forall (fun b => 0 < b < 256) str.

(** The bytes before the first zero. *)
Fixpoint until0 (s : list Z) : list Z :=
  match s with
  | [] => []
  | b :: s' => if b =? 0 then [] else b :: until0 s'
  end.

(** ** Lemmas *)

Lemma cstring_cons b s str :
  cstring (b :: s) str <->
  (b = 0 /\ str = []) \/ (exists str', 0 < b < 256 /\ str = b :: str' /\ cstring s str').
Proof.
  split.
  - intros (rest & Heq & Hall). destruct str as [|c str']; simplify_eq/=.
    + by left.
    + right. inversion Hall; subst. exists str'. split; [done|]. split; [done|].
      by exists rest.
  - intros [[-> ->]|(str' & Hb & -> & rest & -> & Hall)].
    + by exists s.
    + exists rest. split; [done|]. by constructor.
Qed.

Lemma cstring_nil str : ~ cstring [] str.
Proof. intros (rest & H & _). destruct str; done. Qed.

Lemma until0_cstring s str : cstring s str -> until0 s = str.
Proof.
  revert str. induction s as [|b s IH]; intros str H; [by apply cstring_nil in H|].
  apply cstring_cons in H as [[-> ->]|(str' & Hb & -> & Hs)]; [done|].
  simpl. destruct (Z.eqb_spec b 0); [lia|]. by rewrite (IH _ Hs).
Qed.

Lemma strlen_cstring s str : cstring s str -> strlen s = Some (length str).
Proof.
  revert str. induction s as [|b s IH]; intros str H.
  { by apply cstring_nil in H. }
  apply cstring_cons in H as [[-> ->]|(str' & Hb & -> & Hs)]; [done|].
  simpl. destruct (Z.eqb_spec b 0); [lia|]. by rewrite (IH _ Hs).
Qed.

Lemma strlen_Some s n : Forall (fun b => 0 <= b < 256) s ->
  strlen s = Some n -> cstring s (take n s).
Proof.
  revert n. induction s as [|b s IH]; intros n Hall H; [done|].
  inversion Hall; subst. simpl in H.
  destruct (Z.eqb_spec b 0) as [->|Hb]; simplify_eq/=.
  - by exists s.
  - apply fmap_Some in H as (k & Hk & ->). simpl.
    apply cstring_cons. right. exists (take k s). split_and!; [lia|lia|done|]. by apply IH.
Qed.

Lemma strcmp_cstring s1 s2 str1 str2 :
  cstring s1 str1 -> cstring s2 str2 ->
  exists r, strcmp s1 s2 = Some r /\ (r = 0 <-> str1 = str2).
Proof.
  revert s2 str1 str2. induction s1 as [|b1 s1 IH]; intros s2 str1 str2 H1 H2.
  { by apply cstring_nil in H1. }
  destruct s2 as [|b2 s2]; [by apply cstring_nil in H2|].
  apply cstring_cons in H1, H2. simpl.
  destruct (Z.eqb_spec b1 0) as [->|Hb1]; simpl.
  - eexists; split; [done|].
    destruct H1 as [[_ ->]|(? & ? & _)]; [|lia].
    destruct H2 as [[-> ->]|(? & ? & -> & _)]; split; try done; lia.
  - destruct H1 as [[? _]|(str1' & _ & -> & H1)]; [done|].
    destruct (Z.eqb_spec b1 b2) as [<-|Hne].
    + destruct H2 as [[? _]|(str2' & _ & -> & H2)]; [done|].
      destruct (IH s2 _ _ H1 H2) as (r & Hr & Hiff).
      exists r. split; [done|]. rewrite Hiff. split; [by intros ->|by intros [= ->]].
    + eexists; split; [done|]. split; [lia|].
      intros Heq. destruct H2 as [[-> ->]|(? & _ & -> & _)]; simplify_eq.
Qed.

Lemma strncmp_cstring s1 s2 str1 str2 n :
  cstring s1 str1 -> cstring s2 str2 ->
  exists r, strncmp s1 s2 n = Some r /\ (r = 0 <-> take n str1 = take n str2).
Proof.
  revert s2 str1 str2 n. induction s1 as [|b1 s1 IH]; intros s2 str1 str2 n H1 H2.
  { by apply cstring_nil in H1. }
  destruct s2 as [|b2 s2]; [by apply cstring_nil in H2|].
  destruct n as [|n]; [by exists 0|].
  apply cstring_cons in H1, H2. simpl.
  destruct (Z.eqb_spec b1 0) as [->|Hb1]; simpl.
  - eexists; split; [done|].
    destruct H1 as [[_ ->]|(? & ? & _)]; [|lia].
    destruct H2 as [[-> ->]|(? & ? & -> & _)]; split; try done; lia.
  - destruct H1 as [[? _]|(str1' & _ & -> & H1)]; [done|].
    destruct (Z.eqb_spec b2 0) as [->|Hb2]; simpl.
    + destruct H2 as [[_ ->]|(? & ? & _)]; [|lia].
      eexists; split; [done|]. split; [lia|done].
    + destruct H2 as [[? _]|(str2' & _ & -> & H2)]; [done|].
      destruct (Z.eqb_spec b1 b2) as [<-|Hne]; simpl.
      * destruct (IH s2 _ _ n H1 H2) as (r & Hr & Hiff).
        exists r. split; [done|]. rewrite Hiff. split; [by intros ->|by intros [= ->]].
      * eexists; split; [done|]. split; [lia|]. intros [= ?]. done.
Qed.

(** *** Block copies *)

Lemma memset_spec m s c n :
  (s + n <= length m)%nat -> memset m s c n = Some (list_inserts s (replicate n (u8 c)) m).
Proof.
  revert m s. induction n as [|n IH]; intros m s H; simpl; [done|].
  case_decide; [|lia]. rewrite IH by (rewrite length_insert; lia).
  by rewrite list_insert_inserts_lt by lia.
Qed.

Lemma memcpy_spec m d s n :
  (d + n <= length m)%nat -> (s + n <= length m)%nat -> (d <= s \/ s + n <= d)%nat ->
  memcpy m d s n = Some (list_inserts d (slice s n m) m).
Proof.
  revert m d s. induction n as [|n IH]; intros m d s Hd Hs Hov; simpl; [done|].
  destruct (lookup_lt_is_Some_2 m s) as [b Hb]; [lia|]. rewrite Hb. simpl.
  case_decide; [|lia].
  rewrite IH by (rewrite ?length_insert; lia).
  rewrite slice_insert_out by lia.
  rewrite (slice_S _ _ _ _ Hb). simpl. by rewrite list_insert_inserts_lt by lia.
Qed.

Lemma memcpy_obj_spec dst d src n :
  (d + n <= length dst)%nat -> (n <= length src)%nat ->
  memcpy_obj dst d src n = Some (list_inserts d (take n src) dst).
Proof.
  revert dst d src. induction n as [|n IH]; intros dst d src Hd Hs; [done|].
  destruct src as [|b src]; simpl in *; [lia|].
  case_decide; [|lia]. rewrite IH by (rewrite ?length_insert; lia).
  by rewrite list_insert_inserts_lt by lia.
Qed.

Lemma memcpy_obj_length dst d src n dst' :
  memcpy_obj dst d src n = Some dst' -> length dst' = length dst.
Proof.
  revert dst d src. induction n as [|n IH]; intros dst d src H; simplify_eq/=; [done|].
  destruct src as [|b src]; [done|]. case_decide; [|done].
  apply IH in H. by rewrite length_insert in H.
Qed.

Lemma memmove_back_spec m d s n :
  (d + n <= length m)%nat -> (s <= d)%nat ->
  memmove_back m (d + n) (s + n) n = Some (list_inserts d (slice s n m) m).
Proof.
  revert m. induction n as [|n IH]; intros m Hd Hs; simpl; [done|].
  replace (Nat.pred (s + S n)) with (s + n)%nat by lia.
  replace (Nat.pred (d + S n)) with (d + n)%nat by lia.
  destruct (lookup_lt_is_Some_2 m (s + n)) as [b Hb]; [lia|]. rewrite Hb. simpl.
  case_decide; [|lia].
  rewrite IH by (rewrite ?length_insert; lia).
  rewrite slice_insert_out by lia. rewrite (slice_snoc _ _ _ _ Hb).
  rewrite list_inserts_app_l, length_slice by lia. simpl.
  rewrite list_inserts_insert_ge by (rewrite length_slice; lia).
  by rewrite Nat.add_comm.
Qed.

Lemma strncpy_pad_spec dest i n :
  (i + n <= length dest)%nat ->
  strncpy_pad dest i n = Some (list_inserts i (replicate n 0) dest).
Proof.
  revert dest i. induction n as [|n IH]; intros dest i Hi; simpl; [done|].
  case_decide; [|lia]. rewrite IH by (rewrite length_insert; lia).
  by rewrite list_insert_inserts_lt by lia.
Qed.

Lemma strncpy_from_spec dest src str i n :
  cstring src str -> (i + n <= length dest)%nat ->
  strncpy_from dest src i n =
    Some (list_inserts i (take n str ++ replicate (n - length str) 0) dest).
Proof.
  revert dest src str i. induction n as [|n IH]; intros dest src str i Hsrc Hi; [done|].
  destruct src as [|b src]; [by apply cstring_nil in Hsrc|].
  apply cstring_cons in Hsrc as [[-> ->]|(str' & Hb & -> & Hsrc)].
  - cbn [strncpy_from]. rewrite Z.eqb_refl, strncpy_pad_spec by lia. done.
  - cbn [strncpy_from]. destruct (Z.eqb_spec b 0); [lia|]. case_decide; [|lia].
    rewrite (IH _ _ str') by (try rewrite length_insert; done || lia).
    simpl. by rewrite list_insert_inserts_lt by lia.
Qed.

Lemma strncat_loop_spec dest src str i n :
  cstring src str -> (i + Nat.min n (length str) < length dest)%nat ->
  strncat_loop dest src i n = Some (list_inserts i (take n str ++ [0]) dest).
Proof.
  revert dest src str i. induction n as [|n IH]; intros dest src str i Hsrc Hi.
  { simpl. case_decide; [done|lia]. }
  destruct src as [|b src]; [by apply cstring_nil in Hsrc|].
  apply cstring_cons in Hsrc as [[-> ->]|(str' & Hb & -> & Hsrc)].
  - simpl in *. case_decide; [done|lia].
  - cbn [strncat_loop]. simpl in Hi. destruct (Z.eqb_spec b 0); [lia|].
    case_decide; [|lia]. rewrite (IH _ _ str') by (try rewrite length_insert; done || lia).
    simpl. by rewrite list_insert_inserts_lt by lia.
Qed.

(** *** Searches *)

Lemma strrchr_from_spec s str c i last :
  cstring s str ->
  strrchr_from s c i last =
    Some (match find_idx (fun b => i8 b =? i8 c) (reverse str) with
          | Some k => Some (i + (length str - S k))%nat
          | None => last
          end).
Proof.
  revert str i last. induction s as [|b s IH]; intros str i last Hs.
  { by apply cstring_nil in Hs. }
  apply cstring_cons in Hs as [[-> ->]|(str' & Hb & -> & Hs)]; [done|].
  cbn [strrchr_from]. destruct (Z.eqb_spec b 0); [lia|]. rewrite (IH str') by done.
  rewrite reverse_cons. f_equal.
  assert (forall l, find_idx (fun b => i8 b =? i8 c) (l ++ [b]) =
            match find_idx (fun b => i8 b =? i8 c) l with
            | Some k => Some k
            | None => if i8 b =? i8 c then Some (length l) else None
            end) as Happ.
  { induction l as [|a l IHl]; simpl; [by destruct (_ =? _)|].
    destruct (i8 a =? i8 c); [done|]. rewrite IHl.
    destruct (find_idx _ l); [done|]. by destruct (i8 b =? i8 c). }
  rewrite Happ. destruct (find_idx _ (reverse str')) as [k|] eqn:Hk.
  - simpl. apply find_idx_lt in Hk. rewrite length_reverse in Hk. f_equal. lia.
  - destruct (i8 b =? i8 c); [|done]. simpl. rewrite length_reverse. f_equal. lia.
Qed.

Lemma i8_inj_byte a b : 0 <= a < 256 -> 0 <= b < 256 -> i8 a = i8 b -> a = b.
Proof. intros. wrap_lia. Qed.

(** ** Properties *)

(** [memmove] copies the original [n] source bytes to the destination and
    leaves the rest of the object unchanged, whatever the overlap of the two
    ranges. *)
Theorem memmove_correct m d s n :
  (d + n <= length m)%nat -> (s + n <= length m)%nat ->
  memmove m d s n = Some (list_inserts d (slice s n m) m).
Proof.
  intros Hd Hs. unfold memmove. case_decide.
  - apply memcpy_spec; lia.
  - apply memmove_back_spec; lia.
Qed.

Lemma memmove_correct_witness :
  memmove [1; 2; 3; 4; 5] 1 0 4 = Some [1; 1; 2; 3; 4].
Proof. rewrite (memmove_correct [1; 2; 3; 4; 5] 1 0 4) by (simpl; lia). reflexivity. Defined.

(** On two NUL-terminated strings the kernel's [strcmp] terminates inside
    both objects and returns zero exactly when the strings are equal. *)
Theorem strcmp_decides_equality s1 s2 str1 str2 :
  cstring s1 str1 -> cstring s2 str2 ->
  exists r, strcmp s1 s2 = Some r /\ (r = 0 <-> str1 = str2).
Proof. apply strcmp_cstring. Qed.

Lemma strcmp_decides_equality_witness :
  exists r, strcmp [47; 97; 0; 7] [47; 97; 0] = Some r /\ (r = 0 <-> [47; 97] = [47; 97]).
Proof.
  apply (strcmp_decides_equality [47; 97; 0; 7] [47; 97; 0] [47; 97] [47; 97]).
  - exists [7]. split; [reflexivity|repeat constructor; lia].
  - exists []. split; [reflexivity|repeat constructor; lia].
Defined.
