(* ===== verification/Ringbuf.v ===== *)
(** * SPSC ring buffer (src/kernel/ipc/ringbuf.h)

    [ringbuf_t] is the 64-byte header followed by the data area.  An operation
    that would touch memory outside the data area or the caller's buffer is
    [None]; otherwise it returns the C return value and the new ring.  The
    abstract view of a ring is the queue of its filled slots, oldest first. *)

From Stdlib Require Import ZArith Lia.
From stdpp Require Import base list.
From S2P Require Import Prelude KString.

Local Open Scope Z_scope.

Definition RINGBUF_MAGIC : Z := 0x52494E4742554631.
Definition RINGBUF_VERSION : Z := 1.

Record ringbuf_t := mk_ringbuf {
  rb_magic : Z;
  rb_version : Z;
  rb_slot_size : Z;
  rb_slot_count : Z;
  rb_pad : Z;
  rb_write_idx : Z;
  rb_read_idx : Z;
  rb_reserved : list Z;
  rb_data : list Z;
}.

Definition rb_set_write (rb : ringbuf_t) (w : Z) (d : list Z) : ringbuf_t :=
  mk_ringbuf (rb_magic rb) (rb_version rb) (rb_slot_size rb) (rb_slot_count rb) (rb_pad rb)
    w (rb_read_idx rb) (rb_reserved rb) d.

Definition rb_set_read (rb : ringbuf_t) (r : Z) : ringbuf_t :=
  mk_ringbuf (rb_magic rb) (rb_version rb) (rb_slot_size rb) (rb_slot_count rb) (rb_pad rb)
    (rb_write_idx rb) r (rb_reserved rb) (rb_data rb).

Definition is_pow2 (n : Z) : bool := negb (n =? 0) && (Z.land n (u32 (n - 1)) =? 0).

(** [sizeof(ringbuf_t)] is 64. *)
Definition ringbuf_required_size (slot_size slot_count : Z) : Z :=
  u64 (64 + u64 (slot_size * slot_count)).

(** [mem] is the memory the ring is built in, seen as a header and a data area
    of unknown contents; a null pointer is [None]. *)
Definition ringbuf_init (mem : option ringbuf_t) (slot_size slot_count : Z)
  : option (Z * option ringbuf_t) :=
  match mem with
  | None => Some (-1, None)
  | Some rb =>
      if negb (is_pow2 slot_size) || (slot_size <? 8) then Some (-1, mem)
      else if negb (is_pow2 slot_count) || (slot_count <? 2) then Some (-1, mem)
      else
        d ← memset (rb_data rb) 0 0 (Z.to_nat (u64 (slot_size * slot_count)));
        Some (0, Some (mk_ringbuf RINGBUF_MAGIC RINGBUF_VERSION slot_size slot_count 0 0 0
                         (replicate 24 0) d))
  end.

Definition ringbuf_valid (rb : option ringbuf_t) : bool :=
  match rb with
  | None => false
  | Some rb =>
      (rb_magic rb =? RINGBUF_MAGIC) && (rb_version rb =? RINGBUF_VERSION) &&
      is_pow2 (rb_slot_size rb) && (8 <=? rb_slot_size rb) &&
      is_pow2 (rb_slot_count rb) && (2 <=? rb_slot_count rb)
  end.

(** Byte offset of the slot of index [idx] in the data area. *)
Definition slot_offset (rb : ringbuf_t) (idx : Z) : Z :=
  Z.land idx (u32 (rb_slot_count rb - 1)) * rb_slot_size rb.

Definition ringbuf_push (rb : ringbuf_t) (dat : list Z) (size : Z) : option (Z * ringbuf_t) :=
  let widx := rb_write_idx rb in
  let ridx := rb_read_idx rb in
  if u64 (widx - ridx) =? rb_slot_count rb then Some (-1, rb)
  else if rb_slot_size rb <? size then Some (-1, rb)
  else
    d ← memcpy_obj (rb_data rb) (Z.to_nat (slot_offset rb widx)) dat (Z.to_nat size);
    Some (0, rb_set_write rb (u64 (widx + 1)) d).

(** The copy loop of [ringbuf_push_batch]: [todo] iterations from [i] on. *)
Fixpoint push_batch_loop (rb : ringbuf_t) (d items : list Z) (item_size i : Z) (todo : nat)
  : option (list Z) :=
  match todo with
  | O => Some d
  | S todo' =>
      d' ← memcpy_obj d (Z.to_nat (slot_offset rb (u64 (rb_write_idx rb + i))))
             (drop (Z.to_nat (i * item_size)) items) (Z.to_nat item_size);
      push_batch_loop rb d' items item_size (i + 1) todo'
  end.

Definition ringbuf_push_batch (rb : ringbuf_t) (items : list Z) (item_size n : Z)
  : option (Z * ringbuf_t) :=
  let widx := rb_write_idx rb in
  let ridx := rb_read_idx rb in
  let avail := u32 (rb_slot_count rb - u32 (u64 (widx - ridx))) in
  let n := if avail <? n then avail else n in
  if rb_slot_size rb <? item_size then Some (0, rb)
  else
    d ← push_batch_loop rb (rb_data rb) items item_size 0 (Z.to_nat n);
    Some (n, rb_set_write rb (u64 (widx + n)) d).

(** [ringbuf_pop] returns the code, the caller's buffer and the ring. *)
Definition ringbuf_pop (rb : ringbuf_t) (buf : list Z) (size : Z)
  : option (Z * list Z * ringbuf_t) :=
  let ridx := rb_read_idx rb in
  let widx := rb_write_idx rb in
  if ridx =? widx then Some (-1, buf, rb)
  else if rb_slot_size rb <? size then Some (-1, buf, rb)
  else
    b ← memcpy_obj buf 0 (drop (Z.to_nat (slot_offset rb ridx)) (rb_data rb)) (Z.to_nat size);
    Some (0, b, rb_set_read rb (u64 (ridx + 1))).

Fixpoint pop_batch_loop (rb : ringbuf_t) (buf : list Z) (item_size i : Z) (todo : nat)
  : option (list Z) :=
  match todo with
  | O => Some buf
  | S todo' =>
      b ← memcpy_obj buf (Z.to_nat (i * item_size))
            (drop (Z.to_nat (slot_offset rb (u64 (rb_read_idx rb + i)))) (rb_data rb))
            (Z.to_nat item_size);
      pop_batch_loop rb b item_size (i + 1) todo'
  end.

Definition ringbuf_pop_batch (rb : ringbuf_t) (buf : list Z) (item_size n : Z)
  : option (Z * list Z * ringbuf_t) :=
  let ridx := rb_read_idx rb in
  let widx := rb_write_idx rb in
  let avail := u32 (u64 (widx - ridx)) in
  let n := if avail <? n then avail else n in
  if rb_slot_size rb <? item_size then Some (0, buf, rb)
  else
    b ← pop_batch_loop rb buf item_size 0 (Z.to_nat n);
    Some (n, b, rb_set_read rb (u64 (ridx + n))).

Definition ringbuf_used (rb : ringbuf_t) : Z :=
  let d := u32 (u64 (rb_write_idx rb - rb_read_idx rb)) in
  if d <? rb_slot_count rb then d else rb_slot_count rb.

Definition ringbuf_free (rb : ringbuf_t) : Z := u32 (rb_slot_count rb - ringbuf_used rb).

Definition ringbuf_empty (rb : ringbuf_t) : bool := rb_write_idx rb =? rb_read_idx rb.

Definition ringbuf_full (rb : ringbuf_t) : bool := ringbuf_used rb =? rb_slot_count rb.

(** ** Well-formed rings and the queue they hold *)

(** A ring as [ringbuf_init] leaves it and as the operations keep it: a valid
    header of 32-bit fields, a data area of the right size, 64-bit indices at
    most [slot_count] apart (the difference wraps with the indices). *)
Record ringbuf_wf (rb : ringbuf_t) : Prop := {
  wf_valid : ringbuf_valid (Some rb) = true;
  wf_ss : 0 <= rb_slot_size rb < 2 ^ 32;
  wf_sc : 0 <= rb_slot_count rb < 2 ^ 32;
  wf_data : Z.of_nat (length (rb_data rb)) = rb_slot_size rb * rb_slot_count rb;
  wf_w : 0 <= rb_write_idx rb < 2 ^ 64;
  wf_r : 0 <= rb_read_idx rb < 2 ^ 64;
  wf_used : u64 (rb_write_idx rb - rb_read_idx rb) <= rb_slot_count rb;
}.

(** The bytes of the slot of index [idx]. *)
Definition slot (rb : ringbuf_t) (idx : Z) : list Z :=
  slice (Z.to_nat (slot_offset rb idx)) (Z.to_nat (rb_slot_size rb)) (rb_data rb).

Definition used (rb : ringbuf_t) : nat := Z.to_nat (u64 (rb_write_idx rb - rb_read_idx rb)).

(** The abstract queue: slots [read_idx .. write_idx), oldest first. *)
Definition contents (rb : ringbuf_t) : list (list Z) :=
  map (fun k => slot rb (u64 (rb_read_idx rb + Z.of_nat k))) (seq 0 (used rb)).

(** ** Lemmas *)

Lemma is_pow2_spec n : 0 < n < 2 ^ 32 -> is_pow2 n = true <-> exists k, 0 <= k < 32 /\ n = 2 ^ k.
Proof.
  intros Hn. unfold is_pow2. destruct (Z.eqb_spec n 0); [lia|]. simpl.
  rewrite u32_small by lia. rewrite Z.eqb_eq. split.
  - intros Hland. exists (Z.log2 n).
    assert (0 <= Z.log2 n < 32).
    { split; [apply Z.log2_nonneg|]. apply Z.log2_lt_pow2; lia. }
    split; [done|].
    pose proof (Z.log2_spec n ltac:(lia)) as [Hlo Hhi].
    destruct (Z.eq_dec n (2 ^ Z.log2 n)) as [|Hne]; [done|exfalso].
    assert (Z.log2 (n - 1) = Z.log2 n) as Hlog by (apply Z.log2_unique; lia).
    assert (0 < 2 ^ Z.log2 n) by (apply Z.pow_pos_nonneg; lia).
    assert (Z.testbit (Z.land n (n - 1)) (Z.log2 n) = true) as Hbit.
    { rewrite Z.land_spec, Z.bit_log2 by lia. rewrite <- Hlog, Z.bit_log2 by lia. done. }
    rewrite Hland, Z.bits_0 in Hbit. done.
  - intros (k & Hk & ->). apply Z.bits_inj'. intros i Hi.
    rewrite Z.land_spec, Z.bits_0, Z.pow2_bits_eqb by lia.
    destruct (Z.eqb_spec k i) as [<-|]; [|done].
    replace (2 ^ k - 1) with (Z.ones k) by (rewrite Z.ones_equiv; lia).
    rewrite Z.ones_spec_high by lia. done.
Qed.

Lemma mod_window x y n : 0 < y - x < n -> x mod n <> y mod n.
Proof.
  intros H Heq. pose proof (Z.div_mod x n ltac:(lia)). pose proof (Z.div_mod y n ltac:(lia)).
  rewrite Heq in *. revert H0 H1. clear Heq.
  generalize (x / n) (y / n) (y mod n). intros a b m -> ->.
  destruct (Z.le_gt_cases b a); nia.
Qed.

Section wf.
Context (rb : ringbuf_t) (Hwf : ringbuf_wf rb).
Local Abbreviation sc := (rb_slot_count rb).
Local Abbreviation ss := (rb_slot_size rb).

Lemma wf_sizes : 8 <= ss /\ exists k, 1 <= k < 32 /\ sc = 2 ^ k.
Proof using Hwf.
  destruct Hwf as [Hv Hss Hsc _ _ _ _]. simpl in Hv.
  rewrite !andb_true_iff, !Z.leb_le in Hv.
  destruct Hv as [[[[[_ _] _] H8] Hp] H2]. split; [done|].
  apply is_pow2_spec in Hp as (k & Hk & Heq); [|lia].
  exists k. split; [|done]. destruct (Z.eq_dec k 0) as [->|]; [simpl in Heq; lia|lia].
Qed.

Lemma wf_sc_pos : 2 <= sc.
Proof using Hwf.
  destruct wf_sizes as [_ (k & Hk & ->)].
  change 2 with (2 ^ 1) at 1. apply Z.pow_le_mono_r; lia.
Qed.

Lemma slot_offset_mod idx : slot_offset rb idx = (idx mod sc) * ss.
Proof using Hwf.
  unfold slot_offset. pose proof (wf_sc _ Hwf). pose proof wf_sc_pos.
  rewrite u32_small by lia.
  destruct wf_sizes as [_ (k & Hk & Heq)]. rewrite Heq.
  replace (2 ^ k - 1) with (Z.ones k) by (rewrite Z.ones_equiv; lia).
  rewrite Z.land_ones by lia. done.
Qed.

Lemma u64_mod_sc x : u64 x mod sc = x mod sc.
Proof using Hwf.
  destruct wf_sizes as [_ (k & Hk & Heq)]. unfold u64. rewrite Heq.
  apply Z.mod_mod_divide.
  exists (2 ^ (64 - k)). rewrite <- Z.pow_add_r by lia. f_equal. lia.
Qed.

Lemma slot_offset_u64 x : slot_offset rb (u64 x) = (x mod sc) * ss.
Proof using Hwf. by rewrite slot_offset_mod, u64_mod_sc. Qed.

Lemma slot_offset_range idx :
  0 <= slot_offset rb idx /\ slot_offset rb idx + ss <= Z.of_nat (length (rb_data rb)).
Proof using Hwf.
  rewrite slot_offset_mod, (wf_data _ Hwf).
  pose proof wf_sc_pos. pose proof (proj1 wf_sizes).
  pose proof (Z.mod_pos_bound idx sc ltac:(lia)). nia.
Qed.

Lemma slot_offset_disjoint x y :
  x mod sc <> y mod sc ->
  slot_offset rb x + ss <= slot_offset rb y \/ slot_offset rb y + ss <= slot_offset rb x.
Proof using Hwf.
  intros Hne. rewrite !slot_offset_mod. pose proof (proj1 wf_sizes).
  assert (x mod sc < y mod sc \/ y mod sc < x mod sc) as [|] by lia; [left|right]; nia.
Qed.

Lemma length_slot idx : length (slot rb idx) = Z.to_nat ss.
Proof using Hwf.
  unfold slot. apply length_slice. pose proof (slot_offset_range idx).
  pose proof (proj1 wf_sizes). lia.
Qed.

Lemma length_contents : length (contents rb) = used rb.
Proof using Type. unfold contents. by rewrite length_map, length_seq. Qed.

Lemma used_Z : Z.of_nat (used rb) = u64 (rb_write_idx rb - rb_read_idx rb).
Proof using Type.
  unfold used. rewrite Z2Nat.id; [done|]. apply u64_range.
Qed.

Lemma write_idx_used : u64 (rb_read_idx rb + Z.of_nat (used rb)) = rb_write_idx rb.
Proof using Hwf.
  rewrite used_Z, Z.add_comm. autorewrite with cint.
  rewrite Z.sub_add. apply u64_small, (wf_w _ Hwf).
Qed.

Lemma used_le : Z.of_nat (used rb) <= sc.
Proof using Hwf. rewrite used_Z. apply (wf_used _ Hwf). Qed.

Lemma full_iff : (u64 (rb_write_idx rb - rb_read_idx rb) =? sc) = true
  <-> Z.of_nat (length (contents rb)) = sc.
Proof using Type. by rewrite Z.eqb_eq, length_contents, used_Z. Qed.

Lemma empty_iff : (rb_read_idx rb =? rb_write_idx rb) = true <-> contents rb = [].
Proof using Hwf.
  pose proof (wf_w _ Hwf). pose proof (wf_r _ Hwf).
  rewrite Z.eqb_eq, <- length_zero_iff_nil, length_contents. split.
  - intros He. unfold used. by rewrite He, Z.sub_diag.
  - intros Hu. pose proof write_idx_used as Hw. rewrite Hu, Z.add_0_r in Hw.
    rewrite u64_small in Hw by lia. done.
Qed.

End wf.

(** Writing the first [size] bytes of a slot. *)
Lemma slice_inserts_prefix {A} off n (src l : list A) :
  (length src <= n)%nat -> (off + n <= length l)%nat ->
  slice off n (list_inserts off src l) = src ++ drop (length src) (slice off n l).
Proof.
  intros Hs Hn. apply list_eq. intros j. destruct (decide (j < n)%nat) as [Hj|Hj].
  - rewrite lookup_slice by done. destruct (decide (j < length src)%nat).
    + rewrite lookup_app_l by done. rewrite list_lookup_inserts by lia. f_equal. lia.
    + rewrite lookup_app_r by lia. rewrite list_lookup_inserts_ge by lia.
      rewrite lookup_drop, lookup_slice by lia. f_equal. lia.
  - unfold slice at 1. rewrite lookup_take_ge by lia. symmetry. apply lookup_ge_None.
    rewrite length_app, length_drop, length_slice; lia.
Qed.

Lemma contents_set_write rb d n :
  ringbuf_wf rb -> 0 <= n -> Z.of_nat (used rb) + n <= rb_slot_count rb ->
  length d = length (rb_data rb) ->
  ringbuf_wf (rb_set_write rb (u64 (rb_write_idx rb + n)) d) /\
  used (rb_set_write rb (u64 (rb_write_idx rb + n)) d) = (used rb + Z.to_nat n)%nat.
Proof.
  intros Hwf Hn Hle Hd. pose proof (wf_sc _ Hwf) as Hsc.
  assert (u64 (u64 (rb_write_idx rb + n) - rb_read_idx rb) = Z.of_nat (used rb) + n) as Hu.
  { rewrite u64_sub_l, <- (write_idx_used rb Hwf). rewrite <- (u64_sub_l (_ + n)), u64_add_l.
    rewrite u64_sub_l. replace (_ + _ + n - _) with (Z.of_nat (used rb) + n) by lia.
    apply u64_small. lia. }
  split.
  - destruct Hwf. constructor; simpl; try done.
    + by rewrite Hd.
    + apply u64_range.
    + rewrite Hu. lia.
  - unfold used at 1. simpl. rewrite Hu. lia.
Qed.

(** *** Push *)

Lemma push_full rb dat size :
  Z.of_nat (length (contents rb)) = rb_slot_count rb ->
  ringbuf_push rb dat size = Some (-1, rb).
Proof. intros H. unfold ringbuf_push. by rewrite (proj2 (full_iff rb) H). Qed.

Lemma push_too_big rb dat size :
  rb_slot_size rb < size -> ringbuf_push rb dat size = Some (-1, rb).
Proof.
  intros H. unfold ringbuf_push. destruct (_ =? _); [done|].
  by destruct (Z.ltb_spec (rb_slot_size rb) size); [|lia].
Qed.

(** The effect on the queue of filling the next free slot with [src]. *)
Lemma contents_push rb src :
  ringbuf_wf rb -> (used rb < Z.to_nat (rb_slot_count rb))%nat ->
  (length src <= Z.to_nat (rb_slot_size rb))%nat ->
  let d := list_inserts (Z.to_nat (slot_offset rb (rb_write_idx rb))) src (rb_data rb) in
  contents (rb_set_write rb (u64 (rb_write_idx rb + 1)) d) =
    contents rb ++ [src ++ drop (length src) (slot rb (rb_write_idx rb))].
Proof.
  intros Hwf Hu Hsrc d.
  destruct (contents_set_write rb d 1 Hwf) as [_ Hused]; [lia|lia|apply length_inserts|].
  unfold contents at 1. rewrite Hused. rewrite Nat.add_1_r, seq_S, map_app.
  pose proof (wf_sizes rb Hwf) as [Hss _].
  f_equal.
  - apply map_ext_in. intros k Hk%in_seq. unfold slot at 1. simpl.
    change (slot_offset (rb_set_write _ _ _)) with (slot_offset rb).
    unfold d. apply slice_inserts_other.
    assert ((rb_read_idx rb + Z.of_nat k) mod rb_slot_count rb <>
            rb_write_idx rb mod rb_slot_count rb) as Hne.
    { rewrite <- (write_idx_used rb Hwf), (u64_mod_sc rb Hwf). apply mod_window. lia. }
    pose proof (slot_offset_disjoint rb Hwf (u64 (rb_read_idx rb + Z.of_nat k)) (rb_write_idx rb)).
    rewrite (u64_mod_sc rb Hwf) in H.
    pose proof (slot_offset_range rb Hwf (u64 (rb_read_idx rb + Z.of_nat k))).
    pose proof (slot_offset_range rb Hwf (rb_write_idx rb)). specialize (H Hne). lia.
  - simpl. rewrite (write_idx_used rb Hwf). f_equal. unfold slot. simpl.
    change (slot_offset (rb_set_write _ _ _)) with (slot_offset rb).
    unfold d. pose proof (slot_offset_range rb Hwf (rb_write_idx rb)).
    apply slice_inserts_prefix; lia.
Qed.

Lemma push_ok rb dat size :
  ringbuf_wf rb -> Z.of_nat (length (contents rb)) < rb_slot_count rb ->
  0 <= size <= rb_slot_size rb -> size <= Z.of_nat (length dat) ->
  exists rb', ringbuf_push rb dat size = Some (0, rb') /\ ringbuf_wf rb' /\
    contents rb' = contents rb ++
      [take (Z.to_nat size) dat ++ drop (Z.to_nat size) (slot rb (rb_write_idx rb))].
Proof.
  intros Hwf Hroom Hsize Hdat. rewrite length_contents in Hroom.
  unfold ringbuf_push.
  destruct (Z.eqb_spec (u64 (rb_write_idx rb - rb_read_idx rb)) (rb_slot_count rb)) as [He|_].
  { rewrite <- used_Z in He. lia. }
  destruct (Z.ltb_spec (rb_slot_size rb) size); [lia|].
  pose proof (slot_offset_range rb Hwf (rb_write_idx rb)).
  rewrite memcpy_obj_spec by lia. simpl.
  eexists. split; [done|]. split.
  - apply contents_set_write; [done|lia|lia|apply length_inserts].
  - assert (length (take (Z.to_nat size) dat) = Z.to_nat size) as Hlen
      by (rewrite length_take; lia).
    rewrite contents_push by (try rewrite Hlen; done || lia). by rewrite Hlen.
Qed.

(** *** Pop *)

Lemma contents_set_read rb n :
  ringbuf_wf rb -> 0 <= n <= Z.of_nat (used rb) ->
  ringbuf_wf (rb_set_read rb (u64 (rb_read_idx rb + n))) /\
  contents (rb_set_read rb (u64 (rb_read_idx rb + n))) = drop (Z.to_nat n) (contents rb).
Proof.
  intros Hwf Hn. pose proof (used_le rb Hwf). pose proof (wf_sc _ Hwf).
  assert (u64 (rb_write_idx rb - u64 (rb_read_idx rb + n)) = Z.of_nat (used rb) - n) as Hu.
  { rewrite u64_sub_r, <- (write_idx_used rb Hwf), u64_sub_l.
    replace (_ + _ - _) with (Z.of_nat (used rb) - n) by lia. apply u64_small. lia. }
  split.
  - destruct Hwf. constructor; simpl; try done; [apply u64_range|rewrite Hu; lia].
  - unfold contents.
    assert (used (rb_set_read rb (u64 (rb_read_idx rb + n))) = used rb - Z.to_nat n)%nat as ->.
    { unfold used at 1. simpl. rewrite Hu. lia. }
    apply list_eq. intros i. rewrite lookup_drop, !list_lookup_fmap.
    destruct (decide (i < used rb - Z.to_nat n)%nat).
    + rewrite !lookup_seq_lt by lia. simpl. f_equal. unfold slot. simpl.
      change (slot_offset (rb_set_read _ _)) with (slot_offset rb).
      rewrite u64_add_l. replace (rb_read_idx rb + n + Z.of_nat i)
        with (rb_read_idx rb + Z.of_nat (Z.to_nat n + i)) by lia. done.
    + rewrite !lookup_seq_ge by lia. done.
Qed.

Lemma pop_empty rb buf size :
  ringbuf_wf rb -> contents rb = [] -> ringbuf_pop rb buf size = Some (-1, buf, rb).
Proof.
  intros Hwf H. unfold ringbuf_pop. by rewrite (proj2 (empty_iff rb Hwf) H).
Qed.

Lemma pop_too_big rb buf size :
  rb_slot_size rb < size -> ringbuf_pop rb buf size = Some (-1, buf, rb).
Proof.
  intros H. unfold ringbuf_pop. destruct (_ =? _); [done|].
  by destruct (Z.ltb_spec (rb_slot_size rb) size); [|lia].
Qed.

(** Reading the first [size] bytes of the slot at [idx] into a buffer. *)
Lemma slot_prefix rb idx size :
  ringbuf_wf rb -> 0 <= size <= rb_slot_size rb ->
  take (Z.to_nat size) (drop (Z.to_nat (slot_offset rb idx)) (rb_data rb)) =
  take (Z.to_nat size) (slot rb idx).
Proof. intros Hwf Hs. unfold slot, slice. rewrite take_take. f_equal. lia. Qed.

Lemma contents_head rb x q : ringbuf_wf rb -> contents rb = x :: q -> x = slot rb (rb_read_idx rb).
Proof.
  intros Hwf H. unfold contents in H. destruct (used rb) as [|n]; [done|]. simpl in H.
  injection H as <- _. rewrite Z.add_0_r, u64_small by apply (wf_r _ Hwf). done.
Qed.

Lemma pop_ok rb buf size x q :
  ringbuf_wf rb -> contents rb = x :: q ->
  0 <= size <= rb_slot_size rb -> size <= Z.of_nat (length buf) ->
  exists rb', ringbuf_pop rb buf size =
      Some (0, list_inserts 0 (take (Z.to_nat size) x) buf, rb') /\
    ringbuf_wf rb' /\ contents rb' = q.
Proof.
  intros Hwf Hq Hsize Hbuf. unfold ringbuf_pop.
  destruct (rb_read_idx rb =? rb_write_idx rb) eqn:He.
  { apply (empty_iff rb Hwf) in He. by rewrite He in Hq. }
  destruct (Z.ltb_spec (rb_slot_size rb) size); [lia|].
  pose proof (slot_offset_range rb Hwf (rb_read_idx rb)).
  rewrite memcpy_obj_spec by (rewrite ?length_drop; lia). simpl.
  rewrite (contents_head _ _ _ Hwf Hq), <- slot_prefix by done.
  assert (used rb = S (length q)) as Hu by (rewrite <- length_contents, Hq; done).
  destruct (contents_set_read rb 1 Hwf) as [Hwf' Hc]; [lia|].
  eexists. split; [done|]. split; [done|]. by rewrite Hc, Hq.
Qed.

(** *** Batches *)

(** The sizes of a ring never change. *)
Lemma push_sizes rb dat size r rb' :
  ringbuf_push rb dat size = Some (r, rb') ->
  rb_slot_size rb' = rb_slot_size rb /\ rb_slot_count rb' = rb_slot_count rb.
Proof.
  unfold ringbuf_push. intros H. repeat case_match; simplify_eq/=; try done.
  apply bind_Some in H as (d & _ & H). by simplify_eq/=.
Qed.

Lemma pop_sizes rb buf size r b rb' :
  ringbuf_pop rb buf size = Some (r, b, rb') ->
  rb_slot_size rb' = rb_slot_size rb /\ rb_slot_count rb' = rb_slot_count rb.
Proof.
  unfold ringbuf_pop. intros H. repeat case_match; simplify_eq/=; try done.
  apply bind_Some in H as (d & _ & H). by simplify_eq/=.
Qed.

Lemma push_batch_loop_split rb d items item_size i n d' :
  push_batch_loop rb d items item_size i (S n) = Some d' <->
  exists d1, memcpy_obj d (Z.to_nat (slot_offset rb (u64 (rb_write_idx rb + i))))
    (drop (Z.to_nat (i * item_size)) items) (Z.to_nat item_size) = Some d1 /\
    push_batch_loop rb d1 items item_size (i + 1) n = Some d'.
Proof. simpl. apply bind_Some. Qed.

(** Reference definition of a batch push: [n] single pushes. *)
Fixpoint push_all (rb : ringbuf_t) (items : list Z) (item_size : Z) (n : nat) : option ringbuf_t :=
  match n with
  | O => Some rb
  | S n' =>
      '(r, rb') ← ringbuf_push rb items item_size;
      if r =? 0 then push_all rb' (drop (Z.to_nat item_size) items) item_size n' else None
  end.

Lemma rb_set_write_write rb w d w' d' :
  rb_set_write (rb_set_write rb w d) w' d' = rb_set_write rb w' d'.
Proof. done. Qed.

Lemma push_batch_loop_shift rb w d1 d items item_size i n :
  0 <= i -> 0 <= item_size ->
  w = u64 (rb_write_idx rb + 1) ->
  push_batch_loop (rb_set_write rb w d1) d (drop (Z.to_nat item_size) items) item_size i n =
  push_batch_loop rb d items item_size (i + 1) n.
Proof.
  intros Hi Hsz ->. revert d i Hi. induction n as [|n IH]; intros d i Hi; [done|].
  cbn [push_batch_loop].
  change (slot_offset (rb_set_write _ _ _)) with (slot_offset rb). simpl rb_write_idx.
  rewrite u64_add_l, drop_drop.
  replace (rb_write_idx rb + 1 + i) with (rb_write_idx rb + (i + 1)) by lia.
  replace (Z.to_nat item_size + Z.to_nat (i * item_size))%nat
    with (Z.to_nat ((i + 1) * item_size)) by nia.
  destruct (memcpy_obj _ _ _ _); [|done]. simpl. apply IH. lia.
Qed.

Lemma push_batch_loop_push_all rb items item_size n :
  ringbuf_wf rb -> 0 <= item_size <= rb_slot_size rb ->
  Z.of_nat (used rb) + Z.of_nat n <= rb_slot_count rb ->
  Z.of_nat n * item_size <= Z.of_nat (length items) ->
  exists d, push_batch_loop rb (rb_data rb) items item_size 0 n = Some d /\
    push_all rb items item_size n = Some (rb_set_write rb (u64 (rb_write_idx rb + Z.of_nat n)) d).
Proof.
  revert rb items. induction n as [|n IH]; intros rb items Hwf Hsz Hroom Hlen.
  { exists (rb_data rb). split; [done|]. simpl. rewrite Z.add_0_r, u64_small by apply (wf_w _ Hwf).
    by destruct rb. }
  destruct (push_ok rb items item_size Hwf) as (rb' & Hpush & Hwf' & Hc);
    [rewrite length_contents; lia|done|nia|].
  pose proof Hpush as Hpush'. unfold ringbuf_push in Hpush'.
  destruct (_ =? _); [done|]. destruct (_ <? _); [done|].
  destruct (memcpy_obj (rb_data rb) _ items _) as [d1|] eqn:Hm; simplify_eq/=.
  apply (f_equal length) in Hc. rewrite length_app, !length_contents in Hc. simpl in Hc.
  destruct (IH _ (drop (Z.to_nat item_size) items) Hwf') as (d & Hloop & Hall);
    [done|rewrite Hc; simpl; lia|rewrite length_drop; nia|].
  exists d. cbn [push_batch_loop push_all].
  rewrite Z.add_0_r, Z.mul_0_l, u64_small by apply (wf_w _ Hwf).
  change (drop (Z.to_nat 0) items) with items. rewrite Hm, Hpush. simpl. split.
  - rewrite <- Hloop. symmetry. apply (push_batch_loop_shift rb _ d1); [lia|lia|done].
  - rewrite Hall. simpl. rewrite u64_add_l, rb_set_write_write.
    replace (rb_write_idx rb + 1 + Z.of_nat n) with (rb_write_idx rb + Z.pos (Pos.of_succ_nat n)) by lia.
    done.
Qed.

Lemma avail_room rb :
  ringbuf_wf rb ->
  u32 (rb_slot_count rb - u32 (u64 (rb_write_idx rb - rb_read_idx rb))) =
  rb_slot_count rb - Z.of_nat (used rb).
Proof.
  intros Hwf. rewrite <- used_Z. pose proof (used_le rb Hwf). pose proof (wf_sc _ Hwf).
  rewrite (u32_small (Z.of_nat _)) by lia. apply u32_small. lia.
Qed.

Lemma used_count rb :
  ringbuf_wf rb -> u32 (u64 (rb_write_idx rb - rb_read_idx rb)) = Z.of_nat (used rb).
Proof.
  intros Hwf. rewrite <- used_Z. pose proof (used_le rb Hwf). pose proof (wf_sc _ Hwf).
  apply u32_small. lia.
Qed.

(** The buffer after [n] items were copied to it, one after the other. *)
Lemma pop_batch_loop_ok rb buf item_size i n :
  ringbuf_wf rb -> 0 <= item_size <= rb_slot_size rb -> 0 <= i ->
  (i + Z.of_nat n) * item_size <= Z.of_nat (length buf) ->
  pop_batch_loop rb buf item_size i n =
    Some (list_inserts (Z.to_nat (i * item_size))
      (concat (map (fun k => take (Z.to_nat item_size) (slot rb (u64 (rb_read_idx rb + i + Z.of_nat k))))
                 (seq 0 n))) buf).
Proof.
  intros Hwf Hsz. revert buf i. induction n as [|n IH]; intros buf i Hi Hbuf; [done|].
  cbn [pop_batch_loop].
  pose proof (slot_offset_range rb Hwf (u64 (rb_read_idx rb + i))).
  rewrite memcpy_obj_spec by (rewrite ?length_drop; nia). simpl.
  rewrite slot_prefix by done.
  rewrite IH by (rewrite ?length_inserts; lia).
  rewrite Z.add_0_r, list_inserts_app_l. f_equal.
  rewrite length_take, length_slot by done.
  replace (Z.to_nat item_size `min` Z.to_nat (rb_slot_size rb) + Z.to_nat (i * item_size))%nat
    with (Z.to_nat ((i + 1) * item_size)) by nia.
  f_equal. rewrite <- (fmap_S_seq 0), map_map. f_equal. apply map_ext. intros k.
  do 3 f_equal. lia.
Qed.

(** *** Initialisation and the counters *)

Lemma init_ok rb ss sc :
  is_pow2 ss = true -> 8 <= ss < 2 ^ 32 -> is_pow2 sc = true -> 2 <= sc < 2 ^ 32 ->
  Z.of_nat (length (rb_data rb)) = ss * sc ->
  exists rb', ringbuf_init (Some rb) ss sc = Some (0, Some rb') /\
    ringbuf_wf rb' /\ contents rb' = [] /\ rb_slot_size rb' = ss /\ rb_slot_count rb' = sc.
Proof.
  intros Hp8 H8 Hp2 H2 Hlen. unfold ringbuf_init. rewrite Hp8, Hp2. simpl.
  destruct (Z.ltb_spec ss 8); [lia|]. destruct (Z.ltb_spec sc 2); [lia|].
  rewrite u64_small by nia. rewrite memset_spec by lia. simpl.
  eexists. split; [done|]. split; [|done]. constructor; simpl; try lia.
  - rewrite Hp8, Hp2. destruct (Z.leb_spec 8 ss); [|lia]. destruct (Z.leb_spec 2 sc); [done|lia].
  - by rewrite length_inserts.
  - change (u64 (0 - 0)) with 0. lia.
Qed.

Lemma init_rejects rb ss sc :
  (is_pow2 ss = false \/ ss < 8 \/ is_pow2 sc = false \/ sc < 2) ->
  ringbuf_init (Some rb) ss sc = Some (-1, Some rb).
Proof.
  intros H. unfold ringbuf_init.
  destruct (is_pow2 ss); simpl; [|done]. destruct (Z.ltb_spec ss 8); [done|].
  destruct (is_pow2 sc); simpl; [|done]. destruct (Z.ltb_spec sc 2); [done|].
  destruct H as [H|[H|[H|H]]]; congruence || lia.
Qed.

Lemma ringbuf_used_ok rb : ringbuf_wf rb -> ringbuf_used rb = Z.of_nat (length (contents rb)).
Proof.
  intros Hwf. unfold ringbuf_used. rewrite used_count, length_contents by done.
  pose proof (used_le rb Hwf). destruct (Z.ltb_spec (Z.of_nat (used rb)) (rb_slot_count rb)); lia.
Qed.

(** A ring of two 8-byte slots that holds one item and whose write index has
    just wrapped around. *)
Definition demo_ring : ringbuf_t :=
  mk_ringbuf RINGBUF_MAGIC RINGBUF_VERSION 8 2 0 0 (2 ^ 64 - 1) (replicate 24 0)
    [0; 0; 0; 0; 0; 0; 0; 0; 1; 2; 3; 4; 5; 6; 7; 8].

Lemma demo_ring_wf : ringbuf_wf demo_ring.
Proof. constructor; vm_compute; intuition congruence. Qed.

(** ** Properties *)

(** [ringbuf_push] implements the bounded queue.  On a full ring, or for an
    item larger than a slot, it returns -1 and changes nothing; otherwise it
    stays inside the data area, returns 0, keeps the ring well formed and
    appends the item (with the stale tail of the slot behind a short item).
    The statement covers indices that wrap around 2^64. *)
Theorem ringbuf_push_refines_queue rb dat size :
  ringbuf_wf rb -> 0 <= size <= Z.of_nat (length dat) ->
  if decide (Z.of_nat (length (contents rb)) = rb_slot_count rb \/ rb_slot_size rb < size)
  then ringbuf_push rb dat size = Some (-1, rb)
  else exists rb' tail, ringbuf_push rb dat size = Some (0, rb') /\ ringbuf_wf rb' /\
    contents rb' = contents rb ++ [take (Z.to_nat size) dat ++ tail] /\
    Z.of_nat (length tail) = rb_slot_size rb - size.
Proof.
  intros Hwf Hs. case_decide as Hd.
  - destruct Hd; [by apply push_full|by apply push_too_big].
  - pose proof (used_le rb Hwf). rewrite length_contents in Hd.
    destruct (push_ok rb dat size Hwf) as (rb' & Hp & Hwf' & Hc);
      [rewrite length_contents; lia|lia|lia|].
    eexists rb', _. split_and!; [done|done|done|].
    rewrite length_drop, length_slot by done. lia.
Qed.

Lemma ringbuf_push_refines_queue_witness :
  exists rb' tail, ringbuf_push demo_ring [9; 9; 9] 3 = Some (0, rb') /\ ringbuf_wf rb' /\
    contents rb' = [[1; 2; 3; 4; 5; 6; 7; 8]; [9; 9; 9] ++ tail] /\
    Z.of_nat (length tail) = 5.
Proof.
  exact (ringbuf_push_refines_queue demo_ring [9; 9; 9] 3 demo_ring_wf
           ltac:(vm_compute; intuition congruence)).
Defined.

(** [ringbuf_pop] implements the bounded queue.  On an empty ring, or when
    more than a slot is asked for, it returns -1 and changes nothing; otherwise
    it copies the first [size] bytes of the oldest item to the buffer and
    removes that item. *)
Theorem ringbuf_pop_refines_queue rb buf size :
  ringbuf_wf rb -> 0 <= size <= Z.of_nat (length buf) ->
  match contents rb with
  | [] => ringbuf_pop rb buf size = Some (-1, buf, rb)
  | x :: q =>
      if decide (rb_slot_size rb < size) then ringbuf_pop rb buf size = Some (-1, buf, rb)
      else exists rb', ringbuf_pop rb buf size =
             Some (0, list_inserts 0 (take (Z.to_nat size) x) buf, rb') /\
           ringbuf_wf rb' /\ contents rb' = q
  end.
Proof.
  intros Hwf Hs. destruct (contents rb) as [|x q] eqn:Hq; [by apply pop_empty|].
  case_decide; [by apply pop_too_big|]. apply pop_ok; [done|done|lia|lia].
Qed.

Lemma ringbuf_pop_refines_queue_witness :
  exists rb', ringbuf_pop demo_ring [0; 0; 0; 0] 2 = Some (0, [1; 2; 0; 0], rb') /\
    ringbuf_wf rb' /\ contents rb' = [].
Proof.
  exact (ringbuf_pop_refines_queue demo_ring [0; 0; 0; 0] 2 demo_ring_wf
           ltac:(vm_compute; intuition congruence)).
Defined.

(** A batch push of [n] items is the same as pushing one by one as many of
    them as fit, and it returns that number. *)
Theorem ringbuf_push_batch_is_pushes rb items item_size n :
  ringbuf_wf rb -> 0 <= item_size <= rb_slot_size rb -> 0 <= n ->
  n * item_size <= Z.of_nat (length items) ->
  let m := Z.min n (rb_slot_count rb - Z.of_nat (length (contents rb))) in
  exists rb', ringbuf_push_batch rb items item_size n = Some (m, rb') /\
    push_all rb items item_size (Z.to_nat m) = Some rb'.
Proof.
  intros Hwf Hsz Hn Hlen. rewrite length_contents. intros m.
  unfold ringbuf_push_batch. rewrite avail_room by done. pose proof (used_le rb Hwf).
  assert ((if rb_slot_count rb - Z.of_nat (used rb) <? n
           then rb_slot_count rb - Z.of_nat (used rb) else n) = m) as ->
    by (unfold m; destruct (Z.ltb_spec (rb_slot_count rb - Z.of_nat (used rb)) n); lia).
  destruct (Z.ltb_spec (rb_slot_size rb) item_size); [lia|].
  destruct (push_batch_loop_push_all rb items item_size (Z.to_nat m) Hwf Hsz) as (d & -> & ->);
    [lia|nia|]. simpl. rewrite Z2Nat.id by lia. by eexists.
Qed.

Lemma ringbuf_push_batch_is_pushes_witness :
  exists rb', ringbuf_push_batch demo_ring [1; 2; 3; 4; 5; 6; 7; 8; 9] 3 3 = Some (1, rb') /\
    push_all demo_ring [1; 2; 3; 4; 5; 6; 7; 8; 9] 3 1 = Some rb'.
Proof.
  exact (ringbuf_push_batch_is_pushes demo_ring [1; 2; 3; 4; 5; 6; 7; 8; 9] 3 3 demo_ring_wf
           ltac:(vm_compute; intuition congruence) ltac:(lia) ltac:(simpl; lia)).
Defined.

(** A batch pop of [n] items copies the oldest items, as many as there are
    up to [n], to consecutive places of the buffer, returns their number and
    removes exactly those from the queue. *)
Theorem ringbuf_pop_batch_takes_prefix rb buf item_size n :
  ringbuf_wf rb -> 0 <= item_size <= rb_slot_size rb -> 0 <= n ->
  n * item_size <= Z.of_nat (length buf) ->
  let m := Nat.min (Z.to_nat n) (length (contents rb)) in
  exists rb', ringbuf_pop_batch rb buf item_size n =
      Some (Z.of_nat m,
            list_inserts 0 (concat (map (take (Z.to_nat item_size)) (take m (contents rb)))) buf,
            rb') /\
    ringbuf_wf rb' /\ contents rb' = drop m (contents rb).
Proof.
  intros Hwf Hsz Hn Hlen. rewrite length_contents. intros m.
  unfold ringbuf_pop_batch. rewrite used_count by done.
  assert ((if Z.of_nat (used rb) <? n then Z.of_nat (used rb) else n) = Z.of_nat m) as ->
    by (unfold m; destruct (Z.ltb_spec (Z.of_nat (used rb)) n); lia).
  destruct (Z.ltb_spec (rb_slot_size rb) item_size); [lia|].
  rewrite pop_batch_loop_ok by (done || lia || nia).
  destruct (contents_set_read rb (Z.of_nat m) Hwf) as [Hwf' Hc]; [lia|].
  rewrite Nat2Z.id in *. simpl. eexists. split; [|by split].
  do 4 f_equal. unfold contents.
  rewrite firstn_map, map_map, take_seq, Nat.min_l by lia. f_equal. apply map_ext. intros k.
  by rewrite Z.add_0_r.
Qed.

Lemma ringbuf_pop_batch_takes_prefix_witness :
  exists rb', ringbuf_pop_batch demo_ring [0; 0; 0; 0; 0; 0] 3 2 =
      Some (1, [1; 2; 3; 0; 0; 0], rb') /\ ringbuf_wf rb' /\ contents rb' = [].
Proof.
  exact (ringbuf_pop_batch_takes_prefix demo_ring [0; 0; 0; 0; 0; 0] 3 2 demo_ring_wf
           ltac:(vm_compute; intuition congruence) ltac:(lia) ltac:(simpl; lia)).
Defined.
