(* ===== verification/RingbufSpsc.v ===== *)
(** * The ring buffer shared by one producer and one consumer

    Small-step model of [ringbuf_push] and [ringbuf_pop]
    (src/kernel/ipc/ringbuf.h) running concurrently on one shared ring.  Each
    atomic load, each byte of the two [memcpy]s and each atomic store is a step
    of its own, and the steps of the two sides interleave arbitrarily.  Memory
    is sequentially consistent; the release/acquire pairs of the source are what
    makes that view of the slot bytes valid.

    [sp_pushed] and [sp_popped] are ghost histories: the items whose push has
    returned 0 and the items pops have returned, in order. *)

From Stdlib Require Import ZArith Lia.
From stdpp Require Import base list relations.
From S2P Require Import Prelude KString Ringbuf.

Local Open Scope Z_scope.

(** Where the producer is inside [ringbuf_push]. *)
Inductive prod_pc :=
| PIdle
| PLoadedW (item : list Z) (widx : Z)
| PLoadedR (item : list Z) (widx ridx : Z)
| PCopy (item : list Z) (widx : Z) (k : nat).

(** Where the consumer is inside [ringbuf_pop]; [acc] is the filled part of the
    caller's buffer. *)
Inductive cons_pc :=
| CIdle
| CLoadedR (ridx : Z)
| CLoadedW (ridx widx : Z)
| CCopy (ridx : Z) (acc : list Z).

Record spsc := mk_spsc {
  sp_ring : ringbuf_t;
  sp_prod : prod_pc;
  sp_cons : cons_pc;
  sp_pushed : list (list Z);
  sp_popped : list (list Z);
}.

Section spsc.
(** Both sides use items of [size] bytes. *)
Context (size : nat).

Inductive spsc_step : spsc -> spsc -> Prop :=
| P_load_widx rb c hin hout item :
    length item = size ->
    spsc_step (mk_spsc rb PIdle c hin hout)
              (mk_spsc rb (PLoadedW item (rb_write_idx rb)) c hin hout)
| P_load_ridx rb c hin hout item w :
    spsc_step (mk_spsc rb (PLoadedW item w) c hin hout)
              (mk_spsc rb (PLoadedR item w (rb_read_idx rb)) c hin hout)
| P_full rb c hin hout item w r :
    u64 (w - r) = rb_slot_count rb ->
    spsc_step (mk_spsc rb (PLoadedR item w r) c hin hout) (mk_spsc rb PIdle c hin hout)
| P_start rb c hin hout item w r :
    u64 (w - r) <> rb_slot_count rb ->
    spsc_step (mk_spsc rb (PLoadedR item w r) c hin hout) (mk_spsc rb (PCopy item w 0) c hin hout)
| P_byte rb c hin hout item w k b :
    item !! k = Some b ->
    spsc_step (mk_spsc rb (PCopy item w k) c hin hout)
      (mk_spsc (rb_set_write rb (rb_write_idx rb)
                  (<[(Z.to_nat (slot_offset rb w) + k)%nat := b]> (rb_data rb)))
         (PCopy item w (S k)) c hin hout)
| P_store rb c hin hout item w :
    spsc_step (mk_spsc rb (PCopy item w size) c hin hout)
      (mk_spsc (rb_set_write rb (u64 (w + 1)) (rb_data rb)) PIdle c (hin ++ [item]) hout)
| C_load_ridx rb p hin hout :
    spsc_step (mk_spsc rb p CIdle hin hout) (mk_spsc rb p (CLoadedR (rb_read_idx rb)) hin hout)
| C_load_widx rb p hin hout r :
    spsc_step (mk_spsc rb p (CLoadedR r) hin hout)
              (mk_spsc rb p (CLoadedW r (rb_write_idx rb)) hin hout)
| C_empty rb p hin hout r w :
    r = w -> spsc_step (mk_spsc rb p (CLoadedW r w) hin hout) (mk_spsc rb p CIdle hin hout)
| C_start rb p hin hout r w :
    r <> w -> spsc_step (mk_spsc rb p (CLoadedW r w) hin hout) (mk_spsc rb p (CCopy r []) hin hout)
| C_byte rb p hin hout r acc b :
    (length acc < size)%nat ->
    rb_data rb !! (Z.to_nat (slot_offset rb r) + length acc)%nat = Some b ->
    spsc_step (mk_spsc rb p (CCopy r acc) hin hout) (mk_spsc rb p (CCopy r (acc ++ [b])) hin hout)
| C_store rb p hin hout r acc :
    length acc = size ->
    spsc_step (mk_spsc rb p (CCopy r acc) hin hout)
      (mk_spsc (rb_set_read rb (u64 (r + 1))) p CIdle hin (hout ++ [acc])).

(** What each side knows at its program point. *)
Definition prod_inv (rb : ringbuf_t) (p : prod_pc) : Prop :=
  match p with
  | PIdle => True
  | PLoadedW item w => length item = size /\ w = rb_write_idx rb
  | PLoadedR item w r =>
      length item = size /\ w = rb_write_idx rb /\
      Z.of_nat (used rb) <= u64 (w - r) <= rb_slot_count rb
  | PCopy item w k =>
      length item = size /\ w = rb_write_idx rb /\ (k <= size)%nat /\
      Z.of_nat (used rb) < rb_slot_count rb /\ take k (slot rb w) = take k item
  end.

Definition cons_inv (rb : ringbuf_t) (c : cons_pc) : Prop :=
  match c with
  | CIdle => True
  | CLoadedR r => r = rb_read_idx rb
  | CLoadedW r w =>
      r = rb_read_idx rb /\ 0 <= w < 2 ^ 64 /\ u64 (w - r) <= Z.of_nat (used rb)
  | CCopy r acc =>
      r = rb_read_idx rb /\ (0 < used rb)%nat /\ (length acc <= size)%nat /\
      acc = take (length acc) (slot rb r)
  end.

Record spsc_inv (s : spsc) : Prop := {
  inv_wf : ringbuf_wf (sp_ring s);
  inv_size : Z.of_nat size <= rb_slot_size (sp_ring s);
  inv_fifo : sp_pushed s = sp_popped s ++ map (take size) (contents (sp_ring s));
  inv_prod : prod_inv (sp_ring s) (sp_prod s);
  inv_cons : cons_inv (sp_ring s) (sp_cons s);
}.

(** A ring in use by nobody. *)
Definition spsc_init (rb : ringbuf_t) : spsc :=
  mk_spsc rb PIdle CIdle (map (take size) (contents rb)) [].

(** ** Lemmas *)

(** Writing a byte of the slot the producer owns: nothing the consumer or the
    queue can see changes. *)
Section producer_byte.
Context (rb : ringbuf_t) (Hwf : ringbuf_wf rb) (k : nat) (b : Z).
Context (Hroom : Z.of_nat (used rb) < rb_slot_count rb).
Context (Hk : Z.of_nat k < rb_slot_size rb).
Let off : nat := (Z.to_nat (slot_offset rb (rb_write_idx rb)) + k)%nat.
Let rb' : ringbuf_t := rb_set_write rb (rb_write_idx rb) (<[off := b]> (rb_data rb)).

Lemma byte_wf : ringbuf_wf rb'.
Proof using Hwf. destruct Hwf. constructor; simpl; try done. by rewrite length_insert. Qed.

Lemma byte_slot_other i :
  (i < used rb)%nat ->
  slot rb' (u64 (rb_read_idx rb + Z.of_nat i)) = slot rb (u64 (rb_read_idx rb + Z.of_nat i)).
Proof using Hwf Hroom Hk.
  intros Hi. unfold slot. change (slot_offset rb') with (slot_offset rb).
  change (rb_slot_size rb') with (rb_slot_size rb).
  unfold rb'. simpl. apply slice_insert_out. unfold off.
  assert ((rb_read_idx rb + Z.of_nat i) mod rb_slot_count rb <>
          rb_write_idx rb mod rb_slot_count rb) as Hne.
  { rewrite <- (write_idx_used rb Hwf), (u64_mod_sc rb Hwf). apply mod_window. lia. }
  pose proof (slot_offset_disjoint rb Hwf (u64 (rb_read_idx rb + Z.of_nat i)) (rb_write_idx rb)) as Hd.
  rewrite (u64_mod_sc rb Hwf) in Hd. specialize (Hd Hne).
  pose proof (slot_offset_range rb Hwf (u64 (rb_read_idx rb + Z.of_nat i))).
  pose proof (slot_offset_range rb Hwf (rb_write_idx rb)). lia.
Qed.

Lemma byte_contents : contents rb' = contents rb.
Proof using Hwf Hroom Hk.
  unfold contents. change (used rb') with (used rb). apply map_ext_in.
  intros i Hi%in_seq. apply byte_slot_other. lia.
Qed.

Lemma byte_slot_self item :
  take k (slot rb (rb_write_idx rb)) = take k item -> item !! k = Some b ->
  take (S k) (slot rb' (rb_write_idx rb)) = take (S k) item.
Proof using Hwf Hk.
  intros Htake Hb. pose proof (slot_offset_range rb Hwf (rb_write_idx rb)).
  assert (slot rb' (rb_write_idx rb) = <[k := b]> (slot rb (rb_write_idx rb))) as ->.
  { unfold slot. change (slot_offset rb') with (slot_offset rb).
    change (rb_slot_size rb') with (rb_slot_size rb). unfold rb', off. simpl.
    apply list_eq. intros j. destruct (decide (j < Z.to_nat (rb_slot_size rb))%nat) as [Hj|Hj].
    - rewrite lookup_slice by done. destruct (decide (k = j)) as [<-|].
      + rewrite !list_lookup_insert_eq by (rewrite ?length_slice; lia). done.
      + rewrite !list_lookup_insert_ne by lia. by rewrite lookup_slice.
    - rewrite list_lookup_insert_ne by lia. unfold slice. rewrite !lookup_take_ge by lia. done. }
  assert (k < length (slot rb (rb_write_idx rb)))%nat by (rewrite length_slot; done || lia).
  rewrite (take_S_r _ _ b), (take_S_r item _ b); [|done|by apply list_lookup_insert_eq].
  by rewrite take_insert_ge, Htake by lia.
Qed.

End producer_byte.

Lemma read_first rb : ringbuf_wf rb -> u64 (rb_read_idx rb + Z.of_nat 0) = rb_read_idx rb.
Proof. intros Hwf. rewrite Z.add_0_r. apply u64_small, (wf_r _ Hwf). Qed.

(** The consumer's knowledge survives any change of the ring that keeps the
    read index and the queue's items and does not shrink the queue. *)
Lemma cons_inv_stable rb rb' c :
  ringbuf_wf rb -> ringbuf_wf rb' ->
  rb_read_idx rb' = rb_read_idx rb -> (used rb <= used rb')%nat ->
  ((0 < used rb)%nat -> slot rb' (rb_read_idx rb) = slot rb (rb_read_idx rb)) ->
  cons_inv rb c -> cons_inv rb' c.
Proof.
  intros Hwf Hwf' Hr Hu Hslot. destruct c as [|r|r w|r acc]; simpl; rewrite ?Hr; try done.
  - intros (-> & Hw & Hle). split_and!; lia.
  - intros (-> & Hpos & Hacc & Heq). split_and!; [done|lia|done|]. by rewrite Hslot.
Qed.

(** The producer's knowledge survives the consumer's store of the read index. *)
Lemma prod_inv_read rb p :
  ringbuf_wf rb -> (0 < used rb)%nat ->
  prod_inv rb p -> prod_inv (rb_set_read rb (u64 (rb_read_idx rb + 1))) p.
Proof.
  intros Hwf Hpos. destruct (contents_set_read rb 1 Hwf) as [Hwf' Hc]; [lia|].
  apply (f_equal length) in Hc. rewrite length_drop, !length_contents in Hc.
  destruct p as [|item w|item w r|item w k]; simpl; try done.
  - intros (Hlen & -> & Hle). split_and!; try done; lia.
  - intros (Hlen & -> & Hk & Hroom & Htake). split_and!; try done. lia.
Qed.

Lemma contents_store rb :
  ringbuf_wf rb -> Z.of_nat (used rb) < rb_slot_count rb ->
  let rb' := rb_set_write rb (u64 (rb_write_idx rb + 1)) (rb_data rb) in
  ringbuf_wf rb' /\ used rb' = S (used rb) /\
  contents rb' = contents rb ++ [slot rb (rb_write_idx rb)].
Proof.
  intros Hwf Hroom rb'. destruct (contents_set_write rb (rb_data rb) 1 Hwf) as [Hwf' Hu];
    [lia|lia|done|].
  split_and!; [done|unfold rb'; lia|].
  pose proof (contents_push rb [] Hwf) as Hc. simpl in Hc. unfold rb'. rewrite Hc by lia.
  by rewrite drop_0.
Qed.

Lemma spsc_step_inv s s' : spsc_inv s -> spsc_step s s' -> spsc_inv s'.
Proof.
  intros [Hwf Hsize Hfifo Hp Hc] Hstep. destruct Hstep; simpl in *.
  - constructor; simpl; done.
  - destruct Hp as [Hlen ->]. constructor; simpl; try done. split_and!; try done.
    + by rewrite <- used_Z.
    + apply (wf_used _ Hwf).
  - constructor; simpl; done.
  - destruct Hp as (Hlen & -> & Hle). constructor; simpl; try done.
    split_and!; [done|done|lia|lia|done].
  - destruct Hp as (Hlen & -> & Hk & Hroom & Htake).
    assert (k < size)%nat by (rewrite <- Hlen; by eapply lookup_lt_Some).
    constructor; simpl.
    + by apply byte_wf.
    + done.
    + by rewrite byte_contents by (done || lia).
    + split_and!; [done|done|lia|done|]. by apply byte_slot_self; (done || lia).
    + eapply cons_inv_stable; [exact Hwf|by apply byte_wf|done|done| |done].
      intros Hpos. pose proof (byte_slot_other rb Hwf k b Hroom ltac:(lia) 0%nat Hpos) as Heq.
      by rewrite read_first in Heq.
  - destruct Hp as (Hlen & -> & _ & Hroom & Htake).
    destruct (contents_store rb Hwf Hroom) as (Hwf' & Hu & Hcont).
    constructor; simpl; try done.
    + rewrite Hcont, map_app, Hfifo, app_assoc. simpl. do 2 f_equal.
      rewrite Htake, take_ge by lia. done.
    + eapply cons_inv_stable; [exact Hwf|done|done|lia|done|done].
  - constructor; simpl; done.
  - subst r. constructor; simpl; try done. split_and!; [done|apply (wf_w _ Hwf)..|].
    by rewrite <- used_Z.
  - constructor; simpl; done.
  - destruct Hc as (-> & Hw & Hle). constructor; simpl; try done. split_and!; [done| |lia|done].
    pose proof (wf_r _ Hwf). assert (u64 (w - rb_read_idx rb) <> 0); [|pose proof (u64_range (w - rb_read_idx rb)); lia].
    wrap_lia.
  - destruct Hc as (-> & Hpos & Hacc & Heq). constructor; simpl; try done.
    rewrite length_app. simpl. split_and!; [done|done|lia|].
    rewrite Nat.add_1_r. erewrite take_S_r; [by rewrite <- Heq|].
    unfold slot. rewrite lookup_slice by lia. done.
  - destruct Hc as (-> & Hpos & Hacc & Heq).
    destruct (contents_set_read rb 1 Hwf) as [Hwf' Hcont]; [lia|].
    constructor; simpl; try done.
    + rewrite Hcont, Hfifo, <- app_assoc. f_equal. simpl.
      unfold contents. destruct (used rb) as [|n]; [lia|]. simpl. f_equal.
      rewrite read_first by done. rewrite <- H. by symmetry.
    + by apply prod_inv_read.
Qed.
Lemma spsc_reachable_inv rb s :
  ringbuf_wf rb -> Z.of_nat size <= rb_slot_size rb ->
  rtc spsc_step (spsc_init rb) s -> spsc_inv s.
Proof.
  intros Hwf Hsize Hsteps.
  assert (spsc_inv (spsc_init rb)) as Hinit by (constructor; done).
  revert Hinit. induction Hsteps as [|x y z Hxy _ IH]; [done|].
  intros Hx. apply IH. by eapply spsc_step_inv.
Qed.

(** The steps of a push that nobody disturbs are the sequential function. *)
Lemma prod_copy_alone rb c hin hout item k n :
  ringbuf_wf rb -> length item = size -> (k + n = size)%nat ->
  Z.of_nat size <= rb_slot_size rb ->
  exists d, memcpy_obj (rb_data rb) (Z.to_nat (slot_offset rb (rb_write_idx rb)) + k)
      (drop k item) n = Some d /\
    rtc spsc_step (mk_spsc rb (PCopy item (rb_write_idx rb) k) c hin hout)
      (mk_spsc (rb_set_write rb (rb_write_idx rb) d) (PCopy item (rb_write_idx rb) size) c hin hout).
Proof.
  intros Hwf Hlen Hkn Hsize. revert rb k Hwf Hkn Hsize.
  induction n as [|n IH]; intros rb k Hwf Hkn Hsize.
  { exists (rb_data rb). split; [done|]. replace k with size by lia. by destruct rb. }
  destruct (lookup_lt_is_Some_2 item k) as [b Hb]; [lia|].
  rewrite (drop_S _ _ _ Hb). simpl. pose proof (slot_offset_range rb Hwf (rb_write_idx rb)).
  case_decide; [|lia].
  edestruct (IH (rb_set_write rb (rb_write_idx rb)
    (<[(Z.to_nat (slot_offset rb (rb_write_idx rb)) + k)%nat := b]> (rb_data rb))) (S k))
    as (d & Hm & Hsteps); [by apply byte_wf|lia|done|].
  exists d. split.
  - rewrite <- Nat.add_succ_r. exact Hm.
  - eapply rtc_l; [by apply P_byte|]. exact Hsteps.
Qed.

End spsc.

(** ** Properties *)



(** Run without interference, the producer's steps from the first load to
    the store of the write index compute what [ringbuf_push] computes. *)
Theorem spsc_push_is_ringbuf_push size rb rb' item c hin hout :
  ringbuf_wf rb -> Z.of_nat size <= rb_slot_size rb -> length item = size ->
  ringbuf_push rb item (Z.of_nat size) = Some (0, rb') ->
  rtc (spsc_step size) (mk_spsc rb PIdle c hin hout) (mk_spsc rb' PIdle c (hin ++ [item]) hout).
Proof.
  intros Hwf Hsize Hlen Hpush. unfold ringbuf_push in Hpush.
  destruct (Z.eqb_spec (u64 (rb_write_idx rb - rb_read_idx rb)) (rb_slot_count rb)) as [|Hne]; [done|].
  destruct (_ <? _); [done|]. rewrite Nat2Z.id in Hpush.
  destruct (prod_copy_alone size rb c hin hout item 0 size Hwf Hlen) as (d & Hm & Hsteps); [done|done|].
  rewrite Nat.add_0_r in Hm. change (drop 0 item) with item in Hm. rewrite Hm in Hpush. simplify_eq/=.
  eapply rtc_l; [by apply P_load_widx|]. eapply rtc_l; [apply P_load_ridx|].
  eapply rtc_l; [by apply P_start|]. transitivity (mk_spsc (rb_set_write rb (rb_write_idx rb) d) (PCopy item (rb_write_idx rb) (length item)) c hin hout); [exact Hsteps|].
  apply rtc_once. apply (P_store (length item) (rb_set_write rb (rb_write_idx rb) d)).
Qed.

Lemma spsc_push_is_ringbuf_push_witness :
  exists rb', ringbuf_push demo_ring [7; 8] 2 = Some (0, rb') /\
    rtc (spsc_step 2) (mk_spsc demo_ring PIdle CIdle [] []) (mk_spsc rb' PIdle CIdle [[7; 8]] []).
Proof.
  eexists. split; [vm_compute; reflexivity|].
  apply (spsc_push_is_ringbuf_push 2 demo_ring _ [7; 8] CIdle [] [] demo_ring_wf);
    [vm_compute; intuition congruence|reflexivity|vm_compute; reflexivity].
Defined.
