(* ===== verification/Phys.v ===== *)
(** * Physical page allocator (src/kernel/mm/mm.c, lines 13-263)

    The buddy allocator, its boot-time bump allocator and the scan of the boot
    memory map.  The free lists are intrusive in the source: the first word of a
    free block holds the kernel virtual address of the next one.  The model keeps
    them that way: [mm_mem] is physical memory as 64-bit words by physical
    address, [mm_lists] the list heads, and a pointer is dereferenced by
    translating it back to its physical address.  [mm_pinfo] is the [page_info]
    array by page frame number; a frame without an entry is outside the mapped
    part of the array, and touching its entry is a page fault.  An operation that
    faults or does not terminate is [None].  The spin lock is not modelled: each
    operation takes it first and releases it last, on every path. *)

From Stdlib Require Import ZArith Lia.
From stdpp Require Import base list gmap functions.
From S2P Require Import Prelude.

Local Open Scope Z_scope.

Definition MAX_ORDER : nat := 18.
Definition PAGE_SHIFT : Z := 12.
Definition PAGE_SIZE : Z := 4096.
Definition PHYS_MAP_BASE : Z := 0xFFFFC80000000000.
Definition PAGE_FREE : Z := 0x01.
Definition PAGE_ALLOC : Z := 0x02.
Definition BUMP_SIZE : Z := 64 * 1024 * 1024.
Definition ASD_MEM_FREE : Z := 0.

Definition PAGE_ALIGN (x : Z) : Z := Z.land (u64 (x + PAGE_SIZE - 1)) (u64 (Z.lnot (PAGE_SIZE - 1))).
Definition PAGE_ALIGN_DOWN (x : Z) : Z := Z.land x (u64 (Z.lnot (PAGE_SIZE - 1))).

(** An entry of the boot memory map (src/boot/asdboot.h). *)
Record asd_mmap_entry_t := mk_mmap {
  me_base : Z;
  me_pages : Z;
  me_type : Z;
}.

Record page_info_t := mk_pinfo {
  pi_flags : Z;
  pi_order : Z;
  pi_refcount : Z;
  pi_map_count : Z;
}.

Record mm_state := mk_mm {
  mm_lists : list Z;
  mm_free_pages : Z;
  mm_total_pages : Z;
  mm_phys_base : Z;
  mm_phys_top : Z;
  mm_early_boot : bool;
  mm_bump_base : Z;
  mm_bump_cur : Z;
  mm_bump_end : Z;
  mm_pinfo : gmap Z page_info_t;
  mm_mem : gmap Z Z;
}.

Definition set_phys (s : mm_state) (lists : list Z) (free_pages : Z)
    (pinfo : gmap Z page_info_t) (mem : gmap Z Z) : mm_state :=
  mk_mm lists free_pages (mm_total_pages s) (mm_phys_base s) (mm_phys_top s) (mm_early_boot s)
    (mm_bump_base s) (mm_bump_cur s) (mm_bump_end s) pinfo mem.

Definition set_bump (s : mm_state) (base cur end_ : Z) (mem : gmap Z Z) : mm_state :=
  mk_mm (mm_lists s) (mm_free_pages s) (mm_total_pages s) (mm_phys_base s) (mm_phys_top s)
    (mm_early_boot s) base cur end_ (mm_pinfo s) mem.

Definition set_range (s : mm_state) (total base top : Z) : mm_state :=
  mk_mm (mm_lists s) (mm_free_pages s) total base top (mm_early_boot s)
    (mm_bump_base s) (mm_bump_cur s) (mm_bump_end s) (mm_pinfo s) (mm_mem s).

Definition phys_to_virt (s : mm_state) (p : Z) : Z :=
  if mm_early_boot s then p else u64 (PHYS_MAP_BASE + p).

Definition virt_to_phys (v : Z) : Z := u64 (v - PHYS_MAP_BASE).

(** The physical address a kernel pointer to page memory refers to. *)
Definition deref_addr (s : mm_state) (v : Z) : Z :=
  if mm_early_boot s then v else virt_to_phys v.

(** [memset] of whole pages to zero, word by word. *)
Definition zero_words (mem : gmap Z Z) (p : Z) (words : nat) : gmap Z Z :=
  foldr (fun i m => <[p + 8 * Z.of_nat i := 0]> m) mem (seq 0 words).

(** ** Bump allocator *)

Definition mmap_range (m : asd_mmap_entry_t) : Z * Z :=
  (PAGE_ALIGN (me_base m), PAGE_ALIGN_DOWN (u64 (me_base m + u64 (me_pages m * PAGE_SIZE)))).

(** The first pass of [bump_init]: the first free region that holds
    [BUMP_SIZE] bytes above 1 MiB. *)
Fixpoint bump_first (mmap : list asd_mmap_entry_t) : option Z :=
  match mmap with
  | [] => None
  | m :: rest =>
      if negb (me_type m =? ASD_MEM_FREE) then bump_first rest
      else
        let '(base, end_) := mmap_range m in
        let base := if base <? 0x100000 then 0x100000 else base in
        if (end_ <=? base) || (u64 (end_ - base) <? BUMP_SIZE) then bump_first rest
        else Some base
  end.

(** The fallback pass: the largest free region. *)
Fixpoint bump_largest (mmap : list asd_mmap_entry_t) (s : mm_state) : mm_state :=
  match mmap with
  | [] => s
  | m :: rest =>
      if negb (me_type m =? ASD_MEM_FREE) then bump_largest rest s
      else
        let '(base, end_) := mmap_range m in
        if (base <? end_) && (u64 (mm_bump_end s - mm_bump_base s) <? u64 (end_ - base))
        then bump_largest rest (set_bump s base base end_ (mm_mem s))
        else bump_largest rest s
  end.

Definition bump_init (mmap : list asd_mmap_entry_t) (s : mm_state) : mm_state :=
  match bump_first mmap with
  | Some base => set_bump s base base (u64 (base + BUMP_SIZE)) (mm_mem s)
  | None => bump_largest mmap s
  end.

Definition bump_alloc (s : mm_state) (order : nat) : Z * mm_state :=
  let size := u64 (Z.shiftl PAGE_SIZE (Z.of_nat order)) in
  let aligned := Z.land (u64 (mm_bump_cur s + size - 1)) (u64 (Z.lnot (size - 1))) in
  if mm_bump_end s <? u64 (aligned + size) then (0, s)
  else (aligned, set_bump s (mm_bump_base s) (u64 (aligned + size)) (mm_bump_end s)
                   (zero_words (mm_mem s) aligned (Z.to_nat (size / 8)))).

(** ** Buddy allocator *)

Definition phys_free_block (s : mm_state) (paddr : Z) (order : nat) : option mm_state :=
  let b := phys_to_virt s paddr in
  head ← mm_lists s !! order;
  let mem := <[deref_addr s b := head]> (mm_mem s) in
  pi ← mm_pinfo s !! (Z.shiftr paddr PAGE_SHIFT);
  Some (set_phys s (<[order := b]> (mm_lists s))
          (u64 (mm_free_pages s + 2 ^ Z.of_nat order))
          (<[Z.shiftr paddr PAGE_SHIFT :=
              mk_pinfo PAGE_FREE (u8 (Z.of_nat order)) (pi_refcount pi) (pi_map_count pi)]>
             (mm_pinfo s))
          mem).

(** The inner loop of [phys_free_range]: the highest order that fits and is
    naturally aligned. *)
Fixpoint pick_order (base i pages : Z) (order : nat) : nat :=
  match order with
  | O => O
  | S o' =>
      let block_pages := 2 ^ Z.of_nat order in
      if pages <? u64 (i + block_pages) then pick_order base i pages o'
      else
        let addr := u64 (base + i * PAGE_SIZE) in
        if negb (Z.land addr (u64 (block_pages * PAGE_SIZE - 1)) =? 0)
        then pick_order base i pages o'
        else order
  end.

Fixpoint free_range_loop (fuel : nat) (s : mm_state) (base i pages : Z) : option mm_state :=
  match fuel with
  | O => if i <? pages then None else Some s
  | S fuel' =>
      if i <? pages then
        let order := pick_order base i pages MAX_ORDER in
        s' ← phys_free_block s (u64 (base + i * PAGE_SIZE)) order;
        free_range_loop fuel' s' base (u64 (i + 2 ^ Z.of_nat order)) pages
      else Some s
  end.

(** Each turn frees at least a page, so [pages] turns are enough. *)
Definition phys_free_range (s : mm_state) (base pages : Z) : option mm_state :=
  free_range_loop (Z.to_nat pages) s base 0 pages.

Definition phys_init_entry (s : mm_state) (m : asd_mmap_entry_t) : option mm_state :=
  if negb (me_type m =? ASD_MEM_FREE) then Some s
  else
    let '(base, end_) := mmap_range m in
    if end_ <=? base then Some s
    else
      let s := set_range s (mm_total_pages s)
                 (if base <? mm_phys_base s then base else mm_phys_base s)
                 (if mm_phys_top s <? end_ then end_ else mm_phys_top s) in
      let free_part (s : mm_state) (from pg : Z) :=
        s' ← phys_free_range s from pg;
        Some (set_range s' (u64 (mm_total_pages s' + pg)) (mm_phys_base s') (mm_phys_top s')) in
      if negb (mm_bump_base s =? 0) && (base <? mm_bump_end s) && (mm_bump_base s <? end_) then
        s1 ← (if base <? mm_bump_base s
              then free_part s base (Z.shiftr (mm_bump_base s - base) PAGE_SHIFT) else Some s);
        if mm_bump_end s1 <? end_
        then free_part s1 (mm_bump_end s1) (Z.shiftr (end_ - mm_bump_end s1) PAGE_SHIFT)
        else Some s1
      else free_part s base (Z.shiftr (end_ - base) PAGE_SHIFT).

Fixpoint phys_init_loop (s : mm_state) (mmap : list asd_mmap_entry_t) : option mm_state :=
  match mmap with
  | [] => Some s
  | m :: rest => s' ← phys_init_entry s m; phys_init_loop s' rest
  end.

(** [k_memset(&g_phys, 0, ...)] followed by [phys_base = -1]. *)
Definition reset_phys (s : mm_state) : mm_state :=
  mk_mm (replicate (S MAX_ORDER) 0) 0 0 (2 ^ 64 - 1) 0 (mm_early_boot s)
    (mm_bump_base s) (mm_bump_cur s) (mm_bump_end s) (mm_pinfo s) (mm_mem s).

Definition amm_phys_init (s : mm_state) (mmap : list asd_mmap_entry_t) : option mm_state :=
  phys_init_loop (reset_phys s) mmap.

Definition early_scan_entry (s : mm_state) (m : asd_mmap_entry_t) : mm_state :=
  if negb (me_type m =? ASD_MEM_FREE) then s
  else
    let '(base, end_) := mmap_range m in
    if end_ <=? base then s
    else set_range s (u64 (mm_total_pages s + Z.shiftr (end_ - base) PAGE_SHIFT))
           (if base <? mm_phys_base s then base else mm_phys_base s)
           (if mm_phys_top s <? end_ then end_ else mm_phys_top s).

Definition amm_early_phys_scan (s : mm_state) (mmap : list asd_mmap_entry_t) : mm_state :=
  bump_init mmap (foldl early_scan_entry (reset_phys s) mmap).

(** [while (o > order) { o--; ... }]: free the upper halves down to [order];
    [d] is [o - order]. *)
Fixpoint split_down (s : mm_state) (paddr : Z) (order d : nat) : option mm_state :=
  match d with
  | O => Some s
  | S d' =>
      let o := (order + d')%nat in
      let buddy := Z.lxor paddr (u64 (Z.shiftl PAGE_SIZE (Z.of_nat o))) in
      s' ← phys_free_block s buddy o;
      split_down s' paddr order d'
  end.

(** The search [for (o = order; o <= MAX_ORDER; o++)]; [n] orders are left. *)
Fixpoint alloc_loop (s : mm_state) (order o n : nat) : option (Z * mm_state) :=
  match n with
  | O => Some (0, s)
  | S n' =>
      b ← mm_lists s !! o;
      if b =? 0 then alloc_loop s order (S o) n'
      else
        next ← mm_mem s !! deref_addr s b;
        let paddr := virt_to_phys b in
        let s1 := set_phys s (<[o := next]> (mm_lists s))
                    (u64 (mm_free_pages s - 2 ^ Z.of_nat o)) (mm_pinfo s) (mm_mem s) in
        s2 ← split_down s1 paddr order (o - order);
        pi ← mm_pinfo s2 !! (Z.shiftr paddr PAGE_SHIFT);
        Some (paddr,
              set_phys s2 (mm_lists s2) (mm_free_pages s2)
                (<[Z.shiftr paddr PAGE_SHIFT :=
                    mk_pinfo PAGE_ALLOC (u8 (Z.of_nat order)) 1 (pi_map_count pi)]> (mm_pinfo s2))
                (mm_mem s2))
  end.

Definition amm_phys_alloc (s : mm_state) (order : nat) : option (Z * mm_state) :=
  if mm_early_boot s then Some (bump_alloc s order)
  else if decide (MAX_ORDER < order)%nat then Some (0, s)
  else alloc_loop s order order (S MAX_ORDER - order).

(** The pointer-to-pointer [pp] of the unlink loop: a list head or the [next]
    word of a block. *)
Inductive ploc :=
| PHead (order : nat)
| PNext (block : Z).

Definition read_ploc (s : mm_state) (pp : ploc) : option Z :=
  match pp with
  | PHead o => mm_lists s !! o
  | PNext b => mm_mem s !! deref_addr s b
  end.

Definition write_ploc (s : mm_state) (pp : ploc) (v : Z) : mm_state :=
  match pp with
  | PHead o => set_phys s (<[o := v]> (mm_lists s)) (mm_free_pages s) (mm_pinfo s) (mm_mem s)
  | PNext b => set_phys s (mm_lists s) (mm_free_pages s) (mm_pinfo s)
                 (<[deref_addr s b := v]> (mm_mem s))
  end.

(** [while ( *pp && *pp != fb) pp = &( *pp)->next] *)
Fixpoint find_ploc (fuel : nat) (s : mm_state) (pp : ploc) (fb : Z) : option ploc :=
  v ← read_ploc s pp;
  if (v =? 0) || (v =? fb) then Some pp
  else match fuel with
       | O => None
       | S fuel' => find_ploc fuel' s (PNext v) fb
       end.

(** Unlink [buddy] from the free list of [order]; a list without cycles visits
    each memory word at most once, so the number of words bounds the walk. *)
Definition unlink_buddy (s : mm_state) (buddy : Z) (order : nat) : option mm_state :=
  let fb := phys_to_virt s buddy in
  pp ← find_ploc (size (mm_mem s)) s (PHead order) fb;
  v ← read_ploc s pp;
  if v =? 0 then Some s
  else
    next ← mm_mem s !! deref_addr s fb;
    let s' := write_ploc s pp next in
    Some (set_phys s' (mm_lists s') (u64 (mm_free_pages s' - 2 ^ Z.of_nat order))
            (mm_pinfo s') (mm_mem s')).

(** [while (order < MAX_ORDER)]: [n] orders are left. *)
Fixpoint coalesce (n : nat) (s : mm_state) (paddr : Z) (order : nat) : option (mm_state * Z * nat) :=
  match n with
  | O => Some (s, paddr, order)
  | S n' =>
      let buddy := Z.lxor paddr (u64 (Z.shiftl PAGE_SIZE (Z.of_nat order))) in
      bi ← mm_pinfo s !! (Z.shiftr buddy PAGE_SHIFT);
      if (Z.land (pi_flags bi) PAGE_FREE =? 0) || negb (pi_order bi =? Z.of_nat order)
      then Some (s, paddr, order)
      else
        s' ← unlink_buddy s buddy order;
        coalesce n' s' (if paddr <? buddy then paddr else buddy) (S order)
  end.

Definition amm_phys_free (s : mm_state) (paddr : Z) (order : nat) : option mm_state :=
  '(s', paddr', order') ← coalesce (MAX_ORDER - order) s paddr order;
  phys_free_block s' paddr' order'.
