(* ===== verification/PhysSpec.v ===== *)
(** * Correctness of the physical page allocator

    The ghost view of the allocator of [Phys]: a map [B] from the first page
    frame of each block to its order and whether it is free, and the free list
    [L k] of each order.  [phys_inv] ties it to the concrete state; the theorems
    say that allocation hands out memory that was free, that freeing gives it
    back and coalesces buddies, and that neither disturbs any other block. *)

From Stdlib Require Import ZArith Lia.
From stdpp Require Import base gmap functions list.
From S2P Require Import Prelude Phys.

Local Open Scope Z_scope.

Notation "'pow2' k" := (2 ^ Z.of_nat k) (at level 9, format "'pow2'  k").

(** A block: order, and whether it is free. *)
Abbreviation blocks := (gmap Z (nat * bool)).

(** Kernel pointer to a page frame. *)
Definition va (p : Z) : Z := PHYS_MAP_BASE + p * PAGE_SIZE.

(** The frames that [PHYS_MAP_BASE] can map without wrapping around. *)
Definition PFN_LIMIT : Z := 0x380000000.

(** [chain mem a l]: following [next] words from pointer [a] visits the frames
    [l] and ends in a null pointer. *)
Fixpoint chain (mem : gmap Z Z) (a : Z) (l : list Z) : Prop :=
  match l with
  | [] => a = 0
  | p :: l' => a = va p /\ exists n, mem !! (p * PAGE_SIZE) = Some n /\ chain mem n l'
  end.

(** Page frame [q] lies in the block at [p] of order [k]. *)
Definition in_block (p : Z) (k : nat) (q : Z) : Prop := p <= q < p + pow2 k.

Definition covered (B : blocks) (q : Z) : Prop :=
  exists p k f, B !! p = Some (k, f) /\ in_block p k q.

Definition covered_free (B : blocks) (q : Z) : Prop :=
  exists p k, B !! p = Some (k, true) /\ in_block p k q.

(** Pages on the free lists. *)
Definition list_pages (L : nat -> list Z) : Z :=
  foldr (fun k acc => Z.of_nat (length (L k)) * pow2 k + acc) 0 (seq 0 (S MAX_ORDER)).

(** The allocator invariant.  [N] bounds the managed frames (a multiple of the
    largest block), and [X] holds blocks in transit inside an operation: not on a
    list and with a stale [page_info]. *)
Record phys_inv (N : Z) (s : mm_state) (B : blocks) (L : nat -> list Z) (X : gset Z) : Prop := {
  inv_N : 0 <= N <= PFN_LIMIT /\ (pow2 MAX_ORDER | N);
  inv_boot : mm_early_boot s = false;
  inv_heads : length (mm_lists s) = S MAX_ORDER;
  inv_chain : forall k h, mm_lists s !! k = Some h -> chain (mm_mem s) h (L k);
  inv_nodup : forall k, (k <= MAX_ORDER)%nat -> NoDup (L k);
  inv_list : forall k p, (k <= MAX_ORDER)%nat -> p ∈ L k <-> B !! p = Some (k, true);
  inv_align : forall p (k : nat) (f : bool), B !! p = Some (k, f) ->
    (k <= MAX_ORDER)%nat /\ (pow2 k | p) /\ 0 <= p /\ p + pow2 k <= N;
  inv_disj : forall p (k : nat) (f : bool) q (j : nat) (g : bool), B !! p = Some (k, f) -> B !! q = Some (j, g) -> p <> q ->
    p + pow2 k <= q \/ q + pow2 j <= p;
  inv_pinfo : forall p (k : nat) (f : bool), B !! p = Some (k, f) -> p ∉ X ->
    exists pi, mm_pinfo s !! p = Some pi /\ pi_order pi = Z.of_nat k /\
      pi_flags pi = if f then PAGE_FREE else PAGE_ALLOC;
  inv_outside : forall p pi, mm_pinfo s !! p = Some pi -> ~ covered B p ->
    Z.land (pi_flags pi) PAGE_FREE = 0;
  inv_mapped : forall p, 0 <= p < N -> is_Some (mm_pinfo s !! p);
  inv_transit : forall p, p ∈ X -> exists k, B !! p = Some (k, false);
  inv_count : mm_free_pages s = u64 (list_pages L);
}.

(** From [s] to [s'] memory changed in frames of [P] only, and the boot-time
    fields not at all. *)
Definition touches (P : Z -> Prop) (s s' : mm_state) : Prop :=
  (forall a, ~ P (a / PAGE_SIZE) -> mm_mem s' !! a = mm_mem s !! a) /\
  mm_total_pages s' = mm_total_pages s /\ mm_phys_base s' = mm_phys_base s /\
  mm_phys_top s' = mm_phys_top s /\ mm_bump_base s' = mm_bump_base s /\
  mm_bump_cur s' = mm_bump_cur s /\ mm_bump_end s' = mm_bump_end s.

(** What [amm_phys_alloc] promises of a block at frame [p]: it was free, it is
    now allocated at the order asked for, the other allocated blocks are the
    ones there were, and exactly its pages left the free memory. *)
Definition alloc_post (N : Z) (s : mm_state) (B : blocks) (order : nat) (p : Z) (s' : mm_state) : Prop :=
  exists (B' : blocks) L', phys_inv N s' B' L' ∅ /\
    B' !! p = Some (order, false) /\
    (forall q (k : nat), q <> p -> B' !! q = Some (k, false) <-> B !! q = Some (k, false)) /\
    (forall q, in_block p order q -> covered_free B q) /\
    (forall q, covered_free B' q <-> covered_free B q /\ ~ in_block p order q) /\
    touches (covered_free B) s s' /\
    mm_free_pages s' = u64 (mm_free_pages s - pow2 order).

(** What [amm_phys_free] promises of the block at frame [p]: its pages, and no
    others, are free again, and the other allocated blocks stay. *)
Definition free_post (N : Z) (s : mm_state) (B : blocks) (order : nat) (p : Z) (s' : mm_state) : Prop :=
  exists (B' : blocks) L', phys_inv N s' B' L' ∅ /\
    (forall q (k : nat), B' !! q = Some (k, false) <-> q <> p /\ B !! q = Some (k, false)) /\
    (forall q, covered_free B' q <-> covered_free B q \/ in_block p order q) /\
    touches (fun q => covered_free B q \/ in_block p order q) s s' /\
    mm_free_pages s' = u64 (mm_free_pages s + pow2 order).

(** ** Arithmetic of buddies *)

Lemma pow2_pos k : 0 < pow2 k.
Proof. apply Z.pow_pos_nonneg; lia. Qed.

Lemma pow2_S k : pow2 (S k) = 2 * pow2 k.
Proof. rewrite Nat2Z.inj_succ, Z.pow_succ_r; lia. Qed.

Lemma pow2_le j k : (j <= k)%nat -> pow2 j <= pow2 k.
Proof. intros. apply Z.pow_le_mono_r; lia. Qed.

Lemma pow2_divide j k : (j <= k)%nat -> (pow2 j | pow2 k).
Proof.
  intros H. exists (pow2 (k - j)). rewrite <- Z.pow_add_r by lia. f_equal. lia.
Qed.

#[local] Hint Resolve pow2_pos : core.

Lemma lxor_pow2_add p k : 0 <= p -> (pow2 (S k) | p) -> Z.lxor p (pow2 k) = p + pow2 k.
Proof.
  intros Hp [c Hc]. rewrite pow2_S in Hc. symmetry. apply Z.add_nocarry_lxor.
  apply Z.bits_inj'. intros i Hi.
  rewrite Z.land_spec, Z.bits_0, Z.pow2_bits_eqb by lia.
  destruct (Z.eqb_spec (Z.of_nat k) i) as [<-|]; [|by rewrite andb_false_r].
  rewrite andb_true_r, Hc. replace (c * (2 * pow2 k)) with (Z.shiftl (2 * c) (Z.of_nat k)).
  - rewrite Z.shiftl_spec by lia. rewrite Z.sub_diag. apply Z.testbit_even_0.
  - rewrite Z.shiftl_mul_pow2 by lia. lia.
Qed.

(** The buddy of a block is the other half of the enclosing block. *)
Lemma buddy_cases p k : 0 <= p -> (pow2 k | p) ->
  ((pow2 (S k) | p) /\ Z.lxor p (pow2 k) = p + pow2 k) \/
  ((pow2 (S k) | p - pow2 k) /\ Z.lxor p (pow2 k) = p - pow2 k /\ 0 <= p - pow2 k).
Proof.
  intros Hp [c Hc]. pose proof (pow2_pos k). pose proof (pow2_S k) as HS.
  destruct (Z.Even_or_Odd c) as [[a Ha]|[a Ha]].
  - left. assert (pow2 (S k) | p) as Hd by (exists a; lia).
    split; [done|by apply lxor_pow2_add].
  - right. assert (pow2 (S k) | p - pow2 k) as Hd by (exists a; lia).
    assert (0 <= c) by nia. assert (0 <= p - pow2 k).
    { replace (p - pow2 k) with ((c - 1) * pow2 k) by (rewrite Hc; ring). apply Z.mul_nonneg_nonneg; lia. }
    split; [done|]. split; [|done].
    replace p with (p - pow2 k + pow2 k) at 1 by lia.
    rewrite <- lxor_pow2_add by done.
    by rewrite Z.lxor_assoc, Z.lxor_nilpotent, Z.lxor_0_r.
Qed.

Lemma buddy_addr p k : (k <= MAX_ORDER)%nat ->
  Z.lxor (p * PAGE_SIZE) (u64 (Z.shiftl PAGE_SIZE (Z.of_nat k))) = Z.lxor p (pow2 k) * PAGE_SIZE.
Proof.
  intros Hk. unfold MAX_ORDER in Hk.
  assert (Z.shiftl PAGE_SIZE (Z.of_nat k) = pow2 k * 2 ^ 12) as ->.
  { rewrite Z.shiftl_mul_pow2 by lia. unfold PAGE_SIZE. lia. }
  pose proof (pow2_le k 18 Hk). simpl (pow2 18) in *. pose proof (pow2_pos k).
  rewrite u64_small by lia. change PAGE_SIZE with (2 ^ 12).
  rewrite <- !Z.shiftl_mul_pow2 by lia. by rewrite Z.shiftl_lxor.
Qed.

Lemma shiftr_page p : Z.shiftr (p * PAGE_SIZE) PAGE_SHIFT = p.
Proof.
  unfold PAGE_SHIFT, PAGE_SIZE. rewrite Z.shiftr_div_pow2 by lia.
  change 4096 with (2 ^ 12). apply Z.div_mul. lia.
Qed.

(** A pair of aligned blocks is nested or disjoint. *)
Lemma aligned_nested p k q j :
  (pow2 k | p) -> (pow2 j | q) -> (k <= j)%nat ->
  q <= p < q + pow2 j -> q <= p /\ p + pow2 k <= q + pow2 j.
Proof.
  intros [a Ha] [b Hb] Hkj Hin. split; [lia|].
  destruct (pow2_divide k j Hkj) as [c Hc]. pose proof (pow2_pos k).
  subst p q. rewrite Hc in *. generalize dependent (pow2 k). intros K Hc HK Hin.
  assert (a < b * c + c) by (apply (Z.mul_lt_mono_pos_r K); lia).
  assert ((a + 1) * K <= (b * c + c) * K) by (apply Z.mul_le_mono_nonneg_r; lia). lia.
Qed.

Lemma va_bounds p : 0 <= p < PFN_LIMIT -> 0 < va p < 2 ^ 64.
Proof. unfold va, PFN_LIMIT, PHYS_MAP_BASE, PAGE_SIZE. lia. Qed.

Lemma virt_to_phys_va p : 0 <= p < PFN_LIMIT -> virt_to_phys (va p) = p * PAGE_SIZE.
Proof.
  intros H. unfold virt_to_phys. replace (va p - PHYS_MAP_BASE) with (p * PAGE_SIZE) by (unfold va; lia).
  apply u64_small. unfold PFN_LIMIT, PAGE_SIZE in *. lia.
Qed.

Lemma phys_to_virt_va s p : mm_early_boot s = false -> 0 <= p < PFN_LIMIT ->
  phys_to_virt s (p * PAGE_SIZE) = va p.
Proof.
  intros Hb Hp. unfold phys_to_virt. rewrite Hb.
  pose proof (va_bounds p Hp). unfold va in *. apply u64_small. lia.
Qed.

Lemma deref_va s p : mm_early_boot s = false -> 0 <= p < PFN_LIMIT ->
  deref_addr s (va p) = p * PAGE_SIZE.
Proof. intros Hb Hp. unfold deref_addr. rewrite Hb. by apply virt_to_phys_va. Qed.

Lemma va_inj p q : va p = va q -> p = q.
Proof. unfold va, PAGE_SIZE. lia. Qed.

(** ** Rounding to powers of two *)

Lemma round_mask x k : 0 <= x < 2 ^ 64 -> Z.land x (u64 (Z.lnot (pow2 k - 1))) = x / pow2 k * pow2 k.
Proof. intros Hx. apply mask_round; [lia|done]. Qed.

Lemma page_mask x : 0 <= x < 2 ^ 64 -> Z.land x (u64 (Z.lnot (PAGE_SIZE - 1))) = x / PAGE_SIZE * PAGE_SIZE.
Proof. apply (round_mask x 12). Qed.

(** ** Cleared memory *)

Lemma zero_words_in mem p n i : (i < n)%nat -> zero_words mem p n !! (p + 8 * Z.of_nat i) = Some 0.
Proof.
  intros Hi. unfold zero_words. assert (i ∈ seq 0 n) as Hin by (apply elem_of_seq; lia). revert Hin.
  generalize (seq 0 n). intros l. induction l as [|j l IH]; simpl; [set_solver|].
  intros [->|Hin]%elem_of_cons; [by rewrite lookup_insert_eq|].
  rewrite lookup_insert. case_decide; [done|auto].
Qed.

Lemma zero_words_out mem p n a :
  (forall i, (i < n)%nat -> a <> p + 8 * Z.of_nat i) -> zero_words mem p n !! a = mem !! a.
Proof.
  intros Ha. unfold zero_words. assert (forall i, i ∈ seq 0 n -> a <> p + 8 * Z.of_nat i) as Hl.
  { intros i Hi%elem_of_seq. apply Ha. lia. }
  revert Hl. generalize (seq 0 n). intros l. induction l as [|j l IH]; simpl; [done|]. intros Hl.
  rewrite lookup_insert_ne; [apply IH; set_solver|]. intros <-. by apply (Hl j); [left|].
Qed.

(** ** Linked lists *)

Lemma chain_insert_out mem a l q v :
  q ∉ l -> chain mem a l -> chain (<[q * PAGE_SIZE := v]> mem) a l.
Proof.
  revert a. induction l as [|p l IH]; intros a Hq; simpl; [done|].
  apply not_elem_of_cons in Hq as [Hne Hq]. intros (-> & n & Hn & Hc).
  split; [done|]. exists n. split; [|by apply IH].
  rewrite lookup_insert_ne; [done|]. unfold PAGE_SIZE. lia.
Qed.

Lemma chain_app mem a l1 p l2 :
  chain mem a (l1 ++ p :: l2) -> exists n, mem !! (p * PAGE_SIZE) = Some n /\ chain mem n l2.
Proof.
  revert a. induction l1 as [|q l1 IH]; intros a; simpl.
  - intros (_ & n & ? & ?). by exists n.
  - intros (_ & n & _ & Hc). by eapply IH.
Qed.

Lemma chain_unlink mem a l1 q p l2 n :
  NoDup (l1 ++ q :: p :: l2) -> chain mem a (l1 ++ q :: p :: l2) ->
  mem !! (p * PAGE_SIZE) = Some n ->
  chain (<[q * PAGE_SIZE := n]> mem) a (l1 ++ q :: l2).
Proof.
  revert a. induction l1 as [|x l1 IH]; intros a Hnd; simpl.
  - intros (-> & n1 & _ & _ & n2 & Hn2 & Hc) Hn. split; [done|]. exists n.
    rewrite lookup_insert_eq. split; [done|].
    simpl in Hnd. apply list.NoDup_cons in Hnd as [Hq _].
    apply chain_insert_out; [set_solver|]. congruence.
  - simpl in Hnd. apply list.NoDup_cons in Hnd as [Hx Hnd]. intros (-> & n1 & Hn1 & Hc) Hn.
    split; [done|]. exists n1. split; [|by apply IH].
    rewrite lookup_insert_ne; [done|]. unfold PAGE_SIZE. apply not_elem_of_app in Hx as [_ Hx]. apply not_elem_of_cons in Hx as [Hx _]. lia.
Qed.

Lemma chain_size mem a l : NoDup l -> chain mem a l -> (length l <= size mem)%nat.
Proof.
  intros Hnd Hc.
  assert (forall l a, chain mem a l -> forall p, p ∈ l -> p * PAGE_SIZE ∈ dom mem) as Hdom.
  { clear. induction l as [|q l IH]; intros a Hc p Hp; [set_solver|].
    destruct Hc as (_ & n & Hn & Hc). apply elem_of_cons in Hp as [->|Hp].
    - apply elem_of_dom. by exists n.
    - by eapply IH. }
  rewrite <- (size_dom mem), <- (length_map (fun p => p * PAGE_SIZE) l).
  rewrite <- (size_list_to_set (C := gset Z)).
  - apply subseteq_size. intros x Hx%elem_of_list_to_set.
    apply list_elem_of_fmap in Hx as (p & -> & Hp). by eapply Hdom.
  - apply NoDup_fmap_2_strong; [|done]. unfold PAGE_SIZE. intros ?? _ _ ?. lia.
Qed.

(** The walk of the unlink loop stops at the word that points to the frame. *)
Lemma find_ploc_chain fuel s pp v l1 p l2 :
  mm_early_boot s = false -> read_ploc s pp = Some v ->
  chain (mm_mem s) v (l1 ++ p :: l2) -> p ∉ l1 ->
  Forall (fun q => 0 <= q < PFN_LIMIT) (l1 ++ p :: l2) -> (length l1 <= fuel)%nat ->
  find_ploc fuel s pp (va p) = Some (match list.last l1 with Some q => PNext (va q) | None => pp end) /\
  (exists h, read_ploc s (match list.last l1 with Some q => PNext (va q) | None => pp end) = Some h /\
     h = va p).
Proof.
  intros Hboot. revert fuel pp v. induction l1 as [|q l1 IH]; intros fuel pp v Hv Hc Hp Hr Hf.
  - simpl in *. destruct Hc as (-> & _). split; [|by eexists].
    destruct fuel; simpl; rewrite Hv; simpl; rewrite Z.eqb_refl, orb_true_r; done.
  - simpl in Hc, Hf, Hr. destruct Hc as (-> & n & Hn & Hc).
    apply not_elem_of_cons in Hp as [Hne Hp]. apply Forall_cons in Hr as [Hq Hr].
    destruct fuel as [|fuel]; [lia|]. simpl. rewrite Hv. simpl.
    pose proof (va_bounds q Hq). destruct (Z.eqb_spec (va q) 0); [lia|].
    destruct (Z.eqb_spec (va q) (va p)) as [Heq|]; [by apply va_inj in Heq|]. simpl.
    destruct (IH fuel (PNext (va q)) n) as [Hfind Hrd]; try done; [|lia|].
    { simpl. by rewrite deref_va. }
    rewrite last_cons. rewrite Hfind. destruct (list.last l1); done.
Qed.

(** ** Counting the pages on the lists *)

Lemma list_pages_insert L k l :
  (k <= MAX_ORDER)%nat ->
  list_pages (<[k := l]> L) =
  list_pages L + (Z.of_nat (length l) - Z.of_nat (length (L k))) * pow2 k.
Proof.
  unfold list_pages. intros Hk.
  assert (forall ks, NoDup ks ->
    foldr (fun j acc => Z.of_nat (length (<[k := l]> L j)) * pow2 j + acc) 0 ks =
    foldr (fun j acc => Z.of_nat (length (L j)) * pow2 j + acc) 0 ks +
    (if decide (k ∈ ks) then (Z.of_nat (length l) - Z.of_nat (length (L k))) * pow2 k else 0)) as H.
  { induction ks as [|j ks IH]; intros Hnd; [done|].
    apply list.NoDup_cons in Hnd as [Hj Hnd]. cbn [foldr]. rewrite IH by done.
    destruct (decide (k = j)) as [<-|Hne].
    - rewrite fn_lookup_insert. rewrite (decide_False (P := k ∈ ks)) by done.
      rewrite decide_True by set_solver. lia.
    - rewrite fn_lookup_insert_ne by done.
      destruct (decide (k ∈ ks)); [rewrite decide_True by set_solver|rewrite decide_False by set_solver]; lia. }
  rewrite H by apply NoDup_seq. rewrite decide_True; [done|].
  apply elem_of_seq. lia.
Qed.

(** ** Footprints *)

Lemma touches_refl P s : touches P s s.
Proof. by repeat split. Qed.

Lemma touches_trans (P Q R : Z -> Prop) s1 s2 s3 :
  touches P s1 s2 -> touches Q s2 s3 -> (forall q, P q -> R q) -> (forall q, Q q -> R q) ->
  touches R s1 s3.
Proof.
  intros (M1 & E1) (M2 & E2) HP HQ. split; [|intuition congruence].
  intros a Ha. rewrite M2, M1; eauto.
Qed.

Lemma touches_write (P : Z -> Prop) s lists fp pinfo p v :
  P p -> touches P s (set_phys s lists fp pinfo (<[p * PAGE_SIZE := v]> (mm_mem s))).
Proof.
  intros Hp. split; [|by repeat split]. intros a Ha. simpl. rewrite lookup_insert_ne; [done|].
  intros <-. apply Ha. by rewrite Z.div_mul.
Qed.

Lemma touches_nomem (P : Z -> Prop) s lists fp pinfo :
  touches P s (set_phys s lists fp pinfo (mm_mem s)).
Proof. by repeat split. Qed.

#[local] Hint Resolve touches_refl touches_write touches_nomem : core.

(** ** Changing the status of a block *)

Ltac lookup_cases :=
  repeat match goal with
  | H : <[_ := _]> _ !! _ = Some _ |- _ =>
      apply lookup_insert_Some in H as [[? ?]|[? ?]]; simplify_eq
  | H : delete _ _ !! _ = Some _ |- _ => apply lookup_delete_Some in H as [? ?]
  end.

Lemma covered_flip (B : blocks) p k f g q :
  B !! p = Some (k, f) -> covered (<[p := (k, g)]> B) q <-> covered B q.
Proof.
  intros Hp. split; intros (x & j & h & Hx & Hq).
  - lookup_cases; eexists _, _, _; done.
  - destruct (decide (x = p)) as [->|]; simplify_eq.
    + exists p, k, g. by rewrite lookup_insert_eq.
    + exists x, j, h. by rewrite lookup_insert_ne.
Qed.

(** No free block starts at [p]. *)
Definition not_free (B : blocks) (p : Z) : Prop := forall k : nat, B !! p <> Some (k, true).

Lemma covered_free_used (B : blocks) p k q :
  not_free B p -> covered_free (<[p := (k, false)]> B) q <-> covered_free B q.
Proof.
  intros Hp. split; intros (x & j & Hx & Hq); exists x, j.
  - lookup_cases. done.
  - split; [|done]. rewrite lookup_insert_ne; [done|]. intros <-. by apply Hp in Hx.
Qed.

Lemma covered_free_insert (B : blocks) p k q :
  not_free B p -> covered_free (<[p := (k, true)]> B) q <-> in_block p k q \/ covered_free B q.
Proof.
  intros Hp. split.
  - intros (x & j & Hx & Hq). lookup_cases; [by left|]. right. by exists x, j.
  - intros [Hq|(x & j & Hx & Hq)].
    + exists p, k. by rewrite lookup_insert_eq.
    + exists x, j. split; [|done]. rewrite lookup_insert_ne; [done|]. intros <-. by apply Hp in Hx.
Qed.

Section Steps.
Context (N : Z).

Lemma inv_frame s B L X p k f : phys_inv N s B L X -> B !! p = Some (k, f) -> 0 <= p < N.
Proof. intros I Hp. destruct (inv_align _ _ _ _ _ I _ _ _ Hp) as (_ & _ & ? & ?). pose proof (pow2_pos k). lia. Qed.

Lemma inv_limit s B L X p k f : phys_inv N s B L X -> B !! p = Some (k, f) -> 0 <= p < PFN_LIMIT.
Proof. intros I Hp. pose proof (inv_frame _ _ _ _ _ _ _ I Hp). destruct (inv_N _ _ _ _ _ I). lia. Qed.

Lemma flip_align s B L X p k f g : phys_inv N s B L X -> B !! p = Some (k, f) ->
  forall q (j : nat) (h : bool), <[p := (k, g)]> B !! q = Some (j, h) ->
  (j <= MAX_ORDER)%nat /\ (pow2 j | q) /\ 0 <= q /\ q + pow2 j <= N.
Proof. intros I Hp q j h Hq. lookup_cases; by eapply inv_align. Qed.

Lemma flip_disj s B L X p k f g : phys_inv N s B L X -> B !! p = Some (k, f) ->
  forall q (j : nat) (h : bool) q' (j' : nat) (h' : bool),
  <[p := (k, g)]> B !! q = Some (j, h) -> <[p := (k, g)]> B !! q' = Some (j', h') -> q <> q' ->
  q + pow2 j <= q' \/ q' + pow2 j' <= q.
Proof. intros I Hp q j h q' j' h' Hq Hq' Hne. lookup_cases; try done; by eapply inv_disj. Qed.

(** A block in transit goes onto its free list. *)
Lemma phys_free_block_ok s B L X p k :
  phys_inv N s B L X -> p ∈ X -> B !! p = Some (k, false) ->
  exists s', phys_free_block s (p * PAGE_SIZE) k = Some s' /\
    touches (in_block p k) s s' /\ list_pages (<[k := p :: L k]> L) = list_pages L + pow2 k /\
    phys_inv N s' (<[p := (k, true)]> B) (<[k := p :: L k]> L) (X ∖ {[p]}).
Proof.
  intros I HX Hp. pose proof (inv_limit _ _ _ _ _ _ _ I Hp) as Hlim.
  destruct (inv_align _ _ _ _ _ I _ _ _ Hp) as (Hk & Hal & Hp0 & HpN).
  destruct (inv_mapped _ _ _ _ _ I p (inv_frame _ _ _ _ _ _ _ I Hp)) as [pi Hpi].
  destruct (lookup_lt_is_Some_2 (mm_lists s) k) as [h Hh]; [rewrite (inv_heads _ _ _ _ _ I); lia|].
  pose proof (inv_boot _ _ _ _ _ I) as Hboot.
  unfold phys_free_block. rewrite Hh. simpl. rewrite shiftr_page, Hpi. simpl.
  rewrite phys_to_virt_va, deref_va by done.
  eexists. split; [reflexivity|].
  split; [apply touches_write; pose proof (pow2_pos k); unfold in_block; lia|].
  split; [rewrite list_pages_insert by done; cbn [length]; lia|].
  assert (forall j, (j <= MAX_ORDER)%nat -> p ∉ L j) as Hnot.
  { intros j Hj Hin. apply (inv_list _ _ _ _ _ I j p Hj) in Hin. congruence. }
  split; simpl.
  - apply I.
  - apply I.
  - rewrite length_insert. apply I.
  - intros j h' Hj. apply list_lookup_insert_Some in Hj as [(<- & <- & _)|[Hne Hj]].
    + rewrite fn_lookup_insert. split; [done|]. exists h. rewrite lookup_insert_eq. split; [done|].
      apply chain_insert_out; [by apply Hnot|]. by eapply inv_chain.
    + rewrite fn_lookup_insert_ne by done. apply chain_insert_out; [|by eapply inv_chain].
      apply Hnot. apply lookup_lt_Some in Hj. rewrite (inv_heads _ _ _ _ _ I) in Hj. lia.
  - intros j Hj. destruct (decide (k = j)) as [<-|Hne].
    + rewrite fn_lookup_insert. apply NoDup_cons. split; [by apply Hnot|by eapply inv_nodup].
    + rewrite fn_lookup_insert_ne by done. by eapply inv_nodup.
  - intros j q Hj. rewrite lookup_insert_Some. destruct (decide (k = j)) as [<-|Hne].
    + rewrite fn_lookup_insert, elem_of_cons, (inv_list _ _ _ _ _ I) by done.
      destruct (decide (p = q)); naive_solver.
    + rewrite fn_lookup_insert_ne, (inv_list _ _ _ _ _ I) by done.
      split; [|naive_solver]. intros Hq. right. split; [congruence|done].
  - by eapply flip_align.
  - by eapply flip_disj.
  - intros q j f Hq Hx. rewrite lookup_insert.
    destruct (decide (p = q)) as [<-|Hne].
    + rewrite lookup_insert_eq in Hq. simplify_eq. eexists. split; [done|]. simpl.
      unfold MAX_ORDER in Hk. split; [by rewrite u8_small by lia|done].
    + rewrite lookup_insert_ne in Hq by done. eapply inv_pinfo; [done..|set_solver].
  - intros q pi' Hq Hc. rewrite (covered_flip _ _ _ _ _ _ Hp) in Hc.
    lookup_cases; [|by eapply inv_outside].
    exfalso. apply Hc. exists q, k, false. split; [done|]. unfold in_block. pose proof (pow2_pos k). lia.
  - intros q Hq. destruct (decide (p = q)) as [<-|]; [rewrite lookup_insert_eq; by eexists|].
    rewrite lookup_insert_ne by done. by eapply inv_mapped.
  - intros q Hq. destruct (inv_transit _ _ _ _ _ I q) as [j Hj]; [set_solver|].
    exists j. rewrite lookup_insert_ne; [done|set_solver].
  - rewrite list_pages_insert, (inv_count _ _ _ _ _ I) by done. cbn [length].
    rewrite u64_add_l. f_equal. lia.
Qed.

(** A free block leaves its list, whichever word pointed to it. *)
Lemma off_list_ok s B L X p k l1 l2 lists mem :
  phys_inv N s B L X -> B !! p = Some (k, true) -> L k = l1 ++ p :: l2 ->
  length lists = S MAX_ORDER ->
  (forall j h, lists !! j = Some h -> chain mem h ((<[k := l1 ++ l2]> L) j)) ->
  phys_inv N (set_phys s lists (u64 (mm_free_pages s - pow2 k)) (mm_pinfo s) mem)
    (<[p := (k, false)]> B) (<[k := l1 ++ l2]> L) (X ∪ {[p]}).
Proof.
  intros I Hp HL Hlen Hch. destruct (inv_align _ _ _ _ _ I _ _ _ Hp) as (Hk & _).
  pose proof (inv_nodup _ _ _ _ _ I k Hk) as Hnd. rewrite HL in Hnd.
  split; simpl; try done; try apply I.
  - intros j Hj. destruct (decide (k = j)) as [<-|Hne].
    + rewrite fn_lookup_insert. eapply sublist_NoDup; [exact Hnd|].
      apply sublist_app; [done|]. by apply sublist_cons.
    + rewrite fn_lookup_insert_ne by done. by eapply inv_nodup.
  - intros j q Hj. rewrite lookup_insert_Some. destruct (decide (k = j)) as [<-|Hne].
    + rewrite fn_lookup_insert.
      assert (q ∈ l1 ++ l2 <-> q <> p /\ q ∈ L k) as ->.
      { rewrite HL. apply NoDup_app in Hnd as (_ & Hd & Hnd). apply NoDup_cons in Hnd as [Hp2 _].
        specialize (Hd p). set_solver. }
      rewrite (inv_list _ _ _ _ _ I) by done. naive_solver.
    + rewrite fn_lookup_insert_ne, (inv_list _ _ _ _ _ I) by done.
      split; [|naive_solver]. intros Hq. right. split; [congruence|done].
  - by eapply flip_align.
  - by eapply flip_disj.
  - intros q j f Hq Hx. lookup_cases; [set_solver|]. eapply inv_pinfo; [done..|set_solver].
  - intros q pi Hq Hc. rewrite (covered_flip _ _ _ _ _ _ Hp) in Hc. by eapply inv_outside.
  - intros q Hq. destruct (decide (q = p)) as [->|]; [exists k; by rewrite lookup_insert_eq|].
    rewrite lookup_insert_ne by done. eapply inv_transit; [done|set_solver].
  - rewrite list_pages_insert, (inv_count _ _ _ _ _ I) by done.
    rewrite u64_sub_l, HL, !length_app. cbn [length]. f_equal. lia.
Qed.

Lemma chain_heads s B L X k h l1 p l2 j :
  phys_inv N s B L X -> L k = l1 ++ p :: l2 -> (k <= MAX_ORDER)%nat -> k <> j ->
  mm_lists s !! j = Some h ->
  chain (mm_mem s) h (L j) /\ (forall q, q ∈ L k -> q ∉ L j).
Proof.
  intros I HL Hk Hne Hj. split; [by eapply inv_chain|]. intros q Hq Hq'.
  assert (j <= MAX_ORDER)%nat.
  { apply lookup_lt_Some in Hj. rewrite (inv_heads _ _ _ _ _ I) in Hj. lia. }
  rewrite (inv_list _ _ _ _ _ I) in Hq, Hq' by done. congruence.
Qed.

(** [unlink_buddy] finds the block on its list and takes it off. *)
Lemma unlink_buddy_ok s B L X p k :
  phys_inv N s B L X -> B !! p = Some (k, true) ->
  exists s' l1 l2, L k = l1 ++ p :: l2 /\ unlink_buddy s (p * PAGE_SIZE) k = Some s' /\
    touches (covered_free B) s s' /\
    phys_inv N s' (<[p := (k, false)]> B) (<[k := l1 ++ l2]> L) (X ∪ {[p]}).
Proof.
  intros I Hp. destruct (inv_align _ _ _ _ _ I _ _ _ Hp) as (Hk & _).
  pose proof (inv_boot _ _ _ _ _ I) as Hboot. pose proof (inv_limit _ _ _ _ _ _ _ I Hp) as Hlim.
  pose proof (proj2 (inv_list _ _ _ _ _ I k p Hk) Hp) as Hin.
  apply list_elem_of_split in Hin as (l1 & l2 & HL). pose proof (inv_nodup _ _ _ _ _ I k Hk) as Hnd.
  destruct (lookup_lt_is_Some_2 (mm_lists s) k) as [h Hh]; [rewrite (inv_heads _ _ _ _ _ I); lia|].
  pose proof (inv_chain _ _ _ _ _ I k h Hh) as Hc.
  pose proof (chain_size _ _ _ Hnd Hc) as Hsz. rewrite HL in Hc, Hsz, Hnd.
  destruct (chain_app _ _ _ _ _ Hc) as (n & Hn & Hc2).
  assert (Forall (fun q => 0 <= q < PFN_LIMIT) (l1 ++ p :: l2)) as Hall.
  { apply Forall_forall. intros q Hq. rewrite <- HL in Hq.
    apply (inv_list _ _ _ _ _ I k q Hk) in Hq. by eapply inv_limit. }
  assert (p ∉ l1) as Hp1 by (apply NoDup_app in Hnd as (_ & Hd & _); intros ?; apply (Hd p); set_solver).
  destruct (find_ploc_chain (size (mm_mem s)) s (PHead k) h l1 p l2) as [Hf (v & Hv & ->)]; try done.
  { rewrite length_app in Hsz. lia. }
  pose proof (va_bounds p Hlim).
  unfold unlink_buddy. rewrite phys_to_virt_va by done. rewrite Hf. cbn [mbind option_bind].
  rewrite Hv. cbn [mbind option_bind]. destruct (Z.eqb_spec (va p) 0); [lia|].
  rewrite deref_va, Hn by done. cbn [mbind option_bind].
  eexists _, l1, l2. split; [done|]. split; [reflexivity|].
  destruct (list.last l1) as [q|] eqn:Hlast; cbn [write_ploc]; unfold set_phys at 2 3 4; simpl.
  - apply last_Some in Hlast as [l1' ->].
    rewrite deref_va by (try done; apply Forall_app in Hall as [Hall _]; apply Forall_app in Hall as [_ Hall]; by inversion Hall).
    split.
    { assert (q ∈ L k) as Hq%(inv_list _ _ _ _ _ I k q Hk) by (rewrite HL; set_solver).
      apply (touches_write _ s (mm_lists s)). exists q, k. split; [done|].
      pose proof (pow2_pos k). unfold in_block. lia. }
    refine (off_list_ok s B L X p k _ l2 _ _ I Hp HL _ _); [apply I|]. intros j h' Hj.
    rewrite <- !app_assoc in *. simpl in *.
    destruct (decide (k = j)) as [<-|Hne]; [rewrite fn_lookup_insert|rewrite fn_lookup_insert_ne by done].
    + simplify_eq. by eapply chain_unlink.
    + destruct (chain_heads _ _ _ _ _ h' _ _ _ j I HL Hk Hne Hj) as [? Hd].
      apply chain_insert_out; [apply Hd; rewrite HL; set_solver|done].
  - apply last_None in Hlast as ->. split; [apply (touches_nomem _ s)|]. refine (off_list_ok s B L X p k [] l2 _ _ I Hp HL _ _); [by rewrite length_insert; apply I|].
    intros j h' Hj. apply list_lookup_insert_Some in Hj as [(<- & <- & _)|[Hne Hj]];
      [by rewrite fn_lookup_insert|]. rewrite fn_lookup_insert_ne by done. by eapply inv_chain.
Qed.

(** A change of the ghost blocks alone: the free blocks stay, and the others are
    cut up or joined. *)
Lemma reshape_ok s B L X (B' : blocks) X' :
  phys_inv N s B L X ->
  (forall q (k : nat), B' !! q = Some (k, true) <-> B !! q = Some (k, true)) ->
  (forall q (k : nat) (f : bool), B' !! q = Some (k, f) ->
     (k <= MAX_ORDER)%nat /\ (pow2 k | q) /\ 0 <= q /\ q + pow2 k <= N) ->
  (forall p (k : nat) (f : bool) q (j : nat) (g : bool), B' !! p = Some (k, f) ->
     B' !! q = Some (j, g) -> p <> q -> p + pow2 k <= q \/ q + pow2 j <= p) ->
  (forall q, covered B q -> covered B' q) ->
  (forall q (k : nat) (f : bool), B' !! q = Some (k, f) -> q ∉ X' -> B !! q = Some (k, f) /\ q ∉ X) ->
  (forall q, q ∈ X' -> exists k, B' !! q = Some (k, false)) ->
  phys_inv N s B' L X'.
Proof.
  intros I Hfree Hal Hdisj Hcov Hpi Htr. split; try apply I; try done.
  - intros k q Hk. rewrite (inv_list _ _ _ _ _ I) by done. symmetry. apply Hfree.
  - intros q k f Hq Hx. destruct (Hpi _ _ _ Hq Hx). by eapply inv_pinfo.
  - intros q pi Hq Hc. eapply inv_outside; [done..|]. intros H. by apply Hc, Hcov.
Qed.

Lemma no_head_inside s B L X p k f q :
  phys_inv N s B L X -> B !! p = Some (k, f) -> in_block p k q -> q <> p -> B !! q = None.
Proof.
  intros I Hp Hq Hne. destruct (B !! q) as [[j g]|] eqn:HB; [|done]. exfalso.
  pose proof (pow2_pos j). unfold in_block in Hq.
  destruct (inv_disj _ _ _ _ _ I _ _ _ _ _ _ Hp HB); lia.
Qed.

(** The two halves of a block in transit. *)
Lemma split_ok s B L X p k :
  phys_inv N s B L X -> p ∈ X -> B !! p = Some (S k, false) ->
  B !! (p + pow2 k) = None /\
  phys_inv N s (<[p + pow2 k := (k, false)]> (<[p := (k, false)]> B)) L (X ∪ {[p + pow2 k]}).
Proof.
  intros I HX Hp. pose proof (pow2_pos k) as Hk0. pose proof (pow2_S k) as HS.
  assert (B !! (p + pow2 k) = None) as Hno.
  { eapply no_head_inside; [done..| |]; unfold in_block; lia. }
  destruct (inv_align _ _ _ _ _ I _ _ _ Hp) as (Hk & Hal & Hp0 & HpN).
  assert (pow2 k | p) as Hdiv by (etransitivity; [apply pow2_divide|exact Hal]; lia).
  split; [done|]. apply (reshape_ok s B L X); [done|..].
  - intros q j. rewrite !lookup_insert_Some. naive_solver.
  - intros q j f Hq. lookup_cases; [| |by eapply inv_align]; (split; [lia|]);
      (split; [by apply Z.divide_add_r || done|lia]).
  - intros q j f q' j' f' Hq Hq' Hne.
    lookup_cases; try lia;
      match goal with
      | H : B !! ?x = Some _, H' : _ <> ?x |- _ => destruct (inv_disj _ _ _ _ _ I _ _ _ _ _ _ Hp H H'); lia
      | |- _ => by eapply inv_disj
      end.
  - intros q (x & j & f & Hx & Hq). destruct (decide (x = p)) as [->|Hne]; simplify_eq.
    + destruct (decide (q < p + pow2 k)) as [Hlt|Hge].
      * exists p, k, false. rewrite lookup_insert_ne, lookup_insert_eq by lia.
        split; [done|]. unfold in_block in *. lia.
      * exists (p + pow2 k), k, false. rewrite lookup_insert_eq.
        split; [done|]. unfold in_block in *. lia.
    + exists x, j, f. rewrite !lookup_insert_ne; [done|done|congruence].
  - intros q j f Hq Hx. lookup_cases; set_solver.
  - intros q Hq. destruct (decide (q = p + pow2 k)) as [->|]; [exists k; by rewrite lookup_insert_eq|].
    rewrite lookup_insert_ne by done. destruct (decide (q = p)) as [->|]; [exists k; by rewrite lookup_insert_eq|].
    rewrite lookup_insert_ne by done. eapply inv_transit; [done|set_solver].
Qed.

(** Two buddies in transit make one block of the next order. *)
Lemma merge_ok s B L X m k :
  phys_inv N s B L X -> m ∈ X -> m + pow2 k ∈ X -> (k < MAX_ORDER)%nat -> (pow2 (S k) | m) ->
  B !! m = Some (k, false) -> B !! (m + pow2 k) = Some (k, false) ->
  phys_inv N s (<[m := (S k, false)]> (delete (m + pow2 k) B)) L (X ∖ {[m + pow2 k]}).
Proof.
  intros I HX HX' Hk Hal Hm Hm'. pose proof (pow2_pos k) as Hk0. pose proof (pow2_S k) as HS.
  destruct (inv_align _ _ _ _ _ I _ _ _ Hm) as (_ & _ & Hm0 & _).
  destruct (inv_align _ _ _ _ _ I _ _ _ Hm') as (_ & _ & _ & HmN).
  apply (reshape_ok s B L X); [done|..].
  - intros q j. rewrite lookup_insert_Some, lookup_delete_Some. naive_solver.
  - intros q j f Hq. lookup_cases; [|by eapply inv_align]. split; [lia|]. split; [done|lia].
  - intros q j f q' j' f' Hq Hq' Hne. pose proof (pow2_pos j). pose proof (pow2_pos j').
    lookup_cases; try lia;
      match goal with
      | H : B !! ?x = Some _, H' : ?m <> ?x, H'' : ?m + _ <> ?x |- _ =>
          destruct (inv_disj _ _ _ _ _ I _ _ _ _ _ _ Hm H H');
          destruct (inv_disj _ _ _ _ _ I _ _ _ _ _ _ Hm' H H''); lia
      | |- _ => by eapply inv_disj
      end.
  - intros q (x & j & f & Hx & Hq).
    destruct (decide (in_block m (S k) q)) as [Hin|Hout].
    + exists m, (S k), false. by rewrite lookup_insert_eq.
    + exists x, j, f. split; [|done]. unfold in_block in *.
      destruct (decide (x = m)) as [->|]; [simplify_eq; lia|].
      destruct (decide (x = m + pow2 k)) as [->|]; [simplify_eq; lia|].
      by rewrite lookup_insert_ne, lookup_delete_ne.
  - intros q j f Hq Hx. lookup_cases; set_solver by lia.
  - intros q Hq. destruct (decide (q = m)) as [->|]; [exists (S k); by rewrite lookup_insert_eq|].
    rewrite lookup_insert_ne, lookup_delete_ne by set_solver. eapply inv_transit; [done|set_solver].
Qed.

(** A block of the allocator's caller: its [page_info] says allocated. *)
Lemma settle_ok s B L X p k pi :
  phys_inv N s B L X -> B !! p = Some (k, false) ->
  phys_inv N (set_phys s (mm_lists s) (mm_free_pages s)
    (<[p := mk_pinfo PAGE_ALLOC (u8 (Z.of_nat k)) 1 pi]> (mm_pinfo s)) (mm_mem s)) B L (X ∖ {[p]}).
Proof.
  intros I Hp. destruct (inv_align _ _ _ _ _ I _ _ _ Hp) as (Hk & _). unfold MAX_ORDER in Hk.
  split; simpl; try apply I.
  - intros q j f Hq Hx. destruct (decide (p = q)) as [<-|Hne].
    + simplify_eq. rewrite lookup_insert_eq. eexists. split; [done|]. simpl.
      split; [by rewrite u8_small by lia|done].
    + rewrite lookup_insert_ne by done. eapply inv_pinfo; [done..|set_solver].
  - intros q pi' Hq Hc. lookup_cases; [done|by eapply inv_outside].
  - intros q Hq. destruct (decide (p = q)) as [<-|]; [rewrite lookup_insert_eq; by eexists|].
    rewrite lookup_insert_ne by done. by eapply inv_mapped.
  - intros q Hq. eapply inv_transit; [done|set_solver].
Qed.

Lemma settle_one s B L p k pi :
  phys_inv N s B L {[p]} -> B !! p = Some (k, false) ->
  phys_inv N (set_phys s (mm_lists s) (mm_free_pages s)
    (<[p := mk_pinfo PAGE_ALLOC (u8 (Z.of_nat k)) 1 pi]> (mm_pinfo s)) (mm_mem s)) B L ∅.
Proof.
  intros I Hp. pose proof (settle_ok s B L _ p k pi I Hp) as I'.
  by replace ({[p]} ∖ {[p]}) with (∅ : gset Z) in I' by set_solver.
Qed.

(** Splitting a block down to [order] leaves its first part in transit and the
    rest on the free lists. *)
Lemma split_down_ok order X p d : forall s B L,
  phys_inv N s B L X -> p ∈ X -> B !! p = Some ((order + d)%nat, false) ->
  exists s' B' L', split_down s (p * PAGE_SIZE) order d = Some s' /\
    phys_inv N s' B' L' X /\ B' !! p = Some (order, false) /\
    touches (in_block p (order + d)) s s' /\
    list_pages L' = list_pages L + pow2 (order + d) - pow2 order /\
    (forall q (k : nat), q <> p -> B' !! q = Some (k, false) <-> B !! q = Some (k, false)) /\
    (forall q, covered_free B' q <->
       covered_free B q \/ in_block p (order + d) q /\ ~ in_block p order q).
Proof.
  induction d as [|d IH]; intros s B L I HX Hp.
  - rewrite Nat.add_0_r in *. exists s, B, L. do 4 (split; [by auto|]). split; [lia|]. split; intros; tauto.
  - rewrite Nat.add_succ_r in *. cbn [split_down]. set (o := (order + d)%nat) in *.
    destruct (split_ok _ _ _ _ _ _ I HX Hp) as [Hno I1]. pose proof (pow2_pos o) as Ho.
    pose proof (pow2_S o) as HS.
    destruct (inv_align _ _ _ _ _ I _ _ _ Hp) as (Hk & Hal & Hp0 & HpN).
    rewrite buddy_addr, lxor_pow2_add by (done || lia).
    destruct (phys_free_block_ok _ _ _ _ (p + pow2 o) o I1)
      as (s1 & -> & T1 & C1 & I2); [set_solver|by rewrite lookup_insert_eq|]. cbn [mbind option_bind].
    assert (p + pow2 o ∉ X) as HnX.
    { intros Hin. destruct (inv_transit _ _ _ _ _ I _ Hin). congruence. }
    replace ((X ∪ {[p + pow2 o]}) ∖ {[p + pow2 o]}) with X in I2 by set_solver.
    rewrite insert_insert_eq in I2. set (B2 := <[p + pow2 o := (o, true)]> (<[p := (o, false)]> B)) in *.
    assert (B2 !! p = Some (o, false)) as Hp2.
    { unfold B2. by rewrite lookup_insert_ne, lookup_insert_eq by lia. }
    destruct (IH _ _ _ I2 HX Hp2) as (s' & B' & L' & -> & I' & Hp' & T' & C' & Hal' & Hcf).
    exists s', B', L'. do 3 (split; [done|]). split; [|split; [|split]].
    + eapply touches_trans; [exact T1|exact T'|unfold in_block; lia..].
    + lia.
    + intros q k Hne. rewrite Hal' by done. unfold B2. rewrite lookup_insert_Some, lookup_insert_Some.
      naive_solver.
    + intros q. rewrite Hcf. unfold B2.
      rewrite covered_free_insert, covered_free_used.
      * unfold in_block. pose proof (pow2_le order o ltac:(lia)). split; intros; intuition lia.
      * intros k. congruence.
      * intros k. rewrite lookup_insert_ne by lia. congruence.
Qed.

Lemma covered_free_off s B L X p k q :
  phys_inv N s B L X -> B !! p = Some (k, true) ->
  covered_free (<[p := (k, false)]> B) q <-> covered_free B q /\ ~ in_block p k q.
Proof.
  intros I Hp. split.
  - intros (x & j & Hx & Hq). lookup_cases. split; [by exists x, j|]. intros Hq'.
    unfold in_block in *. destruct (inv_disj _ _ _ _ _ I _ _ _ _ _ _ Hp H0); [done|lia..].
  - intros [(x & j & Hx & Hq) Hnot]. exists x, j. split; [|done].
    rewrite lookup_insert_ne; [done|]. intros <-. by simplify_eq.
Qed.

(** The head of a list is popped, split and marked. *)
Lemma alloc_found s B L p l order o b :
  phys_inv N s B L ∅ -> (order <= o)%nat -> mm_lists s !! o = Some b -> L o = p :: l ->
  b = va p /\ exists next s2 pi s', mm_mem s !! deref_addr s b = Some next /\
    split_down (set_phys s (<[o := next]> (mm_lists s)) (u64 (mm_free_pages s - pow2 o))
      (mm_pinfo s) (mm_mem s)) (virt_to_phys b) order (o - order) = Some s2 /\
    mm_pinfo s2 !! Z.shiftr (virt_to_phys b) PAGE_SHIFT = Some pi /\
    s' = set_phys s2 (mm_lists s2) (mm_free_pages s2)
           (<[Z.shiftr (virt_to_phys b) PAGE_SHIFT :=
               mk_pinfo PAGE_ALLOC (u8 (Z.of_nat order)) 1 (pi_map_count pi)]> (mm_pinfo s2))
           (mm_mem s2) /\
    alloc_post N s B order p s'.
Proof.
  intros I Ho Hb HL. pose proof (inv_chain _ _ _ _ _ I _ _ Hb) as Hc. rewrite HL in Hc.
  destruct Hc as (-> & next & Hn & Hc). split; [done|].
  assert (o <= MAX_ORDER)%nat as Ho'.
  { apply lookup_lt_Some in Hb. rewrite (inv_heads _ _ _ _ _ I) in Hb. lia. }
  assert (B !! p = Some (o, true)) as Hp by (apply (inv_list _ _ _ _ _ I o p Ho'); rewrite HL; set_solver).
  pose proof (inv_limit _ _ _ _ _ _ _ I Hp) as Hlim. pose proof (inv_boot _ _ _ _ _ I) as Hboot.
  rewrite deref_va, virt_to_phys_va, shiftr_page by done.
  assert (phys_inv N (set_phys s (<[o := next]> (mm_lists s)) (u64 (mm_free_pages s - pow2 o))
      (mm_pinfo s) (mm_mem s)) (<[p := (o, false)]> B) (<[o := l]> L) (∅ ∪ {[p]})) as I1.
  { refine (off_list_ok s B L ∅ p o [] l _ _ I Hp HL _ _); [by rewrite length_insert; apply I|].
    intros j h Hj. apply list_lookup_insert_Some in Hj as [(<- & <- & _)|[Hne Hj]];
      [by rewrite fn_lookup_insert|]. rewrite fn_lookup_insert_ne by done. by eapply inv_chain. }
  destruct (split_down_ok order _ p (o - order) _ _ _ I1) as (s2 & B' & L' & Hsd & I2 & Hp2 & T2 & C2 & Hal & Hcf).
  { set_solver. } { rewrite lookup_insert_eq. do 2 f_equal. lia. }
  replace (order + (o - order))%nat with o in * by lia.
  destruct (inv_mapped _ _ _ _ _ I2 p (inv_frame _ _ _ _ _ _ _ I2 Hp2)) as [pi Hpi].
  eexists next, s2, pi, _. do 4 (split; [done|]). exists B', L'.
  assert (forall q, in_block p o q -> covered_free B q) as Hsub by (intros q Hq; by exists p, o).
  pose proof (pow2_le order o Ho).
  split; [|split; [done|split; [|split; [|split; [|split]]]]].
  - replace (∅ : gset Z) with ((∅ ∪ {[p]}) ∖ {[p]} : gset Z) by set_solver. by apply settle_ok.
  - intros q k Hne. by rewrite Hal, lookup_insert_ne.
  - intros q Hq. apply Hsub. unfold in_block in *. lia.
  - intros q. rewrite Hcf, covered_free_off by done. specialize (Hsub q). unfold in_block in *.
    split; [|destruct (decide (p <= q < p + pow2 o)); tauto]. intros [[? ?]|[? ?]]; [|tauto]. split; [done|lia].
  - eapply touches_trans; [exact T2|apply touches_nomem|exact Hsub|done].
  - simpl. rewrite (inv_count _ _ _ _ _ I2), C2, (inv_count _ _ _ _ _ I), u64_sub_l.
    rewrite list_pages_insert, HL by done. cbn [length]. f_equal. lia.
Qed.

Lemma alloc_loop_ok s B L order n : forall o,
  phys_inv N s B L ∅ -> (order <= o)%nat -> (o + n = S MAX_ORDER)%nat ->
  (forall j, (order <= j < o)%nat -> L j = []) ->
  (alloc_loop s order o n = Some (0, s) /\ (forall j, (order <= j <= MAX_ORDER)%nat -> L j = [])) \/
  (exists p s', alloc_loop s order o n = Some (p * PAGE_SIZE, s') /\ alloc_post N s B order p s').
Proof.
  induction n as [|n IH]; intros o I Ho Hn Hempty.
  - left. split; [done|]. intros j Hj. apply Hempty. lia.
  - cbn [alloc_loop]. destruct (lookup_lt_is_Some_2 (mm_lists s) o) as [b Hb];
      [rewrite (inv_heads _ _ _ _ _ I); lia|].
    rewrite Hb. cbn [mbind option_bind]. destruct (L o) as [|p l] eqn:HL.
    + pose proof (inv_chain _ _ _ _ _ I _ _ Hb) as Hc. rewrite HL in Hc. simpl in Hc. subst b. simpl.
      apply IH; [done|lia..|]. intros j Hj. destruct (decide (j = o)) as [->|]; [done|]. apply Hempty. lia.
    + assert (B !! p = Some (o, true)) as Hp by (apply (inv_list _ _ _ _ _ I o p); [lia|rewrite HL; set_solver]).
      pose proof (inv_limit _ _ _ _ _ _ _ I Hp) as Hlim. pose proof (va_bounds p Hlim).
      destruct (alloc_found _ _ _ _ _ order _ _ I Ho Hb HL) as (-> & next & s2 & pi & s' & -> & Hs & Hpi & Hs' & Hpost).
      destruct (Z.eqb_spec (va p) 0); [lia|]. cbn [mbind option_bind].
      rewrite Hs. cbn [mbind option_bind]. rewrite Hpi. cbn [mbind option_bind].
      right. exists p, s'. subst s'. rewrite virt_to_phys_va in * by done. done.
Qed.

(** The pair of buddies [m], [m + 2^k] around [p]. *)
Lemma buddy_pair p k : 0 <= p -> (pow2 k | p) ->
  exists m, (pow2 (S k) | m) /\ 0 <= m /\
    ((p = m /\ Z.lxor p (pow2 k) = m + pow2 k) \/ (p = m + pow2 k /\ Z.lxor p (pow2 k) = m)).
Proof.
  intros Hp Hal. destruct (buddy_cases p k Hp Hal) as [[? ?]|(? & ? & ?)].
  - exists p. auto.
  - exists (p - pow2 k). do 2 (split; [done|]). right. lia.
Qed.

Lemma buddy_in_range s B L X m k :
  phys_inv N s B L X -> (k < MAX_ORDER)%nat -> (pow2 (S k) | m) -> m < N -> m + pow2 (S k) <= N.
Proof.
  intros I Hk [a Ha] Hm. destruct (inv_N _ _ _ _ _ I) as [_ [b Hb]].
  assert (pow2 (S k) | pow2 MAX_ORDER) as [c Hc] by (apply pow2_divide; lia).
  pose proof (pow2_pos (S k)). rewrite Hc in Hb. clear Hc I Hk.
  generalize dependent (pow2 (S k)). intros w -> -> Hw. assert (a < b * c) by nia. nia.
Qed.

(** A [page_info] that reads free with the order of [p] is its free buddy's. *)
Lemma buddy_free s B L X p k m b pi :
  phys_inv N s B L X -> B !! p = Some (k, false) -> (k < MAX_ORDER)%nat ->
  (pow2 (S k) | m) -> (p = m /\ b = m + pow2 k \/ p = m + pow2 k /\ b = m) -> b ∉ X ->
  mm_pinfo s !! b = Some pi -> Z.land (pi_flags pi) PAGE_FREE <> 0 -> pi_order pi = Z.of_nat k ->
  B !! b = Some (k, true).
Proof.
  intros I Hp Hk Hm Hb HX Hpi Hfl Hord. pose proof (pow2_pos k). pose proof (pow2_S k) as HS.
  destruct (B !! b) as [[j f]|] eqn:HB.
  { destruct (inv_pinfo _ _ _ _ _ I _ _ _ HB HX) as (pi' & ? & ? & Hf). simplify_eq.
    rewrite Hf in Hfl. destruct f; [|done]. do 2 f_equal. lia. }
  exfalso. apply Hfl. eapply inv_outside; [done..|].
  intros (q & j & f & Hq & Hin). destruct (inv_align _ _ _ _ _ I _ _ _ Hq) as (_ & Hqa & _).
  unfold in_block in Hin. assert (q <> b) by congruence.
  destruct (inv_align _ _ _ _ _ I _ _ _ Hp) as (_ & Hpa & _).
  destruct (decide (j <= k)%nat) as [Hjk|Hjk].
  - assert (pow2 j | b) as Hjb.
    { assert (pow2 j | pow2 k) by by apply pow2_divide.
      assert (pow2 j | p) by (by etransitivity).
      destruct Hb as [[-> ->]|[-> ->]]; [by apply Z.divide_add_r|].
      apply Z.divide_add_cancel_r with (m := pow2 k); [done|]. by rewrite Z.add_comm. }
    destruct (aligned_nested b j q j Hjb Hqa) as [? ?]; [lia..|]. pose proof (pow2_pos j). lia.
  - assert (q <= m < q + pow2 j) as Hqm.
    { destruct Hb as [[? ?]|[? ?]]; [|lia]. subst b.
      assert (pow2 (S k) | q) as Hkq by (etransitivity; [apply pow2_divide|exact Hqa]; lia).
      destruct (Z.divide_sub_r _ _ _ Hm Hkq) as [t Ht]. rewrite HS in Ht.
      assert (0 <= t) by nia. assert (0 <= t * (2 * pow2 k)) by (apply Z.mul_nonneg_nonneg; lia). lia. }
    destruct (aligned_nested m (S k) q j Hm Hqa) as [? ?]; [lia|done|].
    destruct (decide (q = p)) as [->|Hne]; [simplify_eq; lia|].
    destruct (inv_disj _ _ _ _ _ I _ _ _ _ _ _ Hq Hp Hne); lia.
Qed.

(** Taking the free buddy of a block in transit and joining the two. *)
Lemma join_ok s B L p k m b :
  phys_inv N s B L {[p]} -> B !! p = Some (k, false) -> (k < MAX_ORDER)%nat ->
  (pow2 (S k) | m) -> (p = m /\ b = m + pow2 k \/ p = m + pow2 k /\ b = m) ->
  B !! b = Some (k, true) ->
  exists s' B' L', unlink_buddy s (b * PAGE_SIZE) k = Some s' /\ touches (covered_free B) s s' /\
    phys_inv N s' B' L' {[m]} /\ B' !! m = Some (S k, false) /\
    (forall q (j : nat), q <> m -> B' !! q = Some (j, false) <-> q <> p /\ B !! q = Some (j, false)) /\
    (forall q, covered_free B' q <-> covered_free B q /\ ~ in_block b k q) /\
    list_pages L' = list_pages L - pow2 k.
Proof.
  intros I Hp Hk Hm Hb HB. pose proof (pow2_pos k).
  destruct (unlink_buddy_ok _ _ _ _ _ _ I HB) as (s' & l1 & l2 & HL & Hs & T & I1).
  assert (<[b := (k, false)]> B !! m = Some (k, false) /\
          <[b := (k, false)]> B !! (m + pow2 k) = Some (k, false)) as [Hm1 Hm2].
  { destruct Hb as [[-> ->]|[-> ->]]; split; (rewrite lookup_insert_eq || rewrite lookup_insert_ne by lia); done. }
  pose proof (merge_ok _ _ _ _ m k I1 ltac:(set_solver) ltac:(set_solver) Hk Hm Hm1 Hm2) as I2.
  replace (({[p]} ∪ {[b]}) ∖ {[m + pow2 k]}) with ({[m]} : gset Z) in I2.
  2: { destruct Hb as [[-> ->]|[-> ->]]; set_solver by lia. }
  eexists s', _, _. do 2 (split; [done|]). split; [exact I2|]. split; [by rewrite lookup_insert_eq|].
  split; [|split].
  - intros q j Hne. rewrite lookup_insert_ne, lookup_delete_Some, lookup_insert_Some by done.
    destruct Hb as [[-> ->]|[-> ->]]; naive_solver.
  - intros q. rewrite <- (covered_free_off _ _ _ _ _ _ _ I HB). rewrite covered_free_used.
    + split; intros (x & j & Hx & Hq); exists x, j; [by apply lookup_delete_Some in Hx as [_ Hx]|]. split; [|done].
      rewrite lookup_delete_ne; [done|]. congruence.
    + intros j. rewrite lookup_delete_ne by lia. congruence.
  - destruct (inv_align _ _ _ _ _ I _ _ _ HB) as (? & _). rewrite list_pages_insert, HL, !length_app by done.
    cbn [length]. lia.
Qed.

Lemma coalesce_ok n : forall s B L p k,
  phys_inv N s B L {[p]} -> B !! p = Some (k, false) -> (k + n = MAX_ORDER)%nat ->
  exists s' B' L' p' k', coalesce n s (p * PAGE_SIZE) k = Some (s', p' * PAGE_SIZE, k') /\
    phys_inv N s' B' L' {[p']} /\ B' !! p' = Some (k', false) /\ touches (covered_free B) s s' /\
    (forall q (j : nat), q <> p' -> B' !! q = Some (j, false) <-> q <> p /\ B !! q = Some (j, false)) /\
    (forall q, covered_free B' q \/ in_block p' k' q <-> covered_free B q \/ in_block p k q) /\
    list_pages L' + pow2 k' = list_pages L + pow2 k.
Proof.
  induction n as [|n IH]; intros s B L p k I Hp Hn.
  - exists s, B, L, p, k. do 4 (split; [by auto|]). split; [|split]; [|tauto|lia]. intros q j Hne. tauto.
  - cbn [coalesce]. rewrite buddy_addr, shiftr_page by lia.
    destruct (inv_align _ _ _ _ _ I _ _ _ Hp) as (_ & Hal & Hp0 & HpN).
    destruct (buddy_pair p k Hp0 Hal) as (m & Hm & Hm0 & Hpair). set (b := Z.lxor p (pow2 k)) in *.
    pose proof (pow2_pos k). pose proof (pow2_S k) as HS.
    pose proof (buddy_in_range _ _ _ _ m k I ltac:(lia) Hm ltac:(lia)) as HmN.
    destruct (inv_mapped _ _ _ _ _ I b) as [pi Hpi]; [lia|]. rewrite Hpi. cbn [mbind option_bind].
    case_match eqn:Hcond.
    + exists s, B, L, p, k. do 4 (split; [by auto|]). split; [|split]; [|tauto|lia]. intros q j Hne. tauto.
    + apply orb_false_iff in Hcond as [Hfl%Z.eqb_neq Hord].
      apply negb_false_iff, Z.eqb_eq in Hord.
      assert (B !! b = Some (k, true)) as HB.
      { eapply (buddy_free _ _ _ _ p k m b); eauto; [lia|set_solver by lia]. }
      destruct (join_ok _ _ _ p k m b I Hp) as (s1 & B1 & L1 & -> & T1 & I1 & Hm1 & Hal1 & Hcf1 & C1);
        [lia|done..|]. cbn [mbind option_bind].
      assert ((if p * PAGE_SIZE <? b * PAGE_SIZE then p * PAGE_SIZE else b * PAGE_SIZE) = m * PAGE_SIZE) as ->.
      { unfold PAGE_SIZE. destruct (Z.ltb_spec (p * 4096) (b * 4096)); lia. }
      destruct (IH _ _ _ _ _ I1 Hm1) as (s' & B' & L' & p' & k' & -> & I' & Hp' & T' & Hal' & Hcf' & C'); [lia|].
      assert (forall q, in_block b k q -> covered_free B q) as Hbc by (intros; by exists b, k).
      exists s', B', L', p', k'. do 3 (split; [done|]). split; [|split; [|split]].
      * eapply touches_trans; [exact T1|exact T'|done|]. intros q Hq. by apply Hcf1 in Hq as [? _].
      * intros q j Hne. rewrite Hal' by done. destruct (decide (q = m)) as [->|Hqm].
        -- split; [naive_solver|]. intros [Hpm Hf]. destruct Hpair as [[-> ?]|[? ?]]; [done|]. congruence.
        -- rewrite Hal1 by done. tauto.
      * intros q. rewrite Hcf', Hcf1. specialize (Hbc q). unfold in_block in *.
        destruct (decide (b <= q < b + pow2 k)); split; intros; [tauto| |intuition lia..].
        right. lia.
      * lia.
Qed.

(** A block handed in by the caller is in transit. *)
Lemma take_ok s B L p k :
  phys_inv N s B L ∅ -> B !! p = Some (k, false) -> phys_inv N s B L {[p]}.
Proof.
  intros I Hp. apply (reshape_ok s B L ∅); try done; try apply I.
  intros q ->%elem_of_singleton. by exists k.
Qed.

(** A fresh block of frames that no block covered. *)
Lemma add_ok s B L p k :
  phys_inv N s B L ∅ -> (k <= MAX_ORDER)%nat -> (pow2 k | p) -> 0 <= p -> p + pow2 k <= N ->
  (forall q, in_block p k q -> ~ covered B q) ->
  B !! p = None /\ phys_inv N s (<[p := (k, false)]> B) L {[p]}.
Proof.
  intros I Hk Hal Hp0 HpN Hun. pose proof (pow2_pos k) as Hk0. unfold in_block in Hun.
  assert (forall q (j : nat) (f : bool), B !! q = Some (j, f) -> p + pow2 k <= q \/ q + pow2 j <= p) as Hd.
  { intros q j f Hq. pose proof (pow2_pos j).
    destruct (decide (p <= q < p + pow2 k)) as [Hin|].
    { destruct (Hun q Hin). exists q, j, f. split; [done|]. unfold in_block. lia. }
    destruct (decide (q <= p < q + pow2 j)) as [Hin|]; [|lia].
    destruct (Hun p ltac:(lia)). by exists q, j, f. }
  assert (B !! p = None) as Hno.
  { destruct (B !! p) as [[j f]|] eqn:HB; [|done]. pose proof (pow2_pos j). specialize (Hd _ _ _ HB). lia. }
  split; [done|]. apply (reshape_ok s B L ∅); [done|..].
  - intros q j. rewrite lookup_insert_Some. naive_solver.
  - intros q j f Hq. lookup_cases; [done|by eapply inv_align].
  - intros q j f q' j' f' Hq Hq' Hne. lookup_cases; [| |by eapply inv_disj];
      destruct (Hd _ _ _ ltac:(eassumption)); auto.
  - intros q (x & j & f & Hx & Hq). exists x, j, f. rewrite lookup_insert_ne; [done|congruence].
  - intros q j f Hq Hx. lookup_cases; set_solver.
  - intros q ->%elem_of_singleton. exists k. by rewrite lookup_insert_eq.
Qed.
End Steps.

(** ** Sample states *)

(** A state whose [page_info] array maps [N] frames, none marked free. *)
Definition pinfo_clear (N : Z) (s : mm_state) : Prop :=
  (forall p, 0 <= p < N -> is_Some (mm_pinfo s !! p)) /\
  (forall p pi, mm_pinfo s !! p = Some pi -> Z.land (pi_flags pi) PAGE_FREE = 0).

Lemma reset_inv N s :
  0 <= N <= PFN_LIMIT -> (pow2 MAX_ORDER | N) -> mm_early_boot s = false -> pinfo_clear N s ->
  phys_inv N (reset_phys s) ∅ (fun _ => []) ∅.
Proof.
  intros HN HN' Hboot [Hmap Hclear]. split; simpl; try done; try set_solver.
  - intros k h Hk. by apply (lookup_replicate (S MAX_ORDER)) in Hk as [-> _].
  - intros k _. constructor.
Qed.

(** A sample state: 2 GiB of frames, with a bump area of 64 MiB at 16 MiB. *)
Definition demo_N : Z := 2 ^ 19.

Definition demo_pinfo : gmap Z page_info_t :=
  gset_to_gmap (mk_pinfo 0 0 0 0) (list_to_set (seqZ 0 demo_N)).

Lemma demo_pinfo_Some p pi : demo_pinfo !! p = Some pi <-> 0 <= p < demo_N /\ mk_pinfo 0 0 0 0 = pi.
Proof.
  unfold demo_pinfo. rewrite lookup_gset_to_gmap_Some, elem_of_list_to_set, elem_of_seqZ.
  by rewrite Z.add_0_l.
Qed.

#[global] Opaque demo_pinfo.

Definition demo_boot : mm_state :=
  mk_mm (replicate (S MAX_ORDER) 0) 0 0 (2 ^ 64 - 1) 0 false 0x1000000 0x1000000 0x5000000
    demo_pinfo ∅.

(** With one free block of the largest order. *)
Definition demo_free : mm_state :=
  default demo_boot (phys_free_block demo_boot (2 ^ 18 * PAGE_SIZE) 18).

(** With one allocated block of eight pages. *)
Definition demo_used : mm_state :=
  set_phys demo_boot (mm_lists demo_boot) (mm_free_pages demo_boot)
    (<[2 ^ 18 := mk_pinfo PAGE_ALLOC (u8 (Z.of_nat 3)) 1 0]> (mm_pinfo demo_boot)) (mm_mem demo_boot).

Lemma demo_boot_clear : pinfo_clear demo_N demo_boot.
Proof.
  split.
  - intros p Hp. exists (mk_pinfo 0 0 0 0). by apply demo_pinfo_Some.
  - intros p pi Hp. by apply demo_pinfo_Some in Hp as [_ <-].
Qed.

Lemma demo_boot_inv : phys_inv demo_N demo_boot ∅ (fun _ => []) ∅.
Proof. apply (reset_inv demo_N demo_boot); [done|by exists 2|done|apply demo_boot_clear]. Qed.

Lemma demo_add k : (k <= MAX_ORDER)%nat ->
  phys_inv demo_N demo_boot {[2 ^ 18 := (k, false)]} (fun _ => []) {[2 ^ 18]}.
Proof.
  intros Hk. pose proof (pow2_le k 18 Hk). eapply (add_ok demo_N); [apply demo_boot_inv|done|..|].
  - apply (pow2_divide k 18 Hk).
  - done.
  - change (2 ^ 18 + pow2 k <= 2 ^ 18 + pow2 18). lia.
  - intros q _ (p & j & f & Hp & _). set_solver.
Qed.

(** With one allocated page and a free block of 512 MiB. *)
Definition demo_page : mm_state :=
  let s := set_phys demo_boot (mm_lists demo_boot) (mm_free_pages demo_boot)
    (<[2 ^ 18 := mk_pinfo PAGE_ALLOC (u8 (Z.of_nat 0)) 1 0]> (mm_pinfo demo_boot)) (mm_mem demo_boot) in
  default s (phys_free_block s (2 ^ 17 * PAGE_SIZE) 17).

Lemma demo_page_inv : exists L,
  phys_inv demo_N demo_page (<[2 ^ 17 := (17%nat, true)]> {[2 ^ 18 := (0%nat, false)]}) L ∅.
Proof.
  assert (phys_inv demo_N (set_phys demo_boot (mm_lists demo_boot) (mm_free_pages demo_boot)
    (<[2 ^ 18 := mk_pinfo PAGE_ALLOC (u8 (Z.of_nat 0)) 1 0]> (mm_pinfo demo_boot)) (mm_mem demo_boot))
    {[2 ^ 18 := (0%nat, false)]} (fun _ => []) ∅) as I.
  { apply (settle_one demo_N); [apply demo_add; unfold MAX_ORDER; lia|done]. }
  destruct (add_ok demo_N _ _ _ (2 ^ 17) 17 I) as [Hno I1]; [unfold MAX_ORDER; lia|by exists 1|done|done| |].
  { intros q Hq (p & k & f & [<- [= <- <-]]%lookup_singleton_Some & Hin). unfold in_block in *. simpl in *. lia. }
  destruct (phys_free_block_ok demo_N _ _ _ _ (2 ^ 17) 17 I1) as (s' & E & _ & _ & I2); [set_solver|by rewrite lookup_insert_eq|].
  unfold demo_page. cbv zeta. rewrite E. cbn [default from_option id].
  replace ({[2 ^ 17]} ∖ {[2 ^ 17]}) with (∅ : gset Z) in I2 by set_solver. rewrite insert_insert_eq in I2. eexists. exact I2.
Qed.

Lemma demo_free_inv :
  phys_inv demo_N demo_free {[2 ^ 18 := (18%nat, true)]} (<[18%nat := [2 ^ 18]]> (fun _ => [])) ∅.
Proof.
  destruct (phys_free_block_ok demo_N _ _ _ _ (2 ^ 18) 18 (demo_add 18 ltac:(done)))
    as (s' & E & _ & _ & I); [set_solver|done|].
  unfold demo_free. rewrite E. cbn [default from_option id].
  replace ({[2 ^ 18]} ∖ {[2 ^ 18]}) with (∅ : gset Z) in I by set_solver.
  by rewrite insert_singleton_eq in I.
Qed.

Lemma demo_used_inv : phys_inv demo_N demo_used {[2 ^ 18 := (3%nat, false)]} (fun _ => []) ∅.
Proof.
  apply (settle_one demo_N); [apply demo_add; unfold MAX_ORDER; lia|done].
Qed.

(** ** The operations *)

Lemma phys_alloc_cases N s B L order :
  phys_inv N s B L ∅ ->
  (amm_phys_alloc s order = Some (0, s) /\
     forall p (k : nat), B !! p = Some (k, true) -> (k < order)%nat) \/
  (exists p s', amm_phys_alloc s order = Some (p * PAGE_SIZE, s') /\ alloc_post N s B order p s').
Proof.
  intros I. unfold amm_phys_alloc. rewrite (inv_boot _ _ _ _ _ I). case_decide as Ho.
  - left. split; [done|]. intros p k Hp. destruct (inv_align _ _ _ _ _ I _ _ _ Hp). lia.
  - destruct (alloc_loop_ok N s B L order (S MAX_ORDER - order) order I) as [[E H]|H]; [lia..| |by right].
    left. split; [done|]. intros p k Hp. destruct (inv_align _ _ _ _ _ I _ _ _ Hp) as [Hk _].
    destruct (decide (order <= k)%nat); [|lia]. exfalso.
    apply (inv_list _ _ _ _ _ I k p Hk) in Hp. rewrite H in Hp by lia. set_solver.
Qed.

(** An allocated block that holds a page of the block after coalescing would
    intersect the freed one. *)
Lemma coalesced_not_used N s B L p order p' k' k :
  phys_inv N s B L ∅ -> B !! p = Some (order, false) ->
  (forall q, in_block p' k' q -> covered_free B q \/ in_block p order q) ->
  p' <> p -> B !! p' = Some (k, false) -> False.
Proof.
  intros I Hp Hin Hne Hf. pose proof (pow2_pos k). pose proof (pow2_pos k').
  pose proof (inv_disj _ _ _ _ _ I _ _ _ _ _ _ Hp Hf (not_eq_sym Hne)).
  destruct (Hin p') as [(x & j & Hx & Hq)|Hq]; unfold in_block in *; [lia| |lia].
  destruct (decide (x = p')) as [->|Hne']; [congruence|].
  destruct (inv_disj _ _ _ _ _ I _ _ _ _ _ _ Hx Hf Hne'); lia.
Qed.

Lemma phys_free_cases N s B L p order :
  phys_inv N s B L ∅ -> B !! p = Some (order, false) ->
  exists s', amm_phys_free s (p * PAGE_SIZE) order = Some s' /\ free_post N s B order p s'.
Proof.
  intros I Hp. destruct (inv_align _ _ _ _ _ I _ _ _ Hp) as (Hk & _).
  destruct (coalesce_ok N (MAX_ORDER - order) s B L p order (take_ok _ _ _ _ _ _ I Hp) Hp)
    as (s1 & B1 & L1 & p' & k' & E & I1 & Hp1 & T1 & Hal & Hcf & C1); [lia|].
  destruct (phys_free_block_ok N s1 B1 L1 _ p' k' I1) as (s' & E' & T' & C' & I'); [set_solver|done|].
  exists s'. split; [unfold amm_phys_free; rewrite E; exact E'|].
  eexists _, _. replace ({[p']} ∖ {[p']}) with (∅ : gset Z) in I' by set_solver.
  split; [exact I'|]. split; [|split; [|split]].
  - intros q k. destruct (decide (q = p')) as [->|Hne].
    + rewrite lookup_insert_eq. split; [done|]. intros [Hpp Hf]. exfalso.
      eapply (coalesced_not_used N s B L p order p' k'); [done..| |done|done].
      intros q Hq. apply Hcf. by right.
    + rewrite lookup_insert_ne by done. by apply Hal.
  - intros q. rewrite covered_free_insert by (intros ?; congruence). rewrite <- Hcf. tauto.
  - eapply touches_trans; [exact T1|exact T'|by left|]. intros q Hq. apply Hcf. by right.
  - rewrite (inv_count _ _ _ _ _ I'), C', C1, (inv_count _ _ _ _ _ I), u64_add_l. done.
Qed.

(** C1: From a state that satisfies the allocator invariant, [amm_phys_alloc]
    terminates without a fault.  Either it returns 0, changes nothing, and there is
    no free block of the order asked for or above; or it returns a block that was
    free memory and now is an allocated block of that order, every other allocated
    block is as before, the free memory shrinks by exactly that block, memory
    outside free memory is not written, and the counter of free pages drops by its
    size. *)
Theorem amm_phys_alloc_ok N s B L order :
  phys_inv N s B L ∅ ->
  (amm_phys_alloc s order = Some (0, s) /\
     forall p (k : nat), B !! p = Some (k, true) -> (k < order)%nat) \/
  (exists p s', amm_phys_alloc s order = Some (p * PAGE_SIZE, s') /\ alloc_post N s B order p s').
Proof. apply phys_alloc_cases. Qed.

Lemma amm_phys_alloc_ok_witness :
  exists p s', amm_phys_alloc demo_free 3 = Some (p * PAGE_SIZE, s') /\
    alloc_post demo_N demo_free {[2 ^ 18 := (18%nat, true)]} 3 p s'.
Proof.
  destruct (amm_phys_alloc_ok demo_N demo_free _ _ 3 demo_free_inv) as [[_ H]|H]; [|exact H].
  specialize (H (2 ^ 18) 18%nat eq_refl). lia.
Defined.

(** C7: Freeing an allocated block with its order terminates without a fault and
    keeps the invariant, whatever chain of buddies it coalesces: the pages of the
    block, and no others, become free; every other allocated block stays; only free
    memory and the block itself are written; and the counter of free pages grows by
    its size. *)
Theorem amm_phys_free_ok N s B L p order :
  phys_inv N s B L ∅ -> B !! p = Some (order, false) ->
  exists s', amm_phys_free s (p * PAGE_SIZE) order = Some s' /\ free_post N s B order p s'.
Proof. apply phys_free_cases. Qed.

Lemma amm_phys_free_ok_witness :
  exists s', amm_phys_free demo_used (2 ^ 18 * PAGE_SIZE) 3 = Some s' /\
    free_post demo_N demo_used {[2 ^ 18 := (3%nat, false)]} 3 (2 ^ 18) s'.
Proof. exact (amm_phys_free_ok demo_N demo_used _ _ (2 ^ 18) 3 demo_used_inv eq_refl). Defined.
