(* ===== verification/PhysInit.v ===== *)
(** * Filling the physical allocator at boot

    [phys_free_range] cuts a range of frames into naturally aligned blocks, and
    [amm_phys_init] (src/kernel/mm/mm.c) does so for the free entries of the boot
    memory map, leaving out the area of the boot-time bump allocator.  The theorems
    say which frames end up free, and that the bump allocator hands out disjoint,
    aligned and zeroed memory. *)

From Stdlib Require Import ZArith Lia.
From stdpp Require Import base gmap functions list.
From S2P Require Import Prelude Phys PhysSpec.

Local Open Scope Z_scope.

(** ** Cutting a range *)

Lemma land_aligned x k : Z.land x (pow2 k - 1) = 0 -> (pow2 k | x).
Proof.
  intros H. rewrite Z.sub_1_r, <- Z.ones_equiv, Z.land_ones in H by lia.
  apply Z.mod_divide in H; [done|]. pose proof (pow2_pos k). lia.
Qed.

Lemma pick_order_ok b i pages order :
  (order <= MAX_ORDER)%nat -> 0 <= b -> 0 <= i < pages -> b + pages <= PFN_LIMIT ->
  let o := pick_order (b * PAGE_SIZE) i pages order in
  (o <= order)%nat /\ i + pow2 o <= pages /\ (pow2 o | b + i).
Proof.
  intros Ho Hb Hi Hlim. induction order as [|o IH].
  - simpl. split; [lia|]. split; [lia|]. apply Z.divide_1_l.
  - cbn [pick_order]. specialize (IH ltac:(lia)). unfold MAX_ORDER, PFN_LIMIT in *.
    pose proof (pow2_le (S o) 18 ltac:(lia)) as Hle. change (pow2 18) with 262144 in Hle.
    pose proof (pow2_pos (S o)).
    rewrite u64_small by lia. destruct (Z.ltb_spec pages (i + pow2 (S o))).
    + destruct IH as (? & ? & ?). split; [lia|done].
    + rewrite !u64_small by (unfold PAGE_SIZE; lia).
      destruct (Z.eqb_spec (Z.land (b * PAGE_SIZE + i * PAGE_SIZE) (pow2 (S o) * PAGE_SIZE - 1)) 0) as [E|E].
      * split; [done|]. split; [done|].
        replace (pow2 (S o) * PAGE_SIZE) with (pow2 (S o + 12)) in E
          by (rewrite Nat2Z.inj_add, Z.pow_add_r by lia; done).
        apply land_aligned in E. rewrite Nat2Z.inj_add, Z.pow_add_r in E by lia.
        change (2 ^ Z.of_nat 12) with PAGE_SIZE in E.
        rewrite <- Z.mul_add_distr_r in E. apply Z.mul_divide_cancel_r in E; done.
      * cbn [negb]. destruct IH as (? & ? & ?). split; [lia|done].
Qed.

Section Range.
Context (N : Z).

(** The effect of freeing the frames [from .. to). *)
Definition range_post (s : mm_state) (B : blocks) (L : nat -> list Z) (from to : Z) (s' : mm_state) : Prop :=
  exists (B' : blocks) L', phys_inv N s' B' L' ∅ /\
    (forall q (k : nat), B' !! q = Some (k, false) <-> B !! q = Some (k, false)) /\
    (forall q, covered_free B' q <-> covered_free B q \/ from <= q < to) /\
    touches (fun q => from <= q < to) s s' /\
    list_pages L' = list_pages L + (to - from).

(** One block of the range. *)
Lemma free_fresh_block_ok s B L p k :
  phys_inv N s B L ∅ -> (k <= MAX_ORDER)%nat -> (pow2 k | p) -> 0 <= p -> p + pow2 k <= N ->
  (forall q, in_block p k q -> ~ covered B q) ->
  exists s', phys_free_block s (p * PAGE_SIZE) k = Some s' /\
    range_post s B L p (p + pow2 k) s'.
Proof.
  intros I Hk Hal Hp0 HpN Hun. destruct (add_ok N s B L p k I) as [Hno I1]; try done.
  destruct (phys_free_block_ok N s _ L _ p k I1) as (s' & E & T & C & I'); [set_solver|by rewrite lookup_insert_eq|].
  exists s'. split; [done|]. rewrite insert_insert_eq in I'.
  replace ({[p]} ∖ {[p]}) with (∅ : gset Z) in I' by set_solver.
  eexists _, _. split; [exact I'|]. split; [|split; [|split; [exact T|lia]]].
  - intros q j. rewrite lookup_insert_Some. naive_solver.
  - intros q. rewrite covered_free_insert by (intros j; congruence). unfold in_block. tauto.
Qed.

Lemma covered_post B' B (q : Z) from to :
  (forall q (k : nat), B' !! q = Some (k, false) <-> B !! q = Some (k, false)) ->
  (forall q, covered_free B' q <-> covered_free B q \/ from <= q < to) ->
  covered B' q -> covered B q \/ from <= q < to.
Proof.
  intros Hal Hcf (p & k & [] & Hp & Hq).
  - destruct (proj1 (Hcf q)) as [(x & j & Hx & ?)|]; [by exists p, k| |by right].
    left. by exists x, j, true.
  - left. exists p, k, false. by rewrite <- Hal.
Qed.

Lemma free_range_loop_ok b pages fuel : forall s B L i,
  phys_inv N s B L ∅ -> 0 <= b -> 0 <= i <= pages -> b + pages <= N -> pages - i <= Z.of_nat fuel ->
  (forall q, b + i <= q < b + pages -> ~ covered B q) ->
  exists s', free_range_loop fuel s (b * PAGE_SIZE) i pages = Some s' /\
    range_post s B L (b + i) (b + pages) s'.
Proof.
  induction fuel as [|fuel IH]; intros s B L i I Hb Hi HN Hf Hun.
  - cbn [free_range_loop]. destruct (Z.ltb_spec i pages); [lia|]. exists s. split; [done|].
    exists B, L. split; [done|]. split; [done|]. split; [intros; intuition lia|]. split; [apply touches_refl|lia].
  - cbn [free_range_loop]. destruct (Z.ltb_spec i pages) as [Hlt|Hge].
    + destruct (inv_N _ _ _ _ _ I) as [Hlim _].
      destruct (pick_order_ok b i pages MAX_ORDER) as (Ho & Hfit & Hal); [lia..|].
      set (o := pick_order (b * PAGE_SIZE) i pages MAX_ORDER) in *. pose proof (pow2_pos o).
      unfold PFN_LIMIT in *.
      replace (u64 (b * PAGE_SIZE + i * PAGE_SIZE)) with ((b + i) * PAGE_SIZE)
        by (rewrite u64_small; unfold PAGE_SIZE; lia).
      destruct (free_fresh_block_ok s B L (b + i) o I) as (s1 & -> & B1 & L1 & I1 & Hal1 & Hcf1 & T1 & C1);
        [done|done|lia|lia|intros q Hq; apply Hun; unfold in_block in Hq; lia|].
      cbn [mbind option_bind]. rewrite u64_small by lia.
      destruct (IH s1 B1 L1 (i + pow2 o) I1) as (s' & -> & B' & L' & I' & Hal' & Hcf' & T' & C'); try lia.
      { intros q Hq Hc. destruct (covered_post _ _ _ _ _ Hal1 Hcf1 Hc); [|lia]. apply (Hun q); [lia|done]. }
      exists s'. split; [done|]. exists B', L'. split; [done|]. split; [|split; [|split; [|lia]]].
      * intros q k. by rewrite Hal', Hal1.
      * intros q. rewrite Hcf', Hcf1. intuition lia.
      * eapply touches_trans; [exact T1|exact T'|simpl; lia..].
    + exists s. split; [done|].
      exists B, L. split; [done|]. split; [done|]. split; [intros; intuition lia|]. split; [apply touches_refl|lia].
Qed.

Lemma phys_free_range_ok s B L b pages :
  phys_inv N s B L ∅ -> 0 <= b -> 0 <= pages -> b + pages <= N ->
  (forall q, b <= q < b + pages -> ~ covered B q) ->
  exists s', phys_free_range s (b * PAGE_SIZE) pages = Some s' /\ range_post s B L b (b + pages) s'.
Proof.
  intros I Hb Hp HN Hun. unfold phys_free_range.
  destruct (free_range_loop_ok b pages (Z.to_nat pages) s B L 0 I) as (s' & E & P); try lia.
  { intros q Hq. apply Hun. lia. }
  exists s'. by rewrite Z.add_0_r in P.
Qed.
End Range.

(** ** Rounding addresses to pages *)

(** The whole pages of a memory map entry. *)
Definition entry_first (m : asd_mmap_entry_t) : Z := (me_base m + (PAGE_SIZE - 1)) / PAGE_SIZE.
Definition entry_last (m : asd_mmap_entry_t) : Z := me_base m / PAGE_SIZE + me_pages m.

Definition entry_ok (N : Z) (m : asd_mmap_entry_t) : Prop :=
  0 <= me_base m /\ 0 <= me_pages m /\ entry_last m <= N.

(** Frame [q] is a whole page of a free entry. *)
Definition entry_free (m : asd_mmap_entry_t) (q : Z) : Prop :=
  me_type m = ASD_MEM_FREE /\ entry_first m <= q < entry_last m.

(** [entry_free] in bytes: page [q] lies inside the entry. *)
Lemma entry_free_bytes N m q : entry_ok N m ->
  entry_free m q <-> me_type m = ASD_MEM_FREE /\ me_base m <= q * PAGE_SIZE /\
    (q + 1) * PAGE_SIZE <= me_base m + me_pages m * PAGE_SIZE.
Proof.
  intros (Hb & Hp & HN). unfold entry_free, entry_first, entry_last, PAGE_SIZE in *.
  pose proof (Z.div_mod (me_base m) 4096 ltac:(lia)). pose proof (Z.mod_pos_bound (me_base m) 4096 ltac:(lia)).
  pose proof (Z.div_mod (me_base m + (4096 - 1)) 4096 ltac:(lia)).
  pose proof (Z.mod_pos_bound (me_base m + (4096 - 1)) 4096 ltac:(lia)). intuition lia.
Qed.

Lemma mmap_range_ok N m : entry_ok N m -> N <= PFN_LIMIT ->
  mmap_range m = (entry_first m * PAGE_SIZE, entry_last m * PAGE_SIZE).
Proof.
  intros (Hb & Hp & HN) Hlim. unfold mmap_range, PAGE_ALIGN, PAGE_ALIGN_DOWN, entry_first, entry_last, PFN_LIMIT in *.
  unfold PAGE_SIZE in *.
  pose proof (Z.div_mod (me_base m) 4096 ltac:(lia)). pose proof (Z.mod_pos_bound (me_base m) 4096 ltac:(lia)).
  assert (0 <= me_base m / 4096) by (apply Z.div_pos; lia).
  change (4096 - 1) with (PAGE_SIZE - 1). rewrite !page_mask; rewrite ?u64_small; rewrite ?u64_small; try lia.
  unfold PAGE_SIZE. f_equal; [f_equal; f_equal; lia|]. rewrite Z.div_add by lia. lia.
Qed.

(** ** The boot memory map *)

(** Sane entries below frame [N], whose free ones do not share a page. *)
Fixpoint mmap_ok (N : Z) (mmap : list asd_mmap_entry_t) : Prop :=
  match mmap with
  | [] => True
  | m :: rest =>
      entry_ok N m /\ (forall m' q, m' ∈ rest -> entry_free m q -> ~ entry_free m' q) /\ mmap_ok N rest
  end.

Section Init.
Context (N : Z) (b0 e0 : Z).

(** The bump area, [b0 .. e0) in pages; it is at address 0 when there is none. *)
Definition in_bump (q : Z) : Prop := b0 <> 0 /\ b0 <= q < e0.

Definition bump_at (s : mm_state) : Prop :=
  mm_bump_base s = b0 * PAGE_SIZE /\ mm_bump_end s = e0 * PAGE_SIZE.

(** The frames of [P] became free, and total and free counts moved together. *)
Definition fill_post (s : mm_state) (B : blocks) (P : Z -> Prop) (s' : mm_state) (B' : blocks) : Prop :=
  (exists L', phys_inv N s' B' L' ∅) /\
  (forall q (k : nat), B' !! q = Some (k, false) <-> B !! q = Some (k, false)) /\
  (forall q, covered_free B' q <-> covered_free B q \/ P q) /\
  (forall a, ~ P (a / PAGE_SIZE) -> mm_mem s' !! a = mm_mem s !! a) /\
  bump_at s' /\
  u64 (mm_total_pages s' - mm_free_pages s') = u64 (mm_total_pages s - mm_free_pages s).

Lemma set_range_inv s B L X total base top :
  phys_inv N s B L X -> phys_inv N (set_range s total base top) B L X.
Proof. intros []. by split. Qed.

Lemma fill_covered s B P s' B' q : fill_post s B P s' B' -> covered B' q -> covered B q \/ P q.
Proof.
  intros (_ & Hal & Hcf & _) (p & k & [] & Hp & Hq).
  - destruct (proj1 (Hcf q)) as [(x & j & Hx & ?)|]; [by exists p, k| |by right]. left. by exists x, j, true.
  - left. exists p, k, false. by rewrite <- Hal.
Qed.

Lemma fill_trans s B P s1 B1 Q R s' B' :
  fill_post s B P s1 B1 -> fill_post s1 B1 Q s' B' -> (forall q, R q <-> P q \/ Q q) ->
  fill_post s B R s' B'.
Proof.
  intros (I1 & Hal1 & Hcf1 & M1 & Hb1 & C1) (I' & Hal' & Hcf' & M' & Hb' & C') HR.
  split; [done|]. split; [intros q k; by rewrite Hal', Hal1|].
  split; [intros q; rewrite Hcf', Hcf1, HR; tauto|]. split; [|split; [done|congruence]].
  intros a Ha. rewrite HR in Ha. rewrite M', M1; tauto.
Qed.

Lemma fill_refl s B L P :
  phys_inv N s B L ∅ -> bump_at s -> (forall q, ~ P q) -> fill_post s B P s B.
Proof. intros I Hb HP. split; [by exists L|]. split; [done|]. split; [intros q; specialize (HP q); tauto|done]. Qed.

(** [phys_free_range] followed by the update of [total_pages], when [c] holds. *)
Lemma free_part_ok s B L (c : bool) b n :
  phys_inv N s B L ∅ -> bump_at s -> (c = true -> 0 <= b /\ 0 <= n /\ b + n <= N /\
    forall q, b <= q < b + n -> ~ covered B q) ->
  exists s' B', (if c then s' ← phys_free_range s (b * PAGE_SIZE) n;
      Some (set_range s' (u64 (mm_total_pages s' + n)) (mm_phys_base s') (mm_phys_top s'))
    else Some s) = Some s' /\
    fill_post s B (fun q => c = true /\ b <= q < b + n) s' B'.
Proof.
  intros I Hbmp Hc. destruct c.
  2: { exists s, B. split; [done|]. eapply fill_refl; [done..|]. intros q [? _]. done. }
  destruct Hc as (Hb & Hn & HN & Hun); [done|].
  destruct (phys_free_range_ok N s B L b n I Hb Hn HN Hun) as (s' & -> & B' & L' & I' & Hal & Hcf & T & C).
  eexists _, B'. split; [reflexivity|]. destruct T as (M & Ht & _ & _ & Hbb & _ & Hbe). destruct Hbmp.
  split; [exists L'; by apply set_range_inv|]. split; [done|]. split; [intros q; rewrite Hcf; tauto|].
  split; [intros a Ha; apply M; tauto|]. simpl. split.
  - split; simpl; congruence.
  - rewrite (inv_count _ _ _ _ _ I'), (inv_count _ _ _ _ _ I), C, Ht.
    rewrite !u64_sub_l, !u64_sub_r. f_equal. lia.
Qed.

(** An entry that overlaps the bump area is freed in up to two parts. *)
Lemma entry_around_bump s B L f l :
  phys_inv N s B L ∅ -> bump_at s -> 0 < b0 <= e0 -> 0 <= f -> f < e0 -> b0 < l -> l <= N ->
  (forall q, f <= q < l -> ~ b0 <= q < e0 -> ~ covered B q) ->
  exists s1 s' B',
    (if f * PAGE_SIZE <? b0 * PAGE_SIZE then s' ← phys_free_range s (f * PAGE_SIZE) (b0 - f);
      Some (set_range s' (u64 (mm_total_pages s' + (b0 - f))) (mm_phys_base s') (mm_phys_top s'))
    else Some s) = Some s1 /\ mm_bump_end s1 = e0 * PAGE_SIZE /\
    (if e0 * PAGE_SIZE <? l * PAGE_SIZE then s' ← phys_free_range s1 (e0 * PAGE_SIZE) (l - e0);
      Some (set_range s' (u64 (mm_total_pages s' + (l - e0))) (mm_phys_base s') (mm_phys_top s'))
    else Some s1) = Some s' /\
    fill_post s B (fun q => f <= q < l /\ ~ b0 <= q < e0) s' B'.
Proof.
  intros I Hb Hbe Hf Hfe Hbl HlN Hun.
  destruct (free_part_ok s B L (f * PAGE_SIZE <? b0 * PAGE_SIZE) f (b0 - f) I Hb) as (s1 & B1 & E1 & F1).
  { intros Hlt%Z.ltb_lt. unfold PAGE_SIZE in Hlt. do 3 (split; [lia|]). intros q Hq. apply Hun; lia. }
  destruct (F1) as ([L1 I1] & _ & _ & _ & Hb1 & _).
  destruct (free_part_ok s1 B1 L1 (e0 * PAGE_SIZE <? l * PAGE_SIZE) e0 (l - e0) I1 Hb1) as (s2 & B2 & E2 & F2).
  { intros Hlt%Z.ltb_lt. unfold PAGE_SIZE in Hlt. do 3 (split; [lia|]). intros q Hq Hc.
    destruct (fill_covered _ _ _ _ _ _ F1 Hc); [|lia]. apply (Hun q); [lia|lia|done]. }
  exists s1, s2, B2. split; [done|]. split; [apply Hb1|]. split; [done|].
  eapply fill_trans; [exact F1|exact F2|]. intros q. cbn beta. rewrite !Z.ltb_lt. unfold PAGE_SIZE. lia.
Qed.

Lemma phys_init_entry_ok s B L m :
  phys_inv N s B L ∅ -> bump_at s -> 0 <= b0 <= e0 -> entry_ok N m ->
  (forall q, entry_free m q -> ~ in_bump q -> ~ covered B q) ->
  exists s' B', phys_init_entry s m = Some s' /\
    fill_post s B (fun q => entry_free m q /\ ~ in_bump q) s' B'.
Proof.
  intros I Hb Hbe Hm Hun. unfold phys_init_entry. destruct (inv_N _ _ _ _ _ I) as [HN _].
  destruct (Z.eqb_spec (me_type m) ASD_MEM_FREE) as [Hty|Hty]; cbn [negb].
  2: { exists s, B. split; [done|]. eapply fill_refl; [done..|]. by intros q [[? _] _]. }
  rewrite (mmap_range_ok N) by (done || lia). destruct (Hm) as (Hbase & _ & HlN).
  assert (0 <= entry_first m) as Hf0 by (apply Z.div_pos; unfold PAGE_SIZE; lia).
  unfold entry_free, in_bump in *. set (f := entry_first m) in *. set (l := entry_last m) in *.
  destruct (Z.leb_spec (l * PAGE_SIZE) (f * PAGE_SIZE)) as [Hle|Hgt].
  { exists s, B. split; [done|]. eapply fill_refl; [done..|]. intros q [[_ ?] _]. unfold PAGE_SIZE in Hle. lia. }
  match goal with |- context [set_range s ?t ?x ?y] => pose (s0 := set_range s t x y); fold s0 end. cbv zeta.
  assert (phys_inv N s0 B L ∅) as I0 by by apply set_range_inv.
  destruct Hb as [Hb1 Hb2]. change (mm_bump_base s0) with (mm_bump_base s). rewrite Hb1.
  change (mm_bump_end s0) with (mm_bump_end s). rewrite Hb2.
  assert (forall a b, Z.shiftr (a * PAGE_SIZE - b * PAGE_SIZE) PAGE_SHIFT = a - b) as Hsh.
  { intros a b. rewrite <- Z.mul_sub_distr_r. apply shiftr_page. }
  destruct (_ && _ && _) eqn:Hov; unfold PAGE_SIZE in Hov; rewrite ?Hsh.
  - destruct (entry_around_bump s0 B L f l I0) as (s1 & s' & B' & -> & Hs1 & E2 & F); [done|lia..| |].
    { intros q Hq Hnb. apply Hun; [done|lia]. }
    exists s', B'. cbn [mbind option_bind]. rewrite Hs1, Hsh. split; [done|].
    eapply fill_trans; [eapply (fill_refl s B L (fun _ => False)); [done|done|tauto]|exact F|]. simpl. intuition lia.
  - destruct (free_part_ok s0 B L true f (l - f) I0) as (s' & B' & E & F); [done| |].
    { intros _. unfold PAGE_SIZE in Hgt. do 3 (split; [lia|]). intros q Hq. apply Hun; [split; [done|lia]|lia]. }
    exists s', B'. split; [exact E|].
    eapply fill_trans; [eapply (fill_refl s B L (fun _ => False)); [done|done|tauto]|exact F|]. simpl. intuition lia.
Qed.

Lemma phys_init_loop_ok mmap : forall s B L,
  phys_inv N s B L ∅ -> bump_at s -> 0 <= b0 <= e0 -> mmap_ok N mmap ->
  (forall m q, m ∈ mmap -> entry_free m q -> ~ in_bump q -> ~ covered B q) ->
  exists s' B', phys_init_loop s mmap = Some s' /\
    fill_post s B (fun q => (exists m, m ∈ mmap /\ entry_free m q) /\ ~ in_bump q) s' B'.
Proof.
  induction mmap as [|m rest IH]; intros s B L I Hb Hbe Hok Hun.
  - exists s, B. split; [done|]. eapply fill_refl; [done..|]. set_solver.
  - destruct Hok as (Hm & Hd & Hok).
    destruct (phys_init_entry_ok s B L m I Hb Hbe Hm) as (s1 & B1 & E1 & F1).
    { intros q. apply Hun. set_solver. }
    destruct (F1) as ([L1 I1] & _ & _ & _ & Hb1 & _).
    destruct (IH s1 B1 L1 I1 Hb1 Hbe Hok) as (s' & B' & E & F).
    { intros m' q Hm' Hq Hnb Hc. destruct (fill_covered _ _ _ _ _ _ F1 Hc) as [Hc'|[Hq' _]].
      - eapply (Hun m' q); [set_solver|done..].
      - by eapply Hd. }
    exists s', B'. split; [simpl; by rewrite E1|].
    eapply fill_trans; [exact F1|exact F|]. intros q. cbn beta. set_solver.
Qed.
End Init.

Lemma phys_init_spec N b0 e0 s mmap :
  0 <= N <= PFN_LIMIT -> (pow2 MAX_ORDER | N) -> mm_early_boot s = false -> pinfo_clear N s ->
  mm_bump_base s = b0 * PAGE_SIZE -> mm_bump_end s = e0 * PAGE_SIZE -> 0 <= b0 <= e0 ->
  mmap_ok N mmap ->
  exists s' (B : blocks) L, amm_phys_init s mmap = Some s' /\ phys_inv N s' B L ∅ /\
    (forall q k, B !! q <> Some (k, false)) /\
    (forall q, covered_free B q <->
       (exists m, m ∈ mmap /\ me_type m = ASD_MEM_FREE /\ me_base m <= q * PAGE_SIZE /\
          (q + 1) * PAGE_SIZE <= me_base m + me_pages m * PAGE_SIZE) /\ ~ in_bump b0 e0 q) /\
    (forall a, ~ covered_free B (a / PAGE_SIZE) -> mm_mem s' !! a = mm_mem s !! a) /\
    u64 (mm_total_pages s' - mm_free_pages s') = 0.
Proof.
  intros HN HN' Hboot Hclear Hb1 Hb2 Hbe Hok.
  pose proof (reset_inv N s HN HN' Hboot Hclear) as I.
  destruct (phys_init_loop_ok N b0 e0 mmap _ _ _ I) as (s' & B & E & [L I'] & Hal & Hcf & M & _ & C); try done.
  { intros m q _ _ _ (p & k & f & Hp & _). set_solver. }
  assert (forall q, covered_free ∅ q <-> False) as Hempty.
  { intros q. split; [|done]. by intros (p & k & Hp & _). }
  exists s', B, L. split; [done|]. split; [done|]. split; [|split; [|split]].
  - intros q k Hq. by apply Hal in Hq.
  - intros q. rewrite Hcf, Hempty. 
    assert ((exists m, m ∈ mmap /\ entry_free m q) <->
      (exists m, m ∈ mmap /\ me_type m = ASD_MEM_FREE /\ me_base m <= q * PAGE_SIZE /\
          (q + 1) * PAGE_SIZE <= me_base m + me_pages m * PAGE_SIZE)) as ->; [|tauto].
    assert (forall m, m ∈ mmap -> entry_ok N m) as Hent.
    { clear -Hok. induction mmap as [|m rest IH]; [set_solver|]. destruct Hok as (? & _ & ?).
      intros m' [->|]%elem_of_cons; auto. }
    split; intros (m & Hm & Hq); exists m; (split; [done|]); by apply (entry_free_bytes N m q (Hent m Hm)).
  - intros a Ha. apply M. intros Hin. apply Ha, Hcf. by right.
  - done.
Qed.

(** C12: After [amm_phys_init] on a clear [page_info] array and a memory map whose
    free entries do not overlap, the free memory is exactly the set of pages that
    lie inside a free entry and outside the bump allocator's area; nothing is
    allocated, the allocator invariant holds, memory outside those pages is not
    written, and [total_pages] and [free_pages] agree. *)
Theorem amm_phys_init_ok N b0 e0 s mmap :
  0 <= N <= PFN_LIMIT -> (pow2 MAX_ORDER | N) -> mm_early_boot s = false -> pinfo_clear N s ->
  mm_bump_base s = b0 * PAGE_SIZE -> mm_bump_end s = e0 * PAGE_SIZE -> 0 <= b0 <= e0 ->
  mmap_ok N mmap ->
  exists s' (B : blocks) L, amm_phys_init s mmap = Some s' /\ phys_inv N s' B L ∅ /\
    (forall q k, B !! q <> Some (k, false)) /\
    (forall q, covered_free B q <->
       (exists m, m ∈ mmap /\ me_type m = ASD_MEM_FREE /\ me_base m <= q * PAGE_SIZE /\
          (q + 1) * PAGE_SIZE <= me_base m + me_pages m * PAGE_SIZE) /\ ~ in_bump b0 e0 q) /\
    (forall a, ~ covered_free B (a / PAGE_SIZE) -> mm_mem s' !! a = mm_mem s !! a) /\
    u64 (mm_total_pages s' - mm_free_pages s') = 0.
Proof. apply phys_init_spec. Qed.

Definition demo_mmap : list asd_mmap_entry_t :=
  [mk_mmap 0x1000 158 ASD_MEM_FREE; mk_mmap 0xA0000 96 1; mk_mmap 0x100000 0x70000 ASD_MEM_FREE].

Lemma demo_mmap_ok : mmap_ok demo_N demo_mmap.
Proof.
  split; [by repeat split|]. split.
  { intros m' q Hm' [_ Hq] [Hty Hq']. apply elem_of_cons in Hm' as [->|Hm']; [done|].
    apply list_elem_of_singleton in Hm' as ->.
    change (entry_last (mk_mmap 0x1000 158 ASD_MEM_FREE)) with 159 in Hq.
    change (entry_first (mk_mmap 0x100000 0x70000 ASD_MEM_FREE)) with 256 in Hq'. lia. }
  split; [by repeat split|]. split; [by intros m' q _ [? _]|].
  split; [by repeat split|]. split; [by intros m' q ?%elem_of_nil|done].
Qed.

Lemma amm_phys_init_ok_witness :
  exists s' (B : blocks) L, amm_phys_init demo_boot demo_mmap = Some s' /\ phys_inv demo_N s' B L ∅ /\
    covered_free B 1 /\ ~ covered_free B 0x2000.
Proof.
  destruct (amm_phys_init_ok demo_N 0x1000 0x5000 demo_boot demo_mmap ltac:(done)
    (ex_intro _ 2 eq_refl) eq_refl demo_boot_clear eq_refl eq_refl ltac:(lia) demo_mmap_ok)
    as (s' & B & L & E & I & _ & Hcf & _).
  exists s', B, L. split; [exact E|]. split; [exact I|]. clear E I. split.
  - apply Hcf. split; [|unfold in_bump; lia]. exists (mk_mmap 0x1000 158 ASD_MEM_FREE).
    split; [apply elem_of_cons; by left|]. by cbn.
  - intros Hc. destruct (proj1 (Hcf 0x2000) Hc) as [_ Hn]. apply Hn. done.
Defined.

(** ** The bump allocator *)

(** As long as addresses do not wrap around, [bump_alloc] returns 0 and changes
    nothing exactly when no aligned block fits below the end of the bump area;
    otherwise it returns a naturally aligned block inside the unused part of the
    area, filled with zeroes, moves the cursor past it, and writes nothing else. *)
Theorem bump_alloc_ok s order :
  let size := PAGE_SIZE * pow2 order in
  (order <= 50)%nat -> 0 <= mm_bump_cur s -> mm_bump_cur s + 2 * size <= 2 ^ 64 ->
  (bump_alloc s order = (0, s) /\
     forall r, mm_bump_cur s <= r -> (size | r) -> mm_bump_end s < r + size) \/
  (exists r s', bump_alloc s order = (r, s') /\ (size | r) /\
     mm_bump_cur s <= r /\ r + size <= mm_bump_end s /\ mm_bump_cur s' = r + size /\
     mm_bump_end s' = mm_bump_end s /\
     (forall a, r <= a < r + size -> (8 | a - r) -> mm_mem s' !! a = Some 0) /\
     (forall a, ~ r <= a < r + size -> mm_mem s' !! a = mm_mem s !! a)).
Proof.
  intros size Ho Hc Hov.
  assert (size = pow2 (order + 12)) as Hsz.
  { unfold size. rewrite Nat2Z.inj_add, Z.pow_add_r by lia. apply Z.mul_comm. }
  assert (0 < size) as Hpos by (rewrite Hsz; apply pow2_pos).
  unfold bump_alloc. rewrite Z.shiftl_mul_pow2 by lia. fold size.
  rewrite (u64_small size) by lia. rewrite (u64_small (_ + _ - _)) by lia.
  rewrite Hsz, round_mask, <- Hsz by lia.
  set (r := (mm_bump_cur s + size - 1) / size * size).
  pose proof (Z.div_mod (mm_bump_cur s + size - 1) size ltac:(lia)).
  pose proof (Z.mod_pos_bound (mm_bump_cur s + size - 1) size ltac:(lia)).
  assert (mm_bump_cur s <= r < mm_bump_cur s + size) as Hr by (unfold r; lia).
  rewrite u64_small by lia. destruct (Z.ltb_spec (mm_bump_end s) (r + size)) as [Hfull|Hfit].
  - left. split; [done|]. intros r' Hr' [c Hc'].
    assert ((mm_bump_cur s + size - 1) / size <= c); [|unfold r in Hfull; nia].
    apply Z.lt_succ_r, Z.div_lt_upper_bound; [lia|]. rewrite Z.mul_succ_r. lia.
  - right. exists r. eexists. split; [reflexivity|]. split; [by exists ((mm_bump_cur s + size - 1) / size)|].
    simpl. do 4 (split; [lia|]). assert (8 | size) as [w Hw].
    { exists (512 * pow2 order). unfold size, PAGE_SIZE. lia. }
    assert (Z.of_nat (Z.to_nat (size / 8)) = w) as Hn.
    { rewrite Hw, Z.div_mul by lia. rewrite Z2Nat.id; lia. }
    split; intros a Ha.
    + intros [i Hi]. replace a with (r + 8 * Z.of_nat (Z.to_nat i)) by lia. apply zero_words_in. lia.
    + apply zero_words_out. intros i Hi ->. lia.
Qed.

Lemma bump_alloc_ok_witness :
  exists r s', bump_alloc demo_boot 4 = (r, s') /\ r + 0x10000 <= mm_bump_end demo_boot.
Proof.
  destruct (bump_alloc_ok demo_boot 4 ltac:(lia) ltac:(done) ltac:(done))
    as [[_ H]|(r & s' & E & _ & _ & H & _)].
  - specialize (H 0x1000000 ltac:(done) (ex_intro _ 256 eq_refl)). done.
  - exists r, s'. split; [exact E|exact H].
Defined.
