(* ===== verification/PhysIface.v ===== *)
(** * What the page allocator promises to its clients

    [BlockAlloc] is the interface the page tables, the slab allocator and shared
    memory use: allocation hands out blocks of pages that nobody owns, freeing
    takes them back, and neither touches the memory of blocks that are owned.  The
    instance is the buddy allocator of [Phys], whose laws follow from [PhysSpec]. *)

From Stdlib Require Import ZArith Lia.
From stdpp Require Import base gmap functions list.
From S2P Require Import Prelude Phys PhysSpec.

Local Open Scope Z_scope.

(** The blocks a client owns: first frame and order. *)
Abbreviation owned := (gmap Z nat).

(** Frame [q] belongs to a block of [O]. *)
Definition owned_page (O : owned) (q : Z) : Prop := exists p k, O !! p = Some k /\ in_block p k q.

Class BlockAlloc (St : Type) := {
  ba_alloc : St -> nat -> option (Z * St);
  ba_free : St -> Z -> nat -> option St;
  (** The order that the [page_info] of a frame records. *)
  ba_order : St -> Z -> option Z;
  ba_mem : St -> gmap Z Z;
  ba_set_mem : St -> gmap Z Z -> St;
  (** The allocator is consistent and the blocks are allocated. *)
  ba_owns : St -> owned -> Prop;
}.

(** The memory of owned blocks is the same. *)
Definition same_on `{BlockAlloc St} (O : owned) (s s' : St) : Prop :=
  forall a, owned_page O (a / PAGE_SIZE) -> ba_mem s' !! a = ba_mem s !! a.

Class BlockAllocLaws (St : Type) `{BlockAlloc St} : Prop := {
  ba_mem_set : forall s m, ba_mem (ba_set_mem s m) = m;
  ba_frame : forall s O p k, ba_owns s O -> O !! p = Some k ->
    0 <= p /\ p + pow2 k <= PFN_LIMIT /\ (pow2 k | p);
  ba_disjoint : forall s O p k q j, ba_owns s O -> O !! p = Some k -> O !! q = Some j -> p <> q ->
    p + pow2 k <= q \/ q + pow2 j <= p;
  ba_order_law : forall s O p k, ba_owns s O -> O !! p = Some k -> ba_order s p = Some (Z.of_nat k);
  ba_alloc_law : forall s O k, ba_owns s O ->
    (exists s', ba_alloc s k = Some (0, s') /\ ba_owns s' O /\ same_on O s s') \/
    (exists p s', ba_alloc s k = Some (p * PAGE_SIZE, s') /\ 0 < p /\
       (forall q, in_block p k q -> ~ owned_page O q) /\
       ba_owns s' (<[p := k]> O) /\ same_on O s s');
  ba_free_law : forall s O p k, ba_owns s O -> O !! p = Some k ->
    exists s', ba_free s (p * PAGE_SIZE) k = Some s' /\ ba_owns s' (delete p O) /\
      same_on (delete p O) s s';
  ba_write_law : forall s O m, ba_owns s O ->
    (forall a, ~ owned_page O (a / PAGE_SIZE) -> m !! a = ba_mem s !! a) ->
    ba_owns (ba_set_mem s m) O;
}.

(** ** Consequences for clients *)

Section Laws.
Context `{BlockAllocLaws St}.

Lemma same_on_refl O (s : St) : same_on O s s.
Proof. done. Qed.

Lemma same_on_trans O (s1 s2 s3 : St) : same_on O s1 s2 -> same_on O s2 s3 -> same_on O s1 s3.
Proof. intros H1 H2 a Ha. by rewrite H2, H1. Qed.

Lemma owned_page_insert O p k q : O !! p = None ->
  owned_page (<[p := k]> O) q <-> owned_page O q \/ in_block p k q.
Proof.
  intros Hno. split.
  - intros (x & j & [[<- <-]|[_ Hx]]%lookup_insert_Some & Hq); [by right|]. left. by exists x, j.
  - intros [(x & j & Hx & Hq)|Hq].
    + exists x, j. rewrite lookup_insert_ne; [done|congruence].
    + exists p, k. by rewrite lookup_insert_eq.
Qed.

Lemma owned_head O p k : O !! p = Some k -> owned_page O p.
Proof. intros Hp. exists p, k. split; [done|]. unfold in_block. pose proof (pow2_pos k). lia. Qed.

(** A fresh block was not in the map. *)
Lemma fresh_block O p k : (forall q, in_block p k q -> ~ owned_page O q) -> O !! p = None.
Proof.
  intros Hf. destruct (O !! p) as [j|] eqn:E; [|done]. exfalso. apply (Hf p).
  - unfold in_block. pose proof (pow2_pos k). lia.
  - by eapply owned_head.
Qed.

(** Writing a word of an owned page. *)
Lemma ba_write s O a v :
  ba_owns s O -> owned_page O (a / PAGE_SIZE) -> ba_owns (ba_set_mem s (<[a := v]> (ba_mem s))) O.
Proof.
  intros Ho Ha. apply ba_write_law; [done|]. intros b Hb. rewrite lookup_insert_ne; [done|]. by intros <-.
Qed.

Lemma pow2_nat k : pow2 k = Z.of_nat (2 ^ k).
Proof. by rewrite Nat2Z.inj_pow. Qed.

(** The words of a block are in its frames. *)
Lemma block_word p k i : (i < 2 ^ k * 512)%nat -> in_block p k ((p * PAGE_SIZE + 8 * Z.of_nat i) / PAGE_SIZE).
Proof.
  intros Hi. unfold in_block. rewrite pow2_nat. unfold PAGE_SIZE. rewrite Z.div_add_l by lia.
  pose proof (Z.div_pos (8 * Z.of_nat i) 4096). split; [lia|]. apply Z.add_lt_mono_l, Z.div_lt_upper_bound; lia.
Qed.

(** Clearing an owned block. *)
Lemma ba_zero_block s O p k :
  ba_owns s O -> O !! p = Some k ->
  ba_owns (ba_set_mem s (zero_words (ba_mem s) (p * PAGE_SIZE) (2 ^ k * 512))) O.
Proof.
  intros Ho Hp. apply ba_write_law; [done|]. intros b Hb. apply zero_words_out. intros i Hi ->. apply Hb.
  exists p, k. split; [done|]. by apply block_word.
Qed.

(** Clearing an owned page. *)
Lemma ba_zero s O p n :
  ba_owns s O -> owned_page O p -> (n <= 512)%nat ->
  ba_owns (ba_set_mem s (zero_words (ba_mem s) (p * PAGE_SIZE) n)) O.
Proof.
  intros Ho Hp Hn. apply ba_write_law; [done|]. intros b Hb. apply zero_words_out. intros i Hi ->. apply Hb.
  unfold PAGE_SIZE. rewrite Z.div_add_l by lia. rewrite Z.div_small by lia. by rewrite Z.add_0_r.
Qed.
End Laws.

(** ** The buddy allocator *)

Definition set_mem (s : mm_state) (m : gmap Z Z) : mm_state :=
  set_phys s (mm_lists s) (mm_free_pages s) (mm_pinfo s) m.

(** The buddy invariant holds, with the owned blocks among the allocated ones. *)
Definition buddy_owns (s : mm_state) (O : owned) : Prop :=
  exists N (B : blocks) L, phys_inv N s B L ∅ /\ forall p k, O !! p = Some k -> B !! p = Some (k, false).

#[export] Instance buddy_alloc : BlockAlloc mm_state := {
  ba_alloc := amm_phys_alloc;
  ba_free := amm_phys_free;
  ba_order := fun s p => pi_order <$> mm_pinfo s !! p;
  ba_mem := mm_mem;
  ba_set_mem := set_mem;
  ba_owns := buddy_owns;
}.

Lemma owned_not_free N s (B : blocks) L O q :
  phys_inv N s B L ∅ -> (forall p k, O !! p = Some k -> B !! p = Some (k, false)) ->
  owned_page O q -> ~ covered_free B q.
Proof.
  intros I HO (p & k & Hp & Hq) (x & j & Hx & Hq'). apply HO in Hp. unfold in_block in *.
  destruct (decide (p = x)) as [->|Hne]; [congruence|].
  destruct (inv_disj _ _ _ _ _ I _ _ _ _ _ _ Hp Hx Hne); lia.
Qed.

Lemma touches_same_on (P : Z -> Prop) s s' O :
  touches P s s' -> (forall q, owned_page O q -> ~ P q) -> same_on O s s'.
Proof. intros [M _] HP a Ha. apply M. by apply HP. Qed.

Lemma chain_same (mem mem' : gmap Z Z) a l :
  (forall p, p ∈ l -> mem' !! (p * PAGE_SIZE) = mem !! (p * PAGE_SIZE)) -> chain mem a l -> chain mem' a l.
Proof.
  revert a. induction l as [|p l IH]; intros a Heq; simpl; [done|].
  intros (-> & n & Hn & Hc). split; [done|]. exists n. rewrite Heq by set_solver. split; [done|].
  apply IH; [|done]. set_solver.
Qed.

(** The invariant does not depend on the contents of memory that is not free. *)
Lemma inv_set_mem N s (B : blocks) L X m :
  phys_inv N s B L X -> (forall a, covered_free B (a / PAGE_SIZE) -> m !! a = mm_mem s !! a) ->
  phys_inv N (set_mem s m) B L X.
Proof.
  intros I Hm. split; simpl; try apply I.
  intros k h Hk. eapply chain_same; [|by eapply inv_chain]. intros p Hp. apply Hm.
  rewrite Z.div_mul by done. exists p, k.
  assert (k <= MAX_ORDER)%nat as Hk'.
  { apply lookup_lt_Some in Hk. rewrite (inv_heads _ _ _ _ _ I) in Hk. lia. }
  split; [by apply (inv_list _ _ _ _ _ I k p Hk')|]. unfold in_block. pose proof (pow2_pos k). lia.
Qed.

#[export] Instance buddy_laws : BlockAllocLaws mm_state.
Proof.
  split; simpl.
  - done.
  - intros s O p k (N & B & L & I & HO) Hp. apply HO in Hp.
    destruct (inv_align _ _ _ _ _ I _ _ _ Hp) as (_ & ? & ? & ?). destruct (inv_N _ _ _ _ _ I). split; [done|]. split; [lia|done].
  - intros s O p k q j (N & B & L & I & HO) Hp Hq Hne. apply HO in Hp, Hq. by eapply inv_disj.
  - intros s O p k (N & B & L & I & HO) Hp. apply HO in Hp.
    destruct (inv_pinfo _ _ _ _ _ I _ _ _ Hp) as (pi & -> & Hord & _); [set_solver|]. simpl. by rewrite Hord.
  - intros s O k (N & B & L & I & HO).
    destruct (phys_alloc_cases N s B L k I) as [[E _]|(p & s' & E & B' & L' & I' & Hp & Hal & Hsub & Hcf & T & _)].
    { left. exists s. split; [done|]. split; [by exists N, B, L|done]. }
    assert (same_on O s s') as Hsame.
    { eapply touches_same_on; [exact T|]. intros q. by eapply (owned_not_free N s B L O). }
    assert (forall q, in_block p k q -> ~ owned_page O q) as Hfresh.
    { intros q Hq Ho. eapply (owned_not_free N s B L O q); [done..|by apply Hsub]. }
    assert (forall x j, O !! x = Some j -> B' !! x = Some (j, false)) as HO'.
    { intros x j Hx. apply Hal; [|by apply HO]. intros ->. by rewrite (fresh_block O p k Hfresh) in Hx. }
    destruct (inv_align _ _ _ _ _ I' _ _ _ Hp) as (_ & _ & Hp0 & _).
    destruct (decide (p = 0)) as [->|Hnz].
    + left. exists s'. split; [exact E|]. split; [by exists N, B', L'|done].
    + right. exists p, s'. split; [done|]. split; [lia|]. split; [done|]. split; [|done].
      exists N, B', L'. split; [done|]. intros x j [[<- <-]|[_ Hx]]%lookup_insert_Some; [done|by apply HO'].
  - intros s O p k (N & B & L & I & HO) Hp.
    destruct (phys_free_cases N s B L p k I (HO _ _ Hp)) as (s' & E & B' & L' & I' & Hal & Hcf & T & _).
    exists s'. split; [done|].
    assert (forall x j, delete p O !! x = Some j -> B' !! x = Some (j, false)) as HO'.
    { intros x j [Hne Hx]%lookup_delete_Some. apply Hal. split; [done|by apply HO]. }
    split; [by exists N, B', L'|]. eapply touches_same_on; [exact T|]. intros q Hq Hcov.
    eapply (owned_not_free N s' B' L' (delete p O)); [done..|]. by apply Hcf.
  - intros s O m (N & B & L & I & HO) Hm. exists N, B, L. split; [|done]. apply inv_set_mem; [done|].
    intros a Ha. apply Hm. intros Ho. by eapply (owned_not_free N s B L O).
Qed.
