(* ===== verification/VRegion.v ===== *)
(** * Regions of an address space (src/kernel/mm/mm.c, lines 421-434 and 492-555)

    The regions of a process are nodes of one static pool, linked in both
    directions and sorted by base address.  The model keeps the pool and the links:
    a pointer to a region is its index in the pool, a null pointer is [None], and an
    access to a node that was never handed out is a fault ([None]).  The theorems
    relate the linked nodes to a sorted list of disjoint regions. *)

From Stdlib Require Import ZArith Lia.
From stdpp Require Import base gmap functions sorting list.
From S2P Require Import Prelude.

Local Open Scope Z_scope.

Definition MAX_REGIONS : nat := Z.to_nat (1024 * 16).

Record vregion_t := mk_vr {
  vr_base : Z;
  vr_size : Z;
  vr_prot : Z;
  vr_kind : Z;
  vr_fd : Z;
  vr_prev : option nat;
  vr_next : option nat;
}.

Definition vr_set_prev (r : vregion_t) (p : option nat) : vregion_t :=
  mk_vr (vr_base r) (vr_size r) (vr_prot r) (vr_kind r) (vr_fd r) p (vr_next r).

Definition vr_set_next (r : vregion_t) (n : option nat) : vregion_t :=
  mk_vr (vr_base r) (vr_size r) (vr_prot r) (vr_kind r) (vr_fd r) (vr_prev r) n.

Record vmap_t := mk_vmap {
  vm_head : option nat;
  vm_cr3 : Z;
  vm_count : Z;
}.

(** The pool [g_region_pool]; [rp_next] is [g_region_next]. *)
Record rpool := mk_rpool {
  rp_regions : gmap nat vregion_t;
  rp_next : nat;
}.

Definition rp_set (p : rpool) (i : nat) (r : vregion_t) : rpool :=
  mk_rpool (<[i := r]> (rp_regions p)) (rp_next p).

(** [None] is the null pointer of an exhausted pool. *)
Definition region_alloc (p : rpool) : option (nat * rpool) :=
  if decide (MAX_REGIONS <= rp_next p)%nat then None
  else Some (rp_next p,
             mk_rpool (<[rp_next p := mk_vr 0 0 0 0 (-1) None None]> (rp_regions p)) (S (rp_next p))).

(** The loop of [amm_region_overlaps]. *)
Fixpoint overlaps_loop (fuel : nat) (p : rpool) (cur : option nat) (base end_ : Z) : option bool :=
  match cur with
  | None => Some false
  | Some i =>
      match fuel with
      | O => None
      | S fuel' =>
          r ← rp_regions p !! i;
          let r_end := u64 (vr_base r + vr_size r) in
          if r_end <=? vr_base r then Some true
          else if (base <? r_end) && (vr_base r <? end_) then Some true
          else if end_ <=? vr_base r then Some false
          else overlaps_loop fuel' p (vr_next r) base end_
      end
  end.

(** A list without cycles visits each node of the pool at most once. *)
Definition walk_fuel (p : rpool) : nat := size (rp_regions p).

Definition amm_region_overlaps (p : rpool) (map : option vmap_t) (base size : Z) : option bool :=
  match map with
  | None => Some false
  | Some m =>
      if size =? 0 then Some false
      else
        let end_ := u64 (base + size) in
        if end_ <=? base then Some true
        else overlaps_loop (walk_fuel p) p (vm_head m) base end_
  end.

(** [while (cur->next && cur->next->base < base) cur = cur->next] *)
Fixpoint insert_after (fuel : nat) (p : rpool) (cur : nat) (base : Z) : option nat :=
  match fuel with
  | O => None
  | S fuel' =>
      c ← rp_regions p !! cur;
      match vr_next c with
      | None => Some cur
      | Some n =>
          rn ← rp_regions p !! n;
          if vr_base rn <? base then insert_after fuel' p n base else Some cur
      end
  end.

(** [if (link) link->prev = nr] *)
Definition link_prev (p : rpool) (link : option nat) (nr : option nat) : option rpool :=
  match link with
  | None => Some p
  | Some i => r ← rp_regions p !! i; Some (rp_set p i (vr_set_prev r nr))
  end.

(** Insert node [nr], already filled in, sorted by base. *)
Definition link_region (p : rpool) (m : vmap_t) (nr : nat) (base : Z) : option (rpool * vmap_t) :=
  front ← match vm_head m with
          | None => Some true
          | Some h => rh ← rp_regions p !! h; Some (base <? vr_base rh)
          end;
  r ← rp_regions p !! nr;
  if (front : bool) then
    p' ← link_prev (rp_set p nr (vr_set_next r (vm_head m))) (vm_head m) (Some nr);
    Some (p', mk_vmap (Some nr) (vm_cr3 m) (u32 (vm_count m + 1)))
  else
    h ← vm_head m;
    cur ← insert_after (walk_fuel p) p h base;
    c ← rp_regions p !! cur;
    let p1 := rp_set p nr (vr_set_prev (vr_set_next r (vr_next c)) (Some cur)) in
    p2 ← link_prev p1 (vr_next c) (Some nr);
    c' ← rp_regions p2 !! cur;
    Some (rp_set p2 cur (vr_set_next c' (Some nr)),
          mk_vmap (vm_head m) (vm_cr3 m) (u32 (vm_count m + 1))).

(** Result code, pool and map. *)
Definition amm_region_add (p : rpool) (map : option vmap_t) (base size prot kind fd : Z)
    : option (Z * rpool * option vmap_t) :=
  match map with
  | None => Some (-1, p, map)
  | Some m =>
      if size =? 0 then Some (-1, p, map)
      else
        ov ← amm_region_overlaps p map base size;
        if (ov : bool) then Some (-1, p, map)
        else
          match region_alloc p with
          | None => Some (-1, p, map)
          | Some (nr, p1) =>
              '(p2, m') ← link_region (rp_set p1 nr (mk_vr base size prot kind fd None None)) m nr base;
              Some (0, p2, Some m')
          end
  end.

(** [while (r && r->base != base) r = r->next] *)
Fixpoint find_base (fuel : nat) (p : rpool) (cur : option nat) (base : Z) : option (option nat) :=
  match cur with
  | None => Some None
  | Some i =>
      match fuel with
      | O => None
      | S fuel' =>
          r ← rp_regions p !! i;
          if vr_base r =? base then Some (Some i) else find_base fuel' p (vr_next r) base
      end
  end.

Definition amm_region_remove (p : rpool) (m : vmap_t) (base : Z) : option (Z * rpool * vmap_t) :=
  found ← find_base (walk_fuel p) p (vm_head m) base;
  match found with
  | None => Some (-1, p, m)
  | Some i =>
      r ← rp_regions p !! i;
      '(p1, head) ← match vr_prev r with
                    | Some j => rj ← rp_regions p !! j; Some (rp_set p j (vr_set_next rj (vr_next r)), vm_head m)
                    | None => Some (p, vr_next r)
                    end;
      p2 ← link_prev p1 (vr_next r) (vr_prev r);
      Some (0, p2, mk_vmap head (vm_cr3 m) (u32 (vm_count m - 1)))
  end.

Fixpoint find_loop (fuel : nat) (p : rpool) (cur : option nat) (addr : Z) : option (option nat) :=
  match cur with
  | None => Some None
  | Some i =>
      match fuel with
      | O => None
      | S fuel' =>
          r ← rp_regions p !! i;
          if (vr_base r <=? addr) && (addr <? u64 (vr_base r + vr_size r)) then Some (Some i)
          else if addr <? vr_base r then Some None
          else find_loop fuel' p (vr_next r) addr
      end
  end.

Definition amm_region_find (p : rpool) (m : vmap_t) (addr : Z) : option (option nat) :=
  find_loop (walk_fuel p) p (vm_head m) addr.

(** ** Abstract view *)

Record rgn := mk_rgn {
  rg_base : Z;
  rg_size : Z;
  rg_prot : Z;
  rg_kind : Z;
  rg_fd : Z;
}.

Definition rg_end (g : rgn) : Z := rg_base g + rg_size g.

Definition vr_of (g : rgn) (p n : option nat) : vregion_t :=
  mk_vr (rg_base g) (rg_size g) (rg_prot g) (rg_kind g) (rg_fd g) p n.

(** A doubly linked segment: from [h] with predecessor [p] through the nodes of
    [l], the last of which is [pe] and points to [e]. *)
Fixpoint dlls (pool : gmap nat vregion_t) (p h : option nat) (l : list (nat * rgn)) (pe e : option nat) : Prop :=
  match l with
  | [] => p = pe /\ h = e
  | (i, g) :: l' => h = Some i /\ exists n, pool !! i = Some (vr_of g p n) /\ dlls pool (Some i) n l' pe e
  end.

Definition rgn_ok (g : rgn) : Prop := 0 <= rg_base g /\ 0 < rg_size g /\ rg_end g < 2 ^ 64.

Definition before (a b : rgn) : Prop := rg_end a <= rg_base b.

(** Regions in the address space, sorted and disjoint. *)
Definition regions_ok (gs : list rgn) : Prop := Forall rgn_ok gs /\ StronglySorted before gs.

(** The nodes of [m] are [l]; the other nodes of the pool are other maps'. *)
Record vmap_inv (p : rpool) (m : vmap_t) (l : list (nat * rgn)) : Prop := {
  vi_links : exists pe, dlls (rp_regions p) None (vm_head m) l pe None;
  vi_nodup : NoDup l.*1;
  vi_regions : regions_ok l.*2;
  vi_pool : forall i r, rp_regions p !! i = Some r -> (i < rp_next p)%nat;
  vi_count : vm_count m = u32 (Z.of_nat (length l));
}.

(** Does a region intersect [base .. end_)? *)
Definition hits (base end_ : Z) (g : rgn) : bool := (base <? rg_end g) && (rg_base g <? end_).

Definition holds (addr : Z) (g : rgn) : bool := (rg_base g <=? addr) && (addr <? rg_end g).

(** ** Segments *)

Lemma dlls_app pool p h l1 l2 pe e :
  dlls pool p h (l1 ++ l2) pe e <->
  exists pm m, dlls pool p h l1 pm m /\ dlls pool pm m l2 pe e.
Proof.
  revert p h. induction l1 as [|[i g] l1 IH]; intros p h; simpl.
  - split; [by eauto|]. by intros (? & ? & [<- <-] & ?).
  - setoid_rewrite IH. naive_solver.
Qed.

Lemma dlls_frame pool pool' p h l pe e :
  (forall i, i ∈ l.*1 -> pool' !! i = pool !! i) -> dlls pool p h l pe e -> dlls pool' p h l pe e.
Proof.
  revert p h. induction l as [|[i g] l IH]; intros p h Heq; simpl; [done|].
  intros (-> & n & Hi & Hl). split; [done|]. exists n.
  rewrite Heq by set_solver. split; [done|]. apply IH; [|done]. set_solver.
Qed.

Lemma dlls_lookup pool p h l1 i g l2 pe e :
  dlls pool p h (l1 ++ (i, g) :: l2) pe e ->
  exists q n, pool !! i = Some (vr_of g q n) /\ dlls pool p h l1 q (Some i) /\
    dlls pool (Some i) n l2 pe e.
Proof.
  intros (pm & m & H1 & -> & n & Hi & H2)%dlls_app. by exists pm, n.
Qed.

Lemma dlls_dom pool p h l pe e : dlls pool p h l pe e -> forall i, i ∈ l.*1 -> i ∈ dom pool.
Proof.
  revert p h. induction l as [|[i g] l IH]; intros p h; simpl; [set_solver|].
  intros (-> & n & Hi & Hl) j [->|Hj]%elem_of_cons; [apply elem_of_dom; by eexists|by eapply IH].
Qed.

Lemma dlls_fuel pool p h l pe e : NoDup l.*1 -> dlls pool p h l pe e -> (length l <= size pool)%nat.
Proof.
  intros Hnd Hl. rewrite <- (length_fmap fst), <- (size_dom pool), <- (size_list_to_set (C := gset nat)) by done.
  apply subseteq_size. intros i Hi%elem_of_list_to_set. by eapply dlls_dom.
Qed.

(** The last node is redirected. *)
Lemma dlls_set_next pool p h l i g pe e e' q n :
  dlls pool p h (l ++ [(i, g)]) pe e -> i ∉ l.*1 -> pool !! i = Some (vr_of g q n) ->
  dlls (<[i := vr_of g q e']> pool) p h (l ++ [(i, g)]) (Some i) e'.
Proof.
  intros (q1 & n1 & Hi & H1 & H2)%dlls_lookup Hni Hi2. rewrite Hi2 in Hi. injection Hi as <- <-. apply dlls_app.
  exists q, (Some i). split.
  - eapply dlls_frame; [|done]. intros j Hj. rewrite lookup_insert_ne; [done|]. set_solver.
  - simpl. split; [done|]. exists e'. by rewrite lookup_insert_eq.
Qed.

(** [link_prev] on the first node of a segment. *)
Lemma link_prev_ok p q h l pe q' :
  dlls (rp_regions p) q h l pe None -> NoDup l.*1 ->
  exists p' pe', link_prev p h q' = Some p' /\ dlls (rp_regions p') q' h l pe' None /\
    rp_next p' = rp_next p /\ dom (rp_regions p') = dom (rp_regions p) /\
    (forall j, j ∉ l.*1 -> rp_regions p' !! j = rp_regions p !! j).
Proof.
  destruct l as [|[i g] l]; simpl.
  - intros [-> ->] _. by exists p, q'.
  - intros (-> & n & Hi & Hl) [Hni Hnd]%NoDup_cons. simpl. rewrite Hi. simpl.
    eexists _, pe. split; [done|]. simpl. repeat split.
    + exists n. rewrite lookup_insert_eq. split; [done|]. eapply dlls_frame; [|done].
      intros j Hj. rewrite lookup_insert_ne; [done|]. set_solver.
    + apply dom_insert_lookup_L. by eexists.
    + intros j Hj. rewrite lookup_insert_ne; [done|]. set_solver.
Qed.

(** ** The walks *)

Lemma sorted_cons_base g gs g' : regions_ok (g :: gs) -> g' ∈ gs -> rg_end g <= rg_base g'.
Proof.
  intros [_ Hs] Hin. apply StronglySorted_inv in Hs as [_ Hall].
  rewrite Forall_forall in Hall. by apply Hall.
Qed.

Lemma regions_ok_cons g gs : regions_ok (g :: gs) -> rgn_ok g /\ regions_ok gs.
Proof.
  intros [Hf Hs]. apply Forall_cons in Hf as [? ?]. apply StronglySorted_inv in Hs as [? _]. done.
Qed.

Lemma existsb_none {A} (f : A -> bool) l : (forall x, x ∈ l -> f x = false) -> existsb f l = false.
Proof. induction l as [|x l IH]; intros H; simpl; [done|]. rewrite H, IH; set_solver. Qed.

Lemma find_none_iff {A} (f : A -> bool) l : (forall x, x ∈ l -> f x = false) -> List.find f l = None.
Proof. induction l as [|x l IH]; intros H; simpl; [done|]. rewrite H by set_solver. apply IH. set_solver. Qed.

Lemma overlaps_loop_ok p base end_ fuel : forall q h l pe,
  dlls (rp_regions p) q h l pe None -> regions_ok l.*2 -> (length l <= fuel)%nat ->
  overlaps_loop fuel p h base end_ = Some (existsb (hits base end_) l.*2).
Proof.
  induction fuel as [|fuel IH]; intros q h [|[i g] l] pe Hl Hok Hf; simpl in *; try lia.
  - by destruct Hl as [_ ->].
  - by destruct Hl as [_ ->].
  - destruct Hl as (-> & n & Hi & Hl). pose proof (regions_ok_cons _ _ Hok) as [(Hb & Hs & He) Hok'].
    rewrite Hi. simpl. unfold rg_end in He. rewrite u64_small by lia.
    destruct (Z.leb_spec (rg_base g + rg_size g) (rg_base g)); [lia|].
    change (rg_base g + rg_size g) with (rg_end g). fold (hits base end_ g).
    destruct (hits base end_ g); [done|]. simpl.
    destruct (Z.leb_spec end_ (rg_base g)) as [Hbr|_].
    + rewrite existsb_none; [done|]. intros g' Hg'. pose proof (sorted_cons_base _ _ _ Hok Hg').
      unfold hits, rg_end in *. destruct (Z.ltb_spec (rg_base g') end_); [lia|]. apply andb_false_r.
    + eapply IH; [done..|lia].
Qed.

Lemma find_loop_ok p addr fuel : forall q h l pe,
  dlls (rp_regions p) q h l pe None -> regions_ok l.*2 -> (length l <= fuel)%nat ->
  find_loop fuel p h addr = Some (fst <$> List.find (fun x => holds addr x.2) l).
Proof.
  induction fuel as [|fuel IH]; intros q h [|[i g] l] pe Hl Hok Hf; simpl in *; try lia.
  - by destruct Hl as [_ ->].
  - by destruct Hl as [_ ->].
  - destruct Hl as (-> & n & Hi & Hl). pose proof (regions_ok_cons _ _ Hok) as [(Hb & Hs & He) Hok'].
    rewrite Hi. simpl. unfold rg_end in He. rewrite u64_small by lia.
    change (rg_base g + rg_size g) with (rg_end g). fold (holds addr g).
    destruct (holds addr g); [done|].
    destruct (Z.ltb_spec addr (rg_base g)) as [Hbr|_].
    + rewrite find_none_iff; [done|]. intros [j g'] Hg'.
      assert (g' ∈ l.*2) as Hin by (apply list_elem_of_fmap; by exists (j, g')).
      pose proof (sorted_cons_base _ _ _ Hok Hin). unfold holds, rg_end in *. simpl.
      destruct (Z.leb_spec (rg_base g') addr); [lia|done].
    + eapply IH; [done..|lia].
Qed.

Lemma find_base_ok p base fuel : forall q h l pe,
  dlls (rp_regions p) q h l pe None -> (length l <= fuel)%nat ->
  find_base fuel p h base = Some (fst <$> List.find (fun x => rg_base x.2 =? base) l).
Proof.
  induction fuel as [|fuel IH]; intros q h [|[i g] l] pe Hl Hf; simpl in *; try lia.
  - by destruct Hl as [_ ->].
  - by destruct Hl as [_ ->].
  - destruct Hl as (-> & n & Hi & Hl). rewrite Hi. simpl. destruct (rg_base g =? base); [done|].
    eapply IH; [done..|lia].
Qed.

(** The insertion point: the last node below [base]. *)
Lemma insert_after_ok p base fuel : forall i g l q pe,
  dlls (rp_regions p) q (Some i) ((i, g) :: l) pe None -> (length l < fuel)%nat ->
  exists l1 c gc l2, (i, g) :: l = l1 ++ (c, gc) :: l2 /\ insert_after fuel p i base = Some c /\
    Forall (fun x => rg_base x.2 < base) (tail (l1 ++ [(c, gc)])) /\
    match l2 with [] => True | (_, g2) :: _ => base <= rg_base g2 end.
Proof.
  induction fuel as [|fuel IH]; intros i g l q pe Hl Hf; [lia|].
  destruct Hl as (_ & n & Hi & Hl). cbn [insert_after]. rewrite Hi. simpl.
  destruct l as [|[j g2] l]; simpl in Hl.
  - destruct Hl as [_ ->]. exists [], i, g, []. repeat split; constructor.
  - destruct Hl as (-> & n2 & Hj & Hl). rewrite Hj. simpl.
    destruct (Z.ltb_spec (rg_base g2) base) as [Hlt|Hge].
    + destruct (IH j g2 l (Some i) pe) as (l1 & c & gc & l2 & El & E & Hall & Hl2); [|simpl in Hf; lia|].
      { simpl. split; [done|]. by exists n2. }
      exists ((i, g) :: l1), c, gc, l2. rewrite El. repeat split; [done| |done].
      simpl. destruct l1 as [|x l1]; simpl in *; simplify_eq.
      * constructor; [done|constructor].
      * constructor; done.
    + exists [], i, g, ((j, g2) :: l). repeat split; [constructor|done].
Qed.

(** ** Linking a node *)

Ltac ins_ne := rewrite !lookup_insert_ne by (congruence || set_solver).

(** At the front. *)
Lemma link_front_ok p h l pe nr g :
  dlls (rp_regions p) None h l pe None -> NoDup l.*1 -> nr ∉ l.*1 ->
  exists p' pe', link_prev (rp_set p nr (vr_of g None h)) h (Some nr) = Some p' /\
    dlls (rp_regions p') None (Some nr) ((nr, g) :: l) pe' None /\ rp_next p' = rp_next p /\
    (forall j, j <> nr -> j ∉ l.*1 -> rp_regions p' !! j = rp_regions p !! j) /\
    dom (rp_regions p') = {[nr]} ∪ dom (rp_regions p).
Proof.
  intros Hl Hnd Hnr.
  destruct (link_prev_ok (rp_set p nr (vr_of g None h)) None h l pe (Some nr)) as (p' & pe' & E & Hl' & Hn & Hd & Hfr);
    [|done|].
  { eapply dlls_frame; [|done]. intros j Hj. simpl. by ins_ne. }
  exists p', pe'. split; [done|]. split; [|split; [done|split]].
  - simpl. split; [done|]. exists h. split; [|done]. rewrite Hfr by done. simpl. by rewrite lookup_insert_eq.
  - intros j Hne Hj. rewrite Hfr by done. simpl. by ins_ne.
  - rewrite Hd. simpl. by rewrite dom_insert_L.
Qed.

(** After node [c]. *)
Lemma link_after_ok p h l1 c gc l2 pe nr g :
  dlls (rp_regions p) None h (l1 ++ (c, gc) :: l2) pe None -> NoDup (l1 ++ (c, gc) :: l2).*1 ->
  nr ∉ (l1 ++ (c, gc) :: l2).*1 ->
  exists q n p2 pe', rp_regions p !! c = Some (vr_of gc q n) /\
    link_prev (rp_set p nr (vr_of g (Some c) n)) n (Some nr) = Some p2 /\
    rp_regions p2 !! c = Some (vr_of gc q n) /\
    dlls (<[c := vr_of gc q (Some nr)]> (rp_regions p2)) None h (l1 ++ (c, gc) :: (nr, g) :: l2) pe' None /\
    rp_next p2 = rp_next p /\
    (forall j, j <> nr -> j ∉ (l1 ++ (c, gc) :: l2).*1 ->
       <[c := vr_of gc q (Some nr)]> (rp_regions p2) !! j = rp_regions p !! j) /\
    dom (<[c := vr_of gc q (Some nr)]> (rp_regions p2)) = {[nr]} ∪ dom (rp_regions p).
Proof.
  intros Hl Hnd Hnr. apply dlls_lookup in Hl as (q & n & Hc & H1 & H2).
  rewrite fmap_app, fmap_cons in *. simpl in *.
  apply NoDup_app in Hnd as (Hnd1 & Hdis & [Hc2 Hnd2]%NoDup_cons).
  assert (c ∉ l1.*1) as Hc1 by (intros ?; apply (Hdis c); set_solver).
  destruct (link_prev_ok (rp_set p nr (vr_of g (Some c) n)) (Some c) n l2 pe (Some nr))
    as (p2 & pe' & E & Hl2 & Hn & Hd & Hfr); [|done|].
  { eapply dlls_frame; [|done]. intros j Hj. simpl. by ins_ne. }
  assert (rp_regions p2 !! c = Some (vr_of gc q n)) as Hc'.
  { rewrite Hfr by done. simpl. by ins_ne. }
  exists q, n, p2, pe'. do 3 (split; [done|]). split; [|split; [done|split]].
  - apply dlls_app. exists q, (Some c). split.
    + eapply dlls_frame; [|exact H1]. intros j Hj. ins_ne. rewrite Hfr by (intros ?; apply (Hdis j); set_solver).
      simpl. by ins_ne.
    + simpl. split; [done|]. exists (Some nr). rewrite lookup_insert_eq. split; [done|]. split; [done|].
      exists n. split.
      * ins_ne. rewrite Hfr by set_solver. simpl. by rewrite lookup_insert_eq.
      * eapply dlls_frame; [|exact Hl2]. intros j Hj. by ins_ne.
  - intros j Hne Hj. ins_ne. rewrite Hfr by set_solver. simpl. by ins_ne.
  - rewrite dom_insert_L, Hd. simpl. rewrite dom_insert_L. apply elem_of_dom_2 in Hc. set_solver.
Qed.

Lemma regions_ok_insert gs1 gs2 g :
  regions_ok (gs1 ++ gs2) -> rgn_ok g -> Forall (fun a => before a g) gs1 -> Forall (before g) gs2 ->
  regions_ok (gs1 ++ g :: gs2).
Proof.
  intros [Hf Hs] Hg H1 H2. apply Forall_app in Hf as [Hf1 Hf2].
  apply StronglySorted_app in Hs as (Hx & Hs1 & Hs2). rewrite Forall_forall in H1.
  split; [apply Forall_app; split; [done|by constructor]|]. apply StronglySorted_app.
  split; [|split; [done|by constructor]].
  intros a b Ha [->|Hb]%elem_of_cons; [by apply H1|by apply Hx].
Qed.

Lemma regions_ok_delete gs1 g gs2 : regions_ok (gs1 ++ g :: gs2) -> regions_ok (gs1 ++ gs2).
Proof.
  intros [Hf Hs]. apply Forall_app in Hf as [Hf1 [_ Hf2]%Forall_cons].
  apply StronglySorted_app in Hs as (Hx & Hs1 & [Hs2 _]%StronglySorted_inv).
  split; [by apply Forall_app|]. apply StronglySorted_app. split; [|done].
  intros a b Ha Hb. apply Hx; set_solver.
Qed.

(** A region that intersects no other lies before or behind it. *)
Lemma not_hits_cases g a : rgn_ok g -> rgn_ok a -> hits (rg_base g) (rg_end g) a = false ->
  (rg_base a < rg_base g -> before a g) /\ (rg_base g <= rg_base a -> before g a).
Proof.
  unfold hits, before, rgn_ok, rg_end. intros ? ? H. apply andb_false_iff in H.
  rewrite !Z.ltb_ge in H. lia.
Qed.

(** The new region between the ones below its base and the others. *)
Lemma new_region_ok (l1 l2 : list (nat * rgn)) nr g :
  regions_ok (l1 ++ l2).*2 -> rgn_ok g ->
  existsb (hits (rg_base g) (rg_end g)) (l1 ++ l2).*2 = false ->
  Forall (fun x => rg_base x.2 <= rg_base g) l1 ->
  match l2 with [] => True | (_, g2) :: _ => rg_base g <= rg_base g2 end ->
  regions_ok (l1 ++ (nr, g) :: l2).*2.
Proof.
  intros Hok Hg Hno H1 H2. rewrite fmap_app, fmap_cons.
  assert (forall a, a ∈ (l1 ++ l2).*2 -> rgn_ok a /\
    (rg_base a < rg_base g -> before a g) /\ (rg_base g <= rg_base a -> before g a)) as Hcase.
  { intros a Ha. assert (rgn_ok a) by (destruct Hok as [Hf _]; rewrite Forall_forall in Hf; by apply Hf).
    split; [done|]. apply not_hits_cases; [done..|].
    destruct (hits _ _ a) eqn:E; [|done]. exfalso. apply not_true_iff_false in Hno. apply Hno.
    apply existsb_exists. exists a. split; [by apply list_elem_of_In|done]. }
  rewrite fmap_app in *. apply regions_ok_insert; [done|done|..]; apply Forall_forall; intros a Ha.
  - destruct (Hcase a) as (Ha' & Hlt & Hge); [set_solver|].
    apply list_elem_of_fmap in Ha as ([i a'] & -> & Ha). rewrite Forall_forall in H1. specialize (H1 _ Ha). simpl in *.
    destruct (decide (rg_base a' < rg_base g)); [by apply Hlt|].
    assert (rg_end g <= rg_base a') by (apply Hge; lia). unfold rgn_ok, rg_end in *. lia.
  - destruct (Hcase a) as (Ha' & Hlt & Hge); [set_solver|]. apply Hge.
    destruct l2 as [|[j g2] l2]; simpl in *; [set_solver|].
    apply elem_of_cons in Ha as [->|Ha]; [done|].
    destruct Hok as [Hf Hs]. apply StronglySorted_app in Hs as (_ & _ & Hs).
    pose proof (sorted_cons_base g2 l2.*2 a) as Hb. destruct (Hcase g2) as ((? & ? & ?) & _); [set_solver|].
    assert (rg_end g2 <= rg_base a); [|unfold rg_end in *; lia]. apply Hb; [|done].
    split; [by apply Forall_app in Hf as [_ Hf]|done].
Qed.

(** The invariant of a map whose list [l1 ++ l2] gained a node. *)
Lemma vmap_inv_insert p m l1 l2 nr g pool h pe :
  vmap_inv p m (l1 ++ l2) -> is_Some (rp_regions p !! nr) -> nr ∉ (l1 ++ l2).*1 ->
  regions_ok (l1 ++ (nr, g) :: l2).*2 ->
  dlls pool None h (l1 ++ (nr, g) :: l2) pe None -> dom pool = {[nr]} ∪ dom (rp_regions p) ->
  vmap_inv (mk_rpool pool (rp_next p)) (mk_vmap h (vm_cr3 m) (u32 (vm_count m + 1))) (l1 ++ (nr, g) :: l2).
Proof.
  intros [_ Hnd _ Hpool Hcnt] Hnr Hni Hok Hl Hd. split; simpl; [by exists pe| |done| |].
  - rewrite fmap_app in *. rewrite fmap_cons, <- Permutation_middle. by constructor.
  - intros i r Hi. apply elem_of_dom_2 in Hi. rewrite Hd in Hi.
    assert (i ∈ dom (rp_regions p)) as [r' Hr']%elem_of_dom; [|by eapply Hpool].
    apply elem_of_union in Hi as [->%elem_of_singleton|?]; [by apply elem_of_dom|done].
  - rewrite Hcnt, u32_add_l, !length_app. simpl. f_equal. lia.
Qed.

Lemma link_region_ok p m l nr g :
  vmap_inv p m l -> rp_regions p !! nr = Some (vr_of g None None) -> nr ∉ l.*1 -> rgn_ok g ->
  existsb (hits (rg_base g) (rg_end g)) l.*2 = false ->
  exists p' m' l1 l2, l = l1 ++ l2 /\ link_region p m nr (rg_base g) = Some (p', m') /\
    vmap_inv p' m' (l1 ++ (nr, g) :: l2) /\ vm_cr3 m' = vm_cr3 m /\ rp_next p' = rp_next p /\
    (forall j, j <> nr -> j ∉ l.*1 -> rp_regions p' !! j = rp_regions p !! j).
Proof.
  intros I Hnr Hni Hg Hno. destruct (vi_links _ _ _ I) as [pe Hl]. pose proof (vi_nodup _ _ _ I) as Hnd.
  assert (is_Some (rp_regions p !! nr)) as Hnr' by by eexists.
  unfold link_region. destruct (vm_head m) as [h|] eqn:Hh; cycle 1.
  { destruct l as [|[i gi] l]; [|by destruct Hl as [? _]]. simpl. rewrite Hnr. simpl.
    eexists _, _, [], []. split; [done|]. split; [done|].
    split; [|do 2 (split; [done|]); intros j Hne _; simpl; by ins_ne].
    eapply (vmap_inv_insert p m [] []); try done; [apply (new_region_ok [] []); [apply I|done|done|constructor|done]| |by rewrite dom_insert_L].
    simpl. split; [done|]. exists None. by rewrite lookup_insert_eq. }
  destruct l as [|[h' gh] l]; [by destruct Hl as [_ ?]|]. destruct (Hl) as (Heq & nh & Hrh & _). injection Heq as <-.
  cbn [mbind option_bind]. rewrite Hrh. cbn [mbind option_bind vr_of vr_base]. rewrite Hnr. cbn [mbind option_bind].
  destruct (Z.ltb_spec (rg_base g) (rg_base gh)) as [Hlt|Hge].
  - destruct (link_front_ok p (Some h) ((h, gh) :: l) pe nr g Hl Hnd Hni) as ([pool n'] & pe' & E & Hl' & Hn & Hfr & Hd).
    change (vr_set_next (vr_of g None None) (Some h)) with (vr_of g None (Some h)). rewrite E. simpl in *. subst n'.
    eexists _, _, [], _. split; [done|]. split; [done|]. split; [|done].
    refine (vmap_inv_insert p m [] _ nr g pool _ pe' I Hnr' Hni _ Hl' Hd).
    apply (new_region_ok [] ((h, gh) :: l)); [apply I|done|done|constructor|lia].
  - destruct (insert_after_ok p (rg_base g) (walk_fuel p) h gh l None pe Hl) as (l1 & c & gc & l2 & El & E & Hall & Hl2).
    { pose proof (dlls_fuel _ _ _ _ _ _ Hnd Hl) as Hsz. exact Hsz. }
    rewrite E. cbn [mbind option_bind].
    assert (Forall (fun x => rg_base x.2 <= rg_base g) (l1 ++ [(c, gc)])) as Hlow.
    { destruct l1; simpl in *; simplify_eq; (constructor; [simpl; lia|]); [constructor|].
      eapply Forall_impl; [exact Hall|]. intros ? ?. simpl in *. lia. }
    rewrite El in *.
    destruct (link_after_ok p (Some h) l1 c gc l2 pe nr g Hl Hnd Hni)
      as (q & n & [pool n'] & pe' & Hc & E2 & Hc2 & Hl' & Hn & Hfr & Hd).
    rewrite Hc. cbn [mbind option_bind vr_of vr_next].
    change (vr_set_prev (vr_set_next (vr_of g None None) n) (Some c)) with (vr_of g (Some c) n).
    rewrite E2. cbn [mbind option_bind]. rewrite Hc2. cbn [mbind option_bind rp_set]. simpl in Hn, Hl', Hfr, Hd. subst n'.
    change (l1 ++ (c, gc) :: l2) with (l1 ++ [(c, gc)] ++ l2) in *. rewrite app_assoc in *.
    eexists _, _, (l1 ++ [(c, gc)]), l2. split; [done|]. split; [done|].
    split; [|split; [done|split; [done|exact Hfr]]]. simpl.
    change (vr_set_next (vr_of gc q n) (Some nr)) with (vr_of gc q (Some nr)).
    eapply (vmap_inv_insert p m (l1 ++ [(c, gc)]) l2); try done.
    + apply new_region_ok; try done. apply I.
    + by rewrite <- app_assoc.
Qed.

(** ** Unlinking a node *)

(** [r->prev->next = r->next], or the head, and the walk to the node before. *)
Lemma unlink_prev_ok p h l1 i g l2 pe :
  dlls (rp_regions p) None h (l1 ++ (i, g) :: l2) pe None -> NoDup (l1 ++ (i, g) :: l2).*1 ->
  exists q n p1 h', rp_regions p !! i = Some (vr_of g q n) /\
    match q with
    | Some j => rj ← rp_regions p !! j; Some (rp_set p j (vr_set_next rj n), h)
    | None => Some (p, n)
    end = Some (p1, h') /\
    dlls (rp_regions p1) None h' l1 q n /\ dlls (rp_regions p1) (Some i) n l2 pe None /\
    rp_next p1 = rp_next p /\ dom (rp_regions p1) = dom (rp_regions p) /\
    (forall j, j ∉ l1.*1 -> rp_regions p1 !! j = rp_regions p !! j).
Proof.
  intros Hl Hnd. apply dlls_lookup in Hl as (q & n & Hi & H1 & H2).
  rewrite fmap_app, fmap_cons in Hnd. simpl in Hnd.
  apply NoDup_app in Hnd as (Hnd1 & Hdis & [Hi2 Hnd2]%NoDup_cons).
  destruct l1 as [|[j gj] l1' _] using rev_ind.
  - destruct H1 as [<- ->]. by exists None, n, p, n.
  - apply dlls_lookup in H1 as (qj & nj & Hj & H1 & [<- ->]).
    rewrite fmap_app in *. simpl in *. apply NoDup_app in Hnd1 as (Hnd1 & Hdj & _).
    assert (j ∉ l1'.*1) as Hj1 by (intros ?; apply (Hdj j); set_solver).
    eexists (Some j), n, _, h. split; [done|]. rewrite Hj. split; [done|]. simpl.
    change (vr_set_next (vr_of gj qj (Some i)) n) with (vr_of gj qj n). split; [|split; [|split; [done|split]]].
    + eapply (dlls_set_next _ None h l1' j gj (Some j) (Some i)); [|done|done].
      apply dlls_app. exists qj, (Some j). split; [done|]. simpl. split; [done|]. by exists (Some i).
    + eapply dlls_frame; [|exact H2]. intros k Hk. rewrite lookup_insert_ne; [done|].
      intros <-. apply (Hdis j); set_solver.
    + apply dom_insert_lookup_L. by eexists.
    + intros k Hk. rewrite lookup_insert_ne; [done|]. set_solver.
Qed.

Lemma remove_node_ok p m l1 i g l2 :
  vmap_inv p m (l1 ++ (i, g) :: l2) ->
  exists r p1 h p2, rp_regions p !! i = Some r /\
    match vr_prev r with
    | Some j => rj ← rp_regions p !! j; Some (rp_set p j (vr_set_next rj (vr_next r)), vm_head m)
    | None => Some (p, vr_next r)
    end = Some (p1, h) /\
    link_prev p1 (vr_next r) (vr_prev r) = Some p2 /\
    vmap_inv p2 (mk_vmap h (vm_cr3 m) (u32 (vm_count m - 1))) (l1 ++ l2) /\ rp_next p2 = rp_next p /\
    (forall j, j ∉ (l1 ++ (i, g) :: l2).*1 -> rp_regions p2 !! j = rp_regions p !! j).
Proof.
  intros [[pe Hl] Hnd Hok Hpool Hcnt].
  destruct (unlink_prev_ok p (vm_head m) l1 i g l2 pe Hl Hnd) as (q & n & p1 & h & Hi & E1 & H1 & H2 & Hn1 & Hd1 & Hfr1).
  rewrite fmap_app, fmap_cons in Hnd. simpl in Hnd. pose proof Hnd as Hnd'.
  apply NoDup_app in Hnd as (Hnd1 & Hdis & [Hi2 Hnd2]%NoDup_cons).
  destruct (link_prev_ok p1 (Some i) n l2 pe q H2 Hnd2) as (p2 & pe' & E2 & H2' & Hn2 & Hd2 & Hfr2).
  exists (vr_of g q n), p1, h, p2. do 3 (split; [done|]). split; [|split; [congruence|]].
  - split; simpl.
    + exists pe'. apply dlls_app. exists q, n. split; [|done].
      eapply dlls_frame; [|exact H1]. intros k Hk. apply Hfr2. intros ?. apply (Hdis k); set_solver.
    + rewrite fmap_app. eapply sublist_NoDup; [exact Hnd'|]. apply sublist_app; [done|]. by apply sublist_cons.
    + rewrite fmap_app, fmap_cons in Hok. rewrite fmap_app. by eapply regions_ok_delete.
    + intros j r Hj. rewrite Hn2, Hn1. apply elem_of_dom_2 in Hj. rewrite Hd2, Hd1 in Hj.
      apply elem_of_dom in Hj as [r' Hr']. eauto.
    + rewrite Hcnt, u32_sub_l, !length_app. simpl. f_equal. lia.
  - intros j Hj. rewrite fmap_app, fmap_cons in Hj. simpl in Hj. rewrite Hfr2, Hfr1; [done|set_solver..].
Qed.

(** ** The operations *)

Lemma overlaps_ok p m l base size :
  vmap_inv p m l -> 0 <= base < 2 ^ 64 -> 0 < size < 2 ^ 64 ->
  amm_region_overlaps p (Some m) base size =
  Some ((2 ^ 64 <=? base + size) || existsb (hits base (base + size)) l.*2).
Proof.
  intros I Hb Hs. destruct (vi_links _ _ _ I) as [pe Hl]. unfold amm_region_overlaps.
  destruct (Z.eqb_spec size 0); [lia|]. destruct (Z.leb_spec (2 ^ 64) (base + size)) as [Hov|Hov].
  - assert (u64 (base + size) = base + size - 2 ^ 64) as ->.
    { unfold u64. symmetry. apply (Z.mod_unique_pos _ _ 1); lia. }
    destruct (Z.leb_spec (base + size - 2 ^ 64) base); [done|lia].
  - rewrite u64_small by lia. destruct (Z.leb_spec (base + size) base); [lia|].
    apply (overlaps_loop_ok p base (base + size) _ None _ l pe); [done|apply I|].
    eapply dlls_fuel; [apply I|done].
Qed.

(** [region_alloc] of a pool with room hands out a node of no map. *)
Lemma region_alloc_inv p m l g :
  vmap_inv p m l -> (rp_next p < MAX_REGIONS)%nat ->
  exists p1, region_alloc p = Some (rp_next p, p1) /\ (rp_next p ∉ l.*1) /\
    vmap_inv (rp_set p1 (rp_next p) (vr_of g None None)) m l /\
    rp_next p1 = S (rp_next p) /\
    (forall j, j <> rp_next p -> rp_regions (rp_set p1 (rp_next p) (vr_of g None None)) !! j = rp_regions p !! j).
Proof.
  intros [[pe Hl] Hnd Hok Hpool Hcnt] Hroom. unfold region_alloc. rewrite decide_False by lia.
  assert (rp_next p ∉ l.*1) as Hni.
  { intros Hin. apply (dlls_dom _ _ _ _ _ _ Hl) in Hin. apply elem_of_dom in Hin as [r Hr].
    apply Hpool in Hr. lia. }
  eexists. split; [done|]. split; [done|].
  split; [|split; [done|intros j Hj; simpl; by ins_ne]]. split; simpl; try done.
  - exists pe. eapply dlls_frame; [|done]. intros j Hj. by ins_ne.
  - intros i r. rewrite insert_insert_eq. intros [[<- _]|[_ Hi]]%lookup_insert_Some; [lia|]. apply Hpool in Hi. lia.
Qed.

Lemma find_ok p m l addr : vmap_inv p m l ->
  amm_region_find p m addr = Some (fst <$> List.find (fun x => holds addr x.2) l).
Proof.
  intros I. destruct (vi_links _ _ _ I) as [pe Hl].
  apply (find_loop_ok p addr _ None _ l pe); [done|apply I|]. eapply dlls_fuel; [apply I|done].
Qed.

(** In a sorted list only one region holds an address. *)
Lemma find_unique (l : list (nat * rgn)) addr i g :
  regions_ok l.*2 -> (i, g) ∈ l -> holds addr g = true ->
  List.find (fun x => holds addr x.2) l = Some (i, g).
Proof.
  induction l as [|[j a] l IH]; intros Hok Hin Hg; [set_solver|]. simpl.
  apply elem_of_cons in Hin as [[= <- <-]|Hin]; [by rewrite Hg|].
  destruct (holds addr a) eqn:Ha; [|apply IH; [by eapply regions_ok_cons|done..]].
  exfalso. assert (g ∈ l.*2) as Hg' by (apply list_elem_of_fmap; by exists (i, g)).
  pose proof (sorted_cons_base _ _ _ Hok Hg'). clear IH. unfold holds in *. simpl in *. lia.
Qed.

(** Adding a region, for the clients of the map. *)
Lemma region_add_spec p m l base size prot kind fd :
  vmap_inv p m l -> 0 <= base < 2 ^ 64 -> 0 <= size < 2 ^ 64 ->
  let rejected := size = 0 \/ 2 ^ 64 <= base + size \/ (MAX_REGIONS <= rp_next p)%nat \/
    exists i g, (i, g) ∈ l /\ base < rg_end g /\ rg_base g < base + size in
  (rejected /\ amm_region_add p (Some m) base size prot kind fd = Some (-1, p, Some m)) \/
  (~ rejected /\ exists p' m' l1 l2, let g := mk_rgn base size prot kind fd in
     l = l1 ++ l2 /\ amm_region_add p (Some m) base size prot kind fd = Some (0, p', Some m') /\
     vmap_inv p' m' (l1 ++ (rp_next p, g) :: l2) /\
     (forall addr, base <= addr < base + size -> amm_region_find p' m' addr = Some (Some (rp_next p))) /\
     (forall j, j <> rp_next p -> j ∉ l.*1 -> rp_regions p' !! j = rp_regions p !! j)).
Proof.
  intros I Hb Hs rejected. unfold amm_region_add. destruct (Z.eqb_spec size 0) as [|Hnz]; [left; split; [by left|done]|].
  rewrite (overlaps_ok p m l) by (done || lia). cbn [mbind option_bind].
  destruct (Z.leb_spec (2 ^ 64) (base + size)) as [Hov|Hov]; [left; split; [by right; left|done]|]. cbn [orb].
  destruct (existsb (hits base (base + size)) l.*2) eqn:Hh.
  { left. split; [|done]. right. right. right. apply existsb_exists in Hh as (g & Hg & Hhit).
    apply list_elem_of_In, list_elem_of_fmap in Hg as ([i g'] & -> & Hi). exists i, g'. split; [done|].
    unfold hits in Hhit. rewrite andb_true_iff, !Z.ltb_lt in Hhit. done. }
  destruct (decide (MAX_REGIONS <= rp_next p)%nat) as [Hfull|Hroom].
  { left. split; [by right; right; left|]. unfold region_alloc. by rewrite decide_True. }
  right. split.
  { intros [?|[?|[?|(i & g & Hi & H1 & H2)]]]; [lia..|]. apply not_true_iff_false in Hh. apply Hh.
    apply existsb_exists. exists g. split; [apply list_elem_of_In, list_elem_of_fmap; by exists (i, g)|].
    unfold hits. by rewrite andb_true_iff, !Z.ltb_lt. }
  set (g := mk_rgn base size prot kind fd).
  destruct (region_alloc_inv p m l g I) as (p1 & -> & Hni & I1 & Hn1 & Hfr1); [lia|].
  assert (rgn_ok g) as Hg by (unfold rgn_ok, rg_end; simpl; lia).
  destruct (link_region_ok _ m l (rp_next p) g I1) as (p' & m' & l1 & l2 & El & E & I' & _ & _ & Hfr'); try done.
  { simpl. by rewrite lookup_insert_eq. }
  exists p', m', l1, l2. split; [done|]. split; [exact (f_equal (fun x => '(p2, m') ← x; Some (0, p2, Some m')) E)|].
  split; [done|]. split.
  - intros addr Ha. rewrite (find_ok p' m' _ addr I'). rewrite (find_unique _ addr (rp_next p) g); [done|apply I'|set_solver|].
    unfold holds, rg_end. simpl. rewrite andb_true_iff, Z.leb_le, Z.ltb_lt. lia.
  - intros j Hne Hj. rewrite Hfr', Hfr1; done.
Qed.

(** [amm_region_add] on a well-linked map never faults or loops.  A zero
    size, a range that wraps around or intersects a region of the map, and an
    exhausted pool give -1 and change nothing.  Otherwise it returns 0, and the new
    region stands in the sorted, disjoint, doubly linked list of regions with the
    attributes passed; every address of it is now found to belong to it; and no
    other map's nodes are touched. *)
Theorem amm_region_add_ok p m l base size prot kind fd :
  vmap_inv p m l -> 0 <= base < 2 ^ 64 -> 0 <= size < 2 ^ 64 ->
  let rejected := size = 0 \/ 2 ^ 64 <= base + size \/ (MAX_REGIONS <= rp_next p)%nat \/
    exists i g, (i, g) ∈ l /\ base < rg_end g /\ rg_base g < base + size in
  (rejected /\ amm_region_add p (Some m) base size prot kind fd = Some (-1, p, Some m)) \/
  (~ rejected /\ exists p' m' l1 l2, let g := mk_rgn base size prot kind fd in
     l = l1 ++ l2 /\ amm_region_add p (Some m) base size prot kind fd = Some (0, p', Some m') /\
     vmap_inv p' m' (l1 ++ (rp_next p, g) :: l2) /\
     (forall addr, base <= addr < base + size -> amm_region_find p' m' addr = Some (Some (rp_next p))) /\
     (forall j, j <> rp_next p -> j ∉ l.*1 -> rp_regions p' !! j = rp_regions p !! j)).
Proof. apply region_add_spec. Qed.

(** [amm_region_remove] on a well-linked map never faults or loops: it returns
    -1 and changes nothing when no region starts at [base], and otherwise takes
    exactly that region out, keeping the others linked, sorted and counted, and
    touching no other map's nodes. *)
Theorem amm_region_remove_ok p m l base :
  vmap_inv p m l ->
  ((forall i g, (i, g) ∈ l -> rg_base g <> base) /\ amm_region_remove p m base = Some (-1, p, m)) \/
  (exists p' m' l1 i g l2, l = l1 ++ (i, g) :: l2 /\ rg_base g = base /\
     amm_region_remove p m base = Some (0, p', m') /\ vmap_inv p' m' (l1 ++ l2) /\
     (forall j, j ∉ l.*1 -> rp_regions p' !! j = rp_regions p !! j)).
Proof.
  intros I. destruct (vi_links _ _ _ I) as [pe Hl]. unfold amm_region_remove.
  rewrite (find_base_ok p base _ None _ l pe Hl) by (eapply dlls_fuel; [apply I|done]). cbn [mbind option_bind].
  destruct (List.find (fun x => rg_base x.2 =? base) l) as [[i g]|] eqn:Hf; simpl.
  - right. apply List.find_some in Hf as [Hin%list_elem_of_In Hb%Z.eqb_eq].
    apply list_elem_of_split in Hin as (l1 & l2 & ->).
    destruct (remove_node_ok p m l1 i g l2 I) as (r & p1 & h & p2 & -> & E1 & E2 & I' & _ & Hfr).
    cbn [mbind option_bind]. rewrite E1. cbn [mbind option_bind]. rewrite E2.
    exists p2. eexists. exists l1, i, g, l2. do 3 (split; [done|]). split; [exact I'|exact Hfr].
  - left. split; [|done]. intros i g Hi Hb. eapply List.find_none in Hf; [|by apply list_elem_of_In].
    by apply Z.eqb_neq in Hf.
Qed.

(** [amm_region_find] on a well-linked map terminates and returns the node of
    the one region that contains the address, or null when there is none. *)
Theorem amm_region_find_ok p m l addr :
  vmap_inv p m l ->
  (exists i g, (i, g) ∈ l /\ rg_base g <= addr < rg_end g /\ amm_region_find p m addr = Some (Some i)) \/
  ((forall i g, (i, g) ∈ l -> ~ rg_base g <= addr < rg_end g) /\ amm_region_find p m addr = Some None).
Proof.
  intros I. rewrite (find_ok p m l addr I).
  destruct (List.find (fun x => holds addr x.2) l) as [[i g]|] eqn:Hf.
  - left. apply List.find_some in Hf as [Hin%list_elem_of_In Hb]. exists i, g. split; [done|]. split; [|done].
    unfold holds in Hb. by rewrite andb_true_iff, Z.leb_le, Z.ltb_lt in Hb.
  - right. split; [|done]. intros i g Hi Hb. eapply List.find_none in Hf; [|by apply list_elem_of_In].
    unfold holds in Hf. simpl in Hf. rewrite andb_false_iff, Z.leb_gt, Z.ltb_ge in Hf. lia.
Qed.

(** ** A sample map with two regions *)

Definition demo_code : rgn := mk_rgn 0x400000 0x3000 5 0 (-1).
Definition demo_stack : rgn := mk_rgn 0x7ff000 0x1000 3 1 (-1).

Definition demo_pool : rpool :=
  mk_rpool {[ 0%nat := vr_of demo_stack (Some 1%nat) None; 1%nat := vr_of demo_code None (Some 0%nat) ]} 2.

Definition demo_map : vmap_t := mk_vmap (Some 1%nat) 0x5000 2.

Lemma demo_map_inv : vmap_inv demo_pool demo_map [(1%nat, demo_code); (0%nat, demo_stack)].
Proof.
  split; simpl.
  - exists (Some 0%nat). split; [done|]. exists (Some 0%nat). split; [done|]. split; [done|]. by exists None.
  - apply NoDup_cons. split; [set_solver|apply NoDup_singleton].
  - split; [by repeat constructor|]. by repeat constructor.
  - intros i r. rewrite lookup_insert_Some, lookup_singleton_Some. lia.
  - done.
Qed.

Lemma amm_region_add_ok_witness :
  exists p' m', amm_region_add demo_pool (Some demo_map) 0x600000 0x2000 3 2 (-1) = Some (0, p', Some m') /\
    amm_region_find p' m' 0x601000 = Some (Some 2%nat).
Proof.
  destruct (amm_region_add_ok demo_pool demo_map _ 0x600000 0x2000 3 2 (-1) demo_map_inv ltac:(lia) ltac:(lia))
    as [[Hr _]|(_ & p' & m' & l1 & l2 & _ & E & _ & Hf & _)].
  - exfalso. destruct Hr as [?|[?|[Hm|(i & g & Hi & H)]]]; [lia..| |].
    + by apply Nat.leb_le in Hm.
    + apply elem_of_cons in Hi as [[= -> ->]|[[= -> ->]|Hi%elem_of_nil]%elem_of_cons];
        unfold rg_end in H; simpl in H; [lia..|done].
  - exists p', m'. split; [exact E|]. apply Hf. lia.
Defined.

Lemma amm_region_remove_ok_witness :
  exists p' m', amm_region_remove demo_pool demo_map 0x7ff000 = Some (0, p', m').
Proof.
  destruct (amm_region_remove_ok demo_pool demo_map _ 0x7ff000 demo_map_inv)
    as [[Hno _]|(p' & m' & l1 & i & g & l2 & _ & _ & E & _)].
  - exfalso. apply (Hno 0%nat demo_stack); [set_solver|done].
  - exists p', m'. exact E.
Defined.

Lemma amm_region_find_ok_witness : amm_region_find demo_pool demo_map 0x401234 = Some (Some 1%nat).
Proof.
  destruct (amm_region_find_ok demo_pool demo_map _ 0x401234 demo_map_inv) as [(i & g & Hi & H & E)|[Hno _]].
  - rewrite E. apply elem_of_cons in Hi as [[= -> ->]|[[= -> ->]|Hi%elem_of_nil]%elem_of_cons];
      [done|unfold rg_end in H; simpl in H; lia|done].
  - exfalso. apply (Hno 1%nat demo_code); [set_solver|unfold rg_end; simpl; lia].
Defined.
