(* ===== verification/PageTable.v ===== *)
(** * Page tables (src/kernel/mm/mm.c, lines 265-323 and 685-748)

    The four-level page tables, word by word in physical memory.  The code reaches
    a table through [phys_to_virt]; the model uses the physical address itself.
    Pages come from any allocator that satisfies [BlockAlloc].  A read of memory
    that was never written is a fault ([None]); a null result is an inner [None]. *)

From Stdlib Require Import ZArith Lia.
From stdpp Require Import base gmap functions list.
From S2P Require Import Prelude Phys PhysSpec PhysIface VRegion.

Local Open Scope Z_scope.

Definition PTE_PRESENT : Z := 2 ^ 0.
Definition PTE_WRITE : Z := 2 ^ 1.
Definition PTE_USER : Z := 2 ^ 2.
Definition PTE_NX : Z := 2 ^ 63.
Definition PTE_ADDR_MASK : Z := 0x000FFFFFFFFFF000.

Definition PROT_READ : Z := 0x1.
Definition PROT_WRITE : Z := 0x2.
Definition PROT_EXEC : Z := 0x4.

Definition PML4_IDX (v : Z) : Z := Z.land (Z.shiftr v 39) 0x1FF.
Definition PDPT_IDX (v : Z) : Z := Z.land (Z.shiftr v 30) 0x1FF.
Definition PD_IDX (v : Z) : Z := Z.land (Z.shiftr v 21) 0x1FF.
Definition PT_IDX (v : Z) : Z := Z.land (Z.shiftr v 12) 0x1FF.

Section PageTable.
Context `{BlockAlloc St}.

Definition wr (s : St) (a v : Z) : St := ba_set_mem s (<[a := v]> (ba_mem s)).

(** [k_memset(phys_to_virt(p), 0, PAGE_SIZE)] *)
Definition zero_page (s : St) (p : Z) : St := ba_set_mem s (zero_words (ba_mem s) p 512).

(** One level of [pt_walk_alloc]: the physical address of the next table. *)
Definition pt_level (s : St) (table idx : Z) : option (option Z * St) :=
  e ← ba_mem s !! (table + 8 * idx);
  if Z.land e PTE_PRESENT =? 0 then
    '(p, s1) ← ba_alloc s 0;
    if p =? 0 then Some (None, s1)
    else
      let s2 := zero_page s1 p in
      let s3 := wr s2 (table + 8 * idx) (Z.lor (Z.lor (Z.lor p PTE_PRESENT) PTE_WRITE) PTE_USER) in
      e' ← ba_mem s3 !! (table + 8 * idx);
      Some (Some (Z.land e' PTE_ADDR_MASK), s3)
  else Some (Some (Z.land e PTE_ADDR_MASK), s).

(** The physical address of the leaf entry, or null when out of memory. *)
Definition pt_walk_alloc (s : St) (cr3 va : Z) : option (option Z * St) :=
  '(r1, s1) ← pt_level s (Z.land cr3 PTE_ADDR_MASK) (PML4_IDX va);
  match r1 with
  | None => Some (None, s1)
  | Some pdpt =>
      '(r2, s2) ← pt_level s1 pdpt (PDPT_IDX va);
      match r2 with
      | None => Some (None, s2)
      | Some pd =>
          '(r3, s3) ← pt_level s2 pd (PD_IDX va);
          match r3 with
          | None => Some (None, s3)
          | Some pt => Some (Some (pt + 8 * PT_IDX va), s3)
          end
      end
  end.

Definition pte_flags (prot : Z) : Z :=
  let flags := Z.lor PTE_PRESENT PTE_USER in
  let flags := if Z.land prot PROT_WRITE =? 0 then flags else Z.lor flags PTE_WRITE in
  if Z.land prot PROT_EXEC =? 0 then Z.lor flags PTE_NX else flags.

Definition map_page (s : St) (cr3 va pa prot : Z) : option St :=
  '(pte, s1) ← pt_walk_alloc s cr3 va;
  match pte with
  | None => Some s1
  | Some a => Some (wr s1 a (Z.lor (Z.land pa PTE_ADDR_MASK) (pte_flags prot)))
  end.

(** One level of [amm_virt_to_kva]. *)
Definition kva_level (s : St) (table idx : Z) : option (option Z) :=
  e ← ba_mem s !! (table + 8 * idx);
  if Z.land e PTE_PRESENT =? 0 then Some None else Some (Some (Z.land e PTE_ADDR_MASK)).

(** The walk of [amm_virt_to_kva] and of [amm_vmap_destroy]: the address in the
    leaf entry, or nothing when an entry on the way is not present. *)
Definition kva_walk (s : St) (pml4 va : Z) : option (option Z) :=
  r1 ← kva_level s pml4 (PML4_IDX va);
  match r1 with
  | None => Some None
  | Some pdpt =>
      r2 ← kva_level s pdpt (PDPT_IDX va);
      match r2 with
      | None => Some None
      | Some pd =>
          r3 ← kva_level s pd (PD_IDX va);
          match r3 with
          | None => Some None
          | Some pt => kva_level s pt (PT_IDX va)
          end
      end
  end.

(** The physical address behind the kernel pointer that is returned. *)
Definition amm_virt_to_kva (s : St) (map : option vmap_t) (va : Z) : option (option Z) :=
  match map with
  | None => Some None
  | Some m =>
      r ← kva_walk s (Z.land (vm_cr3 m) PTE_ADDR_MASK) va;
      Some (p ← r; Some (Z.lor p (Z.land va (PAGE_SIZE - 1))))
  end.

Definition amm_page_fault (s : St) (p : rpool) (m : vmap_t) (fault_addr : Z) (write : bool)
    : option (Z * St) :=
  r ← amm_region_find p m fault_addr;
  match r with
  | None => Some (-1, s)
  | Some i =>
      r ← rp_regions p !! i;
      if write && (Z.land (vr_prot r) PROT_WRITE =? 0) then Some (-1, s)
      else
        '(pa, s1) ← ba_alloc s 0;
        if pa =? 0 then Some (-1, s1)
        else
          s2 ← map_page (zero_page s1 pa) (vm_cr3 m)
                 (Z.land fault_addr (u64 (Z.lnot (PAGE_SIZE - 1)))) pa (vr_prot r);
          Some (0, s2)
  end.

(** The loop of [amm_region_populate]; [false] is the early return of NULL. *)
Fixpoint populate_loop (fuel : nat) (s : St) (m : vmap_t) (va aligned_end prot : Z) : option (bool * St) :=
  if va <? aligned_end then
    match fuel with
    | O => None
    | S fuel' =>
        k ← amm_virt_to_kva s (Some m) va;
        match k with
        | Some _ => populate_loop fuel' s m (u64 (va + PAGE_SIZE)) aligned_end prot
        | None =>
            '(pa, s1) ← ba_alloc s 0;
            if pa =? 0 then Some (false, s1)
            else
              s2 ← map_page (zero_page s1 pa) (vm_cr3 m) va pa prot;
              populate_loop fuel' s2 m (u64 (va + PAGE_SIZE)) aligned_end prot
        end
    end
  else Some (true, s).

Definition amm_region_populate (s : St) (map : option vmap_t) (base size prot : Z)
    : option (option Z * St) :=
  match map with
  | None => Some (None, s)
  | Some m =>
      if size =? 0 then Some (None, s)
      else
        let aligned_base := Z.land base (u64 (Z.lnot (PAGE_SIZE - 1))) in
        let aligned_end := PAGE_ALIGN (u64 (base + size)) in
        if aligned_end <=? aligned_base then Some (None, s)
        else
          '(ok, s1) ← populate_loop (Z.to_nat ((aligned_end - aligned_base) / PAGE_SIZE)) s m
                        aligned_base aligned_end prot;
          if (ok : bool) then k ← amm_virt_to_kva s1 map base; Some (k, s1) else Some (None, s1)
  end.
End PageTable.
