(* ===== verification/PageTableSpec.v ===== *)
(** * Correctness of the page tables

    [pt_inv] describes the tables below a root as a tree: a map from the indices
    that lead to a table to its frame, no frame used twice, every frame owned.  The
    theorems say that mapping a page changes the translation of that page and of no
    other, and that the kernel's own translation, page faults and eager population
    agree with it. *)

From Stdlib Require Import ZArith Lia.
From stdpp Require Import base gmap functions list.
From S2P Require Import Prelude Phys PhysSpec PhysIface VRegion PageTable.

Local Open Scope Z_scope.

(** ** Indices *)

Definition path (va : Z) : list Z := [PML4_IDX va; PDPT_IDX va; PD_IDX va].

(** The number of the page of [va] in the 48-bit address space. *)
Definition vpage (va : Z) : Z := va / 2 ^ 12 mod 2 ^ 36.

Definition idx_ok (i : Z) : Prop := 0 <= i < 512.

Lemma idx_land v k : 0 <= k -> Z.land (Z.shiftr v k) 0x1FF = v / 2 ^ k mod 2 ^ 9.
Proof. intros Hk. rewrite Z.shiftr_div_pow2 by done. by apply (Z.land_ones _ 9). Qed.

Lemma idx_range v k : 0 <= k -> idx_ok (Z.land (Z.shiftr v k) 0x1FF).
Proof. intros Hk. rewrite idx_land by done. apply Z.mod_pos_bound. lia. Qed.

Lemma path_ok va : Forall idx_ok (path va).
Proof. repeat constructor; by apply idx_range. Qed.

Lemma pt_idx_ok va : idx_ok (PT_IDX va).
Proof. by apply idx_range. Qed.

Lemma vpage_split va :
  vpage va = PML4_IDX va * 2 ^ 27 + PDPT_IDX va * 2 ^ 18 + PD_IDX va * 2 ^ 9 + PT_IDX va.
Proof.
  unfold vpage, PML4_IDX, PDPT_IDX, PD_IDX, PT_IDX. rewrite !idx_land by lia.
  change (2 ^ 39) with (2 ^ 12 * 2 ^ 27). change (2 ^ 30) with (2 ^ 12 * 2 ^ 18).
  change (2 ^ 21) with (2 ^ 12 * 2 ^ 9). rewrite <- !Z.div_div by lia.
  generalize (va / 2 ^ 12). intros x.
  change (2 ^ 36) with (2 ^ 9 * (2 ^ 9 * (2 ^ 9 * 2 ^ 9))).
  rewrite !Z.rem_mul_r by lia. rewrite !Z.div_div by lia.
  change (2 ^ 9 * 2 ^ 9) with (2 ^ 18). change (2 ^ 18 * 2 ^ 9) with (2 ^ 27). lia.
Qed.

(** Two addresses with the same indices are in the same page. *)
Lemma same_vpage va va' : vpage va = vpage va' <-> path va = path va' /\ PT_IDX va = PT_IDX va'.
Proof.
  rewrite !vpage_split. unfold path. split.
  - pose proof (path_ok va) as H1. pose proof (path_ok va') as H2. pose proof (pt_idx_ok va). pose proof (pt_idx_ok va').
    unfold path in *. repeat match goal with H : Forall _ (_ :: _) |- _ => apply Forall_cons in H as [? ?] end.
    unfold idx_ok in *. intros Heq. split; [f_equal; [lia|f_equal; [lia|f_equal; lia]]|lia].
  - intros [[= -> -> ->] ->]. done.
Qed.

Lemma page_base_vpage addr :
  vpage (addr / PAGE_SIZE * PAGE_SIZE) = vpage addr /\ PML4_IDX (addr / PAGE_SIZE * PAGE_SIZE) = PML4_IDX addr.
Proof.
  change PAGE_SIZE with (2 ^ 12). split; [unfold vpage; by rewrite Z.div_mul|].
  unfold PML4_IDX. rewrite !Z.shiftr_div_pow2 by lia.
  change (2 ^ 39) with (2 ^ 12 * 2 ^ 27). by rewrite <- !Z.div_div, Z.div_mul by lia.
Qed.

(** ** Entries *)

Lemma table_entry f : 0 <= f < PFN_LIMIT ->
  let e := Z.lor (Z.lor (Z.lor (f * PAGE_SIZE) PTE_PRESENT) PTE_WRITE) PTE_USER in
  Z.land e PTE_PRESENT <> 0 /\ Z.land e PTE_ADDR_MASK = f * PAGE_SIZE.
Proof.
  intros Hf e. assert (e = Z.lor (Z.shiftl f 12) 7) as ->.
  { unfold e. rewrite <- !Z.lor_assoc. rewrite Z.shiftl_mul_pow2 by lia. done. }
  split.
  - rewrite Z.land_lor_distr_l. rewrite Z.lor_eq_0_iff. intros [_ H]. done.
  - change PTE_ADDR_MASK with (Z.shiftl (Z.ones 40) 12).
    rewrite Z.land_lor_distr_l, <- Z.shiftl_land. change (Z.land 7 (Z.shiftl (Z.ones 40) 12)) with 0.
    rewrite Z.lor_0_r, Z.land_ones, Z.mod_small by (unfold PFN_LIMIT in Hf; lia).
    rewrite Z.shiftl_mul_pow2 by lia. done.
Qed.

Lemma frame_mask f : 0 <= f < PFN_LIMIT -> Z.land (f * PAGE_SIZE) PTE_ADDR_MASK = f * PAGE_SIZE.
Proof.
  intros Hf. change PTE_ADDR_MASK with (Z.shiftl (Z.ones 40) 12). change PAGE_SIZE with (2 ^ 12).
  rewrite <- Z.shiftl_mul_pow2, <- Z.shiftl_land, Z.land_ones, Z.mod_small by (unfold PFN_LIMIT in Hf; lia). done.
Qed.

Lemma word_frame f i : idx_ok i -> (f * PAGE_SIZE + 8 * i) / PAGE_SIZE = f.
Proof.
  intros Hi. unfold idx_ok, PAGE_SIZE in *. rewrite Z.div_add_l by lia. rewrite Z.div_small by lia. lia.
Qed.

Lemma word_inj f i g j : idx_ok i -> idx_ok j ->
  f * PAGE_SIZE + 8 * i = g * PAGE_SIZE + 8 * j -> f = g /\ i = j.
Proof.
  intros Hi Hj Heq. assert (f = g) as <- by (rewrite <- (word_frame f i Hi), <- (word_frame g j Hj); congruence).
  split; [done|lia].
Qed.


(** ** The tree of tables *)

Lemma owned_page_mono (O O' : owned) q : O ⊆ O' -> owned_page O q -> owned_page O' q.
Proof. intros Hs (p & k & Hp & Hq). exists p, k. split; [by eapply lookup_weaken|done]. Qed.

Section Tree.
Context `{BlockAllocLaws St}.
(** The entries of the root that this tree manages. *)
Context (D : Z -> bool).

Abbreviation tree := (gmap (list Z) Z).

Definition entry_at (s : St) (f i : Z) : option Z := ba_mem s !! (f * PAGE_SIZE + 8 * i).

Definition managed (π : list Z) (i : Z) : Prop := π = [] -> D i = true.

(** What the entry at index [i] below [π] says of the table there. *)
Definition child_ok (T : tree) (π : list Z) (i e : Z) : Prop :=
  match T !! (π ++ [i]) with
  | Some f => Z.land e PTE_PRESENT <> 0 /\ Z.land e PTE_ADDR_MASK = f * PAGE_SIZE
  | None => Z.land e PTE_PRESENT = 0
  end.

Record pt_inv (s : St) (O : owned) (root : Z) (T : tree) : Prop := {
  pt_owns : ba_owns s O;
  pt_root : T !! [] = Some root;
  pt_frame : forall π f, T !! π = Some f -> O !! f = Some 0%nat;
  pt_inj : forall π π' f, T !! π = Some f -> T !! π' = Some f -> π = π';
  pt_prefix : forall π i f, T !! (π ++ [i]) = Some f -> is_Some (T !! π);
  pt_depth : forall π f, T !! π = Some f -> (length π <= 3)%nat;
  pt_words : forall π f i, T !! π = Some f -> idx_ok i -> is_Some (entry_at s f i);
  pt_child : forall π f i e, T !! π = Some f -> (length π < 3)%nat -> idx_ok i -> managed π i ->
    entry_at s f i = Some e -> child_ok T π i e;
}.

(** The leaf entry of an address, when the walk reaches it. *)
Definition leaf (s : St) (T : tree) (va : Z) : option Z :=
  f ← T !! path va; entry_at s f (PT_IDX va).

(** The entry that translates [va], if it is present. *)
Definition xlate (s : St) (T : tree) (va : Z) : option Z :=
  e ← leaf s T va; if Z.land e PTE_PRESENT =? 0 then None else Some e.

(** Frame [q] holds a table of [T]. *)
Definition table_frame (T : tree) (q : Z) : Prop := exists π, T !! π = Some q.

(** The tree grew by empty tables; every translation, and all owned memory that is
    not a table, is as before. *)
Record grown (s : St) (O : owned) (T : tree) (s' : St) (O' : owned) (T' : tree) : Prop := {
  gr_T : T ⊆ T';
  gr_O : O ⊆ O';
  gr_new : forall f, table_frame T' f -> table_frame T f \/ ~ owned_page O f;
  gr_leaf : forall π f i, T !! π = Some f -> length π = 3%nat -> idx_ok i ->
    entry_at s' f i = entry_at s f i;
  gr_zero : forall π f i, T' !! π = Some f -> T !! π = None -> length π = 3%nat -> idx_ok i ->
    entry_at s' f i = Some 0;
  gr_mem : forall a, owned_page O (a / PAGE_SIZE) -> ~ table_frame T (a / PAGE_SIZE) ->
    ba_mem s' !! a = ba_mem s !! a;
}.

Lemma grown_refl s O T : grown s O T s O T.
Proof. split; try done; [by left|]. intros π f i H1 H2. congruence. Qed.

Lemma frame_owned s O root T π f i : pt_inv s O root T -> T !! π = Some f -> idx_ok i ->
  owned_page O ((f * PAGE_SIZE + 8 * i) / PAGE_SIZE).
Proof. intros I Hf Hi. rewrite word_frame by done. eapply owned_head. by eapply pt_frame. Qed.

Lemma frame_range s O root T π f : pt_inv s O root T -> T !! π = Some f -> 0 <= f < PFN_LIMIT.
Proof.
  intros I Hf. destruct (ba_frame s O f 0) as (? & ? & _); [apply I|by eapply pt_frame|]. simpl in *. lia.
Qed.

Lemma grown_trans s1 O1 T1 s2 O2 T2 s3 O3 T3 root :
  pt_inv s1 O1 root T1 -> grown s1 O1 T1 s2 O2 T2 -> grown s2 O2 T2 s3 O3 T3 -> grown s1 O1 T1 s3 O3 T3.
Proof.
  intros I1 G1 G2. split.
  - etransitivity; [apply G1|apply G2].
  - etransitivity; [apply G1|apply G2].
  - intros f Hf. destruct (gr_new _ _ _ _ _ _ G2 f Hf) as [Hf'|Hno]; [by apply (gr_new _ _ _ _ _ _ G1)|].
    right. intros Ho. apply Hno. by eapply owned_page_mono; [apply G1|].
  - intros π f i Hf Hd Hi. rewrite (gr_leaf _ _ _ _ _ _ G2 π), (gr_leaf _ _ _ _ _ _ G1 π); try done.
    eapply lookup_weaken; [done|apply G1].
  - intros π f i Hf Hno Hd Hi. destruct (T2 !! π) as [f2|] eqn:E2.
    + assert (f2 = f) as ->. { eapply lookup_weaken in E2; [|apply G2]. congruence. }
      rewrite (gr_leaf _ _ _ _ _ _ G2 π) by done. by eapply gr_zero.
    + by eapply gr_zero.
  - intros a Ha Hn. rewrite (gr_mem _ _ _ _ _ _ G2), (gr_mem _ _ _ _ _ _ G1); try done.
    + by eapply owned_page_mono; [apply G1|].
    + intros Ht. by destruct (gr_new _ _ _ _ _ _ G1 _ Ht).
Qed.

(** A change of memory that is not owned does not matter. *)
Lemma pt_inv_same s O root T s' :
  pt_inv s O root T -> ba_owns s' O -> same_on O s s' ->
  pt_inv s' O root T /\ grown s O T s' O T.
Proof.
  intros I Ho Hs.
  assert (forall π f i, T !! π = Some f -> idx_ok i -> entry_at s' f i = entry_at s f i) as He.
  { intros π f i Hf Hi. apply Hs. by eapply frame_owned. }
  split.
  - split; try apply I; [done|..].
    + intros π f i Hf Hi. rewrite (He π) by done. by eapply pt_words.
    + intros π f i e Hf Hd Hi Hm. rewrite (He π) by done. by eapply pt_child.
  - split; try done; [by left| | |].
    + intros π f i Hf Hd Hi. by apply (He π).
    + intros π f i H1 H2. congruence.
    + intros a Ha _. by apply Hs.
Qed.

(** Memory after a fresh table was cleared and hooked into entry [i] of [f]. *)
Lemma hook_entries s (O : owned) p f i e : idx_ok i -> f <> p ->
  let s' := wr (zero_page s (p * PAGE_SIZE)) (f * PAGE_SIZE + 8 * i) e in
  entry_at s' f i = Some e /\
  (forall j, idx_ok j -> entry_at s' p j = Some 0) /\
  (forall a, a / PAGE_SIZE <> p -> a <> f * PAGE_SIZE + 8 * i -> ba_mem s' !! a = ba_mem s !! a).
Proof.
  intros Hi Hne s'. unfold s', entry_at, wr, zero_page. rewrite !ba_mem_set. split; [by rewrite lookup_insert_eq|]. split.
  - intros j Hj. rewrite lookup_insert_ne by (intros E; apply word_inj in E as [? _]; done).
    replace j with (Z.of_nat (Z.to_nat j)) by (unfold idx_ok in Hj; lia). apply zero_words_in. unfold idx_ok in Hj. lia.
  - intros a Ha Hne'. rewrite lookup_insert_ne by done. apply zero_words_out. intros k Hk ->. apply Ha.
    apply word_frame. unfold idx_ok. lia.
Qed.

Lemma hook_owns s O p f i e : idx_ok i -> ba_owns s O -> owned_page O p -> owned_page O f ->
  ba_owns (wr (zero_page s (p * PAGE_SIZE)) (f * PAGE_SIZE + 8 * i) e) O.
Proof. intros Hi Ho Hp Hf. apply ba_write; [by apply ba_zero|]. by rewrite word_frame. Qed.

(** Hooking a fresh, cleared table into an empty entry. *)
Lemma hook_ok s O root T π f i s1 p :
  pt_inv s O root T -> T !! π = Some f -> (length π < 3)%nat -> idx_ok i -> T !! (π ++ [i]) = None ->
  0 < p -> (forall q, in_block p 0 q -> ~ owned_page O q) -> ba_owns s1 (<[p := 0%nat]> O) -> same_on O s s1 ->
  let e := Z.lor (Z.lor (Z.lor (p * PAGE_SIZE) PTE_PRESENT) PTE_WRITE) PTE_USER in
  let s' := wr (zero_page s1 (p * PAGE_SIZE)) (f * PAGE_SIZE + 8 * i) e in
  pt_inv s' (<[p := 0%nat]> O) root (<[π ++ [i] := p]> T) /\
  grown s O T s' (<[p := 0%nat]> O) (<[π ++ [i] := p]> T) /\
  entry_at s' f i = Some e /\ Z.land e PTE_ADDR_MASK = p * PAGE_SIZE.
Proof.
  intros I Hf Hd Hi Hno Hp0 Hfresh Ho Hs e s'. set (O' := <[p := 0%nat]> O) in *.
  pose proof (fresh_block O p 0 Hfresh) as HpO. pose proof (pt_frame _ _ _ _ I) as Hfr.
  assert (forall π' g, T !! π' = Some g -> g <> p) as Hnp by (intros π' g Hg ->; apply Hfr in Hg; congruence).
  assert (owned_page O' p) as HpO' by (eapply owned_head; unfold O'; apply lookup_insert_eq).
  assert (O ⊆ O') as Hsub by by apply insert_subseteq.
  destruct (hook_entries s1 O' p f i e Hi (Hnp _ _ Hf)) as (He & Hz & Hmem). fold s' in He, Hz, Hmem.
  destruct (ba_frame s1 O' p 0 Ho (lookup_insert_eq _ _ _)) as (_ & Hlim & _). simpl in Hlim.
  destruct (table_entry p) as [Hpres Hmask]; [lia|].
  assert (forall π' g j, T !! π' = Some g -> idx_ok j -> (g, j) <> (f, i) -> entry_at s' g j = entry_at s g j) as Hsame.
  { intros π' g j Hg Hj Hne. unfold entry_at. rewrite Hmem.
    - apply Hs. by eapply frame_owned.
    - rewrite word_frame by done. by eapply Hnp.
    - intros E. apply word_inj in E as [-> ->]; done. }
  split; [|split; [|done]].
  - split.
    + apply hook_owns; [done..|]. eapply owned_page_mono; [exact Hsub|]. eapply owned_head. by eapply Hfr.
    + rewrite lookup_insert_ne; [apply I|]. by destruct π.
    + intros π' g [[<- <-]|[_ Hg]]%lookup_insert_Some; [apply lookup_insert_eq|].
      eapply lookup_weaken; [by eapply Hfr|done].
    + intros π1 π2 g [[<- <-]|[_ H1]]%lookup_insert_Some [[<- ?]|[_ H2]]%lookup_insert_Some; try done;
        [by apply Hnp in H2|subst; by apply Hnp in H1|by eapply pt_inj].
    + intros π' j g Hg. destruct (decide (π' = π ++ [i])) as [->|Hne]; [rewrite lookup_insert_eq; by eexists|].
      rewrite lookup_insert_ne by done. apply lookup_insert_Some in Hg as [[E _]|[_ Hg]]; [|by eapply pt_prefix].
      apply app_inj_tail in E as [<- _]. by eexists.
    + intros π' g [[<- _]|[_ Hg]]%lookup_insert_Some; [rewrite length_app; simpl; lia|by eapply pt_depth].
    + intros π' g j [[_ <-]|[_ Hg]]%lookup_insert_Some Hj; [rewrite Hz by done; by eexists|].
      destruct (decide ((g, j) = (f, i))) as [[= -> ->]|Hne]; [by eexists|].
      rewrite (Hsame π') by done. by eapply pt_words.
    + intros π' g j e' Hg Hd' Hj Hm' He'. unfold child_ok. apply lookup_insert_Some in Hg as [[<- <-]|[Hπ Hg]].
      * rewrite Hz in He' by done. injection He' as <-. rewrite lookup_insert_ne.
        2: { intros E%(f_equal length). rewrite !length_app in E. simpl in E. lia. }
        destruct (T !! ((π ++ [i]) ++ [j])) eqn:Hc; [|done]. apply (pt_prefix _ _ _ _ I) in Hc as [? ?]. congruence.
      * destruct (decide ((g, j) = (f, i))) as [[= -> ->]|Hne].
        -- assert (π' = π) as -> by by eapply pt_inj. rewrite lookup_insert_eq. rewrite He in He'. by injection He' as <-.
        -- rewrite (Hsame π') in He' by done. rewrite lookup_insert_ne; [by eapply pt_child|].
           intros E. apply app_inj_tail in E as [-> ->]. congruence.
  - split.
    + by apply insert_subseteq.
    + done.
    + intros g [π' [[_ <-]|[_ Hg]]%lookup_insert_Some]; [right; apply Hfresh; unfold in_block; simpl; lia|left; by exists π'].
    + intros π' g j Hg Hd' Hj. apply (Hsame π'); [done..|]. intros [= -> _].
      assert (π' = π) as -> by by eapply pt_inj. lia.
    + intros π' g j [[_ <-]|[_ Hg]]%lookup_insert_Some Hn _ Hj; [by apply Hz|congruence].
    + intros a Ha Hnt. rewrite Hmem; [by apply Hs| |].
      * intros E. apply (Hfresh p); [unfold in_block; simpl; lia|by rewrite <- E].
      * intros ->. apply Hnt. rewrite word_frame by done. by exists π.
Qed.

(** Below a missing table there is none. *)
Lemma pt_missing s O root T π i : pt_inv s O root T -> T !! π = None -> T !! (π ++ [i]) = None.
Proof.
  intros I Hno. destruct (T !! (π ++ [i])) eqn:E; [|done]. apply (pt_prefix _ _ _ _ I) in E as [? ?]. congruence.
Qed.

Lemma pt_level_ok s O root T π f i :
  pt_inv s O root T -> T !! π = Some f -> (length π < 3)%nat -> idx_ok i -> managed π i ->
  (exists s', pt_level s (f * PAGE_SIZE) i = Some (None, s') /\ pt_inv s' O root T /\ grown s O T s' O T /\
     T !! (π ++ [i]) = None) \/
  (exists s' O' T' f', pt_level s (f * PAGE_SIZE) i = Some (Some (f' * PAGE_SIZE), s') /\
     pt_inv s' O' root T' /\ grown s O T s' O' T' /\ T' !! (π ++ [i]) = Some f').
Proof.
  intros I Hf Hd Hi Hm. destruct (pt_words _ _ _ _ I π f i Hf Hi) as [e He].
  pose proof (pt_child _ _ _ _ I π f i e Hf Hd Hi Hm He) as Hc. unfold child_ok in Hc.
  unfold pt_level. unfold entry_at in He. rewrite He. cbn [mbind option_bind].
  destruct (T !! (π ++ [i])) as [f'|] eqn:Hno.
  - destruct Hc as [Hp Hmask]. apply Z.eqb_neq in Hp. rewrite Hp, Hmask. right.
    exists s, O, T, f'. repeat split; try apply grown_refl; try apply I; done.
  - rewrite Hc. cbn [Z.eqb].
    destruct (ba_alloc_law s O 0 (pt_owns _ _ _ _ I)) as [(s1 & -> & Ho & Hs)|(p & s1 & -> & Hp0 & Hfresh & Ho & Hs)];
      cbn [mbind option_bind].
    + left. exists s1. split; [done|]. destruct (pt_inv_same s O root T s1 I Ho Hs). done.
    + right. destruct (Z.eqb_spec (p * PAGE_SIZE) 0) as [E|_]; [unfold PAGE_SIZE in E; lia|].
      destruct (hook_ok s O root T π f i s1 p I Hf Hd Hi Hno Hp0 Hfresh Ho Hs) as (I' & G & He' & Hmask).
      unfold entry_at in He'. rewrite He'. cbn [mbind option_bind]. rewrite Hmask.
      eexists _, _, _, p. split; [done|]. split; [exact I'|]. split; [exact G|]. by rewrite lookup_insert_eq.
Qed.

Lemma pt_walk_alloc_ok s O root T va :
  pt_inv s O root T -> D (PML4_IDX va) = true ->
  exists s' O' T' r, pt_walk_alloc s (root * PAGE_SIZE) va = Some (r, s') /\
    pt_inv s' O' root T' /\ grown s O T s' O' T' /\
    match r with
    | None => T' !! path va = None
    | Some a => exists f, T' !! path va = Some f /\ a = f * PAGE_SIZE + 8 * PT_IDX va
    end.
Proof.
  intros I HD. unfold pt_walk_alloc. rewrite frame_mask by (eapply frame_range; [done|apply I]).
  pose proof (path_ok va) as Hok. unfold path in Hok. rewrite !Forall_cons in Hok. destruct Hok as (H1 & H2 & H3 & _).
  destruct (pt_level_ok s O root T [] root (PML4_IDX va) I (pt_root _ _ _ _ I)) as
    [(s1 & -> & I1 & G1 & Hn)|(s1 & O1 & T1 & f1 & -> & I1 & G1 & Hf1)]; [simpl; lia|exact H1|by intros _|..]; cbn [mbind option_bind].
  { exists s1, O, T, None. do 3 (split; [done|]).
    by apply (pt_missing _ _ _ _ [PML4_IDX va; PDPT_IDX va] _ I1), (pt_missing _ _ _ _ [PML4_IDX va] _ I1). }
  destruct (pt_level_ok s1 O1 root T1 [PML4_IDX va] f1 (PDPT_IDX va) I1 Hf1) as
    [(s2 & -> & I2 & G2 & Hn)|(s2 & O2 & T2 & f2 & -> & I2 & G2 & Hf2)]; [simpl; lia|done|done|..]; cbn [mbind option_bind];
    pose proof (grown_trans _ _ _ _ _ _ _ _ _ _ I G1 G2) as G12.
  { exists s2, O1, T1, None. do 3 (split; [done|]). by apply (pt_missing _ _ _ _ [PML4_IDX va; PDPT_IDX va] _ I2). }
  destruct (pt_level_ok s2 O2 root T2 [PML4_IDX va; PDPT_IDX va] f2 (PD_IDX va) I2 Hf2) as
    [(s3 & -> & I3 & G3 & Hn)|(s3 & O3 & T3 & f3 & -> & I3 & G3 & Hf3)]; [simpl; lia|done|done|..]; cbn [mbind option_bind];
    pose proof (grown_trans _ _ _ _ _ _ _ _ _ _ I G12 G3) as G123.
  { by exists s3, O2, T2, None. }
  eexists s3, O3, T3, _. do 3 (split; [done|]). by exists f3.
Qed.

(** Growing the tree does not change any translation. *)
Lemma grown_xlate s O T s' O' T' va : grown s O T s' O' T' -> xlate s' T' va = xlate s T va.
Proof.
  intros G. unfold xlate, leaf. destruct (T !! path va) as [f|] eqn:E.
  - rewrite (lookup_weaken T T' _ _ E (gr_T _ _ _ _ _ _ G)). cbn [mbind option_bind].
    rewrite (gr_leaf _ _ _ _ _ _ G (path va)); [done|done|done|apply pt_idx_ok].
  - destruct (T' !! path va) as [f|] eqn:E'; [|done]. cbn [mbind option_bind].
    rewrite (gr_zero _ _ _ _ _ _ G (path va)); [done|done|done|done|apply pt_idx_ok].
Qed.

(** Writing a leaf entry changes the translation of its page only. *)
Lemma leaf_write_ok s O root T va f e :
  pt_inv s O root T -> T !! path va = Some f ->
  let s' := wr s (f * PAGE_SIZE + 8 * PT_IDX va) e in
  pt_inv s' O root T /\
  (forall va', xlate s' T va' =
     if vpage va' =? vpage va then (if Z.land e PTE_PRESENT =? 0 then None else Some e) else xlate s T va') /\
  (forall a, ~ table_frame T (a / PAGE_SIZE) -> ba_mem s' !! a = ba_mem s !! a).
Proof.
  intros I Hf s'. pose proof (pt_idx_ok va) as Hi.
  assert (forall g j, idx_ok j -> entry_at s' g j = if decide ((g, j) = (f, PT_IDX va)) then Some e else entry_at s g j) as Hent.
  { intros g j Hj. unfold s', entry_at, wr. rewrite ba_mem_set, lookup_insert.
    destruct (decide ((g, j) = (f, PT_IDX va))) as [[= -> ->]|Hne]; case_decide as E; try done.
    apply word_inj in E as [E1 E2]; [|done..]. congruence. }
  split; [|split].
  - split; try apply I.
    + apply ba_write; [apply I|]. by eapply frame_owned.
    + intros π g j Hg Hj. rewrite Hent by done. case_decide; [by eexists|by eapply pt_words].
    + intros π g j e' Hg Hd Hj Hm. rewrite Hent by done. case_decide as E; [|by eapply pt_child].
      injection E as -> ->. assert (π = path va) as -> by by eapply pt_inj. simpl in Hd. lia.
  - intros va'. unfold xlate, leaf. pose proof (same_vpage va' va) as Hv.
    destruct (Z.eqb_spec (vpage va') (vpage va)) as [Heq|Hne].
    + apply Hv in Heq as [-> ->]. rewrite Hf. cbn [mbind option_bind]. rewrite Hent by done.
      by rewrite decide_True by done.
    + destruct (T !! path va') as [g|] eqn:Hg; [|done]. cbn [mbind option_bind].
      rewrite Hent by apply pt_idx_ok. rewrite decide_False; [done|]. intros [= -> E].
      apply Hne, Hv. split; [by eapply pt_inj|done].
  - intros a Ha. unfold s', wr. rewrite ba_mem_set, lookup_insert_ne; [done|]. intros <-. apply Ha.
    rewrite word_frame by done. by exists (path va).
Qed.

Lemma pte_present pa prot : Z.land (Z.lor (Z.land pa PTE_ADDR_MASK) (pte_flags prot)) PTE_PRESENT <> 0.
Proof.
  rewrite Z.land_lor_distr_l, Z.lor_eq_0_iff. intros [_ Hz]. revert Hz. unfold pte_flags.
  destruct (Z.land prot PROT_WRITE =? 0), (Z.land prot PROT_EXEC =? 0); done.
Qed.

(** Owned memory that is not a table. *)
Definition data_same (O : owned) (T : tree) (s s' : St) : Prop :=
  forall a, owned_page O (a / PAGE_SIZE) -> ~ table_frame T (a / PAGE_SIZE) -> ba_mem s' !! a = ba_mem s !! a.

(** [map_page] in full. *)
Lemma map_page_spec s O root T va pa prot :
  pt_inv s O root T -> D (PML4_IDX va) = true ->
  exists s' O' T', map_page s (root * PAGE_SIZE) va pa prot = Some s' /\
    pt_inv s' O' root T' /\ O ⊆ O' /\ T ⊆ T' /\
    (forall f, table_frame T' f -> table_frame T f \/ ~ owned_page O f) /\ data_same O T s s' /\
    ((forall va', xlate s' T' va' = xlate s T va') \/
     (forall va', xlate s' T' va' =
        if vpage va' =? vpage va then Some (Z.lor (Z.land pa PTE_ADDR_MASK) (pte_flags prot))
        else xlate s T va')).
Proof.
  intros I HD. destruct (pt_walk_alloc_ok s O root T va I HD) as (s1 & O1 & T1 & r & E & I1 & G & Hr).
  unfold map_page. rewrite E. cbn [mbind option_bind]. destruct r as [a|].
  - destruct Hr as (f & Hf & ->).
    destruct (leaf_write_ok s1 O1 root T1 va f (Z.lor (Z.land pa PTE_ADDR_MASK) (pte_flags prot)) I1 Hf) as (I2 & Hx & Hm).
    pose proof (pte_present pa prot) as Hp%Z.eqb_neq. rewrite Hp in Hx.
    eexists _, O1, T1. split; [done|]. split; [exact I2|]. do 3 (split; [apply G|]). split.
    + intros a Ha Hn. rewrite Hm; [by apply G|]. intros Ht. by destruct (gr_new _ _ _ _ _ _ G _ Ht).
    + right. intros va'. rewrite Hx. by rewrite (grown_xlate _ _ _ _ _ _ va' G).
  - exists s1, O1, T1. do 2 (split; [done|]). do 3 (split; [apply G|]). split; [exact (gr_mem _ _ _ _ _ _ G)|].
    left. intros va'. by eapply grown_xlate.
Qed.

(** One level of the kernel's walk. *)
Lemma kva_level_ok s O root T π f i :
  pt_inv s O root T -> T !! π = Some f -> (length π < 3)%nat -> idx_ok i -> managed π i ->
  kva_level s (f * PAGE_SIZE) i = Some (f' ← T !! (π ++ [i]); Some (f' * PAGE_SIZE)).
Proof.
  intros I Hf Hd Hi Hm. destruct (pt_words _ _ _ _ I π f i Hf Hi) as [e He].
  pose proof (pt_child _ _ _ _ I π f i e Hf Hd Hi Hm He) as Hc. unfold child_ok in Hc.
  unfold kva_level. unfold entry_at in He. rewrite He. cbn [mbind option_bind].
  destruct (T !! (π ++ [i])) as [f'|].
  - destruct Hc as [Hp Hmask]. apply Z.eqb_neq in Hp. by rewrite Hp, Hmask.
  - by rewrite Hc.
Qed.

(** The kernel's walk computes the translation. *)
Lemma kva_walk_spec s O root T va :
  pt_inv s O root T -> D (PML4_IDX va) = true ->
  kva_walk s (root * PAGE_SIZE) va = Some (e ← xlate s T va; Some (Z.land e PTE_ADDR_MASK)).
Proof.
  intros I HD. unfold kva_walk, xlate, leaf.
  pose proof (path_ok va) as Hok. unfold path in *. rewrite !Forall_cons in Hok. destruct Hok as (H1 & H2 & H3 & _).
  assert (forall π i, T !! π = None -> T !! (π ++ [i]) = None) as Hpre.
  { intros π i Hn. destruct (T !! (π ++ [i])) eqn:E; [|done]. apply (pt_prefix _ _ _ _ I) in E as [? ?]. congruence. }
  rewrite (kva_level_ok s O root T [] root _ I (pt_root _ _ _ _ I)) by first [by intros _|done|simpl; lia]. cbn [mbind option_bind app].
  destruct (T !! [PML4_IDX va]) as [f1|] eqn:E1; cbn [mbind option_bind].
  2: { apply (Hpre _ (PDPT_IDX va)) in E1. apply (Hpre _ (PD_IDX va)) in E1. simpl in E1. by rewrite E1. }
  rewrite (kva_level_ok s O root T _ f1 _ I E1) by first [by intros ?|done|simpl; lia]. cbn [mbind option_bind app].
  destruct (T !! [PML4_IDX va; PDPT_IDX va]) as [f2|] eqn:E2; cbn [mbind option_bind].
  2: { apply (Hpre _ (PD_IDX va)) in E2. simpl in E2. by rewrite E2. }
  rewrite (kva_level_ok s O root T _ f2 _ I E2) by first [by intros ?|done|simpl; lia]. cbn [mbind option_bind app].
  destruct (T !! [PML4_IDX va; PDPT_IDX va; PD_IDX va]) as [f3|] eqn:E3; cbn [mbind option_bind]; [|done].
  destruct (pt_words _ _ _ _ I _ f3 (PT_IDX va) E3 (pt_idx_ok va)) as [e He].
  unfold kva_level, entry_at in *. rewrite He. cbn [mbind option_bind]. by destruct (Z.land e PTE_PRESENT =? 0).
Qed.

Lemma virt_to_kva_spec s O root T m va :
  pt_inv s O root T -> D (PML4_IDX va) = true -> vm_cr3 m = root * PAGE_SIZE ->
  amm_virt_to_kva s (Some m) va =
  Some (e ← xlate s T va; Some (Z.lor (Z.land e PTE_ADDR_MASK) (Z.land va (PAGE_SIZE - 1)))).
Proof.
  intros I HD Hcr3. unfold amm_virt_to_kva. rewrite Hcr3, frame_mask by (eapply frame_range; [done|apply I]).
  rewrite (kva_walk_spec s O root T va I HD). cbn [mbind option_bind]. by destruct (xlate s T va).
Qed.

(** Allocating and clearing a block for data. *)
Lemma new_block_ok s O root T s1 p k :
  pt_inv s O root T -> (forall q, in_block p k q -> ~ owned_page O q) ->
  ba_owns s1 (<[p := k]> O) -> same_on O s s1 ->
  let s2 := ba_set_mem s1 (zero_words (ba_mem s1) (p * PAGE_SIZE) (2 ^ k * 512)) in
  pt_inv s2 (<[p := k]> O) root T /\ (forall va, xlate s2 T va = xlate s T va) /\
  same_on O s s2 /\ (forall q, in_block p k q -> ~ table_frame T q) /\
  (forall q i, in_block p k q -> idx_ok i -> entry_at s2 q i = Some 0).
Proof.
  intros I Hfresh Ho Hs s2. pose proof (fresh_block O p k Hfresh) as HpO.
  assert (O ⊆ <[p := k]> O) as Hsub by by apply insert_subseteq.
  assert (same_on O s s2) as Hs2.
  { intros a Ha. unfold s2. rewrite ba_mem_set, zero_words_out; [by apply Hs|].
    intros j Hj ->. exact (Hfresh _ (block_word p k j Hj) Ha). }
  assert (forall π f i, T !! π = Some f -> idx_ok i -> entry_at s2 f i = entry_at s f i) as He.
  { intros π f i Hf Hi. apply Hs2. by eapply frame_owned. }
  split; [|split; [|split; [done|split]]].
  - split; try apply I.
    + apply (ba_zero_block s1 _ p k); [done|apply lookup_insert_eq].
    + intros π f Hf. eapply lookup_weaken; [by eapply pt_frame|done].
    + intros π f i Hf Hi. rewrite (He π) by done. by eapply pt_words.
    + intros π f i e Hf Hd Hi Hm. rewrite (He π) by done. by eapply pt_child.
  - intros va. unfold xlate, leaf. destruct (T !! path va) as [f|] eqn:E; [|done]. cbn [mbind option_bind].
    rewrite (He (path va)); [done|done|apply pt_idx_ok].
  - intros q Hq [π Hπ]. apply (Hfresh q Hq). eapply owned_head. by eapply pt_frame.
  - intros q i Hq Hi. unfold s2, entry_at. rewrite ba_mem_set. unfold in_block in Hq. rewrite pow2_nat in Hq. unfold idx_ok in Hi.
    replace (q * PAGE_SIZE + 8 * i) with (p * PAGE_SIZE + 8 * Z.of_nat (Z.to_nat ((q - p) * 512 + i))) by (unfold PAGE_SIZE; lia).
    apply zero_words_in. nia.
Qed.

(** Allocating and clearing a page for data. *)
Lemma new_page_ok s O root T s1 p :
  pt_inv s O root T -> 0 < p -> (forall q, in_block p 0 q -> ~ owned_page O q) ->
  ba_owns s1 (<[p := 0%nat]> O) -> same_on O s s1 ->
  let s2 := zero_page s1 (p * PAGE_SIZE) in
  pt_inv s2 (<[p := 0%nat]> O) root T /\ (forall va, xlate s2 T va = xlate s T va) /\
  same_on O s s2 /\ ~ table_frame T p /\ (forall i, idx_ok i -> entry_at s2 p i = Some 0).
Proof.
  intros I Hp0 Hfresh Ho Hs s2. destruct (new_block_ok s O root T s1 p 0 I Hfresh Ho Hs) as (I2 & Hx & Hs2 & Hnt & Hz).
  assert (in_block p 0 p) as Hp by (unfold in_block; simpl; lia).
  do 3 (split; [done|]). split; [by apply Hnt|]. intros i Hi. by apply Hz.
Qed.

(** What every operation on the tables keeps. *)
Record kept (s : St) (O : owned) (T : tree) (s' : St) (O' : owned) (T' : tree) : Prop := {
  kp_O : O ⊆ O';
  kp_new : forall f, table_frame T' f -> table_frame T f \/ ~ owned_page O f;
  kp_data : data_same O T s s';
}.

Lemma kept_refl s O T : kept s O T s O T.
Proof. split; [done|by left|done]. Qed.

Lemma kept_trans s1 O1 T1 s2 O2 T2 s3 O3 T3 :
  kept s1 O1 T1 s2 O2 T2 -> kept s2 O2 T2 s3 O3 T3 -> kept s1 O1 T1 s3 O3 T3.
Proof.
  intros K1 K2. split.
  - etransitivity; [apply K1|apply K2].
  - intros f Hf. destruct (kp_new _ _ _ _ _ _ K2 f Hf) as [Hf'|Hno]; [by apply (kp_new _ _ _ _ _ _ K1)|].
    right. intros Ho. apply Hno. eapply owned_page_mono; [apply K1|done].
  - intros a Ha Hn. rewrite (kp_data _ _ _ _ _ _ K2), (kp_data _ _ _ _ _ _ K1); try done.
    + eapply owned_page_mono; [apply K1|done].
    + intros Ht. by destruct (kp_new _ _ _ _ _ _ K1 _ Ht).
Qed.

(** A fresh page of zeroes, mapped at [va]: what [amm_page_fault] and
    [amm_region_populate] do for one page. *)
Definition fresh_mapping (O O' : owned) (T' : tree) (s' : St) (e prot : Z) : Prop :=
  exists p, e = Z.lor (p * PAGE_SIZE) (pte_flags prot) /\ O' !! p = Some 0%nat /\
    ~ owned_page O p /\ ~ table_frame T' p /\ forall i, idx_ok i -> entry_at s' p i = Some 0.

Lemma map_new_page_ok s O root T s1 p va prot :
  pt_inv s O root T -> D (PML4_IDX va) = true -> 0 < p -> (forall q, in_block p 0 q -> ~ owned_page O q) ->
  ba_owns s1 (<[p := 0%nat]> O) -> same_on O s s1 ->
  exists s' O' T', map_page (zero_page s1 (p * PAGE_SIZE)) (root * PAGE_SIZE) va (p * PAGE_SIZE) prot = Some s' /\
    pt_inv s' O' root T' /\ kept s O T s' O' T' /\
    ((forall va', xlate s' T' va' = xlate s T va') \/
     exists e, fresh_mapping O O' T' s' e prot /\
       forall va', xlate s' T' va' = if vpage va' =? vpage va then Some e else xlate s T va').
Proof.
  intros I HD Hp0 Hfresh Ho Hs.
  destruct (new_page_ok s O root T s1 p I Hp0 Hfresh Ho Hs) as (I2 & Hx2 & Hs2 & Hnt & Hz).
  destruct (map_page_spec _ _ root T va (p * PAGE_SIZE) prot I2 HD) as (s' & O' & T' & E & I' & HO & HT & Hnew & Hd & Hx).
  pose proof (fresh_block O p 0 Hfresh) as HpO.
  assert (O ⊆ <[p := 0%nat]> O) as Hsub by by apply insert_subseteq.
  exists s', O', T'. split; [done|]. split; [done|]. split.
  - split; [by etransitivity| |].
    + intros f Hf. destruct (Hnew f Hf) as [?|Hno]; [by left|]. right. intros Hof. apply Hno. by eapply owned_page_mono.
    + intros a Ha Hn. rewrite Hd; [by apply Hs2| |done]. by eapply owned_page_mono.
  - destruct Hx as [Hx|Hx]; [left; intros va'; by rewrite Hx, Hx2|]. right.
    assert (owned_page (<[p := 0%nat]> O) p) as Hop by (eapply owned_head, lookup_insert_eq).
    rewrite frame_mask in Hx by (destruct (ba_frame s1 _ p 0 Ho (lookup_insert_eq _ _ _)) as (? & ? & _); simpl in *; lia).
    eexists. split; [|intros va'; by rewrite Hx, Hx2].
    exists p. split; [done|]. split; [eapply lookup_weaken; [apply lookup_insert_eq|done]|].
    split; [apply Hfresh; unfold in_block; simpl; lia|]. split; [intros Ht; by destruct (Hnew p Ht)|].
    intros i Hi. unfold entry_at. rewrite Hd; [by apply Hz|..]; by rewrite word_frame.
Qed.

Lemma fresh_mapping_kept s O T s1 O1 T1 s' O' T' e prot :
  kept s O T s1 O1 T1 -> kept s1 O1 T1 s' O' T' ->
  fresh_mapping O O1 T1 s1 e prot -> fresh_mapping O O' T' s' e prot.
Proof.
  intros K1 K2 (p & -> & Hp & Hno & Hnt & Hz). exists p. split; [done|].
  assert (owned_page O1 p) as Hop by by eapply owned_head.
  split; [eapply lookup_weaken; [done|apply K2]|]. split; [done|].
  split; [intros Ht; by destruct (kp_new _ _ _ _ _ _ K2 _ Ht)|].
  intros i Hi. unfold entry_at. rewrite (kp_data _ _ _ _ _ _ K2); [by apply Hz|..]; by rewrite word_frame.
Qed.

Lemma fresh_mapping_before s O T s1 O1 T1 O' T' s' e prot :
  kept s O T s1 O1 T1 -> fresh_mapping O1 O' T' s' e prot -> fresh_mapping O O' T' s' e prot.
Proof.
  intros K1 (p & -> & Hp & Hno & R). exists p. do 2 (split; [done|]). split; [|done].
  intros Ho. apply Hno. eapply owned_page_mono; [apply K1|done].
Qed.

(** The pages [lo .. hi) in steps of a page. *)
Definition in_pages (lo hi va : Z) : Prop :=
  exists x, lo <= x < hi /\ (PAGE_SIZE | x - lo) /\ vpage va = vpage x.

(** The translations after populating [lo .. hi): old ones stay, new ones are
    fresh pages of that range. *)
Definition populated (s : St) (O : owned) (T : tree) (s' : St) (O' : owned) (T' : tree) (lo hi prot : Z) : Prop :=
  forall va, (xlate s' T' va = xlate s T va) \/
    (xlate s T va = None /\ in_pages lo hi va /\ exists e, xlate s' T' va = Some e /\ fresh_mapping O O' T' s' e prot).

Lemma populated_cons s O T s1 O1 T1 s' O' T' lo hi prot :
  kept s O T s1 O1 T1 -> kept s1 O1 T1 s' O' T' -> lo < hi ->
  ((forall va, xlate s1 T1 va = xlate s T va) \/
   (xlate s T lo = None /\ exists e, fresh_mapping O O1 T1 s1 e prot /\
      forall va, xlate s1 T1 va = if vpage va =? vpage lo then Some e else xlate s T va)) ->
  (forall va va', vpage va = vpage va' -> xlate s T va = xlate s T va') ->
  populated s1 O1 T1 s' O' T' (lo + PAGE_SIZE) hi prot -> populated s O T s' O' T' lo hi prot.
Proof.
  intros K1 K2 Hlt Hstep Hext Hrest va.
  assert (in_pages (lo + PAGE_SIZE) hi va -> in_pages lo hi va) as Hmono.
  { intros (x & Hx & [c Hc] & Hv). exists x. unfold PAGE_SIZE in *. split; [lia|]. split; [exists (c + 1); lia|done]. }
  destruct Hstep as [Heq|(Hnone & e & Hf & Heq)]; destruct (Hrest va) as [Hr|(Hr & Hin & e' & He' & Hf')]; rewrite Heq in Hr.
  - left. congruence.
  - right. split; [done|]. split; [auto|]. exists e'. split; [done|]. by eapply fresh_mapping_before.
  - destruct (Z.eqb_spec (vpage va) (vpage lo)) as [Hv|Hv]; [|left; congruence]. right.
    split; [rewrite (Hext va lo Hv); done|]. split.
    + exists lo. split; [lia|]. split; [rewrite Z.sub_diag; apply Z.divide_0_r|done].
    + exists e. split; [done|]. by eapply fresh_mapping_kept.
  - destruct (Z.eqb_spec (vpage va) (vpage lo)) as [Hv|Hv]; [done|]. right. split; [done|]. split; [auto|].
    exists e'. split; [done|]. by eapply fresh_mapping_before.
Qed.

Lemma xlate_ext s T va va' : vpage va = vpage va' -> xlate s T va = xlate s T va'.
Proof. intros [Hp Hi]%same_vpage. unfold xlate, leaf. by rewrite Hp, Hi. Qed.

Lemma populate_loop_ok root m hi prot fuel : forall s O T va,
  pt_inv s O root T -> vm_cr3 m = root * PAGE_SIZE -> 0 <= va -> hi + PAGE_SIZE <= 2 ^ 64 ->
  (PAGE_SIZE | hi - va) -> hi - va <= Z.of_nat fuel * PAGE_SIZE ->
  (forall x, va <= x < hi -> D (PML4_IDX x) = true) ->
  exists ok s' O' T', populate_loop fuel s m va hi prot = Some (ok, s') /\ pt_inv s' O' root T' /\
    kept s O T s' O' T' /\ populated s O T s' O' T' va hi prot.
Proof.
  induction fuel as [|fuel IH]; intros s O T va I Hcr3 Hva Hhi Hdiv Hf HD; cbn [populate_loop];
    destruct (Z.ltb_spec va hi) as [Hlt|Hge]; try lia;
    try (exists true, s, O, T; split; [done|]; split; [done|]; split; [apply kept_refl|by left]).
  rewrite (virt_to_kva_spec s O root T m va I) by (done || apply HD; lia). cbn [mbind option_bind].
  assert (va + PAGE_SIZE <= hi) as Hstep.
  { destruct Hdiv as [c Hc]. unfold PAGE_SIZE in *. lia. }
  assert (PAGE_SIZE | hi - (va + PAGE_SIZE)) as Hdiv'.
  { destruct Hdiv as [c Hc]. exists (c - 1). lia. }
  assert (forall s1 O1 T1, pt_inv s1 O1 root T1 -> exists ok s' O' T',
    populate_loop fuel s1 m (u64 (va + PAGE_SIZE)) hi prot = Some (ok, s') /\ pt_inv s' O' root T' /\
    kept s1 O1 T1 s' O' T' /\ populated s1 O1 T1 s' O' T' (va + PAGE_SIZE) hi prot) as IH'.
  { intros s1 O1 T1 I1. rewrite u64_small by (unfold PAGE_SIZE in *; lia).
    apply IH; try done; try (unfold PAGE_SIZE in *; lia). intros x Hx. apply HD. unfold PAGE_SIZE in *. lia. }
  destruct (xlate s T va) as [e|] eqn:Hx; cbn [mbind option_bind].
  - destruct (IH' s O T I) as (ok & s' & O' & T' & -> & I' & K & P). exists ok, s', O', T'.
    do 3 (split; [done|]). eapply populated_cons; [apply kept_refl|exact K|done|by left|apply xlate_ext|exact P].
  - destruct (ba_alloc_law s O 0 (pt_owns _ _ _ _ I)) as [(s1 & -> & Ho & Hs)|(p & s1 & -> & Hp0 & Hfresh & Ho & Hs)];
      cbn [mbind option_bind].
    + destruct (pt_inv_same s O root T s1 I Ho Hs) as [I1 G]. exists false, s1, O, T. split; [done|]. split; [done|]. split.
      * split; [done|by left|]. intros a Ha _. by apply Hs.
      * intros va'. left. by eapply grown_xlate.
    + destruct (Z.eqb_spec (p * PAGE_SIZE) 0) as [E|_]; [unfold PAGE_SIZE in E; lia|]. rewrite Hcr3.
      destruct (map_new_page_ok s O root T s1 p va prot I) as (s2 & O2 & T2 & -> & I2 & K2 & Hx2);
        [apply HD; lia|done..|]. cbn [mbind option_bind].
      destruct (IH' s2 O2 T2 I2) as (ok & s' & O' & T' & -> & I' & K & P). exists ok, s', O', T'.
      do 2 (split; [done|]). split; [by eapply kept_trans|].
      eapply populated_cons; [exact K2|exact K|done| |apply xlate_ext|exact P].
      destruct Hx2 as [?|(e & ? & ?)]; [by left|right]. split; [done|]. by exists e.
Qed.
End Tree.

(** ** The operations *)

Section Operations.
Context `{BlockAllocLaws St}.


(** [amm_virt_to_kva] returns the physical address that the page tables give to
    the address, and null exactly when they give none. *)
Theorem amm_virt_to_kva_ok D (s : St) O root T m va :
  pt_inv D s O root T -> D (PML4_IDX va) = true -> vm_cr3 m = root * PAGE_SIZE ->
  amm_virt_to_kva s (Some m) va =
  Some (e ← xlate s T va; Some (Z.lor (Z.land e PTE_ADDR_MASK) (Z.land va (PAGE_SIZE - 1)))).
Proof. apply virt_to_kva_spec. Qed.

(** A page fault, for the clients of the tables. *)
Lemma page_fault_spec D (s : St) O root T p m l addr (write : bool) :
  pt_inv D s O root T -> vmap_inv p m l -> vm_cr3 m = root * PAGE_SIZE ->
  0 <= addr < 2 ^ 64 -> D (PML4_IDX addr) = true ->
  (exists i g, (i, g) ∈ l /\ rg_base g <= addr < rg_end g /\ (write = true -> Z.land (rg_prot g) PROT_WRITE <> 0) /\
     exists r s' O' T', amm_page_fault s p m addr write = Some (r, s') /\ pt_inv D s' O' root T' /\
       kept s O T s' O' T' /\
       ((forall va, xlate s' T' va = xlate s T va) \/
        r = 0 /\ exists e, fresh_mapping O O' T' s' e (rg_prot g) /\
          forall va, xlate s' T' va = if vpage va =? vpage addr then Some e else xlate s T va)) \/
  ((forall i g, (i, g) ∈ l -> rg_base g <= addr < rg_end g -> write = true /\ Z.land (rg_prot g) PROT_WRITE = 0) /\
   amm_page_fault s p m addr write = Some (-1, s)).
Proof.
  intros I V Hcr3 Ha HD. unfold amm_page_fault. rewrite (find_ok p m l addr V). cbn [mbind option_bind].
  destruct (List.find (fun x => holds addr x.2) l) as [[i g]|] eqn:Hf; simpl.
  2: { right. split; [|done]. intros i g Hi Hb. eapply List.find_none in Hf; [|by apply list_elem_of_In].
       unfold holds in Hf. simpl in Hf. lia. }
  apply List.find_some in Hf as [Hin%list_elem_of_In Hh]. simpl in Hh.
  assert (rg_base g <= addr < rg_end g) as Hb by (unfold holds in Hh; lia).
  pose proof Hin as Hin'. apply list_elem_of_split in Hin' as (l1 & l2 & El). destruct (vi_links _ _ _ V) as [pe Hl].
  rewrite El in Hl. apply dlls_lookup in Hl as (q & n & Hi & _). rewrite Hi. cbn [mbind option_bind vr_of vr_prot].
  destruct (write && (Z.land (rg_prot g) PROT_WRITE =? 0)) eqn:Hw.
  { right. split; [|done]. intros j g' Hj Hb'. apply andb_true_iff in Hw as [? ?%Z.eqb_eq].
    assert (List.find (fun x => holds addr x.2) l = Some (j, g')) as E1.
    { apply find_unique; [apply V|done|unfold holds; lia]. }
    assert (List.find (fun x => holds addr x.2) l = Some (i, g)) as E2.
    { apply find_unique; [apply V|done|done]. }
    assert (g' = g) as -> by congruence. done. }
  left. exists i, g. split; [done|]. split; [done|].
  split; [intros ->; by apply Z.eqb_neq|].
  destruct (ba_alloc_law s O 0 (pt_owns _ _ _ _ _ I)) as [(s1 & -> & Ho & Hs)|(f & s1 & -> & Hf0 & Hfresh & Ho & Hs)];
    cbn [mbind option_bind].
  - destruct (pt_inv_same D s O root T s1 I Ho Hs) as [I1 G]. exists (-1), s1, O, T. split; [done|]. split; [done|].
    split; [split; [done|by left|intros a Ha' _; by apply Hs]|]. left. intros va. by eapply grown_xlate.
  - destruct (Z.eqb_spec (f * PAGE_SIZE) 0) as [E|_]; [unfold PAGE_SIZE in E; lia|]. rewrite Hcr3.
    set (pg := Z.land addr (u64 (Z.lnot (PAGE_SIZE - 1)))).
    assert (vpage pg = vpage addr /\ PML4_IDX pg = PML4_IDX addr) as [Hpg Hp4].
    { unfold pg. rewrite page_mask by lia. apply page_base_vpage. }
    destruct (map_new_page_ok D s O root T s1 f pg (rg_prot g) I) as (s2 & O2 & T2 & -> & I2 & K2 & Hx2);
      [by rewrite Hp4|done..|]. cbn [mbind option_bind]. exists 0, s2, O2, T2. do 3 (split; [done|]).
    destruct Hx2 as [?|(e & ? & Hx)]; [by left|right]. split; [done|]. exists e. split; [done|]. intros va. by rewrite Hx, Hpg.
Qed.

(** A page fault outside every region, or a write to a region without write
    permission, returns -1 and changes nothing.  Otherwise, if it returns -1, memory
    ran out and no translation changed.  If it returns 0, either the page of the
    fault is now mapped with the protection of its region to a fresh page of zeroes
    and no other translation changed, or no translation changed at all. *)
Theorem amm_page_fault_ok D (s : St) O root T p m l addr (write : bool) :
  pt_inv D s O root T -> vmap_inv p m l -> vm_cr3 m = root * PAGE_SIZE ->
  0 <= addr < 2 ^ 64 -> D (PML4_IDX addr) = true ->
  (exists i g, (i, g) ∈ l /\ rg_base g <= addr < rg_end g /\ (write = true -> Z.land (rg_prot g) PROT_WRITE <> 0) /\
     exists r s' O' T', amm_page_fault s p m addr write = Some (r, s') /\ pt_inv D s' O' root T' /\
       kept s O T s' O' T' /\
       ((forall va, xlate s' T' va = xlate s T va) \/
        r = 0 /\ exists e, fresh_mapping O O' T' s' e (rg_prot g) /\
          forall va, xlate s' T' va = if vpage va =? vpage addr then Some e else xlate s T va)) \/
  ((forall i g, (i, g) ∈ l -> rg_base g <= addr < rg_end g -> write = true /\ Z.land (rg_prot g) PROT_WRITE = 0) /\
   amm_page_fault s p m addr write = Some (-1, s)).
Proof. apply page_fault_spec. Qed.

(** [amm_region_populate] of a range inside the managed part of the address
    space terminates without a fault and keeps the tables well formed.  Pages that
    were mapped keep their mapping; a page that becomes mapped is in the range and
    backed by a fresh page of zeroes with the protection asked for; and no owned
    memory outside the tables is written. *)
Theorem amm_region_populate_ok D (s : St) O root T m base size prot :
  pt_inv D s O root T -> vm_cr3 m = root * PAGE_SIZE -> 0 <= base -> 0 < size ->
  base + size + 2 * PAGE_SIZE <= 2 ^ 64 ->
  (forall x, base - PAGE_SIZE < x < base + size + PAGE_SIZE -> D (PML4_IDX x) = true) ->
  exists r s' O' T', amm_region_populate s (Some m) base size prot = Some (r, s') /\ pt_inv D s' O' root T' /\
    kept s O T s' O' T' /\
    forall va, xlate s' T' va = xlate s T va \/
      (xlate s T va = None /\
       (exists x, base - PAGE_SIZE < x < base + size /\ vpage va = vpage x) /\
       exists e, xlate s' T' va = Some e /\ fresh_mapping O O' T' s' e prot).
Proof.
  intros I Hcr3 Hb Hs Hov HD. unfold amm_region_populate. destruct (Z.eqb_spec size 0); [lia|].
  unfold PAGE_ALIGN. rewrite (u64_small (base + size)) by (unfold PAGE_SIZE in *; lia).
  rewrite (u64_small (base + size + _ - _)) by (unfold PAGE_SIZE in *; lia).
  rewrite !page_mask by (unfold PAGE_SIZE in *; lia).
  set (lo := base / PAGE_SIZE * PAGE_SIZE). set (hi := (base + size + PAGE_SIZE - 1) / PAGE_SIZE * PAGE_SIZE).
  pose proof (Z.div_mod base PAGE_SIZE ltac:(done)). pose proof (Z.mod_pos_bound base PAGE_SIZE ltac:(done)).
  pose proof (Z.div_mod (base + size + PAGE_SIZE - 1) PAGE_SIZE ltac:(done)).
  pose proof (Z.mod_pos_bound (base + size + PAGE_SIZE - 1) PAGE_SIZE ltac:(done)).
  assert (base - PAGE_SIZE < lo <= base) as Hlo by (unfold lo; lia).
  assert (base + size <= hi < base + size + PAGE_SIZE) as Hhi by (unfold hi; lia).
  assert (0 <= lo) by (unfold lo; apply Z.mul_nonneg_nonneg; [apply Z.div_pos|]; unfold PAGE_SIZE; lia).
  assert (PAGE_SIZE | hi - lo) as Hdiv by (apply Z.divide_sub_r; apply Z.divide_factor_r).
  destruct (Z.leb_spec hi lo); [lia|].
  destruct (populate_loop_ok D root m hi prot (Z.to_nat ((hi - lo) / PAGE_SIZE)) s O T lo I Hcr3)
    as (ok & s' & O' & T' & -> & I' & K & P); [done|lia|done| |intros x Hx; apply HD; lia|].
  { destruct Hdiv as [c Hc]. rewrite Hc, Z.div_mul by done. rewrite Z2Nat.id; unfold PAGE_SIZE in *; lia. }
  cbn [mbind option_bind].
  assert (forall va, xlate s' T' va = xlate s T va \/ (xlate s T va = None /\
       (exists x, base - PAGE_SIZE < x < base + size /\ vpage va = vpage x) /\
       exists e, xlate s' T' va = Some e /\ fresh_mapping O O' T' s' e prot)) as P'.
  { intros va. destruct (P va) as [?|(Hn & (x & Hx & [c Hc] & Hv) & R)]; [by left|]. right. split; [done|]. split; [|done].
    exists x. split; [|done]. split; [lia|]. destruct Hdiv as [d Hd]. unfold PAGE_SIZE in *. lia. }
  destruct ok.
  - rewrite (virt_to_kva_spec D s' O' root T' m base I') by (done || apply HD; unfold PAGE_SIZE; lia). cbn [mbind option_bind].
    eexists _, s', O', T'. by do 3 (split; [done|]).
  - by exists None, s', O', T'.
Qed.
End Operations.

(** ** A sample address space: an empty root table, and free memory *)

Definition demo_pt : mm_state := zero_page demo_page (2 ^ 18 * PAGE_SIZE).

Definition user_half (i : Z) : bool := i <? 256.

Definition demo_owned : owned := {[2 ^ 18 := 0%nat]}.

Lemma demo_pt_inv {D} : pt_inv D demo_pt demo_owned (2 ^ 18) {[ [] := 2 ^ 18 ]}.
Proof.
  assert (forall i, idx_ok i -> entry_at demo_pt (2 ^ 18) i = Some 0) as Hz.
  { intros i Hi. unfold entry_at, demo_pt, zero_page. rewrite ba_mem_set.
    replace i with (Z.of_nat (Z.to_nat i)) by (unfold idx_ok in Hi; lia). apply zero_words_in. unfold idx_ok in Hi. lia. }
  split.
  - apply ba_zero; [|by eapply owned_head|lia]. destruct demo_page_inv as [L I]. exists demo_N. eexists. exists L. split; [exact I|].
    unfold demo_owned. intros p k [<- <-]%lookup_singleton_Some. done.
  - done.
  - by intros π f [<- <-]%lookup_singleton_Some.
  - by intros π π' f [<- _]%lookup_singleton_Some [<- _]%lookup_singleton_Some.
  - intros π i f [E _]%lookup_singleton_Some. by destruct π.
  - intros π f [<- _]%lookup_singleton_Some. simpl. lia.
  - intros π f i [<- <-]%lookup_singleton_Some Hi. rewrite Hz by done. by eexists.
  - intros π f i e [<- <-]%lookup_singleton_Some _ Hi _. rewrite Hz by done. intros [= <-].
    unfold child_ok. by rewrite lookup_singleton_ne.
Qed.


Lemma amm_virt_to_kva_ok_witness :
  amm_virt_to_kva demo_pt (Some (mk_vmap None (2 ^ 18 * PAGE_SIZE) 0)) 0x400123 = Some None.
Proof.
  rewrite (amm_virt_to_kva_ok user_half demo_pt demo_owned (2 ^ 18) {[ [] := 2 ^ 18 ]}
    (mk_vmap None (2 ^ 18 * PAGE_SIZE) 0) 0x400123 demo_pt_inv eq_refl eq_refl).
  unfold xlate, leaf. rewrite lookup_singleton_ne; [reflexivity|discriminate].
Defined.

(** The sample regions of [VRegion] over these tables. *)
Definition demo_space : vmap_t := mk_vmap (Some 1%nat) (2 ^ 18 * PAGE_SIZE) 2.

Lemma demo_space_inv : vmap_inv demo_pool demo_space [(1%nat, demo_code); (0%nat, demo_stack)].
Proof. destruct demo_map_inv. by split. Qed.

Lemma amm_page_fault_ok_witness :
  exists r s', amm_page_fault demo_pt demo_pool demo_space 0x7ff010 true = Some (r, s').
Proof.
  destruct (amm_page_fault_ok user_half demo_pt _ _ _ demo_pool demo_space _ 0x7ff010 true
    demo_pt_inv demo_space_inv eq_refl ltac:(lia) eq_refl) as [(i & g & _ & _ & _ & r & s' & O' & T' & E & _)|[_ E]].
  - exists r, s'. exact E.
  - exists (-1), demo_pt. exact E.
Defined.

Lemma low_user x : 0 <= x < 2 ^ 39 -> user_half (PML4_IDX x) = true.
Proof.
  intros Hx. unfold user_half, PML4_IDX. rewrite Z.shiftr_div_pow2, Z.div_small by lia. done.
Qed.

Lemma amm_region_populate_ok_witness :
  exists r s', amm_region_populate demo_pt (Some demo_space) 0x400100 0x2000 PROT_READ = Some (r, s').
Proof.
  destruct (amm_region_populate_ok user_half demo_pt _ _ _ demo_space 0x400100 0x2000 PROT_READ
    demo_pt_inv eq_refl ltac:(lia) ltac:(lia) ltac:(unfold PAGE_SIZE; lia)
    ltac:(unfold PAGE_SIZE; intros x Hx; apply low_user; lia)) as (r & s' & O' & T' & E & _).
  exists r, s'. exact E.
Defined.
