(* ===== verification/VmSpace.v ===== *)
(** * Creating and destroying address spaces (src/kernel/mm/mm.c, lines 436-490)

    [amm_vmap_create] takes a map from a static pool and gives it a root table that
    shares the kernel half; [amm_vmap_destroy] walks the regions, frees the pages
    mapped in them and then the root. *)

From Stdlib Require Import ZArith Lia.
From stdpp Require Import base gmap functions list.
From S2P Require Import Prelude Phys PhysSpec PhysIface VRegion PageTable PageTableSpec.

Local Open Scope Z_scope.

Definition MAX_VMAPS : Z := 4096.

Section VmSpace.
Context `{BlockAlloc St}.

(** [for (int i = 256; i < 512; i++) new_pml4[i] = kernel_pml4[i]]; [n] entries
    from [i] on are left. *)
Fixpoint copy_upper (s : St) (new_pml4 kernel_pml4 i : Z) (n : nat) : option St :=
  match n with
  | O => Some s
  | S n' =>
      e ← ba_mem s !! (kernel_pml4 + 8 * i);
      copy_upper (wr s (new_pml4 + 8 * i) e) new_pml4 kernel_pml4 (i + 1) n'
  end.

(** [vmap_next] is [g_vmap_next]; the map, or null. *)
Definition amm_vmap_create (s : St) (vmap_next g_kernel_cr3 : Z) : option (option vmap_t * Z * St) :=
  if MAX_VMAPS <=? vmap_next then Some (None, vmap_next, s)
  else
    '(p, s1) ← ba_alloc s 0;
    if p =? 0 then Some (None, vmap_next + 1, s1)
    else
      s2 ← copy_upper (zero_page s1 p) p g_kernel_cr3 256 256;
      Some (Some (mk_vmap None p 0), vmap_next + 1, s2).

(** The pages of one region. *)
Fixpoint destroy_pages (fuel : nat) (s : St) (cr3 va end_ : Z) : option St :=
  if va <? end_ then
    match fuel with
    | O => None
    | S fuel' =>
        r ← kva_walk s cr3 va;
        s' ← match r with None => Some s | Some pa => ba_free s pa 0 end;
        destroy_pages fuel' s' cr3 (u64 (va + PAGE_SIZE)) end_
    end
  else Some s.

Fixpoint destroy_regions (fuel : nat) (s : St) (p : rpool) (cr3 : Z) (cur : option nat) : option St :=
  match cur with
  | None => Some s
  | Some i =>
      match fuel with
      | O => None
      | S fuel' =>
          r ← rp_regions p !! i;
          s' ← destroy_pages (Z.to_nat (vr_size r)) s cr3 (vr_base r) (u64 (vr_base r + vr_size r));
          destroy_regions fuel' s' p cr3 (vr_next r)
      end
  end.

Definition amm_vmap_destroy (s : St) (p : rpool) (m : vmap_t) : option (St * vmap_t) :=
  s1 ← destroy_regions (walk_fuel p) s p (vm_cr3 m) (vm_head m);
  s2 ← ba_free s1 (Z.land (vm_cr3 m) PTE_ADDR_MASK) 0;
  Some (s2, mk_vmap None (vm_cr3 m) 0).
End VmSpace.

(** ** Creation *)

Section Create.
Context `{BlockAllocLaws St}.

Lemma copy_upper_ok O p kf n : forall (s : St) i,
  ba_owns s O -> owned_page O p -> p <> kf -> 0 <= i -> i + Z.of_nat n <= 512 ->
  (forall j, i <= j < i + Z.of_nat n -> is_Some (entry_at s kf j)) ->
  exists s', copy_upper s (p * PAGE_SIZE) (kf * PAGE_SIZE) i n = Some s' /\ ba_owns s' O /\
    (forall j, i <= j < i + Z.of_nat n -> entry_at s' p j = entry_at s kf j) /\
    (forall a, (forall j, i <= j < i + Z.of_nat n -> a <> p * PAGE_SIZE + 8 * j) -> ba_mem s' !! a = ba_mem s !! a).
Proof.
  induction n as [|n IH]; intros s i Ho Hp Hne Hi Hn Hk; cbn [copy_upper].
  - exists s. split; [done|]. split; [done|]. split; [lia|done].
  - destruct (Hk i) as [e He]; [lia|]. pose proof He as He'. unfold entry_at in He'. rewrite He'. cbn [mbind option_bind].
    assert (idx_ok i) as Hio by (unfold idx_ok; lia).
    set (s1 := wr s (p * PAGE_SIZE + 8 * i) e).
    assert (forall a, a <> p * PAGE_SIZE + 8 * i -> ba_mem s1 !! a = ba_mem s !! a) as Hs1.
    { intros a Ha. unfold s1, wr. by rewrite ba_mem_set, lookup_insert_ne. }
    assert (forall j, 0 <= j < 512 -> entry_at s1 kf j = entry_at s kf j) as Hkf.
    { intros j Hj. apply Hs1. intros E. apply word_inj in E as [? _]; [done|unfold idx_ok; lia|done]. }
    destruct (IH s1 (i + 1)) as (s' & E & Ho' & Hc & Hm); try lia; try done.
    { apply ba_write; [done|]. by rewrite word_frame. }
    { intros j Hj. rewrite Hkf by lia. apply Hk. lia. }
    exists s'. split; [done|]. split; [done|]. split.
    + intros j Hj. destruct (decide (j = i)) as [->|Hji].
      * unfold entry_at at 1. rewrite Hm by (intros k Hk'; lia). unfold s1, wr. rewrite ba_mem_set, lookup_insert_eq. done.
      * rewrite Hc, Hkf by lia. done.
    + intros a Ha. rewrite Hm by (intros j Hj; apply Ha; lia). apply Hs1. apply Ha. lia.
Qed.

(** [amm_vmap_create] with a kernel root table whose upper half can be read
    terminates without a fault.  It returns null when the pool or memory is
    exhausted.  Otherwise the new map has no regions, its root is a fresh page that
    shares the kernel half of the kernel's root table entry by entry, no address of
    the user half is mapped, and no memory owned before is changed. *)
Theorem amm_vmap_create_ok (s : St) O kf next :
  ba_owns s O -> O !! kf = Some 0%nat -> (forall j, 256 <= j < 512 -> is_Some (entry_at s kf j)) ->
  (exists s' next', amm_vmap_create s next (kf * PAGE_SIZE) = Some (None, next', s') /\ ba_owns s' O /\ same_on O s s') \/
  (exists s' p, amm_vmap_create s next (kf * PAGE_SIZE) = Some (Some (mk_vmap None (p * PAGE_SIZE) 0), next + 1, s') /\
     next < MAX_VMAPS /\ pt_inv user_half s' (<[p := 0%nat]> O) p {[ [] := p ]} /\ same_on O s s' /\
     (forall j, 256 <= j < 512 -> entry_at s' p j = entry_at s kf j) /\
     (forall va, user_half (PML4_IDX va) = true -> xlate s' {[ [] := p ]} va = None)).
Proof.
  intros Ho Hkf Hk. unfold amm_vmap_create. destruct (Z.leb_spec MAX_VMAPS next) as [Hfull|Hroom].
  { left. by exists s, next. }
  destruct (ba_alloc_law s O 0 Ho) as [(s1 & -> & Ho1 & Hs)|(p & s1 & -> & Hp0 & Hfresh & Ho1 & Hs)]; cbn [mbind option_bind].
  { left. by exists s1, (next + 1). }
  destruct (Z.eqb_spec (p * PAGE_SIZE) 0) as [E|_]; [unfold PAGE_SIZE in E; lia|].
  set (O' := <[p := 0%nat]> O) in *. pose proof (fresh_block O p 0 Hfresh) as HpO.
  assert (owned_page O' p) as Hop by (eapply owned_head; unfold O'; apply lookup_insert_eq).
  assert (p <> kf) as Hne by congruence.
  assert (forall q, owned_page O q -> q <> p) as Hnp.
  { intros q Hq ->. apply (Hfresh p); [unfold in_block; simpl; lia|done]. }
  set (s2 := zero_page s1 (p * PAGE_SIZE)).
  assert (same_on O s s2) as Hs2.
  { intros a Ha. unfold s2, zero_page. rewrite ba_mem_set, zero_words_out; [by apply Hs|]. intros k Hk' ->.
    apply Hnp in Ha. apply Ha. apply word_frame. unfold idx_ok. lia. }
  assert (forall j, idx_ok j -> entry_at s2 kf j = entry_at s kf j) as Hkent.
  { intros j Hj. apply Hs2. rewrite word_frame by done. by eapply owned_head. }
  destruct (copy_upper_ok O' p kf 256 s2 256) as (s' & -> & Ho' & Hc & Hm); try done; try lia.
  { by apply ba_zero. }
  { intros j Hj. rewrite Hkent by (unfold idx_ok; lia). apply Hk. lia. }
  cbn [mbind option_bind].
  assert (forall j, 0 <= j < 256 -> entry_at s' p j = Some 0) as Hz.
  { intros j Hj. unfold entry_at. rewrite Hm by (intros k Hk' E; lia). unfold s2, zero_page. rewrite ba_mem_set.
    replace j with (Z.of_nat (Z.to_nat j)) by lia. apply zero_words_in. lia. }
  right. exists s', p. split; [done|]. split; [done|]. split; [|split; [|split]].
  - split; [done|done|..].
    + intros π f [<- <-]%lookup_singleton_Some. unfold O'. apply lookup_insert_eq.
    + by intros π π' f [<- _]%lookup_singleton_Some [<- _]%lookup_singleton_Some.
    + intros π i f [E _]%lookup_singleton_Some. by destruct π.
    + intros π f [<- _]%lookup_singleton_Some. simpl. lia.
    + intros π f i [<- <-]%lookup_singleton_Some Hi. unfold idx_ok in Hi.
      destruct (decide (i < 256)); [rewrite Hz by lia; by eexists|].
      rewrite Hc, Hkent by (unfold idx_ok; lia). apply Hk. lia.
    + intros π f i e [<- <-]%lookup_singleton_Some _ Hi HD. unfold managed, user_half in HD. unfold idx_ok in Hi.
      rewrite Hz by (specialize (HD eq_refl); lia). intros [= <-]. unfold child_ok. by rewrite lookup_singleton_ne.
  - intros a Ha. rewrite Hm; [by apply Hs2|]. intros j Hj ->. apply Hnp in Ha. apply Ha. apply word_frame. unfold idx_ok. lia.
  - intros j Hj. rewrite Hc by lia. apply Hkent. unfold idx_ok. lia.
  - intros va _. unfold xlate, leaf. by rewrite lookup_singleton_ne.
Qed.
End Create.

(** ** Destruction *)

Definition delete_all (fs : list Z) (O : owned) : owned := foldr delete O fs.

Lemma lookup_delete_all fs O f :
  delete_all fs O !! f = if decide (f ∈ fs) then None else O !! f.
Proof.
  induction fs as [|g fs IH]; simpl; [done|]. rewrite lookup_delete. unfold delete_all in *. rewrite IH.
  repeat case_decide; try done; set_solver.
Qed.

Section Destroy.
Context `{BlockAllocLaws St} (D : Z -> bool).

(** The frame that translates [va]. *)
Definition frame_of (s : St) (T : gmap (list Z) Z) (va : Z) : option Z :=
  e ← xlate s T va; Some (Z.land e PTE_ADDR_MASK / PAGE_SIZE).

(** The addresses at which the loop looks: every page step of a region. *)
Definition steps (va : Z) (n : nat) : list Z := (fun k => va + PAGE_SIZE * Z.of_nat k) <$> seq 0 n.

Definition region_steps (g : rgn) : list Z :=
  steps (rg_base g) (Z.to_nat ((rg_size g + (PAGE_SIZE - 1)) / PAGE_SIZE)).

(** Every frame mapped at [vas] is an owned page, mapped once, and not a table. *)
Definition backed (s : St) (O : owned) (T : gmap (list Z) Z) (vas : list Z) : Prop :=
  NoDup (omap (frame_of s T) vas) /\
  Forall (fun f => O !! f = Some 0%nat /\ ~ table_frame T f) (omap (frame_of s T) vas).

Lemma mask_frame e : Z.land e PTE_ADDR_MASK / PAGE_SIZE * PAGE_SIZE = Z.land e PTE_ADDR_MASK.
Proof.
  assert ((Z.land e PTE_ADDR_MASK) mod PAGE_SIZE = 0) as Hm.
  { change PAGE_SIZE with (2 ^ 12). rewrite <- Z.land_ones, <- Z.land_assoc by lia.
    change (Z.land PTE_ADDR_MASK (Z.ones 12)) with 0. apply Z.land_0_r. }
  pose proof (Z.div_mod (Z.land e PTE_ADDR_MASK) PAGE_SIZE ltac:(done)). lia.
Qed.

(** Freeing a page that is not a table does not change the tables. *)
Lemma free_data_ok s O root T f :
  pt_inv D s O root T -> O !! f = Some 0%nat -> ~ table_frame T f ->
  exists s', ba_free s (f * PAGE_SIZE) 0 = Some s' /\ pt_inv D s' (delete f O) root T /\
    (forall va, xlate s' T va = xlate s T va) /\ same_on (delete f O) s s'.
Proof.
  intros I Hf Hnt. destruct (ba_free_law s O f 0 (pt_owns _ _ _ _ _ I) Hf) as (s' & E & Ho & Hs).
  assert (forall π g, T !! π = Some g -> delete f O !! g = Some 0%nat) as Hfr.
  { intros π g Hg. rewrite lookup_delete_ne; [by eapply pt_frame|]. intros ->. apply Hnt. by exists π. }
  assert (forall π g i, T !! π = Some g -> idx_ok i -> entry_at s' g i = entry_at s g i) as He.
  { intros π g i Hg Hi. apply Hs. rewrite word_frame by done. eapply owned_head. by eapply Hfr. }
  exists s'. split; [done|]. split; [|split; [|done]].
  - split; try apply I; try done.
    + intros π g i Hg Hi. rewrite (He π) by done. by eapply pt_words.
    + intros π g i e Hg Hd Hi Hm. rewrite (He π) by done. by eapply pt_child.
  - intros va. unfold xlate, leaf. destruct (T !! path va) as [g|] eqn:E'; [|done]. cbn [mbind option_bind].
    rewrite (He (path va)); [done|done|apply pt_idx_ok].
Qed.

Lemma frame_of_same s s' T va : (forall va, xlate s' T va = xlate s T va) -> frame_of s' T va = frame_of s T va.
Proof. intros Hx. unfold frame_of. by rewrite Hx. Qed.

Lemma backed_tail s O T va vas f : frame_of s T va = Some f -> backed s O T (va :: vas) ->
  O !! f = Some 0%nat /\ ~ table_frame T f /\ backed s (delete f O) T vas.
Proof.
  unfold backed. cbn [omap list_omap]. intros -> [[Hnf Hnd]%NoDup_cons [[? ?] Hall]%Forall_cons].
  split; [done|]. split; [done|]. split; [done|]. apply Forall_forall. intros g Hg. rewrite Forall_forall in Hall.
  destruct (Hall g Hg) as [? ?]. split; [|done]. rewrite lookup_delete_ne; [done|]. by intros ->.
Qed.

Lemma backed_skip s O T va vas : frame_of s T va = None -> backed s O T (va :: vas) -> backed s O T vas.
Proof. unfold backed. cbn [omap list_omap]. by intros ->. Qed.

Lemma omap_same s s' T (vas : list Z) : (forall va, xlate s' T va = xlate s T va) ->
  omap (frame_of s' T) vas = omap (frame_of s T) vas.
Proof.
  intros Hx. apply list_omap_ext, Forall_Forall2_diag, Forall_forall. intros va _. by apply frame_of_same.
Qed.

Lemma backed_same s s' O T vas : (forall va, xlate s' T va = xlate s T va) -> backed s O T vas -> backed s' O T vas.
Proof. intros Hx. unfold backed. by rewrite (omap_same s s' T vas Hx). Qed.

Lemma steps_S va n : steps va (S n) = va :: steps (va + PAGE_SIZE) n.
Proof.
  unfold steps. simpl. f_equal; [lia|]. rewrite <- fmap_S_seq, <- list_fmap_compose. apply list_fmap_ext.
  intros i x _. simpl. lia.
Qed.

Lemma destroy_pages_ok root T fuel : forall s O va n end_,
  pt_inv D s O root T -> 0 <= va -> end_ + PAGE_SIZE <= 2 ^ 64 -> (n <= fuel)%nat ->
  end_ <= va + PAGE_SIZE * Z.of_nat n < end_ + PAGE_SIZE ->
  (forall x, va <= x < end_ -> D (PML4_IDX x) = true) -> backed s O T (steps va n) ->
  exists s', destroy_pages fuel s (root * PAGE_SIZE) va end_ = Some s' /\
    pt_inv D s' (delete_all (rev (omap (frame_of s T) (steps va n))) O) root T /\
    (forall va, xlate s' T va = xlate s T va).
Proof.
  induction fuel as [|fuel IH]; intros s O va n end_ I Hva Hov Hf Hn HD Hb.
  - assert (n = 0)%nat as -> by lia. exists s. simpl. rewrite Z.mul_0_r in Hn. 
    destruct (Z.ltb_spec va end_); [lia|]. done.
  - cbn [destroy_pages]. destruct (Z.ltb_spec va end_) as [Hlt|Hge].
    2: { assert (n = 0)%nat as -> by (unfold PAGE_SIZE in *; lia). by exists s. }
    destruct n as [|n]; [unfold PAGE_SIZE in *; lia|]. rewrite steps_S in *.
    rewrite (kva_walk_spec D s O root T va I) by (apply HD; lia). cbn [mbind option_bind].
    rewrite u64_small by (unfold PAGE_SIZE in *; lia).
    destruct (xlate s T va) as [e|] eqn:Hx; cbn [mbind option_bind].
    + assert (frame_of s T va = Some (Z.land e PTE_ADDR_MASK / PAGE_SIZE)) as Hfo by (unfold frame_of; by rewrite Hx).
      destruct (backed_tail _ _ _ _ _ _ Hfo Hb) as (Hf1 & Hnt & Hb').
      destruct (free_data_ok s O root T _ I Hf1 Hnt) as (s1 & E1 & I1 & Hx1 & Hs1). rewrite mask_frame in E1. rewrite E1.
      cbn [mbind option_bind].
      destruct (IH s1 _ (va + PAGE_SIZE) n end_ I1) as (s' & E & I' & Hx'); try (unfold PAGE_SIZE in *; lia).
      { intros x Hx'. apply HD. unfold PAGE_SIZE in *. lia. }
      { by eapply backed_same. }
      exists s'. split; [done|]. cbn [omap list_omap]. rewrite Hfo. simpl. split; [|intros va'; by rewrite Hx', Hx1].
      unfold delete_all in *. rewrite (omap_same s s1 T _ Hx1) in I'. rewrite foldr_app. exact I'.
    + assert (frame_of s T va = None) as Hfo by (unfold frame_of; by rewrite Hx).
      destruct (IH s O (va + PAGE_SIZE) n end_ I) as (s' & E & I' & Hx'); try (unfold PAGE_SIZE in *; lia).
      { intros x Hx'. apply HD. unfold PAGE_SIZE in *. lia. }
      { by eapply backed_skip. }
      exists s'. split; [done|]. cbn [omap list_omap]. by rewrite Hfo.
Qed.

Lemma backed_app s O T (v1 v2 : list Z) : backed s O T (v1 ++ v2) ->
  backed s O T v1 /\ backed s (delete_all (rev (omap (frame_of s T) v1)) O) T v2.
Proof.
  unfold backed. rewrite omap_app, Forall_app, NoDup_app. intros [(Hn1 & Hdis & Hn2) [Hf1 Hf2]].
  split; [done|]. split; [done|]. apply Forall_forall. intros f Hf. rewrite Forall_forall in Hf2.
  destruct (Hf2 f Hf) as [? ?]. split; [|done]. rewrite lookup_delete_all, decide_False; [done|].
  intros Hr%list_elem_of_In%in_rev%list_elem_of_In. by apply (Hdis f).
Qed.

Lemma region_steps_count g : rgn_ok g ->
  let n := Z.to_nat ((rg_size g + (PAGE_SIZE - 1)) / PAGE_SIZE) in
  (n <= Z.to_nat (rg_size g))%nat /\
  rg_end g <= rg_base g + PAGE_SIZE * Z.of_nat n < rg_end g + PAGE_SIZE.
Proof.
  intros (? & ? & ?) n. unfold n, rg_end, PAGE_SIZE in *.
  pose proof (Z.div_mod (rg_size g + (4096 - 1)) 4096 ltac:(lia)).
  pose proof (Z.mod_pos_bound (rg_size g + (4096 - 1)) 4096 ltac:(lia)).
  assert (0 <= (rg_size g + (4096 - 1)) / 4096) by (apply Z.div_pos; lia). lia.
Qed.

Lemma destroy_regions_ok p root T fuel : forall s O q cur l pe,
  pt_inv D s O root T -> dlls (rp_regions p) q cur l pe None -> (length l <= fuel)%nat -> Forall rgn_ok l.*2 ->
  Forall (fun g => rg_end g + PAGE_SIZE <= 2 ^ 64 /\ forall x, rg_base g <= x < rg_end g -> D (PML4_IDX x) = true) l.*2 ->
  backed s O T (concat (region_steps <$> l.*2)) ->
  exists s', destroy_regions fuel s p (root * PAGE_SIZE) cur = Some s' /\
    pt_inv D s' (delete_all (rev (omap (frame_of s T) (concat (region_steps <$> l.*2)))) O) root T.
Proof.
  induction fuel as [|fuel IH]; intros s O q cur [|[i g] l] pe I Hl Hf Hok HD Hb; simpl in Hf; try lia;
    cbn [destroy_regions].
  - destruct Hl as [_ ->]. by exists s.
  - destruct Hl as [_ ->]. by exists s.
  - destruct Hl as (-> & n & Hi & Hl). rewrite Hi. cbn [mbind option_bind vr_of vr_size vr_base vr_next].
    cbn [fmap list_fmap snd concat] in *. apply Forall_cons in Hok as [Hg Hok]. apply Forall_cons in HD as [[Hov HDg] HD].
    apply backed_app in Hb as [Hb1 Hb2]. destruct (region_steps_count g Hg) as [Hn1 Hn2].
    change (rg_base g + rg_size g) with (rg_end g).
    rewrite u64_small by (destruct Hg as (? & ? & ?); unfold rg_end in *; lia).
    destruct (destroy_pages_ok root T (Z.to_nat (rg_size g)) s O (rg_base g) _ (rg_end g) I (proj1 Hg) Hov Hn1 Hn2 HDg Hb1)
      as (s1 & E1 & I1 & Hx1).
    rewrite E1. cbn [mbind option_bind].
    destruct (IH s1 _ (Some i) n l pe I1 Hl) as (s' & E & I'); [lia|done|done|by eapply backed_same|].
    exists s'. split; [done|]. rewrite (omap_same s s1 T _ Hx1) in I'.
    rewrite omap_app, rev_app_distr. unfold delete_all in *. rewrite foldr_app. exact I'.
Qed.
End Destroy.

(** [amm_vmap_destroy] of a well-linked map over well-formed tables, whose
    regions map owned pages, each once and none of them a table, terminates without
    a fault.  Afterwards the map has no regions; exactly the pages mapped in the
    regions and the root table were given back to the allocator; every other owned
    page, the inner page tables among them, is still allocated. *)
Theorem amm_vmap_destroy_ok `{BlockAllocLaws St} D (s : St) O root T p m l :
  pt_inv D s O root T -> vmap_inv p m l -> vm_cr3 m = root * PAGE_SIZE ->
  Forall (fun g => rg_end g + PAGE_SIZE <= 2 ^ 64 /\ forall x, rg_base g <= x < rg_end g -> D (PML4_IDX x) = true) l.*2 ->
  backed s O T (concat (region_steps <$> l.*2)) ->
  exists s' O', amm_vmap_destroy s p m = Some (s', mk_vmap None (vm_cr3 m) 0) /\ ba_owns s' O' /\
    forall f, O' !! f = if decide (f = root \/ f ∈ omap (frame_of s T) (concat (region_steps <$> l.*2)))
                       then None else O !! f.
Proof.
  intros I V Hcr3 HD Hb. destruct (vi_links _ _ _ V) as [pe Hl]. unfold amm_vmap_destroy. rewrite Hcr3.
  destruct (destroy_regions_ok D p root T (walk_fuel p) s O None (vm_head m) l pe I Hl) as (s1 & E1 & I1); try done.
  { eapply dlls_fuel; [apply V|done]. }
  { apply V. }
  rewrite E1. cbn [mbind option_bind]. rewrite frame_mask by (exact (frame_range _ _ _ _ _ _ _ I (pt_root _ _ _ _ _ I))).
  destruct (ba_free_law s1 _ root 0 (pt_owns _ _ _ _ _ I1)) as (s2 & -> & Ho2 & _).
  { apply (pt_frame _ _ _ _ _ I1 [] root), I1. }
  eexists s2, _. split; [done|]. split; [exact Ho2|]. intros f. rewrite lookup_delete, lookup_delete_all.
  assert (f ∈ rev (omap (frame_of s T) (concat (region_steps <$> l.*2))) <->
    f ∈ omap (frame_of s T) (concat (region_steps <$> l.*2))) as Hrev by (by rewrite !list_elem_of_In, <- in_rev).
  repeat case_decide; try done; naive_solver.
Qed.

Lemma demo_pt_zero i : idx_ok i -> entry_at demo_pt (2 ^ 18) i = Some 0.
Proof.
  intros Hi. unfold entry_at, demo_pt, zero_page. rewrite ba_mem_set.
  replace i with (Z.of_nat (Z.to_nat i)) by (unfold idx_ok in Hi; lia). apply zero_words_in. unfold idx_ok in Hi. lia.
Qed.

Lemma amm_vmap_create_ok_witness :
  exists r next s', amm_vmap_create demo_pt 7 (2 ^ 18 * PAGE_SIZE) = Some (r, next, s').
Proof.
  destruct (amm_vmap_create_ok demo_pt demo_owned (2 ^ 18) 7 (pt_owns user_half _ _ _ _ demo_pt_inv) eq_refl
    ltac:(intros j Hj; exists 0; apply demo_pt_zero; unfold idx_ok; lia)) as [(s' & next & E & _)|(s' & p & E & _)].
  - exists None, next, s'. exact E.
  - eexists _, _, s'. exact E.
Defined.

Lemma demo_unmapped vas : omap (frame_of demo_pt {[ [] := 2 ^ 18 ]}) vas = [].
Proof.
  induction vas as [|va vas IH]; [done|]. cbn [omap list_omap]. unfold frame_of at 1, xlate, leaf.
  by rewrite lookup_singleton_ne.
Qed.

Lemma demo_regions_user :
  Forall (fun g => rg_end g + PAGE_SIZE <= 2 ^ 64 /\
    forall x, rg_base g <= x < rg_end g -> user_half (PML4_IDX x) = true) [demo_code; demo_stack].
Proof.
  apply Forall_cons; split; [|apply Forall_singleton]; split; try done;
    intros x Hx; apply low_user; unfold rg_end in Hx; simpl in Hx; lia.
Qed.

Lemma demo_backed vas : backed demo_pt demo_owned {[ [] := 2 ^ 18 ]} vas.
Proof. unfold backed. rewrite demo_unmapped. split; constructor. Qed.

Lemma amm_vmap_destroy_ok_witness :
  exists s', amm_vmap_destroy demo_pt demo_pool demo_space = Some (s', mk_vmap None (2 ^ 18 * PAGE_SIZE) 0).
Proof.
  destruct (amm_vmap_destroy_ok user_half demo_pt demo_owned (2 ^ 18) {[ [] := 2 ^ 18 ]} demo_pool demo_space
    [(1%nat, demo_code); (0%nat, demo_stack)] demo_pt_inv demo_space_inv eq_refl demo_regions_user (demo_backed _))
    as (s' & O' & E & _).
  exists s'. exact E.
Defined.
