(* ===== verification/Shm.v ===== *)
(** * Shared memory objects (src/kernel/mm/mm.c, lines 557-683)

    Named objects of physically contiguous pages that are mapped at consecutive kernel
    addresses.  Pages come from any allocator of the class [BlockAlloc]; the table of objects and
    the next free address are explicit.  Each call runs alone: the lock is
    taken and released on every path and is not modelled; nor is the TLB. *)

From Stdlib Require Import ZArith Lia.
From stdpp Require Import base strings sets gmap functions list.
From S2P Require Import Prelude KString Phys PhysSpec PhysIface PageTable.

Local Open Scope Z_scope.

Definition MAX_SHM_ENTRIES : nat := 256.
Definition SHM_NAME_LEN : nat := 64.
Definition SHM_CREATE : Z := 0x01.
Definition SHM_RDONLY_USERLAND : Z := 0x02.
Definition SHM_KERNEL_VA_BASE : Z := 0xFFFFE80000000000.

Record shm_entry_t := mk_shm { sh_name : list Z; sh_paddr : Z; sh_size : Z; sh_va_base : Z; sh_refcount : Z; sh_flags : Z }.

(** [g_shm_table] and [g_shm_kernel_va_next] *)
Record shm_st := mk_shm_st { sm_table : list shm_entry_t; sm_va_next : Z }.

(** [e.name[0] != 0] *)
Definition shm_used (e : shm_entry_t) : bool := negb (match sh_name e with c :: _ => c =? 0 | [] => true end).

(** The search for an object by name. *)
Fixpoint shm_find (t : list shm_entry_t) (name : list Z) : option (option nat) :=
  match t with
  | [] => Some None
  | e :: t' =>
      if shm_used e then
        r ← strcmp (sh_name e) name;
        if r =? 0 then Some (Some 0%nat) else i ← shm_find t' name; Some (option_map S i)
      else i ← shm_find t' name; Some (option_map S i)
  end.

(** [while ((1UL << order) * PAGE_SIZE < size) order++]; a shift by 64 is undefined. *)
Fixpoint shm_order (fuel order : nat) (size : Z) : option nat :=
  match fuel with
  | O => None
  | S fuel' => if u64 (Z.shiftl 1 (Z.of_nat order) * PAGE_SIZE) <? size then shm_order fuel' (S order) size else Some order
  end.

(** The number of rounds of [for (off = 0; off < size; off += PAGE_SIZE)]. *)
Definition shm_pages (size : Z) : nat := Z.to_nat ((size + PAGE_SIZE - 1) / PAGE_SIZE).

(** The table and the next address when the kernel starts. *)
Definition shm_start : shm_st :=
  mk_shm_st (replicate MAX_SHM_ENTRIES (mk_shm (replicate SHM_NAME_LEN 0) 0 0 0 0 0)) SHM_KERNEL_VA_BASE.

Section shm.
Context `{BlockAlloc St}.

(** The pages of [va, va + size) mapped to the pages from [pa] on; [n] pages are left. *)
Fixpoint shm_map_loop (s : St) (cr3 va pa prot : Z) (off : Z) (n : nat) : option St :=
  match n with
  | O => Some s
  | S n' => s ← map_page s cr3 (u64 (va + off)) (u64 (pa + off)) prot; shm_map_loop s cr3 va pa prot (off + PAGE_SIZE) n'
  end.

(** A new object in a free entry; the inner [None] is the return of 0. *)
Definition shm_create (s : St) (t : list shm_entry_t) (name : list Z) (size flags : Z) : option (option (nat * list shm_entry_t) * St) :=
  match find_idx (fun e => negb (shm_used e)) t with
  | None => Some (None, s)
  | Some i =>
      e ← t !! i;
      order ← shm_order 64 0 size;
      '(phys, s) ← ba_alloc s order;
      if phys =? 0 then Some (None, s)
      else
        let s := ba_set_mem s (zero_words (ba_mem s) phys (2 ^ order * 512)) in
        nm ← strncpy (sh_name e) name SHM_NAME_LEN;
        Some (Some (i, <[i := mk_shm nm phys size 0 0 (u32 flags)]> t), s)
  end.

Definition amm_shmap (s : St) (sh : shm_st) (g_kernel_cr3 : Z) (name : list Z) (size flags : Z) : option (Z * St * shm_st) :=
  let size := PAGE_ALIGN size in
  found ← shm_find (sm_table sh) name;
  '(entry, s) ← (match found with
    | Some i => Some (Some (i, sm_table sh), s)
    | None => if negb (Z.land flags SHM_CREATE =? 0) then shm_create s (sm_table sh) name size flags else Some (None, s)
    end);
  match entry with
  | None => Some (0, s, sh)
  | Some (i, t) =>
      e ← t !! i;
      let '(va, next) := if sh_va_base e =? 0 then (sm_va_next sh, u64 (sm_va_next sh + size)) else (sh_va_base e, sm_va_next sh) in
      let e := mk_shm (sh_name e) (sh_paddr e) (sh_size e) va (u32 (sh_refcount e + 1)) (sh_flags e) in
      let prot := if Z.land flags SHM_RDONLY_USERLAND =? 0 then Z.lor PROT_READ PROT_WRITE else PROT_READ in
      s ← shm_map_loop s g_kernel_cr3 va (sh_paddr e) (Z.lor prot PROT_WRITE) 0 (shm_pages size);
      Some (va, s, mk_shm_st (<[i := e]> t) next)
  end.

(** The entries of [va_base, va_base + size) cleared; [n] pages are left. *)
Fixpoint shm_unmap_loop (s : St) (cr3 va off : Z) (n : nat) : option St :=
  match n with
  | O => Some s
  | S n' =>
      '(pte, s) ← pt_walk_alloc s cr3 (u64 (va + off));
      s ← (match pte with
           | None => Some s
           | Some a => v ← ba_mem s !! a; Some (if negb (Z.land v PTE_PRESENT =? 0) then wr s a 0 else s)
           end);
      shm_unmap_loop s cr3 va (off + PAGE_SIZE) n'
  end.

Definition amm_shunmap (s : St) (sh : shm_st) (g_kernel_cr3 addr : Z) : option (Z * St * shm_st) :=
  if addr =? 0 then Some (-1, s, sh)
  else match find_idx (fun e => shm_used e && (sh_va_base e <=? addr) && (addr <? u64 (sh_va_base e + sh_size e))) (sm_table sh) with
  | None => Some (-1, s, sh)
  | Some i =>
      e ← sm_table sh !! i;
      s ← shm_unmap_loop s g_kernel_cr3 (sh_va_base e) 0 (shm_pages (sh_size e));
      let refs := u32 (sh_refcount e - 1) in
      if refs =? 0 then
        order ← shm_order 64 0 (sh_size e);
        s ← ba_free s (sh_paddr e) order;
        nm ← put (sh_name e) 0 0;
        Some (0, s, mk_shm_st (<[i := mk_shm nm 0 0 0 refs 0]> (sm_table sh)) (sm_va_next sh))
      else Some (0, s, mk_shm_st (<[i := mk_shm (sh_name e) (sh_paddr e) (sh_size e) (sh_va_base e) refs (sh_flags e)]> (sm_table sh)) (sm_va_next sh))
  end.

End shm.
