(* ===== verification/ShmSpec.v ===== *)
(** * Correctness of shared memory objects

    [shm_inv] ties the table of objects to the allocator and to the page tables: every object
    owns its block, no two objects share a name, a block or an address.  Creating, attaching and
    unmapping keep it.  The last section records where the operations fall short. *)

From Stdlib Require Import ZArith Lia.
From stdpp Require Import base strings sets gmap functions list.
From S2P Require Import Prelude KString Phys PhysSpec PhysIface PageTable PageTableSpec Shm.

Local Open Scope Z_scope.

(** ** The size of an object *)

Lemma shm_order_spec fuel order size :
  (order + fuel = 64)%nat -> (order <= 40)%nat -> size <= 2 ^ 52 ->
  exists k, shm_order fuel order size = Some k /\ size <= pow2 k * PAGE_SIZE.
Proof.
  revert order. induction fuel as [|fuel IH]; intros order Hf Ho Hs; [lia|]. cbn [shm_order].
  rewrite Z.shiftl_mul_pow2, Z.mul_1_l by lia.
  pose proof (Z.pow_le_mono_r 2 (Z.of_nat order) 40 ltac:(lia) ltac:(lia)) as Hp.
  pose proof (Z.pow_pos_nonneg 2 (Z.of_nat order) ltac:(lia) ltac:(lia)).
  rewrite u64_small by (unfold PAGE_SIZE; lia). destruct (Z.ltb_spec (pow2 order * PAGE_SIZE) size) as [Hlt|Hge].
  - apply IH; [lia| |done]. destruct (decide (order = 40)%nat) as [->|]; [|lia].
    change (pow2 40 * PAGE_SIZE) with (2 ^ 52) in Hlt. lia.
  - exists order. split; [done|lia].
Qed.

Lemma PAGE_ALIGN_spec size : 0 <= size < 2 ^ 64 ->
  0 <= PAGE_ALIGN size < 2 ^ 64 /\ (PAGE_SIZE | PAGE_ALIGN size).
Proof.
  intros Hs. unfold PAGE_ALIGN. pose proof (u64_range (size + PAGE_SIZE - 1)) as Hu. rewrite page_mask by done.
  pose proof (Z.div_mod (u64 (size + PAGE_SIZE - 1)) PAGE_SIZE ltac:(done)).
  pose proof (Z.mod_pos_bound (u64 (size + PAGE_SIZE - 1)) PAGE_SIZE ltac:(done)).
  pose proof (Z.div_pos (u64 (size + PAGE_SIZE - 1)) PAGE_SIZE ltac:(lia) ltac:(done)).
  split; [unfold PAGE_SIZE in *; lia|apply Z.divide_factor_r].
Qed.

Lemma shm_pages_spec size : 0 <= size -> (PAGE_SIZE | size) -> Z.of_nat (shm_pages size) * PAGE_SIZE = size.
Proof.
  intros Hs [c ->]. unfold shm_pages. replace (c * PAGE_SIZE + PAGE_SIZE - 1) with (c * PAGE_SIZE + (PAGE_SIZE - 1)) by lia.
  rewrite Z.div_add_l, (Z.div_small (PAGE_SIZE - 1)) by (unfold PAGE_SIZE; lia).
  rewrite Z2Nat.id; unfold PAGE_SIZE in *; lia.
Qed.

Lemma cstring_inj s str str' : cstring s str -> cstring s str' -> str = str'.
Proof. intros H1%until0_cstring H2%until0_cstring. congruence. Qed.

(** ** Finding an object *)

Lemma shm_find_spec t name str :
  cstring name str -> (forall i e, t !! i = Some e -> shm_used e = true -> exists nm, cstring (sh_name e) nm) ->
  exists r, shm_find t name = Some r /\
    match r with
    | Some i => exists e, t !! i = Some e /\ shm_used e = true /\ cstring (sh_name e) str
    | None => forall i e, t !! i = Some e -> shm_used e = true -> ~ cstring (sh_name e) str
    end.
Proof.
  intros Hn. induction t as [|e t IH]; intros Ht; [by exists None|]. cbn [shm_find].
  destruct IH as (r & E & Hr); [intros i e' He'; by apply (Ht (S i))|].
  assert (forall nm, (shm_used e = true -> cstring (sh_name e) nm /\ nm <> str) -> match option_map S r with
    | Some i => exists e', (e :: t) !! i = Some e' /\ shm_used e' = true /\ cstring (sh_name e') str
    | None => forall i e', (e :: t) !! i = Some e' -> shm_used e' = true -> ~ cstring (sh_name e') str end) as Hrest.
  { intros nm Hnm. destruct r as [i|]; [exact Hr|]. intros [|i] e' He' Hu; [|by apply (Hr i)].
    injection He' as <-. destruct (Hnm Hu) as [Hc Hne]. intros Hc'. by apply Hne, (cstring_inj (sh_name e)). }
  destruct (shm_used e) eqn:Hu.
  - destruct (Ht 0%nat e eq_refl Hu) as [nm Hnm]. destruct (strcmp_cstring _ _ _ _ Hnm Hn) as (c & -> & Hc). cbn [mbind option_bind].
    destruct (Z.eqb_spec c 0) as [Hz|Hz].
    + exists (Some 0%nat). split; [done|]. exists e. apply Hc in Hz as ->. done.
    + rewrite E. cbn [mbind option_bind]. eexists. split; [done|]. apply (Hrest nm). split; [done|]. intros ->. by apply Hz, Hc.
  - rewrite E. cbn [mbind option_bind]. eexists. split; [done|]. by apply (Hrest str).
Qed.

Section Spec.
Context `{BlockAllocLaws St}.
Context (D : Z -> bool).

Abbreviation tree := (gmap (list Z) Z).

(** The page of [va] is the [k]-th page from [base] on, for some [k < n]. *)
Definition in_object (base : Z) (n : nat) (va : Z) (k : Z) : Prop :=
  0 <= k < Z.of_nat n /\ vpage va = vpage (u64 (base + k * PAGE_SIZE)).

(** Translations after mapping [n] pages: each is the old one or the one asked for. *)
Definition object_mapped (s : St) (T : tree) (s' : St) (T' : tree) (base pa prot : Z) (n : nat) : Prop :=
  forall va, xlate s' T' va = xlate s T va \/ exists k, in_object base n va k /\
    xlate s' T' va = Some (Z.lor (Z.land (u64 (pa + k * PAGE_SIZE)) PTE_ADDR_MASK) (pte_flags prot)).

Lemma map_loop_ok root va pa prot n : forall s O T j,
  pt_inv D s O root T -> 0 <= j ->
  (forall k, 0 <= k < j + Z.of_nat n -> D (PML4_IDX (u64 (va + k * PAGE_SIZE))) = true) ->
  exists s' O' T', shm_map_loop s (root * PAGE_SIZE) va pa prot (j * PAGE_SIZE) n = Some s' /\
    pt_inv D s' O' root T' /\ kept s O T s' O' T' /\
    forall va', xlate s' T' va' = xlate s T va' \/ exists k, j <= k < j + Z.of_nat n /\
      vpage va' = vpage (u64 (va + k * PAGE_SIZE)) /\
      xlate s' T' va' = Some (Z.lor (Z.land (u64 (pa + k * PAGE_SIZE)) PTE_ADDR_MASK) (pte_flags prot)).
Proof.
  induction n as [|n IH]; intros s O T j I Hj HD; cbn [shm_map_loop].
  { exists s, O, T. do 2 (split; [done|]). split; [apply kept_refl|by left]. }
  destruct (map_page_spec D s O root T (u64 (va + j * PAGE_SIZE)) (u64 (pa + j * PAGE_SIZE)) prot I)
    as (s1 & O1 & T1 & -> & I1 & HO & _ & Hnew & Hd & Hx); [apply HD; lia|]. cbn [mbind option_bind].
  replace (j * PAGE_SIZE + PAGE_SIZE) with ((j + 1) * PAGE_SIZE) by lia.
  destruct (IH s1 O1 T1 (j + 1) I1) as (s' & O' & T' & -> & I' & K & Hx'); [lia|intros k Hk; apply HD; lia|].
  exists s', O', T'. do 2 (split; [done|]). split; [eapply kept_trans; [|exact K]; by split|].
  intros va'. destruct (Hx' va') as [E|(k & Hk & R)]; [|right; exists k; split; [lia|done]]. rewrite E.
  destruct Hx as [Hx|Hx]; rewrite Hx; [by left|]. destruct (Z.eqb_spec (vpage va') (vpage (u64 (va + j * PAGE_SIZE)))); [|by left].
  right. exists j. split; [lia|done].
Qed.

(** Clearing one entry. *)
Lemma unmap_page_ok s O root T va :
  pt_inv D s O root T -> D (PML4_IDX va) = true ->
  exists r s1 s' O' T', pt_walk_alloc s (root * PAGE_SIZE) va = Some (r, s1) /\
    (match r with
     | None => Some s1
     | Some a => v ← ba_mem s1 !! a; Some (if negb (Z.land v PTE_PRESENT =? 0) then wr s1 a 0 else s1)
     end) = Some s' /\
    pt_inv D s' O' root T' /\ kept s O T s' O' T' /\
    forall va', xlate s' T' va' = if vpage va' =? vpage va then None else xlate s T va'.
Proof.
  intros I HD. destruct (pt_walk_alloc_ok D s O root T va I HD) as (s1 & O1 & T1 & r & E & I1 & G & Hr).
  assert (forall va', xlate s1 T1 va' = xlate s T va') as Hx by (intros va'; by eapply grown_xlate).
  assert (kept s O T s1 O1 T1) as K by (split; [apply G|apply G|exact (gr_mem _ _ _ _ _ _ G)]).
  assert (xlate s1 T1 va = None -> forall va', xlate s1 T1 va' = if vpage va' =? vpage va then None else xlate s T va') as Hnone.
  { intros Hva va'. rewrite Hx. destruct (Z.eqb_spec (vpage va') (vpage va)) as [Hv|]; [|done]. by rewrite <- Hx, (xlate_ext _ _ _ _ Hv). }
  exists r, s1. destruct r as [a|].
  2: { exists s1, O1, T1. do 4 (split; [done|]). apply Hnone. unfold xlate, leaf. by rewrite Hr. }
  destruct Hr as (f & Hf & ->). destruct (pt_words _ _ _ _ _ I1 (path va) f (PT_IDX va) Hf (pt_idx_ok va)) as [v Hv].
  pose proof Hv as Hv'. unfold entry_at in Hv'. rewrite Hv'. cbn [mbind option_bind].
  destruct (Z.eqb_spec (Z.land v PTE_PRESENT) 0) as [Hp|Hp]; cbn [negb].
  - exists s1, O1, T1. do 4 (split; [done|]). apply Hnone. unfold xlate, leaf. rewrite Hf. cbn [mbind option_bind].
    rewrite Hv. cbn [mbind option_bind]. by rewrite Hp.
  - destruct (leaf_write_ok D s1 O1 root T1 va f 0 I1 Hf) as (I2 & Hx2 & Hm).
    eexists _, O1, T1. do 2 (split; [done|]). split; [exact I2|]. split; [|intros va'; rewrite Hx2; by rewrite Hx].
    eapply kept_trans; [exact K|]. split; [done|by left|]. intros a _ Ha. by apply Hm.
Qed.

Lemma unmap_loop_ok root va n : forall s O T j,
  pt_inv D s O root T -> 0 <= j ->
  (forall k, 0 <= k < j + Z.of_nat n -> D (PML4_IDX (u64 (va + k * PAGE_SIZE))) = true) ->
  exists s' O' T', shm_unmap_loop s (root * PAGE_SIZE) va (j * PAGE_SIZE) n = Some s' /\
    pt_inv D s' O' root T' /\ kept s O T s' O' T' /\
    (forall va' k, j <= k < j + Z.of_nat n -> vpage va' = vpage (u64 (va + k * PAGE_SIZE)) -> xlate s' T' va' = None) /\
    (forall va', (forall k, j <= k < j + Z.of_nat n -> vpage va' <> vpage (u64 (va + k * PAGE_SIZE))) ->
       xlate s' T' va' = xlate s T va') /\
    (forall va', xlate s T va' = None -> xlate s' T' va' = None).
Proof.
  induction n as [|n IH]; intros s O T j I Hj HD; cbn [shm_unmap_loop].
  { exists s, O, T. do 2 (split; [done|]). split; [apply kept_refl|]. split; [lia|done]. }
  destruct (unmap_page_ok s O root T (u64 (va + j * PAGE_SIZE)) I) as (r & s1 & s2 & O2 & T2 & -> & E & I2 & K2 & Hx2); [apply HD; lia|].
  cbn [mbind option_bind]. cbn [mbind option_bind] in E. rewrite E. cbn [mbind option_bind]. replace (j * PAGE_SIZE + PAGE_SIZE) with ((j + 1) * PAGE_SIZE) by lia.
  destruct (IH s2 O2 T2 (j + 1) I2) as (s' & O' & T' & -> & I' & K & Hin & Hout & Hmono); [lia|intros k Hk; apply HD; lia|].
  exists s', O', T'. do 2 (split; [done|]). split; [by eapply kept_trans|]. split; [|split].
  - intros va' k Hk Hv. destruct (decide (k = j)) as [->|]; [|apply (Hin va' k); [lia|done]].
    apply Hmono. rewrite Hx2, Hv. by rewrite Z.eqb_refl.
  - intros va' Hv. rewrite Hout by (intros k Hk; apply Hv; lia). rewrite Hx2.
    destruct (Z.eqb_spec (vpage va') (vpage (u64 (va + j * PAGE_SIZE)))) as [Hj'|]; [|done]. by destruct (Hv j ltac:(lia)).
  - intros va' Hn. apply Hmono. rewrite Hx2, Hn. by destruct (_ =? _).
Qed.
(** ** The invariant *)

(** A named object owns a block large enough for it, outside the page tables, and has its
    addresses below [next]. *)
Record shm_entry_ok (O : owned) (T : tree) (next : Z) (e : shm_entry_t) (p : Z) (k : nat) : Prop := {
  eo_name : exists nm, cstring (sh_name e) nm;
  eo_paddr : sh_paddr e = p * PAGE_SIZE /\ 0 < p;
  eo_owned : O !! p = Some k;
  eo_data : forall q, in_block p k q -> ~ table_frame T q;
  eo_order : shm_order 64 0 (sh_size e) = Some k;
  eo_size : 0 <= sh_size e <= pow2 k * PAGE_SIZE /\ (PAGE_SIZE | sh_size e);
  eo_va : SHM_KERNEL_VA_BASE <= sh_va_base e /\ sh_va_base e + sh_size e <= next;
}.

(** Two objects have different names and blocks and disjoint addresses. *)
Definition apart (e e' : shm_entry_t) : Prop :=
  (forall nm, cstring (sh_name e) nm -> ~ cstring (sh_name e') nm) /\ sh_paddr e <> sh_paddr e' /\
  (sh_va_base e + sh_size e <= sh_va_base e' \/ sh_va_base e' + sh_size e' <= sh_va_base e).

Record shm_inv (O : owned) (T : tree) (sh : shm_st) : Prop := {
  si_len : length (sm_table sh) = MAX_SHM_ENTRIES;
  si_name : forall i e, sm_table sh !! i = Some e -> length (sh_name e) = SHM_NAME_LEN;
  si_next : SHM_KERNEL_VA_BASE <= sm_va_next sh < 2 ^ 64;
  si_used : forall i e, sm_table sh !! i = Some e -> shm_used e = true -> exists p k, shm_entry_ok O T (sm_va_next sh) e p k;
  si_apart : forall i j e e', sm_table sh !! i = Some e -> sm_table sh !! j = Some e' -> i <> j ->
    shm_used e = true -> shm_used e' = true -> apart e e';
}.

Lemma apart_sym e e' : apart e e' -> apart e' e.
Proof. intros (H1 & H2 & H3). split; [intros nm A B; by apply (H1 nm)|]. split; [done|lia]. Qed.

Lemma shm_entry_ok_mono O T next O' T' next' e p k :
  shm_entry_ok O T next e p k -> O' !! p = Some k -> (forall q, in_block p k q -> ~ table_frame T' q) -> next <= next' ->
  shm_entry_ok O' T' next' e p k.
Proof. intros [] Ho Hd Hn. split; try done. lia. Qed.

Lemma kept_entry s O T s' O' T' next next' e p k :
  kept s O T s' O' T' -> next <= next' -> shm_entry_ok O T next e p k -> shm_entry_ok O' T' next' e p k.
Proof.
  intros K Hn He. pose proof (eo_owned _ _ _ _ _ _ He) as Ho. eapply shm_entry_ok_mono; [done| | |done].
  - eapply lookup_weaken; [done|apply K].
  - intros q Hq Ht. destruct (kp_new _ _ _ _ _ _ K q Ht) as [Ht'|Hno]; [by apply (eo_data _ _ _ _ _ _ He q)|].
    apply Hno. by exists p, k.
Qed.

Lemma shm_inv_kept s O T s' O' T' sh : kept s O T s' O' T' -> shm_inv O T sh -> shm_inv O' T' sh.
Proof.
  intros K [Hl Hn Hx Hu Ha]. split; try done. intros i e He Hu'. destruct (Hu i e He Hu') as (p & k & Hok).
  exists p, k. by eapply kept_entry.
Qed.

(** Replacing one entry. *)
Lemma shm_inv_set O T sh i e next :
  shm_inv O T sh -> length (sh_name e) = SHM_NAME_LEN -> sm_va_next sh <= next < 2 ^ 64 ->
  (shm_used e = true -> (exists p k, shm_entry_ok O T next e p k) /\
     forall j e', j <> i -> sm_table sh !! j = Some e' -> shm_used e' = true -> apart e e') ->
  shm_inv O T (mk_shm_st (<[i := e]> (sm_table sh)) next).
Proof.
  intros [Hl Hn Hx Hu Ha] Hlen Hnext He. split; simpl.
  - by rewrite length_insert.
  - intros j e' [[_ [<- _]]|[_ Hj]]%list_lookup_insert_Some; [done|by eapply Hn].
  - lia.
  - intros j e' [(_ & <- & _)|[_ Hj]]%list_lookup_insert_Some Hu'; [by apply He|].
    destruct (Hu j e' Hj Hu') as (p & k & Hok). exists p, k. eapply shm_entry_ok_mono; [done|apply Hok|apply Hok|lia].
  - intros j1 j2 e1 e2 [(-> & <- & _)|[N1 H1]]%list_lookup_insert_Some [(-> & <- & _)|[N2 H2]]%list_lookup_insert_Some Hne U1 U2.
    + done.
    + by apply (proj2 (He U1) j2).
    + by apply apart_sym, (proj2 (He U2) j1).
    + by eapply Ha.
Qed.

(** ** Creating an object *)

Lemma name_copy dest name str :
  length dest = SHM_NAME_LEN -> cstring name str -> (length str < SHM_NAME_LEN)%nat ->
  exists nm, strncpy dest name SHM_NAME_LEN = Some nm /\ cstring nm str /\ length nm = SHM_NAME_LEN.
Proof.
  intros Hd Hn Hl. unfold strncpy. rewrite (strncpy_from_spec dest name str 0 SHM_NAME_LEN Hn) by lia.
  eexists. split; [done|]. rewrite take_ge by lia. split; [|by rewrite length_inserts].
  destruct Hn as (rest & -> & Hall). exists (replicate (SHM_NAME_LEN - length str - 1) 0). split; [|done].
  assert (replicate (SHM_NAME_LEN - length str) 0 = 0 :: replicate (SHM_NAME_LEN - length str - 1) 0) as ->.
  { destruct (SHM_NAME_LEN - length str)%nat as [|n] eqn:E; [lia|]. simpl. by rewrite Nat.sub_0_r. }
  set (w := str ++ 0 :: _). assert (length w = length dest) as Hw.
  { unfold w. rewrite length_app. cbn [length]. rewrite length_replicate. lia. }
  apply list_eq. intros i. destruct (decide (i < length dest)%nat) as [Hi|Hi].
  - rewrite list_lookup_inserts by lia. by rewrite Nat.sub_0_r.
  - rewrite !lookup_ge_None_2; [done|lia|rewrite length_inserts; lia].
Qed.

(** A fresh block of zeroes for an object, outside [O] and the tables. *)
Record fresh_object (O : owned) (T : tree) (s : St) (p : Z) (k : nat) : Prop := {
  fo_pos : 0 < p;
  fo_new : forall q, in_block p k q -> ~ owned_page O q;
  fo_data : forall q, in_block p k q -> ~ table_frame T q;
  fo_zero : forall q i, in_block p k q -> idx_ok i -> entry_at s q i = Some 0;
}.

Lemma shm_create_ok s O root T sh name str size flags :
  pt_inv D s O root T -> shm_inv O T sh -> cstring name str -> (length str < SHM_NAME_LEN)%nat -> size <= 2 ^ 52 ->
  exists r s', shm_create s (sm_table sh) name size flags = Some (r, s') /\ (forall va, xlate s' T va = xlate s T va) /\
    match r with
    | None => pt_inv D s' O root T /\ kept s O T s' O T
    | Some (i, t) => exists e0 nm p k, sm_table sh !! i = Some e0 /\ shm_used e0 = false /\
        cstring nm str /\ length nm = SHM_NAME_LEN /\ t = <[i := mk_shm nm (p * PAGE_SIZE) size 0 0 (u32 flags)]> (sm_table sh) /\
        pt_inv D s' (<[p := k]> O) root T /\ kept s O T s' (<[p := k]> O) T /\ fresh_object O T s' p k /\
        shm_order 64 0 size = Some k /\ size <= pow2 k * PAGE_SIZE
    end.
Proof.
  intros I S Hn Hl Hs. unfold shm_create. destruct (find_idx _ (sm_table sh)) as [i|] eqn:Hf.
  2: { exists None, s. do 3 (split; [done|]). apply kept_refl. }
  apply find_idx_Some in Hf as (e0 & He0 & Hu & _). apply negb_true_iff in Hu. rewrite He0. cbn [mbind option_bind].
  destruct (shm_order_spec 64 0 size) as (k & -> & Hk); [done|lia|done|]. cbn [mbind option_bind].
  destruct (ba_alloc_law s O k (pt_owns _ _ _ _ _ I)) as [(s1 & -> & Ho & Hs1)|(p & s1 & -> & Hp0 & Hfresh & Ho & Hs1)];
    cbn [mbind option_bind].
  - destruct (pt_inv_same D s O root T s1 I Ho Hs1) as [I1 G]. exists None, s1. split; [done|].
    split; [intros va; by eapply grown_xlate|]. split; [done|]. split; [apply G|apply G|exact (gr_mem _ _ _ _ _ _ G)].
  - destruct (Z.eqb_spec (p * PAGE_SIZE) 0) as [E|_]; [unfold PAGE_SIZE in E; lia|].
    destruct (new_block_ok D s O root T s1 p k I Hfresh Ho Hs1) as (I2 & Hx & Hs2 & Hd & Hz).
    destruct (name_copy (sh_name e0) name str (si_name _ _ _ S i e0 He0) Hn Hl) as (nm & -> & Hnm & Hlen). cbn [mbind option_bind].
    eexists (Some (_, _)), _. split; [done|]. split; [exact Hx|]. exists e0, nm, p, k. do 5 (split; [done|]). split; [exact I2|].
    split; [|done]. split; [by apply insert_subseteq, (fresh_block O p k)|by left|]. intros a Ha _. by apply Hs2.
Qed.

Lemma fresh_object_kept O T s1 p k s' O' T' :
  fresh_object O T s1 p k -> kept s1 (<[p := k]> O) T s' O' T' -> fresh_object O T' s' p k.
Proof.
  intros [Hp Hn Hd Hz] K.
  assert (forall q, in_block p k q -> owned_page (<[p := k]> O) q) as Ho by (intros q Hq; exists p, k; by rewrite lookup_insert_eq).
  split; try done.
  - intros q Hq Ht. destruct (kp_new _ _ _ _ _ _ K q Ht) as [Ht'|Hno]; [by apply (Hd q)|]. by apply Hno, Ho.
  - intros q i Hq Hi. unfold entry_at. rewrite (kp_data _ _ _ _ _ _ K); [by apply Hz|..]; rewrite word_frame by done; auto.
Qed.

(** ** Mapping an object *)

(** The addresses of objects are managed by the tables. *)
Definition shm_managed : Prop := forall x, SHM_KERNEL_VA_BASE <= x < 2 ^ 64 -> D (PML4_IDX x) = true.

Lemma object_managed va size k :
  shm_managed -> SHM_KERNEL_VA_BASE <= va -> va + size < 2 ^ 64 -> 0 <= size -> (PAGE_SIZE | size) ->
  0 <= k < Z.of_nat (shm_pages size) -> D (PML4_IDX (u64 (va + k * PAGE_SIZE))) = true.
Proof.
  intros HD Hva Hlim Hs Hdiv Hk. pose proof (shm_pages_spec size Hs Hdiv). unfold SHM_KERNEL_VA_BASE in *.
  assert (k * PAGE_SIZE <= size) by (unfold PAGE_SIZE in *; nia). assert (0 <= k * PAGE_SIZE) by (unfold PAGE_SIZE; lia).
  rewrite u64_small by lia. apply HD. unfold SHM_KERNEL_VA_BASE. lia.
Qed.

Lemma map_object_ok root s O T va pa prot size :
  pt_inv D s O root T -> shm_managed -> SHM_KERNEL_VA_BASE <= va -> va + size < 2 ^ 64 -> 0 <= size -> (PAGE_SIZE | size) ->
  exists s' O' T', shm_map_loop s (root * PAGE_SIZE) va pa prot 0 (shm_pages size) = Some s' /\
    pt_inv D s' O' root T' /\ kept s O T s' O' T' /\ object_mapped s T s' T' va pa prot (shm_pages size).
Proof.
  intros I HD Hva Hlim Hs Hdiv. destruct (map_loop_ok root va pa prot (shm_pages size) s O T 0 I) as (s' & O' & T' & E & I' & K & Hx).
  { lia. } { intros k Hk. by apply (object_managed va size). }
  exists s', O', T'. do 3 (split; [done|]). intros x. destruct (Hx x) as [?|(k & ? & ? & ?)]; [by left|]. right. by exists k.
Qed.

(** The protection that is used, whatever the flags. *)
Lemma shm_prot flags :
  Z.lor (if Z.land flags SHM_RDONLY_USERLAND =? 0 then Z.lor PROT_READ PROT_WRITE else PROT_READ) PROT_WRITE = Z.lor PROT_READ PROT_WRITE.
Proof. by destruct (_ =? _). Qed.

(** The entry [e0], attached once more. *)
Definition attached (e0 : shm_entry_t) : shm_entry_t :=
  mk_shm (sh_name e0) (sh_paddr e0) (sh_size e0) (sh_va_base e0) (u32 (sh_refcount e0 + 1)) (sh_flags e0).

Lemma shmap_attach s O root T sh name str size flags i e0 :
  pt_inv D s O root T -> shm_inv O T sh -> shm_managed -> 0 <= size < 2 ^ 64 -> sm_va_next sh + PAGE_ALIGN size < 2 ^ 64 ->
  shm_find (sm_table sh) name = Some (Some i) -> sm_table sh !! i = Some e0 -> shm_used e0 = true -> cstring (sh_name e0) str ->
  exists s' O' T', amm_shmap s sh (root * PAGE_SIZE) name size flags =
      Some (sh_va_base e0, s', mk_shm_st (<[i := attached e0]> (sm_table sh)) (sm_va_next sh)) /\
    pt_inv D s' O' root T' /\ shm_inv O' T' (mk_shm_st (<[i := attached e0]> (sm_table sh)) (sm_va_next sh)) /\
    kept s O T s' O' T' /\
    object_mapped s T s' T' (sh_va_base e0) (sh_paddr e0) (Z.lor PROT_READ PROT_WRITE) (shm_pages (PAGE_ALIGN size)).
Proof.
  intros I S HD Hs Hnext Hfind Hi Hu Hc. destruct (PAGE_ALIGN_spec size Hs) as [Ha Hdiv].
  destruct (si_used _ _ _ S i e0 Hi Hu) as (p & k & Hok). pose proof (eo_va _ _ _ _ _ _ Hok) as [Hv1 Hv2].
  pose proof (eo_size _ _ _ _ _ _ Hok) as [[Hsz _] _].
  destruct (map_object_ok root s O T (sh_va_base e0) (sh_paddr e0) (Z.lor PROT_READ PROT_WRITE) (PAGE_ALIGN size) I HD)
    as (s' & O' & T' & E & I' & K & Hx); [done|lia|lia|done|].
  exists s', O', T'. split.
  { unfold amm_shmap. rewrite Hfind. cbn [mbind option_bind]. rewrite Hi. cbn [mbind option_bind].
    destruct (Z.eqb_spec (sh_va_base e0) 0); [unfold SHM_KERNEL_VA_BASE in *; lia|]. cbn [sh_paddr]. rewrite shm_prot, E. done. }
  split; [done|]. split; [|done]. eapply shm_inv_kept; [exact K|]. apply shm_inv_set; [done|exact (si_name _ _ _ S i e0 Hi)|split; [lia|apply S]|].
  intros _. split; [exists p, k; by destruct Hok|]. intros j e' Hj He' Hu'. exact (si_apart _ _ _ S i j e0 e' Hi He' (not_eq_sym Hj) Hu Hu').
Qed.

(** No object has the name. *)
Definition name_free (sh : shm_st) (str : list Z) : Prop :=
  forall i e, sm_table sh !! i = Some e -> shm_used e = true -> ~ cstring (sh_name e) str.

(** The state after an object was made in entry [i]. *)
Definition created (sh : shm_st) (i : nat) (nm : list Z) (p size flags : Z) : shm_st :=
  mk_shm_st (<[i := mk_shm nm (p * PAGE_SIZE) size (sm_va_next sh) 1 (u32 flags)]> (sm_table sh)) (sm_va_next sh + size).

Lemma created_inv s O T sh i e0 nm str p k size flags s1 :
  shm_inv O T sh -> sm_table sh !! i = Some e0 -> cstring nm str -> length nm = SHM_NAME_LEN -> name_free sh str ->
  kept s O T s1 (<[p := k]> O) T -> fresh_object O T s1 p k -> shm_order 64 0 size = Some k ->
  0 <= size <= pow2 k * PAGE_SIZE -> (PAGE_SIZE | size) -> sm_va_next sh + size < 2 ^ 64 ->
  shm_inv (<[p := k]> O) T (created sh i nm p size flags).
Proof.
  intros S Hi Hnm Hlen Hfree K F Hk Hs Hdiv Hnext. pose proof (si_next _ _ _ S) as Hn.
  apply shm_inv_set; [by eapply shm_inv_kept|done|lia|]. intros _. split.
  - exists p, k. split; cbn [sh_name sh_paddr sh_size sh_va_base]; [by exists str|split; [done|apply F]|apply lookup_insert_eq|apply F|exact Hk|split; [exact Hs|exact Hdiv]|lia].
  - intros j e' Hj He' Hu'. destruct (si_used _ _ _ S j e' He' Hu') as (p' & k' & Hok). split; [|split]; simpl.
    + intros nm' A. rewrite (cstring_inj _ _ _ A Hnm). by apply (Hfree j).
    + rewrite (proj1 (eo_paddr _ _ _ _ _ _ Hok)). intros E. assert (p = p') as <- by (unfold PAGE_SIZE in E; lia).
      apply (fo_new _ _ _ _ _ F p); [unfold in_block; pose proof (pow2_pos k); lia|]. eapply owned_head, Hok.
    + right. apply Hok.
Qed.

Lemma shmap_create s O root T sh name str size flags :
  pt_inv D s O root T -> shm_inv O T sh -> shm_managed -> 0 <= size < 2 ^ 64 -> sm_va_next sh + PAGE_ALIGN size < 2 ^ 64 ->
  cstring name str -> (length str < SHM_NAME_LEN)%nat ->
  shm_find (sm_table sh) name = Some None -> name_free sh str -> Z.land flags SHM_CREATE <> 0 ->
  (exists s', amm_shmap s sh (root * PAGE_SIZE) name size flags = Some (0, s', sh) /\ pt_inv D s' O root T /\
     kept s O T s' O T /\ forall va, xlate s' T va = xlate s T va) \/
  (exists i e0 nm p k s' O' T', amm_shmap s sh (root * PAGE_SIZE) name size flags =
      Some (sm_va_next sh, s', created sh i nm p (PAGE_ALIGN size) flags) /\
    sm_table sh !! i = Some e0 /\ shm_used e0 = false /\ cstring nm str /\
    pt_inv D s' O' root T' /\ shm_inv O' T' (created sh i nm p (PAGE_ALIGN size) flags) /\ kept s O T s' O' T' /\
    fresh_object O T' s' p k /\ PAGE_ALIGN size <= pow2 k * PAGE_SIZE /\
    object_mapped s T s' T' (sm_va_next sh) (p * PAGE_SIZE) (Z.lor PROT_READ PROT_WRITE) (shm_pages (PAGE_ALIGN size))).
Proof.
  intros I S HD Hs Hnext Hn Hl Hfind Hfree Hfl%Z.eqb_neq. destruct (PAGE_ALIGN_spec size Hs) as [Ha Hdiv].
  pose proof (si_next _ _ _ S) as Hnx. unfold SHM_KERNEL_VA_BASE in Hnx.
  destruct (shm_create_ok s O root T sh name str (PAGE_ALIGN size) flags I S Hn Hl) as (r & s1 & Hc & Hx1 & Hr); [lia|].
  unfold amm_shmap. rewrite Hfind. cbn [mbind option_bind]. rewrite Hfl. cbn [negb]. rewrite Hc. cbn [mbind option_bind].
  destruct r as [[i t]|]; [right|left; exists s1; by destruct Hr].
  destruct Hr as (e0 & nm & p & k & Hi & Hu & Hnm & Hlen & -> & I1 & K1 & F & Hk & Hsz).
  rewrite list_lookup_insert_eq by (by eapply lookup_lt_Some). cbn [mbind option_bind sh_va_base Z.eqb].
  rewrite u64_small by lia. cbn [sh_name sh_paddr sh_size sh_refcount sh_flags]. rewrite shm_prot.
  destruct (map_object_ok root s1 _ T (sm_va_next sh) (p * PAGE_SIZE) (Z.lor PROT_READ PROT_WRITE) (PAGE_ALIGN size) I1 HD)
    as (s' & O' & T' & -> & I' & K & Hx); [unfold SHM_KERNEL_VA_BASE; lia|lia|lia|done|]. cbn [mbind option_bind].
  exists i, e0, nm, p, k, s', O', T'. rewrite list_insert_insert_eq. do 5 (split; [done|]).
  split; [eapply shm_inv_kept; [exact K|]; apply (created_inv s O T sh i e0 nm str p k (PAGE_ALIGN size) flags s1 S Hi Hnm Hlen Hfree K1 F Hk); [lia|exact Hdiv|lia]|].
  split; [by eapply kept_trans|].
  split; [by eapply fresh_object_kept|]. split; [done|]. intros va. destruct (Hx va) as [->|?]; [left; apply Hx1|by right].
Qed.

(** ** Unmapping an object *)

(** The entry that [amm_shunmap] leaves behind. *)
Definition detached (e : shm_entry_t) : shm_entry_t :=
  if u32 (sh_refcount e - 1) =? 0 then mk_shm (<[0%nat := 0]> (sh_name e)) 0 0 0 0 0
  else mk_shm (sh_name e) (sh_paddr e) (sh_size e) (sh_va_base e) (u32 (sh_refcount e - 1)) (sh_flags e).

(** The address is one of the object. *)
Definition in_entry (e : shm_entry_t) (addr : Z) : Prop :=
  shm_used e = true /\ sh_va_base e <= addr < sh_va_base e + sh_size e.

Lemma detached_inv O T sh i e :
  shm_inv O T sh -> sm_table sh !! i = Some e -> shm_used e = true ->
  shm_inv O T (mk_shm_st (<[i := detached e]> (sm_table sh)) (sm_va_next sh)).
Proof.
  intros S Hi Hu. pose proof (si_name _ _ _ S i e Hi) as Hlen. apply shm_inv_set; [done| |split; [lia|apply S]|].
  - unfold detached. destruct (_ =? _); simpl; [by rewrite length_insert|done].
  - unfold detached. destruct (_ =? _).
    + unfold shm_used. simpl. destruct (sh_name e); [done|]. by simpl.
    + intros _. destruct (si_used _ _ _ S i e Hi Hu) as (p & k & Hok). split; [exists p, k; by destruct Hok|].
      intros j e' Hj He' Hu'. exact (si_apart _ _ _ S i j e e' Hi He' (not_eq_sym Hj) Hu Hu').
Qed.

(** Freeing a block that no table and no object uses. *)
Lemma free_object_ok s O root T sh p k :
  pt_inv D s O root T -> shm_inv O T sh -> O !! p = Some k -> (forall q, in_block p k q -> ~ table_frame T q) ->
  (forall i e, sm_table sh !! i = Some e -> shm_used e = true -> sh_paddr e <> p * PAGE_SIZE) ->
  exists s', ba_free s (p * PAGE_SIZE) k = Some s' /\ pt_inv D s' (delete p O) root T /\ shm_inv (delete p O) T sh /\
    (forall va, xlate s' T va = xlate s T va) /\ data_same (delete p O) T s s'.
Proof.
  intros I S Hp Hd Hn. destruct (ba_free_law s O p k (pt_owns _ _ _ _ _ I) Hp) as (s' & -> & Ho & Hs). exists s'.
  assert (forall π f, T !! π = Some f -> delete p O !! f = Some 0%nat) as Hfr.
  { intros π f Hf. rewrite lookup_delete_ne; [by eapply pt_frame|]. intros <-.
    apply (Hd p); [unfold in_block; pose proof (pow2_pos k); lia|by exists π]. }
  assert (forall π f i, T !! π = Some f -> idx_ok i -> entry_at s' f i = entry_at s f i) as He.
  { intros π f i Hf Hi. apply Hs. rewrite word_frame by done. eapply owned_head, Hfr, Hf. }
  split; [done|]. split; [|split; [|split; [|intros a Ha _; by apply Hs]]].
  - split; try apply I; [done|done|..].
    + intros π f i Hf Hi. rewrite (He π) by done. by eapply pt_words.
    + intros π f i e Hf Hl Hi Hm. rewrite (He π) by done. by eapply pt_child.
  - destruct S as [? ? ? Hu ?]. split; try done. intros i e Hi Hus. destruct (Hu i e Hi Hus) as (q & j & Hok). exists q, j.
    eapply shm_entry_ok_mono; [done| |apply Hok|lia]. rewrite lookup_delete_ne; [apply Hok|]. intros <-.
    apply (Hn i e Hi Hus), Hok.
  - intros va. unfold xlate, leaf. destruct (T !! path va) as [f|] eqn:E; [|done]. cbn [mbind option_bind].
    rewrite (He (path va)); [done|done|apply pt_idx_ok].
Qed.

Lemma shunmap_find O T sh addr :
  shm_inv O T sh ->
  match find_idx (fun e => shm_used e && (sh_va_base e <=? addr) && (addr <? u64 (sh_va_base e + sh_size e))) (sm_table sh) with
  | Some i => exists e, sm_table sh !! i = Some e /\ in_entry e addr
  | None => forall i e, sm_table sh !! i = Some e -> ~ in_entry e addr
  end.
Proof.
  intros S. assert (forall i e, sm_table sh !! i = Some e ->
    shm_used e && (sh_va_base e <=? addr) && (addr <? u64 (sh_va_base e + sh_size e)) = true <-> in_entry e addr) as Hiff.
  { intros i e He. unfold in_entry. destruct (shm_used e) eqn:Hu; [|split; [done|by intros [? _]]].
    destruct (si_used _ _ _ S i e He Hu) as (p & k & Hok). pose proof (eo_va _ _ _ _ _ _ Hok). pose proof (eo_size _ _ _ _ _ _ Hok).
    pose proof (si_next _ _ _ S). unfold SHM_KERNEL_VA_BASE in *. rewrite u64_small by lia. simpl. split; intros; lia. }
  destruct (find_idx _ _) as [i|] eqn:E.
  - apply find_idx_Some in E as (e & He & Hp & _). exists e. split; [done|]. by apply (Hiff i e He).
  - intros i e He Hin. rewrite find_idx_None in E. specialize (E i e He). apply (Hiff i e He) in Hin. congruence.
Qed.

Lemma in_entry_unique O T sh i j e e' addr :
  shm_inv O T sh -> sm_table sh !! i = Some e -> sm_table sh !! j = Some e' -> in_entry e addr -> in_entry e' addr -> i = j.
Proof.
  intros S Hi Hj [Hu Ha] [Hu' Ha']. destruct (decide (i = j)) as [|Hne]; [done|].
  destruct (si_apart _ _ _ S i j e e' Hi Hj Hne Hu Hu') as (_ & _ & ?). lia.
Qed.

(** The pages of an object lose their translation, others keep theirs. *)
Definition object_unmapped (s : St) (T : tree) (s' : St) (T' : tree) (e : shm_entry_t) : Prop :=
  (forall va k, in_object (sh_va_base e) (shm_pages (sh_size e)) va k -> xlate s' T' va = None) /\
  (forall va, (forall k, ~ in_object (sh_va_base e) (shm_pages (sh_size e)) va k) -> xlate s' T' va = xlate s T va).

(** The blocks owned after [amm_shunmap]: the last detach gives back the one of the object. *)
Definition object_released (O O' : owned) (T : tree) (s s' : St) (e : shm_entry_t) : Prop :=
  if u32 (sh_refcount e - 1) =? 0
  then exists p k, sh_paddr e = p * PAGE_SIZE /\ O !! p = Some k /\ delete p O ⊆ O' /\ O' !! p = None /\ data_same (delete p O) T s s'
  else O ⊆ O' /\ data_same O T s s'.

Lemma unmap_object_ok root s O T e next p k :
  pt_inv D s O root T -> shm_managed -> shm_entry_ok O T next e p k -> next < 2 ^ 64 ->
  exists s' O' T', shm_unmap_loop s (root * PAGE_SIZE) (sh_va_base e) 0 (shm_pages (sh_size e)) = Some s' /\
    pt_inv D s' O' root T' /\ kept s O T s' O' T' /\ object_unmapped s T s' T' e.
Proof.
  intros I HD Hok Hn. pose proof (eo_va _ _ _ _ _ _ Hok). destruct (eo_size _ _ _ _ _ _ Hok) as [? Hdiv].
  destruct (unmap_loop_ok root (sh_va_base e) (shm_pages (sh_size e)) s O T 0 I) as (s1 & O1 & T1 & E & I1 & K & Hx1 & Hx2 & _).
  { lia. } { intros j Hj. apply (object_managed _ (sh_size e)); [exact HD|lia|lia|lia|exact Hdiv|exact Hj]. }
  exists s1, O1, T1. split; [exact E|]. do 2 (split; [done|]).
  split; [intros va j [Hj Hv]; by apply (Hx1 va j)|]. intros va Hno. apply Hx2. intros j Hj Hv. by apply (Hno j).
Qed.

Lemma released_last O O1 T T1 s s1 s' p :
  kept s O T s1 O1 T1 -> data_same (delete p O1) T1 s1 s' -> data_same (delete p O) T s s'.
Proof.
  intros K Hd a Ha Hn. pose proof (owned_page_mono _ _ _ (delete_subseteq O p) Ha) as Ho.
  rewrite Hd, (kp_data _ _ _ _ _ _ K); try done.
  - eapply owned_page_mono; [|exact Ha]. apply delete_mono, K.
  - intros Ht. by destruct (kp_new _ _ _ _ _ _ K _ Ht).
Qed.

(** The entry of the last detach is not an object any more. *)
Lemma detached_frames O T sh i e j ej :
  shm_inv O T sh -> sm_table sh !! i = Some e -> shm_used e = true -> u32 (sh_refcount e - 1) = 0 ->
  <[i := detached e]> (sm_table sh) !! j = Some ej -> shm_used ej = true -> sh_paddr ej <> sh_paddr e.
Proof.
  intros S Hi Hu Hz Hj Hu' E. apply list_lookup_insert_Some in Hj as [(_ & <- & _)|[Hne Hj]].
  - unfold detached, shm_used in Hu'. rewrite Hz in Hu'. simpl in Hu'. by destruct (sh_name e).
  - destruct (si_apart _ _ _ S i j e ej Hi Hj Hne Hu Hu') as (_ & Hp & _). congruence.
Qed.

Lemma shunmap_entry s O root T sh i e addr :
  pt_inv D s O root T -> shm_inv O T sh -> shm_managed -> addr <> 0 -> sm_table sh !! i = Some e -> in_entry e addr ->
  exists s' O' T', amm_shunmap s sh (root * PAGE_SIZE) addr =
      Some (0, s', mk_shm_st (<[i := detached e]> (sm_table sh)) (sm_va_next sh)) /\
    pt_inv D s' O' root T' /\ shm_inv O' T' (mk_shm_st (<[i := detached e]> (sm_table sh)) (sm_va_next sh)) /\
    object_unmapped s T s' T' e /\ object_released O O' T s s' e.
Proof.
  intros I S HD Ha0%Z.eqb_neq Hi Hin. pose proof (shunmap_find O T sh addr S) as Hf. unfold amm_shunmap. rewrite Ha0.
  destruct (find_idx _ _) as [i'|]; [|by apply Hf in Hi].
  destruct Hf as (e' & Hi' & Hin'). assert (i' = i) as -> by (eapply in_entry_unique; eassumption).
  assert (e' = e) as -> by congruence. clear Hin' Hi'.
  rewrite Hi. cbn [mbind option_bind]. destruct Hin as [Hu _]. destruct (si_used _ _ _ S i e Hi Hu) as (p & k & Hok).
  destruct (unmap_object_ok root s O T e _ p k I HD Hok (proj2 (si_next _ _ _ S))) as (s1 & O1 & T1 & -> & I1 & K & Hun).
  cbn [mbind option_bind]. pose proof (shm_inv_kept _ _ _ _ _ _ _ K (detached_inv O T sh i e S Hi Hu)) as S1.
  pose proof (detached_frames O T sh i e) as Hfr. unfold object_released.
  destruct (Z.eqb_spec (u32 (sh_refcount e - 1)) 0) as [Hz|Hz].
  2: { apply Z.eqb_neq in Hz. exists s1, O1, T1. unfold detached in *. rewrite Hz in *. do 4 (split; [done|]). split; apply K. }
  pose proof (kept_entry _ _ _ _ _ _ _ _ _ _ _ K (Z.le_refl _) Hok) as Hok1. destruct (eo_paddr _ _ _ _ _ _ Hok) as [Hpa _].
  rewrite (eo_order _ _ _ _ _ _ Hok), Hpa. cbn [mbind option_bind].
  destruct (free_object_ok s1 O1 root T1 _ p k I1 S1 (eo_owned _ _ _ _ _ _ Hok1) (eo_data _ _ _ _ _ _ Hok1)) as (s' & -> & I' & S' & Hx & Hd).
  { intros j ej Hj Hu'. rewrite <- Hpa. by eapply Hfr. }
  cbn [mbind option_bind]. unfold put. rewrite decide_True by (rewrite (si_name _ _ _ S i e Hi); unfold SHM_NAME_LEN; lia).
  cbn [mbind option_bind]. exists s', (delete p O1), T1. split; [unfold detached; by rewrite Hz|]. do 2 (split; [done|]).
  split; [split; intros; rewrite Hx; by eapply Hun|]. exists p, k. split; [done|]. split; [apply Hok|].
  split; [apply delete_mono, K|]. split; [apply lookup_delete_eq|by eapply released_last].
Qed.

(** ** The operations *)


(** On a consistent table, [amm_shunmap] of an address that no object has returns -1 and changes
    nothing.  For an address inside an object it returns 0, removes the translation of every page
    of the object and of no other page, and gives the block back exactly when the last reference
    goes.  The table and the page tables stay consistent. *)
Theorem amm_shunmap_ok s O root T sh addr :
  pt_inv D s O root T -> shm_inv O T sh -> shm_managed ->
  ((forall i e, sm_table sh !! i = Some e -> ~ in_entry e addr) /\ amm_shunmap s sh (root * PAGE_SIZE) addr = Some (-1, s, sh)) \/
  (exists i e s' O' T', sm_table sh !! i = Some e /\ in_entry e addr /\
    amm_shunmap s sh (root * PAGE_SIZE) addr = Some (0, s', mk_shm_st (<[i := detached e]> (sm_table sh)) (sm_va_next sh)) /\
    pt_inv D s' O' root T' /\ shm_inv O' T' (mk_shm_st (<[i := detached e]> (sm_table sh)) (sm_va_next sh)) /\
    object_unmapped s T s' T' e /\ object_released O O' T s s' e).
Proof.
  intros I S HD. pose proof (shunmap_find O T sh addr S) as Hf. destruct (find_idx _ _) as [i|] eqn:E.
  - destruct Hf as (e & Hi & Hin). right. assert (addr <> 0) as Ha.
    { destruct Hin as [Hu Hr]. destruct (si_used _ _ _ S i e Hi Hu) as (p & k & Hok). pose proof (eo_va _ _ _ _ _ _ Hok).
      unfold SHM_KERNEL_VA_BASE in *. lia. }
    destruct (shunmap_entry s O root T sh i e addr I S HD Ha Hi Hin) as (s' & O' & T' & R). by exists i, e, s', O', T'.
  - left. split; [done|]. unfold amm_shunmap. rewrite E. by destruct (addr =? 0).
Qed.

End Spec.

(** ** A small allocator to run the operations on *)

(** Blocks are handed out upwards and never reused. *)
Record pool := mk_pool { pl_next : Z; pl_blocks : gmap Z nat; pl_mem : gmap Z Z }.

Definition pool_alloc (s : pool) (k : nat) : option (Z * pool) :=
  let p := (pl_next s / pow2 k + 1) * pow2 k in
  if p + pow2 k <=? PFN_LIMIT then Some (p * PAGE_SIZE, mk_pool (p + pow2 k) (<[p := k]> (pl_blocks s)) (pl_mem s)) else Some (0, s).

Definition pool_blocks_ok (s : pool) : Prop :=
  0 <= pl_next s <= PFN_LIMIT /\
  (forall p k, pl_blocks s !! p = Some k -> 0 <= p /\ p + pow2 k <= pl_next s /\ (pow2 k | p)) /\
  (forall p k q j, pl_blocks s !! p = Some k -> pl_blocks s !! q = Some j -> p <> q -> p + pow2 k <= q \/ q + pow2 j <= p).

#[export] Instance pool_block_alloc : BlockAlloc pool := {
  ba_alloc := pool_alloc;
  ba_free := fun s a _ => Some (mk_pool (pl_next s) (delete (a / PAGE_SIZE) (pl_blocks s)) (pl_mem s));
  ba_order := fun s p => Z.of_nat <$> pl_blocks s !! p;
  ba_mem := pl_mem;
  ba_set_mem := fun s m => mk_pool (pl_next s) (pl_blocks s) m;
  ba_owns := fun s O => pool_blocks_ok s /\ O ⊆ pl_blocks s;
}.

Lemma pool_alloc_ok s k p s' :
  pool_blocks_ok s -> pool_alloc s k = Some (p * PAGE_SIZE, s') -> p <> 0 ->
  pool_blocks_ok s' /\ pl_next s < p /\ pl_blocks s' = <[p := k]> (pl_blocks s) /\ pl_mem s' = pl_mem s.
Proof.
  intros (Hn & Hb & Hd) E Hp. unfold pool_alloc in E. pose proof (pow2_pos k) as Hk.
  destruct (Z.leb_spec ((pl_next s / pow2 k + 1) * pow2 k + pow2 k) PFN_LIMIT); injection E as E E'; [|unfold PAGE_SIZE in E; lia].
  remember ((pl_next s / pow2 k + 1) * pow2 k) as q eqn:Hq. assert (q = p) as -> by (unfold PAGE_SIZE in E; lia). subst s'. simpl.
  assert (pl_next s < p) as Hlt.
  { pose proof (Z.div_mod (pl_next s) (pow2 k) ltac:(lia)). pose proof (Z.mod_pos_bound (pl_next s) (pow2 k) Hk). nia. }
  split; [|done]. split; [simpl; lia|]. split; simpl.
  - intros x j [[<- <-]|[_ Hx]]%lookup_insert_Some; [|destruct (Hb x j Hx) as (? & ? & ?); split; [done|]; split; [lia|done]].
    split; [lia|]. split; [lia|]. rewrite Hq. apply Z.divide_factor_r.
  - intros x j y l [[<- <-]|[_ Hx]]%lookup_insert_Some [[<- <-]|[_ Hy]]%lookup_insert_Some Hne; [done| | |by eapply Hd].
    + right. destruct (Hb y l Hy) as (? & ? & ?). lia.
    + left. destruct (Hb x j Hx) as (? & ? & ?). lia.
Qed.

#[export] Instance pool_laws : BlockAllocLaws pool.
Proof.
  split; simpl.
  - done.
  - intros s O p k [(Hn & Hb & _) Hs] Hp. destruct (Hb p k (lookup_weaken _ _ _ _ Hp Hs)) as (? & ? & ?). split; [lia|]. split; [lia|done].
  - intros s O p k q j [(_ & _ & Hd) Hs] Hp Hq. apply Hd; by eapply lookup_weaken.
  - intros s O p k [_ Hs] Hp. by rewrite (lookup_weaken _ _ _ _ Hp Hs).
  - intros s O k [Hok Hs]. destruct (pool_alloc s k) as [[a s']|] eqn:E; [|unfold pool_alloc in E; by destruct (_ <=? _)].
    assert (exists p, a = p * PAGE_SIZE /\ (p = 0 -> s' = s)) as (p & -> & Hz).
    { pose proof (pow2_pos k). destruct Hok as (Hn & _). pose proof (Z.div_pos (pl_next s) (pow2 k) ltac:(lia) ltac:(lia)).
      unfold pool_alloc in E. destruct (_ <=? _); injection E as <- <-; [|by exists 0]. eexists. split; [done|]. nia. }
    destruct (decide (p = 0)) as [->|Hp]; [left; exists s; rewrite Hz by done; split_and!; done|right].
    destruct (pool_alloc_ok s k p s' Hok E Hp) as (Hok' & Hlt & Hbl & Hm). exists p, s'. split; [done|]. destruct Hok as (Hn & Hb & _).
    assert (forall q, in_block p k q -> ~ owned_page O q) as Hfresh.
    { intros q Hq (x & j & Hx & Hqx). destruct (Hb x j (lookup_weaken _ _ _ _ Hx Hs)) as (_ & ? & _). unfold in_block in *. lia. }
    split; [lia|]. split; [exact Hfresh|]. split; [split; [done|]; rewrite Hbl; by apply insert_mono|]. intros a _. exact (f_equal (.!! a) Hm).
  - intros s O p k [(Hn & Hb & Hd) Hs] Hp. rewrite Z.div_mul by done. eexists. split; [done|]. split; [|done]. split; [|by apply delete_mono].
    split; [done|]. split; simpl; [intros x j [_ Hx]%lookup_delete_Some; by apply Hb|].
    intros x j y l [_ Hx]%lookup_delete_Some [_ Hy]%lookup_delete_Some. by apply Hd.
  - done.
Qed.

(** An empty root table in frame 1. *)
Definition sample_s : pool := mk_pool 2 {[ 1 := 0%nat ]} (zero_words ∅ PAGE_SIZE 512).
Definition sample_O : owned := {[ 1 := 0%nat ]}.
Definition sample_T : gmap (list Z) Z := {[ [] := 1 ]}.
Definition log_name : list Z := [108; 111; 103; 0].

Lemma sample_pt : pt_inv (fun _ => true) sample_s sample_O 1 sample_T.
Proof.
  assert (forall i, idx_ok i -> entry_at sample_s 1 i = Some 0) as Hz.
  { intros i Hi. unfold entry_at. replace i with (Z.of_nat (Z.to_nat i)) by (unfold idx_ok in Hi; lia).
    apply zero_words_in. unfold idx_ok in Hi. lia. }
  unfold sample_T, sample_O. split.
  - split; [|done]. split; [simpl; unfold PFN_LIMIT; lia|]. split; simpl.
    + intros p k [<- <-]%lookup_singleton_Some. split; [lia|]. split; [simpl; lia|apply Z.divide_1_l].
    + by intros p k q j [<- <-]%lookup_singleton_Some [<- <-]%lookup_singleton_Some.
  - done.
  - by intros π f [<- <-]%lookup_singleton_Some.
  - by intros π π' f [<- _]%lookup_singleton_Some [<- _]%lookup_singleton_Some.
  - intros π i f [E _]%lookup_singleton_Some. by destruct π.
  - intros π f [<- _]%lookup_singleton_Some. simpl. lia.
  - intros π f i [<- <-]%lookup_singleton_Some Hi. rewrite Hz by done. by eexists.
  - intros π f i e [<- <-]%lookup_singleton_Some _ Hi _. rewrite Hz by done. intros [= <-].
    unfold child_ok. by rewrite lookup_singleton_ne.
Qed.

(** The table is consistent when the kernel starts. *)
Lemma shm_start_inv (O : owned) (T : gmap (list Z) Z) : shm_inv O T shm_start.
Proof.
  assert (forall i e, sm_table shm_start !! i = Some e -> e = mk_shm (replicate SHM_NAME_LEN 0) 0 0 0 0 0) as He.
  { intros i e [-> _]%lookup_replicate. done. }
  split.
  - reflexivity.
  - intros i e ->%He. reflexivity.
  - simpl. unfold SHM_KERNEL_VA_BASE. lia.
  - intros i e ->%He Hu. discriminate Hu.
  - intros i j e e' ->%He _ _ Hu. discriminate Hu.
Qed.

Lemma log_name_ok : cstring log_name [108; 111; 103].
Proof. exists []. split; [reflexivity|repeat constructor; lia]. Qed.


(** The object [log] of one page, just created. *)
Definition sample_created : option (Z * pool * shm_st) := amm_shmap sample_s shm_start (1 * PAGE_SIZE) log_name 4096 SHM_CREATE.

Lemma sample_created_ok :
  exists s sh O T, sample_created = Some (SHM_KERNEL_VA_BASE, s, sh) /\ pt_inv (fun _ => true) s O 1 T /\ shm_inv O T sh.
Proof.
  destruct (shmap_create (fun _ => true) sample_s sample_O 1 sample_T shm_start log_name [108; 111; 103] 4096 SHM_CREATE
    sample_pt (shm_start_inv _ _) (fun _ _ => eq_refl)) as [(s & E & _)|(i & e0 & nm & p & k & s & O & T & E & _ & _ & _ & I & S & _)];
    [lia|reflexivity|exact log_name_ok|unfold SHM_NAME_LEN; simpl; lia|vm_compute; reflexivity| |discriminate| |].
  - intros i e [-> _]%lookup_replicate Hu. discriminate Hu.
  - assert ((fun x => x.1.1) <$> sample_created = Some SHM_KERNEL_VA_BASE) as Hc by (vm_compute; reflexivity).
    unfold sample_created in Hc. rewrite E in Hc. discriminate Hc.
  - exists s, (created shm_start i nm p (PAGE_ALIGN 4096) SHM_CREATE), O, T. split; [exact E|]. by split.
Qed.

Lemma amm_shunmap_ok_witness :
  exists s sh r s' sh', sample_created = Some (SHM_KERNEL_VA_BASE, s, sh) /\
    amm_shunmap s sh (1 * PAGE_SIZE) SHM_KERNEL_VA_BASE = Some (r, s', sh').
Proof.
  destruct sample_created_ok as (s & sh & O & T & E & I & S). exists s, sh.
  destruct (amm_shunmap_ok (fun _ => true) s O 1 T sh SHM_KERNEL_VA_BASE I S (fun _ _ => eq_refl))
    as [[_ E']|(i & e & s' & O' & T' & _ & _ & E' & _)].
  - exists (-1), s, sh. split; [exact E|exact E'].
  - eexists 0, s', _. split; [exact E|exact E'].
Defined.

(** ** Where the operations fall short *)

(** Attach to the object of one page with a size of two. *)
Definition sample_attached : option (Z * pool * shm_st) :=
  '(_, s, sh) ← sample_created; amm_shmap s sh (1 * PAGE_SIZE) log_name 8192 0.

(** The object owns frame 3 only, yet the second page is mapped to frame 4, which nobody owns. *)
Theorem shm_attach_maps_past_object :
  (('(va, s, sh) ← sample_attached;
    e ← sm_table sh !! 0%nat;
    pa ← kva_walk s (1 * PAGE_SIZE) (va + PAGE_SIZE);
    Some (sh_paddr e, sh_size e, pl_blocks s !! 3, pa, pl_blocks s !! 4)) : option (Z * Z * option nat * option Z * option nat)) =
  Some (3 * PAGE_SIZE, PAGE_SIZE, Some 0%nat, Some (4 * PAGE_SIZE), None).
Proof. vm_compute. reflexivity. Qed.

(** One of two users unmaps: one reference is left, and the page is gone for the other one. *)
Theorem shm_unmap_hits_other_users :
  (('(_, s, sh) ← sample_attached;
    '(r, s, sh) ← amm_shunmap s sh (1 * PAGE_SIZE) SHM_KERNEL_VA_BASE;
    pa ← kva_walk s (1 * PAGE_SIZE) SHM_KERNEL_VA_BASE;
    e ← sm_table sh !! 0%nat; Some (r, pa, sh_refcount e)) : option (Z * option Z * Z)) = Some (0, None, 1).
Proof. vm_compute. reflexivity. Qed.

(** A name of 64 characters is stored without a terminator, and the next search reads past it. *)
Theorem shm_long_name_unterminated :
  let name := replicate SHM_NAME_LEN 97 ++ [0] in
  (('(_, s, sh) ← amm_shmap sample_s shm_start (1 * PAGE_SIZE) name 4096 SHM_CREATE;
    shm_find (sm_table sh) name) : option (option nat)) = None /\
  (fun x => x.1.1) <$> amm_shmap sample_s shm_start (1 * PAGE_SIZE) name 4096 SHM_CREATE = Some SHM_KERNEL_VA_BASE.
Proof. split; vm_compute; reflexivity. Qed.

(** An object with an empty name is not in the table afterwards, and its block is lost. *)
Theorem shm_empty_name_lost :
  (('(va, s, sh) ← amm_shmap sample_s shm_start (1 * PAGE_SIZE) [0] 4096 SHM_CREATE;
    '(r, _, _) ← amm_shunmap s sh (1 * PAGE_SIZE) va;
    Some (va, r, pl_blocks s !! 3)) : option (Z * Z * option nat)) = Some (SHM_KERNEL_VA_BASE, -1, Some 0%nat).
Proof. vm_compute. reflexivity. Qed.
