(* ===== verification/Slab.v ===== *)
(** * The kernel heap: slabs and large blocks (src/kernel/mm/mm.c, lines 750-880)

    [kmalloc] serves up to 4096 bytes from slabs of equal objects and larger
    requests from the page allocator.  A pointer is modelled by the physical address
    behind it (kernel pointers add [PHYS_MAP_BASE], which is aligned to more than two
    pages); a null pointer is [None].  [sl_mem] is the first 64 bytes of each page,
    read as a slab header, whether or not the page is a slab: [kfree] looks at them
    before it knows.  The bitmap is the number whose bit [i] is bit [i % 8] of byte
    [i / 8]. *)

From Stdlib Require Import ZArith Lia.
From stdpp Require Import base gmap functions list.
From S2P Require Import Prelude Phys PhysSpec PhysIface.

Local Open Scope Z_scope.

Definition slab_sizes : list Z := [8; 16; 32; 64; 128; 256; 512; 1024; 2048; 4096].
Definition SLAB_CLASSES : nat := 10.
Definition SLAB_HDR_SZ : Z := 64.

Record slab_hdr_t := mk_hdr {
  sh_free_count : Z;
  sh_obj_size : Z;
  sh_capacity : Z;
  sh_next : option Z;
  sh_bitmap : Z;
}.

Record slab_st (St : Type) := mk_slab {
  sl_ph : St;
  sl_heads : list (option Z);
  sl_mem : gmap Z slab_hdr_t;
}.
Arguments mk_slab {St}.
Arguments sl_ph {St}.
Arguments sl_heads {St}.
Arguments sl_mem {St}.

Definition slab_class (size : Z) : option nat := find_idx (fun sz => size <=? sz) slab_sizes.

(** The header that [slab_new] writes for objects of [obj_sz] bytes. *)
Definition slab_pages (obj_sz : Z) : Z := if 2048 <=? obj_sz then 2 else 1.

Definition new_header (obj_sz : Z) : slab_hdr_t :=
  let capacity := u32 ((slab_pages obj_sz * PAGE_SIZE - SLAB_HDR_SZ) / obj_sz) in
  mk_hdr capacity obj_sz (if 288 <? capacity then 288 else capacity) None 0.

(** The search for a free slot: the first clear bit, or slot 0 when there is none. *)
Fixpoint free_slot (bitmap : Z) (i : Z) (n : nat) : Z :=
  match n with
  | O => 0
  | S n' => if negb (Z.testbit bitmap i) then i else free_slot bitmap (i + 1) n'
  end.

(** Take a slot of the slab: its number and the header afterwards. *)
Definition take_slot (h : slab_hdr_t) : Z * slab_hdr_t :=
  let slot := free_slot (sh_bitmap h) 0 (Z.to_nat (sh_capacity h)) in
  (slot, mk_hdr (u32 (sh_free_count h - 1)) (sh_obj_size h) (sh_capacity h) (sh_next h)
           (Z.setbit (sh_bitmap h) slot)).

(** [while (s && s->free_count == 0) s = s->next] *)
Fixpoint find_slab (fuel : nat) (mem : gmap Z slab_hdr_t) (s : option Z) : option (option Z) :=
  match s with
  | None => Some None
  | Some f =>
      match fuel with
      | O => None
      | S fuel' =>
          h ← mem !! f;
          if sh_free_count h =? 0 then find_slab fuel' mem (sh_next h) else Some (Some f)
      end
  end.

(** [while ((size_t)(PAGE_SIZE << order) < size) order++] *)
Fixpoint large_order (fuel : nat) (order : nat) (size : Z) : option nat :=
  if u64 (Z.shiftl PAGE_SIZE (Z.of_nat order)) <? size then
    match fuel with
    | O => None
    | S fuel' => large_order fuel' (S order) size
    end
  else Some order.

Section Slab.
Context `{BlockAlloc St}.

(** [slab_new]: the frame of the slab, or null. *)
Definition slab_new (st : slab_st St) (obj_sz : Z) : option (option Z * slab_st St) :=
  '(pa, ph) ← ba_alloc (sl_ph st) (if slab_pages obj_sz =? 2 then 1%nat else 0%nat);
  if pa =? 0 then Some (None, mk_slab ph (sl_heads st) (sl_mem st))
  else
    let f := pa / PAGE_SIZE in
    Some (Some f, mk_slab ph (sl_heads st) (<[f := new_header obj_sz]> (sl_mem st))).

Definition set_next (h : slab_hdr_t) (n : option Z) : slab_hdr_t :=
  mk_hdr (sh_free_count h) (sh_obj_size h) (sh_capacity h) n (sh_bitmap h).

Definition kmalloc (st : slab_st St) (size : Z) : option (option Z * slab_st St) :=
  if size =? 0 then Some (None, st)
  else
    match slab_class size with
    | None =>
        order ← large_order 51 0 size;
        '(pa, ph) ← ba_alloc (sl_ph st) order;
        Some (if pa =? 0 then None else Some pa, mk_slab ph (sl_heads st) (sl_mem st))
    | Some cls =>
        sz ← slab_sizes !! cls;
        head ← sl_heads st !! cls;
        found ← find_slab (base.size (sl_mem st)) (sl_mem st) head;
        '(s, st1) ← match found with
                    | Some f => Some (Some f, st)
                    | None =>
                        '(r, st1) ← slab_new st sz;
                        match r with
                        | None => Some (None, st1)
                        | Some f =>
                            h ← sl_mem st1 !! f;
                            Some (Some f, mk_slab (sl_ph st1) (<[cls := Some f]> (sl_heads st1))
                                            (<[f := set_next h head]> (sl_mem st1)))
                        end
                    end;
        match s with
        | None => Some (None, st1)
        | Some f =>
            h ← sl_mem st1 !! f;
            let '(slot, h') := take_slot h in
            Some (Some (f * PAGE_SIZE + SLAB_HDR_SZ + slot * sz),
                  mk_slab (sl_ph st1) (sl_heads st1) (<[f := h']> (sl_mem st1)))
        end
    end.

(** Does a page start like a slab header? *)
Definition plausible (h : slab_hdr_t) : bool := (8 <=? sh_obj_size h) && (sh_obj_size h <=? 4096).

(** [amm_phys_free(pa, pi->order)] *)
Definition free_block (st : slab_st St) (pa : Z) : option (slab_st St) :=
  order ← ba_order (sl_ph st) (Z.shiftr pa PAGE_SHIFT);
  ph ← ba_free (sl_ph st) pa (Z.to_nat order);
  Some (mk_slab ph (sl_heads st) (sl_mem st)).

(** Clear a slot, unless it is out of range or already free. *)
Definition clear_slot (h : slab_hdr_t) (slot : Z) : option slab_hdr_t :=
  if sh_capacity h <=? slot then None
  else if negb (Z.testbit (sh_bitmap h) slot) then None
  else Some (mk_hdr (u32 (sh_free_count h + 1)) (sh_obj_size h) (sh_capacity h) (sh_next h)
               (Z.clearbit (sh_bitmap h) slot)).

Definition kfree (st : slab_st St) (ptr : option Z) : option (slab_st St) :=
  match ptr with
  | None => Some st
  | Some pa =>
      let f := pa / PAGE_SIZE in
      hp ← sl_mem st !! f;
      if (pa mod PAGE_SIZE =? 0) && plausible hp then free_block st pa
      else
        spi_order ← ba_order (sl_ph st) f;
        let s := if (spi_order =? 1) && (PAGE_SIZE <=? pa mod (2 * PAGE_SIZE)) then f - 1 else f in
        h ← sl_mem st !! s;
        if negb (plausible h) then free_block st pa
        else
          let off := u64 (pa - (s * PAGE_SIZE + SLAB_HDR_SZ)) in
          match clear_slot h (u32 (off / sh_obj_size h)) with
          | None => Some st
          | Some h' => Some (mk_slab (sl_ph st) (sl_heads st) (<[s := h']> (sl_mem st)))
          end
  end.
End Slab.

(** ** Bitmaps *)

(** The set bits below [n]. *)
Definition popcount (b : Z) (n : Z) : Z := Z.of_nat (length (filter (fun i => Z.testbit b i = true) (seqZ 0 n))).

Lemma free_slot_ok b n : forall i, 0 <= i ->
  (exists j, i <= j < i + Z.of_nat n /\ Z.testbit b j = false) ->
  let r := free_slot b i n in i <= r < i + Z.of_nat n /\ Z.testbit b r = false.
Proof.
  induction n as [|n IH]; intros i Hi (j & Hj & Hb); [lia|]. cbn [free_slot].
  destruct (Z.testbit b i) eqn:E; cbn [negb].
  - destruct (IH (i + 1)) as [Hr Hb']; [lia| |split; [lia|done]].
    exists j. split; [|done]. destruct (decide (j = i)) as [->|]; [congruence|lia].
  - split; [lia|done].
Qed.

Lemma popcount_range b n : 0 <= n -> 0 <= popcount b n <= n.
Proof.
  intros Hn. unfold popcount. pose proof (length_filter (fun i => Z.testbit b i = true) (seqZ 0 n)) as Hl.
  rewrite length_seqZ in Hl. lia.
Qed.

Lemma filter_all {A} (P : A -> Prop) `{!forall x, Decision (P x)} (l : list A) :
  (forall x, x ∈ l -> P x) -> filter P l = l.
Proof. induction l as [|x l IH]; intros Hall; [done|]. rewrite filter_cons_True by set_solver. f_equal. set_solver. Qed.

(** A slab with a free slot has a clear bit. *)
Lemma popcount_lt b n : 0 <= n -> popcount b n < n -> exists j, 0 <= j < n /\ Z.testbit b j = false.
Proof.
  intros Hn Hlt. destruct (decide (Exists (fun j => Z.testbit b j = false) (seqZ 0 n))) as [Hex|Hno].
  - apply Exists_exists in Hex as (j & Hj%elem_of_seqZ & Hb). exists j. split; [lia|done].
  - exfalso. unfold popcount in Hlt. rewrite filter_all in Hlt; [rewrite length_seqZ in Hlt; lia|].
    intros j Hj. destruct (Z.testbit b j) eqn:E; [done|]. exfalso. apply Hno, Exists_exists. by exists j.
Qed.

(** Changing one bit changes the count by one. *)
Lemma popcount_set b b' n r : 0 <= r < n -> Z.testbit b r = false -> Z.testbit b' r = true ->
  (forall j, 0 <= j -> j <> r -> Z.testbit b' j = Z.testbit b j) -> popcount b' n = popcount b n + 1.
Proof.
  intros Hr Hb Hb' Hne. unfold popcount.
  assert (forall l, NoDup l -> Forall (fun j => 0 <= j) l ->
    Z.of_nat (length (filter (fun i => Z.testbit b' i = true) l)) =
    Z.of_nat (length (filter (fun i => Z.testbit b i = true) l)) + (if decide (r ∈ l) then 1 else 0)) as Hgen.
  { induction l as [|x l IH]; intros Hnd Hpos; [done|]. apply NoDup_cons in Hnd as [Hx Hnd].
    apply Forall_cons in Hpos as [Hx0 Hpos]. specialize (IH Hnd Hpos). rewrite !filter_cons.
    destruct (decide (x = r)) as [->|Hxr].
    - rewrite (decide_False (P := r ∈ l)) in IH by done. rewrite (decide_True (P := r ∈ r :: l)) by set_solver.
      rewrite decide_True, decide_False by congruence. simpl. lia.
    - rewrite Hne by done. assert (r ∈ x :: l <-> r ∈ l) as Hiff by set_solver.
      rewrite (decide_ext _ _ _ _ Hiff).
      destruct (decide (Z.testbit b x = true)); simpl; lia. }
  rewrite Hgen, decide_True; [done| |apply NoDup_seqZ|].
  - apply elem_of_seqZ. lia.
  - apply Forall_forall. intros j Hj%elem_of_seqZ. lia.
Qed.

Lemma testbit_bound b n j : 0 <= n -> 0 <= b < 2 ^ n -> Z.testbit b j = true -> j < n.
Proof.
  intros Hn Hb Ht. destruct (decide (j < n)); [done|]. exfalso.
  rewrite (Z.bits_above_log2 b j) in Ht; [done|lia|]. destruct (decide (b = 0)) as [->|]; [simpl; by rewrite Z.bits_0 in Ht|].
  apply Z.log2_lt_pow2; [lia|]. eapply Z.lt_le_trans; [apply Hb|]. apply Z.pow_le_mono_r; lia.
Qed.

Lemma setbit_bound b n r : 0 <= r < n -> 0 <= b < 2 ^ n -> 0 <= Z.setbit b r < 2 ^ n.
Proof.
  intros Hr Hb. rewrite Z.setbit_spec'. split; [apply Z.lor_nonneg; split; [lia|apply Z.pow_nonneg; lia]|].
  destruct (decide (Z.lor b (2 ^ r) = 0)) as [->|Hnz]; [apply Z.pow_pos_nonneg; lia|].
  assert (0 <= Z.lor b (2 ^ r)) by (apply Z.lor_nonneg; split; [lia|apply Z.pow_nonneg; lia]).
  apply Z.log2_lt_pow2; [lia|]. rewrite Z.log2_lor, Z.log2_pow2 by (lia || apply Z.pow_nonneg; lia).
  apply Z.max_lub_lt; [|lia]. destruct (decide (b = 0)) as [->|]; [simpl; lia|]. apply Z.log2_lt_pow2; lia.
Qed.

Lemma clearbit_bound b n r : 0 <= b < 2 ^ n -> 0 <= Z.clearbit b r < 2 ^ n.
Proof.
  intros Hb. rewrite Z.clearbit_spec'.
  assert (Z.ldiff (Z.ldiff b (2 ^ r)) b = 0) as E.
  { apply Z.bits_inj'. intros i Hi. rewrite !Z.ldiff_spec, Z.bits_0. by destruct (Z.testbit b i), (Z.testbit (2 ^ r) i). }
  apply Z.ldiff_le in E; lia.
Qed.

(** ** Invariant *)

Definition cap (sz : Z) : Z := sh_capacity (new_header sz).

(** Order of a slab's block. *)
Definition slab_order (sz : Z) : nat := if slab_pages sz =? 2 then 1 else 0.

(** A header of a slab of [sz]-byte objects.  For 8-byte objects the count of free
    slots starts too high, and is left out. *)
Definition hdr_ok (sz : Z) (h : slab_hdr_t) : Prop :=
  sh_obj_size h = sz /\ sh_capacity h = cap sz /\ 0 <= sh_bitmap h < 2 ^ cap sz /\
  (8 < sz -> sh_free_count h = cap sz - popcount (sh_bitmap h) (cap sz)).

(** The slabs linked from [cur]. *)
Fixpoint schain (mem : gmap Z slab_hdr_t) (cur : option Z) (l : list Z) : Prop :=
  match l with
  | [] => cur = None
  | f :: l' => cur = Some f /\ exists h, mem !! f = Some h /\ schain mem (sh_next h) l'
  end.

Lemma cap_range c sz : slab_sizes !! c = Some sz ->
  8 <= sz <= 4096 /\ 0 < cap sz <= 288 /\ SLAB_HDR_SZ + cap sz * sz <= slab_pages sz * PAGE_SIZE /\
  (8 < sz -> sh_free_count (new_header sz) = cap sz).
Proof.
  do 10 (destruct c as [|c]; [intros [= <-]; vm_compute; repeat split; congruence|]). done.
Qed.

Lemma schain_same mem mem' cur l :
  (forall f, f ∈ l -> sh_next <$> mem' !! f = sh_next <$> mem !! f) -> schain mem cur l -> schain mem' cur l.
Proof.
  revert cur. induction l as [|f l IH]; intros cur Heq; simpl; [done|].
  intros (-> & h & Hf & Hl). split; [done|]. pose proof (Heq f ltac:(set_solver)) as E.
  rewrite Hf in E. destruct (mem' !! f) as [h'|]; [|done]. injection E as E.
  exists h'. split; [done|]. rewrite E. apply IH; [|done]. set_solver.
Qed.

Lemma schain_dom mem cur l : schain mem cur l -> forall f, f ∈ l -> f ∈ dom mem.
Proof.
  revert cur. induction l as [|g l IH]; intros cur; simpl; [set_solver|].
  intros (-> & h & Hg & Hl) f [->|Hf]%elem_of_cons; [apply elem_of_dom; by eexists|by eapply IH].
Qed.

Lemma schain_fuel mem cur l : NoDup l -> schain mem cur l -> (length l <= base.size mem)%nat.
Proof.
  intros Hnd Hl. rewrite <- (size_dom mem), <- (size_list_to_set (C := gset Z)) by done.
  apply subseteq_size. intros f Hf%elem_of_list_to_set. by eapply schain_dom.
Qed.

Lemma find_slab_ok mem fuel : forall cur l,
  schain mem cur l -> (length l <= fuel)%nat ->
  exists r, find_slab fuel mem cur = Some r /\
    match r with
    | Some f => f ∈ l /\ exists h, mem !! f = Some h /\ sh_free_count h <> 0
    | None => True
    end.
Proof.
  induction fuel as [|fuel IH]; intros cur [|f l] Hl Hf; simpl in *; try lia.
  - subst. by exists None.
  - subst. by exists None.
  - destruct Hl as (-> & h & Hh & Hl). rewrite Hh. simpl. destruct (Z.eqb_spec (sh_free_count h) 0) as [_|Hnz].
    + destruct (IH _ l Hl) as (r & -> & Hr); [lia|]. exists r. split; [done|]. destruct r; [|done]. set_solver.
    + exists (Some f). split; [done|]. split; [set_solver|]. by exists h.
Qed.

(** A slab with free slots gives a clear one. *)
Lemma take_slot_ok c sz h : slab_sizes !! c = Some sz -> 8 < sz -> hdr_ok sz h -> sh_free_count h <> 0 ->
  let '(slot, h') := take_slot h in
  0 <= slot < cap sz /\ Z.testbit (sh_bitmap h) slot = false /\ hdr_ok sz h' /\ sh_next h' = sh_next h /\
  (forall j, 0 <= j -> Z.testbit (sh_bitmap h') j = true <-> Z.testbit (sh_bitmap h) j = true \/ j = slot).
Proof.
  intros Hsz H8 (Ho & Hc & Hb & Hf) Hnz. destruct (cap_range c sz Hsz) as (_ & Hcap & _). specialize (Hf H8).
  pose proof (popcount_range (sh_bitmap h) (cap sz) ltac:(lia)).
  unfold take_slot. rewrite Hc. set (slot := free_slot (sh_bitmap h) 0 (Z.to_nat (cap sz))).
  destruct (free_slot_ok (sh_bitmap h) (Z.to_nat (cap sz)) 0) as [Hr Hclear]; [lia| |].
  { destruct (popcount_lt (sh_bitmap h) (cap sz)) as (j & Hj & Hbj); [lia..|]. exists j. split; [lia|done]. }
  fold slot in Hr, Hclear. split; [lia|]. split; [done|]. split; [|split; [done|]].
  - split; [done|]. split; [done|]. simpl. split; [apply setbit_bound; [lia|done]|]. intros _.
    rewrite (popcount_set (sh_bitmap h) (Z.setbit (sh_bitmap h) slot) (cap sz) slot).
    + rewrite u32_small by lia. lia.
    + lia.
    + done.
    + apply Z.setbit_eq. lia.
    + intros j Hj Hne. apply Z.setbit_neq; lia.
  - intros j Hj. simpl. destruct (decide (j = slot)) as [->|Hne].
    + rewrite Z.setbit_eq by lia. tauto.
    + rewrite Z.setbit_neq by lia. tauto.
Qed.

Lemma popcount_0 n : popcount 0 n = 0.
Proof.
  unfold popcount. induction (seqZ 0 n) as [|x l IH]; [done|]. rewrite filter_cons_False; [done|]. by rewrite Z.bits_0.
Qed.

Lemma new_header_ok c sz head : slab_sizes !! c = Some sz -> hdr_ok sz (set_next (new_header sz) head).
Proof.
  intros Hsz. destruct (cap_range c sz Hsz) as (_ & Hcap & _ & Hfc). unfold hdr_ok, set_next.
  cbn [sh_obj_size sh_capacity sh_bitmap sh_free_count]. split; [done|]. split; [done|].
  change (sh_bitmap (new_header sz)) with 0. split; [split; [lia|apply Z.pow_pos_nonneg; lia]|].
  intros H8. rewrite (Hfc H8), popcount_0. lia.
Qed.

Section Inv.
Context `{BlockAllocLaws St}.

(** [ls c] are the slabs of class [c]. *)
Record slab_inv (st : slab_st St) (O : owned) (ls : nat -> list Z) : Prop := {
  si_owns : ba_owns (sl_ph st) O;
  si_len : length (sl_heads st) = SLAB_CLASSES;
  si_chain : forall c h, sl_heads st !! c = Some h -> schain (sl_mem st) h (ls c);
  si_nodup : forall c, (c < SLAB_CLASSES)%nat -> NoDup (ls c);
  si_class : forall c c' f, (c < SLAB_CLASSES)%nat -> (c' < SLAB_CLASSES)%nat -> f ∈ ls c -> f ∈ ls c' -> c = c';
  si_hdr : forall c sz f, slab_sizes !! c = Some sz -> f ∈ ls c ->
    exists h, sl_mem st !! f = Some h /\ hdr_ok sz h /\ O !! f = Some (slab_order sz);
}.

(** Slot [i] of the slab at frame [f] of class [c] is allocated. *)
Definition live (st : slab_st St) (ls : nat -> list Z) (c : nat) (f i : Z) : Prop :=
  (c < SLAB_CLASSES)%nat /\ f ∈ ls c /\ exists h, sl_mem st !! f = Some h /\ Z.testbit (sh_bitmap h) i = true.

Definition obj_addr (sz f i : Z) : Z := f * PAGE_SIZE + SLAB_HDR_SZ + i * sz.

Lemma class_lt c sz : slab_sizes !! c = Some sz -> (c < SLAB_CLASSES)%nat.
Proof. apply lookup_lt_Some. Qed.

(** One header changes, with its links. *)
Lemma set_header_inv st O ls c sz f h h' :
  slab_inv st O ls -> slab_sizes !! c = Some sz -> f ∈ ls c -> sl_mem st !! f = Some h ->
  sh_next h' = sh_next h -> hdr_ok sz h' ->
  slab_inv (mk_slab (sl_ph st) (sl_heads st) (<[f := h']> (sl_mem st))) O ls.
Proof.
  intros I Hsz Hf Hh Hn Hok. split; simpl; try apply I.
  - intros c' hd Hc'. eapply schain_same; [|by eapply si_chain]. intros g Hg.
    destruct (decide (f = g)) as [<-|Hne]; [rewrite lookup_insert_eq, Hh; simpl; by rewrite Hn|by rewrite lookup_insert_ne].
  - intros c' sz' g Hsz' Hg. destruct (decide (f = g)) as [<-|Hne].
    + assert (c' = c) as -> by (eapply si_class; [exact I|by eapply class_lt|by eapply class_lt|done|done]).
      assert (sz' = sz) as -> by congruence. rewrite lookup_insert_eq. exists h'.
      destruct (si_hdr _ _ _ I _ _ _ Hsz Hf) as (_ & _ & _ & HO). done.
    + rewrite lookup_insert_ne by done. by eapply si_hdr.
Qed.

Lemma slab_order_pages sz : pow2 (slab_order sz) = slab_pages sz.
Proof. unfold slab_order, slab_pages. by destruct (2048 <=? sz). Qed.

(** An object lies in the pages of its slab. *)
Lemma obj_in_slab c sz f i : slab_sizes !! c = Some sz -> 0 <= i < cap sz ->
  f * PAGE_SIZE < obj_addr sz f i /\ obj_addr sz f i + sz <= (f + slab_pages sz) * PAGE_SIZE.
Proof.
  intros Hsz Hi. destruct (cap_range c sz Hsz) as (Hs & Hc & Hfit & _). unfold obj_addr, SLAB_HDR_SZ, PAGE_SIZE in *.
  assert ((i + 1) * sz <= cap sz * sz) by (apply Z.mul_le_mono_nonneg_r; lia).
  assert (0 <= i * sz) by (apply Z.mul_nonneg_nonneg; lia). lia.
Qed.

(** Different slots occupy different bytes. *)
Lemma objs_disjoint st O ls c sz f i c' sz' f' j :
  slab_inv st O ls -> slab_sizes !! c = Some sz -> slab_sizes !! c' = Some sz' -> f ∈ ls c -> f' ∈ ls c' ->
  0 <= i < cap sz -> 0 <= j < cap sz' -> (f, i) <> (f', j) ->
  obj_addr sz f i + sz <= obj_addr sz' f' j \/ obj_addr sz' f' j + sz' <= obj_addr sz f i.
Proof.
  intros I Hsz Hsz' Hf Hf' Hi Hj Hne. destruct (decide (f = f')) as [<-|Hff].
  - assert (c' = c) as -> by (eapply si_class; [exact I|by eapply class_lt|by eapply class_lt|done|done]).
    assert (sz' = sz) as -> by congruence. assert (i <> j) by congruence. unfold obj_addr.
    destruct (cap_range c sz Hsz) as (Hs & _).
    destruct (decide (i < j)); [left|right].
    + assert ((i + 1) * sz <= j * sz) by (apply Z.mul_le_mono_nonneg_r; lia). lia.
    + assert ((j + 1) * sz <= i * sz) by (apply Z.mul_le_mono_nonneg_r; lia). lia.
  - destruct (si_hdr _ _ _ I _ _ _ Hsz Hf) as (_ & _ & _ & HO).
    destruct (si_hdr _ _ _ I _ _ _ Hsz' Hf') as (_ & _ & _ & HO').
    pose proof (ba_disjoint _ _ _ _ _ _ (si_owns _ _ _ I) HO HO' Hff) as Hd. rewrite !slab_order_pages in Hd.
    destruct (obj_in_slab c sz f i Hsz Hi). destruct (obj_in_slab c' sz' f' j Hsz' Hj).
    unfold PAGE_SIZE in *. lia.
Qed.

(** A fresh slab at the head of its list. *)
Lemma add_slab_inv st O ls c sz p ph head :
  slab_inv st O ls -> slab_sizes !! c = Some sz -> sl_heads st !! c = Some head ->
  (forall q, in_block p (slab_order sz) q -> ~ owned_page O q) -> ba_owns ph (<[p := slab_order sz]> O) ->
  let st' := mk_slab ph (<[c := Some p]> (sl_heads st))
    (<[p := set_next (new_header sz) head]> (<[p := new_header sz]> (sl_mem st))) in
  let ls' := <[c := p :: ls c]> ls in
  slab_inv st' (<[p := slab_order sz]> O) ls' /\ (forall c' f i, live st' ls' c' f i <-> live st ls c' f i) /\
  O ⊆ <[p := slab_order sz]> O.
Proof.
  intros I Hsz Hhd Hfresh Ho st' ls'. pose proof (fresh_block O p _ Hfresh) as HpO.
  assert (forall c' sz', slab_sizes !! c' = Some sz' -> p ∉ ls c') as Hni.
  { intros c' sz' Hsz' Hin. destruct (si_hdr _ _ _ I _ _ _ Hsz' Hin) as (_ & _ & _ & HO). congruence. }
  assert (forall c', (c' < SLAB_CLASSES)%nat -> p ∉ ls c') as Hni'.
  { intros c' Hc'. destruct (lookup_lt_is_Some_2 slab_sizes c' Hc') as [sz' Hsz']. by eapply Hni. }
  pose proof (new_header_ok c sz head Hsz) as Hok.
  unfold st', ls'. split; [|split].
  - split; simpl.
    + done.
    + rewrite length_insert. apply I.
    + intros c' h Hc'. apply list_lookup_insert_Some in Hc' as [(<- & <- & _)|[Hne Hc']].
      * rewrite fn_lookup_insert. simpl. split; [done|]. eexists. rewrite lookup_insert_eq. split; [done|]. simpl.
        eapply schain_same; [|by eapply si_chain]. intros f Hf. rewrite !lookup_insert_ne; [done|set_solver..].
      * rewrite fn_lookup_insert_ne by done. eapply schain_same; [|by eapply si_chain]. intros f Hf.
        assert (c' < SLAB_CLASSES)%nat by (rewrite <- (si_len _ _ _ I); by eapply lookup_lt_Some).
        rewrite !lookup_insert_ne; [done|..]; intros ->; by apply (Hni' c').
    + intros c' Hc'. destruct (decide (c = c')) as [<-|Hne].
      * rewrite fn_lookup_insert. apply NoDup_cons. split; [by eapply Hni|by eapply si_nodup].
      * rewrite fn_lookup_insert_ne by done. by eapply si_nodup.
    + intros c1 c2 f H1 H2. destruct (decide (c = c1)) as [<-|?], (decide (c = c2)) as [<-|?];
        rewrite ?fn_lookup_insert, ?fn_lookup_insert_ne by done; try done; rewrite ?elem_of_cons.
      * intros [->|Hf] Hf2; [by apply Hni' in Hf2|by eapply si_class].
      * intros Hf1 [->|Hf]; [by apply Hni' in Hf1|by eapply si_class].
      * by eapply si_class.
    + intros c' sz' f Hsz'. destruct (decide (f = p)) as [->|Hfp].
      * destruct (decide (c = c')) as [<-|Hne].
        -- intros _. assert (sz' = sz) as -> by congruence. rewrite !lookup_insert_eq. by eexists.
        -- rewrite fn_lookup_insert_ne by done. intros Hf. by apply (Hni c' sz') in Hf.
      * intros Hf. rewrite !lookup_insert_ne by done. eapply si_hdr; [exact I|done|].
        destruct (decide (c = c')) as [<-|Hne]; [rewrite fn_lookup_insert in Hf; set_solver|by rewrite fn_lookup_insert_ne in Hf].
  - intros c' f i. unfold live. simpl. destruct (decide (f = p)) as [->|Hfp].
    + rewrite lookup_insert_eq. split.
      * intros (_ & _ & h & [= <-] & Hb). unfold set_next in Hb. cbn [sh_bitmap] in Hb.
        change (sh_bitmap (new_header sz)) with 0 in Hb. by rewrite Z.bits_0 in Hb.
      * intros (Hc' & Hf & _). by apply Hni' in Hf.
    + rewrite !lookup_insert_ne by done. destruct (decide (c = c')) as [<-|Hne].
      * rewrite fn_lookup_insert. set_solver.
      * by rewrite fn_lookup_insert_ne.
  - by apply insert_subseteq.
Qed.

(** Taking a slot of a slab with free slots. *)
Lemma take_live st O ls c sz f h :
  slab_inv st O ls -> slab_sizes !! c = Some sz -> 8 < sz -> f ∈ ls c -> sl_mem st !! f = Some h ->
  sh_free_count h <> 0 ->
  let '(slot, h') := take_slot h in
  let st' := mk_slab (sl_ph st) (sl_heads st) (<[f := h']> (sl_mem st)) in
  slab_inv st' O ls /\ 0 <= slot < cap sz /\ ~ live st ls c f slot /\
  (forall c' f' j, 0 <= j -> live st' ls c' f' j <-> live st ls c' f' j \/ (c', f', j) = (c, f, slot)).
Proof.
  intros I Hsz H8 Hf Hh Hnz. destruct (si_hdr _ _ _ I _ _ _ Hsz Hf) as (h0 & Hh0 & Hok & _).
  assert (h0 = h) as -> by congruence. pose proof (take_slot_ok c sz h Hsz H8 Hok Hnz) as Ht.
  destruct (take_slot h) as [slot h']. destruct Ht as (Hs & Hclear & Hok' & Hn & Hbits).
  split; [by eapply set_header_inv|]. split; [done|]. split.
  - intros (_ & _ & h1 & Hh1 & Hb). congruence.
  - intros c' f' j Hj. unfold live. simpl. destruct (decide (f' = f)) as [->|Hne].
    + rewrite lookup_insert_eq. split.
      * intros (Hc' & Hf' & h1 & [= <-] & Hb). apply Hbits in Hb as [Hb| ->]; [|right|done].
        -- left. split; [done|]. split; [done|]. by exists h.
        -- assert (c' = c) as -> by (eapply si_class; [exact I|done|by eapply class_lt|done|done]). done.
      * intros [(Hc' & Hf' & h1 & Hh1 & Hb)|[= -> ->]].
        -- split; [done|]. split; [done|]. exists h'. split; [done|]. apply Hbits; [done|]. left. congruence.
        -- split; [by eapply class_lt|]. split; [done|]. exists h'. split; [done|]. apply Hbits; [done|]. by right.
    + rewrite lookup_insert_ne by done. split; [by left|]. intros [?|?]; [done|congruence].
Qed.

(** The slab [kmalloc] takes from: one with a free slot, or a new one. *)
Lemma pick_slab_ok st O ls c sz :
  slab_inv st O ls -> slab_sizes !! c = Some sz -> 8 < sz ->
  exists r st1 O1 ls1, (head ← sl_heads st !! c;
      found ← find_slab (base.size (sl_mem st)) (sl_mem st) head;
      match found with
      | Some f => Some (Some f, st)
      | None =>
          '(r, st1) ← slab_new st sz;
          match r with
          | None => Some (None, st1)
          | Some f =>
              h ← sl_mem st1 !! f;
              Some (Some f, mk_slab (sl_ph st1) (<[c := Some f]> (sl_heads st1)) (<[f := set_next h head]> (sl_mem st1)))
          end
      end) = Some (r, st1) /\ slab_inv st1 O1 ls1 /\ O ⊆ O1 /\
    (forall c' f i, live st1 ls1 c' f i <-> live st ls c' f i) /\
    match r with
    | None => True
    | Some f => f ∈ ls1 c /\ exists h, sl_mem st1 !! f = Some h /\ sh_free_count h <> 0
    end.
Proof.
  intros I Hsz H8. pose proof (class_lt c sz Hsz) as Hc.
  destruct (lookup_lt_is_Some_2 (sl_heads st) c) as [head Hhd]; [by rewrite (si_len _ _ _ I)|].
  rewrite Hhd. cbn [mbind option_bind].
  destruct (find_slab_ok (sl_mem st) (base.size (sl_mem st)) head (ls c)) as (found & -> & Hfound).
  { by eapply si_chain. } { eapply schain_fuel; [by eapply si_nodup|by eapply si_chain]. }
  cbn [mbind option_bind]. destruct found as [f|]; [by exists (Some f), st, O, ls|].
  unfold slab_new. fold (slab_order sz).
  destruct (ba_alloc_law (sl_ph st) O (slab_order sz) (si_owns _ _ _ I))
    as [(ph & -> & Ho & _)|(p & ph & -> & Hp0 & Hfresh & Ho & _)]; cbn [mbind option_bind].
  - exists None, (mk_slab ph (sl_heads st) (sl_mem st)), O, ls. split; [done|]. split; [|done].
    split; simpl; try apply I. done.
  - destruct (Z.eqb_spec (p * PAGE_SIZE) 0) as [E|_]; [unfold PAGE_SIZE in E; lia|].
    rewrite Z.div_mul by done. cbn [mbind option_bind sl_mem]. rewrite lookup_insert_eq. cbn [mbind option_bind sl_heads sl_ph].
    destruct (add_slab_inv st O ls c sz p ph head I Hsz Hhd Hfresh Ho) as (I' & Hlive & Hsub).
    eexists (Some p), _, _, _. split; [done|]. split; [exact I'|]. split; [done|]. split; [done|].
    rewrite fn_lookup_insert. split; [set_solver|]. simpl. rewrite lookup_insert_eq. eexists. split; [done|].
    unfold set_next. cbn [sh_free_count]. destruct (cap_range c sz Hsz) as (_ & Hcap & _ & Hfc). rewrite Hfc by done. lia.
Qed.

Lemma slab_class_Some size c : slab_class size = Some c -> exists sz, slab_sizes !! c = Some sz /\ size <= sz.
Proof. intros (sz & Hsz & Hle%Z.leb_le & _)%find_idx_Some. by exists sz. Qed.
End Inv.


Section Free.
Context `{BlockAllocLaws St}.

Lemma clear_slot_ok c sz h i : slab_sizes !! c = Some sz -> 8 < sz -> hdr_ok sz h -> 0 <= i < cap sz ->
  match clear_slot h i with
  | None => Z.testbit (sh_bitmap h) i = false
  | Some h' => Z.testbit (sh_bitmap h) i = true /\ hdr_ok sz h' /\ sh_next h' = sh_next h /\
      forall j, 0 <= j -> Z.testbit (sh_bitmap h') j = true <-> Z.testbit (sh_bitmap h) j = true /\ j <> i
  end.
Proof.
  intros Hsz H8 (Ho & Hc & Hb & Hf) Hi. destruct (cap_range c sz Hsz) as (_ & Hcap & _). specialize (Hf H8).
  pose proof (popcount_range (sh_bitmap h) (cap sz) ltac:(lia)) as Hpc.
  unfold clear_slot. rewrite Hc. destruct (Z.leb_spec (cap sz) i); [lia|].
  destruct (Z.testbit (sh_bitmap h) i) eqn:Hbit; cbn [negb]; [|done].
  assert (popcount (sh_bitmap h) (cap sz) = popcount (Z.clearbit (sh_bitmap h) i) (cap sz) + 1) as Hcnt.
  { apply (popcount_set _ _ _ i); [done|apply Z.clearbit_eq|done|]. intros j Hj Hne. symmetry. apply Z.clearbit_neq. lia. }
  pose proof (popcount_range (Z.clearbit (sh_bitmap h) i) (cap sz) ltac:(lia)).
  split; [done|]. split; [|split; [done|]].
  - split; [done|]. split; [done|]. simpl. split; [by apply clearbit_bound|]. intros _. rewrite u32_small by lia. lia.
  - intros j Hj. simpl. destruct (decide (j = i)) as [->|Hne].
    + rewrite Z.clearbit_eq. split; [done|]. by intros [_ ?].
    + rewrite Z.clearbit_neq by lia. tauto.
Qed.

(** [kfree] of a pointer into the first page of a slab reaches its header. *)
Lemma kfree_reaches st O ls c sz f i h :
  slab_inv st O ls -> slab_sizes !! c = Some sz -> f ∈ ls c -> sl_mem st !! f = Some h -> 0 <= i < cap sz ->
  SLAB_HDR_SZ + i * sz < PAGE_SIZE ->
  kfree st (Some (obj_addr sz f i)) =
  match clear_slot h i with
  | None => Some st
  | Some h' => Some (mk_slab (sl_ph st) (sl_heads st) (<[f := h']> (sl_mem st)))
  end.
Proof.
  intros I Hsz Hf Hh Hi Hfirst. destruct (cap_range c sz Hsz) as (Hs & Hcap & _).
  destruct (si_hdr _ _ _ I _ _ _ Hsz Hf) as (h0 & Hh0 & (Ho & _) & HO). assert (h0 = h) as -> by congruence.
  assert (0 <= i * sz) by (apply Z.mul_nonneg_nonneg; lia).
  destruct (ba_frame _ _ _ _ (si_owns _ _ _ I) HO) as (Hf0 & _ & Hal). unfold SLAB_HDR_SZ, PAGE_SIZE in Hfirst.
  assert (obj_addr sz f i = f * 4096 + (64 + i * sz)) as Ha by (unfold obj_addr, SLAB_HDR_SZ, PAGE_SIZE; lia).
  unfold kfree. rewrite Ha. change PAGE_SIZE with 4096.
  rewrite Z.div_add_l, Z.div_small, Z.add_0_r by lia. rewrite Hh. cbn [mbind option_bind].
  rewrite (Z.add_comm (f * 4096)), Z.mod_add, Z.mod_small by lia.
  destruct (Z.eqb_spec (64 + i * sz) 0); [lia|]. cbn [andb].
  rewrite (ba_order_law _ _ _ _ (si_owns _ _ _ I) HO). cbn [mbind option_bind].
  assert ((Z.of_nat (slab_order sz) =? 1) && (4096 <=? (64 + i * sz + f * 4096) mod (2 * 4096)) = false) as ->.
  { destruct (slab_order sz) as [|[|?]] eqn:Hord; [done| |by unfold slab_order in Hord; destruct (_ =? _)].
    destruct Hal as [m Hm]. change (pow2 1) with 2 in Hm.
    assert ((64 + i * sz + f * 4096) mod (2 * 4096) = 64 + i * sz) as ->.
    { replace (64 + i * sz + f * 4096) with (64 + i * sz + m * (2 * 4096)) by lia. rewrite Z.mod_add, Z.mod_small; lia. }
    apply andb_false_iff. right. apply Z.leb_gt. lia. }
  rewrite Hh. cbn [mbind option_bind]. unfold plausible. rewrite Ho.
  destruct (Z.leb_spec 8 sz); [|lia]. destruct (Z.leb_spec sz 4096); [|lia]. cbn [andb negb].
  unfold SLAB_HDR_SZ. replace (64 + i * sz + f * 4096 - (f * 4096 + 64)) with (i * sz) by lia.
  rewrite u64_small, Z.div_mul, u32_small by lia. done.
Qed.

(** [kfree] of an object of more than 8 bytes that starts in the first page of
    its slab terminates without a fault and leaves the heap consistent: the object is
    no longer allocated and every other object is as before.  Freeing an object that
    is not allocated changes nothing. *)
Theorem kfree_ok (st : slab_st St) O ls c sz f i :
  slab_inv st O ls -> slab_sizes !! c = Some sz -> 8 < sz -> f ∈ ls c -> 0 <= i < cap sz ->
  SLAB_HDR_SZ + i * sz < PAGE_SIZE ->
  exists st', kfree st (Some (obj_addr sz f i)) = Some st' /\ slab_inv st' O ls /\
    (forall c' f' j, 0 <= j -> live st' ls c' f' j <-> live st ls c' f' j /\ (c', f', j) <> (c, f, i)) /\
    (~ live st ls c f i -> st' = st).
Proof.
  intros I Hsz H8 Hf Hi Hfirst. destruct (si_hdr _ _ _ I _ _ _ Hsz Hf) as (h & Hh & Hok & _).
  rewrite (kfree_reaches st O ls c sz f i h) by done. pose proof (class_lt c sz Hsz) as Hc.
  pose proof (clear_slot_ok c sz h i Hsz H8 Hok Hi) as Hcl. destruct (clear_slot h i) as [h'|].
  - destruct Hcl as (Hbit & Hok' & Hn & Hbits). eexists. split; [done|]. split; [by eapply set_header_inv|]. split.
    + intros c' f' j Hj. unfold live. simpl. destruct (decide (f' = f)) as [->|Hne].
      * rewrite lookup_insert_eq. split.
        -- intros (Hc' & Hf' & h1 & [= <-] & Hb). apply Hbits in Hb as [Hb Hne]; [|done].
           split; [|congruence]. split; [done|]. split; [done|]. by exists h.
        -- intros [(Hc' & Hf' & h1 & Hh1 & Hb) Hne]. split; [done|]. split; [done|]. exists h'. split; [done|].
           apply Hbits; [done|]. split; [congruence|]. intros ->. apply Hne.
           assert (c' = c) as -> by (eapply si_class; [exact I|done|done|done|done]). done.
      * rewrite lookup_insert_ne by done. split; [intros ?; split; [done|congruence]|by intros [? _]].
    + intros Hnl. exfalso. apply Hnl. split; [done|]. split; [done|]. by exists h.
  - exists st. split; [done|]. split; [done|]. split; [|done]. intros c' f' j Hj.
    split; [|by intros [? _]]. intros Hl. split; [done|]. intros [= -> -> ->]. destruct Hl as (_ & _ & h1 & Hh1 & Hb). congruence.
Qed.
End Free.

(** ** Sample heaps *)

Definition demo_heap : slab_st mm_state := mk_slab demo_page (replicate SLAB_CLASSES None) ∅.

Lemma demo_page_owns (O : owned) :
  (forall p k, O !! p = Some k -> p = 2 ^ 18 /\ k = 0%nat) -> ba_owns demo_page O.
Proof.
  intros HO. destruct demo_page_inv as [L I]. exists demo_N. eexists. exists L. split; [exact I|].
  intros p k Hp. destruct (HO p k Hp) as [-> ->]. done.
Qed.

Lemma demo_heap_inv : slab_inv demo_heap ∅ (fun _ => []).
Proof.
  split; simpl; try done; try set_solver.
  - apply demo_page_owns. done.
  - intros c h Hc. by apply (lookup_replicate SLAB_CLASSES) in Hc as [-> _].
  - intros c _. constructor.
Qed.

(** A slab of 16-byte objects with one of them allocated. *)
Definition demo_slab : slab_st mm_state :=
  mk_slab demo_page (<[1%nat := Some (2 ^ 18)]> (replicate SLAB_CLASSES None))
    {[ 2 ^ 18 := snd (take_slot (new_header 16)) ]}.

Lemma demo_slab_inv : slab_inv demo_slab {[ 2 ^ 18 := 0%nat ]} (<[1%nat := [2 ^ 18]]> (fun _ => [])).
Proof.
  assert (hdr_ok 16 (snd (take_slot (new_header 16)))) as Hok.
  { pose proof (take_slot_ok 1 16 (new_header 16) eq_refl ltac:(lia)) as Ht.
    destruct (take_slot (new_header 16)) as [slot h']. apply Ht; [|done].
    exact (new_header_ok 1 16 None eq_refl). }
  assert (forall c f, f ∈ (<[1%nat := [2 ^ 18]]> (fun _ => [])) c -> c = 1%nat /\ f = 2 ^ 18) as Hls.
  { intros c f. destruct (decide (1%nat = c)) as [<-|Hne].
    - rewrite fn_lookup_insert. by intros ->%list_elem_of_singleton.
    - rewrite fn_lookup_insert_ne by done. by intros ?%elem_of_nil. }
  split.
  - apply demo_page_owns. by intros p k [<- <-]%lookup_singleton_Some.
  - done.
  - intros c h Hc. unfold demo_slab in *. cbn [sl_heads sl_mem] in *.
    apply list_lookup_insert_Some in Hc as [(<- & <- & _)|[Hne Hc]].
    + rewrite fn_lookup_insert. split; [done|]. eexists. rewrite lookup_singleton_eq. split; [done|]. done.
    + rewrite fn_lookup_insert_ne by done. by apply (lookup_replicate SLAB_CLASSES) in Hc as [-> _].
  - intros c _. destruct (decide (1%nat = c)) as [<-|Hne]; [rewrite fn_lookup_insert; apply NoDup_singleton|].
    rewrite fn_lookup_insert_ne by done. constructor.
  - intros c c' f _ _ [-> _]%Hls [-> _]%Hls. done.
  - intros c sz f Hsz [-> ->]%Hls. injection Hsz as <-. eexists.
    split; [unfold demo_slab; cbn [sl_mem]; apply lookup_singleton_eq|]. split; [exact Hok|]. by rewrite lookup_singleton_eq.
Qed.


Lemma kfree_ok_witness : exists st', kfree demo_slab (Some (obj_addr 16 (2 ^ 18) 0)) = Some st' /\
  ~ live st' (<[1%nat := [2 ^ 18]]> (fun _ => [])) 1 (2 ^ 18) 0.
Proof.
  destruct (kfree_ok demo_slab _ _ 1 16 (2 ^ 18) 0 demo_slab_inv eq_refl ltac:(lia) ltac:(rewrite fn_lookup_insert; set_solver)
    ltac:(split; [lia|reflexivity]) ltac:(reflexivity)) as (st' & E & _ & Hl & _).
  exists st'. split; [exact E|]. intros Hlive. apply Hl in Hlive; [|lia]. destruct Hlive as [_ Hne]. apply Hne. reflexivity.
Defined.

(** ** Where the heap goes wrong *)

(** The 8-byte class: [slab_new] caps the capacity at 288 after it set the count of
    free slots to 504, so when all 288 slots are allocated the slab still counts 216
    free ones, and the next allocation returns slot 0, which is allocated. *)
Theorem kmalloc_8_returns_live_slot :
  let h := Nat.iter 288 (fun h => snd (take_slot h)) (new_header 8) in
  sh_free_count h = 216 /\ Z.testbit (sh_bitmap h) 0 = true /\ fst (take_slot h) = 0.
Proof. vm_compute. done. Qed.

(** The third 2048-byte object of a slab starts in its second page, whose
    [page_info] does not say that it belongs to a block of two pages.  Unless the
    bytes there look like a slab header, [kfree] hands the unaligned address of the
    object to the page allocator. *)
Theorem kfree_second_page_frees_unaligned `{BlockAlloc St} (st : slab_st St) f order h :
  0 <= f -> sl_mem st !! (f + 1) = Some h -> ba_order (sl_ph st) (f + 1) = Some order -> order <> 1 ->
  plausible h = false ->
  kfree st (Some (obj_addr 2048 f 2)) = free_block st (f * PAGE_SIZE + 4160).
Proof.
  intros Hf Hh Hord Hne Hpl. unfold kfree, obj_addr, SLAB_HDR_SZ. change PAGE_SIZE with 4096.
  replace (f * 4096 + 64 + 2 * 2048) with ((f + 1) * 4096 + 64) by lia.
  rewrite Z.div_add_l by lia. change (64 / 4096) with 0. rewrite Z.add_0_r, Hh. cbn [mbind option_bind].
  rewrite Hpl, andb_false_r, Hord. cbn [mbind option_bind]. destruct (Z.eqb_spec order 1); [done|]. cbn [andb].
  rewrite Hh. cbn [mbind option_bind]. rewrite Hpl. cbn [negb]. f_equal. lia.
Qed.
