(* ===== verification/Port.v ===== *)
(** * Message ports (src/kernel/ipc/port.c, port.h)

    Named mailboxes over the ring buffer of [Ringbuf].  Messages of up to 56 bytes
    travel in the slot; longer ones in a kernel buffer whose pointer is in the slot.
    [kmalloc] is an argument of [port_send] (the pointer it returned); the contents
    of live kernel buffers are [ps_bufs].  [sched_wake] is recorded in [ps_woken].
    Receiving from an empty port registers the caller and yields, which is the
    outcome [RBlock].  The locks are taken and released on every path and are not
    modelled. *)

From Stdlib Require Import ZArith Lia.
From stdpp Require Import base strings gmap list.
From S2P Require Import Prelude KString Ringbuf.

Local Open Scope Z_scope.

Definition PORT_NAME_LEN : nat := 64.
Definition PORT_MSG_MAX : Z := 4096.
Definition PORT_QUEUE_DEPTH : Z := 64.
Definition PORT_CREATE : Z := 0x01.
Definition PORT_OPEN : Z := 0x02.
Definition PORT_INLINE_MAX : Z := 56.
Definition PORT_SLOT_SIZE : Z := 64.
Definition MAX_PORTS : nat := 1024.
Definition MSG_HDR_SZ : Z := 8.

Record port_obj_t := mk_port {
  po_name : list Z;
  po_id : Z;
  po_owner_pid : Z;
  po_refcount : Z;
  po_ring : ringbuf_t;
  po_waiter : option Z;
}.

Record port_st := mk_ports {
  ps_table : list port_obj_t;
  ps_bufs : gmap Z (list Z);
  ps_woken : list Z;
}.

Definition po_set_ring (p : port_obj_t) (rb : ringbuf_t) : port_obj_t :=
  mk_port (po_name p) (po_id p) (po_owner_pid p) (po_refcount p) rb (po_waiter p).

Definition po_set_waiter (p : port_obj_t) (w : option Z) : port_obj_t :=
  mk_port (po_name p) (po_id p) (po_owner_pid p) (po_refcount p) (po_ring p) w.

Definition po_set_refcount (p : port_obj_t) (r : Z) : port_obj_t :=
  mk_port (po_name p) (po_id p) (po_owner_pid p) r (po_ring p) (po_waiter p).

Definition po_set_id (p : port_obj_t) (i : Z) : port_obj_t :=
  mk_port (po_name p) i (po_owner_pid p) (po_refcount p) (po_ring p) (po_waiter p).

Definition set_port (st : port_st) (i : nat) (p : port_obj_t) : port_st :=
  mk_ports (<[i := p]> (ps_table st)) (ps_bufs st) (ps_woken st).

Definition zero_ring : ringbuf_t := mk_ringbuf 0 0 0 0 0 0 0 (replicate 24 0) (replicate 4096 0).

Definition zero_port : port_obj_t := mk_port (replicate PORT_NAME_LEN 0) 0 0 0 zero_ring None.

Definition port_subsystem_init : port_st := mk_ports (replicate MAX_PORTS zero_port) ∅ [].

(** The scan of [port_find_by_name] from slot [i] on. *)
Fixpoint find_by_name (table : list port_obj_t) (i : nat) (name : list Z) : option (option nat) :=
  match table with
  | [] => Some None
  | p :: rest =>
      if po_id p =? 0 then find_by_name rest (S i) name
      else
        c ← strncmp (po_name p) name PORT_NAME_LEN;
        if c =? 0 then Some (Some i) else find_by_name rest (S i) name
  end.

Definition port_find_by_name (st : port_st) (name : list Z) : option (option nat) :=
  find_by_name (ps_table st) 0 name.

Definition port_find_by_id (st : port_st) (id : Z) : option (option nat) :=
  if (id =? 0) || (Z.of_nat MAX_PORTS <? id) then Some None
  else
    p ← ps_table st !! Z.to_nat (id - 1);
    Some (if po_id p =? id then Some (Z.to_nat (id - 1)) else None).

(** A new port in slot [i]. *)
Definition make_port (name : list Z) (i : nat) (caller_pid : Z) : option port_obj_t :=
  nm ← strncpy (replicate PORT_NAME_LEN 0) name (PORT_NAME_LEN - 1);
  '(_, rb) ← ringbuf_init (Some zero_ring) PORT_SLOT_SIZE PORT_QUEUE_DEPTH;
  rb ← rb;
  Some (mk_port nm (Z.of_nat i + 1) caller_pid 1 rb None).

(** [name] is [None] for a null pointer. *)
Definition port_open (st : port_st) (name : option (list Z)) (flags caller_pid : Z) : option (Z * port_st) :=
  match name with
  | None => Some (0, st)
  | Some name =>
      c0 ← name !! 0%nat;
      if c0 =? 0 then Some (0, st)
      else
        found ← port_find_by_name st name;
        match found with
        | Some i =>
            p ← ps_table st !! i;
            if Z.land flags PORT_OPEN =? 0 then Some (0, st)
            else Some (po_id p, set_port st i (po_set_refcount p (u32 (po_refcount p + 1))))
        | None =>
            if Z.land flags PORT_CREATE =? 0 then Some (0, st)
            else
              match find_idx (fun p => po_id p =? 0) (ps_table st) with
              | None => Some (0, st)
              | Some i =>
                  p ← make_port name i caller_pid;
                  Some (Z.of_nat i + 1, set_port st i p)
              end
        end
  end.

Definition wake (st : port_st) (w : option Z) : port_st :=
  match w with
  | None => st
  | Some pid => mk_ports (ps_table st) (ps_bufs st) (ps_woken st ++ [pid])
  end.

Definition port_close (st : port_st) (id : Z) : option port_st :=
  found ← port_find_by_id st id;
  match found with
  | None => Some st
  | Some i =>
      p ← ps_table st !! i;
      let p := if 0 <? po_refcount p then po_set_refcount p (po_refcount p - 1) else p in
      let st := set_port st i p in
      if po_refcount p =? 0 then Some (set_port (wake st (po_waiter p)) i (po_set_id p 0)) else Some st
  end.

(** [while (tries-- > 0)]: nobody else runs in between. *)
Fixpoint push_retry (tries : nat) (st : port_st) (i : nat) (slot : list Z) : option (Z * port_st) :=
  match tries with
  | O => Some (-1, st)
  | S tries' =>
      p ← ps_table st !! i;
      '(r, rb) ← ringbuf_push (po_ring p) slot PORT_SLOT_SIZE;
      let st := set_port st i (po_set_ring p rb) in
      if r =? 0 then
        match po_waiter p with
        | None => Some (0, st)
        | Some _ => Some (0, set_port (wake st (po_waiter p)) i (po_set_waiter (po_set_ring p rb) None))
        end
      else push_retry tries' st i slot
  end.

(** The slot of 64 bytes: type, length, payload. *)
Definition port_slot (type len : Z) (payload : list Z) : list Z := le_bytes 4 type ++ le_bytes 4 len ++ payload.

(** [msg] is the memory at the message pointer and [len] the length passed;
    [buf] is what [kmalloc(len)] returns. *)
Definition port_send (st : port_st) (id : Z) (msg : list Z) (len : Z) (buf : option Z) : option (Z * port_st) :=
  if (len =? 0) || (PORT_MSG_MAX <? len) then Some (-1, st)
  else
    found ← port_find_by_id st id;
    match found with
    | None => Some (-1, st)
    | Some i =>
        if len <=? PORT_INLINE_MAX then
          let n := u64 (len - MSG_HDR_SZ) in
          payload ← memcpy_obj (replicate 56 0) 0 (drop 8 msg)
                      (Z.to_nat (if n <? PORT_INLINE_MAX then n else PORT_INLINE_MAX));
          type ← memcpy_obj (replicate 4 0) 0 msg 4;
          push_retry 1000 st i (port_slot (le_val type) (u32 len) payload)
        else
          match buf with
          | None => Some (-1, st)
          | Some ptr =>
              data ← memcpy_obj (replicate (Z.to_nat len) 0) 0 msg (Z.to_nat len);
              let st := mk_ports (ps_table st) (<[ptr := data]> (ps_bufs st)) (ps_woken st) in
              type ← memcpy_obj (replicate 4 0) 0 msg 4;
              push_retry 1000 st i (port_slot (le_val type) (u32 len) (le_bytes 8 ptr ++ replicate 48 0))
          end
    end.

Inductive recv_result :=
| RDone (ret : Z) (buf : list Z) (len_out : Z)
| RBlock.

(** One turn of the loop of [port_recv] by process [cur] on the port in slot [i],
    and the copy to [buf] when a message was there.  [RBlock] is the branch that
    sets [PROC_WAIT] and yields; the process continues with another turn. *)
Definition recv_turn (st : port_st) (i : nat) (buf : list Z) (cap cur : Z) : option (recv_result * port_st) :=
  p ← ps_table st !! i;
  '(r, slot, rb) ← ringbuf_pop (po_ring p) (replicate 64 0) PORT_SLOT_SIZE;
  let st := set_port st i (po_set_ring p rb) in
  if negb (r =? 0) then Some (RBlock, set_port st i (po_set_waiter (po_set_ring p rb) (Some cur)))
  else
    let type := le_val (take 4 slot) in
    let payload_len := le_val (slice 4 4 slot) in
    let payload := drop 8 slot in
    if payload_len <=? PORT_INLINE_MAX then
      b ← memcpy_obj buf 0 (le_bytes 4 type ++ le_bytes 4 payload_len) 8;
      let copy := if payload_len <? cap - MSG_HDR_SZ then payload_len else cap - MSG_HDR_SZ in
      b ← memcpy_obj b 8 payload (Z.to_nat copy);
      Some (RDone 0 b (MSG_HDR_SZ + copy), st)
    else
      let ptr := le_val (take 8 payload) in
      data ← ps_bufs st !! ptr;
      let copy := if payload_len <? cap then payload_len else cap in
      b ← memcpy_obj buf 0 data (Z.to_nat copy);
      Some (RDone 0 b copy, mk_ports (ps_table st) (delete ptr (ps_bufs st)) (ps_woken st)).

(** The guards and the first turn; [buf] is [None] and [len_out] false for null
    pointers, and [buf] has at least [cap] bytes. *)
Definition port_recv (st : port_st) (id : Z) (buf : option (list Z)) (cap : Z) (len_out : bool) (cur : Z)
    : option (recv_result * port_st) :=
  match buf with
  | None => Some (RDone (-1) [] 0, st)
  | Some buf =>
      if negb len_out || (cap <? PORT_SLOT_SIZE) then Some (RDone (-1) buf 0, st)
      else
        found ← port_find_by_id st id;
        match found with
        | None => Some (RDone (-1) buf 0, st)
        | Some i => recv_turn st i buf cap cur
        end
  end.

(** ** Specification *)

Definition slot_type (s : list Z) : Z := le_val (take 4 s).
Definition slot_len (s : list Z) : Z := le_val (slice 4 4 s).
Definition slot_ptr (s : list Z) : Z := le_val (take 8 (drop 8 s)).
Definition out_of_line (s : list Z) : bool := PORT_INLINE_MAX <? slot_len s.

(** A queued message as the two ends see it: in the slot, or in a buffer. *)
Inductive message :=
| Inline (type len : Z) (payload : list Z)
| OutOfLine (type : Z) (data : list Z).

Definition slot_message (bufs : gmap Z (list Z)) (s : list Z) : message :=
  if out_of_line s then OutOfLine (slot_type s) (default [] (bufs !! slot_ptr s))
  else Inline (slot_type s) (slot_len s) (drop 8 s).

(** The message [port_send] makes of the [len] bytes at [msg]. *)
Definition sent (msg : list Z) (len : Z) : message :=
  let type := le_val (take 4 msg) in
  if len <=? PORT_INLINE_MAX
  then Inline type len (slice 8 (Z.to_nat (len - 8)) msg ++ replicate (Z.to_nat (64 - len)) 0)
  else OutOfLine type (take (Z.to_nat len) msg).

(** The bytes [port_recv] hands over. *)
Definition delivered (m : message) : list Z :=
  match m with
  | Inline type len payload => le_bytes 4 type ++ le_bytes 4 len ++ take (Z.to_nat len) payload
  | OutOfLine _ data => data
  end.

Definition queue (st : port_st) (p : port_obj_t) : list message :=
  map (slot_message (ps_bufs st)) (contents (po_ring p)).

Definition slot_ptrs (s : list Z) : list Z := if out_of_line s then [slot_ptr s] else [].

Definition port_ptrs (p : port_obj_t) : list Z :=
  if po_id p =? 0 then [] else concat (map slot_ptrs (contents (po_ring p))).

Definition table_ptrs (table : list port_obj_t) : list Z := concat (map port_ptrs table).

Definition slot_ok (bufs : gmap Z (list Z)) (s : list Z) : Prop :=
  0 <= slot_len s /\ (out_of_line s = true -> exists d, bufs !! slot_ptr s = Some d /\ Z.of_nat (length d) = slot_len s).

Record live_port (bufs : gmap Z (list Z)) (i : nat) (p : port_obj_t) : Prop := {
  lp_id : po_id p = Z.of_nat i + 1;
  lp_name : cstring (po_name p) (until0 (po_name p));
  lp_short : (length (until0 (po_name p)) < PORT_NAME_LEN)%nat;
  lp_ring : ringbuf_wf (po_ring p);
  lp_slot : rb_slot_size (po_ring p) = PORT_SLOT_SIZE;
  lp_count : rb_slot_count (po_ring p) = PORT_QUEUE_DEPTH;
  lp_slots : Forall (slot_ok bufs) (contents (po_ring p));
}.

(** Every used slot of the table holds the port of its own identifier with a
    well-formed queue, and every kernel buffer is in at most one queue. *)
Record ports_inv (st : port_st) : Prop := {
  pi_len : length (ps_table st) = MAX_PORTS;
  pi_port : forall i p, ps_table st !! i = Some p -> po_id p = 0 \/ live_port (ps_bufs st) i p;
  pi_ptrs : NoDup (table_ptrs (ps_table st));
}.

Definition has_name (str : list Z) (p : port_obj_t) : bool :=
  negb (po_id p =? 0) && bool_decide (until0 (po_name p) = str).

Definition port_at (st : port_st) (id : Z) (p : port_obj_t) : Prop :=
  0 < id /\ ps_table st !! Z.to_nat (id - 1) = Some p /\ po_id p = id.

(** Every port but [id] is as it was, and so are its messages. *)
Definition undisturbed (id : Z) (st st' : port_st) : Prop :=
  forall j q, Z.of_nat j + 1 <> id -> ps_table st !! j = Some q ->
    ps_table st' !! j = Some q /\ (po_id q <> 0 -> queue st' q = queue st q).

(** ** Lemmas *)

Lemma table_ptrs_split t i p :
  t !! i = Some p -> table_ptrs t ≡ₚ port_ptrs p ++ table_ptrs (delete i t).
Proof.
  revert i. induction t as [|x t IH]; intros [|i] H; simplify_eq/=; [done|].
  unfold table_ptrs in *. simpl. rewrite (IH i H). by rewrite !app_assoc, (Permutation_app_comm (port_ptrs x)).
Qed.

Lemma table_ptrs_insert t i p :
  (i < length t)%nat -> table_ptrs (<[i := p]> t) ≡ₚ port_ptrs p ++ table_ptrs (delete i t).
Proof.
  intros Hi. rewrite (table_ptrs_split _ i p) by (by apply list_lookup_insert_eq).
  f_equiv. by rewrite !delete_take_drop, take_insert_ge, drop_insert_lt by lia.
Qed.

Lemma slot_ptr_in_port p s :
  po_id p <> 0 -> s ∈ contents (po_ring p) -> out_of_line s = true -> slot_ptr s ∈ port_ptrs p.
Proof.
  intros Hp Hs Ho. unfold port_ptrs. destruct (Z.eqb_spec (po_id p) 0); [done|].
  apply list_elem_of_In, in_concat. exists (slot_ptrs s). split.
  - apply in_map, list_elem_of_In, Hs.
  - unfold slot_ptrs. rewrite Ho. by left.
Qed.

Lemma port_ptrs_in_table t j p x : t !! j = Some p -> x ∈ port_ptrs p -> x ∈ table_ptrs t.
Proof.
  intros Hj Hx. rewrite (table_ptrs_split _ _ _ Hj). by apply elem_of_app; left.
Qed.

Lemma slot_ok_change bufs bufs' s :
  slot_ok bufs s -> (out_of_line s = true -> bufs' !! slot_ptr s = bufs !! slot_ptr s) -> slot_ok bufs' s.
Proof. intros [? H] Heq. split; [done|]. intros Ho. rewrite (Heq Ho). by apply H. Qed.

Lemma live_port_nonzero bufs i p : live_port bufs i p -> po_id p <> 0.
Proof. intros H. rewrite (lp_id _ _ _ H). lia. Qed.

Lemma elem_of_delete_ptrs st i j q s :
  ps_table st !! j = Some q -> i <> j -> po_id q <> 0 -> s ∈ contents (po_ring q) ->
  out_of_line s = true -> slot_ptr s ∈ table_ptrs (delete i (ps_table st)).
Proof.
  intros Hq Hne Hid Hs Ho. pose proof (slot_ptr_in_port q s Hid Hs Ho).
  destruct (decide (j < i)%nat).
  - eapply (port_ptrs_in_table _ j q); [|done]. by rewrite list_lookup_delete_lt.
  - eapply (port_ptrs_in_table _ (pred j) q); [|done].
    rewrite list_lookup_delete_ge by lia. by replace (S (pred j)) with j by lia.
Qed.

(** A change of one port and of the buffers that no other port refers to. *)
Lemma update_inv st i p p' bufs' w :
  ports_inv st -> ps_table st !! i = Some p ->
  po_id p' = 0 \/ live_port bufs' i p' ->
  (forall x, x ∈ table_ptrs (delete i (ps_table st)) -> bufs' !! x = ps_bufs st !! x) ->
  NoDup (port_ptrs p' ++ table_ptrs (delete i (ps_table st))) ->
  ports_inv (mk_ports (<[i := p']> (ps_table st)) bufs' w).
Proof.
  intros [Hlen Hport Hnd] Hi Hp' Hsame Hnd'. pose proof (lookup_lt_Some _ _ _ Hi).
  constructor; simpl.
  - by rewrite length_insert.
  - intros j q Hq. destruct (decide (i = j)) as [<-|Hne].
    { rewrite list_lookup_insert_eq in Hq by done. by simplify_eq. }
    rewrite list_lookup_insert_ne in Hq by done.
    destruct (Hport j q Hq) as [?|Hl]; [by left|]. right. destruct Hl. constructor; try done.
    eapply Forall_impl; [apply Forall_forall|]; [|intros s Hs; exact Hs]. intros s Hs.
    rewrite Forall_forall in lp_slots0. eapply slot_ok_change; [by apply lp_slots0|].
    intros Ho. apply Hsame. eapply elem_of_delete_ptrs; eauto. lia.
  - by rewrite table_ptrs_insert by done.
Qed.

(** The common case: the buffers stay, and the port keeps its queue. *)
Lemma set_port_inv st i p p' w :
  ports_inv st -> ps_table st !! i = Some p ->
  po_id p' = 0 \/ live_port (ps_bufs st) i p' ->
  (po_id p' = 0 \/ (po_id p <> 0 /\ contents (po_ring p') = contents (po_ring p))) ->
  ports_inv (mk_ports (<[i := p']> (ps_table st)) (ps_bufs st) w).
Proof.
  intros Hinv Hi Hp' Hc. eapply update_inv; [done|done|done|done|].
  pose proof (pi_ptrs _ Hinv) as Hnd. rewrite (table_ptrs_split _ _ _ Hi) in Hnd.
  unfold port_ptrs at 1. destruct (Z.eqb_spec (po_id p') 0).
  - simpl. by apply NoDup_app in Hnd as (_ & _ & ?).
  - destruct Hc as [?|[Hp Hc]]; [done|]. rewrite Hc. unfold port_ptrs at 1 in Hnd.
    by destruct (Z.eqb_spec (po_id p) 0).
Qed.

Lemma find_by_id_ok st id :
  ports_inv st -> 0 <= id ->
  exists r, port_find_by_id st id = Some r /\
    match r with
    | Some i => exists p, id = Z.of_nat i + 1 /\ port_at st id p /\ ps_table st !! i = Some p
                  /\ live_port (ps_bufs st) i p
    | None => forall p, ~ port_at st id p
    end.
Proof.
  intros Hinv Hid. unfold port_find_by_id, port_at.
  destruct (Z.eqb_spec id 0); simpl; [exists None; split; [done|lia]|].
  destruct (Z.ltb_spec (Z.of_nat MAX_PORTS) id); simpl.
  { exists None. split; [done|]. intros p (_ & Hp & _). apply lookup_lt_Some in Hp.
    rewrite (pi_len _ Hinv) in Hp. lia. }
  destruct (lookup_lt_is_Some_2 (ps_table st) (Z.to_nat (id - 1))) as [p Hp].
  { rewrite (pi_len _ Hinv). lia. }
  rewrite Hp. cbn [mbind option_bind]. eexists. split; [done|]. destruct (Z.eqb_spec (po_id p) id).
  - exists p. split_and!; [lia|lia|done|done|done|].
    destruct (pi_port _ Hinv _ _ Hp) as [?|?]; [lia|done].
  - intros q (_ & [= <-] & ?). done.
Qed.

Lemma queue_change bufs bufs' l :
  (forall s, s ∈ l -> out_of_line s = true -> bufs' !! slot_ptr s = bufs !! slot_ptr s) ->
  map (slot_message bufs') l = map (slot_message bufs) l.
Proof.
  intros H. apply map_ext_in. intros s Hs%list_elem_of_In. unfold slot_message.
  destruct (out_of_line s) eqn:Ho; [|done]. by rewrite H.
Qed.

Lemma update_undisturbed st i p' bufs' w :
  (forall x, x ∈ table_ptrs (delete i (ps_table st)) -> bufs' !! x = ps_bufs st !! x) ->
  undisturbed (Z.of_nat i + 1) st (mk_ports (<[i := p']> (ps_table st)) bufs' w).
Proof.
  intros Hsame j q Hj Hq. simpl. rewrite list_lookup_insert_ne by lia. split; [done|].
  intros Hid. apply queue_change. intros s Hs Ho. apply Hsame.
  eapply elem_of_delete_ptrs; eauto. lia.
Qed.

Lemma ptrs_have_buffers st x : ports_inv st -> x ∈ table_ptrs (ps_table st) -> is_Some (ps_bufs st !! x).
Proof.
  intros Hinv Hx. apply list_elem_of_In, in_concat in Hx as (l & Hl & Hx).
  apply in_map_iff in Hl as (p & <- & Hp). apply list_elem_of_In, list_elem_of_lookup in Hp as [i Hp].
  unfold port_ptrs in Hx. destruct (Z.eqb_spec (po_id p) 0); [done|].
  destruct (pi_port _ Hinv _ _ Hp) as [?|Hl]; [done|].
  apply in_concat in Hx as (l & Hl' & Hx). apply in_map_iff in Hl' as (s & <- & Hs).
  unfold slot_ptrs in Hx. destruct (out_of_line s) eqn:Ho; [|done]. destruct Hx as [<-|[]].
  pose proof (lp_slots _ _ _ Hl) as Hok. rewrite Forall_forall in Hok.
  destruct (Hok s) as [_ Hb]; [by apply list_elem_of_In|]. destruct (Hb Ho) as (d & -> & _). done.
Qed.

Lemma set_ring_same p : po_set_ring p (po_ring p) = p.
Proof. by destruct p. Qed.

Lemma set_port_same st i p : ps_table st !! i = Some p -> set_port st i p = st.
Proof. intros H. unfold set_port. rewrite list_insert_id by done. by destruct st. Qed.

Lemma push_retry_full n st i p slot :
  ps_table st !! i = Some p -> rb_slot_count (po_ring p) = PORT_QUEUE_DEPTH ->
  length (contents (po_ring p)) = 64%nat -> push_retry n st i slot = Some (-1, st).
Proof.
  intros Hp Hc Hfull. induction n as [|n IH]; [done|]. cbn [push_retry]. rewrite Hp.
  cbn [mbind option_bind]. rewrite push_full by (rewrite Hfull, Hc; done). cbn [mbind option_bind].
  rewrite set_ring_same, (set_port_same st i p Hp). exact IH.
Qed.

Lemma push_retry_room n st i p slot :
  ps_table st !! i = Some p -> live_port (ps_bufs st) i p ->
  (length (contents (po_ring p)) < 64)%nat -> length slot = 64%nat ->
  exists rb', push_retry (S n) st i slot =
      Some (0, mk_ports (<[i := po_set_waiter (po_set_ring p rb') None]> (ps_table st)) (ps_bufs st)
                 (ps_woken st ++ option_list (po_waiter p))) /\
    ringbuf_wf rb' /\ contents rb' = contents (po_ring p) ++ [slot] /\
    rb_slot_size rb' = PORT_SLOT_SIZE /\ rb_slot_count rb' = PORT_QUEUE_DEPTH.
Proof.
  intros Hp [_ _ _ Hwf Hss Hsc _] Hroom Hslot. cbn [push_retry]. rewrite Hp. cbn [mbind option_bind].
  destruct (push_ok (po_ring p) slot PORT_SLOT_SIZE) as (rb' & Hpush & Hwf' & Hc).
  { done. } { rewrite Hsc. unfold PORT_QUEUE_DEPTH. lia. } { rewrite Hss. unfold PORT_SLOT_SIZE. lia. }
  { rewrite Hslot. done. }
  destruct (push_sizes _ _ _ _ _ Hpush) as [Hs Hcn]. rewrite Hpush. cbn [mbind option_bind Z.eqb].
  exists rb'. split_and!; [|done| |congruence|congruence].
  - destruct (po_waiter p) eqn:Hw; unfold set_port, wake; simpl.
    + by rewrite list_insert_insert_eq.
    + rewrite app_nil_r. unfold po_set_waiter, po_set_ring. simpl. by rewrite <- Hw.
  - rewrite Hc. f_equal. f_equal. change (Z.to_nat PORT_SLOT_SIZE) with 64%nat.
    rewrite take_ge by lia. rewrite drop_ge; [by rewrite app_nil_r|].
    rewrite (length_slot _ Hwf), Hss. unfold PORT_SLOT_SIZE. lia.
Qed.

Section slots.
Context (type len : Z) (payload : list Z).
Hypothesis Htype : 0 <= type < 2 ^ 32.
Hypothesis Hlen : 0 <= len < 2 ^ 32.

Lemma slot_type_ok : slot_type (port_slot type len payload) = type.
Proof.
  unfold slot_type, port_slot. rewrite take_app_length' by (by rewrite length_le_bytes).
  by apply le_val_bytes.
Qed.

Lemma slot_len_ok : slot_len (port_slot type len payload) = len.
Proof.
  unfold slot_len, port_slot, slice. rewrite drop_app_length' by (by rewrite length_le_bytes).
  rewrite take_app_length' by (by rewrite length_le_bytes). by apply le_val_bytes.
Qed.

Lemma slot_payload_ok : drop 8 (port_slot type len payload) = payload.
Proof.
  unfold port_slot. rewrite app_assoc. apply drop_app_length'.
  by rewrite length_app, !length_le_bytes.
Qed.

Lemma slot_message_inline bufs :
  len <= 56 -> slot_message bufs (port_slot type len payload) = Inline type len payload.
Proof.
  intros H. unfold slot_message, out_of_line. rewrite slot_len_ok, slot_type_ok, slot_payload_ok.
  unfold PORT_INLINE_MAX. by destruct (Z.ltb_spec 56 len); [lia|].
Qed.
End slots.

Lemma slot_ptr_ok type len ptr rest :
  0 <= ptr < 2 ^ 64 -> slot_ptr (port_slot type len (le_bytes 8 ptr ++ rest)) = ptr.
Proof.
  intros H. unfold slot_ptr. rewrite slot_payload_ok, take_app_length' by (by rewrite length_le_bytes).
  by apply le_val_bytes.
Qed.

(** The ring of port [i] after a successful push of a slot that is inline, or
    whose buffer is new. *)
Lemma send_slot_ok st i p slot bufs' :
  ports_inv st -> ps_table st !! i = Some p -> live_port (ps_bufs st) i p -> length slot = 64%nat ->
  slot_ok bufs' slot -> NoDup (slot_ptrs slot ++ table_ptrs (ps_table st)) ->
  (forall x, x ∈ table_ptrs (ps_table st) -> bufs' !! x = ps_bufs st !! x) ->
  let st1 := mk_ports (ps_table st) bufs' (ps_woken st) in
  exists r st', push_retry 1000 st1 i slot = Some (r, st') /\ ports_inv st' /\
    undisturbed (Z.of_nat i + 1) st st' /\
    if decide (length (contents (po_ring p)) < 64)%nat then
      r = 0 /\ ps_woken st' = ps_woken st ++ option_list (po_waiter p) /\
      exists p', port_at st' (Z.of_nat i + 1) p' /\ po_waiter p' = None /\
        queue st' p' = queue st p ++ [slot_message bufs' slot]
    else r = -1 /\ st' = st1.
Proof.
  intros Hinv Hp Hl Hlen Hok Hnd Hsame st1.
  assert (Hsame' : forall s, s ∈ contents (po_ring p) -> out_of_line s = true ->
                     bufs' !! slot_ptr s = ps_bufs st !! slot_ptr s).
  { intros s Hs Ho. apply Hsame. eapply port_ptrs_in_table; [done|].
    apply slot_ptr_in_port; [by eapply live_port_nonzero|done|done]. }
  assert (Hdel : forall x, x ∈ table_ptrs (delete i (ps_table st)) -> bufs' !! x = ps_bufs st !! x).
  { intros x Hx. apply Hsame. rewrite (table_ptrs_split _ _ _ Hp). apply elem_of_app. by right. }
  assert (Hl1 : live_port bufs' i p).
  { destruct Hl. constructor; try done. rewrite Forall_forall in *. intros s Hs.
    eapply slot_ok_change; eauto. }
  case_decide as Hroom.
  - destruct (push_retry_room 999 st1 i p slot Hp Hl1 Hroom Hlen) as (rb' & Hpush & Hwf & Hc & Hss & Hsc).
    do 2 eexists. split; [exact Hpush|].
    pose proof (lookup_lt_Some _ _ _ Hp) as Hlt. split_and!.
    + eapply (update_inv st); [done|done| |done|].
      * right. destruct Hl1. constructor; simpl; try done. rewrite Hc. by apply Forall_app_2; [|constructor].
      * rewrite (table_ptrs_split _ _ _ Hp), app_assoc in Hnd.
        unfold port_ptrs at 1 in Hnd. unfold port_ptrs at 1. simpl.
        destruct (Z.eqb_spec (po_id p) 0) as [E|_]; [by apply live_port_nonzero in Hl|].
        rewrite Hc, map_app, concat_app. simpl. rewrite app_nil_r.
        by rewrite (Permutation_app_comm (concat _)).
    + by apply (update_undisturbed st).
    + done.
    + done.
    + exists (po_set_waiter (po_set_ring p rb') None). unfold port_at. simpl. split_and!; [lia| | |done|].
      * replace (Z.to_nat (Z.of_nat i + 1 - 1)) with i by lia. by apply list_lookup_insert_eq.
      * apply (lp_id _ _ _ Hl).
      * unfold queue. simpl. rewrite Hc, map_app. f_equal. by apply queue_change.
  - exists (-1), st1. assert (Hfull : length (contents (po_ring p)) = 64%nat).
    { destruct Hl. pose proof (used_le _ lp_ring0). rewrite (length_contents _) in *.
      rewrite lp_count0 in *. unfold PORT_QUEUE_DEPTH in *. lia. }
    split; [by apply (push_retry_full _ _ _ p); [|apply Hl|]|].
    assert (Hst1 : st1 = mk_ports (<[i := p]> (ps_table st)) bufs' (ps_woken st)).
    { by rewrite list_insert_id. }
    rewrite Hst1. split_and!; [|by apply update_undisturbed|done|done].
    eapply (update_inv st); [done|done|by right|done|].
    rewrite <- (table_ptrs_split _ _ _ Hp). by eapply NoDup_app, Hnd.
Qed.

Lemma copy_to_zeros n src k :
  (k <= n)%nat -> (k <= length src)%nat ->
  memcpy_obj (replicate n 0) 0 src k = Some (take k src ++ replicate (n - k) 0).
Proof.
  intros Hn Hk. rewrite memcpy_obj_spec by (rewrite ?length_replicate; lia).
  rewrite inserts_prefix by (rewrite length_take, length_replicate; lia).
  by rewrite drop_replicate, length_take_le by done.
Qed.

Lemma find_port st id p :
  ports_inv st -> port_at st id p ->
  exists i, id = Z.of_nat i + 1 /\ port_find_by_id st id = Some (Some i) /\
    ps_table st !! i = Some p /\ live_port (ps_bufs st) i p.
Proof.
  intros Hinv Hat. destruct (find_by_id_ok st id Hinv) as ([i|] & Hf & H); [destruct Hat; lia| |].
  - destruct H as (q & -> & Hq & Hi & Hl). exists i.
    assert (p = q) as -> by (destruct Hat as (_ & ? & _), Hq as (_ & ? & _); congruence). done.
  - by destruct (H p).
Qed.

Lemma length_queue st p : length (queue st p) = length (contents (po_ring p)).
Proof. apply length_map. Qed.

Section send.
Context (st : port_st) (id : Z) (p : port_obj_t) (msg : list Z) (len : Z).
Hypothesis Hinv : ports_inv st.
Hypothesis Hat : port_at st id p.
Hypothesis Hbytes : Forall (fun b => 0 <= b < 256) msg.
Hypothesis Hmsg : len <= Z.of_nat (length msg).

Lemma msg_type_range : 8 <= len -> 0 <= le_val (take 4 msg) < 2 ^ 32.
Proof.
  intros. pose proof (le_val_range (take 4 msg) (Forall_take _ _ _ Hbytes)) as Hr.
  rewrite length_take_le in Hr by lia. done.
Qed.

Definition send_post (bufs' : gmap Z (list Z)) (r : Z) (st' : port_st) : Prop :=
  ports_inv st' /\ undisturbed id st st' /\
  if decide (length (queue st p) < 64)%nat then
    r = 0 /\ ps_woken st' = ps_woken st ++ option_list (po_waiter p) /\
    exists p', port_at st' id p' /\ po_waiter p' = None /\ queue st' p' = queue st p ++ [sent msg len]
  else r = -1 /\ st' = mk_ports (ps_table st) bufs' (ps_woken st).

Lemma send_inline_ok buf :
  8 <= len <= 56 ->
  exists r st', port_send st id msg len buf = Some (r, st') /\ send_post (ps_bufs st) r st'.
Proof.
  intros Hlen. destruct (find_port st id p Hinv Hat) as (i & Hid & Hf & Hi & Hl).
  unfold port_send, PORT_MSG_MAX, PORT_INLINE_MAX, MSG_HDR_SZ.
  destruct (Z.eqb_spec len 0); [lia|]. destruct (Z.ltb_spec 4096 len); [lia|]. simpl orb. cbn iota.
  rewrite Hf. cbn [mbind option_bind]. destruct (Z.leb_spec len 56); [|lia].
  rewrite (u64_small (len - 8)) by lia. destruct (Z.ltb_spec (len - 8) 56); [|lia].
  rewrite !copy_to_zeros by (rewrite ?length_drop; lia). cbn [mbind option_bind].
  rewrite app_nil_r, u32_small by lia.
  pose proof (msg_type_range ltac:(lia)) as Ht.
  set (pl := take _ (drop 8 msg) ++ _). set (sl := port_slot _ _ _).
  assert (Hsl : forall bufs, slot_message bufs sl = sent msg len).
  { intros bufs. unfold sl. rewrite slot_message_inline by lia. unfold sent, PORT_INLINE_MAX.
    destruct (Z.leb_spec len 56); [|lia]. f_equal. unfold pl, slice. f_equal. f_equal. lia. }
  assert (Ho : out_of_line sl = false).
  { unfold out_of_line. unfold sl. rewrite slot_len_ok by lia. apply Z.ltb_ge. done. }
  destruct (send_slot_ok st i p sl (ps_bufs st)) as (r & st' & Hpush & Hinv' & Hund & Hpost); try done.
  { unfold sl, port_slot, pl. rewrite !length_app, !length_le_bytes, length_take, length_drop, length_replicate. lia. }
  { split; [unfold sl; rewrite slot_len_ok; lia|congruence]. }
  { unfold slot_ptrs. rewrite Ho. apply (pi_ptrs _ Hinv). }
  exists r, st'. rewrite Hsl in Hpost. unfold send_post. rewrite length_queue, Hid. destruct st. done.
Qed.

Lemma send_large_ok ptr :
  56 < len <= PORT_MSG_MAX -> 0 <= ptr < 2 ^ 64 -> ps_bufs st !! ptr = None ->
  exists r st', port_send st id msg len (Some ptr) = Some (r, st') /\
    send_post (<[ptr := take (Z.to_nat len) msg]> (ps_bufs st)) r st'.
Proof.
  unfold PORT_MSG_MAX. intros Hlen Hptr Hfresh.
  destruct (find_port st id p Hinv Hat) as (i & Hid & Hf & Hi & Hl).
  unfold port_send, PORT_MSG_MAX, PORT_INLINE_MAX, MSG_HDR_SZ.
  destruct (Z.eqb_spec len 0); [lia|]. destruct (Z.ltb_spec 4096 len); [lia|]. simpl orb. cbn iota.
  rewrite Hf. cbn [mbind option_bind]. destruct (Z.leb_spec len 56); [lia|].
  rewrite !copy_to_zeros by lia. cbn [mbind option_bind]. rewrite !Nat.sub_diag, !app_nil_r, u32_small by lia.
  pose proof (msg_type_range ltac:(lia)) as Ht.
  set (data := take _ msg). set (bufs' := <[ptr := data]> _). set (sl := port_slot _ _ _).
  assert (Ho : out_of_line sl = true).
  { unfold out_of_line, sl. rewrite slot_len_ok by lia. by apply Z.ltb_lt. }
  assert (Hsp : slot_ptr sl = ptr) by by apply slot_ptr_ok.
  assert (Hsl : slot_message bufs' sl = sent msg len).
  { unfold slot_message. rewrite Ho, Hsp. unfold bufs'. rewrite lookup_insert_eq. simpl.
    unfold sent, PORT_INLINE_MAX. destruct (Z.leb_spec len 56); [lia|]. f_equal. by apply slot_type_ok. }
  assert (Hnot : ptr ∉ table_ptrs (ps_table st)).
  { intros [d Hd]%ptrs_have_buffers; [congruence|done]. }
  destruct (send_slot_ok st i p sl bufs') as (r & st' & Hpush & Hinv' & Hund & Hpost); try done.
  { split; [unfold sl; rewrite slot_len_ok; lia|]. intros _. rewrite Hsp. exists data.
    unfold bufs'. rewrite lookup_insert_eq. split; [done|]. unfold data, sl.
    rewrite slot_len_ok, length_take_le by lia. lia. }
  { unfold slot_ptrs. rewrite Ho, Hsp. simpl. constructor; [done|]. apply (pi_ptrs _ Hinv). }
  { intros x Hx. unfold bufs'. rewrite lookup_insert_ne; [done|]. intros ->. done. }
  exists r, st'. rewrite Hsl in Hpost. unfold send_post. rewrite length_queue, Hid. done.
Qed.
End send.

(** ** Receiving *)

Section recv.
Context (st : port_st) (i : nat) (p : port_obj_t) (buf : list Z) (cap cur : Z).
Hypothesis Hinv : ports_inv st.
Hypothesis Hi : ps_table st !! i = Some p.
Hypothesis Hl : live_port (ps_bufs st) i p.
Hypothesis Hcap : PORT_SLOT_SIZE <= cap <= Z.of_nat (length buf).

Lemma recv_empty :
  contents (po_ring p) = [] ->
  recv_turn st i buf cap cur =
    Some (RBlock, mk_ports (<[i := po_set_waiter p (Some cur)]> (ps_table st)) (ps_bufs st) (ps_woken st)).
Proof.
  intros Hc. unfold recv_turn. rewrite Hi. cbn [mbind option_bind].
  rewrite pop_empty by (done || apply Hl). cbn [mbind option_bind negb Z.eqb].
  unfold set_port. simpl. rewrite list_insert_insert_eq, set_ring_same. done.
Qed.

(** The port and the buffers after slot [s] was taken off the queue. *)
Lemma pop_post s q rb' :
  contents (po_ring p) = s :: q -> ringbuf_wf rb' -> contents rb' = q ->
  rb_slot_size rb' = PORT_SLOT_SIZE -> rb_slot_count rb' = PORT_QUEUE_DEPTH ->
  let bufs' := if out_of_line s then delete (slot_ptr s) (ps_bufs st) else ps_bufs st in
  let p' := po_set_ring p rb' in
  let st' := mk_ports (<[i := p']> (ps_table st)) bufs' (ps_woken st) in
  ports_inv st' /\ undisturbed (Z.of_nat i + 1) st st' /\ port_at st' (Z.of_nat i + 1) p' /\
  queue st' p' = map (slot_message (ps_bufs st)) q.
Proof.
  intros Hc Hwf Hq Hss Hsc bufs' p' st'. pose proof (pi_ptrs _ Hinv) as Hnd.
  rewrite (table_ptrs_split _ _ _ Hi) in Hnd. unfold port_ptrs at 1 in Hnd.
  destruct (Z.eqb_spec (po_id p) 0) as [E|_]; [by apply live_port_nonzero in Hl|].
  rewrite Hc in Hnd. cbn [map concat] in Hnd. rewrite <- app_assoc in Hnd.
  apply NoDup_app in Hnd as (_ & Hdis & Hnd).
  assert (Hsame : forall x, x ∈ concat (map slot_ptrs q) ++ table_ptrs (delete i (ps_table st)) ->
                    bufs' !! x = ps_bufs st !! x).
  { intros x Hx. unfold bufs'. destruct (out_of_line s) eqn:Ho; [|done].
    apply lookup_delete_ne. intros <-. apply (Hdis (slot_ptr s)); [|done].
    unfold slot_ptrs. rewrite Ho. by apply list_elem_of_here. }
  assert (Hq' : forall t, t ∈ q -> out_of_line t = true -> bufs' !! slot_ptr t = ps_bufs st !! slot_ptr t).
  { intros t Ht Ho. apply Hsame, elem_of_app. left. apply list_elem_of_In, in_concat.
    exists (slot_ptrs t). split; [apply in_map, list_elem_of_In, Ht|]. unfold slot_ptrs. rewrite Ho. by left. }
  assert (Hdel : forall x, x ∈ table_ptrs (delete i (ps_table st)) -> bufs' !! x = ps_bufs st !! x).
  { intros x Hx. apply Hsame, elem_of_app. by right. }
  split_and!.
  - eapply (update_inv st); [done|done| |done|].
    + right. destruct Hl. constructor; simpl; try done. rewrite Hq. rewrite Hc in lp_slots0.
      apply Forall_cons in lp_slots0 as [_ Hall]. rewrite Forall_forall in *. intros t Ht.
      eapply slot_ok_change; eauto.
    + unfold port_ptrs at 1. simpl. rewrite Hq. destruct (Z.eqb_spec (po_id p) 0) as [E|_]; [|done].
      by apply live_port_nonzero in Hl.
  - by apply (update_undisturbed st).
  - unfold port_at. simpl. split_and!; [lia| |apply Hl].
    replace (Z.to_nat (Z.of_nat i + 1 - 1)) with i by lia.
    by apply list_lookup_insert_eq, (lookup_lt_Some _ _ _ Hi).
  - unfold queue. simpl. rewrite Hq. by apply queue_change.
Qed.

Lemma recv_message s q :
  contents (po_ring p) = s :: q ->
  exists st' p', recv_turn st i buf cap cur =
      Some (RDone 0 (list_inserts 0 (take (Z.to_nat cap) (delivered (slot_message (ps_bufs st) s))) buf)
              (Z.min cap (Z.of_nat (length (delivered (slot_message (ps_bufs st) s))))), st') /\
    ports_inv st' /\ undisturbed (Z.of_nat i + 1) st st' /\ port_at st' (Z.of_nat i + 1) p' /\
    queue st' p' = map (slot_message (ps_bufs st)) q.
Proof.
  intros Hc. pose proof Hcap as Hcap'. unfold PORT_SLOT_SIZE in Hcap'. destruct Hl as [_ _ _ Hwf Hss Hsc Hsl].
  assert (Hlen : length s = 64%nat).
  { rewrite (contents_head _ _ _ Hwf Hc), (length_slot _ Hwf), Hss. done. }
  destruct (pop_ok (po_ring p) (replicate 64 0) PORT_SLOT_SIZE s q) as (rb' & Hpop & Hwf' & Hq);
    [done|done|by rewrite Hss|done|].
  destruct (pop_sizes _ _ _ _ _ _ Hpop) as [Hs1 Hs2].
  destruct (pop_post s q rb') as (Hi1 & Hi2 & Hi3 & Hi4); [done|done|done|congruence|congruence|].
  do 2 eexists. split; [|split_and!; [exact Hi1|exact Hi2|exact Hi3|exact Hi4]].
  unfold recv_turn. rewrite Hi. cbn [mbind option_bind]. rewrite Hpop. cbn [mbind option_bind negb Z.eqb].
  rewrite inserts_prefix by (rewrite length_take, length_replicate; lia).
  change (Z.to_nat PORT_SLOT_SIZE) with 64%nat. rewrite take_ge by lia. rewrite Hlen, drop_ge by done.
  rewrite app_nil_r. fold (slot_type s) (slot_len s) (slot_ptr s).
  rewrite Hc in Hsl. apply Forall_cons in Hsl as [[Hpos Hbuf] _]. unfold set_port. cbn [ps_table ps_bufs ps_woken].
  unfold slot_message, out_of_line, PORT_INLINE_MAX, MSG_HDR_SZ in *.
  destruct (Z.leb_spec (slot_len s) 56), (Z.ltb_spec 56 (slot_len s)); try lia; cbn [delivered].
  - rewrite memcpy_obj_spec by (rewrite ?length_app, ?length_le_bytes; lia). cbn [mbind option_bind].
    replace (if slot_len s <? cap - 8 then slot_len s else cap - 8) with (slot_len s)
      by (destruct (Z.ltb_spec (slot_len s) (cap - 8)); lia).
    rewrite memcpy_obj_spec by (rewrite ?length_inserts, ?length_drop; lia). cbn [mbind option_bind].
    rewrite (take_ge (_ ++ _) 8) by (rewrite length_app, !length_le_bytes; lia).
    set (h := le_bytes 4 _ ++ le_bytes 4 _). set (pl := take _ (drop 8 s)).
    assert (Hh : length h = 8%nat) by (unfold h; by rewrite length_app, !length_le_bytes).
    assert (Hpl : length pl = Z.to_nat (slot_len s)) by (unfold pl; rewrite length_take, length_drop; lia).
    pose proof (inserts_app 0 h pl buf) as Happ. rewrite Hh in Happ.
    rewrite (Happ : list_inserts 8 pl _ = _).
    rewrite (app_assoc (le_bytes 4 _) (le_bytes 4 _) pl). fold h.
    rewrite take_ge, length_app, Hh, Hpl by (rewrite length_app; lia). do 3 f_equal. lia.
  - destruct Hbuf as (d & Hd & Hdl); [done|]. rewrite Hd. cbn [mbind option_bind default].
    replace (if slot_len s <? cap then slot_len s else cap) with (Z.min cap (Z.of_nat (length d)))
      by (destruct (Z.ltb_spec (slot_len s) cap); lia).
    rewrite memcpy_obj_spec by lia. cbn [mbind option_bind].
    replace (take (Z.to_nat (Z.min _ _)) d) with (take (Z.to_nat cap) d); [done|].
    destruct (Z.min_spec cap (Z.of_nat (length d))) as [[? ->]|[? ->]]; [done|].
    rewrite !take_ge by lia. done.
Qed.
End recv.

(** ** Opening and closing *)

Definition named_ok (p : port_obj_t) : Prop :=
  po_id p = 0 \/ (cstring (po_name p) (until0 (po_name p)) /\ (length (until0 (po_name p)) < PORT_NAME_LEN)%nat).

Lemma find_by_name_ok t k name str :
  Forall named_ok t -> cstring name str -> (length str < PORT_NAME_LEN)%nat ->
  find_by_name t k name = Some ((fun j => (k + j)%nat) <$> find_idx (has_name str) t).
Proof.
  intros Ht Hname Hlen. revert k. induction Ht as [|p t Hp _ IH]; intros k; [done|].
  cbn [find_by_name find_idx]. unfold has_name at 1. destruct (Z.eqb_spec (po_id p) 0); cbn [negb andb].
  { rewrite IH. destruct (find_idx _ t); simpl; [|done]. do 2 f_equal. lia. }
  destruct Hp as [?|[Hp Hps]]; [done|].
  destruct (strncmp_cstring _ _ _ _ PORT_NAME_LEN Hp Hname) as (r & -> & Hr). cbn [mbind option_bind].
  rewrite !take_ge in Hr by lia. destruct (Z.eqb_spec r 0) as [->|Hne].
  - rewrite bool_decide_eq_true_2 by (by apply Hr). simpl. do 2 f_equal. lia.
  - rewrite bool_decide_eq_false_2 by (by intros ?%Hr). simpl. rewrite IH.
    destruct (find_idx _ t); simpl; [|done]. do 2 f_equal. lia.
Qed.

Lemma inv_named st : ports_inv st -> Forall named_ok (ps_table st).
Proof.
  intros Hinv. apply Forall_lookup. intros i p Hp.
  destruct (pi_port _ Hinv _ _ Hp) as [?|Hl]; [by left|]. right. split; apply Hl.
Qed.

Lemma new_ring_ok :
  exists rb, ringbuf_init (Some zero_ring) PORT_SLOT_SIZE PORT_QUEUE_DEPTH = Some (0, Some rb) /\
    ringbuf_wf rb /\ contents rb = [] /\ rb_slot_size rb = PORT_SLOT_SIZE /\
    rb_slot_count rb = PORT_QUEUE_DEPTH.
Proof.
  apply init_ok; [reflexivity|split; done|reflexivity|split; done|].
  cbn [rb_data zero_ring]. by rewrite length_replicate.
Qed.

#[local] Opaque zero_ring.

Lemma make_port_eq name i pid nm rb :
  strncpy (replicate PORT_NAME_LEN 0) name (PORT_NAME_LEN - 1) = Some nm ->
  ringbuf_init (Some zero_ring) PORT_SLOT_SIZE PORT_QUEUE_DEPTH = Some (0, Some rb) ->
  make_port name i pid = Some (mk_port nm (Z.of_nat i + 1) pid 1 rb None).
Proof.
  intros Hnm Hrb. unfold make_port. etransitivity; [apply (bind_eq _ _ _ Hnm)|].
  etransitivity; [apply (bind_eq _ _ _ Hrb)|]. reflexivity.
Qed.

Lemma make_port_ok name str i pid bufs :
  cstring name str -> (length str < PORT_NAME_LEN)%nat ->
  exists p, make_port name i pid = Some p /\ live_port bufs i p /\ until0 (po_name p) = str /\
    contents (po_ring p) = [] /\ po_owner_pid p = pid /\ po_refcount p = 1 /\ po_waiter p = None.
Proof.
  intros Hname Hlen. destruct new_ring_ok as (rb & Hrb & Hwf & Hc & Hss & Hsc).
  eexists. split.
  { eapply make_port_eq; [|exact Hrb]. apply strncpy_from_spec; [exact Hname|].
    rewrite length_replicate. unfold PORT_NAME_LEN. lia. }
  unfold PORT_NAME_LEN in Hlen. clear Hrb. cbn [po_name po_ring po_owner_pid po_refcount po_waiter].
  rewrite take_ge, inserts_prefix by (rewrite ?length_app, ?length_replicate; unfold PORT_NAME_LEN; lia).
  set (nm := _ ++ drop _ _). assert (Hcs : cstring nm str).
  { destruct Hname as (rest & _ & Hall). unfold cstring, nm. rewrite drop_replicate, <- app_assoc, <- replicate_add.
    rewrite length_app, length_replicate. unfold PORT_NAME_LEN.
    exists (replicate (63 - length str) 0). split; [|done]. f_equal. change (0 :: ?l) with (replicate 1 0 ++ l).
    rewrite <- replicate_add. f_equal. lia. }
  clearbody nm. pose proof (until0_cstring _ _ Hcs) as Hu. split_and!; try done.
  constructor; cbn [po_name po_ring po_id]; try done; [by rewrite Hu|by rewrite Hu|by rewrite Hc].
Qed.

(** What [port_open] promises: an existing port of that name is attached to, and
    otherwise the first free slot becomes a new, empty one, as the flags allow. *)
Definition open_post (st : port_st) (str : list Z) (flags pid h : Z) (st' : port_st) : Prop :=
  match find_idx (has_name str) (ps_table st), find_idx (fun p => po_id p =? 0) (ps_table st) with
  | Some i, _ =>
      if Z.land flags PORT_OPEN =? 0 then h = 0 /\ st' = st
      else exists p, ps_table st !! i = Some p /\ h = Z.of_nat i + 1 /\
             port_at st' h (po_set_refcount p (u32 (po_refcount p + 1)))
  | None, Some i =>
      if Z.land flags PORT_CREATE =? 0 then h = 0 /\ st' = st
      else h = Z.of_nat i + 1 /\
           exists p, port_at st' h p /\ until0 (po_name p) = str /\ queue st' p = [] /\
             po_owner_pid p = pid /\ po_refcount p = 1 /\ po_waiter p = None
  | None, None => h = 0 /\ st' = st
  end.

Lemma undisturbed_refl id st : undisturbed id st st.
Proof. by intros j q _ Hq. Qed.

Lemma port_at_insert st i p bufs w :
  (i < length (ps_table st))%nat -> po_id p = Z.of_nat i + 1 ->
  port_at (mk_ports (<[i := p]> (ps_table st)) bufs w) (Z.of_nat i + 1) p.
Proof.
  intros Hi Hid. unfold port_at. simpl. split_and!; [lia| |done].
  replace (Z.to_nat (Z.of_nat i + 1 - 1)) with i by lia. by apply list_lookup_insert_eq.
Qed.

Lemma open_cases st name str flags pid :
  ports_inv st -> cstring name str -> (0 < length str < PORT_NAME_LEN)%nat ->
  exists h st', port_open st (Some name) flags pid = Some (h, st') /\ ports_inv st' /\
    undisturbed h st st' /\ open_post st str flags pid h st'.
Proof.
  intros Hinv Hname Hlen. unfold port_open, port_find_by_name, open_post.
  assert (exists c, name !! 0%nat = Some c /\ c <> 0) as (c & -> & Hc).
  { destruct Hname as (rest & -> & Hall). destruct str as [|c str]; simpl in *; [lia|].
    apply Forall_cons in Hall as [? _]. exists c. split; [done|lia]. }
  cbn [mbind option_bind]. destruct (Z.eqb_spec c 0); [done|].
  rewrite (find_by_name_ok _ _ _ str) by (done || apply inv_named, Hinv || lia). cbn [mbind option_bind].
  destruct (find_idx (has_name str) (ps_table st)) as [i|] eqn:Hf; simpl.
  - apply find_idx_Some in Hf as (p & Hp & Hn & _). rewrite Hp. cbn [mbind option_bind].
    apply andb_true_iff in Hn as [Hn%negb_true_iff%Z.eqb_neq _].
    destruct (_ =? 0); [do 2 eexists; split_and!; [done|done|apply undisturbed_refl|done|done]|].
    destruct (pi_port _ Hinv _ _ Hp) as [?|Hl]; [done|]. pose proof (lp_id _ _ _ Hl) as Hid.
    do 2 eexists. split_and!; [done| | |].
    + apply (set_port_inv st i p); [done|done| |by right]. right. destruct Hl. by constructor.
    + rewrite Hid. by apply update_undisturbed.
    + exists p. split_and!; [done|done|]. rewrite Hid.
      apply port_at_insert; [by eapply lookup_lt_Some|done].
  - destruct (Z.land flags PORT_CREATE =? 0).
    { exists 0, st. split_and!; [done|done|apply undisturbed_refl|].
      by destruct (find_idx (fun p => po_id p =? 0) (ps_table st)). }
    destruct (find_idx (fun p => po_id p =? 0) (ps_table st)) as [i|] eqn:Hfree; cycle 1.
    { exists 0, st. split_and!; [done|done|apply undisturbed_refl|done|done]. }
    apply find_idx_Some in Hfree as (q & Hq & Hq0%Z.eqb_eq & _).
    destruct (make_port_ok name str i pid (ps_bufs st) Hname ltac:(lia)) as (p & Hmk & Hl & Hu & Hc' & Ho & Hr & Hw).
    rewrite Hmk. clear Hmk. cbn [mbind option_bind].
    do 2 eexists. split_and!; [done| |by apply update_undisturbed|done|].
    + eapply update_inv; [done|done|by right|done|].
      unfold port_ptrs. rewrite Hc'. pose proof (pi_ptrs _ Hinv) as Hnd.
      rewrite (table_ptrs_split _ _ _ Hq) in Hnd. apply NoDup_app in Hnd as (_ & _ & Hnd).
      by destruct (po_id p =? 0).
    + exists p. split_and!; try done; [|unfold queue; by rewrite Hc'].
      apply port_at_insert; [by eapply lookup_lt_Some|by apply (lp_id _ _ _ Hl)].
Qed.

(** [port_close] drops one reference; the last one wakes the waiter and frees the
    slot. *)
Lemma close_cases st id p :
  ports_inv st -> port_at st id p -> 0 <= po_refcount p ->
  exists st', port_close st id = Some st' /\ ports_inv st' /\ undisturbed id st st' /\
    if po_refcount p <=? 1 then
      (forall q, ~ port_at st' id q) /\ ps_woken st' = ps_woken st ++ option_list (po_waiter p)
    else port_at st' id (po_set_refcount p (po_refcount p - 1)) /\ ps_woken st' = ps_woken st.
Proof.
  intros Hinv Hat Hr. destruct (find_port st id p Hinv Hat) as (i & -> & Hf & Hi & Hl).
  unfold port_close. rewrite Hf. cbn [mbind option_bind]. rewrite Hi. cbn [mbind option_bind].
  pose proof (lookup_lt_Some _ _ _ Hi) as Hlt. pose proof (lp_id _ _ _ Hl) as Hid.
  set (p1 := if 0 <? po_refcount p then _ else p).
  assert (Hp1 : p1 = po_set_refcount p (Z.max 0 (po_refcount p - 1))).
  { unfold p1. destruct (Z.ltb_spec 0 (po_refcount p)); destruct p; unfold po_set_refcount; simpl in *; f_equal; lia. }
  rewrite Hp1. clear p1 Hp1. cbn [po_refcount po_set_refcount po_waiter].
  destruct (Z.leb_spec (po_refcount p) 1), (Z.eqb_spec (Z.max 0 (po_refcount p - 1)) 0); try lia; eexists; (split; [done|]).
  - assert (Heq : set_port (wake (set_port st i (po_set_refcount p (Z.max 0 (po_refcount p - 1)))) (po_waiter p)) i
        (po_set_id (po_set_refcount p (Z.max 0 (po_refcount p - 1))) 0) =
        mk_ports (<[i := po_set_id (po_set_refcount p (Z.max 0 (po_refcount p - 1))) 0]> (ps_table st)) (ps_bufs st)
          (ps_woken st ++ option_list (po_waiter p))).
    { unfold set_port, wake. destruct (po_waiter p); simpl; by rewrite list_insert_insert_eq, ?app_nil_r. }
    rewrite Heq. split_and!; [|by apply update_undisturbed| |done].
    + eapply set_port_inv; [done|done|by left|by left].
    + intros q (_ & Hq & Hq'). simpl in Hq. replace (Z.to_nat (Z.of_nat i + 1 - 1)) with i in Hq by lia.
      rewrite list_lookup_insert_eq in Hq by done. simplify_eq. simpl in Hq'. lia.
  - rewrite Z.max_r by lia. split_and!; [|by apply update_undisturbed| |done].
    + eapply set_port_inv; [done|done| |right; split; [lia|done]]. right. destruct Hl. by constructor.
    + by apply port_at_insert.
Qed.

(** A name of 64 characters or more is stored cut to 63 and matches no port. *)
Lemma long_name_never_found st name str :
  ports_inv st -> cstring name str -> (PORT_NAME_LEN <= length str)%nat ->
  port_find_by_name st name = Some None.
Proof.
  intros Hinv Hname Hlong. unfold port_find_by_name. pose proof (inv_named _ Hinv) as Ht.
  generalize 0%nat as k. induction Ht as [|p t Hp _ IH]; intros k; [done|].
  cbn [find_by_name]. destruct (Z.eqb_spec (po_id p) 0); [apply IH|].
  destruct Hp as [?|[Hp Hps]]; [done|].
  destruct (strncmp_cstring _ _ _ _ PORT_NAME_LEN Hp Hname) as (r & -> & Hr). cbn [mbind option_bind].
  destruct (Z.eqb_spec r 0) as [->|Hne]; [|apply IH].
  destruct Hr as [Hr _]. specialize (Hr eq_refl). apply (f_equal length) in Hr.
  rewrite !length_take in Hr. unfold PORT_NAME_LEN in *. lia.
Qed.

(** An inline message is delivered with eight bytes more than were sent: [hdr.len]
    is the length with the header, and is used as the length without it. *)
Lemma inline_delivered_length msg len :
  8 <= len <= 56 -> len <= Z.of_nat (length msg) ->
  Z.of_nat (length (delivered (sent msg len))) = len + 8.
Proof.
  intros Hlen Hmsg. unfold sent, PORT_INLINE_MAX. destruct (Z.leb_spec len 56); [|lia]. simpl.
  rewrite length_take, length_app, length_replicate, length_slice by lia. lia.
Qed.

(** ** A port with one queued message *)

Definition demo_slot : list Z := port_slot 7 12 ([1; 2; 3; 4] ++ replicate 52 0).

Definition demo_port : port_obj_t :=
  mk_port (c_str "log"%string ++ replicate 61 0) 1 5 1
    (mk_ringbuf RINGBUF_MAGIC RINGBUF_VERSION 64 64 0 1 0 (replicate 24 0) (demo_slot ++ replicate 4032 0))
    (Some 9).

Definition demo_ports : port_st := mk_ports (demo_port :: replicate 1023 zero_port) ∅ [].

Lemma replicate_zero_port n i p : replicate n zero_port !! i = Some p -> p = zero_port.
Proof. by intros [-> _]%lookup_replicate. Qed.

Lemma table_ptrs_zero n : table_ptrs (replicate n zero_port) = [].
Proof. induction n as [|n IH]; [done|]. simpl. exact IH. Qed.

Lemma init_ports_inv : ports_inv port_subsystem_init.
Proof.
  constructor; unfold port_subsystem_init; cbn [ps_table ps_bufs].
  - apply length_replicate.
  - intros i p ->%replicate_zero_port. by left.
  - rewrite table_ptrs_zero. constructor.
Qed.

Lemma demo_contents : contents (po_ring demo_port) = [demo_slot].
Proof. vm_compute. reflexivity. Qed.

Lemma demo_live : live_port ∅ 0 demo_port.
Proof.
  constructor.
  - done.
  - exists (replicate 60 0). split; [done|]. repeat constructor.
  - vm_compute. lia.
  - constructor; vm_compute; done.
  - done.
  - done.
  - rewrite demo_contents. constructor; [|constructor]. split; [by vm_compute|]. by vm_compute.
Qed.

Lemma demo_ports_inv : ports_inv demo_ports.
Proof.
  constructor; unfold demo_ports; cbn [ps_table ps_bufs].
  - cbn [length]. by rewrite length_replicate.
  - intros [|i] p Hp; [|left; by rewrite (replicate_zero_port 1023 i p Hp)].
    injection Hp as <-. right. apply demo_live.
  - unfold table_ptrs. cbn [map concat]. fold (table_ptrs (replicate 1023 zero_port)). rewrite table_ptrs_zero.
    unfold port_ptrs. rewrite demo_contents. constructor.
Qed.

Lemma demo_port_at : port_at demo_ports 1 demo_port.
Proof. by split_and!. Qed.

(** ** Properties *)

(** [port_open] with a name of 1 to 63 characters attaches to the first port of
    that name (reference count up by one) or, when there is none, makes the first
    free slot a port of that name with an empty queue, one reference and the caller
    as owner, each only with its flag; it fails with 0 and no change otherwise.
    The table stays well formed and no other port or message is touched. *)
Theorem port_open_ok st name str flags pid :
  ports_inv st -> cstring name str -> (0 < length str < PORT_NAME_LEN)%nat ->
  exists h st', port_open st (Some name) flags pid = Some (h, st') /\ ports_inv st' /\
    undisturbed h st st' /\ open_post st str flags pid h st'.
Proof. apply open_cases. Qed.

Lemma port_open_ok_witness :
  exists h st', port_open port_subsystem_init (Some (c_str "log"%string ++ [0])) 1 5 = Some (h, st') /\
    ports_inv st' /\ undisturbed h port_subsystem_init st' /\
    open_post port_subsystem_init (c_str "log"%string) 1 5 h st'.
Proof.
  apply (port_open_ok port_subsystem_init (c_str "log"%string ++ [0]) (c_str "log"%string) 1 5).
  - apply init_ports_inv.
  - exists []. split; [reflexivity|]. repeat constructor.
  - unfold PORT_NAME_LEN. simpl. lia.
Defined.

(** sending a message of 8 to 4096 bytes to an open port, with [kmalloc]
    returning a new pointer for the long ones: if the queue has room the call
    returns 0, the message is appended to that port's queue, and a blocked receiver
    is woken and unregistered; if it is full the call returns -1 and the queues stay
    as they were (the buffer of a long message then stays allocated).  Other ports and their messages are not touched. *)
Theorem port_send_ok st id p msg len buf ptr :
  ports_inv st -> port_at st id p -> Forall (fun b => 0 <= b < 256) msg ->
  8 <= len <= PORT_MSG_MAX -> len <= Z.of_nat (length msg) ->
  (buf = Some ptr /\ 0 <= ptr < 2 ^ 64 /\ ps_bufs st !! ptr = None) ->
  exists r st', port_send st id msg len buf = Some (r, st') /\
    send_post st id p msg len
      (if len <=? PORT_INLINE_MAX then ps_bufs st else <[ptr := take (Z.to_nat len) msg]> (ps_bufs st)) r st'.
Proof.
  unfold PORT_MSG_MAX, PORT_INLINE_MAX. intros Hinv Hat Hb Hlen Hmsg (-> & Hptr & Hfresh).
  destruct (Z.leb_spec len 56).
  - apply send_inline_ok; try done. lia.
  - apply send_large_ok; try done. unfold PORT_MSG_MAX. lia.
Qed.

Lemma port_send_ok_witness :
  exists r st',
    port_send demo_ports 1 (replicate 100 65) 100 (Some 4096) = Some (r, st') /\
    send_post demo_ports 1 demo_port (replicate 100 65) 100
      (<[4096 := take (Z.to_nat 100) (replicate 100 65)]> ∅) r st'.
Proof.
  apply (port_send_ok demo_ports 1 demo_port (replicate 100 65) 100 (Some 4096) 4096).
  - apply demo_ports_inv.
  - apply demo_port_at.
  - apply Forall_replicate. lia.
  - unfold PORT_MSG_MAX. lia.
  - simpl. lia.
  - split_and!; [reflexivity|lia|lia|reflexivity].
Defined.

(** receiving into a buffer of at least 64 bytes: from an empty queue the
    caller is registered as the waiter and blocks, the queue unchanged; otherwise
    the oldest message leaves the queue, its bytes (cut to the capacity) are in the
    buffer with their number in the length, the rest of the queue is kept in order,
    and the kernel buffer of a long message is freed and belonged to no other
    message. *)
Theorem port_recv_ok st id p buf cap cur :
  ports_inv st -> port_at st id p -> PORT_SLOT_SIZE <= cap <= Z.of_nat (length buf) ->
  exists res st' p', port_recv st id (Some buf) cap true cur = Some (res, st') /\
    ports_inv st' /\ undisturbed id st st' /\ port_at st' id p' /\
    match queue st p with
    | [] => res = RBlock /\ p' = po_set_waiter p (Some cur)
    | m :: q =>
        res = RDone 0 (list_inserts 0 (take (Z.to_nat cap) (delivered m)) buf)
                (Z.min cap (Z.of_nat (length (delivered m)))) /\
        queue st' p' = q
    end.
Proof.
  intros Hinv Hat Hcap. destruct (find_port st id p Hinv Hat) as (i & -> & Hf & Hi & Hl).
  assert (Heq : port_recv st (Z.of_nat i + 1) (Some buf) cap true cur = recv_turn st i buf cap cur).
  { unfold port_recv. destruct (Z.ltb_spec cap PORT_SLOT_SIZE); [lia|]. simpl orb. cbn iota. by rewrite Hf. }
  rewrite Heq. unfold queue at 1. destruct (contents (po_ring p)) as [|s q] eqn:Hc.
  - rewrite (recv_empty st i p buf cap cur Hi Hl Hc). do 2 eexists. exists (po_set_waiter p (Some cur)).
    split; [done|]. split; [|split; [by apply update_undisturbed|split; [|done]]].
    + eapply set_port_inv; [done|done| |right; split; [by eapply live_port_nonzero|done]].
      right. destruct Hl. by constructor.
    + apply port_at_insert; [by eapply lookup_lt_Some|by apply (lp_id _ _ _ Hl)].
  - destruct (recv_message st i p buf cap cur Hinv Hi Hl Hcap s q Hc) as (st' & p' & -> & ? & ? & ? & Hq).
    exists (RDone 0 (list_inserts 0 (take (Z.to_nat cap) (delivered (slot_message (ps_bufs st) s))) buf)
              (Z.min cap (Z.of_nat (length (delivered (slot_message (ps_bufs st) s)))))), st', p'. done.
Qed.

Lemma port_recv_ok_witness :
  exists res st' p', port_recv demo_ports 1 (Some (replicate 64 0)) 64 true 9 = Some (res, st') /\
    ports_inv st' /\ undisturbed 1 demo_ports st' /\ port_at st' 1 p' /\
    match queue demo_ports demo_port with
    | [] => res = RBlock /\ p' = po_set_waiter demo_port (Some 9)
    | m :: q =>
        res = RDone 0 (list_inserts 0 (take (Z.to_nat 64) (delivered m)) (replicate 64 0))
                (Z.min 64 (Z.of_nat (length (delivered m)))) /\
        queue st' p' = q
    end.
Proof.
  apply (port_recv_ok demo_ports 1 demo_port (replicate 64 0) 64 9).
  - apply demo_ports_inv.
  - apply demo_port_at.
  - unfold PORT_SLOT_SIZE. simpl. lia.
Defined.
