(* ===== verification/RbTree.v ===== *)
(** * The run queue trees (src/kernel/sched/sched.c, rb_rotate_left to rb_remove_node)

    Intrusive red-black nodes linked by parent, left and right pointers.  A node is
    named by the number of the process that embeds it; the heap maps it to its
    links and colour (1 red, 0 black), and following a null or dangling pointer is
    [None].  [pri] is the priority field of the embedding process, read through
    RB_PCB.  The specification part represents the linked nodes by a tree and the
    path to a node by a zipper. *)

From Stdlib Require Import ZArith Lia Sorting.Sorted.
From stdpp Require Import base gmap list.
From S2P Require Import Prelude.

Local Open Scope Z_scope.

Record rb_node_t := mk_node {
  nd_parent : option nat;
  nd_left : option nat;
  nd_right : option nat;
  nd_color : Z;
}.

Record rb_st := mk_rb {
  rb_root : option nat;
  rb_heap : gmap nat rb_node_t;
}.

Definition upd (s : rb_st) (x : nat) (f : rb_node_t -> rb_node_t) : option rb_st :=
  n ← rb_heap s !! x;
  Some (mk_rb (rb_root s) (<[x := f n]> (rb_heap s))).

Definition set_parent (s : rb_st) (x : nat) (v : option nat) : option rb_st :=
  upd s x (fun n => mk_node v (nd_left n) (nd_right n) (nd_color n)).
Definition set_left (s : rb_st) (x : nat) (v : option nat) : option rb_st :=
  upd s x (fun n => mk_node (nd_parent n) v (nd_right n) (nd_color n)).
Definition set_right (s : rb_st) (x : nat) (v : option nat) : option rb_st :=
  upd s x (fun n => mk_node (nd_parent n) (nd_left n) v (nd_color n)).
Definition set_color (s : rb_st) (x : nat) (v : Z) : option rb_st :=
  upd s x (fun n => mk_node (nd_parent n) (nd_left n) (nd_right n) v).

(** [if (w) w->parent = x] *)
Definition set_parent_if (s : rb_st) (w : option nat) (x : option nat) : option rb_st :=
  match w with Some w => set_parent s w x | None => Some s end.

(** Make the pointer that leads to [x] lead to [y]. *)
Definition replace_child (s : rb_st) (x : nat) (y : option nat) : option rb_st :=
  nx ← rb_heap s !! x;
  match nd_parent nx with
  | None => Some (mk_rb y (rb_heap s))
  | Some p =>
      np ← rb_heap s !! p;
      if bool_decide (nd_left np = Some x) then set_left s p y else set_right s p y
  end.

(** The same as [rb_rotate_right] writes it. *)
Definition replace_child_r (s : rb_st) (x : nat) (y : option nat) : option rb_st :=
  nx ← rb_heap s !! x;
  match nd_parent nx with
  | None => Some (mk_rb y (rb_heap s))
  | Some p =>
      np ← rb_heap s !! p;
      if bool_decide (nd_right np = Some x) then set_right s p y else set_left s p y
  end.

Definition rb_rotate_left (s : rb_st) (x : nat) : option rb_st :=
  nx ← rb_heap s !! x;
  y ← nd_right nx;
  ny ← rb_heap s !! y;
  s ← set_right s x (nd_left ny);
  s ← set_parent_if s (nd_left ny) (Some x);
  nx ← rb_heap s !! x;
  s ← set_parent s y (nd_parent nx);
  s ← replace_child s x (Some y);
  s ← set_left s y (Some x);
  set_parent s x (Some y).

Definition rb_rotate_right (s : rb_st) (x : nat) : option rb_st :=
  nx ← rb_heap s !! x;
  y ← nd_left nx;
  ny ← rb_heap s !! y;
  s ← set_left s x (nd_right ny);
  s ← set_parent_if s (nd_right ny) (Some x);
  nx ← rb_heap s !! x;
  s ← set_parent s y (nd_parent nx);
  s ← replace_child_r s x (Some y);
  s ← set_right s y (Some x);
  set_parent s x (Some y).

(** [y && y->color == 1] *)
Definition is_red (s : rb_st) (y : option nat) : option bool :=
  match y with
  | None => Some false
  | Some y => n ← rb_heap s !! y; Some (nd_color n =? 1)
  end.

(** [root->root->color = 0] *)
Definition blacken_root (s : rb_st) : option rb_st :=
  r ← rb_root s;
  set_color s r 0.

(** The case of the loop where the parent is the left child. *)
Definition fixup_left (s : rb_st) (z p g : nat) (uncle : option nat) : option (rb_st * nat) :=
  red ← is_red s uncle;
  if red : bool then
    s ← set_color s p 0;
    y ← uncle;
    s ← set_color s y 0;
    s ← set_color s g 1;
    Some (s, g)
  else
    np ← rb_heap s !! p;
    '(s, z) ← (if bool_decide (nd_right np = Some z) then s ← rb_rotate_left s p; Some (s, p) else Some (s, z));
    nz ← rb_heap s !! z;
    p ← nd_parent nz;
    s ← set_color s p 0;
    s ← set_color s g 1;
    s ← rb_rotate_right s g;
    Some (s, z).

Definition fixup_right (s : rb_st) (z p g : nat) (uncle : option nat) : option (rb_st * nat) :=
  red ← is_red s uncle;
  if red : bool then
    s ← set_color s p 0;
    y ← uncle;
    s ← set_color s y 0;
    s ← set_color s g 1;
    Some (s, g)
  else
    np ← rb_heap s !! p;
    '(s, z) ← (if bool_decide (nd_left np = Some z) then s ← rb_rotate_right s p; Some (s, p) else Some (s, z));
    nz ← rb_heap s !! z;
    p ← nd_parent nz;
    s ← set_color s p 0;
    s ← set_color s g 1;
    s ← rb_rotate_left s g;
    Some (s, z).

Fixpoint fixup_loop (fuel : nat) (s : rb_st) (z : nat) : option rb_st :=
  match fuel with
  | O => None
  | S fuel' =>
      nz ← rb_heap s !! z;
      match nd_parent nz with
      | None => Some s
      | Some p =>
          np ← rb_heap s !! p;
          if nd_color np =? 1 then
            match nd_parent np with
            | None => Some s
            | Some g =>
                ng ← rb_heap s !! g;
                '(s, z) ← (if bool_decide (nd_left ng = Some p) then fixup_left s z p g (nd_right ng)
                           else fixup_right s z p g (nd_left ng));
                fixup_loop fuel' s z
            end
          else Some s
      end
  end.

(** A path from the root visits each node once. *)
Definition tree_fuel (s : rb_st) : nat := S (size (rb_heap s)).

Definition rb_insert_fixup (s : rb_st) (z : nat) : option rb_st :=
  s ← fixup_loop (tree_fuel s) s z;
  blacken_root s.

Section with_priority.
Context (pri : nat -> Z).

(** The loop that looks for the place of [key]. *)
Fixpoint insert_walk (fuel : nat) (s : rb_st) (key : Z) (parent x : option nat) : option (option nat) :=
  match fuel with
  | O => None
  | S fuel' =>
      match x with
      | None => Some parent
      | Some x =>
          n ← rb_heap s !! x;
          insert_walk fuel' s key (Some x) (if key <? pri x then nd_left n else nd_right n)
      end
  end.

Definition rb_insert (s : rb_st) (z : nat) (key : Z) : option rb_st :=
  s ← upd s z (fun _ => mk_node None None None 1);
  parent ← insert_walk (tree_fuel s) s key None (rb_root s);
  s ← upd s z (fun _ => mk_node parent None None 1);
  s ← match parent with
      | None => Some (mk_rb (Some z) (rb_heap s))
      | Some p => if key <? pri p then set_left s p (Some z) else set_right s p (Some z)
      end;
  rb_insert_fixup s z.

End with_priority.

(** [while (n->left) n = n->left] *)
Fixpoint go_left (fuel : nat) (s : rb_st) (n : nat) : option nat :=
  match fuel with
  | O => None
  | S fuel' =>
      nn ← rb_heap s !! n;
      match nd_left nn with
      | None => Some n
      | Some l => go_left fuel' s l
      end
  end.

Definition rb_leftmost (s : rb_st) : option (option nat) :=
  match rb_root s with
  | None => Some None
  | Some n => Some <$> go_left (tree_fuel s) s n
  end.

(** The case of two children: [y] is the successor. *)
Definition remove_two (s : rb_st) (z zl zr : nat) : option rb_st :=
  y ← go_left (tree_fuel s) s zr;
  ny ← rb_heap s !! y;
  s ← (if bool_decide (nd_parent ny = Some z) then Some s
       else
         s ← set_parent_if s (nd_right ny) (nd_parent ny);
         py ← nd_parent ny;
         s ← set_left s py (nd_right ny);
         s ← set_right s y (Some zr);
         set_parent s zr (Some y));
  s ← replace_child s z (Some y);
  nz ← rb_heap s !! z;
  s ← set_parent s y (nd_parent nz);
  s ← set_left s y (Some zl);
  s ← set_parent s zl (Some y);
  set_color s y (nd_color nz).

Definition rb_remove_node (s : rb_st) (z : nat) : option rb_st :=
  nz ← rb_heap s !! z;
  s ← match nd_left nz, nd_right nz with
      | None, r =>
          s ← replace_child s z r;
          set_parent_if s r (nd_parent nz)
      | Some l, None =>
          s ← replace_child s z (Some l);
          set_parent s l (nd_parent nz)
      | Some l, Some r => remove_two s z l r
      end;
  s ← match rb_root s with Some r => set_color s r 0 | None => Some s end;
  upd s z (fun n => mk_node None None None (nd_color n)).

(** ** Trees and zippers *)

Inductive tree :=
| E
| T (c : Z) (l : tree) (x : nat) (r : tree).

Definition rootp (t : tree) : option nat := match t with E => None | T _ _ x _ => Some x end.

Fixpoint inorder (t : tree) : list nat :=
  match t with E => [] | T _ l x r => inorder l ++ x :: inorder r end.

(** A step down: to the left child of [x], whose right subtree is [r], or to the
    right child of [x], whose left subtree is [l]. *)
Inductive frame :=
| FL (c : Z) (x : nat) (r : tree)
| FR (c : Z) (l : tree) (x : nat).

Definition frame_node (f : frame) : nat := match f with FL _ x _ => x | FR _ _ x => x end.
Definition frame_tree (f : frame) : tree := match f with FL _ _ r => r | FR _ l _ => l end.
Definition frame_color (f : frame) : Z := match f with FL c _ _ => c | FR c _ _ => c end.

Definition fill (f : frame) (t : tree) : tree :=
  match f with FL c x r => T c t x r | FR c l x => T c l x t end.

Definition plug (k : list frame) (t : tree) : tree := foldl (fun t f => fill f t) t k.

Definition ctx_parent (k : list frame) : option nat :=
  match k with [] => None | f :: _ => Some (frame_node f) end.

Fixpoint ctx_nodes (k : list frame) : list nat :=
  match k with [] => [] | f :: k' => frame_node f :: inorder (frame_tree f) ++ ctx_nodes k' end.

(** The nodes of the heap linked below the parent [p] form the tree [t]. *)
Fixpoint tree_at (H : gmap nat rb_node_t) (p : option nat) (t : tree) : Prop :=
  match t with
  | E => True
  | T c l x r => H !! x = Some (mk_node p (rootp l) (rootp r) c) /\ tree_at H (Some x) l /\ tree_at H (Some x) r
  end.

Definition frame_links (f : frame) (p h : option nat) : rb_node_t :=
  match f with
  | FL c _ r => mk_node p h (rootp r) c
  | FR c l _ => mk_node p (rootp l) h c
  end.

(** The nodes around a hole filled by the pointer [h]. *)
Fixpoint ctx_at (s : rb_st) (k : list frame) (h : option nat) : Prop :=
  match k with
  | [] => rb_root s = h
  | f :: k' =>
      rb_heap s !! frame_node f = Some (frame_links f (ctx_parent k') h) /\
      tree_at (rb_heap s) (Some (frame_node f)) (frame_tree f) /\
      ctx_at s k' (Some (frame_node f))
  end.

Definition zip_nodes (k : list frame) (t : tree) : list nat := ctx_nodes k ++ inorder t.

Record rep (s : rb_st) (k : list frame) (t : tree) : Prop := {
  rp_ctx : ctx_at s k (rootp t);
  rp_tree : tree_at (rb_heap s) (ctx_parent k) t;
  rp_nodup : NoDup (zip_nodes k t);
}.

Definition unch (S : list nat) (s s' : rb_st) : Prop :=
  forall z, z ∉ S -> rb_heap s' !! z = rb_heap s !! z.

(** ** Framing *)

Lemma tree_ext H H' p t :
  (forall z, z ∈ inorder t -> H' !! z = H !! z) -> tree_at H p t -> tree_at H' p t.
Proof.
  revert p. induction t as [|c l IHl x r IHr]; intros p Heq Ht; [done|]. simpl in *.
  destruct Ht as (Hx & Hl & Hr). split_and!; [by rewrite Heq by set_solver|apply IHl|apply IHr]; set_solver.
Qed.

Lemma tree_in_heap H p t z : tree_at H p t -> z ∈ inorder t -> is_Some (H !! z).
Proof.
  revert p. induction t as [|c l IHl x r IHr]; intros p Ht Hz; simpl in *; [by apply not_elem_of_nil in Hz|].
  destruct Ht as (Hx & Hl & Hr). apply elem_of_app in Hz as [Hz|[->|Hz]%elem_of_cons]; eauto.
Qed.

Lemma ctx_ext s s' k h :
  rb_root s' = rb_root s -> (forall z, z ∈ ctx_nodes k -> rb_heap s' !! z = rb_heap s !! z) ->
  ctx_at s k h -> ctx_at s' k h.
Proof.
  intros Hroot. revert h. induction k as [|f k IH]; intros h Heq Hk; simpl in *; [congruence|].
  destruct Hk as (Hf & Ht & Hk). split_and!; [by rewrite Heq by set_solver| |apply IH; [set_solver|done]].
  eapply tree_ext; [|done]. set_solver.
Qed.

Lemma ctx_in_heap s k h z : ctx_at s k h -> z ∈ ctx_nodes k -> is_Some (rb_heap s !! z).
Proof.
  revert h. induction k as [|f k IH]; intros h Hk Hz; simpl in *; [by apply not_elem_of_nil in Hz|].
  destruct Hk as (Hf & Ht & Hk). apply elem_of_cons in Hz as [->|[Hz|Hz]%elem_of_app]; eauto using tree_in_heap.
Qed.

Lemma tree_unch S s s' p t :
  unch S s s' -> (forall z, z ∈ inorder t -> z ∉ S) -> tree_at (rb_heap s) p t -> tree_at (rb_heap s') p t.
Proof. intros U Hd. apply tree_ext. intros z Hz. by apply U, Hd. Qed.

Lemma ctx_unch S s s' k h :
  rb_root s' = rb_root s -> unch S s s' -> (forall z, z ∈ ctx_nodes k -> z ∉ S) -> ctx_at s k h -> ctx_at s' k h.
Proof. intros Hr U Hd. apply ctx_ext; [done|]. intros z Hz. by apply U, Hd. Qed.

(** ** Elementary updates *)

Lemma upd_ok s x n f :
  rb_heap s !! x = Some n ->
  exists s', upd s x f = Some s' /\ rb_root s' = rb_root s /\ rb_heap s' !! x = Some (f n) /\ unch [x] s s'.
Proof.
  intros Hx. unfold upd. rewrite Hx. cbn [mbind option_bind]. eexists. split; [done|]. simpl.
  split_and!; [done|apply lookup_insert_eq|]. intros z Hz. apply lookup_insert_ne. set_solver.
Qed.

Lemma set_parent_if_ok s t p p' :
  tree_at (rb_heap s) p t -> NoDup (inorder t) ->
  exists s', set_parent_if s (rootp t) p' = Some s' /\ rb_root s' = rb_root s /\
    tree_at (rb_heap s') p' t /\ unch (inorder t) s s'.
Proof.
  intros Ht Hnd. destruct t as [|c l x r]; simpl in *; [by exists s|].
  destruct Ht as (Hx & Hl & Hr).
  destruct (upd_ok s x _ (fun n => mk_node p' (nd_left n) (nd_right n) (nd_color n)) Hx) as (s' & Hs & Hroot & Hx' & U).
  apply NoDup_app in Hnd as (_ & Hlx & Hxr). apply NoDup_cons in Hxr as [Hxr _].
  exists s'. split_and!; [done|done|done| | |].
  - eapply tree_unch; [done| |done]. set_solver.
  - eapply tree_unch; [done| |done]. set_solver.
  - intros z Hz. apply U. set_solver.
Qed.

Lemma ctx_hole s k x nx y :
  ctx_at s k (Some x) -> NoDup (ctx_nodes k) -> x ∉ ctx_nodes k ->
  rb_heap s !! x = Some nx -> nd_parent nx = ctx_parent k ->
  exists s', replace_child s x y = Some s' /\ replace_child_r s x y = Some s' /\
    ctx_at s' k y /\ unch (ctx_nodes k) s s'.
Proof.
  intros Hk Hnd Hx Hnx Hp. unfold replace_child, replace_child_r. rewrite Hnx. cbn [mbind option_bind].
  rewrite Hp. destruct k as [|f k]; simpl in *; [by eexists|].
  destruct Hk as (Hf & Ht & Hk). rewrite Hf. cbn [mbind option_bind].
  apply NoDup_cons in Hnd as [Hfn Hnd]. apply NoDup_app in Hnd as (Hnd1 & Hdis & Hnd2).
  assert (Hne : rootp (frame_tree f) <> Some x).
  { intros Hr. apply Hx. destruct (frame_tree f) as [|c l w r] eqn:Hft; simplify_eq/=. set_solver. }
  destruct (upd_ok s (frame_node f) _ (fun n => match f with
      | FL _ _ _ => mk_node (nd_parent n) y (nd_right n) (nd_color n)
      | FR _ _ _ => mk_node (nd_parent n) (nd_left n) y (nd_color n) end) Hf) as (s' & Hs & Hroot & Hf' & U).
  exists s'. destruct f as [c w r|c l w]; simpl in *.
  - repeat case_bool_decide; try congruence. split_and!; [done|done|done| | |].
    + eapply tree_unch; [done| |done]. set_solver.
    + eapply ctx_unch; [done|done| |done]. set_solver.
    + intros z Hz. apply U. set_solver.
  - repeat case_bool_decide; try congruence. split_and!; [done|done|done| | |].
    + eapply tree_unch; [done| |done]. set_solver.
    + eapply ctx_unch; [done|done| |done]. set_solver.
    + intros z Hz. apply U. set_solver.
Qed.

(** ** Rotations *)

Definition sep (l1 l2 : list nat) : Prop := forall z, z ∈ l1 -> z ∈ l2 -> False.

(** The nodes of a zipper with two known nodes are all different. *)
Lemma zip_facts (k a : list nat) x b y d :
  NoDup (k ++ a ++ x :: b ++ y :: d) ->
  (NoDup k /\ NoDup a /\ NoDup b /\ NoDup d /\ x <> y) /\ ((x ∉ k) /\ (y ∉ k) /\ (x ∉ a) /\ (y ∉ a)) /\
  ((x ∉ b) /\ (y ∉ b) /\ (x ∉ d) /\ (y ∉ d)) /\ (sep k a /\ sep k b /\ sep k d /\ sep a b /\ sep a d /\ sep b d).
Proof.
  intros Hnd. apply NoDup_app in Hnd as (? & Hk & Hnd). apply NoDup_app in Hnd as (? & Ha & Hnd).
  apply NoDup_cons in Hnd as [Hx Hnd]. apply NoDup_app in Hnd as (? & Hb & Hnd).
  apply NoDup_cons in Hnd as [Hy ?]. unfold sep. split_and!; try done; set_solver.
Qed.

(** [z] is not in a list: by the separation facts at hand. *)
Ltac nin :=
  try done; let H := fresh in intros H;
  repeat match goal with
  | H : _ ∈ _ ++ _ |- _ => apply elem_of_app in H as [H|H]
  | H : _ ∈ _ :: _ |- _ => apply elem_of_cons in H as [H|H]
  | H : _ ∈ [] |- _ => by apply not_elem_of_nil in H
  end; subst;
  match goal with
  | H : ?z ∈ ?l, H' : ?z ∉ ?l |- _ => by apply H'
  | S : sep ?l1 ?l2, H1 : ?z ∈ ?l1, H2 : ?z ∈ ?l2 |- _ => by apply (S z)
  | _ => congruence
  end.

(** Look a node up in an earlier state. *)
Ltac look :=
  repeat match goal with
  | U : unch _ ?s ?s' |- context [rb_heap ?s' !! ?z] => rewrite (U z) by nin
  end.

(** Carry a tree or a context over to a later state. *)
Ltac carry :=
  match goal with
  | |- tree_at _ _ _ => eapply tree_ext; [|eassumption]; intros; look; done
  | |- ctx_at _ _ _ => eapply ctx_ext; [|intros; look; done|eassumption]; congruence
  end.

(** Run the next [upd] of the goal on node [x] of state [s]. *)
Tactic Notation "run_upd" constr(s) constr(x) "as" ident(s') ident(Hr) ident(Hx) ident(U) :=
  let H := fresh in let G := fresh in
  match goal with |- context [upd s x ?f] =>
    eassert (G : rb_heap s !! x = Some _) by (look; eassumption);
    destruct (upd_ok s x _ f G) as (s' & H & Hr & Hx & U);
    rewrite H; clear H G; cbn [mbind option_bind]; cbn [nd_parent nd_left nd_right nd_color] in Hx
  end.

Lemma rotate_left_ok s k c a x cy b y d :
  rep s k (T c a x (T cy b y d)) ->
  exists s', rb_rotate_left s x = Some s' /\ rep s' k (T cy (T c a x b) y d) /\
    unch (zip_nodes k (T c a x (T cy b y d))) s s'.
Proof.
  intros [Hk Ht Hnd]. simpl in Hk, Ht. destruct Ht as (Hx & Ha & Hy & Hb & Hd).
  assert (Hnd' : NoDup (zip_nodes k (T cy (T c a x b) y d))).
  { unfold zip_nodes in *. simpl in *. by rewrite <- app_assoc. }
  destruct (zip_facts _ _ _ _ _ _ Hnd) as ((?&?&?&?&?)&(?&?&?&?)&(?&?&?&?)&(?&?&?&?&?&?)). clear Hnd.
  unfold rb_rotate_left, set_right, set_left, set_parent.
  rewrite Hx. cbn [mbind option_bind nd_right]. rewrite Hy. cbn [mbind option_bind nd_left].
  run_upd s x as s1 R1 Hx1 U1.
  destruct (set_parent_if_ok s1 b (Some y) (Some x)) as (s2 & -> & R2 & Hb2 & U2); [carry|done|].
  cbn [mbind option_bind]. rewrite (U2 x), Hx1 by nin. cbn [mbind option_bind nd_parent].
  run_upd s2 y as s3 R3 Hy3 U3.
  destruct (ctx_hole s3 k x (mk_node (ctx_parent k) (rootp a) (rootp b) c) (Some y)) as (s4 & -> & _ & Hk4 & U4);
    [carry|done|nin|by look|done|].
  cbn [mbind option_bind]. run_upd s4 y as s5 R5 Hy5 U5. run_upd s5 x as s6 R6 Hx6 U6.
  exists s6. split; [done|]. split; [constructor; [carry| |done]|].
  - simpl. split_and!; [by look|done|carry|carry|carry].
  - intros z Hz. unfold zip_nodes in Hz. simpl in Hz.
    rewrite !not_elem_of_app, !not_elem_of_cons, !not_elem_of_app, !not_elem_of_cons in Hz.
    destruct_and!. by look.
Qed.

Lemma rotate_right_ok s k c a x cy b y d :
  rep s k (T c (T cy a y b) x d) ->
  exists s', rb_rotate_right s x = Some s' /\ rep s' k (T cy a y (T c b x d)) /\
    unch (zip_nodes k (T c (T cy a y b) x d)) s s'.
Proof.
  intros [Hk Ht Hnd]. simpl in Hk, Ht. destruct Ht as (Hx & (Hy & Ha & Hb) & Hd).
  assert (Hnd' : NoDup (zip_nodes k (T cy a y (T c b x d)))).
  { unfold zip_nodes in *. simpl in *. by rewrite <- app_assoc in Hnd. }
  destruct (zip_facts _ _ _ _ _ _ Hnd') as ((?&?&?&?&?)&(?&?&?&?)&(?&?&?&?)&(?&?&?&?&?&?)). clear Hnd.
  unfold rb_rotate_right, set_right, set_left, set_parent.
  rewrite Hx. cbn [mbind option_bind nd_left]. rewrite Hy. cbn [mbind option_bind nd_right].
  run_upd s x as s1 R1 Hx1 U1.
  destruct (set_parent_if_ok s1 b (Some y) (Some x)) as (s2 & -> & R2 & Hb2 & U2); [carry|done|].
  cbn [mbind option_bind]. rewrite (U2 x), Hx1 by nin. cbn [mbind option_bind nd_parent].
  run_upd s2 y as s3 R3 Hy3 U3.
  destruct (ctx_hole s3 k x (mk_node (ctx_parent k) (rootp b) (rootp d) c) (Some y)) as (s4 & _ & -> & Hk4 & U4);
    [carry|done|nin|by look|done|].
  cbn [mbind option_bind]. run_upd s4 y as s5 R5 Hy5 U5. run_upd s5 x as s6 R6 Hx6 U6.
  exists s6. split; [done|]. split; [constructor; [carry| |done]|].
  - simpl. split_and!; [by look|carry|done|carry|carry].
  - intros z Hz. unfold zip_nodes in Hz. simpl in Hz.
    rewrite !not_elem_of_app, !not_elem_of_cons in Hz. rewrite ?not_elem_of_app, ?not_elem_of_cons in Hz.
    destruct_and!. by look.
Qed.

(** ** Moving the focus *)

Lemma zip_nodes_fill f k t : zip_nodes (f :: k) t ≡ₚ zip_nodes k (fill f t).
Proof.
  unfold zip_nodes. destruct f as [c x r|c l x]; simpl.
  - rewrite <- Permutation_middle. solve_Permutation.
  - rewrite <- !Permutation_middle. solve_Permutation.
Qed.

Lemma rep_up s f k t : rep s (f :: k) t <-> rep s k (fill f t).
Proof.
  assert (Hn : NoDup (zip_nodes (f :: k) t) <-> NoDup (zip_nodes k (fill f t))) by by rewrite zip_nodes_fill.
  split; intros [Hk Ht Hnd]; destruct f as [c x r|c l x]; simpl in *; destruct_and!; constructor; simpl; tauto.
Qed.

#[export] Instance unch_proper : Proper ((≡ₚ) ==> (=) ==> (=) ==> iff) unch.
Proof. intros S S' HS s1 s1' -> s2 s2' ->. unfold unch. by setoid_rewrite HS. Qed.

Lemma unch_sub S S' s s' : (forall z, z ∈ S -> z ∈ S') -> unch S s s' -> unch S' s s'.
Proof. intros Hp U z Hz. apply U. eauto. Qed.

Lemma unch_trans S s1 s2 s3 : unch S s1 s2 -> unch S s2 s3 -> unch S s1 s3.
Proof. intros U1 U2 z Hz. by rewrite U2, U1. Qed.

Lemma unch_refl S s : unch S s s.
Proof. done. Qed.

Definition tcolor (t : tree) : Z := match t with E => 0 | T c _ _ _ => c end.
Definition tset (c : Z) (t : tree) : tree := match t with E => E | T _ l x r => T c l x r end.

Lemma inorder_tset c t : inorder (tset c t) = inorder t.
Proof. by destruct t. Qed.

Lemma set_color_ok s k t x c :
  rep s k t -> rootp t = Some x ->
  exists s', set_color s x c = Some s' /\ rep s' k (tset c t) /\ unch (zip_nodes k t) s s'.
Proof.
  intros [Hk Ht Hnd] Hx. destruct t as [|c0 l y r]; simplify_eq/=. destruct Ht as (Hx & Hl & Hr).
  unfold set_color. run_upd s x as s1 R1 Hx1 U1. exists s1. split; [done|].
  pose proof Hnd as Hn. unfold zip_nodes in Hn. simpl in Hn. apply NoDup_app in Hn as (_ & Hk' & Hn).
  apply NoDup_app in Hn as (_ & Hl' & Hn). apply NoDup_cons in Hn as [Hr' _].
  split; [constructor; simpl|]; [| |done|].
  - eapply ctx_unch; [done|done| |done]. set_solver.
  - split_and!; [done| |]; (eapply tree_unch; [done| |done]); set_solver.
  - eapply unch_sub; [|exact U1]. unfold zip_nodes. simpl. set_solver.
Qed.

(** ** The repair after an insertion, on zippers *)

(** A black uncle: the rotations, for a parent that is a left or a right child. *)
Definition rot_l (f : frame) (t : tree) (xg : nat) (u : tree) : tree :=
  match f, t with
  | FR c b xp, T _ l z r => T 0 (T c b xp l) z (T 1 r xg u)
  | FL _ xp b, _ => T 0 t xp (T 1 b xg u)
  | FR _ _ _, E => E
  end.

Definition rot_r (f : frame) (t : tree) (u : tree) (xg : nat) : tree :=
  match f, t with
  | FL c xp b, T _ l z r => T 0 (T 1 u xg l) z (T c r xp b)
  | FR _ b xp, _ => T 0 (T 1 u xg b) xp t
  | FL _ _ _, E => E
  end.

Fixpoint fix_zip (k : list frame) (t : tree) {struct k} : list frame * tree :=
  match k with
  | f :: g :: k' =>
      if frame_color f =? 1 then
        match g with
        | FL _ xg u =>
            if tcolor u =? 1 then fix_zip k' (T 1 (tset 0 (fill f t)) xg (tset 0 u)) else (k', rot_l f t xg u)
        | FR _ u xg =>
            if tcolor u =? 1 then fix_zip k' (T 1 (tset 0 u) xg (tset 0 (fill f t))) else (k', rot_r f t u xg)
        end
      else (k, t)
  | _ => (k, t)
  end.

Lemma is_red_ok s p t : tree_at (rb_heap s) p t -> is_red s (rootp t) = Some (tcolor t =? 1).
Proof. destruct t as [|c l x r]; simpl; [done|]. intros (-> & _). done. Qed.

(** The links of the node in focus and of the nodes above it. *)
Lemma rep_node s k c l x r :
  rep s k (T c l x r) -> rb_heap s !! x = Some (mk_node (ctx_parent k) (rootp l) (rootp r) c).
Proof. by intros [_ (? & _) _]. Qed.

Lemma rep_parent s f k t : rep s (f :: k) t -> rb_heap s !! frame_node f = Some (frame_links f (ctx_parent k) (rootp t)).
Proof. by intros [(? & _) _ _]. Qed.

Lemma rep_root s k t x : rep s k t -> rootp t = Some x -> exists n, rb_heap s !! x = Some n /\ nd_parent n = ctx_parent k.
Proof. intros [_ Ht _] Hx. destruct t; simplify_eq/=. destruct Ht as (-> & _). by eexists. Qed.

Lemma sibling_ne s f k t x : rep s (f :: k) t -> rootp t = Some x -> rootp (frame_tree f) <> Some x.
Proof.
  intros [_ _ Hnd] Hx Hf. unfold zip_nodes in Hnd. simpl in Hnd. apply NoDup_cons in Hnd as [_ Hnd].
  rewrite <- app_assoc in Hnd. apply NoDup_app in Hnd as (_ & Hd & _).
  destruct t as [|? ? ? ?], (frame_tree f) as [|? ? ? ?]; simplify_eq/=. apply (Hd x); set_solver.
Qed.

Lemma rootp_fill f t : rootp (fill f t) = Some (frame_node f).
Proof. by destruct f. Qed.

(** A red uncle: the parent and the uncle become black, the grandparent red. *)
Lemma recolour_ok s f g k t :
  rep s (f :: g :: k) t -> tcolor (frame_tree g) = 1 ->
  exists s1 s2 s3 y, rootp (frame_tree g) = Some y /\
    set_color s (frame_node f) 0 = Some s1 /\ set_color s1 y 0 = Some s2 /\
    set_color s2 (frame_node g) 1 = Some s3 /\
    rep s3 k (match g with FL _ xg u => T 1 (tset 0 (fill f t)) xg (tset 0 u)
                         | FR _ u xg => T 1 (tset 0 u) xg (tset 0 (fill f t)) end) /\
    unch (zip_nodes (f :: g :: k) t) s s3.
Proof.
  intros Hrep Hu. destruct (frame_tree g) as [|cu ul y ur] eqn:Hg; simplify_eq/=. rewrite rep_up in Hrep.
  destruct (set_color_ok s (g :: k) (fill f t) (frame_node f) 0 Hrep (rootp_fill f t)) as (s1 & E1 & R1 & U1).
  rewrite rep_up in R1.
  set (g1 := match g with FL c xg _ => FR c (tset 0 (fill f t)) xg | FR c _ xg => FL c xg (tset 0 (fill f t)) end).
  assert (R1' : rep s1 (g1 :: k) (T 1 ul y ur)).
  { rewrite rep_up. destruct g; simpl in *; by subst. }
  destruct (set_color_ok s1 _ _ y 0 R1' eq_refl) as (s2 & E2 & R2 & U2). rewrite rep_up in R2.
  destruct (set_color_ok s2 _ _ (frame_node g) 1 R2) as (s3 & E3 & R3 & U3); [by destruct g|].
  exists s1, s2, s3, y. split_and!; [done|done|done|done|by destruct g; simpl in *; subst|].
  assert (H2 : zip_nodes (g1 :: k) (T 1 ul y ur) ≡ₚ zip_nodes (f :: g :: k) t).
  { rewrite !zip_nodes_fill. destruct g; simpl in *; subst; unfold zip_nodes; simpl; by rewrite ?inorder_tset. }
  assert (H3 : zip_nodes k (fill g1 (tset 0 (T 1 ul y ur))) ≡ₚ zip_nodes (f :: g :: k) t).
  { rewrite <- H2, zip_nodes_fill. by destruct g. }
  rewrite <- zip_nodes_fill in U1. rewrite H2 in U2. rewrite H3 in U3. eauto using unch_trans.
Qed.

(** What a turn of the repair loop leaves when it rotated: the node it goes on with
    is a child of a black node. *)
Definition rotated (s' : rb_st) (k : list frame) (t' : tree) (z' : nat) : Prop :=
  rep s' k t' /\ exists A top B, t' = T 0 A top B /\ (rootp A = Some z' \/ rootp B = Some z').

Lemma fixup_left_red s z f cg xg u k t :
  rep s (f :: FL cg xg u :: k) t -> tcolor u = 1 ->
  exists s', fixup_left s z (frame_node f) xg (rootp u) = Some (s', xg) /\
    rep s' k (T 1 (tset 0 (fill f t)) xg (tset 0 u)) /\ unch (zip_nodes (f :: FL cg xg u :: k) t) s s'.
Proof.
  intros Hrep Hu. destruct (recolour_ok _ _ _ _ _ Hrep Hu) as (s1 & s2 & s3 & y & Hy & E1 & E2 & E3 & R & U).
  simpl in Hy. unfold fixup_left. destruct Hrep as [(_ & _ & _ & Ht & _) _ _]. simpl in Ht.
  rewrite (is_red_ok _ _ _ Ht), Hu. cbn [mbind option_bind Z.eqb Pos.eqb]. rewrite E1. cbn [mbind option_bind].
  rewrite Hy. cbn [mbind option_bind]. rewrite E2. cbn [mbind option_bind]. rewrite (E3 : set_color s2 xg 1 = _).
  cbn [mbind option_bind]. eauto.
Qed.

Lemma fixup_right_red s z f cg xg u k t :
  rep s (f :: FR cg u xg :: k) t -> tcolor u = 1 ->
  exists s', fixup_right s z (frame_node f) xg (rootp u) = Some (s', xg) /\
    rep s' k (T 1 (tset 0 u) xg (tset 0 (fill f t))) /\ unch (zip_nodes (f :: FR cg u xg :: k) t) s s'.
Proof.
  intros Hrep Hu. destruct (recolour_ok _ _ _ _ _ Hrep Hu) as (s1 & s2 & s3 & y & Hy & E1 & E2 & E3 & R & U).
  simpl in Hy. unfold fixup_right. destruct Hrep as [(_ & _ & _ & Ht & _) _ _]. simpl in Ht.
  rewrite (is_red_ok _ _ _ Ht), Hu. cbn [mbind option_bind Z.eqb Pos.eqb]. rewrite E1. cbn [mbind option_bind].
  rewrite Hy. cbn [mbind option_bind]. rewrite E2. cbn [mbind option_bind]. rewrite (E3 : set_color s2 xg 1 = _).
  cbn [mbind option_bind]. eauto.
Qed.

(** The two colour changes and the rotation at the grandparent. *)
Lemma turn_right_ok s k cg cp a xp b xg u :
  rep s (FL cg xg u :: k) (T cp a xp b) ->
  exists s1 s2 s3, set_color s xp 0 = Some s1 /\ set_color s1 xg 1 = Some s2 /\ rb_rotate_right s2 xg = Some s3 /\
    rep s3 k (T 0 a xp (T 1 b xg u)) /\ unch (zip_nodes (FL cg xg u :: k) (T cp a xp b)) s s3.
Proof.
  intros Hrep. destruct (set_color_ok _ _ _ xp 0 Hrep eq_refl) as (s1 & E1 & R1 & U1). rewrite rep_up in R1.
  destruct (set_color_ok _ _ _ xg 1 R1 eq_refl) as (s2 & E2 & R2 & U2).
  destruct (rotate_right_ok _ _ _ _ _ _ _ _ _ R2) as (s3 & E3 & R3 & U3).
  exists s1, s2, s3. split_and!; try done. rewrite zip_nodes_fill in *. eauto using unch_trans.
Qed.

Lemma turn_left_ok s k cg cp a xp b xg u :
  rep s (FR cg u xg :: k) (T cp a xp b) ->
  exists s1 s2 s3, set_color s xp 0 = Some s1 /\ set_color s1 xg 1 = Some s2 /\ rb_rotate_left s2 xg = Some s3 /\
    rep s3 k (T 0 (T 1 u xg a) xp b) /\ unch (zip_nodes (FR cg u xg :: k) (T cp a xp b)) s s3.
Proof.
  intros Hrep. destruct (set_color_ok _ _ _ xp 0 Hrep eq_refl) as (s1 & E1 & R1 & U1). rewrite rep_up in R1.
  destruct (set_color_ok _ _ _ xg 1 R1 eq_refl) as (s2 & E2 & R2 & U2).
  destruct (rotate_left_ok _ _ _ _ _ _ _ _ _ R2) as (s3 & E3 & R3 & U3).
  exists s1, s2, s3. split_and!; try done. rewrite zip_nodes_fill in *. eauto using unch_trans.
Qed.

Lemma fixup_left_black s z f cg xg u k t :
  rep s (f :: FL cg xg u :: k) t -> rootp t = Some z -> tcolor u <> 1 ->
  exists s' z', fixup_left s z (frame_node f) xg (rootp u) = Some (s', z') /\
    rotated s' k (rot_l f t xg u) z' /\ unch (zip_nodes (f :: FL cg xg u :: k) t) s s'.
Proof.
  intros Hrep Hz Hu. unfold fixup_left.
  assert (Ht : tree_at (rb_heap s) (Some xg) u) by (by destruct Hrep as [(_ & _ & _ & Ht & _) _ _]).
  rewrite (is_red_ok _ _ _ Ht). cbn [mbind option_bind]. destruct (Z.eqb_spec (tcolor u) 1); [done|].
  rewrite (rep_parent _ _ _ _ Hrep). cbn [mbind option_bind]. pose proof (sibling_ne _ _ _ _ _ Hrep Hz) as Hne.
  destruct (rep_root _ _ _ _ Hrep Hz) as (nz & Hnz & Hpz).
  rewrite rep_up in Hrep. destruct f as [c xp b|c b xp]; simpl in *.
  - case_bool_decide; [done|]. cbn [mbind option_bind]. rewrite Hnz. cbn [mbind option_bind]. rewrite Hpz.
    cbn [mbind option_bind]. destruct (turn_right_ok _ _ _ _ _ _ _ _ _ Hrep) as (s1 & s2 & s3 & -> & E2 & E3 & R & U).
    cbn [mbind option_bind]. rewrite E2. cbn [mbind option_bind]. rewrite E3. cbn [mbind option_bind].
    exists s3, z. split_and!; [done| |by rewrite zip_nodes_fill]. split; [done|]. do 3 eexists. split; [done|]. by left.
  - destruct t as [|cz l z0 r]; simplify_eq/=. case_bool_decide; [|done]. cbn [mbind option_bind].
    destruct (rotate_left_ok _ _ _ _ _ _ _ _ _ Hrep) as (s0 & E0 & R0 & U0). rewrite E0. cbn [mbind option_bind].
    assert (Hxp : rb_heap s0 !! xp = Some (mk_node (Some z) (rootp b) (rootp l) c)) by by destruct R0 as [_ (_ & (? & _) & _) _].
    rewrite Hxp. cbn [mbind option_bind nd_parent].
    destruct (turn_right_ok _ _ _ _ _ _ _ _ _ R0) as (s1 & s2 & s3 & -> & E2 & E3 & R & U).
    cbn [mbind option_bind]. rewrite E2. cbn [mbind option_bind]. rewrite E3. cbn [mbind option_bind].
    exists s3, xp. split_and!; [done| |].
    + split; [done|]. do 3 eexists. split; [done|]. by left.
    + rewrite zip_nodes_fill. eapply unch_trans; [done|]. eapply unch_sub; [|exact U]. intros w. unfold zip_nodes. simpl. set_solver.
Qed.

Lemma fixup_right_black s z f cg xg u k t :
  rep s (f :: FR cg u xg :: k) t -> rootp t = Some z -> tcolor u <> 1 ->
  exists s' z', fixup_right s z (frame_node f) xg (rootp u) = Some (s', z') /\
    rotated s' k (rot_r f t u xg) z' /\ unch (zip_nodes (f :: FR cg u xg :: k) t) s s'.
Proof.
  intros Hrep Hz Hu. unfold fixup_right.
  assert (Ht : tree_at (rb_heap s) (Some xg) u) by (by destruct Hrep as [(_ & _ & _ & Ht & _) _ _]).
  rewrite (is_red_ok _ _ _ Ht). cbn [mbind option_bind]. destruct (Z.eqb_spec (tcolor u) 1); [done|].
  rewrite (rep_parent _ _ _ _ Hrep). cbn [mbind option_bind]. pose proof (sibling_ne _ _ _ _ _ Hrep Hz) as Hne.
  destruct (rep_root _ _ _ _ Hrep Hz) as (nz & Hnz & Hpz).
  rewrite rep_up in Hrep. destruct f as [c xp b|c b xp]; simpl in *.
  - destruct t as [|cz l z0 r]; simplify_eq/=. case_bool_decide; [|done]. cbn [mbind option_bind].
    destruct (rotate_right_ok _ _ _ _ _ _ _ _ _ Hrep) as (s0 & E0 & R0 & U0). rewrite E0. cbn [mbind option_bind].
    assert (Hxp : rb_heap s0 !! xp = Some (mk_node (Some z) (rootp r) (rootp b) c)) by by destruct R0 as [_ (_ & _ & (? & _)) _].
    rewrite Hxp. cbn [mbind option_bind nd_parent].
    destruct (turn_left_ok _ _ _ _ _ _ _ _ _ R0) as (s1 & s2 & s3 & -> & E2 & E3 & R & U).
    cbn [mbind option_bind]. rewrite E2. cbn [mbind option_bind]. rewrite E3. cbn [mbind option_bind].
    exists s3, xp. split_and!; [done| |].
    + split; [done|]. do 3 eexists. split; [done|]. by right.
    + rewrite zip_nodes_fill. eapply unch_trans; [done|]. eapply unch_sub; [|exact U]. intros w. unfold zip_nodes. simpl. set_solver.
  - case_bool_decide; [done|]. cbn [mbind option_bind]. rewrite Hnz. cbn [mbind option_bind]. rewrite Hpz.
    cbn [mbind option_bind]. destruct (turn_left_ok _ _ _ _ _ _ _ _ _ Hrep) as (s1 & s2 & s3 & -> & E2 & E3 & R & U).
    cbn [mbind option_bind]. rewrite E2. cbn [mbind option_bind]. rewrite E3. cbn [mbind option_bind].
    exists s3, z. split_and!; [done| |by rewrite zip_nodes_fill]. split; [done|]. do 3 eexists. split; [done|]. by right.
Qed.

Lemma loop_stops n s k t z : rotated s k t z -> fixup_loop (S n) s z = Some s.
Proof.
  intros [Hrep (A & top & B & -> & Hz)]. pose proof (rep_node _ _ _ _ _ _ Hrep) as Htop.
  destruct Hrep as [_ (_ & HA & HB) _]. cbn [fixup_loop].
  destruct Hz as [Hz|Hz]; [destruct A|destruct B]; simplify_eq/=; [destruct HA as (-> & _)|destruct HB as (-> & _)];
    cbn [mbind option_bind nd_parent]; rewrite Htop; done.
Qed.

Lemma fixup_loop_ok n k t s z :
  (length k < n)%nat -> rep s k t -> rootp t = Some z ->
  exists s', fixup_loop n s z = Some s' /\ rep s' (fix_zip k t).1 (fix_zip k t).2 /\ unch (zip_nodes k t) s s'.
Proof.
  revert k t s z. induction n as [|n IH]; intros k t s z Hn Hrep Hz; [lia|]. cbn [fixup_loop].
  destruct (rep_root _ _ _ _ Hrep Hz) as (nz & Hnz & Hpz). rewrite Hnz. cbn [mbind option_bind]. rewrite Hpz.
  destruct k as [|f k]; simpl ctx_parent; cbn iota; [by exists s|].
  rewrite (rep_parent _ _ _ _ Hrep). cbn [mbind option_bind].
  replace (nd_color (frame_links f (ctx_parent k) (rootp t))) with (frame_color f) by (by destruct f).
  replace (nd_parent (frame_links f (ctx_parent k) (rootp t))) with (ctx_parent k) by (by destruct f).
  destruct (frame_color f =? 1) eqn:Hc; [|exists s; simpl; destruct k; [done|by rewrite Hc]].
  destruct k as [|g k]; simpl ctx_parent; cbn iota; [by exists s|].
  assert (Hg : rb_heap s !! frame_node g = Some (frame_links g (ctx_parent k) (Some (frame_node f)))).
  { rewrite rep_up in Hrep. rewrite (rep_parent _ _ _ _ Hrep), rootp_fill. done. }
  rewrite Hg. cbn [mbind option_bind]. simpl in Hn.
  pose proof Hrep as Hrep'. rewrite rep_up in Hrep'. pose proof (sibling_ne _ _ _ _ _ Hrep' (rootp_fill f t)) as Hne.
  cbn [fix_zip]. rewrite Hc. destruct g as [cg xg u|cg u xg]; simpl nd_left; simpl nd_right; simpl frame_node.
  - case_bool_decide; [|done]. destruct (Z.eqb_spec (tcolor u) 1) as [Hu|Hu].
    + destruct (fixup_left_red s z f cg xg u k t Hrep Hu) as (s1 & -> & R1 & U1). cbn [mbind option_bind].
      destruct (IH k _ _ xg ltac:(lia) R1 eq_refl) as (s2 & -> & R2 & U2). exists s2. split_and!; [done|done|].
      eapply unch_trans; [done|]. rewrite !zip_nodes_fill. unfold zip_nodes in *. simpl in *.
      by rewrite !inorder_tset in U2.
    + destruct (fixup_left_black s z f cg xg u k t Hrep Hz Hu) as (s1 & z1 & -> & R1 & U1). cbn [mbind option_bind].
      destruct n as [|n]; [lia|]. rewrite (loop_stops _ _ _ _ _ R1). exists s1. split_and!; [done|apply R1|done].
  - case_bool_decide; [done|]. destruct (Z.eqb_spec (tcolor u) 1) as [Hu|Hu].
    + destruct (fixup_right_red s z f cg xg u k t Hrep Hu) as (s1 & -> & R1 & U1). cbn [mbind option_bind].
      destruct (IH k _ _ xg ltac:(lia) R1 eq_refl) as (s2 & -> & R2 & U2). exists s2. split_and!; [done|done|].
      eapply unch_trans; [done|]. rewrite !zip_nodes_fill. unfold zip_nodes in *. simpl in *.
      by rewrite !inorder_tset in U2.
    + destruct (fixup_right_black s z f cg xg u k t Hrep Hz Hu) as (s1 & z1 & -> & R1 & U1). cbn [mbind option_bind].
      destruct n as [|n]; [lia|]. rewrite (loop_stops _ _ _ _ _ R1). exists s1. split_and!; [done|apply R1|done].
Qed.

Lemma rep_plug s k t : rep s k t <-> rep s [] (plug k t).
Proof.
  revert t. induction k as [|f k IH]; intros t; [done|]. rewrite rep_up. apply (IH (fill f t)).
Qed.

Lemma zip_nodes_plug k t : zip_nodes k t ≡ₚ inorder (plug k t).
Proof.
  revert t. induction k as [|f k IH]; intros t; [done|]. rewrite zip_nodes_fill. apply (IH (fill f t)).
Qed.

Lemma ctx_fuel s k t : rep s k t -> (length k <= size (rb_heap s))%nat.
Proof.
  intros [Hk _ Hnd]. apply NoDup_app in Hnd as (Hnd & _ & _).
  assert (Hlen : (length k <= length (ctx_nodes k))%nat).
  { clear. induction k as [|f k IH]; simpl; [done|]. rewrite length_app. lia. }
  etransitivity; [exact Hlen|]. rewrite <- (size_dom (rb_heap s)), <- (size_list_to_set (C := gset nat)) by done.
  apply subseteq_size. intros i Hi%elem_of_list_to_set. apply elem_of_dom. by eapply ctx_in_heap.
Qed.

Fixpoint cleft (k : list frame) : list nat :=
  match k with
  | [] => []
  | FL _ _ _ :: k' => cleft k'
  | FR _ l x :: k' => cleft k' ++ inorder l ++ [x]
  end.

Fixpoint cright (k : list frame) : list nat :=
  match k with
  | [] => []
  | FL _ x r :: k' => x :: inorder r ++ cright k'
  | FR _ _ _ :: k' => cright k'
  end.

Lemma inorder_plug k t : inorder (plug k t) = cleft k ++ inorder t ++ cright k.
Proof.
  revert t. induction k as [|f k IH]; intros t; simpl; [by rewrite app_nil_r|].
  rewrite IH. destruct f; simpl; rewrite <- !app_assoc; simpl; by rewrite <- ?app_assoc.
Qed.

Lemma inorder_plug_eq k t t' : inorder t = inorder t' -> inorder (plug k t) = inorder (plug k t').
Proof.
  revert t t'. induction k as [|f k IH]; intros t t' Heq; [done|]. simpl. apply IH.
  destruct f; simpl; by rewrite Heq.
Qed.

Lemma inorder_fix_zip n k t :
  (length k <= n)%nat -> t <> E -> inorder (plug (fix_zip k t).1 (fix_zip k t).2) = inorder (plug k t).
Proof.
  revert k t. induction n as [|n IH]; intros [|f [|g k]] t Hn Ht; simpl in Hn; try lia; try done. cbn [fix_zip].
  destruct (frame_color f =? 1); [|done]. change (plug (f :: g :: k) t) with (plug k (fill g (fill f t))).
  destruct g as [cg xg u|cg u xg]; (destruct (tcolor u =? 1); [rewrite IH by (done || lia)|]);
    apply inorder_plug_eq; simpl; rewrite ?inorder_tset; try done;
    destruct f, t; simpl; rewrite <- ?app_assoc; simpl; by rewrite <- ?app_assoc.
Qed.

(** The tree after an insertion at a leaf: the repair, and a black root. *)
Definition fixed (k : list frame) (t : tree) : tree := tset 0 (plug (fix_zip k t).1 (fix_zip k t).2).

Lemma inorder_fixed k t : t <> E -> inorder (fixed k t) = inorder (plug k t).
Proof. intros Ht. unfold fixed. rewrite inorder_tset. by eapply inorder_fix_zip. Qed.

Lemma insert_fixup_ok s k t z :
  rep s k t -> rootp t = Some z ->
  exists s', rb_insert_fixup s z = Some s' /\ rep s' [] (fixed k t) /\ unch (inorder (plug k t)) s s'.
Proof.
  intros Hrep Hz. unfold rb_insert_fixup, tree_fuel. pose proof (ctx_fuel _ _ _ Hrep) as Hf.
  assert (Ht : t <> E) by (by destruct t).
  destruct (fixup_loop_ok (S (size (rb_heap s))) k t s z ltac:(lia) Hrep Hz) as (s1 & -> & R1 & U1).
  cbn [mbind option_bind]. unfold blacken_root, fixed. pose proof (inorder_fix_zip _ k t (le_n _) Ht) as Hin.
  rewrite zip_nodes_plug in U1. rewrite rep_plug in R1.
  assert (Hne : plug (fix_zip k t).1 (fix_zip k t).2 <> E).
  { intros He. rewrite He in Hin. apply (f_equal length) in Hin. rewrite <- zip_nodes_plug in Hin.
    unfold zip_nodes in Hin. rewrite length_app in Hin. destruct t; [done|]. simpl in Hin. rewrite length_app in Hin. simpl in Hin. lia. }
  set (t1 := plug _ _) in *. destruct (rootp t1) as [r|] eqn:Hr; [|by destruct t1].
  rewrite (rp_ctx _ _ _ R1 : rb_root s1 = _), Hr. cbn [mbind option_bind].
  destruct (set_color_ok s1 [] _ r 0 R1 Hr) as (s2 & -> & R2 & U2).
  exists s2. split_and!; [done|done|]. unfold zip_nodes in U2. simpl in U2. rewrite Hin in U2. eauto using unch_trans.
Qed.

(** ** Insertion *)

Section insertion.
Context (pri : nat -> Z).

Fixpoint ins_ctx (key : Z) (t : tree) (k : list frame) : list frame :=
  match t with
  | E => k
  | T c l x r => if key <? pri x then ins_ctx key l (FL c x r :: k) else ins_ctx key r (FR c l x :: k)
  end.

Lemma rep_down_l s k c l x r : rep s k (T c l x r) -> rep s (FL c x r :: k) l.
Proof. intros H. by rewrite rep_up. Qed.

Lemma rep_down_r s k c l x r : rep s k (T c l x r) -> rep s (FR c l x :: k) r.
Proof. intros H. by rewrite rep_up. Qed.

Lemma insert_walk_ok n s key t k :
  rep s k t -> (size (rb_heap s) < n + length k)%nat ->
  insert_walk pri n s key (ctx_parent k) (rootp t) = Some (ctx_parent (ins_ctx key t k)) /\
  rep s (ins_ctx key t k) E.
Proof.
  revert t k. induction n as [|n IH]; intros t k Hrep Hn.
  { pose proof (ctx_fuel _ _ _ Hrep). lia. }
  destruct t as [|c l x r]; [done|]. cbn [insert_walk rootp ins_ctx].
  rewrite (rep_node _ _ _ _ _ _ Hrep). cbn [mbind option_bind nd_left nd_right].
  destruct (key <? pri x).
  - apply (IH l (FL c x r :: k)); [by apply rep_down_l|simpl; lia].
  - apply (IH r (FR c l x :: k)); [by apply rep_down_r|simpl; lia].
Qed.

(** The list insertion behind [rb_insert]: after every node of the same or a
    smaller priority value. *)
Fixpoint ins_list (z : nat) (key : Z) (l : list nat) : list nat :=
  match l with
  | [] => [z]
  | x :: l' => if key <? pri x then z :: x :: l' else x :: ins_list z key l'
  end.

Definition pri_le (x y : nat) : Prop := pri x <= pri y.

Lemma ins_list_app_l z key l x r :
  key < pri x -> ins_list z key (l ++ x :: r) = ins_list z key l ++ x :: r.
Proof.
  intros Hx. induction l as [|y l IH]; simpl; [by rewrite (proj2 (Z.ltb_lt _ _) Hx)|].
  destruct (key <? pri y); [done|]. simpl. by rewrite IH.
Qed.

Lemma ins_list_app_r z key l r :
  Forall (fun y => pri y <= key) l -> ins_list z key (l ++ r) = l ++ ins_list z key r.
Proof.
  induction 1 as [|y l Hy _ IH]; [done|]. simpl. destruct (Z.ltb_spec key (pri y)); [lia|]. by rewrite IH.
Qed.

Lemma sorted_app_l (R : nat -> nat -> Prop) l x r :
  StronglySorted R (l ++ x :: r) -> StronglySorted R l /\ Forall (fun y => R y x) l /\ StronglySorted R r /\ Forall (R x) r.
Proof.
  induction l as [|y l IH]; simpl; intros H; apply StronglySorted_inv in H as [H1 H2].
  - split_and!; [constructor|done|done|done].
  - destruct (IH H1) as (? & ? & ? & ?). apply Forall_app in H2 as [H2 Hr]. apply Forall_cons in Hr as [Hr _].
    split_and!; [by constructor|by constructor|done|done].
Qed.

Lemma inorder_ins z key t k :
  StronglySorted pri_le (inorder t) ->
  inorder (plug (ins_ctx key t k) (T 1 E z E)) = cleft k ++ ins_list z key (inorder t) ++ cright k.
Proof.
  revert k. induction t as [|c l IHl x r IHr]; intros k Hs; simpl; [by rewrite inorder_plug|].
  simpl in Hs. apply sorted_app_l in Hs as (Hsl & Hlx & Hsr & _). destruct (Z.ltb_spec key (pri x)).
  - rewrite IHl by done. rewrite ins_list_app_l by done. simpl. by rewrite <- !app_assoc.
  - rewrite IHr by done. simpl. rewrite ins_list_app_r.
    + simpl. destruct (Z.ltb_spec key (pri x)); [lia|]. by rewrite <- !app_assoc.
    + eapply Forall_impl; [exact Hlx|]. unfold pri_le. simpl. intros. lia.
Qed.

Lemma ins_list_perm z key l : ins_list z key l ≡ₚ z :: l.
Proof.
  induction l as [|x l IH]; simpl; [done|]. destruct (key <? pri x); [done|]. rewrite IH. solve_Permutation.
Qed.

Lemma ins_list_sorted z l :
  StronglySorted pri_le l -> StronglySorted pri_le (ins_list z (pri z) l).
Proof.
  induction 1 as [|x l Hl IH Hx]; simpl; [repeat constructor|]. destruct (Z.ltb_spec (pri z) (pri x)).
  - constructor; [by constructor|]. constructor; [unfold pri_le; lia|]. eapply Forall_impl; [done|].
    unfold pri_le. simpl. intros. lia.
  - constructor; [done|]. rewrite ins_list_perm. constructor; [done|done].
Qed.

Lemma plug_ins_ctx key t k : plug (ins_ctx key t k) E = plug k t.
Proof.
  revert k. induction t as [|c l IHl x r IHr]; intros k; simpl; [done|].
  destruct (key <? pri x); [rewrite IHl|rewrite IHr]; done.
Qed.

(** Every step of the search went the way of the comparison. *)
Definition step_ok (key : Z) (f : frame) : Prop :=
  (key <? pri (frame_node f)) = match f with FL _ _ _ => true | FR _ _ _ => false end.

Lemma ins_ctx_steps key t k : Forall (step_ok key) k -> Forall (step_ok key) (ins_ctx key t k).
Proof.
  revert k. induction t as [|c l IHl x r IHr]; intros k Hk; simpl; [done|].
  destruct (key <? pri x) eqn:E1; [apply IHl|apply IHr]; by constructor.
Qed.

(** Hanging the new node in the hole. *)
Lemma link_ok s k z key :
  rep s k E -> Forall (step_ok key) k -> z ∉ ctx_nodes k ->
  rb_heap s !! z = Some (mk_node (ctx_parent k) None None 1) ->
  exists s', match ctx_parent k with
             | None => Some (mk_rb (Some z) (rb_heap s))
             | Some p => if key <? pri p then set_left s p (Some z) else set_right s p (Some z)
             end = Some s' /\ rep s' k (T 1 E z E) /\ unch (ctx_nodes k) s s'.
Proof.
  intros [Hk _ Hnd] Hdir Hz Hnz. unfold zip_nodes in Hnd. rewrite app_nil_r in Hnd.
  assert (Hnd' : NoDup (zip_nodes k (T 1 E z E))).
  { unfold zip_nodes. simpl. rewrite Permutation_app_comm. simpl. by constructor. }
  destruct k as [|f k]; simpl in *; [by eexists|].
  apply Forall_cons in Hdir as [Hdir _]. unfold step_ok in Hdir. rewrite Hdir.
  destruct Hk as (Hf & Ht & Hk). apply not_elem_of_cons in Hz as [Hzf Hz]. apply not_elem_of_app in Hz as [Hz1 Hz2].
  apply NoDup_cons in Hnd as [Hfn Hnd]. apply not_elem_of_app in Hfn as [Hf1 Hf2].
  unfold set_left, set_right. destruct f as [c p r|c l p]; simpl in *;
    [destruct (upd_ok s p _ (fun n => mk_node (nd_parent n) (Some z) (nd_right n) (nd_color n)) Hf) as (s' & -> & Hr & Hp & U)
    |destruct (upd_ok s p _ (fun n => mk_node (nd_parent n) (nd_left n) (Some z) (nd_color n)) Hf) as (s' & -> & Hr & Hp & U)];
    (exists s'; split; [done|]; split; [constructor; simpl; [split; [done|split]| |done]|]);
    [eapply tree_unch; [done| |done]; set_solver|eapply ctx_unch; [done|done| |done]; set_solver
    |split; [rewrite U by set_solver; done|done]|eapply unch_sub; [|exact U]; set_solver
    |eapply tree_unch; [done| |done]; set_solver|eapply ctx_unch; [done|done| |done]; set_solver
    |split; [rewrite U by set_solver; done|done]|eapply unch_sub; [|exact U]; set_solver].
Qed.

(** The tree [rb_insert] builds. *)
Definition insert_tree (z : nat) (key : Z) (t : tree) : tree := fixed (ins_ctx key t []) (T 1 E z E).

Lemma inorder_insert_tree z key t :
  StronglySorted pri_le (inorder t) -> inorder (insert_tree z key t) = ins_list z key (inorder t).
Proof.
  intros Hs. unfold insert_tree. rewrite inorder_fixed by done. rewrite inorder_ins by done.
  simpl. by rewrite app_nil_r.
Qed.

Lemma insert_ok s t z key n0 :
  rep s [] t -> rb_heap s !! z = Some n0 -> z ∉ inorder t ->
  exists s', rb_insert pri s z key = Some s' /\ rep s' [] (insert_tree z key t) /\ unch (z :: inorder t) s s'.
Proof.
  intros Hrep Hz Hnin. unfold rb_insert.
  destruct (upd_ok s z n0 (fun _ => mk_node None None None 1) Hz) as (s1 & -> & R1 & Hz1 & U1). cbn [mbind option_bind].
  assert (Hrep1 : rep s1 [] t).
  { destruct Hrep as [Hc Ht Hnd]. constructor; [simpl in *; congruence| |done].
    eapply tree_unch; [done| |done]. set_solver. }
  destruct (insert_walk_ok (tree_fuel s1) s1 key t [] Hrep1) as [Hw Hrep2]; [unfold tree_fuel; simpl; lia|].
  rewrite (rp_ctx _ _ _ Hrep1 : rb_root s1 = rootp t), (Hw : insert_walk _ _ _ _ None _ = _). cbn [mbind option_bind].
  set (k := ins_ctx key t []) in *.
  assert (Hperm : ctx_nodes k ≡ₚ inorder t).
  { rewrite <- (app_nil_r (ctx_nodes k)). change (ctx_nodes k ++ []) with (zip_nodes k E).
    rewrite zip_nodes_plug. unfold k. by rewrite plug_ins_ctx. }
  assert (Hzk : z ∉ ctx_nodes k) by by rewrite Hperm.
  destruct (upd_ok s1 z _ (fun _ => mk_node (ctx_parent k) None None 1) Hz1) as (s2 & -> & R2 & Hz2 & U2). cbn [mbind option_bind].
  destruct (link_ok s2 k z key) as (s3 & -> & Hrep3 & U3); [| |done|done|].
  { destruct Hrep2 as [Hc Ht Hnd]. constructor; [|done|done]. eapply ctx_unch; [done|done| |done]. set_solver. }
  { by apply ins_ctx_steps. }
  cbn [mbind option_bind]. destruct (insert_fixup_ok s3 k _ z Hrep3 eq_refl) as (s4 & -> & Hrep4 & U4).
  exists s4. split_and!; [done|done|]. rewrite <- zip_nodes_plug in U4. unfold zip_nodes in U4. rewrite Hperm in U4, U3.
  intros w Hwn. apply not_elem_of_cons in Hwn as [Hw1 Hw2]. simpl in U4. rewrite U4 by set_solver. rewrite U3 by done.
  rewrite U2, U1 by set_solver. done.
Qed.
End insertion.

(** ** The leftmost node *)

(** The path to the leftmost node of a tree, and the rest of that node. *)
Fixpoint left_ctx (c : Z) (l : tree) (x : nat) (r : tree) (k : list frame) : list frame * Z * nat * tree :=
  match l with
  | E => (k, c, x, r)
  | T c' l' x' r' => left_ctx c' l' x' r' (FL c x r :: k)
  end.

Lemma go_left_ok n s c l x r k k' c' y r' :
  rep s k (T c l x r) -> (size (rb_heap s) <= n + length k)%nat ->
  left_ctx c l x r k = (k', c', y, r') ->
  go_left (S n) s x = Some y /\ rep s k' (T c' E y r').
Proof.
  revert n c x r k. induction l as [|c1 l1 IH x1 r1 _]; intros n c x r k Hrep Hn Hl; cbn [go_left];
    rewrite (rep_node _ _ _ _ _ _ Hrep); cbn [mbind option_bind nd_left rootp]; simpl in Hl.
  - by simplify_eq.
  - apply rep_down_l in Hrep. pose proof (ctx_fuel _ _ _ (rep_down_l _ _ _ _ _ _ Hrep)) as Hf. simpl in Hf.
    destruct n as [|n]; [lia|]. eapply IH; [done| |done]. simpl. lia.
Qed.

Lemma left_ctx_inorder c l x r k k' c' y r' :
  left_ctx c l x r k = (k', c', y, r') -> plug k (T c l x r) = plug k' (T c' E y r') /\ cleft k' = cleft k.
Proof.
  revert c x r k. induction l as [|c1 l1 IH x1 r1 _]; intros c x r k Hl; simpl in Hl; [by simplify_eq|].
  apply IH in Hl as [Hp Hc]. split; [|exact Hc]. rewrite <- Hp. done.
Qed.

(** [rb_leftmost] is the first node in order. *)
Lemma leftmost_ok s t :
  rep s [] t -> rb_leftmost s = Some (head (inorder t)).
Proof.
  intros Hrep. unfold rb_leftmost, tree_fuel. rewrite (rp_ctx _ _ _ Hrep : rb_root s = _).
  destruct t as [|c l x r]; [done|]. simpl rootp. cbn iota.
  destruct (left_ctx c l x r []) as [[[k' c'] y] r'] eqn:Hl.
  destruct (go_left_ok (size (rb_heap s)) _ _ _ _ _ _ _ _ _ _ Hrep ltac:(simpl; lia) Hl) as [-> _].
  apply left_ctx_inorder in Hl as [Hp Hc]. simpl in Hp, Hc. simpl. do 2 f_equal.
  change (inorder l ++ x :: inorder r) with (inorder (T c l x r)). rewrite Hp, inorder_plug, Hc. done.
Qed.

(** ** Removal *)

Lemma left_ctx_app c l x r k0 kk c' y r' :
  left_ctx c l x r [] = (kk, c', y, r') -> left_ctx c l x r k0 = (kk ++ k0, c', y, r').
Proof.
  assert (Hg : forall l c x r k1 k2, left_ctx c l x r (k1 ++ k2) =
    let '(k', c', y, r') := left_ctx c l x r k1 in (k' ++ k2, c', y, r')).
  { clear. intros l. induction l as [|c1 l1 IH x1 r1 _]; intros c x r k1 k2; simpl; [done|].
    apply (IH c1 x1 r1 (FL c x r :: k1) k2). }
  intros Hl. specialize (Hg l c x r [] k0). simpl in Hg. by rewrite Hl in Hg.
Qed.

Lemma left_ctx_cons c l x r kk c' y r' :
  l <> E -> left_ctx c l x r [] = (kk, c', y, r') -> exists cf xf fr kk', kk = FL cf xf fr :: kk'.
Proof.
  assert (Hg : forall l c x r k, exists kk cc yy rr, left_ctx c l x r k = (kk, cc, yy, rr) /\
            (l <> E \/ (exists cf xf fr k', k = FL cf xf fr :: k') -> exists cf xf fr kk', kk = FL cf xf fr :: kk')).
  { clear. intros l. induction l as [|c1 l1 IH x1 r1 _]; intros c x r k; simpl.
    - do 4 eexists. split; [done|]. intros [?|?]; done.
    - destruct (IH c1 x1 r1 (FL c x r :: k)) as (kk & cc & yy & rr & Hl & Hkk).
      do 4 eexists. split; [exact Hl|]. intros _. apply Hkk. right. by do 4 eexists. }
  intros Hne Hl. destruct (Hg l c x r []) as (? & ? & ? & ? & Hl' & Hkk).
  rewrite Hl in Hl'. injection Hl' as -> _ _ _. apply Hkk. by left.
Qed.

(** Taking the successor [y] out of the place it has. *)
Lemma detach_ok s cf xf fr k cy y yr :
  rep s (FL cf xf fr :: k) (T cy E y yr) ->
  exists s1 s2, set_parent_if s (rootp yr) (Some xf) = Some s1 /\ set_left s1 xf (rootp yr) = Some s2 /\
    rep s2 (FL cf xf fr :: k) yr /\ unch (xf :: inorder yr) s s2.
Proof.
  intros [Hk (Hy & _ & Hr) Hnd].
  assert (Hnd' : NoDup (zip_nodes (FL cf xf fr :: k) yr)).
  { unfold zip_nodes in *. apply NoDup_app in Hnd as (? & Hd & Hnd). apply NoDup_cons in Hnd as [? ?].
    apply NoDup_app. split_and!; [done| |done]. set_solver. }
  destruct Hk as (Hf & Hft & Hk). simpl in *.
  pose proof Hnd' as Hn. unfold zip_nodes in Hn. simpl in Hn. apply NoDup_cons in Hn as [Hxf Hn].
  rewrite <- app_assoc in Hn. apply NoDup_app in Hn as (_ & Hd1 & Hn). apply NoDup_app in Hn as (_ & Hd2 & Hnr).
  destruct (set_parent_if_ok s yr (Some y) (Some xf) Hr Hnr) as (s1 & E1 & R1 & Hr1 & U1).
  assert (Hf1 : rb_heap s1 !! xf = Some (mk_node (ctx_parent k) (Some y) (rootp fr) cf)).
  { rewrite U1 by set_solver. done. }
  destruct (upd_ok s1 xf _ (fun n => mk_node (nd_parent n) (rootp yr) (nd_right n) (nd_color n)) Hf1)
    as (s2 & E2 & R2 & Hf2 & U2).
  exists s1, s2. split_and!; [done|done| |].
  - constructor; simpl; [split_and!; [done| |]| |done].
    + eapply tree_ext; [|exact Hft]. intros z Hz. rewrite U2, U1 by set_solver. done.
    + eapply ctx_ext; [|intros z Hz; rewrite U2, U1 by set_solver; done|done]. congruence.
    + eapply tree_ext; [|exact Hr1]. intros z Hz. rewrite U2 by set_solver. done.
  - intros z Hz. rewrite U2, U1 by set_solver. done.
Qed.

(** Putting [y], with the right subtree [R], in the place of [z]. *)
Lemma swap_in_ok s k c l z rz y R py ly cy zl :
  ctx_at s k (Some z) -> rb_heap s !! z = Some (mk_node (ctx_parent k) (rootp l) rz c) -> tree_at (rb_heap s) (Some z) l ->
  rb_heap s !! y = Some (mk_node py ly (rootp R) cy) -> tree_at (rb_heap s) (Some y) R ->
  NoDup (ctx_nodes k ++ inorder l ++ z :: [] ++ y :: inorder R) -> rootp l = Some zl ->
  exists s', (s ← replace_child s z (Some y);
              nz ← rb_heap s !! z;
              s ← set_parent s y (nd_parent nz);
              s ← set_left s y (Some zl);
              s ← set_parent s zl (Some y);
              set_color s y (nd_color nz)) = Some s' /\
    rep s' k (T c l y R) /\ unch (ctx_nodes k ++ inorder l ++ [y]) s s'.
Proof.
  intros Hk Hz Hl Hy HR Hnd Hzl.
  assert (Hnd' : NoDup (zip_nodes k (T c l y R))).
  { apply (sublist_NoDup _ (ctx_nodes k ++ inorder l ++ z :: [] ++ y :: inorder R)); [done|].
    unfold zip_nodes. simpl. apply sublist_app; [done|]. apply sublist_app; [done|]. by apply sublist_cons. }
  destruct (zip_facts _ _ _ _ _ _ Hnd) as ((?&?&?&?&?)&(?&?&?&?)&(?&?&?&?)&(?&?&?&?&?&?)). clear Hnd.
  destruct (ctx_hole s k z (mk_node (ctx_parent k) (rootp l) rz c) (Some y) Hk) as (s1 & -> & _ & Hk1 & U1); try done.
  cbn [mbind option_bind]. rewrite U1, Hz by nin. cbn [mbind option_bind nd_parent nd_color].
  unfold set_parent, set_left, set_color. run_upd s1 y as s2 R2 Hy2 U2. run_upd s2 y as s3 R3 Hy3 U3.
  destruct (set_parent_if_ok s3 l (Some z) (Some y)) as (s4 & E4 & R4 & Hl4 & U4); [carry|done|].
  rewrite Hzl in E4. unfold set_parent_if, set_parent in E4. rewrite E4. cbn [mbind option_bind].
  run_upd s4 y as s5 R5 Hy5 U5.
  exists s5. split; [done|]. split; [constructor; [carry| |done]|].
  - simpl. split_and!; [by rewrite Hzl|carry|carry].
  - intros w Hw. rewrite !not_elem_of_app, !not_elem_of_cons in Hw. destruct_and!. by look.
Qed.

(** What takes the place of a removed node. *)
Definition without (c : Z) (l r : tree) : tree :=
  match l, r with
  | E, _ => r
  | _, E => l
  | _, T cr rl zr rr => let '(kk, _, y, yr) := left_ctx cr rl zr rr [] in T c l y (plug kk yr)
  end.

Lemma left_ctx_first cr rl zr rr kk cy y yr :
  left_ctx cr rl zr rr [] = (kk, cy, y, yr) -> inorder (T cr rl zr rr) = y :: inorder (plug kk yr).
Proof.
  intros [Hp Hc]%left_ctx_inorder. change (T cr rl zr rr) with (plug [] (T cr rl zr rr)).
  rewrite Hp, !inorder_plug, Hc. done.
Qed.

Lemma inorder_without c l r : inorder (without c l r) = inorder l ++ inorder r.
Proof.
  destruct l as [|cl ll xl lr]; [done|]. destruct r as [|cr rl zr rr]; [by rewrite app_nil_r|].
  unfold without. destruct (left_ctx cr rl zr rr []) as [[[kk cy] y] yr] eqn:Hl.
  rewrite (left_ctx_first _ _ _ _ _ _ _ _ Hl). done.
Qed.

Lemma plug_app k k' t : plug (k ++ k') t = plug k' (plug k t).
Proof. unfold plug. by rewrite foldl_app. Qed.

Lemma rep_plug_app s k k' t : rep s (k ++ k') t <-> rep s k' (plug k t).
Proof. rewrite rep_plug, plug_app, <- rep_plug. done. Qed.

Lemma plug_rootp f k t t' : rootp (plug (f :: k) t) = rootp (plug (f :: k) t').
Proof.
  induction k as [|g k IH] using rev_ind; [by destruct f|].
  rewrite !app_comm_cons, !plug_app. by destruct g.
Qed.

(** The successor, which is not the right child itself, is taken out and becomes
    the parent of what is left of the right subtree. *)
Lemma pull_up_ok s cf xf fr kk k c l z cy y yr zr :
  let R := plug (FL cf xf fr :: kk) yr in
  rep s (FL cf xf fr :: kk ++ FR c l z :: k) (T cy E y yr) -> rootp R = Some zr ->
  NoDup (ctx_nodes k ++ inorder l ++ z :: [] ++ y :: inorder R) ->
  exists s', (s ← set_parent_if s (rootp yr) (Some xf);
              s ← set_left s xf (rootp yr);
              s ← set_right s y (Some zr);
              set_parent s zr (Some y)) = Some s' /\
    (ctx_at s' k (Some z) /\ rb_heap s' !! z = Some (mk_node (ctx_parent k) (rootp l) (Some zr) c) /\
     tree_at (rb_heap s') (Some z) l /\ rb_heap s' !! y = Some (mk_node (Some xf) None (rootp R) cy) /\
     tree_at (rb_heap s') (Some y) R) /\ unch (y :: inorder R) s s'.
Proof.
  intros R Hy HrR Hnd. destruct (zip_facts _ _ _ _ _ _ Hnd) as ((?&?&?&?&?)&(?&?&?&?)&(?&?&?&?)&(?&?&?&?&?&?)).
  destruct (detach_ok _ _ _ _ _ _ _ _ Hy) as (s1 & s2 & -> & E2 & R2 & U2). cbn [mbind option_bind].
  rewrite E2. cbn [mbind option_bind].
  rewrite (rep_plug_app s2 (FL cf xf fr :: kk) (FR c l z :: k) yr : rep s2 (FL cf xf fr :: kk ++ _) _ <-> _) in R2.
  assert (U2' : unch (inorder R) s s2).
  { eapply unch_sub; [|exact U2]. intros w Hw. unfold R. rewrite <- zip_nodes_plug. unfold zip_nodes. simpl. set_solver. }
  assert (Hz2 : rb_heap s2 !! z = Some (mk_node (ctx_parent k) (rootp l) (Some zr) c)).
  { rewrite <- HrR. exact (rep_parent _ _ _ _ R2). }
  destruct R2 as [(_ & Hlt2 & Hk2) HR2 _]. cbn [frame_node frame_tree ctx_parent] in Hlt2, Hk2, HR2.
  assert (Hy2 : rb_heap s2 !! y = Some (mk_node (Some xf) None (rootp yr) cy)).
  { rewrite U2' by done. exact (rep_node _ _ _ _ _ _ Hy). }
  unfold set_right. destruct (upd_ok s2 y _ (fun n => mk_node (nd_parent n) (nd_left n) (Some zr) (nd_color n)) Hy2)
    as (s3 & -> & Hr3 & Hy3 & U3). cbn [mbind option_bind].
  assert (HR3 : tree_at (rb_heap s3) (Some z) R).
  { eapply tree_unch; [exact U3| |exact HR2]. intros w Hw. nin. }
  destruct (set_parent_if_ok s3 R (Some z) (Some y) HR3) as (s4 & E4 & Hr4 & HR4 & U4); [done|].
  rewrite HrR in E4. cbn [set_parent_if] in E4. exists s4. split; [done|]. split; [split_and!|].
  - eapply ctx_ext; [|intros w Hw; rewrite U4, U3 by nin; reflexivity|exact Hk2]. congruence.
  - rewrite U4, U3 by nin. done.
  - eapply tree_ext; [|exact Hlt2]. intros w Hw. rewrite U4, U3 by nin. done.
  - rewrite U4 by nin. rewrite HrR. exact Hy3.
  - done.
  - intros w [Hw1 Hw2]%not_elem_of_cons. rewrite U4, U3, U2' by nin. done.
Qed.

Lemma remove_two_ok s k c l z r zl zr :
  rep s k (T c l z r) -> rootp l = Some zl -> rootp r = Some zr ->
  exists s', remove_two s z zl zr = Some s' /\ rep s' k (without c l r) /\
    unch (ctx_nodes k ++ inorder l ++ inorder r) s s'.
Proof.
  intros Hrep Hzl Hzr. destruct r as [|cr rl zr' rr]; [done|]. simpl in Hzr. injection Hzr as ->.
  destruct (left_ctx cr rl zr rr []) as [[[kk cy] y] yr] eqn:Hlc.
  assert (Hwo : without c l (T cr rl zr rr) = T c l y (plug kk yr)).
  { destruct l; [done|]. unfold without. by rewrite Hlc. }
  rewrite Hwo. clear Hwo.
  pose proof (left_ctx_first _ _ _ _ _ _ _ _ Hlc) as Hin. pose proof (rep_down_r _ _ _ _ _ _ Hrep) as Hr.
  destruct (go_left_ok (size (rb_heap s)) _ _ _ _ _ _ _ _ _ _ Hr ltac:(simpl; lia) (left_ctx_app _ _ _ _ _ _ _ _ _ Hlc))
    as [Hgo Hy]. unfold remove_two, tree_fuel. rewrite Hgo. cbn [mbind option_bind].
  rewrite (rep_node _ _ _ _ _ _ Hy). cbn [mbind option_bind nd_parent nd_right].
  destruct Hrep as [Hk (Hz & Hlt & _) Hnd].
  assert (Hn : zip_nodes k (T c l z (T cr rl zr rr)) = ctx_nodes k ++ inorder l ++ z :: [] ++ y :: inorder (plug kk yr)).
  { unfold zip_nodes. cbn [inorder] in *. by rewrite Hin. }
  rewrite Hn in Hnd. clear Hn. rewrite Hin. clear Hin.
  destruct rl as [|c1 l1 x1 r1].
  - simpl in Hlc. simplify_eq/=. case_bool_decide; [|done]. cbn [mbind option_bind].
    destruct Hy as [_ (Hyn & _ & Hyr) _].
    destruct (swap_in_ok s k c l z _ y yr _ _ _ zl Hk Hz Hlt Hyn Hyr Hnd Hzl) as (s' & -> & R & U).
    exists s'. split_and!; [done|done|]. eapply unch_sub; [|exact U]. set_solver.
  - destruct (left_ctx_cons _ (T c1 l1 x1 r1) _ _ _ _ _ _ ltac:(done) Hlc) as (cf & xf & fr & kk' & ->).
    cbn [app ctx_parent frame_node mbind option_bind] in *.
    assert (Hxf : xf ∈ inorder (plug (FL cf xf fr :: kk') yr)).
    { rewrite <- zip_nodes_plug. unfold zip_nodes. simpl. set_solver. }
    assert (HrR : rootp (plug (FL cf xf fr :: kk') yr) = Some zr).
    { apply left_ctx_inorder in Hlc as [Hp _]. rewrite (plug_rootp _ _ yr (T cy E y yr)), <- Hp. done. }
    case_bool_decide as Hc.
    { injection Hc as ->. destruct (zip_facts _ _ _ [] _ _ Hnd) as (_ & _ & (_ & _ & Hno & _) & _). done. }
    destruct (pull_up_ok s cf xf fr kk' k c l z cy y yr zr Hy HrR Hnd) as (s4 & E4 & (Hk4 & Hz4 & Hl4 & Hy4 & HR4) & U4).
    rewrite E4. cbn [mbind option_bind].
    destruct (swap_in_ok s4 k c l z _ y _ _ _ _ zl Hk4 Hz4 Hl4 Hy4 HR4 Hnd Hzl) as (s5 & E5 & R5 & U5).
    exists s5. split_and!; [exact E5|done|]. eapply unch_trans; [eapply unch_sub, U4|eapply unch_sub, U5]; set_solver.
Qed.

(** The tree after [rb_remove_node] of the node in focus. *)
Definition remove_tree (k : list frame) (c : Z) (l r : tree) : tree := tset 0 (plug k (without c l r)).

(** A node without a right or a left subtree is replaced by the other subtree. *)
Lemma splice_ok s k c l z r t :
  rep s k (T c l z r) -> inorder t = inorder l ++ inorder r -> tree_at (rb_heap s) (Some z) t ->
  exists s1 s2, replace_child s z (rootp t) = Some s1 /\ set_parent_if s1 (rootp t) (ctx_parent k) = Some s2 /\
    rep s2 k t /\ unch (zip_nodes k t) s s2.
Proof.
  intros Hrep Ht Hat. pose proof (rep_node _ _ _ _ _ _ Hrep) as Hz. destruct Hrep as [Hk _ Hnd].
  assert (Hnd' : NoDup (z :: zip_nodes k t)).
  { unfold zip_nodes in *. rewrite Ht. simpl in Hnd. by rewrite !app_assoc, <- Permutation_middle, <- !app_assoc in Hnd. }
  apply NoDup_cons in Hnd' as [Hzn Hn]. pose proof Hn as Hn'. unfold zip_nodes in Hzn, Hn.
  apply not_elem_of_app in Hzn as [Hzk Hzt]. apply NoDup_app in Hn as (Hnk & Hd & Hnt).
  destruct (ctx_hole s k z _ (rootp t) Hk Hnk Hzk Hz eq_refl) as (s1 & E1 & _ & Hk1 & U1).
  destruct (set_parent_if_ok s1 t (Some z) (ctx_parent k)) as (s2 & E2 & R2 & Ht2 & U2); [|done|].
  { eapply tree_unch; [exact U1| |exact Hat]. set_solver. }
  exists s1, s2. split_and!; [done|done| |].
  - constructor; [|done|done]. eapply ctx_unch; [exact R2|exact U2| |exact Hk1]. set_solver.
  - intros w Hw. unfold zip_nodes in Hw. rewrite U2, U1 by set_solver. done.
Qed.

Lemma unlink_ok s k c l z r :
  rep s k (T c l z r) ->
  exists s', match rootp l, rootp r with
             | None, r => s ← replace_child s z r; set_parent_if s r (ctx_parent k)
             | Some l, None => s ← replace_child s z (Some l); set_parent s l (ctx_parent k)
             | Some l, Some r => remove_two s z l r
             end = Some s' /\ rep s' k (without c l r) /\ unch (ctx_nodes k ++ inorder l ++ inorder r) s s'.
Proof.
  intros Hrep. pose proof Hrep as [_ (_ & Hl & Hr) _].
  destruct l as [|cl ll zl lr]; [|destruct r as [|cr rl zr rr]].
  - destruct (splice_ok s k c E z r r Hrep eq_refl Hr) as (s1 & s2 & E1 & E2 & R2 & U2).
    exists s2. split_and!; [|done|].
    + simpl. rewrite E1. done.
    + eapply unch_sub; [|exact U2]. unfold zip_nodes. simpl. set_solver.
  - destruct (splice_ok s k c _ z E (T cl ll zl lr) Hrep) as (s1 & s2 & E1 & E2 & R2 & U2); [by rewrite app_nil_r|done|].
    exists s2. split_and!; [|done|].
    + simpl in *. rewrite E1. done.
    + eapply unch_sub; [|exact U2]. unfold zip_nodes. simpl. set_solver.
  - by apply remove_two_ok.
Qed.

Lemma remove_ok s k c l z r :
  rep s k (T c l z r) ->
  exists s', rb_remove_node s z = Some s' /\ rep s' [] (remove_tree k c l r) /\
    rb_heap s' !! z = Some (mk_node None None None c) /\ unch (inorder (plug k (T c l z r))) s s'.
Proof.
  intros Hrep. pose proof (rep_node _ _ _ _ _ _ Hrep) as Hz. unfold rb_remove_node. rewrite Hz.
  cbn [mbind option_bind nd_left nd_right nd_parent].
  destruct (unlink_ok _ _ _ _ _ _ Hrep) as (s1 & -> & R1 & U1). cbn [mbind option_bind].
  assert (Hnd : NoDup (z :: ctx_nodes k ++ inorder l ++ inorder r)).
  { pose proof (rp_nodup _ _ _ Hrep) as Hnd. unfold zip_nodes in Hnd. simpl in Hnd.
    by rewrite !app_assoc, <- Permutation_middle, <- !app_assoc in Hnd. }
  apply NoDup_cons in Hnd as [Hzn _].
  assert (HS : forall w, w ∈ zip_nodes k (without c l r) <-> w ∈ ctx_nodes k ++ inorder l ++ inorder r).
  { intros w. unfold zip_nodes. by rewrite inorder_without. }
  assert (HSz : forall w, w ∈ inorder (plug k (T c l z r)) <-> w = z \/ w ∈ ctx_nodes k ++ inorder l ++ inorder r).
  { intros w. rewrite <- zip_nodes_plug. unfold zip_nodes. simpl. set_solver. }
  assert (Hc : exists s2, match rb_root s1 with Some r => set_color s1 r 0 | None => Some s1 end = Some s2 /\
                 rep s2 [] (remove_tree k c l r) /\ unch (ctx_nodes k ++ inorder l ++ inorder r) s1 s2).
  { rewrite rep_plug in R1. rewrite (rp_ctx _ _ _ R1 : rb_root s1 = _). unfold remove_tree.
    destruct (rootp (plug k (without c l r))) as [r0|] eqn:Hr0.
    - destruct (set_color_ok s1 [] _ r0 0 R1 Hr0) as (s2 & -> & R2 & U2). exists s2. split_and!; [done|done|].
      eapply unch_sub; [|exact U2]. intros w Hw. apply HS. rewrite zip_nodes_plug. exact Hw.
    - exists s1. split_and!; [done| |done]. by destruct (plug k (without c l r)). }
  destruct Hc as (s2 & -> & R2 & U2). cbn [mbind option_bind].
  assert (Hz2 : rb_heap s2 !! z = Some (mk_node (ctx_parent k) (rootp l) (rootp r) c)) by (rewrite U2, U1 by done; done).
  destruct (upd_ok s2 z _ (fun n => mk_node None None None (nd_color n)) Hz2) as (s3 & -> & Hr3 & Hz3 & U3).
  exists s3. split_and!; [done| |done|].
  - destruct R2 as [Hk2 Ht2 Hnd2]. constructor; [simpl in *; congruence| |done].
    eapply tree_unch; [exact U3| |exact Ht2]. intros w Hw ->%list_elem_of_singleton. apply Hzn, HS.
    rewrite zip_nodes_plug. unfold remove_tree in Hw. by rewrite inorder_tset in Hw.
  - intros w Hw. rewrite HSz in Hw. rewrite U3, U2, U1; [done|tauto|tauto|set_solver].
Qed.

(** Every node of a tree can be brought into focus. *)
Lemma focus t z : z ∈ inorder t -> exists k c l r, t = plug k (T c l z r).
Proof.
  assert (Hg : forall t k, z ∈ inorder t -> exists k' c l r, plug k t = plug k' (T c l z r)).
  { clear. induction t as [|c l IHl x r IHr]; intros k Hz; simpl in Hz; [by apply not_elem_of_nil in Hz|].
    apply elem_of_app in Hz as [Hz|[->|Hz]%elem_of_cons].
    - apply (IHl (FL c x r :: k) Hz).
    - by do 4 eexists.
    - apply (IHr (FR c l x :: k) Hz). }
  apply (Hg t []).
Qed.

(** ** The red-black conditions *)

(** [rb n t]: no red node has a red child, and every path to a leaf has [n] black
    nodes.  Colours other than 1 count as black, as in the code. *)
Fixpoint rb (n : nat) (t : tree) : Prop :=
  match t with
  | E => n = O
  | T c l _ r =>
      if c =? 1 then tcolor l <> 1 /\ tcolor r <> 1 /\ rb n l /\ rb n r
      else match n with O => False | S n' => rb n' l /\ rb n' r end
  end.

Definition black_top (k : list frame) : Prop := match k with [] => True | f :: _ => frame_color f <> 1 end.

(** The conditions on the nodes around a hole for a tree of black height [n]. *)
Fixpoint rbk (n : nat) (k : list frame) : Prop :=
  match k with
  | [] => True
  | f :: k' =>
      rb n (frame_tree f) /\
      if frame_color f =? 1 then tcolor (frame_tree f) <> 1 /\ black_top k' /\ rbk n k' else rbk (S n) k'
  end.

Fixpoint height (t : tree) : nat := match t with E => O | T _ l _ r => S (Nat.max (height l) (height r)) end.

Lemma rb_fill n f k t :
  rbk n (f :: k) -> rb n t -> (tcolor t = 1 -> black_top (f :: k)) ->
  exists m, rb m (fill f t) /\ rbk m k /\ (tcolor (fill f t) = 1 -> black_top k).
Proof.
  intros [Hf Hk] Ht Hred. simpl in Hred.
  destruct f as [c x r|c l x]; simpl in *; destruct (Z.eqb_spec c 1); destruct_and?.
  - exists n. split_and!; try done. intros ?. tauto.
  - by exists (S n).
  - exists n. split_and!; try done. intros ?. tauto.
  - by exists (S n).
Qed.

Lemma rb_plug n k t : rbk n k -> rb n t -> (tcolor t = 1 -> black_top k) -> exists m, rb m (plug k t).
Proof.
  revert n t. induction k as [|f k IH]; intros n t Hk Ht Hred; [by exists n|].
  destruct (rb_fill n f k t Hk Ht Hred) as (m & Hm & Hkm & Hc). by apply (IH m (fill f t)).
Qed.

Lemma rb_blacken n t : rb n t -> exists m, rb m (tset 0 t).
Proof.
  destruct t as [|c l x r]; simpl; [by exists n|]. destruct (c =? 1); intros H.
  - exists (S n). tauto.
  - by exists n.
Qed.

Lemma rb_tset0 n t : t <> E -> rb n t -> tcolor t = 1 -> rb (S n) (tset 0 t).
Proof. destruct t as [|c l x r]; [done|]. simpl. intros _ H ->. simpl in H. tauto. Qed.

Lemma rb_red_fill n f t : rb n (frame_tree f) -> rb n t -> rb (S n) (tset 0 (fill f t)).
Proof. by destruct f. Qed.

(** The repair makes a red-black tree of one whose only fault is a red node with a
    red parent in focus. *)
Lemma rb_fixed m n k t :
  (length k <= m)%nat -> rbk n k -> rb n t -> tcolor t = 1 -> exists n', rb n' (fixed k t).
Proof.
  revert n k t. induction m as [|m IH]; intros n [|f [|g k]] t Hlen Hk Ht Hred; simpl in Hlen; try lia.
  - by apply (rb_blacken n).
  - by apply (rb_blacken n).
  - unfold fixed. simpl. destruct Hk as [Hf Hk]. destruct (Z.eqb_spec (frame_color f) 1) as [Hc|Hc].
    + exists (S n). by apply rb_red_fill.
    + destruct (rb_fill n f [] t) as (n' & Hn' & _); [by split; [|destruct (Z.eqb_spec (frame_color f) 1)]|done|done|].
      by apply (rb_blacken n').
  - destruct (Z.eqb_spec (frame_color f) 1) as [Hc|Hc].
    2:{ unfold fixed. cbn [fix_zip]. destruct (Z.eqb_spec (frame_color f) 1); [done|].
        destruct (rb_plug n (f :: g :: k) t Hk Ht) as [n' Hn']; [done|]. by apply (rb_blacken n'). }
    destruct Hk as [Hf Hk]. rewrite Hc in Hk. simpl in Hk. destruct Hk as (Hfb & Hgb & Hg & Hk).
    destruct (Z.eqb_spec (frame_color g) 1); [done|].
    pose proof (rb_red_fill n f t Hf Ht) as Hp.
    assert (Hstep : (if tcolor (frame_tree g) =? 1 then
        exists t', fixed (f :: g :: k) t = fixed k t' /\ rb (S n) t' /\ tcolor t' = 1
      else exists t', fixed (f :: g :: k) t = tset 0 (plug k t') /\ rb (S n) t' /\ tcolor t' = 0)).
    { unfold fixed. cbn [fix_zip]. rewrite Hc. cbn [Z.eqb Pos.eqb].
      destruct g as [cg xg u|cg u xg]; simpl in Hg |- *;
        (destruct (Z.eqb_spec (tcolor u) 1) as [Hu|Hu]; [eexists; split; [done|]|eexists; split; [done|]]).
      - split; [|done]. simpl. assert (u <> E) by (by destruct u). split_and!; [by destruct f|by destruct u|done|].
        by apply rb_tset0.
      - destruct f as [c xp b|c b xp]; simpl in *; [done|]. destruct t as [|ct l z r]; [done|]. simpl in *. subst. simpl in *. tauto.
      - split; [|done]. simpl. assert (u <> E) by (by destruct u). split_and!; [by destruct u|by destruct f| |done].
        by apply rb_tset0.
      - destruct f as [c xp b|c b xp]; simpl in *; [|done]. destruct t as [|ct l z r]; [done|]. simpl in *. subst. simpl in *. tauto. }
    destruct (tcolor (frame_tree g) =? 1).
    + destruct Hstep as (t' & -> & Ht' & Hr'). apply (IH (S n) k t'); [lia|done|done|done].
    + destruct Hstep as (t' & -> & Ht' & Hr'). destruct (rb_plug (S n) k t' Hk Ht') as [n' Hn']; [congruence|].
      by apply (rb_blacken n').
Qed.

Lemma rbk_ins_ctx pri key n t k :
  rb n t -> rbk n k -> (tcolor t = 1 -> black_top k) -> rbk 0 (ins_ctx pri key t k).
Proof.
  revert n k. induction t as [|c l IHl x r IHr]; intros n k Ht Hk Hc; simpl in *; [by subst|].
  destruct (Z.eqb_spec c 1) as [->|Hne].
  - destruct Ht as (Hlb & Hrb & Hl & Hr). specialize (Hc eq_refl).
    destruct (key <? pri x); [apply (IHl n)|apply (IHr n)]; simpl; try tauto.
  - destruct n as [|n]; [done|]. destruct Ht as [Hl Hr].
    destruct (key <? pri x); [apply (IHl n)|apply (IHr n)]; simpl; rewrite ?(proj2 (Z.eqb_neq c 1) Hne); try done.
Qed.

Lemma insert_tree_rb pri z key n t : rb n t -> exists m, rb m (insert_tree pri z key t).
Proof.
  intros Ht. unfold insert_tree. eapply (rb_fixed _ 0); [done| |done|done].
  by apply (rbk_ins_ctx pri key n).
Qed.

Lemma rb_height n t : rb n t -> (height t <= 2 * n + (if (tcolor t =? 1)%Z then 1 else 0))%nat.
Proof.
  revert n. induction t as [|c l IHl x r IHr]; intros n Ht; simpl in *; [lia|].
  destruct (Z.eqb_spec c 1).
  - destruct Ht as (Hl & Hr & Hnl & Hnr). apply IHl in Hnl. apply IHr in Hnr.
    rewrite (proj2 (Z.eqb_neq _ _) Hl) in Hnl. rewrite (proj2 (Z.eqb_neq _ _) Hr) in Hnr. lia.
  - destruct n as [|n]; [done|]. destruct Ht as [Hl Hr]. apply IHl in Hl. apply IHr in Hr.
    repeat case_match; lia.
Qed.

Lemma rb_size n t : rb n t -> (2 ^ n <= S (length (inorder t)))%nat.
Proof.
  revert n. induction t as [|c l IHl x r IHr]; intros n Ht; simpl in *; [by subst|].
  rewrite length_app. simpl. destruct (c =? 1).
  - destruct Ht as (_ & _ & Hl & Hr). apply IHl in Hl. lia.
  - destruct n as [|n]; [done|]. destruct Ht as [Hl Hr]. apply IHl in Hl. apply IHr in Hr. simpl. lia.
Qed.

(** A red-black tree with a black root is balanced. *)
Lemma rb_balanced n t :
  rb n t -> tcolor t <> 1 -> (height t <= 2 * Nat.log2 (S (length (inorder t))))%nat.
Proof.
  intros Ht Hc. pose proof (rb_height n t Ht) as Hh. rewrite (proj2 (Z.eqb_neq _ _) Hc) in Hh.
  pose proof (Nat.log2_le_mono _ _ (rb_size n t Ht)) as Hs. rewrite Nat.log2_pow2 in Hs by lia. lia.
Qed.

Lemma insert_tree_black pri z key t : tcolor (insert_tree pri z key t) = 0.
Proof.
  unfold insert_tree, fixed. set (t1 := plug _ _). assert (Hne : t1 <> E).
  { intros He. pose proof (inorder_fix_zip _ (ins_ctx pri key t []) (T 1 E z E) (le_n _) ltac:(done)) as Hin.
    fold t1 in Hin. rewrite He in Hin. rewrite inorder_plug in Hin. apply (f_equal length) in Hin.
    rewrite length_app in Hin. simpl in Hin. lia. }
  by destruct t1.
Qed.

(** ** A queue of three processes *)

Definition demo_pri (x : nat) : Z := match x with 1%nat => 10 | 2%nat => 20 | 3%nat => 30 | 4%nat => 20 | _ => 0 end.

Definition demo_queue : rb_st :=
  mk_rb (Some 2%nat)
    (<[1%nat := mk_node (Some 2%nat) None None 1]> (<[2%nat := mk_node None (Some 1%nat) (Some 3%nat) 0]>
      (<[3%nat := mk_node (Some 2%nat) None None 1]> (<[4%nat := mk_node None None None 0]> ∅)))).

Definition demo_tree : tree := T 0 (T 1 E 1%nat E) 2%nat (T 1 E 3%nat E).

Lemma demo_rep : rep demo_queue [] demo_tree.
Proof.
  constructor; [done|by split_and!|]. unfold zip_nodes. simpl. repeat constructor; set_solver.
Qed.

Lemma demo_sorted : StronglySorted (pri_le demo_pri) (inorder demo_tree).
Proof. repeat constructor; unfold pri_le; simpl; lia. Qed.

(** Without the repair that the comment in [rb_remove_node] refers to, removing a
    black leaf leaves paths with different numbers of black nodes. *)
Lemma remove_breaks_red_black :
  let t := T 0 (T 0 E 1%nat E) 2%nat (T 0 E 3%nat E) in
  rb 2 t /\ t = plug [FL 0 2%nat (T 0 E 3%nat E)] (T 0 E 1%nat E) /\
  forall n, ~ rb n (remove_tree [FL 0 2%nat (T 0 E 3%nat E)] 0 E E).
Proof. split_and!; [simpl; tauto|done|]. intros [|[|[|n]]]; simpl; intros H; try done; destruct H as [H1 H2]; try done; destruct H2; done. Qed.

(** ** Properties *)

(** C29: [rb_insert] of a node that is in no tree into a run queue tree sorted by
    priority terminates without following a null pointer.  The links form a tree
    again, the new node stands after all nodes of its priority or a smaller value
    and before the others, whose order is kept, and no node outside is touched. *)
Theorem rb_insert_ok pri s t z n0 :
  rep s [] t -> StronglySorted (pri_le pri) (inorder t) -> rb_heap s !! z = Some n0 -> z ∉ inorder t ->
  exists s' t', rb_insert pri s z (pri z) = Some s' /\ rep s' [] t' /\
    inorder t' = ins_list pri z (pri z) (inorder t) /\ StronglySorted (pri_le pri) (inorder t') /\
    unch (z :: inorder t) s s'.
Proof.
  intros Hrep Hs Hz Hnin. destruct (insert_ok pri s t z (pri z) n0 Hrep Hz Hnin) as (s' & He & R & U).
  exists s', (insert_tree pri z (pri z) t). rewrite inorder_insert_tree by done.
  split_and!; [done|done|done|by apply ins_list_sorted|done].
Qed.

Lemma rb_insert_ok_witness :
  exists s' t', rb_insert demo_pri demo_queue 4 (demo_pri 4) = Some s' /\ rep s' [] t' /\
    inorder t' = ins_list demo_pri 4 (demo_pri 4) (inorder demo_tree) /\
    StronglySorted (pri_le demo_pri) (inorder t') /\ unch (4%nat :: inorder demo_tree) demo_queue s'.
Proof.
  apply (rb_insert_ok demo_pri demo_queue demo_tree 4 (mk_node None None None 0)).
  - apply demo_rep.
  - apply demo_sorted.
  - reflexivity.
  - simpl. set_solver.
Defined.

(** If the tree satisfies the red-black conditions, it does so after [rb_insert],
    has a black root, and its height is at most twice the logarithm of its size. *)
Theorem rb_insert_balanced pri s t z key n0 n :
  rep s [] t -> rb n t -> rb_heap s !! z = Some n0 -> z ∉ inorder t ->
  exists s' t' m, rb_insert pri s z key = Some s' /\ rep s' [] t' /\ rb m t' /\ tcolor t' = 0 /\
    (height t' <= 2 * Nat.log2 (S (length (inorder t'))))%nat.
Proof.
  intros Hrep Ht Hz Hnin. destruct (insert_ok pri s t z key n0 Hrep Hz Hnin) as (s' & He & R & U).
  destruct (insert_tree_rb pri z key n t Ht) as [m Hm]. pose proof (insert_tree_black pri z key t) as Hb.
  exists s', (insert_tree pri z key t), m. split_and!; try done. apply (rb_balanced m); [done|congruence].
Qed.

Lemma rb_insert_balanced_witness :
  exists s' t' m, rb_insert demo_pri demo_queue 4 20 = Some s' /\ rep s' [] t' /\ rb m t' /\ tcolor t' = 0 /\
    (height t' <= 2 * Nat.log2 (S (length (inorder t'))))%nat.
Proof.
  apply (rb_insert_balanced demo_pri demo_queue demo_tree 4 20 (mk_node None None None 0) 1).
  - apply demo_rep.
  - simpl. split_and!; done.
  - reflexivity.
  - simpl. set_solver.
Defined.

(** C36: [rb_remove_node] of a node of a tree terminates without following a null
    pointer; the links form a tree again in which exactly that node is missing and
    the others keep their order, the links of the removed node are null, and no
    node outside the tree is touched. *)
Theorem rb_remove_node_ok s t z :
  rep s [] t -> z ∈ inorder t ->
  exists s' t' l1 l2 c, rb_remove_node s z = Some s' /\ rep s' [] t' /\
    inorder t = l1 ++ z :: l2 /\ inorder t' = l1 ++ l2 /\
    rb_heap s' !! z = Some (mk_node None None None c) /\ unch (inorder t) s s'.
Proof.
  intros Hrep Hz. destruct (focus t z Hz) as (k & c & l & r & ->). rewrite <- rep_plug in Hrep.
  destruct (remove_ok _ _ _ _ _ _ Hrep) as (s' & He & R & Hz' & U).
  exists s', (remove_tree k c l r), (cleft k ++ inorder l), (inorder r ++ cright k), c.
  split_and!; try done.
  - rewrite inorder_plug. simpl. by rewrite <- !app_assoc.
  - unfold remove_tree. rewrite inorder_tset, inorder_plug, inorder_without. by rewrite <- !app_assoc.
Qed.

Lemma rb_remove_node_ok_witness :
  exists s' t' l1 l2 c, rb_remove_node demo_queue 2 = Some s' /\ rep s' [] t' /\
    inorder demo_tree = l1 ++ 2%nat :: l2 /\ inorder t' = l1 ++ l2 /\
    rb_heap s' !! 2%nat = Some (mk_node None None None c) /\ unch (inorder demo_tree) demo_queue s'.
Proof.
  apply (rb_remove_node_ok demo_queue demo_tree 2).
  - apply demo_rep.
  - simpl. set_solver.
Defined.
