(* ===== verification/Sched.v ===== *)
(** * The scheduler (src/kernel/sched/sched.c, sched.h)

    Process control blocks are numbered: 0 to 4095 are the process table, then come
    the idle blocks of the CPUs, then the bootstrap block; the red-black node of a
    block has the number of the block.  The run queues share one heap of nodes with
    a root per class.  A spin lock that is already held never becomes free in the
    sequential model, so taking it is [None], like a null dereference.  The switch
    of the register context is an outcome; the clock, [kmalloc] and
    [amm_vmap_create] are arguments, and the frees of stacks and address spaces are
    recorded.  [g_proc_table_lock] is taken and released around straight code and is
    not modelled. *)

From Stdlib Require Import ZArith Lia Sorting.Sorted.
From stdpp Require Import base strings gmap list.
From S2P Require Import Prelude KString RbTree.

Local Open Scope Z_scope.

Definition MAX_PROCS : Z := 4096.
Definition MAX_CPUS : Z := 64.
Definition SCHED_STEAL_THRESHOLD : Z := 2.
Definition SCHED_QUANTUM_INTR_NS : Z := 4000000.
Definition SCHED_QUANTUM_BATCH_NS : Z := 50000000.
Definition SCHED_BOOST : Z := 20.
Definition SCHED_NAME_LEN : nat := 32.
Definition SCHED_RT : Z := 0.
Definition SCHED_INTR : Z := 1.
Definition SCHED_BATCH : Z := 2.
Definition PROC_NEW : Z := 0.
Definition PROC_READY : Z := 1.
Definition PROC_RUN : Z := 2.
Definition PROC_WAIT : Z := 3.
Definition PROC_DEAD : Z := 4.
Definition SCHED_KSTACK_SIZE : Z := 64 * 1024.
Definition SCHED_BOOTSTRAP_KSTACK_SIZE : Z := 2 * 1024 * 1024.
Definition SCHED_STATE_MAGIC : Z := 0x5348454D.
Definition UINT64_MAX : Z := 2 ^ 64 - 1.

(** The registers that the scheduler reads or writes. *)
Record cpu_context_t := mk_regs {
  rg_rip : Z;
  rg_rsp : Z;
  rg_rflags : Z;
  rg_cr3 : Z;
  rg_cs : Z;
  rg_ss : Z;
}.

Record pcb_t := mk_pcb {
  pc_pid : Z;
  pc_state : Z;
  pc_sched_class : Z;
  pc_cpu : Z;
  pc_priority : Z;
  pc_base_pri : Z;
  pc_cpu_ns : Z;
  pc_wake_ns : Z;
  pc_deadline_ns : Z;
  pc_va_map : option Z;
  pc_exit_code : Z;
  pc_name : list Z;
  pc_uid : Z;
  pc_gid : Z;
  pc_groups : Z;
  pc_kstack : option Z;
  pc_kstack_top : Z;
  pc_regs : cpu_context_t;
}.

Definition set_state_of (p : pcb_t) (v : Z) : pcb_t :=
  mk_pcb (pc_pid p) v (pc_sched_class p) (pc_cpu p) (pc_priority p) (pc_base_pri p) (pc_cpu_ns p) (pc_wake_ns p) (pc_deadline_ns p) (pc_va_map p) (pc_exit_code p) (pc_name p) (pc_uid p) (pc_gid p) (pc_groups p) (pc_kstack p) (pc_kstack_top p) (pc_regs p).
Definition set_sched_class_of (p : pcb_t) (v : Z) : pcb_t :=
  mk_pcb (pc_pid p) (pc_state p) v (pc_cpu p) (pc_priority p) (pc_base_pri p) (pc_cpu_ns p) (pc_wake_ns p) (pc_deadline_ns p) (pc_va_map p) (pc_exit_code p) (pc_name p) (pc_uid p) (pc_gid p) (pc_groups p) (pc_kstack p) (pc_kstack_top p) (pc_regs p).
Definition set_cpu_of (p : pcb_t) (v : Z) : pcb_t :=
  mk_pcb (pc_pid p) (pc_state p) (pc_sched_class p) v (pc_priority p) (pc_base_pri p) (pc_cpu_ns p) (pc_wake_ns p) (pc_deadline_ns p) (pc_va_map p) (pc_exit_code p) (pc_name p) (pc_uid p) (pc_gid p) (pc_groups p) (pc_kstack p) (pc_kstack_top p) (pc_regs p).
Definition set_priority_of (p : pcb_t) (v : Z) : pcb_t :=
  mk_pcb (pc_pid p) (pc_state p) (pc_sched_class p) (pc_cpu p) v (pc_base_pri p) (pc_cpu_ns p) (pc_wake_ns p) (pc_deadline_ns p) (pc_va_map p) (pc_exit_code p) (pc_name p) (pc_uid p) (pc_gid p) (pc_groups p) (pc_kstack p) (pc_kstack_top p) (pc_regs p).
Definition set_base_pri_of (p : pcb_t) (v : Z) : pcb_t :=
  mk_pcb (pc_pid p) (pc_state p) (pc_sched_class p) (pc_cpu p) (pc_priority p) v (pc_cpu_ns p) (pc_wake_ns p) (pc_deadline_ns p) (pc_va_map p) (pc_exit_code p) (pc_name p) (pc_uid p) (pc_gid p) (pc_groups p) (pc_kstack p) (pc_kstack_top p) (pc_regs p).
Definition set_wake_ns_of (p : pcb_t) (v : Z) : pcb_t :=
  mk_pcb (pc_pid p) (pc_state p) (pc_sched_class p) (pc_cpu p) (pc_priority p) (pc_base_pri p) (pc_cpu_ns p) v (pc_deadline_ns p) (pc_va_map p) (pc_exit_code p) (pc_name p) (pc_uid p) (pc_gid p) (pc_groups p) (pc_kstack p) (pc_kstack_top p) (pc_regs p).
Definition set_deadline_ns_of (p : pcb_t) (v : Z) : pcb_t :=
  mk_pcb (pc_pid p) (pc_state p) (pc_sched_class p) (pc_cpu p) (pc_priority p) (pc_base_pri p) (pc_cpu_ns p) (pc_wake_ns p) v (pc_va_map p) (pc_exit_code p) (pc_name p) (pc_uid p) (pc_gid p) (pc_groups p) (pc_kstack p) (pc_kstack_top p) (pc_regs p).
Definition set_va_map_of (p : pcb_t) (v : option Z) : pcb_t :=
  mk_pcb (pc_pid p) (pc_state p) (pc_sched_class p) (pc_cpu p) (pc_priority p) (pc_base_pri p) (pc_cpu_ns p) (pc_wake_ns p) (pc_deadline_ns p) v (pc_exit_code p) (pc_name p) (pc_uid p) (pc_gid p) (pc_groups p) (pc_kstack p) (pc_kstack_top p) (pc_regs p).
Definition set_exit_code_of (p : pcb_t) (v : Z) : pcb_t :=
  mk_pcb (pc_pid p) (pc_state p) (pc_sched_class p) (pc_cpu p) (pc_priority p) (pc_base_pri p) (pc_cpu_ns p) (pc_wake_ns p) (pc_deadline_ns p) (pc_va_map p) v (pc_name p) (pc_uid p) (pc_gid p) (pc_groups p) (pc_kstack p) (pc_kstack_top p) (pc_regs p).
Definition set_kstack_of (p : pcb_t) (v : option Z) : pcb_t :=
  mk_pcb (pc_pid p) (pc_state p) (pc_sched_class p) (pc_cpu p) (pc_priority p) (pc_base_pri p) (pc_cpu_ns p) (pc_wake_ns p) (pc_deadline_ns p) (pc_va_map p) (pc_exit_code p) (pc_name p) (pc_uid p) (pc_gid p) (pc_groups p) v (pc_kstack_top p) (pc_regs p).
Definition set_kstack_top_of (p : pcb_t) (v : Z) : pcb_t :=
  mk_pcb (pc_pid p) (pc_state p) (pc_sched_class p) (pc_cpu p) (pc_priority p) (pc_base_pri p) (pc_cpu_ns p) (pc_wake_ns p) (pc_deadline_ns p) (pc_va_map p) (pc_exit_code p) (pc_name p) (pc_uid p) (pc_gid p) (pc_groups p) (pc_kstack p) v (pc_regs p).
Definition set_pid_of (p : pcb_t) (v : Z) : pcb_t :=
  mk_pcb v (pc_state p) (pc_sched_class p) (pc_cpu p) (pc_priority p) (pc_base_pri p) (pc_cpu_ns p) (pc_wake_ns p) (pc_deadline_ns p) (pc_va_map p) (pc_exit_code p) (pc_name p) (pc_uid p) (pc_gid p) (pc_groups p) (pc_kstack p) (pc_kstack_top p) (pc_regs p).
Definition set_ids_of (p : pcb_t) (uid gid : Z) : pcb_t :=
  mk_pcb (pc_pid p) (pc_state p) (pc_sched_class p) (pc_cpu p) (pc_priority p) (pc_base_pri p) (pc_cpu_ns p) (pc_wake_ns p) (pc_deadline_ns p) (pc_va_map p) (pc_exit_code p) (pc_name p) uid gid (pc_groups p) (pc_kstack p) (pc_kstack_top p) (pc_regs p).
Definition set_regs_of (p : pcb_t) (v : cpu_context_t) : pcb_t :=
  mk_pcb (pc_pid p) (pc_state p) (pc_sched_class p) (pc_cpu p) (pc_priority p) (pc_base_pri p) (pc_cpu_ns p) (pc_wake_ns p) (pc_deadline_ns p) (pc_va_map p) (pc_exit_code p) (pc_name p) (pc_uid p) (pc_gid p) (pc_groups p) (pc_kstack p) (pc_kstack_top p) v.

Definition zero_pcb : pcb_t :=
  mk_pcb 0 0 0 0 0 0 0 0 0 None 0 (replicate SCHED_NAME_LEN 0) 0 0 0 None 0 (mk_regs 0 0 0 0 0 0).

Record runq_t := mk_runq {
  rq_lock : bool;
  rq_cpu_id : Z;
  rq_rt_tree : option nat;
  rq_intr_tree : option nat;
  rq_batch_tree : option nat;
  rq_rt_count : Z;
  rq_intr_count : Z;
  rq_batch_count : Z;
  rq_current : option nat;
  rq_idle_pcb : option nat;
  rq_steal_ns : Z;
  rq_total_ns : Z;
  rq_idle_ns : Z;
}.

Definition set_rq_lock (p : runq_t) (v : bool) : runq_t :=
  mk_runq v (rq_cpu_id p) (rq_rt_tree p) (rq_intr_tree p) (rq_batch_tree p) (rq_rt_count p) (rq_intr_count p) (rq_batch_count p) (rq_current p) (rq_idle_pcb p) (rq_steal_ns p) (rq_total_ns p) (rq_idle_ns p).
Definition set_rq_current (p : runq_t) (v : option nat) : runq_t :=
  mk_runq (rq_lock p) (rq_cpu_id p) (rq_rt_tree p) (rq_intr_tree p) (rq_batch_tree p) (rq_rt_count p) (rq_intr_count p) (rq_batch_count p) v (rq_idle_pcb p) (rq_steal_ns p) (rq_total_ns p) (rq_idle_ns p).
Definition set_rt (p : runq_t) (root : option nat) (n : Z) : runq_t :=
  mk_runq (rq_lock p) (rq_cpu_id p) root (rq_intr_tree p) (rq_batch_tree p) n (rq_intr_count p) (rq_batch_count p) (rq_current p) (rq_idle_pcb p) (rq_steal_ns p) (rq_total_ns p) (rq_idle_ns p).
Definition set_intr (p : runq_t) (root : option nat) (n : Z) : runq_t :=
  mk_runq (rq_lock p) (rq_cpu_id p) (rq_rt_tree p) root (rq_batch_tree p) (rq_rt_count p) n (rq_batch_count p) (rq_current p) (rq_idle_pcb p) (rq_steal_ns p) (rq_total_ns p) (rq_idle_ns p).
Definition set_batch (p : runq_t) (root : option nat) (n : Z) : runq_t :=
  mk_runq (rq_lock p) (rq_cpu_id p) (rq_rt_tree p) (rq_intr_tree p) root (rq_rt_count p) (rq_intr_count p) n (rq_current p) (rq_idle_pcb p) (rq_steal_ns p) (rq_total_ns p) (rq_idle_ns p).

(** One CPU's part of the shared state page. *)
Record cpu_state_t := mk_cpu_state {
  cs_rt_count : Z;
  cs_intr_count : Z;
  cs_batch_count : Z;
  cs_current_pid : Z;
  cs_idle_ns : Z;
  cs_busy_ns : Z;
}.

Record sched_state_t := mk_sched_state {
  ss_magic : Z;
  ss_cpu_count : Z;
  ss_cpus : list cpu_state_t;
  ss_total_procs : Z;
  ss_seq : Z;
}.

(** The variables of sched.c, the loaded CR3, the thread last passed to
    [syscall_on_thread_switch], and the frees. *)
Record sched_st := mk_sched {
  sc_runq : list runq_t;
  sc_cpu_count : Z;
  sc_pcbs : gmap nat pcb_t;
  sc_nodes : gmap nat rb_node_t;
  sc_next_pid : Z;
  sc_proc_count : Z;
  sc_state : sched_state_t;
  sc_current : list (option nat);
  sc_reap_waiter : option nat;
  sc_reap_jmp : bool;
  sc_cr3 : Z;
  sc_thread : option nat;
  sc_freed_stacks : list Z;
  sc_freed_maps : list Z;
}.

Definition set_sc_runq (s : sched_st) (v : list runq_t) : sched_st :=
  mk_sched v (sc_cpu_count s) (sc_pcbs s) (sc_nodes s) (sc_next_pid s) (sc_proc_count s) (sc_state s) (sc_current s) (sc_reap_waiter s) (sc_reap_jmp s) (sc_cr3 s) (sc_thread s) (sc_freed_stacks s) (sc_freed_maps s).
Definition set_sc_cpu_count (s : sched_st) (v : Z) : sched_st :=
  mk_sched (sc_runq s) v (sc_pcbs s) (sc_nodes s) (sc_next_pid s) (sc_proc_count s) (sc_state s) (sc_current s) (sc_reap_waiter s) (sc_reap_jmp s) (sc_cr3 s) (sc_thread s) (sc_freed_stacks s) (sc_freed_maps s).
Definition set_sc_pcbs (s : sched_st) (v : gmap nat pcb_t) : sched_st :=
  mk_sched (sc_runq s) (sc_cpu_count s) v (sc_nodes s) (sc_next_pid s) (sc_proc_count s) (sc_state s) (sc_current s) (sc_reap_waiter s) (sc_reap_jmp s) (sc_cr3 s) (sc_thread s) (sc_freed_stacks s) (sc_freed_maps s).
Definition set_sc_nodes (s : sched_st) (v : gmap nat rb_node_t) : sched_st :=
  mk_sched (sc_runq s) (sc_cpu_count s) (sc_pcbs s) v (sc_next_pid s) (sc_proc_count s) (sc_state s) (sc_current s) (sc_reap_waiter s) (sc_reap_jmp s) (sc_cr3 s) (sc_thread s) (sc_freed_stacks s) (sc_freed_maps s).
Definition set_sc_next_pid (s : sched_st) (v : Z) : sched_st :=
  mk_sched (sc_runq s) (sc_cpu_count s) (sc_pcbs s) (sc_nodes s) v (sc_proc_count s) (sc_state s) (sc_current s) (sc_reap_waiter s) (sc_reap_jmp s) (sc_cr3 s) (sc_thread s) (sc_freed_stacks s) (sc_freed_maps s).
Definition set_sc_proc_count (s : sched_st) (v : Z) : sched_st :=
  mk_sched (sc_runq s) (sc_cpu_count s) (sc_pcbs s) (sc_nodes s) (sc_next_pid s) v (sc_state s) (sc_current s) (sc_reap_waiter s) (sc_reap_jmp s) (sc_cr3 s) (sc_thread s) (sc_freed_stacks s) (sc_freed_maps s).
Definition set_sc_state (s : sched_st) (v : sched_state_t) : sched_st :=
  mk_sched (sc_runq s) (sc_cpu_count s) (sc_pcbs s) (sc_nodes s) (sc_next_pid s) (sc_proc_count s) v (sc_current s) (sc_reap_waiter s) (sc_reap_jmp s) (sc_cr3 s) (sc_thread s) (sc_freed_stacks s) (sc_freed_maps s).
Definition set_sc_current (s : sched_st) (v : list (option nat)) : sched_st :=
  mk_sched (sc_runq s) (sc_cpu_count s) (sc_pcbs s) (sc_nodes s) (sc_next_pid s) (sc_proc_count s) (sc_state s) v (sc_reap_waiter s) (sc_reap_jmp s) (sc_cr3 s) (sc_thread s) (sc_freed_stacks s) (sc_freed_maps s).
Definition set_sc_reap_waiter (s : sched_st) (v : option nat) : sched_st :=
  mk_sched (sc_runq s) (sc_cpu_count s) (sc_pcbs s) (sc_nodes s) (sc_next_pid s) (sc_proc_count s) (sc_state s) (sc_current s) v (sc_reap_jmp s) (sc_cr3 s) (sc_thread s) (sc_freed_stacks s) (sc_freed_maps s).
Definition set_sc_reap_jmp (s : sched_st) (v : bool) : sched_st :=
  mk_sched (sc_runq s) (sc_cpu_count s) (sc_pcbs s) (sc_nodes s) (sc_next_pid s) (sc_proc_count s) (sc_state s) (sc_current s) (sc_reap_waiter s) v (sc_cr3 s) (sc_thread s) (sc_freed_stacks s) (sc_freed_maps s).
Definition set_sc_cr3 (s : sched_st) (v : Z) : sched_st :=
  mk_sched (sc_runq s) (sc_cpu_count s) (sc_pcbs s) (sc_nodes s) (sc_next_pid s) (sc_proc_count s) (sc_state s) (sc_current s) (sc_reap_waiter s) (sc_reap_jmp s) v (sc_thread s) (sc_freed_stacks s) (sc_freed_maps s).
Definition set_sc_thread (s : sched_st) (v : option nat) : sched_st :=
  mk_sched (sc_runq s) (sc_cpu_count s) (sc_pcbs s) (sc_nodes s) (sc_next_pid s) (sc_proc_count s) (sc_state s) (sc_current s) (sc_reap_waiter s) (sc_reap_jmp s) (sc_cr3 s) v (sc_freed_stacks s) (sc_freed_maps s).
Definition set_sc_freed_stacks (s : sched_st) (v : list Z) : sched_st :=
  mk_sched (sc_runq s) (sc_cpu_count s) (sc_pcbs s) (sc_nodes s) (sc_next_pid s) (sc_proc_count s) (sc_state s) (sc_current s) (sc_reap_waiter s) (sc_reap_jmp s) (sc_cr3 s) (sc_thread s) v (sc_freed_maps s).
Definition set_sc_freed_maps (s : sched_st) (v : list Z) : sched_st :=
  mk_sched (sc_runq s) (sc_cpu_count s) (sc_pcbs s) (sc_nodes s) (sc_next_pid s) (sc_proc_count s) (sc_state s) (sc_current s) (sc_reap_waiter s) (sc_reap_jmp s) (sc_cr3 s) (sc_thread s) (sc_freed_stacks s) v.

(** [&g_idle_pcb[i]] and [&g_bootstrap_pcb] *)
Definition idle_pcb (i : nat) : nat := (4096 + i)%nat.
Definition bootstrap_pcb : nat := 4160.

(** The priority read through RB_PCB. *)
Definition pri (st : sched_st) (x : nat) : Z := default 0 (pc_priority <$> sc_pcbs st !! x).

Definition upd_pcb (st : sched_st) (p : nat) (f : pcb_t -> pcb_t) : option sched_st :=
  pc ← sc_pcbs st !! p;
  Some (set_sc_pcbs st (<[p := f pc]> (sc_pcbs st))).

Definition upd_rq (st : sched_st) (cpu : nat) (f : runq_t -> runq_t) : option sched_st :=
  rq ← sc_runq st !! cpu;
  Some (set_sc_runq st (<[cpu := f rq]> (sc_runq st))).

Definition spin_lock (st : sched_st) (cpu : nat) : option sched_st :=
  rq ← sc_runq st !! cpu;
  if rq_lock rq then None else upd_rq st cpu (fun rq => set_rq_lock rq true).

Definition spin_unlock (st : sched_st) (cpu : nat) : option sched_st :=
  upd_rq st cpu (fun rq => set_rq_lock rq false).

(** The tree and the count that the switches on the class select. *)
Definition class_root (rq : runq_t) (cls : Z) : option nat :=
  if cls =? SCHED_RT then rq_rt_tree rq else if cls =? SCHED_INTR then rq_intr_tree rq else rq_batch_tree rq.

Definition class_count (rq : runq_t) (cls : Z) : Z :=
  if cls =? SCHED_RT then rq_rt_count rq else if cls =? SCHED_INTR then rq_intr_count rq else rq_batch_count rq.

Definition set_class (rq : runq_t) (cls : Z) (root : option nat) (n : Z) : runq_t :=
  if cls =? SCHED_RT then set_rt rq root n else if cls =? SCHED_INTR then set_intr rq root n else set_batch rq root n.

(** [rb_insert] into a tree of run queue [cpu], and [count++]. *)
Definition rq_insert (st : sched_st) (cpu : nat) (cls : Z) (p : nat) (key : Z) : option sched_st :=
  rq ← sc_runq st !! cpu;
  s ← rb_insert (pri st) (mk_rb (class_root rq cls) (sc_nodes st)) p key;
  upd_rq (set_sc_nodes st (rb_heap s)) cpu (fun rq => set_class rq cls (rb_root s) (u32 (class_count rq cls + 1))).

(** [rb_remove_node] from a tree of run queue [cpu], and [count--]. *)
Definition rq_remove (st : sched_st) (cpu : nat) (cls : Z) (p : nat) : option sched_st :=
  rq ← sc_runq st !! cpu;
  s ← rb_remove_node (mk_rb (class_root rq cls) (sc_nodes st)) p;
  upd_rq (set_sc_nodes st (rb_heap s)) cpu (fun rq => set_class rq cls (rb_root s) (u32 (class_count rq cls - 1))).

Definition rq_leftmost (st : sched_st) (cpu : nat) (cls : Z) : option (option nat) :=
  rq ← sc_runq st !! cpu;
  rb_leftmost (mk_rb (class_root rq cls) (sc_nodes st)).

(** The search for the least loaded CPU from CPU [i] on. *)
Fixpoint least_loaded (rqs : list runq_t) (i : Z) (min_load cpu : Z) : Z :=
  match rqs with
  | [] => cpu
  | rq :: rqs' =>
      let load := u32 (u32 (rq_rt_count rq + rq_intr_count rq) + rq_batch_count rq) in
      if load <? min_load then least_loaded rqs' (i + 1) load i else least_loaded rqs' (i + 1) min_load cpu
  end.

Definition pick_cpu (st : sched_st) (pc : pcb_t) : Z :=
  if sc_cpu_count st <=? pc_cpu pc
  then least_loaded (take (Z.to_nat (sc_cpu_count st)) (sc_runq st)) 0 0xFFFFFFFF 0
  else pc_cpu pc.

Definition sched_enqueue (st : sched_st) (p : nat) : option sched_st :=
  pc ← sc_pcbs st !! p;
  let cpu := pick_cpu st pc in
  st ← upd_pcb st p (fun pc => set_state_of (set_cpu_of pc (u8 cpu)) PROC_READY);
  let cpu := Z.to_nat cpu in
  st ← spin_lock st cpu;
  st ← rq_insert st cpu (pc_sched_class pc) p (pc_priority pc);
  spin_unlock st cpu.

Definition sched_takeoff_runq_locked (st : sched_st) (cpu : nat) (p : nat) : option sched_st :=
  pc ← sc_pcbs st !! p;
  if negb (pc_state pc =? PROC_READY) then Some st
  else
    rq ← sc_runq st !! cpu;
    let cls := pc_sched_class pc in
    if (class_count rq cls =? 0) || bool_decide (class_root rq cls = None) then Some st
    else
      nd ← sc_nodes st !! p;
      if bool_decide (nd_parent nd <> None) || bool_decide (class_root rq cls = Some p) then
        st ← rq_remove st cpu cls p;
        nd ← sc_nodes st !! p;
        Some (set_sc_nodes st (<[p := mk_node None None None (nd_color nd)]> (sc_nodes st)))
      else Some st.

(** [n = rb_leftmost(tree); if (n) { rb_remove_node(tree, n); count--; }] *)
Definition take_first (st : sched_st) (cpu : nat) (cls : Z) : option (option nat * sched_st) :=
  n ← rq_leftmost st cpu cls;
  match n with
  | None => Some (None, st)
  | Some x => st ← rq_remove st cpu cls x; Some (Some x, st)
  end.

Definition sched_dequeue (st : sched_st) (cpu : nat) : option (option nat * sched_st) :=
  rq ← sc_runq st !! cpu;
  '(n, st) ← (if 0 <? rq_rt_count rq then take_first st cpu SCHED_RT
              else if 0 <? rq_intr_count rq then take_first st cpu SCHED_INTR
              else if 0 <? rq_batch_count rq then take_first st cpu SCHED_BATCH
              else Some (None, st));
  Some (match n with None => rq_idle_pcb rq | Some x => Some x end, st).

(** One turn of the loop of [sched_state_update]. *)
Definition cpu_snapshot (st : sched_st) (i : nat) : option cpu_state_t :=
  rq ← sc_runq st !! i;
  cur ← sc_current st !! i;
  pid ← match cur with None => Some 0 | Some c => pc_pid <$> sc_pcbs st !! c end;
  Some (mk_cpu_state (rq_rt_count rq) (rq_intr_count rq) (rq_batch_count rq) pid (rq_idle_ns rq) (rq_total_ns rq)).

Fixpoint snapshot_loop (st : sched_st) (cpus : list cpu_state_t) (i n : nat) : option (list cpu_state_t) :=
  match n with
  | O => Some cpus
  | S n' => c ← cpu_snapshot st i; snapshot_loop st (<[i := c]> cpus) (S i) n'
  end.

Definition sched_state_update (st : sched_st) : option sched_st :=
  let ss := sc_state st in
  let seq := u32 (ss_seq ss + 1) in
  cpus ← snapshot_loop st (ss_cpus ss) 0 (Z.to_nat (sc_cpu_count st));
  Some (set_sc_state st (mk_sched_state (ss_magic ss) (ss_cpu_count ss) cpus (sc_proc_count st) (u32 (seq + 1)))).

(** Where the processor goes on: in the caller, in another thread, or after the
    [sched_jmp_save] of [sched_reap]. *)
Inductive outcome :=
| Returned
| Switched (next : nat)
| JmpBack.

Section kernel.
(** [amm_get_kernel_cr3()] and the address of [g_bootstrap_kstack]. *)
Context (kernel_cr3 bootstrap_kstack : Z).

Definition sched_load_cr3 (st : sched_st) (cr3 : Z) : sched_st :=
  set_sc_cr3 st (if cr3 =? 0 then kernel_cr3 else cr3).

(** The part that [sched_switch_to], [sched_exit] and [sched_reap] share. *)
Definition make_current (st : sched_st) (next : nat) : option sched_st :=
  st ← upd_pcb st next (fun pc => set_state_of pc PROC_RUN);
  upd_rq (set_sc_current st (<[0%nat := Some next]> (sc_current st))) 0 (fun rq => set_rq_current rq (Some next)).

Definition enter_thread (st : sched_st) (next : nat) : option sched_st :=
  pc ← sc_pcbs st !! next;
  Some (sched_load_cr3 (set_sc_thread st (Some next)) (rg_cr3 (pc_regs pc))).

Definition quantum (cls : Z) : Z :=
  if cls =? SCHED_RT then 0 else if cls =? SCHED_INTR then SCHED_QUANTUM_INTR_NS else SCHED_QUANTUM_BATCH_NS.

Definition sched_switch_to (st : sched_st) (now : Z) (next : option nat) : option (outcome * sched_st) :=
  cur ← sc_current st !! 0%nat;
  match next with
  | None => Some (Returned, st)
  | Some n =>
      pn ← sc_pcbs st !! n;
      if rg_rip (pc_regs pn) =? 0 then Some (Returned, st)
      else if bool_decide (cur = Some n) then Some (Returned, st)
      else
        let q := quantum (pc_sched_class pn) in
        st ← (if 0 <? q then upd_pcb st n (fun pc => set_deadline_ns_of pc (u64 (now + q))) else Some st);
        c ← cur;
        pcur ← sc_pcbs st !! c;
        st ← (if negb (bool_decide (cur = sc_reap_waiter st)) && (pc_state pcur =? PROC_RUN)
              then upd_pcb st c (fun pc => set_state_of pc PROC_READY) else Some st);
        st ← make_current st n;
        st ← sched_state_update st;
        st ← enter_thread st n;
        Some (Switched n, st)
  end.

(** The decay of the priority of an interactive process; [/] truncates. *)
Definition decay (pc : pcb_t) : pcb_t :=
  if pc_sched_class pc =? SCHED_INTR then
    let delta := i16 (pc_base_pri pc - pc_priority pc) in
    set_priority_of pc (i16 (pc_priority pc + Z.quot delta 10))
  else pc.

Definition sched_tick (st : sched_st) (now : Z) : option (outcome * sched_st) :=
  if sc_cpu_count st <=? 0 then Some (Returned, st)
  else
    rq ← sc_runq st !! 0%nat;
    cur ← sc_current st !! 0%nat;
    match cur with
    | None => Some (Returned, st)
    | Some c =>
        if bool_decide (rq_idle_pcb rq = None) || bool_decide (sc_reap_waiter st <> None) || (c =? bootstrap_pcb)%nat
        then Some (Returned, st)
        else
          st ← upd_pcb st c decay;
          pc ← sc_pcbs st !! c;
          if negb (bool_decide (rq_idle_pcb rq = Some c)) && (pc_deadline_ns pc <=? now) && (pc_state pc =? PROC_RUN) then
            st ← spin_lock st 0;
            st ← sched_enqueue st c;
            '(next, st) ← sched_dequeue st 0;
            st ← spin_unlock st 0;
            sched_switch_to st now next
          else Some (Returned, st)
    end.

Definition sched_yield (st : sched_st) (now : Z) : option (outcome * sched_st) :=
  rq ← sc_runq st !! 0%nat;
  cur ← sc_current st !! 0%nat;
  st ← spin_lock st 0;
  st ← (if negb (bool_decide (cur = rq_idle_pcb rq)) && negb (bool_decide (cur = sc_reap_waiter st))
        then c ← cur; sched_enqueue st c else Some st);
  '(next, st) ← sched_dequeue st 0;
  st ← spin_unlock st 0;
  sched_switch_to st now next.

(** The boost of an interactive process that wakes up. *)
Definition boost (pc : pcb_t) : pcb_t :=
  if pc_sched_class pc =? SCHED_INTR then
    let p := i16 (pc_base_pri pc - SCHED_BOOST) in
    set_priority_of pc (if p <? 0 then 0 else p)
  else pc.

Definition sched_wake (st : sched_st) (now : Z) (p : nat) : option sched_st :=
  pc ← sc_pcbs st !! p;
  if negb (pc_state pc =? PROC_WAIT) then Some st
  else
    st ← upd_pcb st p (fun pc => boost (set_wake_ns_of pc now));
    sched_enqueue st p.

Definition sched_find (st : sched_st) (pid : Z) : option (option nat) :=
  if (pid =? 0) || (MAX_PROCS <=? pid) then Some None
  else
    let i := Z.to_nat (pid mod MAX_PROCS) in
    pc ← sc_pcbs st !! i;
    Some (if (pc_pid pc =? pid) && negb (pc_state pc =? PROC_DEAD) then Some i else None).

Definition sched_current (st : sched_st) : option (option nat) := sc_current st !! 0%nat.

Definition sched_runq (st : sched_st) (cpu_id : Z) : option nat :=
  if cpu_id <? sc_cpu_count st then Some (Z.to_nat cpu_id) else None.

Definition sched_set (st : sched_st) (pid cls priority : Z) : option (Z * sched_st) :=
  found ← sched_find st pid;
  match found with
  | None => Some (-1, st)
  | Some p =>
      st ← upd_pcb st p (fun pc => set_priority_of (set_base_pri_of (set_sched_class_of pc cls) (i16 priority)) (i16 priority));
      Some (0, st)
  end.

(** [ks] is what [kmalloc(SCHED_KSTACK_SIZE)] returns. *)
Definition sched_kstack_alloc (pc : pcb_t) (ks : option Z) : option pcb_t :=
  if bool_decide (pc_kstack pc <> None) && negb (pc_kstack_top pc =? 0) then Some pc
  else
    match ks with
    | None => None
    | Some k => Some (set_kstack_top_of (set_kstack_of pc (Some k)) (u64 (k + SCHED_KSTACK_SIZE)))
    end.

Record spawn_args_t := mk_spawn_args {
  sa_binary : list Z;
  sa_sched_class : Z;
  sa_priority : Z;
  sa_cpu_affinity : Z;
  sa_va_map : option Z;
}.

(** The loop that looks for a free slot.  The slots repeat after 4096 turns, so when
    none of them is free the C loop goes on until [pid] has wrapped around to
    [g_next_pid] and then fails. *)
Fixpoint free_pid (st : sched_st) (pid : Z) (n : nat) : option (option Z) :=
  match n with
  | O => Some None
  | S n' =>
      pc ← sc_pcbs st !! Z.to_nat (pid mod MAX_PROCS);
      if negb (pc_state pc =? PROC_DEAD) && negb (pc_pid pc =? 0) then free_pid st (u32 (pid + 1)) n'
      else Some (Some pid)
  end.

(** The bytes after the last slash of the string at [p]; [n] is the start so far. *)
Fixpoint last_component (n p : list Z) : option (list Z) :=
  match p with
  | [] => None
  | c :: p' => if c =? 0 then Some n else last_component (if c =? 47 then p' else n) p'
  end.

(** [for (i = 0; i < SCHED_NAME_LEN - 1 && n[i]; i++) name[i] = n[i]] *)
Fixpoint copy_name (name n : list Z) (i k : nat) : option (list Z) :=
  match k with
  | O => Some name
  | S k' =>
      match n with
      | [] => None
      | c :: n' => if c =? 0 then Some name else copy_name (<[i := c]> name) n' (S i) k'
      end
  end.

(** The new block before its stack is allocated. *)
Definition new_pcb (st : sched_st) (args : spawn_args_t) (pid : Z) (name : list Z) : pcb_t :=
  mk_pcb pid PROC_NEW (sa_sched_class args)
    (if sa_cpu_affinity args =? 0xFF then u8 (sc_cpu_count st) else sa_cpu_affinity args)
    (i16 (sa_priority args)) (i16 (sa_priority args)) 0 0 0 None 0 name 0 0 0 None 0 (mk_regs 0 0 0 0 0 0).

(** [ks] is the stack from [kmalloc], [vm] the map from [amm_vmap_create]. *)
Definition sched_spawn (st : sched_st) (args : spawn_args_t) (ks vm : option Z) : option (Z * sched_st) :=
  if MAX_PROCS <=? sc_proc_count st then Some (0, st)
  else
    found ← free_pid st (sc_next_pid st) (Z.to_nat MAX_PROCS);
    match found with
    | None => Some (0, st)
    | Some pid =>
        let next := u32 (pid + 1) mod MAX_PROCS in
        let st := set_sc_next_pid st (if next =? 0 then 1 else next) in
        let i := Z.to_nat (pid mod MAX_PROCS) in
        n ← last_component (sa_binary args) (sa_binary args);
        name ← copy_name (replicate SCHED_NAME_LEN 0) n 0 (SCHED_NAME_LEN - 1);
        let pc := new_pcb st args pid name in
        let st := set_sc_nodes st (<[i := mk_node None None None 0]> (sc_nodes st)) in
        match sched_kstack_alloc pc ks with
        | None => Some (0, set_sc_pcbs st (<[i := pc]> (sc_pcbs st)))
        | Some pc =>
            let pc := set_va_map_of pc (match sa_va_map args with Some m => Some m | None => vm end) in
            let pc := set_regs_of pc (mk_regs 0 0 0x202 0 0x08 0x10) in
            let pc := set_deadline_ns_of (set_state_of pc PROC_NEW) UINT64_MAX in
            let st := set_sc_proc_count st (u32 (sc_proc_count st + 1)) in
            Some (pid, set_sc_pcbs st (<[i := pc]> (sc_pcbs st)))
        end
    end.

(** [amm_vmap_destroy(dead_map)] when there is one. *)
Definition destroy_map (st : sched_st) (m : option Z) : sched_st :=
  match m with None => st | Some m => set_sc_freed_maps st (sc_freed_maps st ++ [m]) end.

(** [kfree] of a stack that is not the bootstrap stack or an idle block's. *)
Definition free_kstack (st : sched_st) (p : nat) : option sched_st :=
  pc ← sc_pcbs st !! p;
  match pc_kstack pc with
  | Some k =>
      if negb (k =? bootstrap_kstack) && negb (pc_pid pc =? 0) then
        upd_pcb (set_sc_freed_stacks st (sc_freed_stacks st ++ [k])) p
          (fun pc => set_kstack_top_of (set_kstack_of pc None) 0)
      else Some st
  | None => Some st
  end.

Definition die (code : Z) (pc : pcb_t) : pcb_t :=
  set_va_map_of (set_state_of (set_exit_code_of pc code) PROC_DEAD) None.

(** The choice of the next thread by [sched_exit]. *)
Definition exit_next (st : sched_st) : option (option nat * sched_st) :=
  waiter_alive ← match sc_reap_waiter st with
                 | None => Some None
                 | Some w => pw ← sc_pcbs st !! w; Some (if pc_state pw =? PROC_DEAD then None else Some w)
                 end;
  match waiter_alive with
  | Some w => Some (Some w, set_sc_reap_waiter st None)
  | None =>
      st ← spin_lock st 0;
      '(next, st) ← sched_dequeue st 0;
      st ← spin_unlock st 0;
      Some (next, st)
  end.

Definition sched_exit (st : sched_st) (code : Z) : option (outcome * sched_st) :=
  cur ← sc_current st !! 0%nat;
  c ← cur;
  pcur ← sc_pcbs st !! c;
  let dead_map := pc_va_map pcur in
  st ← upd_pcb st c (die code);
  let st := set_sc_proc_count st (u32 (sc_proc_count st - 1)) in
  match sc_reap_jmp st, sc_reap_waiter st with
  | true, Some w =>
      pw ← sc_pcbs st !! w;
      let st := destroy_map (sched_load_cr3 st (rg_cr3 (pc_regs pw))) dead_map in
      st ← free_kstack st c;
      Some (JmpBack, set_sc_reap_jmp st false)
  | _, _ =>
      rq ← sc_runq st !! 0%nat;
      '(next, st) ← exit_next st;
      dead ← match next with
             | None => Some true
             | Some n => pn ← sc_pcbs st !! n; Some (pc_state pn =? PROC_DEAD)
             end;
      n ← (if dead : bool then rq_idle_pcb rq else next);
      st ← make_current st n;
      st ← sched_state_update st;
      st ← enter_thread st n;
      Some (Switched n, destroy_map st dead_map)
  end.

(** [sched_reap] up to the point where the child runs, or to the
    [sched_jmp_restore] when it cannot: the child, its class and its priority. *)
Definition sched_reap_start (st : sched_st) (pid : Z)
    : option (option (nat * Z * Z) * outcome * sched_st) :=
  found ← sched_find st pid;
  match found with
  | None => Some (None, Returned, st)
  | Some p =>
      waiter ← sched_current st;
      let st := set_sc_reap_jmp (set_sc_reap_waiter st waiter) true in
      pc ← sc_pcbs st !! p;
      let saved := (p, pc_sched_class pc, pc_priority pc) in
      st ← upd_pcb st p (fun pc => set_priority_of (set_sched_class_of pc SCHED_RT) 0);
      if (pc_state pc =? PROC_READY) && negb (rg_rip (pc_regs pc) =? 0) then
        st ← spin_lock st 0;
        st ← sched_takeoff_runq_locked st 0 p;
        st ← spin_unlock st 0;
        st ← make_current st p;
        st ← enter_thread st p;
        Some (Some saved, Switched p, st)
      else Some (Some saved, JmpBack, st)
  end.

(** [sched_reap] after the [sched_jmp_save] returned 1: the exit code and CPU time
    stored in [*info]. *)
Definition sched_reap_finish (st : sched_st) (saved : nat * Z * Z) : option (Z * Z * sched_st) :=
  let '(p, cls, priority) := saved in
  st ← upd_pcb st p (fun pc => set_priority_of (set_sched_class_of pc cls) priority);
  let st := set_sc_reap_jmp st false in
  st ← upd_pcb st p (fun pc => if pc_state pc =? PROC_DEAD then pc else set_exit_code_of (set_state_of pc PROC_DEAD) (-1));
  let st := set_sc_reap_waiter st None in
  pc ← sc_pcbs st !! p;
  st ← free_kstack st p;
  st ← upd_pcb st p (fun pc => set_state_of (set_pid_of pc 0) PROC_DEAD);
  Some (pc_exit_code pc, pc_cpu_ns pc, st).

(** The search of [sched_steal] for the most loaded other CPU. *)
Fixpoint most_loaded (rqs : list runq_t) (i this_cpu : Z) (max_load victim : Z) : Z * Z :=
  match rqs with
  | [] => (max_load, victim)
  | rq :: rqs' =>
      if i =? this_cpu then most_loaded rqs' (i + 1) this_cpu max_load victim
      else
        let load := u32 (rq_intr_count rq + rq_batch_count rq) in
        if max_load <? load then most_loaded rqs' (i + 1) this_cpu load i
        else most_loaded rqs' (i + 1) this_cpu max_load victim
  end.

(** Which tree of the victim the next process comes from, if any. *)
Definition steal_pick (st : sched_st) (victim : nat) : option (option nat) :=
  rq ← sc_runq st !! victim;
  if 0 <? rq_batch_count rq then rq_leftmost st victim SCHED_BATCH
  else if 0 <? rq_intr_count rq then rq_leftmost st victim SCHED_INTR
  else Some None.

Fixpoint steal_loop (st : sched_st) (victim this_cpu : nat) (to_move : nat) : option sched_st :=
  match to_move with
  | O => Some st
  | S to_move' =>
      n ← steal_pick st victim;
      match n with
      | None => Some st
      | Some x =>
          pc ← sc_pcbs st !! x;
          let cls := if pc_sched_class pc =? SCHED_BATCH then SCHED_BATCH else SCHED_INTR in
          st ← rq_remove st victim cls x;
          st ← upd_pcb st x (fun pc => set_cpu_of pc (u8 (Z.of_nat this_cpu)));
          st ← rq_insert st this_cpu cls x (pc_priority pc);
          steal_loop st victim this_cpu to_move'
      end
  end.

Definition sched_steal (st : sched_st) (this_cpu : nat) : option sched_st :=
  let '(max_load, victim) :=
    most_loaded (take (Z.to_nat (sc_cpu_count st)) (sc_runq st)) 0 (Z.of_nat this_cpu) 0 0 in
  me ← sc_runq st !! this_cpu;
  if max_load <=? u32 (u32 (rq_intr_count me + rq_batch_count me) + SCHED_STEAL_THRESHOLD) then Some st
  else
    let victim := Z.to_nat victim in
    let first := if (this_cpu <? victim)%nat then this_cpu else victim in
    let second := if (this_cpu <? victim)%nat then victim else this_cpu in
    st ← spin_lock st first;
    st ← spin_lock st second;
    vq ← sc_runq st !! victim;
    st ← steal_loop st victim this_cpu (Z.to_nat (u32 (rq_intr_count vq + rq_batch_count vq) / 2));
    st ← spin_unlock st second;
    spin_unlock st first.

(** The idle block of CPU [i]; [ks] is what [kmalloc] returns for its stack. *)
Definition make_idle (idle_fn : Z) (i : nat) (ks : option Z) : pcb_t :=
  let pc := mk_pcb 0 PROC_RUN SCHED_BATCH (u8 (Z.of_nat i)) 127 127 0 0 UINT64_MAX None 0
              (c_str "idle"%string ++ replicate 28 0) 0 0 0 None 0 (mk_regs idle_fn 0 0x202 kernel_cr3 0x08 0x10) in
  match sched_kstack_alloc pc ks with
  | Some pc => pc
  | None => set_kstack_top_of (set_kstack_of pc (Some bootstrap_kstack)) (u64 (bootstrap_kstack + SCHED_BOOTSTRAP_KSTACK_SIZE))
  end.

Fixpoint init_cpus (st : sched_st) (idle_fn : Z) (ks : nat -> option Z) (i n : nat) : option sched_st :=
  match n with
  | O => Some st
  | S n' =>
      let st := set_sc_pcbs st (<[idle_pcb i := make_idle idle_fn i (ks i)]> (sc_pcbs st)) in
      let st := set_sc_nodes st (<[idle_pcb i := mk_node None None None 0]> (sc_nodes st)) in
      st ← upd_rq st i (fun _ => mk_runq false (u8 (Z.of_nat i)) None None None 0 0 0
                                   (Some (idle_pcb i)) (Some (idle_pcb i)) 0 0 0);
      init_cpus (set_sc_current st (<[i := Some (idle_pcb i)]> (sc_current st))) idle_fn ks (S i) n'
  end.

Definition sched_init (st : sched_st) (cpu_count idle_fn : Z) (ks : nat -> option Z) : option sched_st :=
  let n := if MAX_CPUS <? cpu_count then MAX_CPUS else cpu_count in
  let st := set_sc_proc_count (set_sc_next_pid (set_sc_cpu_count st n) 1) 0 in
  st ← init_cpus st idle_fn ks 0 (Z.to_nat n);
  let ss := sc_state st in
  Some (set_sc_state st (mk_sched_state SCHED_STATE_MAGIC n (ss_cpus ss) (ss_total_procs ss) (ss_seq ss))).

Definition sched_bootstrap_init_thread (st : sched_st) : option sched_st :=
  let pc := mk_pcb 1 PROC_RUN SCHED_BATCH 0 0 0 0 0 UINT64_MAX None 0 (c_str "asdinit"%string ++ replicate 25 0) 0 0 0
              (Some bootstrap_kstack) (u64 (bootstrap_kstack + SCHED_BOOTSTRAP_KSTACK_SIZE))
              (mk_regs 0 0 0x202 kernel_cr3 0x08 0x10) in
  let st := set_sc_pcbs st (<[bootstrap_pcb := pc]> (sc_pcbs st)) in
  let st := set_sc_nodes st (<[bootstrap_pcb := mk_node None None None 0]> (sc_nodes st)) in
  st ← upd_rq (set_sc_current st (<[0%nat := Some bootstrap_pcb]> (sc_current st))) 0
         (fun rq => set_rq_current rq (Some bootstrap_pcb));
  Some (set_sc_thread st (Some bootstrap_pcb)).

Definition sched_cpu_init (st : sched_st) (cpu_id : nat) : sched_st :=
  set_sc_current st (<[cpu_id := Some (idle_pcb cpu_id)]> (sc_current st)).

End kernel.
