(* ===== verification/SchedSpec.v ===== *)
(** * Correctness of the run queues

    The trees and counts of [Sched] represent, per CPU and class, a list of
    processes in the order in which they will run.  [queues_inv] ties the two
    together; enqueue, dequeue, wake-up and work stealing are proved against it. *)

From Stdlib Require Import ZArith Lia Sorting.Sorted.
From stdpp Require Import base strings gmap list.
From S2P Require Import Prelude KString RbTree Sched.

Local Open Scope Z_scope.

(** ** Specification: queues of processes *)

(** The class a process is queued under. *)
Definition cls_ix (cls : Z) : Z := if cls =? SCHED_RT then SCHED_RT else if cls =? SCHED_INTR then SCHED_INTR else SCHED_BATCH.

Definition is_class (c : Z) : Prop := c = SCHED_RT \/ c = SCHED_INTR \/ c = SCHED_BATCH.

Definition queues := nat -> Z -> list nat.

Definition set_queue (q : queues) (cpu : nat) (c : Z) (l : list nat) : queues :=
  fun cpu' c' => if decide (cpu' = cpu /\ c' = c) then l else q cpu' c'.

Definition cpu_ok (st : sched_st) (cpu : nat) : Prop := Z.of_nat cpu < sc_cpu_count st.

(** The tree of class [c] of a run queue holds the processes [l], counted. *)
Definition queue_rep (st : sched_st) (rq : runq_t) (c : Z) (l : list nat) : Prop :=
  class_count rq c = Z.of_nat (length l) /\
  exists t, rep (mk_rb (class_root rq c) (sc_nodes st)) [] t /\ inorder t = l.

Record queues_inv (st : sched_st) (q : queues) : Prop := {
  qi_count : 0 < sc_cpu_count st <= MAX_CPUS;
  qi_len : length (sc_runq st) = Z.to_nat MAX_CPUS;
  qi_size : Z.of_nat (size (sc_pcbs st)) < 2 ^ 31;
  qi_rep : forall cpu rq c, cpu_ok st cpu -> sc_runq st !! cpu = Some rq -> is_class c -> queue_rep st rq c (q cpu c);
  qi_sorted : forall cpu c, cpu_ok st cpu -> is_class c -> StronglySorted (pri_le (pri st)) (q cpu c);
  qi_procs : forall cpu c x, cpu_ok st cpu -> is_class c -> x ∈ q cpu c ->
    exists pc, sc_pcbs st !! x = Some pc /\ pc_state pc = PROC_READY /\ cls_ix (pc_sched_class pc) = c /\ pc_cpu pc = Z.of_nat cpu;
  qi_nodes : forall x pc, sc_pcbs st !! x = Some pc -> is_Some (sc_nodes st !! x);
}.

Definition unqueued (st : sched_st) (q : queues) (p : nat) : Prop :=
  forall cpu c, cpu_ok st cpu -> is_class c -> p ∉ q cpu c.

Definition locks_free (st : sched_st) : Prop := forall cpu rq, sc_runq st !! cpu = Some rq -> rq_lock rq = false.

(** ** Lemmas *)

Lemma cls_ix_class cls : is_class (cls_ix cls).
Proof. unfold cls_ix, is_class. repeat case_match; auto. Qed.

Lemma class_root_ix rq cls : class_root rq cls = class_root rq (cls_ix cls).
Proof. unfold class_root, cls_ix. destruct (cls =? SCHED_RT); [done|]. by destruct (cls =? SCHED_INTR). Qed.

Lemma class_count_ix rq cls : class_count rq cls = class_count rq (cls_ix cls).
Proof. unfold class_count, cls_ix. destruct (cls =? SCHED_RT); [done|]. by destruct (cls =? SCHED_INTR). Qed.

Lemma set_class_ix rq cls r n : set_class rq cls r n = set_class rq (cls_ix cls) r n.
Proof. unfold set_class, cls_ix. destruct (cls =? SCHED_RT); [done|]. by destruct (cls =? SCHED_INTR). Qed.

(** Reading the trees of a run queue after one of them was set. *)
Lemma set_class_get rq c c' r n :
  is_class c -> is_class c' ->
  class_root (set_class rq c r n) c' = (if decide (c' = c) then r else class_root rq c') /\
  class_count (set_class rq c r n) c' = (if decide (c' = c) then n else class_count rq c').
Proof.
  unfold is_class, set_class, class_root, class_count, SCHED_RT, SCHED_INTR, SCHED_BATCH.
  intros [->|[->| ->]] [->|[->| ->]]; done.
Qed.

Lemma set_class_lock rq c r n : rq_lock (set_class rq c r n) = rq_lock rq.
Proof. unfold set_class. by repeat case_match. Qed.

Lemma set_class_idle rq c r n : rq_idle_pcb (set_class rq c r n) = rq_idle_pcb rq.
Proof. unfold set_class. by repeat case_match. Qed.

Lemma rep_heap root s s' t S :
  rep (mk_rb root (rb_heap s)) [] t -> unch S s s' -> (forall z, z ∈ inorder t -> z ∉ S) ->
  rep (mk_rb root (rb_heap s')) [] t.
Proof.
  intros [Hc Ht Hnd] U Hd. constructor; [done| |done]. simpl in *. eapply tree_ext; [|exact Ht].
  intros z Hz. by apply U, Hd.
Qed.

Lemma ready_unqueued st q p pc :
  queues_inv st q -> sc_pcbs st !! p = Some pc -> pc_state pc <> PROC_READY -> unqueued st q p.
Proof.
  intros Hinv Hp Hs cpu c Hcpu Hc Hin. destruct (qi_procs _ _ Hinv cpu c p Hcpu Hc Hin) as (pc' & ? & ? & _). congruence.
Qed.

Lemma pri_insert st p pc y : y <> p -> pri (set_sc_pcbs st (<[p := pc]> (sc_pcbs st))) y = pri st y.
Proof. intros Hne. unfold pri. simpl. by rewrite lookup_insert_ne. Qed.

Lemma sorted_pri_ext (f g : nat -> Z) l :
  (forall x, x ∈ l -> f x = g x) -> StronglySorted (pri_le f) l -> StronglySorted (pri_le g) l.
Proof.
  intros Heq Hs. induction Hs as [|x l Hl IH Hx]; constructor.
  - apply IH. set_solver.
  - rewrite Forall_forall in *. intros y Hy. unfold pri_le. rewrite <- !Heq by set_solver. by apply Hx.
Qed.

(** Changing the block of a process in no queue. *)
Lemma inv_upd_pcb st q p pc pc' :
  queues_inv st q -> unqueued st q p -> sc_pcbs st !! p = Some pc ->
  queues_inv (set_sc_pcbs st (<[p := pc']> (sc_pcbs st))) q.
Proof.
  intros [H1 H2 H3 H4 H5 H6 H7] Hun Hp. constructor; try done.
  - simpl. by rewrite map_size_insert_Some by eauto.
  - intros cpu c Hcpu Hc. eapply sorted_pri_ext; [|by apply H5]. intros x Hx. symmetry. apply pri_insert.
    intros ->. by apply (Hun cpu c Hcpu Hc).
  - intros cpu c x Hcpu Hc Hx. simpl. rewrite lookup_insert_ne; [by apply (H6 cpu)|].
    intros ->. by apply (Hun cpu c Hcpu Hc).
  - intros x pcx. simpl. destruct (decide (p = x)) as [->|Hne]; [rewrite lookup_insert_eq|rewrite lookup_insert_ne by done]; eauto.
Qed.

(** Changing anything but the trees and counts of a run queue. *)
Lemma inv_upd_rq st q cpu rq rq' :
  queues_inv st q -> sc_runq st !! cpu = Some rq ->
  (forall c, class_root rq' c = class_root rq c /\ class_count rq' c = class_count rq c) ->
  queues_inv (set_sc_runq st (<[cpu := rq']> (sc_runq st))) q.
Proof.
  intros [H1 H2 H3 H4 H5 H6 H7] Hrq Heq. constructor; try done.
  - simpl. by rewrite length_insert.
  - intros i r c Hi Hr Hc. simpl in Hr. destruct (decide (cpu = i)) as [->|Hne].
    + rewrite list_lookup_insert_eq in Hr by (by eapply lookup_lt_Some). simplify_eq.
      destruct (H4 i rq c Hi Hrq Hc) as [Hn Ht]. destruct (Heq c) as [Hr Hc']. unfold queue_rep. by rewrite Hr, Hc'.
    + rewrite list_lookup_insert_ne in Hr by done. by apply H4.
Qed.

Lemma inv_lookup_rq st q cpu : queues_inv st q -> cpu_ok st cpu -> exists rq, sc_runq st !! cpu = Some rq.
Proof.
  intros Hinv Hcpu. destruct (lookup_lt_is_Some_2 (sc_runq st) cpu) as [rq Hrq]; [|eauto].
  rewrite (qi_len _ _ Hinv). pose proof (qi_count _ _ Hinv). unfold cpu_ok in Hcpu. lia.
Qed.

Lemma queue_length st q cpu c :
  queues_inv st q -> cpu_ok st cpu -> is_class c -> Z.of_nat (length (q cpu c)) < 2 ^ 31.
Proof.
  intros Hinv Hcpu Hc. destruct (inv_lookup_rq st q cpu Hinv Hcpu) as [rq Hrq].
  destruct (qi_rep _ _ Hinv cpu rq c Hcpu Hrq Hc) as (_ & t & [_ _ Hnd] & Ht). unfold zip_nodes in Hnd. simpl in Hnd.
  rewrite Ht in Hnd. eapply Z.le_lt_trans; [|apply (qi_size _ _ Hinv)]. apply inj_le.
  rewrite <- (size_dom (sc_pcbs st)), <- (size_list_to_set (C := gset nat)) by done.
  apply subseteq_size. intros x Hx%elem_of_list_to_set.
  destruct (qi_procs _ _ Hinv cpu c x Hcpu Hc Hx) as (pc & Hpc & _). apply elem_of_dom. eauto.
Qed.

Lemma queue_unique st q cpu c cpu' c' x :
  queues_inv st q -> cpu_ok st cpu -> is_class c -> cpu_ok st cpu' -> is_class c' ->
  x ∈ q cpu c -> x ∈ q cpu' c' -> cpu = cpu' /\ c = c'.
Proof.
  intros Hinv H1 H2 H3 H4 Hx Hx'. destruct (qi_procs _ _ Hinv _ _ _ H1 H2 Hx) as (pc & Hp & _ & Hc & Hcpu).
  destruct (qi_procs _ _ Hinv _ _ _ H3 H4 Hx') as (pc' & Hp' & _ & Hc' & Hcpu'). simplify_eq. split; [lia|congruence].
Qed.

(** Replacing the tree of one class of one run queue. *)
Lemma inv_set_tree st q cpu rq c s' l' S :
  queues_inv st q -> cpu_ok st cpu -> sc_runq st !! cpu = Some rq -> is_class c ->
  let rq' := set_class rq c (rb_root s') (Z.of_nat (length l')) in
  let st' := set_sc_runq (set_sc_nodes st (rb_heap s')) (<[cpu := rq']> (sc_runq st)) in
  (exists t', rep s' [] t' /\ inorder t' = l') ->
  unch S (mk_rb (class_root rq c) (sc_nodes st)) s' ->
  (forall x, x ∈ S -> x ∈ q cpu c \/ unqueued st q x) -> (forall x, x ∈ S -> is_Some (rb_heap s' !! x)) ->
  StronglySorted (pri_le (pri st)) l' ->
  (forall x, x ∈ l' -> exists pc, sc_pcbs st !! x = Some pc /\ pc_state pc = PROC_READY /\
     cls_ix (pc_sched_class pc) = c /\ pc_cpu pc = Z.of_nat cpu) ->
  queues_inv st' (set_queue q cpu c l').
Proof.
  intros Hinv Hcpu Hrq Hc rq' st' (t' & Hrep & Hin) U HS HSn Hsort Hprocs.
  pose proof Hinv as [H1 H2 H3 H4 H5 H6 H7]. constructor; try done.
  - simpl. by rewrite length_insert.
  - intros i r k Hi Hr Hk. unfold st' in Hr. simpl in Hr. unfold set_queue, queue_rep. simpl.
    assert (Hother : forall r0, sc_runq st !! i = Some r0 -> ~ (i = cpu /\ k = c) ->
      class_count r0 k = Z.of_nat (length (q i k)) /\
      exists t, rep (mk_rb (class_root r0 k) (rb_heap s')) [] t /\ inorder t = q i k).
    { intros r0 Hr0 Hne.
      destruct (H4 i _ k Hi Hr0 Hk) as (Hn & t & Ht & Hti). split; [done|]. exists t. split; [|done].
      eapply (rep_heap _ (mk_rb (class_root rq c) (sc_nodes st))); [exact Ht|exact U|].
      rewrite Hti. intros z Hz Hz'. destruct (HS z Hz') as [Hzq|Hzu]; [|by apply (Hzu i k)].
      destruct (queue_unique st q cpu c i k z Hinv Hcpu Hc Hi Hk Hzq Hz) as [-> ->]. by apply Hne. }
    destruct (decide (cpu = i)) as [->|Hne].
    + rewrite list_lookup_insert_eq in Hr by (by eapply lookup_lt_Some). injection Hr as <-. unfold rq'.
      destruct (set_class_get rq c k (rb_root s') (Z.of_nat (length l')) Hc Hk) as [-> ->].
      case_decide as Hd.
      * rewrite decide_True by done. split; [done|]. exists t'. split; [by destruct s'|done].
      * rewrite decide_False by tauto. apply Hother; [done|tauto].
    + rewrite decide_False by (intros [? _]; congruence).
      apply Hother; [by rewrite list_lookup_insert_ne in Hr|intros [? _]; congruence].
  - intros i k Hi Hk. unfold set_queue. case_decide; [exact Hsort|by apply H5].
  - intros i k x Hi Hk. unfold set_queue. case_decide as Hd; [destruct Hd as [-> ->]; apply Hprocs|by apply H6].
  - intros x pc Hx. simpl. destruct (decide (x ∈ S)) as [Hs|Hs]; [by apply HSn|].
    rewrite (U x Hs). simpl. by apply (H7 x pc).
Qed.

Lemma rq_insert_ok st q cpu rq cls p pc :
  queues_inv st q -> cpu_ok st cpu -> sc_runq st !! cpu = Some rq -> unqueued st q p ->
  sc_pcbs st !! p = Some pc -> pc_state pc = PROC_READY -> pc_sched_class pc = cls -> pc_cpu pc = Z.of_nat cpu ->
  let c := cls_ix cls in
  exists nodes' rq', rq_insert st cpu cls p (pc_priority pc) =
      Some (set_sc_runq (set_sc_nodes st nodes') (<[cpu := rq']> (sc_runq st))) /\
    rq_lock rq' = rq_lock rq /\ rq_idle_pcb rq' = rq_idle_pcb rq /\
    queues_inv (set_sc_runq (set_sc_nodes st nodes') (<[cpu := rq']> (sc_runq st)))
      (set_queue q cpu c (ins_list (pri st) p (pc_priority pc) (q cpu c))).
Proof.
  intros Hinv Hcpu Hrq Hun Hp Hst Hcl Hpc c. unfold rq_insert. rewrite Hrq. cbn [mbind option_bind].
  pose proof (cls_ix_class cls) as Hc. destruct (qi_rep _ _ Hinv cpu rq c Hcpu Hrq Hc) as (Hn & t & Ht & Hti).
  destruct (qi_nodes _ _ Hinv p pc Hp) as [n0 Hn0]. rewrite class_root_ix. fold c.
  assert (Hpri : pc_priority pc = pri st p) by (unfold pri; by rewrite Hp).
  assert (Hnin : p ∉ inorder t) by (rewrite Hti; by apply Hun).
  destruct (insert_ok (pri st) (mk_rb (class_root rq c) (sc_nodes st)) t p (pc_priority pc) n0 Ht Hn0 Hnin)
    as (s' & -> & Hrep & U). cbn [mbind option_bind]. unfold upd_rq. simpl sc_runq. rewrite Hrq. cbn [mbind option_bind].
  pose proof (qi_sorted _ _ Hinv cpu c Hcpu Hc) as Hsort. rewrite <- Hti in Hsort.
  pose proof (inorder_insert_tree (pri st) p (pc_priority pc) t Hsort) as Hin. rewrite Hti in Hin, Hsort, U.
  set (l' := ins_list _ _ _ _) in *.
  assert (Hlen : length l' = S (length (q cpu c))) by (unfold l'; by rewrite ins_list_perm).
  pose proof (queue_length st q cpu c Hinv Hcpu Hc) as Hql.
  exists (rb_heap s'), (set_class rq c (rb_root s') (Z.of_nat (length l'))).
  rewrite set_class_lock, set_class_idle. split_and!; [|done|done|].
  - rewrite set_class_ix, class_count_ix. fold c. rewrite Hn, u32_small by lia. rewrite Hlen. do 4 f_equal. lia.
  - apply (inv_set_tree st q cpu rq c s' l' (p :: q cpu c)); try done.
    + by eexists.
    + intros x [->|Hx]%elem_of_cons; [by right|by left].
    + intros x Hx. destruct Hrep as [_ Htree _]. eapply tree_in_heap; [exact Htree|]. rewrite Hin.
      unfold l'. by rewrite ins_list_perm.
    + unfold l'. rewrite Hpri. by apply ins_list_sorted.
    + intros x Hx. unfold l' in Hx. rewrite ins_list_perm in Hx. apply elem_of_cons in Hx as [->|Hx].
      * exists pc. split_and!; [done|done|by rewrite Hcl|done].
      * by apply (qi_procs _ _ Hinv cpu c).
Qed.

Lemma NoDup_split {A} (l1 l2 k1 k2 : list A) x :
  NoDup (l1 ++ x :: l2) -> l1 ++ x :: l2 = k1 ++ x :: k2 -> l1 = k1 /\ l2 = k2.
Proof.
  revert k1. induction l1 as [|y l1 IH]; intros [|z k1] Hnd Heq; simpl in *; simplify_eq; [done| | |];
    apply NoDup_cons in Hnd as [Hx Hnd]; [set_solver|set_solver|].
  by match goal with H : l1 ++ _ = _ |- _ => destruct (IH k1 Hnd H) as [-> ->] end.
Qed.

Lemma sorted_remove (R : nat -> nat -> Prop) l1 x l2 : StronglySorted R (l1 ++ x :: l2) -> StronglySorted R (l1 ++ l2).
Proof.
  induction l1 as [|y l1 IH]; simpl; intros H; apply StronglySorted_inv in H as [H1 H2]; [done|].
  constructor; [by apply IH|]. apply Forall_app in H2 as [H2 H3]. apply Forall_cons in H3 as [_ H3]. by apply Forall_app.
Qed.

Lemma rq_remove_ok st q cpu rq cls p l1 l2 :
  queues_inv st q -> cpu_ok st cpu -> sc_runq st !! cpu = Some rq ->
  let c := cls_ix cls in q cpu c = l1 ++ p :: l2 ->
  exists nodes' rq', rq_remove st cpu cls p = Some (set_sc_runq (set_sc_nodes st nodes') (<[cpu := rq']> (sc_runq st))) /\
    rq_lock rq' = rq_lock rq /\ rq_idle_pcb rq' = rq_idle_pcb rq /\
    queues_inv (set_sc_runq (set_sc_nodes st nodes') (<[cpu := rq']> (sc_runq st))) (set_queue q cpu c (l1 ++ l2)).
Proof.
  intros Hinv Hcpu Hrq c Hq. unfold rq_remove. rewrite Hrq. cbn [mbind option_bind].
  pose proof (cls_ix_class cls) as Hc. destruct (qi_rep _ _ Hinv cpu rq c Hcpu Hrq Hc) as (Hn & t & Ht & Hti).
  rewrite class_root_ix. fold c. assert (Hnd : NoDup (inorder t)) by apply (rp_nodup _ _ _ Ht).
  destruct (focus t p) as (k & co & l & r & ->); [rewrite Hti, Hq; set_solver|].
  rewrite <- rep_plug in Ht. destruct (remove_ok _ _ _ _ _ _ Ht) as (s' & -> & Hrep & Hp & U).
  cbn [mbind option_bind]. unfold upd_rq. simpl sc_runq. rewrite Hrq. cbn [mbind option_bind].
  assert (Hin : inorder (remove_tree k co l r) = l1 ++ l2).
  { unfold remove_tree. rewrite inorder_tset, inorder_plug, inorder_without.
    rewrite inorder_plug in Hti. simpl in Hti. rewrite <- app_assoc, app_assoc in Hti. simpl in Hti.
    rewrite Hq in Hti. rewrite inorder_plug in Hnd. simpl in Hnd. rewrite <- app_assoc, app_assoc in Hnd. simpl in Hnd.
    destruct (NoDup_split _ _ _ _ _ Hnd Hti) as [<- <-]. by rewrite <- !app_assoc. }
  rewrite Hti in U. exists (rb_heap s'), (set_class rq c (rb_root s') (Z.of_nat (length (l1 ++ l2)))).
  rewrite set_class_lock, set_class_idle. split_and!; [|done|done|].
  - rewrite set_class_ix, class_count_ix. fold c. rewrite Hn, Hq. do 4 f_equal.
    pose proof (queue_length st q cpu c Hinv Hcpu Hc) as Hql. rewrite Hq in Hql.
    rewrite !length_app in *. simpl in *. rewrite u32_small by lia. lia.
  - pose proof (qi_sorted _ _ Hinv cpu c Hcpu Hc) as Hsort. rewrite Hq in Hsort.
    apply (inv_set_tree st q cpu rq c s' (l1 ++ l2) (q cpu c)); try done.
    + by eexists.
    + intros x Hx. by left.
    + intros x Hx. destruct (decide (x = p)) as [->|Hne]; [by rewrite Hp|].
      destruct Hrep as [_ Htree _]. eapply tree_in_heap; [exact Htree|]. rewrite Hin. rewrite Hq in Hx. set_solver.
    + by eapply sorted_remove.
    + intros x Hx. apply (qi_procs _ _ Hinv cpu c); [done|done|]. rewrite Hq. set_solver.
Qed.

(** ** The choice of a CPU *)

Definition rq_load (rq : runq_t) : Z := u32 (u32 (rq_rt_count rq + rq_intr_count rq) + rq_batch_count rq).

Definition load (q : queues) (cpu : nat) : Z :=
  Z.of_nat (length (q cpu SCHED_RT ++ q cpu SCHED_INTR ++ q cpu SCHED_BATCH)).

Lemma least_loaded_spec rqs i m c :
  (least_loaded rqs i m c = c /\ forall rq, rq ∈ rqs -> m <= rq_load rq) \/
  (exists j rq, rqs !! j = Some rq /\ least_loaded rqs i m c = i + Z.of_nat j /\ rq_load rq < m /\
     forall rq', rq' ∈ rqs -> rq_load rq <= rq_load rq').
Proof.
  revert i m c. induction rqs as [|rq rqs IH]; intros i m c; cbn [least_loaded].
  { left. split; [done|]. intros rq Hrq. by apply not_elem_of_nil in Hrq. }
  fold (rq_load rq). destruct (Z.ltb_spec (rq_load rq) m).
  - right. destruct (IH (i + 1) (rq_load rq) i) as [[-> Hmin]|(j & r & Hj & -> & Hr & Hmin)].
    + exists 0%nat, rq. split_and!; [done|lia|done|]. intros rq' [->|Hin]%elem_of_cons; [lia|auto].
    + exists (S j), r. split_and!; [done|lia|lia|]. intros rq' [->|Hin]%elem_of_cons; [lia|auto].
  - destruct (IH (i + 1) m c) as [[-> Hmin]|(j & r & Hj & -> & Hr & Hmin)].
    + left. split; [done|]. intros rq' [->|Hin]%elem_of_cons; [lia|auto].
    + right. exists (S j), r. split_and!; [done|lia|done|]. intros rq' [->|Hin]%elem_of_cons; [lia|auto].
Qed.

Lemma is_class_all : is_class SCHED_RT /\ is_class SCHED_INTR /\ is_class SCHED_BATCH.
Proof. unfold is_class. auto. Qed.

Lemma queue_nodup st q cpu c : queues_inv st q -> cpu_ok st cpu -> is_class c -> NoDup (q cpu c).
Proof.
  intros Hinv Hcpu Hc. destruct (inv_lookup_rq st q cpu Hinv Hcpu) as [rq Hrq].
  destruct (qi_rep _ _ Hinv cpu rq c Hcpu Hrq Hc) as (_ & t & [_ _ Hnd] & Ht). unfold zip_nodes in Hnd. simpl in Hnd.
  by rewrite Ht in Hnd.
Qed.

Lemma load_bound st q cpu : queues_inv st q -> cpu_ok st cpu -> load q cpu < 2 ^ 31.
Proof.
  intros Hinv Hcpu. destruct is_class_all as (H0 & H1 & H2). unfold load.
  assert (Hd : forall c c', is_class c -> is_class c' -> c <> c' -> forall x, x ∈ q cpu c -> x ∈ q cpu c' -> False).
  { intros c c' Hc Hc' Hne x Hx Hx'. destruct (queue_unique st q cpu c cpu c' x); done. }
  eapply Z.le_lt_trans; [|apply (qi_size _ _ Hinv)]. apply inj_le.
  rewrite <- (size_dom (sc_pcbs st)), <- (size_list_to_set (C := gset nat)).
  - apply subseteq_size. intros x Hx%elem_of_list_to_set.
    assert (Hx' : exists c, is_class c /\ x ∈ q cpu c) by set_solver. destruct Hx' as (c & Hc & Hxc).
    destruct (qi_procs _ _ Hinv cpu c x Hcpu Hc Hxc) as (pc & Hpc & _). apply elem_of_dom. eauto.
  - apply NoDup_app. split_and!; [by eapply queue_nodup| |].
    + intros x Hx [Hx'|Hx']%elem_of_app; by eapply Hd; [| | |exact Hx|exact Hx'].
    + apply NoDup_app. split_and!; [by eapply queue_nodup| |by eapply queue_nodup].
      intros x Hx Hx'. by eapply Hd; [| | |exact Hx|exact Hx'].
Qed.

Lemma rq_load_ok st q cpu rq :
  queues_inv st q -> cpu_ok st cpu -> sc_runq st !! cpu = Some rq -> rq_load rq = load q cpu.
Proof.
  intros Hinv Hcpu Hrq. destruct is_class_all as (H0 & H1 & H2). pose proof (load_bound st q cpu Hinv Hcpu) as Hb.
  destruct (qi_rep _ _ Hinv cpu rq _ Hcpu Hrq H0) as [E0 _]. destruct (qi_rep _ _ Hinv cpu rq _ Hcpu Hrq H1) as [E1 _].
  destruct (qi_rep _ _ Hinv cpu rq _ Hcpu Hrq H2) as [E2 _]. unfold class_count in *. simpl in *.
  unfold rq_load, load in *. rewrite !length_app in *. rewrite E0, E1, E2.
  unfold u32. rewrite Zplus_mod_idemp_l, Z.mod_small by lia. lia.
Qed.

(** A process that asks for no CPU goes to one with the least load. *)
Definition least (st : sched_st) (q : queues) (cpu : nat) : Prop :=
  forall i, cpu_ok st i -> load q cpu <= load q i.

Lemma pick_cpu_ok st q pc :
  queues_inv st q -> 0 <= pc_cpu pc ->
  exists cpu, pick_cpu st pc = Z.of_nat cpu /\ cpu_ok st cpu /\
    (if sc_cpu_count st <=? pc_cpu pc then least st q cpu else Z.of_nat cpu = pc_cpu pc).
Proof.
  intros Hinv Hpc. pose proof (qi_count _ _ Hinv) as Hn. pose proof (qi_len _ _ Hinv) as Hl. unfold MAX_CPUS in *.
  unfold pick_cpu, cpu_ok. destruct (Z.leb_spec (sc_cpu_count st) (pc_cpu pc)).
  2:{ exists (Z.to_nat (pc_cpu pc)). lia. }
  set (rqs := take _ _). assert (Hlen : length rqs = Z.to_nat (sc_cpu_count st)) by (unfold rqs; rewrite length_take, Hl; lia).
  assert (Hload : forall i rq, rqs !! i = Some rq -> rq_load rq = load q i /\ cpu_ok st i).
  { intros i rq Hi. pose proof (lookup_lt_Some _ _ _ Hi). unfold rqs in Hi. apply lookup_take_Some in Hi as [Hi _].
    assert (cpu_ok st i) by (unfold cpu_ok; lia). split; [|done]. by apply (rq_load_ok st). }
  destruct (least_loaded_spec rqs 0 0xFFFFFFFF 0) as [[_ Hmin]|(j & rq & Hj & -> & _ & Hmin)].
  - destruct rqs as [|rq rqs']; [simpl in Hlen; lia|]. destruct (Hload 0%nat rq eq_refl) as [Hr Hc].
    pose proof (load_bound st q 0 Hinv Hc). specialize (Hmin rq ltac:(set_solver)). lia.
  - destruct (Hload j rq Hj) as [Hr Hc]. exists j. split_and!; [lia|exact Hc|].
    intros i Hi. destruct (lookup_lt_is_Some_2 rqs i) as [r Hir]; [unfold cpu_ok in *; lia|].
    destruct (Hload i r Hir) as [Hri _]. rewrite <- Hr, <- Hri. apply Hmin. by eapply list_elem_of_lookup_2.
Qed.

(** ** Enqueue and dequeue *)

Lemma lock_ok st q cpu rq :
  queues_inv st q -> sc_runq st !! cpu = Some rq -> rq_lock rq = false ->
  spin_lock st cpu = Some (set_sc_runq st (<[cpu := set_rq_lock rq true]> (sc_runq st))) /\
  queues_inv (set_sc_runq st (<[cpu := set_rq_lock rq true]> (sc_runq st))) q.
Proof.
  intros Hinv Hrq Hl. unfold spin_lock. rewrite Hrq. cbn [mbind option_bind]. rewrite Hl. unfold upd_rq. rewrite Hrq.
  split; [done|]. by eapply inv_upd_rq.
Qed.

Lemma unlock_ok st q cpu rq :
  queues_inv st q -> sc_runq st !! cpu = Some rq ->
  spin_unlock st cpu = Some (set_sc_runq st (<[cpu := set_rq_lock rq false]> (sc_runq st))) /\
  queues_inv (set_sc_runq st (<[cpu := set_rq_lock rq false]> (sc_runq st))) q.
Proof.
  intros Hinv Hrq. unfold spin_unlock, upd_rq. rewrite Hrq. split; [done|]. by eapply inv_upd_rq.
Qed.

Lemma ins_list_ext f g z key l :
  (forall x, x ∈ l -> f x = g x) -> ins_list f z key l = ins_list g z key l.
Proof.
  induction l as [|y l IH]; intros Heq; simpl; [done|]. rewrite Heq, IH by set_solver. done.
Qed.

(** The block of a process that was enqueued on [cpu]. *)
Definition readied (pc : pcb_t) (cpu : nat) : pcb_t := set_state_of (set_cpu_of pc (Z.of_nat cpu)) PROC_READY.

Lemma enqueue_ok st q p pc :
  queues_inv st q -> locks_free st -> sc_pcbs st !! p = Some pc -> pc_state pc <> PROC_READY -> 0 <= pc_cpu pc ->
  exists st' cpu, sched_enqueue st p = Some st' /\ cpu_ok st cpu /\
    (if sc_cpu_count st <=? pc_cpu pc then least st q cpu else Z.of_nat cpu = pc_cpu pc) /\
    sc_pcbs st' = <[p := readied pc cpu]> (sc_pcbs st) /\ locks_free st' /\
    let c := cls_ix (pc_sched_class pc) in
    queues_inv st' (set_queue q cpu c (ins_list (pri st) p (pc_priority pc) (q cpu c))).
Proof.
  intros Hinv Hlocks Hp Hst Hpc. pose proof (ready_unqueued _ _ _ _ Hinv Hp Hst) as Hun.
  destruct (pick_cpu_ok st q pc Hinv Hpc) as (cpu & Hpick & Hcpu & Hwhich).
  pose proof (qi_count _ _ Hinv) as Hn. unfold MAX_CPUS in Hn.
  unfold sched_enqueue. rewrite Hp. cbn [mbind option_bind]. rewrite Hpick, Nat2Z.id.
  unfold upd_pcb. rewrite Hp. cbn [mbind option_bind]. rewrite u8_small by (unfold cpu_ok in Hcpu; lia).
  fold (readied pc cpu). set (st1 := set_sc_pcbs st _).
  assert (Hinv1 : queues_inv st1 q) by (by eapply inv_upd_pcb).
  destruct (inv_lookup_rq st q cpu Hinv Hcpu) as [rq Hrq].
  destruct (lock_ok st1 q cpu rq Hinv1 Hrq (Hlocks cpu rq Hrq)) as [-> Hinv2]. cbn [mbind option_bind].
  set (st2 := set_sc_runq st1 _) in *. pose proof (lookup_lt_Some _ _ _ Hrq) as Hlt.
  assert (Hrq2 : sc_runq st2 !! cpu = Some (set_rq_lock rq true)) by (by apply list_lookup_insert_eq).
  assert (Hp2 : sc_pcbs st2 !! p = Some (readied pc cpu)) by apply lookup_insert_eq.
  destruct (rq_insert_ok st2 q cpu _ (pc_sched_class pc) p _ Hinv2 Hcpu Hrq2 Hun Hp2 eq_refl eq_refl eq_refl)
    as (nodes' & rq' & Hins & _ & _ & Hinv3).
  change (pc_priority (readied pc cpu)) with (pc_priority pc) in Hins, Hinv3. rewrite Hins. cbn [mbind option_bind].
  set (st3 := set_sc_runq (set_sc_nodes st2 nodes') _) in *.
  assert (Hrq3 : sc_runq st3 !! cpu = Some rq').
  { apply list_lookup_insert_eq. simpl. by rewrite length_insert. }
  destruct (unlock_ok st3 _ cpu rq' Hinv3 Hrq3) as [-> Hinv4].
  do 2 eexists. split_and!; [done|done|done|done| |].
  - intros i r Hi. simpl in Hi. destruct (decide (cpu = i)) as [<-|Hne].
    + rewrite list_lookup_insert_eq in Hi by (by rewrite !length_insert). by simplify_eq.
    + rewrite !list_lookup_insert_ne in Hi by done. by apply (Hlocks i).
  - assert (Hpri : forall x, pri st2 x = pri st x).
    { intros x. unfold pri. simpl. destruct (decide (x = p)) as [->|Hne]; [by rewrite lookup_insert_eq, Hp|by rewrite lookup_insert_ne]. }
    rewrite (ins_list_ext (pri st2) (pri st)) in Hinv4 by done. exact Hinv4.
Qed.

(** The process [sched_dequeue] should pick: the first of the first class that has
    any. *)
Definition next_of (q : queues) (cpu : nat) : option (Z * nat * list nat) :=
  match q cpu SCHED_RT, q cpu SCHED_INTR, q cpu SCHED_BATCH with
  | x :: r, _, _ => Some (SCHED_RT, x, r)
  | [], x :: r, _ => Some (SCHED_INTR, x, r)
  | [], [], x :: r => Some (SCHED_BATCH, x, r)
  | [], [], [] => None
  end.

Lemma take_first_ok st q cpu rq c x r :
  queues_inv st q -> cpu_ok st cpu -> sc_runq st !! cpu = Some rq -> is_class c -> q cpu c = x :: r ->
  exists nodes' rq', take_first st cpu c = Some (Some x, set_sc_runq (set_sc_nodes st nodes') (<[cpu := rq']> (sc_runq st))) /\
    rq_lock rq' = rq_lock rq /\ rq_idle_pcb rq' = rq_idle_pcb rq /\
    queues_inv (set_sc_runq (set_sc_nodes st nodes') (<[cpu := rq']> (sc_runq st))) (set_queue q cpu c r).
Proof.
  intros Hinv Hcpu Hrq Hc Hq. assert (Hix : cls_ix c = c) by (by destruct Hc as [->|[->| ->]]).
  destruct (qi_rep _ _ Hinv cpu rq c Hcpu Hrq Hc) as (_ & t & Ht & Hti).
  unfold take_first, rq_leftmost. rewrite Hrq. cbn [mbind option_bind]. rewrite (leftmost_ok _ _ Ht), Hti, Hq.
  cbn [mbind option_bind head].
  destruct (rq_remove_ok st q cpu rq c x [] r Hinv Hcpu Hrq) as (nodes' & rq' & -> & Hl & Hi & Hinv'); [by rewrite Hix|].
  rewrite Hix in Hinv'. by do 2 eexists.
Qed.

Lemma dequeue_ok st q cpu rq :
  queues_inv st q -> cpu_ok st cpu -> sc_runq st !! cpu = Some rq ->
  match next_of q cpu with
  | None => sched_dequeue st cpu = Some (rq_idle_pcb rq, st)
  | Some (c, x, r) =>
      exists nodes' rq', sched_dequeue st cpu =
          Some (Some x, set_sc_runq (set_sc_nodes st nodes') (<[cpu := rq']> (sc_runq st))) /\
        rq_lock rq' = rq_lock rq /\ rq_idle_pcb rq' = rq_idle_pcb rq /\
        queues_inv (set_sc_runq (set_sc_nodes st nodes') (<[cpu := rq']> (sc_runq st))) (set_queue q cpu c r)
  end.
Proof.
  intros Hinv Hcpu Hrq. destruct is_class_all as (H0 & H1 & H2). unfold sched_dequeue. rewrite Hrq. cbn [mbind option_bind].
  destruct (qi_rep _ _ Hinv cpu rq _ Hcpu Hrq H0) as [E0 _]. destruct (qi_rep _ _ Hinv cpu rq _ Hcpu Hrq H1) as [E1 _].
  destruct (qi_rep _ _ Hinv cpu rq _ Hcpu Hrq H2) as [E2 _]. cbn in E0, E1, E2. rewrite E0, E1, E2. unfold next_of.
  assert (Hgo : forall c x r, is_class c -> q cpu c = x :: r ->
    exists nodes' rq', ('(n, st') ← take_first st cpu c;
                        Some (match n with None => rq_idle_pcb rq | Some x => Some x end, st')) =
          Some (Some x, set_sc_runq (set_sc_nodes st nodes') (<[cpu := rq']> (sc_runq st))) /\
        rq_lock rq' = rq_lock rq /\ rq_idle_pcb rq' = rq_idle_pcb rq /\
        queues_inv (set_sc_runq (set_sc_nodes st nodes') (<[cpu := rq']> (sc_runq st))) (set_queue q cpu c r)).
  { intros c x r Hc Hq. destruct (take_first_ok st q cpu rq c x r Hinv Hcpu Hrq Hc Hq) as (n' & rq' & -> & ? & ? & ?).
    by exists n', rq'. }
  destruct (q cpu SCHED_RT) as [|x0 r0] eqn:Q0; [|by apply Hgo].
  destruct (q cpu SCHED_INTR) as [|x1 r1] eqn:Q1; [|by apply Hgo].
  destruct (q cpu SCHED_BATCH) as [|x2 r2] eqn:Q2; [|by apply Hgo]. done.
Qed.

(** The picked process comes before every other one of the CPU: its class is
    earlier, or the same with no larger priority value. *)
Lemma next_of_first st q cpu c x r :
  queues_inv st q -> cpu_ok st cpu -> next_of q cpu = Some (c, x, r) ->
  q cpu c = x :: r /\ is_class c /\
  forall c' y, is_class c' -> y ∈ q cpu c' -> c < c' \/ (c = c' /\ pri st x <= pri st y).
Proof.
  intros Hinv Hcpu Hn. destruct is_class_all as (H0 & H1 & H2).
  assert (Hmin : forall c x r, is_class c -> q cpu c = x :: r -> forall y, y ∈ q cpu c -> pri st x <= pri st y).
  { intros c0 x0 r0 Hc Hq y Hy. pose proof (qi_sorted _ _ Hinv cpu c0 Hcpu Hc) as Hs. rewrite Hq in Hs, Hy.
    apply StronglySorted_inv in Hs as [_ Hs]. rewrite Forall_forall in Hs. apply elem_of_cons in Hy as [->|Hy]; [lia|].
    by apply Hs. }
  assert (Hc : q cpu c = x :: r /\ is_class c /\ (c = SCHED_RT \/ (q cpu SCHED_RT = [] /\ c = SCHED_INTR) \/
                 (q cpu SCHED_RT = [] /\ q cpu SCHED_INTR = [] /\ c = SCHED_BATCH))).
  { unfold next_of in Hn. destruct (q cpu SCHED_RT) eqn:?; [destruct (q cpu SCHED_INTR) eqn:?; [destruct (q cpu SCHED_BATCH) eqn:?|]|];
      simplify_eq; split_and!; auto. }
  destruct Hc as (Hq & Hc & Hcase). split_and!; [done|done|]. intros c' y Hc' Hy.
  destruct (decide (c = c')) as [<-|Hne]; [right; split; [done|by eapply Hmin]|]. left.
  unfold SCHED_RT, SCHED_INTR, SCHED_BATCH, is_class in *.
  destruct Hc' as [->|[->| ->]], Hcase as [->|[[E0 ->]|(E0 & E1 & ->)]]; try lia; try done;
    unfold SCHED_RT, SCHED_INTR, SCHED_BATCH in *; (rewrite E0 in Hy || rewrite E1 in Hy); by apply not_elem_of_nil in Hy.
Qed.

(** ** Flaws *)

(** [sched_yield] by a thread that is neither idle nor waiting in [sched_reap]
    never returns: [sched_enqueue] spins on the lock that [sched_yield] holds. *)
Lemma sched_yield_deadlocks kernel_cr3 st now c pc rq :
  sc_runq st !! 0%nat = Some rq -> sc_current st !! 0%nat = Some (Some c) -> sc_pcbs st !! c = Some pc ->
  rq_idle_pcb rq <> Some c -> sc_reap_waiter st <> Some c -> pc_cpu pc = 0 -> 0 < sc_cpu_count st ->
  sched_yield kernel_cr3 st now = None.
Proof.
  intros Hrq Hcur Hpc Hidle Hwait Hcpu Hn. unfold sched_yield, spin_lock. rewrite Hrq. cbn [mbind option_bind].
  rewrite Hcur. cbn [mbind option_bind]. destruct (rq_lock rq); [done|]. unfold upd_rq. rewrite Hrq. cbn [mbind option_bind].
  simpl sc_reap_waiter. rewrite !bool_decide_eq_false_2 by congruence. cbn [negb andb].
  unfold sched_enqueue. simpl sc_pcbs. rewrite Hpc. cbn [mbind option_bind].
  unfold pick_cpu. rewrite Hcpu. simpl sc_cpu_count. destruct (Z.leb_spec (sc_cpu_count st) 0); [lia|].
  unfold upd_pcb. simpl sc_pcbs. rewrite Hpc. cbn [mbind option_bind]. unfold spin_lock. simpl sc_runq.
  change (Z.to_nat 0) with 0%nat. by rewrite list_lookup_insert_eq by (by eapply lookup_lt_Some).
Qed.

(** [sched_reap] moves the child to the real-time class before it takes it off the
    run queue; with no real-time process queued the call does nothing, and the
    child runs while it is still in the tree of its own class. *)
Lemma sched_reap_leaves_child_queued kernel_cr3 st pid p pc rq cur :
  sched_find st pid = Some (Some p) -> sc_pcbs st !! p = Some pc -> pc_state pc = PROC_READY -> rg_rip (pc_regs pc) <> 0 ->
  sched_current st = Some cur -> sc_runq st !! 0%nat = Some rq -> rq_lock rq = false -> rq_rt_count rq = 0 ->
  exists saved st' rq', sched_reap_start kernel_cr3 st pid = Some (Some saved, Switched p, st') /\
    sc_nodes st' = sc_nodes st /\ sc_runq st' !! 0%nat = Some rq' /\ rq_batch_tree rq' = rq_batch_tree rq /\
    rq_intr_tree rq' = rq_intr_tree rq.
Proof.
  intros Hf Hp Hst Hrip Hcur Hrq Hlock Hrt. pose proof (lookup_lt_Some _ _ _ Hrq) as Hlt.
  unfold sched_reap_start. rewrite Hf. cbn [mbind option_bind]. rewrite Hcur. cbn [mbind option_bind].
  simpl sc_pcbs. rewrite Hp. cbn [mbind option_bind]. unfold upd_pcb at 1. simpl sc_pcbs. rewrite Hp. cbn [mbind option_bind].
  rewrite Hst, (proj2 (Z.eqb_neq _ _) Hrip). cbn [Z.eqb Pos.eqb andb negb PROC_READY].
  unfold spin_lock at 1, upd_rq at 1. simpl sc_runq. rewrite Hrq. cbn [mbind option_bind]. rewrite Hlock.
  cbn [mbind option_bind]. unfold sched_takeoff_runq_locked. simpl sc_pcbs. rewrite lookup_insert_eq. cbn [mbind option_bind].
  simpl pc_state. rewrite Hst. cbn [Z.eqb Pos.eqb negb PROC_READY]. simpl sc_runq. rewrite list_lookup_insert_eq by done.
  cbn [mbind option_bind]. change (class_count _ _) with (rq_rt_count rq). rewrite Hrt. cbn [Z.eqb orb mbind option_bind].
  unfold spin_unlock, upd_rq. simpl sc_runq. rewrite list_lookup_insert_eq by done. cbn [mbind option_bind].
  unfold make_current, upd_pcb, upd_rq. simpl sc_pcbs. rewrite lookup_insert_eq. cbn [mbind option_bind].
  simpl sc_runq. rewrite list_lookup_insert_eq by (by rewrite length_insert). cbn [mbind option_bind].
  unfold enter_thread. simpl sc_pcbs. rewrite lookup_insert_eq. cbn [mbind option_bind].
  do 3 eexists. split; [done|]. simpl. rewrite list_lookup_insert_eq by (by rewrite !length_insert). done.
Qed.

(** ** Work stealing *)

Definition lockmap (st : sched_st) : list bool := rq_lock <$> sc_runq st.

Lemma lockmap_insert st cpu rq rq' :
  sc_runq st !! cpu = Some rq -> rq_lock rq' = rq_lock rq ->
  rq_lock <$> <[cpu := rq']> (sc_runq st) = lockmap st.
Proof.
  intros Hrq Hl. unfold lockmap. rewrite list_fmap_insert, Hl. apply list_insert_id. by rewrite list_lookup_fmap, Hrq.
Qed.

(** The classes are the three of sched.h. *)
Definition classes_ok (st : sched_st) : Prop := forall x pc, sc_pcbs st !! x = Some pc -> is_class (pc_sched_class pc).

(** [q'] is [q] with some interactive and batch processes of [v] moved to [me]. *)
Record moved (v me : nat) (q q' : queues) : Prop := {
  mv_rt : forall cpu, q' cpu SCHED_RT = q cpu SCHED_RT;
  mv_other : forall cpu c, cpu <> v -> cpu <> me -> q' cpu c = q cpu c;
  mv_same : forall c, is_class c -> q' v c ++ q' me c ≡ₚ q v c ++ q me c;
}.

Lemma moved_refl v me q : moved v me q q.
Proof. by constructor. Qed.

Lemma moved_trans v me q1 q2 q3 : moved v me q1 q2 -> moved v me q2 q3 -> moved v me q1 q3.
Proof.
  intros [A1 A2 A3] [B1 B2 B3]. constructor.
  - intros cpu. by rewrite B1.
  - intros cpu c H1 H2. by rewrite B2, A2.
  - intros c Hc. by rewrite B3, A3.
Qed.

(** The number of processes of a CPU that can be stolen. *)
Definition stealable (q : queues) (cpu : nat) : nat := (length (q cpu SCHED_INTR) + length (q cpu SCHED_BATCH))%nat.

Lemma set_queue_eq q cpu c l : set_queue q cpu c l cpu c = l.
Proof. unfold set_queue. by rewrite decide_True. Qed.

Lemma set_queue_ne q cpu c l cpu' c' : cpu' <> cpu \/ c' <> c -> set_queue q cpu c l cpu' c' = q cpu' c'.
Proof. intros H. unfold set_queue. rewrite decide_False; [done|]. intros [-> ->]. by destruct H. Qed.

(** Taking the first process of class [c] of [v] to class [c] of [me]. *)
Lemma moved_one v me c x r l q :
  v <> me -> is_class c -> c <> SCHED_RT -> q v c = x :: r -> l ≡ₚ x :: q me c ->
  let q' := set_queue (set_queue q v c r) me c l in
  moved v me q q' /\ S (stealable q' v) = stealable q v.
Proof.
  intros Hne Hc Hrt Hq Hl q'. split; [constructor|].
  - intros cpu. unfold q'. by rewrite !set_queue_ne by (right; congruence).
  - intros cpu c' H1 H2. unfold q'. by rewrite !set_queue_ne by tauto.
  - intros c' Hc'. unfold q'. destruct (decide (c' = c)) as [->|Hd]; [|by rewrite !set_queue_ne by tauto].
    rewrite (set_queue_ne _ me) by auto. rewrite !set_queue_eq, Hl, Hq. solve_Permutation.
  - unfold stealable, q'. rewrite !(set_queue_ne _ me) by auto.
    destruct Hc as [->|[->| ->]]; [done| |]; rewrite set_queue_eq, Hq, set_queue_ne by (by right); simpl; lia.
Qed.

(** Moving the process [x] at the front of class [c]. *)
Lemma steal_one st q v me c x r pc :
  queues_inv st q -> classes_ok st -> cpu_ok st v -> cpu_ok st me -> v <> me -> is_class c -> c <> SCHED_RT ->
  q v c = x :: r -> sc_pcbs st !! x = Some pc -> pc_sched_class pc = c ->
  exists st', (st ← rq_remove st v c x;
               st ← upd_pcb st x (fun pc => set_cpu_of pc (u8 (Z.of_nat me)));
               rq_insert st me c x (pc_priority pc)) = Some st' /\
    lockmap st' = lockmap st /\ classes_ok st' /\ sc_cpu_count st' = sc_cpu_count st /\
    exists q', queues_inv st' q' /\ moved v me q q' /\ S (stealable q' v) = stealable q v.
Proof.
  intros Hinv Hcls Hv Hme Hne Hc Hrt Hq Hx Hxc. assert (Hix : cls_ix c = c) by (by destruct Hc as [->|[->| ->]]).
  destruct (inv_lookup_rq st q v Hinv Hv) as [rv Hrv].
  destruct (rq_remove_ok st q v rv c x [] r Hinv Hv Hrv) as (n1 & rq1 & -> & Hl1 & _ & Hinv1); [by rewrite Hix|].
  cbn [mbind option_bind]. rewrite Hix in Hinv1. simpl app in Hinv1. set (st1 := set_sc_runq _ _) in *.
  set (q1 := set_queue q v c r) in *. unfold upd_pcb. change (sc_pcbs st1) with (sc_pcbs st). rewrite Hx.
  cbn [mbind option_bind]. pose proof (qi_count _ _ Hinv) as Hn. unfold MAX_CPUS in Hn.
  rewrite u8_small by (unfold cpu_ok in Hme; lia). set (pc2 := set_cpu_of pc (Z.of_nat me)).
  set (st2 := set_sc_pcbs st1 _).
  assert (Hun : unqueued st1 q1 x).
  { intros cpu c' Hcpu Hc'. unfold q1, set_queue. case_decide as Hd.
    - pose proof (queue_nodup st q v c Hinv Hv Hc) as Hnd. rewrite Hq in Hnd. by apply NoDup_cons in Hnd as [? _].
    - intros Hin. apply Hd. destruct (queue_unique st q v c cpu c' x Hinv Hv Hc Hcpu Hc') as [-> ->]; [rewrite Hq; set_solver|done|done]. }
  assert (Hinv2 : queues_inv st2 q1) by (by eapply (inv_upd_pcb st1)).
  destruct (inv_lookup_rq st2 q1 me Hinv2 Hme) as [rm Hrm].
  assert (Hready : pc_state pc2 = PROC_READY).
  { destruct (qi_procs _ _ Hinv v c x Hv Hc) as (pc' & Hp' & Hs & _); [rewrite Hq; set_solver|]. by simplify_eq. }
  destruct (rq_insert_ok st2 q1 me rm c x pc2 Hinv2 Hme Hrm Hun) as (n3 & rq3 & Hins & Hl3 & _ & Hinv3);
    [apply lookup_insert_eq|done|done|done|]. rewrite Hix in Hinv3.
  change (pc_priority pc2) with (pc_priority pc) in Hins, Hinv3. rewrite Hins. eexists. split; [done|]. split_and!.
  - unfold lockmap at 1. simpl. etransitivity; [apply (lockmap_insert st2 me rm rq3 Hrm Hl3)|].
    unfold lockmap at 1. simpl. by apply lockmap_insert with rv.
  - intros y pcy. simpl. destruct (decide (x = y)) as [->|Hxy]; [rewrite lookup_insert_eq|rewrite lookup_insert_ne by done].
    + intros [= <-]. by apply (Hcls y pc).
    + apply Hcls.
  - done.
  - eexists. split; [exact Hinv3|]. apply (moved_one v me c x r); try done.
    rewrite ins_list_perm. unfold q1. by rewrite set_queue_ne by auto.
Qed.

Lemma cls_of_ready st q cpu c x :
  queues_inv st q -> classes_ok st -> cpu_ok st cpu -> is_class c -> x ∈ q cpu c ->
  exists pc, sc_pcbs st !! x = Some pc /\ pc_sched_class pc = c.
Proof.
  intros Hinv Hcls Hcpu Hc Hx. destruct (qi_procs _ _ Hinv cpu c x Hcpu Hc Hx) as (pc & Hp & _ & Hix & _).
  exists pc. split; [done|]. rewrite <- Hix. by destruct (Hcls x pc Hp) as [->|[->| ->]].
Qed.

(** The process [sched_steal] takes next, with its class. *)
Definition steal_next (q : queues) (v : nat) : option (Z * nat * list nat) :=
  match q v SCHED_BATCH, q v SCHED_INTR with
  | x :: r, _ => Some (SCHED_BATCH, x, r)
  | [], x :: r => Some (SCHED_INTR, x, r)
  | [], [] => None
  end.

Lemma steal_pick_ok st q v :
  queues_inv st q -> cpu_ok st v ->
  steal_pick st v = Some ((fun y => y.1.2) <$> steal_next q v).
Proof.
  intros Hinv Hv. destruct is_class_all as (_ & H1 & H2). destruct (inv_lookup_rq st q v Hinv Hv) as [rq Hrq].
  unfold steal_pick, rq_leftmost. rewrite Hrq. cbn [mbind option_bind].
  destruct (qi_rep _ _ Hinv v rq _ Hv Hrq H1) as (E1 & t1 & R1 & I1). destruct (qi_rep _ _ Hinv v rq _ Hv Hrq H2) as (E2 & t2 & R2 & I2).
  cbn in E1, E2. rewrite E1, E2, (leftmost_ok _ _ R1), (leftmost_ok _ _ R2), I1, I2. unfold steal_next.
  by destruct (q v SCHED_BATCH), (q v SCHED_INTR).
Qed.

Lemma steal_next_ok q v :
  match steal_next q v with
  | Some (c, x, r) => is_class c /\ c <> SCHED_RT /\ q v c = x :: r
  | None => stealable q v = 0%nat
  end.
Proof.
  unfold steal_next, stealable. destruct is_class_all as (_ & H1 & H2).
  destruct (q v SCHED_BATCH) eqn:E2, (q v SCHED_INTR) eqn:E1; first [done|split_and!; done].
Qed.

Lemma steal_loop_ok n st q v me :
  queues_inv st q -> classes_ok st -> cpu_ok st v -> cpu_ok st me -> v <> me -> (n <= stealable q v)%nat ->
  exists st' q', steal_loop st v me n = Some st' /\ lockmap st' = lockmap st /\ sc_cpu_count st' = sc_cpu_count st /\
    queues_inv st' q' /\ moved v me q q' /\ stealable q v = (n + stealable q' v)%nat.
Proof.
  revert st q. induction n as [|n IH]; intros st q Hinv Hcls Hv Hme Hne Hn.
  { exists st, q. split_and!; try done; apply moved_refl. }
  cbn [steal_loop]. rewrite (steal_pick_ok st q v Hinv Hv). cbn [mbind option_bind].
  pose proof (steal_next_ok q v) as Hnext. destruct (steal_next q v) as [[[c x] r]|]; [|lia].
  destruct Hnext as (Hc & Hrt & Hq). cbn [fmap option_fmap option_map fst snd].
  destruct (cls_of_ready st q v c x Hinv Hcls Hv Hc) as (pc & Hx & Hxc); [rewrite Hq; set_solver|].
  rewrite Hx. cbn [mbind option_bind]. rewrite Hxc.
  replace (if c =? SCHED_BATCH then SCHED_BATCH else SCHED_INTR) with c
    by (destruct Hc as [->|[->| ->]]; [done|done|done]).
  destruct (steal_one st q v me c x r pc Hinv Hcls Hv Hme Hne Hc Hrt Hq Hx Hxc)
    as (st1 & H1 & Hl1 & Hcls1 & Hn1 & q1 & Hinv1 & Hm1 & Hs1).
  apply bind_Some in H1 as (s1 & -> & H1). apply bind_Some in H1 as (s2 & E2 & H1). cbn [mbind option_bind].
  rewrite E2. cbn [mbind option_bind]. rewrite H1. cbn [mbind option_bind].
  destruct (IH st1 q1) as (st2 & q2 & -> & Hl2 & Hn2 & Hinv2 & Hm2 & Hs2); try done;
    [unfold cpu_ok in *; lia|unfold cpu_ok in *; lia|lia|].
  exists st2, q2. split_and!; [done|congruence|congruence|done|by eapply moved_trans|lia].
Qed.

Definition steal_load (rq : runq_t) : Z := u32 (rq_intr_count rq + rq_batch_count rq).

Lemma most_loaded_spec rqs i me m v m' v' :
  most_loaded rqs i me m v = (m', v') ->
  (m' = m /\ v' = v) \/ (m < m' /\ exists j rq, rqs !! j = Some rq /\ v' = i + Z.of_nat j /\ v' <> me /\ steal_load rq = m').
Proof.
  revert i m v. induction rqs as [|rq rqs IH]; intros i m v; cbn [most_loaded]; [intros [= -> ->]; by left|].
  destruct (Z.eqb_spec i me); [|fold (steal_load rq); destruct (Z.ltb_spec m (steal_load rq))].
  - intros [?|(Hm & j & r & Hj & -> & Hne & Hl)]%IH; [by left|]. right. split; [done|]. exists (S j), r. split_and!; [done|lia|lia|done].
  - intros [[-> ->]|(Hm & j & r & Hj & -> & Hne & Hl)]%IH; right.
    + split; [done|]. exists 0%nat, rq. split_and!; [done|lia|done|done].
    + split; [lia|]. exists (S j), r. split_and!; [done|lia|lia|done].
  - intros [?|(Hm & j & r & Hj & -> & Hne & Hl)]%IH; [by left|]. right. split; [done|]. exists (S j), r. split_and!; [done|lia|lia|done].
Qed.

Lemma steal_load_ok st q cpu rq :
  queues_inv st q -> cpu_ok st cpu -> sc_runq st !! cpu = Some rq -> steal_load rq = Z.of_nat (stealable q cpu).
Proof.
  intros Hinv Hcpu Hrq. destruct is_class_all as (_ & H1 & H2). pose proof (load_bound st q cpu Hinv Hcpu) as Hb.
  destruct (qi_rep _ _ Hinv cpu rq _ Hcpu Hrq H1) as [E1 _]. destruct (qi_rep _ _ Hinv cpu rq _ Hcpu Hrq H2) as [E2 _].
  cbn in E1, E2. unfold steal_load, stealable, load in *. rewrite !length_app in Hb. rewrite E1, E2, u32_small by lia. lia.
Qed.

Lemma locks_free_map st : locks_free st <-> Forall (fun b => b = false) (lockmap st).
Proof.
  unfold locks_free, lockmap. rewrite Forall_fmap, Forall_lookup. done.
Qed.

Lemma lock_step st q cpu :
  queues_inv st q -> cpu_ok st cpu -> lockmap st !! cpu = Some false ->
  exists st', spin_lock st cpu = Some st' /\ queues_inv st' q /\ lockmap st' = <[cpu := true]> (lockmap st) /\
    sc_cpu_count st' = sc_cpu_count st /\ sc_pcbs st' = sc_pcbs st.
Proof.
  intros Hinv Hcpu Hl. destruct (inv_lookup_rq st q cpu Hinv Hcpu) as [rq Hrq].
  unfold lockmap in Hl. rewrite list_lookup_fmap, Hrq in Hl. simplify_eq/=.
  destruct (lock_ok st q cpu rq Hinv Hrq) as [-> Hinv']; [done|]. eexists. split_and!; try done.
  unfold lockmap. simpl. by rewrite list_fmap_insert.
Qed.

Lemma unlock_step st q cpu :
  queues_inv st q -> cpu_ok st cpu ->
  exists st', spin_unlock st cpu = Some st' /\ queues_inv st' q /\ lockmap st' = <[cpu := false]> (lockmap st) /\
    sc_cpu_count st' = sc_cpu_count st.
Proof.
  intros Hinv Hcpu. destruct (inv_lookup_rq st q cpu Hinv Hcpu) as [rq Hrq].
  destruct (unlock_ok st q cpu rq Hinv Hrq) as [-> Hinv']. eexists. split_and!; try done.
  unfold lockmap. simpl. by rewrite list_fmap_insert.
Qed.

(** The part of [sched_steal] between taking and releasing the two locks. *)
Lemma steal_locked st q first second v me :
  queues_inv st q -> classes_ok st -> locks_free st -> first <> second -> cpu_ok st first -> cpu_ok st second ->
  cpu_ok st v -> cpu_ok st me -> v <> me ->
  exists st' q', (st ← spin_lock st first; st ← spin_lock st second; vq ← sc_runq st !! v;
      st ← steal_loop st v me (Z.to_nat (u32 (rq_intr_count vq + rq_batch_count vq) / 2));
      st ← spin_unlock st second; spin_unlock st first) = Some st' /\
    locks_free st' /\ queues_inv st' q' /\ moved v me q q' /\ stealable q v = (stealable q v / 2 + stealable q' v)%nat.
Proof.
  intros Hinv Hcls Hfree Hfs Hf1 Hf2 Hvok Hme Hne. rewrite locks_free_map in Hfree.
  assert (Hlk : forall cpu, cpu_ok st cpu -> lockmap st !! cpu = Some false).
  { intros cpu Hcpu. destruct (inv_lookup_rq st q cpu Hinv Hcpu) as [rq Hrq]. unfold lockmap in *.
    rewrite Forall_fmap, Forall_lookup in Hfree. rewrite list_lookup_fmap, Hrq. simpl. f_equal. by apply (Hfree cpu). }
  destruct (lock_step st q first Hinv Hf1 (Hlk _ Hf1)) as (st1 & -> & Hinv1 & Hl1 & Hn1 & Hp1). cbn [mbind option_bind].
  assert (Hcpu1 : forall cpu, cpu_ok st cpu -> cpu_ok st1 cpu) by (unfold cpu_ok; rewrite Hn1; done).
  destruct (lock_step st1 q second Hinv1 (Hcpu1 _ Hf2)) as (st2 & -> & Hinv2 & Hl2 & Hn2 & Hp2).
  { rewrite Hl1, list_lookup_insert_ne by done. by apply Hlk. }
  cbn [mbind option_bind]. assert (Hcpu2 : forall cpu, cpu_ok st cpu -> cpu_ok st2 cpu) by (unfold cpu_ok; rewrite Hn2, Hn1; done).
  destruct (inv_lookup_rq st2 q v Hinv2 (Hcpu2 _ Hvok)) as [rv2 Hrv2]. rewrite Hrv2. cbn [mbind option_bind].
  fold (steal_load rv2). rewrite (steal_load_ok st2 q v rv2 Hinv2 (Hcpu2 _ Hvok) Hrv2).
  replace (Z.to_nat (Z.of_nat (stealable q v) / 2)) with (stealable q v / 2)%nat
    by (change 2 with (Z.of_nat 2); rewrite <- Nat2Z.inj_div, Nat2Z.id; done).
  assert (Hcls2 : classes_ok st2) by (unfold classes_ok; rewrite Hp2, Hp1; done).
  destruct (steal_loop_ok (stealable q v / 2) st2 q v me Hinv2 Hcls2 (Hcpu2 _ Hvok) (Hcpu2 _ Hme) Hne)
    as (st3 & q' & -> & Hl3 & Hn3 & Hinv3 & Hmv & Hcnt); [apply Nat.Div0.div_le_upper_bound; lia|].
  cbn [mbind option_bind].
  assert (Hcpu3 : forall cpu, cpu_ok st cpu -> cpu_ok st3 cpu) by (unfold cpu_ok; rewrite Hn3, Hn2, Hn1; done).
  destruct (unlock_step st3 q' second Hinv3 (Hcpu3 _ Hf2)) as (st4 & -> & Hinv4 & Hl4 & Hn4). cbn [mbind option_bind].
  assert (Hc4 : cpu_ok st4 first) by (unfold cpu_ok; rewrite Hn4; by apply Hcpu3).
  destruct (unlock_step st4 q' first Hinv4 Hc4) as (st5 & -> & Hinv5 & Hl5 & _).
  exists st5, q'. split_and!; try done.
  rewrite locks_free_map, Hl5, Hl4, Hl3, Hl2, Hl1, list_insert_insert_eq.
  rewrite (list_insert_insert_ne _ second first) by done. rewrite list_insert_insert_eq. by repeat apply Forall_insert.
Qed.

Lemma steal_ok st q me :
  queues_inv st q -> classes_ok st -> locks_free st -> cpu_ok st me ->
  exists st' q', sched_steal st me = Some st' /\ locks_free st' /\ queues_inv st' q' /\
    (q' = q \/ exists v, v <> me /\ cpu_ok st v /\ moved v me q q' /\ (stealable q me + 2 < stealable q v)%nat /\
       stealable q v = (stealable q v / 2 + stealable q' v)%nat).
Proof.
  intros Hinv Hcls Hfree Hme. unfold sched_steal. pose proof (qi_count _ _ Hinv) as Hn. pose proof (qi_len _ _ Hinv) as Hlen.
  destruct (inv_lookup_rq st q me Hinv Hme) as [rqm Hrqm].
  destruct (most_loaded _ _ _ _ _) as [m v0] eqn:Hml. rewrite Hrqm. cbn [mbind option_bind].
  fold (steal_load rqm). rewrite (steal_load_ok st q me rqm Hinv Hme Hrqm).
  pose proof (load_bound st q me Hinv Hme) as Hb. unfold MAX_CPUS, SCHED_STEAL_THRESHOLD in *.
  destruct (Z.leb_spec m (u32 (Z.of_nat (stealable q me) + 2))) as [Hle|Hgt].
  { exists st, q. split_and!; auto. }
  pose proof (u32_range (Z.of_nat (stealable q me) + 2)) as Hr.
  apply most_loaded_spec in Hml as [[-> ->]|(_ & v & rqv & Hv & -> & Hvm & Hm)]; [lia|].
  apply lookup_take_Some in Hv as [Hrqv Hvn]. assert (Hvok : cpu_ok st v) by (unfold cpu_ok; lia).
  rewrite Z.add_0_l in *. rewrite Nat2Z.id. assert (Hne : v <> me) by lia.
  rewrite (steal_load_ok st q v rqv Hinv Hvok Hrqv) in Hm. subst m.
  pose proof (load_bound st q v Hinv Hvok) as Hbv.
  assert (Hs : forall cpu, Z.of_nat (stealable q cpu) <= load q cpu) by (intros; unfold stealable, load; rewrite !length_app; lia).
  pose proof (Hs me). pose proof (Hs v). rewrite u32_small in Hgt by lia. cbv zeta.
  destruct (steal_locked st q (if (me <? v)%nat then me else v) (if (me <? v)%nat then v else me) v me Hinv Hcls Hfree)
    as (st' & q' & -> & Hl & Hinv' & Hmv & Hcnt); [by destruct (me <? v)%nat; congruence|by destruct (me <? v)%nat|by destruct (me <? v)%nat|done|done|done|].
  exists st', q'. split_and!; try done. right. exists v. split_and!; try done. lia.
Qed.

(** [sched_wake] of a waiting process: the boost, then [sched_enqueue]. *)
Lemma wake_ok st q p pc now :
  queues_inv st q -> locks_free st -> sc_pcbs st !! p = Some pc -> 0 <= pc_cpu pc ->
  if pc_state pc =? PROC_WAIT then
    let pc1 := boost (set_wake_ns_of pc now) in
    exists st' cpu, sched_wake st now p = Some st' /\ cpu_ok st cpu /\
      sc_pcbs st' = <[p := readied pc1 cpu]> (sc_pcbs st) /\ locks_free st' /\
      let c := cls_ix (pc_sched_class pc) in
      queues_inv st' (set_queue q cpu c (ins_list (pri st) p (pc_priority pc1) (q cpu c)))
  else sched_wake st now p = Some st.
Proof.
  intros Hinv Hl Hp Hcpu. unfold sched_wake. rewrite Hp. cbn [mbind option_bind].
  destruct (Z.eqb_spec (pc_state pc) PROC_WAIT) as [Hw|Hw]; cbn [negb]; [|done].
  set (pc1 := boost _). unfold upd_pcb. rewrite Hp. cbn [mbind option_bind]. set (st1 := set_sc_pcbs st _).
  assert (Hpc1 : pc_state pc1 = PROC_WAIT /\ pc_cpu pc1 = pc_cpu pc /\ pc_sched_class pc1 = pc_sched_class pc).
  { unfold pc1, boost. simpl. destruct (_ =? _); done. }
  destruct Hpc1 as (Hs1 & Hc1 & Hk1).
  assert (Hun : unqueued st q p) by (eapply ready_unqueued; [done|done|rewrite Hw; done]).
  assert (Hinv1 : queues_inv st1 q) by (by eapply inv_upd_pcb).
  assert (Hp1 : sc_pcbs st1 !! p = Some pc1) by apply lookup_insert_eq.
  destruct (enqueue_ok st1 q p pc1 Hinv1 Hl Hp1) as (st2 & cpu & -> & Hok & _ & Hpcbs & Hl2 & Hinv2);
    [rewrite Hs1; done|lia|]. rewrite Hk1 in Hinv2.
  exists st2, cpu. split_and!; [done|done| |done|].
  - rewrite Hpcbs. simpl. by rewrite insert_insert_eq.
  - assert (Heq : ins_list (pri st1) p (pc_priority pc1) (q cpu (cls_ix (pc_sched_class pc)))
             = ins_list (pri st) p (pc_priority pc1) (q cpu (cls_ix (pc_sched_class pc)))).
    { apply ins_list_ext. intros x Hx. apply pri_insert. intros ->. by apply (Hun cpu (cls_ix (pc_sched_class pc)) Hok (cls_ix_class _)). }
    by rewrite <- Heq.
Qed.

(** ** A machine with two CPUs *)

Definition demo_pcb (state cls cpu priority : Z) : pcb_t :=
  mk_pcb 1 state cls cpu priority priority 0 0 0 None 0 (replicate 32 0) 0 0 0 None 0 (mk_regs 1 0 0 0 0 0).

Definition empty_rq (i : nat) : runq_t :=
  mk_runq false (Z.of_nat i) None None None 0 0 0 (Some (idle_pcb i)) (Some (idle_pcb i)) 0 0 0.

(** Three batch processes are queued on CPU 1; process 4 waits for I/O. *)
Definition demo_sched : sched_st :=
  mk_sched (empty_rq 0 :: set_batch (empty_rq 1) (Some 2%nat) 3 :: (empty_rq <$> seq 2 62)) 2
    (<[1%nat := demo_pcb PROC_READY SCHED_BATCH 1 10]> (<[2%nat := demo_pcb PROC_READY SCHED_BATCH 1 20]>
      (<[3%nat := demo_pcb PROC_READY SCHED_BATCH 1 30]> (<[4%nat := demo_pcb PROC_WAIT SCHED_INTR 2 25]> ∅))))
    (rb_heap demo_queue) 5 4 (mk_sched_state 0 2 [] 0 0) [] None false 0 None [] [].

Definition demo_queues : queues := set_queue (fun _ _ => []) 1 SCHED_BATCH [1%nat; 2%nat; 3%nat].

Lemma demo_cpu cpu : cpu_ok demo_sched cpu -> cpu = 0%nat \/ cpu = 1%nat.
Proof. unfold cpu_ok. simpl. lia. Qed.

Lemma demo_queues_cases cpu c : demo_queues cpu c = [] \/ (cpu = 1%nat /\ c = SCHED_BATCH /\ demo_queues cpu c = [1%nat; 2%nat; 3%nat]).
Proof. unfold demo_queues, set_queue. case_decide; [right|left]; tauto. Qed.

Lemma rep_empty H : rep (mk_rb None H) [] E.
Proof. constructor; [done|done|]. constructor. Qed.

Lemma demo_sched_inv : queues_inv demo_sched demo_queues.
Proof.
  constructor.
  - unfold MAX_CPUS. simpl. lia.
  - reflexivity.
  - vm_compute. done.
  - intros cpu rq c Hcpu Hrq Hc. destruct (demo_cpu cpu Hcpu) as [->| ->]; simpl in Hrq; simplify_eq.
    + split; [by destruct Hc as [->|[->| ->]]|]. exists E. split; [|by destruct Hc as [->|[->| ->]]].
      destruct Hc as [->|[->| ->]]; apply rep_empty.
    + destruct Hc as [->|[->| ->]]; (split; [done|]);
        [exists E; split; [apply rep_empty|done]|exists E; split; [apply rep_empty|done]|exists demo_tree; split; [apply demo_rep|done]].
  - intros cpu c _ _. destruct (demo_queues_cases cpu c) as [->|(-> & -> & ->)]; [constructor|].
    repeat apply SSorted_cons; try apply SSorted_nil; rewrite Forall_forall; intros y Hy;
      rewrite ?elem_of_cons in Hy; destruct_or? Hy; subst; try (by apply not_elem_of_nil in Hy); by vm_compute.
  - intros cpu c x _ _ Hx. destruct (demo_queues_cases cpu c) as [Hq|(-> & -> & Hq)]; rewrite Hq in Hx; clear Hq;
      [by apply not_elem_of_nil in Hx|].
    rewrite !elem_of_cons in Hx. destruct Hx as [->|[->|[->|Hx%not_elem_of_nil]]]; try done; eexists; split_and!; reflexivity.
  - intros x pc Hx. simpl in Hx. rewrite !lookup_insert in Hx. repeat case_decide; subst; try (eexists; reflexivity).
    by rewrite lookup_empty in Hx.
Qed.

Lemma demo_locks : locks_free demo_sched.
Proof. apply locks_free_map. repeat constructor. Qed.

Lemma demo_classes : classes_ok demo_sched.
Proof.
  intros x pc Hx. simpl in Hx. rewrite !lookup_insert in Hx. repeat case_decide; simplify_eq; simpl; unfold is_class; auto.
Qed.

(** ** Properties *)

(** C20: [sched_enqueue] of a process that is not queued returns without blocking
    when no lock is held. It keeps the CPU of the process when that is a live one
    and otherwise takes the least loaded CPU; it marks the process ready, inserts
    it into the tree of its class at its place in the priority order, leaves every
    other queue as it was and releases the lock. *)
Theorem sched_enqueue_ok st q p pc :
  queues_inv st q -> locks_free st -> sc_pcbs st !! p = Some pc -> pc_state pc <> PROC_READY -> 0 <= pc_cpu pc ->
  exists st' cpu, sched_enqueue st p = Some st' /\ cpu_ok st cpu /\
    (if sc_cpu_count st <=? pc_cpu pc then least st q cpu else Z.of_nat cpu = pc_cpu pc) /\
    sc_pcbs st' = <[p := readied pc cpu]> (sc_pcbs st) /\ locks_free st' /\
    let c := cls_ix (pc_sched_class pc) in
    queues_inv st' (set_queue q cpu c (ins_list (pri st) p (pc_priority pc) (q cpu c))).
Proof. apply enqueue_ok. Qed.

Lemma sched_enqueue_ok_witness :
  exists st' cpu, sched_enqueue demo_sched 4 = Some st' /\ cpu_ok demo_sched cpu /\
    (if sc_cpu_count demo_sched <=? 2 then least demo_sched demo_queues cpu else Z.of_nat cpu = 2) /\
    sc_pcbs st' = <[4%nat := readied (demo_pcb PROC_WAIT SCHED_INTR 2 25) cpu]> (sc_pcbs demo_sched) /\ locks_free st' /\
    let c := SCHED_INTR in
    queues_inv st' (set_queue demo_queues cpu c (ins_list (pri demo_sched) 4 25 (demo_queues cpu c))).
Proof.
  apply (sched_enqueue_ok demo_sched demo_queues 4 (demo_pcb PROC_WAIT SCHED_INTR 2 25));
    [apply demo_sched_inv|apply demo_locks|reflexivity|done|simpl; lia].
Defined.

(** [sched_dequeue] takes the process that every scheduling class and priority
    order puts first: its class is earlier than that of any other process of the
    CPU, or equal with no larger priority value. Only that process leaves its
    queue; with nothing queued the idle process is returned and nothing changes. *)
Theorem sched_dequeue_ok st q cpu rq :
  queues_inv st q -> cpu_ok st cpu -> sc_runq st !! cpu = Some rq ->
  exists r st', sched_dequeue st cpu = Some (r, st') /\
    ((r = rq_idle_pcb rq /\ st' = st /\ forall c, is_class c -> q cpu c = []) \/
     exists c x l, r = Some x /\ is_class c /\ q cpu c = x :: l /\ queues_inv st' (set_queue q cpu c l) /\
       sc_pcbs st' = sc_pcbs st /\ lockmap st' = lockmap st /\
       forall c' y, is_class c' -> y ∈ q cpu c' -> c < c' \/ (c = c' /\ pri st x <= pri st y)).
Proof.
  intros Hinv Hcpu Hrq. pose proof (dequeue_ok st q cpu rq Hinv Hcpu Hrq) as Hd.
  destruct (next_of q cpu) as [[[c x] l]|] eqn:Hn.
  - destruct Hd as (nodes' & rq' & -> & Hl & _ & Hinv'). destruct (next_of_first _ _ _ _ _ _ Hinv Hcpu Hn) as (Hq & Hc & Hmin).
    do 2 eexists. split; [done|]. right. exists c, x, l. split_and!; try done.
    by apply (lockmap_insert st cpu rq rq').
  - rewrite Hd. do 2 eexists. split; [done|]. left. split_and!; [done|done|]. unfold next_of in Hn.
    intros c [->|[->| ->]]; destruct (q cpu SCHED_RT), (q cpu SCHED_INTR), (q cpu SCHED_BATCH); done.
Qed.

Lemma sched_dequeue_ok_witness :
  exists r st', sched_dequeue demo_sched 1 = Some (r, st') /\
    ((r = Some (idle_pcb 1) /\ st' = demo_sched /\ forall c, is_class c -> demo_queues 1%nat c = []) \/
     exists c x l, r = Some x /\ is_class c /\ demo_queues 1%nat c = x :: l /\ queues_inv st' (set_queue demo_queues 1 c l) /\
       sc_pcbs st' = sc_pcbs demo_sched /\ lockmap st' = lockmap demo_sched /\
       forall c' y, is_class c' -> y ∈ demo_queues 1%nat c' -> c < c' \/ (c = c' /\ pri demo_sched x <= pri demo_sched y)).
Proof.
  apply (sched_dequeue_ok demo_sched demo_queues 1 (set_batch (empty_rq 1) (Some 2%nat) 3));
    [apply demo_sched_inv|unfold cpu_ok; simpl; lia|reflexivity].
Defined.

(** [sched_wake] makes a waiting process runnable exactly once: it boosts the
    process, queues it on a live CPU at the place its boosted priority gives, and
    leaves the run queues consistent and unlocked; it does nothing to a process
    that is not waiting. *)
Theorem sched_wake_ok st q p pc now :
  queues_inv st q -> locks_free st -> sc_pcbs st !! p = Some pc -> 0 <= pc_cpu pc ->
  if pc_state pc =? PROC_WAIT then
    let pc1 := boost (set_wake_ns_of pc now) in
    exists st' cpu, sched_wake st now p = Some st' /\ cpu_ok st cpu /\
      sc_pcbs st' = <[p := readied pc1 cpu]> (sc_pcbs st) /\ locks_free st' /\
      let c := cls_ix (pc_sched_class pc) in
      queues_inv st' (set_queue q cpu c (ins_list (pri st) p (pc_priority pc1) (q cpu c)))
  else sched_wake st now p = Some st.
Proof. apply wake_ok. Qed.

Lemma sched_wake_ok_witness :
  let pc1 := boost (set_wake_ns_of (demo_pcb PROC_WAIT SCHED_INTR 2 25) 7) in
  exists st' cpu, sched_wake demo_sched 7 4 = Some st' /\ cpu_ok demo_sched cpu /\
    sc_pcbs st' = <[4%nat := readied pc1 cpu]> (sc_pcbs demo_sched) /\ locks_free st' /\
    let c := SCHED_INTR in
    queues_inv st' (set_queue demo_queues cpu c (ins_list (pri demo_sched) 4 (pc_priority pc1) (demo_queues cpu c))).
Proof.
  apply (sched_wake_ok demo_sched demo_queues 4 (demo_pcb PROC_WAIT SCHED_INTR 2 25) 7);
    [apply demo_sched_inv|apply demo_locks|reflexivity|simpl; lia].
Defined.


