(* ===== verification/VfsPath.v ===== *)
(** * Paths of the virtual file system (src/kernel/vfs/vfs.c)

    [vfs_canonicalize] with its working copy and its stack of component offsets,
    and [base_name]; the specification splits a path at the slashes, resolves the
    components and joins them again. *)

From Stdlib Require Import ZArith Lia.
From stdpp Require Import base strings sets list.
From S2P Require Import Prelude KString.

Local Open Scope Z_scope.

Definition VFS_PATH_MAX : nat := 256.
Definition SLASH : Z := 47.
Definition DOT : Z := 46.

(** [while ( *p == '/') p++], then [while ( *p && *p != '/') p++]; [p] is an offset in
    the working copy. *)
Fixpoint skip_slashes (fuel : nat) (work : list Z) (p : nat) : option nat :=
  match fuel with
  | O => None
  | S fuel' => c ← work !! p; if c =? SLASH then skip_slashes fuel' work (S p) else Some p
  end.

Fixpoint seg_end (fuel : nat) (work : list Z) (p : nat) : option nat :=
  match fuel with
  | O => None
  | S fuel' => c ← work !! p; if (c =? 0) || (c =? SLASH) then Some p else seg_end fuel' work (S p)
  end.

(** The three kinds of component at [seg]. *)
Inductive component := CSkip | CUp | CName.

Definition classify (work : list Z) (seg : nat) : option component :=
  c0 ← work !! seg;
  if c0 =? 0 then Some CSkip
  else if c0 =? DOT then
    c1 ← work !! S seg;
    if c1 =? 0 then Some CSkip
    else if c1 =? DOT then c2 ← work !! S (S seg); Some (if c2 =? 0 then CUp else CName)
    else Some CName
  else Some CName.

(** The loop over the components; [Some None] is the return of -1 when the stack
    is full. *)
Fixpoint split_loop (fuel : nat) (work : list Z) (p : nat) (stk : list nat) : option (option (list Z * list nat)) :=
  match fuel with
  | O => None
  | S fuel' =>
      c ← work !! p;
      if c =? 0 then Some (Some (work, stk))
      else
        let seg := p in
        p ← seg_end (length work) work p;
        e ← work !! p;
        let '(work, p) := if e =? SLASH then (<[p := 0]> work, S p) else (work, p) in
        k ← classify work seg;
        match k with
        | CSkip => split_loop fuel' work p stk
        | CUp => split_loop fuel' work p (take (length stk - 1) stk)
        | CName =>
            if (VFS_PATH_MAX / 2 - 1 <=? length stk)%nat then Some None
            else split_loop fuel' work p (stk ++ [seg])
        end
  end.

(** The loop that writes the components to [out] from [pos] on; the boolean is
    false when it returned -1. *)
Fixpoint join_loop (work : list Z) (segs : list nat) (first : bool) (out : list Z) (pos out_sz : nat)
    : option (bool * list Z * nat) :=
  match segs with
  | [] => Some (true, out, pos)
  | seg :: segs' =>
      slen ← strlen (drop seg work);
      if (out_sz <? pos + slen + 2)%nat then Some (false, out, pos)
      else
        '(out, pos) ← (if first then Some (out, pos)
                       else if decide (pos < length out)%nat then Some (<[pos := SLASH]> out, S pos) else None);
        out ← memcpy_obj out pos (drop seg work) slen;
        join_loop work segs' false out (pos + slen) out_sz
  end.

(** The path of the components [stk] in [out]. *)
Definition join_all (work : list Z) (stk : list nat) (out : list Z) (out_sz : nat) : option (Z * list Z) :=
  out ← put out 0 SLASH;
  '(ok, out, pos) ← join_loop work stk true out 1 out_sz;
  if negb ok then Some (-1, out) else out ← put out pos 0; Some (0, out).

(** [path] is [None] for a null pointer; the result is the return value and the
    buffer [out]. *)
Definition vfs_canonicalize (path : option (list Z)) (out : list Z) (out_sz : nat) : option (Z * list Z) :=
  match path with
  | None => Some (-1, out)
  | Some path =>
      if (out_sz =? 0)%nat then Some (-1, out)
      else
        plen ← strlen path;
        if (VFS_PATH_MAX <=? plen)%nat then Some (-1, out)
        else
          work ← memcpy_obj (replicate VFS_PATH_MAX 0) 0 path (plen + 1);
          p ← skip_slashes (length work) work 0;
          r ← split_loop (length work) work p [];
          match r with
          | None => Some (-1, out)
          | Some (work, stk) => join_all work stk out out_sz
          end
  end.

Definition base_name (path : list Z) (out : list Z) (out_sz : nat) : option (list Z) :=
  sep ← strrchr path SLASH;
  let name := match sep with Some i => drop (S i) path | None => path end in
  out ← strncpy out name (out_sz - 1);
  put out (out_sz - 1) 0.

(** ** Specification *)

Fixpoint split (s : list Z) : list (list Z) :=
  match s with
  | [] => [[]]
  | c :: s' => if c =? SLASH then [] :: split s' else match split s' with h :: t => (c :: h) :: t | [] => [[c]] end
  end.

Definition kind_of (c : list Z) : component :=
  if decide (c = []) then CSkip else if decide (c = [DOT]) then CSkip
  else if decide (c = [DOT; DOT]) then CUp else CName.

(** The components after dot and dot-dot are resolved against the root; [None]
    when more than 127 are pending. *)
Fixpoint resolve (acc : list (list Z)) (cs : list (list Z)) : option (list (list Z)) :=
  match cs with
  | [] => Some acc
  | c :: cs' =>
      match kind_of c with
      | CSkip => resolve acc cs'
      | CUp => resolve (take (length acc - 1) acc) cs'
      | CName => if (127 <=? length acc)%nat then None else resolve (acc ++ [c]) cs'
      end
  end.

Fixpoint join (cs : list (list Z)) : list Z :=
  match cs with
  | [] => []
  | c :: cs' => match cs' with [] => c | _ => c ++ SLASH :: join cs' end
  end.

Definition render (cs : list (list Z)) : list Z := SLASH :: join cs.

(** The room [vfs_canonicalize] asks for. *)
Definition fits (cs : list (list Z)) (out_sz : nat) : Prop :=
  match cs with
  | [] => True
  | [c] => (length c + 3 <= out_sz)%nat
  | _ => (length (render cs) + 1 <= out_sz)%nat
  end.

(** A component of a canonical path. *)
Definition clean (c : list Z) : Prop := kind_of c = CName /\ SLASH ∉ c.

(** ** Lemmas *)

Lemma split_seg seg r : SLASH ∉ seg -> split (seg ++ SLASH :: r) = seg :: split r.
Proof.
  induction seg as [|c seg IH]; intros Hs; simpl; [done|].
  apply not_elem_of_cons in Hs as [Hc Hs]. destruct (Z.eqb_spec c SLASH); [done|]. by rewrite IH.
Qed.

Lemma split_last seg : SLASH ∉ seg -> split seg = [seg].
Proof.
  induction seg as [|c seg IH]; intros Hs; simpl; [done|].
  apply not_elem_of_cons in Hs as [Hc Hs]. destruct (Z.eqb_spec c SLASH); [done|]. by rewrite IH.
Qed.

Lemma first_seg rem : exists seg, (SLASH ∉ seg) /\ (rem = seg \/ (exists r, rem = seg ++ SLASH :: r)).
Proof.
  induction rem as [|c rem (seg & Hs & Hr)].
  - exists []. split; [apply not_elem_of_nil|]. by left.
  - destruct (decide (c = SLASH)) as [->|Hc].
    + exists []. split; [apply not_elem_of_nil|]. right. by exists rem.
    + exists (c :: seg). split; [by apply not_elem_of_cons|].
      destruct Hr as [->|[r ->]]; [by left|right; by exists r].
Qed.

Lemma skip_slashes_ok fuel pre k c rest :
  c <> SLASH -> (k < fuel)%nat ->
  skip_slashes fuel (pre ++ replicate k SLASH ++ c :: rest) (length pre) = Some (length pre + k)%nat.
Proof.
  intros Hc. revert pre k. induction fuel as [|fuel IH]; intros pre k Hk; [lia|].
  cbn [skip_slashes]. rewrite lookup_app_r, Nat.sub_diag by lia. destruct k as [|k]; simpl.
  - destruct (Z.eqb_spec c SLASH); [done|]. f_equal; lia.
  - specialize (IH (pre ++ [SLASH]) k ltac:(lia)). rewrite <- app_assoc, length_app in IH.
    simpl in IH. rewrite Nat.add_1_r in IH. rewrite IH. f_equal; lia.
Qed.

Definition str_ok (s : list Z) : Prop := Forall (fun b => 0 < b < 256) s.

Lemma seg_end_ok fuel pre seg e rest :
  (SLASH ∉ seg) -> str_ok seg -> e = 0 \/ e = SLASH -> (length seg < fuel)%nat ->
  seg_end fuel (pre ++ seg ++ e :: rest) (length pre) = Some (length pre + length seg)%nat.
Proof.
  intros Hs Hb He. revert fuel pre. induction Hb as [|c seg Hc Hb IH]; intros [|fuel] pre Hf; simpl in Hf; try lia;
    cbn [seg_end]; rewrite lookup_app_r, Nat.sub_diag by lia; simpl.
  - destruct He as [-> | ->]; simpl; f_equal; lia.
  - apply not_elem_of_cons in Hs as [Hc' Hs]. destruct (Z.eqb_spec c 0), (Z.eqb_spec c SLASH); try lia; try done. simpl.
    specialize (IH Hs fuel (pre ++ [c]) ltac:(lia)). rewrite <- app_assoc, length_app, Nat.add_1_r in IH. simpl in IH.
    rewrite IH. f_equal; lia.
Qed.

Lemma classify_ok work seg c : cstring (drop seg work) c -> classify work seg = Some (kind_of c).
Proof.
  intros (rest & Hw & Hc). assert (Hl : forall k, work !! (seg + k)%nat = (c ++ 0 :: rest) !! k).
  { intros k. by rewrite <- Hw, lookup_drop. }
  unfold classify, kind_of. pose proof (Hl 0%nat) as L0. pose proof (Hl 1%nat) as L1. pose proof (Hl 2%nat) as L2.
  rewrite Nat.add_0_r in L0. rewrite Nat.add_1_r in L1. replace (seg + 2)%nat with (S (S seg)) in L2 by lia. rewrite L0, L1, L2.
  destruct c as [|c0 c]; [done|]. inversion_clear Hc as [|? ? H0 Hc']. simpl.
  destruct (Z.eqb_spec c0 0); [lia|]. destruct (Z.eqb_spec c0 DOT) as [->|Hd].
  2: { by repeat case_decide; simplify_eq. }
  destruct c as [|c1 c]; [done|]. inversion_clear Hc' as [|? ? H1 Hc]. simpl.
  destruct (Z.eqb_spec c1 0); [lia|]. destruct (Z.eqb_spec c1 DOT) as [->|Hd1].
  2: { by repeat case_decide; simplify_eq. }
  destruct c as [|c2 c]; [done|]. inversion_clear Hc as [|? ? H2 Hc']. simpl.
  destruct (Z.eqb_spec c2 0); [lia|]. by repeat case_decide; simplify_eq.
Qed.

Lemma cstring_insert work o c q v :
  cstring (drop o work) c -> (o + length c < q)%nat -> cstring (drop o (<[q := v]> work)) c.
Proof.
  intros (rest & Hw & Hc) Hq. rewrite drop_insert_ge, Hw by lia. rewrite insert_app_r_alt by lia.
  destruct (q - o - length c)%nat as [|k] eqn:Hk; [lia|]. simpl. by eexists.
Qed.

(** The stack holds the components of [acc], and each ends before the cursor. *)
Definition stack_rep (work : list Z) (limit : nat) (last : bool) (stk : list nat) (acc : list (list Z)) : Prop :=
  Forall2 (fun o c => cstring (drop o work) c /\ ((o + length c < limit)%nat \/ last = true)) stk acc.

Lemma stack_rep_insert work limit stk acc q v :
  stack_rep work limit false stk acc -> (limit <= q)%nat -> stack_rep (<[q := v]> work) (S q) false stk acc.
Proof.
  intros H Hq. eapply Forall2_impl; [exact H|]. simpl. intros o c [Hc [Hl|?]]; [|done].
  split; [by apply cstring_insert; [|lia]|lia].
Qed.

Lemma stack_rep_last work limit stk acc : stack_rep work limit false stk acc -> stack_rep work limit true stk acc.
Proof. intros H. eapply Forall2_impl; [exact H|]. simpl. naive_solver. Qed.

Lemma stack_rep_mono work l l' b stk acc : (l <= l')%nat -> stack_rep work l b stk acc -> stack_rep work l' b stk acc.
Proof. intros Hl H. eapply Forall2_impl; [exact H|]. simpl. intros o c [? [?|?]]; split; auto; lia. Qed.

(** One component: what the loop does with the stack is what [resolve] does. *)
Definition push_kind (k : component) (stk : list nat) (seg : nat) : option (list nat) :=
  match k with
  | CSkip => Some stk
  | CUp => Some (take (length stk - 1) stk)
  | CName => if (VFS_PATH_MAX / 2 - 1 <=? length stk)%nat then None else Some (stk ++ [seg])
  end.

Lemma push_kind_ok work limit b stk acc seg c cs :
  stack_rep work limit b stk acc -> cstring (drop seg work) c -> (seg + length c < limit)%nat \/ b = true ->
  match push_kind (kind_of c) stk seg with
  | None => resolve acc (c :: cs) = None
  | Some stk' => exists acc', resolve acc (c :: cs) = resolve acc' cs /\ stack_rep work limit b stk' acc'
  end.
Proof.
  intros Hs Hc Hl. pose proof (Forall2_length _ _ _ Hs) as Hlen. unfold push_kind. cbn [resolve].
  destruct (kind_of c); [by exists acc| |].
  - exists (take (length acc - 1) acc). split; [done|]. rewrite Hlen. by apply Forall2_take.
  - change (VFS_PATH_MAX / 2 - 1)%nat with 127%nat. rewrite Hlen. destruct (127 <=? length acc)%nat; [done|].
    exists (acc ++ [c]). split; [done|]. apply Forall2_app; [done|]. constructor; [done|constructor].
Qed.

Lemma split_loop_end fuel pre rest stk : split_loop (S fuel) (pre ++ 0 :: rest) (length pre) stk = Some (Some (pre ++ 0 :: rest, stk)).
Proof. cbn [split_loop]. by rewrite lookup_app_r, Nat.sub_diag by lia. Qed.

(** The loop body on a component followed by a slash, and on the last one. *)
Lemma split_loop_slash fuel pre seg rem rest stk :
  str_ok (seg ++ SLASH :: rem) -> (SLASH ∉ seg) ->
  let work' := pre ++ seg ++ 0 :: rem ++ 0 :: rest in
  split_loop (S fuel) (pre ++ (seg ++ SLASH :: rem) ++ 0 :: rest) (length pre) stk =
    match push_kind (kind_of seg) stk (length pre) with
    | None => Some None
    | Some stk' => split_loop fuel work' (length (pre ++ seg ++ [0])) stk'
    end.
Proof.
  intros Hok Hs work'. apply Forall_app in Hok as [Hseg Hrem]. rewrite <- app_assoc.
  change ((SLASH :: rem) ++ 0 :: rest) with (SLASH :: rem ++ 0 :: rest). cbn [split_loop].
  assert (Hhd : exists c, (pre ++ seg ++ SLASH :: rem ++ 0 :: rest) !! length pre = Some c /\ c <> 0).
  { rewrite lookup_app_r, Nat.sub_diag by lia. destruct Hseg as [|c seg Hc]; simpl; eexists; (split; [done|]); unfold SLASH; lia. }
  destruct Hhd as (c & -> & Hc). cbn [mbind option_bind]. destruct (Z.eqb_spec c 0); [done|].
  rewrite (seg_end_ok _ pre seg SLASH) by (first [done|by right|rewrite !length_app; simpl; lia]). cbn [mbind option_bind].
  rewrite lookup_app_r, lookup_app_r by lia. replace (_ - _ - _)%nat with 0%nat by lia. cbn [mbind option_bind]. simpl ((_ :: _) !! _).
  cbn [mbind option_bind]. rewrite Z.eqb_refl. rewrite insert_app_r. rewrite <- (Nat.add_0_r (length seg)), insert_app_r, Nat.add_0_r.
  simpl (<[_ := _]> _). fold work'. rewrite (classify_ok work' (length pre) seg).
  2: { unfold work'. rewrite drop_app_length. by eexists. }
  cbn [mbind option_bind]. replace (S (length pre + length seg)) with (length (pre ++ seg ++ [0])) by (rewrite !length_app; simpl; lia).
  unfold push_kind. by destruct (kind_of seg); try destruct (_ <=? _)%nat.
Qed.

Lemma split_loop_last fuel pre seg rest stk :
  str_ok seg -> (SLASH ∉ seg) -> seg <> [] ->
  split_loop (S fuel) (pre ++ seg ++ 0 :: rest) (length pre) stk =
    match push_kind (kind_of seg) stk (length pre) with
    | None => Some None
    | Some stk' => split_loop fuel (pre ++ seg ++ 0 :: rest) (length (pre ++ seg)) stk'
    end.
Proof.
  intros Hseg Hs Hne. cbn [split_loop].
  assert (Hhd : exists c, (pre ++ seg ++ 0 :: rest) !! length pre = Some c /\ c <> 0).
  { rewrite lookup_app_r, Nat.sub_diag by lia. destruct Hseg as [|c seg Hc]; [done|]. simpl; eexists; (split; [done|]); lia. }
  destruct Hhd as (c & -> & Hc). cbn [mbind option_bind]. destruct (Z.eqb_spec c 0); [done|].
  rewrite (seg_end_ok _ pre seg 0) by (first [done|by left|rewrite !length_app; simpl; lia]). cbn [mbind option_bind].
  rewrite lookup_app_r, lookup_app_r by lia. replace (_ - _ - _)%nat with 0%nat by lia. simpl ((_ :: _) !! _).
  cbn [mbind option_bind]. change (0 =? SLASH) with false. cbn [mbind option_bind].
  rewrite (classify_ok _ (length pre) seg) by (rewrite drop_app_length; by eexists).
  cbn [mbind option_bind]. rewrite <- length_app.
  unfold push_kind. by destruct (kind_of seg); try destruct (_ <=? _)%nat.
Qed.

Lemma split_loop_ok fuel pre rem rest stk acc :
  str_ok rem -> (length rem < fuel)%nat ->
  let work := pre ++ rem ++ 0 :: rest in
  stack_rep work (length pre) false stk acc ->
  match resolve acc (split rem) with
  | None => split_loop fuel work (length pre) stk = Some None
  | Some cs => exists work' stk', split_loop fuel work (length pre) stk = Some (Some (work', stk')) /\
      Forall2 (fun o c => cstring (drop o work') c) stk' cs
  end.
Proof.
  revert pre rem rest stk acc. induction fuel as [|fuel IH]; intros pre rem rest stk acc Hok Hf work Hst; [lia|].
  destruct (first_seg rem) as (seg & Hs & [->|[r ->]]).
  - rewrite split_last by done. destruct (decide (seg = [])) as [->|Hne].
    { simpl. exists work, stk. split; [apply split_loop_end|]. eapply Forall2_impl; [exact Hst|]. by intros ? ? []. }
    unfold work. rewrite split_loop_last by done.
    pose proof (push_kind_ok work (length pre) true stk acc (length pre) seg [] (stack_rep_last _ _ _ _ Hst)) as Hp.
    destruct (push_kind _ _ _) as [stk'|]; [|rewrite Hp; [done| |by right]; unfold work; rewrite drop_app_length; by eexists].
    destruct Hp as (acc' & -> & Hst'); [unfold work; rewrite drop_app_length; by eexists|by right|].
    simpl. destruct fuel as [|fuel]; [destruct seg; simpl in Hf; [done|lia]|].
    exists work, stk'. split; [unfold work; rewrite (assoc_L app); apply split_loop_end|].
    eapply Forall2_impl; [exact Hst'|]. by intros ? ? [].
  - rewrite split_seg by done. unfold work. rewrite split_loop_slash by done.
    rewrite length_app in Hf. simpl in Hf. pose proof (proj2 (proj1 (Forall_app _ _ _) Hok)) as Hr. inversion_clear Hr as [|? ? _ Hr'].
    assert (Hw : pre ++ seg ++ 0 :: r ++ 0 :: rest = <[(length pre + length seg)%nat := 0]> work).
    { unfold work. rewrite insert_app_r, <- app_assoc, <- (Nat.add_0_r (length seg)), insert_app_r. done. }
    set (work' := pre ++ seg ++ 0 :: r ++ 0 :: rest) in *.
    assert (Hst1 : stack_rep work' (length (pre ++ seg ++ [0])) false stk acc).
    { rewrite Hw, !length_app. simpl. replace (_ + (_ + 1))%nat with (S (length pre + length seg)) by lia.
      apply (stack_rep_insert _ (length pre)); [done|lia]. }
    assert (Hseg : cstring (drop (length pre) work') seg).
    { unfold work'. rewrite drop_app_length. eexists. split; [done|]. by apply Forall_app in Hok as [? _]. }
    pose proof (push_kind_ok work' _ false stk acc (length pre) seg (split r) Hst1 Hseg) as Hp.
    destruct (push_kind _ _ _) as [stk'|]; [|rewrite Hp; [done|left; rewrite !length_app; simpl; lia]].
    destruct Hp as (acc' & -> & Hst'); [left; rewrite !length_app; simpl; lia|].
    specialize (IH (pre ++ seg ++ [0]) r rest stk' acc' Hr' ltac:(lia)).
    assert (Hw2 : (pre ++ seg ++ [0]) ++ r ++ 0 :: rest = work') by (unfold work'; by rewrite <- !app_assoc).
    rewrite Hw2 in IH. by apply IH.
Qed.

(** *** Joining the components *)

Fixpoint room (first : bool) (pos : nat) (cs : list (list Z)) (out_sz : nat) : bool :=
  match cs with
  | [] => true
  | c :: cs' =>
      (pos + length c + 2 <=? out_sz)%nat && room false (pos + (if first then 0 else 1) + length c) cs' out_sz
  end.

Definition joined (first : bool) (cs : list (list Z)) : list Z :=
  if first then join cs else concat (map (cons SLASH) cs).

Lemma joined_cons first c cs : joined first (c :: cs) = (if first then c else SLASH :: c) ++ joined false cs.
Proof.
  destruct first; [|done]. unfold joined at 1. revert c. induction cs as [|c' cs IH]; intros c; [by rewrite app_nil_r|].
  change (join (c :: c' :: cs)) with (c ++ SLASH :: join (c' :: cs)). by rewrite IH.
Qed.

Lemma copy_component work seg c s tail :
  cstring (drop seg work) c -> (length c <= length tail)%nat ->
  memcpy_obj (s ++ tail) (length s) (drop seg work) (length c) = Some ((s ++ c) ++ drop (length c) tail).
Proof.
  intros (rest & -> & _) Hl. rewrite memcpy_obj_spec by (rewrite !length_app; simpl; lia).
  by rewrite take_app_length, inserts_at, (assoc_L app).
Qed.

Lemma join_loop_ok work segs cs first s tail out_sz :
  Forall2 (fun o c => cstring (drop o work) c) segs cs -> (out_sz <= length (s ++ tail))%nat ->
  if room first (length s) cs out_sz then
    exists tail', let s' := s ++ joined first cs in
      join_loop work segs first (s ++ tail) (length s) out_sz = Some (true, s' ++ tail', length s') /\
      length (s' ++ tail') = length (s ++ tail) /\ ((length s < out_sz)%nat -> (length s' < out_sz)%nat)
  else exists out' pos, join_loop work segs first (s ++ tail) (length s) out_sz = Some (false, out', pos) /\
      length out' = length (s ++ tail).
Proof.
  intros Hs. revert first s tail. induction Hs as [|o c segs cs Hc Hs IH]; intros first s tail Hlen.
  { simpl. exists tail. destruct first; simpl; rewrite app_nil_r; done. }
  cbn [room join_loop]. rewrite (strlen_cstring _ _ Hc). cbn [mbind option_bind].
  destruct (Nat.leb_spec (length s + length c + 2) out_sz) as [Hr|Hr]; cbn [andb].
  2: { rewrite (proj2 (Nat.ltb_lt _ _)) by lia. by do 2 eexists. }
  rewrite (proj2 (Nat.ltb_ge _ _)) by lia. rewrite length_app in Hlen.
  set (s1 := s ++ if first then [] else [SLASH]).
  assert (Hsep : exists tail1, (if first then Some (s ++ tail, length s)
      else if decide (length s < length (s ++ tail))%nat then Some (<[length s := SLASH]> (s ++ tail), S (length s)) else None)
      = Some (s1 ++ tail1, length s1) /\ length (s1 ++ tail1) = length (s ++ tail)).
  { unfold s1. destruct first; [exists tail; by rewrite app_nil_r|]. destruct tail as [|x tail]; [simpl in Hlen; lia|].
    exists tail. pose proof (put_at s SLASH x tail) as Hp. unfold put in Hp. case_decide; [|done]. simplify_eq.
    rewrite Hp, <- app_assoc, !length_app. simpl. split; [by rewrite Nat.add_1_r|done]. }
  destruct Hsep as (tail1 & Hsep & Hl1).
  match goal with |- context [mbind _ ?m] => replace m with (Some (s1 ++ tail1, length s1)) by (symmetry; exact Hsep) end.
  cbn [mbind option_bind]. assert (Hs1 : (length s1 <= length s + 1)%nat) by (unfold s1; rewrite length_app; destruct first; simpl; lia).
  rewrite !length_app in Hl1. rewrite (copy_component _ _ c) by (done || lia). cbn [mbind option_bind].
  specialize (IH false (s1 ++ c) (drop (length c) tail1)). rewrite !length_app, length_drop in IH.
  specialize (IH ltac:(lia)). unfold s1 in IH at 1 2. rewrite !length_app in IH.
  replace (length (if first then [] else [SLASH])) with (if first then 0 else 1)%nat in IH by (by destruct first).
  rewrite length_app. destruct (room _ _ _ _).
  - destruct IH as (tail' & Hj & Hlen' & Hlt). exists tail'. rewrite joined_cons.
    assert (Heq : s ++ (if first then c else SLASH :: c) ++ joined false cs = (s1 ++ c) ++ joined false cs).
    { unfold s1. rewrite (assoc_L app). f_equal. rewrite <- app_assoc. by destruct first. }
    cbv zeta. rewrite Heq, Hj. fold s1 in Hlen' |- *. rewrite !length_app in *.
    assert (length (if first then c else SLASH :: c) = (if first then 0 else 1) + length c)%nat as -> by (by destruct first).
    split_and!; [do 2 f_equal; lia|lia|]. intros _. specialize (Hlt ltac:(lia)). lia.
  - destruct IH as (out' & pos & Hj & Hlen'). exists out', pos. rewrite Hj. split; [done|]. rewrite length_app; lia.
Qed.

Lemma room_false pos cs n : cs <> [] -> room false pos cs n = true <-> (pos + length (joined false cs) + 1 <= n)%nat.
Proof.
  revert pos. induction cs as [|c cs IH]; intros pos Hne; [done|].
  cbn [room]. rewrite joined_cons, andb_true_iff, Nat.leb_le, length_app. destruct cs as [|c' cs].
  - simpl. rewrite Nat.add_0_r. split; [intros [? _]; lia|intros; split; [lia|done]].
  - rewrite IH by done. simpl. lia.
Qed.

Lemma room_fits cs n : Forall (fun c => c <> []) cs -> room true 1 cs n = true <-> fits cs n.
Proof.
  intros Hne. destruct cs as [|c [|c' cs]]; [done| |].
  - cbn [room fits]. rewrite andb_true_iff, Nat.leb_le. split; [intros [? _]; lia|intros; split; [lia|done]].
  - change (room true 1 (c :: c' :: cs) n) with ((1 + length c + 2 <=? n)%nat && room false (1 + 0 + length c) (c' :: cs) n).
    rewrite andb_true_iff, Nat.leb_le, room_false by done. unfold fits, render.
    change (join (c :: c' :: cs)) with (joined true (c :: c' :: cs)). rewrite (joined_cons true). cbn [length].
    rewrite length_app. apply Forall_cons_1 in Hne as [_ Hne]. apply Forall_cons_1 in Hne as [Hc' _].
    rewrite (joined_cons false c'). rewrite length_app. destruct c'; [done|]. simpl. lia.
Qed.

Lemma split_no_slash s : Forall (fun c => SLASH ∉ c) (split s).
Proof.
  induction s as [|c s IH]; simpl; [constructor; [apply not_elem_of_nil|constructor]|].
  destruct (Z.eqb_spec c SLASH); [constructor; [apply not_elem_of_nil|done]|].
  destruct (split s) as [|h t]; [constructor; [set_solver|constructor]|].
  inversion_clear IH. constructor; [set_solver|done].
Qed.

Lemma resolve_clean acc cs cs' :
  Forall clean acc -> Forall (fun c => SLASH ∉ c) cs -> resolve acc cs = Some cs' -> Forall clean cs'.
Proof.
  intros Ha Hcs. revert acc Ha. induction Hcs as [|c cs Hc Hcs IH]; intros acc Ha; cbn [resolve]; [by intros [= <-]|].
  destruct (kind_of c) eqn:Hk; [by apply IH|apply IH; by apply Forall_take|].
  destruct (_ <=? _)%nat; [done|]. apply IH. apply Forall_app. split; [done|]. constructor; [done|constructor].
Qed.

Lemma clean_ne c : clean c -> c <> [].
Proof. intros [H _] ->. done. Qed.

Lemma split_byte s : str_ok s -> Forall str_ok (split s).
Proof.
  unfold str_ok. induction 1 as [|c s Hc Hs IH]; simpl; [constructor; [constructor|constructor]|].
  destruct (_ =? _); [by constructor|]. destruct (split s) as [|h t]; [constructor; [by constructor|constructor]|].
  inversion_clear IH. constructor; [by constructor|done].
Qed.

Lemma resolve_str acc cs cs' : Forall str_ok acc -> Forall str_ok cs -> resolve acc cs = Some cs' -> Forall str_ok cs'.
Proof.
  intros Ha Hcs. revert acc Ha. induction Hcs as [|c cs Hc Hcs IH]; intros acc Ha; cbn [resolve]; [by intros [= <-]|].
  destruct (kind_of c); [by apply IH|apply IH; by apply Forall_take|].
  destruct (_ <=? _)%nat; [done|]. apply IH. apply Forall_app. split; [done|]. constructor; [done|constructor].
Qed.

Lemma render_str cs : Forall str_ok cs -> str_ok (render cs).
Proof.
  intros H. unfold render. constructor; [unfold SLASH; lia|].
  induction H as [|c cs Hc Hcs IH]; [constructor|]. change (join (c :: cs)) with (joined true (c :: cs)).
  rewrite joined_cons. apply Forall_app. split; [done|]. clear IH. unfold joined.
  induction Hcs; simpl; [constructor|]. constructor; [unfold SLASH; lia|]. by apply Forall_app.
Qed.

Lemma resolve_slashes k s acc : resolve acc (split (replicate k SLASH ++ s)) = resolve acc (split s).
Proof. induction k as [|k IH]; [done|]. simpl. apply IH. Qed.

Lemma lead_slashes s : exists k s', s = replicate k SLASH ++ s' /\ (head s' <> Some SLASH).
Proof.
  induction s as [|c s (k & s' & -> & Hs')]; [by exists 0%nat, []|].
  destruct (decide (c = SLASH)) as [->|Hc]; [by exists (S k), s'|]. exists 0%nat, (c :: replicate k SLASH ++ s'). split; [done|]. simpl. congruence.
Qed.

(** What [vfs_canonicalize] computes of the path [str]. *)
Definition canonical (str : list Z) : option (list (list Z)) :=
  if decide (length str < VFS_PATH_MAX)%nat then resolve [] (split str) else None.

Lemma canonical_clean str cs : canonical str = Some cs -> Forall clean cs.
Proof.
  unfold canonical. case_decide; [|done]. apply resolve_clean; [constructor|apply split_no_slash].
Qed.

Lemma work_copy path str :
  cstring path str -> (length str < VFS_PATH_MAX)%nat ->
  exists rest, memcpy_obj (replicate VFS_PATH_MAX 0) 0 path (length str + 1) = Some (str ++ 0 :: rest) /\
    length (str ++ 0 :: rest) = VFS_PATH_MAX.
Proof.
  intros (r & -> & _) Hl. rewrite memcpy_obj_spec by (rewrite ?length_replicate, ?length_app; simpl; lia).
  rewrite take_app_add. simpl take. rewrite inserts_prefix by (rewrite length_replicate, length_app; simpl; lia).
  rewrite <- app_assoc. exists (drop (length (str ++ [0])) (replicate VFS_PATH_MAX 0)). split; [exact eq_refl|].
  rewrite length_app. cbn [length]. rewrite length_drop, length_replicate, length_app. cbn [length]. lia.
Qed.

Lemma split_phase str rest :
  str_ok str -> length (str ++ 0 :: rest) = VFS_PATH_MAX ->
  exists p, skip_slashes VFS_PATH_MAX (str ++ 0 :: rest) 0 = Some p /\
    match resolve [] (split str) with
    | None => split_loop VFS_PATH_MAX (str ++ 0 :: rest) p [] = Some None
    | Some cs => exists work' stk, split_loop VFS_PATH_MAX (str ++ 0 :: rest) p [] = Some (Some (work', stk)) /\
        Forall2 (fun o c => cstring (drop o work') c) stk cs
    end.
Proof.
  intros Hs Hlen. destruct (lead_slashes str) as (k & s' & -> & Hh). exists k.
  rewrite !length_app, length_replicate in Hlen. simpl in Hlen. rewrite <- app_assoc. split.
  - destruct s' as [|c s']; simpl; [|simpl in Hh].
    + apply (skip_slashes_ok VFS_PATH_MAX [] k 0 rest); [done|lia].
    + apply (skip_slashes_ok VFS_PATH_MAX [] k c (s' ++ 0 :: rest)); [congruence|lia].
  - rewrite resolve_slashes. pose proof (split_loop_ok VFS_PATH_MAX (replicate k SLASH) s' rest [] []) as H.
    rewrite length_replicate in H. apply H; [by apply Forall_app in Hs as [_ ?]|lia|constructor].
Qed.

Lemma join_all_ok work stk cs out out_sz :
  Forall2 (fun o c => cstring (drop o work) c) stk cs -> Forall clean cs -> Forall str_ok cs -> (2 <= out_sz <= length out)%nat ->
  exists rc out', join_all work stk out out_sz = Some (rc, out') /\ length out' = length out /\
    ((fits cs out_sz /\ rc = 0 /\ cstring out' (render cs)) \/ (~ fits cs out_sz /\ rc = -1)).
Proof.
  intros Hstk Hclean Hstr Hsz. destruct out as [|o out]; [simpl in Hsz; lia|]. unfold join_all.
  rewrite (put_at [] SLASH o out : put (o :: out) 0 SLASH = Some (SLASH :: out)). cbn [mbind option_bind].
  pose proof (join_loop_ok work stk cs true [SLASH] out out_sz Hstk) as Hj. cbv zeta in Hj.
  change ([SLASH] ++ joined true cs) with (render cs) in Hj. change ([SLASH] ++ out) with (SLASH :: out) in Hj.
  change (length [SLASH]) with 1%nat in Hj. cbn [length] in Hj, Hsz. specialize (Hj ltac:(lia)).
  pose proof (room_fits cs out_sz (Forall_impl _ _ _ Hclean clean_ne)) as Hrf. destruct (room true 1 cs out_sz).
  - destruct Hj as (tail & -> & Hlen' & Hlt). cbn [mbind option_bind negb].
    specialize (Hlt ltac:(lia)). rewrite length_app in Hlen'. destruct tail as [|x tail]; [cbn [length] in Hlen'; lia|].
    rewrite put_at. cbn [mbind option_bind]. do 2 eexists. split; [done|]. split; [rewrite length_app; cbn [length] in *; lia|].
    left. split_and!; [by apply Hrf|done|]. exists tail. split; [done|]. by apply render_str.
  - destruct Hj as (out' & pos & -> & Hlen'). cbn [mbind option_bind negb]. do 2 eexists. split; [done|].
    split; [cbn [length] in *; lia|]. right. split; [|done]. intros Hf%Hrf. done.
Qed.

Lemma canonicalize_ok path str out out_sz :
  cstring path str -> (2 <= out_sz <= length out)%nat ->
  exists rc out', vfs_canonicalize (Some path) out out_sz = Some (rc, out') /\ length out' = length out /\
    match canonical str with
    | Some cs => (fits cs out_sz /\ rc = 0 /\ cstring out' (render cs)) \/ (~ fits cs out_sz /\ rc = -1)
    | None => rc = -1
    end.
Proof.
  intros Hp Hsz. unfold vfs_canonicalize, canonical. rewrite (proj2 (Nat.eqb_neq _ _)) by lia.
  rewrite (bind_eq _ _ _ (strlen_cstring _ _ Hp)).
  case_decide as Hl; [rewrite (proj2 (Nat.leb_gt _ _)) by lia|rewrite (proj2 (Nat.leb_le _ _)) by lia; by do 2 eexists].
  destruct (work_copy _ _ Hp Hl) as (rest & Hw & Hlen). rewrite (bind_eq _ _ _ Hw), Hlen.
  assert (Hok : str_ok str) by (by destruct Hp as (? & _ & ?)).
  destruct (split_phase str rest Hok Hlen) as (p & Hskip & Hsplit). rewrite (bind_eq _ _ _ Hskip).
  destruct (resolve [] (split str)) as [cs|] eqn:Hcs.
  - destruct Hsplit as (work' & stk & Hs & Hstk). rewrite (bind_eq _ _ _ Hs). apply join_all_ok; [done| | |done].
    + eapply resolve_clean; [| |exact Hcs]; [constructor|apply split_no_slash].
    + eapply resolve_str; [| |exact Hcs]; [constructor|by apply split_byte].
  - rewrite (bind_eq _ _ _ Hsplit). by do 2 eexists.
Qed.

(** *** Canonical paths are fixed points *)

Lemma split_join c cs : Forall clean (c :: cs) -> split (join (c :: cs)) = c :: cs.
Proof.
  revert c. induction cs as [|c' cs IH]; intros c Hcl; apply Forall_cons_1 in Hcl as [[_ Hc] Hcl]; [by apply split_last|].
  change (join (c :: c' :: cs)) with (c ++ SLASH :: join (c' :: cs)). rewrite split_seg by done. by rewrite IH.
Qed.

Lemma resolve_fixed acc cs : Forall clean cs -> (length acc + length cs <= 127)%nat -> resolve acc cs = Some (acc ++ cs).
Proof.
  intros Hcs. revert acc. induction Hcs as [|c cs [Hk _] Hcs IH]; intros acc Hl; cbn [resolve]; [by rewrite app_nil_r|].
  rewrite Hk. cbn [length] in Hl. rewrite (proj2 (Nat.leb_gt _ _)) by lia. rewrite IH by (rewrite length_app; simpl; lia).
  by rewrite <- app_assoc.
Qed.

Lemma resolve_length acc cs cs' : resolve acc cs = Some cs' -> (length acc <= 127)%nat -> (length cs' <= 127)%nat.
Proof.
  revert acc. induction cs as [|c cs IH]; intros acc; cbn [resolve]; [by intros [= ->]|].
  destruct (kind_of c); [by apply IH|intros; eapply IH; [done|]; rewrite length_take; lia|].
  destruct (Nat.leb_spec 127 (length acc)); [done|]. intros; eapply IH; [done|]. rewrite length_app; simpl; lia.
Qed.

Lemma canonical_render str cs :
  canonical str = Some cs -> fits cs VFS_PATH_MAX -> canonical (render cs) = Some cs.
Proof.
  intros Hc Hf. pose proof (canonical_clean _ _ Hc) as Hcl.
  assert (Hn : (length cs <= 127)%nat).
  { unfold canonical in Hc. case_decide; [|done]. eapply resolve_length; [exact Hc|simpl; lia]. }
  unfold canonical. rewrite decide_True.
  - change (split (render cs)) with ([] :: split (join cs)). destruct cs as [|c cs]; [done|].
    rewrite split_join by done. change (resolve [] ([] :: c :: cs)) with (resolve [] (c :: cs)). by rewrite resolve_fixed.
  - destruct cs as [|c [|c' cs]]; cbn [fits] in Hf; cbn [render length join] in *; unfold VFS_PATH_MAX in *; lia.
Qed.

Definition demo_path : list Z := c_str "/boot/./x/../../etc//passwd" ++ [0].

Lemma demo_path_string : cstring demo_path (c_str "/boot/./x/../../etc//passwd").
Proof. exists []. split; [done|]. vm_compute. repeat (constructor; [by split|]). constructor. Qed.

(** ** Properties *)

(** C13: [vfs_canonicalize] returns 0 exactly when the resolved components of the
    path fit in the stack and the buffer, and the buffer then holds the absolute
    path of those components, none of which is empty, a dot, a dot-dot or has a
    slash; so no path leads above the root. It writes within the buffer and
    returns for every string. *)
Theorem vfs_canonicalize_ok path str out out_sz :
  cstring path str -> (2 <= out_sz <= length out)%nat ->
  exists rc out', vfs_canonicalize (Some path) out out_sz = Some (rc, out') /\ length out' = length out /\
    match canonical str with
    | Some cs => Forall clean cs /\
        ((fits cs out_sz /\ rc = 0 /\ cstring out' (render cs)) \/ (~ fits cs out_sz /\ rc = -1))
    | None => rc = -1
    end.
Proof.
  intros Hp Hsz. destruct (canonicalize_ok path str out out_sz Hp Hsz) as (rc & out' & Heq & Hlen & Hr).
  exists rc, out'. split_and!; [done|done|]. destruct (canonical str) as [cs|] eqn:Hc; [|done].
  split; [by eapply canonical_clean|done].
Qed.

Lemma vfs_canonicalize_ok_witness :
  exists rc out', vfs_canonicalize (Some demo_path) (replicate VFS_PATH_MAX 0) VFS_PATH_MAX = Some (rc, out') /\
    length out' = length (replicate VFS_PATH_MAX 0) /\
    match canonical (c_str "/boot/./x/../../etc//passwd") with
    | Some cs => Forall clean cs /\
        ((fits cs VFS_PATH_MAX /\ rc = 0 /\ cstring out' (render cs)) \/ (~ fits cs VFS_PATH_MAX /\ rc = -1))
    | None => rc = -1
    end.
Proof.
  apply (vfs_canonicalize_ok demo_path (c_str "/boot/./x/../../etc//passwd") (replicate VFS_PATH_MAX 0) VFS_PATH_MAX).
  - apply demo_path_string.
  - rewrite length_replicate. unfold VFS_PATH_MAX. lia.
Defined.

(** A canonical path is a fixed point: canonicalizing the result again returns
    0 and the same string. *)
Theorem vfs_canonicalize_idempotent path str out out' :
  cstring path str -> length out = VFS_PATH_MAX -> vfs_canonicalize (Some path) out VFS_PATH_MAX = Some (0, out') ->
  exists out2, vfs_canonicalize (Some out') out VFS_PATH_MAX = Some (0, out2) /\ until0 out2 = until0 out'.
Proof.
  intros Hp Hlen Hc. assert (Hsz : (2 <= VFS_PATH_MAX <= length out)%nat) by (unfold VFS_PATH_MAX in *; lia).
  destruct (canonicalize_ok path str out _ Hp Hsz) as (rc & o1 & Heq & _ & Hr). rewrite Hc in Heq. simplify_eq.
  destruct (canonical str) as [cs|] eqn:Hcs; [|done]. destruct Hr as [(Hf & _ & Hs)|[_ ?]]; [|done].
  destruct (canonicalize_ok _ _ out _ Hs Hsz) as (rc & o2 & -> & _ & Hr2).
  rewrite (canonical_render _ _ Hcs Hf) in Hr2. destruct Hr2 as [(_ & -> & Hs2)|[? _]]; [|done].
  exists o2. split; [done|]. by rewrite (until0_cstring _ _ Hs), (until0_cstring _ _ Hs2).
Qed.

Definition demo_canon : list Z := c_str "/etc/passwd" ++ replicate 245 0.

Lemma vfs_canonicalize_idempotent_witness :
  exists out2, vfs_canonicalize (Some demo_canon) (replicate VFS_PATH_MAX 0) VFS_PATH_MAX = Some (0, out2) /\
    until0 out2 = until0 demo_canon.
Proof.
  apply (vfs_canonicalize_idempotent demo_path (c_str "/boot/./x/../../etc//passwd") (replicate VFS_PATH_MAX 0) demo_canon).
  - apply demo_path_string.
  - apply length_replicate.
  - vm_compute. reflexivity.
Defined.
