(* ===== verification/Vfs.v ===== *)
(** * The virtual file system (src/kernel/vfs/vfs.c, vfs.h)

    Node table, backend table and descriptor tables.  A backend is a [vfs_ops_t]: its
    operations are partial functions on a world [W] with handles of type [B], so the
    theorems hold of every backend; [Ramfs] supplies one.  A null function pointer is
    [None].  Pointers to nodes, processes and rings are indices.  The lock of the
    table is taken and released on every path and is not modelled. *)

From Stdlib Require Import ZArith Lia.
From stdpp Require Import base strings gmap list.
From S2P Require Import Prelude KString Ringbuf Port VfsPath.

Local Open Scope Z_scope.

Definition MAX_FDS : Z := 256.
Definition MAX_VFSNODES : Z := 1024.
Definition MAX_BACKENDS : nat := 16.
Definition VFS_BE_NAME_LEN : nat := 64.
Definition VFS_DIRENT_NAME_LEN : nat := 256.

Definition VFS_O_READ : Z := 0x01.
Definition VFS_O_WRITE : Z := 0x02.
Definition VFS_O_CREAT : Z := 0x04.
Definition VFS_O_TRUNC : Z := 0x08.
Definition VFS_O_DIR : Z := 0x10.
Definition VFS_SEEK_SET : Z := 0.
Definition VFS_SEEK_CUR : Z := 1.
Definition VFS_SEEK_END : Z := 2.
Definition VFS_NODE_FILE : Z := 1.
Definition VFS_NODE_DIR : Z := 2.
Definition VFS_ERR : Z := -1.
Definition VFS_ENOENT : Z := -2.
Definition VFS_EINVAL : Z := -3.
Definition VFS_EPERM : Z := -4.
Definition VFS_ENOSPC : Z := -5.
Definition VFS_ENODEV : Z := -6.
Definition VFS_EMFILE : Z := -9.

Record stat_info_t := mk_stat {
  st_size : Z;
  st_kind : Z;
  st_mtime_ns : Z;
  st_name : list Z;
  st_uid : Z;
  st_gid : Z;
  st_mode : Z;
}.

Record vfs_dirent_t := mk_dirent { de_name : list Z; de_kind : Z; de_size : Z }.

(** Signed 64-bit addition; overflow is undefined. *)
Definition add_i64 (a b : Z) : option Z :=
  if (- 2 ^ 63 <=? a + b) && (a + b <? 2 ^ 63) then Some (a + b) else None.

Section vfs.
Context {W B : Type}.

(** Every operation gets the world and the private pointer of its backend. *)
Record vfs_ops_t := mk_ops {
  op_open : option (W -> option nat -> list Z -> Z -> option (option B * W));
  op_close : option (W -> option nat -> B -> option W);
  op_read : option (W -> option nat -> B -> list Z -> Z -> option Z -> option (Z * list Z * option Z * W));
  op_write : option (W -> option nat -> B -> list Z -> Z -> option (Z * W));
  op_seek : option (W -> option nat -> B -> Z -> Z -> option (Z * W));
  op_readdir : option (W -> option nat -> B -> list vfs_dirent_t -> Z -> Z -> option (Z * list vfs_dirent_t * Z * W));
  op_stat : option (W -> option nat -> list Z -> stat_info_t -> option (Z * stat_info_t * W));
  op_unlink : option (W -> option nat -> list Z -> option (Z * W));
  op_mkdir : option (W -> option nat -> list Z -> option (Z * W));
}.

Record vfs_backend_t := mk_backend {
  be_name : list Z;
  be_mount_pt : list Z;
  be_ops : vfs_ops_t;
  be_ctx : option nat;
  be_id : Z;
}.

Record vfsnode_t := mk_vnode {
  vn_node_id : Z;
  vn_refcount : Z;
  vn_flags : Z;
  vn_offset : Z;
  vn_size : Z;
  vn_path : list Z;
  vn_backend : option nat;
  vn_bctx : option B;
  vn_pcb : option nat;
  vn_ring : option nat;
  vn_port_id : Z;
}.

(** [vs_fds] has the descriptor table of every process block, [vs_rings] the ring
    buffers that are registered, [vs_current] is [sched_current()]. *)
Record vfs_st := mk_vfs {
  vs_nodes : list vfsnode_t;
  vs_backends : list vfs_backend_t;
  vs_next_node_id : Z;
  vs_fds : gmap nat (list (option nat));
  vs_rings : gmap nat ringbuf_t;
  vs_ports : port_st;
  vs_current : option nat;
  vs_world : W;
}.

Definition set_nodes (st : vfs_st) (v : list vfsnode_t) : vfs_st :=
  mk_vfs v (vs_backends st) (vs_next_node_id st) (vs_fds st) (vs_rings st) (vs_ports st) (vs_current st) (vs_world st).
Definition set_backends (st : vfs_st) (v : list vfs_backend_t) : vfs_st :=
  mk_vfs (vs_nodes st) v (vs_next_node_id st) (vs_fds st) (vs_rings st) (vs_ports st) (vs_current st) (vs_world st).
Definition set_next_node_id (st : vfs_st) (v : Z) : vfs_st :=
  mk_vfs (vs_nodes st) (vs_backends st) v (vs_fds st) (vs_rings st) (vs_ports st) (vs_current st) (vs_world st).
Definition set_fds (st : vfs_st) (v : gmap nat (list (option nat))) : vfs_st :=
  mk_vfs (vs_nodes st) (vs_backends st) (vs_next_node_id st) v (vs_rings st) (vs_ports st) (vs_current st) (vs_world st).
Definition set_rings (st : vfs_st) (v : gmap nat ringbuf_t) : vfs_st :=
  mk_vfs (vs_nodes st) (vs_backends st) (vs_next_node_id st) (vs_fds st) v (vs_ports st) (vs_current st) (vs_world st).
Definition set_ports (st : vfs_st) (v : port_st) : vfs_st :=
  mk_vfs (vs_nodes st) (vs_backends st) (vs_next_node_id st) (vs_fds st) (vs_rings st) v (vs_current st) (vs_world st).
Definition set_world (st : vfs_st) (v : W) : vfs_st :=
  mk_vfs (vs_nodes st) (vs_backends st) (vs_next_node_id st) (vs_fds st) (vs_rings st) (vs_ports st) (vs_current st) v.

Definition vn_set_id (n : vfsnode_t) (v : Z) : vfsnode_t :=
  mk_vnode v (vn_refcount n) (vn_flags n) (vn_offset n) (vn_size n) (vn_path n) (vn_backend n) (vn_bctx n) (vn_pcb n) (vn_ring n) (vn_port_id n).
Definition vn_set_refcount (n : vfsnode_t) (v : Z) : vfsnode_t :=
  mk_vnode (vn_node_id n) v (vn_flags n) (vn_offset n) (vn_size n) (vn_path n) (vn_backend n) (vn_bctx n) (vn_pcb n) (vn_ring n) (vn_port_id n).
Definition vn_set_offset (n : vfsnode_t) (v : Z) : vfsnode_t :=
  mk_vnode (vn_node_id n) (vn_refcount n) (vn_flags n) v (vn_size n) (vn_path n) (vn_backend n) (vn_bctx n) (vn_pcb n) (vn_ring n) (vn_port_id n).
Definition vn_set_size (n : vfsnode_t) (v : Z) : vfsnode_t :=
  mk_vnode (vn_node_id n) (vn_refcount n) (vn_flags n) (vn_offset n) v (vn_path n) (vn_backend n) (vn_bctx n) (vn_pcb n) (vn_ring n) (vn_port_id n).

Definition no_ops : vfs_ops_t := mk_ops None None None None None None None None None.
Definition zero_backend : vfs_backend_t := mk_backend (replicate VFS_BE_NAME_LEN 0) (replicate VFS_PATH_MAX 0) no_ops None 0.
Definition zero_node : vfsnode_t := mk_vnode 0 0 0 0 0 (replicate VFS_PATH_MAX 0) None None None None 0.
Definition zero_stat : stat_info_t := mk_stat 0 0 0 (replicate VFS_PATH_MAX 0) 0 0 0.

Definition upd_node (st : vfs_st) (i : nat) (f : vfsnode_t -> vfsnode_t) : option vfs_st :=
  n ← vs_nodes st !! i; Some (set_nodes st (<[i := f n]> (vs_nodes st))).

(** The scan of [alloc_node_id] from candidate [id + i] on, [k] to go. *)
Fixpoint alloc_scan (nodes : list vfsnode_t) (id : Z) (i : Z) (k : nat) : option (option Z) :=
  match k with
  | O => Some None
  | S k' =>
      let candidate := (id + i) mod MAX_VFSNODES in
      if candidate =? 0 then alloc_scan nodes id (i + 1) k'
      else
        n ← nodes !! Z.to_nat candidate;
        if vn_node_id n =? 0 then Some (Some candidate) else alloc_scan nodes id (i + 1) k'
  end.

Definition alloc_node_id (st : vfs_st) : option (Z * vfs_st) :=
  r ← alloc_scan (vs_nodes st) (vs_next_node_id st) 0 (Z.to_nat MAX_VFSNODES);
  match r with
  | None => Some (0, st)
  | Some candidate =>
      let next := (candidate + 1) mod MAX_VFSNODES in
      Some (candidate, set_next_node_id st (if next =? 0 then 1 else next))
  end.

(** Does [path] lie under the mount point? *)
Definition mount_matches (mount_pt path : list Z) (mlen : nat) : option bool :=
  m0 ← mount_pt !! 0%nat;
  if (mlen =? 1)%nat && (m0 =? SLASH) then c ← path !! 0%nat; Some (c =? SLASH)
  else
    r ← strncmp path mount_pt mlen;
    if negb (r =? 0) then Some false
    else c ← path !! mlen; Some ((c =? 0) || (c =? SLASH)).

Fixpoint mount_loop (bes : list vfs_backend_t) (i : nat) (path : list Z) (best : option nat) (best_len : nat)
    : option (option nat * nat) :=
  match bes with
  | [] => Some (best, best_len)
  | be :: rest =>
      if be_id be =? 0 then mount_loop rest (S i) path best best_len
      else
        mlen ← strlen (be_mount_pt be);
        ok ← mount_matches (be_mount_pt be) path mlen;
        if ok && (best_len <? mlen)%nat then mount_loop rest (S i) path (Some i) mlen
        else mount_loop rest (S i) path best best_len
  end.

(** The index of the backend and the path relative to its mount point. *)
Definition find_backend (st : vfs_st) (path : list Z) : option (option (nat * list Z)) :=
  '(best, best_len) ← mount_loop (vs_backends st) 0 path None 0;
  match best with
  | None => Some None
  | Some i =>
      be ← vs_backends st !! i;
      m0 ← be_mount_pt be !! 0%nat;
      if (best_len =? 1)%nat && (m0 =? SLASH) then Some (Some (i, path))
      else
        c ← path !! best_len;
        Some (Some (i, if c =? 0 then [SLASH; 0] else drop best_len path))
  end.

Definition vfs_init (st : vfs_st) : vfs_st :=
  mk_vfs (replicate (Z.to_nat MAX_VFSNODES) zero_node) (replicate MAX_BACKENDS zero_backend) 1
    (vs_fds st) (vs_rings st) (vs_ports st) (vs_current st) (vs_world st).

(** A buffer of [n] zero bytes filled by [strncpy] of [n - 1] bytes. *)
Definition copy_str (n : nat) (s : list Z) : option (list Z) :=
  m ← strncpy (replicate n 0) s (n - 1); put m (n - 1) 0.

Definition vfs_mount (st : vfs_st) (mount_pt : option (list Z)) (ops : vfs_ops_t) (ctx : option nat) : option (Z * vfs_st) :=
  match mount_pt with
  | None => Some (0, st)
  | Some mp =>
      c0 ← mp !! 0%nat;
      if c0 =? 0 then Some (0, st)
      else
        match find_idx (fun be => be_id be =? 0) (vs_backends st) with
        | None => Some (0, st)
        | Some i =>
            name ← copy_str VFS_BE_NAME_LEN mp;
            mount ← copy_str VFS_PATH_MAX mp;
            let be := mk_backend name mount ops ctx (Z.of_nat i + 1) in
            Some (Z.of_nat i + 1, set_backends st (<[i := be]> (vs_backends st)))
        end
  end.

(** [if (be && be->ops.close) be->ops.close(be, bctx)] *)
Definition close_bctx (st : vfs_st) (be : option nat) (bctx : option B) : option vfs_st :=
  match be with
  | None => Some st
  | Some i =>
      b ← vs_backends st !! i;
      match op_close (be_ops b), bctx with
      | Some close, Some x => w ← close (vs_world st) (be_ctx b) x; Some (set_world st w)
      | Some _, None => None
      | None, _ => Some st
      end
  end.

(** The canonical form of [path] in a buffer of 256 bytes, or [None] inside when
    [vfs_canonicalize] fails. *)
Definition canon_of (path : list Z) : option (option (list Z)) :=
  '(rc, canon) ← vfs_canonicalize (Some path) (replicate VFS_PATH_MAX 0) VFS_PATH_MAX;
  Some (if rc =? 0 then Some canon else None).

(** [be->ops.open(be, rel_path, flags)] when there is a backend with an open operation. *)
Definition backend_open (st : vfs_st) (path : list Z) (flags : Z) : option (option (nat * list Z * B) * vfs_st) :=
  found ← find_backend st path;
  match found with
  | None => Some (None, st)
  | Some (i, rel) =>
      b ← vs_backends st !! i;
      match op_open (be_ops b) with
      | None => Some (None, st)
      | Some open =>
          '(r, w) ← open (vs_world st) (be_ctx b) rel flags;
          Some (option_map (fun x => (i, rel, x)) r, set_world st w)
      end
  end.

(** The size [stat] gives, or -1. *)
Definition stat_size (st : vfs_st) (be : nat) (rel : list Z) : option (Z * vfs_st) :=
  b ← vs_backends st !! be;
  match op_stat (be_ops b) with
  | None => Some (-1, st)
  | Some stat =>
      '(rc, info, w) ← stat (vs_world st) (be_ctx b) rel zero_stat;
      Some (if rc =? 0 then st_size info else -1, set_world st w)
  end.

(** The first free slot of a descriptor table, from 1 on. *)
Definition free_fd (fdt : list (option nat)) : option nat :=
  S <$> find_idx (fun x => bool_decide (x = None)) (drop 1 (take (Z.to_nat MAX_FDS) fdt)).

(** The node enters the table of the caller, or gets a pseudo-descriptor in the
    kernel; 0 when the table is full. *)
Definition install_fd (st : vfs_st) (caller : option nat) (nid : Z) : option (Z * vfs_st) :=
  match caller with
  | None => Some (u32 (nid + MAX_FDS), st)
  | Some p =>
      fdt ← vs_fds st !! p;
      match free_fd fdt with
      | None => Some (0, st)
      | Some i => Some (Z.of_nat i, set_fds st (<[p := <[i := Some (Z.to_nat nid)]> fdt]> (vs_fds st)))
      end
  end.

(** A node for the handle [bctx] of backend [be], and its descriptor. *)
Definition open_node (st : vfs_st) (path rel : list Z) (be : nat) (bctx : B) (flags : Z) (caller : option nat)
    : option (Z * vfs_st) :=
  '(nid, st) ← alloc_node_id st;
  if nid =? 0 then st ← close_bctx st (Some be) (Some bctx); Some (u32 VFS_EMFILE, st)
  else
    npath ← copy_str VFS_PATH_MAX path;
    let node := mk_vnode nid 1 (u32 flags) 0 (-1) npath (Some be) (Some bctx) caller None 0 in
    st ← upd_node st (Z.to_nat nid) (fun _ => node);
    '(size, st) ← stat_size st be rel;
    st ← upd_node st (Z.to_nat nid) (fun n => vn_set_size n size);
    '(fd, st) ← install_fd st caller nid;
    if fd =? 0 then
      st ← upd_node st (Z.to_nat nid) (fun n => vn_set_id n 0);
      st ← close_bctx st (Some be) (Some bctx);
      Some (u32 VFS_EMFILE, st)
    else Some (fd, st).

Definition vfs_open (st : vfs_st) (path : option (list Z)) (flags : Z) (caller : option nat) : option (Z * vfs_st) :=
  match path with
  | None => Some (u32 VFS_EINVAL, st)
  | Some path =>
      c0 ← path !! 0%nat;
      if c0 =? 0 then Some (u32 VFS_EINVAL, st)
      else
        canon ← canon_of path;
        match canon with
        | None => Some (u32 VFS_EINVAL, st)
        | Some path =>
            let flags := if Z.land flags (Z.lor VFS_O_READ VFS_O_WRITE) =? 0 then Z.lor flags VFS_O_READ else flags in
            '(opened, st) ← backend_open st path flags;
            match opened with
            | None => Some (u32 VFS_ENOENT, st)
            | Some (be, rel, bctx) => open_node st path rel be bctx flags caller
            end
        end
  end.

(** The node of a descriptor; [Some None] is the return of [VFS_EINVAL]. *)
Definition fd_node (st : vfs_st) (fd : Z) : option (option nat) :=
  if MAX_FDS <=? fd then
    let nid := fd - MAX_FDS in
    if MAX_VFSNODES <=? nid then Some None
    else
      n ← vs_nodes st !! Z.to_nat nid;
      Some (if vn_node_id n =? nid then Some (Z.to_nat nid) else None)
  else
    match vs_current st with
    | None => Some None
    | Some p => fdt ← vs_fds st !! p; fdt !! Z.to_nat fd
    end.

(** [fdt[fd] = NULL] for a descriptor of the current process. *)
Definition clear_fd (st : vfs_st) (fd : Z) : vfs_st :=
  match vs_current st with
  | Some p => if MAX_FDS <=? fd then st else set_fds st (alter (fun fdt => <[Z.to_nat fd := None]> fdt) p (vs_fds st))
  | None => st
  end.

Definition vfs_close (st : vfs_st) (fd : Z) : option (Z * vfs_st) :=
  if fd =? 0 then Some (VFS_EINVAL, st)
  else
    found ← fd_node st fd;
    match found with
    | None => Some (VFS_EINVAL, st)
    | Some i =>
        let st := clear_fd st fd in
        n ← vs_nodes st !! i;
        let refs := u32 (vn_refcount n - 1) in
        st ← upd_node st i (fun n => vn_set_refcount n refs);
        if refs =? 0 then
          st ← close_bctx st (vn_backend n) (vn_bctx n);
          st ← upd_node st i (fun n => vn_set_id n 0);
          Some (0, st)
        else Some (0, st)
    end.

(** [while (total < n)] with the ring of a node: slots are read to [buf + total]. *)
Fixpoint ring_read (fuel : nat) (rb : ringbuf_t) (buf : list Z) (total n : Z) : option (Z * list Z * ringbuf_t) :=
  if n <=? total then Some (total, buf, rb)
  else
    match fuel with
    | O => None
    | S fuel' =>
        let chunk := if rb_slot_size rb <? n - total then rb_slot_size rb else n - total in
        '(r, data, rb') ← ringbuf_pop rb (drop (Z.to_nat total) buf) (u32 chunk);
        if negb (r =? 0) then Some (total, buf, rb')
        else ring_read fuel' rb' (take (Z.to_nat total) buf ++ data) (total + chunk) n
    end.

Fixpoint ring_write (fuel : nat) (rb : ringbuf_t) (buf : list Z) (total n : Z) : option (Z * ringbuf_t) :=
  if n <=? total then Some (total, rb)
  else
    match fuel with
    | O => None
    | S fuel' =>
        let chunk := if rb_slot_size rb <? n - total then rb_slot_size rb else n - total in
        '(r, rb') ← ringbuf_push rb (drop (Z.to_nat total) buf) (u32 chunk);
        if negb (r =? 0) then Some (total, rb')
        else ring_write fuel' rb' buf (total + chunk) n
    end.

(** [got] is [None] for a null pointer and else the value it points to; the result
    is the return value, the buffer, and the value of [got]. *)
Definition vfs_read (st : vfs_st) (fd : Z) (buf : option (list Z)) (n : Z) (got : option Z)
    : option (Z * option (list Z) * option Z * vfs_st) :=
  match buf with
  | None => Some (VFS_EINVAL, None, got, st)
  | Some b =>
      if fd =? 0 then Some (VFS_EINVAL, Some b, got, st)
      else
        found ← fd_node st fd;
        match found with
        | None => Some (VFS_EINVAL, Some b, got, st)
        | Some i =>
            node ← vs_nodes st !! i;
            match vn_ring node with
            | Some r =>
                rb ← vs_rings st !! r;
                '(total, b, rb) ← ring_read (Z.to_nat n) rb b 0 n;
                Some (if 0 <? total then 0 else VFS_ERR, Some b, option_map (fun _ => total) got,
                      set_rings st (<[r := rb]> (vs_rings st)))
            | None =>
                match vn_backend node with
                | None => Some (VFS_EPERM, Some b, got, st)
                | Some j =>
                    be ← vs_backends st !! j;
                    match op_read (be_ops be) with
                    | None => Some (VFS_EPERM, Some b, got, st)
                    | Some read =>
                        x ← vn_bctx node;
                        '(rc, b, got, w) ← read (vs_world st) (be_ctx be) x b n got;
                        let st := set_world st w in
                        match rc =? 0, got with
                        | true, Some g =>
                            st ← upd_node st i (fun n => vn_set_offset n (u64 (vn_offset n + g)));
                            Some (rc, Some b, got, st)
                        | _, _ => Some (rc, Some b, got, st)
                        end
                    end
                end
            end
        end
  end.

(** [kbuf] is what [kmalloc] returns to [port_send]. *)
Definition vfs_write (st : vfs_st) (fd : Z) (buf : option (list Z)) (n : Z) (kbuf : option Z) : option (Z * vfs_st) :=
  match buf with
  | None => Some (VFS_EINVAL, st)
  | Some b =>
      if (fd =? 0) || (n =? 0) then Some (VFS_EINVAL, st)
      else
        found ← fd_node st fd;
        match found with
        | None => Some (VFS_EINVAL, st)
        | Some i =>
            node ← vs_nodes st !! i;
            match vn_ring node with
            | Some r =>
                rb ← vs_rings st !! r;
                '(total, rb) ← ring_write (Z.to_nat n) rb b 0 n;
                Some (if 0 <? total then 0 else VFS_ERR, set_rings st (<[r := rb]> (vs_rings st)))
            | None =>
                if negb (vn_port_id node =? 0) then
                  '(rc, ports) ← port_send (vs_ports st) (vn_port_id node) b n kbuf;
                  Some (rc, set_ports st ports)
                else
                  match vn_backend node with
                  | None => Some (VFS_EPERM, st)
                  | Some j =>
                      be ← vs_backends st !! j;
                      match op_write (be_ops be) with
                      | None => Some (VFS_EPERM, st)
                      | Some write =>
                          x ← vn_bctx node;
                          '(rc, w) ← write (vs_world st) (be_ctx be) x b n;
                          let st := set_world st w in
                          if rc =? 0 then
                            st ← upd_node st i (fun nd => vn_set_offset nd (u64 (vn_offset nd + n)));
                            Some (rc, st)
                          else Some (rc, st)
                      end
                  end
            end
        end
  end.

(** The offset a node without a seek operation would get; [inl] is an error. *)
Definition seek_target (node : vfsnode_t) (off whence : Z) : option (Z + Z) :=
  if whence =? VFS_SEEK_SET then Some (inr off)
  else if whence =? VFS_SEEK_CUR then r ← add_i64 (i64 (vn_offset node)) off; Some (inr r)
  else if whence =? VFS_SEEK_END then
    if vn_size node <? 0 then Some (inl VFS_ERR) else r ← add_i64 (vn_size node) off; Some (inr r)
  else Some (inl VFS_EINVAL).

Definition vfs_seek (st : vfs_st) (fd off whence : Z) : option (Z * vfs_st) :=
  if fd =? 0 then Some (VFS_EINVAL, st)
  else
    found ← fd_node st fd;
    match found with
    | None => Some (VFS_EINVAL, st)
    | Some i =>
        node ← vs_nodes st !! i;
        be ← (match vn_backend node with None => Some None | Some j => Some <$> vs_backends st !! j end);
        match be ≫= (fun be => pair be <$> op_seek (be_ops be)) with
        | Some (be, seek) =>
            x ← vn_bctx node;
            '(rc, w) ← seek (vs_world st) (be_ctx be) x off whence;
            let st := set_world st w in
            if 0 <=? rc then st ← upd_node st i (fun n => vn_set_offset n (u64 rc)); Some (rc, st)
            else Some (rc, st)
        | None =>
            t ← seek_target node off whence;
            match t with
            | inl e => Some (e, st)
            | inr new_off =>
                if new_off <? 0 then Some (VFS_EINVAL, st)
                else st ← upd_node st i (fun n => vn_set_offset n (u64 new_off)); Some (new_off, st)
            end
        end
    end.

(** The backend of a path and its relative path, after canonicalization;
    [inl] is an error return. *)
Definition path_backend (st : vfs_st) (path : list Z) : option (Z + option (vfs_backend_t * list Z)) :=
  canon ← canon_of path;
  match canon with
  | None => Some (inl VFS_EINVAL)
  | Some canon =>
      found ← find_backend st canon;
      match found with
      | None => Some (inr None)
      | Some (i, rel) => be ← vs_backends st !! i; Some (inr (Some (be, rel)))
      end
  end.

(** [out] is [None] for a null pointer. *)
Definition vfs_stat (st : vfs_st) (path : option (list Z)) (out : option stat_info_t)
    : option (Z * option stat_info_t * vfs_st) :=
  match path, out with
  | Some path, Some out =>
      r ← path_backend st path;
      match r with
      | inl e => Some (e, Some out, st)
      | inr None => Some (VFS_ENOENT, Some out, st)
      | inr (Some (be, rel)) =>
          match op_stat (be_ops be) with
          | None => Some (VFS_ENOENT, Some out, st)
          | Some stat =>
              '(rc, out, w) ← stat (vs_world st) (be_ctx be) rel out; Some (rc, Some out, set_world st w)
          end
      end
  | _, _ => Some (VFS_EINVAL, out, st)
  end.

(** [vfs_unlink] and [vfs_mkdir] differ in the operation they call. *)
Definition path_op (op : vfs_ops_t -> option (W -> option nat -> list Z -> option (Z * W)))
    (st : vfs_st) (path : option (list Z)) : option (Z * vfs_st) :=
  match path with
  | None => Some (VFS_EINVAL, st)
  | Some path =>
      c0 ← path !! 0%nat;
      if c0 =? 0 then Some (VFS_EINVAL, st)
      else
        r ← path_backend st path;
        match r with
        | inl e => Some (e, st)
        | inr None => Some (VFS_ENODEV, st)
        | inr (Some (be, rel)) =>
            match op (be_ops be) with
            | None => Some (VFS_ENODEV, st)
            | Some f => '(rc, w) ← f (vs_world st) (be_ctx be) rel; Some (rc, set_world st w)
            end
        end
  end.

Definition vfs_unlink : vfs_st -> option (list Z) -> option (Z * vfs_st) := path_op op_unlink.
Definition vfs_mkdir : vfs_st -> option (list Z) -> option (Z * vfs_st) := path_op op_mkdir.

(** [n_out] is the value behind the pointer; [readdir] calls the open and close
    operations without a test. *)
Definition vfs_readdir (st : vfs_st) (path : option (list Z)) (buf : option (list vfs_dirent_t)) (cap n_out : Z)
    : option (Z * option (list vfs_dirent_t) * Z * vfs_st) :=
  match path, buf with
  | Some path, Some b =>
      found ← find_backend st path;
      match found with
      | None => Some (VFS_ENODEV, Some b, n_out, st)
      | Some (i, rel) =>
          be ← vs_backends st !! i;
          match op_readdir (be_ops be) with
          | None => Some (VFS_ENODEV, Some b, n_out, st)
          | Some readdir =>
              open ← op_open (be_ops be);
              '(d, w) ← open (vs_world st) (be_ctx be) rel (Z.lor VFS_O_READ VFS_O_DIR);
              let st := set_world st w in
              match d with
              | None => Some (VFS_ENOENT, Some b, n_out, st)
              | Some x =>
                  '(rc, b, n_out, w) ← readdir (vs_world st) (be_ctx be) x b cap n_out;
                  close ← op_close (be_ops be);
                  w ← close w (be_ctx be) x;
                  Some (rc, Some b, n_out, set_world st w)
              end
          end
      end
  | _, _ => Some (VFS_EINVAL, buf, n_out, st)
  end.

Definition vfs_register_ring (st : vfs_st) (path : option (list Z)) (ring : option nat) : option (Z * vfs_st) :=
  match path, ring with
  | Some path, Some r =>
      '(nid, st) ← alloc_node_id st;
      if nid =? 0 then Some (VFS_EMFILE, st)
      else
        npath ← copy_str VFS_PATH_MAX path;
        let node := mk_vnode nid 1 (Z.lor VFS_O_READ VFS_O_WRITE) 0 (-1) npath None None None (Some r) 0 in
        st ← upd_node st (Z.to_nat nid) (fun _ => node);
        Some (0, st)
  | _, _ => Some (VFS_EINVAL, st)
  end.

Fixpoint find_node_path (nodes : list vfsnode_t) (i : nat) (path : list Z) : option (option nat) :=
  match nodes with
  | [] => Some None
  | n :: rest =>
      if vn_node_id n =? 0 then find_node_path rest (S i) path
      else c ← strcmp (vn_path n) path; if c =? 0 then Some (Some i) else find_node_path rest (S i) path
  end.

Definition vfs_unregister_node (st : vfs_st) (path : option (list Z)) : option (Z * vfs_st) :=
  match path with
  | None => Some (VFS_EINVAL, st)
  | Some path =>
      found ← find_node_path (vs_nodes st) 0 path;
      match found with
      | None => Some (VFS_ENOENT, st)
      | Some i => st ← upd_node st i (fun n => vn_set_id n 0); Some (0, st)
      end
  end.

End vfs.

Arguments vfs_ops_t : clear implicits.
Arguments vfs_backend_t : clear implicits.
Arguments vfsnode_t : clear implicits.
Arguments vfs_st : clear implicits.
