(* ===== verification/VfsSpec.v ===== *)
(** * Specification of the virtual file system

    The interface [Backend] of a file system, the invariant of the node and
    descriptor tables, and the operations of [Vfs] against them. *)

From Stdlib Require Import ZArith Lia.
From stdpp Require Import base strings gmap list.
From S2P Require Import Prelude KString Ringbuf Port VfsPath Vfs.

Local Open Scope Z_scope.

Section vfs.
Context {W B : Type}.

(** ** What a backend promises

    [I] is an invariant of the world of the backends and [H w ctx x] says that [x] is
    an open handle.  Operations are defined on worlds and handles that satisfy them,
    keep the invariant and leave the other handles open. *)

Definition keeps (H : W -> option nat -> B -> Prop) (P : B -> Prop) (w w' : W) : Prop :=
  forall ctx y, P y -> H w ctx y -> H w' ctx y.

Class Backend (I : W -> Prop) (H : W -> option nat -> B -> Prop) (ops : vfs_ops_t W B) (ctx : option nat) : Prop := {
  bo_open : forall open w rel str flags, op_open ops = Some open -> I w -> cstring rel str -> (length str < VFS_PATH_MAX)%nat ->
    exists r w', open w ctx rel flags = Some (r, w') /\ I w' /\ keeps H (fun _ => True) w w' /\
      forall x, r = Some x -> H w' ctx x /\ forall ctx', ~ H w ctx' x;
  bo_close : forall close w x, op_close ops = Some close -> I w -> H w ctx x ->
    exists w', close w ctx x = Some w' /\ I w' /\ keeps H (fun y => y <> x) w w';
  bo_stat : forall stat w rel str info, op_stat ops = Some stat -> I w -> cstring rel str -> (length str < VFS_PATH_MAX)%nat ->
    length (st_name info) = VFS_PATH_MAX ->
    exists rc info' w', stat w ctx rel info = Some (rc, info', w') /\ I w' /\ keeps H (fun _ => True) w w';
}.

(** ** Invariant *)

(** A path lies under a mount point. *)
Definition covers (mount str : list Z) : Prop :=
  if decide (mount = [SLASH]) then head str = Some SLASH
  else mount `prefix_of` str /\ (head (drop (length mount) str) = None \/ head (drop (length mount) str) = Some SLASH).

Definition mount_of (be : vfs_backend_t W B) : list Z := until0 (be_mount_pt be).

(** The path a backend sees. *)
Definition relative (mount str : list Z) : list Z :=
  if decide (mount = [SLASH]) then str
  else if decide (length str = length mount) then [SLASH] else drop (length mount) str.

Context (I : W -> Prop) (H : W -> option nat -> B -> Prop).

Record backend_ok (be : vfs_backend_t W B) : Prop := {
  bk_mount : cstring (be_mount_pt be) (mount_of be);
  bk_nonempty : mount_of be <> [];
  bk_ops : Backend I H (be_ops be) (be_ctx be);
}.

Record node_ok (st : vfs_st W B) (i : nat) (n : vfsnode_t B) : Prop := {
  no_id : vn_node_id n = Z.of_nat i;
  no_pos : (0 < i)%nat;
  no_handle : match vn_backend n with
    | Some j => exists be x, vs_backends st !! j = Some be /\ be_id be <> 0 /\ vn_bctx n = Some x /\ H (vs_world st) (be_ctx be) x
    | None => vn_bctx n = None
    end;
}.

(** Every used node has its own index as identifier and an open handle of a
    mounted backend that no other node has; every descriptor refers to a used node
    with one reference, owned by the process, and no two refer to the same. *)
Record vfs_inv (st : vfs_st W B) : Prop := {
  vi_nodes : length (vs_nodes st) = Z.to_nat MAX_VFSNODES;
  vi_next : 0 < vs_next_node_id st < MAX_VFSNODES;
  vi_world : I (vs_world st);
  vi_backends : forall j be, vs_backends st !! j = Some be -> be_id be <> 0 -> backend_ok be;
  vi_node : forall i n, vs_nodes st !! i = Some n -> vn_node_id n <> 0 -> node_ok st i n;
  vi_handle : forall i j n m x, vs_nodes st !! i = Some n -> vs_nodes st !! j = Some m -> vn_node_id n <> 0 ->
    vn_node_id m <> 0 -> vn_bctx n = Some x -> vn_bctx m = Some x -> i = j;
  vi_fd_len : forall p fdt, vs_fds st !! p = Some fdt -> length fdt = Z.to_nat MAX_FDS;
  vi_fd : forall p fdt k i, vs_fds st !! p = Some fdt -> fdt !! k = Some (Some i) ->
    exists n, vs_nodes st !! i = Some n /\ vn_node_id n <> 0 /\ vn_refcount n = 1 /\ vn_pcb n = Some p;
  vi_fd_inj : forall p fdt k q fdt' k' i, vs_fds st !! p = Some fdt -> vs_fds st !! q = Some fdt' ->
    fdt !! k = Some (Some i) -> fdt' !! k' = Some (Some i) -> p = q /\ k = k';
}.

(** ** Mount points *)

#[local] Instance covers_dec mount str : Decision (covers mount str).
Proof. unfold covers. case_decide; apply _. Defined.

Lemma covers_root str : covers [SLASH] str <-> head str = Some SLASH.
Proof. unfold covers. by rewrite decide_True. Qed.

Lemma covers_other mount str : mount <> [SLASH] ->
  covers mount str <-> mount `prefix_of` str /\ (head (drop (length mount) str) = None \/ head (drop (length mount) str) = Some SLASH).
Proof. intros. unfold covers. by rewrite decide_False. Qed.

Lemma cstring_at path str k : cstring path str -> (k <= length str)%nat -> path !! k = Some (default 0 (head (drop k str))).
Proof.
  intros (rest & -> & _) Hk. destruct (decide (k < length str)%nat) as [Hlt|].
  - rewrite lookup_app_l by done. rewrite head_lookup, lookup_drop, Nat.add_0_r.
    destruct (lookup_lt_is_Some_2 _ _ Hlt) as [c ->]. done.
  - replace k with (length str) by lia. rewrite lookup_app_r, Nat.sub_diag, drop_all by lia. done.
Qed.

Lemma take_prefix (m s : list Z) : take (length m) s = take (length m) m <-> m `prefix_of` s.
Proof.
  rewrite (firstn_all m). split; [intros <-; by eexists; rewrite take_drop|intros [k ->]; by rewrite take_app_length].
Qed.

Lemma cstring_head path str c : cstring path str -> path !! 0%nat = Some c -> (c =? SLASH) = bool_decide (head str = Some SLASH).
Proof.
  intros Hp Hc. rewrite (cstring_at _ _ 0 Hp) in Hc by lia. simplify_eq/=. rewrite drop_0. destruct str as [|c str]; [done|].
  simpl. destruct (Z.eqb_spec c SLASH) as [->|]; [done|]. by rewrite bool_decide_eq_false_2 by congruence.
Qed.

Lemma mount_matches_ok mp mount path str :
  cstring mp mount -> mount <> [] -> cstring path str ->
  mount_matches mp path (length mount) = Some (bool_decide (covers mount str)).
Proof.
  intros Hm Hne Hp. unfold mount_matches. destruct mount as [|m0 mount]; [done|]. rewrite (cstring_at _ _ 0 Hm) by lia.
  cbn [mbind option_bind drop head default id]. destruct (strncmp_cstring _ _ _ _ (length (m0 :: mount)) Hp Hm) as (r & Hr & Hiff).
  rewrite take_prefix in Hiff.
  destruct (decide (m0 :: mount = [SLASH])) as [Heq|Hne'].
  { injection Heq as -> ->. change ((length [SLASH] =? 1)%nat && (SLASH =? SLASH)) with true. cbv iota.
    destruct (path !! 0%nat) as [c|] eqn:Hc; [|rewrite (cstring_at _ _ 0 Hp) in Hc by lia; done]. cbn [mbind option_bind].
    f_equal. rewrite (cstring_head path str c Hp Hc). apply bool_decide_ext. symmetry. apply covers_root. }
  assert (Hb : (length (m0 :: mount) =? 1)%nat && (m0 =? SLASH) = false).
  { destruct mount; [|done]. cbn [length Nat.eqb andb]. apply Z.eqb_neq. congruence. }
  rewrite Hb, Hr. cbn [mbind option_bind]. destruct (Z.eqb_spec r 0) as [Hr0|Hr0]; cbn [negb].
  - apply Hiff in Hr0. assert (Hlen : (length (m0 :: mount) <= length str)%nat) by (by apply prefix_length).
    rewrite (cstring_at _ _ _ Hp Hlen). cbn [mbind option_bind]. f_equal. apply eq_bool_prop_intro.
    rewrite bool_decide_spec, covers_other by done. destruct (drop (length (m0 :: mount)) str) as [|c r'] eqn:Hd; cbn [head default id].
    + simpl. split; [by auto|done].
    + assert (Hc : 0 < c < 256).
      { destruct Hp as (? & _ & Hall). apply (Forall_drop _ (length (m0 :: mount))) in Hall. rewrite Hd in Hall. by inversion Hall. }
      destruct (Z.eqb_spec c 0); [lia|]. cbn [orb]. destruct (Z.eqb_spec c SLASH) as [->|]; simpl; [split; [auto|done]|].
      split; [done|]. intros [_ [?|?]]; congruence.
  - rewrite bool_decide_eq_false_2; [done|]. rewrite covers_other by done. intros [Hpre _]. by apply Hr0, Hiff.
Qed.

(** The mounts of live backends that cover the path. *)
Definition candidate (bes : list (vfs_backend_t W B)) (str : list Z) (k : nat) (be : vfs_backend_t W B) : Prop :=
  bes !! k = Some be /\ be_id be <> 0 /\ covers (mount_of be) str.

Lemma mount_loop_ok bes i path str best blen :
  (forall j be, bes !! j = Some be -> be_id be <> 0 -> backend_ok be) -> cstring path str ->
  exists best' blen', mount_loop bes i path best blen = Some (best', blen') /\
    (forall k be, candidate bes str k be -> (length (mount_of be) <= blen')%nat) /\
    ((best' = best /\ blen' = blen) \/
     exists k be, candidate bes str k be /\ best' = Some (i + k)%nat /\ blen' = length (mount_of be) /\ (blen < blen')%nat).
Proof.
  intros Hbes Hp. revert i best blen. induction bes as [|be bes IH]; intros i best blen.
  { exists best, blen. split_and!; [done|by intros k be [? _]|by left]. }
  assert (Hbes' : forall j b, bes !! j = Some b -> be_id b <> 0 -> backend_ok b) by (intros j b; apply (Hbes (S j))).
  specialize (IH Hbes'). cbn [mount_loop].
  assert (Hstep : forall bst bl, (be_id be = 0 \/ ~ covers (mount_of be) str \/ (length (mount_of be) <= bl)%nat) ->
      exists best' blen', mount_loop bes (S i) path bst bl = Some (best', blen') /\
      (forall k b, candidate (be :: bes) str k b -> (length (mount_of b) <= blen')%nat) /\
      ((best' = bst /\ blen' = bl) \/
       exists k b, candidate (be :: bes) str k b /\ best' = Some (i + k)%nat /\ blen' = length (mount_of b) /\ (bl < blen')%nat)).
  { intros bst bl Hno. destruct (IH (S i) bst bl) as (best' & blen' & -> & Hmax & Hcase). exists best', blen'. split_and!; [done| |].
    - intros [|k] b (Hk & Hid & Hcov); simplify_eq/=; [|by apply (Hmax k b)].
      destruct Hno as [?|[?|?]]; [done|done|]. destruct Hcase as [[_ ->]|(? & ? & _ & _ & _ & ?)]; lia.
    - destruct Hcase as [?|(k & b & (Hk & Hid & Hcov) & -> & -> & ?)]; [by left|]. right. exists (S k), b.
      split_and!; [by split_and!|f_equal; lia|done|done]. }
  destruct (Z.eqb_spec (be_id be) 0) as [Hid|Hid]; [by apply Hstep; left|].
  pose proof (Hbes 0%nat be eq_refl Hid) as Hbe. rewrite (strlen_cstring _ _ (bk_mount _ Hbe)). cbn [mbind option_bind].
  rewrite (mount_matches_ok _ _ path str (bk_mount _ Hbe) (bk_nonempty _ Hbe) Hp). cbn [mbind option_bind].
  destruct (decide (covers (mount_of be) str)) as [Hc|Hc];
    [rewrite bool_decide_eq_true_2 by done|rewrite bool_decide_eq_false_2 by done; cbn [andb]; apply Hstep; auto].
  cbn [andb]. destruct (Nat.ltb_spec blen (length (mount_of be))) as [Hlt|Hge]; [|apply Hstep; auto].
  destruct (Hstep (Some i) (length (mount_of be))) as (best' & blen' & -> & Hmax & Hcase); [auto|].
  exists best', blen'. split_and!; [done|done|]. right. destruct Hcase as [[-> ->]|(k & b & Hcand & -> & -> & ?)].
  - exists 0%nat, be. split_and!; [done|f_equal; lia|done|done].
  - exists k, b. split_and!; [done|done|done|lia].
Qed.

Lemma cstring_drop path str k : cstring path str -> (k <= length str)%nat -> cstring (drop k path) (drop k str).
Proof. intros (rest & -> & Hall) Hk. exists rest. rewrite drop_app_le by done. split; [done|]. by apply Forall_drop. Qed.

(** [find_backend] finds the mount with the longest prefix of the path. *)
Lemma find_mount_ok st path str :
  vfs_inv st -> cstring path str ->
  exists r, find_backend st path = Some r /\
    match r with
    | None => forall k be, ~ candidate (vs_backends st) str k be
    | Some (k, rel) => exists be, candidate (vs_backends st) str k be /\ cstring rel (relative (mount_of be) str) /\
        forall k' be', candidate (vs_backends st) str k' be' -> (length (mount_of be') <= length (mount_of be))%nat
    end.
Proof.
  intros Hinv Hp. unfold find_backend.
  destruct (mount_loop_ok (vs_backends st) 0 path str None 0 (vi_backends _ Hinv) Hp) as (best & blen & -> & Hmax & Hcase).
  cbn [mbind option_bind]. destruct Hcase as [[-> ->]|(k & be & Hcand & -> & -> & Hlt)].
  { eexists. split; [done|]. intros k be Hc. specialize (Hmax k be Hc). destruct Hc as (Hk & Hid & _).
    pose proof (bk_nonempty _ (vi_backends _ Hinv _ _ Hk Hid)). destruct (mount_of be); [done|simpl in Hmax; lia]. }
  pose proof Hcand as (Hk & Hid & Hcov). pose proof (vi_backends _ Hinv _ _ Hk Hid) as Hbe.
  simpl (0 + k)%nat. rewrite Hk. cbn [mbind option_bind]. rewrite (cstring_at _ _ 0 (bk_mount _ Hbe)) by lia.
  cbn [mbind option_bind]. rewrite drop_0. unfold relative, covers in *.
  destruct (decide (mount_of be = [SLASH])) as [Heq|Hne].
  { eexists. rewrite Heq at 1 2. simpl. split; [done|]. exists be. by rewrite decide_True. }
  assert (Hb : (length (mount_of be) =? 1)%nat && (default 0 (head (mount_of be)) =? SLASH) = false).
  { destruct (mount_of be) as [|m0 [|m1 m]]; [done| |done]. simpl. apply Z.eqb_neq. congruence. }
  rewrite Hb. destruct Hcov as [Hpre Hnext]. pose proof (prefix_length _ _ Hpre) as Hlen.
  rewrite (cstring_at _ _ _ Hp Hlen). cbn [mbind option_bind]. eexists. split; [done|]. exists be. split; [done|].
  rewrite decide_False by done. split; [|done].
  destruct (drop (length (mount_of be)) str) as [|c r] eqn:Hd; cbn [head default id].
  - assert (length str = length (mount_of be)) as -> by (apply (f_equal length) in Hd; rewrite length_drop in Hd; simpl in Hd; lia).
    rewrite decide_True by done. exists []. split; [done|]. constructor; [unfold SLASH; lia|constructor].
  - destruct Hnext as [?|Hs]; [done|]. simpl in Hs. simplify_eq. rewrite decide_False.
    2: { intros Heq. rewrite <- Heq, drop_all in Hd. done. }
    rewrite <- Hd. by apply cstring_drop.
Qed.

(** ** Nodes *)

Definition in_use (n : vfsnode_t B) : Prop := vn_node_id n <> 0.

Lemma alloc_scan_ok (nodes : list (vfsnode_t B)) id i k :
  length nodes = Z.to_nat MAX_VFSNODES ->
  exists r, alloc_scan nodes id i k = Some r /\
    match r with
    | Some c => 0 < c < MAX_VFSNODES /\ exists n, nodes !! Z.to_nat c = Some n /\ vn_node_id n = 0
    | None => forall j n, i <= j < i + Z.of_nat k -> (id + j) mod MAX_VFSNODES <> 0 ->
        nodes !! Z.to_nat ((id + j) mod MAX_VFSNODES) = Some n -> in_use n
    end.
Proof.
  intros Hlen. revert i. induction k as [|k IH]; intros i; cbn [alloc_scan]; [exists None; split; [done|]; intros; lia|].
  pose proof (Z.mod_pos_bound (id + i) MAX_VFSNODES ltac:(unfold MAX_VFSNODES; lia)) as Hc.
  destruct (IH (i + 1)) as (r & Hr & Hs).
  assert (Hgo : ((id + i) mod MAX_VFSNODES = 0 \/ forall n, nodes !! Z.to_nat ((id + i) mod MAX_VFSNODES) = Some n -> in_use n) ->
    match r with
    | Some c => 0 < c < MAX_VFSNODES /\ exists n, nodes !! Z.to_nat c = Some n /\ vn_node_id n = 0
    | None => forall j n, i <= j < i + Z.of_nat (S k) -> (id + j) mod MAX_VFSNODES <> 0 ->
        nodes !! Z.to_nat ((id + j) mod MAX_VFSNODES) = Some n -> in_use n
    end).
  { destruct r; [done|]. intros Hi j n Hj Hne Hn. destruct (decide (j = i)) as [->|]; [destruct Hi as [?|Hi]; [done|by apply Hi]|].
    apply (Hs j n); [lia|done|done]. }
  destruct (Z.eqb_spec ((id + i) mod MAX_VFSNODES) 0) as [H0|H0]; [exists r; split; [done|]; apply Hgo; by left|].
  destruct (lookup_lt_is_Some_2 nodes (Z.to_nat ((id + i) mod MAX_VFSNODES))) as [n Hn]; [rewrite Hlen; lia|].
  rewrite Hn. cbn [mbind option_bind]. destruct (Z.eqb_spec (vn_node_id n) 0) as [Hid|Hid].
  - eexists. split; [done|]. split; [lia|]. by exists n.
  - exists r. split; [done|]. apply Hgo. right. intros m Hm. congruence.
Qed.

(** [alloc_node_id] finds a free node other than node 0 whenever there is one. *)
Lemma alloc_ok st :
  vfs_inv st ->
  exists nid st', alloc_node_id st = Some (nid, st') /\
    ((nid = 0 /\ st' = st /\ forall i n, (0 < i)%nat -> vs_nodes st !! i = Some n -> in_use n) \/
     (0 < nid < MAX_VFSNODES /\ (exists n, vs_nodes st !! Z.to_nat nid = Some n /\ vn_node_id n = 0) /\
      exists next, 0 < next < MAX_VFSNODES /\ st' = set_next_node_id st next)).
Proof.
  intros Hinv. unfold alloc_node_id.
  destruct (alloc_scan_ok (vs_nodes st) (vs_next_node_id st) 0 (Z.to_nat MAX_VFSNODES) (vi_nodes _ Hinv)) as (r & -> & Hr).
  cbn [mbind option_bind]. destruct r as [c|].
  - destruct Hr as [Hc Hn]. do 2 eexists. split; [done|]. right. split_and!; [lia|lia|done|].
    eexists. split; [|done]. pose proof (Z.mod_pos_bound (c + 1) MAX_VFSNODES ltac:(unfold MAX_VFSNODES; lia)).
    destruct (Z.eqb_spec ((c + 1) mod MAX_VFSNODES) 0); unfold MAX_VFSNODES in *; lia.
  - do 2 eexists. split; [done|]. left. split_and!; [done|done|]. intros i n Hi Hn.
    pose proof (lookup_lt_Some _ _ _ Hn) as Hlt. rewrite (vi_nodes _ Hinv) in Hlt.
    assert (Hj : (vs_next_node_id st + (Z.of_nat i - vs_next_node_id st) mod MAX_VFSNODES) mod MAX_VFSNODES = Z.of_nat i).
    { rewrite Zplus_mod_idemp_r. replace (_ + (_ - _)) with (Z.of_nat i) by lia. apply Z.mod_small. lia. }
    apply (Hr ((Z.of_nat i - vs_next_node_id st) mod MAX_VFSNODES) n).
    + pose proof (Z.mod_pos_bound (Z.of_nat i - vs_next_node_id st) MAX_VFSNODES). unfold MAX_VFSNODES in *. lia.
    + rewrite Hj. lia.
    + by rewrite Hj, Nat2Z.id.
Qed.

Lemma inv_set_next st v : vfs_inv st -> 0 < v < MAX_VFSNODES -> vfs_inv (set_next_node_id st v).
Proof. intros [? ? ? ? Hn ? ? ? ?] Hv. constructor; try done. intros i n Hi Hl. destruct (Hn i n Hi Hl). by constructor. Qed.

Lemma keeps_refl (P : B -> Prop) w : keeps H P w w.
Proof. by intros ctx y _ Hy. Qed.

(** A change of the world that leaves the handles of the nodes open. *)
Lemma inv_set_world st w (P : B -> Prop) :
  vfs_inv st -> I w -> keeps H P (vs_world st) w ->
  (forall i n x, vs_nodes st !! i = Some n -> in_use n -> vn_bctx n = Some x -> P x) -> vfs_inv (set_world st w).
Proof.
  intros [? ? ? ? Hn ? ? ? ?] Hw Hk HP. constructor; try done. intros i n Hi Hl. destruct (Hn i n Hi Hl) as [? ? Hh].
  constructor; [done|done|]. simpl. destruct (vn_backend n) as [j|]; [|done].
  destruct Hh as (be & x & Hbe & Hid & Hx & HH). exists be, x. split_and!; [done|done|done|]. apply Hk; [by eapply HP|done].
Qed.

(** The handle of a live node is open. *)
Lemma live_handle st i n x :
  vfs_inv st -> vs_nodes st !! i = Some n -> in_use n -> vn_bctx n = Some x -> exists ctx, H (vs_world st) ctx x.
Proof.
  intros Hinv Hi Hl Hx. pose proof (no_handle _ _ _ (vi_node _ Hinv _ _ Hi Hl)) as Hh.
  destruct (vn_backend n); [|congruence]. destruct Hh as (be & y & _ & _ & Hy & HH). exists (be_ctx be). congruence.
Qed.

(** A node that keeps its identity, owner and handle. *)
Definition same_node (n n' : vfsnode_t B) : Prop :=
  vn_node_id n' = vn_node_id n /\ vn_refcount n' = vn_refcount n /\ vn_pcb n' = vn_pcb n /\
  vn_backend n' = vn_backend n /\ vn_bctx n' = vn_bctx n.

Lemma node_ok_nodes st st' i n n' :
  node_ok st i n -> vs_backends st' = vs_backends st -> vs_world st' = vs_world st ->
  vn_node_id n' = vn_node_id n -> vn_backend n' = vn_backend n -> vn_bctx n' = vn_bctx n -> node_ok st' i n'.
Proof. intros [H1 H2 H3] Hb Hw Hi Hbe Hx. constructor; [congruence|done|]. by rewrite Hbe, Hx, Hb, Hw. Qed.

(** Replacing node [i]: the new node is free or has a handle of its own, and
    descriptors that referred to the old one still refer to a node that fits. *)
Lemma inv_set_node st i n0 n :
  vfs_inv st -> vs_nodes st !! i = Some n0 ->
  (in_use n -> node_ok st i n /\
     forall j m x, j <> i -> vs_nodes st !! j = Some m -> in_use m -> vn_bctx n = Some x -> vn_bctx m = Some x -> False) ->
  (forall p fdt k, vs_fds st !! p = Some fdt -> fdt !! k = Some (Some i) -> in_use n /\ vn_refcount n = 1 /\ vn_pcb n = Some p) ->
  vfs_inv (set_nodes st (<[i := n]> (vs_nodes st))).
Proof.
  intros Hinv Hi Hn Hfd. pose proof (lookup_lt_Some _ _ _ Hi) as Hlt. destruct Hinv as [Hlen ? ? Hbe Hnode Hh Hfl Hf Hinj].
  constructor; simpl; try done.
  - by rewrite length_insert.
  - intros j m Hj Hl. apply list_lookup_insert_Some in Hj as [(<- & <- & _)|[Hne Hj]].
    + apply (node_ok_nodes st _ _ n); try done. by apply Hn.
    + apply (node_ok_nodes st _ _ m); try done. by apply Hnode.
  - intros j k m m' x Hj Hk Hl Hl' Hx Hx'. apply list_lookup_insert_Some in Hj as [(<- & <- & _)|[Hne Hj]];
      apply list_lookup_insert_Some in Hk as [(<- & <- & _)|[Hne' Hk]]; [done| | |by eapply Hh].
    + exfalso. destruct (Hn Hl) as [_ Hd]. by eapply (Hd k m' x).
    + exfalso. destruct (Hn Hl') as [_ Hd]. by eapply (Hd j m x).
  - intros p fdt k j Hp Hk. destruct (decide (j = i)) as [->|Hne].
    + exists n. rewrite list_lookup_insert_eq by done. destruct (Hfd p fdt k Hp Hk) as (? & ? & ?). done.
    + rewrite list_lookup_insert_ne by done. by eapply Hf.
Qed.

Lemma inv_same_node st i n0 n :
  vfs_inv st -> vs_nodes st !! i = Some n0 -> same_node n0 n -> vfs_inv (set_nodes st (<[i := n]> (vs_nodes st))).
Proof.
  intros Hinv Hi (Hid & Hrc & Hpcb & Hbe & Hx). apply (inv_set_node st i n0 n Hinv Hi).
  - unfold in_use. rewrite Hid. intros Hl. split; [apply (node_ok_nodes st _ _ n0); try done; by apply (vi_node _ Hinv)|].
    intros j m x Hne Hj Hlm Hnx Hmx. rewrite Hx in Hnx. by apply Hne, (vi_handle _ Hinv j i m n0 x).
  - intros p fdt k Hp Hk. destruct (vi_fd _ Hinv p fdt k i Hp Hk) as (n1 & Hn1 & Hl & Hr & Hpc).
    rewrite Hi in Hn1. simplify_eq. unfold in_use. rewrite Hid, Hrc, Hpcb. done.
Qed.

Lemma upd_node_ok (st : vfs_st W B) i n f : vs_nodes st !! i = Some n -> upd_node st i f = Some (set_nodes st (<[i := f n]> (vs_nodes st))).
Proof. intros Hi. unfold upd_node. by rewrite Hi. Qed.

(** ** Opening *)

#[local] Instance fits_dec cs n : Decision (fits cs n).
Proof. unfold fits. destruct cs as [|? []]; apply _. Defined.

(** The canonical path of a string, when [vfs_canonicalize] accepts it. *)
Definition canon_path (str : list Z) : option (list Z) :=
  cs ← canonical str; if decide (fits cs VFS_PATH_MAX) then Some (render cs) else None.

Lemma canon_of_ok path str :
  cstring path str ->
  exists r, canon_of path = Some r /\
    match r with
    | Some c => exists s, canon_path str = Some s /\ cstring c s
    | None => canon_path str = None
    end.
Proof.
  intros Hp. unfold canon_of.
  destruct (canonicalize_ok path str (replicate VFS_PATH_MAX 0) VFS_PATH_MAX Hp) as (rc & out & Heq & _ & Hr);
    [rewrite length_replicate; unfold VFS_PATH_MAX; lia|].
  rewrite (bind_eq _ _ _ Heq). unfold canon_path. destruct (canonical str) as [cs|]; cbn [mbind option_bind].
  - destruct Hr as [(Hf & -> & Hs)|[Hf ->]]; eexists; (split; [done|]); simpl.
    + exists (render cs). by rewrite decide_True.
    + by rewrite decide_False.
  - subst rc. eexists. split; [done|]. done.
Qed.

Lemma canon_path_short str s : canon_path str = Some s -> (length s < VFS_PATH_MAX)%nat.
Proof.
  unfold canon_path. destruct (canonical str) as [cs|]; [|done]. cbn [mbind option_bind]. case_decide as Hf; [|done].
  intros [= <-]. destruct cs as [|c [|c' cs]]; cbn [fits] in Hf; cbn [render length join] in *; unfold VFS_PATH_MAX in *; lia.
Qed.

Lemma copy_str_ok n s str : cstring s str -> (length str < n)%nat -> exists m, copy_str n s = Some m /\ cstring m str.
Proof.
  intros Hs Hl. unfold copy_str, strncpy. pose proof Hs as (_ & _ & Hall).
  rewrite (strncpy_from_spec _ _ str) by (try done; rewrite length_replicate; lia). cbn [mbind option_bind].
  rewrite take_ge by lia. set (k := (n - 1 - length str)%nat).
  rewrite inserts_prefix by (rewrite length_app, !length_replicate; lia).
  rewrite length_app, length_replicate, drop_replicate, <- app_assoc. unfold put. rewrite decide_True.
  2: { rewrite !length_app, !length_replicate. lia. }
  eexists. split; [done|]. rewrite <- replicate_add, insert_app_r_alt, insert_replicate by lia.
  replace (k + (n - (length str + k)))%nat with (S (n - 1 - length str)) by lia. by eexists.
Qed.

Lemma relative_short mount str : (length str < VFS_PATH_MAX)%nat -> (length (relative mount str) < VFS_PATH_MAX)%nat.
Proof.
  intros Hs. unfold relative. case_decide; [done|]. case_decide; [simpl; unfold VFS_PATH_MAX; lia|]. rewrite length_drop. lia.
Qed.

(** The backend that serves the path: the longest mount point. *)
Definition serves (st : vfs_st W B) (str : list Z) (k : nat) (be : vfs_backend_t W B) : Prop :=
  candidate (vs_backends st) str k be /\
  forall k' be', candidate (vs_backends st) str k' be' -> (length (mount_of be') <= length (mount_of be))%nat.

Lemma backend_open_ok st path str flags :
  vfs_inv st -> cstring path str -> (length str < VFS_PATH_MAX)%nat ->
  exists r w, backend_open st path flags = Some (r, set_world st w) /\ I w /\ keeps H (fun _ => True) (vs_world st) w /\
    forall k rel x, r = Some (k, rel, x) -> exists be, serves st str k be /\ cstring rel (relative (mount_of be) str) /\
      H w (be_ctx be) x /\ forall ctx, ~ H (vs_world st) ctx x.
Proof.
  intros Hinv Hp Hlen. assert (Hsame : st = set_world st (vs_world st)) by (by destruct st).
  assert (Hk0 : keeps H (fun _ => True) (vs_world st) (vs_world st)) by apply keeps_refl.
  unfold backend_open. destruct (find_mount_ok st path str Hinv Hp) as (r & -> & Hr). cbn [mbind option_bind].
  destruct r as [[k rel]|]; [|exists None, (vs_world st); split_and!; [by rewrite <- Hsame|apply Hinv|done|done]].
  destruct Hr as (be & Hcand & Hrel & Hmax). pose proof Hcand as (Hk & Hid & _). rewrite Hk. cbn [mbind option_bind].
  destruct (op_open (be_ops be)) as [open|] eqn:Ho; [|exists None, (vs_world st); split_and!; [by rewrite <- Hsame|apply Hinv|done|done]].
  pose proof (bk_ops _ (vi_backends _ Hinv _ _ Hk Hid)) as Hb.
  destruct (bo_open open (vs_world st) rel _ flags Ho (vi_world _ Hinv) Hrel (relative_short _ _ Hlen)) as (r & w & -> & Hw & Hkeep & Hx).
  cbn [mbind option_bind]. eexists _, w. split_and!; [done|done|done|]. intros k' rel' x Heq.
  destruct r as [y|]; [|done]. simplify_eq/=. exists be. destruct (Hx x eq_refl). split_and!; done.
Qed.

Lemma stat_size_ok st k be rel str :
  vfs_inv st -> vs_backends st !! k = Some be -> be_id be <> 0 -> cstring rel str -> (length str < VFS_PATH_MAX)%nat ->
  exists size w, stat_size st k rel = Some (size, set_world st w) /\ I w /\ keeps H (fun _ => True) (vs_world st) w.
Proof.
  intros Hinv Hk Hid Hrel Hlen. unfold stat_size. rewrite Hk. cbn [mbind option_bind].
  destruct (op_stat (be_ops be)) as [stat|] eqn:Hs.
  - pose proof (bk_ops _ (vi_backends _ Hinv _ _ Hk Hid)) as Hb.
    destruct (bo_stat stat (vs_world st) rel str zero_stat Hs (vi_world _ Hinv) Hrel Hlen) as (rc & info & w & Heq & Hw & Hkeep);
      [apply length_replicate|].
    rewrite (bind_eq _ _ _ Heq). by exists (if rc =? 0 then st_size info else -1), w.
  - exists (-1), (vs_world st). split; [by destruct st|]. split; [apply Hinv|apply keeps_refl].
Qed.

Lemma close_bctx_ok st k be x :
  vfs_inv st -> vs_backends st !! k = Some be -> be_id be <> 0 -> H (vs_world st) (be_ctx be) x ->
  (forall i n, vs_nodes st !! i = Some n -> in_use n -> vn_bctx n <> Some x) ->
  exists w, close_bctx st (Some k) (Some x) = Some (set_world st w) /\ vfs_inv (set_world st w).
Proof.
  intros Hinv Hk Hid HH Hno. unfold close_bctx. rewrite Hk. cbn [mbind option_bind].
  destruct (op_close (be_ops be)) as [close|] eqn:Hc; [|exists (vs_world st); by destruct st].
  pose proof (bk_ops _ (vi_backends _ Hinv _ _ Hk Hid)) as Hb.
  destruct (bo_close close (vs_world st) x Hc (vi_world _ Hinv) HH) as (w & -> & Hw & Hkeep).
  exists w. split; [done|]. apply (inv_set_world st w (fun y => y <> x)); try done.
  intros i n y Hi Hl Hy ->. by apply (Hno i n).
Qed.

(** *** The new node and its descriptor *)

Lemma free_fd_ok fdt k : free_fd fdt = Some k -> (0 < k < Z.to_nat MAX_FDS)%nat /\ fdt !! k = Some None.
Proof.
  unfold free_fd. intros (i & Hi & ->)%fmap_Some. pose proof (find_idx_lt _ _ _ Hi) as Hlt.
  apply find_idx_Some in Hi as (x & Hx & Hb & _). apply bool_decide_eq_true in Hb as ->.
  rewrite length_drop, length_take in Hlt. rewrite lookup_drop, lookup_take_lt in Hx by lia. split; [lia|done].
Qed.

Lemma fd_not_free st p fdt k i n :
  vfs_inv st -> vs_nodes st !! i = Some n -> vn_node_id n = 0 -> vs_fds st !! p = Some fdt -> fdt !! k <> Some (Some i).
Proof. intros Hinv Hi Hn Hp Hk. destruct (vi_fd _ Hinv p fdt k i Hp Hk) as (n' & Hn' & Hl & _). congruence. Qed.

(** A node that no descriptor refers to enters a free slot. *)
Lemma inv_set_fd st p fdt k i n :
  vfs_inv st -> vs_fds st !! p = Some fdt -> (k < length fdt)%nat -> vs_nodes st !! i = Some n -> in_use n ->
  vn_refcount n = 1 -> vn_pcb n = Some p -> (forall q f j, vs_fds st !! q = Some f -> f !! j <> Some (Some i)) ->
  vfs_inv (set_fds st (<[p := <[k := Some i]> fdt]> (vs_fds st))).
Proof.
  intros Hinv Hp Hk Hi Hl Hr Hpc Hno. destruct Hinv as [? ? ? ? Hnode ? Hfl Hf Hinj].
  assert (Hnew : forall q f j m, <[p := <[k := Some i]> fdt]> (vs_fds st) !! q = Some f -> f !! j = Some (Some m) ->
    (q = p /\ j = k /\ m = i) \/ (exists f0, vs_fds st !! q = Some f0 /\ f0 !! j = Some (Some m) /\ m <> i)).
  { intros q f j m Hq Hj. rewrite lookup_insert_Some in Hq. destruct Hq as [[<- <-]|[Hne Hq]].
    - apply list_lookup_insert_Some in Hj as [(<- & [= <-] & _)|[Hne Hj]]; [by left|]. right. exists fdt. split_and!; [done|done|].
      intros ->. by apply (Hno p fdt j).
    - right. exists f. split_and!; [done|done|]. intros ->. by apply (Hno q f j). }
  constructor; simpl; try done.
  - intros j m Hj Hlm. destruct (Hnode j m Hj Hlm). by constructor.
  - intros q f Hq. rewrite lookup_insert_Some in Hq. destruct Hq as [[<- <-]|[Hne Hq]]; [rewrite length_insert|]; by eapply Hfl.
  - intros q f j m Hq Hj. destruct (Hnew q f j m Hq Hj) as [(-> & -> & ->)|(f0 & Hq0 & Hj0 & _)]; [by exists n|by eapply Hf].
  - intros q f j q' f' j' m Hq Hq' Hj Hj'.
    destruct (Hnew q f j m Hq Hj) as [(-> & -> & ->)|(f0 & Hq0 & Hj0 & Hne)];
      destruct (Hnew q' f' j' _ Hq' Hj') as [(-> & -> & ?)|(f1 & Hq1 & Hj1 & Hne')]; try done. by eapply Hinj.
Qed.

Lemma install_ok st caller i n :
  vfs_inv st -> vs_nodes st !! i = Some n -> in_use n -> vn_refcount n = 1 -> vn_pcb n = caller ->
  (forall p, caller = Some p -> is_Some (vs_fds st !! p)) -> (i < Z.to_nat MAX_VFSNODES)%nat ->
  (forall q f j, vs_fds st !! q = Some f -> f !! j <> Some (Some i)) ->
  exists fd st', install_fd st caller (Z.of_nat i) = Some (fd, st') /\
    ((fd = 0 /\ st' = st) \/
     (fd <> 0 /\ vfs_inv st' /\ exists fds, st' = set_fds st fds /\
      match caller with
      | Some p => exists fdt, vs_fds st !! p = Some fdt /\ 0 < fd < MAX_FDS /\ fdt !! Z.to_nat fd = Some None /\
          fds = <[p := <[Z.to_nat fd := Some i]> fdt]> (vs_fds st)
      | None => fd = Z.of_nat i + MAX_FDS /\ fds = vs_fds st
      end)).
Proof.
  intros Hinv Hi Hl Hr Hpc Hcaller Hlt Hno. unfold install_fd. destruct caller as [p|].
  - destruct (Hcaller p eq_refl) as [fdt Hp]. rewrite Hp. cbn [mbind option_bind]. rewrite Nat2Z.id.
    destruct (free_fd fdt) as [k|] eqn:Hk; [|do 2 eexists; split; [done|]; by left].
    apply free_fd_ok in Hk as [Hk Hnone]. do 2 eexists. split; [done|]. right. split; [lia|]. split.
    + apply (inv_set_fd st p fdt k i n); try done. by eapply lookup_lt_Some.
    + eexists. split; [done|]. exists fdt. rewrite Nat2Z.id. split_and!; try done; lia.
  - assert (Hu : u32 (Z.of_nat i + MAX_FDS) = Z.of_nat i + MAX_FDS).
    { apply u32_small. unfold MAX_FDS, MAX_VFSNODES in *. lia. }
    rewrite Hu. do 2 eexists. split; [done|]. right. unfold MAX_FDS. split_and!; [lia|done|]. exists (vs_fds st). by destruct st.
Qed.

(** What a successful [vfs_open] of the canonical path [s] leaves behind. *)
Definition opened (st st' : vfs_st W B) (s : list Z) (caller : option nat) (fd : Z) : Prop :=
  exists i n0 n k be, serves st s k be /\ vs_nodes st !! i = Some n0 /\ vn_node_id n0 = 0 /\
    vs_nodes st' = <[i := n]> (vs_nodes st) /\ vn_node_id n = Z.of_nat i /\ cstring (vn_path n) s /\
    vn_refcount n = 1 /\ vn_pcb n = caller /\ vn_backend n = Some k /\ vn_offset n = 0 /\
    match caller with
    | Some p => exists fdt, vs_fds st !! p = Some fdt /\ 0 < fd < MAX_FDS /\ fdt !! Z.to_nat fd = Some None /\
        vs_fds st' = <[p := <[Z.to_nat fd := Some i]> fdt]> (vs_fds st)
    | None => fd = Z.of_nat i + MAX_FDS /\ vs_fds st' = vs_fds st
    end.

(** Nothing of the tables a process can see has changed. *)
Definition untouched (st st' : vfs_st W B) : Prop :=
  vs_fds st' = vs_fds st /\ vs_backends st' = vs_backends st /\
  forall i n, in_use n -> vs_nodes st' !! i = Some n <-> vs_nodes st !! i = Some n.

(** A free node [i] becomes the node of the fresh handle [x]. *)
Lemma new_node_inv st i n0 n k be x :
  vfs_inv st -> vs_nodes st !! i = Some n0 -> vn_node_id n0 = 0 -> (0 < i)%nat -> vn_node_id n = Z.of_nat i ->
  vn_backend n = Some k -> vn_bctx n = Some x -> vs_backends st !! k = Some be -> be_id be <> 0 ->
  H (vs_world st) (be_ctx be) x -> (forall j m, vs_nodes st !! j = Some m -> in_use m -> vn_bctx m <> Some x) ->
  vfs_inv (set_nodes st (<[i := n]> (vs_nodes st))).
Proof.
  intros Hinv Hi Hn0 Hpos Hid Hk Hx Hbe Hbid HH Hfresh. apply (inv_set_node st i n0 n Hinv Hi).
  - intros _. split; [constructor; [done|done|]; rewrite Hk; by exists be, x|].
    intros j m y Hne Hj Hl Hny Hmy. rewrite Hx in Hny. simplify_eq. by apply (Hfresh j m).
  - intros p fdt q Hp Hq. exfalso. by apply (fd_not_free st p fdt q i n0 Hinv Hi Hn0 Hp).
Qed.

(** Giving the node up again. *)
Lemma drop_node_inv st i n k be x :
  vfs_inv st -> vs_nodes st !! i = Some n -> vs_backends st !! k = Some be -> be_id be <> 0 ->
  H (vs_world st) (be_ctx be) x -> (forall j m, j <> i -> vs_nodes st !! j = Some m -> in_use m -> vn_bctx m <> Some x) ->
  (forall q f j, vs_fds st !! q = Some f -> f !! j <> Some (Some i)) ->
  let st1 := set_nodes st (<[i := vn_set_id n 0]> (vs_nodes st)) in
  exists w, close_bctx st1 (Some k) (Some x) = Some (set_world st1 w) /\ vfs_inv (set_world st1 w).
Proof.
  intros Hinv Hi Hk Hid HH Hfresh Hno st1. pose proof (lookup_lt_Some _ _ _ Hi) as Hlt.
  assert (Hinv1 : vfs_inv st1).
  { apply (inv_set_node st i n _ Hinv Hi); [by unfold in_use|]. intros p fdt q Hp Hq. by destruct (Hno p fdt q). }
  apply (close_bctx_ok st1 k be x Hinv1 Hk Hid HH). intros j m Hj Hl.
  apply list_lookup_insert_Some in Hj as [(<- & <- & _)|[Hne Hj]]; [by unfold in_use in Hl|]. by apply (Hfresh j).
Qed.

Lemma untouched_free st st' i n0 n :
  vs_nodes st !! i = Some n0 -> vn_node_id n0 = 0 -> vn_node_id n = 0 -> vs_nodes st' = <[i := n]> (vs_nodes st) ->
  vs_fds st' = vs_fds st -> vs_backends st' = vs_backends st -> untouched st st'.
Proof.
  intros Hi H0 Hn Hns Hf Hb. pose proof (lookup_lt_Some _ _ _ Hi) as Hlt. split_and!; [done|done|]. intros j m Hl. rewrite Hns.
  destruct (decide (j = i)) as [->|Hne].
  - rewrite list_lookup_insert_eq, Hi by done. unfold in_use in Hl. split; intros; simplify_eq.
  - by rewrite list_lookup_insert_ne.
Qed.

Lemma open_node_ok st path s rel k be x flags caller :
  vfs_inv st -> serves st s k be -> cstring path s -> (length s < VFS_PATH_MAX)%nat -> cstring rel (relative (mount_of be) s) ->
  H (vs_world st) (be_ctx be) x -> (forall j m, vs_nodes st !! j = Some m -> in_use m -> vn_bctx m <> Some x) ->
  (forall p, caller = Some p -> is_Some (vs_fds st !! p)) ->
  exists fd st', open_node st path rel k x flags caller = Some (fd, st') /\ vfs_inv st' /\
    (opened st st' s caller fd \/ (fd = u32 VFS_EMFILE /\ untouched st st')).
Proof.
  intros Hinv Hserv Hp Hlen Hrel HH Hfresh Hcaller. pose proof Hserv as [(Hk & Hid & _) _]. unfold open_node.
  destruct (alloc_ok st Hinv) as (nid & st1 & -> & [(-> & -> & _)|(Hnid & (n0 & Hi & Hn0) & next & Hnext & ->)]);
    cbn [mbind option_bind].
  { destruct (close_bctx_ok st k be x Hinv Hk Hid HH Hfresh) as (w & -> & Hinv'). cbn [mbind option_bind]. simpl.
    do 2 eexists. split_and!; [done|done|]. right. split; [done|]. by split_and!. }
  destruct (Z.eqb_spec nid 0); [lia|]. destruct (copy_str_ok VFS_PATH_MAX path s Hp Hlen) as (npath & Hnp & Hnpath).
  rewrite (bind_eq _ _ _ Hnp). pose proof (inv_set_next st next Hinv Hnext) as Hinv1.
  set (i := Z.to_nat nid) in *. set (n1 := mk_vnode nid 1 _ _ _ _ _ _ _ _ _). pose proof (lookup_lt_Some _ _ _ Hi) as Hlt.
  rewrite (upd_node_ok (set_next_node_id st next) i n0) by done. cbn [mbind option_bind].
  set (st2 := set_nodes _ _). assert (Hinv2 : vfs_inv st2).
  { apply (new_node_inv (set_next_node_id st next) i n0 n1 k be x); simpl; try done; lia. }
  destruct (stat_size_ok st2 k be rel _ Hinv2 Hk Hid Hrel (relative_short _ _ Hlen)) as (size & w & -> & Hw & Hkeep).
  cbn [mbind option_bind]. assert (Hinv3 : vfs_inv (set_world st2 w)) by (by apply (inv_set_world st2 w (fun _ => True))).
  assert (Hi3 : vs_nodes (set_world st2 w) !! i = Some n1) by (by apply list_lookup_insert_eq).
  rewrite (upd_node_ok _ i n1) by exact Hi3. cbn [mbind option_bind]. set (st4 := set_nodes _ _).
  assert (Hnodes4 : vs_nodes st4 = <[i := vn_set_size n1 size]> (vs_nodes st)) by apply list_insert_insert_eq.
  assert (Hinv4 : vfs_inv st4) by (by apply (inv_same_node (set_world st2 w) i n1)).
  assert (Hi4 : vs_nodes st4 !! i = Some (vn_set_size n1 size)) by (rewrite Hnodes4; by apply list_lookup_insert_eq).
  assert (Hno4 : forall q f j, vs_fds st4 !! q = Some f -> f !! j <> Some (Some i)).
  { intros q f j Hq. by apply (fd_not_free st q f j i n0). }
  destruct (install_ok st4 caller i (vn_set_size n1 size) Hinv4 Hi4) as (fd & st5 & Hins & Hcase);
    [unfold in_use; simpl; lia|done|done|done|by rewrite <- (vi_nodes _ Hinv)|done|].
  unfold i in Hins at 1. rewrite Z2Nat.id in Hins by lia. rewrite (bind_eq _ _ _ Hins).
  destruct Hcase as [[-> ->]|(Hfd & Hinv5 & fds & -> & Hfds)].
  - change (0 =? 0) with true. cbv iota. rewrite (upd_node_ok _ i _ _ Hi4). cbn [mbind option_bind].
    destruct (drop_node_inv st4 i _ k be x Hinv4 Hi4 Hk Hid) as (w' & -> & Hinv6); [by apply Hkeep| |done|].
    { intros j m Hne Hj. rewrite Hnodes4, list_lookup_insert_ne in Hj by done. by apply (Hfresh j). }
    cbn [mbind option_bind]. do 2 eexists. split_and!; [done|done|]. right. split; [done|].
    eapply (untouched_free st _ i n0 (vn_set_id (vn_set_size n1 size) 0)); try done.
    transitivity (<[i := vn_set_id (vn_set_size n1 size) 0]> (vs_nodes st4)); [done|]. rewrite Hnodes4. apply list_insert_insert_eq.
  - rewrite (proj2 (Z.eqb_neq _ _) Hfd). do 2 eexists. split_and!; [done|done|]. left.
    exists i, n0, (vn_set_size n1 size), k, be. split_and!; try done. simpl. lia.
Qed.

(** *** [vfs_open] *)

Lemma open_ok st path str flags caller :
  vfs_inv st -> cstring path str -> (forall p, caller = Some p -> is_Some (vs_fds st !! p)) ->
  exists fd st', vfs_open st (Some path) flags caller = Some (fd, st') /\ vfs_inv st' /\
    ((exists s, canon_path str = Some s /\ opened st st' s caller fd) \/
     (fd ∈ [u32 VFS_EINVAL; u32 VFS_ENOENT; u32 VFS_EMFILE] /\ untouched st st')).
Proof.
  intros Hinv Hp Hcaller. assert (Hun : untouched st st) by (by split_and!). unfold vfs_open.
  rewrite (cstring_at _ _ 0 Hp) by lia. cbn [mbind option_bind]. destruct (_ =? 0).
  { do 2 eexists. split_and!; [done|done|]. right. split; [set_solver|done]. }
  destruct (canon_of_ok path str Hp) as (r & -> & Hr). cbn [mbind option_bind]. destruct r as [c|].
  2: { do 2 eexists. split_and!; [done|done|]. right. split; [set_solver|done]. }
  destruct Hr as (s & Hs & Hc). pose proof (canon_path_short _ _ Hs) as Hlen. set (fl := if _ =? 0 then _ else _).
  destruct (backend_open_ok st c s fl Hinv Hc Hlen) as (r & w & -> & Hw & Hkeep & Hr). cbn [mbind option_bind].
  assert (Hinv1 : vfs_inv (set_world st w)) by (by apply (inv_set_world st w (fun _ => True))).
  destruct r as [[[k rel] x]|].
  - destruct (Hr k rel x eq_refl) as (be & Hserv & Hrel & HH & Hfresh).
    destruct (open_node_ok (set_world st w) c s rel k be x fl caller) as (fd & st' & -> & Hinv' & Hcase); try done.
    { intros j m Hj Hl Hx. destruct (live_handle st j m x Hinv Hj Hl Hx) as [ctx HH']. by apply (Hfresh ctx). }
    exists fd, st'. split_and!; [done|done|]. destruct Hcase as [Ho|[-> Hu]]; [left; by exists s|]. right. split; [set_solver|done].
  - do 2 eexists. split_and!; [done|done|]. right. split; [set_solver|done].
Qed.

(** ** Closing *)

(** The last reference to node [i] goes: its handle is closed and the node is free. *)
Lemma release_ok st i n :
  vfs_inv st -> vs_nodes st !! i = Some n -> in_use n ->
  exists w st', (st ← close_bctx st (vn_backend n) (vn_bctx n); st ← upd_node st i (fun n => vn_set_id n 0); Some (0, st)) = Some (0, st') /\
    st' = set_world (set_nodes st (<[i := vn_set_id n 0]> (vs_nodes st))) w /\
    ((forall q f j, vs_fds st !! q = Some f -> f !! j <> Some (Some i)) -> vfs_inv st').
Proof.
  intros Hinv Hi Hl. pose proof (no_handle _ _ _ (vi_node _ Hinv i n Hi Hl)) as Hh.
  assert (Hfree : (forall q f j, vs_fds st !! q = Some f -> f !! j <> Some (Some i)) ->
    vfs_inv (set_nodes st (<[i := vn_set_id n 0]> (vs_nodes st)))).
  { intros Hno. apply (inv_set_node st i n _ Hinv Hi); [by unfold in_use|]. intros p fdt q Hp Hq. by destruct (Hno p fdt q). }
  assert (Hsame : forall w, close_bctx st (vn_backend n) (vn_bctx n) = Some (set_world st w) -> I w ->
      keeps H (fun y => vn_bctx n <> Some y) (vs_world st) w ->
      exists w st', (st ← close_bctx st (vn_backend n) (vn_bctx n); st ← upd_node st i (fun n => vn_set_id n 0); Some (0, st)) = Some (0, st') /\
      st' = set_world (set_nodes st (<[i := vn_set_id n 0]> (vs_nodes st))) w /\
      ((forall q f j, vs_fds st !! q = Some f -> f !! j <> Some (Some i)) -> vfs_inv st')).
  { intros w -> Hw Hk. cbn [mbind option_bind]. rewrite (upd_node_ok (set_world st w) i n) by done. cbn [mbind option_bind].
    eexists w, _. split; [done|]. split; [done|]. intros Hno.
    apply (inv_set_world (set_nodes st (<[i := vn_set_id n 0]> (vs_nodes st))) w _ (Hfree Hno) Hw Hk).
    intros j m y Hj Hlm Hy Hny. apply list_lookup_insert_Some in Hj as [(<- & <- & _)|[Hne Hj]]; [by unfold in_use in Hlm|].
    by apply Hne, (vi_handle _ Hinv i j n m y). }
  assert (Hst : st = set_world st (vs_world st)) by (by destruct st).
  destruct (vn_backend n) as [k|] eqn:Hk.
  2: { apply (Hsame (vs_world st)); [simpl; by rewrite <- Hst|apply Hinv|apply keeps_refl]. }
  destruct Hh as (be & x & Hbe & Hid & Hx & HH). rewrite Hx in *. unfold close_bctx in *. rewrite Hbe in *. cbn [mbind option_bind] in *.
  destruct (op_close (be_ops be)) as [close|] eqn:Hc.
  - pose proof (bk_ops _ (vi_backends _ Hinv _ _ Hbe Hid)) as Hb.
    destruct (bo_close close (vs_world st) x Hc (vi_world _ Hinv) HH) as (w & Heq & Hw & Hkeep). rewrite Heq in *.
    apply (Hsame w); [done|done|]. intros ctx y Hne. apply Hkeep. congruence.
  - apply (Hsame (vs_world st)); [by rewrite <- Hst|apply Hinv|apply keeps_refl].
Qed.

Lemma inv_clear_fd st p fdt k :
  vfs_inv st -> vs_fds st !! p = Some fdt -> vfs_inv (set_fds st (<[p := <[k := None]> fdt]> (vs_fds st))).
Proof.
  intros Hinv Hp. destruct Hinv as [? ? ? ? Hnode ? Hfl Hf Hinj].
  assert (Hold : forall q f j m, <[p := <[k := None]> fdt]> (vs_fds st) !! q = Some f -> f !! j = Some (Some m) ->
    exists f0, vs_fds st !! q = Some f0 /\ f0 !! j = Some (Some m)).
  { intros q f j m Hq Hj. rewrite lookup_insert_Some in Hq. destruct Hq as [[<- <-]|[Hne Hq]]; [|by exists f].
    apply list_lookup_insert_Some in Hj as [(_ & ? & _)|[Hne Hj]]; [done|by exists fdt]. }
  constructor; simpl; try done.
  - intros j m Hj Hlm. destruct (Hnode j m Hj Hlm). by constructor.
  - intros q f Hq. rewrite lookup_insert_Some in Hq. destruct Hq as [[<- <-]|[Hne Hq]]; [rewrite length_insert|]; by eapply Hfl.
  - intros q f j m Hq Hj. destruct (Hold q f j m Hq Hj) as (f0 & Hq0 & Hj0). by eapply Hf.
  - intros q f j q' f' j' m Hq Hq' Hj Hj'. destruct (Hold q f j m Hq Hj) as (f0 & Hq0 & Hj0).
    destruct (Hold q' f' j' m Hq' Hj') as (f1 & Hq1 & Hj1). by eapply Hinj.
Qed.

(** A slot that was cleared was the only one of its node. *)
Lemma cleared_fd st p fdt k i :
  vfs_inv st -> vs_fds st !! p = Some fdt -> fdt !! k = Some (Some i) ->
  forall q f j, <[p := <[k := None]> fdt]> (vs_fds st) !! q = Some f -> f !! j <> Some (Some i).
Proof.
  intros Hinv Hp Hk q f j Hq Hj. rewrite lookup_insert_Some in Hq. destruct Hq as [[<- <-]|[Hne Hq]].
  - apply list_lookup_insert_Some in Hj as [(_ & ? & _)|[Hne Hj]]; [done|].
    destruct (vi_fd_inj _ Hinv p fdt k p fdt j i) as [_ ?]; done.
  - destruct (vi_fd_inj _ Hinv p fdt k q f j i) as [? _]; done.
Qed.

Lemma alter_insert_lookup {A} (f : A -> A) (m : gmap nat A) p x : m !! p = Some x -> alter f p m = <[p := f x]> m.
Proof.
  intros Hp. apply map_eq. intros q. destruct (decide (p = q)) as [<-|Hne].
  - by rewrite lookup_alter_eq, Hp, lookup_insert_eq.
  - by rewrite lookup_alter_ne, lookup_insert_ne.
Qed.

Lemma close_ok st p fdt fd :
  vfs_inv st -> vs_current st = Some p -> vs_fds st !! p = Some fdt -> 0 < fd < MAX_FDS ->
  exists r st', vfs_close st fd = Some (r, st') /\ vfs_inv st' /\
    match fdt !! Z.to_nat fd with
    | Some (Some i) => r = 0 /\ vs_fds st' = <[p := <[Z.to_nat fd := None]> fdt]> (vs_fds st) /\
        (exists n, vs_nodes st' !! i = Some n /\ vn_node_id n = 0) /\
        forall j, j <> i -> vs_nodes st' !! j = vs_nodes st !! j
    | _ => r = VFS_EINVAL /\ st' = st
    end.
Proof.
  intros Hinv Hcur Hp Hfd. unfold vfs_close. rewrite (proj2 (Z.eqb_neq fd 0)) by lia. unfold fd_node, clear_fd.
  rewrite (proj2 (Z.leb_gt _ _)) by lia. rewrite Hcur, Hp. cbn [mbind option_bind].
  destruct (lookup_lt_is_Some_2 fdt (Z.to_nat fd)) as [o Ho]; [rewrite (vi_fd_len _ Hinv _ _ Hp); lia|].
  rewrite Ho. cbn [mbind option_bind]. destruct o as [i|]; [|by do 2 eexists].
  destruct (vi_fd _ Hinv p fdt _ i Hp Ho) as (n & Hi & Hl & Hrc & Hpc). pose proof (lookup_lt_Some _ _ _ Hi) as Hlt.
  rewrite (alter_insert_lookup _ _ _ _ Hp). simpl vs_nodes. rewrite Hi. cbn [mbind option_bind]. rewrite Hrc.
  set (st1 := set_fds st _). assert (Hinv1 : vfs_inv st1) by (by apply inv_clear_fd).
  rewrite (upd_node_ok st1 i n) by done. cbn [mbind option_bind]. change (u32 (1 - 1)) with 0. change (0 =? 0) with true. cbv iota.
  set (n1 := vn_set_refcount n 0). set (st2 := set_nodes st1 _).
  assert (Hno : forall q f j, vs_fds st1 !! q = Some f -> f !! j <> Some (Some i)) by (by apply cleared_fd).
  assert (Hi2 : vs_nodes st2 !! i = Some n1) by (by apply list_lookup_insert_eq).
  assert (Hinv2 : vfs_inv st2).
  { apply (inv_set_node st1 i n n1 Hinv1 Hi).
    - intros _. split; [apply (node_ok_nodes st1 _ _ n); try done; by apply (vi_node _ Hinv1)|].
      intros j m x Hne Hj Hlm Hnx Hmx. by apply Hne, (vi_handle _ Hinv1 j i m n x).
    - intros q f j Hq Hj. by destruct (Hno q f j). }
  destruct (release_ok st2 i n1 Hinv2 Hi2 Hl) as (w & st' & Heq & -> & Hinv').
  change (vn_backend n) with (vn_backend n1). change (vn_bctx n) with (vn_bctx n1). rewrite Heq.
  do 2 eexists. split; [done|]. split; [by apply Hinv'|]. split_and!; [done|done| |].
  - exists (vn_set_id n1 0). split; [|done]. simpl. rewrite list_insert_insert_eq. by apply list_lookup_insert_eq.
  - intros j Hne. simpl. by rewrite !list_lookup_insert_ne by done.
Qed.

(** A pseudo-descriptor reaches the node of any process: closing it frees the node
    while the descriptor of the process still refers to it. *)
Lemma close_pseudo_dangles st p fdt k i :
  vfs_inv st -> vs_fds st !! p = Some fdt -> fdt !! k = Some (Some i) ->
  exists st' n, vfs_close st (Z.of_nat i + MAX_FDS) = Some (0, st') /\ vs_fds st' = vs_fds st /\
    vs_nodes st' !! i = Some n /\ vn_node_id n = 0.
Proof.
  intros Hinv Hp Hk. destruct (vi_fd _ Hinv p fdt k i Hp Hk) as (n & Hi & Hl & Hrc & Hpc).
  pose proof (lookup_lt_Some _ _ _ Hi) as Hlt. pose proof Hlt as Hlt'. rewrite (vi_nodes _ Hinv) in Hlt'.
  pose proof (no_id _ _ _ (vi_node _ Hinv _ _ Hi Hl)) as Hid. unfold MAX_VFSNODES in Hlt'.
  unfold vfs_close, fd_node, clear_fd, MAX_FDS, MAX_VFSNODES. rewrite (proj2 (Z.eqb_neq _ 0)) by lia.
  rewrite (proj2 (Z.leb_le _ _)) by lia. replace (Z.of_nat i + 256 - 256) with (Z.of_nat i) by lia.
  rewrite (proj2 (Z.leb_gt _ _)) by lia. rewrite Nat2Z.id, Hi. cbn [mbind option_bind]. rewrite Hid, Z.eqb_refl.
  cbn [mbind option_bind]. replace (match vs_current st with Some _ => st | None => st end) with st by (by destruct (vs_current st)).
  rewrite Hi. cbn [mbind option_bind]. rewrite Hrc, (upd_node_ok st i n) by done. cbn [mbind option_bind].
  change (u32 (1 - 1)) with 0. change (0 =? 0) with true. cbv iota.
  set (n1 := vn_set_refcount n 0). set (st2 := set_nodes st _).
  assert (Hc : exists w, close_bctx st2 (vn_backend n) (vn_bctx n) = Some (set_world st2 w)).
  { pose proof (no_handle _ _ _ (vi_node _ Hinv i n Hi Hl)) as Hh. unfold close_bctx.
    destruct (vn_backend n) as [j|]; [|exists (vs_world st); by destruct st]. destruct Hh as (be & x & Hbe & Hbid & -> & HH).
    change (vs_backends st2) with (vs_backends st). rewrite Hbe. cbn [mbind option_bind].
    destruct (op_close (be_ops be)) as [close|] eqn:Hcl; [|exists (vs_world st); by destruct st].
    pose proof (bk_ops _ (vi_backends _ Hinv _ _ Hbe Hbid)) as Hb.
    destruct (bo_close close (vs_world st) x Hcl (vi_world _ Hinv) HH) as (w & Heq & _).
    change (vs_world st2) with (vs_world st). rewrite Heq. by exists w. }
  destruct Hc as (w & ->). cbn [mbind option_bind].
  rewrite (upd_node_ok (set_world st2 w) i n1) by (by apply list_lookup_insert_eq). cbn [mbind option_bind].
  eexists _, (vn_set_id n1 0). split_and!; [done|done| |done]. simpl. rewrite list_insert_insert_eq. by apply list_lookup_insert_eq.
Qed.
End vfs.

(** ** Operations through a descriptor *)

Section through.
Context {W B : Type}.
Implicit Types st : vfs_st W B.

(** Descriptor [fd] of the running process is node [i], a file of backend [be] with
    handle [x]. *)
Record fd_file st (fd : Z) (i : nat) (n : vfsnode_t B) (be : vfs_backend_t W B) (x : B) : Prop := {
  ff_fd : 0 < fd < MAX_FDS;
  ff_slot : exists p fdt, vs_current st = Some p /\ vs_fds st !! p = Some fdt /\ fdt !! Z.to_nat fd = Some (Some i);
  ff_node : vs_nodes st !! i = Some n;
  ff_ring : vn_ring n = None;
  ff_port : vn_port_id n = 0;
  ff_backend : exists k, vn_backend n = Some k /\ vs_backends st !! k = Some be;
  ff_bctx : vn_bctx n = Some x;
}.

(** The state after an operation of the backend that moved the cursor. *)
Definition moved_to st (w : W) (i : nat) (n : vfsnode_t B) (off : Z) : vfs_st W B :=
  set_nodes (set_world st w) (<[i := vn_set_offset n off]> (vs_nodes st)).

Lemma fd_file_moved st fd i n be x w off :
  fd_file st fd i n be x -> fd_file (moved_to st w i n off) fd i (vn_set_offset n off) be x.
Proof.
  intros [? ? Hn ? ? ? ?]. constructor; try done. simpl. apply list_lookup_insert_eq. by eapply lookup_lt_Some.
Qed.

Lemma fd_file_node st fd i n be x : fd_file st fd i n be x -> fd_node st fd = Some (Some i) /\ fd <> 0.
Proof.
  intros [Hfd (p & fdt & Hc & Hp & Hs) _ _ _ _ _]. unfold fd_node. rewrite (proj2 (Z.leb_gt _ _)) by lia.
  rewrite Hc, Hp. cbn [mbind option_bind]. rewrite Hs. split; [done|lia].
Qed.

Lemma upd_offset st w i n f :
  vs_nodes st !! i = Some n -> upd_node (set_world st w) i (fun n => vn_set_offset n (f n)) = Some (moved_to st w i n (f n)).
Proof. intros Hi. unfold upd_node. simpl. by rewrite Hi. Qed.

Lemma write_through st fd i n be x write buf len kb rc w :
  fd_file st fd i n be x -> op_write (be_ops be) = Some write -> len <> 0 ->
  write (vs_world st) (be_ctx be) x buf len = Some (rc, w) ->
  vfs_write st fd (Some buf) len kb =
    Some (rc, if rc =? 0 then moved_to st w i n (u64 (vn_offset n + len)) else set_world st w).
Proof.
  intros Hf Hop Hlen Hw. destruct (fd_file_node _ _ _ _ _ _ Hf) as [Hn Hfd]. destruct Hf as [_ _ Hi Hr Hp (k & Hk & Hbe) Hx].
  unfold vfs_write. rewrite (proj2 (Z.eqb_neq fd 0) Hfd), (proj2 (Z.eqb_neq len 0) Hlen). cbn [orb]. rewrite Hn. cbn [mbind option_bind].
  rewrite Hi. cbn [mbind option_bind]. rewrite Hr, Hp. cbn [Z.eqb negb]. rewrite Hk, Hbe. cbn [mbind option_bind].
  rewrite Hop, Hx. cbn [mbind option_bind]. rewrite Hw. cbn [mbind option_bind]. destruct (rc =? 0); [|done].
  by rewrite (upd_offset st w i n (fun nd => u64 (vn_offset nd + len)) Hi).
Qed.

Lemma seek_through st fd i n be x seek off whence rc w :
  fd_file st fd i n be x -> op_seek (be_ops be) = Some seek -> seek (vs_world st) (be_ctx be) x off whence = Some (rc, w) ->
  vfs_seek st fd off whence = Some (rc, if 0 <=? rc then moved_to st w i n (u64 rc) else set_world st w).
Proof.
  intros Hf Hop Hw. destruct (fd_file_node _ _ _ _ _ _ Hf) as [Hn Hfd]. destruct Hf as [_ _ Hi Hr Hp (k & Hk & Hbe) Hx].
  unfold vfs_seek. rewrite (proj2 (Z.eqb_neq fd 0) Hfd), Hn. cbn [mbind option_bind]. rewrite Hi. cbn [mbind option_bind].
  rewrite Hk, Hbe. cbn [fmap option_fmap option_map mbind option_bind]. rewrite Hop. cbn [fmap option_fmap option_map mbind option_bind].
  rewrite Hx. cbn [mbind option_bind]. rewrite Hw. cbn [mbind option_bind]. destruct (0 <=? rc); [|done].
  by rewrite (upd_offset st w i n (fun _ => u64 rc) Hi).
Qed.

Lemma read_through st fd i n be x read buf len g buf' g' w :
  fd_file st fd i n be x -> op_read (be_ops be) = Some read ->
  read (vs_world st) (be_ctx be) x buf len (Some g) = Some (0, buf', Some g', w) ->
  vfs_read st fd (Some buf) len (Some g) = Some (0, Some buf', Some g', moved_to st w i n (u64 (vn_offset n + g'))).
Proof.
  intros Hf Hop Hw. destruct (fd_file_node _ _ _ _ _ _ Hf) as [Hn Hfd]. destruct Hf as [_ _ Hi Hr Hp (k & Hk & Hbe) Hx].
  unfold vfs_read. rewrite (proj2 (Z.eqb_neq fd 0) Hfd), Hn. cbn [mbind option_bind]. rewrite Hi. cbn [mbind option_bind].
  rewrite Hr, Hk, Hbe. cbn [mbind option_bind]. rewrite Hop, Hx. cbn [mbind option_bind]. rewrite Hw. cbn [mbind option_bind].
  change (0 =? 0) with true. cbv iota. by rewrite (upd_offset st w i n (fun nd => u64 (vn_offset nd + g')) Hi).
Qed.

End through.

(** ** A system with one backend *)

(** A backend that counts its handles. *)
Definition demo_ops : vfs_ops_t nat nat :=
  mk_ops (Some (fun w _ _ _ => Some (Some w, S w))) (Some (fun w _ _ => Some w)) None None None None None None None.

Definition demo_handle (w : nat) (_ : option nat) (x : nat) : Prop := (x < w)%nat.

Lemma demo_backend_laws ctx : Backend (fun _ => True) demo_handle demo_ops ctx.
Proof.
  constructor; simpl.
  - intros open w rel str flags [= <-] _ _ _. do 2 eexists. split_and!; [done|done| |].
    + intros c y _ Hy. unfold demo_handle in *. lia.
    + intros x [= <-]. unfold demo_handle. split; [lia|]. intros _. lia.
  - intros close w x [= <-] _ _. eexists. split_and!; [done|done|]. by intros c y _ Hy.
  - done.
Qed.

Definition demo_mount (s : string) : list Z := c_str s ++ replicate (VFS_PATH_MAX - length (c_str s)) 0.

Definition demo_be (s : string) (id : Z) : vfs_backend_t nat nat := mk_backend (replicate 64 0) (demo_mount s) demo_ops None id.

(** File systems at "/" and "/boot"; process 9 has one file open, node 1. *)
Definition demo_vfs : vfs_st nat nat :=
  mk_vfs ([zero_node; mk_vnode 1 1 1 0 (-1) (demo_mount "/etc/motd") (Some 0%nat) (Some 0%nat) (Some 9%nat) None 0] ++ replicate 1022 zero_node)
    [demo_be "/" 1; demo_be "/boot" 2] 2 {[ 9%nat := <[3%nat := Some 1%nat]> (replicate 256 None) ]} ∅ (mk_ports [] ∅ []) (Some 9%nat) 1%nat.

Lemma demo_be_ok s id : cstring (demo_mount s) (c_str s) -> c_str s <> [] -> backend_ok (fun _ => True) demo_handle (demo_be s id).
Proof.
  intros Hm Hne. constructor; unfold mount_of; simpl; rewrite ?(until0_cstring _ _ Hm); [done|done|apply demo_backend_laws].
Qed.

Lemma demo_live_node i n : vs_nodes demo_vfs !! i = Some n -> vn_node_id n <> 0 ->
  i = 1%nat /\ n = mk_vnode 1 1 1 0 (-1) (demo_mount "/etc/motd") (Some 0%nat) (Some 0%nat) (Some 9%nat) None 0.
Proof.
  intros [Hi|[_ Hi]]%lookup_app_Some Hn.
  - destruct i as [|[|i]]; [injection Hi as <-; done|injection Hi as <-; done|done].
  - apply lookup_replicate in Hi as [-> _]. done.
Qed.

Lemma demo_fd p fdt : vs_fds demo_vfs !! p = Some fdt -> p = 9%nat /\ fdt = <[3%nat := Some 1%nat]> (replicate 256 None).
Proof.
  intros Hp. change (({[ 9%nat := <[3%nat := Some 1%nat]> (replicate 256 None) ]} : gmap nat (list (option nat))) !! p = Some fdt) in Hp.
  by apply lookup_singleton_Some in Hp as [<- <-].
Qed.

Lemma demo_slot (k i : nat) : <[3%nat := Some 1%nat]> (replicate 256 None) !! k = Some (Some i) -> k = 3%nat /\ i = 1%nat.
Proof.
  intros Hk. apply list_lookup_insert_Some in Hk as [(<- & [= <-] & _)|[_ Hk]]; [done|]. apply lookup_replicate in Hk as [? _]. done.
Qed.

Lemma demo_vfs_inv : vfs_inv (fun _ => True) demo_handle demo_vfs.
Proof.
  constructor.
  - reflexivity.
  - done.
  - done.
  - intros [|[|j]] be Hj _; simplify_eq/=; apply demo_be_ok; try done.
    + exists (replicate 254 0). split; [by vm_compute|]. vm_compute. constructor; [by split|constructor].
    + exists (replicate 250 0). split; [by vm_compute|]. vm_compute. repeat (constructor; [by split|]). constructor.
  - intros i n Hi Hn. destruct (demo_live_node i n Hi Hn) as [-> ->]. constructor; [done|lia|]. simpl.
    exists (demo_be "/" 1), 0%nat. split_and!; [done|done|done|]. unfold demo_handle. lia.
  - intros i j n m x Hi Hj Hn Hm _ _. destruct (demo_live_node i n Hi Hn) as [-> _]. by destruct (demo_live_node j m Hj Hm) as [-> _].
  - intros p fdt Hp. destruct (demo_fd p fdt Hp) as [_ ->]. by rewrite length_insert, length_replicate.
  - intros p fdt k i Hp Hk. destruct (demo_fd p fdt Hp) as [-> ->]. destruct (demo_slot k i Hk) as [_ ->].
    eexists. split_and!; [reflexivity|done|done|done].
  - intros p fdt k q fdt' k' i Hp Hq Hk Hk'. destruct (demo_fd p fdt Hp) as [-> ->]. destruct (demo_fd q fdt' Hq) as [-> ->].
    destruct (demo_slot k i Hk) as [-> _]. by destruct (demo_slot k' i Hk') as [-> _].
Qed.

Definition demo_open_path : list Z := c_str "/boot/../etc/rc" ++ [0].

Lemma demo_open_string : cstring demo_open_path (c_str "/boot/../etc/rc").
Proof. exists []. split; [done|]. vm_compute. repeat (constructor; [by split|]). constructor. Qed.

(** ** Properties *)

(** [find_backend] returns the mounted backend with the longest mount point that
    covers the path, a whole-component prefix, and the path relative to it; it
    returns none only when no mount point covers the path. *)
Theorem find_backend_ok {W B} (I : W -> Prop) (H : W -> option nat -> B -> Prop) st path str :
  vfs_inv I H st -> cstring path str ->
  exists r, find_backend st path = Some r /\
    match r with
    | None => forall k be, ~ candidate (vs_backends st) str k be
    | Some (k, rel) => exists be, serves st str k be /\ cstring rel (relative (mount_of be) str)
    end.
Proof.
  intros Hinv Hp. destruct (find_mount_ok I H st path str Hinv Hp) as (r & Heq & Hr). exists r. split; [done|].
  destruct r as [[k rel]|]; [|done]. destruct Hr as (be & Hc & Hrel & Hmax). by exists be.
Qed.

Lemma find_backend_ok_witness :
  exists r, find_backend demo_vfs demo_open_path = Some r /\
    match r with
    | None => forall k be, ~ candidate (vs_backends demo_vfs) (c_str "/boot/../etc/rc") k be
    | Some (k, rel) => exists be, serves demo_vfs (c_str "/boot/../etc/rc") k be /\ cstring rel (relative (mount_of be) (c_str "/boot/../etc/rc"))
    end.
Proof. apply (find_backend_ok (fun _ => True) demo_handle demo_vfs demo_open_path); [apply demo_vfs_inv|apply demo_open_string]. Defined.

(** C14: [vfs_open] always returns. On success the path was canonical or could be made
    so, a node that was free holds it with one reference and a handle of the backend
    with the longest mount point, and the caller gets a descriptor that was free. On
    every error, full tables included, the handle is closed again and no node or
    descriptor is left behind. The invariant of the tables holds in both cases. *)
Theorem vfs_open_ok {W B} (I : W -> Prop) (H : W -> option nat -> B -> Prop) st path str flags caller :
  vfs_inv I H st -> cstring path str -> (forall p, caller = Some p -> is_Some (vs_fds st !! p)) ->
  exists fd st', vfs_open st (Some path) flags caller = Some (fd, st') /\ vfs_inv I H st' /\
    ((exists s, canon_path str = Some s /\ opened st st' s caller fd) \/
     (fd ∈ [u32 VFS_EINVAL; u32 VFS_ENOENT; u32 VFS_EMFILE] /\ untouched st st')).
Proof. apply open_ok. Qed.

Lemma vfs_open_ok_witness :
  exists fd st', vfs_open demo_vfs (Some demo_open_path) 0 (Some 9%nat) = Some (fd, st') /\ vfs_inv (fun _ => True) demo_handle st' /\
    ((exists s, canon_path (c_str "/boot/../etc/rc") = Some s /\ opened demo_vfs st' s (Some 9%nat) fd) \/
     (fd ∈ [u32 VFS_EINVAL; u32 VFS_ENOENT; u32 VFS_EMFILE] /\ untouched demo_vfs st')).
Proof.
  apply (vfs_open_ok (fun _ => True) demo_handle demo_vfs demo_open_path (c_str "/boot/../etc/rc") 0 (Some 9%nat)).
  - apply demo_vfs_inv.
  - apply demo_open_string.
  - intros p Hp. injection Hp as <-. eexists. apply lookup_singleton_eq.
Defined.

(** [vfs_close] of a descriptor of the running process empties its slot, closes
    the handle and frees the node, and touches no other node or descriptor; a
    descriptor that is not open is [VFS_EINVAL] and changes nothing. *)
Theorem vfs_close_ok {W B} (I : W -> Prop) (H : W -> option nat -> B -> Prop) st p fdt fd :
  vfs_inv I H st -> vs_current st = Some p -> vs_fds st !! p = Some fdt -> 0 < fd < MAX_FDS ->
  exists r st', vfs_close st fd = Some (r, st') /\ vfs_inv I H st' /\
    match fdt !! Z.to_nat fd with
    | Some (Some i) => r = 0 /\ vs_fds st' = <[p := <[Z.to_nat fd := None]> fdt]> (vs_fds st) /\
        (exists n, vs_nodes st' !! i = Some n /\ vn_node_id n = 0) /\
        forall j, j <> i -> vs_nodes st' !! j = vs_nodes st !! j
    | _ => r = VFS_EINVAL /\ st' = st
    end.
Proof. apply close_ok. Qed.

Definition demo_fdt : list (option nat) := <[3%nat := Some 1%nat]> (replicate 256 None).

Lemma vfs_close_ok_witness :
  exists r st', vfs_close demo_vfs 3 = Some (r, st') /\ vfs_inv (fun _ => True) demo_handle st' /\
    match demo_fdt !! Z.to_nat 3 with
    | Some (Some i) => r = 0 /\ vs_fds st' = <[9%nat := <[Z.to_nat 3 := None]> demo_fdt]> (vs_fds demo_vfs) /\
        (exists n, vs_nodes st' !! i = Some n /\ vn_node_id n = 0) /\
        forall j, j <> i -> vs_nodes st' !! j = vs_nodes demo_vfs !! j
    | _ => r = VFS_EINVAL /\ st' = demo_vfs
    end.
Proof.
  apply (vfs_close_ok (fun _ => True) demo_handle demo_vfs 9 demo_fdt 3).
  - apply demo_vfs_inv.
  - reflexivity.
  - apply lookup_singleton_eq.
  - unfold MAX_FDS. lia.
Defined.
