(* ===== verification/Ramfs.v ===== *)
(** * The memory file system (src/kernel/vfs/ramfs.c)

    Three file systems of 256 entries each, the static entry [s_root] and the open
    files.  An entry owns its data buffer; an open file refers to its entry by index.
    [kmalloc] is a parameter: the address and the contents of the memory it returns.
    The locks are taken and released on every path and are not modelled. *)

From Stdlib Require Import ZArith Lia.
From stdpp Require Import base strings gmap list.
From S2P Require Import Prelude KString VfsPath Vfs.

Local Open Scope Z_scope.

Definition RAMFS_NAME_LEN : nat := 256.
Definition RAMFS_MAX_FILES : nat := 256.
Definition RAMFS_FILE_SIZE : Z := 24.

Record ramfs_entry_t := mk_entry {
  re_path : list Z;
  re_data : option (list Z);
  re_size : Z;
  re_kind : Z;
  re_valid : bool;
}.

(** [f->entry]: an entry of the file system, or the static root entry. *)
Inductive entry_ref := EntryAt (i : nat) | SRoot.

Record ramfs_file_t := mk_file { rf_fs : nat; rf_entry : entry_ref; rf_offset : Z }.

(** [rw_fs] is [g_boot_fs], [g_vfs_root_fs] and [g_root_fs]. *)
Record ramfs_w := mk_ramfs {
  rw_fs : list (list ramfs_entry_t);
  rw_sroot : ramfs_entry_t;
  rw_files : gmap Z ramfs_file_t;
}.

Definition BOOT_FS : nat := 0.
Definition VFS_ROOT_FS : nat := 1.
Definition ROOT_FS : nat := 2.

Definition set_fs (w : ramfs_w) (k : nat) (es : list ramfs_entry_t) : ramfs_w :=
  mk_ramfs (<[k := es]> (rw_fs w)) (rw_sroot w) (rw_files w).
Definition set_files (w : ramfs_w) (fs : gmap Z ramfs_file_t) : ramfs_w := mk_ramfs (rw_fs w) (rw_sroot w) fs.

Definition get_entry (w : ramfs_w) (k : nat) (r : entry_ref) : option ramfs_entry_t :=
  match r with
  | EntryAt i => es ← rw_fs w !! k; es !! i
  | SRoot => Some (rw_sroot w)
  end.

Definition set_entry (w : ramfs_w) (k : nat) (r : entry_ref) (e : ramfs_entry_t) : option ramfs_w :=
  match r with
  | EntryAt i => es ← rw_fs w !! k; Some (set_fs w k (<[i := e]> es))
  | SRoot => Some (mk_ramfs (rw_fs w) e (rw_files w))
  end.

Definition zero_entry : ramfs_entry_t := mk_entry (replicate RAMFS_NAME_LEN 0) None 0 0 false.
Definition zero_fs : list ramfs_entry_t := replicate RAMFS_MAX_FILES zero_entry.

Fixpoint ramfs_find_from (es : list ramfs_entry_t) (i : nat) (path : list Z) : option (option nat) :=
  match es with
  | [] => Some None
  | e :: rest =>
      if re_valid e then c ← strcmp (re_path e) path; if c =? 0 then Some (Some i) else ramfs_find_from rest (S i) path
      else ramfs_find_from rest (S i) path
  end.

Definition ramfs_find (es : list ramfs_entry_t) (path : list Z) : option (option nat) := ramfs_find_from es 0 path.

(** The first entry that is not in use. *)
Definition free_entry (es : list ramfs_entry_t) : option nat := find_idx (fun e => negb (re_valid e)) es.

Section ramfs.
Context (kmalloc : ramfs_w -> Z -> option (Z * list Z)).

(** A buffer of [size] bytes with a copy of [data], when there is data. *)
Definition fill_buffer (buf data : option (list Z)) (size : Z) : option (option (list Z)) :=
  match buf, data with
  | Some b, Some d => if 0 <? size then Some <$> memcpy_obj b 0 d (Z.to_nat size) else Some (Some b)
  | None, Some _ => if 0 <? size then None else Some None
  | b, None => Some b
  end.

Definition ramfs_add_file (w : ramfs_w) (k : nat) (path : list Z) (data : option (list Z)) (size : Z) : option (Z * ramfs_w) :=
  es ← rw_fs w !! k;
  match free_entry es with
  | None => Some (-1, w)
  | Some i =>
      e ← es !! i;
      path' ← strncpy (re_path e) path RAMFS_NAME_LEN;
      let buf := option_map snd (kmalloc w size) in
      match buf, 0 <? size with
      | None, true =>
          w ← set_entry w k (EntryAt i) (mk_entry path' None (re_size e) (re_kind e) (re_valid e)); Some (-1, w)
      | _, _ =>
          buf ← fill_buffer buf data size;
          w ← set_entry w k (EntryAt i) (mk_entry path' buf size VFS_NODE_FILE true); Some (0, w)
      end
  end.

Definition ramfs_add_dir (w : ramfs_w) (k : nat) (path : list Z) : option (Z * ramfs_w) :=
  es ← rw_fs w !! k;
  match free_entry es with
  | None => Some (-1, w)
  | Some i =>
      e ← es !! i;
      path' ← strncpy (re_path e) path RAMFS_NAME_LEN;
      w ← set_entry w k (EntryAt i) (mk_entry path' None 0 VFS_NODE_DIR true); Some (0, w)
  end.

(** The entry [ramfs_open] works on: found, the static root directory, or created. *)
Definition open_entry (w : ramfs_w) (k : nat) (path : list Z) (flags : Z) : option (option entry_ref * ramfs_w) :=
  es ← rw_fs w !! k;
  found ← ramfs_find es path;
  c0 ← path !! 0%nat;
  c1 ← (if c0 =? SLASH then path !! 1%nat else Some 1);
  match found with
  | Some i => Some (Some (EntryAt i), w)
  | None =>
      if negb (Z.land flags VFS_O_DIR =? 0) && (c0 =? SLASH) && (c1 =? 0) then Some (Some SRoot, w)
      else if negb (Z.land flags VFS_O_CREAT =? 0) then
        match free_entry es with
        | None => Some (None, w)
        | Some i =>
            e ← es !! i;
            path' ← strncpy (re_path e) path RAMFS_NAME_LEN;
            w ← set_entry w k (EntryAt i) (mk_entry path' None 0 VFS_NODE_FILE true);
            Some (Some (EntryAt i), w)
        end
      else Some (None, w)
  end.

Definition ramfs_open (w : ramfs_w) (ctx : option nat) (path : list Z) (flags : Z) : option (option Z * ramfs_w) :=
  match ctx with
  | None => Some (None, w)
  | Some k =>
      '(r, w) ← open_entry w k path flags;
      match r with
      | None => Some (None, w)
      | Some r =>
          e ← get_entry w k r;
          if (re_kind e =? VFS_NODE_DIR) && (Z.land flags VFS_O_DIR =? 0) then Some (None, w)
          else
            let truncate := negb (Z.land flags VFS_O_TRUNC =? 0) && (re_kind e =? VFS_NODE_FILE) && bool_decide (is_Some (re_data e)) in
            w ← (if truncate then set_entry w k r (mk_entry (re_path e) None 0 (re_kind e) (re_valid e)) else Some w);
            match kmalloc w RAMFS_FILE_SIZE with
            | None => Some (None, w)
            | Some (f, _) => Some (Some f, set_files w (<[f := mk_file k r 0]> (rw_files w)))
            end
      end
  end.

Definition ramfs_close (w : ramfs_w) (_ : option nat) (f : Z) : option ramfs_w :=
  match rw_files w !! f with
  | None => None
  | Some _ => Some (set_files w (delete f (rw_files w)))
  end.

Definition set_offset (w : ramfs_w) (x : Z) (f : ramfs_file_t) (off : Z) : ramfs_w :=
  set_files w (<[x := mk_file (rf_fs f) (rf_entry f) off]> (rw_files w)).

(** [got] as in [vfs_read]. *)
Definition ramfs_read (w : ramfs_w) (_ : option nat) (x : Z) (buf : list Z) (n : Z) (got : option Z)
    : option (Z * list Z * option Z * ramfs_w) :=
  f ← rw_files w !! x;
  e ← get_entry w (rf_fs f) (rf_entry f);
  if re_size e <=? rf_offset f then Some (0, buf, option_map (fun _ => 0) got, w)
  else
    let avail := re_size e - rf_offset f in
    let to_read := if n <? avail then n else avail in
    data ← re_data e;
    buf ← memcpy_obj buf 0 (drop (Z.to_nat (rf_offset f)) data) (Z.to_nat to_read);
    Some (0, buf, option_map (fun _ => to_read) got, set_offset w x f (u64 (rf_offset f + to_read))).

(** The larger buffer of a file: the old bytes, and what the memory held behind them. *)
Definition grow (w : ramfs_w) (e : ramfs_entry_t) (new_end : Z) : option (option ramfs_entry_t) :=
  match kmalloc w new_end with
  | None => Some None
  | Some (_, nb) =>
      nb ← (match re_data e with
            | Some d => if 0 <? re_size e then memcpy_obj nb 0 d (Z.to_nat (re_size e)) else Some nb
            | None => Some nb
            end);
      Some (Some (mk_entry (re_path e) (Some nb) new_end (re_kind e) (re_valid e)))
  end.

Definition ramfs_write (w : ramfs_w) (_ : option nat) (x : Z) (buf : list Z) (n : Z) : option (Z * ramfs_w) :=
  f ← rw_files w !! x;
  e ← get_entry w (rf_fs f) (rf_entry f);
  let new_end := u64 (rf_offset f + n) in
  if (0 <? n) && (new_end <? rf_offset f) then Some (VFS_ENOSPC, w)
  else
    grown ← (if re_size e <? new_end then grow w e new_end else Some (Some e));
    match grown with
    | None => Some (VFS_ENOSPC, w)
    | Some e =>
        data ← (match re_data e with
                | Some d => Some <$> memcpy_obj d (Z.to_nat (rf_offset f)) buf (Z.to_nat n)
                | None => if n =? 0 then Some None else None
                end);
        w ← set_entry w (rf_fs f) (rf_entry f) (mk_entry (re_path e) data (re_size e) (re_kind e) (re_valid e));
        Some (0, set_offset w x f new_end)
    end.

Definition ramfs_seek (w : ramfs_w) (_ : option nat) (x : Z) (off whence : Z) : option (Z * ramfs_w) :=
  f ← rw_files w !! x;
  e ← get_entry w (rf_fs f) (rf_entry f);
  target ← (if whence =? VFS_SEEK_SET then Some (Some off)
            else if whence =? VFS_SEEK_CUR then Some <$> add_i64 (i64 (rf_offset f)) off
            else if whence =? VFS_SEEK_END then Some <$> add_i64 (i64 (re_size e)) off
            else Some None);
  match target with
  | None => Some (VFS_EINVAL, w)
  | Some new_off =>
      if (new_off <? 0) || (re_size e <? u64 new_off) then Some (VFS_EINVAL, w)
      else Some (new_off, set_offset w x f (u64 new_off))
  end.

(** The name of an entry relative to the directory [dir]; [Some None] when the entry
    is not below it. *)
Definition rel_name (path dir : list Z) (dlen : nat) : option (option (list Z)) :=
  d0 ← dir !! 0%nat;
  if (dlen =? 1)%nat && (d0 =? SLASH) then
    c0 ← path !! 0%nat;
    if negb (c0 =? SLASH) then Some None
    else c1 ← path !! 1%nat; Some (if c1 =? 0 then None else Some (drop 1 path))
  else
    r ← strncmp path dir dlen;
    if negb (r =? 0) then Some None
    else c ← path !! dlen; Some (if c =? SLASH then Some (drop (dlen + 1) path) else None).

(** Is the subdirectory, the first [sub_len] bytes of [name], among the entries? *)
Fixpoint has_subdir (ds : list vfs_dirent_t) (name : list Z) (sub_len : nat) : option bool :=
  match ds with
  | [] => Some false
  | d :: rest =>
      r ← strncmp (de_name d) name sub_len;
      if negb (r =? 0) then has_subdir rest name sub_len
      else
        c ← de_name d !! sub_len;
        if (c =? 0) && (de_kind d =? VFS_NODE_DIR) then Some true else has_subdir rest name sub_len
  end.

(** [strncpy] of [n] bytes of [name] into entry [count], with its kind and size. *)
Definition put_dirent (buf : list vfs_dirent_t) (count : Z) (name : list Z) (n : nat) (kind size : Z)
    : option (list vfs_dirent_t) :=
  d ← buf !! Z.to_nat count;
  nm ← strncpy (de_name d) name n;
  Some (<[Z.to_nat count := mk_dirent nm kind size]> buf).

Fixpoint dir_loop (es : list ramfs_entry_t) (i : nat) (self : entry_ref) (dir : list Z) (dlen : nat)
    (buf : list vfs_dirent_t) (cap count : Z) : option (list vfs_dirent_t * Z) :=
  match es with
  | [] => Some (buf, count)
  | e :: rest =>
      let skip := dir_loop rest (S i) self dir dlen buf cap count in
      if cap <=? count then Some (buf, count)
      else if negb (re_valid e) then skip
      else if match self with EntryAt j => (i =? j)%nat | SRoot => false end then skip
      else
        name ← rel_name (re_path e) dir dlen;
        match name with
        | None => skip
        | Some name =>
            slash ← strrchr name SLASH;
            match slash with
            | Some sub_len =>
                found ← has_subdir (take (Z.to_nat count) buf) name sub_len;
                if found : bool then skip
                else
                  buf ← put_dirent buf count name (sub_len + 1) VFS_NODE_DIR 0;
                  dir_loop rest (S i) self dir dlen buf cap (count + 1)
            | None =>
                buf ← put_dirent buf count name VFS_DIRENT_NAME_LEN (re_kind e) (i64 (re_size e));
                dir_loop rest (S i) self dir dlen buf cap (count + 1)
            end
        end
  end.

Definition ramfs_readdir (w : ramfs_w) (_ : option nat) (x : Z) (buf : list vfs_dirent_t) (cap _ : Z)
    : option (Z * list vfs_dirent_t * Z * ramfs_w) :=
  f ← rw_files w !! x;
  es ← rw_fs w !! rf_fs f;
  e ← get_entry w (rf_fs f) (rf_entry f);
  dlen ← strlen (re_path e);
  '(buf, count) ← dir_loop es 0 (rf_entry f) (re_path e) dlen buf cap 0;
  Some (0, buf, count, w).

Definition base_name_from_path (path out : list Z) (out_sz : nat) : option (list Z) :=
  sep ← strrchr path SLASH;
  strncpy out (match sep with Some i => drop (S i) path | None => path end) out_sz.

Definition ramfs_stat (w : ramfs_w) (ctx : option nat) (path : list Z) (out : stat_info_t)
    : option (Z * stat_info_t * ramfs_w) :=
  match ctx with
  | None => Some (VFS_ENODEV, out, w)
  | Some k =>
      es ← rw_fs w !! k;
      found ← ramfs_find es path;
      match found with
      | None => Some (VFS_ENOENT, out, w)
      | Some i =>
          e ← es !! i;
          name ← base_name_from_path (re_path e) (st_name out) VFS_PATH_MAX;
          Some (0, mk_stat (i64 (re_size e)) (re_kind e) 0 name (st_uid out) (st_gid out) (st_mode out), w)
      end
  end.

Definition ramfs_unlink (w : ramfs_w) (_ : option nat) (_ : list Z) : option (Z * ramfs_w) := Some (VFS_EPERM, w).

Definition ramfs_mkdir (w : ramfs_w) (ctx : option nat) (path : list Z) : option (Z * ramfs_w) :=
  match ctx with
  | None => Some (VFS_ENODEV, w)
  | Some k => '(r, w) ← ramfs_add_dir w k path; Some (if r =? 0 then 0 else VFS_ENOSPC, w)
  end.

Definition ramfs_ops : vfs_ops_t ramfs_w Z :=
  mk_ops (Some ramfs_open) (Some ramfs_close) (Some ramfs_read) (Some ramfs_write) (Some ramfs_seek)
    (Some ramfs_readdir) (Some ramfs_stat) (Some ramfs_unlink) (Some ramfs_mkdir).

(** The file system of [name] is cleared and mounted. *)
Definition mount_fs (st : vfs_st ramfs_w Z) (k : nat) (name : list Z) : option (Z * vfs_st ramfs_w Z) :=
  vfs_mount st (Some name) ramfs_ops (Some k).

Definition ramfs_boot_init (st : vfs_st ramfs_w Z) : option (Z * vfs_st ramfs_w Z) :=
  mount_fs (set_world st (set_fs (vs_world st) BOOT_FS zero_fs)) BOOT_FS (c_str "/boot" ++ [0]).

(** [initrd] is [None] for a null pointer. *)
Definition ramfs_root_init (st : vfs_st ramfs_w Z) (initrd : option (list Z)) (initrd_sz : Z) : option (Z * vfs_st ramfs_w Z) :=
  let w := set_fs (vs_world st) ROOT_FS zero_fs in
  w ← (match initrd with
       | Some data =>
           if 0 <? initrd_sz then
             '(_, w) ← ramfs_add_file w ROOT_FS (c_str "/initrd" ++ [0]) (Some data) initrd_sz; Some w
           else Some w
       | None => Some w
       end);
  mount_fs (set_world st w) ROOT_FS (c_str "/root" ++ [0]).

Definition ramfs_mount_root (st : vfs_st ramfs_w Z) : option (Z * vfs_st ramfs_w Z) :=
  mount_fs (set_world st (set_fs (vs_world st) VFS_ROOT_FS zero_fs)) VFS_ROOT_FS (c_str "/" ++ [0]).

Definition ramfs_root_mkdir (w : ramfs_w) (path : list Z) : option (Z * ramfs_w) :=
  es ← rw_fs w !! VFS_ROOT_FS;
  found ← ramfs_find es path;
  match found with
  | Some _ => Some (0, w)
  | None => ramfs_add_dir w VFS_ROOT_FS path
  end.

Definition ramfs_root_writefile (w : ramfs_w) (path : list Z) (data : option (list Z)) (size : Z) : option (Z * ramfs_w) :=
  es ← rw_fs w !! VFS_ROOT_FS;
  found ← ramfs_find es path;
  match found with
  | Some i =>
      e ← es !! i;
      let nb := if 0 <? size then option_map snd (kmalloc w size) else None in
      match nb, 0 <? size with
      | None, true => Some (-1, w)
      | _, _ =>
          buf ← fill_buffer nb data size;
          w ← set_entry w VFS_ROOT_FS (EntryAt i) (mk_entry (re_path e) buf size (re_kind e) (re_valid e));
          Some (0, w)
      end
  | None => ramfs_add_file w VFS_ROOT_FS path data size
  end.

End ramfs.
