(* ===== verification/RamfsSpec.v ===== *)
(** * Specification of the memory file system

    The invariant of [Ramfs], the contents of a file as a byte string, the instance of
    the [Backend] interface and the round trip through the descriptors of [Vfs]. *)

From Stdlib Require Import ZArith Lia.
From stdpp Require Import base strings gmap list.
From S2P Require Import Prelude KString Ringbuf Port VfsPath Vfs VfsSpec Ramfs.

Local Open Scope Z_scope.

(** The memory [kmalloc] returns is not an open file and is large enough. *)
Class Kmalloc (kmalloc : ramfs_w -> Z -> option (Z * list Z)) : Prop := {
  km_fresh : forall w n a b, kmalloc w n = Some (a, b) -> rw_files w !! a = None;
  km_size : forall w n a b, kmalloc w n = Some (a, b) -> (Z.to_nat n <= length b)%nat;
}.

#[export] Instance entry_ref_eq_dec : EqDecision entry_ref.
Proof. solve_decision. Defined.

Definition name_of (e : ramfs_entry_t) : list Z := until0 (re_path e).

(** The contents of a file. *)
Definition file_data (e : ramfs_entry_t) : list Z := take (Z.to_nat (re_size e)) (default [] (re_data e)).

Record rentry_ok (e : ramfs_entry_t) : Prop := {
  eo_path : length (re_path e) = RAMFS_NAME_LEN;
  eo_name : re_valid e = true -> cstring (re_path e) (name_of e);
  eo_size : 0 <= re_size e < 2 ^ 64;
  eo_data : re_valid e = true -> 0 < re_size e -> exists d, re_data e = Some d /\ (Z.to_nat (re_size e) <= length d)%nat;
}.

Definition ref_ok (w : ramfs_w) (k : nat) (r : entry_ref) : Prop :=
  exists e, get_entry w k r = Some e /\ re_valid e = true.

Record ramfs_inv (w : ramfs_w) : Prop := {
  ri_count : length (rw_fs w) = 3%nat;
  ri_len : forall k es, rw_fs w !! k = Some es -> length es = RAMFS_MAX_FILES;
  ri_entry : forall k es i e, rw_fs w !! k = Some es -> es !! i = Some e -> rentry_ok e;
  ri_sroot : rentry_ok (rw_sroot w) /\ re_valid (rw_sroot w) = true;
  ri_file : forall x f, rw_files w !! x = Some f ->
    (rf_fs f < 3)%nat /\ ref_ok w (rf_fs f) (rf_entry f) /\ 0 <= rf_offset f < 2 ^ 64;
}.

Definition handle (w : ramfs_w) (_ : option nat) (x : Z) : Prop := is_Some (rw_files w !! x).

(** ** Entries *)

Lemma get_entry_ok w k r e : ramfs_inv w -> get_entry w k r = Some e -> rentry_ok e.
Proof.
  intros Hinv He. destruct r as [i|]; simpl in He; [|simplify_eq; apply Hinv].
  destruct (rw_fs w !! k) as [es|] eqn:Hk; [|done]. by eapply (ri_entry _ Hinv).
Qed.

Lemma set_entry_ok w k r e : is_Some (get_entry w k r) -> exists w', set_entry w k r e = Some w' /\ rw_files w' = rw_files w /\
  get_entry w' k r = Some e /\ forall k' r', (k', r') <> (k, r) -> r' <> r \/ r <> SRoot -> get_entry w' k' r' = get_entry w k' r'.
Proof.
  intros [e0 He0]. destruct r as [i|]; simpl in *.
  - destruct (rw_fs w !! k) as [es|] eqn:Hk; [|done]. simpl in He0. cbn [mbind option_bind]. eexists. split; [done|].
    pose proof (lookup_lt_Some _ _ _ Hk). pose proof (lookup_lt_Some _ _ _ He0).
    split; [done|]. simpl. rewrite list_lookup_insert_eq by done. cbn [mbind option_bind]. rewrite list_lookup_insert_eq by done.
    split; [done|]. intros k' [j|] Hne _; [|done]. simpl. destruct (decide (k' = k)) as [->|Hk'].
    + rewrite list_lookup_insert_eq, Hk by done. cbn [mbind option_bind]. apply list_lookup_insert_ne. congruence.
    + by rewrite list_lookup_insert_ne.
  - eexists. split; [done|]. simpl. split_and!; [done|done|]. intros k' [j|] _ [Hne|Hne]; done.
Qed.

(** Replacing an entry by one that stays in use keeps the invariant. *)
Lemma set_entry_inv w k r e0 e :
  ramfs_inv w -> get_entry w k r = Some e0 -> rentry_ok e -> re_valid e = true ->
  exists w', set_entry w k r e = Some w' /\ ramfs_inv w' /\ rw_files w' = rw_files w /\ get_entry w' k r = Some e /\
    forall k' i, (k', EntryAt i) <> (k, r) -> get_entry w' k' (EntryAt i) = get_entry w k' (EntryAt i).
Proof.
  intros Hinv He0 He Hv. destruct (set_entry_ok w k r e) as (w' & Hset & Hf & Hget & Hother); [by eexists|].
  exists w'. split_and!; [done| |done|done|].
  2: { intros k' i Hne. apply Hother; [done|]. destruct r as [j|]; [by right|by left]. }
  assert (Href : forall k' r', ref_ok w k' r' -> ref_ok w' k' r').
  { intros k' r' (e1 & H1 & Hv1). destruct (decide (r = SRoot /\ r' = SRoot)) as [[-> ->]|Hr].
    { exists e. split; [|done]. simpl in *. congruence. }
    destruct (decide (k' = k /\ r' = r)) as [[-> ->]|Hkr]; [by exists e|]. exists e1. split; [|done]. rewrite <- H1. apply Hother.
    - intros [= -> ->]. by apply Hkr.
    - destruct r, r'; auto; naive_solver. }
  assert (Hfiles : forall x f, rw_files w' !! x = Some f -> (rf_fs f < 3)%nat /\ ref_ok w' (rf_fs f) (rf_entry f) /\ 0 <= rf_offset f < 2 ^ 64).
  { intros x f Hx. rewrite Hf in Hx. destruct (ri_file _ Hinv x f Hx) as (? & ? & ?). split_and!; auto; lia. }
  destruct Hinv as [Hc Hl Hent Hs _]. destruct r as [i|]; simpl in Hset, He0.
  - destruct (rw_fs w !! k) as [es|] eqn:Hk; [|done]. simpl in *. simplify_eq. constructor; try done.
    + simpl. by rewrite length_insert.
    + intros k' es' Hk'. simpl in Hk'. apply list_lookup_insert_Some in Hk' as [(<- & <- & _)|[_ Hk']]; [rewrite length_insert|]; by eapply Hl.
    + intros k' es' j e' Hk' Hj. simpl in Hk'. apply list_lookup_insert_Some in Hk' as [(<- & <- & _)|[_ Hk']]; [|by eapply Hent].
      apply list_lookup_insert_Some in Hj as [(<- & <- & _)|[_ Hj]]; [done|by eapply Hent].
  - simplify_eq. by constructor.
Qed.

Lemma find_from_ok es i path str :
  (forall j e, es !! j = Some e -> rentry_ok e) -> cstring path str ->
  exists r, ramfs_find_from es i path = Some r /\
    match r with
    | Some j => exists k e, j = (i + k)%nat /\ es !! k = Some e /\ re_valid e = true /\ name_of e = str
    | None => forall k e, es !! k = Some e -> re_valid e = true -> name_of e <> str
    end.
Proof.
  intros Hes Hp. revert i. induction es as [|e es IH]; intros i; cbn [ramfs_find_from]; [by exists None|].
  destruct (IH (fun j => Hes (S j)) (S i)) as (r & Hr & Hs).
  assert (Hskip : (re_valid e = true -> name_of e <> str) ->
    match r with
    | Some j => exists k e', j = (i + k)%nat /\ (e :: es) !! k = Some e' /\ re_valid e' = true /\ name_of e' = str
    | None => forall k e', (e :: es) !! k = Some e' -> re_valid e' = true -> name_of e' <> str
    end).
  { intros Hne. destruct r as [j|]; [|intros [|k] e' Hk Hv; simplify_eq/=; [by apply Hne|by eapply Hs]].
    destruct Hs as (k & e' & -> & Hk & Hv & Hn). exists (S k), e'. split_and!; [lia|done|done|done]. }
  destruct (re_valid e) eqn:Hv; [|exists r; split; [done|]; by apply Hskip].
  pose proof (eo_name _ (Hes 0%nat e eq_refl) Hv) as Hn. destruct (strcmp_cstring _ _ _ _ Hn Hp) as (c & -> & Hiff). cbn [mbind option_bind].
  destruct (Z.eqb_spec c 0) as [Hc|Hc].
  - eexists. split; [done|]. exists 0%nat, e. split_and!; [lia|done|done|by apply Hiff].
  - exists r. split; [done|]. apply Hskip. intros _ Heq. by apply Hc, Hiff.
Qed.

Lemma free_entry_ok es : match free_entry es with
  | Some i => exists e, es !! i = Some e /\ re_valid e = false
  | None => forall i e, es !! i = Some e -> re_valid e = true
  end.
Proof.
  unfold free_entry. destruct (find_idx _ es) as [i|] eqn:Hf.
  - apply find_idx_Some in Hf as (e & He & Hv & _). exists e. split; [done|]. by destruct (re_valid e).
  - rewrite find_idx_None in Hf. intros i e He. specialize (Hf i e He). by destruct (re_valid e).
Qed.

(** A new entry of the path in a free slot. *)
Lemma new_path_ok e path str :
  length (re_path e) = RAMFS_NAME_LEN -> cstring path str -> (length str < RAMFS_NAME_LEN)%nat ->
  exists p, strncpy (re_path e) path RAMFS_NAME_LEN = Some p /\ length p = RAMFS_NAME_LEN /\ cstring p str.
Proof.
  intros Hlen Hp Hl. unfold strncpy. pose proof Hp as (_ & _ & Hall). rewrite (strncpy_from_spec _ _ str) by (try done; lia).
  rewrite take_ge by lia. rewrite inserts_prefix by (rewrite length_app, length_replicate; lia).
  rewrite drop_ge, app_nil_r by (rewrite length_app, length_replicate; lia).
  eexists. split; [done|]. rewrite length_app, length_replicate. split; [lia|].
  replace (RAMFS_NAME_LEN - length str)%nat with (S (RAMFS_NAME_LEN - 1 - length str)) by lia. by eexists.
Qed.

Lemma set_files_inv w fs :
  ramfs_inv w ->
  (forall x f, fs !! x = Some f -> (rf_fs f < 3)%nat /\ ref_ok w (rf_fs f) (rf_entry f) /\ 0 <= rf_offset f < 2 ^ 64) ->
  ramfs_inv (set_files w fs).
Proof. intros [? ? ? ? _] Hfs. by constructor. Qed.

Lemma set_offset_inv w x f off :
  ramfs_inv w -> rw_files w !! x = Some f -> 0 <= off < 2 ^ 64 -> ramfs_inv (set_offset w x f off).
Proof.
  intros Hinv Hx Hoff. apply set_files_inv; [done|]. intros y g Hy. rewrite lookup_insert_Some in Hy.
  destruct Hy as [[<- <-]|[_ Hy]]; [|by apply (ri_file _ Hinv y)]. destruct (ri_file _ Hinv x f Hx) as (? & ? & _). done.
Qed.

(** ** Opening *)

Lemma fs_lookup w k : ramfs_inv w -> (k < 3)%nat -> exists es, rw_fs w !! k = Some es /\ length es = RAMFS_MAX_FILES.
Proof.
  intros Hinv Hk. destruct (lookup_lt_is_Some_2 (rw_fs w) k) as [es Hes]; [by rewrite (ri_count _ Hinv)|].
  exists es. split; [done|]. by eapply (ri_len _ Hinv).
Qed.

Lemma new_entry_inv w k es i e path str kind :
  ramfs_inv w -> rw_fs w !! k = Some es -> es !! i = Some e -> cstring path str -> (length str < RAMFS_NAME_LEN)%nat ->
  exists p w', strncpy (re_path e) path RAMFS_NAME_LEN = Some p /\
    set_entry w k (EntryAt i) (mk_entry p None 0 kind true) = Some w' /\ ramfs_inv w' /\ rw_files w' = rw_files w /\
    get_entry w' k (EntryAt i) = Some (mk_entry p None 0 kind true).
Proof.
  intros Hinv Hk Hi Hp Hlen. destruct (new_path_ok e path str) as (p & Hcp & Hpl & Hps);
    [by apply (eo_path _ (ri_entry _ Hinv k es i e Hk Hi))|done|done|].
  assert (Hget : get_entry w k (EntryAt i) = Some e) by (simpl; by rewrite Hk).
  destruct (set_entry_inv w k (EntryAt i) e (mk_entry p None 0 kind true) Hinv Hget) as (w' & Hset & Hinv' & Hf & Hg & _).
  { constructor; simpl; [done| |lia|lia]. intros _. unfold name_of. simpl. by rewrite (until0_cstring _ _ Hps). }
  { done. }
  by exists p, w'.
Qed.

Lemma open_entry_ok w k path str flags :
  ramfs_inv w -> (k < 3)%nat -> cstring path str -> (length str < RAMFS_NAME_LEN)%nat ->
  exists r w', open_entry w k path flags = Some (r, w') /\ ramfs_inv w' /\ rw_files w' = rw_files w /\
    forall r0, r = Some r0 -> ref_ok w' k r0.
Proof.
  intros Hinv Hk Hp Hlen. destruct (fs_lookup w k Hinv Hk) as (es & Hes & Hl). unfold open_entry, ramfs_find. rewrite Hes.
  cbn [mbind option_bind].
  destruct (find_from_ok es 0 path str (fun j e => ri_entry _ Hinv k es j e Hes) Hp) as (found & -> & Hfound). cbn [mbind option_bind].
  rewrite (cstring_at _ _ 0 Hp) by lia. cbn [mbind option_bind]. set (c0 := default 0 _).
  assert (Hc1 : exists c1, (if c0 =? SLASH then path !! 1%nat else Some 1) = Some c1).
  { destruct (Z.eqb_spec c0 SLASH) as [Hc|]; [|by eexists]. destruct str as [|s str]; [done|].
    rewrite (cstring_at _ _ 1 Hp) by (simpl; lia). by eexists. }
  destruct Hc1 as [c1 ->]. cbn [mbind option_bind]. destruct found as [i|].
  { do 2 eexists. split_and!; [done|done|done|]. intros r0 [= <-]. destruct Hfound as (j & e & -> & Hj & Hv & _).
    exists e. simpl. rewrite Hes. done. }
  destruct (_ && _ && _).
  { do 2 eexists. split_and!; [done|done|done|]. intros r0 [= <-]. exists (rw_sroot w). split; [done|]. apply Hinv. }
  destruct (negb _); [|by do 2 eexists]. pose proof (free_entry_ok es) as Hfree. destruct (free_entry es) as [i|]; [|by do 2 eexists].
  destruct Hfree as (e & Hi & _). rewrite Hi. cbn [mbind option_bind].
  destruct (new_entry_inv w k es i e path str VFS_NODE_FILE Hinv Hes Hi Hp Hlen) as (p & w' & -> & Hset & Hinv' & Hf & Hget).
  cbn [mbind option_bind]. rewrite Hset. cbn [mbind option_bind]. do 2 eexists. split_and!; [done|done|done|].
  intros r0 [= <-]. by exists (mk_entry p None 0 VFS_NODE_FILE true).
Qed.

Section backend.
Context (kmalloc : ramfs_w -> Z -> option (Z * list Z)) `{!Kmalloc kmalloc}.

Lemma ramfs_open_ok w k path str flags :
  ramfs_inv w -> (k < 3)%nat -> cstring path str -> (length str < RAMFS_NAME_LEN)%nat ->
  exists r w', ramfs_open kmalloc w (Some k) path flags = Some (r, w') /\ ramfs_inv w' /\
    match r with
    | None => rw_files w' = rw_files w
    | Some x => rw_files w !! x = None /\ exists ref, rw_files w' = <[x := mk_file k ref 0]> (rw_files w)
    end.
Proof.
  intros Hinv Hk Hp Hlen. unfold ramfs_open.
  destruct (open_entry_ok w k path str flags Hinv Hk Hp Hlen) as (r & w1 & -> & Hinv1 & Hf1 & Href). cbn [mbind option_bind].
  destruct r as [r|]; [|by do 2 eexists]. destruct (Href r eq_refl) as (e & He & Hv). rewrite He. cbn [mbind option_bind].
  destruct (_ && _); [by do 2 eexists|]. set (tr := _ && _ && _).
  assert (Htr : exists w2, (if tr then set_entry w1 k r (mk_entry (re_path e) None 0 (re_kind e) (re_valid e)) else Some w1) = Some w2 /\
    ramfs_inv w2 /\ rw_files w2 = rw_files w1 /\ ref_ok w2 k r).
  { destruct tr; [|exists w1; split_and!; [done|done|done|by exists e]].
    pose proof (get_entry_ok w1 k r e Hinv1 He) as Heo.
    destruct (set_entry_inv w1 k r e (mk_entry (re_path e) None 0 (re_kind e) (re_valid e)) Hinv1 He) as (w2 & ? & ? & ? & Hg & _).
    - destruct Heo. constructor; simpl; [done|done|lia|lia].
    - done.
    - exists w2. split_and!; [done|done|done|]. by eexists. }
  destruct Htr as (w2 & -> & Hinv2 & Hf2 & Href2). cbn [mbind option_bind].
  destruct (kmalloc w2 RAMFS_FILE_SIZE) as [[x b]|] eqn:Hkm; [|do 2 eexists; split_and!; [done|done|congruence]].
  pose proof (km_fresh _ _ _ _ Hkm) as Hfresh. do 2 eexists. split_and!; [done| |].
  - apply set_files_inv; [done|]. intros y f Hy. rewrite lookup_insert_Some in Hy. destruct Hy as [[<- <-]|[_ Hy]].
    + simpl. split_and!; [done|done|lia|lia].
    + by apply (ri_file _ Hinv2 y).
  - split; [congruence|]. exists r. simpl. congruence.
Qed.

Lemma ramfs_stat_ok w k path str info :
  ramfs_inv w -> (k < 3)%nat -> cstring path str -> length (st_name info) = VFS_PATH_MAX ->
  exists rc info', ramfs_stat w (Some k) path info = Some (rc, info', w).
Proof.
  intros Hinv Hk Hp Hlen. destruct (fs_lookup w k Hinv Hk) as (es & Hes & Hl). unfold ramfs_stat, ramfs_find. rewrite Hes.
  cbn [mbind option_bind].
  destruct (find_from_ok es 0 path str (fun j e => ri_entry _ Hinv k es j e Hes) Hp) as (found & -> & Hfound). cbn [mbind option_bind].
  destruct found as [i|]; [|by do 2 eexists]. destruct Hfound as (j & e & -> & Hj & Hv & Hn). simpl (0 + j)%nat. rewrite Hj.
  cbn [mbind option_bind]. unfold base_name_from_path, strrchr. pose proof (eo_name _ (ri_entry _ Hinv k es j e Hes Hj) Hv) as Hne.
  rewrite (strrchr_from_spec _ _ SLASH 0 None Hne). cbn [mbind option_bind].
  assert (Hname : exists nm, strncpy (st_name info) (match (match find_idx (fun b => i8 b =? i8 SLASH) (reverse (name_of e)) with
      | Some k0 => Some (0 + (length (name_of e) - S k0))%nat | None => None end) with Some i => drop (S i) (re_path e) | None => re_path e end)
      VFS_PATH_MAX = Some nm).
  { unfold strncpy. destruct (find_idx _ _) as [q|] eqn:Hq.
    - apply find_idx_lt in Hq. rewrite length_reverse in Hq. eexists.
      apply (strncpy_from_spec _ _ (drop (S (0 + (length (name_of e) - S q))) (name_of e))); [|lia]. apply cstring_drop; [done|lia].
    - eexists. apply (strncpy_from_spec _ _ (name_of e)); [done|lia]. }
  destruct Hname as [nm ->]. by do 2 eexists.
Qed.

#[export] Instance ramfs_backend k : (k < 3)%nat -> Backend ramfs_inv handle (ramfs_ops kmalloc) (Some k).
Proof.
  intros Hk. constructor; simpl.
  - intros open w rel str flags [= <-] Hinv Hrel Hlen.
    destruct (ramfs_open_ok w k rel str flags Hinv Hk Hrel Hlen) as (r & w' & -> & Hinv' & Hr). exists r, w'.
    destruct r as [x|]; (split_and!; [done|done| |]).
    + destruct Hr as [Hx [ref Hf]]. intros ctx y _ Hy. unfold handle in *. rewrite Hf, lookup_insert_is_Some. destruct (decide (x = y)); auto.
    + intros y [= <-]. destruct Hr as [Hx [ref Hf]]. unfold handle. rewrite Hf, lookup_insert_eq, Hx. split; [by eexists|].
      intros _ [? ?]. done.
    + intros ctx y _ Hy. unfold handle in *. by rewrite Hr.
    + done.
  - intros close w x [= <-] Hinv [f Hx]. unfold ramfs_close. rewrite Hx. eexists. split_and!; [done| |].
    + apply set_files_inv; [done|]. intros y g Hy. rewrite lookup_delete_Some in Hy. destruct Hy as [_ Hy]. by apply (ri_file _ Hinv y).
    + intros ctx y Hne Hy. unfold handle in *. simpl. by rewrite lookup_delete_ne.
  - intros stat w rel str info [= <-] Hinv Hrel Hlen Hl. destruct (ramfs_stat_ok w k rel str info Hinv Hk Hrel Hl) as (rc & info' & ->).
    do 3 eexists. split_and!; [done|done|]. by intros ? ? _.
Qed.

(** ** Reading and writing *)

Lemma splice (d b : list Z) (off : nat) :
  (off + length b <= length d)%nat -> list_inserts off b d = take off d ++ b ++ drop (off + length b) d.
Proof.
  intros Hl. rewrite <- (take_drop off d) at 1. pose proof (inserts_at (take off d) b (drop off d)) as Hi.
  rewrite length_take_le, length_drop in Hi by lia. rewrite Hi by lia. by rewrite drop_drop.
Qed.

Lemma length_file_data e : rentry_ok e -> re_valid e = true -> length (file_data e) = Z.to_nat (re_size e).
Proof.
  intros He Hv. unfold file_data. destruct (decide (0 < re_size e)) as [Hs|Hs].
  - destruct (eo_data _ He Hv Hs) as (d & -> & Hd). simpl. rewrite length_take. lia.
  - pose proof (eo_size _ He). replace (re_size e) with 0 by lia. by rewrite take_0.
Qed.

(** The buffer after [ramfs_write] made room: it starts with the contents. *)
Lemma room_ok w e new_end :
  rentry_ok e -> re_valid e = true -> 0 <= new_end < 2 ^ 64 ->
  exists g, (if re_size e <? new_end then grow kmalloc w e new_end else Some (Some e)) = Some g /\
    match g with
    | None => re_size e < new_end
    | Some e' => rentry_ok e' /\ re_valid e' = true /\ re_path e' = re_path e /\ re_kind e' = re_kind e /\
        re_size e' = Z.max (re_size e) new_end /\
        (0 < new_end -> exists d, re_data e' = Some d /\ (Z.to_nat (re_size e') <= length d)%nat /\
           take (Z.to_nat (re_size e)) d = file_data e)
    end.
Proof.
  intros He Hv Hn. pose proof (eo_size _ He) as Hs. pose proof (length_file_data e He Hv) as Hfl.
  destruct (Z.ltb_spec (re_size e) new_end) as [Hlt|Hge].
  2: { eexists. split; [done|]. split_and!; try done; [lia|]. intros Hpos. destruct (eo_data _ He Hv ltac:(lia)) as (d & Hd & Hl).
       exists d. split_and!; [done|done|]. unfold file_data. by rewrite Hd. }
  unfold grow. destruct (kmalloc w new_end) as [[a nb]|] eqn:Hkm; [|by exists None].
  pose proof (km_size _ _ _ _ Hkm) as Hnb.
  assert (Hcopy : exists nb', (match re_data e with Some d => if 0 <? re_size e then memcpy_obj nb 0 d (Z.to_nat (re_size e)) else Some nb
      | None => Some nb end) = Some nb' /\ length nb' = length nb /\ take (Z.to_nat (re_size e)) nb' = file_data e).
  { destruct (Z.ltb_spec 0 (re_size e)) as [Hpos|Hz].
    - destruct (eo_data _ He Hv Hpos) as (d & Hd & Hl). rewrite Hd. rewrite memcpy_obj_spec by lia. eexists. split; [done|].
      rewrite inserts_prefix by (rewrite length_take; lia). unfold file_data. rewrite Hd. simpl.
      rewrite length_app, length_drop, !length_take. split; [lia|]. rewrite take_app_le by (rewrite length_take; lia). rewrite take_take. f_equal. lia.
    - exists nb. split_and!; [by destruct (re_data e)|done|]. rewrite (nil_length_inv (file_data e)) by lia.
      by replace (Z.to_nat (re_size e)) with 0%nat by lia. }
  destruct Hcopy as (nb' & -> & Hl & Ht). cbn [mbind option_bind]. eexists. split; [done|]. split_and!; try done.
  - destruct He as [Hp Hnm _ _]. constructor; simpl; try done. intros _ _. exists nb'. split; [done|]. lia.
  - simpl. lia.
  - intros _. exists nb'. simpl. split_and!; [done|lia|done].
Qed.

Lemma write_ok w x f e buf n ctx :
  ramfs_inv w -> rw_files w !! x = Some f -> get_entry w (rf_fs f) (rf_entry f) = Some e -> rf_offset f <= re_size e ->
  0 < n -> rf_offset f + n < 2 ^ 64 -> (Z.to_nat n <= length buf)%nat ->
  let o := Z.to_nat (rf_offset f) in
  exists rc w', ramfs_write kmalloc w ctx x buf n = Some (rc, w') /\ ramfs_inv w' /\
    ((rc = VFS_ENOSPC /\ w' = w /\ re_size e < rf_offset f + n) \/
     (rc = 0 /\ rw_files w' = <[x := mk_file (rf_fs f) (rf_entry f) (rf_offset f + n)]> (rw_files w) /\
      (exists e', get_entry w' (rf_fs f) (rf_entry f) = Some e' /\ name_of e' = name_of e /\
         file_data e' = take o (file_data e) ++ take (Z.to_nat n) buf ++ drop (o + Z.to_nat n) (file_data e)) /\
      forall k i, (k, EntryAt i) <> (rf_fs f, rf_entry f) -> get_entry w' k (EntryAt i) = get_entry w k (EntryAt i))).
Proof.
  intros Hinv Hx He Hoff Hn Hmax Hbuf o. destruct (ri_file _ Hinv x f Hx) as (Hfs & (e0 & He0 & Hv) & Ho). rewrite He in He0. simplify_eq.
  pose proof (get_entry_ok w _ _ _ Hinv He) as Heo. unfold ramfs_write. rewrite Hx. cbn [mbind option_bind]. rewrite He.
  cbn [mbind option_bind]. rewrite u64_small by lia. rewrite (proj2 (Z.ltb_ge (rf_offset f + n) (rf_offset f))) by lia. rewrite andb_false_r.
  destruct (room_ok w e0 (rf_offset f + n) Heo Hv ltac:(lia)) as (g & -> & Hg). cbn [mbind option_bind].
  destruct g as [e1|]; [|do 2 eexists; split_and!; [done|done|]; by left].
  destruct Hg as (He1 & Hv1 & Hp1 & Hk1 & Hs1 & Hd1). destruct (Hd1 ltac:(lia)) as (d & Hd & Hdl & Htake). rewrite Hd.
  rewrite memcpy_obj_spec by lia. cbn [fmap option_fmap option_map mbind option_bind].
  set (d' := list_inserts _ _ _).
  assert (Hd' : d' = take o d ++ take (Z.to_nat n) buf ++ drop (o + Z.to_nat n) d).
  { unfold d'. rewrite splice by (rewrite length_take; lia). by rewrite length_take_le by lia. }
  assert (Hdl' : length d' = length d) by apply length_inserts.
  set (e2 := mk_entry _ _ _ _ _).
  destruct (set_entry_inv w (rf_fs f) (rf_entry f) e0 e2 Hinv He) as (w1 & -> & Hinv1 & Hf1 & Hget1 & Hother).
  { destruct He1 as [Hp Hnm Hsz _]. constructor; simpl; [done|done|done|]. intros _ _. exists d'. split; [done|]. rewrite Hdl'. lia. }
  { done. }
  cbn [mbind option_bind]. do 2 eexists. split; [done|]. split; [apply set_offset_inv; [done|by rewrite Hf1|lia]|].
  right. split_and!; [done|simpl; by rewrite Hf1| |exact Hother]. exists e2. split_and!; [done|unfold name_of; simpl; by rewrite Hp1|].
  unfold file_data at 1. simpl. rewrite Hs1, Hd'. rewrite <- Htake, take_take, Nat.min_l by lia.
  rewrite take_app_ge by (rewrite length_take; lia). f_equal. rewrite length_take_le by lia.
  rewrite take_app_ge by (rewrite length_take; lia). f_equal. rewrite length_take_le by lia.
  rewrite take_drop_commute. replace (o + Z.to_nat n + _)%nat with (Z.to_nat (Z.max (re_size e0) (rf_offset f + n))) by lia.
  destruct (Z.max_spec (re_size e0) (rf_offset f + n)) as [[? ->]|[? ->]].
  - rewrite !drop_ge; [done|rewrite length_take; lia|rewrite length_take; lia].
  - done.
Qed.

Lemma read_ok w x f e buf n g ctx :
  ramfs_inv w -> rw_files w !! x = Some f -> get_entry w (rf_fs f) (rf_entry f) = Some e -> 0 <= n -> (Z.to_nat n <= length buf)%nat ->
  let k := Z.min n (Z.max 0 (re_size e - rf_offset f)) in
  exists w', ramfs_read w ctx x buf n (Some g) =
      Some (0, take (Z.to_nat k) (drop (Z.to_nat (rf_offset f)) (file_data e)) ++ drop (Z.to_nat k) buf, Some k, w') /\
    ramfs_inv w' /\ rw_files w' = <[x := mk_file (rf_fs f) (rf_entry f) (rf_offset f + k)]> (rw_files w) /\
    rw_fs w' = rw_fs w /\ rw_sroot w' = rw_sroot w.
Proof.
  intros Hinv Hx He Hn Hbuf k. destruct (ri_file _ Hinv x f Hx) as (Hfs & (e0 & He0 & Hv) & Ho). rewrite He in He0. simplify_eq.
  pose proof (get_entry_ok w _ _ _ Hinv He) as Heo. pose proof (eo_size _ Heo) as Hs. unfold ramfs_read. rewrite Hx. cbn [mbind option_bind].
  rewrite He. cbn [mbind option_bind]. destruct (Z.leb_spec (re_size e0) (rf_offset f)) as [Hend|Hmore].
  - assert (k = 0) as -> by (unfold k; lia). exists w. rewrite take_0, drop_0, Z.add_0_r. split_and!; try done.
    symmetry. apply insert_id. rewrite Hx. by destruct f.
  - destruct (eo_data _ Heo Hv ltac:(lia)) as (d & Hd & Hl). rewrite Hd. cbn [mbind option_bind].
    assert (Hk : (if n <? re_size e0 - rf_offset f then n else re_size e0 - rf_offset f) = k) by (unfold k; bool_cases; lia).
    assert (Hkb : 0 <= k <= re_size e0 - rf_offset f) by (unfold k; lia).
    rewrite Hk. rewrite memcpy_obj_spec by (rewrite ?length_drop; lia). cbn [mbind option_bind].
    assert (Hlk : length (take (Z.to_nat k) (drop (Z.to_nat (rf_offset f)) d)) = Z.to_nat k) by (rewrite length_take, length_drop; lia).
    rewrite inserts_prefix by (rewrite Hlk; lia). rewrite Hlk, u64_small by lia. exists (set_offset w x f (rf_offset f + k)). split_and!; try done.
    + do 3 f_equal. unfold file_data. rewrite Hd. simpl. f_equal. rewrite !take_drop_commute, take_take, Nat.min_l by lia. done.
    + apply set_offset_inv; [done|done|lia].
Qed.

Lemma seek_ok w x f e off ctx :
  ramfs_inv w -> rw_files w !! x = Some f -> get_entry w (rf_fs f) (rf_entry f) = Some e -> 0 <= off < 2 ^ 63 ->
  if off <=? re_size e then
    exists w', ramfs_seek w ctx x off VFS_SEEK_SET = Some (off, w') /\ ramfs_inv w' /\
      rw_files w' = <[x := mk_file (rf_fs f) (rf_entry f) off]> (rw_files w) /\ rw_fs w' = rw_fs w /\ rw_sroot w' = rw_sroot w
  else ramfs_seek w ctx x off VFS_SEEK_SET = Some (VFS_EINVAL, w).
Proof.
  intros Hinv Hx He Hoff. unfold ramfs_seek. rewrite Hx. cbn [mbind option_bind]. rewrite He. cbn [mbind option_bind].
  change (VFS_SEEK_SET =? VFS_SEEK_SET) with true. cbv iota. cbn [mbind option_bind]. rewrite u64_small by lia.
  rewrite (proj2 (Z.ltb_ge off 0)) by lia. cbn [orb]. destruct (Z.leb_spec off (re_size e)).
  - rewrite (proj2 (Z.ltb_ge _ _)) by lia. exists (set_offset w x f off). split_and!; try done. apply set_offset_inv; [done|done|lia].
  - by rewrite (proj2 (Z.ltb_lt _ _)) by lia.
Qed.

(** ** Through the descriptors *)

Lemma write_seek_read st fd i n be x f e buf rbuf len g kb :
  fd_file st fd i n be x -> be_ops be = ramfs_ops kmalloc -> ramfs_inv (vs_world st) ->
  rw_files (vs_world st) !! x = Some f -> get_entry (vs_world st) (rf_fs f) (rf_entry f) = Some e -> rf_offset f <= re_size e ->
  0 < len -> rf_offset f + len < 2 ^ 63 -> (Z.to_nat len <= length buf)%nat -> (Z.to_nat len <= length rbuf)%nat ->
  (vfs_write st fd (Some buf) len kb = Some (VFS_ENOSPC, st) /\ re_size e < rf_offset f + len) \/
  exists st1 st2 st3, vfs_write st fd (Some buf) len kb = Some (0, st1) /\
    vfs_seek st1 fd (rf_offset f) VFS_SEEK_SET = Some (rf_offset f, st2) /\
    vfs_read st2 fd (Some rbuf) len (Some g) = Some (0, Some (take (Z.to_nat len) buf ++ drop (Z.to_nat len) rbuf), Some len, st3).
Proof.
  intros Hff Hops Hinv Hx He Hoff Hlen Hmax Hbuf Hrbuf. destruct (ri_file _ Hinv x f Hx) as (_ & (e0 & He0 & Hv) & Ho).
  rewrite He in He0. simplify_eq. pose proof (length_file_data e0 (get_entry_ok _ _ _ _ Hinv He) Hv) as Hfd.
  destruct (write_ok (vs_world st) x f e0 buf len (be_ctx be) Hinv Hx He Hoff Hlen ltac:(lia) Hbuf)
    as (rc & w1 & Hw & Hinv1 & Hcase).
  pose proof (write_through st fd i n be x _ buf len kb rc w1 Hff ltac:(by rewrite Hops) ltac:(lia) Hw) as Hvw.
  destruct Hcase as [(-> & -> & Hsz)|(-> & Hf1 & (e1 & He1 & Hn1 & Hd1) & _)].
  { left. rewrite Hvw. split; [by destruct st|done]. }
  right. simpl in Hvw. set (st1 := moved_to st w1 i n _) in *. pose proof (fd_file_moved st fd i n be x w1 (u64 (vn_offset n + len)) Hff) as Hff1.
  fold st1 in Hff1. set (f1 := mk_file (rf_fs f) (rf_entry f) (rf_offset f + len)) in *.
  assert (Hx1 : rw_files w1 !! x = Some f1) by (rewrite Hf1; apply lookup_insert_eq).
  destruct (ri_file _ Hinv1 x f1 Hx1) as (_ & (e1' & He1' & Hv1) & _). change (get_entry w1 (rf_fs f1) (rf_entry f1)) with (get_entry w1 (rf_fs f) (rf_entry f)) in He1'.
  rewrite He1 in He1'. simplify_eq. pose proof (length_file_data e1' (get_entry_ok _ _ _ _ Hinv1 He1) Hv1) as Hl1.
  rewrite Hd1, !length_app, length_take_le, length_take_le, length_drop in Hl1 by lia.
  pose proof (eo_size _ (get_entry_ok _ _ _ _ Hinv1 He1)) as Hs1.
  pose proof (seek_ok w1 x f1 e1' (rf_offset f) (be_ctx be) Hinv1 Hx1 He1 ltac:(lia)) as Hseek.
  rewrite (proj2 (Z.leb_le _ _)) in Hseek by lia. destruct Hseek as (w2 & Hsk & Hinv2 & Hf2 & Hfs2 & Hsr2).
  pose proof (seek_through st1 fd i _ be x _ (rf_offset f) VFS_SEEK_SET _ w2 Hff1 ltac:(by rewrite Hops) Hsk) as Hvs.
  rewrite (proj2 (Z.leb_le _ _)) in Hvs by lia. set (st2 := moved_to st1 w2 i _ _) in *.
  pose proof (fd_file_moved st1 fd i _ be x w2 (u64 (rf_offset f)) Hff1) as Hff2. fold st2 in Hff2.
  assert (Hx2 : rw_files w2 !! x = Some (mk_file (rf_fs f1) (rf_entry f1) (rf_offset f))) by (rewrite Hf2; apply lookup_insert_eq).
  assert (He2 : get_entry w2 (rf_fs f) (rf_entry f) = Some e1').
  { rewrite <- He1. destruct (rf_entry f); simpl; by rewrite ?Hfs2, ?Hsr2. }
  destruct (read_ok w2 x _ e1' rbuf len g (be_ctx be) Hinv2 Hx2 He2 ltac:(lia) Hrbuf) as (w3 & Hrd & _).
  pose proof (read_through st2 fd i _ be x _ rbuf len g _ _ w3 Hff2 ltac:(by rewrite Hops) Hrd) as Hvr.
  eexists st1, st2, _. split_and!; [done|done|]. simpl rf_offset in Hvr. rewrite Z.max_r, Z.min_l in Hvr by lia. rewrite Hvr.
  do 4 f_equal. rewrite Hd1, drop_app_ge by (rewrite length_take; lia). rewrite length_take_le by lia.
  rewrite Nat.sub_diag, drop_0, take_app_le by (rewrite length_take; lia). by rewrite take_take, Nat.min_id.
Qed.

End backend.

(** ** A small file system *)

(** An allocator that never fails: a fresh address and bytes of value 170. *)
Definition demo_kmalloc (w : ramfs_w) (n : Z) : option (Z * list Z) :=
  Some (fresh (dom (rw_files w)), replicate (Z.to_nat n) 170).

#[export] Instance demo_kmalloc_ok : Kmalloc demo_kmalloc.
Proof.
  constructor; intros w n a b [= <- <-].
  - apply not_elem_of_dom. apply is_fresh.
  - by rewrite length_replicate.
Qed.

Definition path_bytes (s : string) : list Z := c_str s ++ replicate (RAMFS_NAME_LEN - length (c_str s)) 0.

Definition demo_file (name : string) (data : list Z) : ramfs_entry_t :=
  mk_entry (path_bytes name) (Some data) (Z.of_nat (length data)) VFS_NODE_FILE true.

Definition demo_sroot : ramfs_entry_t := mk_entry (path_bytes "/") None 0 VFS_NODE_DIR true.

(** A root file system with the given entries, and the given open files. *)
Definition demo_world (es : list ramfs_entry_t) (files : gmap Z ramfs_file_t) : ramfs_w :=
  mk_ramfs [zero_fs; es ++ replicate (RAMFS_MAX_FILES - length es) zero_entry; zero_fs] demo_sroot files.

Definition demo_entries : list ramfs_entry_t := [demo_file "/etc/motd" [104; 105; 33]].

Definition demo_ramfs : ramfs_w := demo_world demo_entries {[ 7 := mk_file VFS_ROOT_FS (EntryAt 0) 1 ]}.

Lemma zero_entry_ok : rentry_ok zero_entry.
Proof. constructor; simpl; try done; lia. Qed.

Lemma demo_file_ok : rentry_ok (demo_file "/etc/motd" [104; 105; 33]).
Proof.
  constructor; [done| |simpl; lia|].
  - intros _. exists (replicate 246 0). split; [by vm_compute|]. vm_compute. repeat (constructor; [by split|]). constructor.
  - intros _ _. eexists. split; [done|]. simpl. lia.
Qed.

Lemma demo_sroot_ok : rentry_ok demo_sroot.
Proof.
  constructor; [done| |simpl; lia|simpl; lia].
  intros _. exists (replicate 254 0). split; [by vm_compute|]. vm_compute. constructor; [by split|constructor].
Qed.

Lemma zero_fs_ok i e : zero_fs !! i = Some e -> rentry_ok e.
Proof. intros [-> _]%lookup_replicate. apply zero_entry_ok. Qed.

Lemma demo_es_ok i e : (demo_entries ++ replicate (RAMFS_MAX_FILES - length demo_entries) zero_entry) !! i = Some e -> rentry_ok e.
Proof.
  intros [Hi|[_ Hi]]%lookup_app_Some.
  - destruct i as [|i]; [|done]. injection Hi as <-. apply demo_file_ok.
  - apply lookup_replicate in Hi as [-> _]. apply zero_entry_ok.
Qed.

Lemma demo_ramfs_inv : ramfs_inv demo_ramfs.
Proof.
  constructor.
  - done.
  - intros [|[|[|k]]] es Hk; by simplify_eq/=.
  - intros k es i e Hk. destruct k as [|[|[|k]]]; [| | |done]; injection Hk as <-; [apply zero_fs_ok|apply demo_es_ok|apply zero_fs_ok].
  - split; [apply demo_sroot_ok|done].
  - intros x f Hx. change (({[ 7 := mk_file VFS_ROOT_FS (EntryAt 0) 1 ]} : gmap Z ramfs_file_t) !! x = Some f) in Hx.
    apply lookup_singleton_Some in Hx as [<- <-]. simpl. unfold VFS_ROOT_FS. split_and!; [lia| |lia|lia].
    eexists. split; [done|done].
Qed.

(** ** Flaws *)

(** The same with the unused entries left out. *)
Definition small_world (es : list ramfs_entry_t) (files : gmap Z ramfs_file_t) : ramfs_w := mk_ramfs [[]; es; []] demo_sroot files.

(** Listing the root directory of a file system with the file "/etc/motd" gives an
    entry whose name is not terminated: [strncpy] copies the slash instead. *)
Lemma ramfs_readdir_unterminated buf :
  buf = [mk_dirent (replicate VFS_DIRENT_NAME_LEN 120) 0 0] ->
  exists d w, ramfs_readdir (small_world demo_entries {[ 7 := mk_file VFS_ROOT_FS SRoot 0 ]}) None 7 buf 1 0 = Some (0, [d], 1, w) /\
    take 6 (de_name d) = c_str "etc/xx".
Proof. intros ->. do 2 eexists. split; [vm_compute; reflexivity|]. by vm_compute. Qed.

(** [ramfs_mkdir] does not look for the path first: a second call adds a second entry. *)
Lemma ramfs_mkdir_duplicates :
  exists w1 w2 e1 e2, ramfs_mkdir (small_world [zero_entry; zero_entry] ∅) (Some VFS_ROOT_FS) (path_bytes "/tmp") = Some (0, w1) /\
    ramfs_mkdir w1 (Some VFS_ROOT_FS) (path_bytes "/tmp") = Some (0, w2) /\
    get_entry w2 VFS_ROOT_FS (EntryAt 0) = Some e1 /\ get_entry w2 VFS_ROOT_FS (EntryAt 1) = Some e2 /\ name_of e1 = name_of e2.
Proof. do 4 eexists. split_and!; [vm_compute; reflexivity|vm_compute; reflexivity|vm_compute; reflexivity|vm_compute; reflexivity|done]. Qed.

(** A file truncated through another descriptor leaves this one behind its end; a write
    then publishes the bytes the allocated memory held before. *)
Lemma ramfs_write_exposes_memory :
  exists w e, ramfs_write demo_kmalloc (small_world [mk_entry (path_bytes "/f") None 0 VFS_NODE_FILE true]
      {[ 7 := mk_file VFS_ROOT_FS (EntryAt 0) 3 ]}) None 7 [1; 2] 2 = Some (0, w) /\
    get_entry w VFS_ROOT_FS (EntryAt 0) = Some e /\ file_data e = [170; 170; 170; 1; 2].
Proof. do 2 eexists. split_and!; [vm_compute; reflexivity|vm_compute; reflexivity|by vm_compute]. Qed.

(** ** Properties *)

(** [ramfs_write] replaces the bytes from the cursor on by those of the buffer,
    growing the file when the end is passed, moves the cursor behind them and leaves
    every other file as it was; when memory is short it returns [VFS_ENOSPC] and
    changes nothing. *)
Theorem ramfs_write_ok kmalloc w x f e buf n ctx :
  Kmalloc kmalloc ->
  ramfs_inv w -> rw_files w !! x = Some f -> get_entry w (rf_fs f) (rf_entry f) = Some e -> rf_offset f <= re_size e ->
  0 < n -> rf_offset f + n < 2 ^ 64 -> (Z.to_nat n <= length buf)%nat ->
  let o := Z.to_nat (rf_offset f) in
  exists rc w', ramfs_write kmalloc w ctx x buf n = Some (rc, w') /\ ramfs_inv w' /\
    ((rc = VFS_ENOSPC /\ w' = w /\ re_size e < rf_offset f + n) \/
     (rc = 0 /\ rw_files w' = <[x := mk_file (rf_fs f) (rf_entry f) (rf_offset f + n)]> (rw_files w) /\
      (exists e', get_entry w' (rf_fs f) (rf_entry f) = Some e' /\ name_of e' = name_of e /\
         file_data e' = take o (file_data e) ++ take (Z.to_nat n) buf ++ drop (o + Z.to_nat n) (file_data e)) /\
      forall k i, (k, EntryAt i) <> (rf_fs f, rf_entry f) -> get_entry w' k (EntryAt i) = get_entry w k (EntryAt i))).
Proof. intros Hkm. by apply write_ok. Qed.

Lemma ramfs_write_ok_witness :
  let f := mk_file VFS_ROOT_FS (EntryAt 0) 1 in let e := demo_file "/etc/motd" [104; 105; 33] in
  exists rc w', ramfs_write demo_kmalloc demo_ramfs None 7 [97; 98; 99] 3 = Some (rc, w') /\ ramfs_inv w' /\
    ((rc = VFS_ENOSPC /\ w' = demo_ramfs /\ re_size e < rf_offset f + 3) \/
     (rc = 0 /\ rw_files w' = <[7 := mk_file (rf_fs f) (rf_entry f) (rf_offset f + 3)]> (rw_files demo_ramfs) /\
      (exists e', get_entry w' (rf_fs f) (rf_entry f) = Some e' /\ name_of e' = name_of e /\
         file_data e' = take 1 (file_data e) ++ take 3 [97; 98; 99] ++ drop (1 + 3) (file_data e)) /\
      forall k i, (k, EntryAt i) <> (rf_fs f, rf_entry f) -> get_entry w' k (EntryAt i) = get_entry demo_ramfs k (EntryAt i))).
Proof.
  intros f e. apply (ramfs_write_ok demo_kmalloc demo_ramfs 7 f e [97; 98; 99] 3 None);
    [apply demo_kmalloc_ok|apply demo_ramfs_inv|reflexivity|reflexivity|simpl; lia|lia|simpl; lia|simpl; lia].
Defined.

Definition demo_ramfs_backend : vfs_backend_t ramfs_w Z :=
  mk_backend (c_str "/" ++ replicate 63 0) (c_str "/" ++ replicate 255 0) (ramfs_ops demo_kmalloc) (Some VFS_ROOT_FS) 1.

Definition demo_node : vfsnode_t Z := mk_vnode 1 1 3 1 3 (path_bytes "/etc/motd") (Some 0%nat) (Some 7) (Some 9%nat) None 0.

(** Process 9 has the file open as descriptor 3. *)
Definition demo_ramfs_vfs : vfs_st ramfs_w Z :=
  mk_vfs ([zero_node; demo_node] ++ replicate 1022 zero_node) (demo_ramfs_backend :: replicate 15 zero_backend) 2
    {[ 9%nat := <[3%nat := Some 1%nat]> (replicate 256 None) ]} ∅ (mk_ports [] ∅ []) (Some 9%nat) demo_ramfs.

Lemma demo_fd_file : fd_file demo_ramfs_vfs 3 1 demo_node demo_ramfs_backend 7.
Proof.
  constructor; try done. { exists 9%nat. eexists. split_and!; [done|by apply lookup_singleton_eq|done]. }
  by exists 0%nat.
Qed.

(** C17: a round trip through the descriptor table: what [vfs_write] stores in a file
    of the memory file system is what [vfs_read] returns after [vfs_seek] back to
    where the write began, unless the write found no memory. *)
Theorem vfs_ramfs_roundtrip kmalloc st fd i n be x f e buf rbuf len g kb :
  Kmalloc kmalloc ->
  fd_file st fd i n be x -> be_ops be = ramfs_ops kmalloc -> ramfs_inv (vs_world st) ->
  rw_files (vs_world st) !! x = Some f -> get_entry (vs_world st) (rf_fs f) (rf_entry f) = Some e -> rf_offset f <= re_size e ->
  0 < len -> rf_offset f + len < 2 ^ 63 -> (Z.to_nat len <= length buf)%nat -> (Z.to_nat len <= length rbuf)%nat ->
  (vfs_write st fd (Some buf) len kb = Some (VFS_ENOSPC, st) /\ re_size e < rf_offset f + len) \/
  exists st1 st2 st3, vfs_write st fd (Some buf) len kb = Some (0, st1) /\
    vfs_seek st1 fd (rf_offset f) VFS_SEEK_SET = Some (rf_offset f, st2) /\
    vfs_read st2 fd (Some rbuf) len (Some g) = Some (0, Some (take (Z.to_nat len) buf ++ drop (Z.to_nat len) rbuf), Some len, st3).
Proof. intros Hkm. by apply write_seek_read. Qed.

Lemma vfs_ramfs_roundtrip_witness :
  (vfs_write demo_ramfs_vfs 3 (Some [97; 98; 99]) 3 None = Some (VFS_ENOSPC, demo_ramfs_vfs) /\ 3 < 1 + 3) \/
  exists st1 st2 st3, vfs_write demo_ramfs_vfs 3 (Some [97; 98; 99]) 3 None = Some (0, st1) /\
    vfs_seek st1 3 1 VFS_SEEK_SET = Some (1, st2) /\
    vfs_read st2 3 (Some [0; 0; 0; 0]) 3 (Some 0) = Some (0, Some ([97; 98; 99] ++ [0]), Some 3, st3).
Proof.
  apply (vfs_ramfs_roundtrip demo_kmalloc demo_ramfs_vfs 3 1 demo_node demo_ramfs_backend 7 (mk_file VFS_ROOT_FS (EntryAt 0) 1)
    (demo_file "/etc/motd" [104; 105; 33]) [97; 98; 99] [0; 0; 0; 0] 3 0 None);
    [apply demo_kmalloc_ok|apply demo_fd_file|reflexivity|apply demo_ramfs_inv|reflexivity|reflexivity|simpl; lia|lia|simpl; lia|simpl; lia|simpl; lia].
Defined.
