(* ===== verification/Fat32.v ===== *)
(** * The FAT file system (src/kernel/vfs/fat32.c)

    A FAT16 or FAT32 volume in memory, mounted read-only, and the writer that adds a file to its
    root directory.  The bytes of a volume are a list; [fs->image + off] is an offset into it, and
    an access past its end is [None].  The world of the backend has the volumes by address, the
    [fat32_fs_t] of each mount and the open files; [kmalloc] is a parameter that returns an address.
    A directory whose cluster chain has a cycle can be scanned forever: the loops over chains take
    fuel and are [None] when it runs out.  The buffers for long names are uninitialised in C; the
    bytes that are read have been written before, and the model starts them at zero. *)

From Stdlib Require Import ZArith Lia.
From stdpp Require Import base strings gmap list.
From S2P Require Import Prelude KString VfsPath Vfs.

Local Open Scope Z_scope.

Definition FAT32_CLUSTER_EOC : Z := 0x0FFFFFF8.
Definition VFS_EISDIR : Z := -7.
Definition VFS_ENOTDIR : Z := -8.

Record fat32_fs_t := mk_fat {
  ff_image : Z;
  ff_image_size : Z;
  ff_bytes_per_sector : Z;
  ff_sectors_per_cluster : Z;
  ff_reserved_sectors : Z;
  ff_fats : Z;
  ff_fat_size_sectors : Z;
  ff_total_sectors : Z;
  ff_root_cluster : Z;
  ff_data_start_sector : Z;
  ff_cluster_count : Z;
  ff_fat16 : bool;
  ff_root_dir_sector : Z;
  ff_root_dir_bytes : Z;
}.

Record fat32_node_t := mk_fnode { fn_name : list Z; fn_is_dir : bool; fn_start_cluster : Z; fn_size : Z }.

Record fat32_file_t := mk_ffile { fh_fs : nat; fh_node : fat32_node_t; fh_offset : Z }.

(** ** Bytes *)

Definition rd16 (p : list Z) (off : Z) : option Z :=
  b0 ← p !! Z.to_nat off; b1 ← p !! Z.to_nat (off + 1);
  Some (Z.lor b0 (Z.shiftl b1 8)).

Definition rd32 (p : list Z) (off : Z) : option Z :=
  b0 ← p !! Z.to_nat off; b1 ← p !! Z.to_nat (off + 1); b2 ← p !! Z.to_nat (off + 2); b3 ← p !! Z.to_nat (off + 3);
  Some (Z.lor (Z.lor (Z.lor b0 (Z.shiftl b1 8)) (Z.shiftl b2 16)) (Z.shiftl b3 24)).

Definition wr16 (p : list Z) (off v : Z) : option (list Z) :=
  p ← put p (Z.to_nat off) (u8 (Z.land v 0xFF));
  put p (Z.to_nat (off + 1)) (u8 (Z.shiftr v 8)).

Definition wr32 (p : list Z) (off v : Z) : option (list Z) :=
  p ← put p (Z.to_nat off) (u8 (Z.land v 0xFF));
  p ← put p (Z.to_nat (off + 1)) (u8 (Z.land (Z.shiftr v 8) 0xFF));
  p ← put p (Z.to_nat (off + 2)) (u8 (Z.land (Z.shiftr v 16) 0xFF));
  put p (Z.to_nat (off + 3)) (u8 (Z.land (Z.shiftr v 24) 0xFF)).

(** [if (c >= 'a' && c <= 'z') c = c - 'a' + 'A']; bytes from 128 on are negative as [char]. *)
Definition f_upper (c : Z) : Z := if (97 <=? c) && (c <=? 122) then c - 97 + 65 else c.

Fixpoint f_stricmp (a b : list Z) : option Z :=
  match a, b with
  | x :: a', y :: b' =>
      if (x =? 0) || (y =? 0) then Some (x - y)
      else if f_upper x =? f_upper y then f_stricmp a' b' else Some (f_upper x - f_upper y)
  | _, _ => None
  end.

(** [for (i = 0; i < n && src[i]; i++) dst[i] = src[i]] *)
Fixpoint copy_chars (dst src : list Z) (i n : nat) : option (list Z) :=
  match n with
  | O => Some dst
  | S n' => c ← src !! i; if c =? 0 then Some dst else dst ← put dst i c; copy_chars dst src (S i) n'
  end.

(** ** Clusters *)

Definition cluster_is_valid (fs : fat32_fs_t) (cluster : Z) : bool :=
  (2 <=? cluster) && (cluster <? u32 (ff_cluster_count fs + 2)).

Definition cluster_offset_bytes (fs : fat32_fs_t) (cluster : Z) : Z :=
  let sector := u64 (ff_data_start_sector fs + u64 (u32 (cluster - 2) * ff_sectors_per_cluster fs)) in
  u64 (sector * ff_bytes_per_sector fs).

Definition cluster_bytes (fs : fat32_fs_t) : Z := u32 (ff_bytes_per_sector fs * ff_sectors_per_cluster fs).

(** The offset of the entry of a cluster in the first table; entries have [w] bytes. *)
Definition fat_entry_off (fs : fat32_fs_t) (cluster w : Z) : Z :=
  u64 (u64 (ff_reserved_sectors fs * ff_bytes_per_sector fs) + u64 (cluster * w)).

Definition fat_next_cluster (img : list Z) (fs : fat32_fs_t) (cluster : Z) : option Z :=
  if ff_fat16 fs then
    let off := fat_entry_off fs cluster 2 in
    if ff_image_size fs <? u64 (off + 2) then Some FAT32_CLUSTER_EOC
    else v ← rd16 img off; Some (if 0xFFF8 <=? v then FAT32_CLUSTER_EOC else v)
  else
    let off := fat_entry_off fs cluster 4 in
    if ff_image_size fs <? u64 (off + 4) then Some FAT32_CLUSTER_EOC
    else v ← rd32 img off; Some (Z.land v 0x0FFFFFFF).

(** ** Names of directory entries *)

(** [n] characters of [entry] from [i] on, up to a space, behind the characters in [out]. *)
Fixpoint copy83 (entry : list Z) (i n : nat) (out : list Z) (out_sz : nat) : option (list Z) :=
  match n with
  | O => Some out
  | S n' =>
      if (length out + 1 <? out_sz)%nat then
        c ← entry !! i; if c =? 32 then Some out else copy83 entry (S i) n' (out ++ [c]) out_sz
      else Some out
  end.

Fixpoint has_ext (entry : list Z) (i n : nat) : option bool :=
  match n with
  | O => Some false
  | S n' => c ← entry !! i; if c =? 32 then has_ext entry (S i) n' else Some true
  end.

(** The bytes of [out] up to the terminator. *)
Definition format_83_name (entry : list Z) (out_sz : nat) : option (list Z) :=
  out ← copy83 entry 0 8 [] out_sz;
  ext ← has_ext entry 8 3;
  let out := if ext && (length out + 1 <? out_sz)%nat then out ++ [46] else out in
  out ← copy83 entry 8 3 out out_sz;
  Some (out ++ [0]).

Definition lfn_offsets : list nat := [1; 3; 5; 7; 9; 14; 16; 18; 20; 22; 24; 28; 30]%nat.

Fixpoint lfn_chars (offsets : list nat) (e buf : list Z) (buf_sz len : nat) : option (list Z * nat) :=
  match offsets with
  | [] => Some (buf, len)
  | o :: offsets' =>
      if (len + 1 <? buf_sz)%nat then
        lo ← e !! o; hi ← e !! S o;
        let ch := Z.lor lo (Z.shiftl hi 8) in
        if (ch =? 0) || (ch =? 0xFFFF) then Some (buf, len)
        else
          buf ← put buf len (if Z.land ch 0x7F =? 0 then 63 else Z.land ch 0xFF);
          lfn_chars offsets' e buf buf_sz (S len)
      else Some (buf, len)
  end.

Definition lfn_extract (e buf : list Z) (buf_sz len : nat) : option (list Z * nat) := lfn_chars lfn_offsets e buf buf_sz len.

Definition LFN_BUF : nat := 256.

(** An entry of a long name: the first one (0x40) starts the buffer, the others go in front.
    [memmove_back] is the loop that shifts the characters to the right. *)
Definition lfn_step (e : list Z) (lfn : list Z * nat) : option (list Z * nat) :=
  let '(buf, len) := lfn in
  seq ← e !! 0%nat;
  '(buf, len) ← (if negb (Z.land seq 0x40 =? 0) then lfn_extract e buf LFN_BUF 0
    else
      '(tmp, tmp_len) ← lfn_extract e (replicate LFN_BUF 0) LFN_BUF 0;
      if (tmp_len + len <? LFN_BUF)%nat then
        buf ← memmove_back buf (tmp_len + len) len len;
        buf ← memcpy_obj buf 0 tmp tmp_len;
        Some (buf, (len + tmp_len)%nat)
      else Some (buf, len));
  buf ← put buf len 0;
  Some (buf, len).

(** ** Directories *)

(** The 32 bytes of the entry at an offset of the volume. *)
Definition dir_entry (img : list Z) (off : Z) : list Z := slice (Z.to_nat off) 32 img.

(** [want] is [None] for a null pointer; the long name is tried first. *)
Definition name_matches (lfn : list Z * nat) (name83 : list Z) (want : option (list Z)) : option bool :=
  match want with
  | None => Some true
  | Some want =>
      r ← f_stricmp (if (0 <? snd lfn)%nat then fst lfn else name83) want;
      if r =? 0 then Some true else r ← f_stricmp name83 want; Some (r =? 0)
  end.

(** The node of an entry: in a FAT16 root directory clusters have 16 bits. *)
Definition entry_node (fs : fat32_fs_t) (root16 : bool) (e : list Z) (lfn : list Z * nat) (name83 : list Z) : option fat32_node_t :=
  c0 ← fst lfn !! 0%nat;
  let stored := if (0 <? snd lfn)%nat && (root16 || negb (c0 =? 0)) then fst lfn else name83 in
  name ← copy_chars (replicate 64 0) stored 0 63;
  attr ← e !! 11%nat;
  let is_dir := negb (Z.land attr 0x10 =? 0) in
  lo ← rd16 e 26;
  hi ← (if root16 : bool then Some 0 else rd16 e 20);
  let start := Z.lor (Z.shiftl hi 16) lo in
  let start := if negb root16 && (start =? 0) && is_dir then ff_root_cluster fs else start in
  size ← rd32 e 28;
  Some (mk_fnode name is_dir start size).

Inductive scan := ScanEnd | ScanNext (lfn : list Z * nat) | ScanFound (n : fat32_node_t).

(** One entry of a directory. *)
Definition find_step (fs : fat32_fs_t) (root16 : bool) (e : list Z) (want : option (list Z)) (lfn : list Z * nat) : option scan :=
  e0 ← e !! 0%nat;
  if e0 =? 0x00 then Some ScanEnd
  else if e0 =? 0xE5 then Some (ScanNext (fst lfn, 0%nat))
  else
    attr ← e !! 11%nat;
    if attr =? 0x0F then lfn ← lfn_step e lfn; Some (ScanNext lfn)
    else
      name83 ← format_83_name e 64;
      m ← name_matches lfn name83 want;
      if m : bool then n ← entry_node fs root16 e lfn name83; Some (ScanFound n) else Some (ScanNext (fst lfn, 0%nat)).

Definition no_lfn : list Z * nat := (replicate LFN_BUF 0, 0%nat).

(** The entries of the root directory of a FAT16 volume from offset [off] on, [n] to go. *)
Fixpoint root_scan (img : list Z) (fs : fat32_fs_t) (want : option (list Z)) (off : Z) (n : nat) (lfn : list Z * nat)
    : option (option fat32_node_t) :=
  match n with
  | O => Some None
  | S n' =>
      let byte_off := u64 (u64 (ff_root_dir_sector fs * ff_bytes_per_sector fs) + off) in
      if ff_image_size fs <? u64 (byte_off + 32) then Some None
      else
        r ← find_step fs true (dir_entry img byte_off) want lfn;
        match r with
        | ScanEnd => Some None
        | ScanFound n => Some (Some n)
        | ScanNext lfn => root_scan img fs want (off + 32) n' lfn
        end
  end.

Definition iter_root_dir_find (img : list Z) (fs : fat32_fs_t) (want : option (list Z)) : option (option fat32_node_t) :=
  root_scan img fs want 0 (Z.to_nat (ff_root_dir_bytes fs / 32)) no_lfn.

(** The entries of one cluster. *)
Fixpoint cluster_scan (img : list Z) (fs : fat32_fs_t) (want : option (list Z)) (off : Z) (n : nat) (lfn : list Z * nat) : option scan :=
  match n with
  | O => Some (ScanNext lfn)
  | S n' =>
      r ← find_step fs false (dir_entry img off) want lfn;
      match r with
      | ScanNext lfn => cluster_scan img fs want (off + 32) n' lfn
      | r => Some r
      end
  end.

Fixpoint chain_scan (fuel : nat) (img : list Z) (fs : fat32_fs_t) (want : option (list Z)) (cluster : Z) (lfn : list Z * nat)
    : option (option fat32_node_t) :=
  match fuel with
  | O => None
  | S fuel' =>
      if cluster_is_valid fs cluster && (cluster <? FAT32_CLUSTER_EOC) then
        let coff := cluster_offset_bytes fs cluster in
        if ff_image_size fs <? u64 (coff + cluster_bytes fs) then Some None
        else
          r ← cluster_scan img fs want coff (Z.to_nat (cluster_bytes fs / 32)) lfn;
          match r with
          | ScanEnd => Some None
          | ScanFound n => Some (Some n)
          | ScanNext lfn =>
              next ← fat_next_cluster img fs cluster;
              if (FAT32_CLUSTER_EOC <=? next) || negb (cluster_is_valid fs next) then Some None
              else chain_scan fuel' img fs want next lfn
          end
      else Some None
  end.

(** Enough rounds to follow a chain without a cycle, and to go round a cycle twice: the second
    time differs from the first by the long name that is carried along, a third one would not. *)
Definition chain_fuel (fs : fat32_fs_t) : nat := Z.to_nat (2 * ff_cluster_count fs + 2).

Definition iter_dir_find (img : list Z) (fs : fat32_fs_t) (dir_cluster : Z) (want : option (list Z)) : option (option fat32_node_t) :=
  if ff_fat16 fs && (dir_cluster =? 0) then iter_root_dir_find img fs want
  else if negb (cluster_is_valid fs dir_cluster) then Some None
  else chain_scan (chain_fuel fs) img fs want dir_cluster no_lfn.

(** [while ( *path == '/' ) path++] *)
Fixpoint skip_slash (path : list Z) : option (list Z) :=
  match path with
  | [] => None
  | c :: path' => if c =? SLASH then skip_slash path' else Some path
  end.

(** The next component, at most [n] characters, and the rest of the path. *)
Fixpoint path_part (path : list Z) (n : nat) : option (list Z * list Z) :=
  match n, path with
  | _, [] => None
  | O, _ => Some ([], path)
  | S n', c :: path' =>
      if (c =? 0) || (c =? SLASH) then Some ([], path)
      else '(part, rest) ← path_part path' n'; Some (c :: part, rest)
  end.

Fixpoint resolve_loop (fuel : nat) (img : list Z) (fs : fat32_fs_t) (path : list Z) (cur : fat32_node_t) : option (option fat32_node_t) :=
  match fuel with
  | O => None
  | S fuel' =>
      c ← path !! 0%nat;
      if c =? 0 then Some (Some cur)
      else
        '(part, path) ← path_part path 63;
        path ← skip_slash path;
        if negb (fn_is_dir cur) then Some None
        else
          r ← iter_dir_find img fs (fn_start_cluster cur) (Some (part ++ [0]));
          match r with
          | None => Some None
          | Some next => resolve_loop fuel' img fs path next
          end
  end.

Definition root_node (fs : fat32_fs_t) : fat32_node_t :=
  mk_fnode (replicate 64 0) true (if ff_fat16 fs then 0 else ff_root_cluster fs) 0.

Definition resolve_path (img : list Z) (fs : fat32_fs_t) (path : list Z) : option (option fat32_node_t) :=
  path ← skip_slash path;
  resolve_loop (S (length path)) img fs path (root_node fs).

(** ** The backend *)

Record fat_w := mk_fatw { fw_images : gmap Z (list Z); fw_fs : gmap nat fat32_fs_t; fw_files : gmap Z fat32_file_t }.

Definition fat_set_files (w : fat_w) (fs : gmap Z fat32_file_t) : fat_w := mk_fatw (fw_images w) (fw_fs w) fs.
Definition fat_set_fs (w : fat_w) (fs : gmap nat fat32_fs_t) : fat_w := mk_fatw (fw_images w) fs (fw_files w).

(** [f->offset = off] *)
Definition fat_moved (w : fat_w) (x : Z) (f : fat32_file_t) (off : Z) : fat_w :=
  fat_set_files w (<[x := mk_ffile (fh_fs f) (fh_node f) off]> (fw_files w)).

(** A volume and its bytes. *)
Definition fat_volume (w : fat_w) (k : nat) : option (fat32_fs_t * list Z) :=
  fs ← fw_fs w !! k; img ← fw_images w !! ff_image fs; Some (fs, img).

Section fat32.
Context (kmalloc : fat_w -> Z -> option Z).

Definition fat32_open (w : fat_w) (ctx : option nat) (path : list Z) (flags : Z) : option (option Z * fat_w) :=
  match ctx with
  | None => Some (None, w)
  | Some k =>
      if negb (Z.land flags VFS_O_WRITE =? 0) then Some (None, w)
      else
        '(fs, img) ← fat_volume w k;
        r ← resolve_path img fs path;
        match r with
        | None => Some (None, w)
        | Some n =>
            if negb (Z.land flags VFS_O_DIR =? 0) && negb (fn_is_dir n) then Some (None, w)
            else match kmalloc w 88 with
            | None => Some (None, w)
            | Some f => Some (Some f, fat_set_files w (<[f := mk_ffile k n 0]> (fw_files w)))
            end
        end
  end.

Definition fat32_close (w : fat_w) (_ : option nat) (x : Z) : option fat_w :=
  match fw_files w !! x with
  | None => None
  | Some _ => Some (fat_set_files w (delete x (fw_files w)))
  end.

(** [while (skip--)]: the cluster, or [inl] of the error. *)
Fixpoint skip_clusters (img : list Z) (fs : fat32_fs_t) (cluster : Z) (skip : nat) : option (Z + Z) :=
  match skip with
  | O => Some (inr cluster)
  | S skip' =>
      next ← fat_next_cluster img fs cluster;
      if (FAT32_CLUSTER_EOC <=? next) || negb (cluster_is_valid fs next) then Some (inl VFS_ERR)
      else skip_clusters img fs next skip'
  end.

(** [while (done < need)]; every round copies a byte or more, so [need] rounds are enough. *)
Fixpoint read_loop (fuel : nat) (img : list Z) (fs : fat32_fs_t) (cluster in_cluster : Z) (buf : list Z) (done need : Z)
    : option (Z * list Z * Z) :=
  if need <=? done then Some (0, buf, done)
  else
    match fuel with
    | O => None
    | S fuel' =>
        let coff := cluster_offset_bytes fs cluster in
        if ff_image_size fs <? u64 (coff + cluster_bytes fs) then Some (VFS_ERR, buf, done)
        else
          let chunk := Z.min (cluster_bytes fs - in_cluster) (need - done) in
          buf ← memcpy_obj buf (Z.to_nat done) (drop (Z.to_nat (coff + in_cluster)) img) (Z.to_nat chunk);
          let done := done + chunk in
          if done <? need then
            next ← fat_next_cluster img fs cluster;
            if (FAT32_CLUSTER_EOC <=? next) || negb (cluster_is_valid fs next) then Some (0, buf, done)
            else read_loop fuel' img fs next 0 buf done need
          else Some (0, buf, done)
    end.

Definition fat32_read (w : fat_w) (_ : option nat) (x : Z) (buf : list Z) (n : Z) (got : option Z)
    : option (Z * list Z * option Z * fat_w) :=
  f ← fw_files w !! x;
  let nd := fh_node f in
  if fn_is_dir nd then Some (VFS_EISDIR, buf, got, w)
  else if fn_size nd <=? fh_offset f then Some (0, buf, option_map (fun _ => 0) got, w)
  else
    '(fs, img) ← fat_volume w (fh_fs f);
    let remain := fn_size nd - fh_offset f in
    let need := if n <? remain then n else remain in
    if negb (cluster_is_valid fs (fn_start_cluster nd)) then Some (VFS_ERR, buf, got, w)
    else if cluster_bytes fs =? 0 then None
    else
      c ← skip_clusters img fs (fn_start_cluster nd) (Z.to_nat (fh_offset f / cluster_bytes fs));
      match c with
      | inl e => Some (e, buf, got, w)
      | inr c =>
          '(rc, buf, done) ← read_loop (Z.to_nat need) img fs c (fh_offset f mod cluster_bytes fs) buf 0 need;
          if negb (rc =? 0) then Some (rc, buf, got, w)
          else Some (0, buf, option_map (fun _ => done) got, fat_moved w x f (u32 (fh_offset f + u32 done)))
      end.

Definition fat32_write (w : fat_w) (_ : option nat) (_ : Z) (_ : list Z) (_ : Z) : option (Z * fat_w) := Some (VFS_EPERM, w).

Definition fat32_seek (w : fat_w) (_ : option nat) (x : Z) (off whence : Z) : option (Z * fat_w) :=
  f ← fw_files w !! x;
  match (if whence =? VFS_SEEK_SET then Some 0 else if whence =? VFS_SEEK_CUR then Some (fh_offset f)
         else if whence =? VFS_SEEK_END then Some (fn_size (fh_node f)) else None) with
  | None => Some (VFS_EINVAL, w)
  | Some base =>
      noff ← add_i64 base off;
      if (noff <? 0) || (fn_size (fh_node f) <? noff) then Some (VFS_EINVAL, w)
      else Some (noff, fat_moved w x f (u32 noff))
  end.

(** One entry of a listing: [inl] of the end, or the entries, the count and the long name. *)
Definition list_step (e : list Z) (buf : list vfs_dirent_t) (count : Z) (lfn : list Z * nat)
    : option (unit + list vfs_dirent_t * Z * (list Z * nat)) :=
  e0 ← e !! 0%nat;
  if e0 =? 0x00 then Some (inl ())
  else if e0 =? 0xE5 then Some (inr (buf, count, (fst lfn, 0%nat)))
  else
    attr ← e !! 11%nat;
    if attr =? 0x0F then lfn ← lfn_step e lfn; Some (inr (buf, count, lfn))
    else
      name83 ← format_83_name e 64;
      let dname := if (0 <? snd lfn)%nat then fst lfn else name83 in
      name ← copy_chars (replicate VFS_DIRENT_NAME_LEN 0) dname 0 (VFS_DIRENT_NAME_LEN - 1);
      size ← rd32 e 28;
      _ ← buf !! Z.to_nat count;
      let d := mk_dirent name (if Z.land attr 0x10 =? 0 then VFS_NODE_FILE else VFS_NODE_DIR) size in
      Some (inr (<[Z.to_nat count := d]> buf, count + 1, (fst lfn, 0%nat))).

(** The entries of one cluster; the flag says that the end of the directory was reached. *)
Fixpoint cluster_list (img : list Z) (off : Z) (n : nat) (buf : list vfs_dirent_t) (cap count : Z) (lfn : list Z * nat)
    : option (bool * list vfs_dirent_t * Z * (list Z * nat)) :=
  match n with
  | O => Some (false, buf, count, lfn)
  | S n' =>
      if cap <=? count then Some (false, buf, count, lfn)
      else
        r ← list_step (dir_entry img off) buf count lfn;
        match r with
        | inl _ => Some (true, buf, count, lfn)
        | inr (buf, count, lfn) => cluster_list img (off + 32) n' buf cap count lfn
        end
  end.

Fixpoint chain_list (fuel : nat) (img : list Z) (fs : fat32_fs_t) (cluster : Z) (buf : list vfs_dirent_t) (cap count : Z)
    (lfn : list Z * nat) : option (list vfs_dirent_t * Z) :=
  if cluster_is_valid fs cluster && (cluster <? FAT32_CLUSTER_EOC) && (count <? cap) then
    match fuel with
    | O => None
    | S fuel' =>
        let coff := cluster_offset_bytes fs cluster in
        if ff_image_size fs <? u64 (coff + cluster_bytes fs) then Some (buf, count)
        else
          '(fin, buf, count, lfn) ← cluster_list img coff (Z.to_nat (cluster_bytes fs / 32)) buf cap count lfn;
          if fin : bool then Some (buf, count)
          else
            next ← fat_next_cluster img fs cluster;
            if (FAT32_CLUSTER_EOC <=? next) || negb (cluster_is_valid fs next) then Some (buf, count)
            else chain_list fuel' img fs next buf cap count lfn
    end
  else Some (buf, count).

Definition fat32_readdir (w : fat_w) (ctx : option nat) (x : Z) (buf : list vfs_dirent_t) (cap n_out : Z)
    : option (Z * list vfs_dirent_t * Z * fat_w) :=
  match ctx with
  | None => Some (VFS_EINVAL, buf, n_out, w)
  | Some k =>
      f ← fw_files w !! x;
      if negb (fn_is_dir (fh_node f)) then Some (VFS_ENOTDIR, buf, n_out, w)
      else
        '(fs, img) ← fat_volume w k;
        '(buf, count) ← chain_list (chain_fuel fs) img fs (fn_start_cluster (fh_node f)) buf cap 0 no_lfn;
        Some (0, buf, count, w)
  end.

Definition fat32_stat (w : fat_w) (ctx : option nat) (path : list Z) (out : stat_info_t) : option (Z * stat_info_t * fat_w) :=
  match ctx with
  | None => Some (VFS_EINVAL, out, w)
  | Some k =>
      '(fs, img) ← fat_volume w k;
      r ← resolve_path img fs path;
      match r with
      | None => Some (VFS_ENOENT, out, w)
      | Some n =>
          c0 ← fn_name n !! 0%nat;
          name ← (if negb (c0 =? 0) then copy_chars (replicate VFS_PATH_MAX 0) (fn_name n) 0 (VFS_PATH_MAX - 1)
                  else put (replicate VFS_PATH_MAX 0) 0 SLASH);
          Some (0, mk_stat (if fn_is_dir n then 0 else fn_size n) (if fn_is_dir n then VFS_NODE_DIR else VFS_NODE_FILE) 0 name 0 0 0, w)
      end
  end.

Definition fat32_unlink (w : fat_w) (_ : option nat) (_ : list Z) : option (Z * fat_w) := Some (VFS_EPERM, w).
Definition fat32_mkdir (w : fat_w) (_ : option nat) (_ : list Z) : option (Z * fat_w) := Some (VFS_EPERM, w).

(** The checks of a boot sector and the geometry; the inner [None] is the return of -1.
    [ptr] is the address of the volume. *)
Definition fat32_parse_header (ptr : Z) (img : list Z) (sz : Z) : option (option fat32_fs_t) :=
  if sz <? 512 then Some None
  else
    s0 ← img !! 510%nat; s1 ← img !! 511%nat;
    if negb (s0 =? 0x55) || negb (s1 =? 0xAA) then Some None
    else
      bps ← rd16 img 11; spc ← img !! 13%nat; reserved ← rd16 img 14; fats ← img !! 16%nat;
      t16 ← rd16 img 19; t32 ← rd32 img 32;
      let total := if t16 =? 0 then t32 else t16 in
      fat_sz16 ← rd16 img 22; fat_sz32 ← rd32 img 36;
      let fat_sz := if fat_sz16 =? 0 then fat_sz32 else fat_sz16 in
      root_cluster ← rd32 img 44;
      if (bps =? 0) || (spc =? 0) || (reserved =? 0) || (fats =? 0) || (fat_sz =? 0) || (total =? 0) then Some None
      else
        let image_sectors := u32 (sz / bps) in
        if image_sectors <? u32 (reserved + u32 (fats * fat_sz) + spc) then Some None
        else
          let total := if image_sectors <? total then image_sectors else total in
          let data_start := u32 (reserved + u32 (fats * fat_sz)) in
          if total <=? data_start then Some None
          else
            let clusters := (total - data_start) / spc in
            if clusters <? 2 then Some None
            else
              let is_fat32 := (fat_sz16 =? 0) && negb (fat_sz32 =? 0) in
              let fs := mk_fat ptr sz bps spc reserved fats fat_sz total in
              if is_fat32 && (2 <=? root_cluster) then Some (Some (fs root_cluster data_start clusters false 0 0))
              else if is_fat32 then Some None
              else
                re ← rd16 img 17;
                let root_entries := if re =? 0 then 512 else re in
                Some (Some (fs 0 data_start clusters true data_start (u32 (root_entries * 32)))).

Definition g_fat32_ops : vfs_ops_t fat_w Z :=
  mk_ops (Some fat32_open) (Some fat32_close) (Some fat32_read) (Some fat32_write) (Some fat32_seek)
    (Some fat32_readdir) (Some fat32_stat) (Some fat32_unlink) (Some fat32_mkdir).

Definition fat32_mount_image (st : vfs_st fat_w Z) (mount_pt : option (list Z)) (image : option Z) (image_size : Z)
    : option (Z * vfs_st fat_w Z) :=
  match mount_pt, image with
  | Some mp, Some ptr =>
      if image_size <? 512 then Some (0, st)
      else
        match kmalloc (vs_world st) 64 with
        | None => Some (0, st)
        | Some a =>
            img ← fw_images (vs_world st) !! ptr;
            r ← fat32_parse_header ptr img image_size;
            match r with
            | None => Some (0, st)
            | Some fs =>
                let w := vs_world st in
                '(id, st') ← vfs_mount (set_world st (fat_set_fs w (<[Z.to_nat a := fs]> (fw_fs w)))) (Some mp) g_fat32_ops (Some (Z.to_nat a));
                if id =? 0 then Some (0, st) else Some (id, st')
            end
        end
  | _, _ => Some (0, st)
  end.

End fat32.

(** ** Writing a file into a volume *)

Definition fat_set32 (img : list Z) (fs : fat32_fs_t) (cluster value : Z) : option (list Z) :=
  let off := fat_entry_off fs cluster 4 in
  if ff_image_size fs <? u64 (off + 4) then Some img
  else cur ← rd32 img off; wr32 img off (Z.lor (Z.land cur 0xF0000000) (Z.land value 0x0FFFFFFF)).

Definition fat_set16 (img : list Z) (fs : fat32_fs_t) (cluster value : Z) : option (list Z) :=
  let off := fat_entry_off fs cluster 2 in
  if ff_image_size fs <? u64 (off + 2) then Some img else wr16 img off value.

(** [for (c = 2; c < maxc; c++)], from [c] on with [n] clusters to go. *)
Fixpoint find_free_from (img : list Z) (fs : fat32_fs_t) (c : Z) (n : nat) : option Z :=
  match n with
  | O => Some 0
  | S n' =>
      if ff_fat16 fs then
        let off := fat_entry_off fs c 2 in
        if ff_image_size fs <? u64 (off + 2) then Some 0
        else v ← rd16 img off; if v =? 0 then Some c else find_free_from img fs (c + 1) n'
      else
        let off := fat_entry_off fs c 4 in
        if ff_image_size fs <? u64 (off + 4) then Some 0
        else v ← rd32 img off; if Z.land v 0x0FFFFFFF =? 0 then Some c else find_free_from img fs (c + 1) n'
  end.

Definition fat_find_free_cluster (img : list Z) (fs : fat32_fs_t) : option Z :=
  find_free_from img fs 2 (Z.to_nat (u32 (ff_cluster_count fs + 2) - 2)).

(** [for (i = 0; i < 8; i++) want[i] = name83[i] ? name83[i] : ' '] *)
Fixpoint name_field (name83 : list Z) (i n : nat) : option (list Z) :=
  match n with
  | O => Some []
  | S n' => c ← name83 !! i; rest ← name_field name83 (S i) n'; Some ((if c =? 0 then 32 else c) :: rest)
  end.

(** [wr16(e + 26, cluster); wr16(e + 20, cluster >> 16); wr32(e + 28, size)] at offset [off]. *)
Definition set_entry_file (img : list Z) (fat16 : bool) (off cluster size : Z) : option (list Z) :=
  img ← wr16 img (off + 26) (u16 cluster);
  img ← (if fat16 then Some img else wr16 img (off + 20) (u16 (Z.shiftr cluster 16)));
  wr32 img (off + 28) size.

(** One entry of the root directory: taken when it is free or has the name. *)
Definition root_entry_step (img : list Z) (fat16 : bool) (off : Z) (want : list Z) (cluster size : Z) : option (option (list Z)) :=
  let e := dir_entry img off in
  e0 ← e !! 0%nat;
  if (e0 =? 0x00) || (e0 =? 0xE5) then
    img ← memset img (Z.to_nat off) 0 32;
    img ← memcpy_obj img (Z.to_nat off) want 8;
    img ← put img (Z.to_nat (off + 11)) 0x20;
    img ← set_entry_file img fat16 off cluster size;
    Some (Some img)
  else
    attr ← e !! 11%nat;
    if negb fat16 && (attr =? 0x0F) then Some None
    else
      name ← format_83_name e 64;
      r ← f_stricmp name (want ++ [0]);
      if r =? 0 then img ← set_entry_file img fat16 off cluster size; Some (Some img) else Some None.

(** The inner [None] is the return of -1, before which nothing is written, and for a cluster also
    that its entries are used up. *)
Fixpoint root16_write (img : list Z) (fs : fat32_fs_t) (want : list Z) (cluster size off : Z) (n : nat) : option (option (list Z)) :=
  match n with
  | O => Some None
  | S n' =>
      let byte_off := u64 (u64 (ff_root_dir_sector fs * ff_bytes_per_sector fs) + off) in
      if ff_image_size fs <? u64 (byte_off + 32) then Some None
      else
        r ← root_entry_step img true byte_off want cluster size;
        match r with
        | Some img => Some (Some img)
        | None => root16_write img fs want cluster size (off + 32) n'
        end
  end.

Fixpoint cluster_write (img : list Z) (want : list Z) (cluster size off : Z) (n : nat) : option (option (list Z)) :=
  match n with
  | O => Some None
  | S n' =>
      r ← root_entry_step img false off want cluster size;
      match r with
      | Some img => Some (Some img)
      | None => cluster_write img want cluster size (off + 32) n'
      end
  end.

Fixpoint chain_write (fuel : nat) (img : list Z) (fs : fat32_fs_t) (want : list Z) (cluster size c : Z) : option (option (list Z)) :=
  if cluster_is_valid fs c && (c <? FAT32_CLUSTER_EOC) then
    match fuel with
    | O => None
    | S fuel' =>
        let coff := cluster_offset_bytes fs c in
        if ff_image_size fs <? u64 (coff + cluster_bytes fs) then Some None
        else
          r ← cluster_write img want cluster size coff (Z.to_nat (cluster_bytes fs / 32));
          match r with
          | Some img => Some (Some img)
          | None =>
              next ← fat_next_cluster img fs c;
              if FAT32_CLUSTER_EOC <=? next then Some None else chain_write fuel' img fs want cluster size next
          end
    end
  else Some None.

Definition fat_write_root_entry (img : list Z) (fs : fat32_fs_t) (name83 : list Z) (cluster size : Z) : option (option (list Z)) :=
  want ← name_field name83 0 8;
  if ff_fat16 fs then root16_write img fs want cluster size 0 (Z.to_nat (ff_root_dir_bytes fs / 32))
  else if negb (cluster_is_valid fs (ff_root_cluster fs)) then Some None
  else chain_write (chain_fuel fs) img fs want cluster size (ff_root_cluster fs).

(** [if (fs->fat16) fat_set16(fs, c, v16); else fat_set32(fs, c, v32)] *)
Definition fat_link (img : list Z) (fs : fat32_fs_t) (c v16 v32 : Z) : option (list Z) :=
  if ff_fat16 fs then fat_set16 img fs c (u16 v16) else fat_set32 img fs c v32.

(** [while (written < data_len)]; every round writes a byte or more. *)
Fixpoint write_data_loop (fuel : nat) (img : list Z) (fs : fat32_fs_t) (c : Z) (data : list Z) (written data_len : Z)
    : option (Z * list Z) :=
  if data_len <=? written then Some (0, img)
  else
    match fuel with
    | O => None
    | S fuel' =>
        if negb (cluster_is_valid fs c) then Some (-1, img)
        else
          let coff := cluster_offset_bytes fs c in
          if ff_image_size fs <? u64 (coff + cluster_bytes fs) then Some (-1, img)
          else
            let chunk := Z.min (cluster_bytes fs) (data_len - written) in
            img ← memcpy_obj img (Z.to_nat coff) (drop (Z.to_nat written) data) (Z.to_nat chunk);
            let written := written + chunk in
            if written <? data_len then
              next ← fat_find_free_cluster img fs;
              if next =? 0 then Some (-1, img)
              else img ← fat_link img fs c next next; write_data_loop fuel' img fs next data written data_len
            else img ← fat_link img fs c 0xFFFF FAT32_CLUSTER_EOC; Some (0, img)
    end.

Definition fat_write_file_data (img : list Z) (fs : fat32_fs_t) (cluster : Z) (data : list Z) (data_len : Z) : option (Z * list Z) :=
  write_data_loop (Z.to_nat data_len) img fs cluster data 0 data_len.

(** The return value and the volume; when a step fails, what was written before stays. *)
Definition fat32_image_upsert_file (ptr : Z) (img : list Z) (image_size : Z) (name83 data : option (list Z)) (data_len : Z)
    : option (Z * list Z) :=
  match name83, data with
  | Some name83, Some data =>
      if (image_size <? 512) || (data_len =? 0) then Some (-1, img)
      else
        h ← fat32_parse_header ptr img image_size;
        match h with
        | None => Some (-1, img)
        | Some fs =>
            if u32 (cluster_bytes fs * 16) <? data_len then Some (-1, img)
            else
              existing ← iter_dir_find img fs (if ff_fat16 fs then 0 else ff_root_cluster fs) (Some name83);
              cluster ← (match existing with
                | Some e => if 2 <=? fn_start_cluster e then Some (fn_start_cluster e) else fat_find_free_cluster img fs
                | None => fat_find_free_cluster img fs
                end);
              if cluster =? 0 then Some (-1, img)
              else
                '(rc, img) ← fat_write_file_data img fs cluster data data_len;
                if negb (rc =? 0) then Some (-1, img)
                else
                  r ← fat_write_root_entry img fs name83 cluster (u32 data_len);
                  Some (match r with None => (-1, img) | Some img => (0, img) end)
        end
  | _, _ => Some (-1, img)
  end.
