(* ===== verification/Fat32Spec.v ===== *)
(** * Correctness of the FAT file system

    [vol_ok] is what the check of the boot sector establishes.  On such a volume, whatever else its
    bytes are, no operation reads outside it.  A [chain] is the list of clusters of a file; reading
    returns the bytes of the clusters in the order of the chain, and a directory is searched like
    the list of its entries.  The last section shows where the code falls short. *)

From Stdlib Require Import ZArith Lia.
From stdpp Require Import base strings gmap list.
From S2P Require Import Prelude KString VfsPath Vfs VfsSpec Fat32.

Local Open Scope Z_scope.

Abbreviation bytes := (Forall (fun b => 0 <= b < 256)).

(** ** Integers in a volume *)

Lemma bytes_slice i n l : bytes l -> bytes (slice i n l).
Proof. intros H. by apply Forall_take, Forall_drop. Qed.

Lemma bytes_lookup l i b : bytes l -> l !! i = Some b -> 0 <= b < 256.
Proof. intros H Hi. by eapply Forall_lookup_1 in H. Qed.

Lemma rd16_spec p off :
  bytes p -> 0 <= off -> off + 2 <= Z.of_nat (length p) -> rd16 p off = Some (le_val (slice (Z.to_nat off) 2 p)).
Proof.
  intros Hb H0 Hl. unfold rd16. replace (Z.to_nat (off + 1)) with (S (Z.to_nat off)) by lia.
  destruct (lookup_lt_is_Some_2 p (Z.to_nat off)) as [b0 E0]; [lia|]. destruct (lookup_lt_is_Some_2 p (S (Z.to_nat off))) as [b1 E1]; [lia|].
  rewrite E0, E1. cbn [mbind option_bind]. rewrite (slice_S _ _ _ _ E0), (slice_S _ _ _ _ E1). unfold slice. rewrite take_0.
  pose proof (bytes_lookup _ _ _ Hb E0). rewrite lor_shiftl by lia. cbn [le_val]. f_equal. lia.
Qed.

Lemma rd32_spec p off :
  bytes p -> 0 <= off -> off + 4 <= Z.of_nat (length p) -> rd32 p off = Some (le_val (slice (Z.to_nat off) 4 p)).
Proof.
  intros Hb H0 Hl. unfold rd32. set (i := Z.to_nat off).
  replace (Z.to_nat (off + 1)) with (S i) by lia. replace (Z.to_nat (off + 2)) with (S (S i)) by lia.
  replace (Z.to_nat (off + 3)) with (S (S (S i))) by lia.
  destruct (lookup_lt_is_Some_2 p i) as [b0 E0]; [lia|]. destruct (lookup_lt_is_Some_2 p (S i)) as [b1 E1]; [lia|].
  destruct (lookup_lt_is_Some_2 p (S (S i))) as [b2 E2]; [lia|]. destruct (lookup_lt_is_Some_2 p (S (S (S i)))) as [b3 E3]; [lia|].
  rewrite E0, E1, E2, E3. cbn [mbind option_bind].
  rewrite (slice_S _ _ _ _ E0), (slice_S _ _ _ _ E1), (slice_S _ _ _ _ E2), (slice_S _ _ _ _ E3). unfold slice. rewrite take_0.
  pose proof (bytes_lookup _ _ _ Hb E0). pose proof (bytes_lookup _ _ _ Hb E1). pose proof (bytes_lookup _ _ _ Hb E2).
  rewrite (lor_shiftl b0), (lor_shiftl _ b2), (lor_shiftl _ b3) by lia. cbn [le_val]. f_equal. lia.
Qed.

Lemma slice_val_range i n p : bytes p -> (i + n <= length p)%nat -> 0 <= le_val (slice i n p) < 256 ^ Z.of_nat n.
Proof. intros Hb Hl. pose proof (le_val_range (slice i n p) (bytes_slice _ _ _ Hb)) as H. by rewrite length_slice in H. Qed.

Lemma rd16_ok p off : bytes p -> 0 <= off -> off + 2 <= Z.of_nat (length p) -> exists v, rd16 p off = Some v /\ 0 <= v < 2 ^ 16.
Proof.
  intros Hb H0 Hl. rewrite rd16_spec by done. eexists. split; [done|].
  pose proof (slice_val_range (Z.to_nat off) 2 p Hb ltac:(lia)). simpl in *. lia.
Qed.

Lemma rd32_ok p off : bytes p -> 0 <= off -> off + 4 <= Z.of_nat (length p) -> exists v, rd32 p off = Some v /\ 0 <= v < 2 ^ 32.
Proof.
  intros Hb H0 Hl. rewrite rd32_spec by done. eexists. split; [done|].
  pose proof (slice_val_range (Z.to_nat off) 4 p Hb ltac:(lia)). simpl in *. lia.
Qed.

(** ** The geometry of a volume *)

Record vol_ok (fs : fat32_fs_t) (img : list Z) : Prop := {
  vo_bytes : bytes img;
  vo_size : 0 <= ff_image_size fs <= Z.of_nat (length img);
  vo_lim : ff_image_size fs < 2 ^ 32 - 2;
  vo_bps : 0 < ff_bytes_per_sector fs < 2 ^ 16;
  vo_spc : 0 < ff_sectors_per_cluster fs < 2 ^ 8;
  vo_res : 0 <= ff_reserved_sectors fs < 2 ^ 16;
  vo_data : 0 <= ff_data_start_sector fs < 2 ^ 32;
  vo_count : 2 <= ff_cluster_count fs < 2 ^ 32 - 2;
  vo_root : 0 <= ff_root_cluster fs < 2 ^ 32;
  vo_rsec : 0 <= ff_root_dir_sector fs < 2 ^ 32;
  vo_rbytes : 0 <= ff_root_dir_bytes fs < 2 ^ 32;
  vo_in : (ff_data_start_sector fs + ff_cluster_count fs * ff_sectors_per_cluster fs) * ff_bytes_per_sector fs <= ff_image_size fs;
}.

Section volume.
Context (fs : fat32_fs_t) (img : list Z) (V : vol_ok fs img).

Lemma cluster_bytes_eq : cluster_bytes fs = ff_bytes_per_sector fs * ff_sectors_per_cluster fs /\ 0 < cluster_bytes fs < 2 ^ 24.
Proof using V. destruct V. unfold cluster_bytes. rewrite u32_small by nia. split; [done|nia]. Qed.

Lemma cluster_valid_iff c : cluster_is_valid fs c = true <-> 2 <= c < ff_cluster_count fs + 2.
Proof using V. destruct V. unfold cluster_is_valid. rewrite u32_small by lia. lia. Qed.

Lemma cluster_offset_eq c : 2 <= c < ff_cluster_count fs + 2 ->
  cluster_offset_bytes fs c = (ff_data_start_sector fs + (c - 2) * ff_sectors_per_cluster fs) * ff_bytes_per_sector fs /\
  0 <= cluster_offset_bytes fs c < 2 ^ 60.
Proof using V.
  intros Hc. destruct V. unfold cluster_offset_bytes. rewrite (u32_small (c - 2)) by lia.
  assert (0 <= (c - 2) * ff_sectors_per_cluster fs < 2 ^ 40) by nia.
  rewrite (u64_small ((c - 2) * _)) by lia. rewrite (u64_small (ff_data_start_sector fs + _)) by lia.
  assert (0 <= (ff_data_start_sector fs + (c - 2) * ff_sectors_per_cluster fs) * ff_bytes_per_sector fs < 2 ^ 60) by nia.
  rewrite u64_small by lia. done.
Qed.

Lemma fat_entry_eq c w : 0 <= c < 2 ^ 32 -> 0 <= w <= 4 ->
  fat_entry_off fs c w = ff_reserved_sectors fs * ff_bytes_per_sector fs + c * w /\ 0 <= fat_entry_off fs c w < 2 ^ 40.
Proof using V.
  intros Hc Hw. destruct V. unfold fat_entry_off. assert (0 <= ff_reserved_sectors fs * ff_bytes_per_sector fs < 2 ^ 32) by nia.
  assert (0 <= c * w < 2 ^ 35) by nia. rewrite !u64_small by (rewrite ?u64_small by lia; lia). split; [done|lia].
Qed.

(** Following a chain never leaves the volume. *)
Lemma fat_next_ok c : 0 <= c < 2 ^ 32 -> exists v, fat_next_cluster img fs c = Some v /\ 0 <= v < 2 ^ 32.
Proof using V.
  intros Hc. unfold fat_next_cluster. destruct (fat_entry_eq c 2 Hc ltac:(lia)) as [_ H2]. destruct (fat_entry_eq c 4 Hc ltac:(lia)) as [_ H4].
  pose proof (vo_size _ _ V) as Hs. destruct (ff_fat16 fs).
  - rewrite u64_small by lia. destruct (Z.ltb_spec (ff_image_size fs) (fat_entry_off fs c 2 + 2)); [by eexists|].
    destruct (rd16_ok img (fat_entry_off fs c 2) (vo_bytes _ _ V)) as (v & -> & Hv); [lia|lia|]. cbn [mbind option_bind].
    eexists. split; [done|]. unfold FAT32_CLUSTER_EOC. destruct (_ <=? _); lia.
  - rewrite u64_small by lia. destruct (Z.ltb_spec (ff_image_size fs) (fat_entry_off fs c 4 + 4)); [by eexists|].
    destruct (rd32_ok img (fat_entry_off fs c 4) (vo_bytes _ _ V)) as (v & -> & Hv); [lia|lia|]. cbn [mbind option_bind].
    eexists. split; [done|]. change 0x0FFFFFFF with (Z.ones 28). rewrite Z.land_ones by lia. pose proof (Z.mod_pos_bound v (2 ^ 28)). lia.
Qed.

End volume.

(** ** The boot sector *)

Ltac read_field H := let v := fresh "v" in let E := fresh "E" in let R := fresh "R" in
  destruct H as (v & E & R); [assumption|lia|lia|]; rewrite E; clear E; cbn [mbind option_bind].

(** Every cluster lies inside the volume, behind the table, apart from the others. *)
Lemma cluster_range fs img c : vol_ok fs img -> cluster_is_valid fs c = true ->
  ff_data_start_sector fs * ff_bytes_per_sector fs <= cluster_offset_bytes fs c /\
  cluster_offset_bytes fs c + cluster_bytes fs <= ff_image_size fs.
Proof.
  intros V Hv. apply (cluster_valid_iff fs img V) in Hv. destruct (cluster_offset_eq fs img V c Hv) as [E _].
  destruct (cluster_bytes_eq fs img V) as [Ecb _]. pose proof (vo_in _ _ V). pose proof (vo_bps _ _ V). pose proof (vo_spc _ _ V).
  pose proof (vo_data _ _ V). rewrite E, Ecb. split; [nia|].
  transitivity ((ff_data_start_sector fs + ff_cluster_count fs * ff_sectors_per_cluster fs) * ff_bytes_per_sector fs); [|done].
  replace (_ * _ + _ * _) with ((ff_data_start_sector fs + (c - 1) * ff_sectors_per_cluster fs) * ff_bytes_per_sector fs) by lia.
  apply Z.mul_le_mono_nonneg_r; [lia|]. apply Z.add_le_mono_l, Z.mul_le_mono_nonneg_r; lia.
Qed.

Lemma clusters_apart fs img c d : vol_ok fs img -> cluster_is_valid fs c = true -> cluster_is_valid fs d = true -> c <> d ->
  cluster_offset_bytes fs c + cluster_bytes fs <= cluster_offset_bytes fs d \/
  cluster_offset_bytes fs d + cluster_bytes fs <= cluster_offset_bytes fs c.
Proof.
  intros V Hc%(cluster_valid_iff fs img V) Hd%(cluster_valid_iff fs img V) Hne. destruct (cluster_bytes_eq fs img V) as [Ecb _].
  destruct (cluster_offset_eq fs img V c Hc) as [Ec _]. destruct (cluster_offset_eq fs img V d Hd) as [Ed _].
  pose proof (vo_bps _ _ V). pose proof (vo_spc _ _ V). rewrite Ec, Ed, Ecb.
  assert (forall x y, x < y -> (ff_data_start_sector fs + (x - 2) * ff_sectors_per_cluster fs) * ff_bytes_per_sector fs +
    ff_bytes_per_sector fs * ff_sectors_per_cluster fs <= (ff_data_start_sector fs + (y - 2) * ff_sectors_per_cluster fs) * ff_bytes_per_sector fs) as Hlt.
  { intros x y Hxy. replace (_ * _ + _ * _) with ((ff_data_start_sector fs + (x - 1) * ff_sectors_per_cluster fs) * ff_bytes_per_sector fs) by lia.
    apply Z.mul_le_mono_nonneg_r; [lia|]. apply Z.add_le_mono_l, Z.mul_le_mono_nonneg_r; lia. }
  destruct (Z.lt_total c d) as [?|[?|?]]; [left; by apply Hlt|done|right; by apply Hlt].
Qed.

Lemma parse_header_spec ptr img sz :
  bytes img -> 0 <= sz <= Z.of_nat (length img) -> sz < 2 ^ 32 - 2 ->
  exists r, fat32_parse_header ptr img sz = Some r /\ forall fs, r = Some fs -> vol_ok fs img /\ ff_image fs = ptr /\ ff_image_size fs = sz /\
    (ff_fat16 fs = true -> ff_root_dir_sector fs = ff_data_start_sector fs).
Proof.
  intros Hb Hsz Hlim. unfold fat32_parse_header. destruct (Z.ltb_spec sz 512) as [|H512]; [by exists None|].
  destruct (lookup_lt_is_Some_2 img 510) as [s0 ->]; [lia|]. destruct (lookup_lt_is_Some_2 img 511) as [s1 ->]; [lia|]. cbn [mbind option_bind].
  destruct (negb (s0 =? 85) || negb (s1 =? 170)); [by exists None|].
  read_field (rd16_ok img 11). destruct (lookup_lt_is_Some_2 img 13) as [spc Espc]; [lia|]. rewrite Espc.
  cbn [mbind option_bind]. read_field (rd16_ok img 14). destruct (lookup_lt_is_Some_2 img 16) as [fats Efats]; [lia|]. rewrite Efats.
  cbn [mbind option_bind]. read_field (rd16_ok img 19). read_field (rd32_ok img 32). read_field (rd16_ok img 22).
  read_field (rd32_ok img 36). read_field (rd32_ok img 44).
  pose proof (bytes_lookup _ _ _ Hb Espc) as Hspc. pose proof (bytes_lookup _ _ _ Hb Efats) as Hfats.
  rename v into bps, v0 into reserved, v1 into t16, v2 into t32, v3 into fsz16, v4 into fsz32, v5 into rc.
  destruct (_ || _ || _ || _ || _ || _) eqn:Hz; [by exists None|].
  set (fsz := if fsz16 =? 0 then fsz32 else fsz16) in *. set (tot := if t16 =? 0 then t32 else t16) in *.
  repeat (apply orb_false_iff in Hz as [Hz ?Hn]). repeat match goal with H : (_ =? _) = false |- _ => apply Z.eqb_neq in H end.
  assert (0 <= sz / bps <= sz) as Hdiv by (split; [apply Z.div_pos; lia|apply Z.div_le_upper_bound; nia]).
  rewrite (u32_small (sz / bps)) by lia. destruct (_ <? _); [by exists None|].
  pose proof (u32_range (reserved + u32 (fats * fsz))) as Hds. set (ds := u32 (reserved + u32 (fats * fsz))) in *.
  set (tot' := if sz / bps <? tot then sz / bps else tot).
  assert (tot' <= sz / bps) as Htot by (unfold tot'; destruct (Z.ltb_spec (sz / bps) tot); lia).
  destruct (Z.leb_spec tot' ds); [by exists None|]. destruct (Z.ltb_spec ((tot' - ds) / spc) 2) as [|Hcl]; [by exists None|].
  assert ((tot' - ds) / spc < 2 ^ 32 - 2) as Hcl' by (apply Z.div_lt_upper_bound; nia).
  assert ((ds + (tot' - ds) / spc * spc) * bps <= sz) as Hin.
  { pose proof (Z.mul_div_le (tot' - ds) spc ltac:(lia)). pose proof (Z.mul_div_le sz bps ltac:(lia)). nia. }
  destruct ((fsz16 =? 0) && negb (fsz32 =? 0)) eqn:H32; cbn [andb].
  - destruct (Z.leb_spec 2 rc); [|by exists None]. eexists. split; [done|]. intros fs [= <-].
    split; [split; simpl; auto; lia|]. by repeat split.
  - read_field (rd16_ok img 17). eexists. split; [done|]. intros fs [= <-].
    split; [split; simpl; auto; try lia|by repeat split]. apply u32_range.
Qed.

(** ** Chains of clusters *)

Definition stops (fs : fat32_fs_t) (next : Z) : bool := (FAT32_CLUSTER_EOC <=? next) || negb (cluster_is_valid fs next).

(** The clusters that the table links, starting with [c]; each lies inside the volume. *)
Fixpoint fat_chain (img : list Z) (fs : fat32_fs_t) (c : Z) (cs : list Z) : Prop :=
  match cs with
  | [] => False
  | x :: cs' =>
      x = c /\ cluster_is_valid fs c = true /\ cluster_offset_bytes fs c + cluster_bytes fs <= ff_image_size fs /\
      exists next, fat_next_cluster img fs c = Some next /\
        match cs' with [] => stops fs next = true | _ => stops fs next = false /\ fat_chain img fs next cs' end
  end.

Definition cluster_data (img : list Z) (fs : fat32_fs_t) (c : Z) : list Z :=
  slice (Z.to_nat (cluster_offset_bytes fs c)) (Z.to_nat (cluster_bytes fs)) img.

(** The bytes of a chain. *)
Definition chain_data (img : list Z) (fs : fat32_fs_t) (cs : list Z) : list Z := concat (cluster_data img fs <$> cs).

Lemma chain_data_cons img fs c cs : chain_data img fs (c :: cs) = cluster_data img fs c ++ chain_data img fs cs.
Proof. done. Qed.

Lemma stops_false fs next : stops fs next = false -> cluster_is_valid fs next = true /\ next < FAT32_CLUSTER_EOC.
Proof. unfold stops. intros [H1 H2]%orb_false_iff. apply negb_false_iff in H2. split; [done|lia]. Qed.

Section reading.
Context (fs : fat32_fs_t) (img : list Z) (V : vol_ok fs img).

Lemma length_cluster_data c :
  cluster_is_valid fs c = true -> cluster_offset_bytes fs c + cluster_bytes fs <= ff_image_size fs ->
  length (cluster_data img fs c) = Z.to_nat (cluster_bytes fs).
Proof using V.
  intros Hv%(cluster_valid_iff fs img V) Hin. destruct (cluster_offset_eq fs img V c Hv) as [_ Ho].
  pose proof (proj2 (cluster_bytes_eq fs img V)). pose proof (vo_size _ _ V). apply length_slice. lia.
Qed.

(** A valid cluster: the check against the size of the volume is exact. *)
Lemma offset_check c : cluster_is_valid fs c = true ->
  (ff_image_size fs <? u64 (cluster_offset_bytes fs c + cluster_bytes fs)) = (ff_image_size fs <? cluster_offset_bytes fs c + cluster_bytes fs).
Proof using V.
  intros Hv%(cluster_valid_iff fs img V). destruct (cluster_offset_eq fs img V c Hv) as [_ Ho].
  pose proof (proj2 (cluster_bytes_eq fs img V)). by rewrite u64_small by lia.
Qed.

Lemma valid_u32 c : cluster_is_valid fs c = true -> 0 <= c < 2 ^ 32.
Proof using V. intros Hv%(cluster_valid_iff fs img V). pose proof (vo_count _ _ V). lia. Qed.

(** Skipping clusters ends at a valid one, or with an error. *)
Lemma skip_total k c : cluster_is_valid fs c = true ->
  exists r, skip_clusters img fs c k = Some r /\ match r with inl e => e = VFS_ERR | inr c' => cluster_is_valid fs c' = true end.
Proof using V.
  revert c. induction k as [|k IH]; intros c Hv; cbn [skip_clusters]; [by eexists|].
  destruct (fat_next_ok fs img V c (valid_u32 c Hv)) as (v & -> & Hr). cbn [mbind option_bind].
  fold (stops fs v). destruct (stops fs v) eqn:Hs; [by eexists|]. by apply IH, stops_false.
Qed.

Lemma skip_chain k c cs : fat_chain img fs c cs -> (k < length cs)%nat ->
  exists c', skip_clusters img fs c k = Some (inr c') /\ fat_chain img fs c' (drop k cs).
Proof using V.
  revert c cs. induction k as [|k IH]; intros c cs Hc Hk; cbn [skip_clusters]; [by exists c|].
  destruct cs as [|x cs]; [done|]. destruct Hc as (-> & Hv & _ & next & -> & Hnext). cbn [mbind option_bind length] in *.
  destruct cs as [|y cs]; [simpl in Hk; lia|]. destruct Hnext as [Hs Hc]. fold (stops fs next). rewrite Hs.
  apply (IH next (y :: cs) Hc). simpl in *. lia.
Qed.

(** A read stays inside the volume and the buffer. *)
Lemma read_loop_total fuel : forall c inc buf done need,
  cluster_is_valid fs c = true -> 0 <= inc < cluster_bytes fs -> 0 <= done -> need <= Z.of_nat (length buf) -> need - done <= Z.of_nat fuel ->
  exists rc buf' done', read_loop fuel img fs c inc buf done need = Some (rc, buf', done') /\ length buf' = length buf /\
    (rc = 0 \/ rc = VFS_ERR) /\ (done <= need -> done <= done' <= need).
Proof using V.
  pose proof (proj2 (cluster_bytes_eq fs img V)) as Hcb. pose proof (vo_size _ _ V) as Hsz.
  induction fuel as [|fuel IH]; intros c inc buf done need Hv Hinc Hd Hn Hf; cbn [read_loop];
    (destruct (Z.leb_spec need done); [exists 0, buf, done; split_and!; auto; lia|]); [lia|].
  rewrite offset_check by done. destruct (Z.ltb_spec (ff_image_size fs) (cluster_offset_bytes fs c + cluster_bytes fs)) as [|Hin].
  { exists VFS_ERR, buf, done. split_and!; auto; lia. }
  destruct (cluster_offset_eq fs img V c (proj1 (cluster_valid_iff fs img V c) Hv)) as [_ Ho].
  set (chunk := Z.min (cluster_bytes fs - inc) (need - done)). assert (0 < chunk <= need - done) as Hch by lia.
  rewrite memcpy_obj_spec by (rewrite ?length_drop; lia). cbn [mbind option_bind].
  set (buf' := list_inserts _ _ buf). assert (length buf' = length buf) as Hl by apply length_inserts.
  destruct (Z.ltb_spec (done + chunk) need); [|exists 0, buf', (done + chunk); split_and!; auto; lia].
  destruct (fat_next_ok fs img V c (valid_u32 c Hv)) as (v & -> & Hr). cbn [mbind option_bind].
  fold (stops fs v). destruct (stops fs v) eqn:Hs; [exists 0, buf', (done + chunk); split_and!; auto; lia|].
  destruct (IH v 0 buf' (done + chunk) need) as (rc & b & d & E & Hlb & Hrc & Hd'); [by apply stops_false|lia|lia|lia|lia|].
  exists rc, b, d. split_and!; [done|lia|done|lia].
Qed.

(** Following a chain, a read gets the bytes of the chain. *)
Lemma read_loop_chain fuel : forall c cs inc buf done need,
  fat_chain img fs c cs -> 0 <= inc < cluster_bytes fs -> 0 <= done <= need -> need <= Z.of_nat (length buf) -> need - done <= Z.of_nat fuel ->
  need - done <= Z.of_nat (length (drop (Z.to_nat inc) (chain_data img fs cs))) ->
  read_loop fuel img fs c inc buf done need =
    Some (0, list_inserts (Z.to_nat done) (take (Z.to_nat (need - done)) (drop (Z.to_nat inc) (chain_data img fs cs))) buf, need).
Proof using V.
  pose proof (proj2 (cluster_bytes_eq fs img V)) as Hcb. pose proof (vo_size _ _ V) as Hsz.
  induction fuel as [|fuel IH]; intros c cs inc buf done need Hc Hinc Hd Hn Hf Hlen; cbn [read_loop];
    (destruct (Z.leb_spec need done); [assert (done = need) as -> by lia; rewrite Z.sub_diag; by rewrite take_0|]); [lia|].
  destruct cs as [|x cs]; [done|]. destruct Hc as (-> & Hv & Hin & next & Enext & Hnext).
  rewrite offset_check by done. destruct (Z.ltb_spec (ff_image_size fs) (cluster_offset_bytes fs c + cluster_bytes fs)) as [|_]; [lia|].
  destruct (cluster_offset_eq fs img V c (proj1 (cluster_valid_iff fs img V c) Hv)) as [_ Ho].
  pose proof (length_cluster_data c Hv Hin) as Hld. rewrite chain_data_cons in *. set (D := cluster_data img fs c) in *.
  rewrite drop_app_le in * by lia. rewrite length_app, length_drop in Hlen.
  set (chunk := Z.min (cluster_bytes fs - inc) (need - done)). assert (0 < chunk <= need - done) as Hch by lia.
  assert (take (Z.to_nat chunk) (drop (Z.to_nat (cluster_offset_bytes fs c + inc)) img) = take (Z.to_nat chunk) (drop (Z.to_nat inc) D)) as Htake.
  { unfold D, cluster_data, slice. rewrite skipn_firstn_comm, take_take, drop_drop. f_equal; [lia|f_equal; lia]. }
  rewrite memcpy_obj_spec by (rewrite ?length_drop; lia). rewrite Htake. cbn [mbind option_bind].
  assert (length (take (Z.to_nat chunk) (drop (Z.to_nat inc) D)) = Z.to_nat chunk) as Hlt by (rewrite length_take, length_drop; lia).
  destruct (Z.ltb_spec (done + chunk) need) as [Hlt'|Hge].
  2: { assert (need - done = chunk) as -> by lia. rewrite take_app_le by (rewrite length_drop; lia). do 2 f_equal. lia. }
  assert (chunk = cluster_bytes fs - inc) as Hck by lia. rewrite Enext. cbn [mbind option_bind].
  destruct cs as [|y cs]; [unfold chain_data in Hlen; simpl in Hlen; lia|]. destruct Hnext as [Hs Hc]. fold (stops fs next). rewrite Hs.
  rewrite (IH next (y :: cs)); [|done|lia|lia|rewrite length_inserts; lia|lia|rewrite drop_0; lia]. rewrite drop_0. do 3 f_equal.
  replace (Z.to_nat (done + chunk)) with (Z.to_nat done + length (take (Z.to_nat chunk) (drop (Z.to_nat inc) D)))%nat by lia.
  rewrite inserts_app. f_equal. rewrite take_app_ge by (rewrite length_drop; lia). rewrite length_drop, Hld.
  rewrite take_ge by (rewrite length_drop; lia). do 2 f_equal. lia.
Qed.
End reading.

(** ** One directory entry *)

(** A buffer that holds a terminated string. *)
Abbreviation terminated l := (0 ∈ (l : list Z)).

Lemma stricmp_total a b : terminated a -> terminated b -> exists r, f_stricmp a b = Some r.
Proof.
  revert b. induction a as [|x a IH]; intros b Ha Hb; [by apply not_elem_of_nil in Ha|].
  destruct b as [|y b]; [by apply not_elem_of_nil in Hb|]. cbn [f_stricmp].
  destruct (Z.eqb_spec x 0) as [->|Hx]; [by eexists|]. destruct (Z.eqb_spec y 0) as [->|Hy]; [by eexists|]. cbn [orb].
  destruct (_ =? _); [|by eexists]. apply IH; [apply elem_of_cons in Ha as [?|?]|apply elem_of_cons in Hb as [?|?]]; congruence || done.
Qed.

Lemma copy_chars_ok dst src i n :
  (i + n <= length dst)%nat -> (exists j, (i <= j)%nat /\ src !! j = Some 0) ->
  exists r, copy_chars dst src i n = Some r /\ length r = length dst /\ (forall j, (i + n <= j)%nat -> r !! j = dst !! j).
Proof.
  revert dst i. induction n as [|n IH]; intros dst i Hl (j & Hj & E); cbn [copy_chars]; [by exists dst|].
  destruct (lookup_lt_is_Some_2 src i) as [c Hc]; [apply lookup_lt_Some in E; lia|]. rewrite Hc. cbn [mbind option_bind].
  destruct (Z.eqb_spec c 0); [by exists dst|]. unfold put. rewrite decide_True by lia. cbn [mbind option_bind].
  destruct (IH (<[i := c]> dst) (S i)) as (r & Er & Hr & Hk); [rewrite length_insert; lia| |].
  { exists j. split; [|done]. destruct (decide (i = j)) as [->|]; [congruence|lia]. }
  exists r. rewrite length_insert in Hr. split_and!; [done|done|]. intros k Hk'. rewrite Hk by lia. apply list_lookup_insert_ne. lia.
Qed.

Lemma terminated_from l : terminated l -> exists j, (0 <= j)%nat /\ l !! j = Some 0.
Proof. intros [j Hj]%list_elem_of_lookup_1. exists j. split; [lia|done]. Qed.

Lemma copy83_ok e i n out sz : (i + n <= length e)%nat -> exists out', copy83 e i n out sz = Some out'.
Proof.
  revert i out. induction n as [|n IH]; intros i out Hl; cbn [copy83]; [by eexists|]. destruct (_ <? _)%nat; [|by eexists].
  destruct (lookup_lt_is_Some_2 e i) as [c ->]; [lia|]. cbn [mbind option_bind]. destruct (_ =? _); [by eexists|]. apply IH. lia.
Qed.

Lemma has_ext_ok e i n : (i + n <= length e)%nat -> exists b, has_ext e i n = Some b.
Proof.
  revert i. induction n as [|n IH]; intros i Hl; cbn [has_ext]; [by eexists|].
  destruct (lookup_lt_is_Some_2 e i) as [c ->]; [lia|]. cbn [mbind option_bind]. destruct (_ =? _); [|by eexists]. apply IH. lia.
Qed.

Lemma format_83_ok e sz : length e = 32%nat -> exists nm, format_83_name e sz = Some nm /\ terminated nm.
Proof.
  intros Hl. unfold format_83_name. destruct (copy83_ok e 0 8 [] sz) as [o1 ->]; [lia|]. cbn [mbind option_bind].
  destruct (has_ext_ok e 8 3) as [x ->]; [lia|]. cbn [mbind option_bind].
  destruct (copy83_ok e 8 3 (if x && (length o1 + 1 <? sz)%nat then o1 ++ [46] else o1) sz) as [o2 ->]; [lia|]. cbn [mbind option_bind].
  eexists. split; [done|]. set_solver.
Qed.

Lemma lfn_chars_ok offs e buf sz len :
  Forall (fun o => (S o < length e)%nat) offs -> (sz <= length buf)%nat -> (len < sz)%nat ->
  exists buf' len', lfn_chars offs e buf sz len = Some (buf', len') /\ length buf' = length buf /\ (len' < sz)%nat.
Proof.
  revert buf len. induction offs as [|o offs IH]; intros buf len Ho Hs Hl; cbn [lfn_chars]; [by do 2 eexists|].
  apply Forall_cons in Ho as [Ho Hos]. destruct (Nat.ltb_spec (len + 1) sz); [|by do 2 eexists].
  destruct (lookup_lt_is_Some_2 e o) as [lo ->]; [lia|]. destruct (lookup_lt_is_Some_2 e (S o)) as [hi ->]; [lia|]. cbn [mbind option_bind].
  destruct (_ || _); [by do 2 eexists|]. unfold put. rewrite decide_True by lia. cbn [mbind option_bind].
  destruct (IH (<[len := (if Z.land (Z.lor lo (Z.shiftl hi 8)) 127 =? 0 then 63 else Z.land (Z.lor lo (Z.shiftl hi 8)) 255)]> buf) (S len) Hos)
    as (b & l & E & Hb & Hl'); [rewrite length_insert; lia|lia|]. rewrite length_insert in Hb. by exists b, l.
Qed.

(** The characters of a long name so far. *)
Definition lfn_ok (lfn : list Z * nat) : Prop :=
  length (fst lfn) = LFN_BUF /\ (snd lfn < LFN_BUF)%nat /\ ((0 < snd lfn)%nat -> terminated (fst lfn)).

Lemma lfn_extract_ok e buf : length e = 32%nat -> length buf = LFN_BUF ->
  exists buf' len', lfn_extract e buf LFN_BUF 0 = Some (buf', len') /\ length buf' = LFN_BUF /\ (len' < LFN_BUF)%nat.
Proof.
  intros He Hb. unfold lfn_extract. destruct (lfn_chars_ok lfn_offsets e buf LFN_BUF 0) as (b & l & E & Hb' & Hl).
  - rewrite He. repeat constructor.
  - lia.
  - unfold LFN_BUF. lia.
  - exists b, l. split_and!; [done|lia|done].
Qed.

Lemma lfn_step_ok e lfn : length e = 32%nat -> lfn_ok lfn -> exists lfn', lfn_step e lfn = Some lfn' /\ lfn_ok lfn'.
Proof.
  destruct lfn as [buf len]. intros He (Hb & Hl & _). cbn [fst snd] in *. unfold lfn_step.
  destruct (lookup_lt_is_Some_2 e 0) as [sq ->]; [lia|]. cbn [mbind option_bind].
  assert (forall b l, length b = LFN_BUF -> (l < LFN_BUF)%nat -> exists lfn', (b' ← put b l 0; Some (b', l)) = Some lfn' /\ lfn_ok lfn') as Hput.
  { intros b l Hb' Hl'. unfold put. rewrite decide_True by lia. cbn [mbind option_bind]. eexists. split; [done|].
    split_and!; cbn [fst snd]; [by rewrite length_insert|done|]. intros _. eapply list_elem_of_lookup_2, list_lookup_insert_eq. lia. }
  destruct (negb (Z.land sq 64 =? 0)).
  - destruct (lfn_extract_ok e buf He Hb) as (b & l & -> & Hb' & Hl'). cbn [mbind option_bind]. by apply Hput.
  - destruct (lfn_extract_ok e (replicate LFN_BUF 0) He) as (b & l & -> & Hb' & Hl'); [apply length_replicate|]. cbn [mbind option_bind].
    destruct (Nat.ltb_spec (l + len) LFN_BUF); [|by apply Hput].
    pose proof (memmove_back_spec buf l 0 len ltac:(lia) ltac:(lia)) as Em. simpl (0 + len)%nat in Em. rewrite Em. cbn [mbind option_bind].
    rewrite memcpy_obj_spec by (rewrite ?length_inserts; lia). cbn [mbind option_bind]. apply Hput; [by rewrite !length_inserts|lia].
Qed.

(** What every node that a search returns satisfies. *)
Record fnode_ok (n : fat32_node_t) : Prop := {
  fk_len : length (fn_name n) = 64%nat;
  fk_end : fn_name n !! 63%nat = Some 0;
  fk_start : 0 <= fn_start_cluster n < 2 ^ 32;
  fk_size : 0 <= fn_size n < 2 ^ 32;
}.

Lemma name_copy_ok src : terminated src ->
  exists nm, copy_chars (replicate 64 0) src 0 63 = Some nm /\ length nm = 64%nat /\ nm !! 63%nat = Some 0.
Proof.
  intros Hs. destruct (copy_chars_ok (replicate 64 0) src 0 63) as (nm & -> & Hl & Hk); [simpl; lia|by apply terminated_from|].
  exists nm. split_and!; [done|done|]. by rewrite Hk by lia.
Qed.

Section entry.
Context (fs : fat32_fs_t) (Hroot : 0 <= ff_root_cluster fs < 2 ^ 32).

Lemma entry_node_ok root16 e lfn nm : length e = 32%nat -> bytes e -> lfn_ok lfn -> terminated nm ->
  exists n, entry_node fs root16 e lfn nm = Some n /\ fnode_ok n.
Proof using Hroot.
  intros He Hb (Hlen & _ & Hterm) Hnm. unfold entry_node.
  destruct (lookup_lt_is_Some_2 (fst lfn) 0) as [c0 ->]; [unfold LFN_BUF in Hlen; lia|]. cbn [mbind option_bind].
  match goal with |- context [copy_chars _ ?x _ _] => set (stored := x) end. assert (terminated stored) as Hst.
  { unfold stored. destruct (Nat.ltb_spec 0 (snd lfn)); cbn [andb]; [|done]. destruct (_ || _); auto. }
  destruct (name_copy_ok stored Hst) as (name & -> & Hn1 & Hn2). cbn [mbind option_bind].
  destruct (lookup_lt_is_Some_2 e 11) as [attr ->]; [lia|]. cbn [mbind option_bind].
  read_field (rd16_ok e 26). rename v into lo.
  assert (exists hi, (if root16 then Some 0 else rd16 e 20) = Some hi /\ 0 <= hi < 2 ^ 16) as (hi & -> & Hhi).
  { destruct root16; [by exists 0|]. apply rd16_ok; [done|lia|lia]. }
  cbn [mbind option_bind]. read_field (rd32_ok e 28). rename v into size. eexists. split; [done|].
  assert (0 <= Z.lor (Z.shiftl hi 16) lo < 2 ^ 32) as Hst'.
  { rewrite Z.lor_comm, lor_shiftl by lia. lia. }
  split; cbn [fn_name fn_start_cluster fn_size]; [done|done| |done]. destruct (_ && _ && _); [exact Hroot|exact Hst'].
Qed.

Lemma find_step_ok root16 e want lfn : length e = 32%nat -> bytes e -> lfn_ok lfn -> (forall w, want = Some w -> terminated w) ->
  exists r, find_step fs root16 e want lfn = Some r /\
    match r with ScanNext lfn' => lfn_ok lfn' | ScanFound n => fnode_ok n | ScanEnd => True end.
Proof using Hroot.
  intros He Hb Hlfn Hw. unfold find_step. destruct (lookup_lt_is_Some_2 e 0) as [e0 ->]; [lia|]. cbn [mbind option_bind].
  assert (lfn_ok (fst lfn, 0%nat)) as H0 by (destruct Hlfn as (? & ? & _); split_and!; cbn [fst snd]; [done|unfold LFN_BUF; lia|lia]).
  destruct (e0 =? 0); [by eexists|]. destruct (e0 =? 229); [by eexists|].
  destruct (lookup_lt_is_Some_2 e 11) as [attr ->]; [lia|]. cbn [mbind option_bind]. destruct (attr =? 15).
  { destruct (lfn_step_ok e lfn He Hlfn) as (lfn' & -> & ?). by eexists. }
  destruct (format_83_ok e 64 He) as (nm & -> & Hnm). cbn [mbind option_bind].
  assert (exists m, name_matches lfn nm want = Some m) as [m ->].
  { unfold name_matches. destruct want as [w|]; [|by eexists]. specialize (Hw w eq_refl). destruct Hlfn as (_ & _ & Ht).
    destruct (stricmp_total (if (0 <? snd lfn)%nat then fst lfn else nm) w) as [r ->]; [destruct (Nat.ltb_spec 0 (snd lfn)); auto|done|].
    cbn [mbind option_bind]. destruct (r =? 0); [by eexists|]. destruct (stricmp_total nm w Hnm Hw) as [r' ->]. by eexists. }
  cbn [mbind option_bind]. destruct m; [|by eexists].
  destruct (entry_node_ok root16 e lfn nm He Hb Hlfn Hnm) as (n & -> & Hn). by eexists.
Qed.
End entry.

(** ** Searching a directory *)

Lemma no_lfn_ok : lfn_ok no_lfn.
Proof. split_and!; cbn [fst snd no_lfn]; [apply length_replicate|unfold LFN_BUF; lia|lia]. Qed.

Lemma dir_entry_ok img off : bytes img -> 0 <= off -> off + 32 <= Z.of_nat (length img) -> length (dir_entry img off) = 32%nat /\ bytes (dir_entry img off).
Proof. intros Hb H0 Hl. split; [apply length_slice; lia|by apply bytes_slice]. Qed.

(** A chain comes to an end within [fuel] clusters. *)
Fixpoint chain_ends (fuel : nat) (img : list Z) (fs : fat32_fs_t) (c : Z) : bool :=
  match fuel with
  | O => false
  | S fuel' => match fat_next_cluster img fs c with Some next => stops fs next || chain_ends fuel' img fs next | None => false end
  end.

(** No chain of the volume has a cycle. *)
Definition acyclic (img : list Z) (fs : fat32_fs_t) : Prop :=
  forall c, cluster_is_valid fs c = true -> chain_ends (chain_fuel fs) img fs c = true.

Section directory.
Context (fs : fat32_fs_t) (img : list Z) (V : vol_ok fs img).
Context (want : option (list Z)) (Hwant : forall w, want = Some w -> terminated w).

Lemma root_scan_total n : forall off lfn, lfn_ok lfn -> 0 <= off -> off + Z.of_nat n * 32 <= 2 ^ 32 ->
  exists r, root_scan img fs want off n lfn = Some r /\ forall nd, r = Some nd -> fnode_ok nd.
Proof using V Hwant.
  induction n as [|n IH]; intros off lfn Hl H0 Hn; cbn [root_scan]; [by eexists|].
  pose proof (vo_rsec _ _ V). pose proof (vo_bps _ _ V). pose proof (vo_size _ _ V).
  assert (0 <= ff_root_dir_sector fs * ff_bytes_per_sector fs < 2 ^ 48) by nia.
  rewrite (u64_small (ff_root_dir_sector fs * _)) by lia. rewrite (u64_small (ff_root_dir_sector fs * _ + off)) by lia.
  set (b := ff_root_dir_sector fs * ff_bytes_per_sector fs + off) in *. rewrite u64_small by lia.
  destruct (Z.ltb_spec (ff_image_size fs) (b + 32)); [by eexists|].
  destruct (dir_entry_ok img b (vo_bytes _ _ V)) as [He Hb]; [lia|lia|].
  destruct (find_step_ok fs (vo_root _ _ V) true _ want lfn He Hb Hl Hwant) as (r & -> & Hr). cbn [mbind option_bind].
  destruct r as [|lfn'|nd]; [by eexists|apply IH; [done|lia|lia]|]. eexists. split; [done|]. by intros ? [= <-].
Qed.

Lemma cluster_scan_total n : forall off lfn, lfn_ok lfn -> 0 <= off -> off + Z.of_nat n * 32 <= Z.of_nat (length img) ->
  exists r, cluster_scan img fs want off n lfn = Some r /\
    match r with ScanNext lfn' => lfn_ok lfn' | ScanFound nd => fnode_ok nd | ScanEnd => True end.
Proof using V Hwant.
  induction n as [|n IH]; intros off lfn Hl H0 Hn; cbn [cluster_scan]; [by eexists|].
  destruct (dir_entry_ok img off (vo_bytes _ _ V)) as [He Hb]; [lia|lia|].
  destruct (find_step_ok fs (vo_root _ _ V) false _ want lfn He Hb Hl Hwant) as (r & -> & Hr). cbn [mbind option_bind].
  destruct r as [|lfn'|nd]; [by eexists|apply IH; [done|lia|lia]|by eexists].
Qed.

(** The entries of a valid cluster that passed the check are inside the volume. *)
Lemma cluster_entries c : cluster_is_valid fs c = true -> cluster_offset_bytes fs c + cluster_bytes fs <= ff_image_size fs ->
  0 <= cluster_offset_bytes fs c /\
  cluster_offset_bytes fs c + Z.of_nat (Z.to_nat (cluster_bytes fs / 32)) * 32 <= Z.of_nat (length img).
Proof using V.
  intros Hv%(cluster_valid_iff fs img V) Hin. destruct (cluster_offset_eq fs img V c Hv) as [_ Ho].
  pose proof (proj2 (cluster_bytes_eq fs img V)). pose proof (vo_size _ _ V). pose proof (Z.mul_div_le (cluster_bytes fs) 32 ltac:(lia)).
  pose proof (Z.div_pos (cluster_bytes fs) 32 ltac:(lia) ltac:(lia)). split; [lia|]. rewrite Z2Nat.id by done. lia.
Qed.

Lemma chain_scan_total fuel : forall c lfn, lfn_ok lfn -> chain_ends fuel img fs c = true ->
  exists r, chain_scan fuel img fs want c lfn = Some r /\ forall nd, r = Some nd -> fnode_ok nd.
Proof using V Hwant.
  induction fuel as [|fuel IH]; intros c lfn Hl He; [done|]. cbn [chain_scan chain_ends] in *.
  destruct (cluster_is_valid fs c && (c <? FAT32_CLUSTER_EOC)) eqn:Hv; [|by eexists]. apply andb_true_iff in Hv as [Hv _].
  rewrite (offset_check fs img V) by done. destruct (Z.ltb_spec (ff_image_size fs) (cluster_offset_bytes fs c + cluster_bytes fs)); [by eexists|].
  destruct (cluster_entries c Hv) as [Ho Hn]; [lia|]. destruct (cluster_scan_total _ _ lfn Hl Ho Hn) as (r & -> & Hr). cbn [mbind option_bind].
  destruct r as [|lfn'|nd]; [by eexists| |eexists; split; [done|]; by intros ? [= <-]].
  destruct (fat_next_ok fs img V c (valid_u32 fs img V c Hv)) as (v & Ev & Hv'). rewrite Ev in *. cbn [mbind option_bind].
  fold (stops fs v). destruct (stops fs v); [by eexists|]. by apply IH.
Qed.

Lemma iter_dir_find_total c : acyclic img fs ->
  exists r, iter_dir_find img fs c want = Some r /\ forall nd, r = Some nd -> fnode_ok nd.
Proof using V Hwant.
  intros Ha. unfold iter_dir_find. destruct (ff_fat16 fs && (c =? 0)).
  - apply root_scan_total; [apply no_lfn_ok|lia|]. pose proof (vo_rbytes _ _ V). pose proof (Z.div_pos (ff_root_dir_bytes fs) 32 ltac:(lia) ltac:(lia)).
    rewrite Z2Nat.id by done. pose proof (Z.mul_div_le (ff_root_dir_bytes fs) 32 ltac:(lia)). lia.
  - destruct (cluster_is_valid fs c) eqn:Hv; cbn [negb]; [|by eexists]. apply chain_scan_total; [apply no_lfn_ok|by apply Ha].
Qed.
End directory.

(** ** A directory as the list of its entries *)

(** The search of a list of entries. *)
Fixpoint dir_fold (fs : fat32_fs_t) (want : option (list Z)) (es : list (list Z)) (lfn : list Z * nat) : option scan :=
  match es with
  | [] => Some (ScanNext lfn)
  | e :: es' =>
      r ← find_step fs false e want lfn;
      match r with ScanNext lfn => dir_fold fs want es' lfn | r => Some r end
  end.

Definition dir_find (fs : fat32_fs_t) (want : option (list Z)) (es : list (list Z)) (lfn : list Z * nat) : option (option fat32_node_t) :=
  r ← dir_fold fs want es lfn; Some (match r with ScanFound n => Some n | _ => None end).

Definition entries_at (img : list Z) (off : Z) (n : nat) : list (list Z) := (fun i => dir_entry img (off + 32 * Z.of_nat i)) <$> seq 0 n.

Definition cluster_dirents (img : list Z) (fs : fat32_fs_t) (c : Z) : list (list Z) :=
  entries_at img (cluster_offset_bytes fs c) (Z.to_nat (cluster_bytes fs / 32)).

Lemma entries_at_S img off n : entries_at img off (S n) = dir_entry img off :: entries_at img (off + 32) n.
Proof.
  unfold entries_at. cbn [seq fmap list_fmap]. f_equal; [f_equal; lia|]. rewrite <- fmap_S_seq, <- list_fmap_compose.
  apply list_fmap_ext. intros i x _. unfold compose. f_equal. lia.
Qed.

Lemma dir_fold_app fs want es1 es2 lfn :
  dir_fold fs want (es1 ++ es2) lfn =
  (r ← dir_fold fs want es1 lfn; match r with ScanNext lfn => dir_fold fs want es2 lfn | r => Some r end).
Proof.
  revert lfn. induction es1 as [|e es1 IH]; intros lfn; [done|]. cbn [dir_fold app].
  destruct (find_step fs false e want lfn) as [[|lfn'|n]|]; cbn [mbind option_bind]; done.
Qed.

Lemma cluster_scan_fold img fs want off n lfn : cluster_scan img fs want off n lfn = dir_fold fs want (entries_at img off n) lfn.
Proof.
  revert off lfn. induction n as [|n IH]; intros off lfn; [done|]. rewrite entries_at_S. cbn [cluster_scan dir_fold].
  destruct (find_step fs false _ want lfn) as [[|lfn'|nd]|]; cbn [mbind option_bind]; done.
Qed.

Lemma chain_scan_fold fs img want fuel : vol_ok fs img -> forall c cs lfn,
  fat_chain img fs c cs -> c < FAT32_CLUSTER_EOC -> (length cs <= fuel)%nat ->
  chain_scan fuel img fs want c lfn = dir_find fs want (concat (cluster_dirents img fs <$> cs)) lfn.
Proof.
  intros V. induction fuel as [|fuel IH]; intros c cs lfn Hc Hlt Hlen; [destruct cs; [done|simpl in Hlen; lia]|].
  destruct cs as [|x cs]; [done|]. destruct Hc as (-> & Hv & Hin & next & Enext & Hnext). cbn [chain_scan fmap list_fmap concat].
  rewrite Hv, (proj2 (Z.ltb_lt _ _) Hlt). cbn [andb]. rewrite (offset_check fs img V) by done.
  destruct (Z.ltb_spec (ff_image_size fs) (cluster_offset_bytes fs c + cluster_bytes fs)); [lia|].
  rewrite cluster_scan_fold. fold (cluster_dirents img fs c). unfold dir_find. rewrite dir_fold_app.
  destruct (dir_fold fs want (cluster_dirents img fs c) lfn) as [[|lfn'|nd]|]; cbn [mbind option_bind]; [done| |done|done].
  rewrite Enext. cbn [mbind option_bind]. fold (stops fs next). destruct cs as [|y cs].
  - rewrite Hnext. done.
  - destruct Hnext as [Hs Hc]. rewrite Hs. apply (IH next (y :: cs)); [done|exact (proj2 (stops_false _ _ Hs))|simpl in *; lia].
Qed.

(** A chain does not visit a cluster twice, and so it is short enough for the fuel. *)
Lemma chain_fun img fs c cs cs' : fat_chain img fs c cs -> fat_chain img fs c cs' -> cs = cs'.
Proof.
  revert c cs'. induction cs as [|x cs IH]; intros c cs' H1 H2; [done|]. destruct cs' as [|x' cs']; [done|].
  destruct H1 as (-> & _ & _ & n & E & H1). destruct H2 as (-> & _ & _ & n' & E' & H2). rewrite E in E'. injection E' as <-. f_equal.
  destruct cs as [|y cs], cs' as [|y' cs']; [done|destruct H2; congruence|destruct H1; congruence|].
  destruct H1 as [_ H1]. destruct H2 as [_ H2]. exact (IH _ _ H1 H2).
Qed.

Lemma chain_suffix img fs c cs c' : fat_chain img fs c cs -> c' ∈ cs -> exists cs', fat_chain img fs c' cs' /\ cs' `suffix_of` cs.
Proof.
  revert c. induction cs as [|x cs IH]; intros c Hc Hin; [by apply not_elem_of_nil in Hin|].
  apply elem_of_cons in Hin as [->|Hin]; [destruct Hc as [-> Hc]; by exists (c :: cs)|].
  destruct Hc as (-> & _ & _ & n & _ & Hc). destruct cs as [|y cs]; [by apply not_elem_of_nil in Hin|]. destruct Hc as [_ Hc].
  destruct (IH n Hc Hin) as (cs' & H1 & H2). exists cs'. split; [done|]. by apply suffix_cons_r.
Qed.

Lemma chain_NoDup img fs c cs : fat_chain img fs c cs -> NoDup cs.
Proof.
  revert c. induction cs as [|x cs IH]; intros c Hc; [constructor|]. pose proof Hc as Hc0. destruct Hc as (-> & _ & _ & n & _ & Hc).
  destruct cs as [|y cs]; [apply NoDup_singleton|]. destruct Hc as [_ Hc]. constructor; [|by eapply IH].
  intros Hin. destruct (chain_suffix _ _ _ _ _ Hc Hin) as (cs' & H1 & H2). pose proof (chain_fun _ _ _ _ _ Hc0 H1) as <-.
  apply suffix_length in H2. simpl in H2. lia.
Qed.

Lemma chain_valid img fs c cs x : fat_chain img fs c cs -> x ∈ cs -> cluster_is_valid fs x = true.
Proof. intros Hc Hx. destruct (chain_suffix _ _ _ _ _ Hc Hx) as (cs' & H1 & _). destruct cs'; [done|]. by destruct H1 as (-> & ? & _). Qed.

Lemma chain_length fs img c cs : vol_ok fs img -> fat_chain img fs c cs -> (length cs <= chain_fuel fs)%nat.
Proof.
  intros V Hc. unfold chain_fuel. pose proof (vo_count _ _ V). transitivity (length (seqZ 2 (ff_cluster_count fs))); [|rewrite length_seqZ; lia].
  apply submseteq_length, NoDup_submseteq; [by eapply chain_NoDup|]. intros x Hx. apply elem_of_seqZ.
  apply (chain_valid _ _ _ _ _ Hc), (cluster_valid_iff fs img V) in Hx. lia.
Qed.

(** ** Paths *)

Lemma skip_slash_ok path str : cstring path str ->
  exists rest str', skip_slash path = Some rest /\ cstring rest str' /\ (length str' <= length str)%nat /\ head str' <> Some SLASH.
Proof.
  revert str. induction path as [|c path IH]; intros str Hp; [by apply cstring_nil in Hp|]. cbn [skip_slash].
  destruct (Z.eqb_spec c SLASH) as [->|].
  - apply cstring_cons in Hp as [[? _]|(str' & _ & -> & Hp)]; [done|]. destruct (IH str' Hp) as (rest & s & -> & Hr & Hl & Hh).
    exists rest, s. split_and!; [done|done|simpl; lia|done].
  - exists (c :: path), str. split_and!; [done|done|lia|]. apply cstring_cons in Hp as [[-> ->]|(s & _ & -> & _)]; [done|]. simpl. congruence.
Qed.

Lemma path_part_ok path str n : cstring path str ->
  exists part rest str', path_part path n = Some (part, rest) /\ cstring rest str' /\ (length str' <= length str)%nat /\
    (head str <> None -> head str <> Some SLASH -> (0 < n)%nat -> (length str' < length str)%nat).
Proof.
  revert path str. induction n as [|n IH]; intros path str Hp; (destruct path as [|c path]; [by apply cstring_nil in Hp|]); cbn [path_part].
  { exists [], (c :: path), str. split_and!; [done|done|lia|lia]. }
  destruct ((c =? 0) || (c =? SLASH)) eqn:Hc.
  - exists [], (c :: path), str. split_and!; [done|done|lia|]. intros Hh Hs _. exfalso.
    apply cstring_cons in Hp as [[-> ->]|(str' & Hc' & -> & _)]; [done|]. apply orb_true_iff in Hc as [?%Z.eqb_eq| ->%Z.eqb_eq]; [lia|done].
  - apply orb_false_iff in Hc as [Hc%Z.eqb_neq _]. apply cstring_cons in Hp as [[? _]|(str' & _ & -> & Hp)]; [done|].
    destruct (IH path str' Hp) as (part & rest & s & -> & Hr & Hl & _). cbn [mbind option_bind].
    exists (c :: part), rest, s. split_and!; [done|done|simpl; lia|intros; simpl; lia].
Qed.

Section resolve.
Context (fs : fat32_fs_t) (img : list Z) (V : vol_ok fs img) (Hac : acyclic img fs).

Lemma resolve_loop_total fuel : forall path str cur, cstring path str -> (length str < fuel)%nat -> fnode_ok cur -> head str <> Some SLASH ->
  exists r, resolve_loop fuel img fs path cur = Some r /\ forall n, r = Some n -> fnode_ok n.
Proof using V Hac.
  induction fuel as [|fuel IH]; intros path str cur Hp Hl Hc Hh; [lia|]. cbn [resolve_loop].
  assert (exists c, path !! 0%nat = Some c /\ (c = 0 \/ head str = Some c)) as (c & -> & Hc0).
  { destruct path as [|c path]; [by apply cstring_nil in Hp|]. exists c. split; [done|].
    apply cstring_cons in Hp as [[-> _]|(? & _ & -> & _)]; [by left|by right]. }
  cbn [mbind option_bind]. destruct (Z.eqb_spec c 0) as [|Hne]; [eexists; split; [done|]; by intros ? [= <-]|].
  destruct Hc0 as [?|Hc0]; [done|].
  destruct (path_part_ok path str 63 Hp) as (part & rest & str' & -> & Hr & _ & Hlt). cbn [mbind option_bind].
  specialize (Hlt ltac:(congruence) Hh ltac:(lia)).
  destruct (skip_slash_ok rest str' Hr) as (rest' & s' & -> & Hr' & Hl' & Hh').
  cbn [mbind option_bind]. destruct (negb (fn_is_dir cur)); [by eexists|].
  destruct (iter_dir_find_total fs img V (Some (part ++ [0])) ltac:(intros ? [= <-]; set_solver) (fn_start_cluster cur) Hac) as (r & -> & Hn).
  cbn [mbind option_bind]. destruct r as [next|]; [|by eexists]. apply (IH rest' s'); [done|lia|by apply Hn|done].
Qed.

Lemma root_node_ok : fnode_ok (root_node fs).
Proof using V.
  pose proof (vo_root _ _ V). split; cbn [root_node fn_name fn_start_cluster fn_size]; [done|done| |lia]. destruct (ff_fat16 fs); lia.
Qed.

Lemma resolve_total path str : cstring path str -> exists r, resolve_path img fs path = Some r /\ forall n, r = Some n -> fnode_ok n.
Proof using V Hac.
  intros Hp. unfold resolve_path.
  destruct (skip_slash_ok path str Hp) as (rest & s' & -> & Hr & _ & Hh).
  cbn [mbind option_bind]. apply (resolve_loop_total _ rest s'); [done| |apply root_node_ok|done].
  destruct Hr as (t & -> & _). rewrite length_app. simpl. lia.
Qed.
End resolve.

(** ** The backend *)

Class FatKmalloc (kmalloc : fat_w -> Z -> option Z) : Prop := {
  fkm_fresh : forall w n a, kmalloc w n = Some a -> fw_files w !! a = None;
}.

Record ffile_ok (w : fat_w) (f : fat32_file_t) : Prop := {
  fo_fs : is_Some (fw_fs w !! fh_fs f);
  fo_node : fnode_ok (fh_node f);
  fo_off : 0 <= fh_offset f < 2 ^ 32;
}.

(** Every mounted volume is sound and has no cycle, and every open file belongs to one. *)
Record fat_inv (w : fat_w) : Prop := {
  fi_vol : forall k fs, fw_fs w !! k = Some fs -> exists img, fw_images w !! ff_image fs = Some img /\ vol_ok fs img /\ acyclic img fs;
  fi_file : forall x f, fw_files w !! x = Some f -> ffile_ok w f;
}.

Definition fat_handle (w : fat_w) (_ : option nat) (x : Z) : Prop := is_Some (fw_files w !! x).

Lemma fat_files_inv w files : fat_inv w -> (forall x f, files !! x = Some f -> ffile_ok w f) -> fat_inv (fat_set_files w files).
Proof. intros [Hv _] Hf. split; [exact Hv|]. intros x f Hx. destruct (Hf x f Hx). by split. Qed.

Lemma fat_volume_ok w k fs : fat_inv w -> fw_fs w !! k = Some fs -> exists img, fat_volume w k = Some (fs, img) /\ vol_ok fs img /\ acyclic img fs.
Proof.
  intros I Hk. destruct (fi_vol _ I k fs Hk) as (img & Hi & HV & Ha). exists img. unfold fat_volume. rewrite Hk. cbn [mbind option_bind].
  rewrite Hi. done.
Qed.

Section backend.
Context (kmalloc : fat_w -> Z -> option Z) `{!FatKmalloc kmalloc}.

Lemma fat32_open_spec w k fs path str flags : fat_inv w -> fw_fs w !! k = Some fs -> cstring path str ->
  exists r w', fat32_open kmalloc w (Some k) path flags = Some (r, w') /\ fat_inv w' /\ fw_fs w' = fw_fs w /\ fw_images w' = fw_images w /\
    match r with
    | None => w' = w
    | Some x => fw_files w !! x = None /\ exists n, fw_files w' = <[x := mk_ffile k n 0]> (fw_files w)
    end.
Proof using FatKmalloc0.
  intros I Hk Hp. unfold fat32_open. destruct (negb (Z.land flags VFS_O_WRITE =? 0)); [by exists None, w|].
  destruct (fat_volume_ok w k fs I Hk) as (img & -> & HV & Ha). cbn [mbind option_bind].
  destruct (resolve_total fs img HV Ha path str Hp) as (r & -> & Hn). cbn [mbind option_bind]. destruct r as [n|]; [|by exists None, w].
  destruct (_ && _); [by exists None, w|]. destruct (kmalloc w 88) as [x|] eqn:Ex; [|by exists None, w].
  pose proof (fkm_fresh _ _ _ Ex) as Hx. eexists (Some x), _. split; [done|]. split; [|by split_and!; [..|exists n]].
  apply fat_files_inv; [done|]. intros y f [[<- <-]|[_ Hy]]%lookup_insert_Some; [|by eapply (fi_file _ I)].
  split; cbn [fh_fs fh_node fh_offset]; [by rewrite Hk; eexists|by apply Hn|lia].
Qed.

Lemma fat32_stat_total w k fs path str info : fat_inv w -> fw_fs w !! k = Some fs -> cstring path str ->
  exists rc info', fat32_stat w (Some k) path info = Some (rc, info', w).
Proof using.
  intros I Hk Hp. unfold fat32_stat. destruct (fat_volume_ok w k fs I Hk) as (img & -> & HV & Ha). cbn [mbind option_bind].
  destruct (resolve_total fs img HV Ha path str Hp) as (r & -> & Hn). cbn [mbind option_bind]. destruct r as [n|]; [|by do 2 eexists].
  destruct (Hn n eq_refl) as [Hl He _ _]. destruct (lookup_lt_is_Some_2 (fn_name n) 0) as [c0 ->]; [lia|]. cbn [mbind option_bind].
  destruct (negb (c0 =? 0)); [|by do 2 eexists].
  destruct (copy_chars_ok (replicate VFS_PATH_MAX 0) (fn_name n) 0 (VFS_PATH_MAX - 1)) as (nm & -> & _ & _).
  - rewrite length_replicate. lia.
  - exists 63%nat. split; [lia|done].
  - by do 2 eexists.
Qed.

#[export] Instance fat32_backend k fs0 : Backend (fun w => fat_inv w /\ fw_fs w !! k = Some fs0) fat_handle (g_fat32_ops kmalloc) (Some k).
Proof using FatKmalloc0.
  constructor; simpl.
  - intros open w rel str flags [= <-] [I Hk] Hrel _.
    destruct (fat32_open_spec w k fs0 rel str flags I Hk Hrel) as (r & w' & -> & I' & Hfs & _ & Hr). exists r, w'. split; [done|].
    split; [split; [done|by rewrite Hfs]|]. destruct r as [x|]; [|subst w'; split; [by intros ? ? _|done]]. destruct Hr as (Hx & n & Hf). split.
    + intros ctx y _ Hy. unfold fat_handle in *. rewrite Hf. apply lookup_insert_is_Some'. by right.
    + intros y [= <-]. unfold fat_handle. rewrite Hf, lookup_insert_eq, Hx. split; [by eexists|]. intros _ [? ?]. done.
  - intros close w x [= <-] [I Hk] [f Hx]. unfold fat32_close. rewrite Hx. eexists. split; [done|]. split; [split; [|done]|].
    + apply fat_files_inv; [done|]. intros y g [_ Hy]%lookup_delete_Some. by eapply (fi_file _ I).
    + intros ctx y Hne Hy. unfold fat_handle in *. simpl. by rewrite lookup_delete_ne.
  - intros stat w rel str info [= <-] [I Hk] Hrel _ _. destruct (fat32_stat_total w k fs0 rel str info I Hk Hrel) as (rc & info' & ->).
    do 3 eexists. split_and!; [done|done..|]. by intros ? ? _.
Qed.

(** Reading a file: never outside the volume or the buffer. *)
Lemma fat32_read_total w ctx x f buf n got :
  fat_inv w -> fw_files w !! x = Some f -> 0 <= n <= Z.of_nat (length buf) ->
  exists rc buf' got' w', fat32_read w ctx x buf n got = Some (rc, buf', got', w') /\ fat_inv w' /\ length buf' = length buf.
Proof using.
  intros I Hx Hn. unfold fat32_read. rewrite Hx. cbn [mbind option_bind]. destruct (fi_file _ I x f Hx) as [[fs Hfs] Hnd Hoff].
  destruct (fn_is_dir (fh_node f)); [by do 4 eexists|]. destruct (Z.leb_spec (fn_size (fh_node f)) (fh_offset f)) as [|Hlt]; [by do 4 eexists|].
  destruct (fat_volume_ok w _ fs I Hfs) as (img & -> & HV & Ha). cbn [mbind option_bind].
  destruct (cluster_is_valid fs (fn_start_cluster (fh_node f))) eqn:Hv; cbn [negb]; [|by do 4 eexists].
  pose proof (proj2 (cluster_bytes_eq fs img HV)) as Hcb. destruct (Z.eqb_spec (cluster_bytes fs) 0); [lia|].
  destruct (skip_total fs img HV (Z.to_nat (fh_offset f / cluster_bytes fs)) _ Hv) as (r & -> & Hr). cbn [mbind option_bind].
  destruct r as [e|c]; [by do 4 eexists|]. set (need := if n <? _ then n else _).
  assert (0 <= need <= n) as Hneed by (unfold need; destruct (Z.ltb_spec n (fn_size (fh_node f) - fh_offset f)); lia).
  destruct (read_loop_total fs img HV (Z.to_nat need) c (fh_offset f mod cluster_bytes fs) buf 0 need Hr) as (rc & b & d & -> & Hb & Hrc & Hd);
    [apply Z.mod_pos_bound; lia|lia|lia|lia|]. cbn [mbind option_bind]. destruct (negb (rc =? 0)); [by do 4 eexists|].
  do 4 eexists. split; [done|]. split; [|done]. apply fat_files_inv; [done|]. intros y g [[<- <-]|[_ Hy]]%lookup_insert_Some.
  - split; cbn [fh_fs fh_node fh_offset]; [by eexists|done|apply u32_range].
  - by eapply (fi_file _ I).
Qed.
End backend.

(** ** Reading a file *)

Lemma chain_data_length img fs cs : vol_ok fs img -> forall c, fat_chain img fs c cs ->
  Z.of_nat (length (chain_data img fs cs)) = Z.of_nat (length cs) * cluster_bytes fs.
Proof.
  intros V. induction cs as [|x cs IH]; intros c Hc; [done|]. destruct Hc as (-> & Hv & Hin & next & _ & Hnext).
  rewrite chain_data_cons, length_app, (length_cluster_data fs img V) by done. pose proof (proj2 (cluster_bytes_eq fs img V)).
  destruct cs as [|y cs]; [simpl; lia|]. rewrite Nat2Z.inj_add, (IH next) by apply Hnext. cbn [length]. lia.
Qed.

Lemma chain_data_drop img fs k cs : vol_ok fs img -> forall c, fat_chain img fs c cs -> (k < length cs)%nat ->
  chain_data img fs (drop k cs) = drop (k * Z.to_nat (cluster_bytes fs)) (chain_data img fs cs).
Proof.
  intros V. revert cs. induction k as [|k IH]; intros cs c Hc Hk; [by rewrite !drop_0|]. destruct cs as [|x cs]; [done|].
  destruct Hc as (-> & Hv & Hin & next & _ & Hnext). destruct cs as [|y cs]; [simpl in Hk; lia|]. cbn [drop].
  rewrite (IH (y :: cs) next) by (done || apply Hnext || (simpl in *; lia)). rewrite (chain_data_cons _ _ c), drop_app_ge.
  - f_equal. rewrite (length_cluster_data fs img V) by done. lia.
  - rewrite (length_cluster_data fs img V) by done. lia.
Qed.


(** ** Changes of a volume *)

(** The two volumes differ at most between [lo] and [hi]. *)
Definition same_out (img img' : list Z) (lo hi : nat) : Prop :=
  length img' = length img /\ (bytes img -> bytes img') /\ forall i, (i < lo \/ hi <= i)%nat -> img' !! i = img !! i.

Lemma same_out_refl img lo hi : same_out img img lo hi.
Proof. by split_and!. Qed.

Lemma same_out_trans img1 img2 img3 lo hi : same_out img1 img2 lo hi -> same_out img2 img3 lo hi -> same_out img1 img3 lo hi.
Proof. intros (L1 & B1 & E1) (L2 & B2 & E2). split_and!; [congruence|auto|]. intros i Hi. by rewrite E2, E1. Qed.

Lemma same_out_weaken img img' lo hi lo' hi' : same_out img img' lo hi -> (lo' <= lo)%nat -> (hi <= hi')%nat -> same_out img img' lo' hi'.
Proof. intros (L & B & E) H1 H2. split_and!; [done|done|]. intros i Hi. apply E. lia. Qed.

Lemma same_out_slice img img' lo hi i n : same_out img img' lo hi -> (i + n <= lo \/ hi <= i)%nat -> slice i n img' = slice i n img.
Proof.
  intros (L & _ & E) Hi. apply list_eq. intros j. destruct (decide (j < n)%nat).
  - rewrite !lookup_slice by done. apply E. lia.
  - unfold slice. by rewrite !lookup_take_ge by lia.
Qed.

Lemma bytes_inserts k l i : bytes k -> bytes l -> bytes (list_inserts i k l).
Proof.
  revert i. induction k as [|b k IH]; intros i Hk Hl; cbn [list_inserts]; [done|]. apply Forall_cons in Hk as [Hb Hk].
  apply Forall_insert; [by apply IH|done].
Qed.

Lemma same_out_inserts img k i : bytes k -> same_out img (list_inserts i k img) i (i + length k).
Proof.
  intros Hk. split_and!; [apply length_inserts|intros; by apply bytes_inserts|]. intros j [Hj|Hj].
  - by apply list_lookup_inserts_lt.
  - by apply list_lookup_inserts_ge.
Qed.

Lemma le_bytes_bytes n v : bytes (le_bytes n v).
Proof. revert v. induction n as [|n IH]; intros v; cbn [le_bytes]; constructor; [apply Z.mod_pos_bound; lia|apply IH]. Qed.

Lemma u8_byte v k : 0 <= k -> u8 (Z.land (Z.shiftr v k) 0xFF) = (v / 2 ^ k) mod 256.
Proof.
  intros Hk. unfold u8. change 0xFF with (Z.ones 8). rewrite Z.land_ones, Z.shiftr_div_pow2 by lia.
  change (2 ^ 8) with 256. by rewrite Z.mod_mod by lia.
Qed.

Lemma put_inserts l i b : (i < length l)%nat -> put l i b = Some (list_inserts i [b] l).
Proof. intros Hi. unfold put. by rewrite decide_True. Qed.

Lemma wr16_spec p off v : 0 <= off -> off + 2 <= Z.of_nat (length p) -> wr16 p off v = Some (list_inserts (Z.to_nat off) (le_bytes 2 v) p).
Proof.
  intros H0 Hl. unfold wr16. rewrite put_inserts by lia. cbn [mbind option_bind]. rewrite put_inserts by (rewrite length_inserts; lia).
  replace (Z.to_nat (off + 1)) with (Z.to_nat off + length [u8 (Z.land v 255)])%nat by (simpl; lia). rewrite inserts_app.
  pose proof (u8_byte v 0 ltac:(lia)) as E0. rewrite Z.shiftr_0_r, Z.div_1_r in E0. rewrite E0. do 2 f_equal.
  unfold u8. rewrite Z.shiftr_div_pow2 by lia. done.
Qed.

Lemma wr32_spec p off v : 0 <= off -> off + 4 <= Z.of_nat (length p) -> wr32 p off v = Some (list_inserts (Z.to_nat off) (le_bytes 4 v) p).
Proof.
  intros H0 Hl. unfold wr32. rewrite put_inserts by lia. cbn [mbind option_bind]. rewrite put_inserts by (rewrite length_inserts; lia).
  cbn [mbind option_bind]. rewrite put_inserts by (rewrite !length_inserts; lia). cbn [mbind option_bind].
  rewrite put_inserts by (rewrite !length_inserts; lia).
  pose proof (u8_byte v 0 ltac:(lia)) as E0. rewrite Z.shiftr_0_r, Z.div_1_r in E0. rewrite E0, !u8_byte by lia.
  replace (Z.to_nat (off + 1)) with (Z.to_nat off + 1)%nat by lia. replace (Z.to_nat (off + 2)) with (Z.to_nat off + 2)%nat by lia.
  replace (Z.to_nat (off + 3)) with (Z.to_nat off + 3)%nat by lia.
  rewrite (inserts_app (Z.to_nat off) [_] [_]). cbn [app]. rewrite (inserts_app (Z.to_nat off) [_; _] [_]). cbn [app].
  rewrite (inserts_app (Z.to_nat off) [_; _; _] [_]). cbn [le_bytes app]. rewrite !Z.div_div by lia. done.
Qed.

(** A directory spread over a chain of clusters is searched as the flat list of its entries: the search
    ends, and where one cluster ends and the next begins makes no difference. *)
Theorem iter_dir_find_ok fs img c cs want :
  vol_ok fs img -> fat_chain img fs c cs -> c < FAT32_CLUSTER_EOC ->
  iter_dir_find img fs c want = dir_find fs want (concat (cluster_dirents img fs <$> cs)) no_lfn.
Proof.
  intros V Hc Hlt. assert (cluster_is_valid fs c = true) as Hv by (destruct cs; [done|apply Hc]).
  pose proof (proj1 (cluster_valid_iff fs img V c) Hv) as Hr. unfold iter_dir_find.
  destruct (Z.eqb_spec c 0) as [|_]; [lia|]. rewrite andb_false_r, Hv. cbn [negb].
  apply chain_scan_fold; [done|done|done|by eapply chain_length].
Qed.

(** A header is accepted or refused without a read outside the image.  An accepted one describes a
    volume of at least two clusters, all of which lie behind the table, inside the image and apart from
    each other, so that no offset computed from it wraps around or leaves the image. *)
Theorem fat32_parse_header_ok ptr img sz :
  bytes img -> 0 <= sz <= Z.of_nat (length img) -> sz < 2 ^ 32 - 2 ->
  exists r, fat32_parse_header ptr img sz = Some r /\ forall fs, r = Some fs ->
    vol_ok fs img /\ ff_image_size fs = sz /\
    (forall c, cluster_is_valid fs c = true ->
      ff_data_start_sector fs * ff_bytes_per_sector fs <= cluster_offset_bytes fs c /\ cluster_offset_bytes fs c + cluster_bytes fs <= sz) /\
    (forall c d, cluster_is_valid fs c = true -> cluster_is_valid fs d = true -> c <> d ->
      cluster_offset_bytes fs c + cluster_bytes fs <= cluster_offset_bytes fs d \/
      cluster_offset_bytes fs d + cluster_bytes fs <= cluster_offset_bytes fs c).
Proof.
  intros Hb Hsz Hlim. destruct (parse_header_spec ptr img sz Hb Hsz Hlim) as (r & E & Hr). exists r. split; [done|]. intros fs Hfs.
  destruct (Hr fs Hfs) as (V & _ & <- & _). split_and!; [done|done| |].
  - intros c. by apply (cluster_range fs img).
  - intros c d. by apply (clusters_apart fs img).
Qed.

(** ** A volume *)

Module FatSample.
(** Sectors of 128 bytes, one per cluster, four reserved ones, one for the table, seven clusters. *)
Definition header : list Z :=
  list_inserts 11 (le_bytes 2 128) (list_inserts 13 [1] (list_inserts 14 (le_bytes 2 4) (list_inserts 16 [1] (list_inserts 19 (le_bytes 2 12)
  (list_inserts 36 (le_bytes 4 1) (list_inserts 44 (le_bytes 4 2) (list_inserts 510 [0x55; 0xAA] (replicate 512 0)))))))).
(** The root directory is cluster 2, a file has the clusters 4 and 3, the others are free. *)
Definition table : list Z :=
  concat (le_bytes 4 <$> [0x0FFFFFF8; 0x0FFFFFFF; 0x0FFFFFFF; 0x0FFFFFFF; 3]) ++ replicate 108 0.
Definition entry (name : list Z) (c size : Z) : list Z :=
  name ++ [0x20] ++ replicate 14 0 ++ le_bytes 2 c ++ le_bytes 4 size.
Definition hello_txt : list Z := [72; 69; 76; 76; 79; 32; 32; 32; 84; 88; 84].
Definition root : list Z := entry hello_txt 4 200 ++ replicate 96 0.
Definition image : list Z := header ++ table ++ root ++ replicate 128 7 ++ replicate 128 5 ++ replicate 512 0.
Definition volume : fat32_fs_t := mk_fat 4096 1536 128 1 4 1 1 12 2 5 7 false 0 0.
Definition hello : fat32_node_t := mk_fnode (take 64 ([72; 69; 76; 76; 79; 46; 84; 88; 84] ++ replicate 64 0)) false 4 200.

Lemma image_bytes : bytes image.
Proof. apply (bool_decide_unpack (bytes image)). vm_compute. reflexivity. Qed.

Lemma parsed : fat32_parse_header 4096 image 1536 = Some (Some volume).
Proof. vm_compute. reflexivity. Qed.

Lemma image_vol : vol_ok volume image.
Proof.
  destruct (parse_header_spec 4096 image 1536 image_bytes ltac:(vm_compute; split; discriminate) eq_refl) as (r & E & Hr).
  apply Hr. rewrite parsed in E. by injection E.
Qed.

Lemma image_acyclic : acyclic image volume.
Proof.
  intros c Hv%(cluster_valid_iff _ _ image_vol). change (ff_cluster_count volume) with 7 in Hv.
  assert (c = 2 \/ c = 3 \/ c = 4 \/ c = 5 \/ c = 6 \/ c = 7 \/ c = 8) as Hc by lia.
  destruct_or! Hc; subst c; vm_compute; reflexivity.
Qed.

Lemma root_chain : fat_chain image volume 2 [2].
Proof. split_and!; [done|vm_compute; reflexivity|vm_compute; discriminate|]. eexists. split; vm_compute; reflexivity. Qed.

Lemma hello_chain : fat_chain image volume 4 [4; 3].
Proof.
  split_and!; [done|vm_compute; reflexivity|vm_compute; discriminate|]. exists 3. split; [vm_compute; reflexivity|]. split; [vm_compute; reflexivity|].
  split_and!; [done|vm_compute; reflexivity|vm_compute; discriminate|]. eexists. split; vm_compute; reflexivity.
Qed.

Definition world : fat_w :=
  mk_fatw {[ 4096 := image ]} {[ 0%nat := volume ]} {[ 8192 := mk_ffile 0 hello 100 ]}.

Lemma world_inv : fat_inv world.
Proof.
  split; cbn [world fw_fs fw_files fw_images].
  - intros k fs [<- <-]%lookup_singleton_Some. exists image. split; [by apply lookup_singleton_Some|]. split; [apply image_vol|apply image_acyclic].
  - intros x f [<- <-]%lookup_singleton_Some. split; cbn [fh_fs fh_node fh_offset]; [by eexists; apply lookup_singleton_Some| |lia].
    by split.
Qed.
End FatSample.


Lemma iter_dir_find_witness :
  iter_dir_find FatSample.image FatSample.volume 2 (Some [104; 69; 108; 108; 111; 46; 116; 120; 116; 0]) = Some (Some FatSample.hello).
Proof.
  rewrite (iter_dir_find_ok FatSample.volume FatSample.image 2 [2] _ FatSample.image_vol FatSample.root_chain) by reflexivity.
  vm_compute. reflexivity.
Defined.

Lemma fat32_parse_header_witness : vol_ok FatSample.volume FatSample.image.
Proof.
  destruct (fat32_parse_header_ok 4096 FatSample.image 1536 FatSample.image_bytes ltac:(vm_compute; split; discriminate) eq_refl) as (r & E & Hr).
  apply Hr. rewrite FatSample.parsed in E. by injection E.
Defined.

(** ** Volumes the driver does not handle *)

(** A directory whose chain returns to itself is searched forever: without an entry that ends the
    directory no number of rounds is enough. *)
Definition looping : list Z :=
  list_inserts 520 (le_bytes 4 2) (list_inserts 640 (concat (replicate 4 (FatSample.entry FatSample.hello_txt 4 200))) FatSample.image).

Theorem cyclic_directory_never_ends fuel : chain_scan fuel looping FatSample.volume (Some [88; 0]) 2 no_lfn = None.
Proof.
  induction fuel as [|fuel IH]; [reflexivity|]. cbn [chain_scan].
  replace (cluster_is_valid FatSample.volume 2) with true by (vm_compute; reflexivity).
  replace (ff_image_size FatSample.volume <? _) with false by (vm_compute; reflexivity).
  replace (cluster_scan looping _ _ _ _ _) with (Some (ScanNext no_lfn)) by (vm_compute; reflexivity).
  replace (fat_next_cluster looping FatSample.volume 2) with (Some 2) by (vm_compute; reflexivity).
  exact IH.
Qed.

(** On a FAT16 volume the clusters are counted from the start of the root directory, so the first
    cluster of a file is taken from the directory itself. *)
Theorem fat16_cluster_2_is_the_root ptr img sz fs :
  fat32_parse_header ptr img sz = Some (Some fs) -> bytes img -> 0 <= sz <= Z.of_nat (length img) -> sz < 2 ^ 32 - 2 -> ff_fat16 fs = true ->
  cluster_offset_bytes fs 2 = ff_root_dir_sector fs * ff_bytes_per_sector fs.
Proof.
  intros E Hb Hsz Hl H16. destruct (parse_header_spec ptr img sz Hb Hsz Hl) as (r & E' & Hr).
  destruct (Hr fs ltac:(congruence)) as (V & _ & _ & Hroot). rewrite (Hroot H16). pose proof (vo_count _ _ V).
  rewrite (proj1 (cluster_offset_eq fs img V 2 ltac:(lia))). lia.
Qed.

(** A component of more than 63 characters is cut and its rest is taken for the next component. *)
Theorem long_component_is_split : path_part (replicate 70 97 ++ [0]) 63 = Some (replicate 63 97, replicate 7 97 ++ [0]).
Proof. reflexivity. Qed.

(** The root directory of a FAT16 volume has start cluster 0, where the listing stops at once. *)
Theorem fat16_root_lists_nothing fuel img fs buf cap lfn :
  ff_fat16 fs = true -> chain_list (S fuel) img fs (fn_start_cluster (root_node fs)) buf cap 0 lfn = Some (buf, 0).
Proof. intros H16. unfold root_node. rewrite H16. reflexivity. Qed.
