(* ===== verification/Fat32Write.v ===== *)
(** * Writing a file into a FAT volume

    [fat32_image_upsert_file] with data that fits into one cluster takes a free cluster, and the
    files of the volume keep their chains and their bytes.  For longer data, for names and for the
    second table it does not do what it should; the last section has the examples. *)

From Stdlib Require Import ZArith Lia.
From stdpp Require Import base strings gmap list.
From S2P Require Import Prelude KString VfsPath Vfs Fat32 Fat32Spec.

Local Open Scope Z_scope.

(** A FAT32 volume whose table has an entry for every cluster. *)
Record table_ok (fs : fat32_fs_t) : Prop := {
  to_32 : ff_fat16 fs = false;
  to_fits : ff_reserved_sectors fs * ff_bytes_per_sector fs + (ff_cluster_count fs + 2) * 4 <=
    ff_data_start_sector fs * ff_bytes_per_sector fs;
}.

Lemma vol_same fs img img' lo hi : vol_ok fs img -> same_out img img' lo hi -> vol_ok fs img'.
Proof. intros [] (L & B & _). split; auto. by rewrite L. Qed.

Lemma fat_chain_same img img' fs c cs :
  (forall x, x ∈ cs -> fat_next_cluster img' fs x = fat_next_cluster img fs x) -> fat_chain img fs c cs -> fat_chain img' fs c cs.
Proof.
  revert c. induction cs as [|x cs IH]; intros c Hs Hc; [done|]. destruct Hc as (-> & Hv & Hin & next & E & Hn).
  split_and!; [done|done|done|]. exists next. rewrite Hs by set_solver. split; [done|]. destruct cs as [|y cs]; [done|].
  destruct Hn as [Hst Hn]. split; [done|]. apply IH; [|done]. set_solver.
Qed.

Section write.
Context (fs : fat32_fs_t) (T : table_ok fs).

(** The entry of a cluster in the table. *)
Definition fat_slot (c : Z) : nat := Z.to_nat (fat_entry_off fs c 4).

Lemma slot_range img c : vol_ok fs img -> cluster_is_valid fs c = true ->
  fat_entry_off fs c 4 = ff_reserved_sectors fs * ff_bytes_per_sector fs + c * 4 /\
  0 <= fat_entry_off fs c 4 /\ fat_entry_off fs c 4 + 4 <= ff_data_start_sector fs * ff_bytes_per_sector fs /\
  ff_data_start_sector fs * ff_bytes_per_sector fs <= ff_image_size fs.
Proof using T.
  intros V Hv. pose proof (valid_u32 fs img V c Hv) as Hu. apply (cluster_valid_iff fs img V) in Hv.
  destruct (fat_entry_eq fs img V c 4 Hu ltac:(lia)) as [E Hr]. pose proof (to_fits _ T). pose proof (vo_in _ _ V).
  pose proof (vo_bps _ _ V). pose proof (vo_spc _ _ V). pose proof (vo_count _ _ V).
  split_and!; [done|lia|lia|]. etransitivity; [|done]. apply Z.mul_le_mono_nonneg_r; [lia|]. pose proof (Z.mul_nonneg_nonneg (ff_cluster_count fs) (ff_sectors_per_cluster fs)). lia.
Qed.

Lemma next_slice img c : vol_ok fs img -> cluster_is_valid fs c = true ->
  fat_next_cluster img fs c = Some (Z.land (le_val (slice (fat_slot c) 4 img)) 0x0FFFFFFF).
Proof using T.
  intros V Hv. destruct (slot_range img c V Hv) as (_ & H0 & H1 & H2). pose proof (vo_size _ _ V). pose proof (vo_lim _ _ V).
  unfold fat_next_cluster. rewrite (to_32 _ T). rewrite u64_small by lia.
  destruct (Z.ltb_spec (ff_image_size fs) (fat_entry_off fs c 4 + 4)); [lia|]. by rewrite rd32_spec by (apply V || lia).
Qed.

(** ** A free cluster *)

Lemma find_free_spec img n : vol_ok fs img -> forall c, 2 <= c -> c + Z.of_nat n <= ff_cluster_count fs + 2 ->
  exists r, find_free_from img fs c n = Some r /\
    (r = 0 \/ cluster_is_valid fs r = true /\ fat_next_cluster img fs r = Some 0).
Proof using T.
  intros V. induction n as [|n IH]; intros c Hc Hn; cbn [find_free_from]; [exists 0; by split; [|left]|]. rewrite (to_32 _ T).
  assert (cluster_is_valid fs c = true) as Hv by (apply (cluster_valid_iff fs img V); lia).
  destruct (slot_range img c V Hv) as (_ & H0 & H1 & H2). pose proof (vo_size _ _ V). pose proof (vo_lim _ _ V). rewrite u64_small by lia.
  destruct (Z.ltb_spec (ff_image_size fs) (fat_entry_off fs c 4 + 4)); [lia|]. pose proof (next_slice img c V Hv) as Hnx.
  rewrite rd32_spec by (apply V || lia). cbn [mbind option_bind]. fold (fat_slot c).
  destruct (Z.eqb_spec (Z.land (le_val (slice (fat_slot c) 4 img)) 0x0FFFFFFF) 0) as [E|_]; [|apply IH; lia].
  exists c. split; [done|]. right. split; [done|]. by rewrite Hnx, E.
Qed.

Lemma free_cluster_ok img : vol_ok fs img ->
  exists r, fat_find_free_cluster img fs = Some r /\ (r = 0 \/ cluster_is_valid fs r = true /\ fat_next_cluster img fs r = Some 0).
Proof using T.
  intros V. unfold fat_find_free_cluster. pose proof (vo_count _ _ V). rewrite u32_small by lia. apply find_free_spec; [done|lia|lia].
Qed.

(** ** The entry of a cluster in the table is set to the end mark *)

Lemma land_high_low cur v : 0 <= v < 2 ^ 28 -> Z.land (Z.lor (Z.land cur 0xF0000000) (Z.land v 0x0FFFFFFF)) 0x0FFFFFFF = v.
Proof.
  intros Hv. change 0x0FFFFFFF with (Z.ones 28). rewrite (Z.land_ones v), Z.mod_small by lia. rewrite Z.land_lor_distr_l.
  rewrite <- Z.land_assoc. change (Z.land 0xF0000000 (Z.ones 28)) with 0. rewrite Z.land_0_r, Z.lor_0_l, Z.land_ones, Z.mod_small by lia. done.
Qed.

Lemma lor_range a b n : 0 <= n -> 0 <= a < 2 ^ n -> 0 <= b < 2 ^ n -> 0 <= Z.lor a b < 2 ^ n.
Proof.
  intros Hn Ha Hb. split; [apply Z.lor_nonneg; lia|]. destruct (Z.eq_dec (Z.lor a b) 0) as [->|]; [lia|].
  apply Z.log2_lt_pow2; [pose proof (proj2 (Z.lor_nonneg a b)); lia|]. rewrite Z.log2_lor by lia. apply Z.max_lub_lt.
  - destruct (Z.eq_dec a 0) as [->|]; [simpl|apply Z.log2_lt_pow2; lia]. destruct (Z.eq_dec n 0) as [->|]; [|lia].
    simpl in *. assert (b = 0) as -> by lia. done.
  - destruct (Z.eq_dec b 0) as [->|]; [simpl|apply Z.log2_lt_pow2; lia]. destruct (Z.eq_dec n 0) as [->|]; [|lia].
    simpl in *. assert (a = 0) as -> by lia. done.
Qed.

Lemma fat_set32_ok img c v : vol_ok fs img -> cluster_is_valid fs c = true -> 0 <= v < 2 ^ 28 ->
  exists img', fat_set32 img fs c v = Some img' /\ same_out img img' (fat_slot c) (fat_slot c + 4) /\ fat_next_cluster img' fs c = Some v.
Proof using T.
  intros V Hv Hr. destruct (slot_range img c V Hv) as (_ & H0 & H1 & H2). pose proof (vo_size _ _ V). pose proof (vo_lim _ _ V).
  unfold fat_set32. rewrite u64_small by lia. destruct (Z.ltb_spec (ff_image_size fs) (fat_entry_off fs c 4 + 4)); [lia|].
  destruct (rd32_ok img (fat_entry_off fs c 4) (vo_bytes _ _ V)) as (cur & -> & Hcur); [lia|lia|]. cbn [mbind option_bind].
  set (nv := Z.lor _ _). assert (0 <= nv < 2 ^ 32) as Hnv.
  { apply lor_range; [lia| |].
    - change 0xF0000000 with (Z.shiftl (Z.ones 4) 28). pose proof (Z.land_nonneg cur (Z.shiftl (Z.ones 4) 28)). split; [lia|].
      apply Z.le_lt_trans with cur; [|lia]. apply Z.ldiff_le; [lia|]. apply Z.bits_inj'. intros i Hi.
      rewrite Z.ldiff_spec, Z.land_spec, Z.bits_0. destruct (Z.testbit cur i); [apply andb_false_r|done].
    - change 0x0FFFFFFF with (Z.ones 28). rewrite Z.land_ones by lia. pose proof (Z.mod_pos_bound v (2 ^ 28)). lia. }
  rewrite wr32_spec by lia. eexists. split; [done|]. fold (fat_slot c).
  assert (same_out img (list_inserts (fat_slot c) (le_bytes 4 nv) img) (fat_slot c) (fat_slot c + 4)) as Hs.
  { pose proof (same_out_inserts img (le_bytes 4 nv) (fat_slot c) (le_bytes_bytes 4 nv)) as Hi. by rewrite length_le_bytes in Hi. }
  split; [done|]. rewrite (next_slice _ c (vol_same _ _ _ _ _ V Hs) Hv).
  pose proof (slice_inserts_same (fat_slot c) (le_bytes 4 nv) img) as E. rewrite length_le_bytes in E. rewrite E by (unfold fat_slot; lia).
  rewrite le_val_bytes by (simpl; lia). unfold nv. by rewrite land_high_low.
Qed.
(** ** The entry of the root directory *)

(** The directory entry at [off] has the cluster and the size. *)
Definition entry_points (img : list Z) (off c size : Z) : Prop :=
  rd16 (dir_entry img off) 26 = Some (c mod 2 ^ 16) /\ rd16 (dir_entry img off) 20 = Some (c / 2 ^ 16) /\
  rd32 (dir_entry img off) 28 = Some size.

Lemma entry_rd img off k n : 0 <= off -> 0 <= k -> (Z.to_nat k + n <= 32)%nat ->
  slice (Z.to_nat k) n (dir_entry img off) = slice (Z.to_nat (off + k)) n img.
Proof. intros H0 Hk Hn. unfold dir_entry. rewrite slice_slice by done. f_equal. lia. Qed.

Lemma same_inserts_le img off n v lo hi :
  (lo <= Z.to_nat off)%nat -> (Z.to_nat off + n <= hi)%nat -> same_out img (list_inserts (Z.to_nat off) (le_bytes n v) img) lo hi.
Proof.
  intros Hlo Hhi. eapply same_out_weaken; [apply same_out_inserts, le_bytes_bytes|done|by rewrite length_le_bytes].
Qed.

Lemma set_entry_file_ok img off c size :
  bytes img -> 0 <= off -> off + 32 <= Z.of_nat (length img) -> 0 <= c < 2 ^ 32 -> 0 <= size < 2 ^ 32 ->
  exists img', set_entry_file img false off c size = Some img' /\ same_out img img' (Z.to_nat off) (Z.to_nat off + 32) /\
    entry_points img' off c size.
Proof using.
  intros Hb H0 Hl Hc Hs. unfold set_entry_file. rewrite wr16_spec by lia. cbn [mbind option_bind].
  rewrite wr16_spec by (rewrite ?length_inserts; lia). cbn [mbind option_bind]. rewrite wr32_spec by (rewrite ?length_inserts; lia).
  set (i1 := list_inserts (Z.to_nat (off + 26)) (le_bytes 2 (u16 c)) img).
  set (i2 := list_inserts (Z.to_nat (off + 20)) (le_bytes 2 (u16 (Z.shiftr c 16))) i1).
  set (i3 := list_inserts (Z.to_nat (off + 28)) (le_bytes 4 size) i2). exists i3. split; [done|].
  assert (same_out img i1 (Z.to_nat off) (Z.to_nat off + 32)) as S1 by (apply same_inserts_le; lia).
  assert (same_out i1 i2 (Z.to_nat off) (Z.to_nat off + 32)) as S2 by (apply same_inserts_le; lia).
  assert (same_out i2 i3 (Z.to_nat off) (Z.to_nat off + 32)) as S3 by (apply same_inserts_le; lia).
  pose proof (same_out_trans _ _ _ _ _ (same_out_trans _ _ _ _ _ S1 S2) S3) as S13. split; [done|].
  destruct S13 as (L & B & _). destruct (dir_entry_ok i3 off (B Hb) H0) as [Hel Heb]; [lia|].
  assert (length i1 = length img /\ length i2 = length img) as [L1 L2] by (unfold i2, i1; rewrite !length_inserts; done).
  unfold entry_points. rewrite !rd16_spec, rd32_spec by (done || lia). rewrite !entry_rd by lia. unfold i3, i2, i1. split_and!; f_equal.
  - rewrite (slice_inserts_other _ 2) by (rewrite length_le_bytes; lia). rewrite (slice_inserts_other _ 2) by (rewrite length_le_bytes; lia).
    pose proof (slice_inserts_same (Z.to_nat (off + 26)) (le_bytes 2 (u16 c)) img) as E. rewrite length_le_bytes in E. rewrite E by lia.
    rewrite le_val_bytes; [done|]. unfold u16. pose proof (Z.mod_pos_bound c (2 ^ 16)). simpl. lia.
  - rewrite (slice_inserts_other _ 2) by (rewrite length_le_bytes; lia). fold i1.
    pose proof (slice_inserts_same (Z.to_nat (off + 20)) (le_bytes 2 (u16 (Z.shiftr c 16))) i1) as E. rewrite length_le_bytes in E. rewrite E by lia.
    rewrite Z.shiftr_div_pow2 by lia. assert (0 <= c / 2 ^ 16 < 2 ^ 16) by (split; [apply Z.div_pos; lia|apply Z.div_lt_upper_bound; lia]).
    unfold u16. rewrite Z.mod_small by lia. apply le_val_bytes. simpl. lia.
  - fold i1 i2. pose proof (slice_inserts_same (Z.to_nat (off + 28)) (le_bytes 4 size) i2) as E. rewrite length_le_bytes in E. rewrite E by lia.
    apply le_val_bytes. simpl. lia.
Qed.

Context (want : list Z) (Hwant : length want = 8%nat) (Hwb : bytes want).
Context (c size : Z) (Hc : 0 <= c < 2 ^ 32) (Hsize : 0 <= size < 2 ^ 32).

Lemma root_entry_step_ok img off : bytes img -> 0 <= off -> off + 32 <= Z.of_nat (length img) ->
  exists r, root_entry_step img false off want c size = Some r /\
    forall img', r = Some img' -> same_out img img' (Z.to_nat off) (Z.to_nat off + 32) /\ entry_points img' off c size.
Proof using T Hwant Hwb Hc Hsize.
  intros Hb H0 Hl. unfold root_entry_step. destruct (dir_entry_ok img off Hb H0 Hl) as [He Heb].
  destruct (lookup_lt_is_Some_2 (dir_entry img off) 0) as [e0 ->]; [lia|]. cbn [mbind option_bind]. destruct (_ || _).
  - rewrite memset_spec by lia. cbn [mbind option_bind]. rewrite memcpy_obj_spec by (rewrite ?length_inserts; lia). cbn [mbind option_bind].
    rewrite put_inserts by (rewrite !length_inserts; lia). cbn [mbind option_bind]. rewrite take_ge by lia.
    set (i1 := list_inserts (Z.to_nat off) (replicate 32 (u8 0)) img). set (i2 := list_inserts (Z.to_nat off) want i1).
    set (i3 := list_inserts (Z.to_nat (off + 11)) [32] i2).
    assert (same_out img i1 (Z.to_nat off) (Z.to_nat off + 32)) as S1 by (apply (same_out_inserts img (replicate 32 (u8 0))); apply Forall_replicate; done).
    assert (same_out i1 i2 (Z.to_nat off) (Z.to_nat off + 32)) as S2.
    { eapply same_out_weaken; [by apply same_out_inserts|lia|lia]. }
    assert (same_out i2 i3 (Z.to_nat off) (Z.to_nat off + 32)) as S3.
    { eapply same_out_weaken; [apply same_out_inserts; by repeat constructor|lia|simpl; lia]. }
    pose proof (same_out_trans _ _ _ _ _ (same_out_trans _ _ _ _ _ S1 S2) S3) as S13. pose proof S13 as (L & B & _).
    destruct (set_entry_file_ok i3 off c size (B Hb) H0) as (img' & -> & S & P); [lia|done|done|]. cbn [mbind option_bind].
    eexists. split; [done|]. intros ? [= <-]. split; [by eapply same_out_trans|done].
  - destruct (lookup_lt_is_Some_2 (dir_entry img off) 11) as [attr ->]; [lia|]. cbn [mbind option_bind negb andb].
    destruct (attr =? 15); [by eexists|]. destruct (format_83_ok (dir_entry img off) 64 He) as (nm & -> & Hnm). cbn [mbind option_bind].
    destruct (stricmp_total nm (want ++ [0]) Hnm) as [r ->]; [set_solver|]. cbn [mbind option_bind]. destruct (r =? 0); [|by eexists].
    destruct (set_entry_file_ok img off c size Hb H0 Hl Hc Hsize) as (img' & -> & S & P). cbn [mbind option_bind].
    eexists. split; [done|]. by intros ? [= <-].
Qed.

Lemma cluster_write_ok img n : bytes img -> forall off, 0 <= off -> off + 32 * Z.of_nat n <= Z.of_nat (length img) ->
  exists r, cluster_write img want c size off n = Some r /\
    forall img', r = Some img' -> exists o, off <= o /\ o + 32 <= off + 32 * Z.of_nat n /\
      same_out img img' (Z.to_nat o) (Z.to_nat o + 32) /\ entry_points img' o c size.
Proof using T Hwant Hwb Hc Hsize.
  intros Hb. induction n as [|n IH]; intros off H0 Hl; cbn [cluster_write]; [by eexists|].
  destruct (root_entry_step_ok img off Hb H0) as (r & -> & Hr); [lia|]. cbn [mbind option_bind]. destruct r as [img1|].
  - eexists. split; [done|]. intros ? [= <-]. destruct (Hr img1 eq_refl). exists off. split_and!; [lia|lia|done|done].
  - destruct (IH (off + 32)) as (r & -> & Hr'); [lia|lia|]. exists r. split; [done|]. intros img' E.
    destruct (Hr' img' E) as (o & ? & ? & ?). exists o. split_and!; [lia|lia|..]; apply H2.
Qed.

Lemma chain_write_ok img fuel : vol_ok fs img -> forall d cs, fat_chain img fs d cs -> d < FAT32_CLUSTER_EOC -> (length cs <= fuel)%nat ->
  exists r, chain_write fuel img fs want c size d = Some r /\
    forall img', r = Some img' -> exists x o, x ∈ cs /\ cluster_offset_bytes fs x <= o /\
      o + 32 <= cluster_offset_bytes fs x + cluster_bytes fs /\
      same_out img img' (Z.to_nat o) (Z.to_nat o + 32) /\ entry_points img' o c size.
Proof using T Hwant Hwb Hc Hsize.
  intros V. induction fuel as [|fuel IH]; intros d cs Hch Hlt Hlen; [destruct cs; [done|simpl in Hlen; lia]|].
  destruct cs as [|x cs]; [done|]. destruct Hch as (-> & Hv & Hin & next & Enext & Hnext). cbn [chain_write].
  rewrite Hv, (proj2 (Z.ltb_lt _ _) Hlt). cbn [andb]. rewrite (offset_check fs img V) by done.
  destruct (Z.ltb_spec (ff_image_size fs) (cluster_offset_bytes fs d + cluster_bytes fs)); [lia|].
  pose proof (vo_size _ _ V). pose proof (proj2 (cluster_bytes_eq fs img V)).
  destruct (cluster_entries fs img V d Hv) as [Ho Hn]; [lia|].
  destruct (cluster_write_ok img (Z.to_nat (cluster_bytes fs / 32)) (vo_bytes _ _ V) (cluster_offset_bytes fs d) Ho) as (r & -> & Hr); [lia|].
  cbn [mbind option_bind]. destruct r as [img1|].
  - eexists. split; [done|]. intros ? [= <-]. destruct (Hr img1 eq_refl) as (o & H3 & H4 & H5). exists d, o.
    pose proof (Z.mul_div_le (cluster_bytes fs) 32 ltac:(lia)). pose proof (Z.div_pos (cluster_bytes fs) 32 ltac:(lia) ltac:(lia)).
    split; [set_solver|]. split; [done|]. split; [rewrite Z2Nat.id in H4 by done; lia|done].
  - rewrite Enext. cbn [mbind option_bind]. destruct cs as [|y cs].
    + destruct (Z.leb_spec FAT32_CLUSTER_EOC next) as [|Hlt']; [by eexists|].
      unfold stops in Hnext. rewrite (proj2 (Z.leb_gt _ _) Hlt'), orb_false_l in Hnext. apply negb_true_iff in Hnext.
      destruct fuel; cbn [chain_write]; rewrite Hnext; by eexists.
    + destruct Hnext as [Hs Hch]. destruct (stops_false _ _ Hs) as [_ Hlt']. rewrite (proj2 (Z.leb_gt _ _) Hlt').
      destruct (IH next (y :: cs) Hch Hlt') as (r & -> & Hr'); [simpl in *; lia|]. exists r. split; [done|]. intros img' E.
      destruct (Hr' img' E) as (x & o & Hx & R). exists x, o. split; [set_solver|done].
Qed.
End write.

(** ** The three writes together *)

Section upsert.
Context (fs : fat32_fs_t) (T : table_ok fs).

Lemma next_keep img img' lo hi x : vol_ok fs img -> same_out img img' lo hi -> cluster_is_valid fs x = true ->
  (fat_slot fs x + 4 <= lo \/ hi <= fat_slot fs x)%nat -> fat_next_cluster img' fs x = fat_next_cluster img fs x.
Proof using T.
  intros V S Hv Hd. rewrite !(next_slice fs T) by (done || by eapply vol_same). by rewrite (same_out_slice _ _ _ _ _ _ S).
Qed.

Lemma slots_apart img x y : vol_ok fs img -> cluster_is_valid fs x = true -> cluster_is_valid fs y = true -> x <> y ->
  (fat_slot fs x + 4 <= fat_slot fs y \/ fat_slot fs y + 4 <= fat_slot fs x)%nat.
Proof using T.
  intros V Hx Hy Hne. destruct (slot_range fs T img x V Hx) as (Ex & ? & _). destruct (slot_range fs T img y V Hy) as (Ey & ? & _). unfold fat_slot. lia.
Qed.

(** The table is in front of every cluster. *)
Lemma slot_before img x y : vol_ok fs img -> cluster_is_valid fs x = true -> cluster_is_valid fs y = true ->
  (fat_slot fs x + 4 <= Z.to_nat (cluster_offset_bytes fs y))%nat.
Proof using T.
  intros V Hx Hy. destruct (slot_range fs T img x V Hx) as (_ & ? & ? & _). destruct (cluster_range fs img y V Hy). unfold fat_slot. lia.
Qed.

(** What the writes do to the volume: [c] gets the data and its own chain, and the entry at [o], if
    there is one, is the only other change. *)
Record file_stored (img img' : list Z) (rcs : list Z) (c len : Z) (data : list Z) (o : option Z) : Prop := {
  sd_vol : vol_ok fs img';
  sd_chain : fat_chain img' fs c [c];
  sd_data : take (Z.to_nat len) (cluster_data img' fs c) = take (Z.to_nat len) data;
  sd_next : forall x, cluster_is_valid fs x = true -> x <> c -> fat_next_cluster img' fs x = fat_next_cluster img fs x;
  sd_other : forall x, cluster_is_valid fs x = true -> x <> c -> x ∉ rcs -> cluster_data img' fs x = cluster_data img fs x;
  sd_entry : forall p, o = Some p -> entry_points img' p c len /\ exists x, x ∈ rcs /\
    cluster_offset_bytes fs x <= p /\ p + 32 <= cluster_offset_bytes fs x + cluster_bytes fs;
}.

Lemma write_data_ok img rcs c data len :
  vol_ok fs img -> cluster_is_valid fs c = true -> 0 < len <= cluster_bytes fs -> len <= Z.of_nat (length data) -> bytes data ->
  exists img', fat_write_file_data img fs c data len = Some (0, img') /\ file_stored img img' rcs c len data None.
Proof using T.
  intros V Hv Hlen Hd Hb. unfold fat_write_file_data. destruct (Z.to_nat len) as [|fuel] eqn:Hf; [lia|]. cbn [write_data_loop].
  destruct (Z.leb_spec len 0); [lia|]. rewrite Hv. cbn [negb]. rewrite (offset_check fs img V) by done.
  destruct (cluster_range fs img c V Hv) as [Hc1 Hc2]. destruct (Z.ltb_spec (ff_image_size fs) (cluster_offset_bytes fs c + cluster_bytes fs)); [lia|].
  rewrite Z.sub_0_r, Z.min_r by lia. pose proof (vo_size _ _ V). destruct (slot_range fs T img c V Hv) as (_ & Hs0 & Hs1 & _).
  rewrite drop_0, memcpy_obj_spec by lia. cbn [mbind option_bind]. rewrite Z.add_0_l. destruct (Z.ltb_spec len len); [lia|].
  set (co := Z.to_nat (cluster_offset_bytes fs c)) in *. set (img1 := list_inserts co (take (Z.to_nat len) data) img).
  assert (length (take (Z.to_nat len) data) = Z.to_nat len) as Hlt by (rewrite length_take; lia).
  assert (same_out img img1 co (co + Z.to_nat len)) as S1.
  { pose proof (same_out_inserts img (take (Z.to_nat len) data) co ltac:(by apply Forall_take)) as S1. by rewrite Hlt in S1. }
  pose proof (vol_same _ _ _ _ _ V S1) as V1. unfold fat_link. rewrite (to_32 _ T).
  destruct (fat_set32_ok fs T img1 c FAT32_CLUSTER_EOC V1 Hv ltac:(by unfold FAT32_CLUSTER_EOC)) as (img2 & -> & S2 & Hn). cbn [mbind option_bind].
  exists img2. split; [done|]. pose proof (slot_before img c c V Hv Hv) as Hb0. fold co in Hb0. split.
  - by eapply vol_same.
  - split_and!; [done|done|lia|]. eexists. split; [exact Hn|]. done.
  - unfold cluster_data. fold co. rewrite (same_out_slice _ _ _ _ _ _ S2) by lia. unfold slice. rewrite take_take, Nat.min_l by lia.
    unfold img1. change (take (Z.to_nat len) (drop co ?l)) with (slice co (Z.to_nat len) l). rewrite <- Hlt at 1. apply slice_inserts_same. lia.
  - intros x Hx Hne. pose proof (slots_apart img x c V Hx Hv Hne). pose proof (slot_before img x c V Hx Hv).
    rewrite (next_keep img1 img2 _ _ x V1 S2 Hx) by lia. apply (next_keep img img1 _ _ x V S1 Hx). unfold co. lia.
  - intros x Hx Hne _. pose proof (slot_before img c x V Hv Hx). destruct (cluster_range fs img x V Hx).
    pose proof (clusters_apart fs img x c V Hx Hv Hne). pose proof (proj2 (cluster_bytes_eq fs img V)).
    unfold cluster_data. rewrite (same_out_slice _ _ _ _ _ _ S2) by lia. apply (same_out_slice _ _ _ _ _ _ S1). unfold co. lia.
  - done.
Qed.

Lemma name_field_ok name n : forall i, (i + n <= length name)%nat -> bytes name ->
  exists want, name_field name i n = Some want /\ length want = n /\ bytes want.
Proof using.
  induction n as [|n IH]; intros i Hi Hb; cbn [name_field]; [by exists []|].
  destruct (lookup_lt_is_Some_2 name i) as [b E]; [lia|]. rewrite E. cbn [mbind option_bind].
  destruct (IH (S i) ltac:(lia) Hb) as (w & -> & Hl & Hw). cbn [mbind option_bind]. eexists. split; [done|]. split; [simpl; lia|].
  constructor; [|done]. pose proof (bytes_lookup _ _ _ Hb E). destruct (b =? 0); lia.
Qed.

Lemma write_entry_ok img img1 rcs name c data len :
  file_stored img img1 rcs c len data None -> vol_ok fs img -> fat_chain img fs (ff_root_cluster fs) rcs -> ff_root_cluster fs < FAT32_CLUSTER_EOC ->
  c ∉ rcs -> cluster_is_valid fs c = true -> 0 <= len < 2 ^ 32 -> (8 <= length name)%nat -> bytes name ->
  exists r, fat_write_root_entry img1 fs name c len = Some r /\
    forall img', r = Some img' -> exists o, file_stored img img' rcs c len data (Some o).
Proof using T.
  intros S V Hr Heoc Hc Hv Hlen Hname Hb. unfold fat_write_root_entry. destruct (name_field_ok name 8 0) as (want & -> & Hw & Hwb); [lia|done|].
  cbn [mbind option_bind]. rewrite (to_32 _ T). pose proof (sd_vol _ _ _ _ _ _ _ S) as V1.
  assert (fat_chain img1 fs (ff_root_cluster fs) rcs) as Hr1.
  { eapply fat_chain_same; [|exact Hr]. intros x Hx. apply (sd_next _ _ _ _ _ _ _ S); [by eapply chain_valid|]. intros ->. done. }
  assert (cluster_is_valid fs (ff_root_cluster fs) = true) as Hrv by (destruct rcs; [done|]; apply Hr). rewrite Hrv. cbn [negb].
  destruct (chain_write_ok fs T want Hw Hwb c len (valid_u32 fs img V c Hv) Hlen img1 (chain_fuel fs) V1 _ rcs Hr1 Heoc (chain_length fs img1 _ rcs V1 Hr1))
    as (r & -> & Hres). exists r. split; [done|]. intros img' E. destruct (Hres img' E) as (x & o & Hx & Ho1 & Ho2 & S2 & P). exists o.
  pose proof (chain_valid _ _ _ _ _ Hr Hx) as Hxv. destruct (cluster_range fs img x V Hxv).
  assert (forall y, cluster_is_valid fs y = true -> (fat_slot fs y + 4 <= Z.to_nat o)%nat) as Hsl.
  { intros y Hy. pose proof (slot_before img y x V Hy Hxv). lia. }
  assert (forall y, cluster_is_valid fs y = true -> y <> x -> cluster_data img' fs y = cluster_data img1 fs y) as Hcd.
  { intros y Hy Hne. apply (same_out_slice _ _ _ _ _ _ S2). pose proof (clusters_apart fs img y x V Hy Hxv Hne).
    destruct (cluster_range fs img y V Hy). pose proof (proj2 (cluster_bytes_eq fs img V)).
    destruct (slot_range fs T img y V Hy) as (_ & ? & ? & _). lia. }
  assert (c <> x) as Hcx by congruence. split.
  - by eapply vol_same.
  - eapply fat_chain_same; [|apply S]. intros y ->%list_elem_of_singleton. eapply next_keep; [exact V1|exact S2|done|left; by apply Hsl].
  - rewrite Hcd by done. apply S.
  - intros y Hy Hne. rewrite <- (sd_next _ _ _ _ _ _ _ S y Hy Hne). eapply next_keep; [exact V1|exact S2|done|left; by apply Hsl].
  - intros y Hy Hne Hin. rewrite Hcd by (done || congruence). by apply S.
  - intros p [= <-]. split; [done|]. by exists x.
Qed.
End upsert.


(** ** Examples *)

Module FatStore.
(** "NEW" padded with blanks. *)
Definition name : list Z := [78; 69; 87; 32; 32; 32; 32; 32; 0].
Definition store (img data : list Z) : option (Z * list Z) :=
  fat32_image_upsert_file 4096 img 1536 (Some name) (Some data) (Z.of_nat (length data)).
End FatStore.


(** The file is stored in cluster 5, the first free one. *)
Theorem stored_in_first_free :
  (match FatStore.store FatSample.image (replicate 100 9) with
   | Some (rc, img) => Some (rc, cluster_data img FatSample.volume 5, fat_next_cluster img FatSample.volume 5)
   | None => None
   end) = Some (0, replicate 100 9 ++ replicate 28 0, Some FAT32_CLUSTER_EOC).
Proof. vm_compute. reflexivity. Qed.

(** The entry has the first eight characters of the name and an extension of zeros, so the file is not
    found by its name afterwards, and storing it again makes a second entry. *)
Theorem stored_file_is_not_found :
  ('(rc, img) ← FatStore.store FatSample.image (replicate 100 9);
   found ← iter_dir_find img FatSample.volume 2 (Some [78; 69; 87; 0]);
   '(rc2, img2) ← FatStore.store img (replicate 100 9);
   Some (rc, found, rc2, slice 672 8 img2, slice 704 8 img2)) =
  Some (0, None, 0, take 8 FatStore.name, take 8 FatStore.name).
Proof. vm_compute. reflexivity. Qed.

(** Data of more than one cluster: the search for the next cluster finds the first one again, which is
    still marked free, so the chain is cut to one cluster that holds the end of the data. *)
Theorem long_file_loses_its_head :
  ('(rc, img) ← FatStore.store FatSample.image (replicate 128 9 ++ replicate 50 8);
   next ← fat_next_cluster img FatSample.volume 5;
   Some (rc, cluster_data img FatSample.volume 5, next, cluster_data img FatSample.volume 6)) =
  Some (0, replicate 50 8 ++ replicate 78 9, FAT32_CLUSTER_EOC, replicate 128 0).
Proof. vm_compute. reflexivity. Qed.
