(* ===== verification/Security.v ===== *)
(** * Security module (src/kernel/security/security.c, security.h)

    Entropy pool, audit ring, rate limiter of failed logins and the check for
    writable and executable mappings.  The time stamp counter, RDRAND, CPUID and the
    PIT ticks are arguments.  The three spin locks are taken and released on every
    path and are not modelled. *)

From Stdlib Require Import ZArith Lia.
From stdpp Require Import base strings sets list.
From S2P Require Import Prelude KString.

Local Open Scope Z_scope.

(** ** Entropy pool *)

Definition POOL_WORDS : nat := 32.

Record pool_t := mk_pool { pl_words : list Z; pl_idx : Z }.

Definition ROTL64 (x n : Z) : Z := Z.lor (u64 (Z.shiftl x n)) (Z.shiftr x (64 - n)).

(** The four words after a round. *)
Definition quarter (a b c d : Z) : Z * Z * Z * Z :=
  let a := u64 (a + b) in let d := ROTL64 (Z.lxor d a) 32 in
  let c := u64 (c + d) in let b := ROTL64 (Z.lxor b c) 24 in
  let a := u64 (a + b) in let d := ROTL64 (Z.lxor d a) 16 in
  let c := u64 (c + d) in let b := ROTL64 (Z.lxor b c) 63 in
  (a, b, c, d).

(** [pool_quarter_round] on the words at four indices. *)
Definition pool_quarter_round (p : list Z) (ia ib ic id : nat) : option (list Z) :=
  a ← p !! ia; b ← p !! ib; c ← p !! ic; d ← p !! id;
  let '(a, b, c, d) := quarter a b c d in
  Some (<[id := d]> (<[ic := c]> (<[ib := b]> (<[ia := a]> p)))).

Definition mix_column (p : list Z) (i : nat) : option (list Z) :=
  p ← pool_quarter_round p (0 + i) (4 + i) (8 + i) (12 + i);
  pool_quarter_round p (16 + i) (20 + i) (24 + i) (28 + i).

Fixpoint pool_mix_from (p : list Z) (i n : nat) : option (list Z) :=
  match n with
  | O => Some p
  | S n' => p ← mix_column p i; pool_mix_from p (S i) n'
  end.

Definition pool_mix (p : list Z) : option (list Z) := pool_mix_from p 0 4.

(** [g_pool[g_pool_idx % POOL_WORDS] ^= v] *)
Definition stir (st : pool_t) (v : Z) : option (list Z) :=
  let i := Z.to_nat (pl_idx st mod Z.of_nat POOL_WORDS) in
  x ← pl_words st !! i; Some (<[i := Z.lxor x v]> (pl_words st)).

Definition entropy_mix (st : pool_t) (seed : Z) : option pool_t :=
  p ← stir st seed;
  p ← pool_mix p;
  Some (mk_pool p (u32 (pl_idx st + 1))).

(** [tsc] is what [sec_rdtsc] returns. *)
Definition entropy_get64 (st : pool_t) (tsc : Z) : option (Z * pool_t) :=
  p ← stir st tsc;
  p ← pool_mix p;
  w0 ← p !! 0%nat;
  wh ← p !! (POOL_WORDS / 2)%nat;
  w1 ← p !! 1%nat;
  Some (Z.lxor w0 wh, mk_pool (<[0%nat := u64 (w0 + w1)]> p) (u32 (pl_idx st + 1))).

(** ** Audit log *)

Definition AUDIT_LOGIN_OK : Z := 0x01.
Definition AUDIT_LOGIN_FAIL : Z := 0x02.
Definition AUDIT_SYSCALL_DENY : Z := 0x04.
Definition AUDIT_EXEC : Z := 0x05.
Definition AUDIT_STACK_SMASH : Z := 0x06.
Definition AUDIT_RING_SIZE : Z := 64.
Definition AUDIT_DETAIL_LEN : nat := 48.

Record audit_entry_t := mk_audit {
  au_timestamp_ns : Z;
  au_pid : Z;
  au_uid : Z;
  au_event : Z;
  au_detail : list Z;
}.

Record audit_t := mk_audit_ring { ar_ring : list audit_entry_t; ar_head : Z }.

Definition zero_audit : audit_entry_t := mk_audit 0 0 0 0 (replicate AUDIT_DETAIL_LEN 0).

Definition detail_bytes (detail : option (list Z)) : option (list Z) :=
  match detail with
  | None => Some (replicate AUDIT_DETAIL_LEN 0)
  | Some d =>
      len ← strlen d;
      memcpy_obj (replicate AUDIT_DETAIL_LEN 0) 0 d (if (AUDIT_DETAIL_LEN <=? len)%nat then AUDIT_DETAIL_LEN - 1 else len)
  end.

(** [ticks] is what [pit_ticks] returns. *)
Definition audit_log (a : audit_t) (ticks pid uid event : Z) (detail : option (list Z)) : option audit_t :=
  let i := Z.to_nat (ar_head a mod AUDIT_RING_SIZE) in
  bytes ← detail_bytes detail;
  if decide (i < length (ar_ring a))%nat then
    Some (mk_audit_ring (<[i := mk_audit (u64 (ticks * 10000000)) pid uid event bytes]> (ar_ring a)) (u32 (ar_head a + 1)))
  else None.

(** The entries [audit_dump] prints, in order. *)
Fixpoint dump_loop (ring : list audit_entry_t) (start i : Z) (n : nat) : option (list audit_entry_t) :=
  match n with
  | O => Some []
  | S n' =>
      e ← ring !! Z.to_nat ((start + i) mod AUDIT_RING_SIZE);
      rest ← dump_loop ring start (i + 1) n';
      Some (e :: rest)
  end.

Definition audit_dump (a : audit_t) : option (list audit_entry_t) :=
  let count := if ar_head a <? AUDIT_RING_SIZE then ar_head a else AUDIT_RING_SIZE in
  let start := if AUDIT_RING_SIZE <=? ar_head a then ar_head a mod AUDIT_RING_SIZE else 0 in
  dump_loop (ar_ring a) start 0 (Z.to_nat count).

(** ** Rate limiter *)

Definition RATELIMIT_MAX_USERS : nat := 32.
Definition RATELIMIT_WINDOW_NS : Z := 60 * 1000000000.
Definition RATELIMIT_LOCKOUT_NS : Z := 30 * 1000000000.
Definition RATELIMIT_THRESHOLD : Z := 5.

Record ratelimit_entry_t := mk_rl {
  rl_uid : Z;
  rl_fail_count : Z;
  rl_first_fail_ns : Z;
  rl_lockout_until_ns : Z;
}.

Definition zero_rl : ratelimit_entry_t := mk_rl 0 0 0 0.

Definition rl_find (t : list ratelimit_entry_t) (uid : Z) : option nat :=
  find_idx (fun e => (rl_uid e =? uid) && (0 <? rl_fail_count e)) t.

(** The scan for the entry with the oldest first failure. *)
Fixpoint oldest (t : list ratelimit_entry_t) (i : nat) (oldest_ts : Z) (oldest_idx : nat) : nat :=
  match t with
  | [] => oldest_idx
  | e :: rest =>
      if rl_first_fail_ns e <? oldest_ts then oldest rest (S i) (rl_first_fail_ns e) i else oldest rest (S i) oldest_ts oldest_idx
  end.

Definition rl_alloc (t : list ratelimit_entry_t) (uid : Z) : option (nat * list ratelimit_entry_t) :=
  match find_idx (fun e => rl_fail_count e =? 0) t with
  | Some i =>
      e ← t !! i;
      Some (i, <[i := mk_rl uid (rl_fail_count e) (rl_first_fail_ns e) (rl_lockout_until_ns e)]> t)
  | None =>
      let i := oldest t 0 (u64 (-1)) 0 in
      if decide (i < length t)%nat then Some (i, <[i := mk_rl uid 0 0 0]> t) else None
  end.

Record sec_st := mk_sec {
  se_pool : pool_t;
  se_audit : audit_t;
  se_rl : list ratelimit_entry_t;
  se_guard : Z;
}.

Definition set_audit (s : sec_st) (a : audit_t) : sec_st := mk_sec (se_pool s) a (se_rl s) (se_guard s).
Definition set_rl (s : sec_st) (t : list ratelimit_entry_t) : sec_st := mk_sec (se_pool s) (se_audit s) t (se_guard s).

Definition log_event (s : sec_st) (ticks uid event : Z) (detail : string) : option sec_st :=
  a ← audit_log (se_audit s) ticks 0 uid event (Some (c_str detail ++ [0])); Some (set_audit s a).

(** The entry after a failure at [now] when it is not locked. *)
Definition count_failure (e : ratelimit_entry_t) (now : Z) : ratelimit_entry_t :=
  let e := if RATELIMIT_WINDOW_NS <? u64 (now - rl_first_fail_ns e)
           then mk_rl (rl_uid e) 0 now (rl_lockout_until_ns e) else e in
  let first := if rl_fail_count e =? 0 then now else rl_first_fail_ns e in
  let count := u32 (rl_fail_count e + 1) in
  mk_rl (rl_uid e) count first
    (if RATELIMIT_THRESHOLD <=? count then u64 (now + RATELIMIT_LOCKOUT_NS) else rl_lockout_until_ns e).

Definition auth_fail (s : sec_st) (ticks uid : Z) : option (Z * sec_st) :=
  let now := u64 (ticks * 10000000) in
  '(i, t) ← (match rl_find (se_rl s) uid with Some i => Some (i, se_rl s) | None => rl_alloc (se_rl s) uid end);
  let s := set_rl s t in
  e ← t !! i;
  if now <? rl_lockout_until_ns e then
    s ← log_event s ticks uid AUDIT_LOGIN_FAIL "login attempt during lockout"; Some (1, s)
  else
    let e := count_failure e now in
    let s := set_rl s (<[i := e]> t) in
    if RATELIMIT_THRESHOLD <=? rl_fail_count e then
      s ← log_event s ticks uid AUDIT_LOGIN_FAIL "account locked after repeated failures"; Some (1, s)
    else
      s ← log_event s ticks uid AUDIT_LOGIN_FAIL "bad password"; Some (0, s).

Definition auth_success (s : sec_st) (ticks uid : Z) : option sec_st :=
  let t := match rl_find (se_rl s) uid with Some i => <[i := zero_rl]> (se_rl s) | None => se_rl s end in
  log_event (set_rl s t) ticks uid AUDIT_LOGIN_OK "login successful".

(** ** Writable and executable mappings *)

Definition SEC_PROT_WRITE : Z := 0x02.
Definition SEC_PROT_EXEC : Z := 0x04.

Definition security_check_wx (s : sec_st) (ticks prot : Z) : option (Z * sec_st) :=
  if negb (Z.land prot SEC_PROT_WRITE =? 0) && negb (Z.land prot SEC_PROT_EXEC =? 0) then
    s ← log_event s ticks 0 AUDIT_SYSCALL_DENY "W^X violation: write+exec mapping rejected"; Some (-1, s)
  else Some (0, s).

(** ** Initialisation *)

(** What the processor answers: three readings of the time stamp counter, RDRAND if it
    works, and the registers of CPUID leaves 0 and 1. *)
Record cpu_answers := mk_cpu {
  ca_tsc : Z; ca_tsc2 : Z; ca_tsc3 : Z;
  ca_rdrand : option Z;
  ca_leaf0 : Z * Z * Z * Z;
  ca_leaf1 : Z * Z * Z * Z;
}.

(** [((uint64_t)hi << 32) | lo] *)
Definition pair64 (hi lo : Z) : Z := Z.lor (Z.shiftl hi 32) lo.

Definition security_init (s : sec_st) (c : cpu_answers) (ticks : Z) : option sec_st :=
  let pool := mk_pool (replicate POOL_WORDS 0) (pl_idx (se_pool s)) in
  let audit := mk_audit_ring (replicate (Z.to_nat AUDIT_RING_SIZE) zero_audit) (ar_head (se_audit s)) in
  let '(eax0, ebx0, ecx0, edx0) := ca_leaf0 c in
  let '(eax1, _, _, edx1) := ca_leaf1 c in
  pool ← entropy_mix pool (ca_tsc c);
  pool ← entropy_mix pool (Z.lxor (ca_tsc c) 0xdeadbeefcafe0000);
  pool ← (match ca_rdrand c with Some rnd => entropy_mix pool rnd | None => Some pool end);
  pool ← entropy_mix pool (pair64 ebx0 edx0);
  pool ← entropy_mix pool (pair64 ecx0 eax0);
  pool ← entropy_mix pool (pair64 eax1 edx1);
  pool ← entropy_mix pool (ca_tsc2 c);
  '(canary, pool) ← entropy_get64 pool (ca_tsc3 c);
  let canary := if (canary =? 0) || (canary =? u64 (-1)) then 0x596f75416c6c6f77 else canary in
  log_event (mk_sec pool audit (replicate RATELIMIT_MAX_USERS zero_rl) canary) ticks 0 AUDIT_EXEC "security module initialised".

(** ** Lemmas: mixing *)

Lemma bits_small x i : 0 <= x < 2 ^ 64 -> 64 <= i -> Z.testbit x i = false.
Proof.
  intros Hx Hi. destruct (decide (x = 0)) as [->|]; [apply Z.bits_0|]. apply Z.bits_above_log2; [lia|].
  assert (Z.log2 x < 64) by (apply Z.log2_lt_pow2; lia). lia.
Qed.

Lemma bits_range x : 0 <= x -> (forall i, 64 <= i -> Z.testbit x i = false) -> x < 2 ^ 64.
Proof.
  intros H0 Hb. destruct (decide (x = 0)); [lia|]. apply Z.log2_lt_pow2; [lia|].
  destruct (decide (64 <= Z.log2 x)) as [Hl|]; [|lia]. pose proof (Z.bit_log2 x ltac:(lia)) as Ht. rewrite (Hb _ Hl) in Ht. done.
Qed.

Lemma lxor_range x y : 0 <= x < 2 ^ 64 -> 0 <= y < 2 ^ 64 -> 0 <= Z.lxor x y < 2 ^ 64.
Proof.
  intros Hx Hy. split; [apply Z.lxor_nonneg; lia|]. apply bits_range; [apply Z.lxor_nonneg; lia|].
  intros i Hi. by rewrite Z.lxor_spec, !bits_small by lia.
Qed.

Lemma lxor_undo x y : Z.lxor (Z.lxor x y) y = x.
Proof. by rewrite Z.lxor_assoc, Z.lxor_nilpotent, Z.lxor_0_r. Qed.

Lemma rotl_bits x n i : 0 <= x < 2 ^ 64 -> 0 < n < 64 -> 0 <= i < 64 -> Z.testbit (ROTL64 x n) i = Z.testbit x ((i - n) mod 64).
Proof.
  intros Hx Hn Hi. unfold ROTL64, u64. rewrite Z.lor_spec, Z.mod_pow2_bits_low, Z.shiftl_spec, Z.shiftr_spec by lia.
  destruct (decide (i < n)) as [Hlt|Hge].
  - rewrite (Z.testbit_neg_r x (i - n)) by lia. simpl. f_equal. rewrite <- (Z.mod_unique_pos (i - n) 64 (-1) (i + (64 - n))); lia.
  - rewrite (bits_small x (i + (64 - n))) by lia. rewrite orb_false_r, Z.mod_small by lia. done.
Qed.

Lemma rotl_range x n : 0 <= x < 2 ^ 64 -> 0 < n < 64 -> 0 <= ROTL64 x n < 2 ^ 64.
Proof.
  intros Hx Hn. assert (H0 : 0 <= ROTL64 x n).
  { apply Z.lor_nonneg. split; [apply u64_range|]. apply Z.shiftr_nonneg. lia. }
  split; [done|]. apply bits_range; [done|]. intros i Hi. unfold ROTL64.
  rewrite Z.lor_spec, Z.shiftr_spec, (bits_small x) by lia. rewrite bits_small; [done|apply u64_range|lia].
Qed.

Lemma rotl_undo x n : 0 <= x < 2 ^ 64 -> 0 < n < 64 -> ROTL64 (ROTL64 x n) (64 - n) = x.
Proof.
  intros Hx Hn. pose proof (rotl_range x n Hx Hn) as Hr. apply Z.bits_inj'. intros i Hi. destruct (decide (i < 64)) as [Hlt|].
  - rewrite rotl_bits by (done || lia). pose proof (Z.mod_pos_bound (i - (64 - n)) 64 ltac:(lia)). rewrite rotl_bits by (done || lia).
    f_equal. rewrite Zminus_mod_idemp_l. replace (i - (64 - n) - n) with (i + (-1) * 64) by lia. rewrite Z.mod_add by lia. apply Z.mod_small. lia.
  - pose proof (rotl_range _ (64 - n) Hr ltac:(lia)). by rewrite !bits_small by lia.
Qed.

Lemma u64_add_undo a b : 0 <= a < 2 ^ 64 -> u64 (u64 (a + b) - b) = a.
Proof. intros Ha. rewrite u64_sub_l. replace (a + b - b) with a by lia. by apply u64_small. Qed.

Definition word (x : Z) : Prop := 0 <= x < 2 ^ 64.

(** The round backwards. *)
Definition unquarter (a b c d : Z) : Z * Z * Z * Z :=
  let b := Z.lxor (ROTL64 b 1) c in let c := u64 (c - d) in
  let d := Z.lxor (ROTL64 d 48) a in let a := u64 (a - b) in
  let b := Z.lxor (ROTL64 b 40) c in let c := u64 (c - d) in
  let d := Z.lxor (ROTL64 d 32) a in let a := u64 (a - b) in
  (a, b, c, d).

Lemma quarter_word a b c d : word a -> word b -> word c -> word d ->
  let '(a', b', c', d') := quarter a b c d in word a' /\ word b' /\ word c' /\ word d'.
Proof.
  intros Ha Hb Hc Hd. unfold quarter, word in *. cbv zeta.
  split_and!; repeat first [apply u64_range | apply rotl_range; [|lia] | apply lxor_range]; auto using u64_range.
Qed.

Lemma quarter_undo a b c d : word a -> word b -> word c -> word d ->
  let '(a', b', c', d') := quarter a b c d in unquarter a' b' c' d' = (a, b, c, d).
Proof.
  unfold word, quarter, unquarter. intros Ha Hb Hc Hd. cbv zeta.
  set (a1 := u64 (a + b)). set (d1 := ROTL64 (Z.lxor d a1) 32). set (c1 := u64 (c + d1)). set (b1 := ROTL64 (Z.lxor b c1) 24).
  set (a2 := u64 (a1 + b1)). set (d2 := ROTL64 (Z.lxor d1 a2) 16). set (c2 := u64 (c1 + d2)). set (b2 := ROTL64 (Z.lxor b1 c2) 63).
  assert (Ha1 : word a1) by apply u64_range. assert (Hd1 : word d1) by (apply rotl_range; [by apply lxor_range|lia]).
  assert (Hc1 : word c1) by apply u64_range. assert (Hb1 : word b1) by (apply rotl_range; [by apply lxor_range|lia]).
  assert (Ha2 : word a2) by apply u64_range. assert (Hc2 : word c2) by apply u64_range.
  assert (E1 : Z.lxor (ROTL64 b2 1) c2 = b1) by (unfold b2; rewrite (rotl_undo _ 63) by (try apply lxor_range; done || lia); apply lxor_undo).
  assert (E2 : u64 (c2 - d2) = c1) by (by apply u64_add_undo).
  assert (E3 : Z.lxor (ROTL64 d2 48) a2 = d1) by (unfold d2; rewrite (rotl_undo _ 16) by (try apply lxor_range; done || lia); apply lxor_undo).
  rewrite E1, E2, E3. assert (E4 : u64 (a2 - b1) = a1) by (by apply u64_add_undo).
  assert (E5 : Z.lxor (ROTL64 b1 40) c1 = b) by (unfold b1; rewrite (rotl_undo _ 24) by (try apply lxor_range; done || lia); apply lxor_undo).
  assert (E6 : u64 (c1 - d1) = c) by (by apply u64_add_undo).
  assert (E7 : Z.lxor (ROTL64 d1 32) a1 = d) by (unfold d1; rewrite (rotl_undo _ 32) by (try apply lxor_range; done || lia); apply lxor_undo).
  assert (E8 : u64 (a1 - b) = a) by (by apply u64_add_undo).
  by rewrite E4, E5, E6, E7, E8.
Qed.

Definition pool_ok (p : list Z) : Prop := length p = POOL_WORDS /\ Forall word p.

(** A round on four words of the pool, backwards. *)
Definition pool_unround (p : list Z) (ia ib ic id : nat) : option (list Z) :=
  a ← p !! ia; b ← p !! ib; c ← p !! ic; d ← p !! id;
  let '(a, b, c, d) := unquarter a b c d in
  Some (<[id := d]> (<[ic := c]> (<[ib := b]> (<[ia := a]> p)))).

Section four.
Context (ia ib ic id : nat) (Hnd : NoDup [ia; ib; ic; id]).

Lemma four_ne : ia <> ib /\ ia <> ic /\ ia <> id /\ ib <> ic /\ ib <> id /\ ic <> id.
Proof. rewrite !NoDup_cons in Hnd. set_solver. Qed.

(** The four updates, looked up and undone. *)
Lemma four_lookup (p : list Z) a b c d :
  (ia < length p)%nat -> (ib < length p)%nat -> (ic < length p)%nat -> (id < length p)%nat ->
  let q := <[id := d]> (<[ic := c]> (<[ib := b]> (<[ia := a]> p))) in
  q !! ia = Some a /\ q !! ib = Some b /\ q !! ic = Some c /\ q !! id = Some d /\
  forall j, j <> ia -> j <> ib -> j <> ic -> j <> id -> q !! j = p !! j.
Proof.
  intros Ha Hb Hc Hd q. destruct four_ne as (?&?&?&?&?&?). unfold q.
  split_and!.
  - rewrite !list_lookup_insert_ne by done. by apply list_lookup_insert_eq.
  - rewrite !list_lookup_insert_ne by done. apply list_lookup_insert_eq. by rewrite length_insert.
  - rewrite list_lookup_insert_ne by done. apply list_lookup_insert_eq. by rewrite !length_insert.
  - apply list_lookup_insert_eq. by rewrite !length_insert.
  - intros j ????. by rewrite !list_lookup_insert_ne by done.
Qed.

Lemma round_ok p :
  pool_ok p -> (ia < 32)%nat -> (ib < 32)%nat -> (ic < 32)%nat -> (id < 32)%nat ->
  exists q, pool_quarter_round p ia ib ic id = Some q /\ pool_ok q /\ pool_unround q ia ib ic id = Some p.
Proof.
  intros [Hl Hw] Ha Hb Hc Hd. unfold POOL_WORDS in Hl. rewrite <- Hl in Ha, Hb, Hc, Hd.
  destruct (lookup_lt_is_Some_2 p ia Ha) as [a Ea]. destruct (lookup_lt_is_Some_2 p ib Hb) as [b Eb].
  destruct (lookup_lt_is_Some_2 p ic Hc) as [c Ec]. destruct (lookup_lt_is_Some_2 p id Hd) as [d Ed].
  pose proof (Forall_lookup_1 _ _ _ _ Hw Ea) as Wa. pose proof (Forall_lookup_1 _ _ _ _ Hw Eb) as Wb.
  pose proof (Forall_lookup_1 _ _ _ _ Hw Ec) as Wc. pose proof (Forall_lookup_1 _ _ _ _ Hw Ed) as Wd.
  pose proof (quarter_word a b c d Wa Wb Wc Wd) as Hq. pose proof (quarter_undo a b c d Wa Wb Wc Wd) as Hu.
  unfold pool_quarter_round. rewrite Ea, Eb, Ec, Ed. cbn [mbind option_bind].
  destruct (quarter a b c d) as [[[a' b'] c'] d']. destruct Hq as (? & ? & ? & ?).
  eexists. split; [done|]. set (q := <[id := d']> _). assert (Hlq : length q = length p) by (unfold q; by rewrite !length_insert).
  split; [split; [by rewrite Hlq|by repeat apply Forall_insert]|].
  destruct (four_lookup p a' b' c' d' Ha Hb Hc Hd) as (L1 & L2 & L3 & L4 & Hrest). fold q in L1, L2, L3, L4, Hrest.
  unfold pool_unround. rewrite L1, L2, L3, L4. cbn [mbind option_bind]. rewrite Hu. f_equal. rewrite <- Hlq in Ha, Hb, Hc, Hd.
  destruct (four_lookup q a b c d Ha Hb Hc Hd) as (M1 & M2 & M3 & M4 & Hrest'). apply list_eq. intros j.
  destruct (decide (j = ia)) as [->|]; [congruence|]. destruct (decide (j = ib)) as [->|]; [congruence|].
  destruct (decide (j = ic)) as [->|]; [congruence|]. destruct (decide (j = id)) as [->|]; [congruence|].
  rewrite Hrest' by done. by apply Hrest.
Qed.

End four.

(** Two pools that a mixing step makes equal were equal. *)
Definition injective (f : list Z -> option (list Z)) : Prop :=
  forall p, pool_ok p -> exists q, f p = Some q /\ pool_ok q /\ forall p', pool_ok p' -> f p' = Some q -> p' = p.

Lemma round_injective ia ib ic id :
  NoDup [ia; ib; ic; id] -> (ia < 32)%nat -> (ib < 32)%nat -> (ic < 32)%nat -> (id < 32)%nat ->
  injective (fun p => pool_quarter_round p ia ib ic id).
Proof.
  intros Hnd ? ? ? ? p Hp. destruct (round_ok ia ib ic id Hnd p Hp) as (q & Hq & Hok & Hu); try done.
  exists q. split_and!; [done|done|]. intros p' Hp' Hq'. destruct (round_ok ia ib ic id Hnd p' Hp') as (q' & Hq1 & _ & Hu'); try done. congruence.
Qed.

Lemma injective_bind f g : injective f -> injective g -> injective (fun p => q ← f p; g q).
Proof.
  intros Hf Hg p Hp. destruct (Hf p Hp) as (q & Hq & Hokq & Hinjq). destruct (Hg q Hokq) as (r & Hr & Hokr & Hinjr).
  exists r. split_and!; [by rewrite Hq|done|]. intros p' Hp' Hr'. destruct (Hf p' Hp') as (q' & Hq' & Hokq' & _).
  rewrite Hq' in Hr'. cbn [mbind option_bind] in Hr'. assert (q' = q) as -> by (by apply Hinjr). by apply Hinjq.
Qed.

Lemma pool_mix_injective : injective pool_mix.
Proof.
  assert (Hcol : forall i, (i < 4)%nat -> injective (fun p => mix_column p i)).
  { intros i Hi. apply (injective_bind (fun p => pool_quarter_round p (0 + i) (4 + i) (8 + i) (12 + i)));
      apply round_injective; try lia; rewrite !NoDup_cons; rewrite ?elem_of_cons, ?elem_of_nil; split_and!; try apply NoDup_nil_2; lia. }
  unfold pool_mix, pool_mix_from. apply (injective_bind (fun p => mix_column p 0)); [apply Hcol; lia|].
  apply (injective_bind (fun p => mix_column p 1)); [apply Hcol; lia|]. apply (injective_bind (fun p => mix_column p 2)); [apply Hcol; lia|].
  apply (injective_bind (fun p => mix_column p 3)); [apply Hcol; lia|]. intros p Hp. exists p. split_and!; [done|done|]. intros p' _ [= ->]. done.
Qed.

Lemma stir_ok st v :
  pool_ok (pl_words st) -> 0 <= pl_idx st -> word v ->
  exists p, stir st v = Some p /\ pool_ok p /\ forall st' v', pl_idx st' = pl_idx st -> stir st' v' = Some p ->
    (v' = v -> pl_words st' = pl_words st) /\ (pl_words st' = pl_words st -> v' = v).
Proof.
  intros [Hl Hw] Hi Hv. unfold stir. set (i := Z.to_nat _).
  assert (Hlt : (i < length (pl_words st))%nat).
  { rewrite Hl. unfold i, POOL_WORDS. pose proof (Z.mod_pos_bound (pl_idx st) 32). lia. }
  destruct (lookup_lt_is_Some_2 _ _ Hlt) as [x Hx]. rewrite Hx. cbn [mbind option_bind]. eexists. split; [done|]. split.
  - split; [by rewrite length_insert|]. apply Forall_insert; [done|]. apply lxor_range; [|done]. exact (Forall_lookup_1 _ _ _ _ Hw Hx).
  - intros st' v' Hidx. rewrite Hidx. fold i. destruct (pl_words st' !! i) as [x'|] eqn:Hx'; [|done]. cbn [mbind option_bind].
    intros Heq'. apply (inj Some) in Heq'.
    pose proof (lookup_lt_Some _ _ _ Hx') as Hlt'. pose proof (f_equal (fun l => l !! i) Heq') as Hi0. simpl in Hi0.
    rewrite !list_lookup_insert_eq in Hi0 by done. injection Hi0 as Hxv. split.
    + intros ->. assert (x' = x) as -> by (rewrite <- (lxor_undo x' v), Hxv; apply lxor_undo). apply list_eq. intros j.
      destruct (decide (j = i)) as [->|Hne]; [congruence|]. pose proof (f_equal (fun l => l !! j) Heq') as Hj. simpl in Hj.
      by rewrite !list_lookup_insert_ne in Hj by done.
    + intros Hsame. rewrite Hsame, Hx in Hx'. injection Hx' as <-. rewrite <- (lxor_undo v' x), <- (lxor_undo v x).
      by rewrite !(Z.lxor_comm _ x), Hxv.
Qed.
