(* ===== verification/SecuritySpec.v ===== *)
(** * Specification of the security module

    The audit ring keeps the last 64 events; mixing the entropy pool loses nothing; the
    rate limiter counts the failures of an account. *)

From Stdlib Require Import ZArith Lia.
From stdpp Require Import base strings sets list.
From S2P Require Import Prelude KString Security.

Local Open Scope Z_scope.

(** ** Audit log *)

(** The ring holds the end of the history of events. *)
Record audit_rep (a : audit_t) (hist : list audit_entry_t) : Prop := {
  ap_ring : length (ar_ring a) = Z.to_nat AUDIT_RING_SIZE;
  ap_head : ar_head a = Z.of_nat (length hist);
  ap_small : Z.of_nat (length hist) < 2 ^ 32;
  ap_last : forall k e, hist !! k = Some e -> (length hist <= k + 64)%nat -> ar_ring a !! (k mod 64)%nat = Some e;
}.

(** The text of an event: at most 47 characters, padded with zeros. *)
Definition event_text (str : list Z) : list Z := take 47 str ++ replicate (48 - length (take 47 str)) 0.

Lemma detail_ok d str : cstring d str -> detail_bytes (Some d) = Some (event_text str).
Proof.
  intros Hd. unfold detail_bytes. rewrite (strlen_cstring _ _ Hd). cbn [mbind option_bind]. destruct Hd as (rest & -> & _).
  match goal with |- context [memcpy_obj _ _ _ ?x] => set (n := x) end. assert (Hn : n = length (take 47 str)).
  { unfold n, AUDIT_DETAIL_LEN. rewrite length_take. destruct (Nat.leb_spec 48 (length str)); lia. }
  assert (Hle : (n <= 47 /\ n <= length str)%nat) by (rewrite Hn, length_take; lia).
  rewrite memcpy_obj_spec by (rewrite ?length_replicate, ?length_app; unfold AUDIT_DETAIL_LEN; simpl; lia).
  assert (Ht : take n (str ++ 0 :: rest) = take 47 str).
  { rewrite take_app_le by lia. rewrite Hn, length_take. destruct (decide (47 <= length str)%nat).
    - by rewrite Nat.min_l by lia.
    - by rewrite Nat.min_r, !take_ge by lia. }
  rewrite Ht, inserts_prefix by (rewrite length_replicate, <- Hn; unfold AUDIT_DETAIL_LEN; lia).
  by rewrite drop_replicate.
Qed.

Lemma mod64 k : Z.to_nat (Z.of_nat k mod AUDIT_RING_SIZE) = (k mod 64)%nat.
Proof. unfold AUDIT_RING_SIZE. change 64 with (Z.of_nat 64). rewrite <- Nat2Z.inj_mod. apply Nat2Z.id. Qed.

Lemma log_ok a hist ticks pid uid event d str :
  audit_rep a hist -> Z.of_nat (length hist) + 1 < 2 ^ 32 -> cstring d str ->
  exists a', audit_log a ticks pid uid event (Some d) = Some a' /\
    audit_rep a' (hist ++ [mk_audit (u64 (ticks * 10000000)) pid uid event (event_text str)]).
Proof.
  intros [Hr Hh Hs Hl] Hmax Hd. unfold audit_log. rewrite (detail_ok _ _ Hd), Hh, mod64. cbn [mbind option_bind].
  pose proof (Nat.mod_upper_bound (length hist) 64 ltac:(lia)) as Hlt. unfold AUDIT_RING_SIZE in Hr.
  rewrite decide_True by lia. eexists. split; [done|]. constructor; cbn [ar_ring ar_head].
  - by rewrite length_insert.
  - rewrite length_app, u32_small by lia. cbn [length]. lia.
  - rewrite length_app. cbn [length]. lia.
  - intros k e Hk. rewrite length_app. cbn [length]. intros Hlen. apply lookup_app_Some in Hk as [Hk|[Hge Hk]].
    + pose proof (lookup_lt_Some _ _ _ Hk). rewrite list_lookup_insert_ne; [apply Hl; [done|lia]|].
      intros Heq. pose proof (Nat.div_mod_eq k 64). pose proof (Nat.div_mod_eq (length hist) 64). lia.
    + apply list_lookup_singleton_Some in Hk as [Hk <-]. replace k with (length hist) by lia. apply list_lookup_insert_eq. lia.
Qed.

Lemma dump_loop_ok a hist start i n b :
  audit_rep a hist -> (b = length hist - 64)%nat -> (b + i + n <= length hist)%nat ->
  (forall j, (i <= j < i + n)%nat -> (start + Z.of_nat j) mod AUDIT_RING_SIZE = Z.of_nat (b + j) mod AUDIT_RING_SIZE) ->
  dump_loop (ar_ring a) start (Z.of_nat i) n = Some (slice (b + i) n hist).
Proof.
  intros Hrep Hb. revert i. induction n as [|n IH]; intros i Hlen Hj; cbn [dump_loop]; [done|].
  destruct (lookup_lt_is_Some_2 hist (b + i)) as [e He]; [lia|].
  rewrite (Hj i) by lia. rewrite mod64. rewrite (ap_last _ _ Hrep (b + i) e He) by lia. cbn [mbind option_bind].
  replace (Z.of_nat i + 1) with (Z.of_nat (S i)) by lia. rewrite IH; [|lia|intros j Hj'; apply Hj; lia]. cbn [mbind option_bind].
  rewrite (slice_S _ _ _ _ He). by rewrite Nat.add_succ_r.
Qed.

Lemma dump_ok a hist : audit_rep a hist -> audit_dump a = Some (drop (length hist - 64) hist).
Proof.
  intros Hrep. unfold audit_dump. rewrite (ap_head _ _ Hrep). set (b := (length hist - 64)%nat).
  assert (Hall : forall start n, (n = length hist - b)%nat ->
      (forall j, (j < n)%nat -> (start + Z.of_nat j) mod AUDIT_RING_SIZE = Z.of_nat (b + j) mod AUDIT_RING_SIZE) ->
      dump_loop (ar_ring a) start 0 n = Some (drop b hist)).
  { intros start n Hn Hj. pose proof (dump_loop_ok a hist start 0 n b Hrep eq_refl ltac:(lia)) as Hd. change (Z.of_nat 0) with 0 in Hd.
    rewrite Hd by (intros j ?; apply Hj; lia). rewrite Nat.add_0_r. unfold slice. by rewrite take_ge by (rewrite length_drop; lia). }
  unfold AUDIT_RING_SIZE in *. destruct (Z.ltb_spec (Z.of_nat (length hist)) 64) as [Hlt|Hge].
  - rewrite (proj2 (Z.leb_gt _ _)) by lia. apply Hall; [unfold b; lia|]. intros j Hj. f_equal. unfold b. lia.
  - rewrite (proj2 (Z.leb_le _ _)) by lia. apply Hall; [unfold b; lia|]. intros j Hj. rewrite Zplus_mod_idemp_l.
    replace (Z.of_nat (length hist) + Z.of_nat j) with (Z.of_nat (b + j) + 1 * 64) by (unfold b; lia). by rewrite Z.mod_add by lia.
Qed.

(** ** Rate limiter *)

(** Entries that count nothing are empty, and no account has two. *)
Record rl_inv (t : list ratelimit_entry_t) : Prop := {
  rv_len : length t = RATELIMIT_MAX_USERS;
  rv_empty : forall i e, t !! i = Some e -> rl_fail_count e = 0 -> e = zero_rl;
  rv_count : forall i e, t !! i = Some e -> 0 <= rl_fail_count e < 2 ^ 32;
  rv_uniq : forall i j e e', t !! i = Some e -> t !! j = Some e' -> 0 < rl_fail_count e -> 0 < rl_fail_count e' ->
    rl_uid e = rl_uid e' -> i = j;
}.

(** The record of an account, if failures are counted. *)
Definition account (t : list ratelimit_entry_t) (uid : Z) (e : ratelimit_entry_t) : Prop :=
  exists i, t !! i = Some e /\ rl_uid e = uid /\ 0 < rl_fail_count e.

Lemma rl_find_ok t uid :
  match rl_find t uid with
  | Some i => exists e, t !! i = Some e /\ rl_uid e = uid /\ 0 < rl_fail_count e
  | None => forall e, ~ account t uid e
  end.
Proof.
  unfold rl_find. destruct (find_idx _ t) as [i|] eqn:Hf.
  - apply find_idx_Some in Hf as (e & He & Hp & _). apply andb_true_iff in Hp as [Hu Hc]. apply Z.eqb_eq in Hu. apply Z.ltb_lt in Hc. by exists e.
  - rewrite find_idx_None in Hf. intros e (i & Hi & Hu & Hc). specialize (Hf i e Hi).
    rewrite (proj2 (Z.eqb_eq _ _) Hu), (proj2 (Z.ltb_lt _ _) Hc) in Hf. done.
Qed.

Lemma oldest_lt t i ts j : (j < i + length t)%nat \/ t = [] -> (oldest t i ts j < i + length t)%nat \/ oldest t i ts j = j.
Proof.
  intros _. revert i ts j. induction t as [|e t IH]; intros i ts j; simpl; [by right|]. destruct (_ <? _).
  - destruct (IH (S i) (rl_first_fail_ns e) i); left; lia.
  - destruct (IH (S i) ts j); [left; lia|by right].
Qed.

(** Setting the entry of an account with a positive count. *)
Lemma set_account_inv t i e0 e :
  rl_inv t -> t !! i = Some e0 -> 0 < rl_fail_count e < 2 ^ 32 ->
  (forall j e', j <> i -> t !! j = Some e' -> 0 < rl_fail_count e' -> rl_uid e' <> rl_uid e) -> rl_inv (<[i := e]> t).
Proof.
  intros [Hl He Hc Hu] Hi Hcnt Hno. pose proof (lookup_lt_Some _ _ _ Hi). constructor.
  - by rewrite length_insert.
  - intros j e' Hj H0. apply list_lookup_insert_Some in Hj as [(<- & <- & _)|[_ Hj]]; [lia|by eapply He].
  - intros j e' Hj. apply list_lookup_insert_Some in Hj as [(<- & <- & _)|[_ Hj]]; [lia|by eapply Hc].
  - intros j k e1 e2 Hj Hk H1 H2 Heq. apply list_lookup_insert_Some in Hj as [(<- & <- & _)|[Hne Hj]];
      apply list_lookup_insert_Some in Hk as [(<- & <- & _)|[Hne' Hk]]; [done| | |by eapply Hu].
    + exfalso. by apply (Hno k e2).
    + exfalso. by apply (Hno j e1).
Qed.

(** [ticks] that do not overflow the nanosecond counter. *)
Definition time_ok (ticks : Z) : Prop := 0 <= ticks /\ ticks * 10000000 + RATELIMIT_LOCKOUT_NS < 2 ^ 64.

Definition ns (ticks : Z) : Z := ticks * 10000000.

Lemma ns_ok ticks : time_ok ticks -> u64 (ticks * 10000000) = ns ticks /\ 0 <= ns ticks /\ ns ticks + RATELIMIT_LOCKOUT_NS < 2 ^ 64.
Proof. intros [H0 H1]. unfold RATELIMIT_LOCKOUT_NS, ns in *. split; [apply u64_small; lia|lia]. Qed.

Lemma log_event_ok s hist ticks uid event detail :
  audit_rep (se_audit s) hist -> Z.of_nat (length hist) + 1 < 2 ^ 32 -> cstring (c_str detail ++ [0]) (c_str detail) ->
  exists a, log_event s ticks uid event detail = Some (set_audit s a) /\
    audit_rep a (hist ++ [mk_audit (u64 (ticks * 10000000)) 0 uid event (event_text (c_str detail))]).
Proof.
  intros Hr Hm Hd. unfold log_event.
  destruct (log_ok (se_audit s) hist ticks 0 uid event _ _ Hr Hm Hd) as (a & -> & Ha). cbn [mbind option_bind]. by exists a.
Qed.

Ltac text_ok := eexists; split; [reflexivity|]; vm_compute; repeat (constructor; [by split|]); constructor.

(** The failure of an account that has a record. *)
Lemma fail_known s hist ticks uid e :
  rl_inv (se_rl s) -> audit_rep (se_audit s) hist -> Z.of_nat (length hist) + 1 < 2 ^ 32 -> time_ok ticks ->
  account (se_rl s) uid e -> rl_fail_count e + 1 < 2 ^ 32 ->
  exists r s' ev, auth_fail s ticks uid = Some (r, s') /\ rl_inv (se_rl s') /\ audit_rep (se_audit s') (hist ++ [ev]) /\
    (if ns ticks <? rl_lockout_until_ns e then r = 1 /\ se_rl s' = se_rl s
     else account (se_rl s') uid (count_failure e (ns ticks)) /\
          r = (if RATELIMIT_THRESHOLD <=? rl_fail_count (count_failure e (ns ticks)) then 1 else 0) /\
          forall u e', u <> uid -> account (se_rl s') u e' <-> account (se_rl s) u e').
Proof.
  intros Hinv Hrep Hmax Ht (i & Hi & Hu & Hc) Hcnt. destruct (ns_ok _ Ht) as (Hns & H0 & _). unfold auth_fail. rewrite Hns.
  pose proof (rl_find_ok (se_rl s) uid) as Hf. destruct (rl_find (se_rl s) uid) as [k|]; [|by exfalso; apply (Hf e); exists i].
  destruct Hf as (e0 & Hk & Hu0 & Hc0). assert (k = i) as -> by (eapply (rv_uniq _ Hinv); try done; congruence). rewrite Hi in Hk. simplify_eq.
  cbn [mbind option_bind]. rewrite Hi. cbn [mbind option_bind]. destruct (ns ticks <? rl_lockout_until_ns e0).
  { destruct (log_event_ok (set_rl s (se_rl s)) hist ticks (rl_uid e0) AUDIT_LOGIN_FAIL "login attempt during lockout" Hrep Hmax) as (a & -> & Ha); [text_ok|].
    cbn [mbind option_bind]. by do 3 eexists. }
  set (e1 := count_failure e0 (ns ticks)). pose proof (lookup_lt_Some _ _ _ Hi) as Hlt.
  assert (Hu1 : rl_uid e1 = rl_uid e0) by (unfold e1, count_failure; by destruct (_ <? _)).
  assert (Hc1 : 0 < rl_fail_count e1 < 2 ^ 32).
  { unfold e1, count_failure. destruct (_ <? u64 _); simpl; rewrite u32_small; lia. }
  assert (Hinv1 : rl_inv (<[i := e1]> (se_rl s))).
  { apply (set_account_inv _ _ e0); try done. intros j e' Hne Hj Hp Heq. apply Hne. eapply (rv_uniq _ Hinv); try done. congruence. }
  assert (Hacc : account (<[i := e1]> (se_rl s)) (rl_uid e0) e1) by (exists i; split_and!; [by apply list_lookup_insert_eq|done|lia]).
  assert (Hoth : forall u e', u <> rl_uid e0 -> account (<[i := e1]> (se_rl s)) u e' <-> account (se_rl s) u e').
  { intros u e' Hne. split; intros (j & Hj & Hju & Hjc); exists j; (split; [|done]).
    - apply list_lookup_insert_Some in Hj as [(<- & <- & _)|[_ Hj]]; [congruence|done].
    - rewrite list_lookup_insert_ne; [done|]. intros ->. congruence. }
  destruct (RATELIMIT_THRESHOLD <=? rl_fail_count e1).
  - destruct (log_event_ok (set_rl (set_rl s (se_rl s)) (<[i := e1]> (se_rl s))) hist ticks (rl_uid e0) AUDIT_LOGIN_FAIL
      "account locked after repeated failures" Hrep Hmax) as (a & -> & Ha); [text_ok|]. cbn [mbind option_bind]. by do 3 eexists.
  - destruct (log_event_ok (set_rl (set_rl s (se_rl s)) (<[i := e1]> (se_rl s))) hist ticks (rl_uid e0) AUDIT_LOGIN_FAIL
      "bad password" Hrep Hmax) as (a & -> & Ha); [text_ok|]. cbn [mbind option_bind]. by do 3 eexists.
Qed.

(** The first failure of an account takes a free entry, or the oldest one. *)
Lemma alloc_rl_ok t uid :
  rl_inv t -> exists i e0, rl_alloc t uid = Some (i, <[i := mk_rl uid 0 0 0]> t) /\ t !! i = Some e0 /\
    ((exists j e, t !! j = Some e /\ rl_fail_count e = 0) -> rl_fail_count e0 = 0).
Proof.
  intros Hinv. unfold rl_alloc. destruct (find_idx _ t) as [i|] eqn:Hf.
  - apply find_idx_Some in Hf as (e & Hi & Hc & _). apply Z.eqb_eq in Hc. rewrite Hi. cbn [mbind option_bind].
    pose proof (rv_empty _ Hinv i e Hi Hc) as ->. by exists i, zero_rl.
  - set (i := oldest t 0 (u64 (-1)) 0). assert (Hlt : (i < length t)%nat).
    { pose proof (rv_len _ Hinv) as Hl. unfold RATELIMIT_MAX_USERS in Hl.
      destruct (oldest_lt t 0 (u64 (-1)) 0) as [?|Hz]; [left; lia|unfold i; lia|unfold i; rewrite Hz; lia]. }
    rewrite decide_True by done. destruct (lookup_lt_is_Some_2 t i Hlt) as [e0 He0]. exists i, e0. split_and!; [done|done|].
    intros (j & e & Hj & Hc). rewrite find_idx_None in Hf. specialize (Hf j e Hj). rewrite (proj2 (Z.eqb_eq _ _) Hc) in Hf. done.
Qed.

Lemma fail_new s hist ticks uid :
  rl_inv (se_rl s) -> audit_rep (se_audit s) hist -> Z.of_nat (length hist) + 1 < 2 ^ 32 -> time_ok ticks ->
  (forall e, ~ account (se_rl s) uid e) ->
  exists s' ev, auth_fail s ticks uid = Some (0, s') /\ rl_inv (se_rl s') /\ audit_rep (se_audit s') (hist ++ [ev]) /\
    account (se_rl s') uid (mk_rl uid 1 (ns ticks) 0) /\
    (forall u e, u <> uid -> account (se_rl s') u e -> account (se_rl s) u e) /\
    ((exists j e, se_rl s !! j = Some e /\ rl_fail_count e = 0) -> forall u e, account (se_rl s) u e -> account (se_rl s') u e).
Proof.
  intros Hinv Hrep Hmax Ht Hno. destruct (ns_ok _ Ht) as (Hns & H0 & _). unfold auth_fail. rewrite Hns.
  pose proof (rl_find_ok (se_rl s) uid) as Hf. destruct (rl_find (se_rl s) uid) as [k|].
  { destruct Hf as (e & Hk & Hu & Hc). exfalso. apply (Hno e). by exists k. }
  destruct (alloc_rl_ok (se_rl s) uid Hinv) as (i & e0 & -> & Hi & Hfree). cbn [mbind option_bind].
  pose proof (lookup_lt_Some _ _ _ Hi) as Hlt. rewrite list_lookup_insert_eq by done. cbn [mbind option_bind rl_lockout_until_ns].
  rewrite (proj2 (Z.ltb_ge _ _)) by lia. rewrite list_insert_insert_eq.
  assert (He1 : count_failure (mk_rl uid 0 0 0) (ns ticks) = mk_rl uid 1 (ns ticks) 0).
  { unfold count_failure. destruct (_ <? _); reflexivity. }
  rewrite He1. cbn [rl_fail_count]. change (RATELIMIT_THRESHOLD <=? 1) with false. cbv iota.
  set (e1 := mk_rl uid 1 (ns ticks) 0). assert (Hinv1 : rl_inv (<[i := e1]> (se_rl s))).
  { apply (set_account_inv _ _ e0); [done|done|simpl; lia|]. intros j e' _ Hj Hp Heq. apply (Hno e'). by exists j. }
  match goal with |- context [log_event ?x] => destruct (log_event_ok x hist ticks uid AUDIT_LOGIN_FAIL "bad password" Hrep Hmax) as (a & -> & Ha); [text_ok|] end.
  cbn [mbind option_bind]. do 2 eexists. split; [done|]. split; [done|]. split; [exact Ha|]. split_and!.
  - exists i. split_and!; [by apply list_lookup_insert_eq|done|simpl; lia].
  - intros u e Hne (j & Hj & Hu & Hc). exists j. split; [|done]. simpl in Hj.
    apply list_lookup_insert_Some in Hj as [(_ & <- & _)|[_ Hj]]; [|done].
    exfalso. by apply Hne; rewrite <- Hu.
  - intros Hfs u e (j & Hj & Hu & Hc). exists j. split; [|done]. simpl. rewrite list_lookup_insert_ne; [done|].
    intros ->. specialize (Hfree Hfs). assert (e = e0) as -> by congruence. lia.
Qed.

(** Clearing the entry of an account. *)
Lemma clear_ok t k e uid :
  rl_inv t -> t !! k = Some e -> rl_uid e = uid -> 0 < rl_fail_count e ->
  rl_inv (<[k := zero_rl]> t) /\ forall u e', account (<[k := zero_rl]> t) u e' <-> u <> uid /\ account t u e'.
Proof.
  intros Hinv Hk Hu Hc. pose proof (lookup_lt_Some _ _ _ Hk) as Hlt.
  assert (Hpos : forall j x, <[k := zero_rl]> t !! j = Some x -> 0 < rl_fail_count x -> j <> k /\ t !! j = Some x).
  { intros j x Hj Hp. apply list_lookup_insert_Some in Hj as [(_ & <- & _)|[Hne Hj]]; [simpl in Hp; lia|done]. }
  split; [constructor|].
  - rewrite length_insert. apply (rv_len _ Hinv).
  - intros j x Hj H0. apply list_lookup_insert_Some in Hj as [(_ & <- & _)|[_ Hj]]; [done|by eapply (rv_empty _ Hinv)].
  - intros j x Hj. apply list_lookup_insert_Some in Hj as [(_ & <- & _)|[_ Hj]]; [simpl; lia|by eapply (rv_count _ Hinv)].
  - intros i j x y Hi Hj Hx Hy. eapply (rv_uniq _ Hinv); [by apply Hpos|by apply Hpos|done|done].
  - intros u x. split.
    + intros (j & Hj & Hux & Hx). destruct (Hpos j x Hj Hx) as [Hne Hj']. split; [|by exists j].
      intros ->. apply Hne. eapply (rv_uniq _ Hinv); try done. congruence.
    + intros [Hne (j & Hj & Hux & Hx)]. exists j. split; [|done]. rewrite list_lookup_insert_ne; [done|]. intros ->. congruence.
Qed.

(** A failure inside the window. *)
Lemma count_in_window uid c first lock now :
  0 < c -> c + 1 < 2 ^ 32 -> 0 <= first <= now -> now < 2 ^ 64 - RATELIMIT_LOCKOUT_NS -> now - first <= RATELIMIT_WINDOW_NS ->
  count_failure (mk_rl uid c first lock) now =
    mk_rl uid (c + 1) first (if RATELIMIT_THRESHOLD <=? c + 1 then now + RATELIMIT_LOCKOUT_NS else lock).
Proof.
  unfold RATELIMIT_LOCKOUT_NS, RATELIMIT_WINDOW_NS. intros Hc Hc1 Hf Hn Hw. unfold count_failure, RATELIMIT_LOCKOUT_NS, RATELIMIT_WINDOW_NS. cbn [rl_first_fail_ns rl_uid rl_fail_count rl_lockout_until_ns].
  rewrite u64_small by lia. rewrite (proj2 (Z.ltb_ge _ _)) by lia. cbn [rl_first_fail_ns rl_uid rl_fail_count rl_lockout_until_ns].
  rewrite (proj2 (Z.eqb_neq c 0)) by lia. rewrite u32_small by lia. by rewrite (u64_small (now + _)) by lia.
Qed.

(** A run of failures of one account at the given times. *)
Fixpoint fails (s : sec_st) (uid : Z) (times : list Z) : option (list Z * sec_st) :=
  match times with
  | [] => Some ([], s)
  | t :: times' => '(r, s) ← auth_fail s t uid; '(rs, s) ← fails s uid times'; Some (r :: rs, s)
  end.

(** Repeated failures inside the window of an account with [c] counted ones. *)
Lemma fails_in_window times s hist uid c first :
  rl_inv (se_rl s) -> audit_rep (se_audit s) hist -> Z.of_nat (length hist + length times) < 2 ^ 32 ->
  account (se_rl s) uid (mk_rl uid c first 0) -> 0 < c -> c + Z.of_nat (length times) < RATELIMIT_THRESHOLD ->
  (forall t, t ∈ times -> time_ok t /\ first <= ns t /\ ns t - first <= RATELIMIT_WINDOW_NS) -> 0 <= first ->
  exists s' hist', fails s uid times = Some (replicate (length times) 0, s') /\ rl_inv (se_rl s') /\ audit_rep (se_audit s') hist' /\
    length hist' = (length hist + length times)%nat /\ account (se_rl s') uid (mk_rl uid (c + Z.of_nat (length times)) first 0).
Proof.
  unfold RATELIMIT_THRESHOLD. revert s hist c. induction times as [|t times IH]; intros s hist c Hinv Hrep Hlen Hacc Hc Hmax Ht H0.
  { exists s, hist. simpl in *. rewrite Nat.add_0_r, Z.add_0_r. by split_and!. }
  cbn [length] in *. destruct (Ht t) as (Hto & Hft & Hw); [set_solver|]. destruct (ns_ok _ Hto) as (_ & Hn0 & Hn1).
  destruct (fail_known s hist t uid _ Hinv Hrep ltac:(lia) Hto Hacc) as (r & s1 & ev & Hf & Hinv1 & Hrep1 & Hres); [simpl; lia|].
  cbn [rl_lockout_until_ns] in Hres. rewrite (proj2 (Z.ltb_ge _ _)) in Hres by lia.
  rewrite count_in_window in Hres by lia. unfold RATELIMIT_THRESHOLD in Hres. rewrite (proj2 (Z.leb_gt _ _)) in Hres by lia.
  cbn [rl_fail_count] in Hres. rewrite (proj2 (Z.leb_gt _ _)) in Hres by lia. destruct Hres as (Hacc1 & -> & _).
  destruct (IH s1 (hist ++ [ev]) (c + 1) Hinv1 Hrep1) as (s' & hist' & Hfs & Hinv' & Hrep' & Hl' & Hacc');
    [rewrite length_app; simpl; lia|done|lia|lia|intros t' Ht'; apply Ht; set_solver|done|].
  exists s', hist'. cbn [fails]. rewrite Hf. cbn [mbind option_bind]. rewrite Hfs. cbn [mbind option_bind].
  split_and!; [done|done|done|rewrite Hl', length_app; simpl; lia|]. by replace (c + Z.of_nat (S (length times))) with (c + 1 + Z.of_nat (length times)) by lia.
Qed.

(** ** Entropy pool and start *)

Definition pool_inv (st : pool_t) : Prop := pool_ok (pl_words st) /\ 0 <= pl_idx st < 2 ^ 32.

Lemma mix_ok st seed :
  pool_inv st -> word seed -> exists st', entropy_mix st seed = Some st' /\ pool_inv st' /\
    forall st0 seed0, pool_inv st0 -> word seed0 -> pl_idx st0 = pl_idx st -> entropy_mix st0 seed0 = Some st' ->
      (seed0 = seed -> st0 = st) /\ (st0 = st -> seed0 = seed).
Proof.
  intros [Hp Hi] Hv. unfold entropy_mix. destruct (stir_ok st seed Hp (proj1 Hi) Hv) as (p & Hs & Hokp & Hinj).
  destruct (pool_mix_injective p Hokp) as (q & Hm & Hokq & Hinjq). rewrite Hs. cbn [mbind option_bind]. rewrite Hm. cbn [mbind option_bind].
  eexists. split; [done|]. split; [split; [done|apply u32_range]|]. intros st0 seed0 [Hp0 Hi0] Hv0 Hidx Heq.
  destruct (stir_ok st0 seed0 Hp0 (proj1 Hi0) Hv0) as (p0 & Hs0 & Hokp0 & _). rewrite Hs0 in Heq. cbn [mbind option_bind] in Heq.
  destruct (pool_mix p0) as [q0|] eqn:Hm0; [|done]. cbn [mbind option_bind] in Heq. injection Heq as -> _.
  assert (p0 = p) as -> by (by apply Hinjq). destruct (Hinj st0 seed0 Hidx Hs0) as [H1 H2]. split.
  - intros He. specialize (H1 He). destruct st0, st. simpl in *. congruence.
  - intros ->. by apply H2.
Qed.

Lemma get64_ok st tsc : pool_inv st -> word tsc -> exists v st', entropy_get64 st tsc = Some (v, st') /\ pool_inv st' /\ word v.
Proof.
  intros [Hp Hi] Hv. unfold entropy_get64. destruct (stir_ok st tsc Hp (proj1 Hi) Hv) as (p & -> & Hokp & _).
  destruct (pool_mix_injective p Hokp) as (q & Hm & [Hl Hw] & _). cbn [mbind option_bind]. rewrite Hm. cbn [mbind option_bind].
  assert (Hget : forall k, (k < 32)%nat -> exists x, q !! k = Some x /\ word x).
  { intros k Hk. change 32%nat with POOL_WORDS in Hk. rewrite <- Hl in Hk. destruct (lookup_lt_is_Some_2 _ _ Hk) as [x Hx]. exists x. split; [done|]. exact (Forall_lookup_1 _ _ _ _ Hw Hx). }
  destruct (Hget 0%nat ltac:(lia)) as (w0 & -> & Hw0). destruct (Hget 16%nat ltac:(lia)) as (wh & Hh & Hwh). destruct (Hget 1%nat ltac:(lia)) as (w1 & H1 & _).
  change (POOL_WORDS / 2)%nat with 16%nat. cbn [mbind option_bind]. rewrite Hh. cbn [mbind option_bind]. rewrite H1. cbn [mbind option_bind].
  do 2 eexists. split; [done|]. split; [|by apply lxor_range]. split; [|apply u32_range].
  cbn [pl_words]. split; [by rewrite length_insert|]. apply Forall_insert; [done|apply u64_range].
Qed.

(** The registers are 32 bits wide and the counters 64. *)
Definition half (x : Z) : Prop := 0 <= x < 2 ^ 32.

Definition answers_ok (c : cpu_answers) : Prop :=
  word (ca_tsc c) /\ word (ca_tsc2 c) /\ word (ca_tsc3 c) /\ (forall r, ca_rdrand c = Some r -> word r) /\
  (let '(a, b, x, d) := ca_leaf0 c in half a /\ half b /\ half x /\ half d) /\
  (let '(a, b, x, d) := ca_leaf1 c in half a /\ half b /\ half x /\ half d).

Lemma pair64_word hi lo : half hi -> half lo -> word (pair64 hi lo).
Proof.
  unfold half, word, pair64. intros Hh Hl. rewrite Z.shiftl_mul_pow2 by lia. split.
  - apply Z.lor_nonneg. lia.
  - apply bits_range; [apply Z.lor_nonneg; lia|]. intros i Hi. rewrite Z.lor_spec, !bits_small by lia. done.
Qed.

(** One seeding step of the start-up sequence. *)
Ltac seed_step := match goal with
  | Hp : pool_inv ?p |- context [entropy_mix ?p ?v] =>
      let p' := fresh "p" in let Hm := fresh "Hm" in let Hp' := fresh "Hp" in
      destruct (mix_ok p v Hp) as (p' & Hm & Hp' & _); [|rewrite Hm; cbn [mbind option_bind]; clear Hp Hm]
  end.

Lemma sec_init_ok s c ticks :
  answers_ok c -> pl_idx (se_pool s) = 0 -> ar_head (se_audit s) = 0 ->
  exists s' ev, security_init s c ticks = Some s' /\ pool_inv (se_pool s') /\ audit_rep (se_audit s') [ev] /\ rl_inv (se_rl s') /\
    (forall u e, ~ account (se_rl s') u e) /\ word (se_guard s') /\ se_guard s' <> 0 /\ se_guard s' <> 2 ^ 64 - 1.
Proof.
  intros (T1 & T2 & T3 & Hr & H0 & H1) Hidx Hhead. unfold security_init. rewrite Hidx, Hhead.
  destruct (ca_leaf0 c) as [[[a0 b0] c0] d0]. destruct (ca_leaf1 c) as [[[a1 b1] c1] d1]. destruct H0 as (?&?&?&?). destruct H1 as (?&?&?&?).
  assert (Hp : pool_inv (mk_pool (replicate POOL_WORDS 0) 0)).
  { split; [|simpl; lia]. split; [done|]. by apply Forall_replicate. }
  seed_step; [done|]. seed_step; [by apply lxor_range|].
  match goal with H : pool_inv ?p |- context [@mbind option _ _ _ ?f (match ca_rdrand c with Some _ => _ | None => _ end)] =>
    assert (exists p', match ca_rdrand c with Some rnd => entropy_mix p rnd | None => Some p end = Some p' /\ pool_inv p') as (p' & Hp' & Hpi') end.
  { destruct (ca_rdrand c) as [r|]; [|by eexists]. seed_step; [by apply Hr|]. by eexists. }
  rewrite Hp'. cbn [mbind option_bind]. clear Hp'.
  match goal with H : pool_inv p', H' : pool_inv _ |- _ => clear H' end.
  do 3 (seed_step; [by apply pair64_word|]). seed_step; [done|].
  match goal with H : pool_inv ?p |- _ => destruct (get64_ok p _ H T3) as (v & st & -> & Hst & Hv) end. cbn [mbind option_bind].
  match goal with |- context [mk_sec _ _ _ ?x] => set (canary := x) end.
  assert (Hc : word canary /\ canary <> 0 /\ canary <> 2 ^ 64 - 1).
  { unfold canary. change (u64 (-1)) with (2 ^ 64 - 1). destruct (Z.eqb_spec v 0); [by vm_compute|].
    destruct (Z.eqb_spec v (2 ^ 64 - 1)); [by vm_compute|]. done. }
  match goal with |- context [log_event ?x _ _ _ _] => destruct (log_event_ok x [] ticks 0 AUDIT_EXEC "security module initialised") as (a & -> & Ha) end.
  { constructor; [done|done|done|done]. }
  { done. } { text_ok. }
  do 2 eexists. split; [done|]. split; [done|]. split; [exact Ha|]. split; [|split; [|done]].
  - constructor; [done| | |]; intros i; intros; repeat match goal with H : _ !! _ = Some _ |- _ => apply lookup_replicate in H as [-> _] end; try done.
  - intros u e (i & Hi & _ & Hpos). apply lookup_replicate in Hi as [-> _]. done.
Qed.

Lemma fails_app s uid xs ys :
  fails s uid (xs ++ ys) = '(rs, s) ← fails s uid xs; '(qs, s) ← fails s uid ys; Some (rs ++ qs, s).
Proof.
  revert s. induction xs as [|t xs IH]; intros s; cbn [fails app mbind option_bind]; [by destruct (fails s uid ys) as [[??]|]|].
  destruct (auth_fail s t uid) as [[r s1]|]; [|done]. cbn [mbind option_bind]. rewrite IH.
  destruct (fails s1 uid xs) as [[rs s2]|]; [|done]. cbn [mbind option_bind]. by destruct (fails s2 uid ys) as [[qs s3]|].
Qed.

(** The failure that reaches the threshold, and one during the lockout. *)
Lemma reach_threshold s hist uid c first t5 t6 :
  rl_inv (se_rl s) -> audit_rep (se_audit s) hist -> Z.of_nat (length hist) + 2 < 2 ^ 32 ->
  account (se_rl s) uid (mk_rl uid c first 0) -> c = RATELIMIT_THRESHOLD - 1 -> time_ok t5 -> time_ok t6 ->
  0 <= first <= ns t5 -> ns t5 - first <= RATELIMIT_WINDOW_NS -> ns t6 < ns t5 + RATELIMIT_LOCKOUT_NS ->
  exists s', fails s uid [t5; t6] = Some ([1; 1], s') /\ rl_inv (se_rl s').
Proof.
  intros Hinv Hrep Hlen Hacc -> Ht5 Ht6 Hf Hw Hl. unfold RATELIMIT_THRESHOLD in Hacc. destruct (ns_ok _ Ht5) as (_ & H50 & H51).
  destruct (fail_known s hist t5 uid _ Hinv Hrep ltac:(lia) Ht5 Hacc) as (r & s1 & ev & Hf5 & Hinv1 & Hrep1 & Hres); [simpl; lia|].
  cbn [rl_lockout_until_ns] in Hres. rewrite (proj2 (Z.ltb_ge _ _)) in Hres by lia.
  rewrite count_in_window in Hres by lia. change (RATELIMIT_THRESHOLD <=? 5 - 1 + 1) with true in Hres. cbv iota in Hres. cbn [rl_fail_count] in Hres.
  change (RATELIMIT_THRESHOLD <=? 5 - 1 + 1) with true in Hres. cbv iota in Hres. destruct Hres as (Hacc1 & -> & _).
  destruct (fail_known s1 _ t6 uid _ Hinv1 Hrep1 ltac:(rewrite length_app; simpl; lia) Ht6 Hacc1) as (r & s2 & ev' & Hf6 & Hinv2 & _ & Hres); [simpl; lia|].
  cbn [rl_lockout_until_ns] in Hres. rewrite (proj2 (Z.ltb_lt _ _)) in Hres by lia. destruct Hres as [-> _].
  exists s2. cbn [fails]. rewrite Hf5. cbn [mbind option_bind]. rewrite Hf6. by cbn [mbind option_bind].
Qed.

(** ** Properties *)

(** [audit_log] on a ring that holds the end of a history of events adds the event, its text
    cut to 47 characters, and [audit_dump] then shows the last 64 events, oldest first. *)
Theorem audit_log_ok a hist ticks pid uid event d str :
  audit_rep a hist -> Z.of_nat (length hist) + 1 < 2 ^ 32 -> cstring d str ->
  let hist' := hist ++ [mk_audit (u64 (ticks * 10000000)) pid uid event (event_text str)] in
  exists a', audit_log a ticks pid uid event (Some d) = Some a' /\ audit_rep a' hist' /\
    audit_dump a' = Some (drop (length hist' - 64) hist').
Proof.
  intros Hr Hl Hd hist'. destruct (log_ok a hist ticks pid uid event d str Hr Hl Hd) as (a' & Ha & Hr').
  exists a'. split_and!; [done|done|by apply dump_ok].
Qed.

(** [entropy_mix] always succeeds on a pool of 32 words, keeps it one, and loses no
    information: with the same seed it maps different pools to different pools, and it maps one
    pool with different seeds to different pools. *)
Theorem entropy_mix_ok st seed :
  pool_inv st -> word seed -> exists st', entropy_mix st seed = Some st' /\ pool_inv st' /\
    forall st0 seed0, pool_inv st0 -> word seed0 -> pl_idx st0 = pl_idx st -> entropy_mix st0 seed0 = Some st' ->
      (seed0 = seed -> st0 = st) /\ (st0 = st -> seed0 = seed).
Proof. apply mix_ok. Qed.

(** [security_init], on the zeroed globals of the boot and whatever the processor answers,
    succeeds; no account is locked, one event is logged, and the stack guard is neither zero nor
    all ones. *)
Theorem security_init_ok s c ticks :
  answers_ok c -> pl_idx (se_pool s) = 0 -> ar_head (se_audit s) = 0 ->
  exists s' ev, security_init s c ticks = Some s' /\ pool_inv (se_pool s') /\ audit_rep (se_audit s') [ev] /\ rl_inv (se_rl s') /\
    (forall u e, ~ account (se_rl s') u e) /\ word (se_guard s') /\ se_guard s' <> 0 /\ se_guard s' <> 2 ^ 64 - 1.
Proof. apply sec_init_ok. Qed.


(** the lock ends: a failure after the lockout and more than 60 seconds after the first counted
    one is answered as the first of a new window, and the other accounts keep their records. *)
Theorem lockout_expires s hist uid e ticks :
  rl_inv (se_rl s) -> audit_rep (se_audit s) hist -> Z.of_nat (length hist) + 1 < 2 ^ 32 -> time_ok ticks ->
  account (se_rl s) uid e -> rl_fail_count e + 1 < 2 ^ 32 -> 0 <= rl_first_fail_ns e ->
  rl_lockout_until_ns e <= ns ticks -> RATELIMIT_WINDOW_NS < ns ticks - rl_first_fail_ns e ->
  exists s', auth_fail s ticks uid = Some (0, s') /\ rl_inv (se_rl s') /\
    account (se_rl s') uid (mk_rl uid 1 (ns ticks) (rl_lockout_until_ns e)) /\
    forall u e', u <> uid -> account (se_rl s') u e' <-> account (se_rl s) u e'.
Proof.
  intros Hinv Hrep Hlen Ht Hacc Hc Hf Hl Hw. destruct (ns_ok _ Ht) as (_ & H0 & H1).
  destruct (fail_known s hist ticks uid e Hinv Hrep Hlen Ht Hacc Hc) as (r & s' & ev & Hr & Hinv' & _ & Hres).
  rewrite (proj2 (Z.ltb_ge _ _)) in Hres by lia.
  assert (Hcf : count_failure e (ns ticks) = mk_rl uid 1 (ns ticks) (rl_lockout_until_ns e)).
  { unfold count_failure. unfold RATELIMIT_LOCKOUT_NS, RATELIMIT_WINDOW_NS in *. rewrite u64_small, (proj2 (Z.ltb_lt _ _)) by lia. destruct Hacc as (? & _ & <- & _). done. }
  rewrite Hcf in Hres. destruct Hres as (Hacc' & -> & Hother). by exists s'.
Qed.

(** [auth_success] forgets the failures of the account, and of no other. *)
Theorem auth_success_ok s hist ticks uid :
  rl_inv (se_rl s) -> audit_rep (se_audit s) hist -> Z.of_nat (length hist) + 1 < 2 ^ 32 ->
  exists s' ev, auth_success s ticks uid = Some s' /\ rl_inv (se_rl s') /\ audit_rep (se_audit s') (hist ++ [ev]) /\
    forall u e, account (se_rl s') u e <-> u <> uid /\ account (se_rl s) u e.
Proof.
  intros Hinv Hrep Hlen. unfold auth_success.
  match goal with |- context [set_rl s ?t'] => set (t := t') end.
  assert (Ht : rl_inv t /\ forall u e, account t u e <-> u <> uid /\ account (se_rl s) u e).
  { pose proof (rl_find_ok (se_rl s) uid) as Hf. unfold t. destruct (rl_find (se_rl s) uid) as [k|].
    - destruct Hf as (e & Hk & Hu & Hc). by apply (clear_ok _ k e).
    - split; [done|]. intros u e. split; [|by intros [_ ?]]. intros Ha. split; [|done]. intros ->. by apply (Hf e). }
  destruct (log_event_ok (set_rl s t) hist ticks uid AUDIT_LOGIN_OK "login successful" Hrep Hlen) as (a & -> & Ha); [text_ok|].
  do 2 eexists. split; [done|]. split; [apply Ht|]. split; [exact Ha|apply Ht].
Qed.

(** ** A machine just started *)

Definition demo_cpu : cpu_answers := mk_cpu 81985529216486895 81985529216487000 81985529216487777 None (22, 1970169159, 1818588270, 1231384169) (198339, 0, 0, 126614525).

Definition boot_sec : sec_st := mk_sec (mk_pool [] 0) (mk_audit_ring [] 0) [] 0.

Lemma demo_answers_ok : answers_ok demo_cpu.
Proof. unfold answers_ok, word, half. simpl. split_and!; lia || done. Qed.

Definition demo_sec : sec_st := Eval vm_compute in default boot_sec (security_init boot_sec demo_cpu 3).

Lemma demo_sec_ok :
  exists ev, pool_inv (se_pool demo_sec) /\ audit_rep (se_audit demo_sec) [ev] /\ rl_inv (se_rl demo_sec) /\ (forall u e, ~ account (se_rl demo_sec) u e).
Proof.
  destruct (sec_init_ok boot_sec demo_cpu 3 demo_answers_ok eq_refl eq_refl) as (s' & ev & Hs & Hp & Ha & Hr & Hn & _).
  assert (Hd : security_init boot_sec demo_cpu 3 = Some demo_sec) by (vm_compute; reflexivity).
  assert (Heq : demo_sec = s') by (apply (inj Some); rewrite <- Hd; exact Hs). rewrite Heq. exists ev. clear Hs Hd Heq.
  split; [exact Hp|]. split; [exact Ha|]. split; [exact Hr|exact Hn].
Qed.

Lemma audit_log_ok_witness :
  exists hist a', audit_log (se_audit demo_sec) 9 1 0 AUDIT_LOGIN_OK (Some (c_str "root" ++ [0])) = Some a' /\ audit_dump a' = Some hist /\ length hist = 2%nat.
Proof.
  destruct demo_sec_ok as (ev & _ & Hrep & _ & _).
  destruct (audit_log_ok (se_audit demo_sec) [ev] 9 1 0 AUDIT_LOGIN_OK (c_str "root" ++ [0]) (c_str "root") Hrep) as (a' & H1 & _ & H2); [simpl; lia|text_ok|].
  eexists _, a'. split; [exact H1|]. split; [exact H2|]. reflexivity.
Defined.

Lemma entropy_mix_ok_witness : exists st', entropy_mix (se_pool demo_sec) 12345 = Some st' /\ pool_inv st'.
Proof.
  destruct demo_sec_ok as (ev & Hp & _). destruct (entropy_mix_ok (se_pool demo_sec) 12345 Hp) as (st' & H1 & H2 & _); [unfold word; lia|].
  exists st'. split; [exact H1|exact H2].
Defined.

Lemma security_init_ok_witness : exists s', security_init boot_sec demo_cpu 3 = Some s' /\ se_guard s' <> 0.
Proof.
  destruct (security_init_ok boot_sec demo_cpu 3 demo_answers_ok eq_refl eq_refl) as (s' & ev & H1 & _ & _ & _ & _ & _ & H2 & _).
  exists s'. split; [exact H1|exact H2].
Defined.


(** The table after five failures, locked until tick 3500. *)
Definition demo_locked : sec_st := set_rl demo_sec (mk_rl 1000 5 1000000000 35000000000 :: replicate 31 zero_rl).

Lemma demo_locked_inv : rl_inv (se_rl demo_locked).
Proof.
  cbn [demo_locked se_rl set_rl]. change (mk_rl 1000 5 1000000000 35000000000 :: replicate 31 zero_rl) with (<[0%nat := mk_rl 1000 5 1000000000 35000000000]> (replicate 32 zero_rl)).
  destruct demo_sec_ok as (_ & _ & _ & Hinv & Hno).
  assert (Hrl : se_rl demo_sec = replicate 32 zero_rl) by (vm_compute; done). rewrite Hrl in *.
  apply (set_account_inv _ 0 zero_rl); [done|done|simpl; lia|]. intros j e' _ Hj Hp. apply lookup_replicate in Hj as [-> _]. done.
Qed.

Lemma lockout_expires_witness : exists s', auth_fail demo_locked 9000 1000 = Some (0, s').
Proof.
  destruct demo_sec_ok as (ev & _ & Hrep & _ & _).
  destruct (lockout_expires demo_locked [ev] 1000 (mk_rl 1000 5 1000000000 35000000000) 9000 demo_locked_inv Hrep) as (s' & H & _);
    [simpl; lia|unfold time_ok, RATELIMIT_LOCKOUT_NS; lia|exists 0%nat; split_and!; done|simpl; lia|simpl; lia|unfold ns; simpl; lia|unfold ns, RATELIMIT_WINDOW_NS; simpl; lia|].
  exists s'. exact H.
Defined.

Lemma auth_success_ok_witness : exists s', auth_success demo_locked 1200 1000 = Some s' /\ forall e, ~ account (se_rl s') 1000 e.
Proof.
  destruct demo_sec_ok as (ev & _ & Hrep & _ & _).
  destruct (auth_success_ok demo_locked [ev] 1200 1000 demo_locked_inv Hrep) as (s' & ev' & H & _ & _ & Ha); [simpl; lia|].
  exists s'. split; [exact H|]. intros e He. apply Ha in He as [Hne _]. by apply Hne.
Defined.
