(* ===== verification/Usr.v ===== *)
(** * Users and groups (src/kernel/usr/usr.c, usr.h)

    The account database: users with salted password hashes, groups, the permission
    check on files, and the text format in which accounts are stored.  [None] is a read or
    a write outside an object, or a NULL string that is dereferenced. *)

From Stdlib Require Import ZArith Lia.
From stdpp Require Import base strings sets list.
From S2P Require Import Prelude KString Security.

Local Open Scope Z_scope.

Definition UID_ROOT : Z := 0.
Definition GID_ROOT : Z := 0.
Definition GID_WHEEL : Z := 1.
Definition GID_USERS : Z := 100.
Definition USR_MAX_USERS : nat := 64.
Definition USR_MAX_GROUPS : nat := 32.
Definition USR_NAME_LEN : nat := 32.
Definition USR_HOME_LEN : nat := 64.
Definition USR_SHELL_LEN : nat := 64.
Definition USR_FLAG_WHEEL : Z := 1.
Definition USR_FLAG_NOLOGIN : Z := 2.
Definition USR_FLAG_LOCKED : Z := 4.

Record asd_user_t := mk_user {
  u_uid : Z; u_gid : Z; u_flags : Z; u_pw_hash : Z; u_pw_salt : Z;
  u_name : list Z; u_home : list Z; u_shell : list Z;
  u_groups : Z;
}.

Record asd_group_t := mk_group { g_gid : Z; g_name : list Z; g_member_mask : Z }.

Definition zero_user : asd_user_t :=
  mk_user 0 0 0 0 0 (replicate USR_NAME_LEN 0) (replicate USR_HOME_LEN 0) (replicate USR_SHELL_LEN 0) 0.

Definition zero_group : asd_group_t := mk_group 0 (replicate USR_NAME_LEN 0) 0.

(** The globals of the file, with the entropy pool of the security module.  [us_reads]
    counts the readings of the time stamp counter. *)
Record usr_st := mk_usr {
  us_users : list asd_user_t; us_user_count : Z;
  us_groups : list asd_group_t; us_group_count : Z;
  us_pool : pool_t; us_reads : nat;
}.

(** ** Helpers *)

Fixpoint u_strcmp (a b : list Z) : option Z :=
  match a, b with
  | x :: a', y :: b' =>
      if negb (x =? 0) && negb (y =? 0) && (x =? y) then u_strcmp a' b' else Some (x - y)
  | _, _ => None
  end.

(** The copy of at most [n - 1] characters from index [i] on, [k] of them still allowed. *)
Fixpoint strncpy_loop (d s : list Z) (i k : nat) : option (list Z) :=
  match k with
  | O => put d i 0
  | S k' => c ← s !! i; if c =? 0 then put d i 0 else d ← put d i c; strncpy_loop d s (S i) k'
  end.

Definition u_strncpy (d s : list Z) (n : nat) : option (list Z) :=
  match n with O => Some d | S k => strncpy_loop d s 0 k end.

Definition u_isspace (c : Z) : bool := (c =? 32) || (c =? 9) || (c =? 10) || (c =? 13).

Definition u_isdigit (c : Z) : bool := (48 <=? c) && (c <=? 57).

Fixpoint atou_loop (s : list Z) (v : Z) : option Z :=
  match s with
  | [] => None
  | c :: s' => if u_isdigit c then atou_loop s' (u32 (v * 10 + (c - 48))) else Some v
  end.

Definition u_atou (s : list Z) : option Z := atou_loop s 0.

(** ** Password hash *)

Definition FNV_OFFSET : Z := 14695981039346656037.
Definition FNV_PRIME : Z := 1099511628211.

Fixpoint fnv_loop (h : Z) (s : list Z) : option Z :=
  match s with
  | [] => None
  | c :: s' => if c =? 0 then Some h else fnv_loop (u64 (Z.lxor h c * FNV_PRIME)) s'
  end.

Definition murmur_round (h : Z) : Z :=
  let h := Z.lxor h (Z.shiftr h 33) in
  let h := u64 (h * 0xff51afd7ed558ccd) in
  let h := Z.lxor h (Z.shiftr h 33) in
  let h := u64 (h * 0xc4ceb9fe1a85ec53) in
  Z.lxor h (Z.shiftr h 33).

Definition PW_ROUNDS : nat := 1024.

(** [x ? x : dflt] for a string *)
Definition or_else (x : option (list Z)) (dflt : string) : list Z :=
  match x with Some s => s | None => c_str dflt ++ [0] end.

Definition pw_hash_salted (pw : option (list Z)) (salt : Z) : option Z :=
  h ← fnv_loop (u64 (Z.lxor FNV_OFFSET salt * FNV_PRIME)) (or_else pw EmptyString);
  Some (Nat.iter PW_ROUNDS murmur_round h).

Definition u64_eq_safe (a b : Z) : Z := if a =? b then 1 else 0.

(** ** Tables *)

Definition users (s : usr_st) : list asd_user_t := take (Z.to_nat (us_user_count s)) (us_users s).
Definition groups (s : usr_st) : list asd_group_t := take (Z.to_nat (us_group_count s)) (us_groups s).

(** The index of the first entry that is called [name]. *)
Fixpoint find_name (names : list (list Z)) (name : option (list Z)) : option (option nat) :=
  match names with
  | [] => Some None
  | nm :: names' =>
      name' ← name; d ← u_strcmp nm name';
      if d =? 0 then Some (Some 0%nat) else r ← find_name names' name; Some (option_map S r)
  end.

Definition grp_find_by_gid (s : usr_st) (gid : Z) : option nat := find_idx (fun g => g_gid g =? gid) (groups s).
Definition grp_find_by_name (s : usr_st) (name : option (list Z)) : option (option nat) := find_name (map g_name (groups s)) name.
Definition usr_find_by_uid (s : usr_st) (uid : Z) : option nat := find_idx (fun u => u_uid u =? uid) (users s).
Definition usr_find_by_name (s : usr_st) (name : option (list Z)) : option (option nat) := find_name (map u_name (users s)) name.

Definition set_users (s : usr_st) (us : list asd_user_t) : usr_st :=
  mk_usr us (us_user_count s) (us_groups s) (us_group_count s) (us_pool s) (us_reads s).
Definition set_groups (s : usr_st) (gs : list asd_group_t) : usr_st :=
  mk_usr (us_users s) (us_user_count s) gs (us_group_count s) (us_pool s) (us_reads s).

(** [f] applied to the entry at index [i]. *)
Definition upd_user (s : usr_st) (i : nat) (f : asd_user_t -> asd_user_t) : usr_st := set_users s (alter f i (us_users s)).
Definition upd_group (s : usr_st) (i : nat) (f : asd_group_t -> asd_group_t) : usr_st := set_groups s (alter f i (us_groups s)).

Definition grp_add (s : usr_st) (gid : Z) (name : option (list Z)) : option (Z * usr_st) :=
  if Z.of_nat USR_MAX_GROUPS <=? us_group_count s then Some (-1, s)
  else match grp_find_by_gid s gid with
  | Some _ => Some (-1, s)
  | None =>
      r ← grp_find_by_name s name;
      match r with
      | Some _ => Some (-1, s)
      | None =>
          let i := Z.to_nat (us_group_count s) in
          name ← name; nm ← u_strncpy (replicate USR_NAME_LEN 0) name USR_NAME_LEN;
          if decide (i < length (us_groups s))%nat then
            Some (0, mk_usr (us_users s) (us_user_count s) (<[i := mk_group gid nm 0]> (us_groups s)) (us_group_count s + 1) (us_pool s) (us_reads s))
          else None
      end
  end.

(** [g->member_mask |= 1u << uid] *)
Definition join_mask (uid : Z) (g : asd_group_t) : asd_group_t :=
  mk_group (g_gid g) (g_name g) (Z.lor (g_member_mask g) (Z.shiftl 1 uid)).

(** [g->member_mask &= ~(1u << uid)] *)
Definition leave_mask (uid : Z) (g : asd_group_t) : asd_group_t :=
  mk_group (g_gid g) (g_name g) (Z.land (g_member_mask g) (Z.lxor (2 ^ 32 - 1) (Z.shiftl 1 uid))).

(** The member masks of the groups of a new user, for uids below 32. *)
Definition join_groups (s : usr_st) (uid gid flags : Z) : usr_st :=
  if uid <? 32 then
    let s := match grp_find_by_gid s gid with Some i => upd_group s i (join_mask uid) | None => s end in
    if negb (Z.land flags USR_FLAG_WHEEL =? 0) then
      match grp_find_by_gid s GID_WHEEL with Some i => upd_group s i (join_mask uid) | None => s end
    else s
  else s.

(** The group bits of a new user. *)
Definition group_bits (gid flags : Z) : Z :=
  let b := if gid <? Z.of_nat USR_MAX_GROUPS then Z.shiftl 1 gid else 0 in
  if negb (Z.land flags USR_FLAG_WHEEL =? 0) then Z.lor b (Z.shiftl 1 GID_WHEEL) else b.

Section Clock.
(** The readings of the time stamp counter. *)
Context (clock : nat -> Z).

(** [entropy_get64] on the pool of the state. *)
Definition get_salt (s : usr_st) : option (Z * usr_st) :=
  '(v, p) ← entropy_get64 (us_pool s) (clock (us_reads s));
  Some (v, mk_usr (us_users s) (us_user_count s) (us_groups s) (us_group_count s) p (S (us_reads s))).

Definition usr_add (s : usr_st) (uid gid : Z) (name password : option (list Z)) (flags : Z) (home shell : option (list Z)) : option (Z * usr_st) :=
  if Z.of_nat USR_MAX_USERS <=? us_user_count s then Some (-1, s)
  else match usr_find_by_uid s uid with
  | Some _ => Some (-1, s)
  | None =>
      r ← usr_find_by_name s name;
      match r, name with
      | Some _, _ | None, None => Some (-1, s)
      | None, Some name =>
          c ← name !! 0%nat;
          if c =? 0 then Some (-1, s)
          else
            let i := Z.to_nat (us_user_count s) in
            '(salt, s) ← get_salt s;
            hash ← pw_hash_salted (Some (or_else password EmptyString)) salt;
            nm ← u_strncpy (u_name zero_user) name USR_NAME_LEN;
            hm ← u_strncpy (u_home zero_user) (or_else home "/") USR_HOME_LEN;
            sh ← u_strncpy (u_shell zero_user) (or_else shell "/bin/asdsh") USR_SHELL_LEN;
            if decide (i < length (us_users s))%nat then
              let u := mk_user uid gid flags hash salt nm hm sh (group_bits gid flags) in
              let s := mk_usr (<[i := u]> (us_users s)) (us_user_count s + 1) (us_groups s) (us_group_count s) (us_pool s) (us_reads s) in
              Some (0, join_groups s uid gid flags)
            else None
      end
  end.

Definition add_bits (gid : Z) (u : asd_user_t) : asd_user_t :=
  if gid <? Z.of_nat USR_MAX_GROUPS
  then mk_user (u_uid u) (u_gid u) (u_flags u) (u_pw_hash u) (u_pw_salt u) (u_name u) (u_home u) (u_shell u) (Z.lor (u_groups u) (Z.shiftl 1 gid))
  else u.

Definition del_bits (gid : Z) (u : asd_user_t) : asd_user_t :=
  if gid <? Z.of_nat USR_MAX_GROUPS
  then mk_user (u_uid u) (u_gid u) (u_flags u) (u_pw_hash u) (u_pw_salt u) (u_name u) (u_home u) (u_shell u)
         (Z.land (u_groups u) (Z.lxor (2 ^ 32 - 1) (Z.shiftl 1 gid)))
  else u.

Definition usr_add_to_group (s : usr_st) (uid gid : Z) : Z * usr_st :=
  match usr_find_by_uid s uid with
  | None => (-1, s)
  | Some i =>
      let s := upd_user s i (add_bits gid) in
      match grp_find_by_gid s gid with
      | Some j => if uid <? 32 then (0, upd_group s j (join_mask uid)) else (0, s)
      | None => (0, s)
      end
  end.

Definition usr_remove_from_group (s : usr_st) (uid gid : Z) : Z * usr_st :=
  match usr_find_by_uid s uid with
  | None => (-1, s)
  | Some i =>
      let s := upd_user s i (del_bits gid) in
      match grp_find_by_gid s gid with
      | Some j => if uid <? 32 then (0, upd_group s j (leave_mask uid)) else (0, s)
      | None => (0, s)
      end
  end.

Definition usr_is_wheel (s : usr_st) (uid : Z) : Z :=
  if uid =? UID_ROOT then 1
  else match usr_find_by_uid s uid ≫= fun i => us_users s !! i with
  | None => 0
  | Some u => if negb (Z.land (u_flags u) USR_FLAG_WHEEL =? 0) then 1 else 0
  end.

Definition usr_check_password (s : usr_st) (uid : Z) (password : option (list Z)) : option Z :=
  match usr_find_by_uid s uid ≫= fun i => us_users s !! i with
  | None => Some 0
  | Some u =>
      if negb (Z.land (u_flags u) USR_FLAG_LOCKED =? 0) then Some 0
      else if negb (Z.land (u_flags u) USR_FLAG_NOLOGIN =? 0) then Some 0
      else if u_pw_hash u =? 0 then
        match password with None => Some 1 | Some pw => c ← pw !! 0%nat; Some (if c =? 0 then 1 else 0) end
      else
        candidate ← pw_hash_salted (Some (or_else password EmptyString)) (u_pw_salt u);
        Some (u64_eq_safe (u_pw_hash u) candidate)
  end.

Definition set_pw (hash salt : Z) (u : asd_user_t) : asd_user_t :=
  mk_user (u_uid u) (u_gid u) (u_flags u) hash salt (u_name u) (u_home u) (u_shell u) (u_groups u).

Definition usr_set_password (s : usr_st) (uid : Z) (password : option (list Z)) : option (Z * usr_st) :=
  match usr_find_by_uid s uid with
  | None => Some (-1, s)
  | Some i =>
      '(salt, s) ← get_salt s;
      hash ← pw_hash_salted (Some (or_else password EmptyString)) salt;
      Some (0, upd_user s i (set_pw hash salt))
  end.

(** ** Enumeration *)

Definition usr_count (s : usr_st) : Z := us_user_count s.
Definition usr_get (s : usr_st) (index : Z) : option nat := if us_user_count s <=? index then None else Some (Z.to_nat index).
Definition grp_count (s : usr_st) : Z := us_group_count s.
Definition grp_get (s : usr_st) (index : Z) : option nat := if us_group_count s <=? index then None else Some (Z.to_nat index).

(** ** Permission check *)

Definition USR_MODE_RUSR : Z := 0x100.
Definition USR_MODE_WUSR : Z := 0x80.
Definition USR_MODE_XUSR : Z := 0x40.
Definition USR_MODE_RGRP : Z := 0x20.
Definition USR_MODE_WGRP : Z := 0x10.
Definition USR_MODE_XGRP : Z := 0x8.
Definition USR_MODE_ROTH : Z := 0x4.
Definition USR_MODE_WOTH : Z := 0x2.
Definition USR_MODE_XOTH : Z := 0x1.
Definition USR_ACCESS_READ : Z := 1.
Definition USR_ACCESS_WRITE : Z := 2.
Definition USR_ACCESS_EXEC : Z := 4.

(** [if (access_flags & a) need |= m] *)
Definition need_bit (access_flags a m need : Z) : Z := if negb (Z.land access_flags a =? 0) then Z.lor need m else need.

Definition need_bits (access_flags r w x : Z) : Z :=
  need_bit access_flags USR_ACCESS_EXEC x (need_bit access_flags USR_ACCESS_WRITE w (need_bit access_flags USR_ACCESS_READ r 0)).

Definition usr_check_perm (uid gid groups file_uid file_gid file_mode access_flags : Z) : Z :=
  if uid =? UID_ROOT then 0
  else
    let need :=
      if uid =? file_uid then need_bits access_flags USR_MODE_RUSR USR_MODE_WUSR USR_MODE_XUSR
      else if (gid =? file_gid) || ((file_gid <? Z.of_nat USR_MAX_GROUPS) && negb (Z.land groups (Z.shiftl 1 file_gid) =? 0))
      then need_bits access_flags USR_MODE_RGRP USR_MODE_WGRP USR_MODE_XGRP
      else need_bits access_flags USR_MODE_ROTH USR_MODE_WOTH USR_MODE_XOTH in
    if Z.land file_mode need =? need then 0 else -1.

(** ** Parsers

    A pointer into the text is the rest of the text. *)

Fixpoint skip_ws (p : list Z) : option (list Z) :=
  match p with
  | [] => None
  | c :: p' => if negb (c =? 0) && u_isspace c && negb (c =? 10) then skip_ws p' else Some p
  end.

(** The copying loop of [read_tok], with room for [k] characters; [out] is what it wrote. *)
Fixpoint tok_loop (p : list Z) (k : nat) (out : list Z) : option (list Z * list Z) :=
  match p with
  | [] => None
  | c :: p' =>
      if negb (c =? 0) && negb (u_isspace c) then
        match k with O => Some (p, out) | S k' => tok_loop p' k' (out ++ [c]) end
      else Some (p, out)
  end.

(** The rest of the text and the bytes written to [out], which has [out_sz] of them. *)
Definition read_tok (p : list Z) (out_sz : nat) : option (list Z * list Z) :=
  p ← skip_ws p; '(p, tok) ← tok_loop p (out_sz - 1) []; Some (p, tok ++ [0]).

Fixpoint next_line (p : list Z) : option (list Z) :=
  match p with
  | [] => None
  | c :: p' => if c =? 0 then Some p else if c =? 10 then Some p' else next_line p'
  end.

Definition is_hex (c : Z) : bool := ((48 <=? c) && (c <=? 57)) || ((97 <=? c) && (c <=? 102)) || ((65 <=? c) && (c <=? 70)).

Fixpoint hex_loop (s : list Z) (n : nat) : option bool :=
  match n with
  | O => Some true
  | S n' => match s with [] => None | c :: s' => if is_hex c then hex_loop s' n' else Some false end
  end.

Definition is_hex64 (s : list Z) : option bool := hex_loop s 16.

Definition nibble (c : Z) : option Z :=
  if (48 <=? c) && (c <=? 57) then Some (c - 48)
  else if (97 <=? c) && (c <=? 102) then Some (c - 97 + 10)
  else if (65 <=? c) && (c <=? 70) then Some (c - 65 + 10)
  else None.

Fixpoint parse_loop (s : list Z) (n : nat) (v : Z) : option Z :=
  match n with
  | O => Some v
  | S n' =>
      match s with
      | [] => None
      | c :: s' =>
          if c =? 0 then Some v
          else match nibble c with Some nib => parse_loop s' n' (Z.lor (u64 (Z.shiftl v 4)) nib) | None => Some v end
      end
  end.

Definition parse_hex64 (s : list Z) : option Z := parse_loop s 16 0.

(** The eight fields of a line. *)
Record fields := mk_fields {
  f_name : list Z; f_uid : list Z; f_gid : list Z; f_flags : list Z;
  f_home : list Z; f_shell : list Z; f_salt : list Z; f_hash : list Z;
}.

Definition read_fields (p : list Z) : option (list Z * fields) :=
  '(p, name) ← read_tok p USR_NAME_LEN;
  '(p, uid_s) ← read_tok p 16;
  '(p, gid_s) ← read_tok p 16;
  '(p, flags_s) ← read_tok p 32;
  '(p, home) ← read_tok p USR_HOME_LEN;
  '(p, shell) ← read_tok p USR_SHELL_LEN;
  '(p, salt_s) ← read_tok p 20;
  '(p, hash_s) ← read_tok p 20;
  Some (p, mk_fields name uid_s gid_s flags_s home shell salt_s hash_s).

(** [s[0] == 0] *)
Definition is_empty (s : list Z) : bool := match s with c :: _ => c =? 0 | [] => true end.

(** [if (u_strcmp(flags_s, text) == 0) flags |= bit] *)
Definition flag_bit (flags_s : list Z) (text : string) (bit flags : Z) : option Z :=
  d ← u_strcmp flags_s (c_str text ++ [0]); Some (if d =? 0 then Z.lor flags bit else flags).

Definition parse_flags (flags_s : list Z) : option Z :=
  fl ← flag_bit flags_s "wheel" USR_FLAG_WHEEL 0;
  fl ← flag_bit flags_s "nologin" USR_FLAG_NOLOGIN fl;
  flag_bit flags_s "locked" USR_FLAG_LOCKED fl.

(** [home[0] ? home : NULL] *)
Definition or_null (s : list Z) : option (list Z) := if is_empty s then None else Some s.

(** The stored salt and hash of a line, if they are hexadecimal. *)
Definition apply_salt (s : usr_st) (uid : Z) (f : fields) : option usr_st :=
  match usr_find_by_uid s uid with
  | None => Some s
  | Some i =>
      hs ← is_hex64 (f_salt f);
      s ← (if (hs : bool) then salt ← parse_hex64 (f_salt f); Some (upd_user s i (fun u => set_pw (u_pw_hash u) salt u)) else Some s);
      hh ← is_hex64 (f_hash f);
      if (hh : bool) then hash ← parse_hex64 (f_hash f); Some (upd_user s i (fun u => set_pw hash (u_pw_salt u) u)) else Some s
  end.

(** One account of the text. *)
Definition load_user (s : usr_st) (f : fields) : option usr_st :=
  uid ← u_atou (f_uid f); gid ← u_atou (f_gid f);
  let uid := u16 uid in let gid := u16 gid in
  flags ← parse_flags (f_flags f);
  s ← (match grp_find_by_gid s gid with Some _ => Some s | None => snd <$> grp_add s gid (Some (c_str "unknown" ++ [0])) end);
  s ← (match usr_find_by_uid s uid with
       | Some _ => Some s
       | None =>
           r ← usr_find_by_name s (Some (f_name f));
           match r with
           | Some _ => Some s
           | None => snd <$> usr_add s uid gid (Some (f_name f)) (Some [0]) flags (or_null (f_home f)) (or_null (f_shell f))
           end
       end);
  apply_salt s uid f.

(** [*p == '#' || *p == '\n' || *p == '\0'] *)
Definition no_entry (p : list Z) : option bool := match p with [] => None | c :: _ => Some ((c =? 35) || (c =? 10) || (c =? 0)) end.

(** [p < end && *p], with [n] the distance from the start of the text of a pointer at its end. *)
Definition in_text (n len : nat) (p : list Z) : option bool :=
  if decide (n - length p < len)%nat then match p with [] => None | c :: _ => Some (negb (c =? 0)) end else Some false.

(** The loop of [usr_load_passwd]; the fuel bounds the number of lines. *)
Fixpoint load_loop (fuel : nat) (s : usr_st) (n len : nat) (p : list Z) (loaded : Z) : option (Z * usr_st) :=
  match fuel with
  | O => None
  | S fuel' =>
      go ← in_text n len p;
      if go && (loaded <? Z.of_nat USR_MAX_USERS) then
        p ← skip_ws p; b ← no_entry p;
        if (b : bool) then p ← next_line p; load_loop fuel' s n len p loaded
        else
          '(p, f) ← read_fields p;
          if is_empty (f_name f) || is_empty (f_uid f) || is_empty (f_gid f) then p ← next_line p; load_loop fuel' s n len p loaded
          else s ← load_user s f; p ← next_line p; load_loop fuel' s n len p (loaded + 1)
      else Some (loaded, s)
  end.

Definition usr_load_passwd (s : usr_st) (buf : option (list Z)) (len : nat) : option (Z * usr_st) :=
  match buf with
  | None => Some (-1, s)
  | Some buf => if decide (len = 0%nat) then Some (-1, s) else load_loop (S (length buf)) s (length buf) len buf 0
  end.

Fixpoint group_loop (fuel : nat) (s : usr_st) (n len : nat) (p : list Z) (loaded : Z) : option (Z * usr_st) :=
  match fuel with
  | O => None
  | S fuel' =>
      go ← in_text n len p;
      if (go : bool) then
        p ← skip_ws p; b ← no_entry p;
        if (b : bool) then p ← next_line p; group_loop fuel' s n len p loaded
        else
          '(p, name) ← read_tok p USR_NAME_LEN; '(p, gid_s) ← read_tok p 16; p ← next_line p;
          if is_empty name || is_empty gid_s then group_loop fuel' s n len p loaded
          else
            gid ← u_atou gid_s; let gid := u16 gid in
            s ← (match grp_find_by_gid s gid with Some _ => Some s | None => snd <$> grp_add s gid (Some name) end);
            group_loop fuel' s n len p (loaded + 1)
      else Some (loaded, s)
  end.

Definition usr_load_group (s : usr_st) (buf : option (list Z)) (len : nat) : option (Z * usr_st) :=
  match buf with
  | None => Some (-1, s)
  | Some buf => if decide (len = 0%nat) then Some (-1, s) else group_loop (S (length buf)) s (length buf) len buf 0
  end.

(** ** Start *)

Definition usr_init (s : usr_st) : option usr_st :=
  let s := mk_usr (replicate USR_MAX_USERS zero_user) 0 (replicate USR_MAX_GROUPS zero_group) 0 (us_pool s) (us_reads s) in
  s ← snd <$> grp_add s GID_ROOT (Some (c_str "root" ++ [0]));
  s ← snd <$> grp_add s GID_WHEEL (Some (c_str "wheel" ++ [0]));
  s ← snd <$> grp_add s GID_USERS (Some (c_str "users" ++ [0]));
  s ← snd <$> usr_add s UID_ROOT GID_ROOT (Some (c_str "root" ++ [0])) (Some [0]) 0 (Some (c_str "/root" ++ [0])) (Some (c_str "/bin/asdsh" ++ [0]));
  match usr_find_by_uid s UID_ROOT with
  | Some i => Some (upd_user s i (set_pw 0 0))
  | None => Some s
  end.

End Clock.

(** ** Writing the accounts *)

(** [for (j = 0; s[j] && pos < lim; j++) buf[pos++] = s[j]] *)
Fixpoint put_str (buf : list Z) (pos lim : nat) (s : list Z) : option (list Z * nat) :=
  match s with
  | [] => None
  | c :: s' =>
      if negb (c =? 0) && (pos <? lim)%nat then buf ← put buf pos c; put_str buf (S pos) lim s' else Some (buf, pos)
  end.

(** [for (j = 0; j < n && pos < lim; j++) buf[pos++] = s[j]] *)
Fixpoint put_n (buf : list Z) (pos lim : nat) (s : list Z) (n : nat) {struct n} : option (list Z * nat) :=
  match n with
  | O => Some (buf, pos)
  | S n' =>
      if (pos <? lim)%nat then
        match s with [] => None | c :: s' => buf ← put buf pos c; put_n buf (S pos) lim s' n' end
      else Some (buf, pos)
  end.

(** [buf[pos++] = ' '] *)
Definition put_sp (buf : list Z) (pos : nat) : option (list Z * nat) := buf ← put buf pos 32; Some (buf, S pos).

(** The digits of [v] before [acc], which starts at index [ti] of [tmp]. *)
Fixpoint dec_loop (ti : nat) (v : Z) (acc : list Z) : option (list Z) :=
  if v =? 0 then Some acc
  else match ti with O => None | S ti' => dec_loop ti' (v / 10) (48 + v mod 10 :: acc) end.

Definition dec_str (v : Z) : option (list Z) := if v =? 0 then Some [48; 0] else dec_loop 23 v [0].

Definition hex_char (d : Z) : Z := if d <? 10 then 48 + d else 97 + (d - 10).

(** The sixteen digits of [fmt_hex64], the last [n] of them first. *)
Fixpoint hex_digits (n : nat) (v : Z) (acc : list Z) : list Z :=
  match n with O => acc | S n' => hex_digits n' (Z.shiftr v 4) (hex_char (Z.land v 15) :: acc) end.

Definition fmt_hex64 (v : Z) : list Z := hex_digits 16 v [0].

Definition flag_text (flags : Z) : list Z :=
  c_str (if negb (Z.land flags USR_FLAG_WHEEL =? 0) then "wheel"
         else if negb (Z.land flags USR_FLAG_NOLOGIN =? 0) then "nologin"
         else if negb (Z.land flags USR_FLAG_LOCKED =? 0) then "locked" else "-") ++ [0].

(** [s] and the space after it. *)
Definition put_field (buf : list Z) (pos lim : nat) (s : list Z) : option (list Z * nat) :=
  '(buf, pos) ← put_str buf pos lim s; put_sp buf pos.

Definition write_user (buf : list Z) (pos buf_sz : nat) (u : asd_user_t) : option (list Z * nat) :=
  let lim := (buf_sz - 2)%nat in
  '(buf, pos) ← put_field buf pos lim (u_name u);
  uid_s ← dec_str (u_uid u); '(buf, pos) ← put_field buf pos lim uid_s;
  gid_s ← dec_str (u_gid u); '(buf, pos) ← put_field buf pos lim gid_s;
  '(buf, pos) ← put_field buf pos lim (flag_text (u_flags u));
  '(buf, pos) ← put_field buf pos lim (u_home u);
  '(buf, pos) ← put_field buf pos lim (u_shell u);
  '(buf, pos) ← put_n buf pos lim (fmt_hex64 (u_pw_salt u)) 16; '(buf, pos) ← put_sp buf pos;
  '(buf, pos) ← put_n buf pos lim (fmt_hex64 (u_pw_hash u)) 16;
  if (pos <? buf_sz - 1)%nat then buf ← put buf pos 10; Some (buf, S pos) else Some (buf, pos).

Fixpoint write_users (buf : list Z) (pos buf_sz : nat) (us : list asd_user_t) : option (list Z * nat) :=
  match us with
  | [] => Some (buf, pos)
  | u :: us' => '(buf, pos) ← write_user buf pos buf_sz u; write_users buf pos buf_sz us'
  end.

(** "#ASDPW1" and a newline *)
Definition passwd_hdr : list Z := c_str "#ASDPW1" ++ [10; 0].

Definition usr_write_passwd (s : usr_st) (buf : option (list Z)) (buf_sz : nat) : option (Z * option (list Z)) :=
  match buf with
  | None => Some (-1, None)
  | Some buf =>
      if (buf_sz <? 8)%nat then Some (-1, Some buf)
      else
        '(buf, pos) ← put_str buf 0 (buf_sz - 1) passwd_hdr;
        '(buf, pos) ← write_users buf pos buf_sz (users s);
        buf ← put buf pos 0;
        Some (Z.of_nat pos, Some buf)
  end.
