(* ===== verification/UsrSpec.v ===== *)
(** * Specification of the account database

    Password hashes, the permission check, and what each operation does to the tables. *)

From Stdlib Require Import ZArith Lia.
From stdpp Require Import base strings sets list.
From S2P Require Import Prelude KString Security SecuritySpec Usr.

Local Open Scope Z_scope.

(** ** Password hash *)

(** Multiplication by a constant that has an inverse modulo 2^64. *)
Lemma mul_inj k k' x y : u64 (k * k') = 1 -> word x -> word y -> u64 (x * k) = u64 (y * k) -> x = y.
Proof.
  unfold word, u64. intros Hk Hx Hy He.
  assert (Hinv : forall z, 0 <= z < 2 ^ 64 -> (z * k) mod 2 ^ 64 * k' mod 2 ^ 64 = z).
  { intros z Hz. rewrite Z.mul_mod_idemp_l, <- Z.mul_assoc, <- Z.mul_mod_idemp_r, Hk by lia. rewrite Z.mul_1_r. by apply Z.mod_small. }
  by rewrite <- (Hinv x Hx), <- (Hinv y Hy), He.
Qed.

Lemma shiftr_word x n : word x -> 0 <= n -> word (Z.shiftr x n).
Proof.
  unfold word. intros Hx Hn. rewrite Z.shiftr_div_pow2 by done. pose proof (Z.pow_pos_nonneg 2 n ltac:(lia) Hn).
  split; [apply Z.div_pos; lia|]. apply Z.div_lt_upper_bound; nia.
Qed.

(** The shift by 33 is its own inverse. *)
Lemma xorshift_undo x : word x -> let y := Z.lxor x (Z.shiftr x 33) in Z.lxor y (Z.shiftr y 33) = x.
Proof.
  intros Hx y. unfold y. rewrite Z.shiftr_lxor, Z.shiftr_shiftr by lia.
  assert (H0 : Z.shiftr x (33 + 33) = 0).
  { unfold word in Hx. rewrite Z.shiftr_div_pow2 by lia. apply Z.div_small. lia. }
  rewrite H0, Z.lxor_0_r. apply lxor_undo.
Qed.

Lemma xorshift_inj x y : word x -> word y -> Z.lxor x (Z.shiftr x 33) = Z.lxor y (Z.shiftr y 33) -> x = y.
Proof. intros Hx Hy He. rewrite <- (xorshift_undo x Hx), <- (xorshift_undo y Hy). by rewrite He. Qed.

Lemma xorshift_word x : word x -> word (Z.lxor x (Z.shiftr x 33)).
Proof. intros Hx. apply lxor_range; [done|]. apply shiftr_word; [done|lia]. Qed.

Lemma murmur_word h : word h -> word (murmur_round h).
Proof. intros Hh. unfold murmur_round. cbv zeta. apply xorshift_word, u64_range. Qed.

Lemma murmur_inj x y : word x -> word y -> murmur_round x = murmur_round y -> x = y.
Proof.
  intros Hx Hy He. unfold murmur_round in He. cbv zeta in He.
  apply xorshift_inj in He; [|apply u64_range..]. apply (mul_inj _ 11291846944257947611) in He; [|done|apply xorshift_word, u64_range..].
  apply xorshift_inj in He; [|apply u64_range..]. apply (mul_inj _ 5725274745694666757) in He; [|done|by apply xorshift_word..].
  by apply xorshift_inj.
Qed.

Lemma rounds_word n x : word x -> word (Nat.iter n murmur_round x).
Proof. intros Hx. induction n as [|n IH]; [done|]. simpl. by apply murmur_word. Qed.

Lemma rounds_inj n x y : word x -> word y -> Nat.iter n murmur_round x = Nat.iter n murmur_round y -> x = y.
Proof.
  intros Hx Hy. induction n as [|n IH]; intros He; [done|]. apply IH. simpl in He. by apply murmur_inj in He; [|apply rounds_word..].
Qed.

Definition fnv (h : Z) (str : list Z) : Z := fold_left (fun h c => u64 (Z.lxor h c * FNV_PRIME)) str h.

Lemma fnv_loop_ok h s str : cstring s str -> fnv_loop h s = Some (fnv h str).
Proof.
  revert h str. induction s as [|c s IH]; intros h str Hs; [by apply cstring_nil in Hs|].
  apply cstring_cons in Hs as [[-> ->]|(str' & Hc & -> & Hs)]; [done|]. cbn [fnv_loop]. rewrite (proj2 (Z.eqb_neq _ _)) by lia. by rewrite (IH _ _ Hs).
Qed.

Lemma fnv_word h str : word h -> word (fnv h str).
Proof. revert h. induction str as [|c str IH]; intros h Hh; [done|]. simpl. apply IH, u64_range. Qed.

Lemma fnv_inj x y str : word x -> word y -> Forall (fun b => 0 < b < 256) str -> fnv x str = fnv y str -> x = y.
Proof.
  intros Hx Hy Hs. revert x y Hx Hy. induction Hs as [|c str Hc Hs IH]; intros x y Hx Hy He; [done|].
  simpl in He. apply IH in He; [|apply u64_range..]. assert (word c) by (unfold word; lia).
  apply (mul_inj _ 14886173955864302971) in He; [|done|by apply lxor_range..]. rewrite <- (lxor_undo x c), He. apply lxor_undo.
Qed.

#[local] Opaque PW_ROUNDS.

(** The hash of a password with a salt. *)
Definition pw_hash (str : list Z) (salt : Z) : Z :=
  Nat.iter PW_ROUNDS murmur_round (fnv (u64 (Z.lxor FNV_OFFSET salt * FNV_PRIME)) str).

(** The password a string parameter holds; NULL is the empty one. *)
Definition password (pw : option (list Z)) (str : list Z) : Prop := match pw with Some s => cstring s str | None => str = [] end.

Lemma or_else_ok pw str : password pw str -> cstring (or_else pw EmptyString) str.
Proof. destruct pw as [s|]; [done|]. intros ->. by exists []. Qed.

Lemma hash_ok pw str salt : password pw str -> pw_hash_salted pw salt = Some (pw_hash str salt).
Proof. intros Hp. unfold pw_hash_salted. rewrite (fnv_loop_ok _ _ _ (or_else_ok _ _ Hp)). unfold pw_hash. cbn [mbind option_bind]. reflexivity. Qed.

Lemma hash_word str salt : word (pw_hash str salt).
Proof. apply rounds_word, fnv_word, u64_range. Qed.

Lemma salt_inj str x y : Forall (fun b => 0 < b < 256) str -> word x -> word y -> pw_hash str x = pw_hash str y -> x = y.
Proof.
  intros Hs Hx Hy He. apply rounds_inj in He; [|apply fnv_word, u64_range..]. apply fnv_inj in He; [|apply u64_range..|done].
  assert (word FNV_OFFSET) by (unfold word, FNV_OFFSET; lia).
  apply (mul_inj _ 14886173955864302971) in He; [|done|by apply lxor_range..].
  rewrite <- (lxor_undo x FNV_OFFSET), <- (lxor_undo y FNV_OFFSET), !(Z.lxor_comm _ FNV_OFFSET). by rewrite He.
Qed.

(** ** Permissions *)

Inductive access_class := Owner | Group | Other.

(** The class of a process with respect to a file. *)
Definition class_of (uid gid groups file_uid file_gid : Z) : access_class :=
  if decide (uid = file_uid) then Owner
  else if decide (gid = file_gid \/ (file_gid < 32 /\ Z.testbit groups file_gid = true)) then Group else Other.

(** The read, write and execute bit of each class in a mode. *)
Definition mode_r (c : access_class) : Z := match c with Owner => 8 | Group => 5 | Other => 2 end.
Definition mode_w (c : access_class) : Z := match c with Owner => 7 | Group => 4 | Other => 1 end.
Definition mode_x (c : access_class) : Z := match c with Owner => 6 | Group => 3 | Other => 0 end.

(** Every access asked for is granted to the class. *)
Definition granted (c : access_class) (mode access : Z) : Prop :=
  (Z.testbit access 0 = true -> Z.testbit mode (mode_r c) = true) /\
  (Z.testbit access 1 = true -> Z.testbit mode (mode_w c) = true) /\
  (Z.testbit access 2 = true -> Z.testbit mode (mode_x c) = true).

Lemma land_bit x k : 0 <= k -> negb (Z.land x (2 ^ k) =? 0) = Z.testbit x k.
Proof.
  intros Hk. destruct (Z.eqb_spec (Z.land x (2 ^ k)) 0) as [H0|Hn]; simpl.
  - pose proof (f_equal (fun z => Z.testbit z k) H0) as H. simpl in H.
    rewrite Z.land_spec, Z.pow2_bits_true, andb_true_r, Z.bits_0 in H by done. done.
  - destruct (Z.testbit x k) eqn:Hx; [done|]. exfalso. apply Hn. apply Z.bits_inj_0. intros i. rewrite Z.land_spec.
    destruct (decide (i = k)) as [->|]; [by rewrite Hx|]. by rewrite (Z.pow2_bits_false k i), andb_false_r by lia.
Qed.

Lemma land_covers mode need : Z.land mode need = need <-> forall k, 0 <= k -> Z.testbit need k = true -> Z.testbit mode k = true.
Proof.
  split.
  - intros He k Hk Hn. rewrite <- He, Z.land_spec in Hn. by apply andb_true_iff in Hn as [? _].
  - intros H. apply Z.bits_inj'. intros k Hk. rewrite Z.land_spec. destruct (Z.testbit need k) eqn:Hn; [|apply andb_false_r]. by rewrite (H k Hk Hn).
Qed.

Lemma need_bits_covered access mode r w x :
  0 <= r -> 0 <= w -> 0 <= x ->
  Z.land mode (need_bits access (2 ^ r) (2 ^ w) (2 ^ x)) = need_bits access (2 ^ r) (2 ^ w) (2 ^ x) <->
  (Z.testbit access 0 = true -> Z.testbit mode r = true) /\ (Z.testbit access 1 = true -> Z.testbit mode w = true) /\
  (Z.testbit access 2 = true -> Z.testbit mode x = true).
Proof.
  intros Hr Hw Hx. unfold need_bits, need_bit, USR_ACCESS_READ, USR_ACCESS_WRITE, USR_ACCESS_EXEC.
  pose proof (land_bit access 0 ltac:(lia)) as E0. pose proof (land_bit access 1 ltac:(lia)) as E1. pose proof (land_bit access 2 ltac:(lia)) as E2.
  change (2 ^ 0) with 1 in E0. change (2 ^ 1) with 2 in E1. change (2 ^ 2) with 4 in E2. rewrite E0, E1, E2, land_covers. clear E0 E1 E2.
  assert (Hb : forall k, 0 <= k -> forall j, 0 <= j -> Z.testbit (2 ^ j) k = true <-> k = j).
  { intros k Hk j Hj. rewrite Z.pow2_bits_eqb by done. rewrite Z.eqb_eq. split; congruence. }
  split.
  - intros H. split_and!; intros Ha; rewrite Ha in H; apply H; try done.
    all: destruct (Z.testbit access 0), (Z.testbit access 1), (Z.testbit access 2); simplify_eq;
      rewrite ?Z.lor_spec, ?Z.bits_0, ?orb_true_iff, ?Hb by done; tauto.
  - intros (H0 & H1 & H2) k Hk. destruct (Z.testbit access 0), (Z.testbit access 1), (Z.testbit access 2);
      rewrite ?Z.lor_spec, ?Z.bits_0, ?orb_true_iff, ?Hb by done; naive_solver.
Qed.

Lemma check_perm_ok uid gid groups file_uid file_gid mode access :
  0 <= file_gid ->
  (usr_check_perm uid gid groups file_uid file_gid mode access = 0 <->
     uid = UID_ROOT \/ granted (class_of uid gid groups file_uid file_gid) mode access) /\
  (usr_check_perm uid gid groups file_uid file_gid mode access = 0 \/ usr_check_perm uid gid groups file_uid file_gid mode access = -1).
Proof.
  intros Hg. unfold usr_check_perm. destruct (Z.eqb_spec uid UID_ROOT) as [->|Hroot]; [split; [|by left]; split; [by left|done]|].
  match goal with |- context [Z.land mode ?n =? ?n] => set (need := n) end.
  assert (Hn : Z.land mode need = need <-> granted (class_of uid gid groups file_uid file_gid) mode access).
  { unfold need, class_of, granted. rewrite Z.shiftl_1_l, land_bit by done. destruct (Z.eqb_spec uid file_uid) as [->|].
    - rewrite decide_True by done. by apply (need_bits_covered access mode 8 7 6).
    - rewrite (decide_False (P := uid = file_uid)) by done. unfold USR_MAX_GROUPS.
      destruct (decide (gid = file_gid \/ (file_gid < 32 /\ Z.testbit groups file_gid = true))) as [Hin|Hout].
      + replace ((gid =? file_gid) || _) with true by (destruct Hin as [->|[? ->]]; [by rewrite Z.eqb_refl|];
          rewrite (proj2 (Z.ltb_lt _ _)) by lia; by rewrite orb_true_r).
        by apply (need_bits_covered access mode 5 4 3).
      + replace ((gid =? file_gid) || _) with false by (symmetry; apply orb_false_iff; split; [apply Z.eqb_neq; tauto|];
          apply andb_false_iff; destruct (Z.ltb_spec file_gid (Z.of_nat 32)); [right|by left]; apply not_true_is_false; intros ?; apply Hout; right; split; [lia|done]).
        by apply (need_bits_covered access mode 2 1 0). }
  destruct (Z.eqb_spec (Z.land mode need) need) as [He|He]; rewrite Hn in He.
  - split; [|by left]. split; [by right|done].
  - split; [|by right]. split; [done|]. by intros [?|?].
Qed.

(** ** Strings *)

(** A buffer of [n] bytes that holds the first [n - 1] characters of a string and zeros. *)
Definition fixbuf (n : nat) (str : list Z) : list Z := take (n - 1) str ++ replicate (n - length (take (n - 1) str)) 0.

Lemma put_ok m i b : (i < length m)%nat -> put m i b = Some (<[i := b]> m).
Proof. intros H. unfold put. by rewrite decide_True. Qed.

Lemma put_end (str : list Z) m b : put (str ++ replicate (S m) 0) (length str) b = Some (str ++ b :: replicate m 0).
Proof.
  rewrite put_ok by (rewrite length_app, length_replicate; lia). f_equal.
  replace (length str) with (length str + 0)%nat by lia. by rewrite insert_app_r.
Qed.

Lemma put_take (str : list Z) i m b : (i <= length str)%nat -> put (take i str ++ replicate (S m) 0) i b = Some (take i str ++ b :: replicate m 0).
Proof. intros Hi. rewrite <- (put_end (take i str) m b). by rewrite length_take, Nat.min_l by done. Qed.

Lemma strncpy_loop_ok n s str i k :
  cstring s str -> (i + k = n - 1)%nat -> (0 < n)%nat -> (i <= length str)%nat ->
  strncpy_loop (take i str ++ replicate (n - i) 0) s i k = Some (fixbuf n str).
Proof.
  intros (rest & -> & Hall). revert i. induction k as [|k IH]; intros i Hk Hn Hi; cbn [strncpy_loop].
  - replace (n - i)%nat with 1%nat by lia. rewrite put_take by done. unfold fixbuf. replace (n - 1)%nat with i by lia.
    rewrite length_take, Nat.min_l by done. by replace (n - i)%nat with 1%nat by lia.
  - replace (n - i)%nat with (S (n - S i)) by lia. destruct (decide (i < length str)%nat) as [Hlt|Hge].
    + rewrite lookup_app_l by done. destruct (lookup_lt_is_Some_2 _ _ Hlt) as [c Hc]. rewrite Hc. cbn [mbind option_bind].
      pose proof (Forall_lookup_1 _ _ _ _ Hall Hc) as Hc0. rewrite (proj2 (Z.eqb_neq _ _)) by (simpl in Hc0; lia).
      rewrite put_take by done. cbn [mbind option_bind].
      replace (take i str ++ c :: replicate (n - S i) 0) with (take (S i) str ++ replicate (n - S i) 0) by (rewrite (take_S_r _ _ _ Hc), <- app_assoc; done).
      apply IH; lia.
    + assert (i = length str) as -> by lia. rewrite lookup_app_r, Nat.sub_diag by lia. cbn [lookup list_lookup mbind option_bind].
      change (0 =? 0) with true. cbv iota. rewrite put_take by done. unfold fixbuf. rewrite !take_ge by lia.
      by replace (n - length str)%nat with (S (n - S (length str))) by lia.
Qed.

Lemma strncpy_ok n s str : (0 < n)%nat -> cstring s str -> u_strncpy (replicate n 0) s n = Some (fixbuf n str).
Proof.
  intros Hn Hs. unfold u_strncpy. destruct n as [|n]; [lia|]. pose proof (strncpy_loop_ok (S n) s str 0 n Hs) as H.
  rewrite take_0 in H. apply H; lia.
Qed.

Lemma length_fixed n str : (0 < n)%nat -> length (fixbuf n str) = n.
Proof. intros Hn. unfold fixbuf. rewrite length_app, length_replicate, length_take. lia. Qed.

Lemma fixed_cstring n str : (0 < n)%nat -> Forall (fun b => 0 < b < 256) str -> cstring (fixbuf n str) (take (n - 1) str).
Proof.
  intros Hn Hs. exists (replicate (n - 1 - length (take (n - 1) str)) 0). split; [|by apply Forall_take].
  unfold fixbuf. f_equal. rewrite length_take. by replace (n - (n - 1) `min` length str)%nat with (S (n - 1 - (n - 1) `min` length str)) by lia.
Qed.

Lemma u_strcmp_ok a b sa sb : cstring a sa -> cstring b sb -> exists d, u_strcmp a b = Some d /\ (d = 0 <-> sa = sb).
Proof.
  revert b sa sb. induction a as [|x a IH]; intros b sa sb Ha Hb; [by apply cstring_nil in Ha|].
  destruct b as [|y b]; [by apply cstring_nil in Hb|]. cbn [u_strcmp].
  apply cstring_cons in Ha as [[-> ->]|(sa' & Hx & -> & Ha)]; apply cstring_cons in Hb as [[-> ->]|(sb' & Hy & -> & Hb)].
  - by exists 0.
  - exists (0 - y). split; [done|]. split; [lia|done].
  - rewrite (proj2 (Z.eqb_neq x 0)) by lia. exists (x - 0). split; [done|]. split; [lia|done].
  - rewrite (proj2 (Z.eqb_neq x 0)), (proj2 (Z.eqb_neq y 0)) by lia. simpl. destruct (Z.eqb_spec x y) as [->|Hne].
    + destruct (IH b sa' sb' Ha Hb) as (d & -> & Hd). exists d. split; [done|]. rewrite Hd. split; congruence.
    + exists (x - y). split; [done|]. split; [lia|]. by intros [= ? _].
Qed.

Lemma find_name_ok names strs name str :
  Forall2 cstring names strs -> cstring name str ->
  exists r, find_name names (Some name) = Some r /\ match r with Some i => strs !! i = Some str | None => str ∉ strs end.
Proof.
  intros Hn Hs. induction Hn as [|nm st names strs Hnm Hn IH]; [exists None; split; [done|set_solver]|].
  cbn [find_name mbind option_bind]. destruct (u_strcmp_ok _ _ _ _ Hnm Hs) as (d & -> & Hd). cbn [mbind option_bind].
  destruct (Z.eqb_spec d 0) as [H0|H0].
  - exists (Some 0%nat). split; [done|]. by rewrite (proj1 Hd H0).
  - destruct IH as (r & -> & Hr). exists (option_map S r). split; [done|]. destruct r as [i|]; [done|]. simpl.
    rewrite not_elem_of_cons. split; [|done]. intros ->. by apply H0, Hd.
Qed.

(** ** The database *)

Definition half16 (x : Z) : Prop := 0 <= x < 2 ^ 16.

(** A buffer of [n] bytes with a terminated string. *)
Definition text (n : nat) (buf : list Z) : Prop := length buf = n /\ cstring buf (until0 buf).

Record user_ok (u : asd_user_t) : Prop := {
  uo_uid : half16 (u_uid u); uo_gid : half16 (u_gid u); uo_flags : half (u_flags u); uo_groups : half (u_groups u);
  uo_hash : word (u_pw_hash u); uo_salt : word (u_pw_salt u);
  uo_name : text USR_NAME_LEN (u_name u); uo_home : text USR_HOME_LEN (u_home u); uo_shell : text USR_SHELL_LEN (u_shell u);
}.

Record group_ok (g : asd_group_t) : Prop := {
  go_gid : half16 (g_gid g); go_name : text USR_NAME_LEN (g_name g); go_mask : half (g_member_mask g);
}.

(** The tables are within their arrays, every entry is well formed, and no two users share a
    uid nor two groups a gid. *)
Record usr_inv (s : usr_st) : Prop := {
  ui_users : length (us_users s) = USR_MAX_USERS; ui_count : 0 <= us_user_count s <= 64;
  ui_groups : length (us_groups s) = USR_MAX_GROUPS; ui_gcount : 0 <= us_group_count s <= 32;
  ui_user : Forall user_ok (users s); ui_group : Forall group_ok (groups s);
  ui_uids : NoDup (u_uid <$> users s); ui_gids : NoDup (g_gid <$> groups s);
  ui_pool : pool_inv (us_pool s);
}.

(** The name of a user. *)
Definition uname (u : asd_user_t) : list Z := until0 (u_name u).

Lemma fixed_text n str : (0 < n)%nat -> Forall (fun b => 0 < b < 256) str -> text n (fixbuf n str).
Proof.
  intros Hn Hs. pose proof (fixed_cstring n str Hn Hs) as Hc. split; [by apply length_fixed|]. by rewrite (until0_cstring _ _ Hc).
Qed.

Lemma until0_fixed n str : (0 < n)%nat -> Forall (fun b => 0 < b < 256) str -> until0 (fixbuf n str) = take (n - 1) str.
Proof. intros Hn Hs. by apply until0_cstring, fixed_cstring. Qed.

Section tables.
Context (s : usr_st) (Hinv : usr_inv s).

Lemma length_users : length (users s) = Z.to_nat (us_user_count s).
Proof. unfold users. rewrite length_take, (ui_users _ Hinv). pose proof (ui_count _ Hinv). unfold USR_MAX_USERS. lia. Qed.

Lemma length_groups : length (groups s) = Z.to_nat (us_group_count s).
Proof. unfold groups. rewrite length_take, (ui_groups _ Hinv). pose proof (ui_gcount _ Hinv). unfold USR_MAX_GROUPS. lia. Qed.

Lemma users_lookup i u : users s !! i = Some u -> us_users s !! i = Some u.
Proof. intros H. unfold users in H. by apply lookup_take_Some in H as [? _]. Qed.

(** What the lookups by number return. *)
Lemma find_uid_ok uid :
  match usr_find_by_uid s uid with
  | Some i => exists u, users s !! i = Some u /\ u_uid u = uid /\ (i < Z.to_nat (us_user_count s))%nat
  | None => uid ∉ (u_uid <$> users s)
  end.
Proof.
  unfold usr_find_by_uid. destruct (find_idx _ _) as [i|] eqn:Hf.
  - apply find_idx_Some in Hf as (u & Hu & Hp & _). apply Z.eqb_eq in Hp. exists u. split_and!; [done|done|].
    rewrite <- length_users. by eapply lookup_lt_Some.
  - rewrite find_idx_None in Hf. rewrite list_elem_of_fmap. intros (u & -> & Hu). apply list_elem_of_lookup in Hu as [i Hi].
    specialize (Hf i u Hi). by rewrite Z.eqb_refl in Hf.
Qed.

Lemma find_uid_at i u : users s !! i = Some u -> usr_find_by_uid s (u_uid u) = Some i.
Proof.
  intros Hi. pose proof (find_uid_ok (u_uid u)) as Hf. destruct (usr_find_by_uid s (u_uid u)) as [j|].
  - destruct Hf as (u' & Hj & He & _). f_equal. apply (NoDup_lookup _ _ _ (u_uid u) (ui_uids _ Hinv)); rewrite list_lookup_fmap.
    + by rewrite Hj, <- He.
    + by rewrite Hi.
  - exfalso. apply Hf, list_elem_of_fmap. exists u. split; [done|]. by eapply list_elem_of_lookup_2.
Qed.

Lemma find_gid_ok gid :
  match grp_find_by_gid s gid with
  | Some i => exists g, groups s !! i = Some g /\ g_gid g = gid /\ (i < Z.to_nat (us_group_count s))%nat
  | None => gid ∉ (g_gid <$> groups s)
  end.
Proof.
  unfold grp_find_by_gid. destruct (find_idx _ _) as [i|] eqn:Hf.
  - apply find_idx_Some in Hf as (g & Hg & Hp & _). apply Z.eqb_eq in Hp. exists g. split_and!; [done|done|].
    rewrite <- length_groups. by eapply lookup_lt_Some.
  - rewrite find_idx_None in Hf. rewrite list_elem_of_fmap. intros (g & -> & Hg). apply list_elem_of_lookup in Hg as [i Hi].
    specialize (Hf i g Hi). by rewrite Z.eqb_refl in Hf.
Qed.

Lemma find_uname_ok name str :
  cstring name str -> exists r, usr_find_by_name s (Some name) = Some r /\
    match r with Some i => exists u, users s !! i = Some u /\ uname u = str | None => str ∉ (uname <$> users s) end.
Proof.
  intros Hs. destruct (find_name_ok (map u_name (users s)) (uname <$> users s) name str) as (r & Hr & Hm); [|done|].
  - rewrite Forall2_fmap. apply Forall_Forall2_diag. eapply Forall_impl; [apply (ui_user _ Hinv)|]. intros u Hu. apply (uo_name _ Hu).
  - exists r. split; [done|]. destruct r as [i|]; [|done]. rewrite list_lookup_fmap in Hm. destruct (users s !! i) as [u|]; [|done].
    exists u. split; [done|]. by injection Hm.
Qed.

Lemma find_gname_ok name str :
  cstring name str -> exists r, grp_find_by_name s (Some name) = Some r /\
    match r with Some i => exists g, groups s !! i = Some g /\ until0 (g_name g) = str | None => str ∉ ((fun g => until0 (g_name g)) <$> groups s) end.
Proof.
  intros Hs. destruct (find_name_ok (map g_name (groups s)) ((fun g => until0 (g_name g)) <$> groups s) name str) as (r & Hr & Hm); [|done|].
  - rewrite Forall2_fmap. apply Forall_Forall2_diag. eapply Forall_impl; [apply (ui_group _ Hinv)|]. intros g Hg. apply (go_name _ Hg).
  - exists r. split; [done|]. destruct r as [i|]; [|done]. rewrite list_lookup_fmap in Hm. destruct (groups s !! i) as [g|]; [|done].
    exists g. split; [done|]. by injection Hm.
Qed.

End tables.

(** ** Updates *)

Lemma fmap_alter_same {A B} (g : A -> B) (f : A -> A) i (l : list A) : (forall x, g (f x) = g x) -> g <$> alter f i l = g <$> l.
Proof.
  intros H. rewrite (list_fmap_alter g f id) by (apply Forall_true; intros x; apply H). by rewrite list_alter_id.
Qed.

Lemma upd_user_ok s i f :
  usr_inv s -> (i < Z.to_nat (us_user_count s))%nat -> (forall u, user_ok u -> user_ok (f u)) -> (forall u, u_uid (f u) = u_uid u) ->
  usr_inv (upd_user s i f) /\ users (upd_user s i f) = alter f i (users s).
Proof.
  intros Hinv Hi Hf Hu. assert (Hus : users (upd_user s i f) = alter f i (users s)) by (by apply take_alter_lt).
  split; [|done]. destruct Hinv. constructor; try done.
  - cbn [us_users upd_user set_users]. by rewrite length_alter.
  - rewrite Hus. apply Forall_alter; [done|]. intros u _. apply Hf.
  - rewrite Hus. by rewrite fmap_alter_same.
Qed.

Lemma upd_group_ok s i f :
  usr_inv s -> (i < Z.to_nat (us_group_count s))%nat -> (forall g, group_ok g -> group_ok (f g)) -> (forall g, g_gid (f g) = g_gid g) ->
  usr_inv (upd_group s i f) /\ groups (upd_group s i f) = alter f i (groups s).
Proof.
  intros Hinv Hi Hf Hg. assert (Hgs : groups (upd_group s i f) = alter f i (groups s)) by (by apply take_alter_lt).
  split; [|done]. destruct Hinv. constructor; try done.
  - cbn [us_groups upd_group set_groups]. by rewrite length_alter.
  - rewrite Hgs. apply Forall_alter; [done|]. intros g _. apply Hf.
  - rewrite Hgs. by rewrite fmap_alter_same.
Qed.

Lemma bits_half x : 0 <= x -> (forall i, 32 <= i -> Z.testbit x i = false) -> half x.
Proof.
  intros H0 Hb. unfold half. split; [done|]. destruct (decide (x = 0)); [lia|]. apply Z.log2_lt_pow2; [lia|].
  destruct (decide (32 <= Z.log2 x)) as [Hl|]; [|lia]. pose proof (Z.bit_log2 x ltac:(lia)) as Ht. rewrite (Hb _ Hl) in Ht. done.
Qed.

Lemma half_bits x i : half x -> 32 <= i -> Z.testbit x i = false.
Proof.
  intros Hx Hi. unfold half in Hx. destruct (decide (x = 0)) as [->|]; [apply Z.bits_0|]. apply Z.bits_above_log2; [lia|].
  assert (Z.log2 x < 32) by (apply Z.log2_lt_pow2; lia). lia.
Qed.

Lemma half_lor x y : half x -> half y -> half (Z.lor x y).
Proof.
  intros Hx Hy. apply bits_half; [apply Z.lor_nonneg; split; [apply Hx|apply Hy]|]. intros i Hi. by rewrite Z.lor_spec, !half_bits.
Qed.

Lemma half_land x y : half x -> 0 <= y -> half (Z.land x y).
Proof.
  intros Hx Hy. apply bits_half; [apply Z.land_nonneg; by right|]. intros i Hi. by rewrite Z.land_spec, (half_bits x).
Qed.

Lemma half_bit k : 0 <= k < 32 -> half (Z.shiftl 1 k).
Proof.
  intros Hk. rewrite Z.shiftl_1_l. unfold half. split; [apply Z.pow_nonneg; lia|]. apply Z.pow_lt_mono_r; lia.
Qed.

Lemma join_mask_ok uid g : 0 <= uid < 32 -> group_ok g -> group_ok (join_mask uid g).
Proof. intros Hu [H1 H2 H3]. constructor; [done|done|]. simpl. apply half_lor; [done|by apply half_bit]. Qed.

Lemma leave_mask_ok uid g : 0 <= uid < 32 -> group_ok g -> group_ok (leave_mask uid g).
Proof.
  intros Hu [H1 H2 H3]. constructor; [done|done|]. simpl. apply half_land; [done|]. apply Z.lxor_nonneg.
  pose proof (half_bit uid Hu) as [? _]. split; [done|lia].
Qed.

Lemma add_bits_ok gid u : 0 <= gid -> user_ok u -> user_ok (add_bits gid u).
Proof.
  intros Hg Hu. unfold add_bits, USR_MAX_GROUPS. destruct (Z.ltb_spec gid (Z.of_nat 32)); [|done]. destruct Hu. constructor; try done.
  simpl. apply half_lor; [done|apply half_bit; lia].
Qed.

Lemma del_bits_ok gid u : 0 <= gid -> user_ok u -> user_ok (del_bits gid u).
Proof.
  intros Hg Hu. unfold del_bits, USR_MAX_GROUPS. destruct (Z.ltb_spec gid (Z.of_nat 32)); [|done]. destruct Hu. constructor; try done.
  simpl. apply half_land; [done|]. apply Z.lxor_nonneg. pose proof (half_bit gid ltac:(lia)) as [? _]. split; [done|lia].
Qed.

Lemma group_bits_ok gid flags : 0 <= gid -> half (group_bits gid flags).
Proof.
  intros Hg. unfold group_bits, USR_MAX_GROUPS. assert (Hb : half (if gid <? Z.of_nat 32 then Z.shiftl 1 gid else 0)).
  { destruct (Z.ltb_spec gid (Z.of_nat 32)); [apply half_bit; lia|unfold half; lia]. }
  destruct (negb _); [|done]. apply half_lor; [done|by apply half_bit].
Qed.

Lemma set_pw_ok hash salt u : word hash -> word salt -> user_ok u -> user_ok (set_pw hash salt u).
Proof. intros Hh Hs []. by constructor. Qed.

(** Joining the groups changes only member masks. *)
Lemma join_groups_ok s uid gid flags :
  usr_inv s -> 0 <= uid ->
  let s' := join_groups s uid gid flags in usr_inv s' /\ us_users s' = us_users s /\ us_user_count s' = us_user_count s /\
    us_pool s' = us_pool s /\ us_reads s' = us_reads s /\ g_gid <$> groups s' = g_gid <$> groups s /\ g_name <$> groups s' = g_name <$> groups s.
Proof.
  intros Hinv Hu. unfold join_groups. destruct (Z.ltb_spec uid 32) as [Hlt|]; [|done].
  assert (Hstep : forall t gid', usr_inv t -> let t' := match grp_find_by_gid t gid' with Some i => upd_group t i (join_mask uid) | None => t end in
    usr_inv t' /\ us_users t' = us_users t /\ us_user_count t' = us_user_count t /\ us_pool t' = us_pool t /\ us_reads t' = us_reads t /\
    g_gid <$> groups t' = g_gid <$> groups t /\ g_name <$> groups t' = g_name <$> groups t).
  { intros t gid' Ht. pose proof (find_gid_ok t Ht gid') as Hf. destruct (grp_find_by_gid t gid') as [i|]; [|done].
    destruct Hf as (g & _ & _ & Hi). destruct (upd_group_ok t i (join_mask uid) Ht Hi) as [H1 H2]; [intros g'; by apply join_mask_ok|done|].
    split; [done|]. do 4 (split; [done|]). rewrite H2. split; by apply fmap_alter_same. }
  destruct (Hstep s gid Hinv) as (H1 & H2 & H3 & H4 & H5 & H6 & H7). cbv zeta in *.
  set (s1 := match grp_find_by_gid s gid with Some i => upd_group s i (join_mask uid) | None => s end) in *.
  destruct (negb _); [|done]. destruct (Hstep s1 GID_WHEEL H1) as (K1 & K2 & K3 & K4 & K5 & K6 & K7). split_and!; congruence || done.
Qed.

(** ** Operations *)

Lemma take_grow {A} (l : list A) n x : (n < length l)%nat -> take (S n) (<[n := x]> l) = take n l ++ [x].
Proof. intros H. rewrite (take_S_r _ _ x) by (by apply list_lookup_insert_eq). by rewrite take_insert_ge. Qed.

Lemma NoDup_snoc {A} (l : list A) x : NoDup l -> x ∉ l -> NoDup (l ++ [x]).
Proof. intros Hl Hx. apply NoDup_app. split; [done|]. split; [set_solver|apply NoDup_singleton]. Qed.

(** A group that can be added: there is room, and its number and name are new. *)
Definition group_free (s : usr_st) (gid : Z) (str : list Z) : Prop :=
  us_group_count s < 32 /\ (gid ∉ (g_gid <$> groups s)) /\ str ∉ ((fun g => until0 (g_name g)) <$> groups s).

Lemma grp_add_ok s gid name str :
  usr_inv s -> half16 gid -> cstring name str ->
  exists r s', grp_add s gid (Some name) = Some (r, s') /\ usr_inv s' /\ us_users s' = us_users s /\ us_user_count s' = us_user_count s /\
    us_pool s' = us_pool s /\ us_reads s' = us_reads s /\
    (r = 0 /\ group_free s gid str /\ groups s' = groups s ++ [mk_group gid (fixbuf USR_NAME_LEN str) 0] \/ r = -1 /\ ~ group_free s gid str /\ s' = s).
Proof.
  intros Hinv Hg Hs. assert (Hstr : Forall (fun b => 0 < b < 256) str) by (by destruct Hs as (? & _ & ?)). pose proof (ui_gcount _ Hinv) as Hc. pose proof (ui_groups _ Hinv) as Hl. unfold USR_MAX_GROUPS in Hl.
  unfold grp_add, USR_MAX_GROUPS. destruct (Z.leb_spec (Z.of_nat 32) (us_group_count s)) as [Hfull|Hroom].
  { exists (-1), s. do 6 (split; [done|]). right. split; [done|]. split; [|done]. intros [? _]. lia. }
  pose proof (find_gid_ok s Hinv gid) as Hf. destruct (grp_find_by_gid s gid) as [i|].
  { destruct Hf as (g & Hi & He & _). exists (-1), s. do 6 (split; [done|]). right. split; [done|]. split; [|done]. intros (_ & Hno & _).
    apply Hno, list_elem_of_fmap. exists g. split; [done|]. by eapply list_elem_of_lookup_2. }
  destruct (find_gname_ok s Hinv name str Hs) as (r & -> & Hr). cbn [mbind option_bind]. destruct r as [i|].
  { destruct Hr as (g & Hi & He). exists (-1), s. do 6 (split; [done|]). right. split; [done|]. split; [|done]. intros (_ & _ & Hno).
    apply Hno, list_elem_of_fmap. exists g. split; [done|]. by eapply list_elem_of_lookup_2. }
  cbn [mbind option_bind]. rewrite (strncpy_ok USR_NAME_LEN name str) by (done || (unfold USR_NAME_LEN; lia)). cbn [mbind option_bind].
  rewrite decide_True by lia. set (s' := mk_usr _ _ _ _ _ _). exists 0, s'.
  assert (Hgs : groups s' = groups s ++ [mk_group gid (fixbuf USR_NAME_LEN str) 0]).
  { unfold groups, s'. cbn [us_groups us_group_count]. replace (Z.to_nat (us_group_count s + 1)) with (S (Z.to_nat (us_group_count s))) by lia.
    apply take_grow. lia. }
  split; [done|]. split; [|do 4 (split; [done|]); left; done].
  destruct Hinv. constructor; try done.
  - cbn [us_groups s']. by rewrite length_insert.
  - cbn [us_group_count s']. lia.
  - rewrite Hgs. apply Forall_app. split; [done|]. apply Forall_singleton. constructor; [done| |unfold half; simpl; lia].
    simpl. apply fixed_text; [unfold USR_NAME_LEN; lia|done].
  - rewrite Hgs, fmap_app. by apply NoDup_snoc.
Qed.

Lemma cstring_first s str : cstring s str -> exists c, s !! 0%nat = Some c /\ (c = 0 <-> str = []).
Proof.
  destruct s as [|c s]; [by intros ?%cstring_nil|]. intros Hs. exists c. split; [done|].
  apply cstring_cons in Hs as [[-> ->]|(str' & Hc & -> & _)]; [done|]. split; [lia|done].
Qed.

(** The characters of a literal are characters. *)
Definition is_text (l : list Z) : bool := forallb (fun b => (0 <? b) && (b <? 256)) l.

Lemma text_bytes l : is_text l = true -> Forall (fun b => 0 < b < 256) l.
Proof. unfold is_text. rewrite forallb_forall. intros H. apply Forall_forall. intros b Hb. apply list_elem_of_In in Hb. specialize (H b Hb). lia. Qed.

(** A user appended to the table. *)
Lemma push_user_ok s u :
  usr_inv s -> user_ok u -> us_user_count s < 64 -> u_uid u ∉ (u_uid <$> users s) ->
  let s' := mk_usr (<[Z.to_nat (us_user_count s) := u]> (us_users s)) (us_user_count s + 1) (us_groups s) (us_group_count s) (us_pool s) (us_reads s) in
  usr_inv s' /\ users s' = users s ++ [u].
Proof.
  intros Hinv Hu Hc Hno s'. pose proof (ui_users _ Hinv) as Hl. unfold USR_MAX_USERS in Hl. pose proof (ui_count _ Hinv) as Hc0.
  assert (Hus : users s' = users s ++ [u]).
  { unfold users, s'. cbn [us_users us_user_count]. replace (Z.to_nat (us_user_count s + 1)) with (S (Z.to_nat (us_user_count s))) by lia.
    apply take_grow. lia. }
  split; [|done]. destruct Hinv. constructor; try done.
  - cbn [us_users s']. by rewrite length_insert.
  - cbn [us_user_count s']. lia.
  - rewrite Hus. apply Forall_app. split; [done|]. by apply Forall_singleton.
  - rewrite Hus, fmap_app. by apply NoDup_snoc.
Qed.

Lemma alter_insert {A} (f : A -> A) i (l : list A) x : l !! i = Some x -> alter f i l = <[i := f x]> l.
Proof.
  intros Hi. apply list_eq. intros k. rewrite list_lookup_alter. destruct (decide (i = k)) as [<-|Hne].
  - rewrite Hi, list_lookup_insert_eq; [done|]. by eapply lookup_lt_Some.
  - by rewrite list_lookup_insert_ne.
Qed.

(** Updating the one group with a number. *)
Lemma alter_unique (P : Prop) `{!Decision P} (gs : list asd_group_t) g j x gid :
  gs !! j = Some x -> g_gid x = gid -> NoDup (g_gid <$> gs) -> P ->
  alter g j gs = (fun y => if decide (g_gid y = gid /\ P) then g y else y) <$> gs.
Proof.
  intros Hj He Hnd HP. apply list_eq. intros k. rewrite list_lookup_fmap, list_lookup_alter. destruct (decide (j = k)) as [<-|Hne].
  - rewrite Hj. simpl. by rewrite decide_True.
  - destruct (gs !! k) as [y|] eqn:Hk; [|done]. simpl. rewrite decide_False; [done|]. intros [Hy _]. apply Hne.
    apply (NoDup_lookup _ _ _ gid Hnd); rewrite list_lookup_fmap; [by rewrite Hj, <- He|by rewrite Hk, <- Hy].
Qed.

Lemma not_in_dec {A} `{EqDecision A} (x : A) (l : list A) : bool_decide (x ∈ l) = false -> x ∉ l.
Proof. apply bool_decide_eq_false_1. Qed.

Section clock.
Context (clock : nat -> Z) (Hclock : forall n, word (clock n)).

(** The user [usr_add] makes of its arguments. *)
Definition new_user (uid gid : Z) (name pw : list Z) (flags : Z) (home shell : list Z) (salt : Z) : asd_user_t :=
  mk_user uid gid flags (pw_hash pw salt) salt (fixbuf USR_NAME_LEN name) (fixbuf USR_HOME_LEN home) (fixbuf USR_SHELL_LEN shell) (group_bits gid flags).

(** The string of an argument that may be NULL. *)
Definition arg (x : option (list Z)) (dflt : string) (str : list Z) : Prop :=
  match x with Some s => cstring s str | None => str = c_str dflt end.

Lemma arg_ok x dflt str : Forall (fun b => 0 < b < 256) (c_str dflt) -> arg x dflt str -> cstring (or_else x dflt) str /\ Forall (fun b => 0 < b < 256) str.
Proof.
  intros Hd Ha. destruct x as [s|]; simpl in *; [split; [done|]; by destruct Ha as (? & _ & ?)|]. subst str. split; [by exists []|done].
Qed.

(** A user that can be added. *)
Definition user_free (s : usr_st) (uid : Z) (name : list Z) : Prop :=
  us_user_count s < 64 /\ (uid ∉ (u_uid <$> users s)) /\ (name ∉ (uname <$> users s)) /\ name <> [].

Lemma get_salt_ok s :
  usr_inv s -> exists v s', get_salt clock s = Some (v, s') /\ word v /\ usr_inv s' /\ us_users s' = us_users s /\ us_user_count s' = us_user_count s /\
    us_groups s' = us_groups s /\ us_group_count s' = us_group_count s.
Proof.
  intros Hinv. destruct (get64_ok (us_pool s) (clock (us_reads s)) (ui_pool _ Hinv) (Hclock _)) as (v & p & He & Hp & Hv).
  unfold get_salt. rewrite He. cbn [mbind option_bind]. do 2 eexists. split; [done|]. split; [done|]. split; [|done].
  destruct Hinv. by constructor.
Qed.

Lemma usr_add_ok s uid gid name nstr pw pstr flags home hstr shell sstr :
  usr_inv s -> half16 uid -> half16 gid -> half flags -> cstring name nstr -> password pw pstr -> arg home "/" hstr -> arg shell "/bin/asdsh" sstr ->
  exists r s', usr_add clock s uid gid (Some name) pw flags home shell = Some (r, s') /\ usr_inv s' /\
    (r = 0 /\ user_free s uid nstr /\
       (exists salt, word salt /\ users s' = users s ++ [new_user uid gid nstr pstr flags hstr sstr salt]) /\
       g_gid <$> groups s' = g_gid <$> groups s /\ g_name <$> groups s' = g_name <$> groups s \/
     r = -1 /\ ~ user_free s uid nstr /\ s' = s).
Proof.
  intros Hinv Hu Hg Hfl Hn Hp Hh Hsh. destruct (arg_ok home "/" hstr) as [Ch Fh]; [by apply text_bytes|done|].
  destruct (arg_ok shell "/bin/asdsh" sstr) as [Cs Fs]; [by apply text_bytes|done|].
  assert (Fn : Forall (fun b => 0 < b < 256) nstr) by (by destruct Hn as (? & _ & ?)).
  pose proof (ui_count _ Hinv) as Hc. unfold usr_add, USR_MAX_USERS. destruct (Z.leb_spec (Z.of_nat 64) (us_user_count s)) as [Hfull|Hroom].
  { exists (-1), s. do 2 (split; [done|]). right. split; [done|]. split; [|done]. intros [? _]. lia. }
  pose proof (find_uid_ok s Hinv uid) as Hf. destruct (usr_find_by_uid s uid) as [i|].
  { destruct Hf as (u & Hi & He & _). exists (-1), s. do 2 (split; [done|]). right. split; [done|]. split; [|done]. intros (_ & Hno & _).
    apply Hno, list_elem_of_fmap. exists u. split; [done|]. by eapply list_elem_of_lookup_2. }
  destruct (find_uname_ok s Hinv name nstr Hn) as (r & -> & Hr). cbn [mbind option_bind]. destruct r as [i|].
  { destruct Hr as (u & Hi & He). exists (-1), s. do 2 (split; [done|]). right. split; [done|]. split; [|done]. intros (_ & _ & Hno & _).
    apply Hno, list_elem_of_fmap. exists u. split; [done|]. by eapply list_elem_of_lookup_2. }
  destruct (cstring_first name nstr Hn) as (c & -> & Hc0). cbn [mbind option_bind]. destruct (Z.eqb_spec c 0) as [Hz|Hnz].
  { exists (-1), s. do 2 (split; [done|]). right. split; [done|]. split; [|done]. intros (_ & _ & _ & Hne). by apply Hne, Hc0. }
  destruct (get_salt_ok s Hinv) as (salt & s1 & -> & Hsalt & Hinv1 & E1 & E2 & E3 & E4). cbn [mbind option_bind].
  rewrite (hash_ok _ pstr) by (by apply or_else_ok). cbn [mbind option_bind]. unfold zero_user. cbn [u_name u_home u_shell].
  rewrite (strncpy_ok USR_NAME_LEN _ _ (Nat.lt_0_succ _) Hn). cbn [mbind option_bind].
  rewrite (strncpy_ok USR_HOME_LEN _ _ (Nat.lt_0_succ _) Ch). cbn [mbind option_bind].
  rewrite (strncpy_ok USR_SHELL_LEN _ _ (Nat.lt_0_succ _) Cs). cbn [mbind option_bind].
  pose proof (ui_users _ Hinv1) as Hl1. unfold USR_MAX_USERS in Hl1. rewrite decide_True by lia. fold (new_user uid gid nstr pstr flags hstr sstr salt).
  rewrite <- E2. rewrite <- E2 in Hroom, Hc. set (u := new_user _ _ _ _ _ _ _ _) in *. assert (Hnew : user_ok u).
  { constructor; simpl; try done; try (apply fixed_text; [unfold USR_NAME_LEN, USR_HOME_LEN, USR_SHELL_LEN; lia|done]).
    - apply group_bits_ok. apply Hg.
    - apply hash_word. }
  assert (Hus1 : users s1 = users s) by (unfold users; by rewrite E1, E2).
  destruct (push_user_ok s1 u Hinv1 Hnew ltac:(lia)) as [Hinv2 Hus2]; [by rewrite Hus1|]. set (s2 := mk_usr _ _ _ _ _ _) in *.
  destruct (join_groups_ok s2 uid gid flags Hinv2 (proj1 Hu)) as (J1 & J2 & J3 & _ & _ & J6 & J7).
  exists 0. eexists. split; [done|]. split; [done|]. left. split; [done|]. split; [|split; [exists salt; split; [done|]|]].
  - split; [lia|]. split; [done|]. split; [done|]. intros He. by apply Hnz, Hc0.
  - unfold users at 1. rewrite J2, J3. fold (users s2). by rewrite Hus2, Hus1.
  - rewrite J6, J7. unfold s2, groups. cbn [us_groups us_group_count]. by rewrite E3, E4.
Qed.

Lemma set_password_ok s i u pw pstr :
  usr_inv s -> users s !! i = Some u -> password pw pstr ->
  exists salt s', usr_set_password clock s (u_uid u) pw = Some (0, s') /\ word salt /\ usr_inv s' /\
    users s' = alter (set_pw (pw_hash pstr salt) salt) i (users s) /\ groups s' = groups s.
Proof.
  intros Hinv Hi Hp. unfold usr_set_password. rewrite (find_uid_at s Hinv i u Hi).
  destruct (get_salt_ok s Hinv) as (salt & s1 & -> & Hsalt & Hinv1 & E1 & E2 & E3 & E4). cbn [mbind option_bind].
  rewrite (hash_ok _ pstr) by (by apply or_else_ok). cbn [mbind option_bind]. exists salt. eexists. split; [done|]. split; [done|].
  assert (Hlt : (i < Z.to_nat (us_user_count s1))%nat) by (rewrite E2, <- (length_users s Hinv); by eapply lookup_lt_Some).
  destruct (upd_user_ok s1 i (set_pw (pw_hash pstr salt) salt) Hinv1 Hlt) as [H1 H2]; [intros u'; by apply set_pw_ok; [apply hash_word|]|done|].
  split; [done|]. rewrite H2. unfold users, groups. cbn [us_groups us_group_count upd_user set_users]. by rewrite E1, E2, E3, E4.
Qed.

(** The answer to a password. *)
Definition accepts (u : asd_user_t) (str : list Z) : Prop :=
  Z.land (u_flags u) USR_FLAG_LOCKED = 0 /\ Z.land (u_flags u) USR_FLAG_NOLOGIN = 0 /\
  (if decide (u_pw_hash u = 0) then str = [] else pw_hash str (u_pw_salt u) = u_pw_hash u).

#[global] Instance accepts_dec u str : Decision (accepts u str).
Proof. unfold accepts. destruct (decide (u_pw_hash u = 0)); apply _. Defined.

Lemma check_password_ok s i u pw pstr :
  usr_inv s -> users s !! i = Some u -> password pw pstr ->
  usr_check_password s (u_uid u) pw = Some (if decide (accepts u pstr) then 1 else 0).
Proof.
  intros Hinv Hi Hp. unfold usr_check_password. rewrite (find_uid_at s Hinv i u Hi). cbn [mbind option_bind]. rewrite (users_lookup s i u Hi).
  destruct (Z.eqb_spec (Z.land (u_flags u) USR_FLAG_LOCKED) 0) as [Hl|Hl]; simpl; [|by rewrite decide_False by (by intros (? & _))].
  destruct (Z.eqb_spec (Z.land (u_flags u) USR_FLAG_NOLOGIN) 0) as [Hn|Hn]; simpl; [|by rewrite decide_False by (by intros (_ & ? & _))].
  destruct (Z.eqb_spec (u_pw_hash u) 0) as [Hz|Hz].
  - assert (Ha : accepts u pstr <-> pstr = []) by (unfold accepts; rewrite (decide_True (P := u_pw_hash u = 0)) by done; tauto).
    destruct pw as [pw|]; simpl in Hp.
    + destruct (cstring_first pw pstr Hp) as (c & -> & Hc). cbn [mbind option_bind]. f_equal. destruct (Z.eqb_spec c 0).
      * rewrite decide_True; [done|]. by apply Ha, Hc.
      * rewrite decide_False; [done|]. rewrite Ha. by rewrite <- Hc.
    + rewrite decide_True; [done|]. by apply Ha.
  - rewrite (hash_ok _ pstr) by (by apply or_else_ok). cbn [mbind option_bind]. unfold u64_eq_safe. f_equal.
    assert (Ha : accepts u pstr <-> pw_hash pstr (u_pw_salt u) = u_pw_hash u) by (unfold accepts; rewrite (decide_False (P := u_pw_hash u = 0)) by done; tauto).
    destruct (Z.eqb_spec (u_pw_hash u) (pw_hash pstr (u_pw_salt u))).
    + rewrite decide_True; [done|]. by apply Ha.
    + rewrite decide_False; [done|]. rewrite Ha. congruence.
Qed.

(** The groups of a process and the members of a group, as bits. *)
Lemma del_bit_spec x k j : 0 <= k < 32 -> 0 <= j -> half x -> Z.testbit (Z.land x (Z.lxor (2 ^ 32 - 1) (Z.shiftl 1 k))) j = Z.testbit x j && negb (bool_decide (j = k)).
Proof.
  intros Hk Hj Hx. rewrite Z.land_spec, Z.lxor_spec, Z.shiftl_1_l, Z.pow2_bits_eqb by lia. destruct (decide (j < 32)) as [Hlt|Hge].
  - change (2 ^ 32 - 1) with (Z.ones 32). rewrite Z.ones_spec_low by lia. simpl. destruct (Z.eqb_spec k j); [rewrite bool_decide_true by done|rewrite bool_decide_false by done]; done.
  - by rewrite (half_bits x j) by (done || lia).
Qed.

Lemma add_bit_spec x k j : 0 <= k -> Z.testbit (Z.lor x (Z.shiftl 1 k)) j = Z.testbit x j || bool_decide (j = k).
Proof.
  intros Hk. rewrite Z.lor_spec, Z.shiftl_1_l, Z.pow2_bits_eqb by lia. f_equal. destruct (Z.eqb_spec k j); [by rewrite bool_decide_true|by rewrite bool_decide_false].
Qed.

(** Updating the user at [i] and then the group with number [gid]. *)
Lemma member_step s i u gid f g :
  usr_inv s -> users s !! i = Some u -> (forall u, user_ok u -> user_ok (f u)) -> (forall u, u_uid (f u) = u_uid u) ->
  (forall x, 0 <= u_uid u < 32 -> group_ok x -> group_ok (g x)) -> (forall x, g_gid (g x) = g_gid x) -> 0 <= u_uid u ->
  let s1 := upd_user s i f in
  let s2 := match grp_find_by_gid s1 gid with Some j => if u_uid u <? 32 then upd_group s1 j g else s1 | None => s1 end in
  usr_inv s2 /\ users s2 = alter f i (users s) /\
  groups s2 = (fun x => if decide (g_gid x = gid /\ u_uid u < 32) then g x else x) <$> groups s.
Proof.
  intros Hinv Hi Hf Hfu Hg Hgg H0 s1 s2. assert (Hlt : (i < Z.to_nat (us_user_count s))%nat) by (rewrite <- (length_users s Hinv); by eapply lookup_lt_Some).
  destruct (upd_user_ok s i f Hinv Hlt Hf Hfu) as [Hinv1 Hus1]. fold s1 in Hinv1, Hus1. assert (Hgs1 : groups s1 = groups s) by done.
  assert (Hid : (u_uid u < 32 -> forall x, x ∈ groups s -> g_gid x <> gid) ->
    (fun x => if decide (g_gid x = gid /\ u_uid u < 32) then g x else x) <$> groups s = groups s).
  { intros Hno. rewrite <- (list_fmap_id (groups s)) at 2. apply list_fmap_ext. intros k x Hx. destruct (decide _) as [[He Hl]|]; [|done].
    exfalso. apply (Hno Hl x); [by eapply list_elem_of_lookup_2|done]. }
  unfold s2. pose proof (find_gid_ok s1 Hinv1 gid) as Hfg. destruct (grp_find_by_gid s1 gid) as [j|].
  - destruct Hfg as (x & Hj & He & Hjl). destruct (Z.ltb_spec (u_uid u) 32) as [Hl|Hge].
    + destruct (upd_group_ok s1 j g Hinv1 Hjl) as [Hinv2 Hgs2]; [intros y; by apply Hg|done|]. split; [done|]. split; [done|].
      rewrite Hgs2, Hgs1. apply (alter_unique _ _ _ _ x); [by rewrite <- Hgs1|done|apply (ui_gids _ Hinv)|done].
    + split; [done|]. split; [done|]. rewrite Hgs1, Hid; [done|lia].
  - split; [done|]. split; [done|]. rewrite Hgs1, Hid; [done|]. intros _ x Hx He. apply Hfg, list_elem_of_fmap. exists x. by rewrite Hgs1.
Qed.

(** The built-in account. *)
Definition root_user : asd_user_t := set_pw 0 0 (new_user UID_ROOT GID_ROOT (c_str "root") [] 0 (c_str "/root") (c_str "/bin/asdsh") 0).

Lemma literal_ok str : is_text (c_str str) = true -> cstring (c_str str ++ [0]) (c_str str).
Proof. intros H. exists []. split; [done|by apply text_bytes]. Qed.

Lemma empty_db p n : pool_inv p -> usr_inv (mk_usr (replicate USR_MAX_USERS zero_user) 0 (replicate USR_MAX_GROUPS zero_group) 0 p n).
Proof. intros Hp. constructor; [done|simpl; lia|done|simpl; lia| | | | |done]; constructor. Qed.

Lemma add_builtin s gid str gids :
  usr_inv s -> half16 gid -> is_text (c_str str) = true -> g_gid <$> groups s = gids -> gid ∉ gids -> (length gids < 32)%nat ->
  (c_str str) ∉ ((fun g => until0 (g_name g)) <$> groups s) ->
  exists s', grp_add s gid (Some (c_str str ++ [0])) = Some (0, s') /\ usr_inv s' /\ users s' = users s /\
    groups s' = groups s ++ [mk_group gid (fixbuf USR_NAME_LEN (c_str str)) 0].
Proof.
  intros Hinv Hg Ht Hgs Hno Hl Hnm. destruct (grp_add_ok s gid _ _ Hinv Hg (literal_ok _ Ht)) as (r & s' & He & Hinv' & E1 & E2 & _ & _ & Hr).
  assert (Hfree : group_free s gid (c_str str)).
  { split; [|by rewrite Hgs]. rewrite <- Hgs, length_fmap, (length_groups s Hinv) in Hl. lia. }
  destruct Hr as [(-> & _ & Hgs')|(_ & Hn & _)]; [|done]. exists s'. split; [done|]. split; [done|]. split; [unfold users; by rewrite E1, E2|done].
Qed.

Lemma usr_init_state s :
  pool_inv (us_pool s) -> exists s', usr_init clock s = Some s' /\ usr_inv s' /\ users s' = [root_user] /\
    g_gid <$> groups s' = [GID_ROOT; GID_WHEEL; GID_USERS] /\ (fun g => until0 (g_name g)) <$> groups s' = [c_str "root"; c_str "wheel"; c_str "users"].
Proof.
  intros Hp. unfold usr_init. set (s0 := mk_usr _ _ _ _ _ _). pose proof (empty_db _ (us_reads s) Hp : usr_inv s0) as Hinv0.
  destruct (add_builtin s0 GID_ROOT "root" [] Hinv0) as (s1 & -> & Hinv1 & U1 & G1);
    [unfold half16, GID_ROOT; lia|done|done|set_solver|simpl; lia|simpl; set_solver|]. cbn [mbind option_bind fmap option_fmap option_map snd].
  destruct (add_builtin s1 GID_WHEEL "wheel" [GID_ROOT] Hinv1) as (s2 & -> & Hinv2 & U2 & G2);
    [unfold half16, GID_WHEEL; lia|done|by rewrite G1|by vm_compute; set_solver|simpl; lia|rewrite G1; by apply not_in_dec|]. cbn [mbind option_bind fmap option_fmap option_map snd].
  destruct (add_builtin s2 GID_USERS "users" [GID_ROOT; GID_WHEEL] Hinv2) as (s3 & -> & Hinv3 & U3 & G3);
    [unfold half16, GID_USERS; lia|done|by rewrite G2, G1|by apply not_in_dec|simpl; lia|rewrite G2, G1; by apply not_in_dec|]. cbn [mbind option_bind fmap option_fmap option_map snd].
  assert (Hus3 : users s3 = []) by (by rewrite U3, U2, U1).
  destruct (usr_add_ok s3 UID_ROOT GID_ROOT (c_str "root" ++ [0]) (c_str "root") (Some [0]) [] 0 (Some (c_str "/root" ++ [0])) (c_str "/root")
    (Some (c_str "/bin/asdsh" ++ [0])) (c_str "/bin/asdsh") Hinv3) as (r & s4 & -> & Hinv4 & Hr);
    [by vm_compute|by vm_compute|by vm_compute|by apply literal_ok|by exists []|by apply literal_ok|by apply literal_ok|].
  cbn [mbind option_bind fmap option_fmap option_map snd]. destruct Hr as [(_ & _ & (salt & Hsalt & U4) & G4 & N4)|(_ & Hn & _)].
  2: { exfalso. apply Hn. split; [|rewrite Hus3; split_and!; [set_solver|set_solver|done]].
    pose proof (length_users s3 Hinv3) as Hl. rewrite Hus3 in Hl. simpl in Hl. lia. }
  rewrite Hus3 in U4. pose proof (find_uid_at s4 Hinv4 0 (new_user UID_ROOT GID_ROOT (c_str "root") [] 0 (c_str "/root") (c_str "/bin/asdsh") salt)) as Hf.
  rewrite U4 in Hf. specialize (Hf eq_refl). cbn [new_user u_uid] in Hf. rewrite Hf.
  destruct (upd_user_ok s4 0 (set_pw 0 0) Hinv4) as [Hinv5 U5]; [rewrite <- (length_users s4 Hinv4), U4; simpl; lia|intros u; apply set_pw_ok; unfold word; lia|done|].
  eexists. split; [done|]. split; [done|]. split; [by rewrite U5, U4|]. change (groups (upd_user s4 0 (set_pw 0 0))) with (groups s4).
  rewrite G4. assert (Hnames : (fun g => until0 (g_name g)) <$> groups s4 = until0 <$> (g_name <$> groups s4)) by (by rewrite <- list_fmap_compose).
  rewrite Hnames, N4, G3, G2, G1. done.
Qed.

End clock.

(** ** Properties *)

(** C16: for a process and a file, [usr_check_perm] grants (0) exactly when the process is root or
    every access it asks for is in the permission bits of its class, the owner's, the group's
    or the others'; otherwise it denies (-1). *)
Theorem usr_check_perm_ok uid gid groups file_uid file_gid mode access :
  0 <= file_gid ->
  (usr_check_perm uid gid groups file_uid file_gid mode access = 0 <->
     uid = UID_ROOT \/ granted (class_of uid gid groups file_uid file_gid) mode access) /\
  (usr_check_perm uid gid groups file_uid file_gid mode access = 0 \/ usr_check_perm uid gid groups file_uid file_gid mode access = -1).
Proof. apply check_perm_ok. Qed.

(** The same password hashed with two different salts never gives the same hash. *)
Theorem pw_hash_salted_injective pw str x y h :
  password pw str -> word x -> word y -> pw_hash_salted pw x = Some h -> pw_hash_salted pw y = Some h -> x = y.
Proof.
  intros Hp Hx Hy H1 H2. rewrite (hash_ok _ _ _ Hp) in H1. rewrite (hash_ok _ _ _ Hp) in H2. apply (salt_inj str); [|done|done|congruence].
  destruct pw as [s|]; simpl in Hp; [by destruct Hp as (? & _ & ?)|]. by subst str.
Qed.

(** [usr_set_password] on an existing account succeeds with a fresh salt, changes no other
    account, and afterwards [usr_check_password] accepts a password exactly when the account may
    log in and the hashes agree; a hash of zero stands for the empty password. *)
Theorem usr_set_check_password clock s i u pw pstr :
  (forall n, word (clock n)) -> usr_inv s -> users s !! i = Some u -> password pw pstr ->
  exists salt s', usr_set_password clock s (u_uid u) pw = Some (0, s') /\ usr_inv s' /\
    (forall j, j <> i -> users s' !! j = users s !! j) /\
    forall pw' str', password pw' str' -> usr_check_password s' (u_uid u) pw' =
      Some (if decide (accepts (set_pw (pw_hash pstr salt) salt u) str') then 1 else 0).
Proof.
  intros Hclock Hinv Hi Hp. destruct (set_password_ok clock Hclock s i u pw pstr Hinv Hi Hp) as (salt & s' & Hs & Hw & Hinv' & Hus & _).
  exists salt, s'. split; [done|]. split; [done|]. split; [intros j Hj; rewrite Hus; by apply list_lookup_alter_ne|].
  intros pw' str' Hp'. apply (check_password_ok s' i (set_pw (pw_hash pstr salt) salt u)); [done| |done].
  rewrite Hus, list_lookup_alter_eq, Hi. done.
Qed.

(** After [usr_add_to_group] the user's bit of a group below 32 is set and no other bit of any
    user changes; the group's member mask gets the user's bit when the uid is below 32. *)
Theorem usr_add_to_group_ok s i u gid :
  usr_inv s -> users s !! i = Some u -> half16 gid ->
  exists s' u', usr_add_to_group s (u_uid u) gid = (0, s') /\ usr_inv s' /\ users s' = <[i := u']> (users s) /\
    (forall j, 0 <= j -> Z.testbit (u_groups u') j = Z.testbit (u_groups u) j || bool_decide (j = gid /\ gid < 32)) /\
    groups s' = (fun x => if decide (g_gid x = gid /\ u_uid u < 32) then join_mask (u_uid u) x else x) <$> groups s.
Proof.
  intros Hinv Hi Hg. pose proof (Forall_lookup_1 _ _ _ _ (ui_user _ Hinv) Hi) as Hu. pose proof (uo_uid _ Hu) as Hu0. unfold half16 in *.
  destruct (member_step s i u gid (add_bits gid) (join_mask (u_uid u)) Hinv Hi) as (H1 & H2 & H3);
    [intros u'; apply add_bits_ok; lia|intros u'; unfold add_bits; by destruct (_ <? _)|intros x ?; by apply join_mask_ok|done|lia|].
  unfold usr_add_to_group. rewrite (find_uid_at s Hinv i u Hi). cbv zeta in *. eexists _, (add_bits gid u). split; [|split; [exact H1|]].
  { destruct (grp_find_by_gid _ gid); [|done]. by destruct (_ <? 32). }
  split; [rewrite H2; by apply alter_insert|]. split; [|exact H3]. intros j Hj. unfold add_bits, USR_MAX_GROUPS.
  destruct (Z.ltb_spec gid (Z.of_nat 32)); [|rewrite bool_decide_false by lia; by rewrite orb_false_r]. cbn [u_groups].
  rewrite add_bit_spec by lia. f_equal. apply bool_decide_ext. lia.
Qed.

(** [usr_remove_from_group] clears exactly that bit. *)
Theorem usr_remove_from_group_ok s i u gid :
  usr_inv s -> users s !! i = Some u -> half16 gid ->
  exists s' u', usr_remove_from_group s (u_uid u) gid = (0, s') /\ usr_inv s' /\ users s' = <[i := u']> (users s) /\
    (forall j, 0 <= j -> Z.testbit (u_groups u') j = Z.testbit (u_groups u) j && negb (bool_decide (j = gid /\ gid < 32))) /\
    groups s' = (fun x => if decide (g_gid x = gid /\ u_uid u < 32) then leave_mask (u_uid u) x else x) <$> groups s.
Proof.
  intros Hinv Hi Hg. pose proof (Forall_lookup_1 _ _ _ _ (ui_user _ Hinv) Hi) as Hu. pose proof (uo_uid _ Hu) as Hu0. unfold half16 in *.
  destruct (member_step s i u gid (del_bits gid) (leave_mask (u_uid u)) Hinv Hi) as (H1 & H2 & H3);
    [intros u'; apply del_bits_ok; lia|intros u'; unfold del_bits; by destruct (_ <? _)|intros x ?; by apply leave_mask_ok|done|lia|].
  unfold usr_remove_from_group. rewrite (find_uid_at s Hinv i u Hi). cbv zeta in *. eexists _, (del_bits gid u). split; [|split; [exact H1|]].
  { destruct (grp_find_by_gid _ gid); [|done]. by destruct (_ <? 32). }
  split; [rewrite H2; by apply alter_insert|]. split; [|exact H3]. intros j Hj. unfold del_bits, USR_MAX_GROUPS.
  destruct (Z.ltb_spec gid (Z.of_nat 32)); [|rewrite bool_decide_false by lia; by rewrite andb_true_r]. cbn [u_groups].
  rewrite del_bit_spec by (try apply (uo_groups _ Hu); lia). do 2 f_equal. apply bool_decide_ext. lia.
Qed.

(** ** A database just started *)

Definition demo_clock (n : nat) : Z := u64 (1000 + Z.of_nat n).

Lemma demo_clock_ok n : word (demo_clock n).
Proof. apply u64_range. Qed.

Definition boot_usr : usr_st := mk_usr [] 0 [] 0 (se_pool demo_sec) 0.

Lemma boot_pool_ok : pool_inv (us_pool boot_usr).
Proof. destruct demo_sec_ok as (ev & Hp & _). exact Hp. Qed.

Lemma usr_check_perm_ok_witness : usr_check_perm 1000 100 2 0 1 0x1a0 USR_ACCESS_READ = 0 /\ usr_check_perm 1000 100 2 0 1 0x1a0 USR_ACCESS_WRITE = -1.
Proof.
  destruct (usr_check_perm_ok 1000 100 2 0 1 0x1a0 USR_ACCESS_READ) as [H1 _]; [lia|].
  destruct (usr_check_perm_ok 1000 100 2 0 1 0x1a0 USR_ACCESS_WRITE) as [H2 [H3|H3]]; [lia| |].
  - vm_compute in H3. discriminate H3.
  - split; [|exact H3]. apply H1. right. vm_compute. split; [done|]. split; done.
Defined.

Lemma pw_hash_salted_injective_witness : pw_hash_salted (Some (c_str "pw" ++ [0])) 1 <> pw_hash_salted (Some (c_str "pw" ++ [0])) 2.
Proof.
  assert (Hp : password (Some (c_str "pw" ++ [0])) (c_str "pw")) by (by apply literal_ok).
  intros He. rewrite (hash_ok _ _ 1 Hp) in He. symmetry in He.
  pose proof (pw_hash_salted_injective (Some (c_str "pw" ++ [0])) (c_str "pw") 1 2 (pw_hash (c_str "pw") 1) Hp ltac:(unfold word; lia) ltac:(unfold word; lia) (hash_ok _ _ 1 Hp) He) as H.
  discriminate H.
Defined.

Lemma usr_set_check_password_witness :
  exists s u salt s', users s = [u] /\ usr_set_password demo_clock s (u_uid u) (Some (c_str "pw" ++ [0])) = Some (0, s') /\
    usr_check_password s' (u_uid u) None = Some (if decide (accepts (set_pw (pw_hash (c_str "pw") salt) salt u) []) then 1 else 0).
Proof.
  destruct (usr_init_state demo_clock demo_clock_ok boot_usr boot_pool_ok) as (s & _ & Hinv & Hu & _).
  assert (Hi : users s !! 0%nat = Some root_user) by (rewrite Hu; reflexivity).
  destruct (usr_set_check_password demo_clock s 0 root_user (Some (c_str "pw" ++ [0])) (c_str "pw") demo_clock_ok Hinv Hi (literal_ok "pw" eq_refl)) as (salt & s' & H1 & _ & _ & H2).
  exists s, root_user, salt, s'. split; [exact Hu|]. split; [exact H1|]. apply (H2 None []). reflexivity.
Defined.

Lemma usr_add_to_group_ok_witness : exists s s', users s = [root_user] /\ usr_add_to_group s 0 1 = (0, s') /\ usr_inv s'.
Proof.
  destruct (usr_init_state demo_clock demo_clock_ok boot_usr boot_pool_ok) as (s & _ & Hinv & Hu & _).
  assert (Hi : users s !! 0%nat = Some root_user) by (rewrite Hu; reflexivity).
  destruct (usr_add_to_group_ok s 0 root_user 1 Hinv Hi) as (s' & u' & H1 & H2 & _); [unfold half16; lia|].
  exists s, s'. split; [exact Hu|]. split; [exact H1|exact H2].
Defined.

Lemma usr_remove_from_group_ok_witness : exists s s', users s = [root_user] /\ usr_remove_from_group s 0 0 = (0, s') /\ usr_inv s'.
Proof.
  destruct (usr_init_state demo_clock demo_clock_ok boot_usr boot_pool_ok) as (s & _ & Hinv & Hu & _).
  assert (Hi : users s !! 0%nat = Some root_user) by (rewrite Hu; reflexivity).
  destruct (usr_remove_from_group_ok s 0 root_user 0 Hinv Hi) as (s' & u' & H1 & H2 & _); [unfold half16; lia|].
  exists s, s'. split; [exact Hu|]. split; [exact H1|exact H2].
Defined.
