(* ===== verification/UsrText.v ===== *)
(** * The text format of the account database

    Reading a text always ends and keeps the database well formed; a text that
    [usr_write_passwd] wrote is read back as the same accounts. *)

From Stdlib Require Import ZArith Lia.
From stdpp Require Import base strings sets relations list.
From S2P Require Import Prelude KString Security SecuritySpec Usr UsrSpec.

Local Open Scope Z_scope.

(** ** Decimal and hexadecimal numbers *)

Definition solid (c : Z) : Prop := 0 < c < 256 /\ u_isspace c = false.

Lemma solid_bytes str : Forall solid str -> Forall (fun b => 0 < b < 256) str.
Proof. intros H. eapply Forall_impl; [exact H|]. by intros b [? _]. Qed.

Lemma u32_mul_add x r : u32 (u32 x * 10 + r) = u32 (x * 10 + r).
Proof. unfold u32. by rewrite <- Z.add_mod_idemp_l, Z.mul_mod_idemp_l, Z.add_mod_idemp_l by lia. Qed.

(** The digits of a number below 10^ti. *)
Lemma dec_loop_ok ti v acc :
  0 <= v < 10 ^ Z.of_nat ti -> exists ds, dec_loop ti v acc = Some (ds ++ acc) /\ Forall (fun c => 48 <= c <= 57) ds /\
    (forall k, v < 10 ^ Z.of_nat k -> (length ds <= k)%nat) /\ (0 < v -> ds <> []) /\
    forall w rest, atou_loop (ds ++ rest) (u32 w) = atou_loop rest (u32 (w * 10 ^ Z.of_nat (length ds) + v)).
Proof.
  revert v acc. induction ti as [|ti IH]; intros v acc Hv; cbn [dec_loop].
  { change (10 ^ Z.of_nat 0) with 1 in Hv. assert (v = 0) as -> by lia. exists []. split_and!; try done; [intros; simpl; lia|]. intros w rest. simpl. do 2 f_equal. lia. }
  destruct (Z.eqb_spec v 0) as [->|Hne].
  { exists []. split_and!; try done; [intros; simpl; lia|]. intros w rest. simpl. do 2 f_equal. lia. }
  pose proof (Z.mod_pos_bound v 10 ltac:(lia)) as Hr. pose proof (Z.div_mod v 10 ltac:(lia)) as Hdm.
  destruct (IH (v / 10) (48 + v mod 10 :: acc)) as (ds & He & Hd & Hl & _ & Ha).
  { split; [apply Z.div_pos; lia|]. apply Z.div_lt_upper_bound; [lia|]. rewrite Nat2Z.inj_succ, Z.pow_succ_r in Hv by lia. lia. }
  exists (ds ++ [48 + v mod 10]). split_and!.
  - by rewrite He, <- app_assoc.
  - apply Forall_app. split; [done|]. apply Forall_singleton. lia.
  - intros k Hk. rewrite length_app. simpl. destruct k as [|k]; [change (10 ^ Z.of_nat 0) with 1 in Hk; lia|].
    assert (length ds <= k)%nat; [|lia]. apply Hl. apply Z.div_lt_upper_bound; [lia|]. rewrite Nat2Z.inj_succ, Z.pow_succ_r in Hk by lia. lia.
  - intros _. by destruct ds.
  - intros w rest. rewrite <- app_assoc, Ha. cbn [app atou_loop]. unfold u_isdigit.
    rewrite (proj2 (Z.leb_le _ _)), (proj2 (Z.leb_le _ _)) by lia. cbn [andb]. rewrite u32_mul_add, length_app. cbn [length].
    rewrite Nat2Z.inj_add, Z.pow_add_r by lia. do 2 f_equal. change (10 ^ Z.of_nat 1) with 10. nia.
Qed.

Lemma digits_solid ds : Forall (fun c => 48 <= c <= 57) ds -> Forall solid ds.
Proof. intros H. eapply Forall_impl; [exact H|]. intros c Hc. simpl in Hc. split; [lia|]. unfold u_isspace. by rewrite !(proj2 (Z.eqb_neq _ _)) by lia. Qed.

(** A 16-bit number as text. *)
Lemma dec_str_ok v :
  half16 v -> exists ds, dec_str v = Some (ds ++ [0]) /\ Forall solid ds /\ ds <> [] /\ (length ds <= 5)%nat /\ u_atou (ds ++ [0]) = Some v.
Proof.
  unfold half16. intros Hv. unfold dec_str. destruct (Z.eqb_spec v 0) as [->|Hne].
  { exists [48]. split_and!; try done; [|simpl; lia]. by apply digits_solid, Forall_singleton. }
  destruct (dec_loop_ok 23 v [0]) as (ds & -> & Hd & Hl & Hnn & Ha); [change (Z.of_nat 23) with 23; lia|].
  exists ds. split_and!; [done|by apply digits_solid|apply Hnn; lia|apply Hl; change (Z.of_nat 5) with 5; lia|].
  unfold u_atou. change 0 with (u32 0) at 2. rewrite Ha. cbn [atou_loop]. change (u_isdigit 0) with false. cbv iota. f_equal. apply u32_small. lia.
Qed.

Lemma lor_nibble x n : 0 <= x -> 0 <= n < 16 -> Z.lor (x * 16) n = x * 16 + n.
Proof.
  intros Hx Hn. assert (H0 : Z.land (x * 16) n = 0).
  { change 16 with (2 ^ 4). apply Z.bits_inj'. intros i Hi. rewrite Z.land_spec, Z.bits_0. destruct (decide (i < 4)).
    - by rewrite Z.mul_pow2_bits_low by lia.
    - rewrite (Z.bits_above_log2 n i), andb_false_r; [done|lia|]. destruct (decide (n = 0)) as [->|]; [simpl; lia|].
      assert (Z.log2 n < 4) by (apply Z.log2_lt_pow2; lia). lia. }
  by rewrite <- Z.lxor_lor, <- Z.add_nocarry_lxor.
Qed.

Lemma hex_char_ok d : 0 <= d < 16 -> is_hex (hex_char d) = true /\ nibble (hex_char d) = Some d /\ solid (hex_char d) /\ (hex_char d =? 0) = false.
Proof.
  intros Hd. unfold hex_char, is_hex, nibble, solid, u_isspace. destruct (Z.ltb_spec d 10).
  - replace ((48 <=? 48 + d) && (48 + d <=? 57)) with true by lia. split_and!; [done|f_equal; lia|lia|lia|lia|lia].
  - replace ((48 <=? 97 + (d - 10)) && (97 + (d - 10) <=? 57)) with false by lia.
    replace ((97 <=? 97 + (d - 10)) && (97 + (d - 10) <=? 102)) with true by lia. split_and!; [done|f_equal; lia|lia|lia|lia|lia].
Qed.

Lemma hex_digits_ok n v acc :
  0 <= v -> exists hs, hex_digits n v acc = hs ++ acc /\ length hs = n /\ Forall solid hs /\
    (forall rest m, hex_loop (hs ++ rest) (n + m) = hex_loop rest m) /\
    forall w rest m, 0 <= w -> (w + 1) * 16 ^ Z.of_nat n <= 2 ^ 64 ->
      parse_loop (hs ++ rest) (n + m) w = parse_loop rest m (w * 16 ^ Z.of_nat n + v mod 16 ^ Z.of_nat n).
Proof.
  revert v acc. induction n as [|n IH]; intros v acc Hv; cbn [hex_digits].
  { exists []. split_and!; try done. intros w rest m _ _. cbn [app Nat.add]. change (16 ^ Z.of_nat 0) with 1. rewrite Z.mod_1_r. f_equal. lia. }
  assert (Hland : Z.land v 15 = v mod 16) by (change 15 with (Z.ones 4); rewrite Z.land_ones by lia; done).
  pose proof (Z.mod_pos_bound v 16 ltac:(lia)) as Hr. rewrite Hland. destruct (hex_char_ok (v mod 16) Hr) as (C1 & C2 & C3 & C4).
  destruct (IH (Z.shiftr v 4) (hex_char (v mod 16) :: acc)) as (hs & He & Hl & Hs & Hx & Hp); [by apply Z.shiftr_nonneg|].
  exists (hs ++ [hex_char (v mod 16)]). split_and!.
  - by rewrite He, <- app_assoc.
  - rewrite length_app. simpl. lia.
  - apply Forall_app. split; [done|by apply Forall_singleton].
  - intros rest m. rewrite <- app_assoc. replace (S n + m)%nat with (n + S m)%nat by lia. rewrite Hx. cbn [app hex_loop]. by rewrite C1.
  - intros w rest m Hw Hmax. rewrite <- app_assoc. replace (S n + m)%nat with (n + S m)%nat by lia.
    rewrite Nat2Z.inj_succ, Z.pow_succ_r in * by lia. pose proof (Z.pow_pos_nonneg 16 (Z.of_nat n) ltac:(lia) ltac:(lia)) as Hpos.
    rewrite Hp by lia. cbn [app parse_loop]. rewrite C4, C2. f_equal. rewrite Z.shiftr_div_pow2 by lia. change (2 ^ 4) with 16.
    pose proof (Z.mod_pos_bound (v / 16) (16 ^ Z.of_nat n) Hpos) as Hq.
    rewrite Z.shiftl_mul_pow2 by lia. change (2 ^ 4) with 16. rewrite u64_small by nia. rewrite lor_nibble by nia.
    rewrite (Z.rem_mul_r v 16 (16 ^ Z.of_nat n)) by lia. ring.
Qed.

(** A 64-bit number as sixteen digits. *)
Lemma fmt_hex64_ok v :
  word v -> exists hs, fmt_hex64 v = hs ++ [0] /\ length hs = 16%nat /\ Forall solid hs /\
    is_hex64 (hs ++ [0]) = Some true /\ parse_hex64 (hs ++ [0]) = Some v.
Proof.
  unfold word. intros Hv. unfold fmt_hex64. destruct (hex_digits_ok 16 v [0] ltac:(lia)) as (hs & -> & Hl & Hs & Hx & Hp).
  exists hs. split; [done|]. split; [done|]. split; [done|]. split.
  - unfold is_hex64. change 16%nat with (16 + 0)%nat. by rewrite Hx.
  - unfold parse_hex64. change 16%nat with (16 + 0)%nat. rewrite Hp by (change (16 ^ Z.of_nat 16) with (2 ^ 64); lia).
    cbn [parse_loop]. change (16 ^ Z.of_nat 16) with (2 ^ 64). f_equal. rewrite Z.mod_small; lia.
Qed.

(** ** Tokens *)

(** [q] is reached from [p] without passing a terminator. *)
Definition reach (p q : list Z) : Prop := exists pre, p = pre ++ q /\ 0 ∉ pre.

Lemma reach_refl p : reach p p.
Proof. exists []. split; [done|set_solver]. Qed.

Lemma reach_trans p q r : reach p q -> reach q r -> reach p r.
Proof. intros (a & -> & Ha) (b & -> & Hb). exists (a ++ b). split; [by rewrite app_assoc|set_solver]. Qed.

Lemma reach_cons c p q : c <> 0 -> reach p q -> reach (c :: p) q.
Proof. intros Hc (a & -> & Ha). exists (c :: a). split; [done|set_solver]. Qed.

Lemma reach_in p q : reach p q -> 0 ∈ p -> 0 ∈ q.
Proof. intros (a & -> & Ha) H. set_solver. Qed.

Lemma reach_length p q : reach p q -> (length q <= length p)%nat.
Proof. intros (a & -> & _). rewrite length_app. lia. Qed.

#[local] Hint Resolve reach_refl reach_in : core.

Lemma not_zero_in c p : 0 ∈ c :: p -> c <> 0 -> 0 ∈ p.
Proof. set_solver. Qed.

(** Each reader stops, at or before the terminator. *)
Lemma skip_ws_total p : 0 ∈ p -> exists q, skip_ws p = Some q /\ reach p q /\ match q with c :: _ => c = 0 \/ c = 10 \/ u_isspace c = false | [] => False end.
Proof.
  induction p as [|c p IH]; [set_solver|]. intros Hin. cbn [skip_ws]. destruct (Z.eqb_spec c 0) as [->|Hc]; cbn [negb andb]; [by eauto|].
  destruct (u_isspace c) eqn:Hsp; cbn [negb andb]; [|by eauto 6]. destruct (Z.eqb_spec c 10) as [->|]; cbn [negb]; [by eauto 6|].
  destruct (IH (not_zero_in _ _ Hin Hc)) as (q & -> & Hr & Hq). exists q. split; [done|]. split; [by apply reach_cons|done].
Qed.

Lemma tok_loop_total p k out :
  0 ∈ p -> Forall (fun b => 0 <= b < 256) p -> exists q tok, tok_loop p k out = Some (q, out ++ tok) /\ reach p q /\ Forall (fun b => 0 < b < 256) tok /\ (length tok <= k)%nat /\
    match p with c :: p' => c <> 0 -> u_isspace c = false -> (0 < k)%nat -> (length q <= length p')%nat | [] => True end.
Proof.
  revert k out. induction p as [|c p IH]; [set_solver|]. intros k out Hin Hb. apply Forall_cons in Hb as [Hc Hb]. cbn [tok_loop].
  assert (Hstop : exists q tok, Some (c :: p, out) = Some (q, out ++ tok) /\ reach (c :: p) q /\ Forall (fun b => 0 < b < 256) tok /\ (length tok <= k)%nat /\ q = c :: p).
  { exists (c :: p), []. rewrite app_nil_r. split_and!; [done|apply reach_refl|done|simpl; lia|done]. }
  destruct (Z.eqb_spec c 0) as [->|Hc0]; cbn [negb andb].
  { destruct Hstop as (q & tok & H1 & H2 & H3 & H4 & _). exists q, tok. by split_and!. }
  destruct (u_isspace c) eqn:Hsp; cbn [negb].
  { destruct Hstop as (q & tok & H1 & H2 & H3 & H4 & _). exists q, tok. by split_and!. }
  destruct k as [|k].
  { destruct Hstop as (q & tok & H1 & H2 & H3 & H4 & _). exists q, tok. split_and!; try done. lia. }
  destruct (IH k (out ++ [c]) (not_zero_in _ _ Hin Hc0) Hb) as (q & tok & -> & Hr & Ht & Hl & _).
  exists q, (c :: tok). rewrite <- app_assoc. split; [done|]. split; [by apply reach_cons|]. split; [constructor; [lia|done]|].
  split; [simpl; lia|]. intros _ _ _. by apply reach_length.
Qed.

Lemma next_line_total p : 0 ∈ p -> exists q, next_line p = Some q /\ reach p q /\ match p with c :: p' => c <> 0 -> (length q <= length p')%nat | [] => True end.
Proof.
  induction p as [|c p IH]; [set_solver|]. intros Hin. cbn [next_line]. destruct (Z.eqb_spec c 0) as [->|Hc]; [exists (0 :: p); by split_and!|].
  destruct (Z.eqb_spec c 10) as [->|].
  - exists p. split; [done|]. split; [by apply reach_cons|]. done.
  - destruct (IH (not_zero_in _ _ Hin Hc)) as (q & -> & Hr & _). exists q. split; [done|]. split; [by apply reach_cons|]. intros _. by apply reach_length.
Qed.

Lemma reach_bytes p q : reach p q -> Forall (fun b => 0 <= b < 256) p -> Forall (fun b => 0 <= b < 256) q.
Proof. intros (a & -> & _) H. by apply Forall_app in H as [_ ?]. Qed.

(** A token is a string shorter than its buffer. *)
Lemma read_tok_total p n :
  0 ∈ p -> Forall (fun b => 0 <= b < 256) p -> exists q tok, read_tok p n = Some (q, tok ++ [0]) /\ reach p q /\ Forall (fun b => 0 < b < 256) tok /\ (length tok <= n - 1)%nat /\
    match p with c :: p' => c <> 0 -> u_isspace c = false -> (1 < n)%nat -> (length q <= length p')%nat | [] => True end.
Proof.
  intros Hin Hb. unfold read_tok. destruct (skip_ws_total p Hin) as (q & Hq & Hr & Hh). rewrite Hq. cbn [mbind option_bind].
  destruct (tok_loop_total q (n - 1) [] (reach_in _ _ Hr Hin) (reach_bytes _ _ Hr Hb)) as (q' & tok & -> & Hr' & Ht & Hl & Hp). cbn [mbind option_bind].
  exists q', tok. split; [done|]. split; [by eapply reach_trans|]. split; [done|]. split; [done|]. destruct p as [|c p']; [done|].
  intros Hc Hsp Hn. cbn [skip_ws] in Hq. rewrite (proj2 (Z.eqb_neq c 0) Hc), Hsp in Hq. cbn [negb andb] in Hq. injection Hq as <-. apply Hp; [done|done|lia].
Qed.

(** ** Fields *)

Lemma atou_total s str v : cstring s str -> exists n, atou_loop s v = Some n.
Proof.
  revert str v. induction s as [|c s IH]; intros str v Hs; [by apply cstring_nil in Hs|]. cbn [atou_loop].
  apply cstring_cons in Hs as [[-> ->]|(str' & Hc & -> & Hs)]; [by eexists|]. destruct (u_isdigit c); [|by eexists]. by eapply IH.
Qed.

Lemma hex_total s str n : cstring s str -> exists b, hex_loop s n = Some b.
Proof.
  revert str n. induction s as [|c s IH]; intros str n Hs; [by apply cstring_nil in Hs|]. destruct n as [|n]; cbn [hex_loop]; [by eexists|].
  apply cstring_cons in Hs as [[-> ->]|(str' & Hc & -> & Hs)]; [by eexists|]. destruct (is_hex c); [|by eexists]. by eapply IH.
Qed.

Lemma nibble_range c n : nibble c = Some n -> 0 <= n < 16.
Proof. unfold nibble. intros H. bool_cases; simplify_eq/=; lia. Qed.

Lemma parse_total s str n v : cstring s str -> word v -> exists x, parse_loop s n v = Some x /\ word x.
Proof.
  revert str n v. induction s as [|c s IH]; intros str n v Hs Hv; [by apply cstring_nil in Hs|]. destruct n as [|n]; cbn [parse_loop]; [by eexists|].
  apply cstring_cons in Hs as [[-> ->]|(str' & Hc & -> & Hs)]; [by eexists|]. rewrite (proj2 (Z.eqb_neq c 0)) by lia.
  destruct (nibble c) as [d|] eqn:Hd; [|by eexists]. apply nibble_range in Hd. apply (IH str' n _ Hs).
  pose proof (u64_range (Z.shiftl v 4)) as Hu. split; [apply Z.lor_nonneg; lia|]. apply bits_range; [apply Z.lor_nonneg; lia|].
  intros i Hi. by rewrite Z.lor_spec, !bits_small by lia.
Qed.

Lemma flag_bit_ok s str lit bit fl :
  cstring s str -> is_text (c_str lit) = true -> flag_bit s lit bit fl = Some (if decide (str = c_str lit) then Z.lor fl bit else fl).
Proof.
  intros Hs Ht. unfold flag_bit. destruct (u_strcmp_ok s _ str _ Hs (literal_ok _ Ht)) as (d & -> & Hd). cbn [mbind option_bind]. f_equal.
  destruct (Z.eqb_spec d 0) as [H0|H0]; [by rewrite decide_True by (by apply Hd)|by rewrite decide_False by (by rewrite <- Hd)].
Qed.

Lemma parse_flags_ok s str :
  cstring s str -> exists fl, parse_flags s = Some fl /\ half fl /\
    (str = c_str "wheel" -> fl = 1) /\ (str = c_str "nologin" -> fl = 2) /\ (str = c_str "locked" -> fl = 4) /\ (str = c_str "-" -> fl = 0).
Proof.
  intros Hs. unfold parse_flags. rewrite (flag_bit_ok s str "wheel") by done. cbn [mbind option_bind].
  rewrite (flag_bit_ok s str "nologin") by done. cbn [mbind option_bind]. rewrite (flag_bit_ok s str "locked") by done.
  eexists. split; [done|]. destruct (decide (str = c_str "wheel")) as [->|]; [split_and!; [by vm_compute|done|done|done|done]|].
  destruct (decide (str = c_str "nologin")) as [->|]; [split_and!; [by vm_compute|done|done|done|done]|].
  destruct (decide (str = c_str "locked")) as [->|]; [split_and!; [by vm_compute|done|done|done|done]|]. split_and!; [by vm_compute|done|done|done|done].
Qed.

(** The strings of the fields of a line. *)
Record line := mk_line { l_name : list Z; l_uid : list Z; l_gid : list Z; l_flags : list Z; l_home : list Z; l_shell : list Z; l_salt : list Z; l_hash : list Z }.

Definition line_fields (l : line) : fields :=
  mk_fields (l_name l ++ [0]) (l_uid l ++ [0]) (l_gid l ++ [0]) (l_flags l ++ [0]) (l_home l ++ [0]) (l_shell l ++ [0]) (l_salt l ++ [0]) (l_hash l ++ [0]).

Abbreviation bytes := (Forall (fun b => 0 < b < 256)).

Definition line_ok (l : line) : Prop :=
  bytes (l_name l) /\ bytes (l_uid l) /\ bytes (l_gid l) /\ bytes (l_flags l) /\ bytes (l_home l) /\ bytes (l_shell l) /\ bytes (l_salt l) /\ bytes (l_hash l).

Lemma snoc_cstring str : bytes str -> cstring (str ++ [0]) str.
Proof. intros H. by exists []. Qed.

Lemma read_fields_total p :
  0 ∈ p -> Forall (fun b => 0 <= b < 256) p -> exists q l, read_fields p = Some (q, line_fields l) /\ reach p q /\ line_ok l /\
    match p with c :: p' => c <> 0 -> u_isspace c = false -> (length q <= length p')%nat | [] => True end.
Proof.
  intros Hin Hb. unfold read_fields.
  assert (Hstep : forall r n, reach p r -> exists q tok, read_tok r n = Some (q, tok ++ [0]) /\ reach p q /\ bytes tok /\ reach r q).
  { intros r n Hr. destruct (read_tok_total r n (reach_in _ _ Hr Hin) (reach_bytes _ _ Hr Hb)) as (q & tok & He & Hq & Ht & _). exists q, tok. split_and!; [done|by eapply reach_trans|done|done]. }
  destruct (read_tok_total p USR_NAME_LEN Hin Hb) as (p1 & t1 & -> & R1 & B1 & _ & Hprog). cbn [mbind option_bind].
  destruct (Hstep p1 16%nat R1) as (p2 & t2 & -> & R2 & B2 & S2). cbn [mbind option_bind].
  destruct (Hstep p2 16%nat R2) as (p3 & t3 & -> & R3 & B3 & S3). cbn [mbind option_bind].
  destruct (Hstep p3 32%nat R3) as (p4 & t4 & -> & R4 & B4 & S4). cbn [mbind option_bind].
  destruct (Hstep p4 USR_HOME_LEN R4) as (p5 & t5 & -> & R5 & B5 & S5). cbn [mbind option_bind].
  destruct (Hstep p5 USR_SHELL_LEN R5) as (p6 & t6 & -> & R6 & B6 & S6). cbn [mbind option_bind].
  destruct (Hstep p6 20%nat R6) as (p7 & t7 & -> & R7 & B7 & S7). cbn [mbind option_bind].
  destruct (Hstep p7 20%nat R7) as (p8 & t8 & -> & R8 & B8 & S8). cbn [mbind option_bind].
  exists p8, (mk_line t1 t2 t3 t4 t5 t6 t7 t8). split; [done|]. split; [done|]. split; [by repeat split|].
  destruct p as [|c p']; [done|]. intros Hc Hsp. specialize (Hprog Hc Hsp ltac:(unfold USR_NAME_LEN; lia)).
  pose proof (reach_length _ _ S2). pose proof (reach_length _ _ S3). pose proof (reach_length _ _ S4). pose proof (reach_length _ _ S5).
  pose proof (reach_length _ _ S6). pose proof (reach_length _ _ S7). pose proof (reach_length _ _ S8). lia.
Qed.

Lemma is_empty_snoc str : bytes str -> is_empty (str ++ [0]) = bool_decide (str = []).
Proof.
  intros Hb. destruct str as [|c str]; [done|]. apply Forall_cons in Hb as [Hc _]. cbn [app is_empty]. rewrite (proj2 (Z.eqb_neq c 0)) by lia. done.
Qed.

(** A home or shell field is the string of the argument. *)
Lemma or_null_ok str dflt : bytes str -> arg (or_null (str ++ [0])) dflt (if decide (str = []) then c_str dflt else str).
Proof.
  intros Hb. unfold or_null. rewrite is_empty_snoc by done. destruct (decide (str = [])) as [->|Hne]; [done|].
  rewrite bool_decide_false by done. by apply snoc_cstring.
Qed.

(** ** One account *)

(** A stored number, or what was there before. *)
Definition stored (str : list Z) (dflt : Z) : Z :=
  match is_hex64 (str ++ [0]), parse_hex64 (str ++ [0]) with Some true, Some v => v | _, _ => dflt end.

Definition restore (l : line) (u : asd_user_t) : asd_user_t := set_pw (stored (l_hash l) (u_pw_hash u)) (stored (l_salt l) (u_pw_salt u)) u.

Lemma stored_word str d : bytes str -> word d -> word (stored str d).
Proof.
  intros Hb Hd. unfold stored. destruct (hex_total _ _ 16 (snoc_cstring _ Hb)) as (b & Hx). destruct (parse_total _ _ 16 0 (snoc_cstring _ Hb)) as (v & Hp & Hv); [unfold word; lia|].
  unfold is_hex64, parse_hex64. rewrite Hx, Hp. by destruct b.
Qed.

Lemma alter_alter {A} (f g : A -> A) i (l : list A) : alter f i (alter g i l) = alter (fun x => f (g x)) i l.
Proof. apply list_eq. intros k. rewrite !list_lookup_alter. destruct (decide (i = k)) as [->|]; [|done]. rewrite decide_True by done. by destruct (l !! k). Qed.

Lemma alter_same {A} (f g : A -> A) i (l : list A) : (forall x, f x = g x) -> alter f i l = alter g i l.
Proof. intros H. apply list_eq. intros k. rewrite !list_lookup_alter. destruct (decide (i = k)) as [->|]; [|done]. destruct (l !! k); [|done]. simpl. by rewrite H. Qed.

Lemma apply_salt_ok s uid l :
  usr_inv s -> line_ok l -> exists s', apply_salt s uid (line_fields l) = Some s' /\ usr_inv s' /\ groups s' = groups s /\
    match usr_find_by_uid s uid with None => s' = s | Some i => users s' = alter (restore l) i (users s) end.
Proof.
  intros Hinv (_ & _ & _ & _ & _ & _ & Bs & Bh). unfold apply_salt. pose proof (find_uid_ok s Hinv uid) as Hf.
  destruct (usr_find_by_uid s uid) as [i|]; [|by exists s]. destruct Hf as (u & Hi & _ & Hlt). cbn [line_fields f_salt f_hash].
  destruct (hex_total _ _ 16 (snoc_cstring _ Bs)) as (bs & Xs). destruct (parse_total _ _ 16 0 (snoc_cstring _ Bs)) as (vs & Ps & Ws); [unfold word; lia|].
  destruct (hex_total _ _ 16 (snoc_cstring _ Bh)) as (bh & Xh). destruct (parse_total _ _ 16 0 (snoc_cstring _ Bh)) as (vh & Ph & Wh); [unfold word; lia|].
  unfold is_hex64, parse_hex64. rewrite Xs, Ps. cbn [mbind option_bind]. rewrite Xh, Ph.
  assert (Hres : forall u, restore l u = set_pw (if bh then vh else u_pw_hash u) (if bs then vs else u_pw_salt u) u).
  { intros u'. unfold restore, stored, is_hex64, parse_hex64. rewrite Xs, Ps, Xh, Ph. by destruct bs, bh. }
  set (f1 := fun u => set_pw (u_pw_hash u) (if bs then vs else u_pw_salt u) u). set (f2 := fun u => set_pw (if bh then vh else u_pw_hash u) (u_pw_salt u) u).
  destruct (upd_user_ok s i f1 Hinv Hlt) as [Hinv1 U1]; [intros u' Hu; apply set_pw_ok; [apply Hu|destruct bs; [done|apply Hu]|done]|done|].
  destruct (upd_user_ok (upd_user s i f1) i f2 Hinv1 Hlt) as [Hinv2 U2]; [intros u' Hu; apply set_pw_ok; [destruct bh; [done|apply Hu]|apply Hu|done]|done|].
  assert (Hid : forall t g, (forall u, g u = u) -> upd_user t i g = t).
  { intros t g Hg. destruct t. unfold upd_user, set_users. cbn. f_equal. rewrite (alter_same g id) by done. by apply list_alter_id. }
  exists (upd_user (upd_user s i f1) i f2). split; [|split; [done|]; split; [done|]].
  - destruct bs; cbn [mbind option_bind].
    + destruct bh; [done|]. rewrite (Hid _ f2); [done|]. by intros [].
    + rewrite (Hid _ f1) by (by intros []). destruct bh; [done|]. rewrite (Hid _ f2); [done|]. by intros [].
  - rewrite U2, U1, alter_alter. apply alter_same. intros u'. by rewrite Hres.
Qed.

(** The group of a line that is not known yet is added if there is room for the name "unknown". *)
Lemma unknown_group_ok s gid :
  usr_inv s -> half16 gid -> exists s', match grp_find_by_gid s gid with Some _ => Some s | None => snd <$> grp_add s gid (Some (c_str "unknown" ++ [0])) end = Some s' /\
    usr_inv s' /\ users s' = users s /\ us_user_count s' = us_user_count s.
Proof.
  intros Hinv Hg. destruct (grp_find_by_gid s gid); [by exists s|].
  destruct (grp_add_ok s gid (c_str "unknown" ++ [0]) (c_str "unknown") Hinv Hg) as (r & s' & -> & Hinv' & E1 & E2 & _); [by apply literal_ok|].
  exists s'. split; [done|]. split; [done|]. split; [unfold users; by rewrite E1, E2|done].
Qed.

(** ** Every text is read to its end *)

Lemma in_text_total n len p : 0 ∈ p -> exists b, in_text n len p = Some b /\ (b = true -> exists c p', p = c :: p' /\ c <> 0).
Proof.
  intros Hin. unfold in_text. destruct (decide _); [|by exists false]. destruct p as [|c p]; [set_solver|]. eexists. split; [done|].
  intros H. exists c, p. split; [done|]. by destruct (Z.eqb_spec c 0).
Qed.

(** The start of a line: a blank, a comment, or an entry. *)
Lemma line_start p :
  0 ∈ p -> exists q, skip_ws p = Some q /\ reach p q /\
    ((no_entry q = Some true /\ exists q', next_line q = Some q' /\ reach q q' /\ (p <> [] -> hd 0 p <> 0 -> (length q' < length p)%nat)) \/
     (no_entry q = Some false /\ exists c q', q = c :: q' /\ c <> 0 /\ u_isspace c = false)).
Proof.
  intros Hin. destruct (skip_ws_total p Hin) as (q & Hq & Hr & Hh). exists q. split; [done|]. split; [done|].
  destruct q as [|c q']; [done|]. cbn [no_entry]. destruct ((c =? 35) || (c =? 10) || (c =? 0)) eqn:Hb.
  - left. split; [done|]. destruct (next_line_total (c :: q') (reach_in _ _ Hr Hin)) as (r & Hn & Hrr & Hl). exists r. split; [done|]. split; [done|].
    intros Hp Hc. pose proof (reach_length _ _ Hr) as Hlen. destruct (Z.eqb_spec c 0) as [->|Hne].
    + cbn [next_line] in Hn. change (0 =? 0) with true in Hn. cbv iota in Hn. injection Hn as <-. destruct Hr as ([|c0 pre] & -> & _); [done|].
      simpl. rewrite length_app. simpl. lia.
    + specialize (Hl Hne). simpl in Hlen. lia.
  - right. split; [done|]. exists c, q'. assert (c <> 0 /\ c <> 10) as [? ?] by lia. split; [done|]. split; [done|]. naive_solver.
Qed.

Section clock.
Context (clock : nat -> Z) (Hclock : forall n, word (clock n)).

(** The account of a line that is added. *)
Definition line_user (l : line) (uid gid fl salt : Z) : asd_user_t :=
  new_user uid gid (l_name l) [] fl (if decide (l_home l = []) then c_str "/" else l_home l)
    (if decide (l_shell l = []) then c_str "/bin/asdsh" else l_shell l) salt.

Lemma load_user_ok s l uid gid fl :
  usr_inv s -> line_ok l -> l_name l <> [] -> u_atou (l_uid l ++ [0]) = Some uid -> u_atou (l_gid l ++ [0]) = Some gid ->
  parse_flags (l_flags l ++ [0]) = Some fl -> half fl ->
  exists s', load_user clock s (line_fields l) = Some s' /\ usr_inv s' /\
    (forall i u, users s !! i = Some u -> u_uid u = u16 uid -> users s' = alter (restore l) i (users s)) /\
    (user_free s (u16 uid) (l_name l) -> exists salt, word salt /\ users s' = users s ++ [restore l (line_user l (u16 uid) (u16 gid) fl salt)]).
Proof.
  intros Hinv Hl Hnm Hu Hg Hfl Hh. pose proof Hl as (Bn & Bu & Bg & Bf & Bho & Bsh & _). unfold load_user. cbn [line_fields f_uid f_gid f_flags f_name f_home f_shell].
  rewrite Hu. cbn [mbind option_bind]. rewrite Hg. cbn [mbind option_bind]. rewrite Hfl. cbn [mbind option_bind].
  assert (Hu16 : half16 (u16 uid)) by (unfold half16, u16; by apply Z.mod_pos_bound). assert (Hg16 : half16 (u16 gid)) by (unfold half16, u16; by apply Z.mod_pos_bound).
  destruct (unknown_group_ok s (u16 gid) Hinv Hg16) as (s1 & -> & Hinv1 & U1 & C1). cbn [mbind option_bind].
  pose proof (find_uid_ok s1 Hinv1 (u16 uid)) as Hf. destruct (usr_find_by_uid s1 (u16 uid)) as [i|] eqn:Hi.
  - cbn [mbind option_bind]. destruct (apply_salt_ok s1 (u16 uid) l Hinv1 Hl) as (s2 & H2 & Hinv2 & _ & U2). rewrite Hi in U2. exists s2.
    split; [done|]. split; [done|]. destruct Hf as (u & Hiu & Heu & _). rewrite U1 in *. split.
    + intros j u' Hj He. pose proof (find_uid_at s1 Hinv1 j u') as Hat. rewrite U1 in Hat. specialize (Hat Hj). rewrite He, Hi in Hat. by simplify_eq.
    + intros (_ & Hno & _). exfalso. apply Hno, list_elem_of_fmap. exists u. split; [done|]. by eapply list_elem_of_lookup_2.
  - destruct (find_uname_ok s1 Hinv1 _ _ (snoc_cstring _ Bn)) as (r & -> & Hr). cbn [mbind option_bind].
    assert (Hnone : forall i u, users s !! i = Some u -> u_uid u <> u16 uid).
    { intros i u Hiu He. apply Hf. rewrite U1. apply list_elem_of_fmap. exists u. split; [done|]. by eapply list_elem_of_lookup_2. }
    destruct r as [j|].
    + cbn [mbind option_bind]. destruct (apply_salt_ok s1 (u16 uid) l Hinv1 Hl) as (s2 & H2 & Hinv2 & _). exists s2. split; [done|]. split; [done|].
      split; [intros i u Hiu He; by destruct (Hnone i u Hiu)|]. intros (_ & _ & Hno & _). destruct Hr as (u & Hj & He). exfalso. apply Hno, list_elem_of_fmap.
      exists u. rewrite <- U1. split; [done|]. by eapply list_elem_of_lookup_2.
    + destruct (usr_add_ok clock Hclock s1 (u16 uid) (u16 gid) _ (l_name l) (Some [0]) [] fl _ _ _ _ Hinv1 Hu16 Hg16 Hh (snoc_cstring _ Bn) ltac:(by exists [])
        (or_null_ok _ "/" Bho) (or_null_ok _ "/bin/asdsh" Bsh)) as (r & s2 & -> & Hinv2 & Hr2). cbn [mbind option_bind fmap option_fmap option_map snd].
      destruct (apply_salt_ok s2 (u16 uid) l Hinv2 Hl) as (s3 & H3 & Hinv3 & _ & U3). exists s3. split; [done|]. split; [done|].
      split; [intros i u Hiu He; by destruct (Hnone i u Hiu)|]. intros Hfree. assert (Hfree1 : user_free s1 (u16 uid) (l_name l)) by (unfold user_free; by rewrite U1, C1).
      destruct Hr2 as [(_ & _ & (salt & Hsalt & U2) & _)|(_ & Hn & _)]; [|done]. exists salt. split; [done|].
      fold (line_user l (u16 uid) (u16 gid) fl salt) in U2. set (u := line_user l (u16 uid) (u16 gid) fl salt) in *.
      assert (Hlast : users s2 !! length (users s1) = Some u) by (rewrite U2, lookup_app_r, Nat.sub_diag by lia; done).
      pose proof (find_uid_at s2 Hinv2 _ _ Hlast) as Hat. cbn [u line_user new_user u_uid] in Hat. rewrite Hat in U3.
      rewrite U3, U2, U1. rewrite alter_app_r_alt, Nat.sub_diag by lia. done.
Qed.

Lemma load_loop_total fuel s n len p loaded :
  usr_inv s -> 0 ∈ p -> Forall (fun b => 0 <= b < 256) p -> (length p < fuel)%nat -> 0 <= loaded <= 64 ->
  exists r s', load_loop clock fuel s n len p loaded = Some (r, s') /\ usr_inv s' /\ loaded <= r <= 64.
Proof.
  revert s p loaded. induction fuel as [|fuel IH]; intros s p loaded Hinv Hin Hb Hfuel Hld; [lia|]. cbn [load_loop].
  destruct (in_text_total n len p Hin) as (b & -> & Hgo). cbn [mbind option_bind]. destruct b; [|exists loaded, s; split_and!; done || lia].
  destruct (Hgo eq_refl) as (c0 & p0 & -> & Hc0). unfold USR_MAX_USERS. destruct (Z.ltb_spec loaded (Z.of_nat 64)); cbn [andb]; [|exists loaded, s; split_and!; done || lia].
  destruct (line_start _ Hin) as (q & -> & Hr & Hcase). cbn [mbind option_bind]. pose proof (reach_length _ _ Hr) as Hlen.
  destruct Hcase as [(-> & q' & Hn & Hrq & Hless)|(-> & c & q' & -> & Hc & Hsp)]; cbn [mbind option_bind].
  { rewrite Hn. cbn [mbind option_bind]. specialize (Hless ltac:(done) Hc0). pose proof (reach_trans _ _ _ Hr Hrq) as Hrp.
    apply IH; [done|by eapply reach_in|by eapply reach_bytes|lia|lia]. }
  pose proof (reach_in _ _ Hr Hin) as Hin'. pose proof (reach_bytes _ _ Hr Hb) as Hb'.
  destruct (read_fields_total _ Hin' Hb') as (r & l & -> & Hrf & Hl & Hprog). cbn [mbind option_bind]. specialize (Hprog Hc Hsp).
  pose proof (reach_trans _ _ _ Hr Hrf) as Hrr. destruct (next_line_total r (reach_in _ _ Hrr Hin)) as (p2 & -> & Hr2 & _).
  pose proof (reach_trans _ _ _ Hrr Hr2) as Hrp. pose proof (reach_length _ _ Hr2). simpl in Hlen, Hprog, Hfuel.
  destruct (_ || _) eqn:Hempty; cbn [mbind option_bind].
  { apply IH; [done|by eapply reach_in|by eapply reach_bytes|lia|lia]. }
  pose proof Hl as (Bn & Bu & Bg & Bf & _). destruct (atou_total _ _ 0 (snoc_cstring _ Bu)) as (uid & Huid). destruct (atou_total _ _ 0 (snoc_cstring _ Bg)) as (gid & Hgid).
  destruct (parse_flags_ok _ _ (snoc_cstring _ Bf)) as (fl & Hfl & Hh & _).
  assert (Hnm : l_name l <> []). { intros He. cbn [line_fields f_name] in Hempty. rewrite He in Hempty. done. }
  destruct (load_user_ok s l uid gid fl Hinv Hl Hnm Huid Hgid Hfl Hh) as (s' & -> & Hinv' & _). cbn [mbind option_bind].
  destruct (IH s' p2 (loaded + 1)) as (r' & s2 & He & Hi2 & Hr'); [done|by eapply reach_in|by eapply reach_bytes|lia|lia|].
  exists r', s2. split_and!; done || lia.
Qed.

End clock.

Lemma group_loop_total fuel s n len p loaded :
  usr_inv s -> 0 ∈ p -> Forall (fun b => 0 <= b < 256) p -> (length p < fuel)%nat ->
  exists r s', group_loop fuel s n len p loaded = Some (r, s') /\ usr_inv s' /\ users s' = users s /\ loaded <= r.
Proof.
  revert s p loaded. induction fuel as [|fuel IH]; intros s p loaded Hinv Hin Hb Hfuel; [lia|]. cbn [group_loop].
  destruct (in_text_total n len p Hin) as (b & -> & Hgo). cbn [mbind option_bind]. destruct b; [|exists loaded, s; split_and!; done || lia].
  destruct (Hgo eq_refl) as (c0 & p0 & -> & Hc0).
  destruct (line_start _ Hin) as (q & -> & Hr & Hcase). cbn [mbind option_bind]. pose proof (reach_length _ _ Hr) as Hlen.
  destruct Hcase as [(-> & q' & Hn & Hrq & Hless)|(-> & c & q' & -> & Hc & Hsp)]; cbn [mbind option_bind].
  { rewrite Hn. cbn [mbind option_bind]. specialize (Hless ltac:(done) Hc0). pose proof (reach_trans _ _ _ Hr Hrq) as Hrp.
    apply IH; [done|by eapply reach_in|by eapply reach_bytes|lia]. }
  pose proof (reach_in _ _ Hr Hin) as Hin'. pose proof (reach_bytes _ _ Hr Hb) as Hb'.
  destruct (read_tok_total _ USR_NAME_LEN Hin' Hb') as (p1 & name & -> & R1 & Bn & _ & Hprog). cbn [mbind option_bind]. specialize (Hprog Hc Hsp ltac:(unfold USR_NAME_LEN; lia)).
  pose proof (reach_trans _ _ _ Hr R1) as Hr1.
  destruct (read_tok_total _ 16 (reach_in _ _ Hr1 Hin) (reach_bytes _ _ Hr1 Hb)) as (p2 & gs & -> & R2 & Bg & _). cbn [mbind option_bind].
  pose proof (reach_trans _ _ _ Hr1 R2) as Hr2. destruct (next_line_total p2 (reach_in _ _ Hr2 Hin)) as (p3 & -> & R3 & _). cbn [mbind option_bind].
  pose proof (reach_trans _ _ _ Hr2 R3) as Hr3. pose proof (reach_length _ _ R2). pose proof (reach_length _ _ R3). simpl in Hlen, Hprog, Hfuel.
  destruct (_ || _); [apply IH; [done|by eapply reach_in|by eapply reach_bytes|lia]|].
  destruct (atou_total _ _ 0 (snoc_cstring _ Bg)) as (gid & Hgid). unfold u_atou. rewrite Hgid. cbn [mbind option_bind].
  assert (Hadd : exists s', match grp_find_by_gid s (u16 gid) with Some _ => Some s | None => snd <$> grp_add s (u16 gid) (Some (name ++ [0])) end = Some s' /\ usr_inv s' /\ users s' = users s).
  { destruct (grp_find_by_gid s (u16 gid)); [by exists s|]. destruct (grp_add_ok s (u16 gid) _ _ Hinv ltac:(unfold half16, u16; by apply Z.mod_pos_bound) (snoc_cstring _ Bn)) as (r & s' & -> & Hinv' & E1 & E2 & _).
    exists s'. split; [done|]. split; [done|]. unfold users. by rewrite E1, E2. }
  destruct Hadd as (s' & -> & Hinv' & U'). cbn [mbind option_bind].
  destruct (IH s' p3 (loaded + 1)) as (r' & s2 & He & Hi2 & U2 & Hr'); [done|by eapply reach_in|by eapply reach_bytes|lia|].
  exists r', s2. split_and!; [done|done|congruence|lia].
Qed.

(** ** Writing *)

(** The text of a line. *)
Definition line_text (l : line) : list Z :=
  l_name l ++ [32] ++ l_uid l ++ [32] ++ l_gid l ++ [32] ++ l_flags l ++ [32] ++ l_home l ++ [32] ++ l_shell l ++ [32] ++ l_salt l ++ [32] ++ l_hash l ++ [10].

Definition dec (v : Z) : list Z := until0 (default [] (dec_str v)).
Definition hex (v : Z) : list Z := take 16 (fmt_hex64 v).

Definition user_line (u : asd_user_t) : line :=
  mk_line (uname u) (dec (u_uid u)) (dec (u_gid u)) (until0 (flag_text (u_flags u))) (until0 (u_home u)) (until0 (u_shell u)) (hex (u_pw_salt u)) (hex (u_pw_hash u)).

Definition passwd_text (us : list asd_user_t) : list Z := c_str "#ASDPW1" ++ [10] ++ concat (map (fun u => line_text (user_line u)) us).

(** [f] writes [str] at its position if it ends at or before [lim]. *)
Definition emits (f : list Z -> nat -> option (list Z * nat)) (lim : nat) (str : list Z) : Prop :=
  forall pre tail, (length pre + length str <= lim)%nat -> (length str <= length tail)%nat ->
    f (pre ++ tail) (length pre) = Some ((pre ++ str) ++ drop (length str) tail, length (pre ++ str)).

Lemma emits_bind f g lim a b : emits f lim a -> emits g lim b -> emits (fun buf pos => '(buf, pos) ← f buf pos; g buf pos) lim (a ++ b).
Proof.
  intros Hf Hg pre tail Hl Ht. rewrite length_app in Hl, Ht. rewrite Hf by lia. cbn [mbind option_bind].
  rewrite Hg by (rewrite ?length_app, ?length_drop; lia). by rewrite drop_drop, (length_app a b), <- !app_assoc.
Qed.

Lemma put_next (pre tail : list Z) c : tail <> [] -> put (pre ++ tail) (length pre) c = Some ((pre ++ [c]) ++ drop 1 tail).
Proof.
  intros Ht. destruct tail as [|x tail]; [done|]. rewrite put_ok by (rewrite length_app; simpl; lia). f_equal.
  replace (length pre) with (length pre + 0)%nat by lia. rewrite insert_app_r. simpl. by rewrite <- app_assoc.
Qed.

Lemma room_ne (tail : list Z) : (0 < length tail)%nat -> tail <> [].
Proof. by destruct tail; [simpl; lia|]. Qed.

Lemma put_sp_emits lim : emits put_sp lim [32].
Proof. intros pre tail _ Ht. unfold put_sp. rewrite put_next by (apply room_ne; simpl in Ht; lia). cbn [mbind option_bind]. by rewrite length_app, Nat.add_comm. Qed.

Lemma put_str_emits lim s str : cstring s str -> emits (fun buf pos => put_str buf pos lim s) lim str.
Proof.
  revert str. induction s as [|c s IH]; intros str Hs pre tail Hl Ht; [by apply cstring_nil in Hs|]. cbn [put_str].
  apply cstring_cons in Hs as [[-> ->]|(str' & Hc & -> & Hs)]; [cbn [negb Z.eqb andb length drop]; by rewrite app_nil_r|].
  cbn [length] in Hl, Ht. rewrite (proj2 (Z.eqb_neq c 0)), (proj2 (Nat.ltb_lt _ _)) by lia. cbn [negb andb].
  rewrite put_next by (apply room_ne; simpl in Ht; lia). cbn [mbind option_bind].
  replace (S (length pre)) with (length (pre ++ [c])) by (rewrite length_app; simpl; lia).
  rewrite (IH str' Hs) by (rewrite ?length_app, ?length_drop; simpl; lia). by rewrite drop_drop, <- !app_assoc.
Qed.

Lemma put_n_emits lim str rest n : length str = n -> emits (fun buf pos => put_n buf pos lim (str ++ rest) n) lim str.
Proof.
  revert n. induction str as [|c str IH]; intros n <- pre tail Hl Ht; cbn [put_n length] in *; [cbn [drop]; by rewrite app_nil_r|].
  cbn [app]. rewrite (proj2 (Nat.ltb_lt _ _)) by lia. rewrite put_next by (apply room_ne; simpl in Ht; lia). cbn [mbind option_bind].
  replace (S (length pre)) with (length (pre ++ [c])) by (rewrite length_app; simpl; lia).
  rewrite (IH _ eq_refl) by (rewrite ?length_app, ?length_drop; simpl; lia). by rewrite drop_drop, <- !app_assoc.
Qed.

Lemma put_field_emits lim s str : cstring s str -> emits (fun buf pos => put_field buf pos lim s) lim (str ++ [32]).
Proof. intros Hs. apply (emits_bind _ put_sp); [by apply put_str_emits|apply put_sp_emits]. Qed.

Lemma flag_text_cstring fl : cstring (flag_text fl) (until0 (flag_text fl)).
Proof. unfold flag_text. repeat destruct (negb _); by apply literal_ok. Qed.

Lemma dec_ok v : half16 v -> dec_str v = Some (dec v ++ [0]) /\ Forall solid (dec v) /\ dec v <> [] /\ (length (dec v) <= 5)%nat /\ u_atou (dec v ++ [0]) = Some v.
Proof.
  intros Hv. destruct (dec_str_ok v Hv) as (ds & He & Hs & Hn & Hl & Ha). assert (Hd : dec v = ds); [|by rewrite Hd].
  unfold dec. rewrite He. cbn [default id]. by apply until0_cstring, snoc_cstring, solid_bytes.
Qed.

Lemma hex_ok v : word v -> fmt_hex64 v = hex v ++ [0] /\ length (hex v) = 16%nat /\ Forall solid (hex v) /\ is_hex64 (hex v ++ [0]) = Some true /\ parse_hex64 (hex v ++ [0]) = Some v.
Proof.
  intros Hv. destruct (fmt_hex64_ok v Hv) as (hs & He & Hl & Hs & Hx & Hp). assert (Hd : hex v = hs); [|by rewrite Hd].
  unfold hex. rewrite He. by apply take_app_length'.
Qed.

#[local] Opaque dec hex dec_str fmt_hex64.

Lemma write_user_emits u buf_sz : user_ok u -> emits (fun buf pos => write_user buf pos buf_sz u) (buf_sz - 2) (line_text (user_line u)).
Proof.
  intros [Hu Hg Hf _ Hh Hs [_ Hn] [_ Hho] [_ Hsh]]. destruct (dec_ok _ Hu) as (Du & _). destruct (dec_ok _ Hg) as (Dg & Fg & _).
  destruct (dec_ok _ Hu) as (_ & Fu & _). destruct (hex_ok _ Hs) as (Es & Ls & _). destruct (hex_ok _ Hh) as (Eh & Lh & _).
  unfold write_user, line_text, user_line. cbn [l_name l_uid l_gid l_flags l_home l_shell l_salt l_hash]. rewrite Du, Dg, Es, Eh. cbn [mbind option_bind].
  rewrite !(app_assoc _ [32]).
  apply (emits_bind (fun buf pos => put_field buf pos (buf_sz - 2) (u_name u))); [apply put_field_emits; exact Hn|].
  apply (emits_bind (fun buf pos => put_field buf pos (buf_sz - 2) (dec (u_uid u) ++ [0]))); [apply put_field_emits, snoc_cstring, solid_bytes; exact Fu|].
  apply (emits_bind (fun buf pos => put_field buf pos (buf_sz - 2) (dec (u_gid u) ++ [0]))); [apply put_field_emits, snoc_cstring, solid_bytes; exact Fg|].
  apply (emits_bind (fun buf pos => put_field buf pos (buf_sz - 2) (flag_text (u_flags u)))); [apply put_field_emits; apply flag_text_cstring|].
  apply (emits_bind (fun buf pos => put_field buf pos (buf_sz - 2) (u_home u))); [apply put_field_emits; exact Hho|].
  apply (emits_bind (fun buf pos => put_field buf pos (buf_sz - 2) (u_shell u))); [apply put_field_emits; exact Hsh|].
  rewrite <- (app_assoc (hex (u_pw_salt u))). apply (emits_bind (fun buf pos => put_n buf pos (buf_sz - 2) (hex (u_pw_salt u) ++ [0]) 16)); [apply put_n_emits; exact Ls|].
  apply (emits_bind put_sp); [apply put_sp_emits|]. apply (emits_bind (fun buf pos => put_n buf pos (buf_sz - 2) (hex (u_pw_hash u) ++ [0]) 16)); [apply put_n_emits; exact Lh|].
  intros pre tail Hl Ht. cbn [length] in Hl, Ht. rewrite (proj2 (Nat.ltb_lt _ _)) by lia. rewrite put_next by (apply room_ne; simpl in Ht; lia).
  cbn [mbind option_bind]. by rewrite length_app, Nat.add_comm.
Qed.

Lemma write_users_emits us buf_sz :
  Forall user_ok us -> emits (fun buf pos => write_users buf pos buf_sz us) (buf_sz - 2) (concat (map (fun u => line_text (user_line u)) us)).
Proof.
  intros H. induction H as [|u us Hu Hus IH].
  - intros pre tail _ _. cbn [write_users concat map length drop]. by rewrite app_nil_r.
  - cbn [write_users concat map]. apply (emits_bind (fun buf pos => write_user buf pos buf_sz u)); [by apply write_user_emits|exact IH].
Qed.

Lemma write_passwd_ok s buf buf_sz :
  usr_inv s -> (8 <= buf_sz <= length buf)%nat -> (length (passwd_text (users s)) + 2 <= buf_sz)%nat ->
  usr_write_passwd s (Some buf) buf_sz =
    Some (Z.of_nat (length (passwd_text (users s))), Some (passwd_text (users s) ++ 0 :: drop (S (length (passwd_text (users s)))) buf)).
Proof.
  intros Hinv Hsz Hlen. unfold usr_write_passwd. rewrite (proj2 (Nat.ltb_ge _ _)) by lia.
  unfold passwd_text in Hlen |- *. rewrite (app_assoc (c_str "#ASDPW1")) in *. set (h := c_str "#ASDPW1" ++ [10]) in *.
  set (body := concat _) in *. rewrite length_app in Hlen.
  pose proof (put_str_emits (buf_sz - 1) passwd_hdr h) as Hh. specialize (Hh ltac:(exists []; split; [done|by apply text_bytes]) [] buf ltac:(simpl in *; lia) ltac:(simpl in *; lia)).
  cbn [app length] in Hh. rewrite Hh. cbn [mbind option_bind].
  pose proof (write_users_emits (users s) buf_sz (ui_user _ Hinv) h (drop (length h) buf)) as Hw. fold body in Hw.
  rewrite Hw by (rewrite ?length_drop; lia). cbn [mbind option_bind].
  rewrite put_next by (apply room_ne; rewrite !length_drop; lia). cbn [mbind option_bind]. do 3 f_equal.
  rewrite <- app_assoc. cbn [app]. do 2 f_equal. rewrite !drop_drop, length_app. f_equal. lia.
Qed.

(** ** Reading a line back *)

Lemma skip_ws_solid c p : solid c -> skip_ws (c :: p) = Some (c :: p) /\ skip_ws (32 :: c :: p) = Some (c :: p).
Proof. intros [Hc Hs]. cbn [skip_ws]. rewrite (proj2 (Z.eqb_neq c 0)), Hs by lia. done. Qed.

Lemma tok_loop_solid tok c rest k out :
  Forall solid tok -> (c =? 0) || u_isspace c = true -> (length tok <= k)%nat -> tok_loop (tok ++ c :: rest) k out = Some (c :: rest, out ++ tok).
Proof.
  intros Ht Hc. revert k out. induction Ht as [|x tok [Hx Hs] Ht IH]; intros k out Hk; cbn [tok_loop app].
  - assert (negb (c =? 0) && negb (u_isspace c) = false) as ->; [|by rewrite app_nil_r]. by destruct (c =? 0), (u_isspace c).
  - rewrite (proj2 (Z.eqb_neq x 0)), Hs by lia. cbn [negb andb]. cbn [length] in Hk. destruct k as [|k]; [lia|]. rewrite IH by lia. by rewrite <- app_assoc.
Qed.

Lemma read_tok_ok tok c rest n :
  Forall solid tok -> tok <> [] -> (c =? 0) || u_isspace c = true -> (length tok <= n - 1)%nat ->
  read_tok (tok ++ c :: rest) n = Some (c :: rest, tok ++ [0]) /\ read_tok (32 :: tok ++ c :: rest) n = Some (c :: rest, tok ++ [0]).
Proof.
  intros Ht Hne Hc Hl. destruct tok as [|x tok]; [done|]. pose proof (Forall_inv Ht) as Hx. destruct (skip_ws_solid x (tok ++ c :: rest) Hx) as [H1 H2].
  pose proof (tok_loop_solid (x :: tok) c rest (n - 1) [] Ht Hc Hl) as H3. unfold read_tok. cbn [app] in *. rewrite H1, H2. cbn [mbind option_bind].
  rewrite H3. by cbn [mbind option_bind].
Qed.

(** A line whose fields can be told apart and fit their buffers. *)
Record line_fits (l : line) : Prop := {
  lf_solid : Forall (Forall solid) [l_name l; l_uid l; l_gid l; l_flags l; l_home l; l_shell l; l_salt l; l_hash l];
  lf_ne : Forall (fun t => t <> []) [l_name l; l_uid l; l_gid l; l_flags l; l_home l; l_shell l; l_salt l; l_hash l];
  lf_len : Forall2 (fun t n => (length t <= n - 1)%nat) [l_name l; l_uid l; l_gid l; l_flags l; l_home l; l_shell l; l_salt l; l_hash l]
             [USR_NAME_LEN; 16; 16; 32; USR_HOME_LEN; USR_SHELL_LEN; 20; 20]%nat;
}.

Lemma read_fields_ok l rest : line_fits l -> read_fields (line_text l ++ rest) = Some (10 :: rest, line_fields l).
Proof.
  intros [Hs Hn Hl]. destruct l as [t1 t2 t3 t4 t5 t6 t7 t8]. cbn [l_name l_uid l_gid l_flags l_home l_shell l_salt l_hash] in *.
  rewrite !Forall_cons in Hs, Hn. rewrite !Forall2_cons in Hl. destruct Hs as (S1&S2&S3&S4&S5&S6&S7&S8&_). destruct Hn as (N1&N2&N3&N4&N5&N6&N7&N8&_).
  destruct Hl as (L1&L2&L3&L4&L5&L6&L7&L8&_). unfold line_text, read_fields. cbn [l_name l_uid l_gid l_flags l_home l_shell l_salt l_hash].
  rewrite <- !app_assoc. cbn [app].
  rewrite (proj1 (read_tok_ok t1 32 _ _ S1 N1 eq_refl L1)). cbn [mbind option_bind].
  rewrite (proj2 (read_tok_ok t2 32 _ _ S2 N2 eq_refl L2)). cbn [mbind option_bind].
  rewrite (proj2 (read_tok_ok t3 32 _ _ S3 N3 eq_refl L3)). cbn [mbind option_bind].
  rewrite (proj2 (read_tok_ok t4 32 _ _ S4 N4 eq_refl L4)). cbn [mbind option_bind].
  rewrite (proj2 (read_tok_ok t5 32 _ _ S5 N5 eq_refl L5)). cbn [mbind option_bind].
  rewrite (proj2 (read_tok_ok t6 32 _ _ S6 N6 eq_refl L6)). cbn [mbind option_bind].
  rewrite (proj2 (read_tok_ok t7 32 _ _ S7 N7 eq_refl L7)). cbn [mbind option_bind].
  rewrite (proj2 (read_tok_ok t8 10 _ _ S8 N8 eq_refl L8)). by cbn [mbind option_bind].
Qed.

(** An account the format can represent: no white space in its strings, none of them empty, a
    name that does not start a comment, and at most one flag. *)
Record storable (u : asd_user_t) : Prop := {
  st_solid : Forall (Forall solid) [uname u; until0 (u_home u); until0 (u_shell u)];
  st_ne : Forall (fun t => t <> []) [uname u; until0 (u_home u); until0 (u_shell u)];
  st_hash : head (uname u) <> Some 35;
  st_flags : u_flags u ∈ [0; USR_FLAG_WHEEL; USR_FLAG_NOLOGIN; USR_FLAG_LOCKED];
}.

Lemma text_short n buf : (0 < n)%nat -> text n buf -> (length (until0 buf) <= n - 1)%nat.
Proof. intros Hn [Hl (rest & He & _)]. rewrite He, length_app in Hl. simpl in Hl. lia. Qed.

Lemma flags_ok u :
  storable u -> let t := until0 (flag_text (u_flags u)) in Forall solid t /\ t <> [] /\ (length t <= 31)%nat /\ parse_flags (t ++ [0]) = Some (u_flags u).
Proof.
  intros [_ _ _ Hf]. rewrite !elem_of_cons, elem_of_nil in Hf.
  destruct Hf as [->|[->|[->|[->|[]]]]]; (split; [repeat (constructor; [by vm_compute|]); constructor|split; [done|split; [vm_compute; lia|done]]]).
Qed.

Lemma user_line_fits u : user_ok u -> storable u -> line_fits (user_line u).
Proof.
  intros [Hu Hg _ _ Hh Hs Tn Tho Tsh] Hst. destruct (flags_ok u Hst) as (F1 & F2 & F3 & _). destruct Hst as [Ss Sn _ _].
  rewrite !Forall_cons in Ss, Sn. destruct Ss as (S1 & S2 & S3 & _). destruct Sn as (N1 & N2 & N3 & _).
  destruct (dec_ok _ Hu) as (_ & Du1 & Du2 & Du3 & _). destruct (dec_ok _ Hg) as (_ & Dg1 & Dg2 & Dg3 & _).
  destruct (hex_ok _ Hs) as (_ & Hs1 & Hs2 & _). destruct (hex_ok _ Hh) as (_ & Hh1 & Hh2 & _).
  assert (Hne : forall l : list Z, length l = 16%nat -> l <> []) by (by intros [|]).
  pose proof (text_short USR_NAME_LEN _ (Nat.lt_0_succ _) Tn) as L1. pose proof (text_short USR_HOME_LEN _ (Nat.lt_0_succ _) Tho) as L5. pose proof (text_short USR_SHELL_LEN _ (Nat.lt_0_succ _) Tsh) as L6.
  constructor; cbn [user_line l_name l_uid l_gid l_flags l_home l_shell l_salt l_hash].
  - rewrite !Forall_cons. exact (conj S1 (conj Du1 (conj Dg1 (conj F1 (conj S2 (conj S3 (conj Hs2 (conj Hh2 (Forall_nil_2 _))))))))).
  - rewrite !Forall_cons. exact (conj N1 (conj Du2 (conj Dg2 (conj F2 (conj N2 (conj N3 (conj (Hne _ Hs1) (conj (Hne _ Hh1) (Forall_nil_2 _))))))))).
  - constructor; [exact L1|]. constructor; [lia|]. constructor; [lia|]. constructor; [exact F3|]. constructor; [exact L5|]. constructor; [exact L6|].
    constructor; [lia|]. constructor; [lia|]. constructor.
Qed.

Lemma line_fits_ok l : line_fits l -> line_ok l.
Proof.
  intros [Hs _ _]. rewrite !Forall_cons in Hs. destruct Hs as (S1&S2&S3&S4&S5&S6&S7&S8&_). unfold line_ok. split_and!; by apply solid_bytes.
Qed.

Lemma next_line_newline rest : next_line (10 :: rest) = Some rest.
Proof. done. Qed.

(** What an account keeps in the file. *)
Definition account_of (u : asd_user_t) : Z * Z * Z * Z * Z * list Z * list Z * list Z :=
  (u_uid u, u_gid u, u_flags u, u_pw_hash u, u_pw_salt u, uname u, until0 (u_home u), until0 (u_shell u)).

Lemma restore_account u w : user_ok u -> u_pw_hash (restore (user_line u) w) = u_pw_hash u /\ u_pw_salt (restore (user_line u) w) = u_pw_salt u.
Proof.
  intros [_ _ _ _ Hh Hs _ _ _]. destruct (hex_ok _ Hs) as (_ & _ & _ & X1 & P1). destruct (hex_ok _ Hh) as (_ & _ & _ & X2 & P2).
  unfold restore, stored. cbn [user_line l_salt l_hash set_pw u_pw_hash u_pw_salt]. by rewrite X1, P1, X2, P2.
Qed.

Lemma same_accounts (l l' : list asd_user_t) : account_of <$> l = account_of <$> l' -> u_uid <$> l = u_uid <$> l' /\ uname <$> l = uname <$> l'.
Proof.
  intros He. pose proof (f_equal (fmap (fun a => a.1.1.1.1.1.1.1)) He) as H1. pose proof (f_equal (fmap (fun a => a.1.1.2)) He) as H2.
  by rewrite <- !list_fmap_compose in H1, H2.
Qed.

Section reload.
Context (clock : nat -> Z) (Hclock : forall n, word (clock n)).

(** A written account read back: the password data of an account with its uid are replaced, or
    the account is added. *)
Lemma load_line fuel s n len u rest loaded :
  usr_inv s -> user_ok u -> storable u -> (n - length (line_text (user_line u) ++ rest) < len)%nat -> loaded < 64 ->
  exists s', load_loop clock (S fuel) s n len (line_text (user_line u) ++ rest) loaded = load_loop clock fuel s' n len rest (loaded + 1) /\ usr_inv s' /\
    (forall i w, users s !! i = Some w -> u_uid w = u_uid u -> users s' = alter (restore (user_line u)) i (users s)) /\
    (user_free s (u_uid u) (uname u) -> exists w, users s' = users s ++ [w] /\ account_of w = account_of u).
Proof.
  intros Hinv Hu Hst Hpos Hld. pose proof (user_line_fits u Hu Hst) as Hfit. pose proof (line_fits_ok _ Hfit) as Hok.
  destruct (dec_ok _ (uo_uid _ Hu)) as (_ & _ & Du & _ & Au). destruct (dec_ok _ (uo_gid _ Hu)) as (_ & _ & Dg & _ & Ag). destruct (flags_ok u Hst) as (_ & _ & _ & Hfl).
  pose proof (st_solid _ Hst) as Ss. pose proof (st_ne _ Hst) as Sn. rewrite !Forall_cons in Ss, Sn. destruct Ss as (S1 & S2 & S3 & _). destruct Sn as (N1 & N2 & N3 & _).
  destruct (load_user_ok clock Hclock s (user_line u) _ _ _ Hinv Hok N1 Au Ag Hfl (uo_flags _ Hu)) as (s' & Hload & Hinv' & Hold & Hnew).
  rewrite (u16_small (u_uid u)) in Hold, Hnew by apply (uo_uid _ Hu). rewrite (u16_small (u_gid u)) in Hnew by apply (uo_gid _ Hu).
  exists s'. split; [|split; [done|]; split; [exact Hold|]].
  - pose proof (read_fields_ok (user_line u) rest Hfit) as Hrf. pose proof (st_hash _ Hst) as Hh.
    destruct Hok as (B1 & B2 & B3 & _).
    assert (Hempty : is_empty (f_name (line_fields (user_line u))) || is_empty (f_uid (line_fields (user_line u))) || is_empty (f_gid (line_fields (user_line u))) = false).
    { cbn [line_fields f_name f_uid f_gid]. rewrite (is_empty_snoc _ B1), (is_empty_snoc _ B2), (is_empty_snoc _ B3).
      by rewrite (bool_decide_false _ N1), (bool_decide_false _ Du), (bool_decide_false _ Dg). }
    cbn [load_loop]. unfold in_text. rewrite decide_True by done.
    assert (Hhead : exists c p', line_text (user_line u) ++ rest = c :: p' /\ solid c /\ c <> 35).
    { unfold line_text. cbn [user_line l_name]. destruct (uname u) as [|c nm]; [done|]. eexists c, _. split; [done|]. split; [by apply Forall_inv in S1|]. simpl in Hh. congruence. }
    destruct Hhead as (c & p' & Hp & [Hc Hsp] & H35). rewrite Hp in *. rewrite (proj2 (Z.eqb_neq c 0)) by lia. cbn [negb mbind option_bind].
    rewrite (proj2 (Z.ltb_lt _ _)) by (unfold USR_MAX_USERS; lia). cbn [andb]. rewrite (proj1 (skip_ws_solid c p' (conj Hc Hsp))). cbn [mbind option_bind no_entry].
    assert (c <> 10) by (intros ->; done). rewrite (proj2 (Z.eqb_neq c 35)), (proj2 (Z.eqb_neq c 10)), (proj2 (Z.eqb_neq c 0)) by lia. cbn [orb].
    rewrite Hrf. cbn [mbind option_bind]. rewrite Hempty. rewrite Hload. cbn [mbind option_bind]. by rewrite next_line_newline.
  - intros Hfree. destruct (Hnew Hfree) as (salt & Hsalt & ->). eexists. split; [done|]. destruct (restore_account u (line_user (user_line u) (u_uid u) (u_gid u) (u_flags u) salt) Hu) as [R1 R2].
    unfold account_of. rewrite R1, R2. unfold line_user, restore, uname. cbn [set_pw new_user u_uid u_gid u_flags u_name u_home u_shell user_line l_name l_home l_shell].
    rewrite (decide_False (P := until0 (u_home u) = [])), (decide_False (P := until0 (u_shell u) = [])) by done.
    rewrite !until0_fixed by (first [apply Nat.lt_0_succ|by apply solid_bytes]).
    by rewrite !take_ge by (apply (text_short _ _ (Nat.lt_0_succ _)); apply Hu).
Qed.

Lemma load_lines us fuel s n len rest loaded :
  usr_inv s -> Forall user_ok us -> Forall storable us -> NoDup (u_uid <$> users s ++ us) -> NoDup (uname <$> users s ++ us) ->
  (length (users s ++ us) <= 64)%nat -> loaded + Z.of_nat (length us) <= 64 ->
  (n - length rest <= len)%nat -> (length (concat (map (fun u => line_text (user_line u)) us) ++ rest) <= n)%nat ->
  exists s', load_loop clock (length us + fuel) s n len (concat (map (fun u => line_text (user_line u)) us) ++ rest) loaded =
      load_loop clock fuel s' n len rest (loaded + Z.of_nat (length us)) /\ usr_inv s' /\ account_of <$> users s' = account_of <$> users s ++ us.
Proof.
  intros Hinv Hok. revert s loaded Hinv. induction Hok as [|u us Hu Hok IH]; intros s loaded Hinv Hst Hnd Hnm Hlen Hld Hpos Hn.
  { exists s. rewrite app_nil_r. split; [|done]. cbn [concat map app length Nat.add]. by rewrite Z.add_0_r. }
  apply Forall_cons in Hst as [Hstu Hst]. cbn [map concat] in *. rewrite <- app_assoc in *. cbn [length] in *.
  assert (Htext : (0 < length (line_text (user_line u)))%nat) by (unfold line_text; rewrite !length_app; simpl; lia).
  destruct (load_line (length us + fuel) s n len u (concat (map (fun u => line_text (user_line u)) us) ++ rest) loaded Hinv Hu Hstu) as (s1 & H1 & Hinv1 & _ & Hnew);
    [rewrite !length_app in *; lia|lia|].
  rewrite fmap_app, fmap_cons in Hnd. rewrite fmap_app, fmap_cons in Hnm. destruct Hnew as (w & U1 & Ha).
  { split; [rewrite length_app, (length_users s Hinv) in Hlen; simpl in Hlen; lia|]. apply NoDup_app in Hnd as (_ & Hd & _). apply NoDup_app in Hnm as (_ & Hm & _).
    split; [intros Hin; by apply (Hd _ Hin); left|]. split; [intros Hin; by apply (Hm _ Hin); left|]. pose proof (st_ne _ Hstu) as Sn. by apply Forall_inv in Sn. }
  assert (Hsame : account_of <$> users s1 ++ us = account_of <$> users s ++ u :: us) by (rewrite U1, !fmap_app, <- app_assoc; cbn [fmap list_fmap app]; by rewrite Ha).
  destruct (same_accounts _ _ Hsame) as [E1 E2]. destruct (IH s1 (loaded + 1) Hinv1 Hst) as (s' & H2 & Hinv' & Ha');
    [by rewrite E1, fmap_app, fmap_cons|by rewrite E2, fmap_app, fmap_cons|rewrite U1, !length_app in *; simpl in *; lia|lia|done|rewrite length_app in Hn; lia|].
  exists s'. split; [|split; [done|by rewrite Ha']]. cbn [Nat.add]. rewrite H1, H2. f_equal. lia.
Qed.

(** The comment line with the magic number. *)
Lemma load_header fuel s n len (rest : list Z) loaded :
  (n - length (c_str "#ASDPW1" ++ [10%Z] ++ rest) < len)%nat -> loaded < 64 ->
  load_loop clock (S fuel) s n len (c_str "#ASDPW1" ++ [10] ++ rest) loaded = load_loop clock fuel s n len rest loaded.
Proof.
  intros Hpos Hld. set (p := c_str "#ASDPW1" ++ [10] ++ rest) in *. cbn [load_loop]. unfold in_text. rewrite decide_True by done.
  unfold USR_MAX_USERS. rewrite (proj2 (Z.ltb_lt loaded _)) by lia. unfold p. reflexivity.
Qed.

Lemma load_end fuel s n len tail loaded : load_loop clock (S fuel) s n len (0 :: tail) loaded = Some (loaded, s).
Proof. cbn [load_loop]. unfold in_text. by destruct (decide _). Qed.

Lemma length_lines us : (length us <= length (concat (map (fun u => line_text (user_line u)) us)))%nat.
Proof. induction us as [|u us IH]; [done|]. cbn [map concat length]. rewrite length_app. unfold line_text at 1. rewrite !length_app. simpl. lia. Qed.

Lemma reload_ok s r us s0 w len tail :
  Forall user_ok (r :: us) -> Forall storable (r :: us) -> NoDup (u_uid <$> r :: us) -> NoDup (uname <$> r :: us) -> (length (r :: us) <= 64)%nat ->
  usr_inv s0 -> users s0 = [w] -> account_of w = account_of (set_pw (u_pw_hash w) (u_pw_salt w) r) -> (length (passwd_text (r :: us)) <= len)%nat ->
  s = r :: us ->
  exists s', usr_load_passwd clock s0 (Some (passwd_text s ++ 0 :: tail)) len = Some (Z.of_nat (length s), s') /\ usr_inv s' /\ account_of <$> users s' = account_of <$> s.
Proof.
  intros Hok Hst Hnd Hnm Hl Hinv Hw Hacc Hlen ->. pose proof (length_lines us) as Hll. apply Forall_cons in Hok as [Hr Hok]. apply Forall_cons in Hst as [Str Hst].
  unfold usr_load_passwd, passwd_text in *. cbn [map concat] in *. set (body := concat (map (fun u => line_text (user_line u)) us)) in *.
  assert (Hc : length (c_str "#ASDPW1") = 7%nat) by done. rewrite !length_app, Hc in Hlen. cbn [length] in Hlen. destruct (decide (len = 0%nat)) as [->|_]; [lia|].
  set (buf := (c_str "#ASDPW1" ++ [10] ++ line_text (user_line r) ++ body) ++ 0 :: tail). assert (Hbuf : buf = c_str "#ASDPW1" ++ [10] ++ line_text (user_line r) ++ body ++ 0 :: tail) by (unfold buf; by rewrite <- !app_assoc).
  assert (Hn : length buf = (8 + length (line_text (user_line r)) + length body + S (length tail))%nat) by (rewrite Hbuf, !length_app; simpl; lia).
  set (n := length buf) in *. clearbody n. rewrite Hbuf. rewrite load_header by first [lia|rewrite !length_app, Hc; cbn [length]; lia].
  cbn [length] in Hl, Hnd, Hnm. assert (Hline : (0 < length (line_text (user_line r)))%nat) by (unfold line_text; rewrite !length_app; simpl; lia).
  assert (Hfuel : S (length us + S (n - length us - 2)) = n) by lia.
  destruct (load_line (length us + S (n - length us - 2)) s0 n len r (body ++ 0 :: tail) 0 Hinv Hr Str) as (s1 & He1 & Hinv1 & Hold & _); [rewrite !length_app; cbn [length]; lia|lia|].
  rewrite Hfuel in He1. rewrite He1. pose proof Hacc as Hacc0. unfold account_of in Hacc0. cbn [set_pw u_uid u_gid u_flags u_name u_home u_shell u_pw_hash u_pw_salt] in Hacc0.
  rewrite Hw in Hold. assert (Hs1 : users s1 = [restore (user_line r) w]) by (rewrite (Hold 0%nat w); [done|done|congruence]).
  assert (Ha1 : account_of <$> users s1 ++ us = account_of <$> r :: us).
  { rewrite Hs1. cbn [app fmap list_fmap]. f_equal. destruct (restore_account r w Hr) as [R1 R2]. unfold account_of. rewrite R1, R2.
    unfold restore, uname in *. cbn [set_pw u_uid u_gid u_flags u_name u_home u_shell] in *. congruence. }
  destruct (same_accounts _ _ Ha1) as [E1 E2].
  destruct (load_lines us (S (n - length us - 2)) s1 n len (0 :: tail) (0 + 1) Hinv1 Hok Hst) as (s' & He2 & Hinv' & Ha');
    [by rewrite E1|by rewrite E2|rewrite Hs1; simpl; lia|lia|simpl; lia|fold body; rewrite length_app; simpl; lia|].
  fold body in He2. rewrite He2, load_end. exists s'. split; [do 2 f_equal; cbn [length]; lia|]. split; [done|]. by rewrite Ha'.
Qed.

(** ** Every database that can be reached is well formed *)

Inductive usr_step (s : usr_st) : usr_st -> Prop :=
  | step_grp_add gid name str r s' : half16 gid -> cstring name str -> grp_add s gid (Some name) = Some (r, s') -> usr_step s s'
  | step_usr_add uid gid name nstr pw pstr flags home hstr shell sstr r s' : half16 uid -> half16 gid -> half flags -> cstring name nstr ->
      password pw pstr -> arg home "/" hstr -> arg shell "/bin/asdsh" sstr ->
      usr_add clock s uid gid (Some name) pw flags home shell = Some (r, s') -> usr_step s s'
  | step_join uid gid r s' : half16 uid -> half16 gid -> usr_add_to_group s uid gid = (r, s') -> usr_step s s'
  | step_leave uid gid r s' : half16 uid -> half16 gid -> usr_remove_from_group s uid gid = (r, s') -> usr_step s s'
  | step_set_password uid pw pstr r s' : password pw pstr -> usr_set_password clock s uid pw = Some (r, s') -> usr_step s s'
  | step_load_passwd buf len r s' : 0 ∈ buf -> Forall (fun b => 0 <= b < 256) buf -> usr_load_passwd clock s (Some buf) len = Some (r, s') -> usr_step s s'
  | step_load_group buf len r s' : 0 ∈ buf -> Forall (fun b => 0 <= b < 256) buf -> usr_load_group s (Some buf) len = Some (r, s') -> usr_step s s'.

Lemma load_passwd_total s buf len :
  usr_inv s -> 0 ∈ buf -> Forall (fun b => 0 <= b < 256) buf ->
  exists r s', usr_load_passwd clock s (Some buf) len = Some (r, s') /\ usr_inv s' /\ -1 <= r <= 64 /\ (r = -1 <-> len = 0%nat).
Proof.
  intros Hinv Hin Hb. unfold usr_load_passwd. destruct (decide (len = 0%nat)) as [->|Hne]; [by exists (-1), s|].
  destruct (load_loop_total clock Hclock (S (length buf)) s (length buf) len buf 0 Hinv Hin Hb) as (r & s' & -> & Hinv' & Hr); [lia|lia|].
  exists r, s'. split; [done|]. split; [done|]. split; [lia|]. split; [lia|done].
Qed.

Lemma load_group_total s buf len :
  usr_inv s -> 0 ∈ buf -> Forall (fun b => 0 <= b < 256) buf -> exists r s', usr_load_group s (Some buf) len = Some (r, s') /\ usr_inv s' /\ users s' = users s.
Proof.
  intros Hinv Hin Hb. unfold usr_load_group. destruct (decide (len = 0%nat)) as [->|Hne]; [by exists (-1), s|].
  destruct (group_loop_total (S (length buf)) s (length buf) len buf 0 Hinv Hin Hb) as (r & s' & -> & Hinv' & U & _); [lia|]. by exists r, s'.
Qed.

Lemma member_inv s uid gid f g r s' :
  usr_inv s -> (forall u, user_ok u -> user_ok (f u)) -> (forall u, u_uid (f u) = u_uid u) -> (forall x, 0 <= uid < 32 -> group_ok x -> group_ok (g x)) ->
  (forall x, g_gid (g x) = g_gid x) -> half16 uid ->
  match usr_find_by_uid s uid with None => (-1, s) | Some i => let s := upd_user s i f in
    match grp_find_by_gid s gid with Some j => if uid <? 32 then (0, upd_group s j g) else (0, s) | None => (0, s) end end = (r, s') -> usr_inv s'.
Proof.
  intros Hinv Hf Hfu Hg Hgg Hu He. pose proof (find_uid_ok s Hinv uid) as Hfind. destruct (usr_find_by_uid s uid) as [i|]; [|by simplify_eq].
  destruct Hfind as (u & Hi & <- & _). destruct (member_step s i u gid f g Hinv Hi Hf Hfu Hg Hgg (proj1 Hu)) as (H1 & _). cbv zeta in *.
  destruct (grp_find_by_gid _ gid); [destruct (_ <? 32)|]; by simplify_eq.
Qed.

Lemma step_inv s s' : usr_inv s -> usr_step s s' -> usr_inv s'.
Proof.
  intros Hinv Hs. destruct Hs as [gid name str r s' Hg Hn He|uid gid name nstr pw pstr fl home hstr shell sstr r s' Hu Hg Hf Hn Hp Hh Hsh He|uid gid r s' Hu Hg He|uid gid r s' Hu Hg He|uid pw pstr r s' Hp He|buf len r s' Hin Hb He|buf len r s' Hin Hb He].
  - destruct (grp_add_ok s gid name str Hinv Hg Hn) as (r' & s1 & H1 & Hinv1 & _). by simplify_eq.
  - destruct (usr_add_ok clock Hclock s uid gid name nstr pw pstr fl home hstr shell sstr Hinv Hu Hg Hf Hn Hp Hh Hsh) as (r' & s1 & H1 & Hinv1 & _). by simplify_eq.
  - eapply (member_inv s uid gid (add_bits gid) (join_mask uid)); [done|intros u; apply add_bits_ok, Hg|intros u; unfold add_bits; by destruct (_ <? _)|intros x ?; by apply join_mask_ok|done|done|exact He].
  - eapply (member_inv s uid gid (del_bits gid) (leave_mask uid)); [done|intros u; apply del_bits_ok, Hg|intros u; unfold del_bits; by destruct (_ <? _)|intros x ?; by apply leave_mask_ok|done|done|exact He].
  - pose proof (find_uid_ok s Hinv uid) as Hfind. destruct (usr_find_by_uid s uid) as [i|] eqn:Hi.
    + destruct Hfind as (u & Hu & <- & _). destruct (set_password_ok clock Hclock s i u pw pstr Hinv Hu Hp) as (salt & s1 & H1 & _ & Hinv1 & _). by simplify_eq.
    + unfold usr_set_password in He. rewrite Hi in He. by simplify_eq.
  - destruct (load_passwd_total s buf len Hinv Hin Hb) as (r' & s1 & H1 & Hinv1 & _). by simplify_eq.
  - destruct (load_group_total s buf len Hinv Hin Hb) as (r' & s1 & H1 & Hinv1 & _). by simplify_eq.
Qed.

End reload.

(** ** Flaws of the code *)

(** [usr_write_passwd] does not test the room left for the spaces: it writes past the end of
    a buffer that the text does not fit in. *)
Lemma usr_write_passwd_overruns :
  match usr_init demo_clock boot_usr with Some s => usr_write_passwd s (Some (replicate 12 0)) 12 = None | None => False end.
Proof. vm_compute. reflexivity. Qed.

(** Names are compared before they are cut to 31 characters: two users can get one name. *)
Lemma usr_add_duplicate_names :
  let long := replicate 31 97 in
  match usr_init demo_clock boot_usr with
  | Some s =>
      match usr_add demo_clock s 1000 100 (Some (long ++ [98; 0])) None 0 None None with
      | Some (r, s) => match usr_add demo_clock s 1001 100 (Some (long ++ [99; 0])) None 0 None None with
          Some (r', s) => r = 0 /\ r' = 0 /\ (uname <$> users s) = [c_str "root"; long; long] | None => False end
      | None => False
      end
  | None => False
  end.
Proof. vm_compute. done. Qed.

(** Only one group without a line of its own is added: the second one cannot be called "unknown" too. *)
Lemma usr_load_passwd_drops_group :
  match usr_init demo_clock boot_usr with
  | Some s =>
      match usr_load_passwd demo_clock s (Some (c_str "ann 1000 200 -" ++ [10] ++ c_str "bob 1001 201 -" ++ [10; 0])) 30 with
      | Some (r, s) => r = 2 /\ (u_gid <$> users s) = [0; 200; 201] /\ (g_gid <$> groups s) = [0; 1; 100; 200]
      | None => False
      end
  | None => False
  end.
Proof. vm_compute. done. Qed.

(** ** Properties *)

(** C32: on a terminated text [usr_load_passwd] always returns, with at most 64 lines counted, and
    leaves a well-formed database; it never reads past the terminator. *)
Theorem usr_load_passwd_total clock s buf len :
  (forall n, word (clock n)) -> usr_inv s -> 0 ∈ buf -> Forall (fun b => 0 <= b < 256) buf ->
  exists r s', usr_load_passwd clock s (Some buf) len = Some (r, s') /\ usr_inv s' /\ -1 <= r <= 64 /\ (r = -1 <-> len = 0%nat).
Proof. intros Hclock. by apply load_passwd_total. Qed.

(** C25: every database reached from [usr_init] by adding groups and users, changing memberships and
    passwords and loading texts is well formed: tables within their arrays, terminated names, and no
    uid or gid twice. *)
Theorem usr_reachable_inv clock s0 s1 s :
  (forall n, word (clock n)) -> pool_inv (us_pool s0) -> usr_init clock s0 = Some s1 -> rtc (usr_step clock) s1 s -> usr_inv s.
Proof.
  intros Hclock Hp Hi Hs. destruct (usr_init_state clock Hclock s0 Hp) as (s' & Hi' & Hinv & _). assert (s' = s1) as -> by congruence.
  clear Hi Hi'. induction Hs as [|x y z Hxy _ IH]; [done|]. apply IH. by apply (step_inv clock Hclock x).
Qed.

(** the accounts that [usr_write_passwd] writes, the built-in root account first, are read back
    by [usr_load_passwd] on a freshly started database: same uids, gids, flags, password hashes and
    salts, names, homes and shells, in the same order. *)
Theorem usr_passwd_roundtrip clock s r us buf buf_sz s0 s1 :
  (forall n, word (clock n)) -> usr_inv s -> users s = r :: us -> Forall storable (users s) -> NoDup (uname <$> users s) ->
  account_of root_user = account_of (set_pw 0 0 r) -> (8 <= buf_sz <= length buf)%nat -> (length (passwd_text (users s)) + 2 <= buf_sz)%nat ->
  pool_inv (us_pool s0) -> usr_init clock s0 = Some s1 ->
  exists buf', usr_write_passwd s (Some buf) buf_sz = Some (Z.of_nat (length (passwd_text (users s))), Some buf') /\
    forall len, (length (passwd_text (users s)) <= len)%nat -> exists s', usr_load_passwd clock s1 (Some buf') len = Some (Z.of_nat (length (users s)), s') /\ usr_inv s' /\
      account_of <$> users s' = account_of <$> users s.
Proof.
  intros Hclock Hinv Hus Hst Hnm Hroot Hsz Hfit Hp Hi. eexists. split; [by apply write_passwd_ok|]. intros len Hlen.
  destruct (usr_init_state clock Hclock s0 Hp) as (s' & Hi' & Hinv1 & Hu1 & _). assert (s' = s1) as -> by congruence.
  pose proof (ui_user _ Hinv) as Hok. pose proof (ui_uids _ Hinv) as Hnd. pose proof (length_users s Hinv) as Hl. pose proof (ui_count _ Hinv) as Hc. rewrite Hus in *.
  apply (reload_ok clock Hclock (r :: us) r us s1 root_user); [done|done|done|done|lia|done|done|done|lia|done].
Qed.

Definition demo_text : list Z := c_str "ann 1000 100 wheel /home/ann /bin/asdsh" ++ [10] ++ c_str "# end" ++ [10; 0].

Lemma demo_text_ok : 0 ∈ demo_text /\ Forall (fun b => 0 <= b < 256) demo_text.
Proof.
  split; [apply list_elem_of_lookup; exists 46%nat; reflexivity|]. apply Forall_forall. intros b Hb. apply list_elem_of_In in Hb.
  assert (Hall : forallb (fun b => (0 <=? b) && (b <? 256)) demo_text = true) by reflexivity. rewrite forallb_forall in Hall. specialize (Hall b Hb). lia.
Qed.

Lemma usr_load_passwd_total_witness : exists s r s', usr_load_passwd demo_clock s (Some demo_text) 46 = Some (r, s') /\ usr_inv s'.
Proof.
  destruct (usr_init_state demo_clock demo_clock_ok boot_usr boot_pool_ok) as (s & _ & Hinv & _). destruct demo_text_ok as [H1 H2].
  destruct (usr_load_passwd_total demo_clock s demo_text 46 demo_clock_ok Hinv H1 H2) as (r & s' & H & Hi & _). exists s, r, s'. split; [exact H|exact Hi].
Defined.

Lemma usr_reachable_inv_witness : exists s s', usr_step demo_clock s s' /\ usr_inv s'.
Proof.
  destruct (usr_init_state demo_clock demo_clock_ok boot_usr boot_pool_ok) as (s & Hs & Hinv & _). destruct demo_text_ok as [H1 H2].
  destruct (load_passwd_total demo_clock demo_clock_ok s demo_text 46 Hinv H1 H2) as (r & s' & H & _).
  pose proof (step_load_passwd demo_clock s demo_text 46 r s' H1 H2 H) as Hstep. exists s, s'. split; [exact Hstep|].
  apply (usr_reachable_inv demo_clock boot_usr s s' demo_clock_ok boot_pool_ok Hs). apply rtc_once. exact Hstep.
Defined.

Lemma root_storable : Forall storable [root_user].
Proof.
  apply Forall_singleton. constructor; [|by repeat constructor|done|by left].
  repeat constructor; done.
Qed.

Lemma set_pw_twice h salt h' salt' u : set_pw h salt (set_pw h' salt' u) = set_pw h salt u.
Proof. reflexivity. Qed.

Lemma root_again : account_of root_user = account_of (set_pw 0 0 root_user).
Proof. unfold root_user. by rewrite set_pw_twice. Qed.

Lemma usr_passwd_roundtrip_witness :
  exists s buf' s', users s = [root_user] /\ usr_write_passwd s (Some (replicate 128 0)) 128 = Some (Z.of_nat (length (passwd_text (users s))), Some buf') /\
    usr_load_passwd demo_clock s (Some buf') 127 = Some (Z.of_nat (length (users s)), s') /\ account_of <$> users s' = account_of <$> users s.
Proof.
  destruct (usr_init_state demo_clock demo_clock_ok boot_usr boot_pool_ok) as (s & Hs & Hinv & Hu & _).
  assert (Hlen : length (passwd_text (users s)) = 70%nat) by (rewrite Hu; vm_compute; reflexivity).
  destruct (usr_passwd_roundtrip demo_clock s root_user [] (replicate 128 0) 128 boot_usr s demo_clock_ok Hinv Hu) as (buf' & H1 & H2);
    [rewrite Hu; apply root_storable|rewrite Hu; apply NoDup_singleton|apply root_again|rewrite length_replicate; lia|rewrite Hlen; lia|apply boot_pool_ok|exact Hs|].
  destruct (H2 127%nat) as (s' & H3 & _ & H4); [rewrite Hlen; lia|]. exists s, buf', s'. split; [exact Hu|]. split; [exact H1|]. split; [exact H3|exact H4].
Defined.
