(* ===== verification/Block.v ===== *)
(** * Block devices (src/kernel/block/block.c, block.h)

    The table of registered devices.  A device is a record of its name, geometry and the
    addresses of its functions, zero for NULL. *)

From Stdlib Require Import ZArith Lia.
From stdpp Require Import base strings sets list.
From S2P Require Import Prelude KString.

Local Open Scope Z_scope.

Definition BLOCK_MAX_DEVS : nat := 8.
Definition BLOCK_NAME_LEN : nat := 32.

Record block_dev_t := mk_block_dev {
  bd_name : list Z; bd_sector_size : Z; bd_sector_count : Z; bd_ctx : Z; bd_read : Z; bd_write : Z;
}.

Definition zero_dev : block_dev_t := mk_block_dev (replicate BLOCK_NAME_LEN 0) 0 0 0 0 0.

(** [d.name[0] != 0] *)
Definition named (d : block_dev_t) : bool := negb (match bd_name d with c :: _ => c =? 0 | [] => true end).

Definition block_init : list block_dev_t := replicate BLOCK_MAX_DEVS zero_dev.

Definition block_register (t : list block_dev_t) (tmpl : option block_dev_t) : Z * list block_dev_t :=
  match tmpl with
  | None => (-1, t)
  | Some d =>
      if negb (named d) || (bd_read d =? 0) || (bd_write d =? 0) || (bd_sector_size d =? 0) then (-1, t)
      else match find_idx (fun d => negb (named d)) t with
      | Some i => (0, <[i := d]> t)
      | None => (-1, t)
      end
  end.

(** The loop of [block_find]. *)
Fixpoint find_dev (t : list block_dev_t) (name : list Z) : option (option nat) :=
  match t with
  | [] => Some None
  | d :: t' =>
      if named d then
        r ← strcmp (bd_name d) name;
        if r =? 0 then Some (Some 0%nat) else i ← find_dev t' name; Some (option_map S i)
      else i ← find_dev t' name; Some (option_map S i)
  end.

Definition block_find (t : list block_dev_t) (name : option (list Z)) : option (option nat) :=
  match name with None => Some None | Some name => find_dev t name end.

Definition block_first (t : list block_dev_t) : option nat := find_idx named t.

Fixpoint count_loop (t : list block_dev_t) (n : Z) : Z :=
  match t with [] => n | d :: t' => count_loop t' (if named d then n + 1 else n) end.

Definition block_count (t : list block_dev_t) : Z := count_loop t 0.

(** The loop of [block_get], with [n] devices seen so far. *)
Fixpoint get_loop (t : list block_dev_t) (idx n : Z) : option nat :=
  match t with
  | [] => None
  | d :: t' =>
      if negb (named d) then S <$> get_loop t' idx n
      else if n =? idx then Some 0%nat else S <$> get_loop t' idx (n + 1)
  end.

Definition block_get (t : list block_dev_t) (idx : Z) : option nat := get_loop t idx 0.

(** ** Specification

    The table is the list of the devices registered so far, in order. *)

Definition str_of (d : block_dev_t) : list Z := until0 (bd_name d).

Definition dev_ok (d : block_dev_t) : Prop :=
  length (bd_name d) = BLOCK_NAME_LEN /\ cstring (bd_name d) (str_of d) /\ str_of d <> [].

Definition table_of (t ds : list block_dev_t) : Prop := exists n, t = ds ++ replicate n zero_dev /\ length t = BLOCK_MAX_DEVS /\ Forall dev_ok ds.

Lemma dev_named d : dev_ok d -> named d = true.
Proof.
  intros (_ & Hc & Hne). unfold named, str_of in *. destruct (bd_name d) as [|c nm]; [by apply cstring_nil in Hc|].
  simpl in Hne. by destruct (Z.eqb_spec c 0).
Qed.

Lemma find_zero ds n : Forall dev_ok ds -> find_idx (fun d => negb (named d)) (ds ++ replicate n zero_dev) = match n with O => None | S _ => Some (length ds) end.
Proof.
  intros H. induction H as [|d ds Hd _ IH]; [by destruct n|]. simpl. rewrite (dev_named d Hd). simpl. rewrite IH. by destruct n.
Qed.

Lemma find_dev_ok ds n name str :
  Forall dev_ok ds -> cstring name str -> exists r, find_dev (ds ++ replicate n zero_dev) name = Some r /\
    match r with Some i => exists d, ds !! i = Some d /\ str_of d = str /\ forall j d', (j < i)%nat -> ds !! j = Some d' -> str_of d' <> str | None => str ∉ (str_of <$> ds) end.
Proof.
  intros H Hs. induction H as [|d ds Hd _ IH].
  - exists None. split; [|apply not_elem_of_nil]. induction n as [|n IHn]; [done|]. simpl. simpl in IHn. by rewrite IHn.
  - cbn [find_dev app]. rewrite (dev_named d Hd). destruct Hd as (_ & Hc & _). destruct (strcmp_cstring _ _ _ _ Hc Hs) as (r & -> & Hr). cbn [mbind option_bind].
    destruct (Z.eqb_spec r 0) as [H0|H0].
    + exists (Some 0%nat). split; [done|]. exists d. split; [done|]. split; [by apply Hr|lia].
    + destruct IH as (i & -> & Hi). exists (option_map S i). split; [done|]. destruct i as [i|]; simpl.
      * destruct Hi as (d' & Hi & He & Hmin). exists d'. split; [done|]. split; [done|]. intros [|j] d0 Hj Hd0; simpl in Hd0; [|by apply (Hmin j d0); [lia|]].
        injection Hd0 as <-. rewrite <- Hr. done.
      * rewrite not_elem_of_cons. split; [|done]. intros ->. by apply H0, Hr.
Qed.

Lemma count_loop_ok t n : count_loop t n = n + Z.of_nat (length (filter (fun d => named d = true) t)).
Proof.
  revert n. induction t as [|d t IH]; intros n; cbn [count_loop]; [simpl; lia|]. rewrite IH, filter_cons.
  destruct (named d); [rewrite decide_True by done|rewrite decide_False by done]; simpl; lia.
Qed.

Lemma get_loop_ok ds n idx k :
  Forall dev_ok ds -> get_loop (ds ++ replicate n zero_dev) idx k = if decide (k <= idx < k + Z.of_nat (length ds)) then Some (Z.to_nat (idx - k)) else None.
Proof.
  intros H. revert k. induction H as [|d ds Hd _ IH]; intros k.
  - rewrite decide_False by (simpl; lia). simpl. clear. induction n as [|n IHn]; [done|]. simpl. by rewrite IHn.
  - cbn [get_loop app]. rewrite (dev_named d Hd). cbn [negb]. destruct (Z.eqb_spec k idx) as [->|Hne].
    + rewrite decide_True by (simpl; lia). by rewrite Z.sub_diag.
    + rewrite IH. destruct (decide (k + 1 <= idx < k + 1 + Z.of_nat (length ds))).
      * rewrite decide_True by (simpl; lia). cbn [fmap option_fmap option_map]. f_equal. lia.
      * rewrite decide_False by (simpl; lia). done.
Qed.

Lemma filter_named ds n : Forall dev_ok ds -> filter (fun d => named d = true) (ds ++ replicate n zero_dev) = ds.
Proof.
  intros H. induction H as [|d ds Hd _ IH].
  - induction n as [|n IHn]; [done|]. simpl. rewrite filter_cons_False by done. exact IHn.
  - simpl. rewrite filter_cons_True by (by apply dev_named). by rewrite IH.
Qed.

(** [block_register] adds a complete device behind the registered ones and refuses it when the
    table is full; counting, indexing and finding by name see the registered devices in order. *)
Theorem block_register_ok t ds d :
  table_of t ds -> dev_ok d -> bd_read d <> 0 -> bd_write d <> 0 -> bd_sector_size d <> 0 ->
  (block_count t = Z.of_nat (length ds) /\ forall idx, block_get t idx = if decide (0 <= idx < Z.of_nat (length ds)) then Some (Z.to_nat idx) else None) /\
  (if decide (length ds < BLOCK_MAX_DEVS)%nat
   then exists t', block_register t (Some d) = (0, t') /\ table_of t' (ds ++ [d])
   else block_register t (Some d) = (-1, t)).
Proof.
  intros (n & -> & Hl & Hok) Hd Hr Hw Hs. split.
  - unfold block_count, block_get. rewrite count_loop_ok, filter_named by done. split; [lia|]. intros idx. rewrite get_loop_ok by done. by rewrite Z.sub_0_r.
  - unfold block_register. rewrite (dev_named d Hd), (proj2 (Z.eqb_neq _ _) Hr), (proj2 (Z.eqb_neq _ _) Hw), (proj2 (Z.eqb_neq _ _) Hs). cbn [negb orb].
    rewrite find_zero by done. rewrite length_app, length_replicate in Hl. destruct n as [|n].
    + rewrite decide_False by lia. done.
    + rewrite decide_True by lia. eexists. split; [done|]. exists n. replace (length ds) with (length ds + 0)%nat by lia. rewrite insert_app_r. cbn [replicate insert list_insert].
      rewrite <- app_assoc. split; [done|]. split; [rewrite !length_app; simpl; rewrite length_replicate; lia|]. apply Forall_app. split; [done|by apply Forall_singleton].
Qed.
