(* ===== verification/Gpt.v ===== *)
(** * GUID partition tables (src/kernel/block/gpt.c)

    The check sums and [gpt_init_single_disk], which writes the protective boot record, both
    headers and both copies of the partition entries.  The functions of the device are arguments:
    they are in drivers. *)

From Stdlib Require Import ZArith Lia.
From stdpp Require Import base strings sets list gmap list.
From S2P Require Import Prelude KString Block.

Local Open Scope Z_scope.

Definition ESP_SIZE_BYTES : Z := 512 * 1024 * 1024.
Definition ESP_SIZE_SECTORS : Z := ESP_SIZE_BYTES / 512.

(** ** CRC32 *)

Record crc_st := mk_crc { crc32_table : list Z; crc32_init_done : bool }.

(** [n] rounds of the inner loop of [crc32_init]. *)
Fixpoint crc_bits (n : nat) (c : Z) : Z :=
  match n with
  | O => c
  | S n' => crc_bits n' (if negb (Z.land c 1 =? 0) then Z.lxor (Z.shiftr c 1) 0xEDB88320 else Z.shiftr c 1)
  end.

Definition crc32_init (s : crc_st) : crc_st :=
  if crc32_init_done s then s else mk_crc (map (crc_bits 8) (seqZ 0 256)) true.

(** [while (len--) c = table[(c ^ *p++) & 0xFF] ^ (c >> 8)] *)
Fixpoint crc_loop (table p : list Z) (len : nat) (c : Z) : option Z :=
  match len with
  | O => Some c
  | S len' =>
      match p with
      | [] => None
      | b :: p' => t ← table !! Z.to_nat (Z.land (Z.lxor c b) 0xFF); crc_loop table p' len' (Z.lxor t (Z.shiftr c 8))
      end
  end.

Definition crc32_compute (s : crc_st) (buf : list Z) (len : nat) : option (Z * crc_st) :=
  let s := crc32_init s in
  c ← crc_loop (crc32_table s) buf len 0xFFFFFFFF;
  Some (Z.lxor c 0xFFFFFFFF, s).

(** ** On-disk structures *)

Record mbr_part_t := mk_mbr_part { mp_status : Z; mp_chs_first : list Z; mp_type : Z; mp_chs_last : list Z; mp_lba_first : Z; mp_lba_count : Z }.

Record mbr_t := mk_mbr { mb_boot_code : list Z; mb_disk_id : Z; mb_reserved : Z; mb_part : list mbr_part_t; mb_sig : Z }.

Record gpt_header_t := mk_gpt_header {
  gh_signature : list Z; gh_revision : Z; gh_header_size : Z; gh_header_crc32 : Z; gh_reserved : Z;
  gh_current_lba : Z; gh_backup_lba : Z; gh_first_usable_lba : Z; gh_last_usable_lba : Z;
  gh_disk_guid : list Z; gh_part_entry_lba : Z; gh_num_parts : Z; gh_part_entry_size : Z; gh_part_array_crc32 : Z;
  gh_pad : list Z;
}.

Record gpt_part_t := mk_gpt_part { gp_type_guid : list Z; gp_part_guid : list Z; gp_first_lba : Z; gp_last_lba : Z; gp_attrs : Z; gp_name : list Z }.

(** The packed structures in memory. *)
Definition mbr_part_bytes (p : mbr_part_t) : list Z :=
  [mp_status p] ++ mp_chs_first p ++ [mp_type p] ++ mp_chs_last p ++ le_bytes 4 (mp_lba_first p) ++ le_bytes 4 (mp_lba_count p).

Definition mbr_bytes (m : mbr_t) : list Z :=
  mb_boot_code m ++ le_bytes 4 (mb_disk_id m) ++ le_bytes 2 (mb_reserved m) ++ concat (map mbr_part_bytes (mb_part m)) ++ le_bytes 2 (mb_sig m).

Definition header_bytes (h : gpt_header_t) : list Z :=
  gh_signature h ++ le_bytes 4 (gh_revision h) ++ le_bytes 4 (gh_header_size h) ++ le_bytes 4 (gh_header_crc32 h) ++ le_bytes 4 (gh_reserved h) ++
  le_bytes 8 (gh_current_lba h) ++ le_bytes 8 (gh_backup_lba h) ++ le_bytes 8 (gh_first_usable_lba h) ++ le_bytes 8 (gh_last_usable_lba h) ++
  gh_disk_guid h ++ le_bytes 8 (gh_part_entry_lba h) ++ le_bytes 4 (gh_num_parts h) ++ le_bytes 4 (gh_part_entry_size h) ++
  le_bytes 4 (gh_part_array_crc32 h) ++ gh_pad h.

Definition part_bytes (p : gpt_part_t) : list Z :=
  gp_type_guid p ++ gp_part_guid p ++ le_bytes 8 (gp_first_lba p) ++ le_bytes 8 (gp_last_lba p) ++ le_bytes 8 (gp_attrs p) ++ concat (map (le_bytes 2) (gp_name p)).

Definition zero_mbr_part : mbr_part_t := mk_mbr_part 0 [0; 0; 0] 0 [0; 0; 0] 0 0.
Definition zero_part : gpt_part_t := mk_gpt_part (replicate 16 0) (replicate 16 0) 0 0 0 (replicate 36 0).

Definition guid_from_bytes (d1 d2 d3 : Z) (rest : list Z) : list Z :=
  [u8 (Z.shiftr d1 24); u8 (Z.shiftr d1 16); u8 (Z.shiftr d1 8); u8 d1; u8 (Z.shiftr d2 8); u8 d2; u8 (Z.shiftr d3 8); u8 d3] ++ rest.

(** The copying loop of [utf8_to_utf16le] from index [i] on, and the terminator. *)
Fixpoint utf16_loop (s : list Z) (out : list Z) (i max_chars : nat) : option (list Z) :=
  match s with
  | [] => None
  | c :: s' =>
      if negb (c =? 0) && (i + 1 <? max_chars)%nat then out ← put out i c; utf16_loop s' out (S i) max_chars
      else if (i <? max_chars)%nat then put out i 0 else Some out
  end.

Definition utf8_to_utf16le (s : list Z) (out : list Z) (max_chars : nat) : option (list Z) := utf16_loop s out 0 max_chars.

Definition at_is (sec : list Z) (i : nat) (b : Z) : bool := match sec !! i with Some x => x =? b | None => false end.

Definition disk_sector0_is_fat (sec : option (list Z)) : Z :=
  match sec with
  | None => 0
  | Some sec =>
      if negb (at_is sec 510 0x55) || negb (at_is sec 511 0xAA) then 0
      else if at_is sec 82 70 && at_is sec 83 65 && at_is sec 84 84 then 1
      else if at_is sec 54 70 && at_is sec 55 65 && at_is sec 56 84 then 1 else 0
  end.

(** The structures for a disk of [total] sectors. *)
Definition protective_mbr (total : Z) : mbr_t :=
  let p0 := mk_mbr_part 0 [0; 0; 0] 0xEE [0; 0; 0] 1 (if 0xFFFFFFFF <? total then 0xFFFFFFFF else u32 total) in
  mk_mbr (replicate 440 0) 0 0 [p0; zero_mbr_part; zero_mbr_part; zero_mbr_part] 0xAA55.

Definition esp_type : list Z := guid_from_bytes 0xC12A7328 0xF81F 0x11D2 [0xBA; 0x4B; 0x00; 0xA0; 0xC9; 0x3E; 0xC9; 0x3B].
Definition root_type : list Z := guid_from_bytes 0x0FC63DAF 0x8483 0x4772 [0x8E; 0x79; 0x3D; 0x69; 0xD8; 0x47; 0x7D; 0xE4].

Definition FIRST_USABLE : Z := 2048.

(** The entries of the two partitions, and 126 empty ones. *)
Definition gpt_parts (total : Z) : option (list gpt_part_t) :=
  let esp_first := FIRST_USABLE in
  let esp_last := u64 (esp_first + ESP_SIZE_SECTORS - 1) in
  let root_first := u64 (esp_last + 1) in
  let root_last := u64 (total - 34) in
  esp_name ← utf8_to_utf16le (c_str "ESP" ++ [0]) (gp_name zero_part) 36;
  root_name ← utf8_to_utf16le (c_str "ASD root" ++ [0]) (gp_name zero_part) 36;
  Some (mk_gpt_part esp_type esp_type esp_first esp_last 0 esp_name ::
        mk_gpt_part root_type root_type root_first root_last 0 root_name :: replicate 126 zero_part).

Definition parts_bytes (ps : list gpt_part_t) : list Z := concat (map part_bytes ps).

(** A header without its check sum. *)
Definition blank_header (current backup last_usable entries crc : Z) : gpt_header_t :=
  mk_gpt_header (c_str "EFI PART") 0x00010000 92 0 0 current backup FIRST_USABLE last_usable (replicate 16 0x11) entries 128 128 crc (replicate 420 0).

Definition set_crc (h : gpt_header_t) (crc : Z) : gpt_header_t :=
  mk_gpt_header (gh_signature h) (gh_revision h) (gh_header_size h) crc (gh_reserved h) (gh_current_lba h) (gh_backup_lba h) (gh_first_usable_lba h) (gh_last_usable_lba h)
    (gh_disk_guid h) (gh_part_entry_lba h) (gh_num_parts h) (gh_part_entry_size h) (gh_part_array_crc32 h) (gh_pad h).

(** [h->header_crc32 = crc32_compute(h, h->header_size)] *)
Definition sign_header (s : crc_st) (h : gpt_header_t) : option (gpt_header_t * crc_st) :=
  '(crc, s) ← crc32_compute s (header_bytes h) (Z.to_nat (gh_header_size h)); Some (set_crc h crc, s).

(** ** The writer *)

Section device.
(** The state of the device and its functions: the result code, and for a read the buffer. *)
Context {W : Type} (dev_read : block_dev_t -> W -> Z -> Z -> Z * list Z * W) (dev_write : block_dev_t -> W -> Z -> Z -> list Z -> Z * W).

(** Entries [i], [i + 1], ... [n] sectors of them; [false] is the return of -1. *)
Fixpoint write_entries (d : block_dev_t) (w : W) (lba : Z) (pbytes : list Z) (i n : nat) : bool * W :=
  match n with
  | O => (true, w)
  | S n' =>
      let '(r, w) := dev_write d w (u64 (lba + Z.of_nat i)) 1 (slice (i * 512) 512 pbytes) in
      if negb (r =? 0) then (false, w) else write_entries d w lba pbytes (S i) n'
  end.

Definition MIN_SECTORS : Z := 34 + ESP_SIZE_SECTORS + 1024.

(** The disk already has a FAT file system or a GUID partition table. *)
Definition recognised (d : block_dev_t) (sec : list Z) (w : W) : option (bool * W) :=
  lo ← sec !! 510%nat; hi ← sec !! 511%nat;
  if negb (Z.lor lo (Z.shiftl hi 8) =? 0xAA55) then Some (false, w)
  else if negb (disk_sector0_is_fat (Some sec) =? 0) then Some (true, w)
  else
    let '(r, hdr, w) := dev_read d w 1 1 in
    if negb (r =? 0) then Some (false, w)
    else c ← memcmp hdr (c_str "EFI PART") 8; Some ((c =? 0) && (MIN_SECTORS <=? bd_sector_count d), w).

Definition write_headers (d : block_dev_t) (w : W) (pbytes : list Z) (ph bh : gpt_header_t) : Z * W :=
  let total := bd_sector_count d in
  let '(ok, w) := write_entries d w 2 pbytes 0 32 in
  if negb ok then (-1, w) else
  let '(r, w) := dev_write d w 1 1 (header_bytes ph) in
  if negb (r =? 0) then (-1, w) else
  let '(ok, w) := write_entries d w (u64 (total - 33)) pbytes 0 32 in
  if negb ok then (-1, w) else
  let '(r, w) := dev_write d w (u64 (total - 1)) 1 (header_bytes bh) in
  if negb (r =? 0) then (-1, w) else (0, w).

Definition write_table (d : block_dev_t) (w : W) (cs : crc_st) : option (Z * W * crc_st) :=
  let total := bd_sector_count d in
  let '(r, w) := dev_write d w 0 1 (mbr_bytes (protective_mbr total)) in
  if negb (r =? 0) then Some (-1, w, cs) else
  ps ← gpt_parts total;
  '(pcrc, cs) ← crc32_compute cs (parts_bytes ps) (128 * 128);
  '(ph, cs) ← sign_header cs (blank_header 1 (u64 (total - 1)) (u64 (total - 34)) 2 pcrc);
  '(bh, cs) ← sign_header cs (blank_header (u64 (total - 1)) 1 (u64 (total - 34)) (u64 (total - 33)) pcrc);
  let '(r, w) := write_headers d w (parts_bytes ps) ph bh in
  Some (r, w, cs).

Definition gpt_init_single_disk (dev : option block_dev_t) (w : W) (cs : crc_st) : option (Z * W * crc_st) :=
  match dev with
  | None => Some (-1, w, cs)
  | Some d =>
      if (bd_write d =? 0) || (bd_read d =? 0) || negb (bd_sector_size d =? 512) then Some (-1, w, cs)
      else if bd_sector_count d <? MIN_SECTORS then Some (-1, w, cs)
      else
        let '(r, sec, w) := dev_read d w 0 1 in
        if negb (r =? 0) then Some (-1, w, cs)
        else '(known, w) ← recognised d sec w; if (known : bool) then Some (0, w, cs) else write_table d w cs
  end.

End device.

(** ** CRC32: the table gives the bitwise check sum *)

(** One bit of the check sum, and the check sum of a list of bytes bit by bit. *)
Definition crc_bit (c : Z) : Z := crc_bits 1 c.

Definition crc_ref (buf : list Z) : Z := Z.lxor (fold_left (fun c b => crc_bits 8 (Z.lxor c b)) buf 0xFFFFFFFF) 0xFFFFFFFF.

Lemma crc_bits_S n c : crc_bits (S n) c = crc_bits n (crc_bit c).
Proof. done. Qed.

Lemma odd_land c : negb (Z.land c 1 =? 0) = Z.testbit c 0.
Proof. rewrite Z.bit0_odd. change 1 with (Z.ones 1). rewrite Z.land_ones by lia. change (2 ^ 1) with 2. rewrite Zmod_odd. by destruct (Z.odd c). Qed.

Lemma crc_bit_lxor x y : crc_bit (Z.lxor x y) = Z.lxor (crc_bit x) (crc_bit y).
Proof.
  unfold crc_bit, crc_bits. rewrite !odd_land, Z.lxor_spec, Z.shiftr_lxor.
  destruct (Z.testbit x 0), (Z.testbit y 0); cbn [xorb]; rewrite ?Z.lxor_assoc; [|f_equal..].
  - rewrite (Z.lxor_comm 0xEDB88320 (Z.lxor _ _)), Z.lxor_assoc, Z.lxor_nilpotent, Z.lxor_0_r. done.
  - apply Z.lxor_comm.
Qed.

Lemma crc_bits_lxor n x y : crc_bits n (Z.lxor x y) = Z.lxor (crc_bits n x) (crc_bits n y).
Proof. revert x y. induction n as [|n IH]; intros x y; [done|]. by rewrite !crc_bits_S, crc_bit_lxor, IH. Qed.

(** Zero bits are shifted out. *)
Lemma crc_bits_shift n x : (forall i, 0 <= i < Z.of_nat n -> Z.testbit x i = false) -> crc_bits n x = Z.shiftr x (Z.of_nat n).
Proof.
  revert x. induction n as [|n IH]; intros x Hx; [by rewrite Z.shiftr_0_r|]. rewrite crc_bits_S. unfold crc_bit, crc_bits. rewrite odd_land, (Hx 0) by lia.
  fold crc_bits. rewrite IH.
  - rewrite Z.shiftr_shiftr by lia. f_equal. lia.
  - intros i Hi. rewrite Z.shiftr_spec by lia. apply Hx. lia.
Qed.

(** A byte of the message by the table. *)
Lemma crc_byte x : crc_bits 8 x = Z.lxor (crc_bits 8 (Z.land x 0xFF)) (Z.shiftr x 8).
Proof.
  set (hi := Z.lxor x (Z.land x 0xFF)). assert (Hx : x = Z.lxor (Z.land x 0xFF) hi).
  { unfold hi. by rewrite (Z.lxor_comm x), <- Z.lxor_assoc, Z.lxor_nilpotent, Z.lxor_0_l. }
  assert (Hlow : forall i, 0 <= i < 8 -> Z.testbit hi i = false).
  { intros i Hi. unfold hi. rewrite Z.lxor_spec, Z.land_spec. change 255 with (Z.ones 8). rewrite Z.ones_spec_low by lia. rewrite andb_true_r. apply xorb_nilpotent. }
  rewrite Hx at 1. rewrite crc_bits_lxor, (crc_bits_shift 8 hi) by done. f_equal. change (Z.of_nat 8) with 8.
  apply Z.bits_inj'. intros i Hi. rewrite !Z.shiftr_spec by lia. unfold hi. rewrite Z.lxor_spec, Z.land_spec. change 255 with (Z.ones 8).
  rewrite Z.ones_spec_high by lia. by rewrite andb_false_r, xorb_false_r.
Qed.

Lemma table_lookup i : 0 <= i < 256 -> map (crc_bits 8) (seqZ 0 256) !! Z.to_nat i = Some (crc_bits 8 i).
Proof. intros Hi. rewrite list_lookup_fmap, lookup_seqZ_lt by lia. rewrite Z.add_0_l, Z2Nat.id by lia. reflexivity. Qed.

Definition byte (b : Z) : Prop := 0 <= b < 256.

Lemma crc_loop_ok buf c :
  Forall byte buf -> crc_loop (map (crc_bits 8) (seqZ 0 256)) buf (length buf) c = Some (fold_left (fun c b => crc_bits 8 (Z.lxor c b)) buf c).
Proof.
  intros Hb. revert c. induction Hb as [|b buf Hb _ IH]; intros c; [done|]. cbn [length crc_loop fold_left].
  assert (Hr : 0 <= Z.land (Z.lxor c b) 255 < 256) by (change 255 with (Z.ones 8); rewrite Z.land_ones by lia; by apply Z.mod_pos_bound).
  rewrite (table_lookup _ Hr). cbn [mbind option_bind]. rewrite IH. f_equal. f_equal. rewrite (crc_byte (Z.lxor c b)). f_equal.
  rewrite Z.shiftr_lxor. assert (Z.shiftr b 8 = 0) as -> by (unfold byte in Hb; rewrite Z.shiftr_div_pow2 by lia; apply Z.div_small; lia). by rewrite Z.lxor_0_r.
Qed.

(** The table is empty or right. *)
Definition crc_inv (s : crc_st) : Prop := crc32_init_done s = true -> crc32_table s = map (crc_bits 8) (seqZ 0 256).

Lemma crc32_ok s buf len :
  crc_inv s -> Forall byte buf -> (len <= length buf)%nat ->
  exists s', crc32_compute s buf len = Some (crc_ref (take len buf), s') /\ crc_inv s'.
Proof.
  intros Hinv Hb Hlen. unfold crc32_compute. assert (Hinit : crc32_table (crc32_init s) = map (crc_bits 8) (seqZ 0 256)).
  { unfold crc32_init. destruct (crc32_init_done s) eqn:Hd; [by apply Hinv|done]. }
  rewrite Hinit. assert (Hcut : forall t c, crc_loop t buf len c = crc_loop t (take len buf) (length (take len buf)) c).
  { intros t. rewrite length_take, Nat.min_l by done. clear -Hlen. revert len Hlen. induction buf as [|b buf IH]; intros [|len] Hlen c; simpl in *; [done|lia|done|].
    destruct (t !! _); [|done]. cbn [mbind option_bind]. apply IH. lia. }
  rewrite Hcut, crc_loop_ok by (by apply Forall_take). cbn [mbind option_bind]. eexists. split; [done|]. intros _. exact Hinit.
Qed.
