(* ===== verification/GptSpec.v ===== *)
(** * Specification of the partition table writer

    What a disk holds after [gpt_init_single_disk]: two headers with the check sums the
    standard asks for, two copies of the entries, and every other sector as it was. *)

From Stdlib Require Import ZArith Lia.
From stdpp Require Import base strings sets gmap list.
From S2P Require Import Prelude KString Block Gpt.

Local Open Scope Z_scope.

(** ** The interface of a disk

    [sector] is the contents and [inv] what the states of the device have in common; in range, a
    read returns the contents and a write of bytes replaces them. *)
Class Disk {W : Type} (inv : W -> Prop) (d : block_dev_t) (dev_read : block_dev_t -> W -> Z -> Z -> Z * list Z * W)
    (dev_write : block_dev_t -> W -> Z -> Z -> list Z -> Z * W) (sector : W -> Z -> list Z) : Prop := {
  disk_read w lba : inv w -> 0 <= lba < bd_sector_count d -> exists w', dev_read d w lba 1 = (0, sector w lba, w') /\ inv w' /\ forall i, sector w' i = sector w i;
  disk_write w lba data : inv w -> 0 <= lba < bd_sector_count d -> length data = 512%nat -> Forall byte data ->
    exists w', dev_write d w lba 1 data = (0, w') /\ inv w' /\ forall i, sector w' i = if decide (i = lba) then data else sector w i;
  disk_sector w lba : inv w -> 0 <= lba < bd_sector_count d -> length (sector w lba) = 512%nat;
}.

(** ** Validity of a table, as a reader checks it *)

Record valid_header (h arr : list Z) (my alt first last entries : Z) : Prop := {
  vh_len : length h = 512%nat;
  vh_sig : take 8 h = c_str "EFI PART";
  vh_size : le_val (slice 12 4 h) = 92;
  vh_crc : le_val (slice 16 4 h) = crc_ref (take 16 h ++ replicate 4 0 ++ slice 20 72 h);
  vh_my : le_val (slice 24 8 h) = my;
  vh_alt : le_val (slice 32 8 h) = alt;
  vh_first : le_val (slice 40 8 h) = first;
  vh_last : le_val (slice 48 8 h) = last;
  vh_entries : le_val (slice 72 8 h) = entries;
  vh_num : le_val (slice 80 4 h) = 128;
  vh_entry_size : le_val (slice 84 4 h) = 128;
  vh_arr : le_val (slice 88 4 h) = crc_ref arr;
}.

(** The first and last sector of entry [i]. *)
Definition part_first (arr : list Z) (i : nat) : Z := le_val (slice (i * 128 + 32) 8 arr).
Definition part_last (arr : list Z) (i : nat) : Z := le_val (slice (i * 128 + 40) 8 arr).

(** ** Check sums are 32 bits wide *)

Lemma lxor32 x y : 0 <= x < 2 ^ 32 -> 0 <= y < 2 ^ 32 -> 0 <= Z.lxor x y < 2 ^ 32.
Proof.
  intros Hx Hy. split; [apply Z.lxor_nonneg; lia|]. destruct (decide (Z.lxor x y = 0)) as [->|Hne]; [lia|]. pose proof (Z.lxor_nonneg x y) as Hn.
  apply Z.log2_lt_pow2; [lia|]. pose proof (Z.log2_lxor x y ltac:(lia) ltac:(lia)) as Hl.
  assert (forall z, 0 <= z < 2 ^ 32 -> Z.log2 z < 32) as Hz by (intros z Hz; destruct (decide (z = 0)) as [->|]; [simpl; lia|apply Z.log2_lt_pow2; lia]).
  pose proof (Hz x Hx). pose proof (Hz y Hy). lia.
Qed.

Lemma crc_bit_range c : 0 <= c < 2 ^ 32 -> 0 <= crc_bit c < 2 ^ 32.
Proof.
  intros Hc. unfold crc_bit, crc_bits. assert (Hs : 0 <= Z.shiftr c 1 < 2 ^ 31).
  { rewrite Z.shiftr_div_pow2 by lia. change (2 ^ 1) with 2. split; [apply Z.div_pos; lia|apply Z.div_lt_upper_bound; lia]. }
  destruct (negb _); [|lia]. apply lxor32; lia.
Qed.

Lemma crc_bits_range n c : 0 <= c < 2 ^ 32 -> 0 <= crc_bits n c < 2 ^ 32.
Proof. revert c. induction n as [|n IH]; intros c Hc; [done|]. rewrite crc_bits_S. by apply IH, crc_bit_range. Qed.

Lemma crc_ref_range buf : Forall byte buf -> 0 <= crc_ref buf < 2 ^ 32.
Proof.
  intros Hb. unfold crc_ref. apply lxor32; [|lia]. assert (H : forall c, 0 <= c < 2 ^ 32 -> 0 <= fold_left (fun c b => crc_bits 8 (Z.lxor c b)) buf c < 2 ^ 32).
  { induction Hb as [|b buf Hb _ IH]; intros c Hc; [done|]. cbn [fold_left]. apply IH, crc_bits_range, lxor32; unfold byte in *; lia. }
  apply H. lia.
Qed.

(** ** Bytes of the structures *)

Lemma le_bytes_byte n v : Forall byte (le_bytes n v).
Proof. revert v. induction n as [|n IH]; intros v; simpl; constructor; [|done]. unfold byte. by apply Z.mod_pos_bound. Qed.

Lemma guid_bytes d1 d2 d3 rest : Forall byte rest -> Forall byte (guid_from_bytes d1 d2 d3 rest).
Proof.
  intros H. unfold guid_from_bytes. apply Forall_app. split; [|done]. repeat (constructor; [unfold byte; pose proof (u8_range 0); apply u8_range|]). constructor.
Qed.

Definition all_bytes (l : list Z) : bool := forallb (fun b => (0 <=? b) && (b <? 256)) l.

Lemma all_bytes_ok l : all_bytes l = true -> Forall byte l.
Proof. unfold all_bytes. rewrite forallb_forall. intros H. apply Forall_forall. intros b Hb. apply list_elem_of_In in Hb. specialize (H b Hb). unfold byte. lia. Qed.

Lemma signed_bytes my alt last entries crc c : Forall byte (header_bytes (set_crc (blank_header my alt last entries crc) c)).
Proof.
  unfold header_bytes, blank_header, set_crc. cbn [gh_signature gh_revision gh_header_size gh_header_crc32 gh_reserved gh_current_lba gh_backup_lba gh_first_usable_lba gh_last_usable_lba gh_disk_guid gh_part_entry_lba gh_num_parts gh_part_entry_size gh_part_array_crc32 gh_pad].
  rewrite !Forall_app. split_and!; try apply le_bytes_byte; by apply all_bytes_ok.
Qed.

Lemma mbr_ok total : Forall byte (mbr_bytes (protective_mbr total)).
Proof.
  unfold mbr_bytes, protective_mbr. cbn [mb_boot_code mb_disk_id mb_reserved mb_part mb_sig map concat]. unfold mbr_part_bytes. cbn [mp_status mp_chs_first mp_type mp_chs_last mp_lba_first mp_lba_count zero_mbr_part].
  rewrite !Forall_app. split_and!; try apply le_bytes_byte; by apply all_bytes_ok.
Qed.

Lemma blank_header_bytes my alt last entries crc :
  length (header_bytes (blank_header my alt last entries crc)) = 512%nat /\ Forall byte (header_bytes (blank_header my alt last entries crc)).
Proof. split; [done|]. apply (signed_bytes my alt last entries crc 0). Qed.

(** A signed header is one a reader accepts. *)
Lemma sign_header_ok s my alt last entries arr :
  crc_inv s -> Forall byte arr -> 0 <= my < 2 ^ 64 -> 0 <= alt < 2 ^ 64 -> 0 <= last < 2 ^ 64 -> 0 <= entries < 2 ^ 64 ->
  exists h s', sign_header s (blank_header my alt last entries (crc_ref arr)) = Some (h, s') /\ crc_inv s' /\
    valid_header (header_bytes h) arr my alt FIRST_USABLE last entries /\ Forall byte (header_bytes h).
Proof.
  intros Hs Harr Hmy Halt Hlast Hent. set (b := blank_header my alt last entries (crc_ref arr)).
  destruct (blank_header_bytes my alt last entries (crc_ref arr)) as [Hl Hb]. fold b in Hl, Hb.
  destruct (crc32_ok s (header_bytes b) 92 Hs Hb) as (s' & Hc & Hs'); [rewrite Hl; lia|].
  unfold sign_header. change (Z.to_nat (gh_header_size b)) with 92%nat. rewrite Hc. cbn [mbind option_bind].
  assert (Hr : 0 <= crc_ref (take 92 (header_bytes b)) < 2 ^ 32) by (apply crc_ref_range; by apply Forall_take).
  pose proof (crc_ref_range arr Harr) as Har. set (c := crc_ref (take 92 (header_bytes b))) in *.
  eexists _, s'. split; [done|]. split; [done|]. split; [|apply signed_bytes].
  assert (Hf : forall n v, 0 <= v < 256 ^ Z.of_nat n -> le_val (le_bytes n v) = v) by (intros; by apply le_val_bytes).
  constructor; try reflexivity.
  - transitivity (le_val (le_bytes 4 c)); [reflexivity|]. apply Hf. exact Hr.
  - transitivity (le_val (le_bytes 8 my)); [reflexivity|]. by apply Hf.
  - transitivity (le_val (le_bytes 8 alt)); [reflexivity|]. by apply Hf.
  - transitivity (le_val (le_bytes 8 last)); [reflexivity|]. by apply Hf.
  - transitivity (le_val (le_bytes 8 entries)); [reflexivity|]. by apply Hf.
  - transitivity (le_val (le_bytes 4 (crc_ref arr))); [reflexivity|]. by apply Hf.
Qed.

(** ** The entries *)

Definition esp_last : Z := FIRST_USABLE + ESP_SIZE_SECTORS - 1.

Definition esp_name : list Z := Eval vm_compute in default [] (utf8_to_utf16le (c_str "ESP" ++ [0]) (gp_name zero_part) 36).
Definition root_name : list Z := Eval vm_compute in default [] (utf8_to_utf16le (c_str "ASD root" ++ [0]) (gp_name zero_part) 36).

Definition parts (total : Z) : list gpt_part_t :=
  mk_gpt_part esp_type esp_type FIRST_USABLE esp_last 0 esp_name :: mk_gpt_part root_type root_type (esp_last + 1) (total - 34) 0 root_name :: replicate 126 zero_part.

Lemma gpt_parts_ok total : 34 <= total < 2 ^ 64 -> gpt_parts total = Some (parts total).
Proof.
  intros Ht. unfold gpt_parts, parts. rewrite (u64_small (total - 34)) by lia.
  change (utf8_to_utf16le (c_str "ESP" ++ [0]) (gp_name zero_part) 36) with (Some esp_name). change (utf8_to_utf16le (c_str "ASD root" ++ [0]) (gp_name zero_part) 36) with (Some root_name).
  reflexivity.
Qed.

Lemma part_bytes_ok p :
  length (gp_type_guid p) = 16%nat -> length (gp_part_guid p) = 16%nat -> length (gp_name p) = 36%nat -> Forall byte (gp_type_guid p) -> Forall byte (gp_part_guid p) ->
  length (part_bytes p) = 128%nat /\ Forall byte (part_bytes p).
Proof.
  intros H1 H2 H3 B1 B2. unfold part_bytes. assert (Hn : forall l, length (concat (map (le_bytes 2) l)) = (2 * length l)%nat /\ Forall byte (concat (map (le_bytes 2) l))).
  { induction l as [|x l [IH1 IH2]]; [done|]. cbn [map concat]. rewrite length_app, length_le_bytes, IH1. split; [simpl; lia|]. apply Forall_app. split; [apply le_bytes_byte|done]. }
  destruct (Hn (gp_name p)) as [L B]. rewrite !length_app, !length_le_bytes, L, H1, H2, H3. split; [done|].
  rewrite !Forall_app. split_and!; done || apply le_bytes_byte.
Qed.

Lemma parts_bytes_length ps : Forall (fun p => length (part_bytes p) = 128%nat) ps -> length (parts_bytes ps) = (128 * length ps)%nat.
Proof. intros H. unfold parts_bytes. induction H as [|p ps Hp _ IH]; [done|]. cbn [map concat length]. rewrite length_app, Hp, IH. lia. Qed.

Lemma parts_ok total : length (parts_bytes (parts total)) = (32 * 512)%nat /\ Forall byte (parts_bytes (parts total)).
Proof.
  assert (Hall : Forall (fun p => length (part_bytes p) = 128%nat /\ Forall byte (part_bytes p)) (parts total)).
  { unfold parts. constructor; [apply part_bytes_ok; try done; by apply all_bytes_ok|]. constructor; [apply part_bytes_ok; try done; by apply all_bytes_ok|].
    apply Forall_replicate. apply part_bytes_ok; try done; by apply all_bytes_ok. }
  split.
  - rewrite parts_bytes_length; [done|]. eapply Forall_impl; [exact Hall|]. by intros p [? _].
  - unfold parts_bytes. apply Forall_concat, Forall_fmap. eapply Forall_impl; [exact Hall|]. by intros p [_ ?].
Qed.

(** The two partitions a reader finds. *)
Lemma entries_ok total :
  34 <= total < 2 ^ 64 -> let arr := parts_bytes (parts total) in
  part_first arr 0 = FIRST_USABLE /\ part_last arr 0 = esp_last /\ part_first arr 1 = esp_last + 1 /\ part_last arr 1 = total - 34.
Proof.
  intros Ht arr. unfold part_first, part_last, arr.
  assert (Hs : forall k n, (k + n <= 256)%nat -> slice k n (parts_bytes (parts total)) = slice k n (part_bytes (mk_gpt_part esp_type esp_type FIRST_USABLE esp_last 0 esp_name) ++
      part_bytes (mk_gpt_part root_type root_type (esp_last + 1) (total - 34) 0 root_name))).
  { intros k n Hk. unfold parts_bytes, parts. cbn [map concat]. rewrite (app_assoc (part_bytes _)). unfold slice.
    destruct (part_bytes_ok (mk_gpt_part esp_type esp_type FIRST_USABLE esp_last 0 esp_name)) as [L1 _]; try done; try by apply all_bytes_ok.
    destruct (part_bytes_ok (mk_gpt_part root_type root_type (esp_last + 1) (total - 34) 0 root_name)) as [L2 _]; try done; try by apply all_bytes_ok.
    rewrite drop_app_le by (rewrite length_app, L1, L2; lia). rewrite take_app_le by (rewrite length_drop, length_app, L1, L2; lia). done. }
  rewrite !Hs by lia. split; [reflexivity|]. split; [reflexivity|]. split; [reflexivity|].
  transitivity (le_val (le_bytes 8 (total - 34))); [reflexivity|]. apply le_val_bytes. change (256 ^ Z.of_nat 8) with (2 ^ 64). lia.
Qed.

(** ** Writing *)

Section disk.
Context {W : Type} (inv : W -> Prop) (d : block_dev_t) dev_read dev_write (sector : W -> Z -> list Z) `{HD : !Disk inv d dev_read dev_write sector}.

Lemma write_entries_ok w lba pb i n :
  inv w -> length pb = (32 * 512)%nat -> Forall byte pb -> (i + n = 32)%nat -> 0 <= lba -> lba + 32 <= bd_sector_count d -> bd_sector_count d <= 2 ^ 64 ->
  exists w', write_entries dev_write d w lba pb i n = (true, w') /\ inv w' /\
    forall k, sector w' k = if decide (lba + Z.of_nat i <= k < lba + 32) then slice (Z.to_nat (k - lba) * 512) 512 pb else sector w k.
Proof.
  intros Hw0 Hpb Hby. revert w i Hw0. induction n as [|n IH]; intros w i Hw0 Hi H0 H1 Hmax; cbn [write_entries].
  { exists w. split; [done|]. split; [done|]. intros k. rewrite decide_False by lia. done. }
  destruct (disk_write w (lba + Z.of_nat i) (slice (i * 512) 512 pb)) as (w1 & Hw & Hi1 & Hs1); [done|lia|apply length_slice; lia|by apply Forall_take, Forall_drop|].
  rewrite u64_small by lia. rewrite Hw. change (negb (0 =? 0)) with false. cbv iota.
  destruct (IH w1 (S i)) as (w2 & Hw2 & Hi2 & Hs2); [done|lia|lia|lia|lia|]. exists w2. split; [done|]. split; [done|]. intros k. rewrite Hs2, Hs1.
  destruct (decide (k = lba + Z.of_nat i)) as [->|Hne].
  - rewrite decide_False by lia. rewrite decide_True by lia. do 2 f_equal. lia.
  - destruct (decide (lba + Z.of_nat (S i) <= k < lba + 32)); [rewrite decide_True by lia|rewrite decide_False by lia]; done.
Qed.

(** The contents [new] of a disk that held [old] and got a table. *)
Record laid_out (total : Z) (old new : Z -> list Z) : Prop := {
  lo_mbr : new 0 = mbr_bytes (protective_mbr total);
  lo_primary : valid_header (new 1) (parts_bytes (parts total)) 1 (total - 1) FIRST_USABLE (total - 34) 2;
  lo_backup : valid_header (new (total - 1)) (parts_bytes (parts total)) (total - 1) 1 FIRST_USABLE (total - 34) (total - 33);
  lo_entries : forall i, (i < 32)%nat -> new (2 + Z.of_nat i) = slice (i * 512) 512 (parts_bytes (parts total)) /\
    new (total - 33 + Z.of_nat i) = slice (i * 512) 512 (parts_bytes (parts total));
  lo_rest : forall k, ~ 0 <= k < 34 -> ~ total - 33 <= k < total -> new k = old k;
}.

Lemma valid_length h arr my alt first last entries : valid_header h arr my alt first last entries -> length h = 512%nat.
Proof. by intros []. Qed.

Lemma write_headers_ok w pb ph bh :
  inv w -> MIN_SECTORS <= bd_sector_count d < 2 ^ 64 -> length pb = (32 * 512)%nat -> Forall byte pb -> Forall byte (header_bytes ph) -> Forall byte (header_bytes bh) -> length (header_bytes ph) = 512%nat -> length (header_bytes bh) = 512%nat ->
  let total := bd_sector_count d in
  exists w', write_headers dev_write d w pb ph bh = (0, w') /\ inv w' /\ sector w' 0 = sector w 0 /\ sector w' 1 = header_bytes ph /\ sector w' (total - 1) = header_bytes bh /\
    (forall i, (i < 32)%nat -> sector w' (2 + Z.of_nat i) = slice (i * 512) 512 pb /\ sector w' (total - 33 + Z.of_nat i) = slice (i * 512) 512 pb) /\
    (forall k, ~ 0 <= k < 34 -> ~ total - 33 <= k < total -> sector w' k = sector w k).
Proof.
  intros Hw0 Ht Hpb Bpb Bph Bbh Hph Hbh total. unfold MIN_SECTORS in Ht. change ESP_SIZE_SECTORS with 1048576 in Ht. unfold write_headers. fold total. fold total in Ht.
  destruct (write_entries_ok w 2 pb 0 32) as (w1 & -> & I1 & S1); [done|done|done|lia|lia|fold total; lia|fold total; lia|]. cbn [negb].
  destruct (disk_write w1 1 (header_bytes ph)) as (w2 & -> & I2 & S2); [done|fold total; lia|done|done|]. change (negb (0 =? 0)) with false. cbv iota.
  rewrite !u64_small by lia.
  destruct (write_entries_ok w2 (total - 33) pb 0 32) as (w3 & -> & I3 & S3); [done|done|done|lia|lia|fold total; lia|fold total; lia|]. cbn [negb].
  destruct (disk_write w3 (total - 1) (header_bytes bh)) as (w4 & -> & I4 & S4); [done|fold total; lia|done|done|]. change (negb (0 =? 0)) with false. cbv iota.
  exists w4. split; [done|]. split; [done|]. split_and!.
  - rewrite S4, decide_False, S3, decide_False, S2, decide_False, S1, decide_False by lia. done.
  - rewrite S4, decide_False, S3, decide_False, S2, decide_True by lia. done.
  - rewrite S4, decide_True by lia. done.
  - intros i Hi. split.
    + rewrite S4, decide_False, S3, decide_False, S2, decide_False, S1, decide_True by lia. do 2 f_equal. lia.
    + rewrite S4, decide_False, S3, decide_True by lia. do 2 f_equal. lia.
  - intros k Hk Hk'. rewrite S4, decide_False, S3, decide_False, S2, decide_False, S1, decide_False by lia. done.
Qed.

Lemma write_table_ok w cs :
  inv w -> MIN_SECTORS <= bd_sector_count d < 2 ^ 64 -> crc_inv cs ->
  exists w' cs', write_table dev_write d w cs = Some (0, w', cs') /\ crc_inv cs' /\ inv w' /\ laid_out (bd_sector_count d) (sector w) (sector w').
Proof.
  intros Hw0 Ht Hcs. unfold write_table. set (total := bd_sector_count d) in *. pose proof Ht as Ht'. unfold MIN_SECTORS in Ht'. change ESP_SIZE_SECTORS with 1048576 in Ht'.
  destruct (disk_write w 0 (mbr_bytes (protective_mbr total))) as (w1 & -> & I1 & S1); [done|fold total; lia|reflexivity|apply mbr_ok|]. change (negb (0 =? 0)) with false. cbv iota.
  rewrite gpt_parts_ok by lia. cbn [mbind option_bind]. destruct (parts_ok total) as [Hpl Hpb].
  destruct (crc32_ok cs (parts_bytes (parts total)) (128 * 128) Hcs Hpb) as (cs1 & Hc & Hcs1); [rewrite Hpl; lia|]. rewrite Hc. cbn [mbind option_bind].
  rewrite take_ge by (rewrite Hpl; lia). rewrite !u64_small by lia.
  destruct (sign_header_ok cs1 1 (total - 1) (total - 34) 2 (parts_bytes (parts total)) Hcs1 Hpb) as (ph & cs2 & -> & Hcs2 & Vp & Bp); [lia|lia|lia|lia|]. cbn [mbind option_bind].
  destruct (sign_header_ok cs2 (total - 1) 1 (total - 34) (total - 33) (parts_bytes (parts total)) Hcs2 Hpb) as (bh & cs3 & -> & Hcs3 & Vb & Bb); [lia|lia|lia|lia|]. cbn [mbind option_bind].
  destruct (write_headers_ok w1 (parts_bytes (parts total)) ph bh I1 Ht Hpl Hpb Bp Bb (valid_length _ _ _ _ _ _ _ Vp) (valid_length _ _ _ _ _ _ _ Vb)) as (w2 & -> & I2 & K0 & K1 & K2 & K3 & K4).
  fold total in K2, K3, K4. do 2 eexists. split; [done|]. split; [done|]. split; [done|]. constructor.
  - by rewrite K0, S1, decide_True.
  - by rewrite K1.
  - by rewrite K2.
  - exact K3.
  - intros k Hk Hk'. rewrite K4, S1, decide_False by lia. done.
Qed.

(** The boot signature of a sector. *)
Definition boot_sig (sec : list Z) : Z := Z.lor (default 0 (sec !! 510%nat)) (Z.shiftl (default 0 (sec !! 511%nat)) 8).

(** What [gpt_init_single_disk] does with a usable device after reading sector 0. *)
Lemma init_usable w cs :
  inv w -> bd_read d <> 0 -> bd_write d <> 0 -> bd_sector_size d = 512 -> MIN_SECTORS <= bd_sector_count d ->
  exists w1 lo hi, inv w1 /\ (forall i, sector w1 i = sector w i) /\ sector w 0 !! 510%nat = Some lo /\ sector w 0 !! 511%nat = Some hi /\
    gpt_init_single_disk dev_read dev_write (Some d) w cs =
      '(known, w) ← recognised dev_read d (sector w 0) w1; if (known : bool) then Some (0, w, cs) else write_table dev_write d w cs.
Proof.
  intros Hw0 Hr Hw Hs Hn. assert (H0 : 0 <= 0 < bd_sector_count d) by (unfold MIN_SECTORS in Hn; change ESP_SIZE_SECTORS with 1048576 in Hn; lia).
  destruct (disk_read w 0 Hw0 H0) as (w1 & Hrd & I1 & S1). pose proof (disk_sector w 0 Hw0 H0) as Hl.
  destruct (lookup_lt_is_Some_2 (sector w 0) 510 ltac:(lia)) as [lo Hlo]. destruct (lookup_lt_is_Some_2 (sector w 0) 511 ltac:(lia)) as [hi Hhi].
  exists w1, lo, hi. split; [done|]. split; [done|]. split; [done|]. split; [done|]. unfold gpt_init_single_disk.
  rewrite (proj2 (Z.eqb_neq _ _) Hw), (proj2 (Z.eqb_neq _ _) Hr), Hs, (proj2 (Z.ltb_ge _ _) Hn). rewrite Hrd. done.
Qed.

Lemma init_blank w cs :
  inv w -> bd_read d <> 0 -> bd_write d <> 0 -> bd_sector_size d = 512 -> MIN_SECTORS <= bd_sector_count d < 2 ^ 64 -> crc_inv cs -> boot_sig (sector w 0) <> 0xAA55 ->
  exists w' cs', gpt_init_single_disk dev_read dev_write (Some d) w cs = Some (0, w', cs') /\ crc_inv cs' /\ inv w' /\ laid_out (bd_sector_count d) (sector w) (sector w').
Proof.
  intros Hw0 Hr Hw Hs Hn Hcs Hsig. destruct (init_usable w cs Hw0 Hr Hw Hs (proj1 Hn)) as (w1 & lo & hi & I1 & S1 & Hlo & Hhi & ->).
  unfold recognised, boot_sig in *. rewrite Hlo, Hhi in *. cbn [mbind option_bind default id] in *. rewrite (proj2 (Z.eqb_neq _ _) Hsig). cbn [negb mbind option_bind].
  destruct (write_table_ok w1 cs I1 Hn Hcs) as (w2 & cs2 & -> & Hcs2 & I2 & Hl). do 2 eexists. split; [done|]. split; [done|]. split; [done|]. destruct Hl as [L1 L2 L3 L4 L5].
  constructor; [done|done|done|done|]. intros k Hk Hk'. by rewrite L5, S1.
Qed.

Lemma init_known w cs :
  inv w -> bd_read d <> 0 -> bd_write d <> 0 -> bd_sector_size d = 512 -> MIN_SECTORS <= bd_sector_count d -> boot_sig (sector w 0) = 0xAA55 ->
  disk_sector0_is_fat (Some (sector w 0)) = 1 \/ take 8 (sector w 1) = c_str "EFI PART" ->
  exists w', gpt_init_single_disk dev_read dev_write (Some d) w cs = Some (0, w', cs) /\ forall i, sector w' i = sector w i.
Proof.
  intros Hw0 Hr Hw Hs Hn Hsig Hknown. destruct (init_usable w cs Hw0 Hr Hw Hs Hn) as (w1 & lo & hi & I1 & S1 & Hlo & Hhi & ->).
  unfold recognised, boot_sig in *. rewrite Hlo, Hhi in *. cbn [mbind option_bind default id] in *. rewrite Hsig. change (negb (43605 =? 43605)) with false. cbv iota.
  destruct (Z.eqb_spec (disk_sector0_is_fat (Some (sector w 0))) 0) as [Hz|Hz]; cbn [negb]; [|by exists w1].
  destruct Hknown as [Hf|Hefi]; [congruence|]. unfold MIN_SECTORS in Hn. change ESP_SIZE_SECTORS with 1048576 in Hn.
  assert (H1 : 0 <= 1 < bd_sector_count d) by lia. destruct (disk_read w1 1 I1 H1) as (w2 & -> & I2 & S2). change (negb (0 =? 0)) with false. cbv iota.
  rewrite S1, <- (take_drop 8 (sector w 1)), Hefi. change (memcmp (c_str "EFI PART" ++ drop 8 (sector w 1)) (c_str "EFI PART") 8) with (Some 0). cbn [mbind option_bind].
  unfold MIN_SECTORS. rewrite (proj2 (Z.leb_le _ _)) by (change ESP_SIZE_SECTORS with 1048576; lia). cbn [andb Z.eqb mbind option_bind].
  exists w2. split; [done|]. intros i. by rewrite S2, S1.
Qed.

End disk.

(** ** A disk in memory *)

Definition mem_sector (w : gmap Z (list Z)) (lba : Z) : list Z :=
  match w !! lba with Some data => if decide (length data = 512%nat) then data else replicate 512 0 | None => replicate 512 0 end.

Definition mem_read (d : block_dev_t) (w : gmap Z (list Z)) (lba count : Z) : Z * list Z * gmap Z (list Z) :=
  if decide (0 <= lba /\ lba + count <= bd_sector_count d /\ count = 1) then (0, mem_sector w lba, w) else (-1, replicate 512 0, w).

Definition mem_write (d : block_dev_t) (w : gmap Z (list Z)) (lba count : Z) (data : list Z) : Z * gmap Z (list Z) :=
  if decide (0 <= lba /\ lba + count <= bd_sector_count d /\ count = 1) then (0, <[lba := data]> w) else (-1, w).

#[global] Instance mem_disk d : Disk (fun _ => True) d mem_read mem_write mem_sector.
Proof.
  split.
  - intros w lba _ H. exists w. unfold mem_read. by rewrite decide_True by lia.
  - intros w lba data _ H Hl _. exists (<[lba := data]> w). unfold mem_write. rewrite decide_True by lia. split; [done|]. split; [done|]. intros i. unfold mem_sector.
    destruct (decide (i = lba)) as [->|Hne]; [rewrite lookup_insert_eq; by rewrite decide_True|by rewrite lookup_insert_ne].
  - intros w lba _ _. unfold mem_sector. destruct (w !! lba); [|done]. by destruct (decide _).
Qed.

(** ** Flaws of the code *)

(** The size test leaves out the 2048 sectors before the first partition: on the smallest disk it
    lets through, the first partition ends behind the disk and the second one before it starts. *)
Lemma gpt_small_disk : let arr := parts_bytes (parts MIN_SECTORS) in MIN_SECTORS <= part_last arr 0 /\ part_last arr 1 < part_first arr 1.
Proof. destruct (entries_ok MIN_SECTORS) as (_ & H2 & H3 & H4); [vm_compute; split; [discriminate|done]|]. cbv zeta. rewrite H2, H3, H4. by vm_compute. Qed.

(** The standard stores the first three fields of a GUID least significant byte first. *)
Lemma esp_type_reversed : esp_type <> le_bytes 4 0xC12A7328 ++ le_bytes 2 0xF81F ++ le_bytes 2 0x11D2 ++ [0xBA; 0x4B; 0x00; 0xA0; 0xC9; 0x3E; 0xC9; 0x3B].
Proof. vm_compute. discriminate. Qed.

(** ** Properties *)

(** the check sum computed with the table is the one computed bit by bit. *)
Theorem crc32_compute_ok s buf len :
  crc_inv s -> Forall byte buf -> (len <= length buf)%nat ->
  exists s', crc32_compute s buf len = Some (crc_ref (take len buf), s') /\ crc_inv s'.
Proof. apply crc32_ok. Qed.

(** C21: on a disk without a boot signature [gpt_init_single_disk] succeeds and lays out a valid table:
    both headers carry the check sums of themselves and of the entries and point at each other, both
    copies of the entries are complete, and no other sector changes.  If the disk has room for the
    first partition, both partitions lie in the usable sectors, one behind the other. *)
Theorem gpt_init_single_disk_ok {W} inv d dev_read dev_write (sector : W -> Z -> list Z) w cs :
  Disk inv d dev_read dev_write sector -> inv w -> bd_read d <> 0 -> bd_write d <> 0 -> bd_sector_size d = 512 ->
  MIN_SECTORS <= bd_sector_count d < 2 ^ 64 -> crc_inv cs -> boot_sig (sector w 0) <> 0xAA55 ->
  let total := bd_sector_count d in let arr := parts_bytes (parts total) in
  exists w' cs', gpt_init_single_disk dev_read dev_write (Some d) w cs = Some (0, w', cs') /\ laid_out total (sector w) (sector w') /\
    (FIRST_USABLE + ESP_SIZE_SECTORS + 34 <= total ->
      FIRST_USABLE <= part_first arr 0 <= part_last arr 0 /\ part_last arr 0 < part_first arr 1 <= part_last arr 1 /\ part_last arr 1 <= total - 34).
Proof.
  intros HD Hw0 Hr Hw Hs Hn Hcs Hsig total arr. destruct (init_blank inv d dev_read dev_write sector w cs Hw0 Hr Hw Hs Hn Hcs Hsig) as (w' & cs' & He & _ & _ & Hl).
  exists w', cs'. split; [done|]. split; [done|]. intros Hroom. pose proof Hn as Hn'. unfold MIN_SECTORS in Hn'. change ESP_SIZE_SECTORS with 1048576 in *. fold total in Hn'.
  destruct (entries_ok total) as (E1 & E2 & E3 & E4); [lia|]. fold arr in E1, E2, E3, E4. rewrite E1, E2, E3, E4. change esp_last with 1050623. change FIRST_USABLE with 2048 in *. lia.
Qed.

(** [gpt_init_single_disk] leaves a disk with a FAT file system or a partition table as it is. *)
Theorem gpt_init_keeps_known {W} inv d dev_read dev_write (sector : W -> Z -> list Z) w cs :
  Disk inv d dev_read dev_write sector -> inv w -> bd_read d <> 0 -> bd_write d <> 0 -> bd_sector_size d = 512 -> MIN_SECTORS <= bd_sector_count d ->
  boot_sig (sector w 0) = 0xAA55 -> disk_sector0_is_fat (Some (sector w 0)) = 1 \/ take 8 (sector w 1) = c_str "EFI PART" ->
  exists w', gpt_init_single_disk dev_read dev_write (Some d) w cs = Some (0, w', cs) /\ forall i, sector w' i = sector w i.
Proof. intros HD. by apply (init_known inv). Qed.

Definition demo_dev : block_dev_t := mk_block_dev (c_str "vda" ++ replicate 29 0) 512 4194304 0 1 2.

Definition demo_crc : crc_st := mk_crc (replicate 256 0) false.

Lemma crc32_compute_ok_witness : exists s', crc32_compute demo_crc (c_str "123456789") 9 = Some (0xCBF43926, s').
Proof.
  destruct (crc32_compute_ok demo_crc (c_str "123456789") 9) as (s' & H & _); [discriminate|by apply all_bytes_ok|simpl; lia|].
  exists s'. rewrite H. vm_compute. reflexivity.
Defined.

Lemma gpt_init_single_disk_ok_witness : exists w' cs', gpt_init_single_disk mem_read mem_write (Some demo_dev) ∅ demo_crc = Some (0, w', cs') /\ laid_out 4194304 (mem_sector ∅) (mem_sector w').
Proof.
  destruct (gpt_init_single_disk_ok (fun _ => True) demo_dev mem_read mem_write mem_sector ∅ demo_crc) as (w' & cs' & H1 & H2 & _);
    [apply mem_disk|exact I|discriminate|discriminate|reflexivity|vm_compute; split; [discriminate|reflexivity]|discriminate|discriminate|].
  exists w', cs'. split; [exact H1|exact H2].
Defined.

(** A disk whose first sector is a FAT boot sector. *)
Definition demo_fat : gmap Z (list Z) := {[ 0 := replicate 82 0 ++ c_str "FAT32" ++ replicate 423 0 ++ [0x55; 0xAA] ]}.

Lemma gpt_init_keeps_known_witness : exists w', gpt_init_single_disk mem_read mem_write (Some demo_dev) demo_fat demo_crc = Some (0, w', demo_crc).
Proof.
  destruct (gpt_init_keeps_known (fun _ => True) demo_dev mem_read mem_write mem_sector demo_fat demo_crc) as (w' & H & _);
    [apply mem_disk|exact I|discriminate|discriminate|reflexivity|vm_compute; discriminate|reflexivity|left; reflexivity|].
  exists w'. exact H.
Defined.
