(* ===== verification/UserMem.v ===== *)
(** * Access to user memory (src/kernel/arch/syscall.c, lines 130-274 and 474-497; arch/elf.c, lines 146-171)

    The kernel reads and writes the memory of a process through the direct map: it
    translates each page with [amm_virt_to_kva], after bringing it in with
    [amm_page_fault], and copies bytes at the physical address.  Physical memory is the
    map of 64-bit words that the page tables live in; a byte is a part of its word, and
    an access to a word that was never written is [None].

    [cur] is the map of the current process, [None] when there is no current process or
    it has no map.  A kernel buffer is the list of its bytes; every caller passes the
    address of an array, so it is never null. *)

From Stdlib Require Import ZArith Lia.
From stdpp Require Import base gmap list.
From S2P Require Import Prelude Phys PhysSpec PhysIface VRegion PageTable VfsPath.

Local Open Scope Z_scope.

(** The first address behind user space. *)
Definition USER_LIMIT : Z := 0x0000800000000000.

(** Byte [k] of a word, and the word with that byte replaced. *)
Definition byte_of (w k : Z) : Z := w / 2 ^ (8 * k) mod 256.
Definition set_byte (w k b : Z) : Z := w + (b - byte_of w k) * 2 ^ (8 * k).

Section UserMem.
Context `{BlockAlloc St}.

Definition ld8 (s : St) (a : Z) : option Z :=
  w ← ba_mem s !! (8 * (a / 8)); Some (byte_of w (a mod 8)).

Definition st8 (s : St) (a b : Z) : option St :=
  w ← ba_mem s !! (8 * (a / 8)); Some (wr s (8 * (a / 8)) (set_byte w (a mod 8) b)).

Fixpoint ld_bytes (s : St) (a : Z) (n : nat) : option (list Z) :=
  match n with
  | O => Some []
  | S n' => b ← ld8 s a; bs ← ld_bytes s (a + 1) n'; Some (b :: bs)
  end.

Fixpoint st_bytes (s : St) (a : Z) (bs : list Z) : option St :=
  match bs with
  | [] => Some s
  | b :: bs' => s ← st8 s a b; st_bytes s (a + 1) bs'
  end.

(** [va & ~(PAGE_SIZE - 1)] and [va & (PAGE_SIZE - 1)] *)
Definition page_base (va : Z) : Z := Z.land va (u64 (Z.lnot (PAGE_SIZE - 1))).
Definition page_off (va : Z) : Z := Z.land va (PAGE_SIZE - 1).

Section current.
Context (p : rpool) (cur : option vmap_t).

Definition user_access_page (s : St) (va : Z) (for_write : bool) : option (Z * St) :=
  match cur with
  | None => Some (-1, s)
  | Some m =>
      k ← amm_virt_to_kva s cur (page_base va);
      match k with
      | Some _ => Some (0, s)
      | None => amm_page_fault s p m va for_write
      end
  end.

(** [while (done < n)] of [copy_from_user]; a turn copies at least one byte. *)
Fixpoint from_user_loop (fuel : nat) (s : St) (dst : list Z) (src done n : Z) : option (Z * list Z * St) :=
  if done <? n then
    match fuel with
    | O => None
    | S fuel' =>
        let va := u64 (src + done) in
        let off := page_off va in
        let chunk := Z.min (PAGE_SIZE - off) (n - done) in
        '(r, s) ← user_access_page s va false;
        if negb (r =? 0) then Some (-1, dst, s)
        else
          k ← amm_virt_to_kva s cur (page_base va);
          match k with
          | None => Some (-1, dst, s)
          | Some kva =>
              bs ← ld_bytes s (kva + off) (Z.to_nat chunk);
              dst ← (if decide (Z.to_nat done + length bs <= length dst)%nat
                     then Some (list_inserts (Z.to_nat done) bs dst) else None);
              from_user_loop fuel' s dst src (done + chunk) n
          end
    end
  else Some (0, dst, s).

Definition copy_from_user (s : St) (kdst : list Z) (usrc n : Z) : option (Z * list Z * St) :=
  if (usrc =? 0) || (n =? 0) then Some (0, kdst, s)
  else match cur with None => Some (-1, kdst, s) | Some _ => from_user_loop (Z.to_nat n) s kdst usrc 0 n end.

Fixpoint to_user_loop (fuel : nat) (s : St) (dst : Z) (src : list Z) (done n : Z) : option (Z * St) :=
  if done <? n then
    match fuel with
    | O => None
    | S fuel' =>
        let va := u64 (dst + done) in
        let off := page_off va in
        let chunk := Z.min (PAGE_SIZE - off) (n - done) in
        '(r, s) ← user_access_page s va true;
        if negb (r =? 0) then Some (-1, s)
        else
          k ← amm_virt_to_kva s cur (page_base va);
          match k with
          | None => Some (-1, s)
          | Some kva =>
              bs ← (if decide (Z.to_nat done + Z.to_nat chunk <= length src)%nat
                    then Some (slice (Z.to_nat done) (Z.to_nat chunk) src) else None);
              s ← st_bytes s (kva + off) bs;
              to_user_loop fuel' s dst src (done + chunk) n
          end
    end
  else Some (0, s).

Definition copy_to_user (s : St) (udst : Z) (ksrc : list Z) (n : Z) : option (Z * St) :=
  if (udst =? 0) || (n =? 0) then Some (0, s)
  else match cur with None => Some (-1, s) | Some _ => to_user_loop (Z.to_nat n) s udst ksrc 0 n end.

Definition validate_user_ptr (addr size : Z) : bool :=
  if addr =? 0 then false
  else if addr <? 0x1000 then false
  else if USER_LIMIT <=? addr then false
  else if (0 <? size) && (u64 (addr + size) <? addr) then false
  else negb ((0 <? size) && (USER_LIMIT <? u64 (addr + size))).

(** [for (i = 0; i < lim; i++)] of [copy_user_cstr]; [n] turns are left. *)
Fixpoint cstr_loop (s : St) (kbuf : list Z) (uptr i : Z) (n : nat) : option (Z * list Z * St) :=
  match n with
  | O => kbuf ← put kbuf (Z.to_nat i) 0; Some (-1, kbuf, s)
  | S n' =>
      '(r, cb, s) ← copy_from_user s [0] (u64 (uptr + i)) 1;
      if negb (r =? 0) then Some (-1, kbuf, s)
      else
        c ← cb !! 0%nat;
        kbuf ← put kbuf (Z.to_nat i) c;
        if c =? 0 then Some (0, kbuf, s) else cstr_loop s kbuf uptr (i + 1) n'
  end.

(** [kcap] is the length of [kbuf]. *)
Definition copy_user_cstr (s : St) (kbuf : list Z) (kcap uptr max_u : Z) : option (Z * list Z * St) :=
  if (kcap =? 0) || negb (validate_user_ptr uptr 1) then Some (-1, kbuf, s)
  else cstr_loop s kbuf uptr 0 (Z.to_nat (Z.min (kcap - 1) max_u)).

Fixpoint user_str_loop (s : St) (ptr i : Z) (n : nat) : option (bool * St) :=
  match n with
  | O => Some (false, s)
  | S n' =>
      '(r, cb, s) ← copy_from_user s [0] (u64 (ptr + i)) 1;
      if negb (r =? 0) then Some (false, s)
      else c ← cb !! 0%nat; if c =? 0 then Some (true, s) else user_str_loop s ptr (i + 1) n'
  end.

Definition validate_user_str (s : St) (ptr max_len : Z) : option (bool * St) :=
  if negb (validate_user_ptr ptr 1) then Some (false, s) else user_str_loop s ptr 0 (Z.to_nat max_len).

(** The pointer [vec[i]], which starts as null. *)
Definition read_user_ptr (s : St) (vec i : Z) : option (option Z * St) :=
  let va := u64 (vec + 8 * i) in
  if negb (validate_user_ptr va 8) then Some (None, s)
  else
    '(r, bs, s) ← copy_from_user s (replicate 8 0) va 8;
    Some (if negb (r =? 0) then None else Some (le_val bs), s).

Fixpoint str_array_loop (s : St) (vec i max_str_len : Z) (n : nat) : option (bool * St) :=
  match n with
  | O => Some (false, s)
  | S n' =>
      '(q, s) ← read_user_ptr s vec i;
      match q with
      | None => Some (false, s)
      | Some q =>
          if q =? 0 then Some (true, s)
          else
            '(ok, s) ← validate_user_str s q max_str_len;
            if negb ok then Some (false, s) else str_array_loop s vec (i + 1) max_str_len n'
      end
  end.

Definition validate_user_str_array (s : St) (vec max_count max_str_len : Z) : option (bool * St) :=
  if vec =? 0 then Some (true, s) else str_array_loop s vec 0 max_str_len (Z.to_nat max_count).

(** The strings copied so far are [strs]; a null pointer or the 63rd string ends the array. *)
Fixpoint cstr_array_loop (s : St) (uvec i : Z) (strs : list (list Z)) (n : nat) : option (Z * list (list Z) * St) :=
  match n with
  | O => Some (0, strs, s)
  | S n' =>
      '(q, s) ← read_user_ptr s uvec i;
      match q with
      | None => Some (-1, strs, s)
      | Some q =>
          if q =? 0 then Some (0, strs, s)
          else
            '(r, str, s) ← copy_user_cstr s (replicate VFS_PATH_MAX 0) (Z.of_nat VFS_PATH_MAX) q (Z.of_nat VFS_PATH_MAX);
            if negb (r =? 0) then Some (-1, strs, s) else cstr_array_loop s uvec (i + 1) (strs ++ [str]) n'
      end
  end.

(** The vector [kvec] up to its null pointer. *)
Definition copy_user_cstr_array (s : St) (uvec : Z) : option (Z * list (list Z) * St) :=
  if uvec =? 0 then Some (0, [], s) else cstr_array_loop s uvec 0 [] 63.
End current.

(** ** Writing to the map of another process *)

Fixpoint vm_copy_loop (fuel : nat) (s : St) (vm : vmap_t) (dst : Z) (src : list Z) (len : Z) : option (Z * St) :=
  if 0 <? len then
    match fuel with
    | O => None
    | S fuel' =>
        let chunk := Z.min (PAGE_SIZE - page_off dst) len in
        k ← amm_virt_to_kva s (Some vm) dst;
        match k with
        | None => Some (-1, s)
        | Some kva =>
            bs ← (if decide (Z.to_nat chunk <= length src)%nat then Some (take (Z.to_nat chunk) src) else None);
            s ← st_bytes s kva bs;
            vm_copy_loop fuel' s vm (u64 (dst + chunk)) (drop (Z.to_nat chunk) src) (len - chunk)
        end
    end
  else Some (0, s).

Definition vm_copy_to_user (s : St) (vm : vmap_t) (dst : Z) (src : list Z) (len : Z) : option (Z * St) :=
  vm_copy_loop (Z.to_nat len) s vm dst src len.

Fixpoint vm_zero_loop (fuel : nat) (s : St) (vm : vmap_t) (dst len : Z) : option (Z * St) :=
  if 0 <? len then
    match fuel with
    | O => None
    | S fuel' =>
        let chunk := Z.min (PAGE_SIZE - page_off dst) len in
        k ← amm_virt_to_kva s (Some vm) dst;
        match k with
        | None => Some (-1, s)
        | Some kva =>
            s ← st_bytes s kva (replicate (Z.to_nat chunk) 0);
            vm_zero_loop fuel' s vm (u64 (dst + chunk)) (len - chunk)
        end
    end
  else Some (0, s).

Definition vm_zero_user (s : St) (vm : vmap_t) (dst len : Z) : option (Z * St) :=
  vm_zero_loop (Z.to_nat len) s vm dst len.
End UserMem.
