(* ===== verification/UserMemSpec.v ===== *)
(** * Correctness of the access to user memory

    [ubyte] is the memory a process sees: the byte behind its page tables.  [uspace] says
    that the tables are well formed and that every page mapped in user space is an owned
    page of its own.  The copies between kernel and user memory then read and write exactly
    the bytes of that view; they bring pages of zeroes in on demand, and they touch no
    memory of anybody else. *)

From Stdlib Require Import ZArith Lia.
From stdpp Require Import base gmap functions list.
From S2P Require Import Prelude KString Phys PhysSpec PhysIface VRegion PageTable PageTableSpec VmSpace UserMem.

Local Open Scope Z_scope.

(** ** Addresses *)

Definition user_va (va : Z) : Prop := 0 <= va < USER_LIMIT.

Lemma user_va_half va : user_va va -> user_half (PML4_IDX va) = true.
Proof.
  unfold user_va, user_half, PML4_IDX. change USER_LIMIT with (2 ^ 39 * 256). intros Hva. rewrite idx_land by lia.
  apply Z.ltb_lt. rewrite Z.mod_small; [apply Z.div_lt_upper_bound; lia|].
  split; [apply Z.div_pos; lia|]. apply Z.div_lt_upper_bound; lia.
Qed.

Lemma user_vpage va : user_va va -> vpage va = va / PAGE_SIZE.
Proof.
  unfold user_va, vpage. change PAGE_SIZE with (2 ^ 12). change USER_LIMIT with (2 ^ 12 * 2 ^ 35). intros Hva.
  apply Z.mod_small. split; [apply Z.div_pos; lia|]. apply Z.div_lt_upper_bound; lia.
Qed.

Lemma user_range va : user_va va -> 0 <= va < 2 ^ 64.
Proof. unfold user_va, USER_LIMIT. lia. Qed.

Lemma page_base_eq va : user_va va -> page_base va = va / PAGE_SIZE * PAGE_SIZE.
Proof. intros Hva%user_range. by apply page_mask. Qed.

Lemma page_off_eq va : page_off va = va mod PAGE_SIZE.
Proof. unfold page_off. change (PAGE_SIZE - 1) with (Z.ones 12). apply (Z.land_ones va 12). lia. Qed.

Lemma page_split va : va = va / PAGE_SIZE * PAGE_SIZE + va mod PAGE_SIZE /\ 0 <= va mod PAGE_SIZE < PAGE_SIZE.
Proof. pose proof (Z.div_mod va PAGE_SIZE ltac:(done)). pose proof (Z.mod_pos_bound va PAGE_SIZE ltac:(done)). lia. Qed.

(** The offsets of one page. *)
Lemma page_add va i : 0 <= i -> va mod PAGE_SIZE + i < PAGE_SIZE ->
  (va + i) / PAGE_SIZE = va / PAGE_SIZE /\ (va + i) mod PAGE_SIZE = va mod PAGE_SIZE + i.
Proof.
  intros Hi Hlt. destruct (page_split va) as [E Hm]. split.
  - symmetry. apply (Z.div_unique_pos _ _ _ (va mod PAGE_SIZE + i)); [lia|]. lia.
  - symmetry. apply (Z.mod_unique_pos _ _ (va / PAGE_SIZE)); [lia|]. lia.
Qed.

Lemma word_split f o : 0 <= o < PAGE_SIZE ->
  8 * ((f * PAGE_SIZE + o) / 8) = f * PAGE_SIZE + 8 * (o / 8) /\ (f * PAGE_SIZE + o) mod 8 = o mod 8 /\ idx_ok (o / 8).
Proof.
  unfold PAGE_SIZE, idx_ok. intros Ho. replace (f * 4096 + o) with (o + f * 512 * 8) by lia.
  rewrite Z.div_add, Z.mod_add by lia. split; [lia|]. split; [done|].
  split; [apply Z.div_pos; lia|]. apply Z.div_lt_upper_bound; lia.
Qed.

Lemma frame_div f o : 0 <= o < PAGE_SIZE -> (f * PAGE_SIZE + o) / PAGE_SIZE = f.
Proof. intros Ho. rewrite Z.div_add_l by done. rewrite Z.div_small by done. lia. Qed.

(** ** Bytes of a word *)

Lemma byte_of_range w k : 0 <= byte_of w k < 256.
Proof. apply Z.mod_pos_bound. lia. Qed.

Lemma byte_of_set_same w k b : 0 <= k -> 0 <= b < 256 -> byte_of (set_byte w k b) k = b.
Proof.
  intros Hk Hb. unfold byte_of at 1, set_byte. rewrite Z.div_add by (apply Z.pow_nonzero; lia).
  unfold byte_of. set (q := w / 2 ^ (8 * k)). pose proof (Z.div_mod q 256 ltac:(lia)).
  replace (q + (b - q mod 256)) with (b + q / 256 * 256) by lia. rewrite Z.mod_add by lia. by apply Z.mod_small.
Qed.

Lemma byte_of_set_ne w k j b : 0 <= k -> 0 <= j -> j <> k -> 0 <= b < 256 -> byte_of (set_byte w k b) j = byte_of w j.
Proof.
  intros Hk Hj Hne Hb. unfold byte_of at 1, set_byte. set (d := b - byte_of w k).
  destruct (Z.lt_total j k) as [Hlt|[?|Hlt]]; [|done|].
  - replace (8 * k) with (8 * j + 8 * (k - j)) by lia. rewrite Z.pow_add_r by lia.
    rewrite (Z.mul_comm (2 ^ (8 * j))), Z.mul_assoc, Z.div_add by (apply Z.pow_nonzero; lia).
    replace (8 * (k - j)) with (8 + 8 * (k - j - 1)) by lia. rewrite Z.pow_add_r by lia.
    rewrite (Z.mul_comm (2 ^ 8)), Z.mul_assoc. change (2 ^ 8) with 256. rewrite Z.mod_add by lia. done.
  - (* the higher bytes are those of [w / 2 ^ (8 * k + 8)] *)
    assert (forall x, x / 2 ^ (8 * j) = x / 2 ^ (8 * k) / 256 / 2 ^ (8 * (j - k - 1))) as Hx.
    { intros x. rewrite !Z.div_div by (try lia; apply Z.pow_pos_nonneg; lia). f_equal.
      change 256 with (2 ^ 8). rewrite <- !Z.pow_add_r by lia. f_equal. lia. }
    unfold byte_of at 1. rewrite !Hx. do 2 f_equal. rewrite Z.div_add by (apply Z.pow_nonzero; lia).
    unfold d, byte_of. set (q := w / 2 ^ (8 * k)). pose proof (Z.div_mod q 256 ltac:(lia)).
    replace (q + (b - q mod 256)) with (b + q / 256 * 256) by lia. rewrite Z.div_add, Z.div_small by lia. done.
Qed.

Abbreviation octets := (Forall (fun b => 0 <= b < 256)).

(** ** Bytes of a page *)

Section Frames.
Context `{BlockAllocLaws St}.

(** Every word of the page is initialised. *)
Definition page_init (s : St) (f : Z) : Prop := forall i, idx_ok i -> is_Some (entry_at s f i).

Lemma ld8_page s f o : 0 <= o < PAGE_SIZE ->
  ld8 s (f * PAGE_SIZE + o) = w ← entry_at s f (o / 8); Some (byte_of w (o mod 8)).
Proof using. intros Ho. destruct (word_split f o Ho) as (E1 & E2 & _). unfold ld8, entry_at. by rewrite E1, E2. Qed.

Lemma ld8_other (s s' : St) a : (forall b, b / PAGE_SIZE = a / PAGE_SIZE -> ba_mem s' !! b = ba_mem s !! b) -> ld8 s' a = ld8 s a.
Proof using.
  intros Hm. unfold ld8. rewrite Hm; [done|]. destruct (page_split a) as [E Ho]. rewrite E at 1.
  destruct (word_split (a / PAGE_SIZE) _ Ho) as (-> & _ & Hi). by apply word_frame.
Qed.

Lemma st8_page s O f o b : ba_owns s O -> owned_page O f -> page_init s f -> 0 <= o < PAGE_SIZE -> 0 <= b < 256 ->
  exists s', st8 s (f * PAGE_SIZE + o) b = Some s' /\ ba_owns s' O /\ page_init s' f /\
    (forall a, a / PAGE_SIZE <> f -> ba_mem s' !! a = ba_mem s !! a) /\
    forall x, 0 <= x < PAGE_SIZE -> ld8 s' (f * PAGE_SIZE + x) = if x =? o then Some b else ld8 s (f * PAGE_SIZE + x).
Proof using All.
  intros Ho Hf Hi Hr Hb. destruct (word_split f o Hr) as (E1 & E2 & Hx). destruct (Hi _ Hx) as [w Hw].
  unfold st8. rewrite E1, E2. unfold entry_at in Hw. rewrite Hw. cbn [mbind option_bind].
  set (v := set_byte w (o mod 8) b). set (s' := wr s (f * PAGE_SIZE + 8 * (o / 8)) v). exists s'.
  assert (forall i, idx_ok i -> entry_at s' f i = if i =? o / 8 then Some v else entry_at s f i) as He.
  { intros i Hid. unfold s', wr, entry_at. rewrite ba_mem_set. destruct (Z.eqb_spec i (o / 8)) as [->|Hne]; [apply lookup_insert_eq|].
    rewrite lookup_insert_ne; [done|lia]. }
  split_and!; [done| | | |].
  - apply ba_write; [done|]. by rewrite word_frame.
  - intros i Hid. rewrite He by done. destruct (i =? o / 8); [by eexists|by apply Hi].
  - intros a Ha. unfold s', wr. rewrite ba_mem_set, lookup_insert_ne; [done|]. intros <-. apply Ha. by apply word_frame.
  - intros x Hxr. destruct (word_split f x Hxr) as (_ & _ & Hxi). rewrite !ld8_page, He by done.
    pose proof (Z.div_mod x 8 ltac:(lia)). pose proof (Z.div_mod o 8 ltac:(lia)). pose proof (Z.mod_pos_bound x 8 ltac:(lia)).
    pose proof (Z.mod_pos_bound o 8 ltac:(lia)). destruct (Z.eqb_spec x o) as [->|Hne].
    + rewrite Z.eqb_refl. cbn [mbind option_bind]. unfold v. rewrite byte_of_set_same by lia. done.
    + destruct (Z.eqb_spec (x / 8) (o / 8)) as [Eq|]; [|done]. rewrite Eq. unfold entry_at. rewrite Hw. cbn [mbind option_bind].
      unfold v. rewrite byte_of_set_ne; [done|lia|lia|lia|done].
Qed.

Lemma st_bytes_page O f bs : forall s o, ba_owns s O -> owned_page O f -> page_init s f -> 0 <= o -> o + Z.of_nat (length bs) <= PAGE_SIZE -> octets bs ->
  exists s', st_bytes s (f * PAGE_SIZE + o) bs = Some s' /\ ba_owns s' O /\ page_init s' f /\
    (forall a, a / PAGE_SIZE <> f -> ba_mem s' !! a = ba_mem s !! a) /\
    forall x, 0 <= x < PAGE_SIZE -> ld8 s' (f * PAGE_SIZE + x) =
      if (o <=? x) && (x <? o + Z.of_nat (length bs)) then bs !! Z.to_nat (x - o) else ld8 s (f * PAGE_SIZE + x).
Proof using All.
  induction bs as [|b bs IH]; intros s o Ho Hf Hi Hr Hl Hb; cbn [st_bytes length] in *.
  - exists s. split_and!; [done..|]. intros x Hx. destruct (Z.leb_spec o x), (Z.ltb_spec x (o + Z.of_nat 0)); try done. lia.
  - apply Forall_cons in Hb as [Hb0 Hb]. destruct (st8_page s O f o b Ho Hf Hi ltac:(lia) Hb0) as (s1 & -> & Ho1 & Hi1 & Hm1 & Hx1).
    cbn [mbind option_bind]. rewrite <- Z.add_assoc. destruct (IH s1 (o + 1) Ho1 Hf Hi1 ltac:(lia) ltac:(lia) Hb) as (s2 & -> & Ho2 & Hi2 & Hm2 & Hx2).
    exists s2. split_and!; [done|done|done|intros a Ha; by rewrite Hm2, Hm1|]. intros x Hx. rewrite Hx2, Hx1 by done.
    destruct (Z.eqb_spec x o) as [->|Hne].
    + rewrite Z.sub_diag, Z.leb_refl. destruct (Z.leb_spec (o + 1) o); [lia|]. destruct (Z.ltb_spec o (o + Z.of_nat (S (length bs)))); [done|lia].
    + destruct (Z.leb_spec (o + 1) x), (Z.leb_spec o x), (Z.ltb_spec x (o + 1 + Z.of_nat (length bs))), (Z.ltb_spec x (o + Z.of_nat (S (length bs))));
        cbn [andb]; try lia; try done. replace (Z.to_nat (x - o)) with (S (Z.to_nat (x - (o + 1)))) by lia. done.
Qed.

Lemma ld_bytes_page s f n : forall o, page_init s f -> 0 <= o -> o + Z.of_nat n <= PAGE_SIZE ->
  exists bs, ld_bytes s (f * PAGE_SIZE + o) n = Some bs /\ length bs = n /\
    forall i b, bs !! i = Some b -> ld8 s (f * PAGE_SIZE + (o + Z.of_nat i)) = Some b.
Proof using.
  induction n as [|n IH]; intros o Hi Ho Hl; cbn [ld_bytes]; [by exists []|].
  destruct (word_split f o ltac:(lia)) as (_ & _ & Hx). destruct (Hi _ Hx) as [w Hw].
  assert (ld8 s (f * PAGE_SIZE + o) = Some (byte_of w (o mod 8))) as E by (rewrite ld8_page by lia; by rewrite Hw). rewrite E.
  cbn [mbind option_bind]. rewrite <- Z.add_assoc. destruct (IH (o + 1) Hi ltac:(lia) ltac:(lia)) as (bs & -> & Hlen & Hbs). cbn [mbind option_bind].
  eexists. split; [done|]. split; [simpl; lia|]. intros [|i] b; simpl.
  - intros [= <-]. by rewrite Z.add_0_r.
  - intros Hb%Hbs. replace (o + Z.of_nat (S i)) with (o + 1 + Z.of_nat i) by lia. done.
Qed.
End Frames.

(** ** The memory of a process *)

Section Space.
Context `{BlockAllocLaws St}.
Implicit Types (s : St) (O : owned) (T : gmap (list Z) Z).

(** The byte the process sees at [va]. *)
Definition ubyte s T (va : Z) : option Z :=
  f ← frame_of s T va; ld8 s (f * PAGE_SIZE + va mod PAGE_SIZE).

(** Every page of user space is an initialised, owned page that is mapped once and is not a table. *)
Record udata s O T : Prop := {
  ud_frame : forall va f, user_va va -> frame_of s T va = Some f -> O !! f = Some 0%nat /\ ~ table_frame T f /\ page_init s f;
  ud_inj : forall va va' f, user_va va -> user_va va' -> frame_of s T va = Some f -> frame_of s T va' = Some f ->
    va / PAGE_SIZE = va' / PAGE_SIZE;
}.

Record uspace s O (root : Z) T (m : vmap_t) : Prop := {
  sp_pt : pt_inv user_half s O root T;
  sp_data : udata s O T;
  sp_cr3 : vm_cr3 m = root * PAGE_SIZE;
}.

Lemma frame_of_page s T va va' : user_va va -> user_va va' -> va / PAGE_SIZE = va' / PAGE_SIZE -> frame_of s T va = frame_of s T va'.
Proof using.
  intros Hv Hv' E. unfold frame_of. rewrite (xlate_ext s T va va'); [done|]. by rewrite !user_vpage.
Qed.

Lemma virt_to_kva_frame s O root T m va : uspace s O root T m -> user_va va ->
  amm_virt_to_kva s (Some m) va = Some (f ← frame_of s T va; Some (f * PAGE_SIZE + va mod PAGE_SIZE)).
Proof using All.
  intros U Hv. rewrite (virt_to_kva_spec user_half s O root T m va (sp_pt _ _ _ _ _ U) (user_va_half va Hv) (sp_cr3 _ _ _ _ _ U)).
  unfold frame_of. destruct (xlate s T va) as [e|]; [|done]. cbn [mbind option_bind]. do 2 f_equal.
  fold (page_off va). rewrite page_off_eq, mask_frame. rewrite <- (mask_frame e) at 1. destruct (page_split va) as [_ Hm].
  rewrite Z.lor_comm. pose proof (lor_shiftl (va mod PAGE_SIZE) (Z.land e PTE_ADDR_MASK / PAGE_SIZE) 12 ltac:(lia) ltac:(exact Hm)) as E.
  rewrite Z.shiftl_mul_pow2 in E by lia. change (2 ^ 12) with PAGE_SIZE in E. rewrite E, mask_frame. lia.
Qed.

Lemma page_base_user va : user_va va -> user_va (page_base va) /\ page_base va / PAGE_SIZE = va / PAGE_SIZE /\ page_base va mod PAGE_SIZE = 0.
Proof using.
  intros Hv. rewrite page_base_eq by done. destruct (page_split va) as [E Hm]. rewrite Z.div_mul, Z.mod_mul by done.
  split_and!; [|done|done]. unfold user_va in *. split; [|lia]. apply Z.mul_nonneg_nonneg; [apply Z.div_pos|]; unfold PAGE_SIZE; lia.
Qed.

Lemma virt_to_kva_base s O root T m va : uspace s O root T m -> user_va va ->
  amm_virt_to_kva s (Some m) (page_base va) = Some (f ← frame_of s T va; Some (f * PAGE_SIZE)).
Proof using All.
  intros U Hv. destruct (page_base_user va Hv) as (Hb & Hd & Hm). rewrite (virt_to_kva_frame s O root T m _ U Hb), Hm.
  rewrite (frame_of_page s T _ va Hb Hv Hd). destruct (frame_of s T va); [|done]. cbn [mbind option_bind]. by rewrite Z.add_0_r.
Qed.

(** A page in a mapped page reads and is initialised. *)
Lemma ubyte_mapped s O T va : udata s O T -> user_va va -> is_Some (frame_of s T va) <-> is_Some (ubyte s T va).
Proof using.
  intros U Hv. unfold ubyte. split; [|destruct (frame_of s T va); [by eexists|by intros [? ?]]].
  intros [f Hf]. rewrite Hf. cbn [mbind option_bind]. destruct (ud_frame _ _ _ U va f Hv Hf) as (_ & _ & Hi). destruct (page_split va) as [_ Hm].
  rewrite ld8_page by done. destruct (word_split f _ Hm) as (_ & _ & Hx). destruct (Hi _ Hx) as [w ->]. by eexists.
Qed.

(** ** What a sequence of accesses does

    [l] are the regions of the process and [w] the addresses written.  Outside of them the view changes
    only by pages of zeroes of the regions; the new pages were nobody's, and memory owned by others
    stays as it is. *)

Definition region_page (l : list (nat * rgn)) (va : Z) : Prop :=
  exists i g x, (i, g) ∈ l /\ rg_base g <= x < rg_end g /\ x / PAGE_SIZE = va / PAGE_SIZE.

Record usteps (l : list (nat * rgn)) (w : Z -> Prop) s O T s' O' T' : Prop := {
  us_owned : O ⊆ O';
  us_tables : forall f, table_frame T' f -> table_frame T f \/ ~ owned_page O f;
  us_frames : forall va, user_va va -> frame_of s' T' va = frame_of s T va \/
    frame_of s T va = None /\ region_page l va /\ exists f, frame_of s' T' va = Some f /\ ~ owned_page O f;
  us_view : forall va, user_va va -> ~ w va -> ubyte s' T' va = ubyte s T va \/ ubyte s T va = None /\ ubyte s' T' va = Some 0;
  us_other : forall a, owned_page O (a / PAGE_SIZE) -> ~ table_frame T (a / PAGE_SIZE) ->
    (forall va, user_va va -> frame_of s T va <> Some (a / PAGE_SIZE)) -> ba_mem s' !! a = ba_mem s !! a;
}.

Lemma usteps_refl l w s O T : usteps l w s O T s O T.
Proof using. split; [done|by left|by left|by left|done]. Qed.

Lemma usteps_weaken l (w w' : Z -> Prop) s O T s' O' T' : (forall x, w x -> w' x) -> usteps l w s O T s' O' T' -> usteps l w' s O T s' O' T'.
Proof using. intros Hw S. split; try apply S. intros va Hv Hn. apply S; auto. Qed.

Lemma usteps_trans l w s1 O1 T1 s2 O2 T2 s3 O3 T3 :
  usteps l w s1 O1 T1 s2 O2 T2 -> usteps l w s2 O2 T2 s3 O3 T3 -> usteps l w s1 O1 T1 s3 O3 T3.
Proof using.
  intros S1 S2. assert (forall q, owned_page O1 q -> owned_page O2 q) as HO by (intros q; apply owned_page_mono, S1). split.
  - etransitivity; [apply S1|apply S2].
  - intros f Hf. destruct (us_tables _ _ _ _ _ _ _ _ S2 f Hf) as [Hf'|Hn]; [by apply S1|right; auto].
  - intros va Hv. destruct (us_frames _ _ _ _ _ _ _ _ S2 va Hv) as [E|(Hn & Hc & f & Hf & Hfr)].
    + rewrite E. by apply (us_frames _ _ _ _ _ _ _ _ S1).
    + right. destruct (us_frames _ _ _ _ _ _ _ _ S1 va Hv) as [E|(_ & _ & g & Hg & _)]; [|congruence].
      split_and!; [congruence|done|]. exists f. auto.
  - intros va Hv Hw. destruct (us_view _ _ _ _ _ _ _ _ S2 va Hv Hw) as [E|[Hn E]].
    + rewrite E. by apply (us_view _ _ _ _ _ _ _ _ S1).
    + right. split; [|done]. destruct (us_view _ _ _ _ _ _ _ _ S1 va Hv Hw) as [E'|[_ E']]; congruence.
  - intros a Ha Ht Hm. rewrite (us_other _ _ _ _ _ _ _ _ S2), (us_other _ _ _ _ _ _ _ _ S1); [done..|by apply HO| |].
    + intros Ht'. by destruct (us_tables _ _ _ _ _ _ _ _ S1 _ Ht').
    + intros va Hv E. destruct (us_frames _ _ _ _ _ _ _ _ S1 va Hv) as [E'|(_ & _ & f & Hf & Hfr)]; [apply (Hm va Hv); congruence|].
      rewrite E in Hf. injection Hf as <-. done.
Qed.

(** A byte that can be read stays readable. *)
Lemma usteps_mapped l w s O T s' O' T' va : usteps l w s O T s' O' T' -> user_va va -> is_Some (frame_of s T va) -> frame_of s' T' va = frame_of s T va.
Proof using. intros S Hv [f Hf]. destruct (us_frames _ _ _ _ _ _ _ _ S va Hv) as [?|[? _]]; [done|congruence]. Qed.

Lemma usteps_byte l w s O T s' O' T' va b : usteps l w s O T s' O' T' -> user_va va -> ~ w va -> ubyte s T va = Some b -> ubyte s' T' va = Some b.
Proof using. intros S Hv Hw Hb. destruct (us_view _ _ _ _ _ _ _ _ S va Hv Hw) as [?|[? _]]; congruence. Qed.

(** ** Bringing a page in *)

Lemma fresh_frame p prot : 0 <= p < PFN_LIMIT -> Z.land (Z.lor (p * PAGE_SIZE) (pte_flags prot)) PTE_ADDR_MASK / PAGE_SIZE = p.
Proof using.
  intros Hp. rewrite Z.land_lor_distr_l, frame_mask by done.
  assert (Z.land (pte_flags prot) PTE_ADDR_MASK = 0) as ->.
  { unfold pte_flags. by destruct (Z.land prot PROT_WRITE =? 0), (Z.land prot PROT_EXEC =? 0). }
  rewrite Z.lor_0_r. by apply Z.div_mul.
Qed.

(** One page mapped, or none. *)
Definition mapped_page s O T s' O' T' (va prot : Z) : Prop :=
  (forall va', xlate s' T' va' = xlate s T va') \/
  exists e, fresh_mapping O O' T' s' e prot /\ forall va', xlate s' T' va' = if vpage va' =? vpage va then Some e else xlate s T va'.

Lemma mapped_frames s O root T s' O' T' va prot : pt_inv user_half s' O' root T' -> mapped_page s O T s' O' T' va prot -> user_va va ->
  (forall va', user_va va' -> frame_of s' T' va' = frame_of s T va') \/
  exists p, O' !! p = Some 0%nat /\ ~ owned_page O p /\ ~ table_frame T' p /\ (forall i, idx_ok i -> entry_at s' p i = Some 0) /\
    forall va', user_va va' -> frame_of s' T' va' = if va' / PAGE_SIZE =? va / PAGE_SIZE then Some p else frame_of s T va'.
Proof using All.
  intros I' [Hx|(e & (p & -> & HO & Hno & Hnt & Hz) & Hx)] Hv; [left; intros va' _; unfold frame_of; by rewrite Hx|right].
  exists p. split_and!; [done..|]. intros va' Hv'. unfold frame_of. rewrite Hx, !user_vpage by done.
  destruct (va' / PAGE_SIZE =? va / PAGE_SIZE); [|done]. cbn [mbind option_bind]. rewrite fresh_frame; [done|].
  destruct (ba_frame s' O' p 0 (pt_owns _ _ _ _ _ I') HO) as (? & ? & _). simpl in *. lia.
Qed.

Lemma kept_frame s O T s' O' T' f : kept s O T s' O' T' -> O !! f = Some 0%nat -> ~ table_frame T f ->
  (forall b, b / PAGE_SIZE = f -> ba_mem s' !! b = ba_mem s !! b) /\ O' !! f = Some 0%nat /\ ~ table_frame T' f.
Proof using All.
  intros K HO Ht. assert (owned_page O f) as Hf by by eapply owned_head. split_and!.
  - intros b <-. by apply K.
  - eapply lookup_weaken; [done|apply K].
  - intros Ht'. by destruct (kp_new _ _ _ _ _ _ K f Ht').
Qed.

Lemma same_page_init s s' f : (forall b, b / PAGE_SIZE = f -> ba_mem s' !! b = ba_mem s !! b) -> page_init s f -> page_init s' f.
Proof using. intros Hm Hi i Hx. unfold entry_at. rewrite Hm by (by apply word_frame). by apply Hi. Qed.

Lemma mapped_udata s O root T s' O' T' va prot : udata s O T -> pt_inv user_half s' O' root T' -> kept s O T s' O' T' ->
  mapped_page s O T s' O' T' va prot -> user_va va -> udata s' O' T'.
Proof using All.
  intros U I' K Hx Hv.
  assert (forall f va', user_va va' -> frame_of s T va' = Some f -> O' !! f = Some 0%nat /\ ~ table_frame T' f /\ page_init s' f) as Hold.
  { intros f va' Hv' Hf. destruct (ud_frame _ _ _ U va' f Hv' Hf) as (HO & Ht & Hi).
    destruct (kept_frame _ _ _ _ _ _ f K HO Ht) as (Hm & HO' & Ht'). split_and!; [done..|]. by eapply same_page_init. }
  destruct (mapped_frames _ _ _ _ _ _ _ _ _ I' Hx Hv) as [Heq|(p & HO & Hno & Hnt & Hz & Heq)]; split.
  - intros va' f Hv' Hf. rewrite Heq in Hf by done. by apply (Hold f va').
  - intros va1 va2 f H1 H2. rewrite !Heq by done. by apply U.
  - intros va' f Hv' Hf. rewrite Heq in Hf by done. destruct (va' / PAGE_SIZE =? va / PAGE_SIZE); [|by apply (Hold f va')].
    injection Hf as <-. split_and!; [done..|]. intros i Hi. rewrite Hz by done. by eexists.
  - assert (forall va', user_va va' -> frame_of s T va' <> Some p) as Hp.
    { intros va' Hv' E. apply Hno. eapply owned_head. by apply (ud_frame _ _ _ U va' p Hv' E). }
    intros va1 va2 f H1 H2. rewrite !Heq by done.
    destruct (Z.eqb_spec (va1 / PAGE_SIZE) (va / PAGE_SIZE)), (Z.eqb_spec (va2 / PAGE_SIZE) (va / PAGE_SIZE)); intros E1 E2; [congruence| | |by eapply U].
    + exfalso. apply (Hp va2 H2). congruence.
    + exfalso. apply (Hp va1 H1). congruence.
Qed.

Lemma uspace_page l s O root T m s' O' T' va prot :
  uspace s O root T m -> pt_inv user_half s' O' root T' -> kept s O T s' O' T' -> mapped_page s O T s' O' T' va prot ->
  user_va va -> region_page l va -> frame_of s T va = None ->
  uspace s' O' root T' m /\ usteps l (fun _ => False) s O T s' O' T'.
Proof using All.
  intros U I' K Hx Hv Hc Hn. pose proof (sp_data _ _ _ _ _ U) as D. split.
  { split; [done| |apply U]. by eapply mapped_udata. }
  assert (forall f va', user_va va' -> frame_of s T va' = Some f -> ld8 s' (f * PAGE_SIZE + va' mod PAGE_SIZE) = ld8 s (f * PAGE_SIZE + va' mod PAGE_SIZE)) as Hld.
  { intros f va' Hv' Hf. destruct (ud_frame _ _ _ D va' f Hv' Hf) as (HO & Ht & _). destruct (kept_frame _ _ _ _ _ _ f K HO Ht) as (Hm & _).
    apply ld8_other. intros b Hb. apply Hm. rewrite Hb. apply frame_div, page_split. }
  assert (forall va', user_va va' -> frame_of s' T' va' = frame_of s T va' -> ubyte s' T' va' = ubyte s T va') as Hub.
  { intros va' Hv' E. unfold ubyte. rewrite E. destruct (frame_of s T va') as [f|] eqn:Hf; [|done]. cbn [mbind option_bind]. by apply Hld. }
  destruct (mapped_frames _ _ _ _ _ _ _ _ _ I' Hx Hv) as [Heq|(p & HO & Hno & Hnt & Hz & Heq)].
  - split; try apply K; [intros va' Hv'; left; by apply Heq|intros va' Hv' _; left; by apply Hub, Heq|intros a Ha Ht _; by apply K].
  - assert (forall va', user_va va' -> va' / PAGE_SIZE = va / PAGE_SIZE -> frame_of s T va' = None) as Hnone.
    { intros va' Hv' E. by rewrite (frame_of_page s T va' va Hv' Hv E). }
    split; try apply K.
    + intros va' Hv'. rewrite Heq by done. destruct (Z.eqb_spec (va' / PAGE_SIZE) (va / PAGE_SIZE)) as [E|]; [right|by left].
      split_and!; [by apply Hnone| |by exists p]. destruct Hc as (i & g & x & Hg & Hr & Ex). exists i, g, x. split; [done|]. split; [done|congruence].
    + intros va' Hv' _. destruct (Z.eqb_spec (va' / PAGE_SIZE) (va / PAGE_SIZE)) as [E|Hne].
      * right. unfold ubyte. rewrite (Hnone va' Hv' E), Heq, E, Z.eqb_refl by done. split; [done|]. cbn [mbind option_bind].
        destruct (page_split va') as [_ Hm]. rewrite ld8_page by done. destruct (word_split p _ Hm) as (_ & _ & Hi). rewrite Hz by done. done.
      * left. apply Hub; [done|]. rewrite Heq by done. by destruct (Z.eqb_spec (va' / PAGE_SIZE) (va / PAGE_SIZE)).
    + intros a Ha Ht _. by apply K.
Qed.

(** [user_access_page] returns; it maps at most the page of the address. *)
Lemma user_access_ok p l s O root T m va wr' : uspace s O root T m -> vmap_inv p m l -> user_va va ->
  exists r s' O' T', user_access_page p (Some m) s va wr' = Some (r, s') /\ uspace s' O' root T' m /\
    usteps l (fun _ => False) s O T s' O' T' /\ (frame_of s' T' va = None \/ r = 0).
Proof using All.
  intros U V Hv. unfold user_access_page. rewrite (virt_to_kva_base s O root T m va U Hv). cbn [mbind option_bind].
  destruct (frame_of s T va) as [f|] eqn:Hf; cbn [mbind option_bind].
  { exists 0, s, O, T. split_and!; [done|done|apply usteps_refl|by right]. }
  destruct (page_fault_spec user_half s O root T p m l va wr' (sp_pt _ _ _ _ _ U) V (sp_cr3 _ _ _ _ _ U) (user_range _ Hv) (user_va_half _ Hv))
    as [(i & g & Hin & Hr & _ & r & s' & O' & T' & -> & I' & K & Hx)|[_ ->]].
  - assert (mapped_page s O T s' O' T' va (rg_prot g)) as Hmp by (destruct Hx as [?|[_ ?]]; [by left|by right]).
    destruct (uspace_page l s O root T m s' O' T' va (rg_prot g) U I' K Hmp Hv) as [U' S]; [by exists i, g, va|done|].
    exists r, s', O', T'. split_and!; [done..|]. destruct Hx as [Hx|[-> _]]; [left|by right]. unfold frame_of in *. by rewrite Hx.
  - exists (-1), s, O, T. split_and!; [done|done|apply usteps_refl|by left].
Qed.

(** ** Writing to a mapped page *)

Lemma pt_inv_data D s O root T s' : pt_inv D s O root T -> ba_owns s' O ->
  (forall f, table_frame T f -> forall i, idx_ok i -> entry_at s' f i = entry_at s f i) ->
  pt_inv D s' O root T /\ forall va, xlate s' T va = xlate s T va.
Proof using.
  intros I Ho He. split.
  - split; try apply I; [done|..].
    + intros π f i Hf Hi. rewrite He by (done || by exists π). by eapply pt_words.
    + intros π f i e Hf Hd Hi Hm. rewrite He by (done || by exists π). by eapply pt_child.
  - intros va. unfold xlate, leaf. destruct (T !! path va) as [g|] eqn:E; [|done]. cbn [mbind option_bind].
    rewrite He; [done|by eexists|apply pt_idx_ok].
Qed.

Lemma ustore_page l s O root T m va f bs :
  uspace s O root T m -> user_va va -> frame_of s T va = Some f -> va mod PAGE_SIZE + Z.of_nat (length bs) <= PAGE_SIZE -> octets bs ->
  exists s', st_bytes s (f * PAGE_SIZE + va mod PAGE_SIZE) bs = Some s' /\ uspace s' O root T m /\
    usteps l (fun x => va <= x < va + Z.of_nat (length bs)) s O T s' O T /\
    forall i b, bs !! i = Some b -> ubyte s' T (va + Z.of_nat i) = Some b.
Proof using All.
  intros U Hv Hf Hl Hb. pose proof (sp_data _ _ _ _ _ U) as D. destruct (ud_frame _ _ _ D va f Hv Hf) as (HO & Ht & Hi).
  destruct (page_split va) as [Eva Hm]. set (o := va mod PAGE_SIZE) in *.
  destruct (st_bytes_page O f bs s o (pt_owns _ _ _ _ _ (sp_pt _ _ _ _ _ U)) (owned_head _ _ _ HO) Hi ltac:(lia) Hl Hb)
    as (s' & E & Ho' & Hi' & Hmem & Hld). exists s'. split; [done|].
  destruct (pt_inv_data user_half s O root T s' (sp_pt _ _ _ _ _ U) Ho') as [I' Hx].
  { intros g Hg i Hx. unfold entry_at. apply Hmem. rewrite word_frame by done. intros ->. done. }
  assert (forall va', frame_of s' T va' = frame_of s T va') as Hfr by (intros; by apply frame_of_same).
  assert (forall va', user_va va' -> ubyte s' T va' = if (va <=? va') && (va' <? va + Z.of_nat (length bs)) then bs !! Z.to_nat (va' - va) else ubyte s T va') as Hub.
  { intros va' Hv'. unfold ubyte. rewrite Hfr. destruct (page_split va') as [Eva' Hm']. destruct (frame_of s T va') as [g|] eqn:Hg.
    - cbn [mbind option_bind]. destruct (decide (g = f)) as [->|Hne].
      + pose proof (ud_inj _ _ _ D va va' f Hv Hv' Hf Hg) as Ep. rewrite Hld by done.
        replace (va' - va) with (va' mod PAGE_SIZE - o) by lia.
        destruct (Z.leb_spec o (va' mod PAGE_SIZE)), (Z.leb_spec va va'), (Z.ltb_spec (va' mod PAGE_SIZE) (o + Z.of_nat (length bs))), (Z.ltb_spec va' (va + Z.of_nat (length bs))); try done; lia.
      + rewrite (ld8_other s s') by (intros b Hb'; apply Hmem; rewrite Hb', frame_div by done; done).
        destruct (Z.leb_spec va va'), (Z.ltb_spec va' (va + Z.of_nat (length bs))); try done. exfalso.
        destruct (page_add va (va' - va) ltac:(lia) ltac:(fold o; lia)) as [Ep _]. replace (va + (va' - va)) with va' in Ep by lia.
        rewrite (frame_of_page s T va' va Hv' Hv Ep) in Hg. congruence.
    - destruct (Z.leb_spec va va'), (Z.ltb_spec va' (va + Z.of_nat (length bs))); try done. exfalso.
      destruct (page_add va (va' - va) ltac:(lia) ltac:(fold o; lia)) as [Ep _]. replace (va + (va' - va)) with va' in Ep by lia.
      rewrite (frame_of_page s T va' va Hv' Hv Ep) in Hg. congruence. }
  split; [|split].
  - split; [done| |apply U]. split.
    + intros va' g Hv' Hg. rewrite Hfr in Hg. destruct (ud_frame _ _ _ D va' g Hv' Hg) as (HO' & Ht' & Hi''). split_and!; [done..|].
      destruct (decide (g = f)) as [->|Hne]; [done|]. apply (same_page_init s); [|done]. intros b <-. by apply Hmem.
    + intros va1 va2 g H1 H2. rewrite !Hfr. by apply D.
  - split; [done|by left|left; by apply Hfr| |].
    + intros va' Hv' Hn. left. rewrite Hub by done. destruct (Z.leb_spec va va'), (Z.ltb_spec va' (va + Z.of_nat (length bs))); try done. lia.
    + intros a _ _ Hno. apply Hmem. intros Ea. apply (Hno va Hv). congruence.
  - intros i b Hib. pose proof (lookup_lt_Some _ _ _ Hib). rewrite Hub.
    + destruct (Z.leb_spec va (va + Z.of_nat i)), (Z.ltb_spec (va + Z.of_nat i) (va + Z.of_nat (length bs))); try lia. cbn [andb].
      replace (Z.to_nat (va + Z.of_nat i - va)) with i by lia. done.
    + unfold user_va in *. split; [lia|]. destruct (page_add va (Z.of_nat i) ltac:(lia) ltac:(fold o; lia)) as [Ep _].
      change USER_LIMIT with (34359738368 * PAGE_SIZE) in *. pose proof (Z.div_lt_upper_bound va PAGE_SIZE 34359738368 ltac:(done) ltac:(lia)).
      destruct (page_split (va + Z.of_nat i)) as [E2 ?]. rewrite Ep in E2. nia.
Qed.

(** ** The copies *)

Section Copy.
Context (p : rpool) (l : list (nat * rgn)) (root : Z) (m : vmap_t) (V : vmap_inv p m l).

(** The part of a turn that both loops share: the page of [va] is in, or the copy fails with the page missing. *)
Lemma access_turn s O T va wr' : uspace s O root T m -> user_va va ->
  exists r s' O' T', user_access_page p (Some m) s va wr' = Some (r, s') /\ uspace s' O' root T' m /\ usteps l (fun _ => False) s O T s' O' T' /\
    (frame_of s' T' va = None /\ ubyte s' T' va = None \/ r = 0 /\ exists f, frame_of s' T' va = Some f).
Proof using All.
  intros U Hv. destruct (user_access_ok p l s O root T m va wr' U V Hv) as (r & s' & O' & T' & E & U' & S & Hr).
  exists r, s', O', T'. split_and!; [done..|]. destruct (frame_of s' T' va) as [f|] eqn:Hf.
  - right. destruct Hr as [?| ->]; [done|]. split; [done|]. by exists f.
  - left. unfold ubyte. by rewrite Hf.
Qed.

Lemma from_user_loop_ok src n fuel : forall s O T dst done, uspace s O root T m -> 0 <= src -> src + n <= USER_LIMIT -> 0 <= done <= n ->
  n <= Z.of_nat (length dst) -> n - done <= Z.of_nat fuel ->
  (forall i, 0 <= i < done -> exists b, dst !! Z.to_nat i = Some b /\ ubyte s T (src + i) = Some b) ->
  exists rc dst' s' O' T', from_user_loop p (Some m) fuel s dst src done n = Some (rc, dst', s') /\ uspace s' O' root T' m /\
    usteps l (fun _ => False) s O T s' O' T' /\ length dst' = length dst /\ drop (Z.to_nat n) dst' = drop (Z.to_nat n) dst /\
    (rc = 0 /\ (forall i, 0 <= i < n -> exists b, dst' !! Z.to_nat i = Some b /\ ubyte s' T' (src + i) = Some b) \/
     rc = -1 /\ exists va, src <= va < src + n /\ ubyte s' T' va = None).
Proof using All.
  induction fuel as [|fuel IH]; intros s O T dst done U Hs Hlim Hd Hn Hf Hpre; cbn [from_user_loop].
  { destruct (Z.ltb_spec done n); [lia|]. exists 0, dst, s, O, T. split_and!; [done|done|apply usteps_refl|done|done|].
    left. split; [done|]. intros i Hi. apply Hpre. lia. }
  destruct (Z.ltb_spec done n) as [Hlt|].
  2: { exists 0, dst, s, O, T. split_and!; [done|done|apply usteps_refl|done|done|]. left. split; [done|]. intros i Hi. apply Hpre. lia. }
  assert (user_va (src + done)) as Hv by (unfold user_va; lia). rewrite u64_small by (apply user_range, Hv).
  destruct (access_turn s O T (src + done) false U Hv) as (r & s1 & O1 & T1 & -> & U1 & S1 & Hr). cbn [mbind option_bind].
  rewrite (virt_to_kva_base s1 O1 root T1 m _ U1 Hv). destruct Hr as [[Hnf Hnb]|[-> [f Hfr]]].
  { exists (-1), dst, s1, O1, T1. rewrite Hnf. split; [by destruct (negb (r =? 0))|]. split_and!; [done..|]. right. split; [done|].
    exists (src + done). split; [lia|done]. }
  rewrite Hfr. cbn [Z.eqb negb mbind option_bind]. rewrite page_off_eq. destruct (page_split (src + done)) as [Eva Hm].
  set (o := (src + done) mod PAGE_SIZE) in *. set (chunk := Z.min (PAGE_SIZE - o) (n - done)).
  assert (0 < chunk <= n - done /\ chunk <= PAGE_SIZE - o) as Hch by (unfold chunk; lia).
  destruct (ud_frame _ _ _ (sp_data _ _ _ _ _ U1) _ f Hv Hfr) as (_ & _ & Hi).
  destruct (ld_bytes_page s1 f (Z.to_nat chunk) o Hi ltac:(lia) ltac:(lia)) as (bs & -> & Hlb & Hbs). cbn [mbind option_bind].
  rewrite decide_True by lia. cbn [mbind option_bind].
  destruct (IH s1 O1 T1 (list_inserts (Z.to_nat done) bs dst) (done + chunk) U1) as (rc & dst' & s' & O' & T' & -> & U' & S' & Hl' & Hdr & Hres);
    [done|done|lia|rewrite length_inserts; done|lia| |].
  { intros i Hi'. destruct (Z.ltb_spec i done).
    - destruct (Hpre i ltac:(lia)) as (b & Hb & Hub). exists b. rewrite list_lookup_inserts_lt by lia. split; [done|].
      eapply usteps_byte; [exact S1|unfold user_va; lia|tauto|done].
    - destruct (lookup_lt_is_Some_2 bs (Z.to_nat (i - done))) as [b Hb]; [lia|]. exists b. rewrite list_lookup_inserts by lia.
      replace (Z.to_nat i - Z.to_nat done)%nat with (Z.to_nat (i - done)) by lia. split; [done|].
      replace (src + i) with (src + done + (i - done)) by lia. destruct (page_add (src + done) (i - done) ltac:(lia) ltac:(fold o; lia)) as [Ep Em].
      unfold ubyte. rewrite (frame_of_page s1 T1 _ (src + done)) by (done || unfold user_va; lia). rewrite Hfr, Em. cbn [mbind option_bind].
      specialize (Hbs _ _ Hb). fold o. replace (o + (i - done)) with (o + Z.of_nat (Z.to_nat (i - done))) by lia. done. }
  exists rc, dst', s', O', T'. split_and!; [done|done|by eapply usteps_trans|by rewrite Hl', length_inserts| |done].
  rewrite Hdr. apply drop_inserts_ge. lia.
Qed.
Lemma to_user_loop_ok dst src n fuel : octets src -> n <= Z.of_nat (length src) -> 0 <= dst -> dst + n <= USER_LIMIT ->
  forall s O T done, uspace s O root T m -> 0 <= done <= n -> n - done <= Z.of_nat fuel ->
  exists rc s' O' T', to_user_loop p (Some m) fuel s dst src done n = Some (rc, s') /\ uspace s' O' root T' m /\
    usteps l (fun x => dst + done <= x < dst + n) s O T s' O' T' /\
    (rc = 0 /\ (forall i, done <= i < n -> exists b, src !! Z.to_nat i = Some b /\ ubyte s' T' (dst + i) = Some b) \/
     rc = -1 /\ exists va, dst <= va < dst + n /\ ubyte s' T' va = None).
Proof using All.
  intros Hoct Hn Hs Hlim. induction fuel as [|fuel IH]; intros s O T done U Hd Hf; cbn [to_user_loop].
  { destruct (Z.ltb_spec done n); [lia|]. exists 0, s, O, T. split_and!; [done|done|apply usteps_refl|]. left. split; [done|]. intros i Hi. lia. }
  destruct (Z.ltb_spec done n) as [Hlt|].
  2: { exists 0, s, O, T. split_and!; [done|done|apply usteps_refl|]. left. split; [done|]. intros i Hi. lia. }
  assert (user_va (dst + done)) as Hv by (unfold user_va; lia). rewrite u64_small by (apply user_range, Hv).
  destruct (access_turn s O T (dst + done) true U Hv) as (r & s1 & O1 & T1 & -> & U1 & S1 & Hr). cbn [mbind option_bind].
  assert (usteps l (fun x => dst + done <= x < dst + n) s O T s1 O1 T1) as S1w by (eapply usteps_weaken; [|exact S1]; tauto).
  rewrite (virt_to_kva_base s1 O1 root T1 m _ U1 Hv). destruct Hr as [[Hnf Hnb]|[-> [f Hfr]]].
  { exists (-1), s1, O1, T1. rewrite Hnf. split; [by destruct (negb (r =? 0))|]. split_and!; [done..|]. right. split; [done|].
    exists (dst + done). split; [lia|done]. }
  rewrite Hfr. cbn [Z.eqb negb mbind option_bind]. rewrite page_off_eq. destruct (page_split (dst + done)) as [Eva Hm].
  set (o := (dst + done) mod PAGE_SIZE) in *. set (chunk := Z.min (PAGE_SIZE - o) (n - done)).
  assert (0 < chunk <= n - done /\ chunk <= PAGE_SIZE - o) as Hch by (unfold chunk; lia).
  rewrite decide_True by lia. cbn [mbind option_bind]. set (bs := slice (Z.to_nat done) (Z.to_nat chunk) src).
  assert (length bs = Z.to_nat chunk) as Hlb by (apply length_slice; lia).
  assert (octets bs) as Hob by (apply Forall_take, Forall_drop, Hoct).
  destruct (ustore_page l s1 O1 root T1 m (dst + done) f bs U1 Hv Hfr ltac:(fold o; lia) Hob) as (s2 & E2 & U2 & S2 & Hst). fold o in E2. rewrite E2.
  cbn [mbind option_bind]. destruct (IH s2 O1 T1 (done + chunk) U2 ltac:(lia) ltac:(lia)) as (rc & s' & O' & T' & -> & U' & S' & Hres).
  exists rc, s', O', T'. split_and!; [done|done| |].
  - eapply usteps_trans; [exact S1w|]. eapply usteps_trans; [eapply usteps_weaken; [|exact S2]; simpl; lia|].
    eapply usteps_weaken; [|exact S']. simpl. lia.
  - destruct Hres as [[-> Hres]|[-> (va & Hva & Hno)]]; [left|right; split; [done|]; exists va; split; [lia|done]].
    split; [done|]. intros i Hi. destruct (Z.ltb_spec i (done + chunk)); [|apply Hres; lia].
    destruct (lookup_lt_is_Some_2 src (Z.to_nat i)) as [b Hb]; [lia|]. exists b. split; [done|].
    assert (bs !! Z.to_nat (i - done) = Some b) as Hib.
    { unfold bs. rewrite lookup_slice by lia. replace (Z.to_nat done + Z.to_nat (i - done))%nat with (Z.to_nat i) by lia. done. }
    apply Hst in Hib. replace (dst + done + Z.of_nat (Z.to_nat (i - done))) with (dst + i) in Hib by lia.
    eapply usteps_byte; [exact S'|unfold user_va; lia|simpl; lia|done].
Qed.

(** Reading a range that lies in user space: the bytes of the view, or -1 and a page is missing. *)
Lemma copy_from_user_spec s O T dst usrc n : uspace s O root T m -> 0 < usrc -> 0 <= n -> usrc + n <= USER_LIMIT -> n <= Z.of_nat (length dst) ->
  exists rc dst' s' O' T', copy_from_user p (Some m) s dst usrc n = Some (rc, dst', s') /\ uspace s' O' root T' m /\
    usteps l (fun _ => False) s O T s' O' T' /\ length dst' = length dst /\ drop (Z.to_nat n) dst' = drop (Z.to_nat n) dst /\
    (rc = 0 /\ (forall i, 0 <= i < n -> exists b, dst' !! Z.to_nat i = Some b /\ ubyte s' T' (usrc + i) = Some b) \/
     rc = -1 /\ exists va, usrc <= va < usrc + n /\ ubyte s' T' va = None).
Proof using All.
  intros U Hs Hn Hlim Hl. unfold copy_from_user. destruct (Z.eqb_spec usrc 0); [lia|]. destruct (Z.eqb_spec n 0) as [->|]; cbn [orb].
  - exists 0, dst, s, O, T. split_and!; [done|done|apply usteps_refl|done|done|]. left. split; [done|]. intros i Hi. lia.
  - apply from_user_loop_ok; [done|lia|done|lia|done|lia|]. intros i Hi. lia.
Qed.

(** Writing a range that lies in user space: the view has the bytes there, or -1 and a page is missing. *)
Lemma copy_to_user_spec s O T udst src n : uspace s O root T m -> 0 < udst -> 0 <= n -> udst + n <= USER_LIMIT -> n <= Z.of_nat (length src) -> octets src ->
  exists rc s' O' T', copy_to_user p (Some m) s udst src n = Some (rc, s') /\ uspace s' O' root T' m /\
    usteps l (fun x => udst <= x < udst + n) s O T s' O' T' /\
    (rc = 0 /\ (forall i, 0 <= i < n -> exists b, src !! Z.to_nat i = Some b /\ ubyte s' T' (udst + i) = Some b) \/
     rc = -1 /\ exists va, udst <= va < udst + n /\ ubyte s' T' va = None).
Proof using All.
  intros U Hs Hn Hlim Hl Ho. unfold copy_to_user. destruct (Z.eqb_spec udst 0); [lia|]. destruct (Z.eqb_spec n 0) as [->|]; cbn [orb].
  - exists 0, s, O, T. split_and!; [done|done|apply usteps_refl|]. left. split; [done|]. intros i Hi. lia.
  - destruct (to_user_loop_ok udst src n (Z.to_nat n) Ho Hl ltac:(lia) Hlim s O T 0 U ltac:(lia) ltac:(lia)) as (rc & s' & O' & T' & E & U' & S & R).
    exists rc, s', O', T'. split_and!; [done|done| |done]. by rewrite Z.add_0_r in S.
Qed.
(** One byte. *)
Lemma user_char s O T va : uspace s O root T m -> user_va va -> 0 < va ->
  exists r c s' O' T', copy_from_user p (Some m) s [0] va 1 = Some (r, [c], s') /\ uspace s' O' root T' m /\
    usteps l (fun _ => False) s O T s' O' T' /\ (r = 0 /\ ubyte s' T' va = Some c \/ r = -1 /\ ubyte s' T' va = None).
Proof using All.
  intros U Hv Hpos. destruct (copy_from_user_spec s O T [0] va 1 U Hpos ltac:(lia) ltac:(unfold user_va in Hv; lia) ltac:(simpl; lia))
    as (r & dst & s' & O' & T' & E & U' & S & Hl & _ & R). destruct dst as [|c [|? ?]]; [done| |done].
  exists r, c, s', O', T'. split_and!; [done..|]. destruct R as [[-> R]|[-> (va' & Hva' & Hn)]]; [left|right]; split; try done.
  - destruct (R 0 ltac:(lia)) as (b & [= ->] & Hb). by rewrite Z.add_0_r in Hb.
  - by replace va' with va in Hn by lia.
Qed.

Lemma cstr_loop_ok uptr n : forall s O T kbuf i, uspace s O root T m -> 0 < uptr -> 0 <= i -> uptr + i + Z.of_nat n <= USER_LIMIT ->
  i + Z.of_nat n < Z.of_nat (length kbuf) ->
  exists rc kbuf' s' O' T', cstr_loop p (Some m) s kbuf uptr i n = Some (rc, kbuf', s') /\ uspace s' O' root T' m /\
    usteps l (fun _ => False) s O T s' O' T' /\ length kbuf' = length kbuf /\ take (Z.to_nat i) kbuf' = take (Z.to_nat i) kbuf /\
    (rc = 0 /\ (exists str, (0 ∉ str) /\ (length str < n)%nat /\ slice (Z.to_nat i) (S (length str)) kbuf' = str ++ [0] /\
       forall j b, (str ++ [0]) !! j = Some b -> ubyte s' T' (uptr + i + Z.of_nat j) = Some b) \/ rc = -1).
Proof using All.
  induction n as [|n IH]; intros s O T kbuf i U Hp Hi Hlim Hl; cbn [cstr_loop].
  { unfold put. rewrite decide_True by lia. cbn [mbind option_bind]. exists (-1), (<[Z.to_nat i := 0]> kbuf), s, O, T.
    split_and!; [done|done|apply usteps_refl|by rewrite length_insert|by rewrite take_insert_ge|by right]. }
  assert (user_va (uptr + i)) as Hv by (unfold user_va; lia). rewrite u64_small by (apply user_range, Hv).
  destruct (user_char s O T (uptr + i) U Hv ltac:(lia)) as (r & c & s1 & O1 & T1 & -> & U1 & S1 & R). cbn [mbind option_bind].
  destruct R as [[-> Hc]|[-> _]]; cbn [Z.eqb negb].
  2: { exists (-1), kbuf, s1, O1, T1. split_and!; [done..|by right]. }
  cbn [lookup list_lookup mbind option_bind]. unfold put. rewrite decide_True by lia. cbn [mbind option_bind]. destruct (Z.eqb_spec c 0) as [->|Hne].
  - exists 0, (<[Z.to_nat i := 0]> kbuf), s1, O1, T1. split_and!; [done..|by rewrite length_insert|by rewrite take_insert_ge|left]. split; [done|].
    exists []. split_and!; [by intros ?%elem_of_nil|simpl; lia| |].
    + rewrite (slice_S _ 0 _ 0); [done|]. apply list_lookup_insert_eq. lia.
    + intros [|j] b; [|done]. intros [= <-]. by rewrite Z.add_0_r.
  - destruct (IH s1 O1 T1 (<[Z.to_nat i := c]> kbuf) (i + 1) U1 Hp ltac:(lia) ltac:(lia) ltac:(rewrite length_insert; lia))
      as (rc & kbuf' & s' & O' & T' & -> & U' & S' & Hl' & Ht & R). rewrite length_insert in Hl'.
    replace (Z.to_nat (i + 1)) with (S (Z.to_nat i)) in * by lia.
    assert (kbuf' !! Z.to_nat i = Some c) as Hci.
    { rewrite <- (lookup_take_lt kbuf' (S (Z.to_nat i))), Ht, lookup_take_lt by lia. apply list_lookup_insert_eq. lia. }
    exists rc, kbuf', s', O', T'. split_and!; [done|done|by eapply usteps_trans|done| |].
    + apply (f_equal (take (Z.to_nat i))) in Ht. rewrite !take_take, !Nat.min_l in Ht by lia. rewrite Ht. by apply take_insert_ge.
    + destruct R as [[-> (str & Hz & Hn & Hsl & Hb)]| ->]; [left|by right]. split; [done|]. exists (c :: str). split_and!.
      * apply not_elem_of_cons. by split.
      * simpl. lia.
      * cbn [length app]. by rewrite (slice_S _ _ _ c Hci), Hsl.
      * intros [|j] b; cbn [app lookup list_lookup].
        -- intros [= <-]. rewrite Z.add_0_r. eapply usteps_byte; [exact S'|done|tauto|done].
        -- intros Hj%Hb. replace (uptr + i + Z.of_nat (S j)) with (uptr + (i + 1) + Z.of_nat j) by lia. done.
Qed.
End Copy.
End Space.

(** ** The operations *)

(** A range passes [validate_user_ptr] exactly when it lies in user space, above the first page; the sum of
    address and size does not wrap around. *)
Lemma validate_user_ptr_spec addr size : 0 <= addr < 2 ^ 64 -> 0 <= size < 2 ^ 64 ->
  validate_user_ptr addr size = true <-> 0x1000 <= addr < USER_LIMIT /\ addr + size <= USER_LIMIT.
Proof.
  intros Ha Hs. unfold validate_user_ptr. destruct (Z.eqb_spec addr 0); [lia|]. destruct (Z.ltb_spec addr 0x1000); [lia|].
  destruct (Z.leb_spec USER_LIMIT addr); [lia|]. unfold USER_LIMIT in *. destruct (Z.ltb_spec 0 size); cbn [andb negb]; [|lia].
  destruct (Z_lt_ge_dec (addr + size) (2 ^ 64)).
  - rewrite u64_small by lia. destruct (Z.ltb_spec (addr + size) addr); [lia|]. destruct (Z.ltb_spec 0x0000800000000000 (addr + size)); cbn [negb]; lia.
  - replace (u64 (addr + size)) with (addr + size - 2 ^ 64) by (unfold u64; rewrite <- (Z.mod_add _ (-1)) by lia; symmetry; apply Z.mod_small; lia).
    destruct (Z.ltb_spec (addr + size - 2 ^ 64) addr); [|lia]. split; [done|lia].
Qed.

Section Operations.
Context `{BlockAllocLaws St}.

Lemma copy_user_cstr_spec p l root m (s : St) O T kbuf uptr max_u :
  uspace s O root T m -> vmap_inv p m l -> 0 <= uptr < 2 ^ 64 -> 0 <= max_u -> uptr + max_u <= USER_LIMIT -> (0 < length kbuf)%nat ->
  exists rc kbuf' s' O' T', copy_user_cstr p (Some m) s kbuf (Z.of_nat (length kbuf)) uptr max_u = Some (rc, kbuf', s') /\
    uspace s' O' root T' m /\ usteps l (fun _ => False) s O T s' O' T' /\ length kbuf' = length kbuf /\
    (rc = 0 /\ (exists str, (0 ∉ str) /\ take (S (length str)) kbuf' = str ++ [0] /\
       forall j b, (str ++ [0]) !! j = Some b -> ubyte s' T' (uptr + Z.of_nat j) = Some b) \/ rc = -1).
Proof.
  intros U V Hu Hm Hlim Hl. unfold copy_user_cstr. destruct (Z.eqb_spec (Z.of_nat (length kbuf)) 0); [lia|]. cbn [orb].
  destruct (validate_user_ptr uptr 1) eqn:Hv; cbn [negb].
  2: { exists (-1), kbuf, s, O, T. split_and!; [done|done|apply usteps_refl|done|by right]. }
  apply validate_user_ptr_spec in Hv as [[Hlo _] _]; [|done|lia].
  destruct (cstr_loop_ok p l root m V uptr (Z.to_nat (Z.min (Z.of_nat (length kbuf) - 1) max_u)) s O T kbuf 0 U) as (rc & kbuf' & s' & O' & T' & E & U' & S & Hlen & _ & R);
    [lia|lia|lia|lia|]. exists rc, kbuf', s', O', T'. split_and!; [done..|]. destruct R as [[-> (str & Hz & _ & Hsl & Hb)]| ->]; [left|by right].
  split; [done|]. exists str. split_and!; [done|done|]. intros j b Hj. specialize (Hb j b Hj). by rewrite Z.add_0_r in Hb.
Qed.

(** C18: [copy_to_user] of a range that [validate_user_ptr] accepts returns.  On success the process sees exactly the bytes of
    the kernel buffer in the range; on failure (-1) a page of the range is missing.  Either way the rest of
    its memory is unchanged, except that pages of its regions may have come in as zeroes, and no page that
    is owned by anybody else, table or data, is written. *)
Theorem copy_to_user_ok p l root m (s : St) O T udst src n :
  uspace s O root T m -> vmap_inv p m l -> 0 <= udst < 2 ^ 64 -> 0 <= n < 2 ^ 64 -> validate_user_ptr udst n = true ->
  n <= Z.of_nat (length src) -> octets src ->
  exists rc s' O' T', copy_to_user p (Some m) s udst src n = Some (rc, s') /\ uspace s' O' root T' m /\
    usteps l (fun x => udst <= x < udst + n) s O T s' O' T' /\
    (rc = 0 /\ (forall i, 0 <= i < n -> exists b, src !! Z.to_nat i = Some b /\ ubyte s' T' (udst + i) = Some b) \/
     rc = -1 /\ exists va, udst <= va < udst + n /\ ubyte s' T' va = None).
Proof.
  intros U V Hd Hn [[Hlo _] Hlim]%validate_user_ptr_spec Hl Ho; [|done|done]. apply copy_to_user_spec; (done || lia).
Qed.

(** What [copy_to_user] wrote, [copy_from_user] reads back: after a successful write the read of the same
    range succeeds and delivers the bytes written, and nothing else of the kernel buffer changes. *)
Theorem copy_user_roundtrip p l root m (s : St) O T va src n dst :
  uspace s O root T m -> vmap_inv p m l -> 0 <= va < 2 ^ 64 -> 0 <= n < 2 ^ 64 -> validate_user_ptr va n = true ->
  n <= Z.of_nat (length src) -> n <= Z.of_nat (length dst) -> octets src ->
  exists rc s1, copy_to_user p (Some m) s va src n = Some (rc, s1) /\
    (rc = 0 -> exists s2, copy_from_user p (Some m) s1 dst va n = Some (0, take (Z.to_nat n) src ++ drop (Z.to_nat n) dst, s2)).
Proof.
  intros U V Hd Hn [[Hlo _] Hlim]%validate_user_ptr_spec Hls Hld Ho; [|done|done].
  destruct (copy_to_user_spec p l root m V s O T va src n U ltac:(lia) ltac:(lia) Hlim Hls Ho) as (rc & s1 & O1 & T1 & E1 & U1 & S1 & R1).
  exists rc, s1. split; [done|]. intros ->. destruct R1 as [[_ R1]|[? _]]; [|done].
  destruct (copy_from_user_spec p l root m V s1 O1 T1 dst va n U1 ltac:(lia) ltac:(lia) Hlim Hld) as (rc & dst' & s2 & O2 & T2 & E2 & U2 & S2 & Hl2 & Hdr & R2).
  assert (forall i b, ubyte s1 T1 (va + i) = Some b -> 0 <= i < n -> ubyte s2 T2 (va + i) = Some b) as Hk.
  { intros i b Hb Hi. eapply usteps_byte; [exact S2|unfold user_va; lia|tauto|done]. }
  exists s2. rewrite E2. destruct R2 as [[-> R2]|[_ (x & Hx & Hno)]].
  - do 3 f_equal. rewrite <- (take_drop (Z.to_nat n) dst'), Hdr. f_equal. apply list_eq. intros i. destruct (decide (i < Z.to_nat n)%nat) as [Hi|Hi].
    + rewrite !lookup_take_lt by done. destruct (R1 (Z.of_nat i) ltac:(lia)) as (b & Hb & Hub). destruct (R2 (Z.of_nat i) ltac:(lia)) as (b' & Hb' & Hub').
      rewrite Nat2Z.id in Hb, Hb'. apply Hk in Hub; [|lia]. congruence.
    + by rewrite !lookup_take_ge by lia.
  - exfalso. destruct (R1 (x - va) ltac:(lia)) as (b & _ & Hub). apply Hk in Hub; [|lia]. replace (va + (x - va)) with x in Hub by lia. congruence.
Qed.
End Operations.
