(* ===== verification/Elf.v ===== *)
(** * Loading a program (src/kernel/arch/elf.c, lines 16-218)

    The headers of an ELF64 image, the loader that maps its segments into an address
    space, and the stack that a new process starts on.  The image is the list of the bytes
    read from the file.  Steps that can fail and give up are written in the monad [eM]: a
    computation on the memory whose result is [None] when the C code returns 0. *)

From Stdlib Require Import ZArith Lia.
From stdpp Require Import base gmap list.
From S2P Require Import Prelude KString Phys PhysSpec PhysIface VRegion PageTable UserMem.

Local Open Scope Z_scope.

Definition ELFCLASS64 : Z := 2.
Definition ELFDATA2LSB : Z := 1.
Definition EM_X86_64 : Z := 62.
Definition ET_EXEC : Z := 2.
Definition ET_DYN : Z := 3.
Definition PT_LOAD : Z := 1.
Definition PT_INTERP : Z := 3.
Definition PF_X : Z := 0x1.
Definition PF_W : Z := 0x2.
Definition RGN_STACK : Z := 1.
Definition RGN_HEAP : Z := 2.
Definition RGN_FILE : Z := 3.
Definition USER_STACK_SIZE : Z := 2 * 1024 * 1024.
Definition USER_STACK_TOP : Z := 0x00007FFF00000000.

(** ** Headers *)

(** The fields of the file header that the loader reads. *)
Record elf64_ehdr_t := mk_ehdr {
  e_ident : list Z;
  e_type : Z;
  e_machine : Z;
  e_entry : Z;
  e_phoff : Z;
  e_phentsize : Z;
  e_phnum : Z;
}.

Record elf64_phdr_t := mk_phdr {
  p_type : Z;
  p_flags : Z;
  p_offset : Z;
  p_vaddr : Z;
  p_filesz : Z;
  p_memsz : Z;
}.

(** The little-endian integer of [n] bytes at [off]. *)
Definition rd_le (img : list Z) (off n : nat) : option Z :=
  if decide (off + n <= length img)%nat then Some (le_val (slice off n img)) else None.

Definition elf64_ehdr (img : list Z) : option elf64_ehdr_t :=
  type ← rd_le img 16 2; machine ← rd_le img 18 2; entry ← rd_le img 24 8; phoff ← rd_le img 32 8;
  phentsize ← rd_le img 54 2; phnum ← rd_le img 56 2;
  Some (mk_ehdr (slice 0 16 img) type machine entry phoff phentsize phnum).

Definition elf64_phdr (img : list Z) (off : nat) : option elf64_phdr_t :=
  type ← rd_le img off 4; flags ← rd_le img (off + 4) 4; offset ← rd_le img (off + 8) 8; vaddr ← rd_le img (off + 16) 8;
  filesz ← rd_le img (off + 32) 8; memsz ← rd_le img (off + 40) 8;
  Some (mk_phdr type flags offset vaddr filesz memsz).

(** The tests of the file header that return 0. *)
Definition ehdr_ok (eh : elf64_ehdr_t) (image_size : Z) : bool :=
  bool_decide (take 4 (e_ident eh) = [0x7f; 0x45; 0x4c; 0x46]) &&
  bool_decide (e_ident eh !! 4%nat = Some ELFCLASS64) && bool_decide (e_ident eh !! 5%nat = Some ELFDATA2LSB) &&
  (e_machine eh =? EM_X86_64) && ((e_type eh =? ET_EXEC) || (e_type eh =? ET_DYN)) &&
  negb (e_phnum eh =? 0) && (e_phnum eh <=? 48) && (56 <=? e_phentsize eh) && (e_phoff eh <? image_size) &&
  (u64 (e_phoff eh + u64 (e_phnum eh * e_phentsize eh)) <=? image_size).

Definition seg_prot (flags : Z) : Z :=
  let prot := PROT_READ in
  let prot := if Z.land flags PF_W =? 0 then prot else Z.lor prot PROT_WRITE in
  if Z.land flags PF_X =? 0 then prot else Z.lor prot PROT_EXEC.

Section Elf.
Context `{BlockAlloc St}.

(** The memory, the pool of regions and the map that is filled. *)
Record vmst := mk_vmst { vt_mem : St; vt_pool : rpool; vt_map : vmap_t }.

(** A segment that is loaded; [false] is the return of 0. *)
Definition load_segment (v : vmst) (img : list Z) (image_size : Z) (ph : elf64_phdr_t) : option (bool * vmst) :=
  if USER_LIMIT <=? p_vaddr ph then Some (false, v)
  else if (image_size <? p_offset ph) || (image_size - p_offset ph <? p_filesz ph) then Some (false, v)
  else
    let prot := seg_prot (p_flags ph) in
    let seg_vaddr := PAGE_ALIGN_DOWN (p_vaddr ph) in
    let seg_end := PAGE_ALIGN (u64 (p_vaddr ph + p_memsz ph)) in
    let seg_sz := u64 (seg_end - seg_vaddr) in
    if (seg_sz =? 0) || (64 * 1024 * 1024 <? seg_sz) then Some (false, v)
    else
      '(r, p, m) ← amm_region_add (vt_pool v) (Some (vt_map v)) seg_vaddr seg_sz prot RGN_FILE (-1);
      m ← m;
      let v := mk_vmst (vt_mem v) p m in
      if negb (r =? 0) then Some (false, v)
      else
        '(k, s) ← amm_region_populate (vt_mem v) (Some m) seg_vaddr seg_sz (Z.lor prot PROT_WRITE);
        match k with
        | None => Some (false, mk_vmst s p m)
        | Some _ =>
            '(r, s) ← (if 0 <? p_filesz ph
                       then vm_copy_to_user s m (p_vaddr ph) (drop (Z.to_nat (p_offset ph)) img) (p_filesz ph)
                       else Some (0, s));
            if negb (r =? 0) then Some (false, mk_vmst s p m)
            else
              '(r, s) ← (if p_filesz ph <? p_memsz ph
                         then vm_zero_user s m (u64 (p_vaddr ph + p_filesz ph)) (p_memsz ph - p_filesz ph)
                         else Some (0, s));
              Some (r =? 0, mk_vmst s p m)
        end.

(** The program headers from number [i] on; [n] are left. *)
Fixpoint phdr_loop (v : vmst) (img : list Z) (image_size : Z) (eh : elf64_ehdr_t) (i : Z) (n : nat) : option (bool * vmst) :=
  match n with
  | O => Some (true, v)
  | S n' =>
      let ph_off := u64 (e_phoff eh + i * e_phentsize eh) in
      if image_size <? u64 (ph_off + 56) then Some (false, v)
      else
        ph ← elf64_phdr img (Z.to_nat ph_off);
        if p_type ph =? PT_INTERP then Some (false, v)
        else if negb (p_type ph =? PT_LOAD) then phdr_loop v img image_size eh (i + 1) n'
        else
          '(ok, v) ← load_segment v img image_size ph;
          if negb ok then Some (false, v) else phdr_loop v img image_size eh (i + 1) n'
  end.

(** The entry point, or 0. *)
Definition elf_load (img : list Z) (image_size : Z) (v : vmst) : option (Z * vmst) :=
  if image_size <? 64 then Some (0, v)
  else
    eh ← elf64_ehdr img;
    if negb (ehdr_ok eh image_size) then Some (0, v)
    else
      '(ok, v) ← phdr_loop v img image_size eh 0 (Z.to_nat (e_phnum eh));
      Some (if (ok : bool) then e_entry eh else 0, v).

(** ** The initial stack *)

Definition eM (A : Type) : Type := St -> option (option A * St).

Definition eret {A} (a : A) : eM A := fun s => Some (Some a, s).

Definition ebind {A B} (x : eM A) (f : A -> eM B) : eM B := fun s =>
  '(r, s) ← x s; match r with None => Some (None, s) | Some a => f a s end.

Local Notation "x <~ y ; z" := (ebind y (fun x => z)) (at level 60, y at level 50, right associativity, z at level 60).

(** A string of the kernel, up to its terminator. *)
Fixpoint str_len (s : list Z) : option nat :=
  match s with
  | [] => None
  | c :: s' => if c =? 0 then Some 0%nat else n ← str_len s'; Some (S n)
  end.

(** A vector of strings is [None] for a null pointer and else the strings before its null pointer. *)
Definition count_strs (arr : option (list (list Z))) : nat := match arr with None => 0 | Some l => length l end.

Section stack.
Context (vm : vmap_t).

Definition push_user_bytes (sp : Z) (src : list Z) (len : Z) : eM Z := fun s =>
  let sp := u64 (sp - len) in
  '(r, s) ← vm_copy_to_user s vm sp src len;
  Some (if r =? 0 then Some sp else None, s).

Definition push_user_u64 (sp val : Z) : eM Z := push_user_bytes sp (le_bytes 8 val) 8.

(** The strings from the last to the first; their addresses, the first in front. *)
Fixpoint push_strs (sp : Z) (rstrs : list (list Z)) (ptrs : list Z) : eM (Z * list Z) :=
  match rstrs with
  | [] => eret (sp, ptrs)
  | str :: rstrs' => fun s =>
      n ← str_len str;
      (sp <~ push_user_bytes sp str (Z.of_nat n + 1); push_strs sp rstrs' (sp :: ptrs)) s
  end.

Fixpoint push_ptrs (sp : Z) (rptrs : list Z) : eM Z :=
  match rptrs with
  | [] => eret sp
  | q :: rptrs' => sp <~ push_user_u64 sp q; push_ptrs sp rptrs'
  end.

(** The strings of a vector that fit: 63 at most. *)
Definition vec_strs (arr : option (list (list Z))) : list (list Z) :=
  take (if (63 <? count_strs arr)%nat then 63 else count_strs arr) (default [] arr).

Definition build_user_stack_vm (argv envp : option (list (list Z))) : eM Z :=
  let args := vec_strs argv in
  let envs := vec_strs envp in
  er <~ push_strs USER_STACK_TOP (reverse envs) [];
  ar <~ push_strs (fst er) (reverse args) [];
  let sp := Z.land (fst ar) (u64 (Z.lnot 15)) in
  sp <~ (if Nat.odd (length args + length envs + 3) then push_user_u64 sp 0 else eret sp);
  sp <~ push_user_u64 sp 0;
  sp <~ push_ptrs sp (reverse (snd er));
  sp <~ push_user_u64 sp 0;
  sp <~ push_ptrs sp (reverse (snd ar));
  push_user_u64 sp (Z.of_nat (length args)).
End stack.
End Elf.
Arguments vmst St : clear implicits.
