(* ===== verification/ElfSpec.v ===== *)
(** * Correctness of the program loader

    [elf_load] puts the bytes of every loadable segment at its address, with zeroes behind
    them, in a region of the right protection; [build_user_stack_vm] lays out the argument
    count, the vectors and the strings as the System V ABI asks, on an aligned stack
    pointer. *)

From Stdlib Require Import ZArith Lia.
From stdpp Require Import base gmap functions list.
From S2P Require Import Prelude KString Phys PhysSpec PhysIface VRegion PageTable PageTableSpec VmSpace UserMem UserMemSpec Elf.

Local Open Scope Z_scope.

Section Fill.
Context `{BlockAllocLaws St}.
Implicit Types (s : St) (O : owned) (T : gmap (list Z) Z).

Lemma uspace_map s O root T m m' : vm_cr3 m' = vm_cr3 m -> uspace s O root T m -> uspace s O root T m'.
Proof using. intros E U. split; [apply U|apply U|]. rewrite E. apply U. Qed.

Lemma usteps_mono (l l' : list (nat * rgn)) w s O T s' O' T' : (forall x, x ∈ l -> x ∈ l') -> usteps l w s O T s' O' T' -> usteps l' w s O T s' O' T'.
Proof using.
  intros Hl S. split; try apply S. intros va Hv. destruct (us_frames _ _ _ _ _ _ _ _ S va Hv) as [?|(? & (i & g & x & Hi & R) & ?)]; [by left|right].
  split_and!; [done| |done]. exists i, g, x. split; [by apply Hl|done].
Qed.

(** ** Copying into a map *)

(** Copying a range of user space into mapped pages: done, or -1 and a page is missing. *)
Lemma vm_copy_loop_ok l root m fuel : forall s O T dst src len, uspace s O root T m -> 0 <= dst -> 0 <= len -> dst + len <= USER_LIMIT ->
  len <= Z.of_nat (length src) -> octets src -> len <= Z.of_nat fuel ->
  exists rc s', vm_copy_loop fuel s m dst src len = Some (rc, s') /\ uspace s' O root T m /\
    usteps l (fun x => dst <= x < dst + len) s O T s' O T /\
    (rc = 0 /\ (forall i, 0 <= i < len -> exists b, src !! Z.to_nat i = Some b /\ ubyte s' T (dst + i) = Some b) \/
     rc = -1 /\ exists va, dst <= va < dst + len /\ ubyte s' T va = None).
Proof using All.
  induction fuel as [|fuel IH]; intros s O T dst src len U Hd Hlen Hlim Hl Ho Hf; cbn [vm_copy_loop].
  { destruct (Z.ltb_spec 0 len); [lia|]. exists 0, s. split_and!; [done|done|apply usteps_refl|]. left. split; [done|]. intros i Hi. lia. }
  destruct (Z.ltb_spec 0 len) as [Hpos|].
  2: { exists 0, s. split_and!; [done|done|apply usteps_refl|]. left. split; [done|]. intros i Hi. lia. }
  assert (user_va dst) as Hv by (unfold user_va; lia). rewrite (virt_to_kva_frame s O root T m dst U Hv). cbn [mbind option_bind].
  destruct (frame_of s T dst) as [f|] eqn:Hfr; cbn [mbind option_bind].
  2: { exists (-1), s. split_and!; [done|done|apply usteps_refl|]. right. split; [done|]. exists dst. split; [lia|]. unfold ubyte. by rewrite Hfr. }
  rewrite page_off_eq. destruct (page_split dst) as [Eva Hm]. set (o := dst mod PAGE_SIZE) in *. set (chunk := Z.min (PAGE_SIZE - o) len).
  assert (0 < chunk <= len /\ chunk <= PAGE_SIZE - o) as Hch by (unfold chunk; lia).
  rewrite decide_True by lia. cbn [mbind option_bind].
  assert (length (take (Z.to_nat chunk) src) = Z.to_nat chunk) as Hlb by (rewrite length_take; lia).
  destruct (ustore_page l s O root T m dst f (take (Z.to_nat chunk) src) U Hv Hfr ltac:(fold o; lia) ltac:(by apply Forall_take)) as (s2 & E2 & U2 & S2 & Hst).
  fold o in E2. rewrite E2. cbn [mbind option_bind]. rewrite u64_small by (unfold USER_LIMIT in *; lia). rewrite Hlb, Z2Nat.id in S2 by lia.
  destruct (IH s2 O T (dst + chunk) (drop (Z.to_nat chunk) src) (len - chunk) U2) as (rc & s' & -> & U' & S' & R);
    [lia|lia|lia|rewrite length_drop; lia|by apply Forall_drop|lia|].
  exists rc, s'. split_and!; [done|done| |].
  - eapply usteps_trans; [eapply usteps_weaken; [|exact S2]; simpl; lia|]. eapply usteps_weaken; [|exact S']. simpl. lia.
  - destruct R as [[-> R]|[-> (va & Hva & Hno)]]; [left|right; split; [done|]; exists va; split; [lia|done]]. split; [done|]. intros i Hi.
    destruct (Z.ltb_spec i chunk).
    + destruct (lookup_lt_is_Some_2 src (Z.to_nat i)) as [b Hb]; [lia|]. exists b. split; [done|].
      assert (take (Z.to_nat chunk) src !! Z.to_nat i = Some b) as Hib by (by rewrite lookup_take_lt by lia).
      apply Hst in Hib. rewrite Z2Nat.id in Hib by lia. eapply usteps_byte; [exact S'|unfold user_va; lia|simpl; lia|done].
    + destruct (R (i - chunk) ltac:(lia)) as (b & Hb & Hub). exists b. rewrite lookup_drop in Hb.
      replace (Z.to_nat chunk + Z.to_nat (i - chunk))%nat with (Z.to_nat i) in Hb by lia. split; [done|].
      replace (dst + i) with (dst + chunk + (i - chunk)) by lia. done.
Qed.

(** Clearing is copying zeroes. *)
Lemma vm_zero_copy m fuel : forall s dst len, vm_zero_loop fuel s m dst len = vm_copy_loop fuel s m dst (replicate (Z.to_nat len) 0) len.
Proof using.
  induction fuel as [|fuel IH]; intros s dst len; cbn [vm_zero_loop vm_copy_loop]; [done|]. destruct (Z.ltb_spec 0 len) as [Hpos|]; [|done].
  destruct (amm_virt_to_kva s (Some m) dst) as [[kva|]|]; cbn [mbind option_bind]; [|done|done].
  rewrite page_off_eq. destruct (page_split dst) as [_ Hm]. set (chunk := Z.min _ len). assert (0 < chunk <= len) as Hch by (unfold chunk; lia).
  rewrite decide_True by (rewrite length_replicate; lia). cbn [mbind option_bind]. rewrite take_replicate, Nat.min_l by lia.
  destruct (st_bytes s kva (replicate (Z.to_nat chunk) 0)); cbn [mbind option_bind]; [|done]. rewrite IH, drop_replicate. do 2 f_equal. lia.
Qed.

(** ** Populating a range *)

Lemma populate_space l root m hi prot fuel : forall s O T va, uspace s O root T m -> 0 <= va -> hi <= USER_LIMIT -> (PAGE_SIZE | hi - va) ->
  (forall x, va <= x < hi -> region_page l x) -> hi - va <= Z.of_nat fuel * PAGE_SIZE ->
  exists ok s' O' T', populate_loop fuel s m va hi prot = Some (ok, s') /\ uspace s' O' root T' m /\ usteps l (fun _ => False) s O T s' O' T'.
Proof using All.
  induction fuel as [|fuel IH]; intros s O T va U Hva Hhi Hdiv Hc Hf; cbn [populate_loop]; destruct (Z.ltb_spec va hi) as [Hlt|]; try lia;
    try (exists true, s, O, T; split_and!; [done|done|apply usteps_refl]).
  assert (user_va va) as Hv by (unfold user_va; lia). rewrite (virt_to_kva_frame s O root T m va U Hv). cbn [mbind option_bind].
  assert (va + PAGE_SIZE <= hi /\ (PAGE_SIZE | hi - (va + PAGE_SIZE))) as [Hstep Hdiv'].
  { destruct Hdiv as [c Hc']. unfold PAGE_SIZE in *. split; [lia|]. exists (c - 1). lia. }
  assert (forall s1 O1 T1, uspace s1 O1 root T1 m -> usteps l (fun _ => False) s O T s1 O1 T1 -> exists ok s' O' T',
    populate_loop fuel s1 m (u64 (va + PAGE_SIZE)) hi prot = Some (ok, s') /\ uspace s' O' root T' m /\ usteps l (fun _ => False) s O T s' O' T') as IH'.
  { intros s1 O1 T1 U1 S1. rewrite u64_small by (unfold PAGE_SIZE, USER_LIMIT in *; lia).
    destruct (IH s1 O1 T1 (va + PAGE_SIZE) U1) as (ok & s' & O' & T' & E & U' & S'); try done; [unfold PAGE_SIZE in *; lia|intros x Hx; apply Hc; unfold PAGE_SIZE in *; lia|unfold PAGE_SIZE in *; lia|].
    exists ok, s', O', T'. split_and!; [done|done|by eapply usteps_trans]. }
  destruct (frame_of s T va) as [f|] eqn:Hfr; cbn [mbind option_bind]; [apply (IH' s O T U), usteps_refl|].
  pose proof (sp_pt _ _ _ _ _ U) as I.
  destruct (ba_alloc_law s O 0 (pt_owns _ _ _ _ _ I)) as [(s1 & -> & Ho & Hs)|(q & s1 & -> & Hq0 & Hfresh & Ho & Hs)]; cbn [mbind option_bind].
  - destruct (pt_inv_same user_half s O root T s1 I Ho Hs) as [I1 G].
    destruct (uspace_page l s O root T m s1 O T va prot U I1) as [U1 S1]; [split; [done|by left|intros a Ha _; by apply Hs]| |done|apply Hc; lia|done|].
    { left. intros va'. by eapply grown_xlate. }
    exists false, s1, O, T. done.
  - destruct (Z.eqb_spec (q * PAGE_SIZE) 0) as [E|_]; [unfold PAGE_SIZE in E; lia|]. rewrite (sp_cr3 _ _ _ _ _ U).
    destruct (map_new_page_ok user_half s O root T s1 q va prot I (user_va_half va Hv) Hq0 Hfresh Ho Hs) as (s2 & O2 & T2 & -> & I2 & K2 & Hx2).
    cbn [mbind option_bind]. destruct (uspace_page l s O root T m s2 O2 T2 va prot U I2 K2 Hx2 Hv ltac:(apply Hc; lia) Hfr) as [U2 S2]. by apply (IH' s2 O2 T2).
Qed.

Lemma page_align_exact x : 0 <= x -> x + PAGE_SIZE <= 2 ^ 64 -> (PAGE_SIZE | x) -> PAGE_ALIGN x = x /\ PAGE_ALIGN_DOWN x = x.
Proof using.
  intros Hx Hlim [c Hc]. unfold PAGE_ALIGN, PAGE_ALIGN_DOWN. rewrite (u64_small (x + PAGE_SIZE - 1)) by (unfold PAGE_SIZE in *; lia).
  rewrite !page_mask by (unfold PAGE_SIZE in *; lia). subst x. split; [|by rewrite Z.div_mul].
  replace (c * PAGE_SIZE + PAGE_SIZE - 1) with (c * PAGE_SIZE + (PAGE_SIZE - 1)) by lia.
  rewrite Z.div_add_l by done. rewrite (Z.div_small (PAGE_SIZE - 1)) by done. lia.
Qed.

Lemma region_populate_space l root m s O T base size prot : uspace s O root T m -> 0 <= base -> 0 < size -> base + size <= USER_LIMIT ->
  (PAGE_SIZE | base) -> (PAGE_SIZE | size) -> (forall x, base <= x < base + size -> region_page l x) ->
  exists k s' O' T', amm_region_populate s (Some m) base size prot = Some (k, s') /\ uspace s' O' root T' m /\
    usteps l (fun _ => False) s O T s' O' T' /\ (is_Some k -> is_Some (frame_of s' T' base)).
Proof using All.
  intros U Hb Hs Hlim Db Ds Hc. unfold amm_region_populate. destruct (Z.eqb_spec size 0); [lia|]. fold (PAGE_ALIGN_DOWN base).
  assert (PAGE_SIZE | base + size) as Dbs by by apply Z.divide_add_r.
  rewrite (u64_small (base + size)) by (unfold USER_LIMIT in *; lia).
  rewrite (proj2 (page_align_exact base Hb ltac:(unfold PAGE_SIZE, USER_LIMIT in *; lia) Db)).
  rewrite (proj1 (page_align_exact (base + size) ltac:(lia) ltac:(unfold PAGE_SIZE, USER_LIMIT in *; lia) Dbs)).
  destruct (Z.leb_spec (base + size) base); [lia|].
  destruct (populate_space l root m (base + size) prot (Z.to_nat ((base + size - base) / PAGE_SIZE)) s O T base U) as (ok & s' & O' & T' & -> & U' & S');
    [done|done|by replace (base + size - base) with size by lia|done| |].
  { replace (base + size - base) with size by lia. destruct Ds as [c ->]. rewrite Z.div_mul by done. rewrite Z2Nat.id; unfold PAGE_SIZE in *; lia. }
  cbn [mbind option_bind]. destruct ok.
  - rewrite (virt_to_kva_frame s' O' root T' m base U') by (unfold user_va; lia). cbn [mbind option_bind].
    eexists _, s', O', T'. split_and!; [done..|]. destruct (frame_of s' T' base); [by eexists|by intros [? ?]].
  - exists None, s', O', T'. split_and!; [done..|]. by intros [? ?].
Qed.

Lemma link_region_cr3 p m nr base p' m' : link_region p m nr base = Some (p', m') -> vm_cr3 m' = vm_cr3 m.
Proof using.
  unfold link_region. intros (front & _ & E)%bind_Some. apply bind_Some in E as (r & _ & E). destruct front.
  - apply bind_Some in E as (p1 & _ & [= _ <-]). done.
  - apply bind_Some in E as (h & _ & E). apply bind_Some in E as (c & _ & E). apply bind_Some in E as (x & _ & E).
    apply bind_Some in E as (p2 & _ & E). apply bind_Some in E as (c' & _ & [= _ <-]). done.
Qed.

Lemma region_add_cr3 p m base size prot kind fd r p' m' : amm_region_add p (Some m) base size prot kind fd = Some (r, p', Some m') -> vm_cr3 m' = vm_cr3 m.
Proof using.
  unfold amm_region_add. destruct (size =? 0); [by intros [= _ _ <-]|]. intros ([|] & _ & E)%bind_Some; [by injection E as _ _ <-|].
  destruct (region_alloc p) as [[nr p1]|]; [|by injection E as _ _ <-]. apply bind_Some in E as ([p2 m2] & E2 & E). injection E as _ _ <-.
  by eapply link_region_cr3.
Qed.

(** ** A segment *)

(** The file part is not longer than the segment, and the segment ends in user space. *)
Definition seg_wf (ph : elf64_phdr_t) : Prop :=
  0 <= p_offset ph /\ 0 <= p_vaddr ph /\ 0 <= p_filesz ph <= p_memsz ph /\ p_vaddr ph + p_memsz ph + PAGE_SIZE <= USER_LIMIT.

Definition in_seg (ph : elf64_phdr_t) (x : Z) : Prop := p_vaddr ph <= x < p_vaddr ph + p_memsz ph.

(** The segment is in memory, in a region of [l] with its protection. *)
Record loaded (img : list Z) s T (l : list (nat * rgn)) (ph : elf64_phdr_t) : Prop := {
  ld_file : forall k, 0 <= k < p_filesz ph -> exists b, img !! Z.to_nat (p_offset ph + k) = Some b /\ ubyte s T (p_vaddr ph + k) = Some b;
  ld_zero : forall k, p_filesz ph <= k < p_memsz ph -> ubyte s T (p_vaddr ph + k) = Some 0;
  ld_region : exists i g, (i, g) ∈ l /\ rg_prot g = seg_prot (p_flags ph) /\ rg_base g <= p_vaddr ph /\ p_vaddr ph + p_memsz ph <= rg_end g;
}.

Lemma loaded_kept img s O T s' O' T' l l' w ph : seg_wf ph -> loaded img s T l ph -> usteps l' w s O T s' O' T' -> (forall x, x ∈ l -> x ∈ l') ->
  (forall x, in_seg ph x -> ~ w x) -> loaded img s' T' l' ph.
Proof using.
  intros (Ho & Hv & Hf & Hlim) [L1 L2 (i & g & Hg & R)] S Hl Hw. unfold in_seg, user_va, PAGE_SIZE in *. split.
  - intros k Hk. destruct (L1 k Hk) as (b & Hb & Hub). exists b. split; [done|]. eapply usteps_byte; [exact S|unfold user_va; lia|apply Hw; lia|done].
  - intros k Hk. eapply usteps_byte; [exact S|unfold user_va; lia|apply Hw; lia|by apply L2].
  - exists i, g. split; [by apply Hl|done].
Qed.

Lemma seg_bounds ph : seg_wf ph -> let lo := PAGE_ALIGN_DOWN (p_vaddr ph) in let hi := PAGE_ALIGN (u64 (p_vaddr ph + p_memsz ph)) in
  0 <= lo <= p_vaddr ph /\ p_vaddr ph + p_memsz ph <= hi <= USER_LIMIT /\ (PAGE_SIZE | lo) /\ (PAGE_SIZE | hi) /\ u64 (hi - lo) = hi - lo /\ lo <= hi.
Proof using.
  intros (Ho & Hv & Hf & Hlim) lo hi. unfold lo, hi, PAGE_ALIGN, PAGE_ALIGN_DOWN. rewrite (u64_small (p_vaddr ph + p_memsz ph)) by (unfold USER_LIMIT, PAGE_SIZE in *; lia).
  rewrite (u64_small (_ + _ + _ - _)) by (unfold USER_LIMIT, PAGE_SIZE in *; lia). rewrite !page_mask by (unfold USER_LIMIT, PAGE_SIZE in *; lia).
  destruct (page_split (p_vaddr ph)) as [E1 R1]. destruct (page_split (p_vaddr ph + p_memsz ph + PAGE_SIZE - 1)) as [E2 R2].
  assert (0 <= p_vaddr ph / PAGE_SIZE) by (apply Z.div_pos; unfold PAGE_SIZE; lia).
  assert (p_vaddr ph / PAGE_SIZE <= (p_vaddr ph + p_memsz ph + PAGE_SIZE - 1) / PAGE_SIZE) by (apply Z.div_le_mono; unfold PAGE_SIZE in *; lia).
  split_and!; try apply Z.divide_factor_r; try (unfold PAGE_SIZE in *; lia). rewrite u64_small; [done|]. unfold PAGE_SIZE, USER_LIMIT in *. lia.
Qed.

(** What loading does, whatever it returns; [ok] is its result. *)
Definition load_result s O (root : Z) T (l : list (nat * rgn)) (v : option (bool * vmst St)) (w : Z -> Prop) (P : St -> gmap (list Z) Z -> list (nat * rgn) -> Prop) : Prop :=
  exists ok s' p' m' O' T' l', v = Some (ok, mk_vmst s' p' m') /\ uspace s' O' root T' m' /\ vmap_inv p' m' l' /\ (forall x, x ∈ l -> x ∈ l') /\
    usteps l' w s O T s' O' T' /\ (ok = true -> P s' T' l').

Lemma load_stop s O root T p m l w P : uspace s O root T m -> vmap_inv p m l -> load_result s O root T l (Some (false, mk_vmst s p m)) w P.
Proof using. intros U V. exists false, s, p, m, O, T, l. split_and!; [done..|apply usteps_refl|done]. Qed.

(** The bytes of the file and the zeroes behind them. *)
Lemma fill_segment_ok img image_size ph root s O T m l : uspace s O root T m -> octets img -> image_size <= Z.of_nat (length img) -> seg_wf ph ->
  p_offset ph <= image_size -> p_filesz ph <= image_size - p_offset ph ->
  exists r1 r2 s1 s2, 
    (if 0 <? p_filesz ph then vm_copy_to_user s m (p_vaddr ph) (drop (Z.to_nat (p_offset ph)) img) (p_filesz ph) else Some (0, s)) = Some (r1, s1) /\
    uspace s1 O root T m /\ usteps l (in_seg ph) s O T s1 O T /\
    (if p_filesz ph <? p_memsz ph then vm_zero_user s1 m (u64 (p_vaddr ph + p_filesz ph)) (p_memsz ph - p_filesz ph) else Some (0, s1)) = Some (r2, s2) /\
    uspace s2 O root T m /\ usteps l (in_seg ph) s O T s2 O T /\
    (r1 = 0 -> r2 = 0 ->
      (forall k, 0 <= k < p_filesz ph -> exists b, img !! Z.to_nat (p_offset ph + k) = Some b /\ ubyte s2 T (p_vaddr ph + k) = Some b) /\
      (forall k, p_filesz ph <= k < p_memsz ph -> ubyte s2 T (p_vaddr ph + k) = Some 0)).
Proof using All.
  intros U Ho Hlen (Hoff & Hv & Hf & Hlim) Ho1 Ho2.
  assert (forall a n x, p_vaddr ph <= a -> a + n <= p_vaddr ph + p_memsz ph -> a <= x < a + n -> in_seg ph x) as Hin by (unfold in_seg; lia).
  assert (exists r1 s1, (if 0 <? p_filesz ph then vm_copy_to_user s m (p_vaddr ph) (drop (Z.to_nat (p_offset ph)) img) (p_filesz ph) else Some (0, s)) = Some (r1, s1) /\
    uspace s1 O root T m /\ usteps l (in_seg ph) s O T s1 O T /\
    (r1 = 0 -> forall k, 0 <= k < p_filesz ph -> exists b, img !! Z.to_nat (p_offset ph + k) = Some b /\ ubyte s1 T (p_vaddr ph + k) = Some b)) as (r1 & s1 & E1 & U1 & S1 & R1).
  { destruct (Z.ltb_spec 0 (p_filesz ph)); [|exists 0, s; split_and!; [done|done|apply usteps_refl|intros _ k Hk; lia]].
    destruct (vm_copy_loop_ok l root m (Z.to_nat (p_filesz ph)) s O T (p_vaddr ph) (drop (Z.to_nat (p_offset ph)) img) (p_filesz ph) U)
      as (r1 & s1 & E & U1 & S1 & R1); [lia|lia|unfold PAGE_SIZE in *; lia|rewrite length_drop; lia|by apply Forall_drop|lia|].
    exists r1, s1. split_and!; [done|done|eapply usteps_weaken; [|exact S1]; intros x; apply Hin; lia|]. intros -> k Hk. destruct R1 as [[_ R1]|[? _]]; [|done].
    destruct (R1 k Hk) as (b & Hb & Hub). exists b. rewrite lookup_drop in Hb. split; [|done]. by replace (Z.to_nat (p_offset ph + k)) with (Z.to_nat (p_offset ph) + Z.to_nat k)%nat by lia. }
  rewrite (u64_small (p_vaddr ph + p_filesz ph)) by (unfold USER_LIMIT, PAGE_SIZE in *; lia).
  assert (exists r2 s2, (if p_filesz ph <? p_memsz ph then vm_zero_user s1 m (p_vaddr ph + p_filesz ph) (p_memsz ph - p_filesz ph) else Some (0, s1)) = Some (r2, s2) /\
    uspace s2 O root T m /\ usteps l (fun x => p_vaddr ph + p_filesz ph <= x < p_vaddr ph + p_memsz ph) s1 O T s2 O T /\
    (r2 = 0 -> forall k, p_filesz ph <= k < p_memsz ph -> ubyte s2 T (p_vaddr ph + k) = Some 0)) as (r2 & s2 & E2 & U2 & S2 & R2).
  { destruct (Z.ltb_spec (p_filesz ph) (p_memsz ph)); [|exists 0, s1; split_and!; [done|done|apply usteps_refl|intros _ k Hk; lia]].
    unfold vm_zero_user. rewrite vm_zero_copy. set (n := p_memsz ph - p_filesz ph).
    destruct (vm_copy_loop_ok l root m (Z.to_nat n) s1 O T (p_vaddr ph + p_filesz ph) (replicate (Z.to_nat n) 0) n U1)
      as (r2 & s2 & E & U2 & S2 & R2); [lia|lia|unfold PAGE_SIZE in *; lia|rewrite length_replicate; lia|by apply Forall_replicate|lia|].
    exists r2, s2. split_and!; [done|done|eapply usteps_weaken; [|exact S2]; simpl; lia|]. intros -> k Hk. destruct R2 as [[_ R2]|[? _]]; [|done].
    destruct (R2 (k - p_filesz ph) ltac:(lia)) as (b & Hb & Hub). apply lookup_replicate in Hb as [-> _]. by replace (p_vaddr ph + k) with (p_vaddr ph + p_filesz ph + (k - p_filesz ph)) by lia. }
  exists r1, r2, s1, s2. split_and!; [done..| |].
  - eapply usteps_trans; [exact S1|]. eapply usteps_weaken; [|exact S2]. unfold in_seg. simpl. lia.
  - intros Hr1 Hr2. split; [|by apply R2]. intros k Hk. destruct (R1 Hr1 k Hk) as (b & Hb & Hub). exists b. split; [done|].
    eapply usteps_byte; [exact S2|unfold user_va, PAGE_SIZE in *; lia|simpl; lia|done].
Qed.

Lemma load_segment_ok img image_size ph root s O T p m l : uspace s O root T m -> vmap_inv p m l -> octets img -> image_size <= Z.of_nat (length img) -> seg_wf ph ->
  load_result s O root T l (load_segment (mk_vmst s p m) img image_size ph) (in_seg ph)
    (fun s' T' l' => loaded img s' T' l' ph /\ forall i g x, (i, g) ∈ l -> rg_base g <= x < rg_end g -> ~ in_seg ph x).
Proof using All.
  intros U V Ho Hlen W. destruct (seg_bounds ph W) as (Hlo & Hhi & Dlo & Dhi & Eu & Hle). pose proof W as (Hoff & Hv & Hf & Hlim). unfold load_segment.
  destruct (Z.leb_spec USER_LIMIT (p_vaddr ph)); [by apply load_stop|]. destruct (Z.ltb_spec image_size (p_offset ph)); [by apply load_stop|].
  destruct (Z.ltb_spec (image_size - p_offset ph) (p_filesz ph)); cbn [orb]; [by apply load_stop|]. rewrite Eu.
  set (lo := PAGE_ALIGN_DOWN (p_vaddr ph)) in *. set (hi := PAGE_ALIGN (u64 (p_vaddr ph + p_memsz ph))) in *.
  destruct (Z.eqb_spec (hi - lo) 0) as [|Hnz]; cbn [orb]; [by apply load_stop|]. destruct (Z.ltb_spec (64 * 1024 * 1024) (hi - lo)); [by apply load_stop|].
  cbn [vt_pool vt_map vt_mem].
  destruct (region_add_spec p m l lo (hi - lo) (seg_prot (p_flags ph)) RGN_FILE (-1) V ltac:(unfold USER_LIMIT in *; lia) ltac:(unfold USER_LIMIT in *; lia))
    as [[_ E]|[Hnr (p' & m' & l1 & l2 & El & E & V' & _ & _)]]; rewrite E; cbn [mbind option_bind]; [by apply load_stop|]. cbn [Z.eqb negb].
  set (g := mk_rgn lo (hi - lo) (seg_prot (p_flags ph)) RGN_FILE (-1)) in *. set (l' := l1 ++ (rp_next p, g) :: l2) in *.
  pose proof (uspace_map _ _ _ _ _ m' (region_add_cr3 _ _ _ _ _ _ _ _ _ _ E) U) as U0.
  assert (forall x, x ∈ l -> x ∈ l') as Hl by (intros x; subst l; unfold l'; set_solver). assert ((rp_next p, g) ∈ l') as Hg by (unfold l'; set_solver).
  destruct (region_populate_space l' root m' s O T lo (hi - lo) (Z.lor (seg_prot (p_flags ph)) PROT_WRITE) U0) as (k & s1 & O1 & T1 & -> & U1 & S1 & _);
    [lia|lia|lia|done|by apply Z.divide_sub_r| |].
  { intros x Hx. exists (rp_next p), g, x. split; [done|]. split; [unfold rg_end; simpl; lia|done]. }
  assert (usteps l' (in_seg ph) s O T s1 O1 T1) as S1w by (eapply usteps_weaken; [|exact S1]; tauto).
  cbn [mbind option_bind]. destruct k as [k|].
  2: { exists false, s1, p', m', O1, T1, l'. by split_and!. }
  destruct (fill_segment_ok img image_size ph root s1 O1 T1 m' l' U1 Ho Hlen W ltac:(lia) ltac:(lia)) as (r1 & r2 & s2 & s3 & -> & U2 & S2 & E3 & U3 & S3 & R).
  cbn [mbind option_bind]. destruct (Z.eqb_spec r1 0) as [Hr1|]; cbn [negb].
  2: { exists false, s2, p', m', O1, T1, l'. split_and!; [done..|by eapply usteps_trans|done]. }
  rewrite E3. cbn [mbind option_bind]. exists (r2 =? 0), s3, p', m', O1, T1, l'. split_and!; [done..|by eapply usteps_trans|].
  intros Hr2%Z.eqb_eq. destruct (R Hr1 Hr2) as [Rf Rz]. split.
  - split; [done|done|]. exists (rp_next p), g. split_and!; [done|done|simpl; lia|unfold rg_end; simpl; lia].
  - intros i g' x Hi Hx Hs. apply Hnr. right. right. right. exists i, g'. split; [done|]. unfold in_seg in Hs. lia.
Qed.

(** ** The image *)

Lemma rd_le_some img off n : (off + n <= length img)%nat -> octets img -> exists v, rd_le img off n = Some v /\ 0 <= v < 256 ^ Z.of_nat n.
Proof using.
  intros Hl Ho. unfold rd_le. rewrite decide_True by done. eexists. split; [done|].
  rewrite <- (length_slice off n img Hl) at 3. apply le_val_range, Forall_take, Forall_drop, Ho.
Qed.

Lemma phdr_some img off : (off + 56 <= length img)%nat -> octets img ->
  exists ph, elf64_phdr img off = Some ph /\ 0 <= p_offset ph /\ 0 <= p_vaddr ph /\ 0 <= p_filesz ph /\ 0 <= p_memsz ph.
Proof using.
  intros Hl Ho. unfold elf64_phdr. destruct (rd_le_some img off 4) as (a & -> & _); [lia|done|]. destruct (rd_le_some img (off + 4) 4) as (b & -> & _); [lia|done|].
  destruct (rd_le_some img (off + 8) 8) as (c & -> & ?); [lia|done|]. destruct (rd_le_some img (off + 16) 8) as (d & -> & ?); [lia|done|].
  destruct (rd_le_some img (off + 32) 8) as (e & -> & ?); [lia|done|]. destruct (rd_le_some img (off + 40) 8) as (f & -> & ?); [lia|done|].
  cbn [mbind option_bind]. eexists. split; [done|]. simpl. lia.
Qed.

(** Program header number [i]. *)
Definition phdr_at (img : list Z) (eh : elf64_ehdr_t) (i : Z) : option elf64_phdr_t :=
  elf64_phdr img (Z.to_nat (e_phoff eh + i * e_phentsize eh)).

(** Header [i] describes a segment to load. *)
Definition load_at (img : list Z) (eh : elf64_ehdr_t) (i : Z) (ph : elf64_phdr_t) : Prop :=
  0 <= i < e_phnum eh /\ phdr_at img eh i = Some ph /\ p_type ph = PT_LOAD.

(** The bytes of all segments. *)
Definition in_image (img : list Z) (eh : elf64_ehdr_t) (x : Z) : Prop := exists i ph, load_at img eh i ph /\ in_seg ph x.

Lemma load_result_trans s O root T l s1 O1 T1 l1 v (w1 w : Z -> Prop) P :
  (forall x, x ∈ l -> x ∈ l1) -> usteps l1 w1 s O T s1 O1 T1 -> (forall x, w1 x -> w x) -> load_result s1 O1 root T1 l1 v w P -> load_result s O root T l v w P.
Proof using.
  intros Hl S1 Hw (ok & s' & p' & m' & O' & T' & l' & E & U & V & Hl' & S & R). exists ok, s', p', m', O', T', l'. split_and!; [done..|by auto| |done].
  eapply usteps_trans; [|exact S]. eapply usteps_mono; [exact Hl'|]. by eapply usteps_weaken.
Qed.

Section image.
Context (img : list Z) (image_size : Z) (eh : elf64_ehdr_t) (root : Z).
Context (Hoct : octets img) (Hlen : image_size <= Z.of_nat (length img)) (Hsmall : image_size < 2 ^ 32).
Context (Hoff : 0 <= e_phoff eh < image_size) (Hent : 0 <= e_phentsize eh < 2 ^ 16) (Hnum : e_phnum eh <= 48).
Context (Hwf : forall i ph, load_at img eh i ph -> seg_wf ph).

Lemma phdr_loop_ok n : forall i s O T p m l (phs : list elf64_phdr_t), uspace s O root T m -> vmap_inv p m l -> 0 <= i -> i + Z.of_nat n = e_phnum eh ->
  (forall ph, ph ∈ phs -> seg_wf ph /\ loaded img s T l ph) ->
  load_result s O root T l (phdr_loop (mk_vmst s p m) img image_size eh i n) (in_image img eh)
    (fun s' T' l' => (forall ph, ph ∈ phs -> loaded img s' T' l' ph) /\ forall j ph, i <= j -> load_at img eh j ph -> loaded img s' T' l' ph).
Proof using All.
  induction n as [|n IH]; intros i s O T p m l phs U V Hi Hn Hphs; cbn [phdr_loop].
  { exists true, s, p, m, O, T, l. split_and!; [done..|apply usteps_refl|]. intros _. split; [intros ph Hph; by apply Hphs|]. intros j ph Hj [? _]. lia. }
  assert (0 <= i * e_phentsize eh < 2 ^ 22) as Hprod by nia.
  rewrite (u64_small (e_phoff eh + _)) by lia. rewrite u64_small by lia.
  destruct (Z.ltb_spec image_size (e_phoff eh + i * e_phentsize eh + 56)); [by apply load_stop|].
  destruct (phdr_some img (Z.to_nat (e_phoff eh + i * e_phentsize eh))) as (ph & E & _); [lia|done|]. rewrite E. cbn [mbind option_bind].
  destruct (p_type ph =? PT_INTERP); [by apply load_stop|]. destruct (Z.eqb_spec (p_type ph) PT_LOAD) as [Ht|Hne]; cbn [negb].
  2: { destruct (IH (i + 1) s O T p m l phs U V) as (ok & s' & p' & m' & O' & T' & l' & E' & U' & V' & Hl' & S' & R'); [lia|lia|done|].
       exists ok, s', p', m', O', T', l'. split_and!; [done..|]. intros Hok. destruct (R' Hok) as [R1 R2]. split; [done|]. intros j ph' Hj Hld.
       destruct (decide (j = i)) as [->|]; [|apply (R2 j); [lia|done]]. destruct Hld as (_ & E2 & Ht2). unfold phdr_at in E2. congruence. }
  assert (load_at img eh i ph) as Hat by (split; [lia|done]). pose proof (Hwf _ _ Hat) as W.
  destruct (load_segment_ok img image_size ph root s O T p m l U V Hoct Hlen W) as (ok & s1 & p1 & m1 & O1 & T1 & l1 & -> & U1 & V1 & Hl1 & S1 & R1).
  cbn [mbind option_bind]. assert (forall x, in_seg ph x -> in_image img eh x) as Himg by (intros x Hx; by exists i, ph).
  apply (load_result_trans s O root T l s1 O1 T1 l1 _ (in_seg ph)); [done|done|done|].
  destruct ok; cbn [negb]; [|by apply load_stop]. destruct (R1 eq_refl) as [L1 Hdis].
  destruct (IH (i + 1) s1 O1 T1 p1 m1 l1 (ph :: phs) U1 V1) as (ok & s' & p' & m' & O' & T' & l' & E' & U' & V' & Hl' & S' & R'); [lia|lia| |].
  { intros ph' [->|Hin]%elem_of_cons; [done|]. destruct (Hphs ph' Hin) as [W' L']. split; [done|]. eapply loaded_kept; [done|exact L'|exact S1|exact Hl1|].
    destruct (ld_region _ _ _ _ _ L') as (k & g & Hg & _ & Hg1 & Hg2). intros x Hx. apply (Hdis k g x Hg). unfold in_seg in Hx. lia. }
  exists ok, s', p', m', O', T', l'. split_and!; [done..|]. intros Hok. destruct (R' Hok) as [R2 R3]. split; [intros ph' Hph'; apply R2; set_solver|].
  intros j ph' Hj Hld. destruct (decide (j = i)) as [->|]; [|apply (R3 j); [lia|done]]. destruct Hld as (_ & E2 & _). unfold phdr_at in E2.
  assert (ph' = ph) as -> by congruence. apply R2. set_solver.
Qed.
End image.

Lemma ehdr_range img eh : octets img -> elf64_ehdr img = Some eh -> 0 <= e_phoff eh /\ 0 <= e_phentsize eh < 2 ^ 16 /\ 0 <= e_phnum eh.
Proof using.
  intros Ho E. assert (forall off n v, rd_le img off n = Some v -> 0 <= v < 256 ^ Z.of_nat n) as Hr.
  { intros off n v Hv. unfold rd_le in Hv. destruct (decide _) as [Hd|]; [|done]. destruct (rd_le_some img off n Hd Ho) as (v' & Hv' & ?).
    unfold rd_le in Hv'. rewrite decide_True in Hv' by done. congruence. }
  unfold elf64_ehdr in E. repeat (apply bind_Some in E as (? & ?%Hr & E)). injection E as <-. simpl in *. lia.
Qed.

Lemma ehdr_ok_spec eh image_size : ehdr_ok eh image_size = true -> e_phnum eh <= 48 /\ e_phoff eh < image_size.
Proof using. unfold ehdr_ok. intros E. repeat (apply andb_true_iff in E as [E ?]). lia. Qed.

End Fill.
