(* ===== verification/ElfStack.v ===== *)
(** * The stack of a new process

    [build_user_stack_vm] pushes the strings of the environment and of the arguments, then
    the vectors of their addresses and the argument count.  The theorem says where the new
    process finds them, as the System V ABI lays them out. *)

From Stdlib Require Import ZArith Lia.
From stdpp Require Import base gmap functions list.
From S2P Require Import Prelude KString Phys PhysSpec PhysIface VRegion PageTable PageTableSpec VmSpace UserMem UserMemSpec Elf ElfSpec.

Local Open Scope Z_scope.

Section Stack.
Context `{BlockAllocLaws St} (l : list (nat * rgn)) (root : Z) (m : vmap_t) (O : owned) (T : gmap (list Z) Z).
Implicit Types s : St.

(** The process sees the bytes [bs] at [va]. *)
Definition ubytes s (va : Z) (bs : list Z) : Prop := forall i b, bs !! i = Some b -> ubyte s T (va + Z.of_nat i) = Some b.

Abbreviation uword s va v := (ubytes s va (le_bytes 8 v)).
Abbreviation ustring s va str := (ubytes s va (str ++ [0])).

Abbreviation below lo hi := (fun x => lo <= x < hi).

Lemma ubytes_keep s s' lo hi va bs : usteps l (below lo hi) s O T s' O T -> ubytes s va bs -> 0 <= va -> va + Z.of_nat (length bs) <= USER_LIMIT ->
  (hi <= va \/ va + Z.of_nat (length bs) <= lo) -> ubytes s' va bs.
Proof using.
  intros S Hb Hva Hlim Hd i b Hi. pose proof (lookup_lt_Some _ _ _ Hi). eapply usteps_byte; [exact S|unfold user_va; lia|simpl; lia|by apply Hb].
Qed.

Lemma below_trans s1 s2 s3 a b c : a <= b <= c -> usteps l (below b c) s1 O T s2 O T -> usteps l (below a b) s2 O T s3 O T -> usteps l (below a c) s1 O T s3 O T.
Proof using.
  intros Hab S1 S2. eapply usteps_trans; (eapply usteps_weaken; [|eassumption]); simpl; lia.
Qed.

(** A push stays below the stack pointer. *)
Definition pushes {A} s (x : option (option A * St)) (lo hi : Z) (P : A -> St -> Prop) : Prop :=
  exists r s', x = Some (r, s') /\ uspace s' O root T m /\ usteps l (below lo hi) s O T s' O T /\ forall a, r = Some a -> P a s'.

Lemma push_bind {A B} s (x : eM A) (f : A -> eM B) a b c (P : A -> St -> Prop) Q : a <= b <= c -> pushes s (x s) b c P ->
  (forall y s', P y s' -> uspace s' O root T m -> pushes s' (f y s') a b (fun z s2 => Q z s2)) -> pushes s (ebind x f s) a c Q.
Proof using.
  intros Hab (r & s1 & E & U1 & S1 & R1) Hf. unfold ebind. rewrite E. cbn [mbind option_bind]. destruct r as [y|].
  - destruct (Hf y s1 (R1 y eq_refl) U1) as (r & s2 & E2 & U2 & S2 & R2). exists r, s2. split_and!; [done|done|by eapply below_trans|done].
  - exists None, s1. split_and!; [done|done| |done]. eapply usteps_weaken; [|exact S1]. simpl. lia.
Qed.

Lemma push_bytes_ok s sp src len : uspace s O root T m -> 0 <= len <= sp -> sp <= USER_LIMIT -> len <= Z.of_nat (length src) -> octets src ->
  pushes s (push_user_bytes m sp src len s) (sp - len) sp (fun sp' s' => sp' = sp - len /\ ubytes s' (sp - len) (take (Z.to_nat len) src)).
Proof using All.
  intros U Hl Hsp Hs Ho. unfold push_user_bytes. rewrite u64_small by (unfold USER_LIMIT in *; lia). unfold vm_copy_to_user.
  destruct (vm_copy_loop_ok l root m (Z.to_nat len) s O T (sp - len) src len U) as (rc & s' & -> & U' & S' & R); [lia|lia|lia|done|done|lia|].
  cbn [mbind option_bind]. exists (if rc =? 0 then Some (sp - len) else None), s'. split_and!; [done|done| |].
  - by replace (sp - len + len) with sp in S' by lia.
  - intros a. destruct (Z.eqb_spec rc 0) as [->|]; [|done]. intros [= <-]. split; [done|]. destruct R as [[_ R]|[? _]]; [|done].
    intros i b Hi. pose proof (lookup_lt_Some _ _ _ Hi) as Hlt. rewrite length_take in Hlt. rewrite lookup_take_lt in Hi by lia.
    destruct (R (Z.of_nat i) ltac:(lia)) as (b' & Hb' & Hub). rewrite Nat2Z.id in Hb'. congruence.
Qed.

Lemma push_u64_ok s sp v : uspace s O root T m -> 8 <= sp <= USER_LIMIT ->
  pushes s (push_user_u64 m sp v s) (sp - 8) sp (fun sp' s' => sp' = sp - 8 /\ uword s' (sp - 8) v).
Proof using All.
  intros U Hsp. apply (push_bytes_ok s sp (le_bytes 8 v) 8 U); [lia|lia|by rewrite length_le_bytes|].
  clear. generalize 8%nat. intros n. revert v. induction n as [|n IH]; intros v; cbn [le_bytes]; constructor; [apply Z.mod_pos_bound; lia|apply IH].
Qed.

(** ** Vectors *)

Lemma push_ptrs_ok rptrs : forall s sp, uspace s O root T m -> 8 * Z.of_nat (length rptrs) <= sp <= USER_LIMIT ->
  pushes s (push_ptrs m sp rptrs s) (sp - 8 * Z.of_nat (length rptrs)) sp (fun sp' s' => sp' = sp - 8 * Z.of_nat (length rptrs) /\
    forall i q, rptrs !! i = Some q -> uword s' (sp - 8 * Z.of_nat (S i)) q).
Proof using All.
  induction rptrs as [|q rptrs IH]; intros s sp U Hsp; cbn [push_ptrs length] in *.
  { exists (Some sp), s. split_and!; [done|done|apply usteps_refl|]. intros a [= <-]. split; [lia|done]. }
  apply (push_bind _ _ _ (sp - 8 * Z.of_nat (S (length rptrs))) (sp - 8) sp _ _ ltac:(lia) (push_u64_ok s sp q U ltac:(lia))). intros y s1 [-> Hw] U1.
  destruct (IH s1 (sp - 8) U1 ltac:(lia)) as (r & s2 & E & U2 & S2 & R).
  replace (sp - 8 - 8 * Z.of_nat (length rptrs)) with (sp - 8 * Z.of_nat (S (length rptrs))) in S2 by lia.
  exists r, s2. split_and!; [done|done|done|]. intros a Ha. destruct (R a Ha) as [-> Rw]. split; [lia|]. intros [|i] x; cbn [lookup list_lookup].
  - intros [= <-]. replace (sp - 8 * Z.of_nat 1) with (sp - 8) by lia. eapply ubytes_keep; [exact S2|exact Hw|lia|rewrite length_le_bytes; lia|lia].
  - intros Hx. replace (sp - 8 * Z.of_nat (S (S i))) with (sp - 8 - 8 * Z.of_nat (S i)) by lia. by apply Rw.
Qed.

(** ** Strings *)

Definition strs_size (strs : list (list Z)) : Z := foldr (fun str n => Z.of_nat (length str) + 1 + n) 0 strs.

Lemma strs_size_nonneg strs : 0 <= strs_size strs.
Proof using. induction strs as [|str strs IH]; cbn [strs_size foldr]; [lia|]. fold (strs_size strs). lia. Qed.

Lemma str_len_ok b str : cstring b str -> str_len b = Some (length str).
Proof using.
  revert str. induction b as [|c b IH]; intros str Hc; [by apply cstring_nil in Hc|]. cbn [str_len].
  apply cstring_cons in Hc as [[-> ->]|(str' & Hr & -> & Hc)]; [done|]. destruct (Z.eqb_spec c 0); [lia|]. rewrite (IH _ Hc). done.
Qed.

Lemma cstring_take b str : cstring b str -> take (S (length str)) b = str ++ [0] /\ (S (length str) <= length b)%nat.
Proof using.
  intros (rest & -> & _). split; [|rewrite length_app; simpl; lia]. rewrite (app_assoc str [0] rest : str ++ 0 :: rest = _).
  rewrite take_app_length'; [done|]. rewrite length_app. simpl. lia.
Qed.

(** The buffers are pushed from the head on; [ptrs] gets their addresses in front. *)
Lemma push_strs_ok rbufs rstrs : Forall2 cstring rbufs rstrs -> Forall (fun b => octets b) rbufs -> forall s sp ptrs, uspace s O root T m ->
  strs_size rstrs <= sp <= USER_LIMIT ->
  pushes s (push_strs m sp rbufs ptrs s) (sp - strs_size rstrs) sp (fun r s' => fst r = sp - strs_size rstrs /\
    exists new, snd r = reverse new ++ ptrs /\ length new = length rstrs /\
      forall i str q, rstrs !! i = Some str -> new !! i = Some q -> ustring s' q str /\ sp - strs_size rstrs <= q /\ q + Z.of_nat (length str) < sp).
Proof using All.
  induction 1 as [|b str rbufs rstrs Hb _ IH]; intros Ho s sp ptrs U Hsp; cbn [push_strs strs_size foldr] in *.
  { exists (Some (sp, ptrs)), s. split_and!; [done|done|apply usteps_refl|]. intros a [= <-]. simpl. split; [lia|]. by exists []. }
  fold (strs_size rstrs) in *. pose proof (strs_size_nonneg rstrs) as Hnn. apply Forall_cons in Ho as [Hob Ho]. rewrite (str_len_ok _ _ Hb). cbn [mbind option_bind].
  destruct (cstring_take _ _ Hb) as [Htk Hlen]. set (n := Z.of_nat (length str) + 1) in *.
  apply (push_bind _ _ _ (sp - (n + strs_size rstrs)) (sp - n) sp _ _ ltac:(lia) (push_bytes_ok s sp b n U ltac:(lia) ltac:(lia) ltac:(lia) Hob)). intros y s1 [-> Hw] U1.
  replace (Z.to_nat n) with (S (length str)) in Hw by lia. rewrite Htk in Hw.
  destruct (IH Ho s1 (sp - n) (sp - n :: ptrs) U1 ltac:(lia)) as (r & s2 & E & U2 & S2 & R).
  replace (sp - n - strs_size rstrs) with (sp - (n + strs_size rstrs)) in * by lia.
  exists r, s2. split_and!; [done|done|done|]. intros a Ha. destruct (R a Ha) as (Ea & new & -> & Hl & Hn). split; [lia|].
  exists (sp - n :: new). split_and!; [by rewrite reverse_cons, <- app_assoc|simpl; lia|]. intros [|i] str' q; cbn [lookup list_lookup].
  - intros [= <-] [= <-]. split; [|lia]. eapply ubytes_keep; [exact S2|exact Hw|lia|rewrite length_app; simpl; lia|lia].
  - intros H1 H2. destruct (Hn i str' q H1 H2) as (Hu & ? & ?). split; [done|lia].
Qed.

(** ** The layout *)

Lemma pushes_conseq {A} s (x : option (option A * St)) lo hi (P Q : A -> St -> Prop) : pushes s x lo hi P ->
  (forall a s', usteps l (below lo hi) s O T s' O T -> P a s' -> Q a s') -> pushes s x lo hi Q.
Proof using. intros (r & s' & E & U & S & R) HQ. exists r, s'. split_and!; [done..|]. intros a Ha. by apply HQ, R. Qed.

Lemma ebind_assoc {A B C} (x : eM A) (f : A -> eM B) (g : B -> eM C) s : ebind x (fun a => ebind (f a) g) s = ebind (ebind x f) g s.
Proof using. unfold ebind. destruct (x s) as [[[a|] s1]|]; done. Qed.

(** A vector of addresses and its null pointer. *)
Lemma push_vec_ok s sp ptrs : uspace s O root T m -> 8 * (Z.of_nat (length ptrs) + 1) <= sp <= USER_LIMIT ->
  pushes s (ebind (push_user_u64 m sp 0) (fun sp => push_ptrs m sp (reverse ptrs)) s) (sp - 8 * (Z.of_nat (length ptrs) + 1)) sp
    (fun sp' s' => sp' = sp - 8 * (Z.of_nat (length ptrs) + 1) /\ uword s' (sp' + 8 * Z.of_nat (length ptrs)) 0 /\
      forall i q, ptrs !! i = Some q -> uword s' (sp' + 8 * Z.of_nat i) q).
Proof using All.
  intros U Hsp. apply (push_bind _ _ _ (sp - 8 * (Z.of_nat (length ptrs) + 1)) (sp - 8) sp _ _ ltac:(lia) (push_u64_ok s sp 0 U ltac:(lia))). intros y s1 [-> Hw] U1.
  pose proof (push_ptrs_ok (reverse ptrs) s1 (sp - 8) U1) as Hp. rewrite length_reverse in Hp.
  replace (sp - 8 - 8 * Z.of_nat (length ptrs)) with (sp - 8 * (Z.of_nat (length ptrs) + 1)) in Hp by lia.
  apply (pushes_conseq _ _ _ _ _ _ (Hp ltac:(lia))). intros a s2 S2 [-> R]. split; [done|]. split.
  - replace (sp - 8 * (Z.of_nat (length ptrs) + 1) + 8 * Z.of_nat (length ptrs)) with (sp - 8) by lia.
    eapply ubytes_keep; [exact S2|exact Hw|lia|rewrite length_le_bytes; lia|lia].
  - intros i q Hi. pose proof (lookup_lt_Some _ _ _ Hi) as Hlt.
    assert (reverse ptrs !! (length ptrs - S i)%nat = Some q) as Hr.
    { rewrite reverse_lookup by lia. rewrite <- Hi. f_equal. lia. }
    apply R in Hr. replace (sp - 8 - 8 * Z.of_nat (S (length ptrs - S i))) with (sp - 8 * (Z.of_nat (length ptrs) + 1) + 8 * Z.of_nat i) in Hr by lia. done.
Qed.

Lemma strs_size_app l1 l2 : strs_size (l1 ++ l2) = strs_size l1 + strs_size l2.
Proof using. induction l1 as [|str l1 IH]; cbn [app strs_size foldr]; [done|]. fold (strs_size (l1 ++ l2)). fold (strs_size l1). lia. Qed.

Lemma strs_size_reverse strs : strs_size (reverse strs) = strs_size strs.
Proof using.
  induction strs as [|str strs IH]; [done|]. rewrite reverse_cons, strs_size_app, IH. cbn [strs_size foldr]. fold (strs_size strs). lia.
Qed.

(** The strings of a vector, with their addresses in order. *)
Lemma push_all_ok s sp bufs strs : uspace s O root T m -> Forall2 cstring bufs strs -> Forall (fun b => octets b) bufs -> strs_size strs <= sp <= USER_LIMIT ->
  pushes s (push_strs m sp (reverse bufs) [] s) (sp - strs_size strs) sp (fun r s' => fst r = sp - strs_size strs /\ length (snd r) = length strs /\
    forall i str, strs !! i = Some str -> exists q, snd r !! i = Some q /\ ustring s' q str /\ sp - strs_size strs <= q /\ q + Z.of_nat (length str) < sp).
Proof using All.
  intros U Hc Ho Hsp. pose proof (push_strs_ok (reverse bufs) (reverse strs)) as Hp. rewrite strs_size_reverse in Hp.
  eapply pushes_conseq; [apply Hp|].
  - by apply Forall2_reverse.
  - by apply Forall_reverse.
  - done.
  - done.
  - cbn beta. intros r s' _ (E & new & E2 & Hl & Hn). rewrite length_reverse in Hl. rewrite E2, app_nil_r. split; [done|].
    rewrite length_reverse. split; [done|]. intros i str Hi. pose proof (lookup_lt_Some _ _ _ Hi) as Hlt.
    assert (reverse strs !! (length strs - S i)%nat = Some str) as Hr by (rewrite reverse_lookup by lia; rewrite <- Hi; f_equal; lia).
    destruct (lookup_lt_is_Some_2 new (length strs - S i)) as [q Hq]; [lia|]. exists q. split; [|by apply (Hn _ _ _ Hr Hq)].
    rewrite reverse_lookup by lia. rewrite <- Hq. f_equal. lia.
Qed.

(** What the process finds at its stack pointer. *)
Record stack_layout s (sp : Z) (args envs : list (list Z)) : Prop := {
  sl_align : (16 | sp);
  sl_argc : uword s sp (Z.of_nat (length args));
  sl_argv : forall i str, args !! i = Some str -> exists q, uword s (sp + 8 * (1 + Z.of_nat i)) q /\ ustring s q str;
  sl_argv_end : uword s (sp + 8 * (1 + Z.of_nat (length args))) 0;
  sl_envp : forall i str, envs !! i = Some str -> exists q, uword s (sp + 8 * (2 + Z.of_nat (length args) + Z.of_nat i)) q /\ ustring s q str;
  sl_envp_end : uword s (sp + 8 * (2 + Z.of_nat (length args) + Z.of_nat (length envs))) 0;
}.

(** The vectors and the argument count, from an aligned stack pointer on. *)
Lemma push_tail_ok s sp aptrs eptrs (n := Z.of_nat (length aptrs)) (k := Z.of_nat (length eptrs)) : uspace s O root T m -> 8 * (n + k + 3) <= sp <= USER_LIMIT ->
  pushes s (ebind (push_user_u64 m sp 0) (fun sp => ebind (push_ptrs m sp (reverse eptrs)) (fun sp =>
    ebind (push_user_u64 m sp 0) (fun sp => ebind (push_ptrs m sp (reverse aptrs)) (fun sp => push_user_u64 m sp n)))) s)
    (sp - 8 * (n + k + 3)) sp
    (fun sp' s' => sp' = sp - 8 * (n + k + 3) /\ uword s' sp' n /\ uword s' (sp' + 8 * (1 + n)) 0 /\ uword s' (sp' + 8 * (2 + n + k)) 0 /\
      (forall i q, aptrs !! i = Some q -> uword s' (sp' + 8 * (1 + Z.of_nat i)) q) /\
      (forall i q, eptrs !! i = Some q -> uword s' (sp' + 8 * (2 + n + Z.of_nat i)) q)).
Proof using All.
  intros U Hsp. assert (0 <= n /\ 0 <= k) as [Hn Hk] by (unfold n, k; lia). rewrite ebind_assoc.
  assert (forall s1 s2 lo hi va v, usteps l (below lo hi) s1 O T s2 O T -> uword s1 va v -> 0 <= va -> va + 8 <= USER_LIMIT -> hi <= va -> uword s2 va v) as Hkeep.
  { intros s1 s2 lo hi va v S Hw H1 H2 H3. eapply ubytes_keep; [exact S|exact Hw|done|rewrite length_le_bytes; lia|lia]. }
  apply (push_bind _ _ _ (sp - 8 * (n + k + 3)) (sp - 8 * (k + 1)) sp _ _ ltac:(lia) (push_vec_ok s sp eptrs U ltac:(fold k; lia))).
  fold k. intros y s1 (-> & He0 & He) U1. rewrite ebind_assoc. set (sp1 := sp - 8 * (k + 1)) in *.
  eapply pushes_conseq.
  - apply (push_bind _ _ _ (sp - 8 * (n + k + 3)) (sp1 - 8 * (n + 1)) sp1 _ (fun sp' s' => sp' = sp - 8 * (n + k + 3) /\ uword s' sp' n /\ uword s' (sp' + 8 * (1 + n)) 0 /\
      (forall i q, aptrs !! i = Some q -> uword s' (sp' + 8 * (1 + Z.of_nat i)) q)) ltac:(lia) (push_vec_ok s1 sp1 aptrs U1 ltac:(fold n; lia))).
    fold n. intros y s2 (-> & Ha0 & Ha) U2. set (sp2 := sp1 - 8 * (n + 1)) in *. pose proof (push_u64_ok s2 sp2 n U2 ltac:(lia)) as Hp.
    replace (sp2 - 8) with (sp - 8 * (n + k + 3)) in Hp by lia. apply (pushes_conseq _ _ _ _ _ _ Hp). intros a s3 S3 [-> Hw]. split_and!; [done|done| |].
    + replace (sp - 8 * (n + k + 3) + 8 * (1 + n)) with (sp2 + 8 * n) by lia. eapply Hkeep; [exact S3|exact Ha0|lia|lia|lia].
    + intros i q Hi. pose proof (lookup_lt_Some _ _ _ Hi). replace (sp - 8 * (n + k + 3) + 8 * (1 + Z.of_nat i)) with (sp2 + 8 * Z.of_nat i) by lia.
      eapply Hkeep; [exact S3|by apply Ha|lia|lia|lia].
  - intros a s3 S3 (-> & Hc & Ha0 & Ha). split_and!; [done|done|done| |done|].
    + replace (sp - 8 * (n + k + 3) + 8 * (2 + n + k)) with (sp1 + 8 * k) by lia. eapply Hkeep; [exact S3|exact He0|lia|lia|lia].
    + intros i q Hi. pose proof (lookup_lt_Some _ _ _ Hi). replace (sp - 8 * (n + k + 3) + 8 * (2 + n + Z.of_nat i)) with (sp1 + 8 * Z.of_nat i) by lia.
      eapply Hkeep; [exact S3|by apply He|lia|lia|lia].
Qed.

Lemma align16 x : 0 <= x < 2 ^ 64 -> let y := Z.land x (u64 (Z.lnot 15)) in (16 | y) /\ x - 16 < y <= x.
Proof using.
  intros Hx y. assert (y = x / 16 * 16) as -> by (apply (round_mask x 4); lia).
  split; [apply Z.divide_factor_r|]. pose proof (Z.div_mod x 16 ltac:(lia)). pose proof (Z.mod_pos_bound x 16 ltac:(lia)). lia.
Qed.

Lemma vec_strs_length arr : (length (vec_strs arr) <= 63)%nat.
Proof using. unfold vec_strs. rewrite length_take. destruct (63 <? count_strs arr)%nat eqn:E; [lia|]. apply Nat.ltb_ge in E. lia. Qed.

Lemma pushes_weaken {A} s (x : option (option A * St)) lo hi lo' hi' (P : A -> St -> Prop) : lo' <= lo -> hi <= hi' -> pushes s x lo hi P -> pushes s x lo' hi' P.
Proof using. intros H1 H2 (r & s' & E & U & S & R). exists r, s'. split_and!; [done..| |done]. eapply usteps_weaken; [|exact S]. simpl. lia. Qed.

(** The words at the stack pointer. *)
Definition vectors (aptrs eptrs : list Z) (sp : Z) s : Prop :=
  let n := Z.of_nat (length aptrs) in let k := Z.of_nat (length eptrs) in
  uword s sp n /\ uword s (sp + 8 * (1 + n)) 0 /\ uword s (sp + 8 * (2 + n + k)) 0 /\
  (forall i q, aptrs !! i = Some q -> uword s (sp + 8 * (1 + Z.of_nat i)) q) /\
  (forall i q, eptrs !! i = Some q -> uword s (sp + 8 * (2 + n + Z.of_nat i)) q).

(** The vectors with the padding that keeps the stack pointer aligned. *)
Lemma push_vectors_ok s sp aptrs eptrs (n := length aptrs) (k := length eptrs) : uspace s O root T m -> (16 | sp) -> 8 * (Z.of_nat n + Z.of_nat k + 4) <= sp <= USER_LIMIT ->
  pushes s (ebind (if Nat.odd (n + k + 3) then push_user_u64 m sp 0 else eret sp) (fun sp =>
    ebind (push_user_u64 m sp 0) (fun sp => ebind (push_ptrs m sp (reverse eptrs)) (fun sp =>
    ebind (push_user_u64 m sp 0) (fun sp => ebind (push_ptrs m sp (reverse aptrs)) (fun sp => push_user_u64 m sp (Z.of_nat n)))))) s)
    (sp - 8 * (Z.of_nat n + Z.of_nat k + 4)) sp
    (fun sp' s' => (16 | sp') /\ sp - 8 * (Z.of_nat n + Z.of_nat k + 4) <= sp' < sp /\ vectors aptrs eptrs sp' s').
Proof using All.
  intros U [c Hc] Hsp. destruct (Nat.odd (n + k + 3)) eqn:Hodd.
  - apply (push_bind _ _ _ (sp - 8 * (Z.of_nat n + Z.of_nat k + 4)) (sp - 8) sp _ _ ltac:(lia) (push_u64_ok s sp 0 U ltac:(lia))). intros y s1 [-> _] U1.
    pose proof (push_tail_ok s1 (sp - 8) aptrs eptrs U1 ltac:(fold n k; lia)) as Hp. fold n k in Hp.
    replace (sp - 8 - 8 * (Z.of_nat n + Z.of_nat k + 3)) with (sp - 8 * (Z.of_nat n + Z.of_nat k + 4)) in Hp by lia.
    apply (pushes_conseq _ _ _ _ _ _ Hp). intros a s' _ (-> & R). split; [|split; [lia|exact R]].
    apply Nat.odd_spec in Hodd as [j Hj]. exists (c - Z.of_nat j - 1). lia.
  - change (ebind (eret sp) ?f s) with (f sp s). cbn beta. pose proof (push_tail_ok s sp aptrs eptrs U ltac:(fold n k; lia)) as Hp. fold n k in Hp.
    apply (pushes_weaken _ _ (sp - 8 * (Z.of_nat n + Z.of_nat k + 3)) sp); [lia|lia|]. apply (pushes_conseq _ _ _ _ _ _ Hp).
    intros a s' _ (-> & R). split; [|split; [lia|exact R]].
    apply (f_equal negb) in Hodd. rewrite Nat.negb_odd in Hodd. apply Nat.even_spec in Hodd as [j Hj]. exists (c - Z.of_nat j). lia.
Qed.

(** C24: For arguments and environment of C strings that fit on the stack, [build_user_stack_vm] returns.  It fails
    only when a page of the stack is missing.  Otherwise the new process finds, at a stack pointer that is a
    multiple of 16, the argument count, the addresses of the argument strings with a null pointer behind
    them, and those of the environment strings likewise; at each address is the string with its
    terminator.  Nothing outside the stack is written. *)
Theorem build_user_stack_ok s argv envp args envs :
  uspace s O root T m -> Forall2 cstring (vec_strs argv) args -> Forall2 cstring (vec_strs envp) envs ->
  Forall (fun b => octets b) (vec_strs argv) -> Forall (fun b => octets b) (vec_strs envp) ->
  strs_size args + strs_size envs + 2048 <= USER_STACK_SIZE ->
  exists r s', build_user_stack_vm m argv envp s = Some (r, s') /\ uspace s' O root T m /\
    usteps l (fun x => USER_STACK_TOP - USER_STACK_SIZE <= x < USER_STACK_TOP) s O T s' O T /\
    (forall sp, r = Some sp -> stack_layout s' sp args envs /\ USER_STACK_TOP - USER_STACK_SIZE <= sp < USER_STACK_TOP).
Proof using All.
  intros U Ha He Hoa Hoe Hfit. pose proof (strs_size_nonneg args). pose proof (strs_size_nonneg envs).
  pose proof (vec_strs_length argv) as Hna. pose proof (vec_strs_length envp) as Hne. rewrite (Forall2_length _ _ _ Ha) in Hna. rewrite (Forall2_length _ _ _ He) in Hne.
  set (top := USER_STACK_TOP) in *. set (low := top - USER_STACK_SIZE) in *. assert (low = 0x7FFEFFE00000 /\ top = 0x7FFF00000000) as [Elow Etop] by done.
  assert (USER_LIMIT = 0x800000000000) as Elim by done. set (sp1 := top - strs_size envs). set (sp2 := sp1 - strs_size args). set (sp3 := Z.land sp2 (u64 (Z.lnot 15))).
  assert (low + 2048 <= sp2 <= sp1 /\ sp1 <= top) as Hsp2 by lia. destruct (align16 sp2 ltac:(lia)) as [Hal Hsp3]. fold sp3 in Hal, Hsp3.
  cut (pushes s (build_user_stack_vm m argv envp s) low top (fun sp s' => stack_layout s' sp args envs /\ low <= sp < top)).
  { intros (r & s' & E & U' & S & R). exists r, s'. by split_and!. }
  unfold build_user_stack_vm. fold top.
  apply (push_bind _ _ _ low sp1 top _ _ ltac:(lia) (push_all_ok s top _ envs U He Hoe ltac:(lia))). intros [y eptrs] s1 (Ey & Hle & Hes) U1. cbn [fst snd] in *. subst y. fold sp1.
  eapply pushes_conseq; [apply (push_bind _ _ _ low sp2 sp1 _ (fun sp s' => exists aptrs, (16 | sp) /\ low <= sp < sp2 /\ length aptrs = length args /\ vectors aptrs eptrs sp s' /\
      forall i str, args !! i = Some str -> exists q, aptrs !! i = Some q /\ ustring s' q str) ltac:(lia) (push_all_ok s1 sp1 _ args U1 Ha Hoa ltac:(lia)))|].
  - intros [y aptrs] s2 (Ey & Hla & Has) U2. cbn [fst snd] in *. subst y. fold sp2 sp3. rewrite (Forall2_length _ _ _ Ha), (Forall2_length _ _ _ He), <- Hla, <- Hle.
    apply (pushes_weaken _ _ (sp3 - 8 * (Z.of_nat (length aptrs) + Z.of_nat (length eptrs) + 4)) sp3); [lia|lia|].
    apply (pushes_conseq _ _ _ _ _ _ (push_vectors_ok s2 sp3 aptrs eptrs U2 Hal ltac:(lia))). intros sp s' S (Hd & Hr & Hv). exists aptrs. split_and!; [done|lia|lia|done|done|].
    intros i str Hi. destruct (Has i str Hi) as (q & Hq & Hu & Hq1 & Hq2). exists q. split; [done|]. eapply ubytes_keep; [exact S|exact Hu|lia|rewrite length_app; simpl; lia|left; lia].
  - intros sp s' S (aptrs & Hd & Hr & Hla & (V1 & V2 & V3 & V4 & V5) & Has). rewrite Hla in *. rewrite Hle in *. split; [|lia]. split; [done|done| |done| |done].
    + intros i str Hi. destruct (Has i str Hi) as (q & Hq & Hu). exists q. split; [by apply V4|done].
    + intros i str Hi. destruct (Hes i str Hi) as (q & Hq & Hu & Hq1 & Hq2). exists q. split; [by apply V5|].
      eapply ubytes_keep; [exact S|exact Hu|lia|rewrite length_app; simpl; lia|left; lia].
Qed.
End Stack.
