(* ===== verification/Syscall.v ===== *)
(** * System calls (src/kernel/arch/syscall.c) and the spawning of programs (arch/elf.c, lines 220-282)

    The state of the kernel that the system calls work on puts the components together: the
    memory and its allocator, the regions and the maps, the scheduler, the file system and
    the console.  A handler is a function on that state; its result is [None] when the
    kernel faults or never returns.  A call that gives the processor to another thread ends
    in [SysSwitch].

    Code outside this file is a parameter: [kmalloc] is the address that the slab allocator
    returns in a state, [asd_time_ns] the clock, and [stack n] are the bytes that an uninitialised local array of
    [n] bytes holds.  The console is the list of the answers that polling the keyboard and
    the serial line gives, and the list of the characters written.  Locks are taken and
    released around straight code and are not modelled; the processor has one CPU. *)

From Stdlib Require Import ZArith Lia.
From stdpp Require Import base strings gmap list.
From S2P Require Import Prelude KString Phys PhysSpec PhysIface VRegion PageTable VmSpace RbTree Sched VfsPath Vfs UserMem Elf.

Local Open Scope Z_scope.

Definition ESYS_FAULT : Z := u64 (-14).
Definition ESYS_INVAL : Z := u64 (-22).
Definition ESYS_PERM : Z := u64 (-1).
Definition ESYS_NOSYS : Z := u64 (-38).
Definition ESYS_OVERFLOW : Z := u64 (-75).
Definition ENOTTY : Z := u64 (-25).
Definition MMAP_BASE : Z := 0x0000500000000000.
Definition MMAP_LIMIT : Z := 0x0000700000000000.
Definition BRK_BASE : Z := 0x0000600000000000.
Definition BRK_LIMIT : Z := 256 * 1024 * 1024.
Definition MAP_ANONYMOUS : Z := 0x20.
Definition UTSNAME_LEN : nat := 65.
Definition ELF_BUF_SIZE : Z := 4 * 1024 * 1024.
Definition KBUF_SIZE : Z := 4096.
Definition MAX_DIRENTS : Z := 256.

Definition path_max : Z := Z.of_nat VFS_PATH_MAX.

(** What a system call ends in: a value in rax, another thread, the jump back into the [sched_reap] of the
    parent, or a child that runs until it exits and the call goes on with [sys_wait_finish]. *)
Inductive sysres :=
| SysRet (v : Z)
| SysSwitch (next : nat)
| SysJmp
| SysWaiting (child : nat) (saved : nat * Z * Z).

Definition of_outcome (o : outcome) : sysres :=
  match o with Returned => SysRet 0 | Switched n => SysSwitch n | JmpBack => SysJmp end.

Section Syscall.
Context `{BlockAlloc St} {W B : Type}.

(** The maps are numbered as in the static pool that [amm_vmap_create] takes them from; [kn_kents] and
    [kn_elf_buf] are the static arrays of [sys_readdir] and [elf_spawn]. *)
Record kern_t := mk_kern {
  kn_mem : St;
  kn_pool : rpool;
  kn_vmaps : gmap Z vmap_t;
  kn_vmap_next : Z;
  kn_sched : sched_st;
  kn_vfs : @vfs_st W B;
  kn_mmap_bump : Z;
  kn_brk_cur : Z;
  kn_in : list (option Z);
  kn_out : list Z;
  kn_ticks : Z;
  kn_kents : list vfs_dirent_t;
  kn_hostname : list Z;
  kn_shell_uid : Z;
  kn_shell_gid : Z;
  kn_elf_buf : list Z;
}.

Definition set_kmem (k : kern_t) (s : St) : kern_t :=
  mk_kern s (kn_pool k) (kn_vmaps k) (kn_vmap_next k) (kn_sched k) (kn_vfs k) (kn_mmap_bump k) (kn_brk_cur k) (kn_in k) (kn_out k) (kn_ticks k) (kn_kents k) (kn_hostname k) (kn_shell_uid k) (kn_shell_gid k) (kn_elf_buf k).
Definition set_vm (k : kern_t) (s : St) (p : rpool) (i : Z) (m : vmap_t) : kern_t :=
  mk_kern s p (<[i := m]> (kn_vmaps k)) (kn_vmap_next k) (kn_sched k) (kn_vfs k) (kn_mmap_bump k) (kn_brk_cur k) (kn_in k) (kn_out k) (kn_ticks k) (kn_kents k) (kn_hostname k) (kn_shell_uid k) (kn_shell_gid k) (kn_elf_buf k).
Definition set_vmap_next (k : kern_t) (s : St) (n : Z) : kern_t :=
  mk_kern s (kn_pool k) (kn_vmaps k) n (kn_sched k) (kn_vfs k) (kn_mmap_bump k) (kn_brk_cur k) (kn_in k) (kn_out k) (kn_ticks k) (kn_kents k) (kn_hostname k) (kn_shell_uid k) (kn_shell_gid k) (kn_elf_buf k).
Definition set_ksched (k : kern_t) (v : sched_st) : kern_t :=
  mk_kern (kn_mem k) (kn_pool k) (kn_vmaps k) (kn_vmap_next k) v (kn_vfs k) (kn_mmap_bump k) (kn_brk_cur k) (kn_in k) (kn_out k) (kn_ticks k) (kn_kents k) (kn_hostname k) (kn_shell_uid k) (kn_shell_gid k) (kn_elf_buf k).
Definition set_kvfs (k : kern_t) (v : @vfs_st W B) : kern_t :=
  mk_kern (kn_mem k) (kn_pool k) (kn_vmaps k) (kn_vmap_next k) (kn_sched k) v (kn_mmap_bump k) (kn_brk_cur k) (kn_in k) (kn_out k) (kn_ticks k) (kn_kents k) (kn_hostname k) (kn_shell_uid k) (kn_shell_gid k) (kn_elf_buf k).
Definition set_mmap_bump (k : kern_t) (v : Z) : kern_t :=
  mk_kern (kn_mem k) (kn_pool k) (kn_vmaps k) (kn_vmap_next k) (kn_sched k) (kn_vfs k) v (kn_brk_cur k) (kn_in k) (kn_out k) (kn_ticks k) (kn_kents k) (kn_hostname k) (kn_shell_uid k) (kn_shell_gid k) (kn_elf_buf k).
Definition set_brk_cur (k : kern_t) (v : Z) : kern_t :=
  mk_kern (kn_mem k) (kn_pool k) (kn_vmaps k) (kn_vmap_next k) (kn_sched k) (kn_vfs k) (kn_mmap_bump k) v (kn_in k) (kn_out k) (kn_ticks k) (kn_kents k) (kn_hostname k) (kn_shell_uid k) (kn_shell_gid k) (kn_elf_buf k).
Definition set_console (k : kern_t) (i : list (option Z)) (o : list Z) : kern_t :=
  mk_kern (kn_mem k) (kn_pool k) (kn_vmaps k) (kn_vmap_next k) (kn_sched k) (kn_vfs k) (kn_mmap_bump k) (kn_brk_cur k) i o (kn_ticks k) (kn_kents k) (kn_hostname k) (kn_shell_uid k) (kn_shell_gid k) (kn_elf_buf k).
Definition set_kents (k : kern_t) (v : list vfs_dirent_t) : kern_t :=
  mk_kern (kn_mem k) (kn_pool k) (kn_vmaps k) (kn_vmap_next k) (kn_sched k) (kn_vfs k) (kn_mmap_bump k) (kn_brk_cur k) (kn_in k) (kn_out k) (kn_ticks k) v (kn_hostname k) (kn_shell_uid k) (kn_shell_gid k) (kn_elf_buf k).

Definition set_elf_buf (k : kern_t) (v : list Z) : kern_t :=
  mk_kern (kn_mem k) (kn_pool k) (kn_vmaps k) (kn_vmap_next k) (kn_sched k) (kn_vfs k) (kn_mmap_bump k) (kn_brk_cur k) (kn_in k) (kn_out k) (kn_ticks k) (kn_kents k) (kn_hostname k) (kn_shell_uid k) (kn_shell_gid k) v.

Context (kmalloc : kern_t -> Z -> option Z) (stack : nat -> list Z) (junk_stat : stat_info_t).
Context (asd_time_ns : kern_t -> Z) (g_kernel_cr3 bootstrap_kstack : Z).

(** ** The current process *)

(** The block and its map, [sched_current()] and [cur->va_map]. *)
Definition cur_pcb (k : kern_t) : option (option pcb_t) :=
  c ← sched_current (kn_sched k);
  match c with None => Some None | Some i => pc ← sc_pcbs (kn_sched k) !! i; Some (Some pc) end.

Definition cur_vm (k : kern_t) : option (option (Z * vmap_t)) :=
  pc ← cur_pcb k;
  match pc ≫= pc_va_map with None => Some None | Some i => m ← kn_vmaps k !! i; Some (Some (i, m)) end.

(** Calls of the access functions with the current map. *)
Definition k_from_user (k : kern_t) (dst : list Z) (usrc n : Z) : option (Z * list Z * kern_t) :=
  vm ← cur_vm k;
  '(r, dst, s) ← copy_from_user (kn_pool k) (snd <$> vm) (kn_mem k) dst usrc n;
  Some (r, dst, set_kmem k s).

Definition k_to_user (k : kern_t) (udst : Z) (src : list Z) (n : Z) : option (Z * kern_t) :=
  vm ← cur_vm k;
  '(r, s) ← copy_to_user (kn_pool k) (snd <$> vm) (kn_mem k) udst src n;
  Some (r, set_kmem k s).

(** [char path[VFS_PATH_MAX]] filled by [copy_user_cstr]. *)
Definition k_path (k : kern_t) (path_u : Z) : option (Z * list Z * kern_t) :=
  vm ← cur_vm k;
  '(r, path, s) ← copy_user_cstr (kn_pool k) (snd <$> vm) (kn_mem k) (stack VFS_PATH_MAX) path_max path_u path_max;
  Some (r, path, set_kmem k s).

(** The file system sees the current process of the scheduler. *)
Definition vfs_now (k : kern_t) : option (@vfs_st W B) :=
  c ← sched_current (kn_sched k);
  let v := kn_vfs k in
  Some (mk_vfs (vs_nodes v) (vs_backends v) (vs_next_node_id v) (vs_fds v) (vs_rings v) (vs_ports v) c (vs_world v)).

(** ** Files *)

Definition sys_open (k : kern_t) (path_u flags : Z) : option (Z * kern_t) :=
  '(r, path, k) ← k_path k path_u;
  if negb (r =? 0) then Some (ESYS_FAULT, k)
  else
    c ← sched_current (kn_sched k);
    v ← vfs_now k;
    '(fd, v) ← vfs_open v (Some path) (i32 flags) c;
    Some (u64 (i32 fd), set_kvfs k v).

Definition sys_close (k : kern_t) (fd : Z) : option (Z * kern_t) :=
  v ← vfs_now k;
  '(r, v) ← vfs_close v (u32 fd);
  Some (u64 r, set_kvfs k v).

(** [sys_read] from the console: a poll is an answer of [kn_in], and an empty list is a wait without end. *)
Fixpoint console_read (polls : list (option Z)) (k : kern_t) (buf got n : Z) : option (Z * kern_t) :=
  if got <? n then
    match polls with
    | [] => None
    | Some c :: polls' =>
        '(r, k) ← k_to_user (set_console k polls' (kn_out k)) (u64 (buf + got)) [c] 1;
        if negb (r =? 0) then Some (ESYS_FAULT, k)
        else if n =? 1 then Some (got + 1, k)
        else console_read polls' k buf (got + 1) n
    | None :: polls' =>
        let k := set_console k polls' (kn_out k) in
        if 0 <? got then Some (got, k) else console_read polls' k buf got n
    end
  else Some (got, k).

Definition sys_read (k : kern_t) (fd buf n : Z) : option (Z * kern_t) :=
  if n =? 0 then Some (0, k)
  else if negb (validate_user_ptr buf n) then Some (ESYS_FAULT, k)
  else if fd =? 0 then console_read (kn_in k) k buf 0 n
  else
    let chunk := Z.min n KBUF_SIZE in
    v ← vfs_now k;
    '(r, kbuf, got, v) ← vfs_read v (u32 fd) (Some (stack (Z.to_nat KBUF_SIZE))) chunk (Some 0);
    let k := set_kvfs k v in
    if r <? 0 then Some (u64 r, k)
    else
      kbuf ← kbuf; got ← got;
      '(c, k) ← (if 0 <? got then k_to_user k buf kbuf got else Some (0, k));
      if negb (c =? 0) then Some (ESYS_FAULT, k) else Some (got, k).

(** [sys_write] to the console, 256 bytes at a time. *)
Fixpoint console_write (fuel : nat) (k : kern_t) (buf done n : Z) : option (Z * kern_t) :=
  if done <? n then
    match fuel with
    | O => None
    | S fuel' =>
        let chunk := Z.min (n - done) 256 in
        '(r, kbuf, k) ← k_from_user k (stack 256) (u64 (buf + done)) chunk;
        if negb (r =? 0) then Some (ESYS_FAULT, k)
        else console_write fuel' (set_console k (kn_in k) (kn_out k ++ take (Z.to_nat chunk) kbuf)) buf (done + chunk) n
    end
  else Some (n, k).

Definition sys_write (k : kern_t) (fd buf n : Z) : option (Z * kern_t) :=
  if n =? 0 then Some (0, k)
  else if negb (validate_user_ptr buf n) then Some (ESYS_FAULT, k)
  else if (fd =? 1) || (fd =? 2) then console_write (Z.to_nat n) k buf 0 n
  else if fd =? 0 then Some (ESYS_INVAL, k)
  else
    let chunk := Z.min n KBUF_SIZE in
    '(r, kbuf, k) ← k_from_user k (stack (Z.to_nat KBUF_SIZE)) buf chunk;
    if negb (r =? 0) then Some (ESYS_FAULT, k)
    else
      v ← vfs_now k;
      '(r, v) ← vfs_write v (u32 fd) (Some kbuf) chunk (kmalloc k chunk);
      let k := set_kvfs k v in
      if r <? 0 then Some (u64 r, k) else Some (chunk, k).

(** [stat_info_t] in memory: 7 bytes of padding behind the kind and the field [_pad] of 2 bytes. *)
Definition stat_bytes (st : stat_info_t) : list Z :=
  le_bytes 8 (st_size st) ++ [st_kind st] ++ stack 7 ++ le_bytes 8 (st_mtime_ns st) ++ st_name st ++
  le_bytes 2 (st_uid st) ++ le_bytes 2 (st_gid st) ++ le_bytes 2 (st_mode st) ++ stack 2.

Definition sizeof_stat : Z := 32 + path_max.

Definition sys_stat (k : kern_t) (path_u st_u : Z) : option (Z * kern_t) :=
  if negb (validate_user_ptr st_u sizeof_stat) then Some (ESYS_FAULT, k)
  else
    '(r, path, k) ← k_path k path_u;
    if negb (r =? 0) then Some (ESYS_FAULT, k)
    else
      v ← vfs_now k;
      '(r, kst, v) ← vfs_stat v (Some path) (Some junk_stat);
      let k := set_kvfs k v in
      if negb (r =? 0) then Some (u64 r, k)
      else
        kst ← kst;
        '(r, k) ← k_to_user k st_u (stat_bytes kst) sizeof_stat;
        Some (if negb (r =? 0) then ESYS_FAULT else 0, k).

Definition sys_seek (k : kern_t) (fd off whence : Z) : option (Z * kern_t) :=
  v ← vfs_now k;
  '(r, v) ← vfs_seek v (u32 fd) (i64 off) (i32 whence);
  Some (u64 r, set_kvfs k v).

(** [sys_mkdir] and [sys_unlink] differ in the operation they call. *)
Definition sys_path_op (op : @vfs_st W B -> option (list Z) -> option (Z * @vfs_st W B)) (k : kern_t) (path_u : Z)
    : option (Z * kern_t) :=
  '(r, path, k) ← k_path k path_u;
  if negb (r =? 0) then Some (ESYS_FAULT, k)
  else
    v ← vfs_now k;
    '(r, v) ← op v (Some path);
    Some (u64 r, set_kvfs k v).

Definition sys_mkdir : kern_t -> Z -> option (Z * kern_t) := sys_path_op vfs_mkdir.
Definition sys_unlink : kern_t -> Z -> option (Z * kern_t) := sys_path_op vfs_unlink.

(** [vfs_dirent_t] in memory; the padding of the static array is zero. *)
Definition dirent_bytes (e : vfs_dirent_t) : list Z :=
  de_name e ++ [de_kind e] ++ replicate 7 0 ++ le_bytes 8 (de_size e).

Definition sizeof_dirent : Z := 272.

Definition sys_readdir (k : kern_t) (path_u buf_u cap nout_u : Z) : option (Z * kern_t) :=
  '(r, path, k) ← k_path k path_u;
  if negb (r =? 0) then Some (ESYS_FAULT, k)
  else
    let cap := Z.min cap MAX_DIRENTS in
    if (0 <? cap) && negb (validate_user_ptr buf_u (cap * sizeof_dirent)) then Some (ESYS_FAULT, k)
    else if negb (validate_user_ptr nout_u 4) then Some (ESYS_FAULT, k)
    else
      v ← vfs_now k;
      '(r, kents, n, v) ← vfs_readdir v (Some path) (Some (kn_kents k)) cap 0;
      kents ← kents;
      let k := set_kents (set_kvfs k v) kents in
      if negb (r =? 0) then Some (u64 r, k)
      else
        '(r, k) ← (if 0 <? n then k_to_user k buf_u (mjoin (dirent_bytes <$> kents)) (n * sizeof_dirent) else Some (0, k));
        if negb (r =? 0) then Some (ESYS_FAULT, k)
        else
          '(r, k) ← k_to_user k nout_u (le_bytes 4 n) 4;
          Some (if negb (r =? 0) then ESYS_FAULT else 0, k).

(** ** Identity, time and scheduling *)

Definition sys_getpid (k : kern_t) : option Z := pc ← cur_pcb k; Some (match pc with None => 0 | Some p => pc_pid p end).
Definition sys_getuid (k : kern_t) : option Z := pc ← cur_pcb k; Some (match pc with None => 0 | Some p => pc_uid p end).
Definition sys_getgid (k : kern_t) : option Z := pc ← cur_pcb k; Some (match pc with None => 0 | Some p => pc_gid p end).
Definition sys_geteuid (k : kern_t) : option Z := sys_getuid k.
Definition sys_getegid (k : kern_t) : option Z := sys_getgid k.
Definition sys_getppid (k : kern_t) : option Z := Some 1.
Definition sys_time (k : kern_t) : option Z := Some (u64 (kn_ticks k * 10000000)).
Definition sys_gettime_ns (k : kern_t) : option Z := Some (u64 (kn_ticks k * 10000000)).

Definition sys_setuid (k : kern_t) (new_uid : Z) : option (Z * kern_t) :=
  c ← sched_current (kn_sched k);
  match c with
  | None => Some (ESYS_FAULT, k)
  | Some i =>
      p ← sc_pcbs (kn_sched k) !! i;
      if negb (pc_uid p =? 0) && negb (u32 new_uid =? pc_uid p) then Some (ESYS_PERM, k)
      else
        st ← upd_pcb (kn_sched k) i (fun p => set_ids_of p (u32 new_uid) (pc_gid p));
        Some (0, set_ksched k st)
  end.

Definition sys_setgid (k : kern_t) (new_gid : Z) : option (Z * kern_t) :=
  c ← sched_current (kn_sched k);
  match c with
  | None => Some (ESYS_FAULT, k)
  | Some i =>
      p ← sc_pcbs (kn_sched k) !! i;
      if negb (pc_uid p =? 0) && negb (u32 new_gid =? pc_gid p) then Some (ESYS_PERM, k)
      else
        st ← upd_pcb (kn_sched k) i (fun p => set_ids_of p (pc_uid p) (u32 new_gid));
        Some (0, set_ksched k st)
  end.

Definition sys_yield (k : kern_t) : option (sysres * kern_t) :=
  '(o, st) ← sched_yield g_kernel_cr3 (kn_sched k) (asd_time_ns k);
  Some (of_outcome o, set_ksched k st).

(** [amm_vmap_destroy] of map [i]. *)
Definition k_destroy (k : kern_t) (i : Z) : option kern_t :=
  m ← kn_vmaps k !! i;
  '(s, m) ← amm_vmap_destroy (kn_mem k) (kn_pool k) m;
  Some (set_vm k s (kn_pool k) i m).

Fixpoint k_destroy_all (k : kern_t) (ids : list Z) : option kern_t :=
  match ids with
  | [] => Some k
  | i :: ids' => k ← k_destroy k i; k_destroy_all k ids'
  end.

(** [sched_exit] adds the map of the process to the maps that it freed. *)
Definition sys_exit (k : kern_t) (code : Z) : option (sysres * kern_t) :=
  '(o, st) ← sched_exit g_kernel_cr3 bootstrap_kstack (kn_sched k) (i32 code);
  k' ← k_destroy_all (set_ksched k st) (drop (length (sc_freed_maps (kn_sched k))) (sc_freed_maps st));
  Some (of_outcome o, k').

(** ** The name of the system *)

(** [while (i < n - 1 && src[i])] *)
Fixpoint str_copy_loop (dst src : list Z) (i n : nat) : option (list Z) :=
  match n with
  | O => put dst i 0
  | S n' =>
      c ← src !! i;
      if c =? 0 then put dst i 0
      else dst ← put dst i c; str_copy_loop dst src (S i) n'
  end.

Definition str_copy (dst src : list Z) (n : nat) : option (list Z) := str_copy_loop dst src 0 (n - 1).

(** [asd_utsname_t]: six arrays of [UTSNAME_LEN] bytes, in the order of the fields. *)
Definition utsname_src (k : kern_t) : list (list Z) :=
  [c_str "OpenASD" ++ [0]; kn_hostname k; c_str "0.1.0" ++ [0]; c_str "#1" ++ [0]; c_str "x86_64" ++ [0]; c_str "(none)" ++ [0]].

Fixpoint fill_uts (ku : list Z) (srcs : list (list Z)) : option (list Z) :=
  match srcs with
  | [] => Some []
  | src :: srcs' =>
      f ← str_copy (take UTSNAME_LEN ku) src UTSNAME_LEN;
      fs ← fill_uts (drop UTSNAME_LEN ku) srcs';
      Some (f ++ fs)
  end.

Definition sys_uname (k : kern_t) (buf_u : Z) : option (Z * kern_t) :=
  if negb (validate_user_ptr buf_u 390) then Some (ESYS_FAULT, k)
  else
    ku ← fill_uts (stack 390) (utsname_src k);
    '(r, k) ← k_to_user k buf_u ku 390;
    Some (if negb (r =? 0) then ESYS_FAULT else 0, k).

(** ** Memory *)

(** The end of [sys_mmap]: a new region of the current map, with its pages. *)
Definition mmap_region (k : kern_t) (i : Z) (m : vmap_t) (result bytes kprot : Z) : option (Z * kern_t) :=
  '(r, p, m) ← amm_region_add (kn_pool k) (Some m) result bytes kprot RGN_HEAP (-1);
  m ← m;
  let k := set_vm k (kn_mem k) p i m in
  if negb (r =? 0) then Some (u64 (-1), k)
  else
    '(kva, s) ← amm_region_populate (kn_mem k) (Some m) result bytes kprot;
    Some (match kva with None => u64 (-1) | Some _ => result end, set_kmem k s).

Definition sys_mmap (k : kern_t) (addr len prot flags fd_u off : Z) : option (Z * kern_t) :=
  if Z.land flags MAP_ANONYMOUS =? 0 then Some (u64 (-1), k)
  else if negb (i64 fd_u =? -1) && negb (fd_u =? u64 (-1)) then Some (u64 (-1), k)
  else if len =? 0 then Some (u64 (-1), k)
  else
    vm ← cur_vm k;
    match vm with
    | None => Some (ESYS_FAULT, k)
    | Some (i, m) =>
        let pages := u64 (len + 4095) / 4096 in
        let bytes := u64 (pages * 4096) in
        let kprot := Z.land prot (Z.lor (Z.lor PROT_READ PROT_WRITE) PROT_EXEC) in
        let kprot := if kprot =? 0 then Z.lor PROT_READ PROT_WRITE else kprot in
        let bump := kn_mmap_bump k in
        if (u64 (bump + bytes) <? bump) || (MMAP_LIMIT <? u64 (bump + bytes)) then Some (u64 (-1), k)
        else
          mmap_region (set_mmap_bump k (u64 (bump + bytes))) i m bump bytes kprot
    end.

Definition sys_munmap (k : kern_t) (addr len : Z) : option (Z * kern_t) := Some (0, k).

(** The region of the heap: it is added at the first call. *)
Definition brk_region (k : kern_t) (i : Z) (m : vmap_t) : option (bool * kern_t * vmap_t) :=
  r ← amm_region_find (kn_pool k) m BRK_BASE;
  match r with
  | Some _ => Some (true, k, m)
  | None =>
      '(r, p, m) ← amm_region_add (kn_pool k) (Some m) BRK_BASE BRK_LIMIT (Z.lor PROT_READ PROT_WRITE) RGN_HEAP (-1);
      m ← m;
      Some (r =? 0, set_vm k (kn_mem k) p i m, m)
  end.

Definition sys_brk (k : kern_t) (new_brk : Z) : option (Z * kern_t) :=
  vm ← cur_vm k;
  match vm with
  | None => Some (0, k)
  | Some (i, m) =>
      let k := if kn_brk_cur k =? 0 then set_brk_cur k BRK_BASE else k in
      let r := kn_brk_cur k in
      if (new_brk =? 0) || (new_brk <? BRK_BASE) || (BRK_BASE + BRK_LIMIT <? new_brk) then Some (r, k)
      else
        '(ok, k, m) ← brk_region k i m;
        if negb ok then Some (r, k)
        else
          let pop_base := PAGE_ALIGN_DOWN r in
          let pop_end := PAGE_ALIGN new_brk in
          '(ok, k) ← (if (r <? new_brk) && (pop_base <? pop_end)
                      then '(kva, s) ← amm_region_populate (kn_mem k) (Some m) pop_base (pop_end - pop_base) (Z.lor PROT_READ PROT_WRITE);
                           Some (bool_decide (kva <> None), set_kmem k s)
                      else Some (true, k));
          if negb ok then Some (r, k) else Some (new_brk, set_brk_cur k new_brk)
  end.

Definition sys_ioctl (k : kern_t) (fd req arg : Z) : option (Z * kern_t) := Some (ENOTTY, k).

(** ** Scattered output *)

(** [while (left > 0)] of [sys_writev]; [inl] is a return of an error. *)
Fixpoint writev_buf (fuel : nat) (k : kern_t) (fd buf off left : Z) : option ((Z + unit) * kern_t) :=
  if 0 <? left then
    match fuel with
    | O => None
    | S fuel' =>
        let chunk := Z.min left KBUF_SIZE in
        '(r, kbuf, k) ← k_from_user k (stack (Z.to_nat KBUF_SIZE)) (u64 (buf + off)) chunk;
        if negb (r =? 0) then Some (inl ESYS_FAULT, k)
        else if (fd =? 1) || (fd =? 2) then
          writev_buf fuel' (set_console k (kn_in k) (kn_out k ++ take (Z.to_nat chunk) kbuf)) fd buf (off + chunk) (left - chunk)
        else
          v ← vfs_now k;
          '(r, v) ← vfs_write v (u32 fd) (Some kbuf) chunk (kmalloc k chunk);
          let k := set_kvfs k v in
          if r <? 0 then Some (inl (u64 r), k) else writev_buf fuel' k fd buf (off + chunk) (left - chunk)
    end
  else Some (inr tt, k).

(** The vectors from number [i] on; [n] are left. *)
Fixpoint writev_loop (k : kern_t) (fd : Z) (kiov : list Z) (i : nat) (total : Z) (n : nat) : option (Z * kern_t) :=
  match n with
  | O => Some (total, k)
  | S n' =>
      let iov_base := le_val (slice (16 * i) 8 kiov) in
      let iov_len := le_val (slice (16 * i + 8) 8 kiov) in
      if iov_len =? 0 then writev_loop k fd kiov (S i) total n'
      else if negb (validate_user_ptr iov_base iov_len) then Some (ESYS_FAULT, k)
      else if u64 (total + iov_len) <? total then Some (ESYS_OVERFLOW, k)
      else
        '(r, k) ← writev_buf (Z.to_nat iov_len) k fd iov_base 0 iov_len;
        match r with
        | inl e => Some (e, k)
        | inr _ => writev_loop k fd kiov (S i) (u64 (total + iov_len)) n'
        end
  end.

Definition sys_writev (k : kern_t) (fd iov_u iovcnt : Z) : option (Z * kern_t) :=
  if iovcnt =? 0 then Some (0, k)
  else if 16 <? iovcnt then Some (ESYS_INVAL, k)
  else if negb (validate_user_ptr iov_u (iovcnt * 16)) then Some (ESYS_FAULT, k)
  else
    '(r, kiov, k) ← k_from_user k (stack 256) iov_u (iovcnt * 16);
    if negb (r =? 0) then Some (ESYS_FAULT, k) else writev_loop k fd kiov 0 0 (Z.to_nat iovcnt).

(** ** Programs *)

(** [while (total < sizeof(g_elf_buf))] of [elf_spawn]: the number of bytes read; [got] keeps its value. *)
Fixpoint elf_read_loop (fuel : nat) (k : kern_t) (fd total got : Z) : option (Z * kern_t) :=
  if total <? ELF_BUF_SIZE then
    match fuel with
    | O => None
    | S fuel' =>
        v ← vfs_now k;
        let buf := kn_elf_buf k in
        '(r, b, got, v) ← vfs_read v fd (Some (drop (Z.to_nat total) buf)) (ELF_BUF_SIZE - total) (Some got);
        b ← b; got ← got;
        let k := set_elf_buf (set_kvfs k v) (take (Z.to_nat total) buf ++ b) in
        if negb (r =? 0) || (got =? 0) then Some (total, k) else elf_read_loop fuel' k fd (total + got) got
    end
  else Some (total, k).

Definition set_vmst (k : kern_t) (i : Z) (v : vmst St) : kern_t := set_vm k (vt_mem v) (vt_pool v) i (vt_map v).

(** [sched_spawn] with map [vm]; it clears the whole block, and so the descriptor table of the slot. *)
Definition k_spawn (k : kern_t) (path : list Z) (vm : Z) : option (Z * kern_t) :=
  let st := kn_sched k in
  k' ← (if MAX_PROCS <=? sc_proc_count st then Some k
        else
          found ← free_pid st (sc_next_pid st) (Z.to_nat MAX_PROCS);
          Some (match found with
                | None => k
                | Some pid =>
                    set_kvfs k (set_fds (kn_vfs k) (<[Z.to_nat (pid mod MAX_PROCS) := replicate (Z.to_nat MAX_FDS) None]> (vs_fds (kn_vfs k))))
                end));
  '(pid, st) ← sched_spawn st (mk_spawn_args path SCHED_BATCH 0 0xFF (Some vm)) (kmalloc k SCHED_KSTACK_SIZE) None;
  Some (pid, set_ksched k' st).

(** The block of the new process as [elf_spawn] leaves it. *)
Definition user_pcb (k : kern_t) (entry rsp cr3 : Z) (pc : pcb_t) : pcb_t :=
  set_state_of
    (set_deadline_ns_of
       (set_ids_of (set_regs_of pc (mk_regs entry rsp 0x202 cr3 0x1B 0x23)) (kn_shell_uid k) (kn_shell_gid k))
       UINT64_MAX)
    PROC_READY.

(** [amm_vmap_destroy(vm); return 0] *)
Definition spawn_fail (k : kern_t) (i : Z) : option (Z * kern_t) := k ← k_destroy k i; Some (0, k).

(** [elf_spawn] from the call of [sched_spawn] on, for the map [i] with its stack. *)
Definition start_process (k : kern_t) (path : list Z) (i entry rsp : Z) : option (Z * kern_t) :=
  '(pid, k) ← k_spawn k path i;
  if pid =? 0 then spawn_fail k i
  else
    found ← sched_find (kn_sched k) pid;
    match found with
    | None => spawn_fail k i
    | Some p =>
        m ← kn_vmaps k !! i;
        st ← upd_pcb (kn_sched k) p (user_pcb k entry rsp (vm_cr3 m));
        st ← sched_enqueue st p;
        Some (pid, set_ksched k st)
    end.

(** [elf_spawn] between the creation of the map [i] and the call of [sched_spawn]. *)
Definition load_program (k : kern_t) (path : list Z) (argv envp : option (list (list Z))) (total i : Z) (m : vmap_t)
    : option (Z * kern_t) :=
  if total <? 64 then spawn_fail k i
  else
    '(entry, v) ← elf_load (kn_elf_buf k) total (mk_vmst (kn_mem k) (kn_pool k) m);
    let k := set_vmst k i v in
    if entry =? 0 then spawn_fail k i
    else
      let rw := Z.lor PROT_READ PROT_WRITE in
      let stack_base := USER_STACK_TOP - USER_STACK_SIZE in
      '(_, p, m) ← amm_region_add (vt_pool v) (Some (vt_map v)) stack_base USER_STACK_SIZE rw RGN_STACK (-1);
      m ← m;
      '(_, s) ← amm_region_populate (vt_mem v) (Some m) stack_base USER_STACK_SIZE rw;
      '(rsp, s) ← build_user_stack_vm m argv envp s;
      let k := set_vm k s p i m in
      let rsp := default 0 rsp in
      if rsp =? 0 then spawn_fail k i else start_process k path i entry rsp.

(** The pid, or 0; the message on the serial line about an invalid file is left out. *)
Definition elf_spawn (k : kern_t) (path : list Z) (argv envp : option (list (list Z))) : option (Z * kern_t) :=
  v ← vfs_now k;
  '(fd, v) ← vfs_open v (Some path) VFS_O_READ None;
  let k := set_kvfs k v in
  if i32 fd <? 0 then Some (0, k)
  else
    '(total, k) ← elf_read_loop (Z.to_nat ELF_BUF_SIZE) k fd 0 0;
    v ← vfs_now k;
    '(_, v) ← vfs_close v fd;
    let k := set_kvfs k v in
    let i := kn_vmap_next k in
    '(vm, next, s) ← amm_vmap_create (kn_mem k) i g_kernel_cr3;
    let k := set_vmap_next k s next in
    match vm with
    | None => Some (0, k)
    | Some m => load_program (set_vm k s (kn_pool k) i m) path argv envp total i m
    end.

Definition sys_spawn (k : kern_t) (path_u argv_u envp_u : Z) : option (Z * kern_t) :=
  '(r, kpath, k) ← k_path k path_u;
  if negb (r =? 0) then Some (ESYS_FAULT, k)
  else
    vm ← cur_vm k;
    let cur := snd <$> vm in
    '(ok, s) ← validate_user_str_array (kn_pool k) cur (kn_mem k) argv_u 64 path_max;
    if negb ok then Some (ESYS_FAULT, set_kmem k s)
    else
      '(ok, s) ← validate_user_str_array (kn_pool k) cur s envp_u 64 path_max;
      if negb ok then Some (ESYS_FAULT, set_kmem k s)
      else
        '(r, argv, s) ← copy_user_cstr_array (kn_pool k) cur s argv_u;
        if negb (r =? 0) then Some (ESYS_FAULT, set_kmem k s)
        else
          '(r, envp, s) ← copy_user_cstr_array (kn_pool k) cur s envp_u;
          if negb (r =? 0) then Some (ESYS_FAULT, set_kmem k s)
          else
            '(pid, k) ← elf_spawn (set_kmem k s) kpath (Some argv) (if envp_u =? 0 then None else Some envp);
            Some (if pid =? 0 then u64 (-1) else pid, k).

(** [exit_info_t] in memory: 4 bytes of padding behind the exit code; the wall time is 0. *)
Definition exit_info_bytes (exit_code cpu_ns : Z) : list Z :=
  le_bytes 4 exit_code ++ stack 4 ++ le_bytes 8 cpu_ns ++ le_bytes 8 0.

(** [sys_wait] from the return of [sched_jmp_save] with 1 on. *)
Definition sys_wait_finish (k : kern_t) (saved : nat * Z * Z) (info_u : Z) : option (Z * kern_t) :=
  '(code, cpu_ns, st) ← sched_reap_finish bootstrap_kstack (kn_sched k) saved;
  let k := set_ksched k st in
  if info_u =? 0 then Some (0, k)
  else
    '(r, k) ← k_to_user k info_u (exit_info_bytes code cpu_ns) 24;
    Some (if negb (r =? 0) then ESYS_FAULT else 0, k).

Definition sys_wait (k : kern_t) (pid_u info_u : Z) : option (sysres * kern_t) :=
  if negb (info_u =? 0) && negb (validate_user_ptr info_u 24) then Some (SysRet ESYS_FAULT, k)
  else
    '(saved, o, st) ← sched_reap_start g_kernel_cr3 (kn_sched k) (u32 pid_u);
    let k := set_ksched k st in
    match saved, o with
    | None, _ => Some (SysRet (u64 (-1)), k)
    | Some sv, Switched child => Some (SysWaiting child sv, k)
    | Some sv, _ => '(r, k) ← sys_wait_finish k sv info_u; Some (SysRet r, k)
    end.

(** ** Dispatch *)

Definition ret_k (x : option (Z * kern_t)) : option (sysres * kern_t) := '(r, k) ← x; Some (SysRet r, k).
Definition ret_v (k : kern_t) (x : option Z) : option (sysres * kern_t) := r ← x; Some (SysRet r, k).

Definition syscall_dispatch (k : kern_t) (nr a0 a1 a2 a3 a4 : Z) : option (sysres * kern_t) :=
  match nr with
  | 1 => sys_exit k a0
  | 2 => ret_k (sys_open k a0 a1)
  | 3 => ret_k (sys_close k a0)
  | 4 => ret_k (sys_read k a0 a1 a2)
  | 5 => ret_k (sys_write k a0 a1 a2)
  | 6 => ret_k (sys_stat k a0 a1)
  | 7 => ret_k (sys_seek k a0 a1 a2)
  | 8 => ret_k (sys_mkdir k a0)
  | 9 => ret_k (sys_unlink k a0)
  | 10 => ret_k (sys_readdir k a0 a1 a2 a3)
  | 11 => ret_k (sys_spawn k a0 a1 a2)
  | 12 => sys_wait k a0 a1
  | 13 => ret_v k (sys_getpid k)
  | 14 => sys_yield k
  | 15 => ret_v k (sys_time k)
  | 16 => ret_v k (sys_getuid k)
  | 17 => ret_v k (sys_getgid k)
  | 18 => ret_v k (sys_geteuid k)
  | 19 => ret_v k (sys_getegid k)
  | 20 => ret_v k (sys_getppid k)
  | 21 => ret_k (sys_uname k a0)
  | 22 => ret_k (sys_mmap k a0 a1 a2 a3 a4 0)
  | 23 => ret_k (sys_munmap k a0 a1)
  | 24 => ret_k (sys_brk k a0)
  | 25 => ret_k (sys_ioctl k a0 a1 a2)
  | 26 => ret_k (sys_writev k a0 a1 a2)
  | 27 => ret_v k (sys_gettime_ns k)
  | 28 => ret_k (sys_setuid k a0)
  | 29 => ret_k (sys_setgid k a0)
  | _ => Some (SysRet ESYS_NOSYS, k)
  end.
End Syscall.

(** ** Functions that the dispatcher does not call *)

(** [while (cwd[i] && i < size-1)] with the string of one slash. *)
Definition sys_getcwd (buf : list Z) (size : Z) : option (Z * list Z) :=
  if size =? - 2 ^ 31 then None
  else if 0 <? size - 1 then buf ← put buf 0 47; buf ← put buf 1 0; Some (1, buf)
  else buf ← put buf 0 0; Some (0, buf).

Definition execve (path : list Z) (argv : list (list Z)) : Z := -1.

Arguments kern_t St W B : clear implicits.
