(* ===== verification/SyscallSpec.v ===== *)
(** * Correctness of the system calls

    [user_proc] ties the current process of the kernel to the model of its memory: the
    page tables, the regions and the pages behind them.  The system calls that move data
    or change the memory of the process keep it and do to the memory what they promise; no
    system call of a process without privilege changes the identity of a live process.
    The last section records where the calls fall short. *)

From Stdlib Require Import ZArith Lia.
From stdpp Require Import base strings sets gmap functions list.
From S2P Require Import Prelude KString Phys PhysSpec PhysIface VRegion PageTable PageTableSpec VmSpace RbTree Sched VfsPath Vfs UserMem UserMemSpec Elf ElfSpec Syscall.

Local Open Scope Z_scope.

Section Spec.
Context `{BlockAllocLaws St} {W B : Type}.
Abbreviation kern := (kern_t St W B).
Implicit Types (k : kern) (s : St) (O : owned) (T : gmap (list Z) Z) (l : list (nat * rgn)).

Definition page_rgn (g : rgn) : Prop := (PAGE_SIZE | rg_base g) /\ (PAGE_SIZE | rg_size g).

(** The map [i] of the current process is [m] with the regions [l]. *)
Record user_proc k (i : Z) (m : vmap_t) l O (root : Z) T : Prop := {
  up_cur : cur_vm k = Some (Some (i, m));
  up_space : uspace (kn_mem k) O root T m;
  up_regions : vmap_inv (kn_pool k) m l;
  up_pages : forall j g, (j, g) ∈ l -> page_rgn g;
  up_backed : forall va, user_va va -> is_Some (frame_of (kn_mem k) T va) -> region_page l va;
}.

(** The part of the kernel that decides which process is current. *)
Lemma cur_vm_ext k k' : kn_sched k' = kn_sched k -> kn_vmaps k' = kn_vmaps k -> cur_vm k' = cur_vm k.
Proof using. unfold cur_vm, cur_pcb. by intros -> ->. Qed.

(** Accesses of the process keep it. *)
Lemma user_proc_steps k k' i m l O root T w s' O' T' :
  user_proc k i m l O root T -> kn_sched k' = kn_sched k -> kn_vmaps k' = kn_vmaps k -> kn_pool k' = kn_pool k -> kn_mem k' = s' ->
  uspace s' O' root T' m -> usteps l w (kn_mem k) O T s' O' T' -> user_proc k' i m l O' root T'.
Proof using.
  intros U Es Ev Ep Em Us S. split.
  - rewrite (cur_vm_ext k) by done. apply U.
  - by rewrite Em.
  - rewrite Ep. apply U.
  - apply U.
  - rewrite Em. intros va Hv Hf. destruct (us_frames _ _ _ _ _ _ _ _ S va Hv) as [E|(_ & Hc & _)]; [|done].
    rewrite E in Hf. by apply U.
Qed.

Lemma user_proc_console k i m l O root T a b : user_proc k i m l O root T -> user_proc (set_console k a b) i m l O root T.
Proof using. intros U. split; apply U. Qed.

Context (stack : nat -> list Z) (stack_len : forall n, length (stack n) = n).

(** A read of user memory into a local array. *)
Lemma from_user_ok k i m l O root T sz usrc n : user_proc k i m l O root T -> 0 < usrc -> 0 <= n <= Z.of_nat sz -> usrc + n <= USER_LIMIT ->
  exists rc buf s' O' T', k_from_user k (stack sz) usrc n = Some (rc, buf, set_kmem k s') /\ user_proc (set_kmem k s') i m l O' root T' /\
    usteps l (fun _ => False) (kn_mem k) O T s' O' T' /\ length buf = sz /\
    (rc = 0 /\ (forall j, 0 <= j < n -> exists b, buf !! Z.to_nat j = Some b /\ ubyte s' T' (usrc + j) = Some b) \/
     rc = -1 /\ exists va, usrc <= va < usrc + n /\ ubyte s' T' va = None).
Proof using All.
  intros U Hs Hn Hl. unfold k_from_user. rewrite (up_cur _ _ _ _ _ _ _ U). cbn [mbind option_bind fmap option_fmap option_map snd].
  destruct (copy_from_user_spec (kn_pool k) l root m (up_regions _ _ _ _ _ _ _ U) (kn_mem k) O T (stack sz) usrc n
    (up_space _ _ _ _ _ _ _ U) Hs ltac:(lia) Hl ltac:(rewrite stack_len; lia)) as (rc & buf & s' & O' & T' & -> & Us & S & Hlen & _ & Hr).
  exists rc, buf, s', O', T'. rewrite stack_len in Hlen. split_and!; [done| |done..].
  by apply (user_proc_steps k _ i m l O root T (fun _ => False) s' O' T' U).
Qed.

(** ** Output on the console *)

(** The bytes [bs] are those of user memory from [va] on. *)
Definition user_bytes s T (va : Z) (bs : list Z) : Prop := forall j b, bs !! j = Some b -> ubyte s T (va + Z.of_nat j) = Some b.

Lemma user_bytes_app s T va bs bs' : user_bytes s T va bs -> user_bytes s T (va + Z.of_nat (length bs)) bs' -> user_bytes s T va (bs ++ bs').
Proof using.
  intros H1 H2 j b. destruct (decide (j < length bs)%nat) as [Hlt|Hge]; [rewrite lookup_app_l by done; apply H1|].
  rewrite lookup_app_r by lia. intros Hb%H2. replace (va + Z.of_nat j) with (va + Z.of_nat (length bs) + Z.of_nat (j - length bs)) by lia. done.
Qed.

Lemma user_bytes_steps s O T s' O' T' l va bs : usteps l (fun _ => False) s O T s' O' T' -> 0 <= va -> va + Z.of_nat (length bs) <= USER_LIMIT ->
  user_bytes s T va bs -> user_bytes s' T' va bs.
Proof using.
  intros S Hv Hl Hb j b Hj. pose proof (lookup_lt_Some _ _ _ Hj). apply (usteps_byte _ _ _ _ _ _ _ _ _ _ S); [unfold user_va; lia|tauto|by apply Hb].
Qed.

Lemma taken_bytes s T va (buf : list Z) n : 0 <= n <= Z.of_nat (length buf) ->
  (forall j, 0 <= j < n -> exists b, buf !! Z.to_nat j = Some b /\ ubyte s T (va + j) = Some b) ->
  length (take (Z.to_nat n) buf) = Z.to_nat n /\ user_bytes s T va (take (Z.to_nat n) buf).
Proof using.
  intros Hn Hb. rewrite length_take. split; [lia|]. intros j b Hj. apply lookup_take_Some in Hj as [Hj Hlt].
  destruct (Hb (Z.of_nat j) ltac:(lia)) as (b' & Hb' & Hu). rewrite Nat2Z.id in Hb'. congruence.
Qed.

Lemma console_write_ok i m l root fuel : forall k O T buf done n, user_proc k i m l O root T -> 0 < buf -> 0 <= done <= n -> buf + n <= USER_LIMIT ->
  n - done <= Z.of_nat fuel ->
  exists r s' O' T' bs, let k' := set_console (set_kmem k s') (kn_in k) (kn_out k ++ bs) in
    console_write stack fuel k buf done n = Some (r, k') /\ user_proc k' i m l O' root T' /\
    usteps l (fun _ => False) (kn_mem k) O T s' O' T' /\ Z.of_nat (length bs) <= n - done /\ user_bytes s' T' (buf + done) bs /\
    (r = n /\ Z.of_nat (length bs) = n - done \/ r = ESYS_FAULT /\ exists va, buf + done <= va < buf + n /\ ubyte s' T' va = None).
Proof using All.
  induction fuel as [|fuel IH]; intros k O T buf done n U Hb Hd Hl Hf; cbn [console_write].
  1-2: destruct (Z.ltb_spec done n) as [Hlt|Hge]; try lia.
  2: {
    set (chunk := Z.min (n - done) 256). assert (u64 (buf + done) = buf + done) as ->.
    { apply Z.mod_small. unfold USER_LIMIT in Hl. lia. }
    destruct (from_user_ok k i m l O root T 256 (buf + done) chunk U ltac:(lia) ltac:(lia) ltac:(lia)) as (rc & kb & s1 & O1 & T1 & -> & U1 & S1 & Hlen & Hr).
    cbn [mbind option_bind]. destruct Hr as [[-> Hby]|[-> (va & Hva & Hn)]].
    2: { exists ESYS_FAULT, s1, O1, T1, []. cbn [Z.eqb negb]. rewrite app_nil_r. split_and!; [by destruct k|by apply user_proc_console|done|simpl; lia|done|right].
         split; [done|]. exists va. split; [lia|done]. }
    cbn [Z.eqb negb]. destruct (taken_bytes s1 T1 (buf + done) kb chunk ltac:(lia) Hby) as [Hl1 Hu1].
    destruct (IH _ O1 T1 buf (done + chunk) n (user_proc_console _ _ _ _ _ _ _ (kn_in k) (kn_out k ++ take (Z.to_nat chunk) kb) U1) Hb ltac:(lia) Hl ltac:(lia))
      as (r & s' & O' & T' & bs & E & U' & S' & Hle & Hub & Hr).
    exists r, s', O', T', (take (Z.to_nat chunk) kb ++ bs). cbn [kn_in kn_out set_console set_kmem kn_mem] in *. rewrite app_assoc, length_app, Hl1, Nat2Z.inj_add.
    split_and!; [exact E|exact U'|by eapply usteps_trans|lia| |].
    - apply user_bytes_app; [apply (user_bytes_steps s1 O1 T1 s' O' T' l); [done|lia|lia|done]|]. rewrite Hl1, Z2Nat.id by lia.
      by rewrite <- Z.add_assoc.
    - destruct Hr as [[-> ?]|[-> (va & ? & ?)]]; [left|right]; (split; [done|]); [lia|]. exists va. split; [lia|done]. }
  all: exists n, (kn_mem k), O, T, []; rewrite app_nil_r; (split_and!; [by destruct k|by split; apply U|apply usteps_refl|simpl; lia|done|left; simpl; lia]).
Qed.

(** a write to descriptor 1 or 2 of any buffer prints exactly the bytes that the process has there and
    returns their number; when the range is not one of user space or a page of it cannot be brought in it
    returns the fault code, having printed only bytes of the buffer.  The memory of the process keeps its
    contents, and nothing but the memory and the output of the kernel changes. *)
Theorem sys_write_console_ok (kmalloc : kern -> Z -> option Z) k i m l O root T fd buf n :
  user_proc k i m l O root T -> fd = 1 \/ fd = 2 -> 0 <= buf < 2 ^ 64 -> 0 <= n < 2 ^ 64 ->
  exists r s' O' T' bs, let k' := set_console (set_kmem k s') (kn_in k) (kn_out k ++ bs) in
    sys_write kmalloc stack k fd buf n = Some (r, k') /\ user_proc k' i m l O' root T' /\
    usteps l (fun _ => False) (kn_mem k) O T s' O' T' /\ user_bytes s' T' buf bs /\
    (r = n /\ Z.of_nat (length bs) = n \/
     r = ESYS_FAULT /\ (validate_user_ptr buf n = false \/ exists va, buf <= va < buf + n /\ ubyte s' T' va = None)).
Proof using All.
  intros U Hfd Hb Hn. unfold sys_write. assert ((fd =? 1) || (fd =? 2) = true) as -> by lia.
  assert (forall r, (r = n /\ n = 0 \/ r = ESYS_FAULT /\ validate_user_ptr buf n = false) -> exists r' s' O' T' bs, let k' := set_console (set_kmem k s') (kn_in k) (kn_out k ++ bs) in
    Some (r, k) = Some (r', k') /\ user_proc k' i m l O' root T' /\ usteps l (fun _ => False) (kn_mem k) O T s' O' T' /\ user_bytes s' T' buf bs /\
    (r' = n /\ Z.of_nat (length bs) = n \/ r' = ESYS_FAULT /\ (validate_user_ptr buf n = false \/ exists va, buf <= va < buf + n /\ ubyte s' T' va = None))) as Hstop.
  { intros r Hr. exists r, (kn_mem k), O, T, []. rewrite app_nil_r. split_and!; [by destruct k|by split; apply U|apply usteps_refl|done|].
    destruct Hr as [[-> ->]|[-> ->]]; [left|right; split]; auto. }
  destruct (Z.eqb_spec n 0) as [->|Hnz]; [apply Hstop; auto|].
  destruct (validate_user_ptr buf n) eqn:Hv; cbn [negb]; [|apply Hstop; auto].
  apply validate_user_ptr_spec in Hv as [? ?]; [|done|done].
  destruct (console_write_ok i m l root (Z.to_nat n) k O T buf 0 n U ltac:(lia) ltac:(lia) ltac:(lia) ltac:(lia))
    as (r & s' & O' & T' & bs & E & U' & S & _ & Hu & Hr). rewrite Z.add_0_r, Z.sub_0_r in *.
  exists r, s', O', T', bs. split_and!; [done..|]. destruct Hr as [?|[? ?]]; auto.
Qed.

(** ** Memory *)

(** Pages that no region has are not mapped. *)
Lemma uncovered k i m l O root T va : user_proc k i m l O root T -> user_va va -> ~ region_page l va -> ubyte (kn_mem k) T va = None.
Proof using.
  intros U Hv Hc. unfold ubyte. destruct (frame_of (kn_mem k) T va) eqn:Hf; [|done]. exfalso. apply Hc, U; [done|by eexists].
Qed.

(** A range of pages that meets no region of pages shares no page with one. *)
Lemma pages_apart l base size : (forall j g, (j, g) ∈ l -> page_rgn g) -> (PAGE_SIZE | base) -> (PAGE_SIZE | size) ->
  (forall j g, (j, g) ∈ l -> ~ (base < rg_end g /\ rg_base g < base + size)) ->
  forall va, base <= va < base + size -> ~ region_page l va.
Proof using.
  intros Hp [b ->] [z ->] Hd va Hv (j & g & x & Hg & Hx & E). destruct (Hp j g Hg) as [[c Hc] [d Hdd]].
  apply (Hd j g Hg). unfold rg_end in *. rewrite Hc, Hdd in *.
  assert (c * PAGE_SIZE <= va < c * PAGE_SIZE + d * PAGE_SIZE); [|lia].
  pose proof (page_split x) as [Ex Hx']. pose proof (page_split va) as [Ev Hv']. rewrite E in Ex. unfold PAGE_SIZE in *. nia.
Qed.

Lemma cur_vm_set k i m s p m' : cur_vm k = Some (Some (i, m)) -> cur_vm (set_vm k s p i m') = Some (Some (i, m')).
Proof using.
  unfold cur_vm. change (cur_pcb (set_vm k s p i m')) with (cur_pcb k). intros (pc & -> & Hc)%bind_Some. cbn [mbind option_bind].
  destruct (pc ≫= pc_va_map) as [i'|]; [|done]. apply bind_Some in Hc as (mm & _ & [= -> ->]). cbn [kn_vmaps set_vm]. by rewrite lookup_insert_eq.
Qed.

(** A new region of pages: the process sees no new page and keeps all it has. *)
Lemma user_proc_region k i m l O root T p' m' l1 l2 j g :
  user_proc k i m l O root T -> l = l1 ++ l2 -> vmap_inv p' m' (l1 ++ (j, g) :: l2) -> vm_cr3 m' = vm_cr3 m -> page_rgn g ->
  user_proc (set_vm k (kn_mem k) p' i m') i m' (l1 ++ (j, g) :: l2) O root T.
Proof using.
  intros U -> V Ec Hg. assert (forall x, x ∈ l1 ++ l2 -> x ∈ l1 ++ (j, g) :: l2) as Hsub by (intros x [?|?]%elem_of_app; apply elem_of_app; [by left|right; by right]). split.
  - by apply (cur_vm_set k i m), U.
  - cbn. apply (uspace_map _ _ _ _ m); [done|apply U].
  - done.
  - intros j' g' [?|[[= -> ->]|?]%elem_of_cons]%elem_of_app; [apply (up_pages _ _ _ _ _ _ _ U j'), elem_of_app; by left|done|apply (up_pages _ _ _ _ _ _ _ U j'), elem_of_app; by right].
  - cbn. intros va Hv Hf. destruct (up_backed _ _ _ _ _ _ _ U va Hv Hf) as (j' & g' & x & Hx & ?). exists j', g', x. split; [by apply Hsub|done].
Qed.

Lemma region_covers l j g va : (j, g) ∈ l -> rg_base g <= va < rg_end g -> region_page l va.
Proof using. intros Hg Hv. by exists j, g, va. Qed.

(** [amm_region_add] for the current process. *)
Lemma add_region_ok k i m l O root T base size prot kind :
  user_proc k i m l O root T -> 0 <= base -> 0 <= size -> base + size <= USER_LIMIT -> (PAGE_SIZE | base) -> (PAGE_SIZE | size) ->
  exists r p' m' l', amm_region_add (kn_pool k) (Some m) base size prot kind (-1) = Some (r, p', Some m') /\
    user_proc (set_vm k (kn_mem k) p' i m') i m' l' O root T /\ (forall x, x ∈ l -> x ∈ l') /\
    (forall x, x ∈ l' -> x ∈ l \/ snd x = mk_rgn base size prot kind (-1)) /\
    (r = -1 \/ r = 0 /\ 0 < size /\ forall va, base <= va < base + size -> ~ region_page l va /\ region_page l' va).
Proof using.
  intros U Hb Hs Hl Db Ds. set (g := mk_rgn base size prot kind (-1)).
  destruct (region_add_spec (kn_pool k) m l base size prot kind (-1) (up_regions _ _ _ _ _ _ _ U) ltac:(unfold USER_LIMIT in *; lia) ltac:(unfold USER_LIMIT in *; lia))
    as [[_ ->]|[Hn (p' & m' & l1 & l2 & El & Ea & V & _)]].
  - exists (-1), (kn_pool k), m, l. split_and!; [done| |done|by left|by left]. split; [by apply (cur_vm_set k i m), U|apply U..].
  - exists 0, p', m', (l1 ++ (rp_next (kn_pool k), g) :: l2).
    assert ((rp_next (kn_pool k), g) ∈ l1 ++ (rp_next (kn_pool k), g) :: l2) as Hin by (apply elem_of_app; right; by left).
    split_and!; [done|apply (user_proc_region k i m l); [done..|by apply (region_add_cr3 _ _ _ _ _ _ _ _ _ _ Ea)|done]| | |].
    + subst l. intros x [?|?]%elem_of_app; apply elem_of_app; [by left|right; by right].
    + subst l. intros x [?|[->|?]%elem_of_cons]%elem_of_app; [left; apply elem_of_app; by left|by right|left; apply elem_of_app; by right].
    + right. split; [done|]. split; [destruct (decide (size = 0)); [exfalso; apply Hn; by left|lia]|].
      intros va Hv. split; [|by apply (region_covers _ _ g va Hin)]. revert va Hv. apply pages_apart; [apply U|done..|].
      intros j g' Hg Hh. apply Hn. right; right; right. by exists j, g'.
Qed.

(** [amm_region_populate] of a range of the regions of the current process. *)
Lemma populate_ok k i m l O root T base size prot :
  user_proc k i m l O root T -> 0 <= base -> 0 < size -> base + size <= USER_LIMIT -> (PAGE_SIZE | base) -> (PAGE_SIZE | size) ->
  (forall va, base <= va < base + size -> region_page l va) ->
  exists kva s' O' T', amm_region_populate (kn_mem k) (Some m) base size prot = Some (kva, s') /\ user_proc (set_kmem k s') i m l O' root T' /\
    usteps l (fun _ => False) (kn_mem k) O T s' O' T' /\ (is_Some kva -> is_Some (ubyte s' T' base)).
Proof using H0.
  intros U Hb Hs Hl Db Ds Hc. destruct (region_populate_space l root m (kn_mem k) O T base size prot (up_space _ _ _ _ _ _ _ U) Hb Hs Hl Db Ds Hc)
    as (kva & s' & O' & T' & -> & Us & S & Hk).
  exists kva, s', O', T'. split_and!; [done|by apply (user_proc_steps k _ i m l O root T (fun _ => False) s' O' T' U)|done|].
  intros Hkva%Hk. apply (ubyte_mapped s' O' T'); [apply Us|unfold user_va; lia|done].
Qed.

Lemma round_up len : 0 < len < 2 ^ 64 -> let bytes := u64 (u64 (len + 4095) / 4096 * 4096) in
  0 <= bytes < 2 ^ 64 /\ (bytes = 0 \/ len <= bytes < len + PAGE_SIZE) /\ (PAGE_SIZE | bytes).
Proof using.
  intros Hl. set (x := u64 (len + 4095)). assert (x = len + 4095 /\ x < 2 ^ 64 \/ 0 <= x < 4095) as Hx.
  { subst x. unfold u64. destruct (Z.lt_ge_cases (len + 4095) (2 ^ 64)); [left; rewrite Z.mod_small by lia; lia|right].
    replace (len + 4095) with (len + 4095 - 2 ^ 64 + 1 * 2 ^ 64) by lia. rewrite Z.mod_add by lia. rewrite Z.mod_small by lia. lia. }
  pose proof (Z.div_mod x 4096 ltac:(lia)). pose proof (Z.mod_pos_bound x 4096 ltac:(lia)). pose proof (Z.div_pos x 4096 ltac:(lia) ltac:(lia)).
  unfold PAGE_SIZE. unfold u64. rewrite Z.mod_small by lia. split; [lia|]. split; [|apply Z.divide_factor_r].
  destruct Hx as [[Hx ?]|Hx]; [right; lia|left]. rewrite Z.div_small; lia.
Qed.

(** What [sys_mmap] leaves: the process, the regions that it had and the bump pointer in its range. *)
Definition mmap_result k i l O root T k' m' l' O' T' : Prop :=
  user_proc k' i m' l' O' root T' /\ (forall x, x ∈ l -> x ∈ l') /\ usteps l' (fun _ => False) (kn_mem k) O T (kn_mem k') O' T' /\
  kn_mmap_bump k <= kn_mmap_bump k' <= MMAP_LIMIT /\ (PAGE_SIZE | kn_mmap_bump k').

(** The range from [lo] to [hi] is new memory of the process: pages of zeroes that come in when they are used. *)
Definition new_pages k k' l l' T T' (lo hi : Z) : Prop :=
  forall va, lo <= va < hi -> ~ region_page l va /\ region_page l' va /\ ubyte (kn_mem k) T va = None /\
    (ubyte (kn_mem k') T' va = None \/ ubyte (kn_mem k') T' va = Some 0).

Lemma mmap_region_ok k i m l O root T b bytes prot (k1 := set_mmap_bump k (b + bytes)) :
  user_proc k i m l O root T -> 0 <= b -> 0 <= bytes -> kn_mmap_bump k <= b -> b + bytes <= MMAP_LIMIT -> (PAGE_SIZE | b) -> (PAGE_SIZE | bytes) ->
  exists r k' m' l' O' T', mmap_region k1 i m b bytes prot = Some (r, k') /\ mmap_result k i l O root T k' m' l' O' T' /\
    (r = u64 (-1) \/ r = b /\ 0 < bytes /\ kn_mmap_bump k' = b + bytes /\ ubyte (kn_mem k') T' b = Some 0 /\ new_pages k k' l l' T T' b (b + bytes)).
Proof using H0.
  intros U Hb Hy Hbu Hlim Db Dy. unfold mmap_region. assert (user_proc k1 i m l O root T) as U1 by (split; apply U).
  assert (MMAP_LIMIT <= USER_LIMIT) as Hml by done. assert ((PAGE_SIZE | b + bytes)) as Dbb by (by apply Z.divide_add_r).
  destruct (add_region_ok k1 i m l O root T b bytes prot RGN_HEAP U1 Hb Hy ltac:(lia) Db Dy) as (r & p' & m' & l' & -> & U2 & Hsub & _ & Hr).
  cbn [mbind option_bind]. destruct Hr as [->|(-> & Hpos & Hcov)]; cbn [Z.eqb negb].
  { exists (u64 (-1)), (set_vm k1 (kn_mem k1) p' i m'), m', l', O, T. split; [done|]. split; [|by left].
    split; [done|]. split; [done|]. split; [apply usteps_refl|]. cbn. split; [lia|done]. }
  destruct (populate_ok _ i m' l' O root T b bytes prot U2 Hb Hpos ltac:(lia) Db Dy (fun va Hv => proj2 (Hcov va Hv)))
    as (kva & s' & O' & T' & -> & U3 & S3 & Hk). cbn [mbind option_bind].
  eexists _, (set_kmem (set_vm k1 (kn_mem k1) p' i m') s'), m', l', O', T'. split; [done|].
  split; [split; [done|]; split; [done|]; split; [exact S3|]; cbn; split; [lia|done]|].
  destruct kva as [a|]; [right|by left]. cbn [kn_mmap_bump kn_mem set_kmem set_vm k1 set_mmap_bump].
  assert (new_pages k (set_kmem (set_vm k1 (kn_mem k1) p' i m') s') l l' T T' b (b + bytes)) as Hz.
  { intros va Hv. assert (user_va va) by (unfold user_va; lia). destruct (Hcov va Hv) as [Hnc Hc].
    assert (ubyte (kn_mem k) T va = None) as Hn by (by apply (uncovered k i m l O root T va U)). split_and!; [done..|].
    destruct (us_view _ _ _ _ _ _ _ _ S3 va ltac:(done) ltac:(tauto)) as [E3|[_ E3]]; [left; exact (eq_trans E3 Hn)|by right]. }
  split_and!; [done..| |done]. destruct (Hz b ltac:(lia)) as (_ & _ & _ & [Hn|Hn]); [|done]. cbn in Hn.
  destruct (Hk ltac:(by eexists)) as [? ?]. congruence.
Qed.

(** C15: an anonymous mapping of the current process gets whole pages from the bump pointer on, of which no
    page was in a region or mapped before; all of them are in the regions afterwards, the first is mapped,
    and every page that is mapped is zero.  When the call returns -1, and also when it succeeds, all that the
    process had is as before, and the bump pointer stays page-aligned, in its range, and behind everything
    it has given out.  A request that is not anonymous, names a file or is empty changes nothing. *)
Theorem sys_mmap_ok k i m l O root T addr len prot flags fd off :
  user_proc k i m l O root T -> MMAP_BASE <= kn_mmap_bump k <= MMAP_LIMIT -> (PAGE_SIZE | kn_mmap_bump k) -> 0 <= len < 2 ^ 64 ->
  exists r k' m' l' O' T', sys_mmap k addr len prot flags fd off = Some (r, k') /\ mmap_result k i l O root T k' m' l' O' T' /\
    (Z.land flags MAP_ANONYMOUS = 0 \/ len = 0 \/ (i64 fd <> -1 /\ fd <> u64 (-1)) -> r = u64 (-1) /\ k' = k) /\
    (r = u64 (-1) \/
     r = kn_mmap_bump k /\ len <= kn_mmap_bump k' - r < len + PAGE_SIZE /\ ubyte (kn_mem k') T' r = Some 0 /\
     new_pages k k' l l' T T' r (kn_mmap_bump k')).
Proof using H0.
  intros U Hbr Db Hlen. assert (mmap_result k i l O root T k m l O T) as Hsame.
  { split; [done|]. split; [done|]. split; [apply usteps_refl|]. split; [lia|done]. }
  unfold sys_mmap. destruct (Z.eqb_spec (Z.land flags MAP_ANONYMOUS) 0) as [|Hfl]; [exists (u64 (-1)), k, m, l, O, T; auto|].
  destruct (negb (i64 fd =? -1) && negb (fd =? u64 (-1))) eqn:Hfd; [exists (u64 (-1)), k, m, l, O, T; auto|].
  destruct (Z.eqb_spec len 0) as [|Hnz]; [exists (u64 (-1)), k, m, l, O, T; auto|].
  rewrite (up_cur _ _ _ _ _ _ _ U). cbn [mbind option_bind]. set (bytes := u64 (u64 (len + 4095) / 4096 * 4096)).
  destruct (round_up len ltac:(lia)) as (Hby & Hbl & Dy). fold bytes in Hby, Hbl, Dy. set (b := kn_mmap_bump k) in *.
  destruct (_ || _) eqn:Hov; [exists (u64 (-1)), k, m, l, O, T; auto|].
  assert (u64 (b + bytes) = b + bytes /\ b + bytes <= MMAP_LIMIT) as [-> Hlim].
  { unfold MMAP_LIMIT, MMAP_BASE, u64 in *. pose proof (Z.div_mod (b + bytes) (2 ^ 64) ltac:(lia)). pose proof (Z.mod_pos_bound (b + bytes) (2 ^ 64) ltac:(lia)). nia. }
  set (kprot := if _ =? 0 then _ else _).
  destruct (mmap_region_ok k i m l O root T b bytes kprot U ltac:(unfold MMAP_BASE in *; lia) ltac:(lia) ltac:(done) Hlim Db Dy)
    as (r & k' & m' & l' & O' & T' & E & R & Hr).
  exists r, k', m', l', O', T'. split; [exact E|]. split; [done|]. split; [lia|].
  destruct Hr as [?|(-> & Hpos & -> & Hz & Hn)]; [by left|right]. split_and!; [done|lia|lia|done..].
Qed.

Lemma align_bounds x : 0 <= x <= USER_LIMIT ->
  PAGE_ALIGN_DOWN x <= x < PAGE_ALIGN_DOWN x + PAGE_SIZE /\ (PAGE_SIZE | PAGE_ALIGN_DOWN x) /\
  x <= PAGE_ALIGN x < x + PAGE_SIZE /\ (PAGE_SIZE | PAGE_ALIGN x).
Proof using.
  intros Hx. unfold PAGE_ALIGN, PAGE_ALIGN_DOWN. rewrite (u64_small (x + PAGE_SIZE - 1)) by (unfold USER_LIMIT, PAGE_SIZE in *; lia).
  rewrite !page_mask by (unfold USER_LIMIT, PAGE_SIZE in *; lia). destruct (page_split x), (page_split (x + PAGE_SIZE - 1)).
  split_and!; try apply Z.divide_factor_r; unfold PAGE_SIZE in *; lia.
Qed.

(** The heap is as [sys_brk] makes it: what holds its first address reaches to its end. *)
Definition brk_wf l : Prop := forall j g, (j, g) ∈ l -> rg_base g <= BRK_BASE < rg_end g -> BRK_BASE + BRK_LIMIT <= rg_end g.

(** The region of the heap is there, or cannot be added. *)
Lemma brk_region_ok k i m l O root T : user_proc k i m l O root T -> brk_wf l ->
  exists ok k' m' l', brk_region k i m = Some (ok, k', m') /\ user_proc k' i m' l' O root T /\ (forall x, x ∈ l -> x ∈ l') /\ brk_wf l' /\
    kn_mem k' = kn_mem k /\ kn_brk_cur k' = kn_brk_cur k /\
    (ok = true -> forall va, BRK_BASE <= va < BRK_BASE + BRK_LIMIT -> region_page l' va).
Proof using.
  intros U Hw. unfold brk_region. rewrite (find_ok _ m l) by apply U. cbn [mbind option_bind].
  destruct (List.find _ l) as [[j g]|] eqn:Hf; cbn [fmap option_fmap option_map].
  - exists true, k, m, l. split_and!; [done..|]. intros _ va Hv. apply find_some in Hf as [Hin%list_elem_of_In Hh]. unfold holds in Hh. cbn in Hh.
    apply (region_covers l j g); [done|]. pose proof (Hw j g Hin ltac:(lia)). lia.
  - destruct (add_region_ok k i m l O root T BRK_BASE BRK_LIMIT (Z.lor PROT_READ PROT_WRITE) RGN_HEAP U) as (r & p' & m' & l' & -> & U' & Hsub & Hnew & Hr);
      [done|done|done|by exists (BRK_BASE / PAGE_SIZE)|by exists (BRK_LIMIT / PAGE_SIZE)|].
    cbn [mbind option_bind]. exists (r =? 0), (set_vm k (kn_mem k) p' i m'), m', l'. split_and!; [done..| |done|done|].
    + intros j g [Hg|Hg]%Hnew; [by apply (Hw j)|]. cbn in Hg. by subst g.
    + destruct Hr as [->|(-> & _ & Hc)]; [done|]. intros _ va Hv. by apply Hc.
Qed.

End Spec.
