(* ===== verification/SyscallIds.v ===== *)
(** * The identity of processes under the system calls

    A frame argument over the whole dispatcher.  [ids_of] are the user and the group of every
    process block.  The scheduler never changes them, the handlers for files and memory never
    touch the scheduler, and what is left are the two calls that set an identity and the
    creation of a process. *)

From Stdlib Require Import ZArith Lia.
From stdpp Require Import base strings sets gmap functions list.
From S2P Require Import Prelude KString Phys PhysSpec PhysIface VRegion PageTable VmSpace RbTree Sched VfsPath Vfs UserMem Elf Syscall.

Local Open Scope Z_scope.

(** ** The scheduler *)

Definition ids_of (st : sched_st) : gmap nat (Z * Z) := (fun pc => (pc_uid pc, pc_gid pc)) <$> sc_pcbs st.

Lemma upd_pcb_ids st p f st' : upd_pcb st p f = Some st' -> (forall pc, pc_uid (f pc) = pc_uid pc /\ pc_gid (f pc) = pc_gid pc) -> ids_of st' = ids_of st.
Proof.
  intros (pc & Hp & [= <-])%bind_Some Hf. unfold ids_of. cbn [sc_pcbs set_sc_pcbs]. rewrite fmap_insert. destruct (Hf pc) as [-> ->].
  apply insert_id. by rewrite lookup_fmap, Hp.
Qed.

Lemma upd_rq_ids st cpu f st' : upd_rq st cpu f = Some st' -> ids_of st' = ids_of st.
Proof. unfold upd_rq. intros. by run_inv. Qed.

Lemma spin_lock_ids st cpu st' : spin_lock st cpu = Some st' -> ids_of st' = ids_of st.
Proof. unfold spin_lock. intros. run_inv. by eapply upd_rq_ids. Qed.

Lemma spin_unlock_ids st cpu st' : spin_unlock st cpu = Some st' -> ids_of st' = ids_of st.
Proof. apply upd_rq_ids. Qed.

Lemma rq_insert_ids st cpu cls p key st' : rq_insert st cpu cls p key = Some st' -> ids_of st' = ids_of st.
Proof. unfold rq_insert. intros. run_inv. by eapply (upd_rq_ids (set_sc_nodes st _)). Qed.

Lemma rq_remove_ids st cpu cls p st' : rq_remove st cpu cls p = Some st' -> ids_of st' = ids_of st.
Proof. unfold rq_remove. intros. run_inv. by eapply (upd_rq_ids (set_sc_nodes st _)). Qed.

(** Every step of the scheduler in the hypotheses keeps the identities. *)
Ltac ids_fields := unfold ids_of in *;
  cbn [sc_pcbs set_sc_runq set_sc_cpu_count set_sc_nodes set_sc_next_pid set_sc_proc_count set_sc_state set_sc_current set_sc_reap_waiter
       set_sc_reap_jmp set_sc_cr3 set_sc_thread set_sc_freed_stacks set_sc_freed_maps sched_load_cr3] in *.
Ltac ids_base :=
  repeat match goal with
  | H : upd_pcb _ _ _ = Some _ |- _ => apply upd_pcb_ids in H; [|intros []; by repeat case_match]
  | H : upd_rq _ _ _ = Some _ |- _ => apply upd_rq_ids in H
  | H : spin_lock _ _ = Some _ |- _ => apply spin_lock_ids in H
  | H : spin_unlock _ _ = Some _ |- _ => apply spin_unlock_ids in H
  | H : rq_insert _ _ _ _ _ = Some _ |- _ => apply rq_insert_ids in H
  | H : rq_remove _ _ _ _ = Some _ |- _ => apply rq_remove_ids in H
  end.
Ltac ids_done := ids_base; ids_fields; congruence.

Lemma sched_enqueue_ids st p st' : sched_enqueue st p = Some st' -> ids_of st' = ids_of st.
Proof. unfold sched_enqueue. intros. run_inv. ids_done. Qed.

Lemma takeoff_ids st cpu p st' : sched_takeoff_runq_locked st cpu p = Some st' -> ids_of st' = ids_of st.
Proof. unfold sched_takeoff_runq_locked. intros. run_inv; ids_done. Qed.

Lemma take_first_ids st cpu cls n st' : take_first st cpu cls = Some (n, st') -> ids_of st' = ids_of st.
Proof. unfold take_first. intros. run_inv; ids_done. Qed.

Lemma sched_dequeue_ids st cpu n st' : sched_dequeue st cpu = Some (n, st') -> ids_of st' = ids_of st.
Proof. unfold sched_dequeue. intros. run_inv; repeat match goal with H : take_first _ _ _ = Some _ |- _ => apply take_first_ids in H end; ids_done. Qed.

Lemma state_update_ids st st' : sched_state_update st = Some st' -> ids_of st' = ids_of st.
Proof. unfold sched_state_update. intros. run_inv; ids_done. Qed.

Lemma make_current_ids st n st' : make_current st n = Some st' -> ids_of st' = ids_of st.
Proof. unfold make_current. intros. run_inv; ids_done. Qed.

Lemma enter_thread_ids cr3 st n st' : enter_thread cr3 st n = Some st' -> ids_of st' = ids_of st.
Proof. unfold enter_thread. intros. run_inv; ids_done. Qed.

Lemma free_kstack_ids b st p st' : free_kstack b st p = Some st' -> ids_of st' = ids_of st.
Proof. unfold free_kstack. intros. run_inv; ids_done. Qed.

Ltac ids_sched :=
  repeat match goal with
  | H : sched_enqueue _ _ = Some _ |- _ => apply sched_enqueue_ids in H
  | H : sched_takeoff_runq_locked _ _ _ = Some _ |- _ => apply takeoff_ids in H
  | H : sched_dequeue _ _ = Some (_, _) |- _ => apply sched_dequeue_ids in H
  | H : sched_state_update _ = Some _ |- _ => apply state_update_ids in H
  | H : make_current _ _ = Some _ |- _ => apply make_current_ids in H
  | H : enter_thread _ _ _ = Some _ |- _ => apply enter_thread_ids in H
  | H : free_kstack _ _ _ = Some _ |- _ => apply free_kstack_ids in H
  end; ids_done.

Section Ids.
Context (kernel_cr3 bootstrap_kstack : Z).

Lemma switch_to_ids st now n o st' : sched_switch_to kernel_cr3 st now n = Some (o, st') -> ids_of st' = ids_of st.
Proof. unfold sched_switch_to. intros. run_inv; ids_sched. Qed.

Lemma sched_yield_ids st now o st' : sched_yield kernel_cr3 st now = Some (o, st') -> ids_of st' = ids_of st.
Proof. unfold sched_yield. intros. run_inv; repeat match goal with H : sched_switch_to _ _ _ _ = Some _ |- _ => apply switch_to_ids in H end; ids_sched. Qed.

Lemma exit_next_ids st n st' : exit_next st = Some (n, st') -> ids_of st' = ids_of st.
Proof. unfold exit_next. intros. run_inv; ids_sched. Qed.

Lemma sched_exit_ids st code o st' : sched_exit kernel_cr3 bootstrap_kstack st code = Some (o, st') -> ids_of st' = ids_of st.
Proof.
  unfold sched_exit, destroy_map. intros. run_inv; repeat match goal with H : exit_next _ = Some _ |- _ => apply exit_next_ids in H end; repeat case_match; ids_sched.
Qed.

Lemma reap_start_ids st pid sv o st' : sched_reap_start kernel_cr3 st pid = Some (sv, o, st') -> ids_of st' = ids_of st.
Proof. unfold sched_reap_start. intros. run_inv; ids_sched. Qed.

Lemma reap_finish_ids st sv c n st' : sched_reap_finish bootstrap_kstack st sv = Some (c, n, st') -> ids_of st' = ids_of st.
Proof. unfold sched_reap_finish. intros. run_inv; ids_sched. Qed.
End Ids.

(** ** The handlers *)

Section Handlers.
Context `{BlockAlloc St} {W B : Type}.
Abbreviation kern := (kern_t St W B).
Implicit Types k : kern.
Context (kmalloc : kern -> Z -> option Z) (stack : nat -> list Z) (junk_stat : stat_info_t) (asd_time_ns : kern -> Z) (g_kernel_cr3 bootstrap_kstack : Z).

Lemma from_user_sched k dst a n r d k' : k_from_user k dst a n = Some (r, d, k') -> kn_sched k' = kn_sched k.
Proof using. unfold k_from_user. intros. by run_inv. Qed.

Lemma to_user_sched k a src n r k' : k_to_user k a src n = Some (r, k') -> kn_sched k' = kn_sched k.
Proof using. unfold k_to_user. intros. by run_inv. Qed.

Lemma path_sched k a r d k' : k_path stack k a = Some (r, d, k') -> kn_sched k' = kn_sched k.
Proof using. unfold k_path. intros. by run_inv. Qed.

Ltac sched_done :=
  repeat match goal with
  | H : k_from_user _ _ _ _ = Some _ |- _ => apply from_user_sched in H
  | H : k_to_user _ _ _ _ = Some _ |- _ => apply to_user_sched in H
  | H : k_path _ _ _ = Some _ |- _ => apply path_sched in H
  end;
  cbn [kn_sched set_kmem set_vm set_vmap_next set_kvfs set_mmap_bump set_brk_cur set_console set_kents set_elf_buf] in *; congruence.

Lemma sys_open_sched k p f r k' : sys_open stack k p f = Some (r, k') -> kn_sched k' = kn_sched k.
Proof using. unfold sys_open. intros. run_inv; sched_done. Qed.

Lemma sys_close_sched k fd r k' : sys_close k fd = Some (r, k') -> kn_sched k' = kn_sched k.
Proof using. unfold sys_close. intros. run_inv; sched_done. Qed.

Lemma console_read_sched polls : forall k buf got n r k', console_read polls k buf got n = Some (r, k') -> kn_sched k' = kn_sched k.
Proof using.
  induction polls as [|c polls IH]; intros k buf got n r k'; cbn [console_read]; intros; run_inv; try sched_done;
    match goal with H : console_read _ _ _ _ _ = Some _ |- _ => apply IH in H end; sched_done.
Qed.

Lemma console_write_sched fuel : forall k buf x n r k', console_write stack fuel k buf x n = Some (r, k') -> kn_sched k' = kn_sched k.
Proof using.
  induction fuel as [|fuel IH]; intros k buf x n r k'; cbn [console_write]; intros; run_inv; try sched_done;
    match goal with H : console_write _ _ _ _ _ _ = Some _ |- _ => apply IH in H end; sched_done.
Qed.

Lemma sys_read_sched k fd buf n r k' : sys_read stack k fd buf n = Some (r, k') -> kn_sched k' = kn_sched k.
Proof using.
  unfold sys_read. intros. run_inv; try sched_done; match goal with H : console_read _ _ _ _ _ = Some _ |- _ => by apply console_read_sched in H end.
Qed.

Lemma sys_write_sched k fd buf n r k' : sys_write kmalloc stack k fd buf n = Some (r, k') -> kn_sched k' = kn_sched k.
Proof using.
  unfold sys_write. intros. run_inv; try sched_done; match goal with H : console_write _ _ _ _ _ _ = Some _ |- _ => by apply console_write_sched in H end.
Qed.

Lemma sys_stat_sched k p st r k' : sys_stat stack junk_stat k p st = Some (r, k') -> kn_sched k' = kn_sched k.
Proof using. unfold sys_stat. intros. run_inv; sched_done. Qed.

Lemma sys_seek_sched k fd off w r k' : sys_seek k fd off w = Some (r, k') -> kn_sched k' = kn_sched k.
Proof using. unfold sys_seek. intros. run_inv; sched_done. Qed.

Lemma path_op_sched op k p r k' : sys_path_op stack op k p = Some (r, k') -> kn_sched k' = kn_sched k.
Proof using. unfold sys_path_op. intros. run_inv; sched_done. Qed.

Lemma sys_readdir_sched k p b c n r k' : sys_readdir stack k p b c n = Some (r, k') -> kn_sched k' = kn_sched k.
Proof using. unfold sys_readdir. intros. run_inv; sched_done. Qed.

Lemma sys_uname_sched k b r k' : sys_uname stack k b = Some (r, k') -> kn_sched k' = kn_sched k.
Proof using. unfold sys_uname. intros. run_inv; sched_done. Qed.

Lemma sys_mmap_sched k a l p f fd o r k' : sys_mmap k a l p f fd o = Some (r, k') -> kn_sched k' = kn_sched k.
Proof using. unfold sys_mmap, mmap_region. intros. run_inv; sched_done. Qed.

Lemma brk_region_sched k i m ok k' m' : brk_region k i m = Some (ok, k', m') -> kn_sched k' = kn_sched k.
Proof using. unfold brk_region. intros. run_inv; sched_done. Qed.

Lemma sys_brk_sched k b r k' : sys_brk k b = Some (r, k') -> kn_sched k' = kn_sched k.
Proof using.
  unfold sys_brk. intros. run_inv; repeat match goal with H : brk_region _ _ _ = Some _ |- _ => apply brk_region_sched in H end; repeat case_match; sched_done.
Qed.

Lemma writev_buf_sched fd fuel : forall k buf off left r k', writev_buf kmalloc stack fuel k fd buf off left = Some (r, k') -> kn_sched k' = kn_sched k.
Proof using.
  induction fuel as [|fuel IH]; intros k buf off left r k'; cbn [writev_buf]; intros; run_inv; try sched_done;
    match goal with H : writev_buf _ _ _ _ _ _ _ _ = Some _ |- _ => apply IH in H end; sched_done.
Qed.

Lemma writev_loop_sched fd kiov n : forall k i total r k', writev_loop kmalloc stack k fd kiov i total n = Some (r, k') -> kn_sched k' = kn_sched k.
Proof using.
  induction n as [|n IH]; intros k i total r k'; cbn [writev_loop]; intros; run_inv; try sched_done;
    repeat match goal with
    | H : writev_loop _ _ _ _ _ _ _ _ = Some _ |- _ => apply IH in H
    | H : writev_buf _ _ _ _ _ _ _ _ = Some _ |- _ => apply writev_buf_sched in H end; sched_done.
Qed.

Lemma sys_writev_sched k fd iov n r k' : sys_writev kmalloc stack k fd iov n = Some (r, k') -> kn_sched k' = kn_sched k.
Proof using.
  unfold sys_writev. intros. run_inv; repeat match goal with H : writev_loop _ _ _ _ _ _ _ _ = Some _ |- _ => apply writev_loop_sched in H end; sched_done.
Qed.

Lemma destroy_sched k i k' : k_destroy k i = Some k' -> kn_sched k' = kn_sched k.
Proof using. unfold k_destroy. intros. by run_inv. Qed.

Lemma destroy_all_sched ids : forall k k', k_destroy_all k ids = Some k' -> kn_sched k' = kn_sched k.
Proof using.
  induction ids as [|i ids IH]; intros k k'; cbn [k_destroy_all]; intros; run_inv; [done|].
  match goal with H : k_destroy_all _ _ = Some _, H' : k_destroy _ _ = Some _ |- _ => apply IH in H; apply destroy_sched in H' end. congruence.
Qed.

Lemma spawn_fail_sched k i r k' : spawn_fail k i = Some (r, k') -> r = 0 /\ kn_sched k' = kn_sched k.
Proof using. unfold spawn_fail. intros. run_inv. split; [done|by eapply destroy_sched]. Qed.

Lemma elf_read_sched fd fuel : forall k total got r k', elf_read_loop fuel k fd total got = Some (r, k') -> kn_sched k' = kn_sched k /\ kn_shell_uid k' = kn_shell_uid k /\ kn_shell_gid k' = kn_shell_gid k.
Proof using.
  induction fuel as [|fuel IH]; intros k total got r k'; cbn [elf_read_loop]; intros; run_inv; try done;
    match goal with H : elf_read_loop _ _ _ _ _ = Some _ |- _ => by apply IH in H end.
Qed.

(** ** New processes *)

(** A block that [sched_spawn] may take. *)
Definition spare_block (st : sched_st) (i : nat) : Prop := forall pc, sc_pcbs st !! i = Some pc -> pc_state pc = PROC_DEAD \/ pc_pid pc = 0.

Lemma free_pid_free st n : forall pid pid', free_pid st pid n = Some (Some pid') -> spare_block st (Z.to_nat (pid' mod MAX_PROCS)).
Proof using.
  induction n as [|n IH]; intros pid pid'; cbn [free_pid]; intros; run_inv; [by eapply IH|].
  intros pc Hpc. match goal with H : sc_pcbs st !! _ = Some _ |- _ => rewrite Hpc in H; injection H as -> end. lia.
Qed.

(** What spawning does to the identities: only a free block gets a new one, and it cannot run or has the shell's. *)
Definition spawn_ids k k' : Prop := exists slot,
  (forall i, i <> slot -> ids_of (kn_sched k') !! i = ids_of (kn_sched k) !! i) /\
  (ids_of (kn_sched k') !! slot = ids_of (kn_sched k) !! slot \/
   spare_block (kn_sched k) slot /\
   ((exists p, sc_pcbs (kn_sched k') !! slot = Some p /\ pc_state p = PROC_NEW) \/
    ids_of (kn_sched k') !! slot = Some (kn_shell_uid k, kn_shell_gid k))).

Lemma spawn_ids_same k k' : kn_sched k' = kn_sched k -> spawn_ids k k'.
Proof using. intros E. exists 0%nat. rewrite E. split; [done|by left]. Qed.

Lemma spawn_ids_frame k0 k k' k1 : kn_sched k0 = kn_sched k -> kn_shell_uid k0 = kn_shell_uid k -> kn_shell_gid k0 = kn_shell_gid k -> kn_sched k1 = kn_sched k' ->
  spawn_ids k k' -> spawn_ids k0 k1.
Proof using. unfold spawn_ids. by intros -> -> -> ->. Qed.

Lemma sched_spawn_ids st args ks vm pid st' : sched_spawn st args ks vm = Some (pid, st') ->
  pid = 0 /\ st' = st \/ exists slot, spare_block st slot /\ (pid <> 0 -> slot = Z.to_nat (pid mod MAX_PROCS)) /\
    (forall i, i <> slot -> ids_of st' !! i = ids_of st !! i) /\ exists p, sc_pcbs st' !! slot = Some p /\ pc_state p = PROC_NEW.
Proof using.
  unfold sched_spawn, sched_kstack_alloc. intros. run_inv; try (by left); right;
    match goal with H : free_pid _ _ _ = Some (Some ?p) |- _ => exists (Z.to_nat (p mod MAX_PROCS)); apply free_pid_free in H end;
    (split; [done|]; split; [done|]; split; [|eexists; split; [apply lookup_insert_eq|done]]);
    intros i Hi; unfold ids_of; cbn [sc_pcbs set_sc_pcbs set_sc_nodes set_sc_next_pid set_sc_proc_count]; rewrite !lookup_fmap, lookup_insert_ne; done.
Qed.

Lemma k_spawn_ids k path vm pid k' : k_spawn kmalloc k path vm = Some (pid, k') ->
  kn_shell_uid k' = kn_shell_uid k /\ kn_shell_gid k' = kn_shell_gid k /\
  exists ks, sched_spawn (kn_sched k) (mk_spawn_args path SCHED_BATCH 0 0xFF (Some vm)) ks None = Some (pid, kn_sched k').
Proof using.
  unfold k_spawn. intros (k1 & E1 & E)%bind_Some. assert (kn_shell_uid k1 = kn_shell_uid k /\ kn_shell_gid k1 = kn_shell_gid k) as [Eu Eg] by (run_inv; by repeat case_match).
  apply bind_Some in E as ([pid' st] & E & [= <- <-]). split_and!; [done..|by eexists].
Qed.

Lemma start_process_ids k path i entry rsp r k' : start_process kmalloc k path i entry rsp = Some (r, k') -> spawn_ids k k'.
Proof using.
  unfold start_process. intros ([pid k1] & E1 & E)%bind_Some. apply k_spawn_ids in E1 as (Eu & Eg & ks & Hk%sched_spawn_ids).
  assert (kn_sched k' = kn_sched k1 -> spawn_ids k k') as Hfail.
  { intros Es. destruct Hk as [[_ Ek]|(slot & Hfree & _ & Hoth & p & Hp & Hs)]; [apply spawn_ids_same; congruence|].
    exists slot. rewrite Es. split; [done|]. right. split; [done|]. left. by exists p. }
  destruct (pid =? 0) eqn:Hpid; [by apply Hfail, (spawn_fail_sched _ _ _ _ E)|].
  apply bind_Some in E as ([p|] & Ef & E); [|by apply Hfail, (spawn_fail_sched _ _ _ _ E)].
  destruct Hk as [[-> _]|(slot & Hfree & Hsl & Hoth & _)]; [done|]. specialize (Hsl ltac:(lia)).
  unfold sched_find in Ef. run_inv. match goal with H : sched_enqueue _ _ = Some _ |- _ => apply sched_enqueue_ids in H as Eq end.
  match goal with H : upd_pcb _ _ _ = Some _ |- _ => apply bind_Some in H as (pc & Hpc & [= <-]) end.
  exists (Z.to_nat (r mod MAX_PROCS)). cbn [kn_sched set_ksched]. rewrite Eq. unfold ids_of at 1 3 5. cbn [sc_pcbs set_sc_pcbs]. rewrite fmap_insert. split.
  - intros j Hj. rewrite lookup_insert_ne by done. by apply Hoth.
  - right. split; [done|]. right. rewrite lookup_insert_eq. cbn. by rewrite Eu, Eg.
Qed.

Lemma load_program_ids k path argv envp total i m r k' : load_program kmalloc k path argv envp total i m = Some (r, k') -> spawn_ids k k'.
Proof using.
  unfold load_program. intros. run_inv;
    first [match goal with H : spawn_fail _ _ = Some _ |- _ => apply spawn_fail_sched in H as [_ H]; by apply spawn_ids_same end
          |match goal with H : start_process _ _ _ _ _ _ = Some _ |- _ => apply start_process_ids in H; by eapply spawn_ids_frame, H end].
Qed.

Lemma elf_spawn_ids k path argv envp r k' : elf_spawn kmalloc g_kernel_cr3 k path argv envp = Some (r, k') -> spawn_ids k k'.
Proof using.
  unfold elf_spawn. intros. run_inv; repeat match goal with H : elf_read_loop _ _ _ _ _ = Some _ |- _ => apply elf_read_sched in H as (? & ? & ?) end;
    try (by apply spawn_ids_same); match goal with H : load_program _ _ _ _ _ _ _ _ = Some _ |- _ => apply load_program_ids in H; by eapply spawn_ids_frame, H end.
Qed.

Lemma sys_spawn_ids k p a e r k' : sys_spawn kmalloc stack g_kernel_cr3 k p a e = Some (r, k') -> spawn_ids k k'.
Proof using.
  unfold sys_spawn, k_path. intros. run_inv; try (by apply spawn_ids_same);
    match goal with H : elf_spawn _ _ _ _ _ _ = Some _ |- _ => apply elf_spawn_ids in H; by eapply spawn_ids_frame, H end.
Qed.

(** ** The dispatcher *)

(** Setting an identity: only the current process of root gets another one. *)
Definition setid_ids k k' : Prop :=
  ids_of (kn_sched k') = ids_of (kn_sched k) \/
  exists c p x, sched_current (kn_sched k) = Some (Some c) /\ sc_pcbs (kn_sched k) !! c = Some p /\ pc_uid p = 0 /\
    ids_of (kn_sched k') = <[c := x]> (ids_of (kn_sched k)).

Lemma setid_upd k c p f st' : sched_current (kn_sched k) = Some (Some c) -> sc_pcbs (kn_sched k) !! c = Some p -> upd_pcb (kn_sched k) c f = Some st' ->
  pc_uid p = 0 \/ pc_uid (f p) = pc_uid p /\ pc_gid (f p) = pc_gid p -> setid_ids k (set_ksched k st').
Proof using.
  intros Hc Hp (p' & Hp' & [= <-])%bind_Some Hf. rewrite Hp in Hp'. injection Hp' as <-. unfold setid_ids. cbn [kn_sched set_ksched].
  unfold ids_of at 1 3. cbn [sc_pcbs set_sc_pcbs]. rewrite !fmap_insert. destruct Hf as [Hf|[-> ->]]; [right|left].
  - by exists c, p, (pc_uid (f p), pc_gid (f p)).
  - apply insert_id. unfold ids_of. by rewrite lookup_fmap, Hp.
Qed.

Lemma sys_setuid_ids k u r k' : sys_setuid k u = Some (r, k') -> setid_ids k k'.
Proof using.
  unfold sys_setuid. intros. run_inv; try (by left).
  eapply setid_upd; [done..|]. match goal with |- pc_uid ?p = 0 \/ _ => destruct (Z.eqb_spec (pc_uid p) 0); [by left|right] end. cbn. split; [|done]. lia.
Qed.

Lemma sys_setgid_ids k g r k' : sys_setgid k g = Some (r, k') -> setid_ids k k'.
Proof using.
  unfold sys_setgid. intros. run_inv; try (by left).
  eapply setid_upd; [done..|]. match goal with |- pc_uid ?p = 0 \/ _ => destruct (Z.eqb_spec (pc_uid p) 0); [by left|right] end. cbn. split; [done|]. lia.
Qed.

Lemma sys_exit_ids k code r k' : sys_exit g_kernel_cr3 bootstrap_kstack k code = Some (r, k') -> ids_of (kn_sched k') = ids_of (kn_sched k).
Proof using.
  unfold sys_exit. intros. run_inv. match goal with H : sched_exit _ _ _ _ = Some _, H' : k_destroy_all _ _ = Some _ |- _ =>
    apply sched_exit_ids in H; apply destroy_all_sched in H'; rewrite H' end. done.
Qed.

Lemma sys_yield_ids k r k' : sys_yield asd_time_ns g_kernel_cr3 k = Some (r, k') -> ids_of (kn_sched k') = ids_of (kn_sched k).
Proof using. unfold sys_yield. intros. run_inv. by eapply sched_yield_ids. Qed.

Lemma wait_finish_ids k sv info r k' : sys_wait_finish stack bootstrap_kstack k sv info = Some (r, k') -> ids_of (kn_sched k') = ids_of (kn_sched k).
Proof using.
  unfold sys_wait_finish. intros. run_inv; repeat match goal with H : sched_reap_finish _ _ _ = Some _ |- _ => apply reap_finish_ids in H
    | H : k_to_user _ _ _ _ = Some _ |- _ => apply to_user_sched in H; rewrite H end; done.
Qed.

Lemma sys_wait_ids k pid info r k' : sys_wait stack g_kernel_cr3 bootstrap_kstack k pid info = Some (r, k') -> ids_of (kn_sched k') = ids_of (kn_sched k).
Proof using.
  unfold sys_wait. intros. run_inv; repeat match goal with H : sched_reap_start _ _ _ = Some _ |- _ => apply reap_start_ids in H
    | H : sys_wait_finish _ _ _ _ _ = Some _ |- _ => apply wait_finish_ids in H end; cbn [kn_sched set_ksched] in *; congruence.
Qed.

(** What one system call may do to the identity of block [i]. *)
Definition ident_step k k' (nr : Z) (i : nat) : Prop :=
  ids_of (kn_sched k') !! i = ids_of (kn_sched k) !! i \/
  nr = 11 /\ spare_block (kn_sched k) i /\
    ((exists p, sc_pcbs (kn_sched k') !! i = Some p /\ pc_state p = PROC_NEW) \/ ids_of (kn_sched k') !! i = Some (kn_shell_uid k, kn_shell_gid k)) \/
  (nr = 28 \/ nr = 29) /\ sched_current (kn_sched k) = Some (Some i) /\ exists p, sc_pcbs (kn_sched k) !! i = Some p /\ pc_uid p = 0.

Lemma ident_same k k' nr : ids_of (kn_sched k') = ids_of (kn_sched k) -> forall i, ident_step k k' nr i.
Proof using. intros E i. left. by rewrite E. Qed.

Lemma ident_sched k k' nr : kn_sched k' = kn_sched k -> forall i, ident_step k k' nr i.
Proof using. intros E. apply ident_same. by rewrite E. Qed.

Lemma ident_spawn k k' : spawn_ids k k' -> forall i, ident_step k k' 11 i.
Proof using.
  intros (slot & Hoth & Hs) i. destruct (decide (i = slot)) as [->|Hi]; [|left; by apply Hoth]. destruct Hs as [?|?]; [by left|by right; left].
Qed.

Lemma ident_setid k k' nr : nr = 28 \/ nr = 29 -> setid_ids k k' -> forall i, ident_step k k' nr i.
Proof using.
  intros Hn [E|(c & p & x & Hc & Hp & Hu & E)]; [by apply ident_same|]. intros i. destruct (decide (i = c)) as [->|Hi].
  - right; right. split; [done|]. split; [done|]. by exists p.
  - left. by rewrite E, lookup_insert_ne.
Qed.

Ltac ident_one :=
  match goal with
  | H : sys_open _ _ _ _ = Some _ |- _ => apply ident_sched; by eapply sys_open_sched
  | H : sys_close _ _ = Some _ |- _ => apply ident_sched; by eapply sys_close_sched
  | H : sys_read _ _ _ _ _ = Some _ |- _ => apply ident_sched; by eapply sys_read_sched
  | H : sys_write _ _ _ _ _ _ = Some _ |- _ => apply ident_sched; by eapply sys_write_sched
  | H : sys_stat _ _ _ _ _ = Some _ |- _ => apply ident_sched; by eapply sys_stat_sched
  | H : sys_seek _ _ _ _ = Some _ |- _ => apply ident_sched; by eapply sys_seek_sched
  | H : sys_mkdir _ _ _ = Some _ |- _ => apply ident_sched; by eapply path_op_sched
  | H : sys_unlink _ _ _ = Some _ |- _ => apply ident_sched; by eapply path_op_sched
  | H : sys_readdir _ _ _ _ _ _ = Some _ |- _ => apply ident_sched; by eapply sys_readdir_sched
  | H : sys_uname _ _ _ = Some _ |- _ => apply ident_sched; by eapply sys_uname_sched
  | H : sys_mmap _ _ _ _ _ _ _ = Some _ |- _ => apply ident_sched; by eapply sys_mmap_sched
  | H : sys_brk _ _ = Some _ |- _ => apply ident_sched; by eapply sys_brk_sched
  | H : sys_writev _ _ _ _ _ _ = Some _ |- _ => apply ident_sched; by eapply sys_writev_sched
  | H : sys_exit _ _ _ _ = Some _ |- _ => apply ident_same; by eapply sys_exit_ids
  | H : sys_yield _ _ _ = Some _ |- _ => apply ident_same; by eapply sys_yield_ids
  | H : sys_wait _ _ _ _ _ _ = Some _ |- _ => apply ident_same; by eapply sys_wait_ids
  | H : sys_spawn _ _ _ _ _ _ _ = Some _ |- _ => apply ident_spawn; by eapply sys_spawn_ids
  | H : sys_setuid _ _ = Some _ |- _ => apply ident_setid; [lia|by eapply sys_setuid_ids]
  | H : sys_setgid _ _ = Some _ |- _ => apply ident_setid; [lia|by eapply sys_setgid_ids]
  | |- _ => by apply ident_sched
  end.


(** ** The end of a wait

    A child that runs under [sys_wait] ends with a jump into the [sched_reap] of its parent, which does not
    make the parent current again. *)

(** The current process has no memory. *)
Definition no_map (st : sched_st) : Prop := exists c pc, sched_current st = Some (Some c) /\ sc_pcbs st !! c = Some pc /\ pc_va_map pc = None.

Lemma upd_pcb_no_map st p f st' : upd_pcb st p f = Some st' -> (forall pc, pc_va_map pc = None -> pc_va_map (f pc) = None) -> no_map st -> no_map st'.
Proof using.
  intros (q & Hq & [= <-])%bind_Some Hf (c & pc & Hc & Hp & Hm). destruct (decide (c = p)) as [->|Hn].
  - exists p, (f q). split; [exact Hc|]. cbn [sc_pcbs set_sc_pcbs]. rewrite lookup_insert_eq. split; [done|]. apply Hf. congruence.
  - exists c, pc. split; [exact Hc|]. cbn [sc_pcbs set_sc_pcbs]. by rewrite lookup_insert_ne.
Qed.

Lemma free_kstack_no_map st p st' : free_kstack bootstrap_kstack st p = Some st' -> no_map st -> no_map st'.
Proof using. unfold free_kstack. intros. run_inv; try done. eapply upd_pcb_no_map; [done|by intros []|done]. Qed.

Lemma exit_no_map st code st' : sched_exit g_kernel_cr3 bootstrap_kstack st code = Some (JmpBack, st') -> no_map st'.
Proof using.
  unfold sched_exit, destroy_map. intros. run_inv; try discriminate.
  all: match goal with H : upd_pcb _ _ _ = Some _ |- _ => apply bind_Some in H as (pc & Hpc & [= <-]) end.
  all: match goal with H : free_kstack _ ?s _ = Some ?s' |- _ => cut (no_map s'); [done|]; apply (free_kstack_no_map s _ s' H) end.
  all: eexists _, (die code pc); split; [done|]; split; [apply lookup_insert_eq|done].
Qed.

Lemma reap_finish_no_map st sv a b st' : sched_reap_finish bootstrap_kstack st sv = Some (a, b, st') -> no_map st -> no_map st'.
Proof using.
  unfold sched_reap_finish. intros. run_inv.
  repeat match goal with
  | |- no_map (set_sc_reap_jmp ?s _) => change (no_map s)
  | |- no_map (set_sc_reap_waiter ?s _) => change (no_map s)
  | H : upd_pcb _ _ _ = Some ?s |- no_map ?s => apply (upd_pcb_no_map _ _ _ _ H); [by intros []; cbn; repeat case_match|]
  | H : free_kstack _ _ _ = Some ?s |- no_map ?s => apply (free_kstack_no_map _ _ _ H)
  end; done.
Qed.

(** The status of a child that exits never arrives: the parent gets the fault code, for every address that it gives. *)
Lemma wait_status_lost k code k1 sv info r k2 :
  sys_exit g_kernel_cr3 bootstrap_kstack k code = Some (SysJmp, k1) -> info <> 0 ->
  sys_wait_finish stack bootstrap_kstack k1 sv info = Some (r, k2) -> r = ESYS_FAULT.
Proof using.
  unfold sys_exit. intros ([o st] & Ex & (k' & Ed & [= Ho ->])%bind_Some)%bind_Some Hi Hf. destruct o; try discriminate Ho.
  apply exit_no_map in Ex. apply destroy_all_sched in Ed. unfold sys_wait_finish in Hf. apply bind_Some in Hf as ([[a b] st2] & Er & Hf).
  rewrite Ed in Er. apply reap_finish_no_map in Er as (c & pc & Hc & Hp & Hm); [|exact Ex]. rewrite (proj2 (Z.eqb_neq info 0) Hi) in Hf.
  unfold k_to_user, cur_vm, cur_pcb in Hf. cbn [kn_sched set_ksched] in Hf. rewrite Hc in Hf. cbn [mbind option_bind] in Hf. rewrite Hp in Hf.
  cbn [mbind option_bind] in Hf. rewrite Hm in Hf. cbn [mbind option_bind fmap option_fmap option_map] in Hf.
  unfold copy_to_user in Hf. rewrite (proj2 (Z.eqb_neq info 0) Hi) in Hf. cbn in Hf. by injection Hf.
Qed.
End Handlers.
