(* ===== verification/SvcMgr.v ===== *)
(** * The service manager (src/init/svcmgr.c)

    It parses service definitions, orders the services in waves by their dependencies,
    launches them through [elf_spawn], and restarts or stops them.

    A text is the list of its characters from the place where a pointer stands, with its
    terminator.  Local arrays start with zeroes: of their contents only what was
    written is read.  The log is not modelled, nor are the user and the group that
    [svc_launch] looks up and does not use. *)

From Stdlib Require Import ZArith Lia.
From stdpp Require Import base strings gmap list.
From S2P Require Import Prelude KString Phys PhysIface PageTable Sched VfsPath Vfs Syscall.

Local Open Scope Z_scope.

Definition MAX_SERVICES : nat := 64.
Definition SVC_NAME_LEN : nat := 64.
Definition SVC_PATH_LEN : nat := 256.
Definition SVC_ARGS_LEN : nat := 1024.
Definition MAX_DEPS : nat := 16.
Definition MAX_ENV_VARS : nat := 32.
Definition ENV_NAME_LEN : nat := 64.
Definition ENV_VALUE_LEN : nat := 256.
Definition SVC_NEW : Z := 0.
Definition SVC_RUNNING : Z := 2.
Definition SVC_EXITED : Z := 3.
Definition SVC_RESTARTING : Z := 4.
Definition SVC_FAILED : Z := 5.
Definition RESTART_NEVER : Z := 0.
Definition RESTART_ALWAYS : Z := 1.
Definition RESTART_ON_FAIL : Z := 2.
Definition LOG_RING : Z := 0.
Definition LOG_FILE : Z := 1.
Definition LOG_NONE : Z := 2.

(** ** Services *)

(** [sv_deps] and [sv_envs] are the entries below [dep_count] and [env_count]. *)
Record service_t := mk_service {
  sv_name : list Z;
  sv_binary : list Z;
  sv_args : list Z;
  sv_deps : list (list Z);
  sv_restart : Z;
  sv_log_type : Z;
  sv_state : Z;
  sv_pid : Z;
  sv_exit_code : Z;
  sv_envs : list (list Z * list Z);
  sv_user : list Z;
  sv_group : list Z;
}.

Definition zero_service : service_t :=
  mk_service (replicate SVC_NAME_LEN 0) (replicate SVC_PATH_LEN 0) (replicate SVC_ARGS_LEN 0) [] 0 0 0 0 0 [] (replicate 32 0) (replicate 32 0).

Definition sv_set_binary (s : service_t) (v : list Z) : service_t :=
  mk_service (sv_name s) v (sv_args s) (sv_deps s) (sv_restart s) (sv_log_type s) (sv_state s) (sv_pid s) (sv_exit_code s) (sv_envs s) (sv_user s) (sv_group s).
Definition sv_set_args (s : service_t) (v : list Z) : service_t :=
  mk_service (sv_name s) (sv_binary s) v (sv_deps s) (sv_restart s) (sv_log_type s) (sv_state s) (sv_pid s) (sv_exit_code s) (sv_envs s) (sv_user s) (sv_group s).
Definition sv_set_deps (s : service_t) (v : list (list Z)) : service_t :=
  mk_service (sv_name s) (sv_binary s) (sv_args s) v (sv_restart s) (sv_log_type s) (sv_state s) (sv_pid s) (sv_exit_code s) (sv_envs s) (sv_user s) (sv_group s).
Definition sv_set_restart (s : service_t) (v : Z) : service_t :=
  mk_service (sv_name s) (sv_binary s) (sv_args s) (sv_deps s) v (sv_log_type s) (sv_state s) (sv_pid s) (sv_exit_code s) (sv_envs s) (sv_user s) (sv_group s).
Definition sv_set_log (s : service_t) (v : Z) : service_t :=
  mk_service (sv_name s) (sv_binary s) (sv_args s) (sv_deps s) (sv_restart s) v (sv_state s) (sv_pid s) (sv_exit_code s) (sv_envs s) (sv_user s) (sv_group s).
Definition sv_set_state (s : service_t) (v : Z) : service_t :=
  mk_service (sv_name s) (sv_binary s) (sv_args s) (sv_deps s) (sv_restart s) (sv_log_type s) v (sv_pid s) (sv_exit_code s) (sv_envs s) (sv_user s) (sv_group s).
Definition sv_set_pid (s : service_t) (v : Z) : service_t :=
  mk_service (sv_name s) (sv_binary s) (sv_args s) (sv_deps s) (sv_restart s) (sv_log_type s) (sv_state s) v (sv_exit_code s) (sv_envs s) (sv_user s) (sv_group s).
Definition sv_set_envs (s : service_t) (v : list (list Z * list Z)) : service_t :=
  mk_service (sv_name s) (sv_binary s) (sv_args s) (sv_deps s) (sv_restart s) (sv_log_type s) (sv_state s) (sv_pid s) (sv_exit_code s) v (sv_user s) (sv_group s).
Definition sv_set_user (s : service_t) (v : list Z) : service_t :=
  mk_service (sv_name s) (sv_binary s) (sv_args s) (sv_deps s) (sv_restart s) (sv_log_type s) (sv_state s) (sv_pid s) (sv_exit_code s) (sv_envs s) v (sv_group s).
Definition sv_set_group (s : service_t) (v : list Z) : service_t :=
  mk_service (sv_name s) (sv_binary s) (sv_args s) (sv_deps s) (sv_restart s) (sv_log_type s) (sv_state s) (sv_pid s) (sv_exit_code s) (sv_envs s) (sv_user s) v.

(** ** The parser of service files *)

Definition i_isspace (c : Z) : bool := (c =? 32) || (c =? 9) || (c =? 10) || (c =? 13).

Fixpoint skip_ws (p : list Z) : option (list Z) :=
  match p with
  | [] => None
  | c :: p' => if negb (c =? 0) && i_isspace c then skip_ws p' else Some p
  end.

Fixpoint skip_line (p : list Z) : option (list Z) :=
  match p with
  | [] => None
  | c :: p' => if c =? 0 then Some p else if c =? 10 then Some p' else skip_line p'
  end.

(** The loop that copies characters to [out] from index [i] on, up to one that stops it, the terminator or index [lim]. *)
Fixpoint take_word (stop : Z -> bool) (p out : list Z) (i lim : nat) : option (list Z * list Z * nat) :=
  match p with
  | [] => None
  | c :: p' =>
      if (c =? 0) || stop c || (lim <=? i)%nat then Some (p, out, i)
      else out ← put out i c; take_word stop p' out (S i) lim
  end.

Definition read_word (p out : list Z) : option (list Z * list Z) :=
  p ← skip_ws p;
  '(p, out, i) ← take_word (fun c => i_isspace c || (c =? 58)) p out 0 (length out - 1);
  out ← put out i 0;
  Some (p, out).

(** [while (i > 0 && i_isspace(out[i-1])) i--] *)
Fixpoint trim_end (out : list Z) (i : nat) : option nat :=
  match i with
  | O => Some O
  | S j => c ← out !! j; if i_isspace c then trim_end out j else Some i
  end.

Definition read_line_value (p out : list Z) : option (list Z * list Z) :=
  p ← skip_ws p;
  c ← head p;
  p ← (if c =? 58 then skip_ws (tail p) else Some p);
  '(p, out, i) ← take_word (fun c => c =? 10) p out 0 (length out - 1);
  i ← trim_end out i;
  out ← put out i 0;
  p ← skip_line p;
  Some (p, out).

(** The words of the value of [needs]. *)
Fixpoint needs_loop (fuel : nat) (vp : list Z) (deps : list (list Z)) : option (list (list Z)) :=
  match fuel with
  | O => None
  | S fuel' =>
      c ← head vp;
      if (c =? 0) || (MAX_DEPS <=? length deps)%nat then Some deps
      else
        vp ← skip_ws vp;
        c ← head vp;
        if c =? 0 then Some deps
        else
          '(vp, dep, i) ← take_word i_isspace vp (replicate SVC_NAME_LEN 0) 0 (SVC_NAME_LEN - 1);
          dep ← put dep i 0;
          d ← strncpy (replicate SVC_NAME_LEN 0) dep SVC_NAME_LEN;
          needs_loop fuel' vp (deps ++ [d])
  end.

(** The words of the value of [env]; one without [=] is dropped. *)
Fixpoint env_loop (fuel : nat) (vp : list Z) (envs : list (list Z * list Z)) : option (list (list Z * list Z)) :=
  match fuel with
  | O => None
  | S fuel' =>
      c ← head vp;
      if (c =? 0) || (MAX_ENV_VARS <=? length envs)%nat then Some envs
      else
        vp ← skip_ws vp;
        c ← head vp;
        if c =? 0 then Some envs
        else
          '(vp, kv, i) ← take_word i_isspace vp (replicate (ENV_NAME_LEN + ENV_VALUE_LEN + 1) 0) 0 (ENV_NAME_LEN + ENV_VALUE_LEN);
          kv ← put kv i 0;
          eq ← strchr kv 61;
          match eq with
          | None => env_loop fuel' vp envs
          | Some e =>
              kv ← put kv e 0;
              key ← strncpy (replicate ENV_NAME_LEN 0) kv ENV_NAME_LEN;
              val ← strncpy (replicate ENV_VALUE_LEN 0) (drop (S e) kv) ENV_VALUE_LEN;
              env_loop fuel' vp (envs ++ [(key, val)])
          end
  end.

Definition str_is (s : list Z) (lit : string) : option bool := r ← strcmp s (c_str lit ++ [0]); Some (r =? 0).

(** The chain of comparisons with the name of a field. *)
Definition set_field (svc : service_t) (field value : list Z) : option service_t :=
  b ← str_is field "needs";
  if (b : bool) then deps ← needs_loop (S (length value)) value (sv_deps svc); Some (sv_set_deps svc deps)
  else
    b ← str_is field "binary";
    if (b : bool) then v ← strncpy (sv_binary svc) value SVC_PATH_LEN; Some (sv_set_binary svc v)
    else
      b ← str_is field "args";
      if (b : bool) then v ← strncpy (sv_args svc) value SVC_ARGS_LEN; Some (sv_set_args svc v)
      else
        b ← str_is field "restart";
        if (b : bool) then
          al ← str_is value "always"; fl ← str_is value "on-fail";
          Some (if (al : bool) then sv_set_restart svc RESTART_ALWAYS else if (fl : bool) then sv_set_restart svc RESTART_ON_FAIL else svc)
        else
          b ← str_is field "log";
          if (b : bool) then
            fi ← str_is value "file"; no ← str_is value "none";
            Some (if (fi : bool) then sv_set_log svc LOG_FILE else if (no : bool) then sv_set_log svc LOG_NONE else svc)
          else
            b ← str_is field "user";
            if (b : bool) then v ← strncpy (sv_user svc) value 32; Some (sv_set_user svc v)
            else
              b ← str_is field "group";
              if (b : bool) then v ← strncpy (sv_group svc) value 32; Some (sv_set_group svc v)
              else
                b ← str_is field "env";
                if (b : bool) then envs ← env_loop (S (length value)) value (sv_envs svc); Some (sv_set_envs svc envs)
                else Some svc.

(** The loop of [parse_svc_file] over the fields. *)
Fixpoint field_loop (fuel : nat) (p : list Z) (svc : service_t) : option service_t :=
  match fuel with
  | O => None
  | S fuel' =>
      c ← head p;
      if c =? 0 then Some svc
      else
        p ← skip_ws p;
        c ← head p;
        if (c =? 10) || (c =? 35) then p ← skip_line p; field_loop fuel' p svc
        else if c =? 0 then Some svc
        else
          '(p, field) ← read_word p (replicate 64 0);
          e ← str_is field "end";
          if (e : bool) then Some svc
          else
            '(p, value) ← read_line_value p (replicate 512 0);
            svc ← set_field svc field value;
            field_loop fuel' p svc
  end.

(** [svc] with the name set and the other fields reset. *)
Definition reset_service (svc : service_t) (name : list Z) : option service_t :=
  binary ← put (sv_binary svc) 0 0; args ← put (sv_args svc) 0 0; user ← put (sv_user svc) 0 0; group ← put (sv_group svc) 0 0;
  Some (mk_service name binary args [] RESTART_NEVER LOG_RING SVC_NEW 0 0 [] user group).

Definition set_name (svc : service_t) (v : list Z) : service_t :=
  mk_service v (sv_binary svc) (sv_args svc) (sv_deps svc) (sv_restart svc) (sv_log_type svc) (sv_state svc) (sv_pid svc) (sv_exit_code svc) (sv_envs svc) (sv_user svc) (sv_group svc).

Definition parse_svc_file (content : list Z) (svc : service_t) : option (Z * service_t) :=
  '(p, kw) ← read_word content (replicate 64 0);
  b ← str_is kw "service";
  if negb b then Some (-1, svc)
  else
    '(p, name) ← read_word p (sv_name svc);
    n0 ← head name;
    if n0 =? 0 then Some (-1, set_name svc name)
    else
      p ← skip_line p;
      svc ← reset_service svc name;
      svc ← field_loop (S (length p)) p svc;
      b0 ← head (sv_binary svc);
      Some (if b0 =? 0 then -1 else 0, svc).

(** ** The table of services *)

(** [sm_services] are the entries below [g_svc_count]. *)
Record svcmgr_t := mk_svcmgr {
  sm_services : list service_t;
  sm_running : Z;
  sm_wave : list Z;
}.

Definition builtin_svcs : list (list Z) :=
  (fun ls => mjoin ((fun l => c_str l ++ [10]) <$> ls) ++ [0]) <$>
  [["service syslog"; "  needs:   kernel"; "  binary:  /sbin/asdlog"; "  restart: on-fail"; "  log:     ring"; "end"];
   ["service netd"; "  needs:   syslog"; "  binary:  /sbin/netd"; "  restart: always"; "  log:     ring"; "end"]]%string.

(** The definitions are parsed into the entry behind the last service: one that fails leaves its traces there. *)
Fixpoint load_loop_svc (texts : list (list Z)) (svcs : list service_t) (slot : service_t) : option (list service_t) :=
  match texts with
  | [] => Some svcs
  | t :: texts' =>
      if (MAX_SERVICES <=? length svcs)%nat then Some svcs
      else
        '(r, svc) ← parse_svc_file t slot;
        if r =? 0 then load_loop_svc texts' (svcs ++ [svc]) zero_service else load_loop_svc texts' svcs svc
  end.

(** [load_services] at the start, when the table is zero. *)
Definition load_services : option svcmgr_t :=
  svcs ← load_loop_svc builtin_svcs [] zero_service; Some (mk_svcmgr svcs 0 (replicate MAX_SERVICES 0)).

Fixpoint svc_find_from (svcs : list service_t) (name : list Z) (i : nat) : option (option nat) :=
  match svcs with
  | [] => Some None
  | s :: svcs' => r ← strcmp (sv_name s) name; if r =? 0 then Some (Some i) else svc_find_from svcs' name (S i)
  end.

Definition svc_find (svcs : list service_t) (name : list Z) : option (option nat) := svc_find_from svcs name 0.

Fixpoint deps_ready_loop (svcs : list service_t) (deps : list (list Z)) : option bool :=
  match deps with
  | [] => Some true
  | d :: deps' =>
      b ← str_is d "kernel";
      if (b : bool) then deps_ready_loop svcs deps'
      else
        f ← svc_find svcs d;
        match f with
        | None => deps_ready_loop svcs deps'
        | Some j => dep ← svcs !! j; if sv_state dep =? SVC_RUNNING then deps_ready_loop svcs deps' else Some false
        end
  end.

Definition svc_deps_ready (svcs : list service_t) (svc : service_t) : option bool := deps_ready_loop svcs (sv_deps svc).

(** ** Waves *)

(** The loop over the dependencies: the highest wave of them, or [None] when one has no wave yet. *)
Fixpoint dep_scan (svcs : list service_t) (wave : list Z) (deps : list (list Z)) (max_dep : Z) : option (option Z) :=
  match deps with
  | [] => Some (Some max_dep)
  | d :: deps' =>
      b ← str_is d "kernel";
      if (b : bool) then dep_scan svcs wave deps' max_dep
      else
        f ← svc_find svcs d;
        match f with
        | None => dep_scan svcs wave deps' max_dep
        | Some di =>
            w ← wave !! di;
            if w <? 0 then Some None else dep_scan svcs wave deps' (if max_dep <? w then w else max_dep)
        end
  end.

(** The services from number [i] on: [rest] are left. *)
Fixpoint wave_pass (svcs rest : list service_t) (i : nat) (wave : list Z) (max_wave : Z) (changed : bool)
    : option (list Z * Z * bool) :=
  match rest with
  | [] => Some (wave, max_wave, changed)
  | svc :: rest' =>
      w ← wave !! i;
      if 0 <=? w then wave_pass svcs rest' (S i) wave max_wave changed
      else
        r ← dep_scan svcs wave (sv_deps svc) (-1);
        match r with
        | None => wave_pass svcs rest' (S i) wave max_wave changed
        | Some max_dep =>
            let v := i8 (max_dep + 1) in
            wave_pass svcs rest' (S i) (<[i := v]> wave) (if max_wave <? v then v else max_wave) true
        end
  end.

(** [while (changed)] *)
Fixpoint wave_loop (fuel : nat) (svcs : list service_t) (wave : list Z) (max_wave : Z) : option (list Z * Z) :=
  match fuel with
  | O => None
  | S fuel' =>
      '(wave, max_wave, changed) ← wave_pass svcs svcs 0 wave max_wave false;
      if (changed : bool) then wave_loop fuel' svcs wave max_wave else Some (wave, max_wave)
  end.

(** A pass that changes nothing is the last, and every other one gives a wave to a service. *)
Definition compute_waves (sm : svcmgr_t) : option (Z * svcmgr_t) :=
  let svcs := sm_services sm in
  let n := length svcs in
  '(wave, max_wave) ← wave_loop (S n) svcs (replicate n (-1) ++ drop n (sm_wave sm)) 0;
  Some (if forallb (fun w => 0 <=? w) (take n wave) then max_wave + 1 else -1, mk_svcmgr svcs (sm_running sm) wave).

(** ** Launch, restart and stop *)

Section Launch.
Context `{BlockAlloc St} {W B : Type}.
Context (kmalloc : kern_t St W B -> Z -> option Z) (junk_stat : stat_info_t) (g_kernel_cr3 : Z).

(** The service, the number of running services and the kernel. *)
Definition svc_launch (svc : service_t) (running : Z) (k : kern_t St W B) : option (service_t * Z * kern_t St W B) :=
  v ← vfs_now k;
  '(r, _, v) ← vfs_stat v (Some (sv_binary svc)) (Some junk_stat);
  let k := set_kvfs k v in
  if negb (r =? 0) then Some (sv_set_state svc SVC_FAILED, running, k)
  else
    '(pid, k) ← elf_spawn kmalloc g_kernel_cr3 k (sv_binary svc) None None;
    if pid =? 0 then Some (sv_set_state svc SVC_FAILED, running, k)
    else Some (sv_set_state (sv_set_pid svc pid) SVC_RUNNING, u32 (running + 1), k).

(** The services with their waves. *)
Fixpoint launch_loop (svcs : list service_t) (waves : list Z) (wave running : Z) (k : kern_t St W B)
    : option (list service_t * Z * kern_t St W B) :=
  match svcs with
  | [] => Some ([], running, k)
  | svc :: svcs' =>
      w ← head waves;
      '(svc, running, k) ← (if (w =? wave) && (sv_state svc =? SVC_NEW) then svc_launch svc running k else Some (svc, running, k));
      '(svcs', running, k) ← launch_loop svcs' (tail waves) wave running k;
      Some (svc :: svcs', running, k)
  end.

Definition launch_wave (sm : svcmgr_t) (wave : Z) (k : kern_t St W B) : option (svcmgr_t * kern_t St W B) :=
  '(svcs, running, k) ← launch_loop (sm_services sm) (sm_wave sm) wave (sm_running sm) k;
  Some (mk_svcmgr svcs running (sm_wave sm), k).

(** The waves from number [w] on; [n] are left. *)
Fixpoint launch_waves (sm : svcmgr_t) (w : Z) (n : nat) (k : kern_t St W B) : option (svcmgr_t * kern_t St W B) :=
  match n with
  | O => Some (sm, k)
  | S n' => '(sm, k) ← launch_wave sm w k; launch_waves sm (w + 1) n' k
  end.

(** The part of [asdinit_main] that starts the services; a cycle stops the system. *)
Definition start_services (k : kern_t St W B) : option (svcmgr_t * kern_t St W B) :=
  sm ← load_services;
  '(nwaves, sm) ← compute_waves sm;
  if nwaves <? 0 then None else launch_waves sm 0 (Z.to_nat nwaves) k.

Definition restart_svc (svc : service_t) (running : Z) (k : kern_t St W B) : option (service_t * Z * kern_t St W B) :=
  if negb (sv_state svc =? SVC_EXITED) then Some (svc, running, k)
  else if (sv_restart svc =? RESTART_ALWAYS) || (sv_restart svc =? RESTART_ON_FAIL) && negb (sv_exit_code svc =? 0)
  then svc_launch (sv_set_state svc SVC_RESTARTING) running k
  else Some (sv_set_state svc (if sv_exit_code svc =? 0 then SVC_EXITED else SVC_FAILED), running, k).

Fixpoint restart_loop (svcs : list service_t) (running : Z) (k : kern_t St W B) : option (list service_t * Z * kern_t St W B) :=
  match svcs with
  | [] => Some ([], running, k)
  | svc :: svcs' =>
      '(svc, running, k) ← restart_svc svc running k;
      '(svcs', running, k) ← restart_loop svcs' running k;
      Some (svc :: svcs', running, k)
  end.

Definition check_restarts (sm : svcmgr_t) (k : kern_t St W B) : option (svcmgr_t * kern_t St W B) :=
  '(svcs, running, k) ← restart_loop (sm_services sm) (sm_running sm) k;
  Some (mk_svcmgr svcs running (sm_wave sm), k).

(** The process of a running service is marked dead; the wait of a second at the end is left out. *)
Definition stop_svc (svc : service_t) (k : kern_t St W B) : option (service_t * kern_t St W B) :=
  if negb (sv_state svc =? SVC_RUNNING) || (sv_pid svc =? 0) then Some (svc, k)
  else
    f ← sched_find (kn_sched k) (sv_pid svc);
    k ← match f with
        | None => Some k
        | Some p =>
            pc ← sc_pcbs (kn_sched k) !! p;
            if pc_state pc =? PROC_DEAD then Some k
            else st ← upd_pcb (kn_sched k) p (fun pc => set_state_of pc PROC_DEAD); Some (set_ksched k st)
        end;
    Some (sv_set_state svc SVC_EXITED, k).

Fixpoint stop_loop (svcs : list service_t) (k : kern_t St W B) : option (list service_t * kern_t St W B) :=
  match svcs with
  | [] => Some ([], k)
  | svc :: svcs' => '(svc, k) ← stop_svc svc k; '(svcs', k) ← stop_loop svcs' k; Some (svc :: svcs', k)
  end.

Definition svcmgr_stop_all (sm : svcmgr_t) (k : kern_t St W B) : option (svcmgr_t * kern_t St W B) :=
  '(svcs, k) ← stop_loop (sm_services sm) k;
  Some (mk_svcmgr svcs (sm_running sm) (sm_wave sm), k).

Definition stub_time_ns (k : kern_t St W B) : Z := u64 (kn_ticks k * 10000000).
End Launch.
