(* ===== verification/SvcMgrSpec.v ===== *)
(** * Correctness of the service manager

    The waves are a layering of the dependency graph: [compute_waves] ends, finds a cycle exactly when
    there is one, and otherwise puts every service right behind the last of its dependencies.  The parser
    returns on every text.  The last section runs the parser on definitions that it reads in a way that
    was hardly meant. *)

From Stdlib Require Import ZArith Lia.
From stdpp Require Import base strings gmap sets list.
From S2P Require Import Prelude KString Phys PhysIface PageTable Sched VfsPath Vfs Syscall SvcMgr.

Local Open Scope Z_scope.

Definition is_str (s : list Z) : Prop := exists str, cstring s str.

Definition svc_ok (s : service_t) : Prop := is_str (sv_name s) /\ Forall is_str (sv_deps s).

Lemma strcmp_str s1 s2 : is_str s1 -> is_str s2 -> exists r, strcmp s1 s2 = Some r /\ (r = 0 <-> until0 s1 = until0 s2).
Proof. intros [a Ha] [b Hb]. rewrite (until0_cstring _ _ Ha), (until0_cstring _ _ Hb). by apply strcmp_cstring. Qed.

Lemma kernel_str : is_str (c_str "kernel" ++ [0]) /\ until0 (c_str "kernel" ++ [0]) = c_str "kernel".
Proof. split; [|reflexivity]. exists (c_str "kernel"), []. split; [done|]. by repeat constructor. Qed.

Lemma is_kernel s : is_str s -> str_is s "kernel" = Some (bool_decide (until0 s = c_str "kernel")).
Proof.
  intros Hs. unfold str_is. destruct kernel_str as [Hk Ek]. destruct (strcmp_str s _ Hs Hk) as (r & -> & Hr). cbn [mbind option_bind]. f_equal.
  rewrite Ek in Hr. case_bool_decide; [apply Z.eqb_eq|apply Z.eqb_neq]; tauto.
Qed.

Lemma forallb_false {A} (f : A -> bool) l : forallb f l = false -> exists i x, l !! i = Some x /\ f x = false.
Proof.
  induction l as [|x l IH]; [done|]. simpl. destruct (f x) eqn:E; [|by exists 0%nat, x]. intros (i & y & ? & ?)%IH. by exists (S i), y.
Qed.

(** ** The dependency graph *)

Section Waves.
Context (svcs : list service_t) (OK : Forall svc_ok svcs).

(** The service that a dependency names, if it is not the kernel and is known. *)
Definition dep_index (d : list Z) : option nat :=
  if bool_decide (until0 d = c_str "kernel") then None else find_idx (fun s => bool_decide (until0 (sv_name s) = until0 d)) svcs.

Definition deps_at (i : nat) : list nat := omap dep_index (from_option sv_deps [] (svcs !! i)).

Lemma svc_find_ok d : is_str d -> svc_find svcs d = Some (find_idx (fun s => bool_decide (until0 (sv_name s) = until0 d)) svcs).
Proof using OK.
  intros Hd. unfold svc_find. assert (forall l i, Forall svc_ok l ->
    svc_find_from l d i = Some ((fun j => (i + j)%nat) <$> find_idx (fun s => bool_decide (until0 (sv_name s) = until0 d)) l)) as Hl.
  { induction l as [|s l IH]; intros i Hok; [done|]. apply Forall_cons in Hok as [[Hn _] Hok]. cbn [svc_find_from find_idx].
    destruct (strcmp_str _ _ Hn Hd) as (r & -> & Hr). cbn [mbind option_bind]. rewrite IH by done.
    case_bool_decide; [rewrite (proj2 (Z.eqb_eq r 0)) by tauto|rewrite (proj2 (Z.eqb_neq r 0)) by tauto].
    - cbn. by rewrite Nat.add_0_r.
    - destruct (find_idx _ l); [|done]. cbn. do 2 f_equal. lia. }
  rewrite (Hl svcs 0%nat OK). by destruct (find_idx _ svcs).
Qed.

Lemma dep_index_lt d i : dep_index d = Some i -> (i < length svcs)%nat.
Proof using. unfold dep_index. case_bool_decide; [done|]. apply find_idx_lt. Qed.

Lemma deps_at_lt i d : d ∈ deps_at i -> (d < length svcs)%nat.
Proof using. intros (x & _ & Hx)%list_elem_of_omap. by eapply dep_index_lt. Qed.

(** The scan of the dependencies: one of them has no wave, or the highest wave is known. *)
Lemma dep_scan_ok wave deps : forall m, Forall is_str deps -> (length svcs <= length wave)%nat -> -1 <= m ->
  exists r, dep_scan svcs wave deps m = Some r /\
    match r with
    | None => exists d w, d ∈ omap dep_index deps /\ wave !! d = Some w /\ w < 0
    | Some m' => m <= m' /\ (m' = m \/ exists d, d ∈ omap dep_index deps /\ wave !! d = Some m') /\
        forall d, d ∈ omap dep_index deps -> exists w, wave !! d = Some w /\ 0 <= w <= m'
    end.
Proof using OK.
  induction deps as [|x deps IH]; intros m Hs Hl Hm; cbn [dep_scan].
  { exists (Some m). split; [done|]. split; [lia|]. split; [by left|]. intros d Hd. by apply elem_of_nil in Hd. }
  apply Forall_cons in Hs as [Hx Hs]. rewrite is_kernel by done. cbn [mbind option_bind].
  assert (omap dep_index (x :: deps) = match dep_index x with Some i => i :: omap dep_index deps | None => omap dep_index deps end) as -> by reflexivity.
  assert (dep_index x = if bool_decide (until0 x = c_str "kernel") then None else find_idx (fun s => bool_decide (until0 (sv_name s) = until0 x)) svcs) as -> by reflexivity.
  destruct (bool_decide (until0 x = c_str "kernel")) eqn:Ek; [by apply IH|].
  rewrite svc_find_ok by done. cbn [mbind option_bind]. destruct (find_idx _ svcs) as [di|] eqn:Ef; [|by apply IH].
  destruct (lookup_lt_is_Some_2 wave di) as [w Hw]; [pose proof (find_idx_lt _ _ _ Ef); lia|]. rewrite Hw. cbn [mbind option_bind].
  destruct (Z.ltb_spec w 0) as [Hneg|Hpos]; [exists None; split; [done|]; exists di, w; split; [by left|done]|].
  set (m1 := if m <? w then w else m). destruct (IH m1 Hs Hl ltac:(subst m1; destruct (Z.ltb_spec m w); lia)) as (r & -> & Hr). exists r. split; [done|].
  destruct r as [m'|]; [|destruct Hr as (d & w' & ? & ?); exists d, w'; split; [by right|done]].
  destruct Hr as (Hle & Hin & Hall). assert (m <= m1 /\ w <= m1 /\ (m1 = m \/ m1 = w)) by (subst m1; destruct (Z.ltb_spec m w); lia).
  split; [lia|]. split.
  - destruct Hin as [->|(d & ? & ?)]; [|right; exists d; split; [by right|done]]. destruct (decide (m1 = m)); [by left|right]. exists di. split; [by left|]. rewrite Hw. f_equal. lia.
  - intros d [->|Hd]%elem_of_cons; [exists w; split; [done|lia]|by apply Hall].
Qed.

(** ** Cycles *)

(** Services that all depend on one of them. *)
Definition cyclic (S : nat -> Prop) : Prop := (exists i, S i) /\ forall i, S i -> (i < length svcs)%nat /\ exists d, d ∈ deps_at i /\ S d.

(** Every service is right behind the last of its dependencies. *)
Definition layered (wave : list Z) (n : Z) : Prop := forall i, (i < length svcs)%nat -> exists w, wave !! i = Some w /\ 0 <= w < n /\
  (forall d, d ∈ deps_at i -> exists wd, wave !! d = Some wd /\ 0 <= wd < w) /\ (w = 0 \/ exists d, d ∈ deps_at i /\ wave !! d = Some (w - 1)).

Lemma layered_acyclic wave n S : layered wave n -> ~ cyclic S.
Proof using.
  clear OK. intros L [[i Hi] Hall]. destruct (Hall i Hi) as [Hlt _]. destruct (L i Hlt) as (w & Hw & [Hw0 _] & _). revert i Hi Hlt Hw.
  pattern w. apply (Z_lt_induction _); [|done]. clear w Hw0. intros w IH i Hi Hlt Hw. destruct (Hall i Hi) as [_ (d & Hd & Sd)].
  destruct (L i Hlt) as (w' & Hw' & _ & Hdeps & _). rewrite Hw in Hw'. injection Hw' as <-. destruct (Hdeps d Hd) as (wd & Hwd & ?).
  by apply (IH wd ltac:(lia) d Sd (deps_at_lt _ _ Hd)).
Qed.

(** ** The invariant of the passes *)

(** How many services have a wave. *)
Definition ranked (wave : list Z) : nat := length (filter (fun w => 0 <= w) (take (length svcs) wave)).

Record wave_inv (wave : list Z) (max_wave : Z) : Prop := {
  wi_length : (length svcs <= length wave)%nat;
  wi_range : forall i w, (i < length svcs)%nat -> wave !! i = Some w -> w = -1 \/ 0 <= w <= max_wave /\ w < Z.of_nat (ranked wave);
  wi_max : 0 <= max_wave /\ (max_wave = 0 \/ exists i, (i < length svcs)%nat /\ wave !! i = Some max_wave);
  wi_deps : forall i w, (i < length svcs)%nat -> wave !! i = Some w -> 0 <= w ->
    (forall d, d ∈ deps_at i -> exists wd, wave !! d = Some wd /\ 0 <= wd < w) /\
    (w = 0 \/ exists d, d ∈ deps_at i /\ wave !! d = Some (w - 1));
}.

Lemma ranked_le wave : (ranked wave <= length svcs)%nat.
Proof using. unfold ranked. etransitivity; [apply length_filter|]. rewrite length_take. lia. Qed.

Lemma ranked_insert wave i v : (i < length svcs)%nat -> wave !! i = Some (-1) -> 0 <= v -> ranked (<[i := v]> wave) = S (ranked wave).
Proof using.
  intros Hi Hw Hv. unfold ranked. rewrite take_insert_lt by done. assert (take (length svcs) wave !! i = Some (-1)) as Ht by (by rewrite lookup_take_lt).
  rewrite insert_take_drop by (by eapply lookup_lt_Some). rewrite <- (take_drop_middle _ _ _ Ht) at 3.
  rewrite !filter_app, !filter_cons, decide_True, decide_False by lia. rewrite !length_app. simpl. lia.
Qed.

(** What a scan from -1 finds for a service without a wave. *)
Definition scanned (wave : list Z) (i : nat) (md : Z) : Prop :=
  -1 <= md /\ (md = -1 \/ exists d, d ∈ deps_at i /\ wave !! d = Some md) /\ forall d, d ∈ deps_at i -> exists w, wave !! d = Some w /\ 0 <= w <= md.

Context (FEW : (length svcs <= MAX_SERVICES)%nat).

Lemma scanned_bound wave mx i md : wave_inv wave mx -> (i < length svcs)%nat -> wave !! i = Some (-1) -> scanned wave i md ->
  0 <= md + 1 <= Z.of_nat (ranked wave) /\ i8 (md + 1) = md + 1.
Proof using FEW.
  intros I Hi Hw (Hm & Hin & _). pose proof (ranked_le (<[i := 0]> wave)) as Hr. rewrite ranked_insert in Hr by (done || lia).
  assert (md + 1 <= Z.of_nat (ranked wave)) as Hb.
  { destruct Hin as [->|(d & Hd & Hwd)]; [lia|]. pose proof (deps_at_lt _ _ Hd). destruct (wi_range _ _ I d md ltac:(done) Hwd); lia. }
  split; [lia|]. unfold MAX_SERVICES in FEW. wrap_lia.
Qed.

Lemma wave_assign wave mx i md : wave_inv wave mx -> (i < length svcs)%nat -> wave !! i = Some (-1) -> scanned wave i md ->
  wave_inv (<[i := md + 1]> wave) (if mx <? md + 1 then md + 1 else mx).
Proof using FEW.
  intros I Hi Hw Hs. destruct (scanned_bound wave mx i md I Hi Hw Hs) as [Hb _]. destruct Hs as (Hm & Hin & Hall).
  set (mx' := if mx <? md + 1 then md + 1 else mx). assert (mx <= mx' /\ md + 1 <= mx' /\ (mx' = mx \/ mx' = md + 1)) as Hmx by (subst mx'; destruct (Z.ltb_spec mx (md + 1)); lia).
  assert (forall d w, 0 <= w -> wave !! d = Some w -> <[i := md + 1]> wave !! d = Some w) as Hkeep.
  { intros d w Hw0 Hd. rewrite list_lookup_insert_ne; [done|]. intros ->. rewrite Hw in Hd. injection Hd as <-. lia. }
  assert (<[i := md + 1]> wave !! i = Some (md + 1)) as Hnew by (apply list_lookup_insert_eq; by eapply lookup_lt_Some).
  assert (ranked (<[i := md + 1]> wave) = S (ranked wave)) as Hrk by (apply ranked_insert; done || lia).
  split.
  - rewrite length_insert. apply I.
  - intros j w Hj Hjw. rewrite Hrk. destruct (decide (i = j)) as [<-|Hne]; [rewrite Hnew in Hjw; injection Hjw as <-; right; lia|].
    rewrite list_lookup_insert_ne in Hjw by done. destruct (wi_range _ _ I j w Hj Hjw); [by left|right; lia].
  - split; [pose proof (proj1 (wi_max _ _ I)); lia|]. destruct Hmx as (_ & _ & [->| ->]); [|right; by exists i].
    destruct (proj2 (wi_max _ _ I)) as [?|(j & Hj & Hjw)]; [by left|right]. exists j. split; [done|]. apply Hkeep; [apply I|done].
  - intros j w Hj Hjw Hw0. destruct (decide (i = j)) as [<-|Hne].
    + rewrite Hnew in Hjw. injection Hjw as <-. split.
      * intros d Hd. destruct (Hall d Hd) as (w & Hdw & ?). exists w. split; [apply Hkeep; [lia|done]|lia].
      * destruct Hin as [->|(d & Hd & Hdw)]; [by left|right]. exists d. split; [done|]. replace (md + 1 - 1) with md by lia. apply Hkeep; [|done].
        destruct (Hall d Hd) as (w & Hdw' & ?). rewrite Hdw in Hdw'. injection Hdw' as <-. lia.
    + rewrite list_lookup_insert_ne in Hjw by done. destruct (wi_deps _ _ I j w Hj Hjw Hw0) as [H1 H2]. split.
      * intros d Hd. destruct (H1 d Hd) as (wd & Hdw & ?). exists wd. split; [apply Hkeep; [lia|done]|done].
      * destruct H2 as [?|(d & Hd & Hdw)]; [by left|right]. exists d. split; [done|]. destruct (H1 d Hd) as (wd & Hdw' & ?). apply Hkeep; [|done].
        rewrite Hdw in Hdw'. injection Hdw' as <-. lia.
Qed.

(** Services without a wave wait for one another. *)
Definition stuck (wave : list Z) (i : nat) : Prop := wave !! i = Some (-1) -> exists d, d ∈ deps_at i /\ wave !! d = Some (-1).

Lemma wave_pass_ok rest : forall i wave mx changed, rest = drop i svcs -> wave_inv wave mx ->
  exists wave' mx' ch, wave_pass svcs rest i wave mx changed = Some (wave', mx', ch) /\ wave_inv wave' mx' /\ (ranked wave <= ranked wave')%nat /\
    (ch = true /\ (changed = true \/ (ranked wave < ranked wave')%nat) \/
     ch = false /\ changed = false /\ wave' = wave /\ mx' = mx /\ forall j, (i <= j < length svcs)%nat -> stuck wave j).
Proof using OK FEW.
  induction rest as [|svc rest IH]; intros i wave mx changed Hr I; cbn [wave_pass].
  { exists wave, mx, changed. split_and!; [done..|]. destruct changed; [by left; split; [|left]|right]. split_and!; [done..|].
    intros j Hj. apply (f_equal length) in Hr. rewrite length_drop in Hr. simpl in Hr. lia. }
  assert (svcs !! i = Some svc) as Hi by (rewrite <- (Nat.add_0_r i), <- lookup_drop, <- Hr; done).
  assert (rest = drop (S i) svcs) as Hr' by (rewrite <- Nat.add_1_r, <- drop_drop, <- Hr; done). pose proof (lookup_lt_Some _ _ _ Hi) as Hlt.
  destruct (lookup_lt_is_Some_2 wave i) as [w Hw]; [pose proof (wi_length _ _ I); lia|]. rewrite Hw. cbn [mbind option_bind].
  assert (stuck wave i -> exists wave' mx' ch, wave_pass svcs rest (S i) wave mx changed = Some (wave', mx', ch) /\ wave_inv wave' mx' /\ (ranked wave <= ranked wave')%nat /\
    (ch = true /\ (changed = true \/ (ranked wave < ranked wave')%nat) \/ ch = false /\ changed = false /\ wave' = wave /\ mx' = mx /\ forall j, (i <= j < length svcs)%nat -> stuck wave j)) as Hskip.
  { intros Hst. destruct (IH (S i) wave mx changed Hr' I) as (wave' & mx' & ch & -> & I' & Hle & Hc). exists wave', mx', ch. split_and!; [done..|].
    destruct Hc as [?|(? & ? & ? & ? & Hall)]; [by left|right]. split_and!; [done..|]. intros j Hj. destruct (decide (j = i)) as [->|]; [done|]. apply Hall. lia. }
  destruct (Z.leb_spec 0 w) as [Hpos|Hneg]; [apply Hskip; intros E; rewrite Hw in E; injection E as ->; lia|].
  assert (w = -1) as -> by (destruct (wi_range _ _ I i w Hlt Hw); lia).
  destruct (dep_scan_ok wave (sv_deps svc) (-1)) as (r & -> & Hr2); [apply (Forall_lookup_1 _ _ _ _ OK Hi)|apply I|lia|]. cbn [mbind option_bind].
  assert (deps_at i = omap dep_index (sv_deps svc)) as Ed by (unfold deps_at; by rewrite Hi). rewrite <- Ed in Hr2.
  destruct r as [md|].
  - destruct (scanned_bound wave mx i md I Hlt Hw Hr2) as [Hb ->].
    destruct (IH (S i) _ _ true Hr' (wave_assign wave mx i md I Hlt Hw Hr2)) as (wave' & mx' & ch & -> & I' & Hle & Hc).
    rewrite ranked_insert in Hle by (done || lia). exists wave', mx', ch. split_and!; [done|done|lia|].
    destruct Hc as [[-> _]|(_ & ? & _)]; [|done]. left. split; [done|]. right. lia.
  - apply Hskip. intros _. destruct Hr2 as (d & w & Hd & Hdw & Hn). exists d. split; [done|].
    destruct (wi_range _ _ I d w (deps_at_lt _ _ Hd) Hdw) as [->|]; [done|lia].
Qed.

Lemma wave_loop_ok fuel : forall wave mx, wave_inv wave mx -> (length svcs < ranked wave + fuel)%nat ->
  exists wave' mx', wave_loop fuel svcs wave mx = Some (wave', mx') /\ wave_inv wave' mx' /\ forall j, (j < length svcs)%nat -> stuck wave' j.
Proof using OK FEW.
  induction fuel as [|fuel IH]; intros wave mx I Hf; [pose proof (ranked_le wave); lia|]. cbn [wave_loop].
  destruct (wave_pass_ok svcs 0 wave mx false eq_refl I) as (wave' & mx' & ch & -> & I' & Hle & Hc). cbn [mbind option_bind].
  destruct Hc as [[-> [?|Hlt]]|(-> & _ & -> & -> & Hst)]; [done|apply IH; [done|lia]|].
  exists wave, mx. split_and!; [done..|]. intros j Hj. apply Hst. lia.
Qed.

Lemma wave_start rest : wave_inv (replicate (length svcs) (-1) ++ rest) 0.
Proof using.
  split.
  - rewrite length_app, length_replicate. apply Nat.le_add_r.
  - intros i w Hi Hw. rewrite lookup_app_l in Hw by (by rewrite length_replicate). apply lookup_replicate in Hw as [-> _]. by left.
  - split; [done|by left].
  - intros i w Hi Hw Hw0. rewrite lookup_app_l in Hw by (by rewrite length_replicate). apply lookup_replicate in Hw as [-> _]. done.
Qed.

End Waves.

(** C11: for a table of services whose names are strings, [compute_waves] returns.  Either it returns the number of
    waves, there is no cycle, and every service has a wave below that number, which is 0 or one more than
    the highest wave of its dependencies; or it returns -1, and there are services that all depend on one
    another.  The waves fit in the signed bytes that hold them. *)
Theorem compute_waves_ok sm (svcs := sm_services sm) : Forall svc_ok svcs -> (length svcs <= MAX_SERVICES)%nat ->
  exists r wave, compute_waves sm = Some (r, mk_svcmgr svcs (sm_running sm) wave) /\
    (0 < r /\ layered svcs wave r /\ (forall S, ~ cyclic svcs S) \/ r = -1 /\ exists S, cyclic svcs S).
Proof.
  intros OK FEW. unfold compute_waves. fold svcs.
  destruct (wave_loop_ok svcs OK FEW (S (length svcs)) _ 0 (wave_start svcs (drop (length svcs) (sm_wave sm))) ltac:(lia)) as (wave & mx & -> & I & Hst).
  cbn [mbind option_bind]. eexists _, wave. split; [reflexivity|]. destruct (forallb _ _) eqn:Hf.
  - left. rewrite forallb_forall in Hf. assert (layered svcs wave (mx + 1)) as L.
    { intros i Hi. destruct (lookup_lt_is_Some_2 wave i) as [w Hw]; [pose proof (wi_length _ _ _ I); lia|]. exists w. split; [done|].
      assert (0 <= w) as Hw0. { apply Z.leb_le, Hf, list_elem_of_In, (list_elem_of_lookup_2 _ i). by rewrite lookup_take_lt. }
      split; [destruct (wi_range _ _ _ I i w Hi Hw); lia|]. by apply I. }
    split; [pose proof (proj1 (wi_max _ _ _ I)); lia|]. split; [done|]. intros S. by apply (layered_acyclic svcs wave (mx + 1)).
  - right. split; [done|]. exists (fun i => (i < length svcs)%nat /\ wave !! i = Some (-1)). split.
    + apply forallb_false in Hf as (i & w & [Hw Hi]%lookup_take_Some & Hn). exists i. split; [done|]. rewrite Hw. f_equal.
      destruct (wi_range _ _ _ I i w Hi Hw); lia.
    + intros i [Hi Hw]. split; [done|]. destruct (Hst i Hi Hw) as (d & Hd & Hdw). exists d. split; [done|]. split; [by eapply deps_at_lt|done].
Qed.

(** ** The parser *)

Abbreviation octets := (Forall (fun b => 0 <= b < 256)).

(** A text with its terminator, and an array of [n] characters. *)
Definition ztext (p : list Z) : Prop := octets p /\ 0 ∈ p.
Definition buf (n : nat) (s : list Z) : Prop := length s = n /\ octets s.

Lemma text_str p : ztext p -> is_str p.
Proof.
  intros [Ho H0]. assert (is_Some (strlen p)) as [n Hn]; [|exists (take n p); by apply strlen_Some]. clear Ho.
  induction p as [|b p IH]; [by apply elem_of_nil in H0|]. cbn [strlen]. destruct (Z.eqb_spec b 0); [done|].
  apply elem_of_cons in H0 as [?|H0]; [done|]. apply fmap_is_Some, IH, H0.
Qed.

Lemma text_cons b p : ztext (b :: p) -> 0 <= b < 256 /\ (b = 0 \/ ztext p).
Proof. intros [[Hb Ho]%Forall_cons [?|?]%elem_of_cons]; (split; [done|]); [by left|right; by split]. Qed.

Lemma text_head p : ztext p -> exists c p', p = c :: p' /\ head p = Some c /\ (c <> 0 -> ztext p').
Proof. destruct p as [|c p]; [intros [_ ?%elem_of_nil]; done|]. intros [_ Hc]%text_cons. exists c, p. split_and!; [done..|]. tauto. Qed.

Lemma buf_zero n : buf n (replicate n 0).
Proof. split; [apply length_replicate|]. apply Forall_replicate. lia. Qed.

Lemma put_zero n s i : buf n s -> (i < n)%nat -> exists s', put s i 0 = Some s' /\ buf n s' /\ ztext s' /\ (forall j, (j < i)%nat -> s' !! j = s !! j) /\ s' !! i = Some 0.
Proof.
  intros [Hl Ho] Hi. unfold put. rewrite decide_True by lia. eexists. split; [done|]. assert (<[i := 0]> s !! i = Some 0) as Hz by (apply list_lookup_insert_eq; lia).
  assert (octets (<[i := 0]> s)) as Ho' by (apply Forall_insert; [done|lia]).
  split; [split; [by rewrite length_insert|done]|]. split; [split; [done|by eapply list_elem_of_lookup_2]|]. split; [|done]. intros j Hj. apply list_lookup_insert_ne. lia.
Qed.

Lemma skip_ws_ok p : ztext p -> exists p' c, skip_ws p = Some p' /\ ztext p' /\ (length p' <= length p)%nat /\ head p' = Some c /\ (c <> 0 -> i_isspace c = false).
Proof.
  induction p as [|c p IH]; intros Hp; [by destruct Hp as [_ ?%elem_of_nil]|]. cbn [skip_ws].
  destruct (negb (c =? 0) && i_isspace c) eqn:E.
  - apply text_cons in Hp as [_ [?|Hp]]; [lia|]. destruct (IH Hp) as (p' & c' & -> & ? & ? & ?). exists p', c'. split_and!; [done..|simpl; lia|tauto|tauto].
  - exists (c :: p), c. split_and!; [done..|]. intros Hc. destruct (i_isspace c); [lia|done].
Qed.

Lemma skip_line_ok p : ztext p -> exists p', skip_line p = Some p' /\ ztext p' /\ (length p' <= length p)%nat /\ (head p <> Some 0 -> (length p' < length p)%nat).
Proof.
  induction p as [|c p IH]; intros Hp; [by destruct Hp as [_ ?%elem_of_nil]|]. cbn [skip_line]. destruct (Z.eqb_spec c 0) as [->|Hc].
  { exists (0 :: p). split_and!; [done..|]. intros Hn. by destruct Hn. }
  apply text_cons in Hp as [_ [?|Hp]]; [done|]. destruct (c =? 10); [exists p; split_and!; [done..|simpl; lia|simpl; lia]|].
  destruct (IH Hp) as (p' & -> & ? & ? & _). exists p'. split_and!; [done..|simpl; lia|simpl; lia].
Qed.

Lemma take_word_ok stop p : forall n out i lim, ztext p -> buf n out -> (i <= lim < n)%nat ->
  exists p' out' i', take_word stop p out i lim = Some (p', out', i') /\ ztext p' /\ buf n out' /\ (i <= i' <= lim)%nat /\ (length p' <= length p)%nat /\
    (forall c, head p = Some c -> c <> 0 -> stop c = false -> (i < lim)%nat -> (length p' < length p)%nat /\ (i < i')%nat /\ out' !! i = Some c) /\
    (forall j, (j < i)%nat -> out' !! j = out !! j).
Proof.
  induction p as [|c p IH]; intros n out i lim Hp Hb Hi; [by destruct Hp as [_ ?%elem_of_nil]|]. cbn [take_word].
  destruct ((c =? 0) || stop c || (lim <=? i)%nat) eqn:E.
  { exists (c :: p), out, i. split_and!; [done..|lia|lia|done| |done]. intros c' [= <-] ? Hs ?. rewrite Hs in E. apply orb_true_iff in E as [E|E]; [lia|]. apply Nat.leb_le in E. lia. }
  apply orb_false_iff in E as [[Ec Es]%orb_false_iff El]. apply Nat.leb_gt in El. pose proof (text_cons _ _ Hp) as [Hc [?|Hp']]; [lia|].
  destruct Hb as [Hl Ho]. unfold put. rewrite decide_True by lia. cbn [mbind option_bind].
  destruct (IH n (<[i := c]> out) (S i) lim Hp') as (p' & out' & i' & -> & Ht & Hb' & ? & ? & _ & Hk); [split; [by rewrite length_insert|by apply Forall_insert]|lia|].
  exists p', out', i'. split_and!; [done..|lia|lia|simpl; lia| |].
  - intros c' [= <-] _ _ _. split_and!; [simpl; lia|lia|]. rewrite Hk by lia. apply list_lookup_insert_eq. lia.
  - intros j Hj. rewrite Hk by lia. apply list_lookup_insert_ne. lia.
Qed.

(** Both readers store a string and make progress. *)
Lemma read_word_ok n p out : ztext p -> buf n out -> (2 <= n)%nat ->
  exists p' out', read_word p out = Some (p', out') /\ ztext p' /\ buf n out' /\ ztext out' /\ (length p' <= length p)%nat /\
    (forall c, head p = Some c -> c <> 0 -> i_isspace c = false -> if c =? 58 then p' = p else (length p' < length p)%nat).
Proof.
  intros Hp Hb Hn. unfold read_word. destruct (skip_ws_ok p Hp) as (p1 & c & E1 & H1 & Hl1 & _). rewrite E1. cbn [mbind option_bind]. pose proof Hb as [Hlen _]. rewrite Hlen.
  destruct (take_word_ok (fun c => i_isspace c || (c =? 58)) p1 n out 0 (n - 1) H1 Hb ltac:(lia)) as (p2 & o2 & i & E2 & H2 & Hb2 & Hi & Hl2 & Hlt & _). rewrite E2. cbn [mbind option_bind].
  destruct (put_zero n o2 i Hb2 ltac:(lia)) as (o3 & -> & Hb3 & Ht3 & _). cbn [mbind option_bind]. exists p2, o3. split_and!; [done..|lia|].
  intros c' Hh Hc Hs. destruct p as [|x p]; [done|]. injection Hh as ->. cbn [skip_ws] in E1. rewrite Hs, andb_false_r in E1. injection E1 as <-.
  destruct (Z.eqb_spec c' 58) as [->|Hne]; [cbn in E2; by injection E2|]. apply (Hlt c' eq_refl Hc); [rewrite Hs; lia|lia].
Qed.

Lemma trim_end_ok n out i : buf n out -> (i < n)%nat -> exists j, trim_end out i = Some j /\ (j <= i)%nat.
Proof.
  intros [Hl _]. induction i as [|i IH]; intros Hi; cbn [trim_end]; [by exists 0%nat|].
  destruct (lookup_lt_is_Some_2 out i) as [c ->]; [lia|]. cbn [mbind option_bind]. destruct (i_isspace c); [|by exists (S i)].
  destruct (IH ltac:(lia)) as (j & -> & ?). exists j. split; [done|lia].
Qed.

Lemma read_value_ok n p out : ztext p -> buf n out -> (2 <= n)%nat ->
  exists p' out', read_line_value p out = Some (p', out') /\ ztext p' /\ buf n out' /\ ztext out' /\ (length p' <= length p)%nat /\
    (head p = Some 58 -> (length p' < length p)%nat).
Proof.
  intros Hp Hb Hn. unfold read_line_value. destruct (skip_ws_ok p Hp) as (p1 & c & E1 & H1 & Hl1 & Hh & Hc). rewrite E1. cbn [mbind option_bind]. rewrite Hh. cbn [mbind option_bind].
  assert (exists p2, (if c =? 58 then skip_ws (tail p1) else Some p1) = Some p2 /\ ztext p2 /\ (length p2 <= length p1)%nat /\ (c = 58 -> (length p2 < length p1)%nat)) as (p2 & -> & H2 & Hl2 & Hs2).
  { destruct (Z.eqb_spec c 58) as [->|]; [|by exists p1]. destruct (text_head p1 H1) as (c' & p1' & -> & _ & Ht). injection Hh as ->. cbn [tail].
    destruct (skip_ws_ok p1' (Ht ltac:(lia))) as (p2 & _ & -> & ? & ? & _). exists p2. split_and!; [done..|simpl; lia|simpl; lia]. }
  cbn [mbind option_bind]. pose proof Hb as [Hlen _]. rewrite Hlen.
  destruct (take_word_ok (fun c => c =? 10) p2 n out 0 (n - 1) H2 Hb ltac:(lia)) as (p3 & o3 & i & -> & H3 & Hb3 & Hi & Hl3 & _). cbn [mbind option_bind].
  destruct (trim_end_ok n o3 i Hb3 ltac:(lia)) as (j & -> & Hj). cbn [mbind option_bind].
  destruct (put_zero n o3 j Hb3 ltac:(lia)) as (o4 & -> & Hb4 & Ht4 & _). cbn [mbind option_bind].
  destruct (skip_line_ok p3 H3) as (p4 & -> & H4 & Hl4 & _). cbn [mbind option_bind]. exists p4, o4. split_and!; [done..|lia|].
  intros Hh'. destruct p as [|x p]; [done|]. injection Hh' as ->. cbn in E1. injection E1 as <-. injection Hh as <-. specialize (Hs2 eq_refl). lia.
Qed.

(** ** Fields *)

Lemma str_is_ok s lit : ztext s -> exists b, str_is s lit = Some b.
Proof.
  intros [Ho Hs]. unfold str_is. assert (0 ∈ c_str lit ++ [0]) as Hl by (apply elem_of_app; right; by left). revert Hs Hl. generalize (c_str lit ++ [0]) as t. clear Ho.
  assert (forall s t, 0 ∈ s -> 0 ∈ t -> is_Some (strcmp s t)) as Hc.
  { clear. induction s as [|a s IH]; intros [|b t] Hs Ht; try by apply elem_of_nil in Hs || apply elem_of_nil in Ht. cbn [strcmp].
    destruct (negb (a =? 0) && (a =? b)) eqn:E; [|done]. apply elem_of_cons in Hs as [<-|Hs]; [lia|]. apply elem_of_cons in Ht as [<-|Ht]; [lia|]. by apply IH. }
  intros t Hs Ht. destruct (Hc s t Hs Ht) as [r ->]. by eexists.
Qed.

(** [strncpy] into a whole array; the result is a string when the source fits. *)
Lemma strncpy_buf n k dest src : buf n dest -> buf k src -> ztext src -> exists d, strncpy dest src n = Some d /\ buf n d /\ ((k <= n)%nat -> ztext d).
Proof.
  intros [Hl Ho] [Hk Hos] Ht. destruct (text_str src Ht) as [str Hc]. unfold strncpy. rewrite (strncpy_from_spec dest src str 0 n Hc) by lia.
  assert (list_inserts 0 (take n str ++ replicate (n - length str) 0) dest = take n str ++ replicate (n - length str) 0) as ->.
  { rewrite inserts_prefix by (rewrite length_app, length_take, length_replicate; lia). rewrite drop_ge, app_nil_r; [done|]. rewrite length_app, length_take, length_replicate. lia. }
  eexists. split; [done|]. assert (octets str) as Hstr by (destruct Hc as (r & -> & _); by apply Forall_app in Hos as [? _]).
  assert (octets (take n str ++ replicate (n - length str) 0)) as Hd by (apply Forall_app; split; [by apply Forall_take|apply Forall_replicate; lia]).
  split; [split; [rewrite length_app, length_take, length_replicate; lia|done]|]. intros Hkn. split; [done|].
  assert (length str < k)%nat by (destruct Hc as (r & -> & _); rewrite length_app in Hk; simpl in Hk; lia). apply elem_of_app. right. apply elem_of_replicate. split; [done|lia].
Qed.

Lemma strchr_ok c s : ztext s -> exists r, strchr s c = Some r /\ forall e, r = Some e -> (e < length s)%nat /\ ztext (drop (S e) s).
Proof.
  induction s as [|b s IH]; intros Hs; [by destruct Hs as [_ ?%elem_of_nil]|]. cbn [strchr].
  destruct (Z.eqb_spec b 0); [by exists None|]. apply text_cons in Hs as [_ [?|Hs]]; [done|].
  destruct (i8 b =? c); [exists (Some 0%nat); split; [done|]; intros e [= <-]; split; [simpl; lia|done]|].
  destruct (IH Hs) as (r & -> & Hr). exists (option_map S r). split; [done|]. intros e He. destruct r as [e'|]; [|done]. injection He as <-.
  destruct (Hr e' eq_refl). split; [simpl; lia|done].
Qed.

Definition dep_ok (d : list Z) : Prop := buf SVC_NAME_LEN d /\ ztext d.
Definition env_ok (e : list Z * list Z) : Prop := buf ENV_NAME_LEN (fst e) /\ buf ENV_VALUE_LEN (snd e).

(** The word of a turn of [needs_loop] and [env_loop]. *)
Lemma value_word n vp lim : ztext vp -> head vp <> Some 0 -> (0 < lim < n)%nat ->
  exists p c, skip_ws vp = Some p /\ head p = Some c /\
    (c <> 0 -> exists vp' w i, take_word i_isspace p (replicate n 0) 0 lim = Some (vp', w, i) /\ ztext vp' /\ (length vp' < length vp)%nat /\
       exists w', put w i 0 = Some w' /\ buf n w' /\ ztext w').
Proof.
  intros Hv Hh Hl. destruct (skip_ws_ok vp Hv) as (p & c & E & Hp & Hlen & Hc & Hs). exists p, c. split_and!; [done..|]. intros Hne.
  destruct (take_word_ok i_isspace p n (replicate n 0) 0 lim Hp (buf_zero n) ltac:(lia)) as (vp' & w & i & E' & Hv' & Hb & Hi & _ & Hlt & _).
  destruct (Hlt c Hc Hne (Hs Hne) ltac:(lia)) as (Hlt' & _ & _). destruct (put_zero n w i Hb ltac:(lia)) as (w' & Hw & Hb' & Ht' & _).
  exists vp', w, i. split_and!; [done..|lia|]. by exists w'.
Qed.

Lemma needs_loop_ok fuel : forall vp deps, ztext vp -> (length vp < fuel)%nat -> Forall dep_ok deps -> (length deps <= MAX_DEPS)%nat ->
  exists deps', needs_loop fuel vp deps = Some deps' /\ Forall dep_ok deps' /\ (length deps' <= MAX_DEPS)%nat.
Proof.
  induction fuel as [|fuel IH]; intros vp deps Hv Hf Hd Hl; [lia|]. cbn [needs_loop]. destruct (text_head vp Hv) as (c & vp' & _ & Hh & _). rewrite Hh. cbn [mbind option_bind].
  destruct ((c =? 0) || (MAX_DEPS <=? length deps)%nat) eqn:E; [by exists deps|]. apply orb_false_iff in E as [Ec El]. apply Nat.leb_gt in El.
  destruct (value_word SVC_NAME_LEN vp (SVC_NAME_LEN - 1) Hv ltac:(rewrite Hh; intros [= ->]; lia) ltac:(unfold SVC_NAME_LEN; lia)) as (p & c' & -> & Hh' & Hw).
  cbn [mbind option_bind]. rewrite Hh'. cbn [mbind option_bind]. destruct (Z.eqb_spec c' 0) as [|Hne]; [by exists deps|].
  destruct (Hw Hne) as (vp1 & w & i & -> & Hv1 & Hlt & w' & Hp & Hb & Ht). cbn [mbind option_bind]. rewrite Hp. cbn [mbind option_bind].
  destruct (strncpy_buf SVC_NAME_LEN SVC_NAME_LEN (replicate SVC_NAME_LEN 0) w' (buf_zero _) Hb Ht) as (d & -> & Hbd & Htd). cbn [mbind option_bind].
  apply IH; [done|lia|apply Forall_app; split; [done|]; repeat constructor; [apply Hbd..|by apply Htd|by apply Htd]|rewrite length_app; simpl; lia].
Qed.

Lemma env_loop_ok fuel : forall vp envs, ztext vp -> (length vp < fuel)%nat -> Forall env_ok envs -> (length envs <= MAX_ENV_VARS)%nat ->
  exists envs', env_loop fuel vp envs = Some envs' /\ Forall env_ok envs' /\ (length envs' <= MAX_ENV_VARS)%nat.
Proof.
  induction fuel as [|fuel IH]; intros vp envs Hv Hf Hd Hl; [lia|]. cbn [env_loop]. destruct (text_head vp Hv) as (c & vp' & _ & Hh & _). rewrite Hh. cbn [mbind option_bind].
  destruct ((c =? 0) || (MAX_ENV_VARS <=? length envs)%nat) eqn:E; [by exists envs|]. apply orb_false_iff in E as [Ec El]. apply Nat.leb_gt in El.
  destruct (value_word (ENV_NAME_LEN + ENV_VALUE_LEN + 1) vp (ENV_NAME_LEN + ENV_VALUE_LEN) Hv ltac:(rewrite Hh; intros [= ->]; lia) ltac:(unfold ENV_NAME_LEN; lia)) as (p & c' & -> & Hh' & Hw).
  cbn [mbind option_bind]. rewrite Hh'. cbn [mbind option_bind]. destruct (Z.eqb_spec c' 0) as [|Hne]; [by exists envs|].
  destruct (Hw Hne) as (vp1 & w & i & -> & Hv1 & Hlt & w' & Hp & Hb & Ht). cbn [mbind option_bind]. rewrite Hp. cbn [mbind option_bind].
  destruct (strchr_ok 61 w' Ht) as (r & -> & Hr). cbn [mbind option_bind]. destruct r as [e|]; [|apply IH; [done|lia|done|done]].
  destruct (Hr e eq_refl) as [He Hte]. destruct (put_zero _ w' e Hb ltac:(rewrite <- (proj1 Hb); done)) as (w2 & Hp2 & Hb2 & Ht2 & _). rewrite Hp2. cbn [mbind option_bind].
  assert (drop (S e) w2 = drop (S e) w') as Ed. { unfold put in Hp2. case_decide; [|done]. injection Hp2 as <-. apply drop_insert_lt. lia. }
  destruct (strncpy_buf ENV_NAME_LEN _ (replicate ENV_NAME_LEN 0) w2 (buf_zero _) Hb2 Ht2) as (key & -> & Hbk & _). cbn [mbind option_bind]. rewrite Ed.
  destruct (strncpy_buf ENV_VALUE_LEN (length (drop (S e) w')) (replicate ENV_VALUE_LEN 0) (drop (S e) w') (buf_zero _) (conj eq_refl (proj1 Hte)) Hte) as (val & -> & Hbv & _). cbn [mbind option_bind].
  apply IH; [done|lia|apply Forall_app; split; [done|]; repeat constructor; cbn; [apply Hbk..|apply Hbv|apply Hbv]|rewrite length_app; simpl; lia].
Qed.

(** The arrays have their lengths, and the lists their bounds. *)
Record svc_shape (s : service_t) : Prop := {
  sh_name : buf SVC_NAME_LEN (sv_name s);
  sh_binary : buf SVC_PATH_LEN (sv_binary s);
  sh_args : buf SVC_ARGS_LEN (sv_args s);
  sh_user : buf 32 (sv_user s);
  sh_group : buf 32 (sv_group s);
  sh_deps : Forall dep_ok (sv_deps s) /\ (length (sv_deps s) <= MAX_DEPS)%nat;
  sh_envs : Forall env_ok (sv_envs s) /\ (length (sv_envs s) <= MAX_ENV_VARS)%nat;
}.

Lemma zero_shape : svc_shape zero_service.
Proof. split; cbn [sv_name sv_binary sv_args sv_user sv_group sv_deps sv_envs zero_service]; try apply buf_zero; by split; [|simpl; lia]. Qed.

(** A comparison with the name of a field, with a goal for each answer. *)
Ltac field_case f Hf lit :=
  let b := fresh "b" in let E := fresh in destruct (str_is_ok f lit Hf) as (b & E); rewrite E; cbn [mbind option_bind]; clear E; destruct b.

(** A field keeps the name and the shape. *)
Lemma set_field_ok s field value : svc_shape s -> ztext field -> buf 512 value -> ztext value ->
  exists s', set_field s field value = Some s' /\ svc_shape s' /\ sv_name s' = sv_name s.
Proof.
  intros [Hn Hb Ha Hu Hg [Hd Hdl] [He Hel]] Hf Hbv Hv. unfold set_field.
  assert (forall n d, buf n d -> exists d', strncpy d value n = Some d' /\ buf n d') as Hcpy.
  { intros n d Hbd. destruct (strncpy_buf n 512 d value Hbd Hbv Hv) as (d' & ? & ? & _). by exists d'. }
  field_case field Hf "needs"%string.
  { destruct (needs_loop_ok (S (length value)) value (sv_deps s) Hv ltac:(lia) Hd Hdl) as (d & -> & ? & ?). cbn [mbind option_bind]. eexists. split; [done|]. by split. }
  field_case field Hf "binary"%string.
  { destruct (Hcpy _ _ Hb) as (d & -> & ?). cbn [mbind option_bind]. eexists. split; [done|]. by split. }
  field_case field Hf "args"%string.
  { destruct (Hcpy _ _ Ha) as (d & -> & ?). cbn [mbind option_bind]. eexists. split; [done|]. by split. }
  field_case field Hf "restart"%string.
  { destruct (str_is_ok value "always" Hv) as (b1 & ->), (str_is_ok value "on-fail" Hv) as (b2 & ->). cbn [mbind option_bind]. eexists. split; [done|]. destruct b1, b2; by split. }
  field_case field Hf "log"%string.
  { destruct (str_is_ok value "file" Hv) as (b1 & ->), (str_is_ok value "none" Hv) as (b2 & ->). cbn [mbind option_bind]. eexists. split; [done|]. destruct b1, b2; by split. }
  field_case field Hf "user"%string.
  { destruct (Hcpy _ _ Hu) as (d & -> & ?). cbn [mbind option_bind]. eexists. split; [done|]. by split. }
  field_case field Hf "group"%string.
  { destruct (Hcpy _ _ Hg) as (d & -> & ?). cbn [mbind option_bind]. eexists. split; [done|]. by split. }
  field_case field Hf "env"%string.
  { destruct (env_loop_ok (S (length value)) value (sv_envs s) Hv ltac:(lia) He Hel) as (d & -> & ? & ?). cbn [mbind option_bind]. eexists. split; [done|]. by split. }
  exists s. split; [done|]. by split.
Qed.

Lemma field_loop_ok fuel : forall p s, ztext p -> (length p < fuel)%nat -> svc_shape s ->
  exists s', field_loop fuel p s = Some s' /\ svc_shape s' /\ sv_name s' = sv_name s.
Proof.
  induction fuel as [|fuel IH]; intros p s Hp Hf Hs; [lia|]. cbn [field_loop]. destruct (text_head p Hp) as (c & p' & _ & Hh & _). rewrite Hh. cbn [mbind option_bind].
  destruct (Z.eqb_spec c 0) as [|Hc]; [by exists s|]. destruct (skip_ws_ok p Hp) as (p1 & c1 & -> & H1 & Hl1 & Hh1 & Hsp). cbn [mbind option_bind]. rewrite Hh1. cbn [mbind option_bind].
  destruct (skip_line_ok p1 H1) as (p2 & E2 & H2 & Hl2 & Hlt2).
  destruct ((c1 =? 10) || (c1 =? 35)) eqn:E; [rewrite E2; cbn [mbind option_bind]; apply IH; [done| |done]; specialize (Hlt2 ltac:(rewrite Hh1; intros [= ->]; lia)); lia|].
  destruct (Z.eqb_spec c1 0) as [|Hc1]; [by exists s|].
  destruct (read_word_ok 64 p1 (replicate 64 0) H1 (buf_zero 64) ltac:(lia)) as (p3 & field & -> & H3 & _ & Hfi & Hl3 & Hpr). cbn [mbind option_bind].
  specialize (Hpr c1 Hh1 Hc1 (Hsp Hc1)). destruct (str_is_ok field "end" Hfi) as (b & ->). cbn [mbind option_bind]. destruct b; [by exists s|].
  destruct (read_value_ok 512 p3 (replicate 512 0) H3 (buf_zero 512) ltac:(lia)) as (p4 & value & -> & H4 & Hbv & Htv & Hl4 & Hv4). cbn [mbind option_bind].
  destruct (set_field_ok s field value Hs Hfi Hbv Htv) as (s1 & -> & Hs1 & En). cbn [mbind option_bind].
  destruct (IH p4 s1 H4) as (s' & -> & Hs' & En'); [|done|exists s'; split_and!; [done..|congruence]].
  destruct (Z.eqb_spec c1 58) as [->|]; [subst p3; specialize (Hv4 Hh1)|]; lia.
Qed.

Lemma shape_ok s : svc_shape s -> ztext (sv_name s) -> svc_ok s.
Proof. intros Hs Hn. split; [by apply text_str|]. apply (Forall_impl _ _ _ (proj1 (sh_deps _ Hs))). intros d [_ Hd]. by apply text_str. Qed.

Lemma reset_ok s name : svc_shape s -> buf SVC_NAME_LEN name -> exists s', reset_service s name = Some s' /\ svc_shape s' /\ sv_name s' = name.
Proof.
  intros [_ Hb Ha Hu Hg _ _] Hn. unfold reset_service.
  destruct (put_zero _ _ 0 Hb ltac:(unfold SVC_PATH_LEN; lia)) as (b & -> & ? & _), (put_zero _ _ 0 Ha ltac:(unfold SVC_ARGS_LEN; lia)) as (a & -> & ? & _),
    (put_zero _ _ 0 Hu ltac:(lia)) as (u & -> & ? & _), (put_zero _ _ 0 Hg ltac:(lia)) as (g & -> & ? & _). cbn [mbind option_bind].
  eexists. split; [done|]. split; [|done]. split; cbn; try done; by split; [|lia].
Qed.

Lemma parse_spec content s : ztext content -> svc_shape s ->
  exists r s', parse_svc_file content s = Some (r, s') /\ svc_shape s' /\ (r = -1 \/ r = 0 /\ svc_ok s' /\ until0 (sv_name s') <> [] /\ head (sv_binary s') <> Some 0).
Proof.
  intros Hc Hs. unfold parse_svc_file. destruct (read_word_ok 64 content (replicate 64 0) Hc (buf_zero 64) ltac:(lia)) as (p & kw & -> & Hp & _ & Hk & _). cbn [mbind option_bind].
  destruct (str_is_ok kw "service" Hk) as (b & ->). cbn [mbind option_bind]. destruct b; cbn [negb]; [|exists (-1), s; split_and!; [done..|by left]].
  destruct (read_word_ok SVC_NAME_LEN p (sv_name s) Hp (sh_name _ Hs) ltac:(unfold SVC_NAME_LEN; lia)) as (p1 & name & -> & Hp1 & Hbn & Htn & _). cbn [mbind option_bind].
  destruct (text_head name Htn) as (c & name' & En & -> & _). cbn [mbind option_bind]. destruct (Z.eqb_spec c 0) as [|Hc0].
  { exists (-1), (set_name s name). split; [done|]. split; [|by left]. split; [done|apply Hs..]. }
  destruct (skip_line_ok p1 Hp1) as (p2 & -> & Hp2 & _). cbn [mbind option_bind]. destruct (reset_ok s name Hs Hbn) as (s1 & -> & Hs1 & Hn1). cbn [mbind option_bind].
  destruct (field_loop_ok (S (length p2)) p2 s1 Hp2 ltac:(lia) Hs1) as (s2 & -> & Hs2 & Hn2). cbn [mbind option_bind].
  destruct (sv_binary s2) as [|b0 bin] eqn:Eb; [pose proof (proj1 (sh_binary _ Hs2)) as Hl; by rewrite Eb in Hl|]. cbn [head mbind option_bind].
  eexists _, s2. split; [done|]. split; [done|]. destruct (Z.eqb_spec b0 0) as [|Hb0]; [by left|right]. split; [done|].
  rewrite Hn1 in Hn2. split; [apply shape_ok; [done|by rewrite Hn2]|]. rewrite Eb. split; [|intros [= ->]; done].
  rewrite Hn2, En. cbn [until0]. by rewrite (proj2 (Z.eqb_neq c 0) Hc0).
Qed.

(** the parser returns on every text that ends with a zero and stays inside the arrays of the service: it
    never runs on forever and never reads or writes out of bounds.  When it accepts, the service has a name
    and dependencies that are strings, the name and the path of the program are not empty, and there are at
    most 16 dependencies and 32 variables. *)
Theorem parse_svc_file_total content s : ztext content -> svc_shape s ->
  exists r s', parse_svc_file content s = Some (r, s') /\ svc_shape s' /\ (r = -1 \/ r = 0 /\ svc_ok s' /\ until0 (sv_name s') <> [] /\ head (sv_binary s') <> Some 0).
Proof. apply parse_spec. Qed.

(** The table that loading makes is one that [compute_waves] accepts. *)
Lemma load_loop_ok texts : forall svcs slot, Forall ztext texts -> Forall svc_ok svcs -> (length svcs <= MAX_SERVICES)%nat -> svc_shape slot ->
  exists svcs', load_loop_svc texts svcs slot = Some svcs' /\ Forall svc_ok svcs' /\ (length svcs' <= MAX_SERVICES)%nat.
Proof.
  induction texts as [|t texts IH]; intros svcs slot Ht Hs Hl Hsl; cbn [load_loop_svc]; [by exists svcs|]. apply Forall_cons in Ht as [Ht Hts].
  destruct (Nat.leb_spec MAX_SERVICES (length svcs)); [by exists svcs|]. destruct (parse_spec t slot Ht Hsl) as (r & s' & -> & Hsh & Hr). cbn [mbind option_bind].
  destruct Hr as [->|(-> & Hok & _)]; cbn [Z.eqb]; [by apply IH|].
  apply IH; [done|apply Forall_app; split; [done|constructor; [done|constructor]]|rewrite length_app; simpl; lia|apply zero_shape].
Qed.

(** ** Launching *)

Section Launch.
Context `{BlockAlloc St} {W B : Type} (kmalloc : kern_t St W B -> Z -> option Z) (junk_stat : stat_info_t) (g_kernel_cr3 : Z).

(** What a launch makes of a service. *)
Definition launched (s s' : service_t) : Prop :=
  s' = sv_set_state s SVC_FAILED \/ exists pid, pid <> 0 /\ s' = sv_set_state (sv_set_pid s pid) SVC_RUNNING.

Lemma svc_launch_ok s running k s' running' k' : svc_launch kmalloc junk_stat g_kernel_cr3 s running k = Some (s', running', k') -> launched s s'.
Proof using.
  unfold svc_launch. intros. run_inv; [by left|by left|right]. eexists. split; [|done]. lia.
Qed.

(** A wave launches its new services and touches no other. *)
Lemma launch_loop_ok svcs : forall waves w running k svcs' running' k', launch_loop kmalloc junk_stat g_kernel_cr3 svcs waves w running k = Some (svcs', running', k') ->
  length svcs' = length svcs /\ forall i s, svcs !! i = Some s -> exists s' wv, svcs' !! i = Some s' /\ waves !! i = Some wv /\
    (if (wv =? w) && (sv_state s =? SVC_NEW) then launched s s' else s' = s).
Proof using.
  induction svcs as [|s svcs IH]; intros waves w running k svcs' running' k'; cbn [launch_loop]; intros E; [by injection E as <- _ _|].
  apply bind_Some in E as (wv & Hw & E). apply bind_Some in E as ([[s1 r1] k1] & E1 & E). apply bind_Some in E as ([[l1 r2] k2] & E2 & [= <- _ _]).
  destruct waves as [|wv' waves]; [done|]. injection Hw as ->. destruct (IH _ _ _ _ _ _ _ E2) as [Hl Hall]. split; [simpl; lia|]. intros [|i] x Hx; [|by apply Hall].
  injection Hx as <-. exists s1, wv. split_and!; [done..|]. destruct (_ && _); [by eapply svc_launch_ok|by injection E1].
Qed.

(** After the waves from [w] on, no service of one of them is new. *)
Lemma launch_waves_ok n : forall sm w k sm' k', launch_waves kmalloc junk_stat g_kernel_cr3 sm w n k = Some (sm', k') ->
  sm_wave sm' = sm_wave sm /\ forall i s wv, sm_services sm !! i = Some s -> sm_wave sm !! i = Some wv -> exists s', sm_services sm' !! i = Some s' /\
    (if bool_decide (w <= wv < w + Z.of_nat n) && (sv_state s =? SVC_NEW) then launched s s' else s' = s).
Proof using.
  induction n as [|n IH]; intros sm w k sm' k'; cbn [launch_waves]; intros E.
  { injection E as <- _. split; [done|]. intros i s wv Hs _. exists s. rewrite bool_decide_false by lia. done. }
  apply bind_Some in E as ([sm1 k1] & E1 & E2). unfold launch_wave in E1. apply bind_Some in E1 as ([[svcs r] k2] & E1 & [= <- <-]).
  destruct (launch_loop_ok _ _ _ _ _ _ _ _ E1) as [_ H1]. destruct (IH _ _ _ _ _ E2) as [Hw H2]. cbn in Hw, H2. split; [done|]. intros i s wv Hs Hwv.
  destruct (H1 i s Hs) as (s1 & wv' & Hs1 & Hwv' & Hc1). rewrite Hwv in Hwv'. injection Hwv' as <-. destruct (H2 i s1 wv Hs1 Hwv) as (s' & Hs' & Hc2). exists s'. split; [done|].
  destruct (Z.eqb_spec wv w) as [->|Hne]; cbn [andb] in Hc1.
  - rewrite bool_decide_false in Hc2 by lia. rewrite bool_decide_true by lia. cbn [andb] in *. by subst s'.
  - subst s1. erewrite bool_decide_ext; [exact Hc2|lia].
Qed.
End Launch.

(** ** The services of the system *)

(** A text from lines. *)
Definition svc_text (ls : list string) : list Z := mjoin ((fun l => c_str l ++ [10]) <$> ls) ++ [0].

Lemma text_check p : forallb (fun b => (0 <=? b) && (b <? 256)) p && existsb (Z.eqb 0) p = true -> ztext p.
Proof.
  intros [Ho He]%andb_true_iff. split.
  - apply Forall_forall. intros b Hb%list_elem_of_In. rewrite forallb_forall in Ho. specialize (Ho b Hb). lia.
  - apply existsb_exists in He as (b & Hb%list_elem_of_In & E). apply Z.eqb_eq in E. by subst b.
Qed.

Definition netd_text : list Z := svc_text ["service netd"; "  needs:   syslog"; "  binary:  /sbin/netd"; "  restart: always"; "end"].

Lemma parse_svc_file_witness :
  exists s', parse_svc_file netd_text zero_service = Some (0, s') /\ until0 (sv_name s') = c_str "netd" /\ svc_ok s'.
Proof.
  destruct (parse_svc_file_total netd_text zero_service ltac:(apply text_check; vm_compute; reflexivity) zero_shape) as (r & s' & E & _ & Hr).
  assert ((fun x => (x.1, until0 (sv_name x.2))) <$> parse_svc_file netd_text zero_service = Some (0, c_str "netd")) as Hv by (vm_compute; reflexivity).
  rewrite E in Hv. cbn [fmap option_fmap option_map fst snd] in Hv. injection Hv as -> Hn. exists s'. split; [exact E|]. split; [exact Hn|].
  destruct Hr as [Hr|(_ & Hok & _)]; [discriminate Hr|exact Hok].
Defined.

(** The table after loading. *)
Lemma builtin_loaded : exists sm, load_services = Some sm /\ Forall svc_ok (sm_services sm) /\ (length (sm_services sm) <= MAX_SERVICES)%nat.
Proof.
  destruct (load_loop_ok builtin_svcs [] zero_service) as (svcs & E & Hok & Hl); [|constructor|simpl; lia|apply zero_shape|].
  - apply Forall_cons; split; [|apply Forall_cons; split; [|apply Forall_nil; exact I]]; apply text_check; vm_compute; reflexivity.
  - exists (mk_svcmgr svcs 0 (replicate MAX_SERVICES 0)). unfold load_services. rewrite E. split; [reflexivity|]. split; [exact Hok|exact Hl].
Qed.

(** The two services of the system come in two waves. *)
Lemma compute_waves_witness : exists sm sm', load_services = Some sm /\ compute_waves sm = Some (2, sm') /\ layered (sm_services sm) (sm_wave sm') 2.
Proof.
  destruct builtin_loaded as (sm & E & Hok & Hl). destruct (compute_waves_ok sm Hok Hl) as (r & wave & Ew & Hr).
  assert (fst <$> (sm ← load_services; compute_waves sm) = Some 2) as Hv by (vm_compute; reflexivity).
  rewrite E in Hv. cbn [mbind option_bind] in Hv. rewrite Ew in Hv. injection Hv as ->. exists sm, (mk_svcmgr (sm_services sm) (sm_running sm) wave). split; [exact E|]. split; [exact Ew|].
  destruct Hr as [(_ & HL & _)|[Hr _]]; [exact HL|discriminate Hr].
Defined.

(** Two services that need one another are a cycle. *)
Lemma cycle_is_found :
  ('(_, a) ← parse_svc_file (svc_text ["service a"; "needs: b"; "binary: /a"; "end"]) zero_service;
   '(_, b) ← parse_svc_file (svc_text ["service b"; "needs: a"; "binary: /b"; "end"]) zero_service;
   fst <$> compute_waves (mk_svcmgr [a; b] 0 [])) = Some (-1).
Proof. vm_compute. reflexivity. Qed.

(** ** Where the parser falls short *)

(** A field without a value takes the next line for its value. *)
Lemma empty_value_takes_next_line :
  ('(r, s) ← parse_svc_file (svc_text ["service a"; "args:"; "binary: /sbin/a"; "end"]) zero_service; Some (r, until0 (sv_args s))) = Some (-1, c_str "binary: /sbin/a").
Proof. vm_compute. reflexivity. Qed.

(** A path of 256 characters or more is stored without a terminator. *)
Lemma long_path_not_terminated :
  ('(r, s) ← parse_svc_file (c_str "service a" ++ [10] ++ c_str "binary: /" ++ replicate 300 97 ++ [10; 0]) zero_service;
   Some (r, strlen (sv_binary s))) = Some (0, None).
Proof. vm_compute. reflexivity. Qed.

(** A dependency that names no service is no dependency. *)
Lemma unknown_dependency_is_ready :
  ('(_, a) ← parse_svc_file (svc_text ["service a"; "needs: no-such-service"; "binary: /a"; "end"]) zero_service;
   '(r, sm) ← compute_waves (mk_svcmgr [a] 0 []); Some (r, sm_wave sm)) = Some (1, [0]).
Proof. vm_compute. reflexivity. Qed.
