(* ===== verification/UserDemo.v ===== *)
(** * A sample process, and what the system calls do to it

    A process with one region of data and an empty page table, on the small allocator of [ShmSpec].  The
    theorems on user memory, the loader and the system calls apply to it; the last section runs the model
    where the code does not do what it promises. *)

From Stdlib Require Import ZArith Lia.
From stdpp Require Import base strings sets gmap functions list.
From S2P Require Import Prelude KString Phys PhysSpec PhysIface VRegion PageTable PageTableSpec VmSpace RbTree Sched VfsPath Port Vfs ShmSpec UserMem UserMemSpec Elf ElfSpec ElfStack Syscall SyscallSpec SyscallIds.

Local Open Scope Z_scope.

(** ** The process *)

Definition data_rgn : rgn := mk_rgn 0x400000 0x3000 3 2 (-1).
Definition user_pool : rpool := mk_rpool {[ 0%nat := vr_of data_rgn None None ]} 1.
Definition user_map : vmap_t := mk_vmap (Some 0%nat) PAGE_SIZE 1.

Abbreviation user_rgns := ([(0%nat, data_rgn)]).

Lemma user_map_inv : vmap_inv user_pool user_map user_rgns.
Proof.
  split; simpl.
  - exists (Some 0%nat). split; [done|]. by exists None.
  - apply NoDup_singleton.
  - split; [by repeat constructor|]. by repeat constructor.
  - intros i r. rewrite lookup_singleton_Some. lia.
  - done.
Qed.

Lemma no_frames va : frame_of sample_s sample_T va = None.
Proof. unfold frame_of, xlate, leaf, sample_T. by rewrite lookup_singleton_ne by (unfold path; done). Qed.

Lemma pt_inv_user (s : pool) O root T : pt_inv (fun _ => true) s O root T -> pt_inv user_half s O root T.
Proof. intros I. split; try apply I. intros π f i e Hf Hl Hi _. apply (pt_child _ _ _ _ _ I π f i e Hf Hl Hi). by destruct π. Qed.

Lemma sample_space (m : vmap_t) : vm_cr3 m = PAGE_SIZE -> uspace sample_s sample_O 1 sample_T m.
Proof. intros E. split; [apply pt_inv_user, sample_pt| |by rewrite E]. split; intros va; [|intros va']; intros; by rewrite no_frames in *. Qed.

(** Four bytes across the boundary of two pages. *)
Lemma copy_to_user_witness :
  exists s' O' T', copy_to_user user_pool (Some user_map) sample_s 0x400ffe [7; 8; 9; 10] 4 = Some (0, s') /\
    uspace s' O' 1 T' user_map /\ ubyte s' T' 0x401001 = Some 10.
Proof.
  destruct (copy_to_user_ok user_pool user_rgns 1 user_map sample_s sample_O sample_T 0x400ffe [7; 8; 9; 10] 4
    (sample_space user_map eq_refl) user_map_inv ltac:(lia) ltac:(lia) eq_refl ltac:(simpl; lia) ltac:(repeat constructor; lia))
    as (rc & s' & O' & T' & E & U & _ & Hr).
  assert (fst <$> copy_to_user user_pool (Some user_map) sample_s 0x400ffe [7; 8; 9; 10] 4 = Some 0) as Hrc by (vm_compute; reflexivity).
  rewrite E in Hrc. injection Hrc as ->. exists s', O', T'. split; [exact E|]. split; [exact U|].
  destruct Hr as [[_ Hb]|[? _]]; [|lia]. destruct (Hb 3 ltac:(lia)) as (b & [= <-] & Hu). exact Hu.
Defined.

Lemma copy_user_roundtrip_witness :
  exists s1 s2, copy_to_user user_pool (Some user_map) sample_s 0x400ffe [7; 8; 9; 10] 4 = Some (0, s1) /\
    copy_from_user user_pool (Some user_map) s1 [0; 0; 0; 0; 5] 0x400ffe 4 = Some (0, [7; 8; 9; 10; 5], s2).
Proof.
  destruct (copy_user_roundtrip user_pool user_rgns 1 user_map sample_s sample_O sample_T 0x400ffe [7; 8; 9; 10] 4 [0; 0; 0; 0; 5]
    (sample_space user_map eq_refl) user_map_inv ltac:(lia) ltac:(lia) eq_refl ltac:(simpl; lia) ltac:(simpl; lia) ltac:(repeat constructor; lia))
    as (rc & s1 & E & Hr).
  assert (fst <$> copy_to_user user_pool (Some user_map) sample_s 0x400ffe [7; 8; 9; 10] 4 = Some 0) as Hrc by (vm_compute; reflexivity).
  rewrite E in Hrc. injection Hrc as ->. destruct (Hr eq_refl) as [s2 E2]. exists s1, s2. split; [exact E|exact E2].
Defined.

(** ** A program of four bytes and its stack *)

Definition elf_img : list Z :=
  [0x7f; 0x45; 0x4c; 0x46; 2; 1; 1] ++ replicate 9 0 ++ le_bytes 2 2 ++ le_bytes 2 62 ++ le_bytes 4 1 ++ le_bytes 8 0x400000 ++ le_bytes 8 64 ++
  replicate 14 0 ++ le_bytes 2 56 ++ le_bytes 2 1 ++ replicate 6 0 ++
  le_bytes 4 1 ++ le_bytes 4 5 ++ le_bytes 8 120 ++ le_bytes 8 0x400000 ++ replicate 8 0 ++ le_bytes 8 4 ++ le_bytes 8 16 ++ replicate 8 0 ++
  [0x90; 0x90; 0xeb; 0xfe].

Definition elf_hdr : elf64_ehdr_t := mk_ehdr ([0x7f; 0x45; 0x4c; 0x46; 2; 1; 1] ++ replicate 9 0) 2 62 0x400000 64 56 1.
Definition elf_seg : elf64_phdr_t := mk_phdr 1 5 120 0x400000 4 16.

Definition empty_pool : rpool := mk_rpool ∅ 0.
Definition empty_map : vmap_t := mk_vmap None PAGE_SIZE 0.

Lemma empty_map_inv : vmap_inv empty_pool empty_map [].
Proof. split; simpl; [by exists None|apply NoDup_nil_2|by repeat constructor|by intros i r|done]. Qed.

Lemma elf_segs i ph : load_at elf_img elf_hdr i ph -> ph = elf_seg.
Proof.
  intros (Hi & Hp & _). cbn in Hi. assert (i = 0) as -> by lia.
  assert (phdr_at elf_img elf_hdr 0 = Some elf_seg) as E by (vm_compute; reflexivity). congruence.
Qed.


Definition stack_rgn : rgn := mk_rgn (USER_STACK_TOP - PAGE_SIZE) PAGE_SIZE 3 RGN_STACK (-1).

(** The page at the top of the stack is there. *)
Definition stack_mem : option pool := snd <$> amm_region_populate sample_s (Some empty_map) (USER_STACK_TOP - PAGE_SIZE) PAGE_SIZE 3.

Lemma stack_mem_space : exists s O T, stack_mem = Some s /\ uspace s O 1 T empty_map.
Proof.
  destruct (region_populate_space [(0%nat, stack_rgn)] 1 empty_map sample_s sample_O sample_T (USER_STACK_TOP - PAGE_SIZE) PAGE_SIZE 3 (sample_space empty_map eq_refl))
    as (k & s & O & T & E & U & _); [done|done|done|by exists (USER_STACK_TOP / PAGE_SIZE - 1)|by exists 1|intros x Hx; exists 0%nat, stack_rgn, x; split; [by left|done]|].
  exists s, O, T. unfold stack_mem. rewrite E. split; [reflexivity|exact U].
Qed.

Definition argv_ls : list (list Z) := [c_str "ls" ++ [0]; c_str "-l" ++ [0]].

(** [ls -l] without an environment: the first argument is found through the vector. *)
Lemma build_user_stack_witness :
  exists s0 s sp T q, stack_mem = Some s0 /\ build_user_stack_vm empty_map (Some argv_ls) None s0 = Some (Some sp, s) /\
    ubytes T s sp (le_bytes 8 2) /\ ubytes T s (sp + 8) (le_bytes 8 q) /\ ubytes T s q (c_str "ls" ++ [0]).
Proof.
  destruct stack_mem_space as (s0 & O & T & E0 & U).
  destruct (build_user_stack_ok [(0%nat, stack_rgn)] 1 empty_map O T s0 (Some argv_ls) None [c_str "ls"; c_str "-l"] [] U)
    as (r & s & E & _ & _ & Hr).
  - repeat constructor; exists []; (split; [reflexivity|repeat constructor; vm_compute; done]).
  - constructor.
  - repeat constructor; vm_compute; done.
  - constructor.
  - by vm_compute.
  - assert ((s0 ← stack_mem; fst <$> build_user_stack_vm empty_map (Some argv_ls) None s0) = Some (Some (USER_STACK_TOP - 64))) as Hsp by (vm_compute; reflexivity).
    rewrite E0 in Hsp. cbn [mbind option_bind] in Hsp. rewrite E in Hsp. injection Hsp as ->.
    destruct (Hr _ eq_refl) as [[_ Hn Ha _ _ _] _]. destruct (Ha 0%nat (c_str "ls") eq_refl) as (q & Hq & Hs).
    exists s0, s, (USER_STACK_TOP - 64), T, q. split; [exact E0|]. split; [exact E|]. split; [exact Hn|]. split; [exact Hq|exact Hs].
Defined.

(** ** The kernel around the process *)

Definition user_block (pid uid : Z) (vm : option Z) : pcb_t :=
  mk_pcb pid PROC_RUN SCHED_BATCH 0 0 0 0 0 0 vm 0 (replicate SCHED_NAME_LEN 0) uid 100 0 None 0 (mk_regs 0 0 0 0 0 0).

(** Process 5 of user 1000 is current, and process 6 of root waits. *)
Definition user_sched : sched_st :=
  mk_sched [mk_runq false 0 None None None 0 0 0 (Some 5%nat) (Some 4096%nat) 0 0 0] 1
    {[ 5%nat := user_block 5 1000 (Some 0); 6%nat := user_block 6 0 (Some 1); 4096%nat := zero_pcb ]} ∅ 7 2
    (mk_sched_state SCHED_STATE_MAGIC 1 [mk_cpu_state 0 0 0 0 0 0] 0 0) [Some 5%nat] None false 0 None [] [].

Definition demo_kern : kern_t pool unit unit :=
  mk_kern sample_s user_pool {[ 0 := user_map; 1 := empty_map ]} 2 user_sched (mk_vfs [] [] 1 ∅ ∅ (mk_ports [] ∅ []) None tt)
    MMAP_BASE 0 [] [] 0 [] (c_str "asd" ++ [0]) 1000 100 [].

Definition demo_stack_bytes (n : nat) : list Z := replicate n 0xAA.
Definition no_kmalloc (k : kern_t pool unit unit) (n : Z) : option Z := None.
Definition no_clock (k : kern_t pool unit unit) : Z := 0.

Lemma demo_proc : user_proc demo_kern 0 user_map user_rgns sample_O 1 sample_T.
Proof.
  split; [reflexivity|apply sample_space; reflexivity|apply user_map_inv| |].
  - intros j g [= -> ->]%list_elem_of_singleton. split; [by exists 0x400|by exists 3].
  - intros va _ [f Hf]. cbn [kn_mem demo_kern] in Hf. by rewrite no_frames in Hf.
Qed.

(** A buffer of 300 fresh bytes is printed in two turns. *)
Lemma sys_write_console_witness :
  exists k', sys_write no_kmalloc demo_stack_bytes demo_kern 1 0x400ff0 300 = Some (300, k') /\ kn_out k' = replicate 300 0.
Proof.
  destruct (sys_write_console_ok demo_stack_bytes (fun n => length_replicate n 0xAA) no_kmalloc demo_kern 0 user_map user_rgns sample_O 1 sample_T 1 0x400ff0 300
    demo_proc ltac:(by left) ltac:(lia) ltac:(lia)) as (r & s' & O' & T' & bs & E & _ & _ & _ & _).
  assert ((fun x => (x.1, kn_out x.2)) <$> sys_write no_kmalloc demo_stack_bytes demo_kern 1 0x400ff0 300 = Some (300, replicate 300 0)) as Hr by (vm_compute; reflexivity).
  rewrite E in Hr. cbn [fmap option_fmap option_map fst snd] in Hr. injection Hr as -> Ho. eexists. split; [exact E|exact Ho].
Defined.

Lemma sys_mmap_witness :
  exists k' T', sys_mmap demo_kern 0 5000 3 MAP_ANONYMOUS (u64 (-1)) 0 = Some (MMAP_BASE, k') /\ kn_mmap_bump k' = MMAP_BASE + 8192 /\
    ubyte (kn_mem k') T' MMAP_BASE = Some 0.
Proof.
  destruct (sys_mmap_ok demo_kern 0 user_map user_rgns sample_O 1 sample_T 0 5000 3 MAP_ANONYMOUS (u64 (-1)) 0
    demo_proc ltac:(done) ltac:(by exists 0x500000000) ltac:(lia)) as (r & k' & m' & l' & O' & T' & E & _ & _ & Hr).
  assert ((fun x => (x.1, kn_mmap_bump x.2)) <$> sys_mmap demo_kern 0 5000 3 MAP_ANONYMOUS (u64 (-1)) 0 = Some (MMAP_BASE, MMAP_BASE + 8192)) as Hv by (vm_compute; reflexivity).
  rewrite E in Hv. cbn [fmap option_fmap option_map fst snd] in Hv. injection Hv as -> Hb. exists k', T'. split; [exact E|]. split; [exact Hb|].
  destruct Hr as [Hr|(_ & _ & Hz & _)]; [discriminate Hr|exact Hz].
Defined.

Lemma demo_brk_wf : brk_wf user_rgns.
Proof. intros j g [= -> ->]%list_elem_of_singleton. unfold rg_end, BRK_BASE. cbn. lia. Qed.



(** ** Where the code falls short *)

Definition code_pool : rpool := mk_rpool {[ 0%nat := vr_of (mk_rgn 0x400000 0x3000 5 3 (-1)) None None ]} 1.

(** A write to a region without write permission is refused while its page is not there, and done once the page has been read. *)
Lemma readonly_page_written :
  fst <$> copy_to_user code_pool (Some user_map) sample_s 0x400000 [1] 1 = Some (-1) /\
  ('(_, _, s) ← copy_from_user code_pool (Some user_map) sample_s [0] 0x400000 1;
   '(r, s) ← copy_to_user code_pool (Some user_map) s 0x400000 [1] 1;
   '(r', b, _) ← copy_from_user code_pool (Some user_map) s [0] 0x400000 1; Some (r, r', b)) = Some (0, 0, [1]).
Proof. split; vm_compute; reflexivity. Qed.

(** Pages on both sides of the end of user space, the second in the half of the kernel. *)
Definition edge_mem : option pool :=
  '(_, s) ← amm_region_populate sample_s (Some empty_map) (USER_LIMIT - PAGE_SIZE) PAGE_SIZE 3;
  '(_, s) ← amm_region_populate s (Some empty_map) USER_LIMIT PAGE_SIZE 3;
  '(_, s) ← vm_copy_to_user s empty_map (USER_LIMIT - 1) [97; 98; 99] 3; Some s.

(** Only the first byte of a string is checked to be in user space. *)
Lemma string_from_kernel_half :
  (s ← edge_mem; '(r, b, _) ← copy_user_cstr empty_pool (Some empty_map) s (replicate 8 0) 8 (USER_LIMIT - 1) 8; Some (r, b)) =
  Some (0, [97; 98; 99; 0; 0; 0; 0; 0]).
Proof. vm_compute. reflexivity. Qed.

Definition high_img : list Z := take 80 elf_img ++ le_bytes 8 (USER_LIMIT - PAGE_SIZE) ++ replicate 8 0 ++ le_bytes 8 4 ++ le_bytes 8 8192 ++ drop 112 elf_img.

(** A segment that starts below the end of user space is loaded into the half of the kernel. *)
Lemma segment_in_kernel_half :
  ('(e, v) ← elf_load high_img 124 (mk_vmst sample_s empty_pool empty_map);
   k ← amm_virt_to_kva (vt_mem v) (Some (vt_map v)) USER_LIMIT; Some (e, bool_decide (is_Some k))) = Some (0x400000, true).
Proof. vm_compute. reflexivity. Qed.

(** The bytes behind the name of the system are those that the stack of the kernel had. *)
Lemma uname_leaks_stack :
  ('(r, k) ← sys_uname demo_stack_bytes demo_kern 0x400000; '(_, b, _) ← k_from_user k (replicate 10 0) 0x400000 10; Some (r, b)) =
  Some (0, c_str "OpenASD" ++ [0; 0xAA; 0xAA]).
Proof. vm_compute. reflexivity. Qed.

(** The break is one variable for all processes: a process that never had a heap gets the break of another. *)
Lemma brk_of_another_process :
  fst <$> sys_brk (set_brk_cur demo_kern (BRK_BASE + 0x5000)) 0 = Some (BRK_BASE + 0x5000) /\
  amm_region_find user_pool user_map (BRK_BASE + 0x4000) = Some None.
Proof. split; vm_compute; reflexivity. Qed.

(** Process 6 waits for process 5: it gets the fault code, and its pid is 0 afterwards. *)
Lemma wait_returns_fault :
  ('(r, k) ← sys_exit 0 0 (set_ksched demo_kern (set_sc_reap_jmp (set_sc_reap_waiter user_sched (Some 6%nat)) true)) 0;
   '(r', k) ← sys_wait_finish demo_stack_bytes 0 k (5%nat, SCHED_BATCH, 0) 0x400000; pid ← sys_getpid k; Some (r, r', pid)) =
  Some (SysJmp, ESYS_FAULT, 0).
Proof. vm_compute. reflexivity. Qed.
