(* ===== verification/Adf.v ===== *)
(** * The driver framework (src/kernel/drv/adf.c, adf.h)

    Driver modules are relocatable ELF objects.  [read_file] reads one into a block of the
    heap, [elf_load] lays its sections out in a new block and applies the relocations, and
    [adf_load] enters the module in the table and calls the hooks of the driver.

    A block of the heap is the list of its bytes, a pointer into it an address.  An access
    outside the block is [None]; so is the use of a block that was freed.  A section or
    symbol header is read as a whole.  The hooks are code of the module: a parameter. *)

From Stdlib Require Import ZArith Lia.
From stdpp Require Import base strings gmap list.
From S2P Require Import Prelude KString Vfs.

Local Open Scope Z_scope.

Definition ET_REL : Z := 1.
Definition EM_X86_64 : Z := 62.
Definition SHT_PROGBITS : Z := 1.
Definition SHT_SYMTAB : Z := 2.
Definition SHT_RELA : Z := 4.
Definition SHT_NOBITS : Z := 8.
Definition R_X86_64_64 : Z := 1.
Definition R_X86_64_PC32 : Z := 2.
Definition R_X86_64_PLT32 : Z := 4.
Definition R_X86_64_32 : Z := 10.
Definition R_X86_64_32S : Z := 11.
Definition ADF_ENTRY_MAGIC : Z := 0xADF00001.
Definition ADF_META_MAGIC : Z := 0x4144464D45544131.
Definition ADF_NAME_LEN : nat := 64.
Definition MAX_MODULES : nat := 64.
Definition ADF_STATE_PROBING : Z := 0.
Definition ADF_STATE_ACTIVE : Z := 1.
Definition ADF_STATE_DETACHED : Z := 2.
(** [sh_vaddr] has this many entries. *)
Definition SEC_MAX : nat := 256.
(** [sizeof(adf_meta_t)], and the offsets of [name] and of the hooks. *)
Definition META_SIZE : nat := 256.
Definition META_NAME : Z := 16.
Definition DRV_PROBE : Z := 72.
Definition DRV_ATTACH : Z := 80.
Definition DRV_DETACH : Z := 88.

(** ** Headers *)

(** The fields that the loader reads. *)
Record Elf64_Shdr := mk_shdr {
  sh_name : Z;
  sh_type : Z;
  sh_offset : Z;
  sh_size : Z;
  sh_link : Z;
  sh_info : Z;
  sh_addralign : Z;
}.

Record Elf64_Sym := mk_sym { sym_name : Z; sym_shndx : Z; sym_value : Z }.

Record Elf64_Rela := mk_rela { r_offset : Z; r_info : Z; r_addend : Z }.

(** The integer of [n] bytes at offset [off] of a block. *)
Definition rd_blk (b : list Z) (off : Z) (n : nat) : option Z :=
  if (0 <=? off) && (off + Z.of_nat n <=? Z.of_nat (length b)) then Some (le_val (slice (Z.to_nat off) n b)) else None.

(** [shdrs[i]] of the table at [shoff]. *)
Definition shdr_at (elf : list Z) (shoff i : Z) : option Elf64_Shdr :=
  let o := shoff + 64 * i in
  name ← rd_blk elf o 4; type ← rd_blk elf (o + 4) 4; offset ← rd_blk elf (o + 24) 8; size ← rd_blk elf (o + 32) 8;
  link ← rd_blk elf (o + 40) 4; info ← rd_blk elf (o + 44) 4; align ← rd_blk elf (o + 48) 8;
  Some (mk_shdr name type offset size link info align).

Definition sym_at (elf : list Z) (symtab i : Z) : option Elf64_Sym :=
  let o := symtab + 24 * i in
  name ← rd_blk elf o 4; shndx ← rd_blk elf (o + 6) 2; value ← rd_blk elf (o + 8) 8;
  Some (mk_sym name shndx value).

Definition rela_at (elf : list Z) (relas j : Z) : option Elf64_Rela :=
  let o := relas + 24 * j in
  off ← rd_blk elf o 8; info ← rd_blk elf (o + 8) 8; addend ← rd_blk elf (o + 16) 8;
  Some (mk_rela off info (i64 addend)).

Definition ELF64_R_SYM (i : Z) : Z := Z.shiftr i 32.
Definition ELF64_R_TYPE (i : Z) : Z := Z.land i 0xFFFFFFFF.

(** The bytes of [elf] from a string's first character on. *)
Definition str_at (elf : list Z) (tab name : Z) : list Z := drop (Z.to_nat (tab + name)) elf.

(** ** Symbols of the kernel *)

Definition g_ksyms : list (list Z) :=
  map (fun s => c_str s ++ [0])
    ["asd_shmap"; "asd_shunmap"; "asd_port_open"; "asd_port_close"; "asd_port_send"; "asd_port_recv";
     "asd_time_ns"; "kmalloc"; "kfree"; "ringbuf_init"; "ringbuf_push"; "ringbuf_pop"]%string.

Fixpoint ksym_scan (syms : list (list Z)) (i : nat) (name : list Z) : option (option nat) :=
  match syms with
  | [] => Some None
  | s :: syms' => c ← strcmp s name; if c =? 0 then Some (Some i) else ksym_scan syms' (S i) name
  end.

(** The index of the symbol in the table. *)
Definition ksym_lookup (name : list Z) : option (option nat) := ksym_scan g_ksyms 0 name.

(** ** Layout of the sections *)

Definition is_loaded (sh : Elf64_Shdr) : bool := (sh_type sh =? SHT_PROGBITS) || (sh_type sh =? SHT_NOBITS).

(** [(x + a - 1) & ~(a - 1)] *)
Definition sec_align (x a : Z) : Z := Z.ldiff (u64 (x + a - 1)) (u64 (a - 1)).

(** Pass 1: the size of the image. *)
Fixpoint image_size (shdrs : list Elf64_Shdr) (total : Z) : Z :=
  match shdrs with
  | [] => total
  | sh :: shdrs' =>
      if negb (is_loaded sh) then image_size shdrs' total
      else image_size shdrs' (u64 (sec_align total (sh_addralign sh) + sh_size sh))
  end.

(** Pass 2: the sections from number [i] on are copied to their places; [vaddr] is [sh_vaddr]. *)
Fixpoint place_sections (elf : list Z) (base : Z) (shdrs : list Elf64_Shdr) (i : nat) (cursor : Z)
    (image vaddr : list Z) : option (list Z * list Z) :=
  match shdrs with
  | [] => Some (image, vaddr)
  | sh :: shdrs' =>
      if negb (is_loaded sh) then place_sections elf base shdrs' (S i) cursor image vaddr
      else
        let cursor := sec_align cursor (sh_addralign sh) in
        let vaddr := <[i := u64 (base + cursor)]> vaddr in
        image ← (if sh_type sh =? SHT_PROGBITS
                 then memcpy_obj image (Z.to_nat cursor) (drop (Z.to_nat (sh_offset sh)) elf) (Z.to_nat (sh_size sh))
                 else Some image);
        place_sections elf base shdrs' (S i) (u64 (cursor + sh_size sh)) image vaddr
  end.

(** ** Symbol table, manifest and entry *)

(** [symtab], [sym_count] and [strtab]. *)
Record symtab_t := mk_symtab { sy_tab : Z; sy_count : Z; sy_str : Z }.

(** Pass 3: the last symbol table and the address of the last section named [.adfmeta], 0 if there is none. *)
Fixpoint find_sections (elf : list Z) (shoff shstrtab : Z) (vaddr : list Z) (shdrs : list Elf64_Shdr) (i : nat)
    (tab : option symtab_t) (meta : Z) : option (option symtab_t * Z) :=
  match shdrs with
  | [] => Some (tab, meta)
  | sh :: shdrs' =>
      tab ← (if sh_type sh =? SHT_SYMTAB then
               l ← shdr_at elf shoff (sh_link sh);
               Some (Some (mk_symtab (sh_offset sh) (sh_size sh / 24) (sh_offset l)))
             else Some tab);
      c ← strcmp (str_at elf shstrtab (sh_name sh)) (c_str ".adfmeta" ++ [0]);
      meta ← (if c =? 0 then vaddr !! i else Some meta);
      find_sections elf shoff shstrtab vaddr shdrs' (S i) tab meta
  end.

(** The address of section [shidx] of the image; 0 if it has none. *)
Definition sec_addr (vaddr : list Z) (shidx : Z) : Z := default 0 (vaddr !! Z.to_nat shidx).

(** The [n] symbols from number [i] on: the address of the last [adf_entry] with a section. *)
Fixpoint find_entry (elf : list Z) (t : symtab_t) (vaddr : list Z) (i : Z) (n : nat) (entry : Z) : option Z :=
  match n with
  | O => Some entry
  | S n' =>
      sym ← sym_at elf (sy_tab t) i;
      c ← strcmp (str_at elf (sy_str t) (sym_name sym)) (c_str "adf_entry" ++ [0]);
      let a := sec_addr vaddr (sym_shndx sym) in
      find_entry elf t vaddr (i + 1) n' (if (c =? 0) && negb (a =? 0) then u64 (a + sym_value sym) else entry)
  end.

(** ** Relocations *)

Section relocate.
Context (ksym_addr : nat -> Z).

(** The value [S]; [Some None] is a symbol that the kernel does not have. *)
Definition symbol_value (elf : list Z) (t : symtab_t) (vaddr : list Z) (sym_idx : Z) : option (option Z) :=
  if sym_idx <? sy_count t then
    sym ← sym_at elf (sy_tab t) sym_idx;
    if sym_shndx sym =? 0 then
      k ← ksym_lookup (str_at elf (sy_str t) (sym_name sym));
      Some (option_map ksym_addr k)
    else
      let a := sec_addr vaddr (sym_shndx sym) in
      Some (Some (if a =? 0 then 0 else u64 (a + sym_value sym)))
  else Some (Some 0).

(** The bytes that a relocation stores at address [P]; [Some None] is an unknown type. *)
Definition reloc_bytes (rtype S A P : Z) : option (option (list Z)) :=
  if rtype =? R_X86_64_64 then Some (Some (le_bytes 8 (u64 (S + A))))
  else if (rtype =? R_X86_64_PC32) || (rtype =? R_X86_64_PLT32) then Some (Some (le_bytes 4 (u32 (S + A - P))))
  else if rtype =? R_X86_64_32 then Some (Some (le_bytes 4 (u32 (S + A))))
  else if rtype =? R_X86_64_32S then v ← add_i64 (i64 S) A; Some (Some (le_bytes 4 (u32 v)))
  else Some None.

(** Stores [bs] at address [loc] of the image, which starts at [base]. *)
Definition patch (base : Z) (image : list Z) (loc : Z) (bs : list Z) : option (list Z) :=
  if base <=? loc then memcpy_obj image (Z.to_nat (loc - base)) bs (length bs) else None.

(** The [n] entries from number [j] on of the table at [relas], for the section at [target];
    [Some None] is the return of -1. *)
Fixpoint reloc_loop (elf : list Z) (t : symtab_t) (vaddr : list Z) (base target relas j : Z) (n : nat) (image : list Z)
    : option (option (list Z)) :=
  match n with
  | O => Some (Some image)
  | S n' =>
      r ← rela_at elf relas j;
      s ← symbol_value elf t vaddr (u32 (ELF64_R_SYM (r_info r)));
      match s with
      | None => Some None
      | Some s =>
          let loc := u64 (target + r_offset r) in
          bs ← reloc_bytes (u32 (ELF64_R_TYPE (r_info r))) s (r_addend r) loc;
          match bs with
          | None => Some None
          | Some bs => image ← patch base image loc bs; reloc_loop elf t vaddr base target relas (j + 1) n' image
          end
      end
  end.

(** Pass 4. *)
Fixpoint relocate (elf : list Z) (t : symtab_t) (vaddr : list Z) (base : Z) (shdrs : list Elf64_Shdr) (image : list Z)
    : option (option (list Z)) :=
  match shdrs with
  | [] => Some (Some image)
  | sh :: shdrs' =>
      let target := sec_addr vaddr (u16 (sh_info sh)) in
      if negb (sh_type sh =? SHT_RELA) || (target =? 0) then relocate elf t vaddr base shdrs' image
      else
        r ← reloc_loop elf t vaddr base target (sh_offset sh) 0 (Z.to_nat (sh_size sh / 24)) image;
        match r with
        | None => Some None
        | Some image => relocate elf t vaddr base shdrs' image
        end
  end.

(** The tests of the file header that return -1. *)
Definition rel_header_ok (elf : list Z) : option bool :=
  type ← rd_blk elf 16 2; machine ← rd_blk elf 18 2;
  Some (bool_decide (take 4 elf = [0x7f; 0x45; 0x4c; 0x46]) && (type =? ET_REL) && (machine =? EM_X86_64)).

Definition shdr_table (elf : list Z) (shoff shnum : Z) : option (list Elf64_Shdr) :=
  mapM (shdr_at elf shoff) (seqZ 0 shnum).

(** A module in memory: its block, and the addresses of its entry and of its manifest. *)
Record loaded_t := mk_loaded { ld_base : Z; ld_size : Z; ld_image : list Z; ld_entry : Z; ld_meta : Z }.

(** Passes 3 and 4; when they give up, the block is freed. *)
Definition link_image (elf : list Z) (shoff shstrtab base total : Z) (shdrs : list Elf64_Shdr) (image vaddr : list Z)
    : option (option loaded_t) :=
  '(tab, meta) ← find_sections elf shoff shstrtab vaddr shdrs 0 None 0;
  match tab with
  | None => Some None
  | Some t =>
      if meta =? 0 then Some None
      else
        magic ← rd_blk image (meta - base) 8;
        if negb (magic =? ADF_META_MAGIC) then Some None
        else
          entry ← find_entry elf t vaddr 0 (Z.to_nat (sy_count t)) 0;
          if entry =? 0 then Some None
          else
            magic ← rd_blk image (entry - base) 4;
            if negb (magic =? ADF_ENTRY_MAGIC) then Some None
            else
              r ← relocate elf t vaddr base shdrs image;
              Some (option_map (fun image => mk_loaded base total image entry meta) r)
  end.

(** [kmalloc] gives the address and the bytes of a block.  [Some None] is the return of -1. *)
Definition elf_load (kmalloc : Z -> option (Z * list Z)) (elf : list Z) (elf_size : Z) : option (option loaded_t) :=
  if elf_size <? 64 then Some None
  else
    ok ← rel_header_ok elf;
    if negb ok then Some None
    else
      shoff ← rd_blk elf 40 8; shnum ← rd_blk elf 60 2; shstrndx ← rd_blk elf 62 2;
      str ← shdr_at elf shoff shstrndx;
      shdrs ← shdr_table elf shoff shnum;
      let total := image_size shdrs 0 in
      match kmalloc total with
      | None => Some None
      | Some (base, block) =>
          image ← memset block 0 0 (Z.to_nat total);
          '(image, vaddr) ← place_sections elf base (take SEC_MAX shdrs) 0 0 image (replicate SEC_MAX 0);
          link_image elf shoff (sh_offset str) base total shdrs image vaddr
      end.

End relocate.

(** ** The module table *)

Record adf_dev_t := mk_dev {
  dv_mod_id : Z;
  dv_bus_type : Z;
  dv_bus_addr : Z;
  dv_rx_ring_va : Z;
  dv_tx_ring_va : Z;
  dv_ctrl_shm_va : Z;
  dv_ctrl_port : Z;
  dv_priv : Z;
  dv_entry : Z;
  dv_name : list Z;
  dv_state : Z;
}.

Record module_t := mk_module {
  md_id : Z;
  md_base : Z;
  md_size : Z;
  md_dev : adf_dev_t;
  md_meta : list Z;
}.

Definition zero_adf_dev : adf_dev_t := mk_dev 0 0 0 0 0 0 0 0 0 (replicate ADF_NAME_LEN 0) 0.
Definition zero_module : module_t := mk_module 0 0 0 zero_adf_dev (replicate META_SIZE 0).

Definition set_dev_state (d : adf_dev_t) (s : Z) : adf_dev_t :=
  mk_dev (dv_mod_id d) (dv_bus_type d) (dv_bus_addr d) (dv_rx_ring_va d) (dv_tx_ring_va d) (dv_ctrl_shm_va d)
    (dv_ctrl_port d) (dv_priv d) (dv_entry d) (dv_name d) s.
Definition set_md_dev (m : module_t) (d : adf_dev_t) : module_t := mk_module (md_id m) (md_base m) (md_size m) d (md_meta m).

Section adf.
Context {W B : Type}.

(** [ad_heap] has the blocks of the heap that are allocated, by address. *)
Record adf_st := mk_adf {
  ad_modules : list module_t;
  ad_next : Z;
  ad_heap : gmap Z (list Z);
  ad_vfs : vfs_st W B;
}.

Definition set_modules (st : adf_st) (v : list module_t) : adf_st := mk_adf v (ad_next st) (ad_heap st) (ad_vfs st).
Definition set_heap (st : adf_st) (v : gmap Z (list Z)) : adf_st := mk_adf (ad_modules st) (ad_next st) v (ad_vfs st).
Definition set_avfs (st : adf_st) (v : vfs_st W B) : adf_st := mk_adf (ad_modules st) (ad_next st) (ad_heap st) v.

(** [kmalloc] gives a block and its bytes; [hook f st i] calls the function at address [f] with the
    device of slot [i]; [junk_stat] is the contents of the uninitialised [info]. *)
Context (kmalloc : adf_st -> Z -> option (Z * list Z)) (hook : Z -> adf_st -> nat -> option (Z * adf_st))
  (ksym_addr : nat -> Z) (junk_stat : stat_info_t).

Definition adf_init (st : adf_st) : adf_st := mk_adf (replicate MAX_MODULES zero_module) 1 (ad_heap st) (ad_vfs st).

(** [kfree] of a block; of a pointer that is not a block it is undefined. *)
Definition heap_free (st : adf_st) (p : Z) : option adf_st :=
  if p =? 0 then Some st else _ ← ad_heap st !! p; Some (set_heap st (delete p (ad_heap st))).

(** [while (total < sz)] of [read_file]; [got] keeps its value. *)
Fixpoint read_all (fuel : nat) (v : vfs_st W B) (fd : Z) (buf : list Z) (sz total got : Z) : option (Z * list Z * vfs_st W B) :=
  if total <? sz then
    match fuel with
    | O => None
    | S fuel' =>
        '(r, b, got, v) ← vfs_read v fd (Some (drop (Z.to_nat total) buf)) (sz - total) (Some got);
        b ← b; got ← got;
        let buf := take (Z.to_nat total) buf ++ b in
        if negb (r =? 0) || (got =? 0) then Some (total, buf, v) else read_all fuel' v fd buf sz (total + got) got
    end
  else Some (total, buf, v).

(** The address of the buffer and the number of bytes read; [None] inside is the return of -1. *)
Definition read_file (st : adf_st) (path : list Z) : option (option (Z * Z) * adf_st) :=
  '(fd, v) ← vfs_open (ad_vfs st) (Some path) VFS_O_READ None;
  let st := set_avfs st v in
  if (fd =? 0) || (i32 fd <? 0) then Some (None, st)
  else
    '(r, info, v) ← vfs_stat v (Some path) (Some junk_stat);
    info ← info;
    let st := set_avfs st v in
    if negb (r =? 0) || (st_size info <=? 0) then '(_, v) ← vfs_close v fd; Some (None, set_avfs st v)
    else
      match kmalloc st (st_size info) with
      | None => '(_, v) ← vfs_close v fd; Some (None, set_avfs st v)
      | Some (p, buf) =>
          '(total, buf, v) ← read_all (Z.to_nat (st_size info)) v fd buf (st_size info) 0 0;
          '(_, v) ← vfs_close v fd;
          let st := set_avfs (set_heap st (<[p := buf]> (ad_heap st))) v in
          if total =? 0 then st ← heap_free st p; Some (None, st) else Some (Some (p, total), st)
      end.

(** Calls the hook whose pointer is at offset [o] of the driver structure at [entry], in the block at [base]. *)
Definition hook_ptr (st : adf_st) (base entry o : Z) : option Z :=
  b ← ad_heap st !! base; rd_blk b (entry - base + o) 8.

Definition call_hook (st : adf_st) (base entry o : Z) (i : nat) : option (Z * adf_st) :=
  f ← hook_ptr st base entry o; if f =? 0 then None else hook f st i.

Definition upd_dev (st : adf_st) (i : nat) (f : adf_dev_t -> adf_dev_t) : option adf_st :=
  m ← ad_modules st !! i; Some (set_modules st (<[i := set_md_dev m (f (md_dev m))]> (ad_modules st))).

(** [if (entry && entry->detach) entry->detach(dev)] *)
Definition call_detach (st : adf_st) (base entry : Z) (i : nat) : option adf_st :=
  if entry =? 0 then Some st
  else
    f ← hook_ptr st base entry DRV_DETACH;
    if f =? 0 then Some st else '(_, st) ← hook f st i; Some st.

Definition adf_unload (st : adf_st) (mod_id : Z) : option (Z * adf_st) :=
  match find_idx (fun m => md_id m =? mod_id) (ad_modules st) with
  | None => Some (-1, st)
  | Some i =>
      m ← ad_modules st !! i;
      st ← upd_dev st i (fun d => set_dev_state d ADF_STATE_DETACHED);
      st ← call_detach st (md_base m) (dv_entry (md_dev m)) i;
      m ← ad_modules st !! i;
      st ← heap_free st (md_base m);
      Some (0, set_modules st (<[i := mk_module 0 0 (md_size m) (md_dev m) (md_meta m)]> (ad_modules st)))
  end.

(** The slot of a new module. *)
Definition new_module (mid : Z) (l : loaded_t) : option module_t :=
  let o := ld_meta l - ld_base l in
  if (0 <=? o) && (o + Z.of_nat META_SIZE <=? Z.of_nat (length (ld_image l))) then
    name ← strncpy (replicate ADF_NAME_LEN 0) (drop (Z.to_nat (o + META_NAME)) (ld_image l)) (ADF_NAME_LEN - 1);
    Some (mk_module mid (ld_base l) (ld_size l)
      (mk_dev mid 0 0 0 0 0 0 0 (ld_entry l) name ADF_STATE_PROBING) (slice (Z.to_nat o) META_SIZE (ld_image l)))
  else None.

(** Probes and attaches the module in slot [i]; the id, or 0. *)
Definition start_driver (st : adf_st) (mid base entry : Z) (i : nat) : option (Z * adf_st) :=
  '(r, st) ← call_hook st base entry DRV_PROBE i;
  if negb (r =? 0) then '(_, st) ← adf_unload st mid; Some (0, st)
  else
    st ← upd_dev st i (fun d => set_dev_state d ADF_STATE_ACTIVE);
    '(r, st) ← call_hook st base entry DRV_ATTACH i;
    if negb (r =? 0) then
      '(_, st) ← call_hook st base entry DRV_DETACH i;
      '(_, st) ← adf_unload st mid;
      Some (0, st)
    else Some (mid, st).

(** Enters a module in the table and starts its driver. *)
Definition add_module (st : adf_st) (l : loaded_t) : option (Z * adf_st) :=
  match find_idx (fun m => md_id m =? 0) (ad_modules st) with
  | None => st ← heap_free st (ld_base l); Some (0, st)
  | Some i =>
      let mid := ad_next st in
      m ← new_module mid l;
      let st := mk_adf (<[i := m]> (ad_modules st)) (u32 (mid + 1)) (ad_heap st) (ad_vfs st) in
      start_driver st mid (ld_base l) (ld_entry l) i
  end.

Definition adf_load (st : adf_st) (path : list Z) : option (Z * adf_st) :=
  '(f, st) ← read_file st path;
  match f with
  | None => Some (0, st)
  | Some (p, elf_size) =>
      elf ← ad_heap st !! p;
      r ← elf_load ksym_addr (kmalloc st) elf elf_size;
      match r with
      | None => st ← heap_free st p; Some (0, st)
      | Some l => st ← heap_free (set_heap st (<[ld_base l := ld_image l]> (ad_heap st))) p; add_module st l
      end
  end.

(** The slot of the first module with this name, from number [i] on. *)
Fixpoint find_module (ms : list module_t) (i : nat) (name : list Z) : option (option nat) :=
  match ms with
  | [] => Some None
  | m :: ms' =>
      if md_id m =? 0 then find_module ms' (S i) name
      else
        c ← strncmp (dv_name (md_dev m)) name ADF_NAME_LEN;
        if c =? 0 then Some (Some i) else find_module ms' (S i) name
  end.

Definition adf_find (st : adf_st) (name : list Z) : option (option nat) := find_module (ad_modules st) 0 name.

(** [n] slots from number [i] on are left; the callback gets the slot of the device. *)
Fixpoint foreach_loop (cb : adf_st -> nat -> option adf_st) (st : adf_st) (i n : nat) : option adf_st :=
  match n with
  | O => Some st
  | S n' =>
      m ← ad_modules st !! i;
      st ← (if md_id m =? 0 then Some st else cb st i);
      foreach_loop cb st (S i) n'
  end.

Definition adf_foreach (cb : adf_st -> nat -> option adf_st) (st : adf_st) : option adf_st :=
  foreach_loop cb st 0 MAX_MODULES.

End adf.

Arguments adf_st : clear implicits.
