(* ===== verification/AdfSpec.v ===== *)
(** * Driver modules: properties

    The sections of a module lie in its block one behind the other, aligned, with the contents
    of the file; relocation stores every field and nothing else; the table of modules owns the
    blocks of the modules that are loaded. *)

From Stdlib Require Import ZArith Lia.
From stdpp Require Import base strings sets gmap list.
From S2P Require Import Prelude KString Vfs Adf.

Local Open Scope Z_scope.

(** ** Layout of the sections *)

Definition align_to (x a : Z) : Z := (x + a - 1) / a * a.

(** The offset of every section that is loaded, from [cursor] on, and the end of the last one. *)
Fixpoint layout (shdrs : list Elf64_Shdr) (cursor : Z) : list (option Z) :=
  match shdrs with
  | [] => []
  | sh :: shdrs' =>
      if is_loaded sh then
        let o := align_to cursor (sh_addralign sh) in Some o :: layout shdrs' (o + sh_size sh)
      else None :: layout shdrs' cursor
  end.

Fixpoint layout_end (shdrs : list Elf64_Shdr) (cursor : Z) : Z :=
  match shdrs with
  | [] => cursor
  | sh :: shdrs' =>
      if is_loaded sh then layout_end shdrs' (align_to cursor (sh_addralign sh) + sh_size sh)
      else layout_end shdrs' cursor
  end.

(** A section as the format prescribes: the alignment is a power of two, the contents are in the file. *)
Definition sec_ok (elf : list Z) (sh : Elf64_Shdr) : Prop :=
  is_loaded sh = true ->
  (exists k, 0 <= k < 64 /\ sh_addralign sh = 2 ^ k) /\ 0 <= sh_size sh /\ 0 <= sh_offset sh /\
  (sh_type sh = SHT_PROGBITS -> sh_offset sh + sh_size sh <= Z.of_nat (length elf)).

Lemma align_to_bounds x a : 0 < a -> x <= align_to x a < x + a /\ (a | align_to x a).
Proof.
  intros Ha. unfold align_to. pose proof (Z.div_mod (x + a - 1) a ltac:(lia)).
  pose proof (Z.mod_pos_bound (x + a - 1) a Ha). split; [lia|apply Z.divide_factor_r].
Qed.

Lemma sec_align_pow2 x k : 0 <= k < 64 -> 0 <= x -> x + 2 ^ k - 1 < 2 ^ 64 -> sec_align x (2 ^ k) = align_to x (2 ^ k).
Proof.
  intros Hk Hx Hb. pose proof (Z.pow_pos_nonneg 2 k ltac:(lia) ltac:(lia)) as Hp.
  unfold sec_align, align_to. rewrite !u64_small by lia. replace (2 ^ k - 1) with (Z.ones k) by (rewrite Z.ones_equiv; lia).
  rewrite Z.ldiff_ones_r, Z.shiftl_mul_pow2, Z.shiftr_div_pow2 by lia. done.
Qed.

Section layout.
Context (elf : list Z).

Lemma sec_align_pos sh : sec_ok elf sh -> is_loaded sh = true -> 0 < sh_addralign sh.
Proof. intros H Hl. destruct (H Hl) as [(k & Hk & ->) _]. apply Z.pow_pos_nonneg; lia. Qed.

Lemma layout_end_ge shdrs : forall c, Forall (sec_ok elf) shdrs -> c <= layout_end shdrs c.
Proof.
  induction shdrs as [|sh shdrs IH]; intros c H; simpl; [lia|]. apply Forall_cons in H as [Hs H].
  destruct (is_loaded sh) eqn:E; [|by apply IH]. pose proof (sec_align_pos _ Hs E) as Ha.
  destruct (align_to_bounds c _ Ha) as [Hb _]. destruct (Hs E) as (_ & Hsz & _).
  specialize (IH (align_to c (sh_addralign sh) + sh_size sh) H). lia.
Qed.

(** Behind [c] the code computes the same place as the specification. *)
Lemma next_place sh shdrs c :
  sec_ok elf sh -> Forall (sec_ok elf) shdrs -> is_loaded sh = true -> 0 <= c -> layout_end (sh :: shdrs) c < 2 ^ 63 ->
  sec_align c (sh_addralign sh) = align_to c (sh_addralign sh) /\
  u64 (align_to c (sh_addralign sh) + sh_size sh) = align_to c (sh_addralign sh) + sh_size sh.
Proof.
  intros Hs H E Hc Hend. simpl in Hend. rewrite E in Hend. pose proof (sec_align_pos _ Hs E) as Ha.
  destruct (align_to_bounds c _ Ha) as [Hb [q Hq]]. destruct (Hs E) as ((k & Hk & Hal) & Hsz & _).
  pose proof (layout_end_ge shdrs (align_to c (sh_addralign sh) + sh_size sh) H) as Hge.
  assert (2 ^ k <= 2 ^ 63) as Hpk by (apply Z.pow_le_mono_r; lia).
  split; [|apply u64_small; lia]. rewrite Hal. apply sec_align_pow2; [done..|].
  rewrite Hal in *. lia.
Qed.

Lemma image_size_layout shdrs : forall c,
  Forall (sec_ok elf) shdrs -> 0 <= c -> layout_end shdrs c < 2 ^ 63 -> image_size shdrs c = layout_end shdrs c.
Proof.
  induction shdrs as [|sh shdrs IH]; intros c H Hc Hend; [done|]. apply Forall_cons in H as [Hs H].
  simpl. destruct (is_loaded sh) eqn:E; simpl; [|apply IH; [done..|]; simpl in Hend; by rewrite E in Hend].
  destruct (next_place sh shdrs c Hs H E Hc Hend) as [-> ->]. simpl in Hend. rewrite E in Hend.
  destruct (align_to_bounds c _ (sec_align_pos _ Hs E)) as [Hb _]. destruct (Hs E) as (_ & Hsz & _).
  apply IH; [done|lia|done].
Qed.

Lemma length_layout shdrs : forall c, length (layout shdrs c) = length shdrs.
Proof. induction shdrs as [|sh shdrs IH]; intros c; simpl; [done|]. destruct (is_loaded sh); simpl; by rewrite IH. Qed.

Lemma layout_loaded shdrs : forall c i sh, shdrs !! i = Some sh ->
  (is_loaded sh = true /\ exists o, layout shdrs c !! i = Some (Some o)) \/ (is_loaded sh = false /\ layout shdrs c !! i = Some None).
Proof.
  induction shdrs as [|s shdrs IH]; intros c i sh Hi; [done|]. simpl. destruct i as [|i], (is_loaded s) eqn:E; simplify_eq/=; eauto.
Qed.

(** The places are in order and in range. *)
Lemma layout_bounds shdrs : forall c j sh o, Forall (sec_ok elf) shdrs -> shdrs !! j = Some sh -> layout shdrs c !! j = Some (Some o) ->
  c <= o /\ o + sh_size sh <= layout_end shdrs c /\ (sh_addralign sh | o).
Proof.
  induction shdrs as [|s shdrs IH]; intros c j sh o H Hj Ho; [done|]. apply Forall_cons in H as [Hs H].
  simpl in Ho |- *. destruct (is_loaded s) eqn:E.
  - destruct (align_to_bounds c _ (sec_align_pos _ Hs E)) as [Hb Hd]. destruct (Hs E) as (_ & Hsz & _).
    destruct j as [|j]; simplify_eq/=.
    + pose proof (layout_end_ge shdrs (align_to c (sh_addralign sh) + sh_size sh) H). split_and!; [lia|lia|done].
    + destruct (IH _ _ _ _ H Hj Ho) as (? & ? & ?). split_and!; [lia|lia|done].
  - destruct j as [|j]; simplify_eq/=. by eapply IH.
Qed.

Lemma layout_ordered shdrs : forall c j k sh o p, Forall (sec_ok elf) shdrs -> (j < k)%nat -> shdrs !! j = Some sh ->
  layout shdrs c !! j = Some (Some o) -> layout shdrs c !! k = Some (Some p) -> o + sh_size sh <= p.
Proof.
  induction shdrs as [|s shdrs IH]; intros c j k sh o p H Hjk Hj Ho Hp; [done|]. apply Forall_cons in H as [Hs H].
  destruct k as [|k]; [lia|]. destruct (lookup_lt_is_Some_2 shdrs k) as [s' Hk].
  { apply lookup_lt_Some in Hp. rewrite length_layout in Hp. simpl in Hp. lia. }
  simpl in Ho, Hp. destruct (is_loaded s) eqn:E; destruct j as [|j]; simplify_eq/=.
  - by destruct (layout_bounds _ _ _ _ _ H Hk Hp) as [? _].
  - eapply IH; [done| |done..]. lia.
  - eapply IH; [done| |done..]. lia.
Qed.

(** What a section holds once it is loaded. *)
Definition sec_contents (sh : Elf64_Shdr) : list Z :=
  if sh_type sh =? SHT_PROGBITS then slice (Z.to_nat (sh_offset sh)) (Z.to_nat (sh_size sh)) elf
  else replicate (Z.to_nat (sh_size sh)) 0.

Definition placed (base : Z) (shdrs : list Elf64_Shdr) (i : nat) (c : Z) (image vaddr : list Z) : Prop :=
  forall j sh, shdrs !! j = Some sh ->
  match layout shdrs c !! j with
  | Some (Some o) =>
      vaddr !! (i + j)%nat = Some (base + o) /\ slice (Z.to_nat o) (Z.to_nat (sh_size sh)) image = sec_contents sh
  | _ => vaddr !! (i + j)%nat = Some 0
  end.

(** The bytes from [c] on are zero. *)
Definition clear_from (c : Z) (image : list Z) : Prop := forall a b, c <= Z.of_nat a -> image !! a = Some b -> b = 0.

Lemma length_sec_contents sh : sec_ok elf sh -> is_loaded sh = true -> length (sec_contents sh) = Z.to_nat (sh_size sh).
Proof.
  intros Hs E. destruct (Hs E) as (_ & Hsz & Ho & Hf). unfold sec_contents. bool_cases; [|apply length_replicate].
  apply length_slice. specialize (Hf ltac:(done)). lia.
Qed.

(** Loading a section stores its contents at its place. *)
Lemma copy_section sh image o c :
  sec_ok elf sh -> is_loaded sh = true -> 0 <= c <= o -> o + sh_size sh <= Z.of_nat (length image) -> clear_from c image ->
  (if sh_type sh =? SHT_PROGBITS
   then memcpy_obj image (Z.to_nat o) (drop (Z.to_nat (sh_offset sh)) elf) (Z.to_nat (sh_size sh))
   else Some image) = Some (list_inserts (Z.to_nat o) (sec_contents sh) image).
Proof.
  intros Hs E Hc Hend Hz. pose proof (length_sec_contents sh Hs E) as Hl. destruct (Hs E) as (_ & Hsz & Ho & Hf).
  unfold sec_contents in *. bool_cases.
  - specialize (Hf ltac:(done)). rewrite memcpy_obj_spec; [done|lia|]. rewrite length_drop. lia.
  - f_equal. apply list_eq. intros a. destruct (decide (Z.to_nat o <= a < Z.to_nat o + Z.to_nat (sh_size sh))%nat) as [Ha|Ha].
    + rewrite list_lookup_inserts by (rewrite ?length_replicate; lia). rewrite lookup_replicate_2 by lia.
      destruct (image !! a) eqn:Ea; [f_equal; eapply Hz; [|done]; lia|]. apply lookup_ge_None in Ea. lia.
    + symmetry. destruct (decide (a < Z.to_nat o)%nat); [apply list_lookup_inserts_lt|apply list_lookup_inserts_ge]; rewrite ?length_replicate; lia.
Qed.

Lemma place_sections_ok base shdrs : forall i c image vaddr,
  Forall (sec_ok elf) shdrs -> 0 <= c -> 0 < base -> layout_end shdrs c < 2 ^ 63 -> base + layout_end shdrs c <= 2 ^ 64 - 1 ->
  layout_end shdrs c <= Z.of_nat (length image) -> clear_from c image ->
  (i + length shdrs <= length vaddr)%nat -> (forall j, (i <= j < length vaddr)%nat -> vaddr !! j = Some 0) ->
  exists image' vaddr', place_sections elf base shdrs i c image vaddr = Some (image', vaddr') /\
    length image' = length image /\ length vaddr' = length vaddr /\ placed base shdrs i c image' vaddr' /\
    (forall a, Z.of_nat a < c -> image' !! a = image !! a) /\ (forall j, (j < i)%nat -> vaddr' !! j = vaddr !! j).
Proof.
  induction shdrs as [|sh shdrs IH]; intros i c image vaddr H Hc Hb Hend Hfit Hlen Hz Hi Hv.
  { exists image, vaddr. split_and!; try done. }
  apply Forall_cons in H as [Hs H]. simpl place_sections. simpl in Hi. destruct (is_loaded sh) eqn:E; simpl negb; cbn iota.
  - destruct (next_place sh shdrs c Hs H E Hc Hend) as [-> ->]. simpl in Hend, Hfit, Hlen. rewrite E in Hend, Hfit, Hlen.
    set (o := align_to c (sh_addralign sh)) in *. destruct (align_to_bounds c _ (sec_align_pos _ Hs E)) as [Hco _]. fold o in Hco.
    pose proof (layout_end_ge shdrs (o + sh_size sh) H) as Hge. destruct (Hs E) as (_ & Hsz & _).
    pose proof (length_sec_contents sh Hs E) as Hlc. rewrite (copy_section sh image o c) by (done || lia). cbn [mbind option_bind].
    rewrite (u64_small (base + o)) by lia.
    destruct (IH (S i) (o + sh_size sh) (list_inserts (Z.to_nat o) (sec_contents sh) image) (<[i := base + o]> vaddr))
      as (image' & vaddr' & -> & L1 & L2 & Hp & Hfr & Hfv); rewrite ?length_inserts, ?length_insert; try (done || lia).
    { intros a b Ha. rewrite list_lookup_inserts_ge by lia. apply Hz. lia. }
    { intros j Hj. rewrite list_lookup_insert_ne by lia. apply Hv. lia. }
    rewrite length_inserts in L1. rewrite length_insert in L2. exists image', vaddr'. split_and!; try done.
    + intros j s Hj. simpl. rewrite E. destruct j as [|j]; simplify_eq/=.
      * rewrite Nat.add_0_r, Hfv, list_lookup_insert_eq by lia. split; [done|]. fold o. rewrite <- Hlc.
        rewrite <- (slice_inserts_same (Z.to_nat o) (sec_contents s) image) at 2 by lia.
        apply list_eq. intros a. destruct (decide (a < length (sec_contents s))%nat);
          [rewrite !lookup_slice by done; apply Hfr; lia|unfold slice; by rewrite !lookup_take_ge by lia].
      * specialize (Hp j s Hj). by rewrite Nat.add_succ_r.
    + intros a Ha. rewrite Hfr by lia. apply list_lookup_inserts_lt. lia.
    + intros j Hj. rewrite Hfv by lia. apply list_lookup_insert_ne. lia.
  - simpl in Hend, Hfit, Hlen. rewrite E in Hend, Hfit, Hlen.
    destruct (IH (S i) c image vaddr) as (image' & vaddr' & -> & L1 & L2 & Hp & Hfr & Hfv); try (done || lia).
    { intros j Hj. apply Hv. lia. }
    exists image', vaddr'. split_and!; try done.
    + intros j s Hj. simpl. rewrite E. destruct j as [|j]; simplify_eq/=.
      * rewrite Nat.add_0_r, Hfv by lia. apply Hv. lia.
      * specialize (Hp j s Hj). by rewrite Nat.add_succ_r.
    + intros j Hj. apply Hfv. lia.
Qed.

End layout.

(** the layout of a module.  For sections as the format prescribes (the alignment is a power of two, the
    contents lie in the file) whose places end below 2^63, the first pass computes the size of
    the image, and the second one fills a cleared block of that size without leaving it: every
    loaded section has its own range, in order, at a multiple of its alignment from the start
    of the block, and holds the bytes of the file or zeros; the other sections have no address. *)
Theorem load_sections_ok elf base shdrs :
  Forall (sec_ok elf) shdrs -> (length shdrs <= SEC_MAX)%nat -> 0 < base ->
  layout_end shdrs 0 < 2 ^ 63 -> base + layout_end shdrs 0 < 2 ^ 64 ->
  exists image vaddr, let total := image_size shdrs 0 in
    place_sections elf base shdrs 0 0 (replicate (Z.to_nat total) 0) (replicate SEC_MAX 0) = Some (image, vaddr) /\
    length image = Z.to_nat total /\
    (forall i sh, shdrs !! i = Some sh ->
      if is_loaded sh then exists o, vaddr !! i = Some (base + o) /\ 0 <= o /\ o + sh_size sh <= total /\
        (sh_addralign sh | o) /\ slice (Z.to_nat o) (Z.to_nat (sh_size sh)) image = sec_contents elf sh
      else vaddr !! i = Some 0) /\
    (forall i j sh sh' a b, (i < j)%nat -> shdrs !! i = Some sh -> shdrs !! j = Some sh' ->
      is_loaded sh = true -> is_loaded sh' = true -> vaddr !! i = Some a -> vaddr !! j = Some b -> a + sh_size sh <= b).
Proof.
  intros H Hn Hb Hend Hfit. cbn zeta. rewrite (image_size_layout elf) by (done || lia).
  pose proof (layout_end_ge elf shdrs 0 H) as Hge.
  destruct (place_sections_ok elf base shdrs 0 0 (replicate (Z.to_nat (layout_end shdrs 0)) 0) (replicate SEC_MAX 0))
    as (image & vaddr & -> & L1 & L2 & Hp & _); rewrite ?length_replicate in *; try (done || lia).
  { intros a b _ [-> _]%lookup_replicate. done. }
  { intros j Hj. apply lookup_replicate_2. lia. }
  exists image, vaddr. split_and!; [done|lia| |].
  - intros i sh Hi. specialize (Hp i sh Hi). destruct (layout_loaded shdrs 0 i sh Hi) as [[-> [o Ho]]|[-> Ho]]; rewrite Ho in Hp; [|done].
    destruct Hp as [Hv Hc]. destruct (layout_bounds elf shdrs 0 i sh o H Hi Ho) as (? & ? & ?). exists o. by split_and!.
  - intros i j sh sh' a b Hij Hi Hj E E' Ha Hb'. pose proof (Hp i sh Hi) as Pi. pose proof (Hp j sh' Hj) as Pj.
    destruct (layout_loaded shdrs 0 i sh Hi) as [[_ [o Ho]]|[? _]]; [|congruence].
    destruct (layout_loaded shdrs 0 j sh' Hj) as [[_ [o' Ho']]|[? _]]; [|congruence].
    rewrite Ho in Pi. rewrite Ho' in Pj. destruct Pi as [Pi _], Pj as [Pj _]. simpl in *. simplify_eq.
    pose proof (layout_ordered elf shdrs 0 i j sh o o' H Hij Hi Ho Ho'). lia.
Qed.

(** ** Relocations *)

Section relocations.
Context (ksym_addr : nat -> Z) (elf : list Z) (t : symtab_t) (vaddr : list Z) (base : Z).

(** The field that an entry stores: its offset in the image, and its bytes. *)
Definition rela_field (target : Z) (r : Elf64_Rela) : option (nat * list Z) :=
  s ← symbol_value ksym_addr elf t vaddr (u32 (ELF64_R_SYM (r_info r))); s ← s;
  let loc := u64 (target + r_offset r) in
  bs ← reloc_bytes (u32 (ELF64_R_TYPE (r_info r))) s (r_addend r) loc; bs ← bs;
  if base <=? loc then Some (Z.to_nat (loc - base), bs) else None.

(** The fields of the entries of a section, and of all sections. *)
Definition section_fields (sh : Elf64_Shdr) : option (list (nat * list Z)) :=
  let target := sec_addr vaddr (u16 (sh_info sh)) in
  if negb (sh_type sh =? SHT_RELA) || (target =? 0) then Some []
  else mapM (fun j => r ← rela_at elf (sh_offset sh) j; rela_field target r) (seqZ 0 (sh_size sh / 24)).

Definition module_fields (shdrs : list Elf64_Shdr) : option (list (nat * list Z)) :=
  option_map (@concat _) (mapM section_fields shdrs).

Definition field_in (n : nat) (f : nat * list Z) : Prop := (f.1 + length f.2 <= n)%nat.

Definition store_fields (fs : list (nat * list Z)) (image : list Z) : list Z :=
  foldl (fun image f => list_inserts f.1 f.2 image) image fs.

Lemma length_store fs : forall image, length (store_fields fs image) = length image.
Proof. induction fs as [|f fs IH]; intros image; simpl; [done|]. by rewrite IH, length_inserts. Qed.

Lemma reloc_loop_fields target relas n : forall j fs image,
  mapM (fun j => r ← rela_at elf relas j; rela_field target r) (seqZ j (Z.of_nat n)) = Some fs ->
  Forall (field_in (length image)) fs ->
  reloc_loop ksym_addr elf t vaddr base target relas j n image = Some (Some (store_fields fs image)).
Proof.
  induction n as [|n IH]; intros j fs image Hfs Hin; [by injection Hfs as <-|].
  rewrite seqZ_cons in Hfs by lia. apply mapM_Some_1, Forall2_cons_inv_l in Hfs as (f & fs' & Hf & Hfs & ->).
  apply mapM_Some_2 in Hfs. replace (Z.pred (Z.of_nat (S n))) with (Z.of_nat n) in Hfs by lia. rewrite <- Z.add_1_r in Hfs.
  apply Forall_cons in Hin as [Hi Hin]. unfold field_in in Hi. cbn [reloc_loop store_fields foldl].
  apply bind_Some in Hf as (r & -> & Hf). cbn [mbind option_bind]. unfold rela_field in Hf.
  apply bind_Some in Hf as (s & -> & Hf). cbn [mbind option_bind]. apply bind_Some in Hf as (s' & -> & Hf). cbn [mbind option_bind].
  apply bind_Some in Hf as (b & -> & Hf). cbn [mbind option_bind]. apply bind_Some in Hf as (bs & -> & Hf). cbn [mbind option_bind].
  unfold patch. destruct (base <=? _); [|done]. injection Hf as <-. cbn [fst snd] in *.
  rewrite memcpy_obj_spec, firstn_all by lia. cbn [mbind option_bind].
  apply IH; [done|]. by rewrite length_inserts.
Qed.

Lemma store_app fs fs' image : store_fields (fs ++ fs') image = store_fields fs' (store_fields fs image).
Proof. apply foldl_app. Qed.

Lemma relocate_fields shdrs : forall fs image,
  module_fields shdrs = Some fs -> Forall (field_in (length image)) fs ->
  relocate ksym_addr elf t vaddr base shdrs image = Some (Some (store_fields fs image)).
Proof.
  unfold module_fields. induction shdrs as [|sh shdrs IH]; intros fs image Hfs Hin; [by injection Hfs as <-|].
  cbn [mapM] in Hfs. destruct (section_fields sh) as [f|] eqn:Ef; [|done]. cbn [mbind option_bind] in Hfs.
  destruct (mapM section_fields shdrs) as [fr|] eqn:Er; [|done]. cbn [mbind option_bind option_map] in Hfs. injection Hfs as <-.
  cbn [concat] in *. apply Forall_app in Hin as [Hi Hin]. cbn [relocate]. unfold section_fields in Ef.
  rewrite store_app. destruct (_ || _).
  - injection Ef as <-. by apply IH.
  - erewrite reloc_loop_fields; [|..|exact Hi].
    + cbn [mbind option_bind]. apply IH; [done|]. by rewrite length_store.
    + rewrite <- Ef. unfold seqZ. by rewrite Nat2Z.id.
Qed.

Definition fields_apart (fs : list (nat * list Z)) : Prop :=
  forall i j f g, (i < j)%nat -> fs !! i = Some f -> fs !! j = Some g ->
  (f.1 + length f.2 <= g.1)%nat \/ (g.1 + length g.2 <= f.1)%nat.

Lemma store_out fs a : forall image,
  (forall f, f ∈ fs -> (a < f.1 \/ f.1 + length f.2 <= a)%nat) -> store_fields fs image !! a = image !! a.
Proof.
  induction fs as [|f fs IH]; intros image H; simpl; [done|]. rewrite IH by (intros g Hg; apply H, elem_of_cons; by right).
  destruct (H f ltac:(apply elem_of_cons; by left)); [by apply list_lookup_inserts_lt|by apply list_lookup_inserts_ge].
Qed.

Lemma store_slice fs : forall image i f, fields_apart fs -> Forall (field_in (length image)) fs -> fs !! i = Some f ->
  slice f.1 (length f.2) (store_fields fs image) = f.2.
Proof.
  induction fs as [|g fs IH]; intros image i f Hd Hin Hi; [done|]. apply Forall_cons in Hin as [Hg Hin].
  unfold field_in in Hg. destruct i as [|i]; simplify_eq/=.
  - trans (slice f.1 (length f.2) (list_inserts f.1 f.2 image)); [|by apply slice_inserts_same]. apply list_eq. intros a.
    destruct (decide (a < length f.2)%nat); [|unfold slice; by rewrite !lookup_take_ge by lia].
    rewrite !lookup_slice by done. apply store_out. intros h [j Hj]%list_elem_of_lookup.
    destruct (Hd 0%nat (S j) f h ltac:(lia) eq_refl Hj); lia.
  - eapply IH; [|by rewrite length_inserts|done]. intros j k h h' Hjk Hj Hk. by apply (Hd (S j) (S k)); [lia|..].
Qed.

End relocations.


(** ** The module table *)

Section table.
Context {W B : Type}.

(** The id and the block of every slot. *)
Definition owners (st : adf_st W B) : list (Z * Z) := (fun m => (md_id m, md_base m)) <$> ad_modules st.

(** A free slot has no block.  Modules have ids and blocks of their own, and the blocks are allocated. *)
Record adf_inv (st : adf_st W B) : Prop := {
  adf_slots : length (owners st) = MAX_MODULES;
  adf_free : forall i p, owners st !! i = Some (0, p) -> p = 0;
  adf_used : forall i id p, owners st !! i = Some (id, p) -> id <> 0 -> 0 < id < ad_next st /\ p <> 0 /\ is_Some (ad_heap st !! p);
  adf_apart : forall i j id p id' p', owners st !! i = Some (id, p) -> owners st !! j = Some (id', p') ->
    id <> 0 -> id' <> 0 -> id = id' \/ p = p' -> i = j;
}.

(** What the framework relies on: a block that [kmalloc] gives is new, and a driver leaves the table,
    except for the fields of its device, and the blocks of the modules alone. *)
Class AdfEnv (kmalloc : adf_st W B -> Z -> option (Z * list Z)) (hook : Z -> adf_st W B -> nat -> option (Z * adf_st W B)) : Prop := {
  env_kmalloc : forall st n p b, kmalloc st n = Some (p, b) -> p <> 0 /\ ad_heap st !! p = None;
  env_hook : forall f st i r st', hook f st i = Some (r, st') ->
    owners st' = owners st /\ ad_next st' = ad_next st /\
    forall j id p, owners st !! j = Some (id, p) -> id <> 0 -> is_Some (ad_heap st !! p) -> is_Some (ad_heap st' !! p);
}.

(** The table is the same, and the blocks it owns still are allocated. *)
Definition table_kept (st st' : adf_st W B) : Prop :=
  owners st' = owners st /\ ad_next st' = ad_next st /\
  forall j id p, owners st !! j = Some (id, p) -> id <> 0 -> is_Some (ad_heap st !! p) -> is_Some (ad_heap st' !! p).

Lemma table_refl st : table_kept st st.
Proof. done. Qed.

Lemma table_trans st1 st2 st3 : table_kept st1 st2 -> table_kept st2 st3 -> table_kept st1 st3.
Proof.
  intros (O1 & N1 & H1) (O2 & N2 & H2). split_and!; [congruence..|]. intros j id p Hj Hid Hp.
  apply (H2 j id); [congruence|done|]. by apply (H1 j id).
Qed.

Lemma table_inv st st' : adf_inv st -> table_kept st st' -> adf_inv st'.
Proof.
  intros I (O & N & H). split; rewrite ?O, ?N; try apply I. intros i id p Hi Hid.
  destruct (adf_used st I i id p Hi Hid) as (? & ? & ?). split; [done|split; [done|]]. by eapply H.
Qed.

Lemma table_upd_dev st i f st' : upd_dev st i f = Some st' -> table_kept st st'.
Proof.
  unfold upd_dev. intros (m & Hm & [= <-])%bind_Some. split_and!; [|done..].
  unfold owners. simpl. rewrite list_fmap_insert. simpl. apply list_insert_id. by rewrite list_lookup_fmap, Hm.
Qed.

Section env.
Context (kmalloc : adf_st W B -> Z -> option (Z * list Z)) (hook : Z -> adf_st W B -> nat -> option (Z * adf_st W B)) `{!AdfEnv kmalloc hook}.
Context (ksym_addr : nat -> Z) (junk_stat : stat_info_t).

Lemma table_call_hook st base entry o i r st' : call_hook hook st base entry o i = Some (r, st') -> table_kept st st'.
Proof using AdfEnv0.
  unfold call_hook. intros (f & _ & Hf)%bind_Some. destruct (f =? 0); [done|]. by eapply env_hook.
Qed.

Lemma table_detach st base entry i st' : call_detach hook st base entry i = Some st' -> table_kept st st'.
Proof using AdfEnv0.
  unfold call_detach. destruct (entry =? 0); [by intros [= <-]|]. intros (f & _ & Hf)%bind_Some.
  destruct (f =? 0); [by injection Hf as <-|]. apply bind_Some in Hf as ([r st1] & Hf & [= <-]). by eapply env_hook.
Qed.

(** The slot that [adf_unload] finds. *)
Lemma find_owner st i id p : adf_inv st -> owners st !! i = Some (id, p) -> id <> 0 ->
  exists m, ad_modules st !! i = Some m /\ md_id m = id /\ md_base m = p /\
  find_idx (fun m => md_id m =? id) (ad_modules st) = Some i.
Proof.
  intros I Hi Hid. pose proof Hi as Hm. unfold owners in Hm. rewrite list_lookup_fmap in Hm.
  destruct (ad_modules st !! i) as [m|] eqn:Em; [|done]. injection Hm as Hm Hp. exists m. split_and!; [done..|].
  apply find_idx_Some. exists m. split_and!; [done|by apply Z.eqb_eq|]. intros j m' Hj Hm'. apply Z.eqb_neq. intros E.
  assert (owners st !! j = Some (id, md_base m')) as Hj' by (unfold owners; rewrite list_lookup_fmap, Hm'; simpl; by rewrite E).
  pose proof (adf_apart st I j i _ _ _ _ Hj' Hi Hid Hid (or_introl eq_refl)). lia.
Qed.

(** The table after a slot is freed. *)
Lemma inv_freed st st' i id p : adf_inv st -> owners st !! i = Some (id, p) -> id <> 0 ->
  owners st' = <[i := (0, 0)]> (owners st) -> ad_next st' = ad_next st -> ad_heap st' = delete p (ad_heap st) -> adf_inv st'.
Proof.
  intros I Hi Hid O N Hh. split; rewrite O, ?N, ?Hh.
  - rewrite length_insert. apply I.
  - intros j q [(<- & [= <-] & _)|[_ Hj]]%list_lookup_insert_Some; [done|by eapply adf_free].
  - intros j k q [(<- & [= <- <-] & _)|[Hne Hj]]%list_lookup_insert_Some Hk; [done|].
    destruct (adf_used st I j k q Hj Hk) as (? & ? & ?). split; [done|split; [done|]]. rewrite lookup_delete_ne; [done|].
    intros ->. apply Hne. by eapply adf_apart; [done|exact Hi|exact Hj|..|right].
  - intros j k a q a' q' [(<- & [= <- <-] & _)|[_ Hj]]%list_lookup_insert_Some
      [(<- & [= <- <-] & _)|[_ Hk]]%list_lookup_insert_Some; try done. by eapply adf_apart.
Qed.

(** Unloading a module calls its [detach] hook, frees its block and its slot and leaves the others. *)
Lemma adf_unload_ok st st1 i id p m d :
  adf_inv st -> owners st !! i = Some (id, p) -> id <> 0 -> ad_modules st !! i = Some m ->
  upd_dev st i (fun d => set_dev_state d ADF_STATE_DETACHED) = Some d ->
  call_detach hook d p (dv_entry (md_dev m)) i = Some st1 ->
  exists st', adf_unload hook st id = Some (0, st') /\ owners st' = <[i := (0, 0)]> (owners st) /\
    ad_next st' = ad_next st /\ ad_heap st' = delete p (ad_heap st1) /\ adf_inv st'.
Proof using AdfEnv0.
  intros I Hi Hid Hm Hd H1. destruct (find_owner st i id p I Hi Hid) as (m' & Hm' & _ & Hb & Hf). simplify_eq.
  pose proof (table_trans _ _ _ (table_upd_dev _ _ _ _ Hd) (table_detach _ _ _ _ _ H1)) as K.
  pose proof (table_inv _ _ I K) as I1. destruct K as (O & N & _). rewrite <- O in Hi.
  destruct (find_owner st1 i id _ I1 Hi Hid) as (m1 & Hm1 & _ & Hb1 & _).
  destruct (adf_used st1 I1 i id _ Hi Hid) as (_ & Hp0 & [blk Hblk]).
  unfold adf_unload. rewrite Hf, Hm. cbn [mbind option_bind]. rewrite Hd. cbn [mbind option_bind]. rewrite H1.
  cbn [mbind option_bind]. rewrite Hm1. cbn [mbind option_bind]. unfold heap_free. rewrite Hb1, Hblk.
  destruct (Z.eqb_spec (md_base m) 0) as [|_]; [done|]. cbn [mbind option_bind].
  eexists. split; [reflexivity|].
  match goal with |- owners ?s = _ /\ _ => assert (owners s = <[i := (0, 0)]> (owners st1)) as O' by (unfold owners; simpl; by rewrite list_fmap_insert) end.
  split_and!; [by rewrite O', O|done|done|]. by eapply (inv_freed st1).
Qed.

Lemma adf_unload_returned st r st' i id p :
  adf_inv st -> owners st !! i = Some (id, p) -> id <> 0 -> adf_unload hook st id = Some (r, st') ->
  owners st' = <[i := (0, 0)]> (owners st) /\ ad_next st' = ad_next st /\ adf_inv st'.
Proof using AdfEnv0.
  intros I Hi Hid H. destruct (find_owner st i id p I Hi Hid) as (m & Hm & _ & Hb & Hf).
  pose proof H as H'. unfold adf_unload in H'. rewrite Hf, Hm in H'. cbn [mbind option_bind] in H'.
  apply bind_Some in H' as (d & Hd & H'). apply bind_Some in H' as (st1 & H1 & _). rewrite Hb in H1.
  destruct (adf_unload_ok st st1 i id p m d I Hi Hid Hm Hd H1) as (st2 & E & O & N & _ & I2).
  rewrite E in H. by injection H as <- <-.
Qed.

Lemma start_driver_ok st mid base entry i r st' :
  adf_inv st -> owners st !! i = Some (mid, base) -> mid <> 0 -> start_driver hook st mid base entry i = Some (r, st') ->
  adf_inv st' /\ ad_next st' = ad_next st /\
  (r = 0 /\ owners st' = <[i := (0, 0)]> (owners st) \/ r = mid /\ owners st' = owners st).
Proof using AdfEnv0.
  intros I Hi Hm H. unfold start_driver in H. apply bind_Some in H as ([r1 st1] & H1 & H).
  assert (forall s u x s', table_kept st s -> adf_unload hook s mid = Some (u, s') -> Some (0, s') = Some (x, st') ->
    adf_inv st' /\ ad_next st' = ad_next st /\ (x = 0 /\ owners st' = <[i := (0, 0)]> (owners st))) as Hun.
  { intros s u x s' K Hu [= <- <-]. pose proof (table_inv _ _ I K) as Is. destruct K as (O & N & _). rewrite <- O in Hi.
    destruct (adf_unload_returned s u s' i mid base Is Hi Hm Hu) as (O' & N' & I'). split_and!; [done|congruence|done|congruence]. }
  pose proof (table_call_hook _ _ _ _ _ _ _ H1) as K1. destruct (r1 =? 0); cbn [negb] in H.
  - apply bind_Some in H as (st2 & H2 & H). apply bind_Some in H as ([r3 st3] & H3 & H).
    pose proof (table_trans _ _ _ K1 (table_trans _ _ _ (table_upd_dev _ _ _ _ H2) (table_call_hook _ _ _ _ _ _ _ H3))) as K3.
    destruct (r3 =? 0); cbn [negb] in H.
    + injection H as <- <-. split; [by eapply table_inv|]. destruct K3 as (O & N & _). split; [done|]. by right.
    + apply bind_Some in H as ([r4 st4] & H4 & H). apply bind_Some in H as ([r5 st5] & H5 & H).
      destruct (Hun st4 r5 r st5) as (? & ? & ? & ?); [|done..|by split_and!; [..|left]].
      eapply table_trans; [exact K3|]. by eapply table_call_hook.
  - apply bind_Some in H as ([r2 st2] & H2 & H). destruct (Hun st1 r2 r st2) as (? & ? & ? & ?); [done..|by split_and!; [..|left]].
Qed.

(** A block that no module owns. *)
Definition unowned (st : adf_st W B) (p : Z) : Prop := forall j id, owners st !! j = Some (id, p) -> id = 0.

Lemma unowned_new st p : adf_inv st -> ad_heap st !! p = None -> unowned st p.
Proof.
  intros I Hp j id Hj. destruct (Z.eq_dec id 0) as [|Hid]; [done|]. destruct (adf_used st I j id p Hj Hid) as (_ & _ & [? ?]). congruence.
Qed.

Lemma table_heap_free st p st' : unowned st p -> heap_free st p = Some st' -> table_kept st st'.
Proof.
  intros Hu. unfold heap_free. destruct (p =? 0); [by intros [= <-]|]. intros (b & _ & [= <-])%bind_Some. split_and!; [done..|].
  intros j id q Hj Hid Hq. simpl. rewrite lookup_delete_ne; [done|]. intros ->. by apply Hid, (Hu j).
Qed.

Lemma table_alloc st p b : ad_heap st !! p = None -> table_kept st (set_heap st (<[p := b]> (ad_heap st))).
Proof. intros Hp. split_and!; [done..|]. intros j id q _ _ [x Hx]. simpl. rewrite lookup_insert_ne; [by exists x|congruence]. Qed.

(** The table with a module more. *)
Lemma inv_added st st' i p :
  adf_inv st -> owners st !! i = Some (0, 0) -> 0 < ad_next st < 2 ^ 32 - 1 -> unowned st p -> p <> 0 -> is_Some (ad_heap st !! p) ->
  owners st' = <[i := (ad_next st, p)]> (owners st) -> ad_next st' = u32 (ad_next st + 1) -> ad_heap st' = ad_heap st -> adf_inv st'.
Proof.
  intros I Hi Hn Hu Hp Hh O N Hh'. rewrite u32_small in N by lia. split; rewrite O, ?N, ?Hh'.
  - rewrite length_insert. apply I.
  - intros j q [(<- & [= E <-] & _)|[_ Hj]]%list_lookup_insert_Some; [lia|by eapply adf_free].
  - intros j k q [(<- & [= <- <-] & _)|[Hne Hj]]%list_lookup_insert_Some Hk; [by split; [lia|]|].
    destruct (adf_used st I j k q Hj Hk) as (? & ? & ?). split; [lia|done].
  - intros j k a q a' q' [(<- & [= <- <-] & _)|[_ Hj]]%list_lookup_insert_Some
      [(<- & [= <- <-] & _)|[_ Hk]]%list_lookup_insert_Some Ha Ha' Hor; [done|..|by eapply adf_apart].
    + exfalso. destruct Hor as [<-| <-]; [destruct (adf_used st I k _ _ Hk Ha'); lia|by apply Ha', (Hu k)].
    + exfalso. destruct Hor as [->| ->]; [destruct (adf_used st I j _ _ Hj Ha); lia|by apply Ha, (Hu j)].
Qed.

Definition adf_load_result (st : adf_st W B) (r : Z) (st' : adf_st W B) : Prop :=
  adf_inv st' /\
  (r = 0 /\ owners st' = owners st \/
   r = ad_next st /\ exists i p, owners st !! i = Some (0, 0) /\ owners st' = <[i := (r, p)]> (owners st) /\ ad_next st' = r + 1).

Lemma load_result_keeps st st1 r st' : table_kept st st1 -> adf_load_result st1 r st' -> adf_load_result st r st'.
Proof. intros (O & N & _). unfold adf_load_result. by rewrite O, N. Qed.

Lemma add_module_ok st l r st' :
  adf_inv st -> 0 < ad_next st < 2 ^ 32 - 1 -> unowned st (ld_base l) -> ld_base l <> 0 -> is_Some (ad_heap st !! ld_base l) ->
  add_module hook st l = Some (r, st') -> adf_load_result st r st'.
Proof using AdfEnv0.
  intros I Hn Hu Hp Hh H. unfold add_module in H. destruct (find_idx _ _) as [i|] eqn:Ei.
  - apply bind_Some in H as (m & Hm & H). apply find_idx_Some in Ei as (m0 & Hm0 & Hid%Z.eqb_eq & _).
    assert (owners st !! i = Some (0, 0)) as Hi.
    { assert (owners st !! i = Some (0, md_base m0)) as Hi by (unfold owners; rewrite list_lookup_fmap, Hm0; simpl; by rewrite Hid).
      by rewrite (adf_free st I i _ Hi) in Hi. }
    match type of H with start_driver _ ?s _ _ _ _ = _ => set (st1 := s) in H end.
    assert (owners st1 = <[i := (ad_next st, ld_base l)]> (owners st)) as O1.
    { unfold owners, st1. cbn [ad_modules]. rewrite list_fmap_insert. f_equal. unfold new_module in Hm. destruct (_ && _); [|done].
      by apply bind_Some in Hm as (nm & _ & [= <-]). }
    pose proof (inv_added st st1 i (ld_base l) I Hi Hn Hu Hp Hh O1 eq_refl eq_refl) as I1.
    assert (owners st1 !! i = Some (ad_next st, ld_base l)) as Hi1 by (rewrite O1; apply list_lookup_insert_eq; by eapply lookup_lt_Some).
    destruct (start_driver_ok st1 _ _ _ i r st' I1 Hi1 ltac:(lia) H) as (I' & N' & [[-> O']|[-> O']]).
    + split; [done|]. left. split; [done|]. rewrite O', O1, list_insert_insert_eq. by apply list_insert_id.
    + split; [done|]. right. split; [done|]. exists i, (ld_base l). split_and!; [done|congruence|]. rewrite N'. simpl. apply u32_small. lia.
  - apply bind_Some in H as (st1 & H1 & [= <- <-]). pose proof (table_heap_free _ _ _ Hu H1) as K.
    split; [by eapply table_inv|left; split; [done|apply K]].
Qed.

(** The block of a module that was loaded is the one that was allocated for it. *)
Lemma elf_load_block km elf n l : elf_load ksym_addr km elf n = Some (Some l) -> exists sz b, km sz = Some (ld_base l, b).
Proof.
  unfold elf_load, link_image. intros H. run_inv; try done.
  match goal with H : option_map _ ?x = Some _ |- _ => destruct x; [injection H as <-|done] end. eauto.
Qed.

Lemma read_file_ok st path f st1 :
  adf_inv st -> read_file kmalloc junk_stat st path = Some (f, st1) ->
  table_kept st st1 /\ forall p n, f = Some (p, n) -> unowned st1 p.
Proof using AdfEnv0.
  intros I H. unfold read_file in H. apply bind_Some in H as ([fd v] & _ & H).
  destruct (_ || _); [by injection H as <- <-|]. apply bind_Some in H as ([[r info] v'] & _ & H).
  apply bind_Some in H as (inf & _ & H). destruct (_ || _).
  { apply bind_Some in H as ([? ?] & _ & [= <- <-]). done. }
  destruct (kmalloc _ _) as [[p b]|] eqn:Ek; [|by apply bind_Some in H as ([? ?] & _ & [= <- <-])].
  apply env_kmalloc in Ek as [Hp0 Hp]. cbn [ad_heap set_avfs] in Hp.
  apply bind_Some in H as ([[total buf] v1] & _ & H). apply bind_Some in H as ([? v2] & _ & H).
  pose proof (table_alloc st p buf Hp) as K. pose proof (unowned_new st p I Hp) as Hu.
  match type of H with (if _ then heap_free ?s _ ≫= _ else _) = _ => assert (table_kept st s) as Ks by exact K; assert (unowned s p) as Hus by exact Hu end.
  destruct (total =? 0).
  - apply bind_Some in H as (s' & Hk & [= <- <-]). split; [|done]. eapply table_trans; [exact Ks|by eapply table_heap_free].
  - injection H as <- <-. split; [exact Ks|]. intros p' n [= <- <-]. exact Hus.
Qed.

Lemma adf_load_returned st path r st' :
  adf_inv st -> 0 < ad_next st < 2 ^ 32 - 1 -> adf_load kmalloc hook ksym_addr junk_stat st path = Some (r, st') ->
  adf_load_result st r st'.
Proof using AdfEnv0.
  intros I Hn H. unfold adf_load in H. apply bind_Some in H as ([f st1] & Hf & H).
  destruct (read_file_ok st path f st1 I Hf) as [K Hu]. pose proof (table_inv _ _ I K) as I1.
  destruct f as [[p n]|]; [|injection H as <- <-; split; [done|left; split; [done|apply K]]]. specialize (Hu p n eq_refl).
  apply bind_Some in H as (elf & He & H). apply bind_Some in H as (l & Hl & H). eapply load_result_keeps; [exact K|].
  destruct K as (_ & N & _). rewrite <- N in Hn. destruct l as [l|].
  - apply elf_load_block in Hl as (sz & b & [Hp0 Hb]%env_kmalloc). apply bind_Some in H as (st2 & H2 & H).
    pose proof (table_alloc st1 _ (ld_image l) Hb) as Ka. pose proof (unowned_new st1 _ I1 Hb) as Hub.
    match type of H2 with heap_free ?s _ = _ => assert (unowned s p) as Hup by exact Hu end.
    pose proof (table_trans _ _ _ Ka (table_heap_free _ _ _ Hup H2)) as K2. eapply load_result_keeps; [exact K2|].
    pose proof (table_inv _ _ I1 K2) as I2. destruct K2 as (O2 & N2 & _).
    apply (add_module_ok st2 l); [done|congruence|intros j id; rewrite O2; apply Hub|done| |done].
    unfold heap_free in H2. destruct (p =? 0); [injection H2 as <-|apply bind_Some in H2 as (? & _ & [= <-])]; simpl;
      rewrite ?lookup_delete_ne by congruence; rewrite lookup_insert_eq; by eexists.
  - apply bind_Some in H as (st2 & H2 & [= <- <-]). pose proof (table_heap_free _ _ _ Hu H2) as K2.
    split; [by eapply table_inv|left; split; [done|apply K2]].
Qed.

End env.
End table.

