(* ===== verification/AdfDemo.v ===== *)
(** * Driver modules: a sample

    A small driver module, byte by byte as an object file, on a memory file system.  Witnesses of the theorems
    on the driver framework, and runs of the model that exhibit flaws of the code. *)

From Stdlib Require Import ZArith Lia.
From stdpp Require Import base strings sets gmap list.
From S2P Require Import Prelude KString Port Vfs Ramfs RamfsSpec Adf AdfSpec.

Local Open Scope Z_scope.

(** ** The object file *)

Definition elf_header (shoff shnum shstrndx : Z) : list Z :=
  [0x7f; 0x45; 0x4c; 0x46] ++ replicate 12 0 ++ le_bytes 2 ET_REL ++ le_bytes 2 EM_X86_64 ++ replicate 20 0 ++
  le_bytes 8 shoff ++ replicate 12 0 ++ le_bytes 2 shnum ++ le_bytes 2 shstrndx.

Definition shdr_bytes (sh : Elf64_Shdr) : list Z :=
  le_bytes 4 (sh_name sh) ++ le_bytes 4 (sh_type sh) ++ replicate 16 0 ++ le_bytes 8 (sh_offset sh) ++ le_bytes 8 (sh_size sh) ++
  le_bytes 4 (sh_link sh) ++ le_bytes 4 (sh_info sh) ++ le_bytes 8 (sh_addralign sh) ++ replicate 8 0.

Definition sym_bytes (name shndx value : Z) : list Z :=
  le_bytes 4 name ++ [0; 0] ++ le_bytes 2 shndx ++ le_bytes 8 value ++ replicate 8 0.

Definition rela_bytes (off sym type addend : Z) : list Z :=
  le_bytes 8 off ++ le_bytes 8 (Z.shiftl sym 32 + type) ++ le_bytes 8 addend.

(** The contents: code, the driver structure, the manifest, two relocation sections, symbols and strings. *)
Definition drv_text : list Z := replicate 16 0x90.
Definition drv_entry : list Z := le_bytes 4 ADF_ENTRY_MAGIC ++ replicate 108 0.
Definition drv_meta : list Z := le_bytes 8 ADF_META_MAGIC ++ replicate 8 0 ++ c_str "null0" ++ replicate 235 0.
Definition drv_rela_text : list Z := rela_bytes 4 3 R_X86_64_PLT32 (-4 mod 2 ^ 64).
Definition drv_rela_data : list Z :=
  rela_bytes 72 1 R_X86_64_64 1 ++ rela_bytes 80 1 R_X86_64_64 2 ++ rela_bytes 88 1 R_X86_64_64 3.
Definition drv_syms : list Z := sym_bytes 0 0 0 ++ sym_bytes 0 1 0 ++ sym_bytes 1 2 0 ++ sym_bytes 11 0 0.
Definition drv_strs : list Z := [0] ++ c_str "adf_entry" ++ [0] ++ c_str "kmalloc" ++ [0] ++ c_str ".adfmeta" ++ [0].

Definition drv_body : list Z := drv_text ++ drv_entry ++ drv_meta ++ drv_rela_text ++ drv_rela_data ++ drv_syms ++ drv_strs.

(** The section headers; the alignment of the driver structure is [align]. *)
Definition drv_shdrs (align : Z) : list Elf64_Shdr :=
  [mk_shdr 0 0 0 0 0 0 0;
   mk_shdr 0 SHT_PROGBITS 64 16 0 0 16;
   mk_shdr 0 SHT_PROGBITS 80 112 0 0 align;
   mk_shdr 19 SHT_PROGBITS 192 256 0 0 8;
   mk_shdr 0 SHT_NOBITS 0 24 0 0 32;
   mk_shdr 0 SHT_RELA 448 24 6 1 8;
   mk_shdr 0 SHT_SYMTAB 544 96 8 0 8;
   mk_shdr 0 SHT_RELA 472 72 6 2 8;
   mk_shdr 0 3 640 28 0 0 1].

Definition drv_file (align : Z) : list Z :=
  elf_header (64 + Z.of_nat (length drv_body)) 9 8 ++ drv_body ++ concat (shdr_bytes <$> drv_shdrs align).

(** ** The kernel around it *)

Definition drv_path : list Z := c_str "/null.adf" ++ [0].

Definition drv_vfs (align : Z) : vfs_st ramfs_w Z :=
  mk_vfs (replicate 1024 zero_node) (demo_ramfs_backend :: replicate 15 zero_backend) 1 ∅ ∅ (mk_ports [] ∅ []) None
    (demo_world [demo_file "/null.adf" (drv_file align)] ∅).

Definition drv_kmalloc (st : adf_st ramfs_w Z) (n : Z) : option (Z * list Z) :=
  let p := 0x1000 * (1 + Z.of_nat (size (ad_heap st))) in
  if bool_decide (ad_heap st !! p = None) then Some (p, replicate (Z.to_nat n) 0xAA) else None.

(** Hooks that return 0. *)
Definition drv_hook (f : Z) (st : adf_st ramfs_w Z) (i : nat) : option (Z * adf_st ramfs_w Z) := Some (0, st).

Definition drv_start (align : Z) : adf_st ramfs_w Z := adf_init (mk_adf [] 0 ∅ (drv_vfs align)).

Definition ksym_at (i : nat) : Z := 0x100000 + 16 * Z.of_nat i.


#[export] Instance drv_env : AdfEnv drv_kmalloc drv_hook.
Proof.
  split.
  - intros st n p b. unfold drv_kmalloc. case_bool_decide as Hp; [|done]. intros [= <- <-]. split; [lia|exact Hp].
  - intros f st i r st' [= <- <-]. done.
Qed.

Lemma drv_start_inv align : adf_inv (drv_start align).
Proof.
  assert (owners (drv_start align) = replicate MAX_MODULES (0, 0)) as E by reflexivity.
  split; rewrite E.
  - apply length_replicate.
  - by intros i p [[= <-] _]%lookup_replicate.
  - by intros i id p [[= <- <-] _]%lookup_replicate.
  - by intros i j id p id' p' [[= <- <-] _]%lookup_replicate.
Qed.

(** ** Witnesses *)

(** The sections of the sample are well-formed. *)
Lemma drv_shdrs_ok : Forall (sec_ok (drv_file 8)) (drv_shdrs 8).
Proof.
  repeat (apply Forall_cons; split); [..|apply Forall_nil; exact I]; intros E; try discriminate E;
    (split; [|split; [cbn; lia|split; [cbn; lia|intros _; vm_compute; discriminate]]]).
  - exists 4. split; [lia|reflexivity].
  - exists 3. split; [lia|reflexivity].
  - exists 3. split; [lia|reflexivity].
  - exists 5. split; [lia|reflexivity].
Qed.

Lemma load_sections_witness :
  exists image vaddr,
    place_sections (drv_file 8) 8192 (drv_shdrs 8) 0 0 (replicate 408 0) (replicate SEC_MAX 0) = Some (image, vaddr) /\
    length image = 408%nat /\
    exists o, vaddr !! 4%nat = Some (8192 + o) /\ 0 <= o /\ o + 24 <= 408 /\ (32 | o) /\ slice (Z.to_nat o) 24 image = replicate 24 0.
Proof.
  destruct (load_sections_ok (drv_file 8) 8192 (drv_shdrs 8)) as (image & vaddr & E & L & P & _);
    [exact drv_shdrs_ok|vm_compute; lia|reflexivity|reflexivity|reflexivity|].
  exists image, vaddr. split; [exact E|]. split; [exact L|]. exact (P 4%nat _ eq_refl).
Defined.

(** The symbol table, the addresses and the fields of the sample. *)
Definition drv_symtab : symtab_t := mk_symtab 544 4 640.
Definition drv_vaddr : list Z := [0; 8192; 8208; 8320; 8576].
Definition drv_fields : list (nat * list Z) :=
  [(4%nat, [104; 224; 15; 0]); (88%nat, le_bytes 8 8193); (96%nat, le_bytes 8 8194); (104%nat, le_bytes 8 8195)].


Lemma drv_load_owners : option_map (fun x => (fst x, owners (snd x) !! 0%nat)) (adf_load drv_kmalloc drv_hook ksym_at zero_stat (drv_start 8) drv_path) = Some (1, Some (1, 8192)).
Proof. vm_compute. reflexivity. Qed.

Lemma option_map_pair {A B C} (f : B -> C) (o : option (A * B)) a c :
  option_map (fun x => (fst x, f (snd x))) o = Some (a, c) -> exists b, o = Some (a, b) /\ f b = c.
Proof. destruct o as [[a' b]|]; [|done]. intros [= -> <-]. by exists b. Qed.


(** ** Flaws *)

(** An alignment of 0, which means none, puts the section at the start of the block: it overlaps the
    sections before it, and the block may be too small for them. *)
Lemma zero_alignment_overlaps :
  (exists image vaddr, place_sections (drv_file 0) 8192 (drv_shdrs 0) 0 0 (replicate 408 0) (replicate SEC_MAX 0) = Some (image, vaddr) /\
    vaddr !! 1%nat = vaddr !! 2%nat) /\
  let shdrs := [mk_shdr 0 SHT_PROGBITS 0 16 0 0 1; mk_shdr 0 SHT_PROGBITS 16 4 0 0 0] in
  image_size shdrs 0 = 4 /\ place_sections (replicate 20 7) 8192 shdrs 0 0 (replicate 4 0) (replicate SEC_MAX 0) = None.
Proof. split; [do 2 eexists|]; split; vm_compute; reflexivity. Qed.

(** The kernel is linked at 64 MB and the heap is in the upper half: the distance of a call is cut to 32 bits. *)
Lemma far_call_truncated :
  exists bs, reloc_bytes R_X86_64_PLT32 0x4001000 (-4) 0xFFFFC80000002004 = Some (Some bs) /\
  u64 (0xFFFFC80000002004 + i32 (le_val bs)) <> 0x4001000 - 4.
Proof. eexists. split; [reflexivity|]. vm_compute. discriminate. Qed.

(** Id 0 is taken for a module: the slot of a module that was unloaded is found, and the hook is read from freed memory. *)
Lemma unload_zero_uses_freed :
  let unloaded := '(_, st) ← adf_load drv_kmalloc drv_hook ksym_at zero_stat (drv_start 8) drv_path; adf_unload drv_hook st 1 in
  option_map fst unloaded = Some 0 /\ ('(_, st) ← unloaded; adf_unload drv_hook st 0) = None.
Proof. split; vm_compute; reflexivity. Qed.

(** A driver that counts the calls of [detach] and fails to attach: it is detached twice. *)
Definition count_hook (f : Z) (st : adf_st ramfs_w Z) (i : nat) : option (Z * adf_st ramfs_w Z) :=
  st ← upd_dev st i (fun d => if f =? 8195 then mk_dev (dv_mod_id d) 0 0 0 0 0 0 (dv_priv d + 1) (dv_entry d) (dv_name d) (dv_state d) else d);
  Some (if f =? 8194 then -1 else 0, st).

Lemma detached_twice :
  ('(r, st) ← adf_load drv_kmalloc count_hook ksym_at zero_stat (drv_start 8) drv_path;
   m ← ad_modules st !! 0%nat; Some (r, dv_priv (md_dev m))) = Some (0, 2).
Proof. vm_compute. reflexivity. Qed.

(** The documents promise drivers functions that the table does not have. *)
Lemma promised_symbol_missing : ksym_lookup (c_str "sched_wake" ++ [0]) = Some None /\ ksym_lookup (c_str "amm_phys_alloc" ++ [0]) = Some None.
Proof. split; reflexivity. Qed.
