(* ===== verification/Kbd.v ===== *)
(** * The keyboard (src/kernel/drv/ps2kbd.c)

    Scan codes become characters in the interrupt handler, and wait in a ring of 256 bytes
    until they are read.  The values read from the ports of the controller are arguments.
    The ring refines a queue of at most 255 characters. *)

From Stdlib Require Import ZArith Lia.
From stdpp Require Import base strings list.
From S2P Require Import Prelude.

Local Open Scope Z_scope.

Definition KBD_BUF : Z := 256.

(** [g_buf], [g_head], [g_tail], [g_shift], [g_ext] *)
Record kbd_st := mk_kbd { kb_buf : list Z; kb_head : Z; kb_tail : Z; kb_shift : bool; kb_ext : bool }.

Definition kbd_start : kbd_st := mk_kbd (replicate (Z.to_nat KBD_BUF) 0) 0 0 false false.

(** A run of designators [[sc] = c0, [sc + 1] = c1, ...]. *)
Fixpoint keys (sc : Z) (cs : list Z) (map : list Z) : list Z :=
  match cs with
  | [] => map
  | c :: cs' => keys (sc + 1) cs' (<[Z.to_nat sc := c]> map)
  end.

(** The characters of unshifted and of shifted keys, by scan code. *)
Definition g_map : list Z :=
  keys 0x02 (c_str "1234567890-=" ++ [8; 9] ++ c_str "qwertyuiop[]" ++ [10])
    (keys 0x1E (c_str "asdfghjkl;'`") (keys 0x2B (c_str "\zxcvbnm,./") (keys 0x39 [32] (replicate 128 0)))).

Definition g_smap : list Z :=
  keys 0x02 (c_str "!@#$%^&*()_+")
    (keys 0x0F ([9] ++ c_str "QWERTYUIOP{}" ++ [10])
      (keys 0x1E (c_str "ASDFGHJKL:" ++ [34; 126]) (keys 0x2B (c_str "|ZXCVBNM<>?") (keys 0x39 [32] (replicate 128 0))))).

(** A full buffer drops the character. *)
Definition buf_push (k : kbd_st) (c : Z) : option kbd_st :=
  let next := (kb_head k + 1) mod KBD_BUF in
  if negb (next =? kb_tail k) then
    buf ← put (kb_buf k) (Z.to_nat (kb_head k)) (u8 c);
    Some (mk_kbd buf next (kb_tail k) (kb_shift k) (kb_ext k))
  else Some k.

Definition set_shift (k : kbd_st) (b : bool) : kbd_st := mk_kbd (kb_buf k) (kb_head k) (kb_tail k) b (kb_ext k).
Definition set_ext (k : kbd_st) (b : bool) : kbd_st := mk_kbd (kb_buf k) (kb_head k) (kb_tail k) (kb_shift k) b.

(** [stat] and [sc] are the bytes that the status and the data port return. *)
Definition ps2kbd_isr (k : kbd_st) (stat sc : Z) : option kbd_st :=
  if Z.land stat 0x01 =? 0 then Some k
  else if sc =? 0xE0 then Some (set_ext k true)
  else if kb_ext k then
    let k := set_ext k false in
    if sc =? 0x48 then buf_push k 0x80
    else if sc =? 0x50 then buf_push k 0x81
    else if sc =? 0x4B then buf_push k 0x82
    else if sc =? 0x4D then buf_push k 0x83
    else Some k
  else if (sc =? 0x2A) || (sc =? 0x36) then Some (set_shift k true)
  else if (sc =? 0xAA) || (sc =? 0xB6) then Some (set_shift k false)
  else if negb (Z.land sc 0x80 =? 0) then Some k
  else
    ch ← (if kb_shift k then g_smap else g_map) !! Z.to_nat sc;
    if ch =? 0 then Some k else buf_push k ch.

(** The character, if there is one. *)
Definition ps2kbd_getc (k : kbd_st) : option (option Z * kbd_st) :=
  if kb_head k =? kb_tail k then Some (None, k)
  else
    c ← kb_buf k !! Z.to_nat (kb_tail k);
    Some (Some c, mk_kbd (kb_buf k) (kb_head k) ((kb_tail k + 1) mod KBD_BUF) (kb_shift k) (kb_ext k)).

(** ** The queue *)

(** What a keyboard promises: a queue of at most 255 characters, and the state of the keys. *)
Record kbd_spec := mk_kspec { kq_chars : list Z; kq_shift : bool; kq_ext : bool }.

Inductive key := KChar (c : Z) | KShift (b : bool) | KPrefix | KNone.

(** What a scan code means. *)
Definition key_of (shift ext : bool) (sc : Z) : key :=
  if sc =? 0xE0 then KPrefix
  else if ext then
    match list_find (fun p => p.1 = sc) [(0x48, 0x80); (0x50, 0x81); (0x4B, 0x82); (0x4D, 0x83)] with
    | Some (_, (_, c)) => KChar c
    | None => KNone
    end
  else if decide (sc ∈ [0x2A; 0x36]) then KShift true
  else if decide (sc ∈ [0xAA; 0xB6]) then KShift false
  else if 128 <=? sc then KNone
  else match (if shift then g_smap else g_map) !! Z.to_nat sc with Some 0 | None => KNone | Some c => KChar c end.

Definition enqueue (q : list Z) (c : Z) : list Z := if decide (length q < 255)%nat then q ++ [c] else q.

Definition press (s : kbd_spec) (sc : Z) : kbd_spec :=
  match key_of (kq_shift s) (kq_ext s) sc with
  | KChar c => mk_kspec (enqueue (kq_chars s) c) (kq_shift s) false
  | KShift b => mk_kspec (kq_chars s) b false
  | KPrefix => mk_kspec (kq_chars s) (kq_shift s) true
  | KNone => mk_kspec (kq_chars s) (kq_shift s) false
  end.

(** The ring represents the queue. *)
Definition kbd_repr (k : kbd_st) (s : kbd_spec) : Prop :=
  length (kb_buf k) = 256%nat /\ 0 <= kb_head k < 256 /\ 0 <= kb_tail k < 256 /\
  kb_head k = (kb_tail k + Z.of_nat (length (kq_chars s))) mod 256 /\ (length (kq_chars s) <= 255)%nat /\
  (forall i c, kq_chars s !! i = Some c -> kb_buf k !! Z.to_nat ((kb_tail k + Z.of_nat i) mod 256) = Some c) /\
  kb_shift k = kq_shift s /\ kb_ext k = kq_ext s.

(** Interrupts and reads, in any order. *)
Inductive kbd_event := Irq (stat sc : Z) | Read.

Fixpoint kbd_run (k : kbd_st) (evs : list kbd_event) : option (list (option Z) * kbd_st) :=
  match evs with
  | [] => Some ([], k)
  | Irq stat sc :: evs' => k ← ps2kbd_isr k stat sc; kbd_run k evs'
  | Read :: evs' => '(c, k) ← ps2kbd_getc k; '(cs, k) ← kbd_run k evs'; Some (c :: cs, k)
  end.

Fixpoint spec_run (s : kbd_spec) (evs : list kbd_event) : list (option Z) * kbd_spec :=
  match evs with
  | [] => ([], s)
  | Irq stat sc :: evs' => spec_run (if Z.testbit stat 0 then press s sc else s) evs'
  | Read :: evs' =>
      let s' := mk_kspec (tail (kq_chars s)) (kq_shift s) (kq_ext s) in
      let r := spec_run s' evs' in (head (kq_chars s) :: r.1, r.2)
  end.

Lemma next_ne_tail t n : 0 <= t < 256 -> (n <= 255)%nat ->
  (((t + Z.of_nat n) mod 256 + 1) mod 256 =? t) = negb (bool_decide (n < 255)%nat).
Proof.
  intros Ht Hn. case_bool_decide; simpl; [apply Z.eqb_neq|apply Z.eqb_eq]; Z.div_mod_to_equations; lia.
Qed.

Lemma buf_push_ok k s c : kbd_repr k s -> 0 <= c < 256 ->
  exists k', buf_push k c = Some k' /\ kbd_repr k' (mk_kspec (enqueue (kq_chars s) c) (kq_shift s) (kq_ext s)).
Proof.
  intros (Hl & Hh & Ht & Hhd & Hn & Hq & Hs & He) Hc. unfold buf_push, KBD_BUF, enqueue. rewrite Hhd, next_ne_tail by lia.
  destruct (decide (length (kq_chars s) < 255)%nat) as [Hlt|Hge]; [rewrite bool_decide_eq_true_2 by done|rewrite bool_decide_eq_false_2 by done].
  2: { exists k. repeat split; try done; lia. }
  unfold put. destruct (decide _) as [_|]; [|lia]. simpl. eexists. split; [reflexivity|]. rewrite u8_small by lia.
  unfold kbd_repr; simpl. rewrite length_insert, length_app. simpl. split_and!; try (done || lia); try (Z.div_mod_to_equations; lia).
  intros i x [Hi|[Hi Hx]]%lookup_app_Some.
  - rewrite list_lookup_insert_ne; [by apply Hq|]. apply lookup_lt_Some in Hi. intros E%Z2Nat.inj; revert E; Z.div_mod_to_equations; lia.
  - apply list_lookup_singleton_Some in Hx as [Hi0 <-]. replace (Z.of_nat i) with (Z.of_nat (length (kq_chars s))) by lia.
    apply list_lookup_insert_eq. lia.
Qed.

(** The maps hold bytes. *)
Lemma maps_bytes (b : bool) i c : (if b then g_smap else g_map) !! i = Some c -> 0 <= c < 256.
Proof.
  assert (forall l, forallb (fun c => (0 <=? c) && (c <? 256)) l = true -> l !! i = Some c -> 0 <= c < 256) as H.
  { intros l Hl Hi. rewrite forallb_forall in Hl. apply list_elem_of_lookup_2, list_elem_of_In in Hi. apply Hl in Hi. lia. }
  destruct b; apply H; vm_compute; reflexivity.
Qed.

Lemma maps_length (b : bool) : length (if b then g_smap else g_map) = 128%nat.
Proof. destruct b; reflexivity. Qed.

Lemma high_bit sc : 0 <= sc < 256 -> (Z.land sc 0x80 =? 0) = (sc <? 128).
Proof.
  intros H. assert (forallb (fun sc => Bool.eqb (Z.land sc 0x80 =? 0) (sc <? 128)) (seqZ 0 256) = true) as F by (vm_compute; reflexivity).
  rewrite forallb_forall in F. apply eqb_prop, F, list_elem_of_In, elem_of_seqZ. lia.
Qed.

(** The handler does what the key means. *)
Lemma isr_key k stat sc : 0 <= sc < 256 -> Z.testbit stat 0 = true ->
  ps2kbd_isr k stat sc =
    match key_of (kb_shift k) (kb_ext k) sc with
    | KChar c => buf_push (set_ext k false) c
    | KShift b => Some (set_shift (set_ext k false) b)
    | KPrefix => Some (set_ext k true)
    | KNone => Some (set_ext k false)
    end.
Proof.
  intros Hsc Hb. unfold ps2kbd_isr, key_of. replace (Z.land stat 1 =? 0) with false.
  2: { change 1 with (Z.ones 1). rewrite Z.bit0_odd in Hb. by rewrite Z.land_ones, Zmod_odd, Hb by lia. }
  destruct (sc =? 0xE0); [done|]. destruct k as [buf h t shift [|]]; cbn [kb_ext kb_shift set_ext kb_buf kb_head kb_tail].
  - bool_cases; subst; try reflexivity. cbn [list_find fst]. by repeat (destruct (decide _) as [E|_]; [simpl in E; lia|]).
  - rewrite high_bit by done. destruct (decide _) as [E1|E1]; [rewrite !elem_of_cons, elem_of_nil in E1; bool_cases; simpl; reflexivity || lia|].
    destruct (decide _) as [E2|E2]; rewrite !elem_of_cons, elem_of_nil in E1, E2; bool_cases; simpl; try (reflexivity || lia).
    destruct (lookup_lt_is_Some_2 (if shift then g_smap else g_map) (Z.to_nat sc)) as [c Hc]; [rewrite maps_length; lia|].
    rewrite Hc. simpl. by destruct c.
Qed.

Lemma key_char_byte shift ext sc c : key_of shift ext sc = KChar c -> 0 <= c < 256.
Proof.
  unfold key_of. destruct (sc =? 0xE0); [done|]. destruct ext.
  - cbn [list_find fst]. repeat (destruct (decide _) as [_|_]; [intros [= <-]; lia|]). done.
  - repeat destruct (decide _); try done. destruct (128 <=? sc); [done|].
    destruct (_ !! _) as [x|] eqn:E; [|done]. apply maps_bytes in E. destruct x; naive_solver.
Qed.

Lemma ps2kbd_isr_ok k s stat sc : kbd_repr k s -> 0 <= sc < 256 ->
  exists k', ps2kbd_isr k stat sc = Some k' /\ kbd_repr k' (if Z.testbit stat 0 then press s sc else s).
Proof.
  intros R Hsc. destruct (Z.testbit stat 0) eqn:Hb.
  2: { exists k. split; [|done]. unfold ps2kbd_isr. change 1 with (Z.ones 1). rewrite Z.bit0_odd in Hb. by rewrite Z.land_ones, Zmod_odd, Hb by lia. }
  rewrite isr_key by done. unfold press. destruct R as (Hl & Hh & Ht & Hhd & Hn & Hq & Hs & He). rewrite Hs, He.
  destruct (key_of _ _ _) eqn:Ek; try (eexists; split; [reflexivity|]; repeat split; simpl; done || lia).
  apply (buf_push_ok _ (mk_kspec (kq_chars s) (kq_shift s) false)); [repeat split; simpl; done || lia|by eapply key_char_byte].
Qed.

Lemma ps2kbd_getc_ok k s : kbd_repr k s ->
  exists k', ps2kbd_getc k = Some (head (kq_chars s), k') /\ kbd_repr k' (mk_kspec (tail (kq_chars s)) (kq_shift s) (kq_ext s)).
Proof.
  intros (Hl & Hh & Ht & Hhd & Hn & Hq & Hs & He). unfold ps2kbd_getc, KBD_BUF. destruct s as [[|c q] sh e]; simpl in *.
  - rewrite Hhd, Z.add_0_r, Z.mod_small, Z.eqb_refl by lia. exists k. split; [done|]. repeat split; simpl; try (done || lia).
  - destruct (Z.eqb_spec (kb_head k) (kb_tail k)) as [E|_]; [revert Hhd; rewrite E; Z.div_mod_to_equations; lia|].
    pose proof (Hq 0%nat c eq_refl) as H0. rewrite Z.add_0_r, Z.mod_small in H0 by lia. rewrite H0. simpl.
    eexists. split; [reflexivity|]. repeat split; simpl; try (done || lia); try (Z.div_mod_to_equations; lia).
    intros i x Hi. rewrite <- (Hq (S i) x Hi). do 2 f_equal. rewrite Zplus_mod_idemp_l. f_equal. lia.
Qed.

(** the keyboard is a queue.  Whatever the order of interrupts and reads, the handler and the reader
    stay inside the buffer, and the reads return what a queue of at most 255 characters returns that gets the
    characters of the keys pressed, with the state of the shift keys and of the prefix code; a key pressed on a full queue is lost. *)
Theorem kbd_refines_queue evs k s :
  kbd_repr k s -> Forall (fun ev => match ev with Irq _ sc => 0 <= sc < 256 | Read => True end) evs ->
  exists cs k', kbd_run k evs = Some (cs, k') /\ cs = (spec_run s evs).1 /\ kbd_repr k' (spec_run s evs).2.
Proof.
  intros R H. revert k s R. induction H as [|ev evs Hev _ IH]; intros k s R; [by exists [], k|]. destruct ev as [stat sc|]; simpl.
  - destruct (ps2kbd_isr_ok k s stat sc R Hev) as (k1 & -> & R1). simpl. by apply IH.
  - destruct (ps2kbd_getc_ok k s R) as (k1 & -> & R1). simpl. destruct (IH k1 _ R1) as (cs & k2 & -> & -> & R2). simpl.
    eexists _, k2. by split_and!.
Qed.

Lemma kbd_start_repr : kbd_repr kbd_start (mk_kspec [] false false).
Proof. repeat split; simpl; done || lia. Qed.

(** Shift, the key [a], the end of shift, the arrow up, and three reads. *)
Lemma kbd_refines_queue_witness : exists k',
  kbd_run kbd_start [Irq 1 0x2A; Irq 1 0x1E; Irq 1 0xAA; Irq 1 0xE0; Irq 1 0x48; Read; Read; Read] = Some ([Some 65; Some 0x80; None], k').
Proof.
  destruct (kbd_refines_queue [Irq 1 0x2A; Irq 1 0x1E; Irq 1 0xAA; Irq 1 0xE0; Irq 1 0x48; Read; Read; Read] kbd_start
    (mk_kspec [] false false) kbd_start_repr) as (cs & k' & E & Hcs & _); [repeat constructor; lia|].
  exists k'. rewrite E, Hcs. reflexivity.
Defined.
