(* ===== verification/Font.v ===== *)
(** * The console font (src/kernel/console/font_bsd_vgarom_8x16.h)

    The bitmaps of the characters 0x20 to 0x7E, one byte for each of 16 rows. *)

From Stdlib Require Import ZArith Lia.
From stdpp Require Import base list.

Local Open Scope Z_scope.

Definition g_bsd_vgarom_8x16 : list (list Z) :=
  [ [0x00; 0x00; 0x00; 0x00; 0x00; 0x00; 0x00; 0x00] ++ [0x00; 0x00; 0x00; 0x00; 0x00; 0x00; 0x00; 0x00];
    [0x00; 0x00; 0x18; 0x3C; 0x3C; 0x3C; 0x18; 0x18] ++ [0x18; 0x00; 0x18; 0x18; 0x00; 0x00; 0x00; 0x00];
    [0x00; 0x66; 0x66; 0x66; 0x24; 0x00; 0x00; 0x00] ++ [0x00; 0x00; 0x00; 0x00; 0x00; 0x00; 0x00; 0x00];
    [0x00; 0x00; 0x00; 0x6C; 0x6C; 0xFE; 0x6C; 0x6C] ++ [0x6C; 0xFE; 0x6C; 0x6C; 0x00; 0x00; 0x00; 0x00];
    [0x18; 0x18; 0x7C; 0xC6; 0xC2; 0xC0; 0x7C; 0x06] ++ [0x06; 0x86; 0xC6; 0x7C; 0x18; 0x18; 0x00; 0x00];
    [0x00; 0x00; 0x00; 0x00; 0xC2; 0xC6; 0x0C; 0x18] ++ [0x30; 0x60; 0xC6; 0x86; 0x00; 0x00; 0x00; 0x00];
    [0x00; 0x00; 0x38; 0x6C; 0x6C; 0x38; 0x76; 0xDC] ++ [0xCC; 0xCC; 0xCC; 0x76; 0x00; 0x00; 0x00; 0x00];
    [0x00; 0x30; 0x30; 0x30; 0x60; 0x00; 0x00; 0x00] ++ [0x00; 0x00; 0x00; 0x00; 0x00; 0x00; 0x00; 0x00];
    [0x00; 0x00; 0x0C; 0x18; 0x30; 0x30; 0x30; 0x30] ++ [0x30; 0x30; 0x18; 0x0C; 0x00; 0x00; 0x00; 0x00];
    [0x00; 0x00; 0x30; 0x18; 0x0C; 0x0C; 0x0C; 0x0C] ++ [0x0C; 0x0C; 0x18; 0x30; 0x00; 0x00; 0x00; 0x00];
    [0x00; 0x00; 0x00; 0x00; 0x00; 0x66; 0x3C; 0xFF] ++ [0x3C; 0x66; 0x00; 0x00; 0x00; 0x00; 0x00; 0x00];
    [0x00; 0x00; 0x00; 0x00; 0x00; 0x18; 0x18; 0x7E] ++ [0x18; 0x18; 0x00; 0x00; 0x00; 0x00; 0x00; 0x00];
    [0x00; 0x00; 0x00; 0x00; 0x00; 0x00; 0x00; 0x00] ++ [0x00; 0x18; 0x18; 0x18; 0x30; 0x00; 0x00; 0x00];
    [0x00; 0x00; 0x00; 0x00; 0x00; 0x00; 0x00; 0xFE] ++ [0x00; 0x00; 0x00; 0x00; 0x00; 0x00; 0x00; 0x00];
    [0x00; 0x00; 0x00; 0x00; 0x00; 0x00; 0x00; 0x00] ++ [0x00; 0x00; 0x18; 0x18; 0x00; 0x00; 0x00; 0x00];
    [0x00; 0x00; 0x00; 0x00; 0x02; 0x06; 0x0C; 0x18] ++ [0x30; 0x60; 0xC0; 0x80; 0x00; 0x00; 0x00; 0x00];
    [0x00; 0x00; 0x38; 0x6C; 0xC6; 0xC6; 0xD6; 0xD6] ++ [0xC6; 0xC6; 0x6C; 0x38; 0x00; 0x00; 0x00; 0x00];
    [0x00; 0x00; 0x18; 0x38; 0x78; 0x18; 0x18; 0x18] ++ [0x18; 0x18; 0x18; 0x7E; 0x00; 0x00; 0x00; 0x00];
    [0x00; 0x00; 0x7C; 0xC6; 0x06; 0x0C; 0x18; 0x30] ++ [0x60; 0xC0; 0xC6; 0xFE; 0x00; 0x00; 0x00; 0x00];
    [0x00; 0x00; 0x7C; 0xC6; 0x06; 0x06; 0x3C; 0x06] ++ [0x06; 0x06; 0xC6; 0x7C; 0x00; 0x00; 0x00; 0x00];
    [0x00; 0x00; 0x0C; 0x1C; 0x3C; 0x6C; 0xCC; 0xFE] ++ [0x0C; 0x0C; 0x0C; 0x1E; 0x00; 0x00; 0x00; 0x00];
    [0x00; 0x00; 0xFE; 0xC0; 0xC0; 0xC0; 0xFC; 0x06] ++ [0x06; 0x06; 0xC6; 0x7C; 0x00; 0x00; 0x00; 0x00];
    [0x00; 0x00; 0x38; 0x60; 0xC0; 0xC0; 0xFC; 0xC6] ++ [0xC6; 0xC6; 0xC6; 0x7C; 0x00; 0x00; 0x00; 0x00];
    [0x00; 0x00; 0xFE; 0xC6; 0x06; 0x06; 0x0C; 0x18] ++ [0x30; 0x30; 0x30; 0x30; 0x00; 0x00; 0x00; 0x00];
    [0x00; 0x00; 0x7C; 0xC6; 0xC6; 0xC6; 0x7C; 0xC6] ++ [0xC6; 0xC6; 0xC6; 0x7C; 0x00; 0x00; 0x00; 0x00];
    [0x00; 0x00; 0x7C; 0xC6; 0xC6; 0xC6; 0x7E; 0x06] ++ [0x06; 0x06; 0x0C; 0x78; 0x00; 0x00; 0x00; 0x00];
    [0x00; 0x00; 0x00; 0x00; 0x18; 0x18; 0x00; 0x00] ++ [0x00; 0x18; 0x18; 0x00; 0x00; 0x00; 0x00; 0x00];
    [0x00; 0x00; 0x00; 0x00; 0x18; 0x18; 0x00; 0x00] ++ [0x00; 0x18; 0x18; 0x30; 0x00; 0x00; 0x00; 0x00];
    [0x00; 0x00; 0x00; 0x06; 0x0C; 0x18; 0x30; 0x60] ++ [0x30; 0x18; 0x0C; 0x06; 0x00; 0x00; 0x00; 0x00];
    [0x00; 0x00; 0x00; 0x00; 0x00; 0x7E; 0x00; 0x00] ++ [0x7E; 0x00; 0x00; 0x00; 0x00; 0x00; 0x00; 0x00];
    [0x00; 0x00; 0x00; 0x60; 0x30; 0x18; 0x0C; 0x06] ++ [0x0C; 0x18; 0x30; 0x60; 0x00; 0x00; 0x00; 0x00];
    [0x00; 0x00; 0x7C; 0xC6; 0xC6; 0x0C; 0x18; 0x18] ++ [0x18; 0x00; 0x18; 0x18; 0x00; 0x00; 0x00; 0x00];
    [0x00; 0x00; 0x00; 0x7C; 0xC6; 0xC6; 0xDE; 0xDE] ++ [0xDE; 0xDC; 0xC0; 0x7C; 0x00; 0x00; 0x00; 0x00];
    [0x00; 0x00; 0x10; 0x38; 0x6C; 0xC6; 0xC6; 0xFE] ++ [0xC6; 0xC6; 0xC6; 0xC6; 0x00; 0x00; 0x00; 0x00];
    [0x00; 0x00; 0xFC; 0x66; 0x66; 0x66; 0x7C; 0x66] ++ [0x66; 0x66; 0x66; 0xFC; 0x00; 0x00; 0x00; 0x00];
    [0x00; 0x00; 0x3C; 0x66; 0xC2; 0xC0; 0xC0; 0xC0] ++ [0xC0; 0xC2; 0x66; 0x3C; 0x00; 0x00; 0x00; 0x00];
    [0x00; 0x00; 0xF8; 0x6C; 0x66; 0x66; 0x66; 0x66] ++ [0x66; 0x66; 0x6C; 0xF8; 0x00; 0x00; 0x00; 0x00];
    [0x00; 0x00; 0xFE; 0x66; 0x62; 0x68; 0x78; 0x68] ++ [0x60; 0x62; 0x66; 0xFE; 0x00; 0x00; 0x00; 0x00];
    [0x00; 0x00; 0xFE; 0x66; 0x62; 0x68; 0x78; 0x68] ++ [0x60; 0x60; 0x60; 0xF0; 0x00; 0x00; 0x00; 0x00];
    [0x00; 0x00; 0x3C; 0x66; 0xC2; 0xC0; 0xC0; 0xDE] ++ [0xC6; 0xC6; 0x66; 0x3A; 0x00; 0x00; 0x00; 0x00];
    [0x00; 0x00; 0xC6; 0xC6; 0xC6; 0xC6; 0xFE; 0xC6] ++ [0xC6; 0xC6; 0xC6; 0xC6; 0x00; 0x00; 0x00; 0x00];
    [0x00; 0x00; 0x3C; 0x18; 0x18; 0x18; 0x18; 0x18] ++ [0x18; 0x18; 0x18; 0x3C; 0x00; 0x00; 0x00; 0x00];
    [0x00; 0x00; 0x1E; 0x0C; 0x0C; 0x0C; 0x0C; 0x0C] ++ [0xCC; 0xCC; 0xCC; 0x78; 0x00; 0x00; 0x00; 0x00];
    [0x00; 0x00; 0xE6; 0x66; 0x66; 0x6C; 0x78; 0x78] ++ [0x6C; 0x66; 0x66; 0xE6; 0x00; 0x00; 0x00; 0x00];
    [0x00; 0x00; 0xF0; 0x60; 0x60; 0x60; 0x60; 0x60] ++ [0x60; 0x62; 0x66; 0xFE; 0x00; 0x00; 0x00; 0x00];
    [0x00; 0x00; 0xC6; 0xEE; 0xFE; 0xFE; 0xD6; 0xC6] ++ [0xC6; 0xC6; 0xC6; 0xC6; 0x00; 0x00; 0x00; 0x00];
    [0x00; 0x00; 0xC6; 0xE6; 0xF6; 0xFE; 0xDE; 0xCE] ++ [0xC6; 0xC6; 0xC6; 0xC6; 0x00; 0x00; 0x00; 0x00];
    [0x00; 0x00; 0x7C; 0xC6; 0xC6; 0xC6; 0xC6; 0xC6] ++ [0xC6; 0xC6; 0xC6; 0x7C; 0x00; 0x00; 0x00; 0x00];
    [0x00; 0x00; 0xFC; 0x66; 0x66; 0x66; 0x7C; 0x60] ++ [0x60; 0x60; 0x60; 0xF0; 0x00; 0x00; 0x00; 0x00];
    [0x00; 0x00; 0x7C; 0xC6; 0xC6; 0xC6; 0xC6; 0xC6] ++ [0xC6; 0xD6; 0xDE; 0x7C; 0x0C; 0x0E; 0x00; 0x00];
    [0x00; 0x00; 0xFC; 0x66; 0x66; 0x66; 0x7C; 0x6C] ++ [0x66; 0x66; 0x66; 0xE6; 0x00; 0x00; 0x00; 0x00];
    [0x00; 0x00; 0x7C; 0xC6; 0xC6; 0x60; 0x38; 0x0C] ++ [0x06; 0xC6; 0xC6; 0x7C; 0x00; 0x00; 0x00; 0x00];
    [0x00; 0x00; 0x7E; 0x7E; 0x5A; 0x18; 0x18; 0x18] ++ [0x18; 0x18; 0x18; 0x3C; 0x00; 0x00; 0x00; 0x00];
    [0x00; 0x00; 0xC6; 0xC6; 0xC6; 0xC6; 0xC6; 0xC6] ++ [0xC6; 0xC6; 0xC6; 0x7C; 0x00; 0x00; 0x00; 0x00];
    [0x00; 0x00; 0xC6; 0xC6; 0xC6; 0xC6; 0xC6; 0xC6] ++ [0xC6; 0x6C; 0x38; 0x10; 0x00; 0x00; 0x00; 0x00];
    [0x00; 0x00; 0xC6; 0xC6; 0xC6; 0xC6; 0xD6; 0xD6] ++ [0xD6; 0xFE; 0xEE; 0x6C; 0x00; 0x00; 0x00; 0x00];
    [0x00; 0x00; 0xC6; 0xC6; 0x6C; 0x7C; 0x38; 0x38] ++ [0x7C; 0x6C; 0xC6; 0xC6; 0x00; 0x00; 0x00; 0x00];
    [0x00; 0x00; 0x66; 0x66; 0x66; 0x66; 0x3C; 0x18] ++ [0x18; 0x18; 0x18; 0x3C; 0x00; 0x00; 0x00; 0x00];
    [0x00; 0x00; 0xFE; 0xC6; 0x86; 0x0C; 0x18; 0x30] ++ [0x60; 0xC2; 0xC6; 0xFE; 0x00; 0x00; 0x00; 0x00];
    [0x00; 0x00; 0x3C; 0x30; 0x30; 0x30; 0x30; 0x30] ++ [0x30; 0x30; 0x30; 0x3C; 0x00; 0x00; 0x00; 0x00];
    [0x00; 0x00; 0x00; 0x80; 0xC0; 0xE0; 0x70; 0x38] ++ [0x1C; 0x0E; 0x06; 0x02; 0x00; 0x00; 0x00; 0x00];
    [0x00; 0x00; 0x3C; 0x0C; 0x0C; 0x0C; 0x0C; 0x0C] ++ [0x0C; 0x0C; 0x0C; 0x3C; 0x00; 0x00; 0x00; 0x00];
    [0x10; 0x38; 0x6C; 0xC6; 0x00; 0x00; 0x00; 0x00] ++ [0x00; 0x00; 0x00; 0x00; 0x00; 0x00; 0x00; 0x00];
    [0x00; 0x00; 0x00; 0x00; 0x00; 0x00; 0x00; 0x00] ++ [0x00; 0x00; 0x00; 0x00; 0x00; 0xFF; 0x00; 0x00];
    [0x30; 0x30; 0x18; 0x00; 0x00; 0x00; 0x00; 0x00] ++ [0x00; 0x00; 0x00; 0x00; 0x00; 0x00; 0x00; 0x00];
    [0x00; 0x00; 0x00; 0x00; 0x00; 0x78; 0x0C; 0x7C] ++ [0xCC; 0xCC; 0xCC; 0x76; 0x00; 0x00; 0x00; 0x00];
    [0x00; 0x00; 0xE0; 0x60; 0x60; 0x78; 0x6C; 0x66] ++ [0x66; 0x66; 0x66; 0x7C; 0x00; 0x00; 0x00; 0x00];
    [0x00; 0x00; 0x00; 0x00; 0x00; 0x7C; 0xC6; 0xC0] ++ [0xC0; 0xC0; 0xC6; 0x7C; 0x00; 0x00; 0x00; 0x00];
    [0x00; 0x00; 0x1C; 0x0C; 0x0C; 0x3C; 0x6C; 0xCC] ++ [0xCC; 0xCC; 0xCC; 0x76; 0x00; 0x00; 0x00; 0x00];
    [0x00; 0x00; 0x00; 0x00; 0x00; 0x7C; 0xC6; 0xFE] ++ [0xC0; 0xC0; 0xC6; 0x7C; 0x00; 0x00; 0x00; 0x00];
    [0x00; 0x00; 0x38; 0x6C; 0x64; 0x60; 0xF0; 0x60] ++ [0x60; 0x60; 0x60; 0xF0; 0x00; 0x00; 0x00; 0x00];
    [0x00; 0x00; 0x00; 0x00; 0x00; 0x76; 0xCC; 0xCC] ++ [0xCC; 0xCC; 0xCC; 0x7C; 0x0C; 0xCC; 0x78; 0x00];
    [0x00; 0x00; 0xE0; 0x60; 0x60; 0x6C; 0x76; 0x66] ++ [0x66; 0x66; 0x66; 0xE6; 0x00; 0x00; 0x00; 0x00];
    [0x00; 0x00; 0x18; 0x18; 0x00; 0x38; 0x18; 0x18] ++ [0x18; 0x18; 0x18; 0x3C; 0x00; 0x00; 0x00; 0x00];
    [0x00; 0x00; 0x06; 0x06; 0x00; 0x0E; 0x06; 0x06] ++ [0x06; 0x06; 0x06; 0x06; 0x66; 0x66; 0x3C; 0x00];
    [0x00; 0x00; 0xE0; 0x60; 0x60; 0x66; 0x6C; 0x78] ++ [0x78; 0x6C; 0x66; 0xE6; 0x00; 0x00; 0x00; 0x00];
    [0x00; 0x00; 0x38; 0x18; 0x18; 0x18; 0x18; 0x18] ++ [0x18; 0x18; 0x18; 0x3C; 0x00; 0x00; 0x00; 0x00];
    [0x00; 0x00; 0x00; 0x00; 0x00; 0xEC; 0xFE; 0xD6] ++ [0xD6; 0xD6; 0xD6; 0xC6; 0x00; 0x00; 0x00; 0x00];
    [0x00; 0x00; 0x00; 0x00; 0x00; 0xDC; 0x66; 0x66] ++ [0x66; 0x66; 0x66; 0x66; 0x00; 0x00; 0x00; 0x00];
    [0x00; 0x00; 0x00; 0x00; 0x00; 0x7C; 0xC6; 0xC6] ++ [0xC6; 0xC6; 0xC6; 0x7C; 0x00; 0x00; 0x00; 0x00];
    [0x00; 0x00; 0x00; 0x00; 0x00; 0xDC; 0x66; 0x66] ++ [0x66; 0x66; 0x66; 0x7C; 0x60; 0x60; 0xF0; 0x00];
    [0x00; 0x00; 0x00; 0x00; 0x00; 0x76; 0xCC; 0xCC] ++ [0xCC; 0xCC; 0xCC; 0x7C; 0x0C; 0x0C; 0x1E; 0x00];
    [0x00; 0x00; 0x00; 0x00; 0x00; 0xDC; 0x76; 0x66] ++ [0x60; 0x60; 0x60; 0xF0; 0x00; 0x00; 0x00; 0x00];
    [0x00; 0x00; 0x00; 0x00; 0x00; 0x7C; 0xC6; 0x60] ++ [0x38; 0x0C; 0xC6; 0x7C; 0x00; 0x00; 0x00; 0x00];
    [0x00; 0x00; 0x10; 0x30; 0x30; 0xFC; 0x30; 0x30] ++ [0x30; 0x30; 0x36; 0x1C; 0x00; 0x00; 0x00; 0x00];
    [0x00; 0x00; 0x00; 0x00; 0x00; 0xCC; 0xCC; 0xCC] ++ [0xCC; 0xCC; 0xCC; 0x76; 0x00; 0x00; 0x00; 0x00];
    [0x00; 0x00; 0x00; 0x00; 0x00; 0x66; 0x66; 0x66] ++ [0x66; 0x66; 0x3C; 0x18; 0x00; 0x00; 0x00; 0x00];
    [0x00; 0x00; 0x00; 0x00; 0x00; 0xC6; 0xC6; 0xD6] ++ [0xD6; 0xD6; 0xFE; 0x6C; 0x00; 0x00; 0x00; 0x00];
    [0x00; 0x00; 0x00; 0x00; 0x00; 0xC6; 0x6C; 0x38] ++ [0x38; 0x38; 0x6C; 0xC6; 0x00; 0x00; 0x00; 0x00];
    [0x00; 0x00; 0x00; 0x00; 0x00; 0xC6; 0xC6; 0xC6] ++ [0xC6; 0xC6; 0xC6; 0x7E; 0x06; 0x0C; 0xF8; 0x00];
    [0x00; 0x00; 0x00; 0x00; 0x00; 0xFE; 0xCC; 0x18] ++ [0x30; 0x60; 0xC6; 0xFE; 0x00; 0x00; 0x00; 0x00];
    [0x00; 0x00; 0x0E; 0x18; 0x18; 0x18; 0x70; 0x18] ++ [0x18; 0x18; 0x18; 0x0E; 0x00; 0x00; 0x00; 0x00];
    [0x00; 0x00; 0x18; 0x18; 0x18; 0x18; 0x00; 0x18] ++ [0x18; 0x18; 0x18; 0x18; 0x00; 0x00; 0x00; 0x00];
    [0x00; 0x00; 0x70; 0x18; 0x18; 0x18; 0x0E; 0x18] ++ [0x18; 0x18; 0x18; 0x70; 0x00; 0x00; 0x00; 0x00];
    [0x00; 0x00; 0x76; 0xDC; 0x00; 0x00; 0x00; 0x00] ++ [0x00; 0x00; 0x00; 0x00; 0x00; 0x00; 0x00; 0x00] ].

(** A character without a bitmap is shown as a question mark. *)
Definition bsd_vgarom_glyph_8x16 (ch : Z) : option (list Z) :=
  let ch := if (ch <? 0x20) || (0x7E <? ch) then 63 else ch in
  g_bsd_vgarom_8x16 !! Z.to_nat (ch - 0x20).

Lemma glyph_ok ch : exists g, bsd_vgarom_glyph_8x16 ch = Some g /\ length g = 16%nat.
Proof.
  unfold bsd_vgarom_glyph_8x16. set (c := if (ch <? 0x20) || (0x7E <? ch) then 63 else ch).
  assert (0x20 <= c <= 0x7E) as Hc by (unfold c; destruct (Z.ltb_spec ch 0x20), (Z.ltb_spec 0x7E ch); simpl; lia).
  destruct (lookup_lt_is_Some_2 g_bsd_vgarom_8x16 (Z.to_nat (c - 0x20))) as [g Hg].
  { change (length g_bsd_vgarom_8x16) with 95%nat. lia. }
  exists g. split; [done|]. apply list_elem_of_lookup_2 in Hg.
  assert (Forall (fun g => length g = 16%nat) g_bsd_vgarom_8x16) as F by (repeat constructor).
  rewrite Forall_forall in F. by apply F.
Qed.
