(* ===== verification/Fbcon.v ===== *)
(** * The console (src/kernel/console/fbcon.c)

    A text console on a frame buffer: characters are drawn in cells of 8 by 16 pixels and kept in
    an array of cells; the cursor is a cell drawn with its colours exchanged; escape sequences
    move it, erase text and set colours.  The frame buffer is the list of its 32-bit words; a
    store outside it is [None].  The value that [rdtsc] returns is an argument. *)

From Stdlib Require Import ZArith Lia.
From stdpp Require Import base strings list.
From S2P Require Import Prelude Font.

Local Open Scope Z_scope.

Definition CELL_W : Z := 8.
Definition CELL_H : Z := 16.
Definition MAX_TEXT_CELLS : Z := 32768.
Definition ANSI_MAX_PARAMS : Z := 8.
Definition ASD_FB_RGBX32 : Z := 1.
Definition ASD_FB_BGRX32 : Z := 2.
Definition g_cursor_period_tsc : Z := 1125000000.

Inductive ansi_state := ANSI_STATE_NORMAL | ANSI_STATE_ESC | ANSI_STATE_CSI.

(** [g_ansi_state], [g_ansi_params], [g_ansi_num_params] *)
Record ansi_t := mk_ansi { an_state : ansi_state; an_params : list Z; an_num : Z }.

(** [g_fb], [g_w], [g_h], [g_stride] *)
Record screen_t := mk_screen { sn_fb : list Z; sn_w : Z; sn_h : Z; sn_stride : Z }.

(** The other variables of the file.  [g_fmt] is read only while the console is set up. *)
Record fbcon_t := mk_fbcon {
  fc_screen : screen_t;
  fc_cols : Z;
  fc_rows : Z;
  fc_cx : Z;
  fc_cy : Z;
  fc_ready : bool;
  fc_cells : list Z;
  fc_cell_cap : Z;
  fc_cursor_on : bool;
  fc_last_tsc : Z;
  fc_fg : Z;
  fc_bg : Z;
  fc_ansi : ansi_t;
}.

Definition set_screen (c : fbcon_t) (v : screen_t) : fbcon_t :=
  mk_fbcon v (fc_cols c) (fc_rows c) (fc_cx c) (fc_cy c) (fc_ready c) (fc_cells c) (fc_cell_cap c) (fc_cursor_on c) (fc_last_tsc c) (fc_fg c) (fc_bg c) (fc_ansi c).
Definition set_pos (c : fbcon_t) (x y : Z) : fbcon_t :=
  mk_fbcon (fc_screen c) (fc_cols c) (fc_rows c) x y (fc_ready c) (fc_cells c) (fc_cell_cap c) (fc_cursor_on c) (fc_last_tsc c) (fc_fg c) (fc_bg c) (fc_ansi c).
Definition set_cells (c : fbcon_t) (v : list Z) : fbcon_t :=
  mk_fbcon (fc_screen c) (fc_cols c) (fc_rows c) (fc_cx c) (fc_cy c) (fc_ready c) v (fc_cell_cap c) (fc_cursor_on c) (fc_last_tsc c) (fc_fg c) (fc_bg c) (fc_ansi c).
Definition set_cursor_on (c : fbcon_t) (v : bool) : fbcon_t :=
  mk_fbcon (fc_screen c) (fc_cols c) (fc_rows c) (fc_cx c) (fc_cy c) (fc_ready c) (fc_cells c) (fc_cell_cap c) v (fc_last_tsc c) (fc_fg c) (fc_bg c) (fc_ansi c).
Definition set_last_tsc (c : fbcon_t) (v : Z) : fbcon_t :=
  mk_fbcon (fc_screen c) (fc_cols c) (fc_rows c) (fc_cx c) (fc_cy c) (fc_ready c) (fc_cells c) (fc_cell_cap c) (fc_cursor_on c) v (fc_fg c) (fc_bg c) (fc_ansi c).
Definition fb_console_set_colors (c : fbcon_t) (fg bg : Z) : fbcon_t :=
  mk_fbcon (fc_screen c) (fc_cols c) (fc_rows c) (fc_cx c) (fc_cy c) (fc_ready c) (fc_cells c) (fc_cell_cap c) (fc_cursor_on c) (fc_last_tsc c) fg bg (fc_ansi c).
Definition set_ansi (c : fbcon_t) (v : ansi_t) : fbcon_t :=
  mk_fbcon (fc_screen c) (fc_cols c) (fc_rows c) (fc_cx c) (fc_cy c) (fc_ready c) (fc_cells c) (fc_cell_cap c) (fc_cursor_on c) (fc_last_tsc c) (fc_fg c) (fc_bg c) v.

(** [for (i = lo; i < lo + n; i++)] *)
Fixpoint for_n {A} (n : nat) (i : Z) (f : Z -> A -> option A) (a : A) : option A :=
  match n with
  | O => Some a
  | S n' => a ← f i a; for_n n' (i + 1) f a
  end.

(** ** Pixels *)

Definition mk_rgb (fmt r g b : Z) : Z :=
  if fmt =? ASD_FB_BGRX32 then Z.lor (Z.lor (Z.shiftl b 16) (Z.shiftl g 8)) r
  else Z.lor (Z.lor (Z.shiftl r 16) (Z.shiftl g 8)) b.

Definition set_fb (s : screen_t) (fb : list Z) : screen_t := mk_screen fb (sn_w s) (sn_h s) (sn_stride s).

Definition store (s : screen_t) (x y c : Z) : option screen_t :=
  fb ← put (sn_fb s) (Z.to_nat (y * sn_stride s + x)) c; Some (set_fb s fb).

Definition plot (x y c : Z) (s : screen_t) : option screen_t :=
  if (sn_w s <=? x) || (sn_h s <=? y) then Some s else store s x y c.

(** [for (; x + 4 <= g_w; x += 4)] and the rest of the row. *)
Fixpoint fill_row (fuel : nat) (s : screen_t) (x y color : Z) : option screen_t :=
  if u32 (x + 4) <=? sn_w s then
    match fuel with
    | O => None
    | S fuel' =>
        s ← store s x y color; s ← store s (x + 1) y color; s ← store s (x + 2) y color; s ← store s (x + 3) y color;
        fill_row fuel' s (u32 (x + 4)) y color
    end
  else for_n (Z.to_nat (sn_w s - x)) x (fun x s => store s x y color) s.

Definition clear_row_pixels (s : screen_t) (py0 py1 color : Z) : option screen_t :=
  let py1 := if sn_h s <? py1 then sn_h s else py1 in
  for_n (Z.to_nat (py1 - py0)) py0 (fun y s => fill_row (Z.to_nat (sn_w s)) s 0 y color) s.

(** The rows of pixels move up by [line_h]. *)
Definition scroll_pixels (s : screen_t) (line_h : Z) : option screen_t :=
  for_n (Z.to_nat (sn_h s - line_h)) 0 (fun y s =>
    for_n (Z.to_nat (sn_w s)) 0 (fun x s =>
      c ← sn_fb s !! Z.to_nat ((y + line_h) * sn_stride s + x); store s x y c) s) s.

(** The rows of cells move up by one; the last one becomes blank. *)
Definition scroll_cells (cells : list Z) (cols rows : Z) : option (list Z) :=
  cells ← for_n (Z.to_nat (rows - 1)) 1 (fun y cells =>
    for_n (Z.to_nat cols) 0 (fun x cells =>
      ch ← cells !! Z.to_nat (y * cols + x); put cells (Z.to_nat ((y - 1) * cols + x)) ch) cells) cells;
  for_n (Z.to_nat cols) 0 (fun x cells => put cells (Z.to_nat ((rows - 1) * cols + x)) 32) cells.

Definition scroll_if_needed (c : fbcon_t) : option fbcon_t :=
  if fc_cy c <? fc_rows c then Some c
  else
    let s := fc_screen c in
    s ← scroll_pixels s CELL_H;
    s ← clear_row_pixels s (u32 (sn_h s - CELL_H)) (sn_h s) (fc_bg c);
    let c := set_pos (set_screen c s) (fc_cx c) (u32 (fc_rows c - 1)) in
    if negb (fc_cell_cap c =? 0) && (0 <? fc_rows c) then
      let cols := fc_cols c in
      let rows := if fc_cell_cap c <? u32 (cols * fc_rows c) then fc_cell_cap c / (if cols =? 0 then 1 else cols) else fc_rows c in
      if (1 <? rows) && (0 <? cols) then cells ← scroll_cells (fc_cells c) cols rows; Some (set_cells c cells) else Some c
    else Some c.

Definition draw_char (c : fbcon_t) (cx cy ch : Z) (invert : bool) : option fbcon_t :=
  glyph ← bsd_vgarom_glyph_8x16 ch;
  let fg := if invert then fc_bg c else fc_fg c in
  let bg := if invert then fc_fg c else fc_bg c in
  let px := u32 (cx * CELL_W) in
  let py := u32 (cy * CELL_H) in
  s ← for_n (Z.to_nat CELL_H) 0 (fun y s =>
    bits ← glyph !! Z.to_nat y;
    for_n (Z.to_nat CELL_W) 0 (fun x s =>
      plot (u32 (px + x)) (u32 (py + y)) (if Z.land bits (Z.shiftr 0x80 x) =? 0 then bg else fg) s) s) (fc_screen c);
  Some (set_screen c s).

(** ** The cursor *)

Definition cell_idx (c : fbcon_t) : Z := u32 (fc_cy c * fc_cols c + fc_cx c).

Definition cursor_erase (c : fbcon_t) : option fbcon_t :=
  if negb (fc_ready c) || negb (fc_cursor_on c) then Some c
  else if (fc_cols c <=? fc_cx c) || (fc_rows c <=? fc_cy c) then Some (set_cursor_on c false)
  else if fc_cell_cap c <=? cell_idx c then Some (set_cursor_on c false)
  else
    ch ← fc_cells c !! Z.to_nat (cell_idx c);
    c ← draw_char c (fc_cx c) (fc_cy c) ch false;
    Some (set_cursor_on c false).

Definition cursor_draw (c : fbcon_t) : option fbcon_t :=
  if negb (fc_ready c) then Some c
  else if (fc_cols c <=? fc_cx c) || (fc_rows c <=? fc_cy c) then Some c
  else if fc_cell_cap c <=? cell_idx c then Some c
  else
    ch ← fc_cells c !! Z.to_nat (cell_idx c);
    c ← draw_char c (fc_cx c) (fc_cy c) ch true;
    Some (set_cursor_on c true).

Definition blank_cells (c : fbcon_t) : option (list Z) :=
  for_n (Z.to_nat (fc_cell_cap c)) 0 (fun i cells => put cells (Z.to_nat i) 32) (fc_cells c).

(** The fields of the boot information that describe the frame buffer, and its memory. *)
Record fb_info := mk_fbinfo { fi_phys : Z; fi_width : Z; fi_height : Z; fi_stride : Z; fi_format : Z; fi_mem : list Z }.

Definition fb_console_init (c : fbcon_t) (bib : option fb_info) (now : Z) : option fbcon_t :=
  let off := mk_fbcon (fc_screen c) (fc_cols c) (fc_rows c) (fc_cx c) (fc_cy c) false (fc_cells c) (fc_cell_cap c)
    (fc_cursor_on c) (fc_last_tsc c) (fc_fg c) (fc_bg c) (fc_ansi c) in
  match bib with
  | None => Some off
  | Some b =>
      if (fi_phys b =? 0) || (fi_width b =? 0) || (fi_height b =? 0) || (fi_stride b =? 0) then Some off
      else if negb (fi_format b =? ASD_FB_RGBX32) && negb (fi_format b =? ASD_FB_BGRX32) then Some off
      else
        let cols := fi_width b / CELL_W in
        let rows := fi_height b / CELL_H in
        let cap := if MAX_TEXT_CELLS <? u32 (cols * rows) then MAX_TEXT_CELLS else u32 (cols * rows) in
        let s := mk_screen (fi_mem b) (fi_width b) (fi_height b) (fi_stride b) in
        let c := mk_fbcon s cols rows 0 0 false (fc_cells c) cap false now (fc_fg c) (fc_bg c) (fc_ansi c) in
        cells ← blank_cells c;
        s ← clear_row_pixels s 0 (sn_h s) (mk_rgb (fi_format b) 0 0 0);
        cursor_draw (mk_fbcon s cols rows 0 0 true cells cap false now (fc_fg c) (fc_bg c) (fc_ansi c))
  end.

Definition fb_console_clear (c : fbcon_t) (now : Z) : option fbcon_t :=
  if negb (fc_ready c) then Some c
  else
    c ← cursor_erase c;
    s ← clear_row_pixels (fc_screen c) 0 (sn_h (fc_screen c)) (fc_bg c);
    let c := set_pos (set_screen c s) 0 0 in
    cells ← blank_cells c;
    cursor_draw (set_last_tsc (set_cells c cells) now).

(** ** Escape sequences *)

Definition INT_MAX : Z := 2 ^ 31 - 1.

(** A digit of a parameter; the arithmetic is signed. *)
Definition csi_digit (a : ansi_t) (d : Z) : option ansi_t :=
  if an_num a <? ANSI_MAX_PARAMS then
    p ← an_params a !! Z.to_nat (an_num a);
    let p := (if p =? -1 then 0 else p) * 10 + d in
    if INT_MAX <? p then None
    else ps ← put (an_params a) (Z.to_nat (an_num a)) p; Some (mk_ansi (an_state a) ps (an_num a))
  else Some a.

Definition csi_next (a : ansi_t) : option ansi_t :=
  let n := if an_num a <? ANSI_MAX_PARAMS then an_num a + 1 else an_num a in
  ps ← (if n <? ANSI_MAX_PARAMS then put (an_params a) (Z.to_nat n) (-1) else Some (an_params a));
  Some (mk_ansi (an_state a) ps n).

(** The last parameter is counted if it has a digit. *)
Definition csi_count (a : ansi_t) : option Z :=
  if an_num a <? ANSI_MAX_PARAMS then
    p ← an_params a !! Z.to_nat (an_num a); Some (if p =? -1 then an_num a else an_num a + 1)
  else Some (an_num a).

(** Parameter [i], which is 1 when it is absent. *)
Definition csi_param (a : ansi_t) (num : Z) (i : nat) : option Z :=
  if Z.of_nat i <? num then p ← an_params a !! i; Some (if p =? -1 then 1 else p) else Some 1.

Definition pal : list Z := [0x000000; 0xAA0000; 0x00AA00; 0xAA5500; 0x0000AA; 0xAA00AA; 0x00AAAA; 0xAAAAAA].

(** One parameter of [m]. *)
Definition sgr (m : Z) (c : fbcon_t) : option fbcon_t :=
  if m =? 0 then Some (fb_console_set_colors c 0xEEEEEE 0x000000)
  else if (30 <=? m) && (m <=? 37) then v ← pal !! Z.to_nat (m - 30); Some (fb_console_set_colors c v (fc_bg c))
  else if (40 <=? m) && (m <=? 47) then v ← pal !! Z.to_nat (m - 40); Some (fb_console_set_colors c (fc_fg c) v)
  else Some c.

(** [K] *)
Definition erase_line (c : fbcon_t) (p1 : Z) : option fbcon_t :=
  let start := if (p1 =? 1) || (p1 =? 2) then 0 else fc_cx c in
  let stop := if (p1 =? 0) || (p1 =? 2) then fc_cols c else u32 (fc_cx c + 1) in
  for_n (Z.to_nat (stop - start)) start (fun x c =>
    c ← draw_char c x (fc_cy c) 32 false;
    let i := u32 (fc_cy c * fc_cols c + x) in
    if i <? fc_cell_cap c then cells ← put (fc_cells c) (Z.to_nat i) 32; Some (set_cells c cells) else Some c) c.

(** What the final character of a sequence does. *)
Definition csi_final (c : fbcon_t) (ch p1 p2 num now : Z) : option fbcon_t :=
  let x := fc_cx c in
  let y := fc_cy c in
  if (ch =? 72) || (ch =? 102) then (* H f *)
    let row := if 0 <? p1 then p1 - 1 else 0 in
    let col := if 0 <? p2 then p2 - 1 else 0 in
    let row := if fc_rows c <=? row then u32 (fc_rows c - 1) else row in
    let col := if fc_cols c <=? col then u32 (fc_cols c - 1) else col in
    Some (set_pos c col row)
  else if ch =? 65 then Some (set_pos c x (if p1 <=? y then y - p1 else 0)) (* A *)
  else if ch =? 66 then (* B *)
    let y := u32 (y + p1) in Some (set_pos c x (if fc_rows c <=? y then u32 (fc_rows c - 1) else y))
  else if ch =? 67 then (* C *)
    let x := u32 (x + p1) in Some (set_pos c (if fc_cols c <=? x then u32 (fc_cols c - 1) else x) y)
  else if ch =? 68 then Some (set_pos c (if p1 <=? x then x - p1 else 0) y) (* D *)
  else if ch =? 74 then if p1 =? 2 then fb_console_clear c now else Some c (* J *)
  else if ch =? 75 then erase_line c p1 (* K *)
  else if ch =? 109 then for_n (Z.to_nat num) 0 (fun i c => m ← an_params (fc_ansi c) !! Z.to_nat i; sgr m c) c (* m *)
  else Some c.

Definition handle_ansi_csi (c : fbcon_t) (ch now : Z) : option fbcon_t :=
  let a := fc_ansi c in
  if (48 <=? ch) && (ch <=? 57) then a ← csi_digit a (ch - 48); Some (set_ansi c a)
  else if ch =? 59 then a ← csi_next a; Some (set_ansi c a)
  else
    num ← csi_count a;
    p1 ← csi_param a num 0; p2 ← csi_param a num 1;
    c ← csi_final c ch p1 p2 num now;
    Some (set_ansi c (mk_ansi ANSI_STATE_NORMAL (an_params (fc_ansi c)) num)).

(** ** Characters *)

(** The character is stored in the cell of the cursor. *)
Definition put_cell (c : fbcon_t) (ch : Z) : option fbcon_t :=
  if (fc_cx c <? fc_cols c) && (fc_cy c <? fc_rows c) && (cell_idx c <? fc_cell_cap c) then
    cells ← put (fc_cells c) (Z.to_nat (cell_idx c)) ch; Some (set_cells c cells)
  else Some c.

(** A character outside escape sequences. *)
Definition put_text (c : fbcon_t) (ch : Z) : option fbcon_t :=
  if ch =? 13 then Some (set_pos c 0 (fc_cy c))
  else if ch =? 10 then scroll_if_needed (set_pos c 0 (u32 (fc_cy c + 1)))
  else if ch =? 8 then
    let c := set_pos c (if 0 <? fc_cx c then fc_cx c - 1 else fc_cx c) (fc_cy c) in
    c ← draw_char c (fc_cx c) (fc_cy c) 32 false;
    put_cell c 32
  else
    c ← draw_char c (fc_cx c) (fc_cy c) ch false;
    c ← put_cell c ch;
    let x := u32 (fc_cx c + 1) in
    if fc_cols c <=? x then
      if fc_cy c <? u32 (fc_rows c - 1) then Some (set_pos c 0 (fc_cy c + 1)) else scroll_if_needed (set_pos c 0 (fc_cy c))
    else Some (set_pos c x (fc_cy c)).

Definition ansi_to (c : fbcon_t) (s : ansi_state) : fbcon_t := set_ansi c (mk_ansi s (an_params (fc_ansi c)) (an_num (fc_ansi c))).

(** [now] is the time when the sequence clears the screen, [now'] the time at the end. *)
Definition fb_console_putc (c : fbcon_t) (ch now now' : Z) : option fbcon_t :=
  if negb (fc_ready c) then Some c
  else
    c ← cursor_erase c;
    c ← match an_state (fc_ansi c) with
        | ANSI_STATE_ESC =>
            if ch =? 91 then
              ps ← put (an_params (fc_ansi c)) 0 (-1); Some (set_ansi c (mk_ansi ANSI_STATE_CSI ps 0))
            else Some (ansi_to c ANSI_STATE_NORMAL)
        | ANSI_STATE_CSI => handle_ansi_csi c ch now
        | ANSI_STATE_NORMAL => if ch =? 0x1B then Some (ansi_to c ANSI_STATE_ESC) else put_text c ch
        end;
    cursor_draw (set_last_tsc c now').

(** [tsc] gives the two times for every character. *)
Fixpoint fb_console_puts (c : fbcon_t) (s : list Z) (tsc : nat -> Z * Z) : option fbcon_t :=
  match s with
  | [] => None
  | ch :: s' => if ch =? 0 then Some c else c ← fb_console_putc c ch (tsc 0%nat).1 (tsc 0%nat).2; fb_console_puts c s' (fun i => tsc (S i))
  end.

Definition fb_console_tick (c : fbcon_t) (now : Z) : option fbcon_t :=
  if negb (fc_ready c) then Some c
  else if u64 (now - fc_last_tsc c) <? g_cursor_period_tsc then Some c
  else let c := set_last_tsc c now in if fc_cursor_on c then cursor_erase c else cursor_draw c.

Definition fb_console_get_size (c : fbcon_t) : Z * Z := (fc_cols c, fc_rows c).

Definition fb_console_set_cursor (c : fbcon_t) (col row : Z) : option fbcon_t :=
  if negb (fc_ready c) then Some c
  else
    c ← cursor_erase c;
    let col := if (0 <? fc_cols c) && (fc_cols c <=? col) then fc_cols c - 1 else col in
    let row := if (0 <? fc_rows c) && (fc_rows c <=? row) then fc_rows c - 1 else row in
    cursor_draw (set_pos c col row).

Definition fb_console_draw_box (c : fbcon_t) (x y w h : Z) (title : option (list Z)) : option fbcon_t :=
  c ← for_n (Z.to_nat w) 0 (fun i c => c ← draw_char c (u32 (x + i)) y 45 false; draw_char c (u32 (x + i)) (u32 (y + h - 1)) 45 false) c;
  c ← for_n (Z.to_nat h) 0 (fun i c => c ← draw_char c x (u32 (y + i)) 124 false; draw_char c (u32 (x + w - 1)) (u32 (y + i)) 124 false) c;
  c ← draw_char c x y 43 false;
  c ← draw_char c (u32 (x + w - 1)) y 43 false;
  c ← draw_char c x (u32 (y + h - 1)) 43 false;
  c ← draw_char c (u32 (x + w - 1)) (u32 (y + h - 1)) 43 false;
  match title with
  | None => Some c
  | Some t =>
      n ← find_idx (fun b => b =? 0) t;
      let len := Z.of_nat n in
      if len <? u32 (w - 2) then
        let tx := u32 (x + u32 (w - len) / 2) in
        for_n n 0 (fun i c => ch ← t !! Z.to_nat i; draw_char c (u32 (tx + i)) y ch false) c
      else Some c
  end.
