(* ===== verification/FbconSpec.v ===== *)
(** * The console: properties

    Every byte sent to the console keeps the cursor on the screen and the stores in the frame
    buffer, and is handled completely, unless it makes a parameter of an escape sequence
    overflow.  Text is shown as on a terminal: the pixels are those of the characters in the
    cells, with the cursor inverted. *)

From Stdlib Require Import ZArith Lia.
From stdpp Require Import base strings list.
From S2P Require Import Prelude Font Fbcon.

Local Open Scope Z_scope.

(** ** Loops *)

Lemma for_n_ind {A} (P : Z -> A -> Prop) (f : Z -> A -> option A) n : forall i a,
  P i a -> (forall j a, i <= j < i + Z.of_nat n -> P j a -> exists a', f j a = Some a' /\ P (j + 1) a') ->
  exists a', for_n n i f a = Some a' /\ P (i + Z.of_nat n) a'.
Proof.
  induction n as [|n IH]; intros i a Ha Hf; [exists a; split; [done|by rewrite Z.add_0_r]|]. simpl for_n.
  destruct (Hf i a) as (a1 & -> & H1); [lia|done|]. simpl mbind.
  destruct (IH (i + 1) a1 H1) as (a2 & E & H2); [intros; apply Hf; [lia|done]|]. exists a2. split; [done|].
  by replace (i + Z.of_nat (S n)) with (i + 1 + Z.of_nat n) by lia.
Qed.

Lemma for_n_inv {A} (P : A -> Prop) (f : Z -> A -> option A) n i a :
  P a -> (forall j a, i <= j < i + Z.of_nat n -> P a -> exists a', f j a = Some a' /\ P a') ->
  exists a', for_n n i f a = Some a' /\ P a'.
Proof. intros Ha Hf. by apply (for_n_ind (fun _ => P)). Qed.

(** ** Pixels *)

Definition pix (s : screen_t) (x y : Z) : option Z := sn_fb s !! Z.to_nat (y * sn_stride s + x).

(** A screen of at most 65535 by 65535 pixels whose rows are in its memory. *)
Record screen_ok (s : screen_t) : Prop := {
  sn_w_ok : 0 < sn_w s < 2 ^ 16;
  sn_h_ok : 0 < sn_h s < 2 ^ 16;
  sn_stride_ok : sn_w s <= sn_stride s;
  sn_fb_ok : sn_stride s * sn_h s <= Z.of_nat (length (sn_fb s));
}.

Definition on_screen (s : screen_t) (x y : Z) : Prop := 0 <= x < sn_w s /\ 0 <= y < sn_h s.

(** [s'] is [s] with the pixels [f]. *)
Definition repainted (s : screen_t) (f : Z -> Z -> option Z) (s' : screen_t) : Prop :=
  screen_ok s' /\ sn_w s' = sn_w s /\ sn_h s' = sn_h s /\ sn_stride s' = sn_stride s /\
  forall x y, on_screen s x y -> pix s' x y = f x y.

Lemma repainted_refl s : screen_ok s -> repainted s (pix s) s.
Proof. intros O. unfold repainted. by split_and!. Qed.

Lemma repainted_ext s f g s' : repainted s f s' -> (forall x y, on_screen s x y -> f x y = g x y) -> repainted s g s'.
Proof. intros (O & W & H & S & P) E. unfold repainted. split_and!; try done. intros x y Hxy. rewrite <- E by done. by apply P. Qed.

Lemma repainted_trans s f s1 g s2 : repainted s f s1 -> repainted s1 g s2 -> repainted s g s2.
Proof.
  intros (O & W & H & S & P) (O2 & W2 & H2 & S2 & P2). unfold repainted. split_and!; try congruence. intros x y Hxy. apply P2.
  unfold on_screen in *. by rewrite W, H.
Qed.

Lemma offset_lt s x y : screen_ok s -> on_screen s x y -> 0 <= y * sn_stride s + x < Z.of_nat (length (sn_fb s)).
Proof. intros [Hw Hh Hs Hf] [Hx Hy]. nia. Qed.

Lemma offset_inj s x y x' y' : screen_ok s -> on_screen s x y -> on_screen s x' y' ->
  y * sn_stride s + x = y' * sn_stride s + x' -> x = x' /\ y = y'.
Proof. intros [Hw Hh Hs Hf] [Hx Hy] [Hx' Hy'] E. assert (y = y') by nia. split; [nia|done]. Qed.

Lemma pix_Some s x y : screen_ok s -> on_screen s x y -> is_Some (pix s x y).
Proof. intros O Hxy. pose proof (offset_lt s x y O Hxy). apply lookup_lt_is_Some_2. lia. Qed.

Definition at_pix {A} (x y : Z) (v : A) (f : Z -> Z -> A) (x' y' : Z) : A :=
  if decide (x' = x /\ y' = y) then v else f x' y'.

Lemma store_ok s x y c : screen_ok s -> on_screen s x y ->
  exists s', store s x y c = Some s' /\ repainted s (at_pix x y (Some c) (pix s)) s'.
Proof.
  intros O Hxy. pose proof (offset_lt s x y O Hxy) as Hlt. unfold store, put. destruct (decide _) as [_|]; [|lia]. simpl.
  eexists. split; [reflexivity|]. unfold repainted. split; [|split_and!; try done].
  - destruct O as [Hw Hh Hs Hf]. split; simpl; rewrite ?length_insert; done.
  - intros x' y' Hxy'. unfold pix, at_pix. simpl. destruct (decide _) as [[-> ->]|Hne].
    + apply list_lookup_insert_eq. lia.
    + apply list_lookup_insert_ne. intros E. apply Hne. pose proof (offset_lt s x' y' O Hxy').
      destruct (offset_inj s x y x' y' O Hxy Hxy'); [lia|done].
Qed.

Lemma plot_ok s x y c : screen_ok s -> 0 <= x -> 0 <= y ->
  exists s', plot x y c s = Some s' /\ repainted s (at_pix x y (Some c) (pix s)) s'.
Proof.
  intros O Hx Hy. unfold plot. destruct (_ || _) eqn:E; [|apply store_ok; [done|unfold on_screen; lia]].
  exists s. split; [done|]. eapply repainted_ext; [by apply repainted_refl|]. intros x' y' [? ?]. unfold at_pix. case_decide; [lia|done].
Qed.

(** A row filled up to [n]. *)
Definition row_to (y n : Z) (v : Z) (f : Z -> Z -> option Z) (x' y' : Z) : option Z :=
  if decide (y' = y /\ x' < n) then Some v else f x' y'.

Lemma repainted_at_row s y n v f s' : repainted s (at_pix n y (Some v) (row_to y n v f)) s' -> repainted s (row_to y (n + 1) v f) s'.
Proof. intros R. eapply repainted_ext; [exact R|]. intros x' y' _. unfold at_pix, row_to. repeat case_decide; (done || lia). Qed.

Lemma store_row s s0 x y v : screen_ok s0 -> 0 <= x < sn_w s0 -> 0 <= y < sn_h s0 -> repainted s0 (row_to y x v (pix s0)) s ->
  exists s', store s x y v = Some s' /\ repainted s0 (row_to y (x + 1) v (pix s0)) s'.
Proof.
  intros O Hx Hy (O1 & W & H & S & P). destruct (store_ok s x y v O1) as (s' & -> & R); [unfold on_screen; lia|].
  exists s'. split; [done|]. apply repainted_at_row. destruct R as (O2 & W2 & H2 & S2 & P2). unfold repainted. split_and!; try congruence.
  intros x' y' Hxy. rewrite P2 by (unfold on_screen in *; lia). unfold at_pix. case_decide; [done|]. by apply P.
Qed.

Lemma fill_row_ok s0 y v fuel : forall x s, screen_ok s0 -> 0 <= y < sn_h s0 -> 0 <= x <= sn_w s0 -> sn_w s0 - x <= 4 * Z.of_nat fuel ->
  repainted s0 (row_to y x v (pix s0)) s ->
  exists s', fill_row fuel s x y v = Some s' /\ repainted s0 (row_to y (sn_w s0) v (pix s0)) s'.
Proof.
  induction fuel as [|fuel IH]; intros x s O Hy Hx Hf R; pose proof (sn_w_ok _ O) as Hw; pose proof R as (_ & W & _);
    cbn [fill_row]; rewrite W, u32_small by lia; (destruct (Z.leb_spec (x + 4) (sn_w s0)) as [Hle|Hgt]; [try lia|]).
  1,3: destruct (for_n_ind (fun j s => repainted s0 (row_to y j v (pix s0)) s) (fun x s => store s x y v) (Z.to_nat (sn_w s0 - x)) x s R) as (s' & E & R');
    [intros j a Hj Ra; apply store_row; [done|lia|lia|done]|exists s'; split; [done|]; by replace (x + Z.of_nat (Z.to_nat (sn_w s0 - x))) with (sn_w s0) in R' by lia].
  destruct (store_row s s0 x y v) as (s1 & -> & R1); try (done || lia). cbn [mbind option_bind].
  destruct (store_row s1 s0 (x + 1) y v) as (s2 & -> & R2); try (done || lia). cbn [mbind option_bind].
  destruct (store_row s2 s0 (x + 1 + 1) y v) as (s3 & E3 & R3); try (done || lia).
  destruct (store_row s3 s0 (x + 1 + 1 + 1) y v) as (s4 & E4 & R4); try (done || lia).
  replace (x + 1 + 1) with (x + 2) in * by lia. rewrite E3. cbn [mbind option_bind]. replace (x + 2 + 1) with (x + 3) in * by lia.
  rewrite E4. cbn [mbind option_bind]. apply IH; try (done || lia). by replace (x + 3 + 1) with (x + 4) in R4 by lia.
Qed.

(** Rows from [lo] to [hi] have one colour. *)
Definition rows_in (lo hi : Z) (v : Z) (f : Z -> Z -> option Z) (x y : Z) : option Z :=
  if decide (lo <= y < hi) then Some v else f x y.

Lemma clear_row_pixels_ok s lo hi v : screen_ok s -> 0 <= lo -> hi <= sn_h s ->
  exists s', clear_row_pixels s lo hi v = Some s' /\ repainted s (rows_in lo hi v (pix s)) s'.
Proof.
  intros O Hlo Hhi. unfold clear_row_pixels. destruct (Z.ltb_spec (sn_h s) hi) as [|_]; [lia|].
  destruct (for_n_ind (fun j s' => repainted s (rows_in lo j v (pix s)) s') (fun y s => fill_row (Z.to_nat (sn_w s)) s 0 y v) (Z.to_nat (hi - lo)) lo s)
    as (s' & E & R).
  - eapply repainted_ext; [by apply repainted_refl|]. intros x y _. unfold rows_in. case_decide; [lia|done].
  - intros j a Hj Ra. pose proof Ra as (Oa & Wa & Ha & Sa & Pa).
    pose proof (sn_w_ok _ Oa). destruct (fill_row_ok a j v (Z.to_nat (sn_w a)) 0 a) as (a' & -> & R'); try (done || lia).
    { eapply repainted_ext; [by apply repainted_refl|]. intros x y [? ?]. unfold row_to. case_decide; [lia|done]. }
    exists a'. split; [done|]. eapply repainted_ext; [eapply repainted_trans; [exact Ra|exact R']|].
    intros x y [Hx Hy]. unfold row_to, rows_in. rewrite Wa. rewrite Pa by done. unfold rows_in. repeat case_decide; (done || lia).
  - exists s'. split; [done|]. eapply repainted_ext; [exact R|]. intros x y _. unfold rows_in. repeat case_decide; (done || lia).
Qed.

(** Pixels moved up by [k] rows, up to pixel [i] of row [j]. *)
Definition moved (k j i : Z) (f : Z -> Z -> option Z) (x y : Z) : option Z :=
  if decide (y < j \/ y = j /\ x < i) then f x (y + k) else f x y.

Lemma move_pixel s0 s k j i : screen_ok s0 -> 0 < k -> 0 <= j -> j + k < sn_h s0 -> 0 <= i < sn_w s0 -> repainted s0 (moved k j i (pix s0)) s ->
  exists s', (c ← sn_fb s !! Z.to_nat ((j + k) * sn_stride s + i); store s i j c) = Some s' /\ repainted s0 (moved k j (i + 1) (pix s0)) s'.
Proof.
  intros O Hk Hj Hjk Hi (O1 & W & H & S & P). destruct (pix_Some s0 i (j + k) O) as [v Hv]; [unfold on_screen; lia|].
  assert (pix s i (j + k) = Some v) as E by (rewrite P by (unfold on_screen; lia); unfold moved; case_decide; [lia|done]).
  unfold pix in E. rewrite E. cbn [mbind option_bind]. destruct (store_ok s i j v O1) as (s' & -> & (O2 & W2 & H2 & S2 & P2)); [unfold on_screen; lia|].
  exists s'. split; [done|]. unfold repainted. split_and!; try congruence. intros x y Hxy. rewrite P2 by (unfold on_screen in *; lia).
  unfold at_pix. rewrite P by done. unfold moved. repeat case_decide; try (done || lia).
  destruct H0 as [-> ->]. by rewrite Hv.
Qed.

Lemma scroll_pixels_ok s k : screen_ok s -> 0 < k ->
  exists s', scroll_pixels s k = Some s' /\ repainted s (fun x y => if decide (y + k < sn_h s) then pix s x (y + k) else pix s x y) s'.
Proof.
  intros O Hk. unfold scroll_pixels. pose proof (sn_w_ok _ O) as Hw. edestruct (for_n_ind (fun j s' => repainted s (moved k j 0 (pix s)) s')) as (s' & E & R).
  3: { exists s'. split; [exact E|]. eapply repainted_ext; [exact R|]. intros x y [Hx Hy]. unfold moved. repeat case_decide; (done || lia). }
  - eapply repainted_ext; [by apply repainted_refl|]. intros x y [Hx Hy]. unfold moved. case_decide; [lia|done].
  - intros j a Hj Ra. edestruct (for_n_ind (fun i s' => repainted s (moved k j i (pix s)) s')) as (a' & E & R').
    3: { exists a'. split; [exact E|]. destruct Ra as (_ & Wa & _). eapply repainted_ext; [exact R'|]. intros x y [Hx Hy]. unfold moved. repeat case_decide; (done || lia). }
    + exact Ra.
    + intros i b Hi Rb. destruct Ra as (_ & Wa & _). apply move_pixel; (done || lia).
Qed.

(** ** Characters *)

Definition glyph_bit (ch x y : Z) : bool :=
  match bsd_vgarom_glyph_8x16 ch with
  | Some g => match g !! Z.to_nat y with Some bits => negb (Z.land bits (Z.shiftr 0x80 x) =? 0) | None => false end
  | None => false
  end.

(** The colour of a pixel of a character. *)
Definition ink (fg bg ch : Z) (inv : bool) (x y : Z) : Z := if xorb (glyph_bit ch x y) inv then fg else bg.

(** The pixels of cell [(cx, cy)] show [ch]. *)
Definition drawn (cx cy fg bg ch : Z) (inv : bool) (f : Z -> Z -> option Z) (x y : Z) : option Z :=
  if decide (x / 8 = cx /\ y / 16 = cy) then Some (ink fg bg ch inv (x mod 8) (y mod 16)) else f x y.

(** As far as row [j] and column [i] of the cell. *)
Definition drawn_to (cx cy fg bg ch : Z) (inv : bool) (j i : Z) (f : Z -> Z -> option Z) (x y : Z) : option Z :=
  if decide (x / 8 = cx /\ y / 16 = cy /\ (y mod 16 < j \/ y mod 16 = j /\ x mod 8 < i)) then Some (ink fg bg ch inv (x mod 8) (y mod 16)) else f x y.

Lemma plot_char s0 s cx cy fg bg ch inv j i v :
  screen_ok s0 -> 0 <= cx -> 0 <= cy -> 0 <= j < 16 -> 0 <= i < 8 -> v = ink fg bg ch inv i j ->
  repainted s0 (drawn_to cx cy fg bg ch inv j i (pix s0)) s ->
  exists s', plot (cx * 8 + i) (cy * 16 + j) v s = Some s' /\ repainted s0 (drawn_to cx cy fg bg ch inv j (i + 1) (pix s0)) s'.
Proof.
  intros O Hx Hy Hj Hi -> (O1 & W & H & S & P). destruct (plot_ok s (cx * 8 + i) (cy * 16 + j) (ink fg bg ch inv i j) O1) as (s' & -> & (O2 & W2 & H2 & S2 & P2)); [lia..|].
  exists s'. split; [done|]. unfold repainted. split_and!; try congruence. intros x y Hxy. rewrite P2 by (unfold on_screen in *; lia).
  unfold at_pix. rewrite P by done. unfold drawn_to.
  destruct (decide (x = cx * 8 + i /\ y = cy * 16 + j)) as [[-> ->]|Hne].
  - rewrite decide_True by (split_and!; Z.div_mod_to_equations; lia). do 2 f_equal; Z.div_mod_to_equations; lia.
  - apply decide_ext. split; [Z.div_mod_to_equations; lia|]. intros (E1 & E2 & [E3|[E3 E4]]); split_and!; try done; [by left|].
    right. split; [done|]. assert (x mod 8 <> i); [|lia]. intros E5. apply Hne. revert E1 E2 E3 E5. Z.div_mod_to_equations. lia.
Qed.

Definition same_dims (s s' : screen_t) : Prop := screen_ok s' /\ sn_w s' = sn_w s /\ sn_h s' = sn_h s /\ sn_stride s' = sn_stride s.

(** Drawing never leaves the frame buffer, whatever the position. *)
Lemma draw_char_safe c cx cy ch inv : screen_ok (fc_screen c) ->
  exists s, draw_char c cx cy ch inv = Some (set_screen c s) /\ same_dims (fc_screen c) s.
Proof.
  intros O. unfold draw_char. destruct (glyph_ok ch) as (g & -> & Hg). cbn [mbind option_bind].
  edestruct (for_n_inv (same_dims (fc_screen c))) as (s & E & R).
  3: { exists s. rewrite E. by split. }
  - by split_and!.
  - intros j a Hj Ra. destruct (lookup_lt_is_Some_2 g (Z.to_nat j)) as [bits ->]; [rewrite Hg; unfold CELL_H in Hj; lia|]. cbn [mbind option_bind].
    apply for_n_inv; [done|]. intros i b Hi (Ob & Wb & Hb & Sb).
    edestruct plot_ok as (b' & E & (O2 & W2 & H2 & S2 & _)); [exact Ob|apply u32_range|apply u32_range|].
    exists b'. split; [exact E|]. unfold same_dims. split_and!; congruence.
Qed.

Lemma draw_char_ok c cx cy ch inv : screen_ok (fc_screen c) -> 0 <= cx < 2 ^ 16 -> 0 <= cy < 2 ^ 16 ->
  exists s, draw_char c cx cy ch inv = Some (set_screen c s) /\
    repainted (fc_screen c) (drawn cx cy (fc_fg c) (fc_bg c) ch inv (pix (fc_screen c))) s.
Proof.
  intros O Hx Hy. unfold draw_char. destruct (glyph_ok ch) as (g & Eg & Hg). rewrite Eg. cbn [mbind option_bind]. unfold CELL_W, CELL_H.
  edestruct (for_n_ind (fun j s => repainted (fc_screen c) (drawn_to cx cy (fc_fg c) (fc_bg c) ch inv j 0 (pix (fc_screen c))) s)) as (s & E & R).
  3: { exists s. rewrite E. split; [done|]. eapply repainted_ext; [exact R|]. intros x y _. unfold drawn_to, drawn. apply decide_ext.
       change (0 + Z.of_nat (Z.to_nat 16)) with 16. Z.div_mod_to_equations. lia. }
  - eapply repainted_ext; [by apply repainted_refl|]. intros x y _. unfold drawn_to. case_decide; [|done]. Z.div_mod_to_equations. lia.
  - intros j a Hj Ra. change (0 + Z.of_nat (Z.to_nat 16)) with 16 in Hj. destruct (lookup_lt_is_Some_2 g (Z.to_nat j)) as [bits Eb]; [rewrite Hg; lia|]. rewrite Eb. cbn [mbind option_bind].
    edestruct (for_n_ind (fun i s => repainted (fc_screen c) (drawn_to cx cy (fc_fg c) (fc_bg c) ch inv j i (pix (fc_screen c))) s)) as (a' & E & R').
    3: { exists a'. split; [exact E|]. eapply repainted_ext; [exact R'|]. intros x y _. unfold drawn_to. change (0 + Z.of_nat (Z.to_nat 8)) with 8.
         apply decide_ext. Z.div_mod_to_equations. lia. }
    + exact Ra.
    + intros i b Hi Rb. change (0 + Z.of_nat (Z.to_nat 8)) with 8 in Hi.
      rewrite (u32_small (cx * 8)), (u32_small (cy * 16)), (u32_small (cx * 8 + i)), (u32_small (cy * 16 + j)) by lia.
      apply plot_char; try (done || lia). unfold ink, glyph_bit. rewrite Eg, Eb. by destruct (_ =? 0), inv.
Qed.

(** ** Invariant *)

Record con_inv (c : fbcon_t) : Prop := {
  ci_screen : screen_ok (fc_screen c);
  ci_cols : fc_cols c = sn_w (fc_screen c) / 8;
  ci_rows : fc_rows c = sn_h (fc_screen c) / 16;
  ci_ready : fc_ready c = true;
  ci_x : 0 <= fc_cx c < fc_cols c;
  ci_y : 0 <= fc_cy c < fc_rows c;
  ci_cells : Z.of_nat (length (fc_cells c)) = MAX_TEXT_CELLS;
  ci_cap : fc_cell_cap c = Z.min MAX_TEXT_CELLS (fc_cols c * fc_rows c);
  ci_params : length (an_params (fc_ansi c)) = 8%nat;
  ci_num : 0 <= an_num (fc_ansi c) <= 8;
  ci_vals : Forall (fun p => -1 <= p <= INT_MAX) (an_params (fc_ansi c));
}.

(** The dimensions are small, so the 32-bit arithmetic is exact. *)
Lemma ci_dims c : con_inv c -> fc_cols c < 2 ^ 13 /\ fc_rows c < 2 ^ 12.
Proof. intros I. rewrite (ci_cols c I), (ci_rows c I). destruct (ci_screen c I). split; Z.div_mod_to_equations; lia. Qed.

Lemma cell_idx_eq c : con_inv c -> cell_idx c = fc_cy c * fc_cols c + fc_cx c /\ 0 <= fc_cy c * fc_cols c + fc_cx c < fc_cols c * fc_rows c.
Proof.
  intros I. pose proof (ci_dims c I). destruct (ci_x c I), (ci_y c I). unfold cell_idx. rewrite u32_small; [split; [done|nia]|nia].
Qed.

(** The invariant does not depend on the pixels, on the cursor's drawing, on the time or on the colours. *)
Lemma inv_screen c s : con_inv c -> same_dims (fc_screen c) s -> con_inv (set_screen c s).
Proof. intros [] (O & W & H & S). split; simpl; rewrite ?W, ?H; done. Qed.

Lemma inv_cursor c b : con_inv c -> con_inv (set_cursor_on c b).
Proof. by intros []. Qed.

Lemma inv_tsc c n : con_inv c -> con_inv (set_last_tsc c n).
Proof. by intros []. Qed.

Lemma inv_pos c x y : con_inv c -> 0 <= x < fc_cols c -> 0 <= y < fc_rows c -> con_inv (set_pos c x y).
Proof. by intros []. Qed.

Lemma inv_cells c v : con_inv c -> length v = length (fc_cells c) -> con_inv (set_cells c v).
Proof. intros [] E. split; simpl; rewrite ?E; done. Qed.

Lemma inv_colors c fg bg : con_inv c -> con_inv (fb_console_set_colors c fg bg).
Proof. by intros []. Qed.

Lemma inv_ansi c a : con_inv c -> length (an_params a) = 8%nat -> 0 <= an_num a <= 8 -> Forall (fun p => -1 <= p <= INT_MAX) (an_params a) -> con_inv (set_ansi c a).
Proof. by intros []. Qed.

Create HintDb con discriminated.
#[export] Hint Resolve inv_cursor inv_tsc inv_colors : con.

(** ** What the screen shows *)

Definition cell (c : fbcon_t) (i : Z) : Z := default 32 (fc_cells c !! Z.to_nat i).

Definition expected (c : fbcon_t) (x y : Z) : Z :=
  if decide (x / 8 < fc_cols c /\ y / 16 < fc_rows c) then
    ink (fc_fg c) (fc_bg c) (cell c (y / 16 * fc_cols c + x / 8))
      (fc_cursor_on c && bool_decide (x / 8 = fc_cx c /\ y / 16 = fc_cy c)) (x mod 8) (y mod 16)
  else fc_bg c.

Definition shows (c : fbcon_t) : Prop :=
  forall x y, on_screen (fc_screen c) x y -> pix (fc_screen c) x y = Some (expected c x y).

(** Every cell of the screen is kept. *)
Definition full (c : fbcon_t) : Prop := fc_cols c * fc_rows c <= MAX_TEXT_CELLS.

(** The cell at the cursor. *)
Lemma cursor_cell c : con_inv c -> cell_idx c < fc_cell_cap c -> exists ch, fc_cells c !! Z.to_nat (cell_idx c) = Some ch /\ ch = cell c (cell_idx c).
Proof.
  intros I Hlt. destruct (cell_idx_eq c I) as [E Hb]. destruct (lookup_lt_is_Some_2 (fc_cells c) (Z.to_nat (cell_idx c))) as [ch Hch].
  { pose proof (ci_cells c I). rewrite (ci_cap c I) in Hlt. lia. }
  exists ch. split; [done|]. unfold cell. by rewrite Hch.
Qed.

Lemma set_cursor_id c : fc_cursor_on c = false -> set_cursor_on (set_screen c (fc_screen c)) false = c.
Proof. by destruct c; simpl; intros ->. Qed.

Lemma set_screen_id c : set_screen c (fc_screen c) = c.
Proof. by destruct c. Qed.

(** The cursor's cell drawn in either way. *)
Lemma redraw_cursor c b : con_inv c -> cell_idx c < fc_cell_cap c ->
  exists s, (ch ← fc_cells c !! Z.to_nat (cell_idx c); c ← draw_char c (fc_cx c) (fc_cy c) ch b; Some (set_cursor_on c b)) = Some (set_cursor_on (set_screen c s) b) /\
    same_dims (fc_screen c) s /\ (shows c -> shows (set_cursor_on (set_screen c s) b)).
Proof.
  intros I Hlt. destruct (cursor_cell c I Hlt) as (ch & -> & Hch). cbn [mbind option_bind].
  pose proof (ci_dims c I). destruct (ci_x c I), (ci_y c I), (cell_idx_eq c I) as [Ei _].
  destruct (draw_char_ok c (fc_cx c) (fc_cy c) ch b (ci_screen c I)) as (s & -> & (O & W & Hh & S & P)); [lia..|]. cbn [mbind option_bind].
  exists s. split; [done|]. split; [by split_and!|]. intros Hs x y Hxy. simpl in Hxy. unfold on_screen in Hxy. rewrite W, Hh in Hxy. simpl fc_screen. rewrite P by done.
  unfold drawn, expected. cbn [fc_cols fc_rows fc_cursor_on fc_cx fc_cy fc_fg fc_bg set_cursor_on set_screen]. destruct (decide (x / 8 = fc_cx c /\ y / 16 = fc_cy c)) as [[Ex Ey]|Hne].
  - rewrite decide_True by lia. rewrite Ex, Ey, bool_decide_eq_true_2 by done. unfold cell in *. simpl. rewrite <- Ei, <- Hch. by destruct b.
  - rewrite Hs by done. unfold expected. case_decide; [|done]. rewrite bool_decide_eq_false_2, !andb_false_r by done. done.
Qed.

Lemma cursor_erase_ok c : con_inv c ->
  exists s, cursor_erase c = Some (set_cursor_on (set_screen c s) false) /\ same_dims (fc_screen c) s /\
    (full c -> shows c -> shows (set_cursor_on (set_screen c s) false)).
Proof.
  intros I. unfold cursor_erase. rewrite (ci_ready c I). simpl. destruct (fc_cursor_on c) eqn:E; simpl.
  2: { exists (fc_screen c). rewrite set_cursor_id by done. pose proof (ci_screen c I). by split_and!. }
  destruct (ci_x c I), (ci_y c I). destruct (Z.leb_spec (fc_cols c) (fc_cx c)), (Z.leb_spec (fc_rows c) (fc_cy c)); try lia. simpl.
  destruct (Z.leb_spec (fc_cell_cap c) (cell_idx c)) as [Hge|Hlt].
  - exists (fc_screen c). rewrite set_screen_id. pose proof (ci_screen c I). split_and!; try done.
    intros Hf _. destruct (cell_idx_eq c I). pose proof (ci_cap c I). unfold full in Hf. lia.
  - destruct (redraw_cursor c false I Hlt) as (s & -> & Hs & Hsh). exists s. split_and!; (apply Hs || done || by intros _).
Qed.

Lemma cursor_draw_ok c : con_inv c ->
  exists s b, cursor_draw c = Some (set_cursor_on (set_screen c s) b) /\ same_dims (fc_screen c) s /\
    (full c -> shows c -> shows (set_cursor_on (set_screen c s) b)).
Proof.
  intros I. unfold cursor_draw. rewrite (ci_ready c I). simpl.
  destruct (ci_x c I), (ci_y c I). destruct (Z.leb_spec (fc_cols c) (fc_cx c)), (Z.leb_spec (fc_rows c) (fc_cy c)); try lia. simpl.
  destruct (Z.leb_spec (fc_cell_cap c) (cell_idx c)) as [Hge|Hlt].
  - exists (fc_screen c), (fc_cursor_on c). pose proof (ci_screen c I). replace (set_cursor_on _ _) with c by (by destruct c). by split_and!.
  - destruct (redraw_cursor c true I Hlt) as (s & -> & Hs & Hsh). exists s, true. split_and!; (apply Hs || done || by intros _).
Qed.

(** ** Scrolling *)

(** The first [k] cells hold what is [n] cells further. *)
Definition shifted (n k : Z) (l l' : list Z) : Prop :=
  length l' = length l /\ forall i, 0 <= i -> l' !! Z.to_nat i = if decide (i < k) then l !! Z.to_nat (i + n) else l !! Z.to_nat i.

Lemma shift_cell n k l l' : 0 < n -> 0 <= k -> k + n < Z.of_nat (length l) -> shifted n k l l' ->
  exists l'', (ch ← l' !! Z.to_nat (k + n); put l' (Z.to_nat k) ch) = Some l'' /\ shifted n (k + 1) l l''.
Proof.
  intros Hn Hk Hlt [L H]. destruct (lookup_lt_is_Some_2 l (Z.to_nat (k + n))) as [ch Hch]; [lia|].
  rewrite H, decide_False, Hch by lia. cbn [mbind option_bind]. unfold put. destruct (decide _) as [_|]; [|lia].
  eexists. split; [reflexivity|]. split; [by rewrite length_insert|]. intros i Hi.
  destruct (Z.eq_dec i k) as [->|Hne].
  - rewrite list_lookup_insert_eq, decide_True by lia. by rewrite Hch.
  - rewrite list_lookup_insert_ne, H by lia. repeat case_decide; (done || lia).
Qed.

Lemma scroll_cells_ok cells cols rows : 0 < cols -> 1 < rows -> cols * rows <= Z.of_nat (length cells) ->
  exists cells', scroll_cells cells cols rows = Some cells' /\ length cells' = length cells /\
    forall i, 0 <= i < cols * rows -> cells' !! Z.to_nat i = if decide (i < cols * (rows - 1)) then cells !! Z.to_nat (i + cols) else Some 32.
Proof.
  intros Hc Hr Hl. unfold scroll_cells.
  edestruct (for_n_ind (fun y l => shifted cols ((y - 1) * cols) cells l)) as (l1 & E1 & S1).
  3: rewrite E1; cbn [mbind option_bind].
  - split; [done|]. intros i Hi. case_decide; [lia|done].
  - intros y l Hy Hs. edestruct (for_n_ind (fun x l => shifted cols ((y - 1) * cols + x) cells l)) as (l' & E & S).
    3: { exists l'. split; [exact E|]. by replace ((y + 1 - 1) * cols) with ((y - 1) * cols + (0 + Z.of_nat (Z.to_nat cols))) by lia. }
    + by rewrite Z.add_0_r.
    + intros x l2 Hx Hs2.
      destruct (shift_cell cols ((y - 1) * cols + x) cells l2) as (l3 & E3 & S3); [done|nia|nia|done|].
      replace ((y - 1) * cols + x + cols) with (y * cols + x) in E3 by lia. exists l3. split; [exact E3|].
      by replace ((y - 1) * cols + (x + 1)) with ((y - 1) * cols + x + 1) by lia.
  - replace ((1 + Z.of_nat (Z.to_nat (rows - 1)) - 1) * cols) with (cols * (rows - 1)) in S1 by lia. destruct S1 as [L1 H1].
    edestruct (for_n_ind (fun x l => length l = length cells /\ forall i, 0 <= i < cols * rows -> l !! Z.to_nat i =
      if decide (i < cols * (rows - 1)) then cells !! Z.to_nat (i + cols) else if decide (i < cols * (rows - 1) + x) then Some 32 else cells !! Z.to_nat i)) as (l2 & E2 & [L2 H2]).
    3: { exists l2. split; [exact E2|]. split; [done|]. intros i Hi. rewrite H2 by done. repeat case_decide; (done || lia). }
    + split; [done|]. intros i Hi. rewrite H1 by lia. repeat case_decide; (done || lia).
    + intros x l Hx [Ll Hlk]. unfold put. destruct (decide _) as [_|]; [|nia]. eexists. split; [reflexivity|]. split; [by rewrite length_insert|].
      intros i Hi. destruct (Z.eq_dec i ((rows - 1) * cols + x)) as [->|Hne].
      * rewrite list_lookup_insert_eq by nia. repeat case_decide; (done || lia).
      * rewrite list_lookup_insert_ne by nia. rewrite Hlk by done. repeat case_decide; (done || lia).
Qed.

Lemma blank_ink fg bg x y : 0 <= x < 8 -> 0 <= y < 16 -> ink fg bg 32 false x y = bg.
Proof.
  intros Hx Hy. unfold ink, glyph_bit. change (bsd_vgarom_glyph_8x16 32) with (Some (replicate 16 0)). cbn [xorb].
  rewrite lookup_replicate_2 by lia. by rewrite Z.land_0_l.
Qed.

(** A state without a cursor shows its cells. *)
Lemma expected_off c x y : fc_cursor_on c = false ->
  expected c x y = if decide (x / 8 < fc_cols c /\ y / 16 < fc_rows c) then ink (fc_fg c) (fc_bg c) (cell c (y / 16 * fc_cols c + x / 8)) false (x mod 8) (y mod 16) else fc_bg c.
Proof. intros E. unfold expected. by rewrite E. Qed.

(** The pixels move up by one row of cells, and the last one is cleared. *)
Lemma scroll_screen_ok c : con_inv c ->
  exists s, (s ← scroll_pixels (fc_screen c) CELL_H; clear_row_pixels s (u32 (sn_h s - CELL_H)) (sn_h s) (fc_bg c)) = Some s /\ same_dims (fc_screen c) s /\
    forall x y, on_screen (fc_screen c) x y -> pix s x y = if decide (y < sn_h (fc_screen c) - 16) then pix (fc_screen c) x (y + 16) else Some (fc_bg c).
Proof.
  intros I. pose proof (ci_screen c I) as O. change CELL_H with 16. destruct (scroll_pixels_ok (fc_screen c) 16 O) as (s1 & -> & R1); [lia|]. cbn [mbind option_bind].
  pose proof R1 as (O1 & W1 & H1 & _ & P1). assert (16 <= sn_h (fc_screen c)) as Hh.
  { pose proof (ci_y c I). pose proof (ci_rows c I). Z.div_mod_to_equations. lia. }
  pose proof (sn_h_ok _ O). rewrite H1, u32_small by lia.
  destruct (clear_row_pixels_ok s1 (sn_h (fc_screen c) - 16) (sn_h (fc_screen c)) (fc_bg c) O1) as (s & -> & R2); [lia..|].
  exists s. split; [done|]. pose proof (repainted_trans _ _ _ _ _ R1 R2) as (O2 & W2 & H2 & S2 & P2). split; [by split_and!|].
  intros x y [Hx Hy]. rewrite P2 by done. unfold rows_in. rewrite P1 by done. repeat case_decide; (done || lia).
Qed.

(** The text moves up by one row. *)
Definition scrolled (cols rows : Z) (l l' : list Z) : Prop :=
  forall i, 0 <= i < cols * rows -> l' !! Z.to_nat i = if decide (i < cols * (rows - 1)) then l !! Z.to_nat (i + cols) else Some 32.

Lemma scroll_ok c : con_inv c ->
  exists s cells, scroll_if_needed (set_pos c 0 (fc_rows c)) = Some (set_cells (set_pos (set_screen c s) 0 (fc_rows c - 1)) cells) /\
    same_dims (fc_screen c) s /\ length cells = length (fc_cells c) /\
    (full c -> 1 < fc_rows c -> scrolled (fc_cols c) (fc_rows c) (fc_cells c) cells) /\
    forall x y, on_screen (fc_screen c) x y -> pix s x y = if decide (y < sn_h (fc_screen c) - 16) then pix (fc_screen c) x (y + 16) else Some (fc_bg c).
Proof.
  intros I. unfold scroll_if_needed. simpl fc_cy. simpl fc_rows. rewrite Z.ltb_irrefl. simpl fc_screen. simpl fc_bg.
  destruct (scroll_screen_ok c I) as (s & E & Hd & Hp). apply bind_Some in E as (s1 & -> & E). cbn [mbind option_bind]. rewrite E. cbn [mbind option_bind].
  pose proof (ci_dims c I). destruct (ci_x c I), (ci_y c I). pose proof (ci_cap c I) as Hcap. pose proof (ci_cells c I) as Hcl.
  cbn [fc_cell_cap fc_rows fc_cols fc_cells fc_cx set_pos set_screen]. rewrite !u32_small by nia.
  destruct (Z.eqb_spec (fc_cell_cap c) 0); [unfold MAX_TEXT_CELLS in *; nia|]. destruct (Z.ltb_spec 0 (fc_rows c)); [|lia]. cbn [negb andb].
  destruct (Z.eqb_spec (fc_cols c) 0); [lia|].
  set (rows := if fc_cell_cap c <? fc_cols c * fc_rows c then fc_cell_cap c / fc_cols c else fc_rows c).
  assert (fc_cols c * rows <= MAX_TEXT_CELLS) as Hfit.
  { unfold rows. destruct (Z.ltb_spec (fc_cell_cap c) (fc_cols c * fc_rows c)); [|lia]. pose proof (Z.mul_div_le (fc_cell_cap c) (fc_cols c)). lia. }
  assert (full c -> rows = fc_rows c) as Hfull by (unfold full, rows; intros; destruct (Z.ltb_spec (fc_cell_cap c) (fc_cols c * fc_rows c)); lia).
  destruct (Z.ltb_spec 1 rows) as [H1r|H1r], (Z.ltb_spec 0 (fc_cols c)); try lia; cbn [andb].
  - destruct (scroll_cells_ok (fc_cells c) (fc_cols c) rows) as (cells & -> & L & S); [done|done|lia|]. cbn [mbind option_bind].
    exists s, cells. split; [done|]. split; [done|]. split; [done|]. split; [|done]. intros Hf _. by rewrite (Hfull Hf) in S.
  - exists s, (fc_cells c). split; [by destruct c|]. split; [done|]. split; [done|]. split; [|done]. intros Hf Hr. rewrite (Hfull Hf) in H1r. lia.
Qed.

(** After scrolling the screen shows the new cells. *)
Lemma scroll_shows c s cells : con_inv c -> shows c -> fc_cursor_on c = false -> same_dims (fc_screen c) s -> length cells = length (fc_cells c) ->
  full c -> scrolled (fc_cols c) (fc_rows c) (fc_cells c) cells ->
  (forall x y, on_screen (fc_screen c) x y -> pix s x y = if decide (y < sn_h (fc_screen c) - 16) then pix (fc_screen c) x (y + 16) else Some (fc_bg c)) ->
  shows (set_cells (set_pos (set_screen c s) 0 (fc_rows c - 1)) cells).
Proof.
  intros I Hs Hoff (O & W & H & S) L Hf Hsc Hp x y Hxy. simpl in *. unfold on_screen in Hxy. rewrite W, H in Hxy. rewrite Hp by done. rewrite expected_off by done.
  cbn [fc_cols fc_rows fc_cx fc_cy fc_fg fc_bg fc_cells set_cells set_pos set_screen]. pose proof (ci_rows c I) as Hr. pose proof (ci_cells c I) as Hcl.
  destruct Hxy as [Hx Hy]. unfold full in Hf.
  assert (forall i, 0 <= i -> i < fc_cols c * fc_rows c -> cell (set_cells (set_pos (set_screen c s) 0 (fc_rows c - 1)) cells) i =
    if decide (i < fc_cols c * (fc_rows c - 1)) then cell c (i + fc_cols c) else 32) as Hcell.
  { intros i Hi Hlt. unfold cell. simpl. rewrite Hsc by done. by case_decide. }
  assert (x mod 8 < 8 /\ 0 <= x mod 8 /\ y mod 16 < 16 /\ 0 <= y mod 16 /\ 0 <= x / 8 /\ 0 <= y / 16) as (? & ? & ? & ? & ? & ?) by (Z.div_mod_to_equations; lia).
  pose proof (ci_x c I). assert ((y + 16) / 16 = y / 16 + 1) as E1 by (Z.div_mod_to_equations; lia).
  assert ((y + 16) mod 16 = y mod 16) as E2 by (Z.div_mod_to_equations; lia). f_equal.
  destruct (decide (y < sn_h (fc_screen c) - 16)) as [Hlow|Hhigh].
  - rewrite Hs by (unfold on_screen; lia). f_equal. rewrite expected_off by done. rewrite E1, E2.
    destruct (decide (x / 8 < fc_cols c /\ y / 16 < fc_rows c)) as [[Ha Hb]|Hout]; [|case_decide; [lia|done]].
    rewrite Hcell by nia. destruct (decide (y / 16 + 1 < fc_rows c)).
    + rewrite !decide_True by nia. do 2 f_equal. lia.
    + rewrite !decide_False by nia. by rewrite blank_ink by lia.
  - case_decide as Hin; [|done]. rewrite Hcell by nia. rewrite decide_False; [by rewrite blank_ink by lia|].
    assert (y / 16 = fc_rows c - 1) as ->; [|nia]. rewrite Hr in *. Z.div_mod_to_equations. lia.
Qed.

(** ** Text *)

(** A terminal: the text of the screen row by row, and the position. *)
Record term := mk_term { tm_text : list Z; tm_x : Z; tm_y : Z }.

Definition term_of (c : fbcon_t) : term := mk_term (take (Z.to_nat (fc_cols c * fc_rows c)) (fc_cells c)) (fc_cx c) (fc_cy c).

Definition term_put (cols rows : Z) (t : term) (ch : Z) : term :=
  let write x ch := <[Z.to_nat (tm_y t * cols + x) := ch]> (tm_text t) in
  if ch =? 13 then mk_term (tm_text t) 0 (tm_y t)
  else if ch =? 10 then
    if tm_y t + 1 <? rows then mk_term (tm_text t) 0 (tm_y t + 1)
    else mk_term (drop (Z.to_nat cols) (tm_text t) ++ replicate (Z.to_nat cols) 32) 0 (rows - 1)
  else if ch =? 8 then let x := Z.max 0 (tm_x t - 1) in mk_term (write x 32) x (tm_y t)
  else if tm_x t + 1 <? cols then mk_term (write (tm_x t) ch) (tm_x t + 1) (tm_y t)
  else mk_term (write (tm_x t) ch) 0 (Z.min (tm_y t + 1) (rows - 1)).

Lemma cell_inj cols x y x' y' : 0 <= x < cols -> 0 <= x' < cols -> 0 <= y -> 0 <= y' ->
  Z.to_nat (y * cols + x) = Z.to_nat (y' * cols + x') -> x = x' /\ y = y'.
Proof. intros Hx Hx' Hy Hy' E. assert (y * cols + x = y' * cols + x') as E' by nia. destruct (Z.div_mod_unique cols y y' x x'); lia. Qed.

(** A character drawn and stored at the cursor. *)
Lemma write_cell c ch : con_inv c -> fc_cursor_on c = false ->
  exists s cells, (c ← draw_char c (fc_cx c) (fc_cy c) ch false; put_cell c ch) = Some (set_cells (set_screen c s) cells) /\
    same_dims (fc_screen c) s /\ length cells = length (fc_cells c) /\
    (full c -> cells = <[Z.to_nat (fc_cy c * fc_cols c + fc_cx c) := ch]> (fc_cells c)) /\
    (full c -> shows c -> shows (set_cells (set_screen c s) cells)).
Proof.
  intros I Hoff. pose proof (ci_dims c I). pose proof (ci_x c I) as Hx. pose proof (ci_y c I) as Hy. destruct (cell_idx_eq c I) as [Ei Hi].
  destruct (draw_char_ok c (fc_cx c) (fc_cy c) ch false (ci_screen c I)) as (s & -> & (O & W & Hh & S & P)); [lia..|]. cbn [mbind option_bind].
  unfold put_cell. change (cell_idx (set_screen c s)) with (cell_idx c). rewrite Ei. cbn [fc_cx fc_cy fc_cols fc_rows fc_cell_cap fc_cells set_screen].
  pose proof (ci_cap c I) as Hcap. pose proof (ci_cells c I) as Hcl. unfold full.
  destruct (Z.ltb_spec (fc_cx c) (fc_cols c)), (Z.ltb_spec (fc_cy c) (fc_rows c)); try lia. cbn [andb].
  destruct (Z.ltb_spec (fc_cy c * fc_cols c + fc_cx c) (fc_cell_cap c)) as [Hlt|Hge].
  2: { exists s, (fc_cells c). split; [by destruct c|]. split; [by split_and!|]. split; [done|]. split; lia. }
  unfold put. destruct (decide _) as [_|]; [|lia]. cbn [mbind option_bind]. eexists s, _. split; [reflexivity|]. split; [by split_and!|].
  split; [by rewrite length_insert|]. split; [done|]. intros Hf Hs x y Hxy. simpl in Hxy. unfold on_screen in Hxy. rewrite W, Hh in Hxy. simpl fc_screen. rewrite P by done.
  rewrite expected_off by done. unfold drawn. cbn [fc_cols fc_rows fc_cx fc_cy fc_fg fc_bg fc_cells set_cells set_screen]. unfold cell. simpl.
  destruct (decide (x / 8 = fc_cx c /\ y / 16 = fc_cy c)) as [[Ex Ey]|Hne].
  - rewrite decide_True, Ex, Ey by lia. by rewrite list_lookup_insert_eq by lia.
  - rewrite Hs by done. rewrite expected_off by done. case_decide; [|done]. unfold cell. rewrite list_lookup_insert_ne; [done|].
    assert (0 <= x / 8 /\ 0 <= y / 16) by (Z.div_mod_to_equations; lia). intros E. apply Hne. apply cell_inj in E as [? ?]; lia.
Qed.

Lemma scrolled_text cols rows l l' : 0 < cols -> 1 < rows -> cols * rows <= Z.of_nat (length l) -> length l' = length l -> scrolled cols rows l l' ->
  take (Z.to_nat (cols * rows)) l' = drop (Z.to_nat cols) (take (Z.to_nat (cols * rows)) l) ++ replicate (Z.to_nat cols) 32.
Proof.
  intros Hc Hr Hl L H. assert (cols * (rows - 1) = cols * rows - cols /\ cols < cols * rows) as [Hm Hm'] by nia. apply list_eq. intros i. destruct (decide (Z.of_nat i < cols * rows)) as [Hi|Hi].
  - rewrite lookup_take_lt by lia. specialize (H (Z.of_nat i) ltac:(lia)). rewrite Nat2Z.id in H. rewrite H.
    assert (length (drop (Z.to_nat cols) (take (Z.to_nat (cols * rows)) l)) = Z.to_nat (cols * (rows - 1))) as Ld by (rewrite length_drop, length_take; lia).
    case_decide.
    + rewrite lookup_app_l, lookup_drop, lookup_take_lt by lia. f_equal. lia.
    + rewrite lookup_app_r, Ld, lookup_replicate_2 by lia. done.
  - rewrite lookup_take_ge by lia. symmetry. apply lookup_ge_None. rewrite length_app, length_drop, length_take, length_replicate. lia.
Qed.

(** What text leaves alone. *)
Definition same_setup (c c' : fbcon_t) : Prop :=
  fc_cols c' = fc_cols c /\ fc_rows c' = fc_rows c /\ fc_fg c' = fc_fg c /\ fc_bg c' = fc_bg c /\ fc_ansi c' = fc_ansi c.

Lemma take_write n i v (l : list Z) : (i < n)%nat -> take n (<[i := v]> l) = <[i := v]> (take n l).
Proof.
  intros Hi. apply list_eq. intros j. destruct (decide (j < n)%nat).
  - rewrite lookup_take_lt by done. destruct (decide (i = j)) as [<-|Hne].
    + destruct (decide (i < length l)%nat); [by rewrite !list_lookup_insert_eq by (rewrite ?length_take; lia)|].
      rewrite !list_insert_ge by (rewrite ?length_take; lia). by rewrite lookup_take_lt by lia.
    + rewrite !list_lookup_insert_ne by done. by rewrite lookup_take_lt by lia.
  - rewrite lookup_take_ge by lia. symmetry. apply lookup_ge_None. rewrite length_insert, length_take. lia.
Qed.

(** Moving the position is not seen while the cursor is off. *)
Lemma shows_pos c x y : fc_cursor_on c = false -> shows c -> shows (set_pos c x y).
Proof. intros Hoff Hs a b Hab. rewrite Hs by done. by rewrite !expected_off. Qed.

Lemma put_text_ok c ch : con_inv c -> fc_cursor_on c = false ->
  exists c', put_text c ch = Some c' /\ con_inv c' /\ fc_cursor_on c' = false /\ same_setup c c' /\
    (full c -> 1 < fc_rows c -> shows c -> shows c' /\ term_of c' = term_put (fc_cols c) (fc_rows c) (term_of c) ch).
Proof.
  intros I Hoff. pose proof (ci_dims c I). pose proof (ci_x c I) as Hx. pose proof (ci_y c I) as Hy.
  pose proof (ci_cells c I) as Hcl. unfold put_text, term_put. cbn [tm_text tm_x tm_y term_of].
  destruct (ch =? 13).
  { eexists. split; [reflexivity|]. split; [by apply inv_pos; [|lia|]|]. split; [done|]. split; [done|]. intros _ _ Hs. split; [by apply shows_pos|done]. }
  destruct (ch =? 10).
  { rewrite u32_small by lia. destruct (Z.ltb_spec (fc_cy c + 1) (fc_rows c)) as [Hlt|Hge].
    - unfold scroll_if_needed. simpl fc_cy. simpl fc_rows. destruct (Z.ltb_spec (fc_cy c + 1) (fc_rows c)); [|lia].
      eexists. split; [reflexivity|]. split; [apply inv_pos; (done || lia)|]. split; [done|]. split; [done|]. intros _ _ Hs. split; [by apply shows_pos|done].
    - replace (fc_cy c + 1) with (fc_rows c) by lia. destruct (scroll_ok c I) as (s & cells & -> & Hd & Hl & Hsc & Hp). eexists. split; [reflexivity|].
      split; [apply inv_cells; [apply inv_pos; [by apply inv_screen|simpl; lia..]|done]|]. split; [done|]. split; [done|].
      intros Hf Hr Hs. split; [by apply scroll_shows; auto|]. unfold term_of. simpl. f_equal. apply scrolled_text; try (done || lia); [unfold full in Hf; lia|by apply Hsc]. }
  destruct (ch =? 8).
  { set (x := if 0 <? fc_cx c then fc_cx c - 1 else fc_cx c). assert (x = Z.max 0 (fc_cx c - 1)) as Ex by (unfold x; destruct (Z.ltb_spec 0 (fc_cx c)); lia).
    assert (con_inv (set_pos c x (fc_cy c))) as I1 by (apply inv_pos; (done || lia)).
    destruct (write_cell (set_pos c x (fc_cy c)) 32 I1 Hoff) as (s & cells & E & Hd & Hl & Hc & Hs). rewrite E. eexists. split; [reflexivity|].
    split; [apply inv_cells; [by apply inv_screen|done]|]. split; [done|]. split; [done|]. intros Hf Hr Hsh. split; [apply Hs; [done|by apply shows_pos]|].
    unfold term_of. simpl. rewrite Hc by done. simpl. rewrite Ex. f_equal. apply take_write. nia. }
  destruct (write_cell c ch I Hoff) as (s & cells & E & Hd & Hl & Hc & Hs). apply bind_Some in E as (c1 & -> & E). cbn [mbind option_bind]. rewrite E. cbn [mbind option_bind].
  set (c2 := set_cells (set_screen c s) cells) in *. assert (con_inv c2) as I2 by (apply inv_cells; [by apply inv_screen|done]).
  assert (full c -> take (Z.to_nat (fc_cols c * fc_rows c)) cells = <[Z.to_nat (fc_cy c * fc_cols c + fc_cx c) := ch]> (take (Z.to_nat (fc_cols c * fc_rows c)) (fc_cells c))) as Ht.
  { intros Hf. rewrite (Hc Hf). apply take_write. nia. }
  cbn [fc_cx fc_cy fc_cols fc_rows c2 set_cells set_screen]. rewrite !u32_small by lia.
  destruct (Z.leb_spec (fc_cols c) (fc_cx c + 1)), (Z.ltb_spec (fc_cx c + 1) (fc_cols c)); try lia.
  - destruct (Z.ltb_spec (fc_cy c) (fc_rows c - 1)).
    + eexists. split; [reflexivity|]. split; [apply inv_pos; (done || simpl; lia)|]. split; [done|]. split; [done|].
      intros Hf Hr Hsh. split; [apply shows_pos; [done|by apply Hs]|]. unfold term_of. simpl. rewrite (Ht Hf). f_equal. lia.
    + unfold scroll_if_needed. simpl fc_cy. simpl fc_rows. destruct (Z.ltb_spec (fc_cy c) (fc_rows c)); [|lia].
      eexists. split; [reflexivity|]. split; [apply inv_pos; (done || simpl; lia)|]. split; [done|]. split; [done|].
      intros Hf Hr Hsh. split; [apply shows_pos; [done|by apply Hs]|]. unfold term_of. simpl. rewrite (Ht Hf). f_equal. lia.
  - eexists. split; [reflexivity|]. split; [apply inv_pos; (done || simpl; lia)|]. split; [done|]. split; [done|].
    intros Hf Hr Hsh. split; [apply shows_pos; [done|by apply Hs]|]. unfold term_of. simpl. by rewrite (Ht Hf).
Qed.

(** ** Clearing *)

Lemma blank_cells_ok c : fc_cell_cap c <= Z.of_nat (length (fc_cells c)) ->
  exists cells, blank_cells c = Some cells /\ length cells = length (fc_cells c) /\ forall i, 0 <= i < fc_cell_cap c -> cells !! Z.to_nat i = Some 32.
Proof.
  intros Hcap. unfold blank_cells.
  edestruct (for_n_ind (fun j cells => length cells = length (fc_cells c) /\ forall i, 0 <= i < j -> cells !! Z.to_nat i = Some 32)) as (cells & E & L & H).
  3: { exists cells. split; [exact E|]. split; [exact L|]. intros i Hi. apply H. lia. }
  - split; [reflexivity|]. lia.
  - intros j a Hj [L H]. unfold put. destruct (decide _) as [_|]; [|lia]. eexists. split; [reflexivity|]. split; [by rewrite length_insert|].
    intros i Hi. destruct (decide (i = j)) as [->|]; [by rewrite list_lookup_insert_eq by lia|]. rewrite list_lookup_insert_ne by lia. apply H. lia.
Qed.

(** A screen of one colour shows blank cells. *)
Lemma shows_blank c : con_inv c -> full c -> fc_cursor_on c = false ->
  (forall i, 0 <= i < fc_cell_cap c -> fc_cells c !! Z.to_nat i = Some 32) ->
  (forall x y, on_screen (fc_screen c) x y -> pix (fc_screen c) x y = Some (fc_bg c)) -> shows c.
Proof.
  intros I Hf Hoff Hc Hp x y Hxy. rewrite Hp by done. rewrite expected_off by done. case_decide; [|done]. unfold cell. destruct Hxy as [Hx Hy].
  assert (0 <= x / 8 /\ 0 <= y / 16) by (Z.div_mod_to_equations; lia). rewrite Hc; [simpl; rewrite blank_ink by (Z.div_mod_to_equations; lia); done|]. rewrite (ci_cap c I). unfold full in Hf. nia.
Qed.

Lemma fb_clear_ok c now : con_inv c ->
  exists c', fb_console_clear c now = Some c' /\ con_inv c' /\ fc_ansi c' = fc_ansi c /\ (full c -> shows c').
Proof.
  intros I. unfold fb_console_clear. rewrite (ci_ready c I). cbn [negb]. destruct (cursor_erase_ok c I) as (s & -> & Hd & _). cbn [mbind option_bind].
  set (c1 := set_cursor_on (set_screen c s) false). assert (con_inv c1) as I1 by (apply inv_cursor; by apply inv_screen).
  destruct (clear_row_pixels_ok (fc_screen c1) 0 (sn_h (fc_screen c1)) (fc_bg c1) (ci_screen c1 I1)) as (s2 & -> & (O & W & Hh & S & P)); [lia..|]. cbn [mbind option_bind].
  set (c2 := set_pos (set_screen c1 s2) 0 0). pose proof (ci_x c1 I1). pose proof (ci_y c1 I1).
  assert (con_inv c2) as I2 by (apply inv_pos; [apply inv_screen; [done|by split_and!]|simpl in *; lia..]).
  destruct (blank_cells_ok c2) as (cells & -> & L & H2); [rewrite (ci_cap c2 I2), (ci_cells c2 I2); lia|]. cbn [mbind option_bind].
  assert (con_inv (set_last_tsc (set_cells c2 cells) now)) as I3 by (apply inv_tsc; by apply inv_cells).
  destruct (cursor_draw_ok _ I3) as (s3 & b & -> & Hd3 & Hsh). eexists. split; [reflexivity|].
  split; [apply inv_cursor; by apply inv_screen|]. split; [done|]. intros Hf. apply Hsh; [done|]. apply shows_blank; try done.
  intros x y Hxy. simpl in *. unfold on_screen in Hxy. rewrite W, Hh in Hxy. rewrite P by done. unfold rows_in. rewrite decide_True by lia. done.
Qed.

(** ** Escape sequences *)

Lemma erase_line_ok c p1 : con_inv c -> exists c', erase_line c p1 = Some c' /\ con_inv c' /\ fc_ansi c' = fc_ansi c.
Proof.
  intros I. unfold erase_line. apply (for_n_inv (fun c' => con_inv c' /\ fc_ansi c' = fc_ansi c)); [done|]. clear I.
  intros x c' _ [I E]. destruct (draw_char_safe c' x (fc_cy c') 32 false (ci_screen c' I)) as (s & -> & Hd). cbn [mbind option_bind].
  pose proof (inv_screen c' s I Hd) as I'. destruct (Z.ltb_spec (u32 (fc_cy (set_screen c' s) * fc_cols (set_screen c' s) + x)) (fc_cell_cap (set_screen c' s))) as [Hlt|]; [|eauto].
  unfold put. destruct (decide _) as [_|Hn].
  - cbn [mbind option_bind]. eexists. split; [reflexivity|]. split; [apply inv_cells; [done|by rewrite length_insert]|done].
  - exfalso. apply Hn. pose proof (u32_range (fc_cy (set_screen c' s) * fc_cols (set_screen c' s) + x)). pose proof (ci_cells _ I') as Hc. rewrite (ci_cap _ I') in Hlt. lia.
Qed.

Lemma pal_lookup n : (n < 8)%nat -> is_Some (pal !! n).
Proof. intros. by apply lookup_lt_is_Some_2. Qed.

Lemma sgr_ok m c : con_inv c -> exists c', sgr m c = Some c' /\ con_inv c' /\ fc_ansi c' = fc_ansi c.
Proof.
  intros I. assert (forall fg bg, exists c', Some (fb_console_set_colors c fg bg) = Some c' /\ con_inv c' /\ fc_ansi c' = fc_ansi c) as H.
  { intros fg bg. eexists. split; [reflexivity|]. split; [by apply inv_colors|done]. }
  unfold sgr. destruct (m =? 0); [apply H|]. destruct ((30 <=? m) && (m <=? 37)) eqn:E1.
  - destruct (pal_lookup (Z.to_nat (m - 30))) as [v ->]; [lia|]. apply H.
  - destruct ((40 <=? m) && (m <=? 47)) eqn:E2; [|eauto]. destruct (pal_lookup (Z.to_nat (m - 40))) as [v ->]; [lia|]. apply H.
Qed.

Lemma csi_count_ok c : con_inv c -> exists num, csi_count (fc_ansi c) = Some num /\ 0 <= num <= 8.
Proof.
  intros I. pose proof (ci_num c I). pose proof (ci_params c I). unfold csi_count, ANSI_MAX_PARAMS. destruct (Z.ltb_spec (an_num (fc_ansi c)) 8); [|eauto].
  destruct (lookup_lt_is_Some_2 (an_params (fc_ansi c)) (Z.to_nat (an_num (fc_ansi c)))) as [p ->]; [lia|]. cbn [mbind option_bind]. eexists. split; [done|]. destruct (p =? -1); lia.
Qed.

Lemma csi_param_ok c num i : con_inv c -> num <= 8 -> exists p, csi_param (fc_ansi c) num i = Some p /\ 0 <= p <= INT_MAX.
Proof.
  intros I Hn. unfold csi_param. destruct (Z.ltb_spec (Z.of_nat i) num); [|eexists; split; [done|unfold INT_MAX; lia]].
  destruct (lookup_lt_is_Some_2 (an_params (fc_ansi c)) i) as [p Hp]; [rewrite (ci_params c I); lia|]. rewrite Hp. cbn [mbind option_bind]. eexists. split; [done|].
  pose proof (proj1 (Forall_lookup _ _) (ci_vals c I) i p Hp) as Hr. simpl in Hr. destruct (Z.eqb_spec p (-1)); unfold INT_MAX in *; lia.
Qed.

Lemma csi_final_ok c ch p1 p2 num now : con_inv c -> 0 <= p1 <= INT_MAX -> 0 <= p2 <= INT_MAX -> 0 <= num <= 8 ->
  exists c', csi_final c ch p1 p2 num now = Some c' /\ con_inv c' /\ fc_ansi c' = fc_ansi c.
Proof.
  intros I H1 H2 Hn. pose proof (ci_dims c I). pose proof (ci_x c I). pose proof (ci_y c I). unfold csi_final, INT_MAX in *.
  assert (forall x y, 0 <= x < fc_cols c -> 0 <= y < fc_rows c -> exists c', Some (set_pos c x y) = Some c' /\ con_inv c' /\ fc_ansi c' = fc_ansi c) as Hpos.
  { intros x y Hx Hy. eexists. split; [reflexivity|]. split; [by apply inv_pos|done]. }
  destruct (_ || _).
  { apply Hpos; [destruct (Z.ltb_spec 0 p2), (Z.leb_spec (fc_cols c) (p2 - 1)), (Z.leb_spec (fc_cols c) 0)|destruct (Z.ltb_spec 0 p1), (Z.leb_spec (fc_rows c) (p1 - 1)), (Z.leb_spec (fc_rows c) 0)];
      rewrite ?u32_small by lia; lia. }
  destruct (ch =? 65); [apply Hpos; [done|]; destruct (Z.leb_spec p1 (fc_cy c)); lia|].
  destruct (ch =? 66); [apply Hpos; [done|]; rewrite !(u32_small (fc_cy c + p1)), u32_small by lia; destruct (Z.leb_spec (fc_rows c) (fc_cy c + p1)); lia|].
  destruct (ch =? 67); [apply Hpos; [|done]; rewrite !(u32_small (fc_cx c + p1)), u32_small by lia; destruct (Z.leb_spec (fc_cols c) (fc_cx c + p1)); lia|].
  destruct (ch =? 68); [apply Hpos; [|done]; destruct (Z.leb_spec p1 (fc_cx c)); lia|].
  destruct (ch =? 74).
  { destruct (p1 =? 2); [|eauto]. destruct (fb_clear_ok c now I) as (c' & -> & I' & E & _). eauto. }
  destruct (ch =? 75); [by apply erase_line_ok|]. destruct (ch =? 109); [|eauto].
  apply (for_n_inv (fun c' => con_inv c' /\ fc_ansi c' = fc_ansi c)); [done|]. intros j c' Hj [I' E].
  destruct (lookup_lt_is_Some_2 (an_params (fc_ansi c')) (Z.to_nat j)) as [m ->]; [rewrite (ci_params c' I'); lia|]. cbn [mbind option_bind].
  destruct (sgr_ok m c' I') as (c2 & -> & I2 & E2). exists c2. split; [done|]. split; [done|congruence].
Qed.

(** The digit does not fit the parameter. *)
Definition csi_overflow (a : ansi_t) (ch : Z) : bool :=
  match an_state a with
  | ANSI_STATE_CSI =>
      (48 <=? ch) && (ch <=? 57) && (an_num a <? 8) &&
      match an_params a !! Z.to_nat (an_num a) with Some p => INT_MAX <? Z.max 0 p * 10 + (ch - 48) | None => false end
  | _ => false
  end.

Lemma put_vals (l : list Z) i p : length l = 8%nat -> 0 <= i < 8 -> Forall (fun p => -1 <= p <= INT_MAX) l -> -1 <= p <= INT_MAX ->
  exists l', put l (Z.to_nat i) p = Some l' /\ length l' = 8%nat /\ Forall (fun p => -1 <= p <= INT_MAX) l'.
Proof.
  intros L Hi H Hp. unfold put. destruct (decide _) as [_|]; [|lia]. eexists. split; [done|]. split; [by rewrite length_insert|].
  rewrite <- (Z2Nat.id i) by lia. by apply Forall_insert.
Qed.

Lemma handle_ansi_csi_ok c ch now : con_inv c -> an_state (fc_ansi c) = ANSI_STATE_CSI ->
  if csi_overflow (fc_ansi c) ch then handle_ansi_csi c ch now = None else exists c', handle_ansi_csi c ch now = Some c' /\ con_inv c'.
Proof.
  intros I Es. pose proof (ci_num c I) as Hn. pose proof (ci_params c I) as Hp. pose proof (ci_vals c I) as Hv.
  unfold csi_overflow, handle_ansi_csi. rewrite Es. destruct ((48 <=? ch) && (ch <=? 57)) eqn:Ed; cbn [andb].
  - unfold csi_digit, ANSI_MAX_PARAMS. destruct (Z.ltb_spec (an_num (fc_ansi c)) 8) as [Hlt|]; cbn [andb]; [|eexists; split; [done|by apply inv_ansi]].
    destruct (lookup_lt_is_Some_2 (an_params (fc_ansi c)) (Z.to_nat (an_num (fc_ansi c)))) as [p Ep]; [lia|]. rewrite Ep. cbn [mbind option_bind].
    pose proof (proj1 (Forall_lookup _ _) Hv _ _ Ep) as Hr. simpl in Hr.
    replace (if p =? -1 then 0 else p) with (Z.max 0 p) by (destruct (Z.eqb_spec p (-1)); lia). destruct (Z.ltb_spec INT_MAX (Z.max 0 p * 10 + (ch - 48))); [done|].
    destruct (put_vals _ (an_num (fc_ansi c)) (Z.max 0 p * 10 + (ch - 48)) Hp) as (l' & -> & L' & V'); [lia|done|lia|]. cbn [mbind option_bind].
    eexists. split; [reflexivity|]. by apply inv_ansi.
  - destruct (ch =? 59).
    + unfold csi_next, ANSI_MAX_PARAMS. set (n := if _ <? 8 then _ else _). assert (0 <= n <= 8) as Hn' by (unfold n; destruct (Z.ltb_spec (an_num (fc_ansi c)) 8); lia).
      destruct (Z.ltb_spec n 8); cbn [mbind option_bind]; [|eexists; split; [done|by apply inv_ansi]].
      destruct (put_vals _ n (-1) Hp) as (l' & -> & L' & V'); [lia|done|unfold INT_MAX; lia|]. cbn [mbind option_bind]. eexists. split; [reflexivity|]. by apply inv_ansi.
    + destruct (csi_count_ok c I) as (num & -> & Hnum). cbn [mbind option_bind]. destruct (csi_param_ok c num 0 I) as (p1 & -> & H1); [lia|].
      cbn [mbind option_bind]. destruct (csi_param_ok c num 1 I) as (p2 & -> & H2); [lia|]. cbn [mbind option_bind].
      destruct (csi_final_ok c ch p1 p2 num now I H1 H2 Hnum) as (c' & -> & I' & E). cbn [mbind option_bind]. eexists. split; [reflexivity|].
      apply inv_ansi; simpl; rewrite ?E; done.
Qed.

(** ** Characters *)

Lemma putc_step c ch now now' (P : fbcon_t -> Prop) : con_inv c ->
  (forall c1, con_inv c1 -> fc_cursor_on c1 = false -> same_setup c c1 -> term_of c1 = term_of c -> (full c -> shows c -> shows c1) ->
    exists c2, match an_state (fc_ansi c1) with
               | ANSI_STATE_ESC =>
                   if ch =? 91 then ps ← put (an_params (fc_ansi c1)) 0 (-1); Some (set_ansi c1 (mk_ansi ANSI_STATE_CSI ps 0))
                   else Some (ansi_to c1 ANSI_STATE_NORMAL)
               | ANSI_STATE_CSI => handle_ansi_csi c1 ch now
               | ANSI_STATE_NORMAL => if ch =? 0x1B then Some (ansi_to c1 ANSI_STATE_ESC) else put_text c1 ch
               end = Some c2 /\ con_inv c2 /\
      (forall s b, same_dims (fc_screen c2) s -> (full c2 -> shows c2 -> shows (set_cursor_on (set_screen (set_last_tsc c2 now') s) b)) -> P (set_cursor_on (set_screen (set_last_tsc c2 now') s) b))) ->
  exists c', fb_console_putc c ch now now' = Some c' /\ con_inv c' /\ P c'.
Proof.
  intros I H. unfold fb_console_putc. rewrite (ci_ready c I). cbn [negb]. destruct (cursor_erase_ok c I) as (s & -> & Hd & Hs). cbn [mbind option_bind].
  destruct (H (set_cursor_on (set_screen c s) false)) as (c2 & -> & I2 & HP); [apply inv_cursor; by apply inv_screen|done..|]. cbn [mbind option_bind].
  destruct (cursor_draw_ok _ (inv_tsc c2 now' I2)) as (s2 & b & -> & Hd2 & Hs2). eexists. split; [reflexivity|].
  split; [apply inv_cursor, inv_screen; [by apply inv_tsc|done]|]. apply HP; [done|]. intros Hf Hsh. by apply Hs2.
Qed.

(** One character of text. *)
Lemma putc_text c ch now now' : con_inv c -> full c -> 1 < fc_rows c -> shows c -> an_state (fc_ansi c) = ANSI_STATE_NORMAL -> ch <> 27 ->
  exists c', fb_console_putc c ch now now' = Some c' /\ con_inv c' /\ same_setup c c' /\ shows c' /\ term_of c' = term_put (fc_cols c) (fc_rows c) (term_of c) ch.
Proof.
  intros I Hf Hr Hs En Hch.
  apply (putc_step c ch now now' (fun c' => same_setup c c' /\ shows c' /\ term_of c' = term_put (fc_cols c) (fc_rows c) (term_of c) ch) I).
  intros c1 I1 Hoff (E1 & E2 & E3 & E4 & E5) Et Hs1. rewrite E5, En. rewrite (proj2 (Z.eqb_neq ch 27) Hch).
  destruct (put_text_ok c1 ch I1 Hoff) as (c2 & -> & I2 & Hoff2 & (F1 & F2 & F3 & F4 & F5) & H2). exists c2. split; [done|]. split; [done|].
  assert (full c1) as Hf1 by (unfold full in *; by rewrite E1, E2). destruct (H2 Hf1) as [Hs2 Et2]; [lia|by apply Hs1|].
  intros s b Hd Hsh. split; [unfold same_setup; simpl; split_and!; congruence|]. split; [apply Hsh; [unfold full in *; by rewrite F1, F2|done]|].
  change (term_of (set_cursor_on (set_screen (set_last_tsc c2 now') s) b)) with (term_of c2). by rewrite Et2, E1, E2, Et.
Qed.

(** [fb_console_putc] never leaves the frame buffer, the cells, the parameters or the palette, whatever
    character it gets in whatever state of an escape sequence: on a console that satisfies the
    invariant (cursor and cells inside the screen, at most eight parameters) it returns a console
    that satisfies it, except that a digit which makes a parameter exceed [INT_MAX] is an overflow
    of the signed parameter. *)
Theorem fb_console_putc_safe c ch now now' : con_inv c ->
  if csi_overflow (fc_ansi c) ch then fb_console_putc c ch now now' = None
  else exists c', fb_console_putc c ch now now' = Some c' /\ con_inv c'.
Proof.
  intros I. destruct (csi_overflow (fc_ansi c) ch) eqn:Eo.
  - unfold fb_console_putc. rewrite (ci_ready c I). cbn [negb]. destruct (cursor_erase_ok c I) as (s & -> & Hd & _). cbn [mbind option_bind].
    assert (an_state (fc_ansi c) = ANSI_STATE_CSI) as Es by (unfold csi_overflow in Eo; by destruct (an_state (fc_ansi c))).
    change (fc_ansi (set_cursor_on (set_screen c s) false)) with (fc_ansi c). rewrite Es.
    pose proof (handle_ansi_csi_ok (set_cursor_on (set_screen c s) false) ch now (inv_cursor _ _ (inv_screen _ _ I Hd)) Es) as H.
    change (fc_ansi (set_cursor_on (set_screen c s) false)) with (fc_ansi c) in H. rewrite Eo in H. by rewrite H.
  - destruct (putc_step c ch now now' (fun _ => True) I) as (c' & E & I' & _); [|eauto].
    intros c1 I1 Hoff (_ & _ & _ & _ & E5) _ _. assert (forall st, con_inv (ansi_to c1 st)) as Ia by (intros st; destruct I1; by split).
    destruct (an_state (fc_ansi c1)) eqn:Es.
    + destruct (ch =? 27); [by eauto|]. destruct (put_text_ok c1 ch I1 Hoff) as (c2 & -> & I2 & _). eauto.
    + destruct (ch =? 91); [|by eauto]. destruct (put_vals (an_params (fc_ansi c1)) 0 (-1)) as (l' & E' & L' & V'); [by apply ci_params|lia|by apply ci_vals|unfold INT_MAX; lia|].
      change (Z.to_nat 0) with 0%nat in E'. rewrite E'. cbn [mbind option_bind]. eexists. split; [reflexivity|]. split; [by apply inv_ansi|done].
    + pose proof (handle_ansi_csi_ok c1 ch now I1 Es) as H. rewrite E5, Eo in H. destruct H as (c2 & -> & I2). eauto.
Qed.


(** The console after [fb_console_init] is blank, and shows it. *)
Lemma fb_console_init_ok c b now : fi_phys b <> 0 -> 0 < fi_width b < 2 ^ 16 -> 0 < fi_height b < 2 ^ 16 -> 8 <= fi_width b -> 16 <= fi_height b ->
  fi_width b <= fi_stride b -> fi_stride b * fi_height b <= Z.of_nat (length (fi_mem b)) -> fi_format b = 1 \/ fi_format b = 2 ->
  Z.of_nat (length (fc_cells c)) = MAX_TEXT_CELLS -> fc_bg c = 0 -> fc_ansi c = mk_ansi ANSI_STATE_NORMAL (replicate 8 0) 0 ->
  exists c', fb_console_init c (Some b) now = Some c' /\ con_inv c' /\ (full c' -> shows c' /\ term_of c' = mk_term (replicate (Z.to_nat (fc_cols c' * fc_rows c')) 32) 0 0) /\ fc_ansi c' = fc_ansi c /\
    fc_cols c' = fi_width b / 8 /\ fc_rows c' = fi_height b / 16.
Proof.
  intros Hp Hw Hh Hw8 Hh16 Hs Hm Hfmt Hc Hbg Ha. assert (mk_rgb (fi_format b) 0 0 0 = 0) as Ergb by (by destruct Hfmt as [-> | ->]). unfold fb_console_init.
  replace ((fi_phys b =? 0) || (fi_width b =? 0) || (fi_height b =? 0) || (fi_stride b =? 0)) with false by lia.
  replace (negb (fi_format b =? ASD_FB_RGBX32) && negb (fi_format b =? ASD_FB_BGRX32)) with false by (unfold ASD_FB_RGBX32, ASD_FB_BGRX32; lia). rewrite Ergb.
  set (s := mk_screen _ _ _ _). assert (screen_ok s) as O by (by split). unfold CELL_W, CELL_H.
  assert (1 <= fi_width b / 8 < 2 ^ 13 /\ 1 <= fi_height b / 16 < 2 ^ 12) as [Hcols Hrows] by (Z.div_mod_to_equations; lia).
  rewrite u32_small by nia. set (cap := if _ <? _ then _ else _).
  assert (cap = Z.min MAX_TEXT_CELLS (fi_width b / 8 * (fi_height b / 16))) as Hcap by (unfold cap; destruct (Z.ltb_spec MAX_TEXT_CELLS (fi_width b / 8 * (fi_height b / 16))); lia).
  match goal with |- context [blank_cells ?x] => destruct (blank_cells_ok x) as (cells & -> & L & H2); [simpl; lia|] end. cbn [mbind option_bind].
  destruct (clear_row_pixels_ok s 0 (sn_h s) 0 O) as (s2 & -> & (O2 & W2 & Hh2 & S2 & P2)); [lia..|]. cbn [mbind option_bind]. cbn [fc_fg fc_bg fc_ansi fc_cells] in *.
  match goal with |- context [cursor_draw ?x] => assert (con_inv x) as I2; [|assert (full x -> shows x) as Hs2; [|destruct (cursor_draw_ok x I2) as (s3 & b3 & -> & Hd3 & Hs3)]] end.
  - split; cbn; rewrite ?W2, ?Hh2, ?Ha, ?L; simpl; try (done || lia). unfold INT_MAX. repeat constructor; lia.
  - intros Hf. apply shows_blank; try done. intros x y Hxy. unfold on_screen in Hxy. simpl in Hxy. rewrite W2, Hh2 in Hxy. simpl. rewrite P2 by done. unfold rows_in. rewrite decide_True by lia. by rewrite Hbg.
  - eexists. split; [reflexivity|]. split; [apply inv_cursor; by apply inv_screen|]. split; [|done]. intros Hf. split; [by apply Hs3, Hs2|].
    unfold term_of. simpl. f_equal. unfold full in Hf. simpl in Hf. apply list_eq. intros i. destruct (decide (Z.of_nat i < fi_width b / 8 * (fi_height b / 16))).
    + rewrite lookup_take_lt, lookup_replicate_2 by lia. rewrite <- (Nat2Z.id i). apply H2. simpl. lia.
    + rewrite lookup_take_ge by lia. symmetry. apply lookup_ge_None. rewrite length_replicate. lia.
Qed.

(** ** Witnesses and examples *)

(** The static variables before [fb_console_init], and a screen of two by two cells. *)
Definition fbcon0 : fbcon_t :=
  mk_fbcon (mk_screen [] 0 0 0) 0 0 0 0 false (replicate (Z.to_nat MAX_TEXT_CELLS) 0) 0 false 0 0xC0C0C0 0 (mk_ansi ANSI_STATE_NORMAL (replicate 8 0) 0).

Definition small_fb : fb_info := mk_fbinfo 0xE0000000 16 32 16 1 (replicate 512 0).

Lemma small_init : exists c, fb_console_init fbcon0 (Some small_fb) 0 = Some c /\ con_inv c /\ full c /\ shows c /\
  term_of c = mk_term (replicate 4 32) 0 0 /\ fc_ansi c = fc_ansi fbcon0 /\ fc_cols c = 2 /\ fc_rows c = 2.
Proof.
  destruct (fb_console_init_ok fbcon0 small_fb 0) as (c & E & I & Hs & Ha & Hc & Hr); cbn [small_fb fi_phys fi_width fi_height fi_stride fi_format fi_mem]; try lia.
  { by rewrite length_replicate. }
  { unfold fbcon0. cbn [fc_cells]. rewrite length_replicate. unfold MAX_TEXT_CELLS. lia. }
  { reflexivity. }
  { reflexivity. }
  assert (full c) as Hf by (unfold full; rewrite Hc, Hr; done). destruct (Hs Hf) as [Hsh Et]. change (fi_width small_fb / 8) with 2 in Hc. change (fi_height small_fb / 16) with 2 in Hr.
  exists c. rewrite Hc, Hr in Et. by split_and!.
Qed.

Lemma fb_console_putc_safe_witness : exists c c', fb_console_init fbcon0 (Some small_fb) 0 = Some c /\ fb_console_putc c 65 0 0 = Some c' /\ con_inv c'.
Proof.
  destruct small_init as (c & E & I & _ & _ & _ & Ha & _). pose proof (fb_console_putc_safe c 65 0 0 I) as H. rewrite Ha in H.
  change (csi_overflow (fc_ansi fbcon0) 65) with false in H. destruct H as (c' & H & I'). exists c, c'. exact (conj E (conj H I')).
Defined.


Definition small_run (t : list Z) : option term :=
  c ← fb_console_init fbcon0 (Some small_fb) 0; c ← fb_console_puts c (t ++ [0]) (fun _ => (0, 0)); Some (term_of c).

(** When a line wraps on the last row the screen does not scroll: the line overwrites itself. *)
Example wrap_on_last_row : small_run [97; 98; 99; 100; 101] = Some (mk_term [97; 98; 101; 100] 1 1).
Proof. vm_compute. reflexivity. Qed.

(** [ESC [ K] without a parameter, which erases from the cursor to the end of the line on other terminals,
    erases from the start of the line to the cursor. *)
Example erase_line_default : small_run [97; 13; 27; 91; 75] = Some (mk_term [32; 32; 32; 32] 0 0) /\
  small_run [97; 98; 27; 91; 65; 27; 91; 67; 27; 91; 75; 99] = Some (mk_term [32; 99; 32; 32] 0 1) /\
  small_run [97; 98; 27; 91; 65; 27; 91; 75] = Some (mk_term [32; 98; 32; 32] 0 0).
Proof. split_and!; vm_compute; reflexivity. Qed.

(** Eleven digits overflow the parameter. *)
Example parameter_overflow : small_run ([27; 91] ++ replicate 11 57) = None.
Proof. vm_compute. reflexivity. Qed.
