(* ===== verification/Cpu.v ===== *)
(** * Processor tables, interrupt controller and timer

    src/kernel/arch/gdt.c, idt.c (lines 16-53), isr.S, pic.c, pit.c and [syscall_init] of syscall.c.
    A segment descriptor is its 64-bit word, a gate the record of its fields.  Writes to I/O ports
    are a list of operations in their order; a value read from a port is an argument.  The stack
    is a list of 64-bit words whose head is the word at [rsp].  What the processor does with the
    tables is stated in the theorems from its documented formats. *)

From Stdlib Require Import ZArith Lia.
From stdpp Require Import base strings list.
From S2P Require Import Prelude.

Local Open Scope Z_scope.

(** ** Segments *)

Definition SEG_KERNEL_CODE : Z := 0x08.
Definition SEG_KERNEL_DATA : Z := 0x10.
Definition SEG_USER_CODE : Z := 0x18.
Definition SEG_USER_DATA : Z := 0x20.
Definition SEG_TSS : Z := 0x28.

Definition sizeof_tss : Z := 104.

(** The fields of [g_tss] that the code writes. *)
Record tss64_t := mk_tss { ts_rsp0 : Z; ts_iopb : Z }.

(** [g_gdt] and [g_tss] *)
Record gdt_st := mk_gdt { gd_entries : list Z; gd_tss : tss64_t }.

Definition make_seg (base limit access flags : Z) : Z :=
  Z.lor (Z.lor (Z.lor (Z.lor (Z.lor (Z.lor
    (Z.land limit 0xFFFF)
    (Z.shiftl (Z.land base 0xFFFF) 16))
    (Z.shiftl (Z.land (Z.shiftr base 16) 0xFF) 32))
    (Z.shiftl access 40))
    (Z.shiftl (Z.land (Z.shiftr limit 16) 0x0F) 48))
    (Z.shiftl (Z.land flags 0x0F) 52))
    (Z.shiftl (Z.land (Z.shiftr base 24) 0xFF) 56).

Definition gdt_init (g : gdt_st) (tss_base : Z) : gdt_st :=
  mk_gdt
    (list_inserts 0
      [ 0;
        make_seg 0 0xFFFFF 0x9A 0xA;
        make_seg 0 0xFFFFF 0x92 0xC;
        make_seg 0 0xFFFFF 0xFA 0xA;
        make_seg 0 0xFFFFF 0xF2 0xC;
        make_seg (u32 tss_base) (u32 (sizeof_tss - 1)) 0x89 0x0;
        Z.land (Z.shiftr tss_base 32) 0xFFFFFFFF ] (gd_entries g))
    (mk_tss (ts_rsp0 (gd_tss g)) (u16 sizeof_tss)).

Definition tss_set_rsp0 (g : gdt_st) (rsp0 : Z) : gdt_st := mk_gdt (gd_entries g) (mk_tss rsp0 (ts_iopb (gd_tss g))).

(** The values of [MSR_STAR] and [MSR_FMASK] that [syscall_init] writes. *)
Definition star : Z := Z.lor (Z.shiftl SEG_USER_CODE 48) (Z.shiftl SEG_KERNEL_CODE 32).
Definition fmask : Z := Z.lor (Z.lor (Z.shiftl 1 9) (Z.shiftl 1 10)) (Z.shiftl 1 18).

(** ** Gates *)

Record idt_gate_t := mk_gate { gt_off0 : Z; gt_sel : Z; gt_ist : Z; gt_type : Z; gt_off1 : Z; gt_off2 : Z; gt_res : Z }.

Definition set_gate (idt : list idt_gate_t) (vec handler : Z) : option (list idt_gate_t) :=
  if decide (Z.to_nat vec < length idt)%nat then
    Some (<[Z.to_nat vec := mk_gate (u16 handler) SEG_KERNEL_CODE 0 0x8E (u16 (Z.shiftr handler 16)) (u32 (Z.shiftr handler 32)) 0]> idt)
  else None.

(** [for (i = 0; i < 256; i++)], the stubs being their addresses. *)
Fixpoint idt_loop (n : nat) (i : nat) (stubs : list Z) (idt : list idt_gate_t) : option (list idt_gate_t) :=
  match n with
  | O => Some idt
  | S n' => h ← stubs !! i; idt ← set_gate idt (u8 (Z.of_nat i)) h; idt_loop n' (S i) stubs idt
  end.

Definition idt_init (isr_stubs : list Z) (idt : list idt_gate_t) : option (list idt_gate_t) := idt_loop 256 0 isr_stubs idt.

(** ** Entry *)

(** The macro of every stub, from vector 0. *)
Inductive stub := STUB_NOERR | STUB_ERR.

Definition isr_stub_kinds : list stub :=
  replicate 8 STUB_NOERR ++ [STUB_ERR; STUB_NOERR] ++ replicate 5 STUB_ERR ++ replicate 2 STUB_NOERR ++
  [STUB_ERR] ++ replicate 3 STUB_NOERR ++ [STUB_ERR] ++ replicate 7 STUB_NOERR ++ [STUB_ERR; STUB_ERR; STUB_NOERR] ++
  replicate 224 STUB_NOERR.

Definition isr_stub (vec : nat) (stack : list Z) : option (list Z) :=
  k ← isr_stub_kinds !! vec;
  Some (match k with STUB_NOERR => Z.of_nat vec :: 0 :: stack | STUB_ERR => Z.of_nat vec :: stack end).

(** [fr_gprs] are the fifteen words from [r15] to [rax]. *)
Record isr_frame_t := mk_frame {
  fr_gprs : list Z; fr_vector : Z; fr_error_code : Z; fr_rip : Z; fr_cs : Z; fr_rflags : Z; fr_rsp : Z; fr_ss : Z }.

Definition frame_of_stack (stack : list Z) : option isr_frame_t :=
  match drop 15 stack with
  | v :: e :: rip :: cs :: rflags :: rsp :: ss :: _ => Some (mk_frame (take 15 stack) v e rip cs rflags rsp ss)
  | _ => None
  end.

(** The dispatcher changes the frame in place. *)
Definition store_frame (stack : list Z) (f : isr_frame_t) : list Z :=
  list_inserts 0 (fr_gprs f ++ [fr_vector f; fr_error_code f; fr_rip f; fr_cs f; fr_rflags f; fr_rsp f; fr_ss f]) stack.

(** The fifteen registers from [rax] to [r15] are pushed, the dispatcher is called with the address of the
    frame, they are popped, vector and error code are dropped; what remains is what [iretq] loads. *)
Definition isr_common (dispatch : isr_frame_t -> option isr_frame_t) (regs stack : list Z) : option (list Z * list Z) :=
  let pushed := rev regs ++ stack in
  f ← frame_of_stack pushed;
  f ← dispatch f;
  let stack := store_frame pushed f in
  Some (rev (take 15 stack), drop 17 stack).

(** ** Interrupt controller *)

(** A write to a port, or the write of an unspecified value to port 0x80. *)
Inductive io_op := Out (port v : Z) | Delay.

Definition PIC1_CMD : Z := 0x20.
Definition PIC1_DATA : Z := 0x21.
Definition PIC2_CMD : Z := 0xA0.
Definition PIC2_DATA : Z := 0xA1.

Definition pic_init (m1 m2 : Z) : list io_op :=
  [ Out PIC1_CMD 0x11; Delay; Out PIC2_CMD 0x11; Delay;
    Out PIC1_DATA 0x20; Delay; Out PIC2_DATA 0x28; Delay;
    Out PIC1_DATA 0x04; Delay; Out PIC2_DATA 0x02; Delay;
    Out PIC1_DATA 0x01; Delay; Out PIC2_DATA 0x01; Delay;
    Out PIC1_DATA m1; Out PIC2_DATA m2 ].

Definition pic_eoi (irq : Z) : list io_op := (if 8 <=? irq then [Out PIC2_CMD 0x20] else []) ++ [Out PIC1_CMD 0x20].

Definition pic_port (irq : Z) : Z := if irq <? 8 then PIC1_DATA else PIC2_DATA.
Definition pic_bit (irq : Z) : Z := u8 (if irq <? 8 then irq else irq - 8).

(** [m] is the mask read from the port. *)
Definition pic_mask (irq m : Z) : list io_op := [Out (pic_port irq) (u8 (Z.lor m (u8 (Z.shiftl 1 (pic_bit irq)))))].
Definition pic_unmask (irq m : Z) : list io_op := [Out (pic_port irq) (u8 (Z.land m (u8 (Z.lnot (Z.shiftl 1 (pic_bit irq))))))].

(** [ps2kbd_init] of drv/ps2kbd.c: [stats] are the answers of the status port. *)
Fixpoint ps2kbd_init (stats : list Z) (m : Z) : option (list io_op) :=
  match stats with
  | [] => None
  | s :: stats' => if Z.land s 1 =? 0 then Some (pic_unmask 1 m) else ps2kbd_init stats' m
  end.

(** ** Timer *)

Definition PIT_DIVISOR : Z := 11932.

Definition pit_init : list io_op := [Out 0x43 0x34; Out 0x40 (u8 (Z.land PIT_DIVISOR 0xFF)); Out 0x40 (u8 (Z.shiftr PIT_DIVISOR 8))].

(** While the loop of [pit_sleep_ms] runs, timer interrupts come between its tests of the counter. *)
Inductive sleep_event := Tick | Poll.

Fixpoint sleep_loop (evs : list sleep_event) (ticks target : Z) : option (Z * list sleep_event) :=
  match evs with
  | [] => None
  | Tick :: evs' => sleep_loop evs' (u64 (ticks + 1)) target
  | Poll :: evs' => if ticks <? target then sleep_loop evs' ticks target else Some (ticks, evs')
  end.

Definition pit_sleep_ms (evs : list sleep_event) (ticks ms : Z) : option (Z * list sleep_event) :=
  sleep_loop evs ticks (u64 (ticks + ms / 10 + 1)).
