(* ===== verification/CpuSpec.v ===== *)
(** * Properties of the processor tables, the interrupt entry and the timer

    The formats below are the documented ones of the processor: the fields of a segment
    descriptor and of a gate, the exceptions that push an error code, the selectors that
    [sysretq] loads. *)

From Stdlib Require Import ZArith Lia.
From stdpp Require Import base strings list.
From S2P Require Import Prelude Cpu.

Local Open Scope Z_scope.

(** ** Segments *)

Record seg_desc := mk_seg { sd_base : Z; sd_limit : Z; sd_access : Z; sd_flags : Z }.

Definition decode_seg (d : Z) : seg_desc :=
  mk_seg (d / 2 ^ 16 mod 2 ^ 24 + d / 2 ^ 56 mod 2 ^ 8 * 2 ^ 24) (d mod 2 ^ 16 + d / 2 ^ 48 mod 2 ^ 4 * 2 ^ 16) (d / 2 ^ 40 mod 2 ^ 8) (d / 2 ^ 52 mod 2 ^ 4).

Definition sd_present (d : seg_desc) : bool := Z.testbit (sd_access d) 7.
Definition sd_dpl (d : seg_desc) : Z := sd_access d / 2 ^ 5 mod 4.
(** Bit S: a code or data segment and not a system descriptor. *)
Definition sd_user_type (d : seg_desc) : bool := Z.testbit (sd_access d) 4.
Definition sd_code (d : seg_desc) : bool := sd_user_type d && Z.testbit (sd_access d) 3.
Definition sd_long (d : seg_desc) : bool := Z.testbit (sd_flags d) 1.

(** The innermost field of a word put together with shifts becomes a sum. *)
Ltac join_field :=
  match goal with |- context [Z.lor ?a (Z.shiftl ?b ?k)] => lazymatch a with context [Z.lor _ _] => fail | _ => rewrite (lor_shiftl a b k) by lia end end.

Lemma make_seg_sum base limit access flags : 0 <= base < 2 ^ 32 -> 0 <= limit < 2 ^ 20 -> 0 <= access < 2 ^ 8 -> 0 <= flags < 2 ^ 4 ->
  make_seg base limit access flags =
  limit mod 2 ^ 16 + base mod 2 ^ 24 * 2 ^ 16 + access * 2 ^ 40 + limit / 2 ^ 16 * 2 ^ 48 + flags * 2 ^ 52 + base / 2 ^ 24 * 2 ^ 56.
Proof.
  intros Hb Hl Ha Hf. unfold make_seg. rewrite !Z.shiftr_div_pow2 by lia.
  change 0xFFFF with (Z.ones 16). change 0xFF with (Z.ones 8). change 0x0F with (Z.ones 4). rewrite !Z.land_ones by lia.
  assert (base / 2 ^ 16 mod 2 ^ 8 * 2 ^ 16 + base mod 2 ^ 16 = base mod 2 ^ 24) as Eb by (Z.div_mod_to_equations; lia).
  rewrite (Z.mod_small (base / 2 ^ 24) (2 ^ 8)), (Z.mod_small (limit / 2 ^ 16) (2 ^ 4)), (Z.mod_small flags) by (Z.div_mod_to_equations; lia).
  assert (0 <= limit mod 2 ^ 16 < 2 ^ 16 /\ 0 <= base mod 2 ^ 16 < 2 ^ 16 /\ 0 <= base / 2 ^ 16 mod 2 ^ 8 < 2 ^ 8 /\ 0 <= limit / 2 ^ 16 < 2 ^ 4 /\ 0 <= base / 2 ^ 24 < 2 ^ 8)
    as (H1 & H2 & H3 & H4 & H5) by (Z.div_mod_to_equations; lia).
  do 6 join_field. rewrite <- Eb. lia.
Qed.

Lemma decode_make_seg base limit access flags : 0 <= base < 2 ^ 32 -> 0 <= limit < 2 ^ 20 -> 0 <= access < 2 ^ 8 -> 0 <= flags < 2 ^ 4 ->
  decode_seg (make_seg base limit access flags) = mk_seg base limit access flags.
Proof.
  intros Hb Hl Ha Hf. rewrite make_seg_sum by done. unfold decode_seg. f_equal; Z.div_mod_to_equations; lia.
Qed.

(** The descriptor that a selector names. *)
Definition desc_of (g : gdt_st) (sel : Z) : option Z := gd_entries g !! Z.to_nat (sel / 8).

(** The table that [gdt_init] builds has at each selector the segment it is named after: flat code and
    data segments of ring 0 and ring 3, the code ones in 64-bit mode, and the descriptor of the task state
    segment, present, with its 64-bit address in two slots and its exact limit; the I/O bitmap starts past the end of the segment,
    so that no port is open to user code. *)
Theorem gdt_init_ok g tss_base : length (gd_entries g) = 8%nat -> 0 <= tss_base < 2 ^ 64 ->
  exists kc kd uc ud t0 t1,
    desc_of (gdt_init g tss_base) SEG_KERNEL_CODE = Some kc /\ desc_of (gdt_init g tss_base) SEG_KERNEL_DATA = Some kd /\
    desc_of (gdt_init g tss_base) SEG_USER_CODE = Some uc /\ desc_of (gdt_init g tss_base) SEG_USER_DATA = Some ud /\
    desc_of (gdt_init g tss_base) SEG_TSS = Some t0 /\ desc_of (gdt_init g tss_base) (SEG_TSS + 8) = Some t1 /\
    (forall d, d ∈ [kc; kd; uc; ud] -> sd_base (decode_seg d) = 0 /\ sd_limit (decode_seg d) = 0xFFFFF /\ sd_present (decode_seg d) = true /\ sd_user_type (decode_seg d) = true) /\
    sd_dpl (decode_seg kc) = 0 /\ sd_dpl (decode_seg kd) = 0 /\ sd_dpl (decode_seg uc) = 3 /\ sd_dpl (decode_seg ud) = 3 /\
    sd_code (decode_seg kc) = true /\ sd_long (decode_seg kc) = true /\ sd_code (decode_seg uc) = true /\ sd_long (decode_seg uc) = true /\
    sd_code (decode_seg kd) = false /\ sd_code (decode_seg ud) = false /\
    sd_present (decode_seg t0) = true /\ sd_user_type (decode_seg t0) = false /\ sd_limit (decode_seg t0) + 1 = sizeof_tss /\
    sd_base (decode_seg t0) + t1 * 2 ^ 32 = tss_base /\ ts_iopb (gd_tss (gdt_init g tss_base)) > sd_limit (decode_seg t0).
Proof.
  intros L Ht. destruct g as [e t]. simpl in L. do 9 (destruct e as [|? e]; try discriminate L). clear L.
  eexists _, _, _, _, _, _. do 6 (split; [reflexivity|]).
  split. { intros d Hd. rewrite !elem_of_cons, elem_of_nil in Hd. destruct Hd as [->|[->|[->|[->|[]]]]]; vm_compute; done. }
  do 10 (split; [reflexivity|]). rewrite decode_make_seg by (try apply u32_range; vm_compute; done).
  do 3 (split; [reflexivity|]). split; [|reflexivity]. simpl sd_base.
  change 0xFFFFFFFF with (Z.ones 32). rewrite Z.land_ones, Z.shiftr_div_pow2 by lia. unfold u32. Z.div_mod_to_equations. lia.
Qed.

Lemma gdt_init_ok_witness : exists t0, desc_of (gdt_init (mk_gdt (replicate 8 0) (mk_tss 0 0)) 0x4012340) SEG_TSS = Some t0 /\ sd_limit (decode_seg t0) = 103.
Proof.
  destruct (gdt_init_ok (mk_gdt (replicate 8 0) (mk_tss 0 0)) 0x4012340 eq_refl ltac:(lia)) as (kc & kd & uc & ud & t0 & t1 & _ & _ & _ & _ & E & _ & _ & H).
  exists t0. split; [exact E|]. unfold sizeof_tss in H. lia.
Defined.

(** [sysretq] loads the code segment selector from bits 63-48 of [MSR_STAR], plus 16, with privilege 3. *)
Definition sysret_cs (msr_star : Z) : Z := Z.lor (Z.shiftr msr_star 48 + 16) 3.

(** After a system call the code segment register holds the selector of the task state segment, not the one
    of the user code segment: a descriptor that [iretq] cannot load, so the return from the first interrupt
    that comes in user mode after a system call faults in the kernel. *)
Lemma sysret_selects_tss tss_base : Z.land (sysret_cs star) 0xFFF8 = SEG_TSS /\ sysret_cs star <> Z.lor SEG_USER_CODE 3 /\
  (sd_user_type ∘ decode_seg <$> desc_of (gdt_init (mk_gdt (replicate 8 0) (mk_tss 0 0)) tss_base) (sysret_cs star)) = Some false.
Proof.
  split_and!; [done|done|]. change (desc_of _ _) with (Some (make_seg (u32 tss_base) (u32 (sizeof_tss - 1)) 0x89 0x0)).
  simpl fmap. rewrite decode_make_seg by (try apply u32_range; vm_compute; done). done.
Qed.

(** ** Gates *)

(** The address a gate leads to. *)
Definition gate_target (g : idt_gate_t) : Z := gt_off0 g + gt_off1 g * 2 ^ 16 + gt_off2 g * 2 ^ 32.

(** A present interrupt gate of ring 0 on the kernel code segment. *)
Definition gate_to (h : Z) (g : idt_gate_t) : Prop := gate_target g = h /\ gt_sel g = SEG_KERNEL_CODE /\ gt_type g = 0x8E /\ gt_ist g = 0.

Lemma split_target h : 0 <= h < 2 ^ 64 -> u16 h + u16 (Z.shiftr h 16) * 2 ^ 16 + u32 (Z.shiftr h 32) * 2 ^ 32 = h.
Proof. intros Hh. rewrite !Z.shiftr_div_pow2 by lia. unfold u16, u32. Z.div_mod_to_equations. lia. Qed.

Lemma idt_loop_ok stubs n : forall i idt, length stubs = 256%nat -> Forall (fun h => 0 <= h < 2 ^ 64) stubs -> length idt = 256%nat -> (i + n = 256)%nat ->
  (forall j g, (j < i)%nat -> idt !! j = Some g -> exists h, stubs !! j = Some h /\ gate_to h g) ->
  exists idt', idt_loop n i stubs idt = Some idt' /\ length idt' = 256%nat /\ forall j g, idt' !! j = Some g -> exists h, stubs !! j = Some h /\ gate_to h g.
Proof.
  induction n as [|n IH]; intros i idt Ls Hs Li Hn H.
  { exists idt. split; [done|]. split; [done|]. intros j g Hj. apply H; [|done]. apply lookup_lt_Some in Hj. lia. }
  destruct (lookup_lt_is_Some_2 stubs i) as [h Eh]; [lia|]. cbn [idt_loop]. rewrite Eh. cbn [mbind option_bind].
  unfold set_gate. rewrite u8_small by lia. rewrite Nat2Z.id. rewrite decide_True by lia. cbn [mbind option_bind].
  apply IH; try done; [by rewrite length_insert|lia|]. intros j g Hj Hg. destruct (decide (i = j)) as [<-|Hne].
  - rewrite list_lookup_insert_eq in Hg by lia. injection Hg as <-. exists h. split; [done|]. split_and!; try done.
    apply split_target. by apply (proj1 (Forall_lookup _ _) Hs i h).
  - rewrite list_lookup_insert_ne in Hg by done. apply H; [lia|done].
Qed.

Lemma idt_init_ok stubs idt : length stubs = 256%nat -> Forall (fun h => 0 <= h < 2 ^ 64) stubs -> length idt = 256%nat ->
  exists idt', idt_init stubs idt = Some idt' /\ length idt' = 256%nat /\ forall j g, idt' !! j = Some g -> exists h, stubs !! j = Some h /\ gate_to h g.
Proof. intros Ls Hs Li. apply idt_loop_ok; try done. lia. Qed.

(** ** Entry *)

(** The exceptions that push an error code. *)
Definition pushes_error (vec : nat) : bool := existsb (Nat.eqb vec) [8; 10; 11; 12; 13; 14; 17; 21; 29; 30]%nat.

(** What the processor pushes, on top of [below]. *)
Definition cpu_push (vec : nat) (err rip cs rflags rsp ss : Z) (below : list Z) : list Z :=
  (if pushes_error vec then [err] else []) ++ [rip; cs; rflags; rsp; ss] ++ below.

(** The stub of every vector agrees with the processor on the error code. *)
Lemma stub_kinds_ok vec : (vec < 256)%nat -> isr_stub_kinds !! vec = Some (if pushes_error vec then STUB_ERR else STUB_NOERR).
Proof.
  intros Hv. assert (forallb (fun v => match isr_stub_kinds !! v, pushes_error v with Some STUB_ERR, true | Some STUB_NOERR, false => true | _, _ => false end) (seq 0 256) = true) as H by (vm_compute; reflexivity).
  rewrite forallb_forall in H. specialize (H vec ltac:(apply in_seq; lia)). destruct (isr_stub_kinds !! vec) as [[]|], (pushes_error vec); done.
Qed.

(** The assembly entry of every interrupt gives the dispatcher the interrupted registers, the number of the vector and
    the error code (zero where the processor pushes none), and returns to the state the dispatcher leaves in the
    frame: every register gets its own word back, and [iretq] finds the five words of the processor. *)
Theorem isr_entry_ok vec dispatch regs err rip cs rflags rsp ss below : (vec < 256)%nat -> length regs = 15%nat ->
  (forall f f', dispatch f = Some f' -> length (fr_gprs f) = 15%nat -> length (fr_gprs f') = 15%nat) ->
  (stack ← isr_stub vec (cpu_push vec err rip cs rflags rsp ss below); isr_common dispatch regs stack) =
  (f ← dispatch (mk_frame (rev regs) (Z.of_nat vec) (if pushes_error vec then err else 0) rip cs rflags rsp ss);
   Some (rev (fr_gprs f), [fr_rip f; fr_cs f; fr_rflags f; fr_rsp f; fr_ss f] ++ below)).
Proof.
  intros Hv Hr Hd. unfold isr_stub. rewrite (stub_kinds_ok vec Hv). cbn [mbind option_bind]. set (err' := if pushes_error vec then err else 0).
  replace (match (if pushes_error vec then STUB_ERR else STUB_NOERR) with STUB_NOERR => _ | STUB_ERR => _ end)
    with ([Z.of_nat vec; err'; rip; cs; rflags; rsp; ss] ++ below) by (unfold cpu_push, err'; by destruct (pushes_error vec)).
  unfold isr_common, frame_of_stack. assert (length (rev regs) = 15%nat) as Hl by (by rewrite length_rev). set (g := rev regs) in *.
  rewrite drop_app_ge, take_app_le, take_ge, Hl by lia. cbn [drop app Nat.sub mbind option_bind].
  destruct (dispatch _) as [f|] eqn:E; [|done]. cbn [mbind option_bind]. apply Hd in E; [|done]. unfold store_frame.
  set (w := [fr_vector f; _; _; _; _; _; _]). rewrite (app_assoc g [Z.of_nat vec; err'; rip; cs; rflags; rsp; ss] below : g ++ _ :: _ :: _ :: _ :: _ :: _ :: _ :: below = _).
  assert (list_inserts 0 (fr_gprs f ++ w) ((g ++ [Z.of_nat vec; err'; rip; cs; rflags; rsp; ss]) ++ below) = (fr_gprs f ++ w) ++ below) as ->.
  { rewrite inserts_prefix by (rewrite !length_app, E, Hl; simpl; lia). f_equal. rewrite drop_app_ge by (rewrite !length_app, E, Hl; simpl; lia).
    by rewrite !length_app, E, Hl. }
  do 2 f_equal; [f_equal; rewrite <- app_assoc, take_app_le, take_ge by lia; done|].
  rewrite <- app_assoc, drop_app_ge by lia. by rewrite E.
Qed.

Lemma isr_entry_ok_witness : (stack ← isr_stub 14 (cpu_push 14 6 0x400000 0x1B 0x202 0x7FF0 0x23 []); isr_common (fun f => Some f) (seqZ 1 15) stack) =
  Some (seqZ 1 15, [0x400000; 0x1B; 0x202; 0x7FF0; 0x23]).
Proof.
  rewrite (isr_entry_ok 14 (fun f => Some f) (seqZ 1 15) 6 0x400000 0x1B 0x202 0x7FF0 0x23 []); [reflexivity|lia|reflexivity|].
  intros f f' E Hf. injection E as <-. exact Hf.
Defined.

(** ** Interrupt controller *)

(** [pic_mask] and [pic_unmask] change the bit of their line and no other. *)
Lemma pic_mask_ok irq m : 0 <= irq < 16 -> 0 <= m < 256 -> exists v, pic_mask irq m = [Out (pic_port irq) v] /\
  forall i, 0 <= i < 8 -> Z.testbit v i = if i =? irq mod 8 then true else Z.testbit m i.
Proof.
  intros Hi Hm. eexists. split; [reflexivity|]. intros i Hi'. unfold pic_bit, u8.
  assert ((if irq <? 8 then irq else irq - 8) mod 2 ^ 8 = irq mod 8) as -> by (destruct (Z.ltb_spec irq 8); Z.div_mod_to_equations; lia).
  rewrite Z.mod_pow2_bits_low, Z.lor_spec, Z.mod_pow2_bits_low by lia. rewrite Z.shiftl_mul_pow2, Z.mul_1_l, Z.pow2_bits_eqb by (Z.div_mod_to_equations; lia).
  rewrite Z.eqb_sym. destruct (i =? irq mod 8); [by rewrite orb_true_r|by rewrite orb_false_r].
Qed.

Lemma pic_unmask_ok irq m : 0 <= irq < 16 -> 0 <= m < 256 -> exists v, pic_unmask irq m = [Out (pic_port irq) v] /\
  forall i, 0 <= i < 8 -> Z.testbit v i = if i =? irq mod 8 then false else Z.testbit m i.
Proof.
  intros Hi Hm. eexists. split; [reflexivity|]. intros i Hi'. unfold pic_bit, u8.
  assert ((if irq <? 8 then irq else irq - 8) mod 2 ^ 8 = irq mod 8) as -> by (destruct (Z.ltb_spec irq 8); Z.div_mod_to_equations; lia).
  rewrite Z.mod_pow2_bits_low, Z.land_spec, Z.mod_pow2_bits_low, Z.lnot_spec by lia. rewrite Z.shiftl_mul_pow2, Z.mul_1_l, Z.pow2_bits_eqb by (Z.div_mod_to_equations; lia).
  rewrite Z.eqb_sym. destruct (i =? irq mod 8); simpl; [by rewrite andb_false_r|by rewrite andb_true_r].
Qed.

(** ** Timer *)

(** The divisor is written low byte first, and gives a rate between 99 and 100 Hz. *)
Lemma pit_init_ok : exists lo hi, pit_init = [Out 0x43 0x34; Out 0x40 lo; Out 0x40 hi] /\ lo + 256 * hi = PIT_DIVISOR /\ 1193182 / PIT_DIVISOR = 99.
Proof. by eexists _, _. Qed.

Definition ticks_in (evs : list sleep_event) : Z := Z.of_nat (length (List.filter (fun e => match e with Tick => true | Poll => false end) evs)).

Lemma ticks_in_cons e evs : ticks_in (e :: evs) = (match e with Tick => 1 | Poll => 0 end) + ticks_in evs.
Proof. unfold ticks_in. destruct e; simpl; lia. Qed.

Lemma ticks_in_nonneg evs : 0 <= ticks_in evs.
Proof. unfold ticks_in. lia. Qed.

(** The loop goes on exactly until a test finds the counter at the target. *)
Lemma sleep_loop_ok evs : forall pre post ticks target, evs = pre ++ Poll :: post -> 0 <= ticks -> ticks + ticks_in evs < 2 ^ 64 -> target <= ticks + ticks_in pre ->
  exists t rest, sleep_loop evs ticks target = Some (t, rest) /\ target <= t /\ t <= ticks + ticks_in pre.
Proof.
  induction evs as [|e evs IH]; intros pre post ticks target E H0 Hb Ht; [by destruct pre|]. rewrite ticks_in_cons in Hb. pose proof (ticks_in_nonneg evs).
  destruct pre as [|e' pre]; injection E as -> E.
  { cbn [sleep_loop]. change (ticks_in []) with 0 in *. destruct (Z.ltb_spec ticks target); [lia|]. eexists _, _. split; [done|]. lia. }
  rewrite ticks_in_cons in *. destruct e'; cbn [sleep_loop].
  - rewrite u64_small by lia. destruct (IH pre post (ticks + 1) target E) as (t & rest & -> & Hlo & Hhi); [lia..|]. eexists _, _. split; [done|]. lia.
  - destruct (Z.ltb_spec ticks target).
    + destruct (IH pre post ticks target E) as (t & rest & -> & Hlo & Hhi); [lia..|]. eexists _, _. split; [done|]. lia.
    + eexists _, _. split; [done|]. pose proof (ticks_in_nonneg pre). lia.
Qed.

Lemma sleep_loop_waits evs : forall ticks target t rest, sleep_loop evs ticks target = Some (t, rest) -> target <= t.
Proof.
  induction evs as [|[] evs IH]; intros ticks target t rest E; [done|by eapply IH|]. cbn [sleep_loop] in E.
  destruct (Z.ltb_spec ticks target); [by eapply IH|]. by injection E as <- <-.
Qed.

(** A sleep ends: however the timer interrupts and the tests of the loop are interleaved, once [ms / 10 + 1] interrupts have
    come the next test ends the wait; and it never ends before that many interrupts, so at
    least [ms / 10] whole periods of the timer have passed. *)
Theorem pit_sleep_ms_returns pre post ticks ms : 0 <= ticks -> 0 <= ms < 2 ^ 32 -> ticks + ticks_in (pre ++ Poll :: post) < 2 ^ 64 ->
  (ms / 10 + 1 <= ticks_in pre -> exists t rest, pit_sleep_ms (pre ++ Poll :: post) ticks ms = Some (t, rest) /\ ticks + ms / 10 + 1 <= t <= ticks + ticks_in pre) /\
  (forall evs t rest, ticks + ms / 10 + 1 < 2 ^ 64 -> pit_sleep_ms evs ticks ms = Some (t, rest) -> ticks + ms / 10 + 1 <= t).
Proof.
  intros Ht Hms Hb. assert (0 <= ms / 10) by (Z.div_mod_to_equations; lia). unfold pit_sleep_ms. split.
  - intros Hp. assert (ticks_in pre <= ticks_in (pre ++ Poll :: post)) by (unfold ticks_in; rewrite List.filter_app, length_app; lia).
    rewrite u64_small by lia. destruct (sleep_loop_ok _ pre post ticks (ticks + ms / 10 + 1) eq_refl) as (t & rest & -> & Hlo & Hhi); [lia..|].
    eexists _, _. split; [done|]. lia.
  - intros evs t rest Hlt E. rewrite u64_small in E by lia. by apply sleep_loop_waits in E.
Qed.

Lemma pit_sleep_ms_returns_witness : exists t rest, pit_sleep_ms ([Poll; Tick; Poll; Tick; Tick] ++ Poll :: []) 7 20 = Some (t, rest) /\ t = 10.
Proof.
  destruct (pit_sleep_ms_returns [Poll; Tick; Poll; Tick; Tick] [] 7 20 ltac:(lia) ltac:(lia) ltac:(vm_compute; reflexivity)) as [H _].
  destruct H as (t & rest & E & Ht); [vm_compute; discriminate|]. exists t, rest. split; [exact E|]. change (ticks_in [Poll; Tick; Poll; Tick; Tick]) with 3 in Ht. change (20 / 10) with 2 in Ht. lia.
Defined.
