(* ===== verification/Irq.v ===== *)
(** * The interrupt dispatcher (src/kernel/arch/idt.c, pit.c, drv/ps2kbd.c)

    [isr_dispatch] sends a vector to the timer, the keyboard, the page fault handler or the end of
    the process, and acknowledges the interrupt controller.  Its state is the kernel of the system calls, the
    keyboard, and the ports written.  It ends with the frame to return to, with another
    thread (when the timer ends a quantum, before the interrupt is acknowledged), or never. *)

From Stdlib Require Import ZArith Lia.
From stdpp Require Import base strings gmap list.
From S2P Require Import Prelude KString Phys PhysSpec PhysIface VRegion PageTable PageTableSpec VmSpace RbTree Sched VfsPath Vfs UserMem UserMemSpec Elf Syscall SyscallSpec Kbd Cpu.

Local Open Scope Z_scope.

Definition VEC_PIT_TIMER : Z := 0x20.
Definition VEC_KBD : Z := 0x21.
Definition VEC_SPURIOUS : Z := 0x27.
Definition VEC_PAGE_FAULT : Z := 14.

Definition g_exc : list string :=
  ["#DE"; "#DB"; "NMI"; "#BP"; "#OF"; "#BR"; "#UD"; "#NM"; "#DF"; "FPU"; "#TS"; "#NP"; "#SS"; "#GP"; "#PF"; "---";
   "#MF"; "#AC"; "#MC"; "#XM"; "#VE"; "#CP"; "---"; "---"; "---"; "---"; "---"; "---"; "#HV"; "#VC"; "#SX"; "---"]%string.

(** The characters go to the serial line, whether or not it is ready after 100000 tests. *)
Definition kputs (s : string) : list io_op := Out 0x3F8 <$> take (String.length s) (c_str s).

(** [for (i = 17; i >= 2; i--)] from the last digit. *)
Fixpoint kputx_loop (n : nat) (v : Z) (acc : string) : string :=
  match n with
  | O => acc
  | S n' =>
      kputx_loop n' (Z.shiftr v 4) (String (default Ascii.zero (String.get (Z.to_nat (Z.land v 0xF)) "0123456789ABCDEF")) acc)
  end.

Definition kputx (v : Z) : list io_op := kputs ("0x" ++ kputx_loop 16 v "").

Section Irq.
Context `{BlockAlloc St} {W B : Type}.
Abbreviation kern := (kern_t St W B).

(** The address of [irq_user_fault_exit], [amm_get_kernel_cr3()] and [g_percpu.kernel_rsp]. *)
Context (irq_user_fault_exit g_kernel_cr3 kernel_rsp : Z).

Record irq_st := mk_irq { iq_kern : kern; iq_kbd : kbd_st; iq_ports : list io_op }.

(** [IsrSwitch]: the processor runs another thread, and the rest of the dispatcher runs when this one is resumed. *)
Inductive isr_res := IsrReturn (f : isr_frame_t) | IsrSwitch (next : nat) | IsrHalt.

Definition set_iports (q : irq_st) (v : list io_op) : irq_st := mk_irq (iq_kern q) (iq_kbd q) v.
Definition set_ikern (q : irq_st) (v : kern) : irq_st := mk_irq v (iq_kbd q) (iq_ports q).
Definition out (q : irq_st) (v : list io_op) : irq_st := set_iports q (iq_ports q ++ v).

Definition set_kticks (k : kern) (v : Z) : kern :=
  mk_kern (kn_mem k) (kn_pool k) (kn_vmaps k) (kn_vmap_next k) (kn_sched k) (kn_vfs k) (kn_mmap_bump k) (kn_brk_cur k) (kn_in k) (kn_out k) v (kn_kents k) (kn_hostname k) (kn_shell_uid k) (kn_shell_gid k) (kn_elf_buf k).

Definition pit_isr (k : kern) : option (outcome * kern) :=
  let t := u64 (kn_ticks k + 1) in
  let ns := u64 (t * (1000000000 / 100)) in
  '(o, st) ← sched_tick g_kernel_cr3 (kn_sched k) ns;
  Some (o, set_ksched (set_kticks k t) st).

Definition syscall_kernel_rsp0 : Z := if 16 <? kernel_rsp then kernel_rsp - 16 else kernel_rsp.

Definition isr_frame_user (f : isr_frame_t) : bool := negb (Z.land (fr_cs f) 3 =? 0).

Definition kill_user_fault (q : irq_st) (f : isr_frame_t) (name : string) : irq_st * isr_frame_t :=
  (out q (kputs (String (Ascii.ascii_of_nat 10) "[user] ") ++ kputs name ++ kputs " rip=" ++ kputx (fr_rip f) ++ kputs " rsp=" ++ kputx (fr_rsp f) ++ kputs (String (Ascii.ascii_of_nat 10) "")),
   mk_frame (fr_gprs f) (fr_vector f) (fr_error_code f) irq_user_fault_exit 0x08 0x202 syscall_kernel_rsp0 0x10).

(** The address space of the current process takes the fault. *)
Definition try_page_fault (k : kern) (cr2 : Z) (is_write : bool) : option (bool * kern) :=
  vm ← cur_vm k;
  match vm with
  | None => Some (false, k)
  | Some (_, m) => '(r, s) ← amm_page_fault (kn_mem k) (kn_pool k) m cr2 is_write; Some (r =? 0, set_kmem k s)
  end.

(** [cr2] is the fault address, [kstat] and [kdata] are what the ports of the keyboard give. *)
Definition isr_dispatch (q : irq_st) (f : isr_frame_t) (cr2 kstat kdata : Z) : option (isr_res * irq_st) :=
  let v := fr_vector f in
  if v =? VEC_PIT_TIMER then
    '(o, k) ← pit_isr (iq_kern q);
    match o with
    | Returned => Some (IsrReturn f, out (set_ikern q k) (pic_eoi 0))
    | Switched n => Some (IsrSwitch n, set_ikern q k)
    | JmpBack => None
    end
  else if v =? VEC_KBD then
    kb ← ps2kbd_isr (iq_kbd q) kstat kdata;
    Some (IsrReturn f, out (mk_irq (iq_kern q) kb (iq_ports q)) (pic_eoi 1))
  else if v =? VEC_SPURIOUS then Some (IsrReturn f, q)
  else if (0x28 <=? v) && (v <=? 0x2F) then Some (IsrReturn f, out q (pic_eoi (v - 0x20)))
  else if (0x20 <=? v) && (v <=? 0x27) then Some (IsrReturn f, out q (pic_eoi (v - 0x20)))
  else if v =? VEC_PAGE_FAULT then
    let is_write := negb (Z.land (fr_error_code f) 0x2 =? 0) in
    '(handled, k) ← try_page_fault (iq_kern q) cr2 is_write;
    let q := set_ikern q k in
    if (handled : bool) then Some (IsrReturn f, q)
    else if isr_frame_user f then let '(q, f) := kill_user_fault q f "#PF" in Some (IsrReturn f, q)
    else
      Some (IsrHalt, out q (kputs (String (Ascii.ascii_of_nat 10) "*** EXCEPTION #PF err=") ++ kputx (fr_error_code f) ++ kputs " cr2=" ++ kputx cr2 ++
        kputs " rip=" ++ kputx (fr_rip f) ++ kputs " rsp=" ++ kputx (fr_rsp f) ++ kputs (String (Ascii.ascii_of_nat 10) "")))
  else if v <? 32 then
    name ← g_exc !! Z.to_nat v;
    if isr_frame_user f then let '(q, f) := kill_user_fault q f name in Some (IsrReturn f, q)
    else
      Some (IsrHalt, out q (kputs (String (Ascii.ascii_of_nat 10) "*** EXCEPTION ") ++ kputs name ++ kputs " err=" ++ kputx (fr_error_code f) ++
        kputs " rip=" ++ kputx (fr_rip f) ++ kputs " rsp=" ++ kputx (fr_rsp f) ++ kputs (String (Ascii.ascii_of_nat 10) "")))
  else Some (IsrReturn f, q).

End Irq.
