(* ===== verification/IrqSpec.v ===== *)
(** * Properties of the interrupt dispatcher *)

From Stdlib Require Import ZArith Lia.
From stdpp Require Import base strings gmap list.
From S2P Require Import Prelude KString Phys PhysSpec PhysIface VRegion PageTable PageTableSpec VmSpace RbTree Sched VfsPath Vfs UserMem UserMemSpec Elf Syscall SyscallSpec Kbd Cpu Irq.

Local Open Scope Z_scope.

Section Spec.
Context `{BlockAllocLaws St} {W B : Type}.
Abbreviation kern := (kern_t St W B).
Context (irq_user_fault_exit g_kernel_cr3 kernel_rsp : Z).
Abbreviation dispatch := (isr_dispatch (W := W) (B := B) irq_user_fault_exit g_kernel_cr3 kernel_rsp).

(** The regions of a process are in the user half. *)
Definition user_regions (l : list (nat * rgn)) : Prop := forall j g, (j, g) ∈ l -> rg_end g <= USER_LIMIT.

(** The regions permit the access. *)
Definition permitted (l : list (nat * rgn)) (va : Z) (write : bool) : Prop :=
  exists j g, (j, g) ∈ l /\ rg_base g <= va < rg_end g /\ (write = true -> Z.land (rg_prot g) PROT_WRITE <> 0).

(** The frame that ends the process: the trampoline on the kernel stack of the thread. *)
Definition exit_frame (f : isr_frame_t) : isr_frame_t :=
  mk_frame (fr_gprs f) (fr_vector f) (fr_error_code f) irq_user_fault_exit 0x08 0x202 (syscall_kernel_rsp0 kernel_rsp) 0x10.

(** A fault outside the user half finds no region. *)
Lemma page_fault_kernel_half p m l (s : St) va write : vmap_inv p m l -> user_regions l -> USER_LIMIT <= va -> amm_page_fault s p m va write = Some (-1, s).
Proof using.
  intros V Hu Hva. unfold amm_page_fault. rewrite (find_ok p m l va V). cbn [mbind option_bind].
  destruct (List.find (fun x => holds va x.2) l) as [[i g]|] eqn:Hf; [|done]. apply List.find_some in Hf as [Hin%list_elem_of_In Hh].
  specialize (Hu i g Hin). unfold holds in Hh. simpl in Hh. lia.
Qed.

Lemma try_page_fault_ok (k : kern) i m l O root T cr2 write : user_proc k i m l O root T -> user_regions l -> 0 <= cr2 < 2 ^ 64 ->
  (user_va cr2 -> frame_of (kn_mem k) T cr2 = None) ->
  exists handled s' O' T', try_page_fault k cr2 write = Some (handled, set_kmem k s') /\ user_proc (set_kmem k s') i m l O' root T' /\
    usteps l (fun _ => False) (kn_mem k) O T s' O' T' /\ (handled = true -> permitted l cr2 write).
Proof using All.
  intros U Hu Hc Hn. unfold try_page_fault. rewrite (up_cur _ _ _ _ _ _ _ U). cbn [mbind option_bind].
  assert (set_kmem k (kn_mem k) = k) as Ek by (by destruct k).
  destruct (decide (USER_LIMIT <= cr2)) as [Hk|Hk].
  { rewrite (page_fault_kernel_half _ _ l) by (done || apply U). cbn [mbind option_bind]. exists false, (kn_mem k), O, T. rewrite Ek.
    split_and!; [done..|apply usteps_refl|done]. }
  assert (user_va cr2) as Hv by (unfold user_va; lia). pose proof (up_space _ _ _ _ _ _ _ U) as Us. pose proof (up_regions _ _ _ _ _ _ _ U) as V.
  destruct (page_fault_spec user_half (kn_mem k) O root T (kn_pool k) m l cr2 write (sp_pt _ _ _ _ _ Us) V (sp_cr3 _ _ _ _ _ Us) Hc (user_va_half _ Hv))
    as [(j & g & Hin & Hr & Hw & r & s' & O' & T' & -> & I' & K & Hx)|[_ ->]]; cbn [mbind option_bind].
  - assert (mapped_page (kn_mem k) O T s' O' T' cr2 (rg_prot g)) as Hmp by (destruct Hx as [?|[_ ?]]; [by left|by right]).
    destruct (uspace_page l (kn_mem k) O root T m s' O' T' cr2 (rg_prot g) Us I' K Hmp Hv) as [U' S]; [by exists j, g, cr2|auto|].
    exists (r =? 0), s', O', T'. split; [done|]. split; [by eapply user_proc_steps|]. split; [done|]. intros _. by exists j, g.
  - exists false, (kn_mem k), O, T. rewrite Ek. split_and!; [done..|apply usteps_refl|done].
Qed.

Lemma exc_name v : 0 <= v < 32 -> is_Some (g_exc !! Z.to_nat v).
Proof using. intros Hv. apply lookup_lt_is_Some_2. change (length g_exc) with 32%nat. lia. Qed.

(** The message of a killed process goes to the serial line only. *)
Lemma kputs_port s p v : Out p v ∈ kputs s -> p = 0x3F8.
Proof using. intros Hx. apply list_elem_of_fmap in Hx as (c & E & _). by injection E. Qed.

Lemma kill_ports (q : irq_st (St := St) (W := W) (B := B)) f name v :
  Out PIC1_CMD v ∈ iq_ports (fst (kill_user_fault irq_user_fault_exit kernel_rsp q f name)) -> Out PIC1_CMD v ∈ iq_ports q.
Proof using.
  unfold kill_user_fault, kputx. cbn [fst out set_iports iq_ports]. rewrite !elem_of_app.
  intros [Hx|Hx]; [exact Hx|]. destruct_or? Hx; apply kputs_port in Hx; discriminate Hx.
Qed.


(** Hardware interrupts: a keyboard interrupt goes to the keyboard driver and is acknowledged; the interrupts without
    a driver are acknowledged at the controllers they came through, and the spurious one is not. *)
Lemma isr_keyboard q f cr2 kstat kdata kb : fr_vector f = VEC_KBD -> ps2kbd_isr (iq_kbd q) kstat kdata = Some kb ->
  dispatch q f cr2 kstat kdata = Some (IsrReturn f, mk_irq (iq_kern q) kb (iq_ports q ++ [Out PIC1_CMD 0x20])).
Proof using. intros E Ek. unfold isr_dispatch. rewrite E. simpl. by rewrite Ek. Qed.

Lemma isr_other_irq q f cr2 kstat kdata : 0x22 <= fr_vector f <= 0x2F -> fr_vector f <> VEC_SPURIOUS ->
  dispatch q f cr2 kstat kdata = Some (IsrReturn f, out q (if fr_vector f <? 0x28 then [Out PIC1_CMD 0x20] else [Out PIC2_CMD 0x20; Out PIC1_CMD 0x20])).
Proof using.
  intros Hv Hs. unfold isr_dispatch, VEC_PIT_TIMER, VEC_KBD, VEC_SPURIOUS in *.
  destruct (Z.eqb_spec (fr_vector f) 0x20), (Z.eqb_spec (fr_vector f) 0x21), (Z.eqb_spec (fr_vector f) 0x27); try lia.
  unfold pic_eoi. destruct (Z.leb_spec 0x28 (fr_vector f)), (Z.leb_spec (fr_vector f) 0x2F), (Z.leb_spec 0x20 (fr_vector f)), (Z.leb_spec (fr_vector f) 0x27), (Z.ltb_spec (fr_vector f) 0x28); try lia; simpl;
    destruct (Z.leb_spec 8 (fr_vector f - 0x20)); try lia; done.
Qed.

(** When the timer gives the processor to another thread the interrupt is not acknowledged: the line stays
    in service, and no further timer or keyboard interrupt comes, until the interrupted thread runs again. *)
Lemma isr_switch_unacknowledged q f cr2 kstat kdata n q' : dispatch q f cr2 kstat kdata = Some (IsrSwitch n, q') -> fr_vector f = VEC_PIT_TIMER /\ iq_ports q' = iq_ports q.
Proof using.
  unfold isr_dispatch. intros E. destruct (Z.eqb_spec (fr_vector f) VEC_PIT_TIMER) as [Ev|_].
  - split; [done|]. destruct (pit_isr g_kernel_cr3 (iq_kern q)) as [[[] k]|]; try done. by injection E as <- <-.
  - exfalso. unfold kill_user_fault in E. repeat (case_match || (apply bind_Some in E as (? & ? & E))); simplify_eq.
Qed.

End Spec.
