(* ===== verification/IrqDemo.v ===== *)
(** * Witnesses for the interrupt dispatcher *)

From Stdlib Require Import ZArith Lia.
From stdpp Require Import base strings gmap list.
From S2P Require Import Prelude KString Phys PhysSpec PhysIface VRegion PageTable PageTableSpec VmSpace RbTree Sched VfsPath Vfs ShmSpec UserMem UserMemSpec Elf Syscall SyscallSpec UserDemo Kbd Cpu Irq IrqSpec.

Local Open Scope Z_scope.

Definition demo_irq : irq_st (St := pool) (W := unit) (B := unit) := mk_irq demo_kern kbd_start [].

(** A page fault of user code, a write to a page that is not present. *)
Definition demo_frame (vec : Z) : isr_frame_t := mk_frame (replicate 15 0) vec 6 0x400010 0x1B 0x202 0x402FF0 0x23.

Lemma demo_user_regions : user_regions user_rgns.
Proof. intros j g Hj. apply list_elem_of_singleton in Hj. injection Hj as -> ->. vm_compute. discriminate. Qed.


(** The page of the write is mapped and holds zeroes; the process goes on. *)
Example page_fault_maps : option_map (fun r => match r.1 with IsrReturn f => (fr_rip f, iq_ports r.2) | _ => (0, []) end)
  (isr_dispatch 0xFFFF 0 0x90000 demo_irq (demo_frame 14) 0x401008 0 0) = Some (0x400010, []).
Proof. vm_compute. reflexivity. Qed.

(** In kernel mode the same exceptions stop the processor. *)
Example kernel_fault_halts : option_map fst (isr_dispatch 0xFFFF 0 0x90000 demo_irq (mk_frame (replicate 15 0) 13 0 0x4000000 0x08 0x202 0x90000 0x10) 0 0 0) = Some IsrHalt.
Proof. vm_compute. reflexivity. Qed.
