(* ===== verification/BootCfg.v ===== *)
(** * The boot loader: configuration and menu (src/boot/asdboot.c, lines 374-555 and 1082-1235)

    The configuration is a text of lines [key=value], with blocks [menu ... end] and [entry ... end].
    A character array that holds a string is the list of the characters before its terminator.
    Signed overflow is [None].  The keys that polling the keyboard gives are a list. *)

From Stdlib Require Import ZArith Lia.
From stdpp Require Import base strings list.
From S2P Require Import Prelude.

Local Open Scope Z_scope.

Definition ABC_MAX_ENTRIES : Z := 8.
Definition ABC_MAX_STR : nat := 256.

Definition is_digit (c : Z) : bool := (48 <=? c) && (c <=? 57).
Definition is_space (c : Z) : bool := (c =? 32) || (c =? 9) || (c =? 13) || (c =? 10).

(** The characters before the terminator. *)
Fixpoint cut0 (l : list Z) : list Z :=
  match l with [] => [] | c :: l' => if c =? 0 then [] else c :: cut0 l' end.

Definition str_cpy (src : list Z) (max : nat) : list Z := take (max - 1) (cut0 src).

Record abc_entry_t := mk_entry { ae_id : list Z; ae_label : list Z; ae_kernel : list Z; ae_initrd : list Z; ae_cmdline : list Z; ae_uki : list Z; ae_is_uki : bool }.

(** [entries] up to [entry_count]. *)
Record abc_config_t := mk_config { ac_timeout : Z; ac_default_id : list Z; ac_menu_title : list Z; ac_entries : list abc_entry_t }.

Definition empty_entry : abc_entry_t := mk_entry [] [] [] [] [] [] false.

(** Leading characters that satisfy [p]. *)
Fixpoint drop_while (p : Z -> bool) (l : list Z) : list Z :=
  match l with [] => [] | c :: l' => if p c then drop_while p l' else l end.

Definition trim_end (l : list Z) : list Z := rev (drop_while is_space (rev l)).

(** The line at the start of the rest of the text, cut to [max - 1] characters, and what follows it. *)
Definition abc_read_line (text : list Z) (max : nat) : list Z * list Z :=
  let text := drop_while (fun c => (c =? 32) || (c =? 9)) text in
  let n := default (length text) (find_idx (fun c => c =? 10) text) in
  (take (max - 1) (trim_end (take n text)), drop (S n) text).

Definition abc_split_kv (line : list Z) (max : nat) : option (list Z * list Z) :=
  let line := cut0 line in
  eq ← find_idx (fun c => c =? 61) line;
  let key := trim_end (take eq line) in
  if (length key =? 0)%nat || (max <=? length key)%nat then None
  else
    let v := drop_while is_space (drop (S eq) line) in
    let quoted := (2 <=? length v)%nat && bool_decide (head v = Some 34) && bool_decide (last v = Some 34) in
    let v := if quoted then take (length v - 2) (drop 1 v) else v in
    Some (key, take (max - 1) v).

Fixpoint timeout_loop (val : list Z) (t : Z) : option Z :=
  match val with
  | [] => Some t
  | c :: val' =>
      if is_digit c then let t := t * 10 + (c - 48) in if 2 ^ 31 <=? t then None else timeout_loop val' t else timeout_loop val' t
  end.

(** The local variables of [abc_parse]. *)
Record abc_st := mk_abc { ab_cfg : abc_config_t; ab_in_menu : bool; ab_in_entry : bool; ab_cur : abc_entry_t }.

Definition is_key (key : list Z) (s : string) : bool := bool_decide (key = c_str s).

Definition set_menu_key (c : abc_config_t) (key val : list Z) : abc_config_t :=
  let c := if is_key key "title" then mk_config (ac_timeout c) (ac_default_id c) (str_cpy val ABC_MAX_STR) (ac_entries c) else c in
  if is_key key "default" then mk_config (ac_timeout c) (str_cpy val ABC_MAX_STR) (ac_menu_title c) (ac_entries c) else c.

Definition if_key (key : list Z) (s : string) (f : abc_entry_t -> abc_entry_t) (e : abc_entry_t) : abc_entry_t := if is_key key s then f e else e.

Definition set_entry_key (e : abc_entry_t) (key val : list Z) : abc_entry_t :=
  let v := str_cpy val ABC_MAX_STR in
  if_key key "uki" (fun e => mk_entry (ae_id e) (ae_label e) (ae_kernel e) (ae_initrd e) (ae_cmdline e) v true)
  (if_key key "cmdline" (fun e => mk_entry (ae_id e) (ae_label e) (ae_kernel e) (ae_initrd e) v (ae_uki e) (ae_is_uki e))
  (if_key key "initrd" (fun e => mk_entry (ae_id e) (ae_label e) (ae_kernel e) v (ae_cmdline e) (ae_uki e) (ae_is_uki e))
  (if_key key "kernel" (fun e => mk_entry (ae_id e) (ae_label e) v (ae_initrd e) (ae_cmdline e) (ae_uki e) (ae_is_uki e))
  (if_key key "label" (fun e => mk_entry (ae_id e) v (ae_kernel e) (ae_initrd e) (ae_cmdline e) (ae_uki e) (ae_is_uki e))
  (if_key key "id" (fun e => mk_entry v (ae_label e) (ae_kernel e) (ae_initrd e) (ae_cmdline e) (ae_uki e) (ae_is_uki e)) e))))).

(** The body of the loop for one line. *)
Definition abc_line (s : abc_st) (line : list Z) : option abc_st :=
  let line := cut0 line in
  if bool_decide (line = []) || bool_decide (head line = Some 35) then Some s
  else if is_key line "end" then
    let c := ab_cfg s in
    let s' := if ab_in_entry s then
        let es := if Z.of_nat (length (ac_entries c)) <? ABC_MAX_ENTRIES then ac_entries c ++ [ab_cur s] else ac_entries c in
        mk_abc (mk_config (ac_timeout c) (ac_default_id c) (ac_menu_title c) es) false false empty_entry
      else mk_abc c false false (ab_cur s) in
    Some s'
  else if is_key line "menu" then Some (mk_abc (ab_cfg s) true (ab_in_entry s) (ab_cur s))
  else if is_key line "entry" then Some (mk_abc (ab_cfg s) (ab_in_menu s) true (ab_cur s))
  else match abc_split_kv line ABC_MAX_STR with
  | None => Some s
  | Some (key, val) =>
      let c := ab_cfg s in
      if negb (ab_in_menu s) && negb (ab_in_entry s) then
        if is_key key "timeout" then
          t ← timeout_loop (cut0 val) 0;
          Some (mk_abc (mk_config t (ac_default_id c) (ac_menu_title c) (ac_entries c)) (ab_in_menu s) (ab_in_entry s) (ab_cur s))
        else Some s
      else if ab_in_menu s then Some (mk_abc (set_menu_key c key val) (ab_in_menu s) (ab_in_entry s) (ab_cur s))
      else Some (mk_abc c (ab_in_menu s) (ab_in_entry s) (set_entry_key (ab_cur s) key val))
  end.

(** [while (!abc_at_end(&p))]: the rest of the text gets shorter. *)
Fixpoint abc_loop (fuel : nat) (text : list Z) (s : abc_st) : option abc_st :=
  match text with
  | [] => Some s
  | _ => match fuel with
         | O => None
         | S fuel' => let '(line, rest) := abc_read_line text ABC_MAX_STR in s ← abc_line s line; abc_loop fuel' rest s
         end
  end.

Definition abc_parse (text : list Z) : option abc_config_t :=
  s ← abc_loop (length text) text (mk_abc (mk_config 3 [] (c_str "ASD Boot") []) false false empty_entry);
  Some (ab_cfg s).

(** ** The menu *)

Inductive boot_key := KEY_UP | KEY_DOWN | KEY_ENTER | KEY_ESC | KEY_E | KEY_NONE.

(** The key that [read_key] makes of a scan code and a character, when the firmware has one. *)
Definition read_key (k : option (Z * Z)) : boot_key :=
  match k with
  | None => KEY_NONE
  | Some (scan_code, unicode_char) =>
      if scan_code =? 0x01 then KEY_UP
      else if scan_code =? 0x02 then KEY_DOWN
      else if scan_code =? 0x17 then KEY_ESC
      else if unicode_char =? 0x0D then KEY_ENTER
      else if (unicode_char =? 101) || (unicode_char =? 69) then KEY_E
      else KEY_NONE
  end.

Fixpoint find_default (es : list abc_entry_t) (id : list Z) (i : Z) : Z :=
  match es with
  | [] => 0
  | e :: es' => if bool_decide (ae_id e = id) then i else find_default es' id (i + 1)
  end.

Definition default_index (c : abc_config_t) : Z := if bool_decide (ac_default_id c = []) then 0 else find_default (ac_entries c) (ac_default_id c) 0.

(** What [efi_main] does with a configuration. *)
Inductive menu_choice := BootEntry (i : Z) | ToFirmware | NoEntry.

(** One turn of the loop for each key, 100 ms apart; [None] when the keys run out. *)
Fixpoint menu_loop (keys : list (option (Z * Z))) (count selected countdown : Z) (user_acted : bool) : option menu_choice :=
  match keys with
  | [] => None
  | k :: keys' =>
      let next selected user_acted :=
        if negb user_acted then
          let countdown := countdown - 1 in
          if countdown <=? 0 then Some (BootEntry selected) else menu_loop keys' count selected countdown user_acted
        else menu_loop keys' count selected countdown user_acted in
      match read_key k with
      | KEY_UP => next (Z.rem (selected - 1 + count) count) true
      | KEY_DOWN => next (Z.rem (selected + 1) count) true
      | KEY_ENTER | KEY_E => Some (BootEntry selected)
      | KEY_ESC => Some ToFirmware
      | KEY_NONE => next selected user_acted
      end
  end.

Definition boot_choice (c : abc_config_t) (keys : list (option (Z * Z))) : option menu_choice :=
  let count := Z.of_nat (length (ac_entries c)) in
  if count =? 0 then Some NoEntry
  else if (count =? 1) && (ac_timeout c =? 0) then Some (BootEntry 0)
  else menu_loop keys count (default_index c) (ac_timeout c) false.
