(* ===== verification/BootCfgSpec.v ===== *)
(** * Properties of the boot loader's configuration and menu *)

From Stdlib Require Import ZArith Lia.
From stdpp Require Import base strings list.
From S2P Require Import Prelude BootCfg.

Local Open Scope Z_scope.

(** ** Lines *)

Lemma drop_while_length p l : (length (drop_while p l) <= length l)%nat.
Proof. induction l as [|c l IH]; simpl; [done|]. destruct (p c); simpl; lia. Qed.

Lemma drop_while_id p l : match l with [] => True | c :: _ => p c = false end -> drop_while p l = l.
Proof. destruct l as [|c l]; simpl; [done|]. by intros ->. Qed.

Lemma drop_while_app p l l' : Forall (fun c => p c = true) l -> drop_while p (l ++ l') = drop_while p l'.
Proof. induction 1 as [|c l Hc Hl IH]; simpl; [done|]. by rewrite Hc. Qed.

(** A line whose first and last characters are no white space is not trimmed. *)
Definition tight (l : list Z) : Prop := (forall c, head l = Some c -> is_space c = false) /\ (forall c, last l = Some c -> is_space c = false).

Lemma trim_end_id l : (forall c, last l = Some c -> is_space c = false) -> trim_end l = l.
Proof.
  intros H. unfold trim_end. rewrite drop_while_id; [apply rev_involutive|]. destruct (rev l) as [|c r] eqn:E; [done|]. apply H.
  rewrite <- (rev_involutive l), E. simpl. by rewrite last_snoc.
Qed.

Lemma find_app_nl (l rest : list Z) : Forall (fun c => c <> 10) l -> find_idx (fun c => c =? 10) (l ++ 10 :: rest) = Some (length l).
Proof. induction 1 as [|c l Hc Hl IH]; simpl; [done|]. destruct (Z.eqb_spec c 10); [done|]. by rewrite IH. Qed.

(** The text of a line followed by a newline is read back. *)
Lemma read_line_ok l rest max : Forall (fun c => c <> 10) l -> tight l -> (length l < max)%nat -> abc_read_line (l ++ 10 :: rest) max = (l, rest).
Proof.
  intros Hn [Hh Hl] Hm. unfold abc_read_line. rewrite drop_while_id.
  2: { destruct l as [|c l]; simpl; [done|]. specialize (Hh c eq_refl). unfold is_space in Hh. lia. }
  rewrite find_app_nl by done. simpl default. rewrite take_app_le, (take_ge l (length l)), trim_end_id by done.
  rewrite take_ge by lia. f_equal. rewrite drop_app_ge by lia. by replace (S (length l) - length l)%nat with 1%nat by lia.
Qed.

Lemma abc_loop_S fuel text s : text <> [] ->
  abc_loop (S fuel) text s = let '(line, rest) := abc_read_line text ABC_MAX_STR in s ← abc_line s line; abc_loop fuel rest s.
Proof. by destruct text. Qed.

(** The loop reads the lines one after the other. *)
Lemma abc_loop_line fuel l rest s s' : Forall (fun c => c <> 10) l -> tight l -> (length l < ABC_MAX_STR)%nat -> abc_line s l = Some s' ->
  abc_loop (S fuel) (l ++ 10 :: rest) s = abc_loop fuel rest s'.
Proof.
  intros Hn Ht Hl E. rewrite abc_loop_S by (by destruct l). rewrite (read_line_ok l rest) by done. by rewrite E.
Qed.

Lemma read_line_shorter text max : text <> [] -> (length (abc_read_line text max).2 < length text)%nat.
Proof.
  intros Ht. unfold abc_read_line. cbn [snd]. rewrite length_drop. pose proof (drop_while_length (fun c => (c =? 32) || (c =? 9)) text).
  destruct text as [|c text]; [done|]. simpl in *. lia.
Qed.

(** More fuel than characters changes nothing. *)
Lemma abc_loop_fuel f1 : forall f2 text s, (length text <= f1)%nat -> (length text <= f2)%nat -> abc_loop f1 text s = abc_loop f2 text s.
Proof.
  induction f1 as [|f1 IH]; intros [|f2] [|c text] s H1 H2; simpl in H1, H2; try (done || lia).
  cbn [abc_loop]. destruct (abc_read_line (c :: text) ABC_MAX_STR) as [line rest] eqn:E.
  pose proof (read_line_shorter (c :: text) ABC_MAX_STR ltac:(done)) as Hs. rewrite E in Hs. simpl in Hs.
  destruct (abc_line s line) as [s'|]; [|done]. cbn [mbind option_bind]. apply IH; lia.
Qed.

(** ** The parser stays inside its arrays *)

Definition str_ok (l : list Z) : Prop := (length l < ABC_MAX_STR)%nat /\ Forall (fun c => c <> 0) l.

Definition entry_ok (e : abc_entry_t) : Prop :=
  str_ok (ae_id e) /\ str_ok (ae_label e) /\ str_ok (ae_kernel e) /\ str_ok (ae_initrd e) /\ str_ok (ae_cmdline e) /\ str_ok (ae_uki e).

Record config_ok (c : abc_config_t) : Prop := {
  co_timeout : 0 <= ac_timeout c < 2 ^ 31;
  co_default : str_ok (ac_default_id c);
  co_title : str_ok (ac_menu_title c);
  co_count : (length (ac_entries c) <= 8)%nat;
  co_entries : Forall entry_ok (ac_entries c);
}.

Lemma cut0_ok l : Forall (fun c => c <> 0) (cut0 l).
Proof. induction l as [|c l IH]; simpl; [constructor|]. destruct (Z.eqb_spec c 0); constructor; done. Qed.

Lemma cut0_id l : Forall (fun c => c <> 0) l -> cut0 l = l.
Proof. induction 1 as [|c l Hc Hl IH]; simpl; [done|]. destruct (Z.eqb_spec c 0); [done|]. by rewrite IH. Qed.

Lemma str_cpy_ok v : str_ok (str_cpy v ABC_MAX_STR).
Proof. unfold str_cpy. split; [rewrite length_take; unfold ABC_MAX_STR; lia|]. apply Forall_take, cut0_ok. Qed.

(** Tests of known keys are computed. *)
Ltac known_keys :=
  repeat match goal with |- context [is_key (c_str ?a) ?b] => let r := eval vm_compute in (is_key (c_str a) b) in change (is_key (c_str a) b) with r end.

Lemma is_key_eq key s : is_key key s = true -> key = c_str s.
Proof. apply bool_decide_eq_true_1. Qed.

Lemma if_key_ok key s f e : (forall e, entry_ok e -> entry_ok (f e)) -> entry_ok e -> entry_ok (if_key key s f e).
Proof. unfold if_key. destruct (is_key key s); auto. Qed.

Lemma set_entry_key_ok e key val : entry_ok e -> entry_ok (set_entry_key e key val).
Proof.
  intros He. unfold set_entry_key. pose proof (str_cpy_ok val) as Hv.
  repeat (apply if_key_ok; [intros e' (? & ? & ? & ? & ? & ?); by split_and!|]). exact He.
Qed.

Lemma set_menu_key_ok c key val : config_ok c -> config_ok (set_menu_key c key val).
Proof.
  intros []. unfold set_menu_key. pose proof (str_cpy_ok val). destruct (is_key key "title"), (is_key key "default"); by split.
Qed.

Lemma timeout_loop_range val : forall t t', 0 <= t < 2 ^ 31 -> timeout_loop val t = Some t' -> 0 <= t' < 2 ^ 31.
Proof.
  induction val as [|c val IH]; intros t t' Ht E; cbn [timeout_loop] in E; [by injection E as <-|].
  destruct (is_digit c) eqn:Ed; [|by eapply IH]. destruct (Z.leb_spec (2 ^ 31) (t * 10 + (c - 48))); [done|]. eapply IH; [|exact E]. unfold is_digit in Ed. lia.
Qed.

(** The number of digits of a text, which no part of it exceeds. *)
Fixpoint ndig (l : list Z) : nat := match l with [] => 0 | c :: l' => (if is_digit c then 1 else 0) + ndig l' end.

Lemma ndig_app l l' : ndig (l ++ l') = (ndig l + ndig l')%nat.
Proof. induction l as [|c l IH]; simpl; [done|]. rewrite IH. lia. Qed.

Lemma ndig_take n l : (ndig (take n l) <= ndig l)%nat.
Proof. rewrite <- (take_drop n l) at 2. rewrite ndig_app. lia. Qed.

Lemma ndig_drop n l : (ndig (drop n l) <= ndig l)%nat.
Proof. rewrite <- (take_drop n l) at 2. rewrite ndig_app. lia. Qed.

Lemma ndig_rev l : ndig (rev l) = ndig l.
Proof. induction l as [|c l IH]; simpl; [done|]. rewrite ndig_app, IH. simpl. lia. Qed.

Lemma ndig_drop_while p l : (ndig (drop_while p l) <= ndig l)%nat.
Proof. induction l as [|c l IH]; simpl; [done|]. destruct (p c); simpl; lia. Qed.

Lemma ndig_cut0 l : (ndig (cut0 l) <= ndig l)%nat.
Proof. induction l as [|c l IH]; simpl; [done|]. destruct (c =? 0); simpl; lia. Qed.

Lemma ndig_trim l : (ndig (trim_end l) <= ndig l)%nat.
Proof. unfold trim_end. rewrite ndig_rev, <- (ndig_rev l). apply ndig_drop_while. Qed.

Lemma ndig_line text max : (ndig (abc_read_line text max).1 <= ndig text)%nat /\ (ndig (abc_read_line text max).2 <= ndig text)%nat.
Proof.
  unfold abc_read_line. cbn [fst snd]. set (t := drop_while _ text). pose proof (ndig_drop_while (fun c => (c =? 32) || (c =? 9)) text : (ndig t <= _)%nat).
  split; (etransitivity; [|eassumption]); [|apply ndig_drop]. etransitivity; [apply ndig_take|]. etransitivity; [apply ndig_trim|]. apply ndig_take.
Qed.

Lemma ndig_split line max key val : abc_split_kv line max = Some (key, val) -> (ndig val <= ndig line)%nat.
Proof.
  unfold abc_split_kv. intros E. apply bind_Some in E as (eq & _ & E). destruct (_ || _); [done|]. injection E as _ <-.
  set (v := drop_while is_space (drop (S eq) (cut0 line))). assert (ndig v <= ndig line)%nat as Hv.
  { etransitivity; [apply ndig_drop_while|]. etransitivity; [apply ndig_drop|]. apply ndig_cut0. }
  etransitivity; [apply ndig_take|]. destruct (_ && _ && _); [|done]. etransitivity; [apply ndig_take|]. etransitivity; [apply (ndig_drop 1)|done].
Qed.

(** Fewer than ten digits do not overflow. *)
Lemma timeout_loop_total val : forall t, 0 <= t -> (t + 1) * 10 ^ Z.of_nat (ndig val) <= 2 ^ 31 -> is_Some (timeout_loop val t).
Proof.
  induction val as [|c val IH]; intros t Ht Hb; cbn [timeout_loop]; [eauto|]. cbn [ndig] in Hb.
  destruct (is_digit c) eqn:Ed; [|apply IH; done]. rewrite Nat2Z.inj_succ, Z.pow_succ_r in Hb by lia.
  assert (1 <= 10 ^ Z.of_nat (ndig val)) by (apply (Z.pow_le_mono_r 10 0); lia).
  unfold is_digit in Ed. destruct (Z.leb_spec (2 ^ 31) (t * 10 + (c - 48))); [nia|]. apply IH; [lia|nia].
Qed.

Lemma abc_line_total s line : (ndig line < 10)%nat -> is_Some (abc_line s line).
Proof.
  intros Hd. unfold abc_line. destruct (_ || _); [eauto|]. destruct (is_key (cut0 line) "end"); [eauto|]. destruct (is_key (cut0 line) "menu"); [eauto|].
  destruct (is_key (cut0 line) "entry"); [eauto|]. destruct (abc_split_kv (cut0 line) ABC_MAX_STR) as [[key val]|] eqn:E; [|eauto].
  destruct (negb _ && negb _); [|destruct (ab_in_menu s); eauto]. destruct (is_key key "timeout"); [|eauto].
  apply ndig_split in E. pose proof (ndig_cut0 line). pose proof (ndig_cut0 val). destruct (timeout_loop_total (cut0 val) 0) as [t ->]; [lia| |cbn [mbind option_bind]; eauto].
  rewrite Z.mul_1_l. etransitivity; [apply (Z.pow_le_mono_r 10 _ 9); lia|]. lia.
Qed.

Lemma abc_loop_total fuel : forall text s, (length text <= fuel)%nat -> (ndig text < 10)%nat -> is_Some (abc_loop fuel text s).
Proof.
  induction fuel as [|fuel IH]; intros [|c text] s Hf Hd; simpl in Hf; try (simpl; eauto; lia); try lia.
  rewrite abc_loop_S by done. pose proof (read_line_shorter (c :: text) ABC_MAX_STR ltac:(done)) as Hs. destruct (ndig_line (c :: text) ABC_MAX_STR) as [H1 H2].
  destruct (abc_read_line (c :: text) ABC_MAX_STR) as [line rest]. cbn [fst snd] in *. destruct (abc_line_total s line) as [s' ->]; [lia|]. cbn [mbind option_bind].
  simpl in Hs. apply IH; lia.
Qed.

Definition abc_ok (s : abc_st) : Prop := config_ok (ab_cfg s) /\ entry_ok (ab_cur s).

Lemma empty_entry_ok : entry_ok empty_entry.
Proof. assert (str_ok []) by (split; [unfold ABC_MAX_STR; simpl; lia|constructor]). by split_and!. Qed.

Lemma abc_line_ok s line s' : abc_ok s -> abc_line s line = Some s' -> abc_ok s'.
Proof.
  intros [Hc He] E. unfold abc_line in E. destruct (_ || _); [by injection E as <-|].
  destruct (is_key (cut0 line) "end").
  { injection E as <-. destruct (ab_in_entry s); [|by split]. split; [|apply empty_entry_ok]. destruct Hc. simpl.
    destruct (Z.ltb_spec (Z.of_nat (length (ac_entries (ab_cfg s)))) ABC_MAX_ENTRIES) as [Hlt|]; split; simpl; try done.
    - rewrite length_app. simpl. unfold ABC_MAX_ENTRIES in Hlt. lia.
    - apply Forall_app. split; [done|by apply Forall_singleton]. }
  destruct (is_key (cut0 line) "menu"); [by injection E as <-|]. destruct (is_key (cut0 line) "entry"); [by injection E as <-|].
  destruct (abc_split_kv (cut0 line) ABC_MAX_STR) as [[key val]|]; [|by injection E as <-].
  destruct (negb _ && negb _).
  - destruct (is_key key "timeout"); [|by injection E as <-]. apply bind_Some in E as (t & Et & E). injection E as <-.
    split; [|done]. destruct Hc. split; simpl; try done. eapply timeout_loop_range; [|exact Et]. lia.
  - destruct (ab_in_menu s); injection E as <-; split; simpl; try done; [by apply set_menu_key_ok|by apply set_entry_key_ok].
Qed.

Lemma abc_loop_ok fuel : forall text s s', abc_ok s -> abc_loop fuel text s = Some s' -> abc_ok s'.
Proof.
  induction fuel as [|fuel IH]; intros [|c text] s s' Hs E; try (by injection E as <-); try done.
  rewrite abc_loop_S in E by done. destruct (abc_read_line _ _) as [line rest]. apply bind_Some in E as (s1 & E1 & E). eapply IH; [|exact E]. by eapply abc_line_ok.
Qed.


Lemma abc_start_ok : abc_ok (mk_abc (mk_config 3 [] (c_str "ASD Boot") []) false false empty_entry).
Proof.
  split; [|apply empty_entry_ok]. split; simpl; try (constructor || lia); unfold ABC_MAX_STR; simpl; try lia; [constructor|]. repeat (constructor; [done|]). constructor.
Qed.

(** The parser of the boot configuration returns on every text of fewer than ten digits (more can make a timeout exceed
    an [int]), and what it returns fits its arrays: at most eight entries, whose strings
    all have room for their terminator, and a timeout that is not negative. *)
Theorem abc_parse_ok text :
  (forall c, abc_parse text = Some c -> config_ok c) /\ ((ndig text < 10)%nat -> is_Some (abc_parse text)).
Proof.
  unfold abc_parse. split.
  - intros c E. apply bind_Some in E as (s & E & E'). injection E' as <-. by apply (abc_loop_ok _ _ _ _ abc_start_ok E).
  - intros Hd. destruct (abc_loop_total (length text) text (mk_abc (mk_config 3 [] (c_str "ASD Boot") []) false false empty_entry) ltac:(done) Hd) as [s ->].
    cbn [mbind option_bind]. eauto.
Qed.

Lemma abc_parse_ok_witness : is_Some (abc_parse (c_str "timeout=5")).
Proof. apply (proj2 (abc_parse_ok (c_str "timeout=5"))). apply Nat.leb_le. reflexivity. Defined.

(** ** Writing a configuration *)

(** The decimal digits of a number below [10 ^ n]. *)
Fixpoint dec_text (n : nat) (t : Z) : list Z := match n with O => [] | S n' => dec_text n' (t / 10) ++ [48 + t mod 10] end.

Definition kv (key : string) (v : list Z) : list Z := c_str key ++ 61 :: v.

Definition print_lines (ls : list (list Z)) : list Z := concat (map (fun l => l ++ [10]) ls).

Definition entry_lines (e : abc_entry_t) : list (list Z) :=
  [c_str "entry"; kv "id" (ae_id e); kv "label" (ae_label e); kv "kernel" (ae_kernel e); kv "initrd" (ae_initrd e); kv "cmdline" (ae_cmdline e)] ++
  (if ae_is_uki e then [kv "uki" (ae_uki e)] else []) ++ [c_str "end"].

Definition config_lines (c : abc_config_t) : list (list Z) :=
  [kv "timeout" (dec_text 10 (ac_timeout c)); c_str "menu"; kv "title" (ac_menu_title c); kv "default" (ac_default_id c); c_str "end"] ++ concat (map entry_lines (ac_entries c)).

Definition print_config (c : abc_config_t) : list Z := print_lines (config_lines c).

(** A value that can be written in a line: short enough, of one line, without white space at its ends and without a leading quote. *)
Record value_ok (v : list Z) : Prop := {
  vo_length : (length v <= 247)%nat;
  vo_chars : Forall (fun c => c <> 0 /\ c <> 10) v;
  vo_tight : tight v;
  vo_quote : head v <> Some 34;
}.

Definition printable (e : abc_entry_t) : Prop :=
  value_ok (ae_id e) /\ value_ok (ae_label e) /\ value_ok (ae_kernel e) /\ value_ok (ae_initrd e) /\ value_ok (ae_cmdline e) /\ value_ok (ae_uki e) /\
  (ae_is_uki e = false -> ae_uki e = []).

Definition all_keys : list string := ["timeout"; "title"; "default"; "id"; "label"; "kernel"; "initrd"; "cmdline"; "uki"]%string.

Definition key_char (c : Z) : bool := (97 <=? c) && (c <=? 122).

Lemma key_chars k : k ∈ all_keys -> Forall (fun c => key_char c = true) (c_str k) /\ (0 < length (c_str k) <= 7)%nat.
Proof.
  intros Hk. assert (forallb (fun k => forallb key_char (c_str k) && (0 <? length (c_str k))%nat && (length (c_str k) <=? 7)%nat) all_keys = true) as H by (vm_compute; reflexivity).
  rewrite forallb_forall in H. specialize (H k ltac:(by apply list_elem_of_In)). rewrite !andb_true_iff, forallb_forall in H. destruct H as [[H1 H2] H3].
  split; [|apply Nat.ltb_lt in H2; apply Nat.leb_le in H3; lia]. apply Forall_forall. intros c Hc. by apply H1, list_elem_of_In.
Qed.

Lemma find_eq key (v : list Z) : Forall (fun c => key_char c = true) key -> find_idx (fun c => c =? 61) (key ++ 61 :: v) = Some (length key).
Proof. induction 1 as [|c l Hc Hl IH]; simpl; [done|]. unfold key_char in Hc. destruct (Z.eqb_spec c 61); [lia|]. by rewrite IH. Qed.

Lemma key_tight key : Forall (fun c => key_char c = true) key -> forall c, last key = Some c -> is_space c = false.
Proof.
  intros H c Hc. rewrite last_lookup in Hc. apply (proj1 (Forall_lookup _ _) H) in Hc. unfold key_char in Hc. unfold is_space. lia.
Qed.

Lemma kv_nonzero k v : k ∈ all_keys -> value_ok v -> Forall (fun c => c <> 0 /\ c <> 10) (kv k v).
Proof.
  intros Hk Hv. apply Forall_app. split; [|constructor; [lia|apply Hv]]. eapply Forall_impl; [apply key_chars, Hk|]. intros c Hc. unfold key_char in Hc. simpl in Hc. lia.
Qed.

Lemma split_kv_ok k v : k ∈ all_keys -> value_ok v -> abc_split_kv (kv k v) ABC_MAX_STR = Some (c_str k, v).
Proof.
  intros Hk Hv. destruct (key_chars k Hk) as [Hc Hl]. unfold abc_split_kv.
  rewrite cut0_id by (eapply Forall_impl; [by apply kv_nonzero|tauto]). unfold kv. rewrite find_eq by done. cbn [mbind option_bind].
  rewrite take_app_le, (take_ge (c_str k)), trim_end_id by (done || by apply key_tight).
  destruct (Nat.eqb_spec (length (c_str k)) 0); [lia|]. destruct (Nat.leb_spec ABC_MAX_STR (length (c_str k))); [unfold ABC_MAX_STR in *; lia|]. cbn [orb].
  rewrite drop_app_ge by lia. replace (S (length (c_str k)) - length (c_str k))%nat with 1%nat by lia. cbn [drop]. rewrite drop_0.
  rewrite drop_while_id by (destruct v as [|c v]; [done|]; by apply (proj1 (vo_tight _ Hv))).
  rewrite (bool_decide_eq_false_2 (head v = Some 34)) by apply Hv. rewrite andb_false_r. cbn [andb].
  rewrite take_ge by (pose proof (vo_length _ Hv); unfold ABC_MAX_STR; lia). done.
Qed.

(** A line [key=value] is not one of the lines without a value, and goes to the keys. *)
Lemma abc_line_kv s k v : k ∈ all_keys -> value_ok v ->
  abc_line s (kv k v) =
  (if negb (ab_in_menu s) && negb (ab_in_entry s) then
     if is_key (c_str k) "timeout" then
       t ← timeout_loop v 0; Some (mk_abc (mk_config t (ac_default_id (ab_cfg s)) (ac_menu_title (ab_cfg s)) (ac_entries (ab_cfg s))) (ab_in_menu s) (ab_in_entry s) (ab_cur s))
     else Some s
   else if ab_in_menu s then Some (mk_abc (set_menu_key (ab_cfg s) (c_str k) v) (ab_in_menu s) (ab_in_entry s) (ab_cur s))
   else Some (mk_abc (ab_cfg s) (ab_in_menu s) (ab_in_entry s) (set_entry_key (ab_cur s) (c_str k) v))).
Proof.
  intros Hk Hv. destruct (key_chars k Hk) as [Hc Hl]. unfold abc_line.
  assert (forall t, 61 ∉ c_str t -> is_key (kv k v) t = false) as Hne.
  { intros t Ht. apply bool_decide_eq_false_2. intros E. apply Ht. rewrite <- E. apply elem_of_app. right. by left. }
  rewrite cut0_id by (eapply Forall_impl; [by apply kv_nonzero|tauto]).
  rewrite (bool_decide_eq_false_2 (kv k v = [])) by (unfold kv; by destruct (c_str k)).
  rewrite bool_decide_eq_false_2; [cbn [orb]|].
  2: { unfold kv. destruct (c_str k) as [|c l]; simpl in *; [lia|]. apply Forall_cons in Hc as [Hc _]. unfold key_char in Hc. intros [=]. lia. }
  rewrite !Hne by (rewrite <- elem_of_list_In || (vm_compute; intros H; repeat (apply elem_of_cons in H as [?|H]; [done|]); by apply elem_of_nil in H)).
  rewrite split_kv_ok by done. by rewrite (cut0_id v) by (eapply Forall_impl; [apply Hv|tauto]).
Qed.

Fixpoint fold_lines (ls : list (list Z)) (s : abc_st) : option abc_st :=
  match ls with [] => Some s | l :: ls' => s ← abc_line s l; fold_lines ls' s end.

Lemma fold_lines_app ls ls' s : fold_lines (ls ++ ls') s = (s ← fold_lines ls s; fold_lines ls' s).
Proof. revert s. induction ls as [|l ls IH]; intros s; simpl; [done|]. destruct (abc_line s l) as [s'|]; simpl; [apply IH|done]. Qed.

Definition line_ok (l : list Z) : Prop := Forall (fun c => c <> 10) l /\ tight l /\ (length l < ABC_MAX_STR)%nat.

(** Printed lines are read one by one. *)
Lemma abc_loop_lines ls : forall s, Forall line_ok ls -> abc_loop (length (print_lines ls)) (print_lines ls) s = fold_lines ls s.
Proof.
  induction ls as [|l ls IH]; intros s Hls; [done|]. apply Forall_cons in Hls as [(Hn & Ht & Hl) Hls]. unfold print_lines in *. cbn [map concat fold_lines].
  rewrite <- app_assoc. cbn [app]. rewrite (abc_loop_fuel _ (S (length (l ++ 10 :: concat (map (fun l => l ++ [10]) ls))))) by lia.
  rewrite abc_loop_S by (by destruct l). rewrite read_line_ok by done. destruct (abc_line s l) as [s'|]; [|done]. cbn [mbind option_bind].
  rewrite <- IH by done. apply abc_loop_fuel; [rewrite length_app; simpl; lia|done].
Qed.

Lemma kv_line_ok k v : k ∈ all_keys -> value_ok v -> line_ok (kv k v).
Proof.
  intros Hk Hv. destruct (key_chars k Hk) as [Hc Hl]. split_and!.
  - eapply Forall_impl; [by apply kv_nonzero|]. tauto.
  - split; intros c E; unfold kv in E.
    + destruct (c_str k) as [|c' l]; simpl in *; [lia|]. injection E as ->. apply Forall_cons in Hc as [Hc _]. unfold key_char in Hc. unfold is_space. lia.
    + rewrite last_app in E. destruct (last (61 :: v)) as [c'|] eqn:El; [|apply last_None in El; done]. injection E as ->.
      destruct v as [|c1 v]; [by injection El as <-|]. by apply (proj2 (vo_tight _ Hv)).
  - unfold kv. rewrite length_app. simpl. pose proof (vo_length _ Hv). unfold ABC_MAX_STR. lia.
Qed.

Lemma word_line_ok w : w ∈ ["menu"; "entry"; "end"]%string -> line_ok (c_str w).
Proof.
  rewrite !elem_of_cons, elem_of_nil. intros [->|[->|[->|[]]]]; (split_and!; [repeat (constructor; [done|]); constructor| |apply Nat.ltb_lt; reflexivity]); by split; intros c [= <-].
Qed.

Lemma str_cpy_id v : value_ok v -> str_cpy v ABC_MAX_STR = v.
Proof.
  intros Hv. unfold str_cpy. rewrite cut0_id by (eapply Forall_impl; [apply (vo_chars _ Hv)|by intros ? []]). apply take_ge. pose proof (vo_length _ Hv). unfold ABC_MAX_STR. lia.
Qed.

(** What each key of an entry sets. *)
Ltac one_key :=
  intros Hv; unfold set_entry_key; cbv zeta; rewrite str_cpy_id by exact Hv;
  repeat match goal with |- context [if_key (c_str ?a) ?b ?f ?x] =>
    let r := eval vm_compute in (is_key (c_str a) b) in
    lazymatch r with true => change (if_key (c_str a) b f x) with (f x) | false => change (if_key (c_str a) b f x) with x end end;
  reflexivity.

Lemma key_id e v : value_ok v -> set_entry_key e (c_str "id") v = mk_entry v (ae_label e) (ae_kernel e) (ae_initrd e) (ae_cmdline e) (ae_uki e) (ae_is_uki e).
Proof. one_key. Qed.

Lemma key_label e v : value_ok v -> set_entry_key e (c_str "label") v = mk_entry (ae_id e) v (ae_kernel e) (ae_initrd e) (ae_cmdline e) (ae_uki e) (ae_is_uki e).
Proof. one_key. Qed.

Lemma key_kernel e v : value_ok v -> set_entry_key e (c_str "kernel") v = mk_entry (ae_id e) (ae_label e) v (ae_initrd e) (ae_cmdline e) (ae_uki e) (ae_is_uki e).
Proof. one_key. Qed.

Lemma key_initrd e v : value_ok v -> set_entry_key e (c_str "initrd") v = mk_entry (ae_id e) (ae_label e) (ae_kernel e) v (ae_cmdline e) (ae_uki e) (ae_is_uki e).
Proof. one_key. Qed.

Lemma key_cmdline e v : value_ok v -> set_entry_key e (c_str "cmdline") v = mk_entry (ae_id e) (ae_label e) (ae_kernel e) (ae_initrd e) v (ae_uki e) (ae_is_uki e).
Proof. one_key. Qed.

Lemma key_uki e v : value_ok v -> set_entry_key e (c_str "uki") v = mk_entry (ae_id e) (ae_label e) (ae_kernel e) (ae_initrd e) (ae_cmdline e) v true.
Proof. one_key. Qed.

(** The lines of an entry add it. *)
Lemma entry_fold c e : printable e -> (length (ac_entries c) < 8)%nat ->
  fold_lines (entry_lines e) (mk_abc c false false empty_entry) =
  Some (mk_abc (mk_config (ac_timeout c) (ac_default_id c) (ac_menu_title c) (ac_entries c ++ [e])) false false empty_entry).
Proof.
  intros (H1 & H2 & H3 & H4 & H5 & H6 & Hu) Hl. unfold entry_lines. cbn [app fold_lines].
  change (abc_line (mk_abc c false false empty_entry) (c_str "entry")) with (Some (mk_abc c false true empty_entry)). cbn [mbind option_bind].
  assert (forall k, bool_decide (k ∈ all_keys) = true -> k ∈ all_keys) as Hk by (intros k; apply bool_decide_eq_true_1).
  rewrite abc_line_kv by (done || by apply Hk). cbn [ab_in_menu ab_in_entry ab_cfg ab_cur negb andb mbind option_bind].
  rewrite abc_line_kv by (done || by apply Hk). cbn [ab_in_menu ab_in_entry ab_cfg ab_cur negb andb mbind option_bind].
  rewrite abc_line_kv by (done || by apply Hk). cbn [ab_in_menu ab_in_entry ab_cfg ab_cur negb andb mbind option_bind].
  rewrite abc_line_kv by (done || by apply Hk). cbn [ab_in_menu ab_in_entry ab_cfg ab_cur negb andb mbind option_bind].
  rewrite abc_line_kv by (done || by apply Hk). cbn [ab_in_menu ab_in_entry ab_cfg ab_cur negb andb mbind option_bind].
  rewrite key_id, key_label, key_kernel, key_initrd, key_cmdline by done. cbn [ae_id ae_label ae_kernel ae_initrd ae_cmdline ae_uki ae_is_uki empty_entry].
  assert (forall e', abc_line (mk_abc c false true e') (c_str "end") = Some (mk_abc (mk_config (ac_timeout c) (ac_default_id c) (ac_menu_title c) (ac_entries c ++ [e'])) false false empty_entry)) as Hend.
  { intros e'. change (abc_line (mk_abc c false true e') (c_str "end")) with
      (Some (mk_abc (mk_config (ac_timeout c) (ac_default_id c) (ac_menu_title c) (if Z.of_nat (length (ac_entries c)) <? ABC_MAX_ENTRIES then ac_entries c ++ [e'] else ac_entries c)) false false empty_entry)).
    destruct (Z.ltb_spec (Z.of_nat (length (ac_entries c))) ABC_MAX_ENTRIES); [done|unfold ABC_MAX_ENTRIES in *; lia]. }
  destruct e as [i lb k r cl u []]; cbn [ae_id ae_label ae_kernel ae_initrd ae_cmdline ae_uki ae_is_uki app fold_lines] in *.
  - rewrite abc_line_kv by (done || by apply Hk). cbn [ab_in_menu ab_in_entry ab_cfg ab_cur negb andb mbind option_bind].
    rewrite key_uki by done. cbn [ae_id ae_label ae_kernel ae_initrd ae_cmdline ae_uki ae_is_uki]. by rewrite Hend.
  - rewrite Hu by done. by rewrite Hend.
Qed.

Lemma entries_fold es : forall c, Forall printable es -> (length (ac_entries c) + length es <= 8)%nat ->
  fold_lines (concat (map entry_lines es)) (mk_abc c false false empty_entry) =
  Some (mk_abc (mk_config (ac_timeout c) (ac_default_id c) (ac_menu_title c) (ac_entries c ++ es)) false false empty_entry).
Proof.
  induction es as [|e es IH]; intros c He Hl; cbn [map concat].
  { destruct c as [t d m l]. simpl. by rewrite app_nil_r. }
  apply Forall_cons in He as [He Hes]. simpl in Hl. rewrite fold_lines_app, entry_fold by (done || lia). cbn [mbind option_bind].
  rewrite IH; [|done|cbn [ac_entries]; rewrite length_app; simpl; lia]. cbn [ac_timeout ac_default_id ac_menu_title ac_entries]. by rewrite <- app_assoc.
Qed.

Lemma timeout_loop_app l l' a : timeout_loop (l ++ l') a = (t ← timeout_loop l a; timeout_loop l' t).
Proof.
  revert a. induction l as [|c l IH]; intros a; [done|]. cbn [app timeout_loop]. destruct (is_digit c); [|apply IH]. destruct (_ <=? _); [done|apply IH].
Qed.

Lemma timeout_loop_dec n : forall t, 0 <= t < 10 ^ Z.of_nat n -> t < 2 ^ 31 -> timeout_loop (dec_text n t) 0 = Some t.
Proof.
  induction n as [|n IH]; intros t Ht Hb; [simpl in *; f_equal; lia|]. rewrite Nat2Z.inj_succ, Z.pow_succ_r in Ht by lia.
  cbn [dec_text]. rewrite timeout_loop_app, IH by (Z.div_mod_to_equations; lia). cbn [mbind option_bind timeout_loop].
  assert (0 <= t mod 10 < 10) by (Z.div_mod_to_equations; lia). replace (is_digit (48 + t mod 10)) with true by (unfold is_digit; lia).
  replace (t / 10 * 10 + (48 + t mod 10 - 48)) with t by (Z.div_mod_to_equations; lia). destruct (Z.leb_spec (2 ^ 31) t); [lia|done].
Qed.

Lemma dec_text_digits n t : Forall (fun c => is_digit c = true) (dec_text n t) /\ length (dec_text n t) = n.
Proof.
  revert t. induction n as [|n IH]; intros t; cbn [dec_text]; [by split|]. destruct (IH (t / 10)) as [H L]. split; [|rewrite length_app, L; simpl; lia].
  apply Forall_app. split; [done|]. apply Forall_singleton. unfold is_digit. Z.div_mod_to_equations. lia.
Qed.

Lemma dec_value_ok t : value_ok (dec_text 10 t).
Proof.
  destruct (dec_text_digits 10 t) as [H L]. assert (forall c, c ∈ dec_text 10 t -> 48 <= c <= 57) as Hd.
  { intros c Hc. rewrite Forall_forall in H. specialize (H c Hc). unfold is_digit in H. lia. }
  split; [lia|apply Forall_forall; intros c Hc%Hd; lia| |].
  - split; intros c Hc; [apply head_Some_elem_of in Hc|apply last_Some_elem_of in Hc]; apply Hd in Hc; unfold is_space; lia.
  - intros Hc%head_Some_elem_of%Hd. lia.
Qed.

Definition config_printable (c : abc_config_t) : Prop :=
  0 <= ac_timeout c < 2 ^ 31 /\ value_ok (ac_menu_title c) /\ value_ok (ac_default_id c) /\ Forall printable (ac_entries c) /\ (length (ac_entries c) <= 8)%nat.

Lemma all_keys_in k : bool_decide (k ∈ all_keys) = true -> k ∈ all_keys.
Proof. apply bool_decide_eq_true_1. Qed.

Lemma config_lines_ok c : config_printable c -> Forall line_ok (config_lines c).
Proof.
  intros (Ht & H1 & H2 & He & _). unfold config_lines. apply Forall_app. split.
  - pose proof (dec_value_ok (ac_timeout c)). repeat apply Forall_cons_2; try (apply kv_line_ok; [by apply all_keys_in|done]); try (apply word_line_ok; by apply (bool_decide_eq_true_1 (_ ∈ _))). constructor.
  - apply Forall_concat, Forall_map. eapply Forall_impl; [exact He|]. intros e (? & ? & ? & ? & ? & ? & _). unfold entry_lines. apply Forall_app. split.
    + repeat apply Forall_cons_2; try (apply kv_line_ok; [by apply all_keys_in|done]); try (apply word_line_ok; by apply (bool_decide_eq_true_1 (_ ∈ _))). constructor.
    + apply Forall_app. split; [|apply Forall_singleton, word_line_ok; by apply (bool_decide_eq_true_1 (_ ∈ _))].
      destruct (ae_is_uki e); [|constructor]. apply Forall_singleton, kv_line_ok; [by apply all_keys_in|done].
Qed.

(** C39: Every configuration that can be written as text is read back: the parser returns exactly the timeout, the title, the
    default and the entries of which the text was made. *)
Theorem abc_roundtrip c : config_printable c -> abc_parse (print_config c) = Some c.
Proof.
  intros Hc. pose proof Hc as (Ht & H1 & H2 & He & Hn). unfold abc_parse, print_config. rewrite abc_loop_lines by (by apply config_lines_ok).
  unfold config_lines. cbn [app fold_lines]. pose proof (dec_value_ok (ac_timeout c)) as Hd.
  rewrite abc_line_kv by (done || by apply all_keys_in). cbn [ab_in_menu ab_in_entry ab_cfg ab_cur negb andb].
  change (is_key (c_str "timeout") "timeout") with true. cbv iota. rewrite timeout_loop_dec by (simpl; lia).
  cbn [mbind option_bind ac_default_id ac_menu_title ac_entries].
  change (abc_line (mk_abc ?c false false ?e) (c_str "menu")) with (Some (mk_abc c true false e)). cbn [mbind option_bind].
  rewrite abc_line_kv by (done || by apply all_keys_in). cbn [ab_in_menu ab_in_entry ab_cfg ab_cur negb andb mbind option_bind].
  rewrite abc_line_kv by (done || by apply all_keys_in). cbn [ab_in_menu ab_in_entry ab_cfg ab_cur negb andb mbind option_bind].
  unfold set_menu_key. rewrite !str_cpy_id by done. known_keys. cbn [ac_timeout ac_default_id ac_menu_title ac_entries].
  change (abc_line (mk_abc ?c true false ?e) (c_str "end")) with (Some (mk_abc c false false e)). cbn [mbind option_bind].
  rewrite entries_fold by (done || (cbn [ac_entries]; simpl; lia)). cbn [mbind option_bind ab_cfg ac_timeout ac_default_id ac_menu_title ac_entries app]. by destruct c.
Qed.

Definition sample_entry (id : string) : abc_entry_t := mk_entry (c_str id) (c_str "OpenASD") (c_str "/boot/asdkernel.bin") [] (c_str "console=ttyS0 root=/dev/vd0") [] false.

Lemma value_ok_compute v : (length v <=? 247)%nat && forallb (fun c => negb (c =? 0) && negb (c =? 10)) v && negb (is_space (default 1 (head v))) && negb (is_space (default 1 (last v))) && negb (default 1 (head v) =? 34) = true -> value_ok v.
Proof.
  rewrite !andb_true_iff, !negb_true_iff, forallb_forall. intros ((((H1%Nat.leb_le & H2) & H3) & H4) & H5). split; [done| | |].
  - apply Forall_forall. intros c Hc%list_elem_of_In%H2. lia.
  - split; intros c Hc; rewrite Hc in *; done.
  - intros E. rewrite E in H5. done.
Qed.

Lemma abc_roundtrip_witness : abc_parse (print_config (mk_config 5 (c_str "b") (c_str "ASD Boot") [sample_entry "a"; sample_entry "b"])) =
  Some (mk_config 5 (c_str "b") (c_str "ASD Boot") [sample_entry "a"; sample_entry "b"]).
Proof.
  apply (abc_roundtrip (mk_config 5 (c_str "b") (c_str "ASD Boot") [sample_entry "a"; sample_entry "b"])).
  repeat split; try (apply value_ok_compute; reflexivity); try (simpl; lia).
  repeat (apply Forall_cons_2; [repeat split; try (apply value_ok_compute; reflexivity)|]). constructor.
Defined.

(** ** The menu *)

Lemma find_default_range es id : forall i, 0 <= i -> find_default es id i = 0 \/ i <= find_default es id i < i + Z.of_nat (length es).
Proof.
  induction es as [|e es IH]; intros i Hi; cbn [find_default]; [by left|]. case_bool_decide; [right; simpl; lia|]. destruct (IH (i + 1)) as [?|?]; [lia|by left|right; simpl; lia].
Qed.

Lemma default_index_range c : ac_entries c <> [] -> 0 <= default_index c < Z.of_nat (length (ac_entries c)).
Proof.
  intros Hn. assert (0 < length (ac_entries c))%nat by (destruct (ac_entries c); simpl; [done|lia]). unfold default_index. case_bool_decide; [lia|].
  destruct (find_default_range (ac_entries c) (ac_default_id c) 0); lia.
Qed.

Lemma menu_loop_range keys count : forall selected countdown acted i, 0 <= selected < count -> menu_loop keys count selected countdown acted = Some (BootEntry i) -> 0 <= i < count.
Proof.
  induction keys as [|k keys IH]; intros selected countdown acted i Hs E; [done|]. cbn [menu_loop] in E.
  assert (forall sel act, 0 <= sel < count -> (if negb act then if countdown - 1 <=? 0 then Some (BootEntry sel) else menu_loop keys count sel (countdown - 1) act else menu_loop keys count sel countdown act) = Some (BootEntry i) -> 0 <= i < count) as Hnext.
  { intros sel act Hsel E'. destruct act; cbn [negb] in E'; [by eapply IH|]. destruct (_ <=? _); [by injection E' as <-|by eapply IH]. }
  assert (forall x, 0 <= x -> 0 <= Z.rem x count < count) as Hrem by (intros x Hx; apply Z.rem_bound_pos; lia).
  destruct (read_key k); [apply (Hnext _ true (Hrem (selected - 1 + count) ltac:(lia)) E)|apply (Hnext _ true (Hrem (selected + 1) ltac:(lia)) E)|by injection E as <-|done|by injection E as <-|by apply (Hnext _ acted Hs E)].
Qed.

Lemma menu_loop_unattended n : forall count selected countdown, 
  menu_loop (replicate n None) count selected countdown false = if Z.of_nat n <? Z.max 1 countdown then None else Some (BootEntry selected).
Proof.
  induction n as [|n IH]; intros count selected countdown; cbn [replicate menu_loop read_key negb].
  { by destruct (Z.ltb_spec (Z.of_nat 0) (Z.max 1 countdown)); [|lia]. }
  destruct (Z.leb_spec (countdown - 1) 0).
  - destruct (Z.ltb_spec (Z.of_nat (S n)) (Z.max 1 countdown)); [lia|done].
  - rewrite IH. destruct (Z.ltb_spec (Z.of_nat n) (Z.max 1 (countdown - 1))), (Z.ltb_spec (Z.of_nat (S n)) (Z.max 1 countdown)); lia || done.
Qed.


