(* ===== verification/Boot.v ===== *)
(** * The boot loader: files, kernel image and memory map (src/boot/asdboot.c, lines 81-343 and 708-1041)

    The firmware is a state [F] with the services that the loader calls; what they answer is a
    parameter.  A file buffer is its address together with its bytes, and the memory [ld_mem], in
    bytes, is the one that the loader writes the segments of the kernel to: the firmware
    allocates the buffers elsewhere.  The result is the status that the loader returns, or the
    hand-over to the kernel.  Messages are not modelled. *)

From Stdlib Require Import ZArith Lia.
From stdpp Require Import base strings gmap list.
From S2P Require Import Prelude KString Phys PhysSpec PhysIface VRegion PageTable UserMem Elf BootCfg.

Local Open Scope Z_scope.

Definition EFI_SUCCESS : Z := 0.
Definition EFI_LOAD_ERROR : Z := 0x8000000000000001.
Definition EFI_BUFFER_TOO_SMALL : Z := 0x8000000000000005.
Definition EFI_ALLOCATE_ADDRESS : Z := 2.
Definition EFI_LOADER_DATA : Z := 4.
Definition ASD_MEM_RESERVED : Z := 1.
Definition ASD_MEM_ACPI_REC : Z := 2.
Definition ASD_MEM_ACPI_NVS : Z := 3.
Definition ASD_MEM_LOADER : Z := 4.
Definition ASD_MEM_KERNEL : Z := 5.
Definition ASD_MEM_INITRD : Z := 6.
Definition ASD_MEM_FB : Z := 7.
Definition sizeof_mmap_entry : Z := 24.
Definition sizeof_bib : Z := 96.

(** ** The memory map *)

(** The fields of an [EFI_MEMORY_DESCRIPTOR] that the loader reads. *)
Record efi_desc := mk_desc { ed_type : Z; ed_start : Z; ed_pages : Z }.

Definition efi_mem_type_to_asd (t : Z) : Z :=
  if (t =? 1) || (t =? 2) then ASD_MEM_LOADER
  else if (t =? 3) || (t =? 4) || (t =? 7) then ASD_MEM_FREE
  else if t =? 9 then ASD_MEM_ACPI_REC
  else if t =? 10 then ASD_MEM_ACPI_NVS
  else ASD_MEM_RESERVED.

Definition asd_of_efi (e : efi_desc) : asd_mmap_entry_t := mk_mmap (ed_start e) (ed_pages e) (efi_mem_type_to_asd (ed_type e)).

(** The array is filled from its start; [None] when it is too short for the map. *)
Definition build_asd_mmap (asd_mmap : list asd_mmap_entry_t) (mmap : list efi_desc) : option (list asd_mmap_entry_t) :=
  if decide (length mmap <= length asd_mmap)%nat then Some (list_inserts 0 (asd_of_efi <$> mmap) asd_mmap) else None.

Definition ALIGN_UP (x : Z) : Z := Z.land (u64 (x + 0xFFF)) (u64 (Z.lnot 0xFFF)).
Definition ALIGN_DOWN (x : Z) : Z := Z.land x (u64 (Z.lnot 0xFFF)).

Definition mark_entry (lo hi type : Z) (m : asd_mmap_entry_t) : asd_mmap_entry_t :=
  let rlo := me_base m in
  let rhi := u64 (me_base m + u64 (me_pages m * 4096)) in
  if (hi <=? rlo) || (rhi <=? lo) then m else mk_mmap (me_base m) (me_pages m) type.

(** The first [entry_count] entries of the array. *)
Definition mark_asd_range (asd_mmap : list asd_mmap_entry_t) (entry_count : nat) (base size type : Z) : list asd_mmap_entry_t :=
  if (base =? 0) || (size =? 0) then asd_mmap
  else
    let lo := ALIGN_DOWN base in
    let hi := ALIGN_UP (u64 (base + size)) in
    (mark_entry lo hi type <$> take entry_count asd_mmap) ++ drop entry_count asd_mmap.

(** The boot information block. *)
Record asd_bib_t := mk_bib {
  bb_addr : Z;
  bb_mmap_phys : Z;
  bb_mmap_count : Z;
  bb_fb_phys : Z;
  bb_fb_width : Z;
  bb_fb_height : Z;
  bb_fb_stride : Z;
  bb_fb_format : Z;
  bb_acpi_rsdp : Z;
  bb_cmdline_phys : Z;
  bb_cmdline_len : Z;
  bb_initrd_phys : Z;
  bb_initrd_len : Z;
}.

(** What the loader keeps of the kernel and its files: addresses and sizes. *)
Record boot_files := mk_files {
  bf_kernel_lo : Z; bf_kernel_hi : Z; bf_kernel_buf : Z; bf_kernel_sz : Z; bf_initrd_buf : Z; bf_initrd_sz : Z; bf_cmdline_buf : Z; bf_cmdline_len : Z }.

Definition mark_boot_reserved (asd_mmap : list asd_mmap_entry_t) (entry_count : nat) (bib : asd_bib_t) (f : boot_files) : list asd_mmap_entry_t :=
  let n := entry_count in
  let a := mark_asd_range asd_mmap n (bb_addr bib) sizeof_bib ASD_MEM_LOADER in
  let a := mark_asd_range a n (bb_mmap_phys bib) (u64 (sizeof_mmap_entry * Z.of_nat n)) ASD_MEM_LOADER in
  let a := if negb (bf_cmdline_buf f =? 0) && negb (bf_cmdline_len f =? 0)
           then mark_asd_range a n (bf_cmdline_buf f) (u64 (bf_cmdline_len f + 1)) ASD_MEM_LOADER else a in
  let a := if negb (bf_initrd_buf f =? 0) && negb (bf_initrd_sz f =? 0)
           then mark_asd_range a n (bf_initrd_buf f) (bf_initrd_sz f) ASD_MEM_INITRD else a in
  let a := if negb (bf_kernel_lo f =? 0) && negb (bf_kernel_hi f =? 0) && (bf_kernel_lo f <? bf_kernel_hi f)
           then mark_asd_range a n (bf_kernel_lo f) (bf_kernel_hi f - bf_kernel_lo f) ASD_MEM_KERNEL
           else if negb (bf_kernel_buf f =? 0) && negb (bf_kernel_sz f =? 0)
           then mark_asd_range a n (bf_kernel_buf f) (bf_kernel_sz f) ASD_MEM_KERNEL else a in
  if negb (bb_fb_phys bib =? 0) && negb (bb_fb_stride bib =? 0) && negb (bb_fb_height bib =? 0)
  then mark_asd_range a n (bb_fb_phys bib) (u64 (bb_fb_stride bib * bb_fb_height bib)) ASD_MEM_FB else a.

(** ** The kernel image *)

(** The fields of a program header that the loader reads. *)
Record boot_phdr := mk_bphdr { bp_type : Z; bp_offset : Z; bp_paddr : Z; bp_filesz : Z; bp_memsz : Z }.

Definition boot_phdr_at (img : list Z) (off : nat) : option boot_phdr :=
  type ← rd_le img off 4; offset ← rd_le img (off + 8) 8; paddr ← rd_le img (off + 24) 8; filesz ← rd_le img (off + 32) 8; memsz ← rd_le img (off + 40) 8;
  Some (mk_bphdr type offset paddr filesz memsz).

Definition seg_skipped (p : boot_phdr) : bool := negb (bp_type p =? 1) || (bp_memsz p =? 0) || (bp_paddr p <? 0x1000000).

Definition phdr (img : list Z) (phoff : Z) (i : nat) : option boot_phdr := boot_phdr_at img (Z.to_nat phoff + 56 * i).

(** The first loop: [inl] is the early return, [inr] the range of the segments. *)
Fixpoint seg_range (img : list Z) (phoff : Z) (i n : nat) (low high : Z) : option (Z + Z * Z) :=
  match n with
  | O => Some (inr (low, high))
  | S n' =>
      p ← phdr img phoff i;
      if seg_skipped p then seg_range img phoff (S i) n' low high
      else if Z.of_nat (length img) <? u64 (bp_offset p + bp_filesz p) then Some (inl EFI_LOAD_ERROR)
      else
        let seg_lo := ALIGN_DOWN (bp_paddr p) in
        let seg_hi := ALIGN_UP (u64 (bp_paddr p + bp_memsz p)) in
        seg_range img phoff (S i) n' (if seg_lo <? low then seg_lo else low) (if high <? seg_hi then seg_hi else high)
  end.

Fixpoint mem_fill (mem : gmap Z Z) (a : Z) (n : nat) (c : Z) : gmap Z Z :=
  match n with O => mem | S n' => mem_fill (<[a := c]> mem) (a + 1) n' c end.

Fixpoint mem_write (mem : gmap Z Z) (a : Z) (bs : list Z) : gmap Z Z :=
  match bs with [] => mem | b :: bs' => mem_write (<[a := b]> mem) (a + 1) bs' end.

(** The second loop copies the segments. *)
Fixpoint copy_segs (img : list Z) (phoff : Z) (i n : nat) (mem : gmap Z Z) : option (gmap Z Z) :=
  match n with
  | O => Some mem
  | S n' =>
      p ← phdr img phoff i;
      if seg_skipped p then copy_segs img phoff (S i) n' mem
      else
        let src := slice (Z.to_nat (bp_offset p)) (Z.to_nat (bp_filesz p)) img in
        if decide (length src = Z.to_nat (bp_filesz p)) then copy_segs img phoff (S i) n' (mem_write mem (bp_paddr p) src) else None
  end.

(** The file is an image of the right kind. *)
Definition is_kernel_elf (img : list Z) (eh : elf64_ehdr_t) : bool :=
  bool_decide (take 5 (e_ident eh) = [0x7f; 0x45; 0x4c; 0x46; 2]) && (e_phentsize eh =? 56) &&
  (u64 (e_phoff eh + e_phnum eh * 56) <=? Z.of_nat (length img)).

Section Loader.
Context {F : Type}.

(** The services of the firmware.  A call that delivers an object returns its status and the object. *)
Record efi_services := mk_efi {
  fw_handle_protocol : F -> Z -> list Z -> Z * Z * F;
  fw_device_handle : F -> Z -> Z;
  fw_open_volume : F -> Z -> Z * Z * F;
  fw_open : F -> Z -> list Z -> Z * Z * F;
  fw_get_info : F -> Z -> Z * list Z * F;
  fw_allocate_pool : F -> Z -> Z -> Z * Z * F;
  fw_read : F -> Z -> Z -> Z * list Z * F;
  fw_close : F -> Z -> F;
  fw_free_pool : F -> Z -> F;
  fw_allocate_pages : F -> Z -> Z -> Z -> Z -> Z * F;
  fw_get_memory_map : F -> Z -> Z * Z * list efi_desc * Z * Z * F;
  fw_exit_boot_services : F -> Z -> Z * F;
}.
Context (efi : efi_services) (g_image : Z).

Record ld_st := mk_ld { ld_fw : F; ld_mem : gmap Z Z }.

Definition set_fw (l : ld_st) (f : F) : ld_st := mk_ld f (ld_mem l).

(** ** Files *)

Definition EFI_LOADED_IMAGE_GUID : list Z := [0xA1; 0x31; 0x1B; 0x5B; 0x62; 0x95; 0xD2; 0x11] ++ [0x8E; 0x3F; 0x00; 0xA0; 0xC9; 0x69; 0x72; 0x3B].
Definition EFI_SFS_GUID : list Z := [0x22; 0x5B; 0x4E; 0x96; 0x59; 0x64; 0xD2; 0x11] ++ [0x8E; 0x39; 0x00; 0xA0; 0xC9; 0x69; 0x72; 0x3B].

(** The path without leading slashes, with backslashes, cut to 510 characters. *)
Definition efi_path (path : list Z) : list Z :=
  let s := drop_while (fun c => (c =? 47) || (c =? 92)) (cut0 path) in
  (fun c => if c =? 47 then 92 else c) <$> take 510 s.

(** The address and the bytes of a file, or the status. *)
Definition efi_read_file (f : F) (path : list Z) : option ((Z + Z * list Z) * F) :=
  let '(st, li, f) := fw_handle_protocol efi f g_image EFI_LOADED_IMAGE_GUID in
  if negb (st =? EFI_SUCCESS) || (li =? 0) then Some (inl st, f)
  else
    let '(st, sfs, f) := fw_handle_protocol efi f (fw_device_handle efi f li) EFI_SFS_GUID in
    if negb (st =? EFI_SUCCESS) then Some (inl st, f)
    else
      let '(st, root, f) := fw_open_volume efi f sfs in
      if negb (st =? EFI_SUCCESS) then Some (inl st, f)
      else
        let '(st, fh, f) := fw_open efi f root (efi_path path) in
        if negb (st =? EFI_SUCCESS) then Some (inl st, f)
        else
          let '(st, info, f) := fw_get_info efi f fh in
          if negb (st =? EFI_SUCCESS) then Some (inl st, f)
          else
            file_size ← rd_le info 8 8;
            let '(st, fbuf, f) := fw_allocate_pool efi f 2 (u64 (file_size + 1)) in
            if negb (st =? EFI_SUCCESS) then Some (inl st, f)
            else
              let '(st, bytes, f) := fw_read efi f fh file_size in
              if negb (st =? EFI_SUCCESS) then Some (inl st, fw_free_pool efi f fbuf)
              else Some (inr (fbuf, bytes), fw_close efi (fw_close efi f fh) root).

(** The first of the paths that can be read, or the last status. *)
Fixpoint try_paths (f : F) (paths : list string) (st : Z) : option ((Z + Z * list Z) * F) :=
  match paths with
  | [] => Some (inl st, f)
  | p :: paths' =>
      '(r, f) ← efi_read_file f (c_str p);
      match r with inl st => try_paths f paths' st | inr b => Some (inr b, f) end
  end.

Definition fallbacks : list string := ["/asdkernel.bin"; "/EFI/BOOT/asdkernel.bin"; "boot/asdkernel.bin"; "asdkernel.bin"; "EFI/BOOT/asdkernel.bin"]%string.

(** The segments of the kernel in memory: the entry point and the range, or zeroes when the file is not an image. *)
Definition materialize (l : ld_st) (img : list Z) : option ((Z + Z * Z * Z) * ld_st) :=
  if Z.of_nat (length img) <? 64 then Some (inr (0, 0, 0), l)
  else
    eh ← elf64_ehdr img;
    if negb (is_kernel_elf img eh) then Some (inr (0, 0, 0), l)
    else
      r ← seg_range img (e_phoff eh) 0 (Z.to_nat (e_phnum eh)) (2 ^ 64 - 1) 0;
      match r with
      | inl st => Some (inl st, l)
      | inr (low, high) =>
          if (low =? 2 ^ 64 - 1) || (high <=? low) then Some (inr (0, 0, 0), l)
          else
            let '(st, f) := fw_allocate_pages efi (ld_fw l) EFI_ALLOCATE_ADDRESS EFI_LOADER_DATA (Z.shiftr (high - low) 12) low in
            if negb (st =? EFI_SUCCESS) then Some (inl st, set_fw l f)
            else
              mem ← copy_segs img (e_phoff eh) 0 (Z.to_nat (e_phnum eh)) (mem_fill (ld_mem l) low (Z.to_nat (high - low)) 0);
              Some (inr (e_entry eh, low, high), mk_ld f mem)
      end.

(** Step 1: the kernel and the optional initial ramdisk; the entry point is 0 when the file itself is to be run. *)
Definition load_files (l : ld_st) (e : abc_entry_t) : option ((Z + Z * boot_files) * ld_st) :=
  if ae_is_uki e then
    '(r, f) ← efi_read_file (ld_fw l) (ae_uki e);
    match r with
    | inl st => Some (inl st, set_fw l f)
    | inr (buf, bytes) => Some (inr (0, mk_files 0 0 buf (Z.of_nat (length bytes)) 0 0 0 0), set_fw l f)
    end
  else
    '(r, f) ← efi_read_file (ld_fw l) (ae_kernel e);
    '(r, f) ← (match r with
               | inl st => if bool_decide (ae_kernel e = c_str "/boot/asdkernel.bin") then try_paths f fallbacks st else Some (inl st, f)
               | inr b => Some (inr b, f)
               end);
    match r with
    | inl st => Some (inl st, set_fw l f)
    | inr (buf, bytes) =>
        '(m, l) ← materialize (set_fw l f) bytes;
        match m with
        | inl st => Some (inl st, l)
        | inr (entry, low, high) =>
            if bool_decide (ae_initrd e = []) then Some (inr (entry, mk_files low high buf (Z.of_nat (length bytes)) 0 0 0 0), l)
            else
              '(r, f) ← efi_read_file (ld_fw l) (ae_initrd e);
              match r with
              | inl st => Some (inl st, set_fw l f)
              | inr (ibuf, ibytes) => Some (inr (entry, mk_files low high buf (Z.of_nat (length bytes)) ibuf (Z.of_nat (length ibytes)) 0 0), set_fw l f)
              end
        end
    end.

(** The descriptors of a map of [size] bytes; [None] when there is no such array. *)
Definition map_entries (size desc_sz : Z) (descs : list efi_desc) : option (list efi_desc) :=
  if desc_sz =? 0 then None
  else if Z.of_nat (length descs) <? size / desc_sz then None
  else Some (take (Z.to_nat (size / desc_sz)) descs).

(** A pool allocation whose status the loader ignores before it writes to the buffer. *)
Definition must_alloc (f : F) (size : Z) : option (Z * F) :=
  let '(st, buf, f) := fw_allocate_pool efi f 2 size in if negb (st =? EFI_SUCCESS) || (buf =? 0) then None else Some (buf, f).

(** [for (tries = 0; tries < 4; tries++)]: the current map, with its buffer, its size and its key.  After the
    last try the buffer is used although no map was read into it. *)
Fixpoint refresh_map (tries : nat) (f : F) (mbuf map_sz : Z) : option ((Z + list efi_desc * Z * Z * Z) * F) :=
  match tries with
  | O => None
  | S tries' =>
      let '(st, cur_sz, descs, key, desc_sz, f) := fw_get_memory_map efi f map_sz in
      if st =? EFI_SUCCESS then ds ← map_entries cur_sz desc_sz descs; Some (inr (ds, mbuf, cur_sz, key), f)
      else if negb (st =? EFI_BUFFER_TOO_SMALL) then Some (inl st, f)
      else
        let map_sz := u64 (cur_sz + desc_sz * 8 + 4096) in
        let '(st, mbuf, f) := fw_allocate_pool efi (fw_free_pool efi f mbuf) 2 map_sz in
        if negb (st =? EFI_SUCCESS) then Some (inl st, f) else refresh_map tries' f mbuf map_sz
  end.

Record handoff := mk_handoff { ho_bib : asd_bib_t; ho_mmap : list asd_mmap_entry_t; ho_entry : Z }.

(** The array and the count for a map that was just read. *)
Definition final_mmap (asd_mmap : list asd_mmap_entry_t) (entry_count : nat) (bib : asd_bib_t) (files : boot_files) (descs : list efi_desc)
    : option (asd_bib_t * list asd_mmap_entry_t) :=
  a ← build_asd_mmap asd_mmap descs;
  let bib := mk_bib (bb_addr bib) (bb_mmap_phys bib) (u32 (Z.of_nat (length descs))) (bb_fb_phys bib) (bb_fb_width bib) (bb_fb_height bib) (bb_fb_stride bib)
    (bb_fb_format bib) (bb_acpi_rsdp bib) (bb_cmdline_phys bib) (bb_cmdline_len bib) (bb_initrd_phys bib) (bb_initrd_len bib) in
  Some (bib, mark_boot_reserved a entry_count bib files).

(** The address of the ACPI tables: the entry of the configuration table with the GUID. *)
Definition ACPI_20_GUID : list Z := [0x71; 0xe8; 0x68; 0x88; 0xf1; 0xe4; 0xd3; 0x11] ++ [0xbc; 0x22; 0x00; 0x80; 0xc7; 0x3c; 0x88; 0x81].

Fixpoint find_rsdp (ct : list (list Z * Z)) : Z :=
  match ct with
  | [] => 0
  | (guid, table) :: ct' => if bool_decide (guid = ACPI_20_GUID) then table else find_rsdp ct'
  end.

(** [g_fb_phys], [g_fb_width], [g_fb_height], [g_fb_stride], [g_fb_format] *)
Record fb_mode := mk_fb { fb_phys : Z; fb_width : Z; fb_height : Z; fb_stride : Z; fb_format : Z }.

(** Steps 2 to 4: the command line, the first map and the information block with its array. *)
Definition prepare (f : F) (e : abc_entry_t) (files : boot_files) (fb : fb_mode) (ct : list (list Z * Z))
    : option ((Z + Z * Z * nat * list asd_mmap_entry_t * asd_bib_t * boot_files) * F) :=
  let clen := Z.of_nat (length (ae_cmdline e)) in
  '(cbuf, f) ← must_alloc f (clen + 1);
  let '(_, map_sz, _, _, desc_sz, f) := fw_get_memory_map efi f 0 in
  let map_sz := u64 (map_sz + desc_sz * 8) in
  let '(_, mbuf, f) := fw_allocate_pool efi f 2 map_sz in
  let '(st, map_sz, descs, key, desc_sz, f) := fw_get_memory_map efi f map_sz in
  if negb (st =? EFI_SUCCESS) then Some (inl st, f)
  else
    '(baddr, f) ← must_alloc f sizeof_bib;
    ds ← map_entries map_sz desc_sz descs;
    let n := length ds in
    '(maddr, f) ← must_alloc f (u64 (sizeof_mmap_entry * Z.of_nat n));
    a ← build_asd_mmap (replicate n (mk_mmap 0 0 0)) ds;
    let bib := mk_bib baddr maddr (u32 (Z.of_nat n)) (fb_phys fb) (fb_width fb) (fb_height fb) (fb_stride fb) (fb_format fb) (find_rsdp ct)
      cbuf (u32 clen) (bf_initrd_buf files) (bf_initrd_sz files) in
    let files := mk_files (bf_kernel_lo files) (bf_kernel_hi files) (bf_kernel_buf files) (bf_kernel_sz files) (bf_initrd_buf files) (bf_initrd_sz files) cbuf clen in
    Some (inr (mbuf, map_sz, n, a, bib, files), f).

(** The last map, and the end of the boot services; a failure is tried once more. *)
Fixpoint leave (tries : nat) (f : F) (mbuf map_sz : Z) (n : nat) (a : list asd_mmap_entry_t) (bib : asd_bib_t) (files : boot_files)
    : option ((Z + asd_bib_t * list asd_mmap_entry_t) * F) :=
  match tries with
  | O => None
  | S tries' =>
      '(r, f) ← refresh_map 4 f mbuf map_sz;
      match r with
      | inl st => Some (inl st, f)
      | inr (descs, mbuf, map_sz, key) =>
          '(bib, a) ← final_mmap a n bib files descs;
          let '(st, f) := fw_exit_boot_services efi f key in
          if st =? EFI_SUCCESS then Some (inr (bib, a), f)
          else match tries' with O => Some (inl st, f) | _ => leave tries' f mbuf map_sz n a bib files end
      end
  end.

Definition build_and_handoff (l : ld_st) (e : abc_entry_t) (fb : fb_mode) (ct : list (list Z * Z)) : option ((Z + handoff) * ld_st) :=
  '(r, l) ← load_files l e;
  match r with
  | inl st => Some (inl st, l)
  | inr (entry, files) =>
      '(r, f) ← prepare (ld_fw l) e files fb ct;
      match r with
      | inl st => Some (inl st, set_fw l f)
      | inr (mbuf, map_sz, n, a, bib, files) =>
          '(r, f) ← leave 2 f mbuf map_sz n a bib files;
          match r with
          | inl st => Some (inl st, set_fw l f)
          | inr (bib, a) => Some (inr (mk_handoff bib a (if entry =? 0 then bf_kernel_buf files else entry)), set_fw l f)
          end
      end
  end.

End Loader.
