(* ===== verification/BootSpec.v ===== *)
(** * Properties of the boot loader: the memory that the kernel is told is free, and the kernel image *)

From Stdlib Require Import ZArith Lia.
From stdpp Require Import base strings gmap list.
From S2P Require Import Prelude KString Phys PhysSpec PhysInit PhysIface VRegion PageTable UserMem Elf BootCfg Boot.

Local Open Scope Z_scope.

(** ** Marking *)

Lemma align_down_eq x : 0 <= x < 2 ^ 64 -> ALIGN_DOWN x = x / 4096 * 4096.
Proof. intros Hx. unfold ALIGN_DOWN. by apply page_mask. Qed.

Lemma align_up_eq x : 0 <= x -> x + 0xFFF < 2 ^ 64 -> ALIGN_UP x = (x + 0xFFF) / 4096 * 4096.
Proof. intros Hx Hb. unfold ALIGN_UP. rewrite u64_small by lia. apply page_mask. lia. Qed.

(** An entry of the map whose bytes do not wrap around. *)
Definition sane (m : asd_mmap_entry_t) : Prop := 0 <= me_base m /\ 0 <= me_pages m /\ me_base m + me_pages m * 4096 < 2 ^ 64.

(** Page [q] lies in the entry, and has a byte of the range. *)
Definition in_entry (m : asd_mmap_entry_t) (q : Z) : Prop := me_base m <= q * 4096 /\ (q + 1) * 4096 <= me_base m + me_pages m * 4096.
Definition in_range (r : Z * Z) (q : Z) : Prop := r.1 < (q + 1) * 4096 /\ q * 4096 < r.1 + r.2.
Definition sane_range (r : Z * Z) : Prop := 0 < r.1 /\ 0 < r.2 /\ r.1 + r.2 + 0xFFF < 2 ^ 64.

(** [m'] is [m], or [m] with a type that is not free. *)
Definition marked (m m' : asd_mmap_entry_t) : Prop :=
  me_base m' = me_base m /\ me_pages m' = me_pages m /\ (me_type m' = me_type m \/ me_type m' <> ASD_MEM_FREE).

(** No page of the range is in a free entry. *)
Definition protects (a : list asd_mmap_entry_t) (r : Z * Z) : Prop := forall m q, m ∈ a -> me_type m = ASD_MEM_FREE -> in_range r q -> ~ in_entry m q.

Lemma marked_refl m : marked m m.
Proof. split_and!; auto. Qed.

Lemma marked_trans m1 m2 m3 : marked m1 m2 -> marked m2 m3 -> marked m1 m3.
Proof. intros (B1 & P1 & T1) (B2 & P2 & T2). split_and!; [congruence..|]. destruct T2 as [->|?]; [done|by right]. Qed.

Lemma marked_list_trans a b c : Forall2 marked a b -> Forall2 marked b c -> Forall2 marked a c.
Proof.
  intros H. revert c. induction H as [|x y a b Hxy H IH]; intros c Hc; inversion Hc; subst; constructor; [by eapply marked_trans|by apply IH].
Qed.

Lemma marked_sane m m' : marked m m' -> sane m -> sane m'.
Proof. intros (B & P & _). unfold sane. by rewrite B, P. Qed.

Lemma marked_protects a a' r : Forall2 marked a a' -> protects a r -> protects a' r.
Proof.
  intros H Hp m' q Hm Ht Hr He. apply list_elem_of_lookup in Hm as [i Hi]. destruct (Forall2_lookup_r _ _ _ _ _ H Hi) as (m & Hm & (B & P & T)).
  apply (Hp m q); [by apply list_elem_of_lookup_2 in Hm|destruct T; congruence|done|]. unfold in_entry in *. by rewrite <- B, <- P.
Qed.

Lemma mark_entry_ok lo hi type m : type <> ASD_MEM_FREE -> marked m (mark_entry lo hi type m).
Proof. intros Ht. unfold mark_entry. destruct (_ || _); [apply marked_refl|]. split_and!; simpl; auto. Qed.

Lemma mark_entry_free base size type m q : type <> ASD_MEM_FREE -> sane m -> sane_range (base, size) -> in_range (base, size) q ->
  me_type (mark_entry (ALIGN_DOWN base) (ALIGN_UP (u64 (base + size))) type m) = ASD_MEM_FREE -> ~ in_entry m q.
Proof.
  intros Ht (Hb & Hp & Hw) (Hr1 & Hr2 & Hr3) [Hq1 Hq2] E [He1 He2]. cbn [fst snd] in *. unfold mark_entry in E.
  rewrite (u64_small (base + size)), align_down_eq, align_up_eq in E by lia. rewrite (u64_small (me_pages m * 4096)), u64_small in E by lia.
  destruct (Z.leb_spec ((base + size + 0xFFF) / 4096 * 4096) (me_base m)); [Z.div_mod_to_equations; lia|].
  destruct (Z.leb_spec (me_base m + me_pages m * 4096) (base / 4096 * 4096)); [Z.div_mod_to_equations; lia|]. by simpl in E.
Qed.

Section Marks.
(** The array, the number of its entries that are used, and their sanity. *)
Context (n : nat).

Lemma mark_range_ok a base size type : length a = n -> Forall sane a -> type <> ASD_MEM_FREE ->
  Forall2 marked a (mark_asd_range a n base size type) /\ (sane_range (base, size) -> protects (mark_asd_range a n base size type) (base, size)).
Proof using.
  intros Ha Hs Ht. unfold mark_asd_range. rewrite take_ge, drop_ge, app_nil_r by lia.
  destruct ((base =? 0) || (size =? 0)) eqn:Ez.
  { split; [apply Forall2_same_length_lookup_2; [done|]; intros i x y Hx Hy; assert (x = y) as -> by congruence; apply marked_refl|].
    unfold sane_range. simpl. lia. }
  split; [apply Forall2_fmap_r, Forall_Forall2_diag, Forall_forall; intros; by apply mark_entry_ok|].
  intros Hr m' q Hm' Hf Hq. apply list_elem_of_fmap in Hm' as (m & -> & Hm). rewrite Forall_forall in Hs.
  intros He. apply (mark_entry_free base size type m q Ht (Hs m Hm) Hr Hq Hf). destruct (mark_entry_ok (ALIGN_DOWN base) (ALIGN_UP (u64 (base + size))) type m Ht) as (B & P & _).
  unfold in_entry in *. by rewrite <- B, <- P.
Qed.

Lemma mark_range_keep a b base size type : length a = n -> Forall sane a -> type <> ASD_MEM_FREE -> Forall2 marked b a ->
  length (mark_asd_range a n base size type) = n /\ Forall sane (mark_asd_range a n base size type) /\ Forall2 marked b (mark_asd_range a n base size type).
Proof using.
  intros Ha Hs Ht Hb. destruct (mark_range_ok a base size type Ha Hs Ht) as [H _]. split_and!.
  - by rewrite <- (Forall2_length _ _ _ H).
  - apply Forall_lookup. intros i m' Hi. destruct (Forall2_lookup_r _ _ _ _ _ H Hi) as (m & Hm & Hmk). eapply marked_sane; [done|]. by eapply (proj1 (Forall_lookup _ _) Hs).
  - by eapply marked_list_trans.
Qed.
End Marks.

(** The ranges that must not be handed out. *)
Definition boot_ranges (n : nat) (bib : asd_bib_t) (f : boot_files) : list (Z * Z) :=
  [(bb_addr bib, sizeof_bib); (bb_mmap_phys bib, sizeof_mmap_entry * Z.of_nat n)] ++
  (if negb (bf_cmdline_buf f =? 0) && negb (bf_cmdline_len f =? 0) then [(bf_cmdline_buf f, bf_cmdline_len f + 1)] else []) ++
  (if negb (bf_initrd_buf f =? 0) && negb (bf_initrd_sz f =? 0) then [(bf_initrd_buf f, bf_initrd_sz f)] else []) ++
  (if negb (bf_kernel_lo f =? 0) && negb (bf_kernel_hi f =? 0) && (bf_kernel_lo f <? bf_kernel_hi f) then [(bf_kernel_lo f, bf_kernel_hi f - bf_kernel_lo f)]
   else if negb (bf_kernel_buf f =? 0) && negb (bf_kernel_sz f =? 0) then [(bf_kernel_buf f, bf_kernel_sz f)] else []).

(** One step of [mark_boot_reserved] keeps what the steps before it protect. *)
Definition marks (n : nat) (a0 a : list asd_mmap_entry_t) (rs : list (Z * Z)) : Prop :=
  length a = n /\ Forall sane a /\ Forall2 marked a0 a /\ forall r, r ∈ rs -> sane_range r -> protects a r.

Lemma marks_step n a0 a rs base size type : marks n a0 a rs -> type <> ASD_MEM_FREE ->
  marks n a0 (mark_asd_range a n base size type) (rs ++ [(base, size)]).
Proof.
  intros (L & S & M & P) Ht. destruct (mark_range_keep n a a0 base size type L S Ht M) as (L' & S' & M'). destruct (mark_range_ok n a base size type L S Ht) as [M1 P1].
  split_and!; try done. intros r Hr Hs. apply elem_of_app in Hr as [Hr|Hr]; [|apply list_elem_of_singleton in Hr as ->; by apply P1].
  eapply marked_protects; [exact M1|]. by apply P.
Qed.

Lemma marks_weaken n a0 a rs rs' : marks n a0 a rs -> (forall r, r ∈ rs' -> r ∈ rs) -> marks n a0 a rs'.
Proof. intros (L & S & M & P) H. split_and!; try done. intros r Hr. by apply P, H. Qed.

Lemma mark_boot_reserved_ok n a bib f : length a = n -> Forall sane a -> sizeof_mmap_entry * Z.of_nat n < 2 ^ 64 -> 0 <= bf_cmdline_len f < 2 ^ 32 ->
  marks n a (mark_boot_reserved a n bib f) (boot_ranges n bib f).
Proof.
  intros L S Hn Hc. assert (marks n a a []) as M0.
  { split_and!; try done; [|by intros r Hr%elem_of_nil]. apply Forall_Forall2_diag, Forall_forall. intros; apply marked_refl. }
  unfold mark_boot_reserved, boot_ranges. rewrite (u64_small (sizeof_mmap_entry * Z.of_nat n)), (u64_small (bf_cmdline_len f + 1)) by (unfold sizeof_mmap_entry in *; lia).
  pose proof (marks_step _ _ _ _ (bb_addr bib) sizeof_bib ASD_MEM_LOADER M0 ltac:(done)) as M1.
  apply (marks_step _ _ _ _ (bb_mmap_phys bib) (sizeof_mmap_entry * Z.of_nat n) ASD_MEM_LOADER) in M1; [|done].
  set (a1 := mark_asd_range (mark_asd_range a n _ _ _) n _ _ _) in *. clearbody a1. clear M0. cbn [app] in *.
  set (a2 := if negb (bf_cmdline_buf f =? 0) && _ then _ else a1). set (r2 := if negb (bf_cmdline_buf f =? 0) && _ then _ else []).
  assert (marks n a a2 ([(bb_addr bib, sizeof_bib); (bb_mmap_phys bib, sizeof_mmap_entry * Z.of_nat n)] ++ r2)) as M2.
  { subst a2 r2. destruct (_ && _); [by apply marks_step|by rewrite app_nil_r]. }
  clearbody a2 r2. clear M1 a1. set (a3 := if negb (bf_initrd_buf f =? 0) && _ then _ else a2). set (r3 := if negb (bf_initrd_buf f =? 0) && _ then _ else []).
  assert (marks n a a3 (([(bb_addr bib, sizeof_bib); (bb_mmap_phys bib, sizeof_mmap_entry * Z.of_nat n)] ++ r2) ++ r3)) as M3.
  { subst a3 r3. destruct (_ && _); [by apply marks_step|by rewrite app_nil_r]. }
  clearbody a3 r3. clear M2 a2. set (a4 := if negb (bf_kernel_lo f =? 0) && _ && _ then _ else _). set (r4 := if negb (bf_kernel_lo f =? 0) && _ && _ then _ else _).
  assert (marks n a a4 ((([(bb_addr bib, sizeof_bib); (bb_mmap_phys bib, sizeof_mmap_entry * Z.of_nat n)] ++ r2) ++ r3) ++ r4)) as M4.
  { subst a4 r4. destruct (_ && _ && _); [by apply marks_step|]. destruct (_ && _); [by apply marks_step|by rewrite app_nil_r]. }
  clearbody a4 r4. rewrite <- !app_assoc in M4. destruct (_ && _ && _); [|done]. eapply marks_weaken; [by apply marks_step|]. intros r Hr. apply elem_of_app. by left.
Qed.

(** ** The hand-over *)

Section Handoff.
Context {F : Type} (efi : efi_services (F := F)) (g_image : Z).

(** The maps of the firmware: no descriptor wraps around, and a map has fewer than [2 ^ 32] of them. *)
Definition maps_sane : Prop :=
  forall f size st sz ds key dsz f', fw_get_memory_map efi f size = (st, sz, ds, key, dsz, f') -> Forall (fun d => sane (asd_of_efi d)) ds /\ Z.of_nat (length ds) < 2 ^ 32.

Context (Hmaps : maps_sane).

Lemma build_ok a ds a' n : length a = n -> Forall sane a -> Forall (fun d => sane (asd_of_efi d)) ds -> build_asd_mmap a ds = Some a' -> length a' = n /\ Forall sane a' /\ (length ds <= n)%nat.
Proof using.
  intros L S D E. unfold build_asd_mmap in E. destruct (decide _) as [Hle|]; [|done]. injection E as <-. split; [by rewrite length_inserts|]. split; [|lia].
  rewrite inserts_prefix by (rewrite length_fmap; lia). apply Forall_app. split; [by apply Forall_fmap|by apply Forall_drop].
Qed.

Lemma map_entries_sane size dsz ds ds' : Forall (fun d => sane (asd_of_efi d)) ds -> map_entries size dsz ds = Some ds' -> Forall (fun d => sane (asd_of_efi d)) ds' /\ (length ds' <= length ds)%nat.
Proof using.
  intros D E. unfold map_entries in E. destruct (dsz =? 0); [done|]. destruct (_ <? _); [done|]. injection E as <-. split; [by apply Forall_take|rewrite length_take; lia].
Qed.

Lemma refresh_ok tries : forall f mbuf size ds mbuf' size' key f', refresh_map efi tries f mbuf size = Some (inr (ds, mbuf', size', key), f') -> Forall (fun d => sane (asd_of_efi d)) ds.
Proof using Hmaps.
  induction tries as [|tries IH]; intros f mbuf size ds mbuf' size' key f' E; [done|]. cbn [refresh_map] in E.
  destruct (fw_get_memory_map efi f size) as [[[[[st cur] d] k] dsz] f1] eqn:Em. destruct (st =? EFI_SUCCESS).
  - apply bind_Some in E as (ds' & Ed & E). injection E as <- _ _ _ _. by apply (map_entries_sane _ _ _ _ (proj1 (Hmaps _ _ _ _ _ _ _ _ Em)) Ed).
  - destruct (negb _); [done|]. destruct (fw_allocate_pool _ _ _ _) as [[st' m'] f2]. destruct (negb _); [done|]. by eapply IH.
Qed.

(** The block with the count of the last map. *)
Definition set_count (b : asd_bib_t) (c : Z) : asd_bib_t :=
  mk_bib (bb_addr b) (bb_mmap_phys b) c (bb_fb_phys b) (bb_fb_width b) (bb_fb_height b) (bb_fb_stride b) (bb_fb_format b) (bb_acpi_rsdp b)
    (bb_cmdline_phys b) (bb_cmdline_len b) (bb_initrd_phys b) (bb_initrd_len b).

(** The block keeps what [prepare] put in it. *)
Definition same_bib (b b' : asd_bib_t) : Prop := exists c, b' = set_count b c.

Lemma leave_ok tries : forall f mbuf size n a bib files bib' a' f', leave efi tries f mbuf size n a bib files = Some (inr (bib', a'), f') ->
  length a = n -> Forall sane a -> sizeof_mmap_entry * Z.of_nat n < 2 ^ 64 -> 0 <= bf_cmdline_len files < 2 ^ 32 ->
  same_bib bib bib' /\ exists a1, length a1 = n /\ Forall sane a1 /\ a' = mark_boot_reserved a1 n bib' files.
Proof using Hmaps.
  induction tries as [|tries IH]; intros f mbuf size n a bib files bib' a' f' E L S Hn Hc; [done|]. cbn [leave] in E.
  apply bind_Some in E as ([r f1] & Er & E). destruct r as [st|[[[ds mb] sz] key]]; [done|]. apply refresh_ok in Er as D.
  apply bind_Some in E as ([bib1 a1] & Ef & E). unfold final_mmap in Ef. apply bind_Some in Ef as (a2 & Eb & Ef). injection Ef as Eb1 Ea1.
  destruct (build_ok a ds a2 n L S D Eb) as (L2 & S2 & Hle). assert (same_bib bib bib1) as Hb by (exists (u32 (Z.of_nat (length ds))); by rewrite <- Eb1).
  destruct (fw_exit_boot_services efi f1 key) as [st f2]. rewrite Eb1 in Ea1. destruct (st =? EFI_SUCCESS).
  - injection E as <- <- _. split; [done|]. by exists a2.
  - destruct tries as [|tries]; [done|]. destruct (mark_boot_reserved_ok n a2 bib1 files L2 S2 Hn Hc) as (L1 & S1 & _ & _). rewrite Ea1 in L1, S1.
    destruct (IH _ _ _ _ _ _ _ _ _ _ E L1 S1 Hn Hc) as ([c Hc'] & Hex). split; [|done]. destruct Hb as [c0 ->]. exists c. by rewrite Hc'.
Qed.

Lemma prepare_ok f e files fb ct mbuf size n a bib files' f' : prepare efi f e files fb ct = Some (inr (mbuf, size, n, a, bib, files'), f') ->
  length a = n /\ Forall sane a /\ Z.of_nat n < 2 ^ 32 /\
  files' = mk_files (bf_kernel_lo files) (bf_kernel_hi files) (bf_kernel_buf files) (bf_kernel_sz files) (bb_initrd_phys bib) (bb_initrd_len bib) (bb_cmdline_phys bib) (Z.of_nat (length (ae_cmdline e))) /\
  bb_initrd_phys bib = bf_initrd_buf files /\ bb_initrd_len bib = bf_initrd_sz files.
Proof using Hmaps.
  unfold prepare. intros E. apply bind_Some in E as ([cbuf f1] & _ & E). destruct (fw_get_memory_map efi f1 0) as [[[[[st0 sz0] d0] k0] dsz0] f2] eqn:E0.
  destruct (fw_allocate_pool efi f2 2 _) as [[st1 mb] f3]. destruct (fw_get_memory_map efi f3 _) as [[[[[st2 sz2] d2] k2] dsz2] f4] eqn:E2.
  destruct (negb _); [done|]. apply bind_Some in E as ([baddr f5] & _ & E). apply bind_Some in E as (ds & Ed & E). apply bind_Some in E as ([maddr f6] & _ & E).
  apply bind_Some in E as (a1 & Ea & E). injection E as <- <- <- <- <- <- <-. destruct (Hmaps _ _ _ _ _ _ _ _ E2) as [D Hlen].
  destruct (map_entries_sane _ _ _ _ D Ed) as [D' Hl]. destruct (build_ok (replicate (length ds) (mk_mmap 0 0 0)) ds a1 (length ds)) as (L & S & _).
  { by rewrite length_replicate. } { apply Forall_replicate. unfold sane. simpl. lia. } { done. } { done. }
  split_and!; try done. lia.
Qed.


End Handoff.

(** ** The kernel image *)

Lemma mem_fill_lookup n : forall mem a c x, mem_fill mem a n c !! x = if decide (a <= x < a + Z.of_nat n) then Some c else mem !! x.
Proof.
  induction n as [|n IH]; intros mem a c x; cbn [mem_fill]; [by case_decide; [lia|]|]. rewrite IH. repeat case_decide; try (done || lia).
  - assert (x = a) as -> by lia. by rewrite lookup_insert_eq.
  - rewrite lookup_insert_ne by lia. done.
Qed.

Lemma mem_write_lookup bs : forall mem a x, mem_write mem a bs !! x = if decide (a <= x < a + Z.of_nat (length bs)) then bs !! Z.to_nat (x - a) else mem !! x.
Proof.
  induction bs as [|b bs IH]; intros mem a x; cbn [mem_write length]; [by case_decide; [lia|]|]. rewrite IH. repeat case_decide; try (done || lia).
  - rewrite lookup_cons_ne_0 by lia. f_equal. lia.
  - assert (x = a) as -> by lia. rewrite lookup_insert_eq. by replace (Z.to_nat (a - a)) with 0%nat by lia.
  - rewrite lookup_insert_ne by lia. done.
Qed.

Section Image.
Context (img : list Z) (phoff : Z).

(** Segment [i] of the image is loaded. *)
Definition loaded (i : nat) (p : boot_phdr) : Prop := phdr img phoff i = Some p /\ seg_skipped p = false.

(** Its bytes are in the file and do not exceed its memory, which does not wrap around. *)
Definition seg_sane (p : boot_phdr) : Prop :=
  0 <= bp_offset p /\ 0 <= bp_filesz p <= bp_memsz p /\ bp_offset p + bp_filesz p <= Z.of_nat (length img) /\ Z.of_nat (length img) < 2 ^ 64 /\
  bp_paddr p + bp_memsz p + 0xFFF < 2 ^ 64.

(** The segments do not overlap in memory. *)
Definition apart (p p' : boot_phdr) : Prop := bp_paddr p + bp_memsz p <= bp_paddr p' \/ bp_paddr p' + bp_memsz p' <= bp_paddr p.

Lemma loaded_addr i p : loaded i p -> 0x1000000 <= bp_paddr p /\ bp_memsz p <> 0.
Proof. intros [_ H]. unfold seg_skipped in H. lia. Qed.

Lemma seg_range_ok n : forall i low high, (forall j, (i <= j < i + n)%nat -> is_Some (phdr img phoff j)) -> (forall j p, (i <= j < i + n)%nat -> loaded j p -> seg_sane p) ->
  exists low' high', seg_range img phoff i n low high = Some (inr (low', high')) /\ low' <= low /\ high <= high' /\
    (forall j p, (i <= j < i + n)%nat -> loaded j p -> low' <= bp_paddr p /\ bp_paddr p + bp_memsz p <= high' /\ low' < 2 ^ 64 - 1) /\
    (low' = low \/ 0 <= low' /\ (4096 | low')) /\ (high' = high \/ (4096 | high')).
Proof.
  induction n as [|n IH]; intros i low high Hp Hs.
  { exists low, high. split_and!; [done|lia|lia|lia|auto..]. }
  destruct (Hp i ltac:(lia)) as [p Ep]. cbn [seg_range]. rewrite Ep. cbn [mbind option_bind].
  assert (forall j, (S i <= j < S i + n)%nat -> is_Some (phdr img phoff j)) as Hp' by (intros; apply Hp; lia).
  assert (forall j p, (S i <= j < S i + n)%nat -> loaded j p -> seg_sane p) as Hs' by (intros j p' Hj; apply Hs; lia).
  destruct (seg_skipped p) eqn:Esk.
  - destruct (IH (S i) low high Hp' Hs') as (lo & hi & -> & H1 & H2 & H3 & H4 & H5). exists lo, hi. split_and!; try done.
    intros j p' Hj Hl. destruct (decide (j = i)) as [->|]; [destruct Hl; congruence|]. apply (H3 j); [lia|done].
  - assert (loaded i p) as Hl by done. destruct (Hs i p ltac:(lia) Hl) as (Ho & Hf & Hb & Hlen & Hw). destruct (loaded_addr i p Hl) as [Ha Hm].
    rewrite !(u64_small (bp_offset p + bp_filesz p)) by lia. destruct (Z.ltb_spec (Z.of_nat (length img)) (bp_offset p + bp_filesz p)); [lia|].
    rewrite (u64_small (bp_paddr p + bp_memsz p)), align_down_eq, align_up_eq by lia.
    set (slo := bp_paddr p / 4096 * 4096). set (shi := (bp_paddr p + bp_memsz p + 0xFFF) / 4096 * 4096).
    assert (slo <= bp_paddr p /\ 0 <= slo /\ bp_paddr p + bp_memsz p <= shi /\ slo < 2 ^ 64 - 1) as (G1 & G2 & G3 & G4) by (unfold slo, shi; Z.div_mod_to_equations; lia).
    destruct (IH (S i) (if slo <? low then slo else low) (if high <? shi then shi else high) Hp' Hs') as (lo & hi & -> & H1 & H2 & H3 & H4 & H5). exists lo, hi.
    assert (lo <= slo /\ lo <= low /\ shi <= hi /\ high <= hi) as (G5 & G6 & G7 & G8) by (destruct (Z.ltb_spec slo low), (Z.ltb_spec high shi); lia).
    split; [done|]. split; [done|]. split; [done|]. split; [|split].
    + intros j p' Hj Hl'. destruct (decide (j = i)) as [->|]; [|apply (H3 j); [lia|done]]. assert (p' = p) as -> by (destruct Hl, Hl'; congruence). lia.
    + destruct H4 as [->|?]; [|by right]. destruct (slo <? low); [right|by left]. split; [done|by exists (bp_paddr p / 4096)].
    + destruct H5 as [->|?]; [|by right]. destruct (high <? shi); [right|by left]. by exists ((bp_paddr p + bp_memsz p + 0xFFF) / 4096).
Qed.

Lemma copy_segs_ok n : forall i mem, (forall j, (i <= j < i + n)%nat -> is_Some (phdr img phoff j)) -> (forall j p, (i <= j < i + n)%nat -> loaded j p -> seg_sane p) ->
  (forall j p j' p', (i <= j < i + n)%nat -> (i <= j' < i + n)%nat -> j <> j' -> loaded j p -> loaded j' p' -> apart p p') ->
  exists mem', copy_segs img phoff i n mem = Some mem' /\
    (forall j p x, (i <= j < i + n)%nat -> loaded j p -> bp_paddr p <= x < bp_paddr p + bp_filesz p -> mem' !! x = img !! Z.to_nat (bp_offset p + (x - bp_paddr p))) /\
    (forall x, (forall j p, (i <= j < i + n)%nat -> loaded j p -> ~ bp_paddr p <= x < bp_paddr p + bp_filesz p) -> mem' !! x = mem !! x).
Proof.
  induction n as [|n IH]; intros i mem Hp Hs Hd.
  { exists mem. split_and!; [done|lia|done]. }
  destruct (Hp i ltac:(lia)) as [p Ep]. cbn [copy_segs]. rewrite Ep. cbn [mbind option_bind].
  assert (forall j, (S i <= j < S i + n)%nat -> is_Some (phdr img phoff j)) as Hp' by (intros; apply Hp; lia).
  assert (forall j p, (S i <= j < S i + n)%nat -> loaded j p -> seg_sane p) as Hs' by (intros j p' Hj; apply Hs; lia).
  assert (forall j p j' p', (S i <= j < S i + n)%nat -> (S i <= j' < S i + n)%nat -> j <> j' -> loaded j p -> loaded j' p' -> apart p p') as Hd' by (intros j p1 j' p1' Hj Hj'; apply Hd; lia).
  destruct (seg_skipped p) eqn:Esk.
  - destruct (IH (S i) mem Hp' Hs' Hd') as (mem' & -> & H1 & H2). exists mem'. split; [done|]. split.
    + intros j p' x Hj Hl. destruct (decide (j = i)) as [->|]; [destruct Hl; congruence|]. apply (H1 j); [lia|done].
    + intros x Hx. apply H2. intros j p' Hj. apply Hx. lia.
  - assert (loaded i p) as Hl by done. destruct (Hs i p ltac:(lia) Hl) as (Ho & Hf & Hb & Hlen & Hw).
    assert (length (slice (Z.to_nat (bp_offset p)) (Z.to_nat (bp_filesz p)) img) = Z.to_nat (bp_filesz p)) as Hsl by (apply length_slice; lia). rewrite decide_True by done.
    destruct (IH (S i) (mem_write mem (bp_paddr p) (slice (Z.to_nat (bp_offset p)) (Z.to_nat (bp_filesz p)) img)) Hp' Hs' Hd') as (mem' & -> & H1 & H2).
    exists mem'. split; [done|]. split.
    + intros j p' x Hj Hl' Hx. destruct (decide (j = i)) as [->|Hne]; [|apply (H1 j); [lia|done..]]. assert (p' = p) as -> by (destruct Hl, Hl'; congruence).
      rewrite H2; [rewrite mem_write_lookup, Hsl, decide_True, lookup_slice by lia; f_equal; lia|].
      intros j p' Hj' Hl2 Hx'. destruct (Hd i p j p' ltac:(lia) ltac:(lia) ltac:(lia) Hl Hl2); destruct (Hs j p' ltac:(lia) Hl2) as (? & ? & _); lia.
    + intros x Hx. rewrite H2 by (intros j p' Hj; apply Hx; lia). rewrite mem_write_lookup, Hsl, decide_False; [done|].
      specialize (Hx i p ltac:(lia) Hl). lia.
Qed.
End Image.

(** The kernel is in memory as its program headers say: on an image whose loaded segments are sane and apart, the loader allocates whole pages around
    them, puts every byte of the file part of a segment at its physical address, zeroes the rest of the
    segment, writes nothing outside the pages, and takes the entry point of the image. *)
Theorem materialize_ok {F} (efi : efi_services (F := F)) l img eh f' :
  64 <= Z.of_nat (length img) -> elf64_ehdr img = Some eh -> is_kernel_elf img eh = true ->
  (forall j, (j < Z.to_nat (e_phnum eh))%nat -> is_Some (phdr img (e_phoff eh) j)) ->
  (forall j p, (j < Z.to_nat (e_phnum eh))%nat -> loaded img (e_phoff eh) j p -> seg_sane img p) ->
  (forall j p j' p', (j < Z.to_nat (e_phnum eh))%nat -> (j' < Z.to_nat (e_phnum eh))%nat -> j <> j' -> loaded img (e_phoff eh) j p -> loaded img (e_phoff eh) j' p' -> apart p p') ->
  (exists j p, (j < Z.to_nat (e_phnum eh))%nat /\ loaded img (e_phoff eh) j p) ->
  (forall pages addr, fw_allocate_pages efi (ld_fw l) EFI_ALLOCATE_ADDRESS EFI_LOADER_DATA pages addr = (EFI_SUCCESS, f')) ->
  exists low high mem, materialize efi l img = Some (inr (e_entry eh, low, high), mk_ld f' mem) /\ (4096 | low) /\ (4096 | high) /\
    (forall j p x, (j < Z.to_nat (e_phnum eh))%nat -> loaded img (e_phoff eh) j p -> bp_paddr p <= x < bp_paddr p + bp_memsz p ->
       low <= x < high /\ mem !! x = if decide (x < bp_paddr p + bp_filesz p) then img !! Z.to_nat (bp_offset p + (x - bp_paddr p)) else Some 0) /\
    (forall x, ~ low <= x < high -> mem !! x = ld_mem l !! x).
Proof.
  intros Hlen Eh Hk Hp Hs Hd (j0 & p0 & Hj0 & Hl0) Hal. unfold materialize. destruct (Z.ltb_spec (Z.of_nat (length img)) 64); [lia|]. rewrite Eh. cbn [mbind option_bind]. rewrite Hk. cbn [negb].
  destruct (seg_range_ok img (e_phoff eh) (Z.to_nat (e_phnum eh)) 0 (2 ^ 64 - 1) 0) as (low & high & -> & _ & Hh0 & Hr & Hlo & Hhi).
  { intros j Hj. apply Hp. lia. } { intros j p Hj. apply Hs. lia. }
  cbn [mbind option_bind]. destruct (Hr j0 p0 ltac:(lia) Hl0) as (G1 & G2 & G3). destruct (loaded_addr _ _ _ _ Hl0) as [Ha Hm]. destruct (Hs j0 p0 Hj0 Hl0) as (_ & Hf & _).
  destruct (Z.eqb_spec low (2 ^ 64 - 1)); [lia|]. destruct (Z.leb_spec high low); [lia|]. cbn [orb]. rewrite Hal. cbn [negb Z.eqb EFI_SUCCESS].
  destruct (copy_segs_ok img (e_phoff eh) (Z.to_nat (e_phnum eh)) 0 (mem_fill (ld_mem l) low (Z.to_nat (high - low)) 0)) as (mem & -> & H1 & H2).
  { intros j Hj. apply Hp. lia. } { intros j p Hj. apply Hs. lia. } { intros j p j' p' Hj Hj'. apply Hd; lia. }
  cbn [mbind option_bind]. exists low, high, mem. split; [done|]. split; [destruct Hlo as [?|[_ ?]]; [lia|done]|]. split; [destruct Hhi as [?|?]; [lia|done]|]. split.
  - intros j p x Hj Hl Hx. destruct (Hr j p ltac:(lia) Hl) as (L1 & L2 & _). split; [lia|]. case_decide.
    + apply (H1 j); [lia|done|lia].
    + rewrite H2; [rewrite mem_fill_lookup, decide_True by lia; done|]. intros j' p' Hj' Hl' Hx'. destruct (Hs j' p' ltac:(lia) Hl') as (_ & Hf' & _).
      destruct (decide (j = j')) as [->|Hne]; [|destruct (Hd j p j' p' Hj ltac:(lia) Hne Hl Hl'); lia]. assert (p' = p) as -> by (destruct Hl, Hl'; congruence). lia.
  - intros x Hx. rewrite H2; [rewrite mem_fill_lookup, decide_False by lia; done|]. intros j p Hj Hl Hx'. destruct (Hr j p ltac:(lia) Hl) as (L1 & L2 & _). destruct (Hs j p ltac:(lia) Hl) as (_ & Hf' & _). lia.
Qed.
