(* ===== verification/BootDemo.v ===== *)
(** * A firmware and a kernel image, for the theorems on the boot loader *)

From Stdlib Require Import ZArith Lia.
From stdpp Require Import base strings gmap list.
From S2P Require Import Prelude KString Phys PhysSpec PhysInit PhysIface VRegion PageTable UserMem Elf BootCfg Boot BootSpec.

Local Open Scope Z_scope.

(** An image of one segment: four bytes and twelve zeroes at 64 MiB. *)
Definition kernel_img : list Z :=
  [0x7f; 0x45; 0x4c; 0x46; 2; 1; 1] ++ replicate 9 0 ++ le_bytes 2 2 ++ le_bytes 2 62 ++ le_bytes 4 1 ++ le_bytes 8 0x4000000 ++ le_bytes 8 64 ++ le_bytes 8 0 ++
  le_bytes 4 0 ++ le_bytes 2 64 ++ le_bytes 2 56 ++ le_bytes 2 1 ++ replicate 6 0 ++
  le_bytes 4 1 ++ le_bytes 4 5 ++ le_bytes 8 120 ++ le_bytes 8 0x4000000 ++ le_bytes 8 0x4000000 ++ le_bytes 8 4 ++ le_bytes 8 16 ++ le_bytes 8 4096 ++
  [0x90; 0x90; 0xEB; 0xFE].

Definition kernel_ehdr : elf64_ehdr_t := mk_ehdr ([0x7f; 0x45; 0x4c; 0x46; 2; 1; 1] ++ replicate 9 0) 2 62 0x4000000 64 56 1.
Definition kernel_seg : boot_phdr := mk_bphdr 1 120 0x4000000 4 16.

(** Pool memory from 1 MiB on, a page at a time; every file is the image. *)
Definition demo_efi : efi_services (F := Z) := {|
  fw_handle_protocol f h g := (0, 1, f); fw_device_handle f i := 1; fw_open_volume f i := (0, 1, f); fw_open f r p := (0, 1, f);
  fw_get_info f h := (0, replicate 8 0 ++ le_bytes 8 124 ++ replicate 64 0, f);
  fw_allocate_pool f t n := (0, 0x100000 + 0x1000 * f, f + 1); fw_read f h n := (0, kernel_img, f);
  fw_close f h := f; fw_free_pool f b := f; fw_allocate_pages f a t n m := (0, f);
  fw_get_memory_map f n := (0, 144, [mk_desc 2 0x100000 0x100; mk_desc 4 0x4000000 1; mk_desc 7 0x8000000 0x1000], 7, 48, f);
  fw_exit_boot_services f k := (0, f) |}.

Definition demo_ld : ld_st (F := Z) := mk_ld 0 ∅.
Definition demo_entry : abc_entry_t := mk_entry (c_str "asd") (c_str "ASD") (c_str "/boot/asdkernel.bin") [] (c_str "quiet") [] false.

Lemma demo_maps_sane : maps_sane demo_efi.
Proof.
  intros f size st sz ds key dsz f' E. injection E as <- <- <- <- <- <-. split; [|simpl; lia].
  repeat (apply Forall_cons_2; [unfold sane; simpl; lia|]). constructor.
Qed.


(** What the kernel is told: only the third entry is free. *)
Example demo_handoff : option_map (fun r => match r.1 with inr h => (ho_entry h, ho_mmap h) | _ => (0, []) end) (build_and_handoff demo_efi 1 demo_ld demo_entry (mk_fb 0 0 0 0 0) []) =
  Some (0x4000000, [mk_mmap 0x100000 0x100 ASD_MEM_LOADER; mk_mmap 0x4000000 1 ASD_MEM_KERNEL; mk_mmap 0x8000000 0x1000 ASD_MEM_FREE]).
Proof. vm_compute. reflexivity. Qed.

Lemma kernel_loaded j p : loaded kernel_img 64 j p -> (j < 1)%nat -> p = kernel_seg.
Proof. intros [E _] Hj. assert (j = 0%nat) as -> by lia. vm_compute in E. by injection E as <-. Qed.

Lemma materialize_ok_witness : exists low high mem, materialize demo_efi demo_ld kernel_img = Some (inr (0x4000000, low, high), mk_ld 0 mem) /\
  mem !! 0x4000002 = Some 0xEB /\ mem !! 0x400000F = Some 0.
Proof.
  destruct (materialize_ok demo_efi demo_ld kernel_img kernel_ehdr 0) as (low & high & mem & E & _ & _ & Hm & _).
  - vm_compute. discriminate.
  - reflexivity.
  - reflexivity.
  - intros j Hj. assert (j = 0%nat) as -> by (simpl in Hj; lia). exists kernel_seg. reflexivity.
  - intros j p Hj Hl. apply kernel_loaded in Hl as ->; [|exact Hj]. unfold seg_sane. change (length kernel_img) with 124%nat. simpl. lia.
  - intros j p j' p' Hj Hj' Hne. simpl in Hj, Hj'. lia.
  - exists 0%nat, kernel_seg. split; [simpl; lia|]. split; reflexivity.
  - intros pages addr. reflexivity.
  - exists low, high, mem. split; [exact E|]. assert (loaded kernel_img (e_phoff kernel_ehdr) 0 kernel_seg) as Hl by (split; reflexivity).
    split; [rewrite (proj2 (Hm 0%nat kernel_seg 0x4000002 ltac:(simpl; lia) Hl ltac:(simpl; lia)))|rewrite (proj2 (Hm 0%nat kernel_seg 0x400000F ltac:(simpl; lia) Hl ltac:(simpl; lia)))]; reflexivity.
Defined.

(** A map that grew since the array was allocated is written past its end. *)
Example grown_map_overflows : build_asd_mmap (replicate 2 (mk_mmap 0 0 0)) [mk_desc 7 0 1; mk_desc 7 0x1000 1; mk_desc 7 0x2000 1] = None.
Proof. reflexivity. Qed.
