(* ===== verification/Installer.v ===== *)
(** * The installer (src/init/installer.c)

    The disk side of the installer: finding the EFI system partition in a partition table, copying
    the boot medium into it, and the account database that is kept in front of the first partition
    and read back at the next start.  The functions of a block device are arguments, as in Gpt.v.
    The dialogs of installer_tui.c enter through what they leave in the buffers of the installer. *)

From Stdlib Require Import ZArith Lia.
From stdpp Require Import base strings sets list.
From S2P Require Import Prelude KString Usr Block Gpt.

Local Open Scope Z_scope.

Definition PASSWD_LBA : Z := 34.
Definition PASSWD_SECS : Z := 8.
(** [PASSWD_SECS * 512] *)
Definition PASSWD_BYTES : nat := 8 * 512.
Definition HOSTNAME_OFFSET : nat := PASSWD_BYTES - 64.
Definition COPY_CHUNK_SECS : Z := 64.
Definition UID_USER_MIN : Z := 1000.

(** ** Little-endian reads *)

Definition rd16le (p : list Z) : option Z :=
  b0 ← p !! 0%nat; b1 ← p !! 1%nat;
  Some (Z.lor b0 (Z.shiftl b1 8)).

Definition rd32le (p : list Z) : option Z :=
  b0 ← p !! 0%nat; b1 ← p !! 1%nat; b2 ← p !! 2%nat; b3 ← p !! 3%nat;
  Some (Z.lor (Z.lor (Z.lor b0 (Z.shiftl b1 8)) (Z.shiftl b2 16)) (Z.shiftl b3 24)).

Definition rd64le (p : list Z) : option Z :=
  b0 ← p !! 0%nat; b1 ← p !! 1%nat; b2 ← p !! 2%nat; b3 ← p !! 3%nat;
  b4 ← p !! 4%nat; b5 ← p !! 5%nat; b6 ← p !! 6%nat; b7 ← p !! 7%nat;
  Some (Z.lor (Z.lor (Z.lor (Z.lor (Z.lor (Z.lor (Z.lor b0 (Z.shiftl b1 8)) (Z.shiftl b2 16)) (Z.shiftl b3 24))
    (Z.shiftl b4 32)) (Z.shiftl b5 40)) (Z.shiftl b6 48)) (Z.shiftl b7 56)).

(** ** The account block *)

(** [p[0] == pat[0] && p[1] == pat[1] && ...], reading no further than the first difference. *)
Fixpoint begins (pat p : list Z) : option bool :=
  match pat with
  | [] => Some true
  | c :: pat' => match p with [] => None | x :: p' => if x =? c then begins pat' p' else Some false end
  end.

Definition passwd_db_magic_ok (sector0 : option (list Z)) : option bool :=
  match sector0 with None => Some false | Some p => begins (c_str "#ASDPW1") p end.

(** The search loop, [k] positions still to try. *)
Fixpoint root_loop (k : nat) (p : list Z) : option bool :=
  match k with
  | O => Some false
  | S k' => b ← begins (c_str "root 0 0") p; if (b : bool) then Some true else root_loop k' (tail p)
  end.

Definition passwd_buf_has_root_account (buf : option (list Z)) (len : nat) : option bool :=
  match buf with
  | None => Some false
  | Some p =>
      if (len <? 16)%nat then Some false
      else ok ← passwd_db_magic_ok buf; if negb ok then Some false else root_loop (len - 7) p
  end.

(** The first character of a host name that is taken over. *)
Definition host_char (c : Z) : bool :=
  ((97 <=? c) && (c <=? 122)) || ((65 <=? c) && (c <=? 90)) || ((48 <=? c) && (c <=? 57)).

(** The block, which gets a terminator, and the host name. *)
Definition passwd_apply_hostname_from_raw (raw : option (list Z)) (g_hostname : list Z) : option (option (list Z) * list Z) :=
  match raw with
  | None => Some (raw, g_hostname)
  | Some p =>
      ok ← passwd_db_magic_ok raw;
      if negb ok then Some (raw, g_hostname) else
      p ← put p (HOSTNAME_OFFSET + 63) 0;
      c0 ← p !! HOSTNAME_OFFSET;
      if host_char c0 then
        h ← strncpy g_hostname (drop HOSTNAME_OFFSET p) 64;
        h ← put h 63 0;
        Some (Some p, h)
      else Some (Some p, g_hostname)
  end.

(** ** Trimming and the accounts of an installation *)

(** Trailing carriage returns, newlines and blanks are cut, [pl] characters long. *)
Fixpoint trim_loop (p : list Z) (pl : nat) : option (list Z) :=
  match pl with
  | O => Some p
  | S pl' =>
      c ← p !! pl';
      if (c =? 13) || (c =? 10) || (c =? 32) then p ← put p pl' 0; trim_loop p pl' else Some p
  end.

Definition trim_password (p : list Z) : option (list Z) := pl ← strlen p; trim_loop p pl.

(** What the dialogs leave: [g_install_root_pw], [g_install_user], [g_install_user_pw], and the
    answers of the dialog for a user. *)
Record answers := mk_answers { a_root_pw : list Z; a_user : list Z; a_user_pw : list Z; a_has_user : bool; a_wheel : bool }.

Definition trim_install_passwords (a : answers) : option answers :=
  r ← trim_password (a_root_pw a); u ← trim_password (a_user_pw a);
  Some (mk_answers r (a_user a) u (a_has_user a) (a_wheel a)).

(** The home directory of the new user. *)
Definition install_home (user : list Z) : option (list Z) :=
  p ← strncpy (replicate USR_HOME_LEN 0) (c_str "/home/" ++ [0]) (USR_HOME_LEN - 1);
  n ← strlen p;
  if (n <? USR_HOME_LEN - 1)%nat then
    q ← strncpy (drop n p) user (USR_HOME_LEN - n - 1); Some (take n p ++ q)
  else Some p.

(** [strncpy(dst, src, sz - 1); dst[sz - 1] = 0] *)
Definition copy_field (dst src : list Z) (sz : nat) : option (list Z) := d ← strncpy dst src (sz - 1); put d (sz - 1) 0.

(** The fields an existing account gets. *)
Definition renew_user (user home : list Z) (flags : Z) (u : asd_user_t) : option asd_user_t :=
  nm ← copy_field (u_name u) user USR_NAME_LEN; hm ← copy_field (u_home u) home USR_HOME_LEN;
  sh ← copy_field (u_shell u) (c_str "/bin/asdsh" ++ [0]) USR_SHELL_LEN;
  Some (mk_user (u_uid u) GID_USERS flags (u_pw_hash u) (u_pw_salt u) nm hm sh (u_groups u)).

Section clock.
Context (clock : nat -> Z).

(** The accounts, and the user and group of the shell ([g_shell_uid], [g_shell_gid]). *)
Definition apply_install_credentials (s : usr_st) (shell : Z * Z) (a : answers) : option (usr_st * (Z * Z)) :=
  c ← a_root_pw a !! 0%nat;
  s ← (if negb (c =? 0) then snd <$> usr_set_password clock s UID_ROOT (Some (a_root_pw a))
       else match usr_find_by_uid s UID_ROOT with Some i => Some (upd_user s i (set_pw 0 0)) | None => Some s end);
  n0 ← a_user a !! 0%nat;
  if negb (a_has_user a) || (n0 =? 0) then Some (s, shell) else
  home ← install_home (a_user a);
  let uflags := if a_wheel a then USR_FLAG_WHEEL else 0 in
  match usr_find_by_uid s UID_USER_MIN with
  | None =>
      '(r, s) ← usr_add clock s UID_USER_MIN GID_USERS (Some (a_user a)) (Some (a_user_pw a)) uflags (Some home) (Some (c_str "/bin/asdsh" ++ [0]));
      Some (s, if r =? 0 then (UID_USER_MIN, GID_USERS) else shell)
  | Some i =>
      u ← us_users s !! i; u ← renew_user (a_user a) home uflags u;
      s ← snd <$> usr_set_password clock (upd_user s i (fun _ => u)) UID_USER_MIN (Some (a_user_pw a));
      Some (s, shell)
  end.

End clock.

(** ** Disks *)

(** The globals: the disks, the accounts, [g_hostname] and [g_boot_passwd_loaded]. *)
Record db_t (W : Type) := mk_db { db_disk : W; db_usr : usr_st; db_host : list Z; db_loaded : Z }.
#[global] Arguments mk_db {W}.
#[global] Arguments db_disk {W}.
#[global] Arguments db_usr {W}.
#[global] Arguments db_host {W}.
#[global] Arguments db_loaded {W}.

Definition esp_guid : list Z := [0xC1; 0x2A; 0x73; 0x28; 0xF8; 0x1F; 0x11; 0xD2] ++ [0xBA; 0x4B; 0x00; 0xA0; 0xC9; 0x3E; 0xC9; 0x3B].

(** The loop over the entries of one sector.  The entries are at least 128 bytes, so a sector has at
    most four of them. *)
Fixpoint scan_entries (fuel : nat) (sec : list Z) (off entry_size : Z) : option (option (Z * Z)) :=
  match fuel with
  | O => None
  | S fuel' =>
      if u32 (off + entry_size) <=? 512 then
        let p := drop (Z.to_nat off) sec in
        c ← memcmp p esp_guid 16;
        if negb (c =? 0) then scan_entries fuel' sec (u32 (off + entry_size)) entry_size else
        first ← rd64le (drop 32 p); last ← rd64le (drop 40 p);
        if (first =? 0) || (last <? first) then scan_entries fuel' sec (u32 (off + entry_size)) entry_size
        else Some (Some (first, last))
      else Some None
  end.

Section disks.
Context {W : Type} (dev_read : block_dev_t -> W -> Z -> Z -> Z * list Z * W) (dev_write : block_dev_t -> W -> Z -> Z -> list Z -> Z * W).

(** The sectors [s], [s + 1], ... of the table, [n] of them. *)
Fixpoint scan_table (d : block_dev_t) (w : W) (entries_lba s : Z) (n : nat) (entry_size : Z) : option (option (Z * Z) * W) :=
  match n with
  | O => Some (None, w)
  | S n' =>
      let '(r, sec, w) := dev_read d w (u64 (entries_lba + s)) 1 in
      if negb (r =? 0) then Some (None, w)
      else found ← scan_entries 5 sec 0 entry_size;
        match found with Some _ => Some (found, w) | None => scan_table d w entries_lba (s + 1) n' entry_size end
  end.

(** The first and last sector of the partition; [None] is the return of -1. *)
Definition read_esp_range (d : block_dev_t) (w : W) : option (option (Z * Z) * W) :=
  let '(r, hdr, w) := dev_read d w 1 1 in
  if negb (r =? 0) then Some (None, w) else
  c ← memcmp hdr (c_str "EFI PART") 8;
  if negb (c =? 0) then Some (None, w) else
  entries_lba ← rd64le (drop 72 hdr); num_parts ← rd32le (drop 80 hdr); entry_size ← rd32le (drop 84 hdr);
  if (entry_size <? 128) || (num_parts =? 0) || (128 <? num_parts) then Some (None, w) else
  let parts_per_sec := 512 / entry_size in
  if parts_per_sec =? 0 then Some (None, w) else
  let need_secs := (num_parts + parts_per_sec - 1) / parts_per_sec in
  scan_table d w entries_lba 0 (Z.to_nat need_secs) entry_size.

(** The size of the file system on the source, as its first sector gives it. *)
Definition source_sectors (source : block_dev_t) (w : W) : option (Z * W) :=
  let '(r, bpb, w) := dev_read source w 0 1 in
  let dflt := bd_sector_count source in
  if negb (r =? 0) then Some (dflt, w) else
  b0 ← bpb !! 510%nat; b1 ← bpb !! 511%nat;
  if negb ((b0 =? 0x55) && (b1 =? 0xAA)) then Some (dflt, w) else
  bps ← rd16le (drop 11 bpb); total ← rd16le (drop 19 bpb);
  total ← (if total =? 0 then rd32le (drop 32 bpb) else Some total);
  Some (if (bps =? 512) && (0 <? total) then total else dflt, w).

(** The copy loop: [done] of [src_sectors] sectors are copied. *)
Fixpoint copy_loop (fuel : nat) (target source : block_dev_t) (w : W) (esp_first src_sectors done : Z) : option (Z * W) :=
  match fuel with
  | O => None
  | S fuel' =>
      if done <? src_sectors then
        let chunk := u32 (src_sectors - done) in
        let chunk := if COPY_CHUNK_SECS <? chunk then COPY_CHUNK_SECS else chunk in
        let '(r, sec, w) := dev_read source w done chunk in
        if negb (r =? 0) then Some (-1, w) else
        let '(r, w) := dev_write target w (u64 (esp_first + done)) chunk sec in
        if negb (r =? 0) then Some (-1, w) else
        copy_loop fuel' target source w esp_first src_sectors (u64 (done + chunk))
      else Some (0, w)
  end.

Definition install_boot_media (target source : option block_dev_t) (w : W) : option (Z * W) :=
  match target, source with
  | Some target, Some source =>
      if (bd_write target =? 0) || (bd_read target =? 0) || (bd_read source =? 0) then Some (-1, w) else
      '(esp, w) ← read_esp_range target w;
      match esp with
      | None => Some (-1, w)
      | Some (esp_first, esp_last) =>
          let esp_sectors := u64 (esp_last - esp_first + 1) in
          '(src, w) ← source_sectors source w;
          if src =? 0 then Some (-1, w) else
          let src := if bd_sector_count source <? src then bd_sector_count source else src in
          let src := if 262144 <? src then 262144 else src in
          let src := if esp_sectors <? src then esp_sectors else src in
          if bd_sector_count target <=? esp_first then Some (-1, w) else
          let phys_avail := u64 (bd_sector_count target - esp_first) in
          let src := if phys_avail <? src then phys_avail else src in
          copy_loop (S (Z.to_nat src)) target source w esp_first src 0
      end
  | _, _ => Some (-1, w)
  end.

(** ** Accounts on a disk *)

Definition set_disk (b : db_t W) (w : W) : db_t W := mk_db w (db_usr b) (db_host b) (db_loaded b).
Definition set_host (b : db_t W) (h : list Z) : db_t W := mk_db (db_disk b) (db_usr b) h (db_loaded b).
Definition set_usr (b : db_t W) (s : usr_st) : db_t W := mk_db (db_disk b) s (db_host b) (db_loaded b).
Definition set_loaded (b : db_t W) : db_t W := mk_db (db_disk b) (db_usr b) (db_host b) 1.

(** The contents of the block: the accounts, zeros, the host name.  [buf] is the static buffer. *)
Definition passwd_block (s : usr_st) (g_hostname buf : list Z) : option (option (list Z)) :=
  '(len, buf) ← usr_write_passwd s (Some buf) PASSWD_BYTES;
  match buf with
  | None => Some None
  | Some buf =>
      if len <? 0 then Some None else
      let len := Z.to_nat len in
      buf ← memset buf len 0 (PASSWD_BYTES - len);
      if (HOSTNAME_OFFSET <=? len)%nat then Some (Some buf) else
      hlen ← strlen g_hostname;
      let hlen := if (63 <? hlen)%nat then 63%nat else hlen in
      buf ← memcpy_obj buf HOSTNAME_OFFSET g_hostname hlen;
      buf ← put buf (HOSTNAME_OFFSET + hlen) 0;
      Some (Some buf)
  end.

(** The copy in the last sectors of the disk; a failure is not reported. *)
Definition write_tail (d : block_dev_t) (w : W) (buf : list Z) : W :=
  if PASSWD_LBA + PASSWD_SECS + 64 <=? bd_sector_count d
  then snd (dev_write d w (u64 (bd_sector_count d - PASSWD_SECS)) PASSWD_SECS buf) else w.

Definition persist_users (target : option block_dev_t) (b : db_t W) (buf : list Z) : option (Z * db_t W) :=
  match target with
  | None => Some (-1, b)
  | Some d =>
      if bd_write d =? 0 then Some (-1, b) else
      blk ← passwd_block (db_usr b) (db_host b) buf;
      match blk with
      | None => Some (-1, b)
      | Some buf =>
          let '(r, w) := dev_write d (db_disk b) PASSWD_LBA PASSWD_SECS buf in
          if negb (r =? 0) then Some (-1, set_disk b w) else
          let '(r, verify, w) := dev_read d w PASSWD_LBA PASSWD_SECS in
          if negb (r =? 0) then Some (-1, set_disk b w) else
          ok ← passwd_buf_has_root_account (Some verify) PASSWD_BYTES;
          if negb ok then Some (-1, set_disk b w) else Some (0, set_disk b (write_tail d w buf))
      end
  end.

Section start.
Context (clock : nat -> Z).

Definition passwd_load_slot (dev : option block_dev_t) (lba : Z) (b : db_t W) : option (Z * db_t W) :=
  match dev with
  | None => Some (-1, b)
  | Some d =>
      if bd_read d =? 0 then Some (-1, b) else
      let '(r, raw, w) := dev_read d (db_disk b) lba PASSWD_SECS in
      let b := set_disk b w in
      if negb (r =? 0) then Some (-1, b) else
      ok ← passwd_buf_has_root_account (Some raw) PASSWD_BYTES;
      if negb ok then Some (-1, b) else
      raw ← put raw (PASSWD_BYTES - 1) 0;
      '(n, s) ← usr_load_passwd clock (db_usr b) (Some raw) (PASSWD_BYTES - 1);
      let b := set_usr b s in
      if 0 <? n then '(_, h) ← passwd_apply_hostname_from_raw (Some raw) (db_host b); Some (n, set_host b h) else Some (n, b)
  end.

Definition boot_try_load_passwd_from_dev (dev : option block_dev_t) (b : db_t W) : option (Z * db_t W) :=
  match dev with
  | None => Some (0, b)
  | Some d =>
      '(n, b) ← passwd_load_slot dev PASSWD_LBA b;
      if 0 <? n then Some (1, set_loaded b)
      else if PASSWD_LBA + PASSWD_SECS + 64 <=? bd_sector_count d then
        '(n, b) ← passwd_load_slot dev (u64 (bd_sector_count d - PASSWD_SECS)) b;
        if 0 <? n then Some (1, set_loaded b) else Some (0, b)
      else Some (0, b)
  end.

Definition try_load_users_from_disk (dev : option block_dev_t) (b : db_t W) : option (Z * db_t W) :=
  '(r, b) ← boot_try_load_passwd_from_dev dev b; Some (if negb (r =? 0) then 1 else -1, b).

(** The device at index [i] of the table [t] of registered devices. *)
Definition nth_dev (t : list block_dev_t) (i : Z) : option block_dev_t := k ← block_get t i; t !! k.

(** The loops over the devices, from index [i] on, [n] of them. *)
Fixpoint load_any (t : list block_dev_t) (i : Z) (n : nat) (b : db_t W) : option (Z * db_t W) :=
  match n with
  | O => Some (0, b)
  | S n' => '(r, b) ← boot_try_load_passwd_from_dev (nth_dev t i) b; if negb (r =? 0) then Some (1, b) else load_any t (i + 1) n' b
  end.

Definition boot_early_load_passwd_db (t : list block_dev_t) (b : db_t W) : option (db_t W) :=
  snd <$> load_any t 0 (Z.to_nat (block_count t)) (mk_db (db_disk b) (db_usr b) (db_host b) 0).

Definition boot_reload_passwd_from_disk (t : list block_dev_t) (b : db_t W) : option (Z * db_t W) :=
  if negb (db_loaded b =? 0) then Some (1, b) else load_any t 0 (Z.to_nat (block_count t)) b.

Definition boot_apply_passwd_buffer (raw : option (list Z)) (len : nat) (b : db_t W) : option (db_t W) :=
  match raw with
  | None => Some b
  | Some _ =>
      if decide (len = 0%nat) then Some b else
      ok ← passwd_db_magic_ok raw;
      if negb ok then Some b else
      '(raw, h) ← passwd_apply_hostname_from_raw raw (db_host b);
      let b := set_host b h in
      '(n, s) ← usr_load_passwd clock (db_usr b) raw len;
      let b := set_usr b s in
      Some (if n <=? 0 then b else set_loaded b)
  end.

Definition try_load_hostname_from_disk (dev : option block_dev_t) (b : db_t W) : option (db_t W) :=
  match dev with
  | None => Some b
  | Some d =>
      if bd_read d =? 0 then Some b else
      let '(r, buf, w) := dev_read d (db_disk b) PASSWD_LBA PASSWD_SECS in
      let b := set_disk b w in
      if negb (r =? 0) then Some b else
      ok ← passwd_db_magic_ok (Some buf);
      if negb ok then Some b else
      buf ← put buf (HOSTNAME_OFFSET + 63) 0;
      c0 ← buf !! HOSTNAME_OFFSET;
      if host_char c0 then h ← strncpy (db_host b) (drop HOSTNAME_OFFSET buf) 64; Some (set_host b h) else Some b
  end.

Fixpoint hostname_loop (t : list block_dev_t) (i : Z) (n : nat) (b : db_t W) : option (db_t W) :=
  match n with
  | O => Some b
  | S n' =>
      b ← (match nth_dev t i with Some d => try_load_hostname_from_disk (Some d) b | None => Some b end);
      hostname_loop t (i + 1) n' b
  end.

Definition boot_load_hostname_from_disk (t : list block_dev_t) (b : db_t W) : option (db_t W) :=
  hostname_loop t 0 (Z.to_nat (block_count t)) b.

(** The index of the first device with accounts. *)
Fixpoint probe_loop (t : list block_dev_t) (i : Z) (n : nat) (w : W) : option (option nat * W) :=
  match n with
  | O => Some (None, w)
  | S n' =>
      match nth_dev t i with
      | None => probe_loop t (i + 1) n' w
      | Some d =>
          if bd_read d =? 0 then probe_loop t (i + 1) n' w else
          let '(r, probe, w) := dev_read d w PASSWD_LBA PASSWD_SECS in
          if negb (r =? 0) then probe_loop t (i + 1) n' w else
          ok ← passwd_buf_has_root_account (Some probe) PASSWD_BYTES;
          if (ok : bool) then Some (block_get t i, w) else probe_loop t (i + 1) n' w
      end
  end.

Definition find_passwd_disk (t : list block_dev_t) (w : W) : option (option nat * W) := probe_loop t 0 (Z.to_nat (block_count t)) w.

(** ** The steps of an installation *)

(** The accounts are set and saved; the result is that of [persist_users]. *)
Definition configure_users (target : option block_dev_t) (b : db_t W) (shell : Z * Z) (a : answers) (buf : list Z) : option (Z * db_t W * (Z * Z)) :=
  match target with
  | None => Some (-1, b, shell)
  | Some d =>
      if bd_write d =? 0 then Some (-1, b, shell) else
      a ← trim_install_passwords a;
      '(s, shell) ← apply_install_credentials clock (db_usr b) shell a;
      '(r, b) ← persist_users target (set_usr b s) buf;
      if negb (r =? 0) then Some (-1, b, shell) else Some (0, set_loaded b, shell)
  end.

(** The largest readable disk other than the target, from index [i] on. *)
Fixpoint source_loop (t : list block_dev_t) (target : nat) (i : Z) (n : nat) (source : option nat) (best_sz : Z) : option nat :=
  match n with
  | O => source
  | S n' =>
      match block_get t i with
      | None => source_loop t target (i + 1) n' source best_sz
      | Some k =>
          match t !! k with
          | None => source_loop t target (i + 1) n' source best_sz
          | Some d =>
              if (bd_read d =? 0) || bool_decide (k = target) then source_loop t target (i + 1) n' source best_sz
              else if best_sz <? bd_sector_count d then source_loop t target (i + 1) n' (Some k) (bd_sector_count d)
              else source_loop t target (i + 1) n' source best_sz
          end
      end
  end.

Definition find_source (t : list block_dev_t) (target : nat) : option nat := source_loop t target 0 (Z.to_nat (block_count t)) None 0.

(** What [installer_run] does with the disks after the confirmation; the directory tree it creates
    in the file system of the live system is not part of this state.  The result of
    [configure_users] is not used. *)
Definition install_steps (t : list block_dev_t) (target : nat) (b : db_t W) (cs : crc_st) (shell : Z * Z) (a : answers) (buf : list Z) : option (Z * db_t W) :=
  match find_source t target with
  | None => Some (-1, b)
  | Some source =>
      '(r, w, cs) ← gpt_init_single_disk dev_read dev_write (t !! target) (db_disk b) cs;
      let b := set_disk b w in
      if negb (r =? 0) then Some (-1, b) else
      '(r, w) ← install_boot_media (t !! target) (t !! source) (db_disk b);
      let b := set_disk b w in
      if negb (r =? 0) then Some (-1, b) else
      '(_, b, _) ← configure_users (t !! target) b shell a buf;
      Some (1, b)
  end.

End start.
End disks.
