(* ===== verification/InstallerSpec.v ===== *)
(** * Specification of the installer

    An installation on a blank disk writes the partition table, finds the EFI system partition in
    it and copies the boot medium there sector by sector.  The accounts that are saved on the disk
    are those the next start loads, together with the host name. *)

From Stdlib Require Import ZArith Lia.
From stdpp Require Import base strings sets gmap list.
From S2P Require Import Prelude KString Security SecuritySpec Usr UsrSpec UsrText Block Gpt GptSpec Installer.

Local Open Scope Z_scope.

(** ** The interface of a set of disks

    As for one disk, but up to 64 sectors are read and written at once, and a write changes no other disk. *)
Class Disks {W : Type} (inv : W -> Prop) (ok : block_dev_t -> Prop) (dev_read : block_dev_t -> W -> Z -> Z -> Z * list Z * W)
    (dev_write : block_dev_t -> W -> Z -> Z -> list Z -> Z * W) (sector : block_dev_t -> W -> Z -> list Z) : Prop := {
  disks_read d w lba n : inv w -> ok d -> 0 <= lba -> 0 < n <= 64 -> lba + n <= bd_sector_count d ->
    exists w', dev_read d w lba n = (0, concat (map (sector d w) (seqZ lba n)), w') /\ inv w' /\ forall e i, ok e -> sector e w' i = sector e w i;
  disks_write d w lba n data : inv w -> ok d -> 0 <= lba -> 0 < n <= 64 -> lba + n <= bd_sector_count d -> length data = Z.to_nat (n * 512) -> Forall byte data ->
    exists w', dev_write d w lba n data = (0, w') /\ inv w' /\
      (forall i, sector d w' i = if decide (lba <= i < lba + n) then slice (Z.to_nat (i - lba) * 512) 512 data else sector d w i) /\
      forall e i, ok e -> e <> d -> sector e w' i = sector e w i;
  disks_sector d w lba : inv w -> ok d -> 0 <= lba < bd_sector_count d -> length (sector d w lba) = 512%nat /\ Forall byte (sector d w lba);
}.

(** ** Little-endian reads *)

Lemma nth_byte p i : Forall byte p -> (i < length p)%nat -> exists b, p !! i = Some b /\ 0 <= b < 256.
Proof. intros Hb Hi. destruct (lookup_lt_is_Some_2 p i Hi) as [b Eb]. exists b. split; [done|]. by apply (Forall_lookup_1 _ _ _ _ Hb Eb). Qed.

Lemma rd16le_ok p : Forall byte p -> (2 <= length p)%nat -> rd16le p = Some (le_val (take 2 p)).
Proof.
  intros Hb Hl. destruct p as [|b0 [|b1 p]]; simpl in Hl; try lia. unfold rd16le. simpl. apply Forall_cons in Hb as [H0 _]. unfold byte in *.
  rewrite lor_shiftl by lia. rewrite ?take_0. cbn [le_val]. f_equal. lia.
Qed.

Lemma rd32le_ok p : Forall byte p -> (4 <= length p)%nat -> rd32le p = Some (le_val (take 4 p)).
Proof.
  intros Hb Hl. destruct p as [|b0 [|b1 [|b2 [|b3 p]]]]; simpl in Hl; try lia. unfold rd32le. cbn [lookup list_lookup mbind option_bind take le_val].
  rewrite !Forall_cons in Hb. unfold byte in Hb. destruct Hb as (? & ? & ? & ? & _). rewrite (lor_shiftl b0), (lor_shiftl _ b2), (lor_shiftl _ b3) by lia. rewrite ?take_0. cbn [le_val]. f_equal. lia.
Qed.

Lemma rd64le_ok p : Forall byte p -> (8 <= length p)%nat -> rd64le p = Some (le_val (take 8 p)).
Proof.
  intros Hb Hl. destruct p as [|b0 [|b1 [|b2 [|b3 [|b4 [|b5 [|b6 [|b7 p]]]]]]]]; simpl in Hl; try lia. unfold rd64le. cbn [lookup list_lookup mbind option_bind take le_val].
  rewrite !Forall_cons in Hb. unfold byte in Hb. destruct Hb as (? & ? & ? & ? & ? & ? & ? & ? & _).
  rewrite (lor_shiftl b0), (lor_shiftl _ b2), (lor_shiftl _ b3), (lor_shiftl _ b4), (lor_shiftl _ b5), (lor_shiftl _ b6), (lor_shiftl _ b7) by lia. rewrite ?take_0. cbn [le_val]. f_equal. lia.
Qed.

Lemma drop_rd {A} (p : list A) i n : take n (drop i p) = slice i n p.
Proof. done. Qed.

(** ** The first entry of the table *)

Definition esp_entry : list Z := Eval vm_compute in part_bytes (mk_gpt_part esp_type esp_type FIRST_USABLE esp_last 0 esp_name).

Lemma scan_esp rest : scan_entries 5 (esp_entry ++ rest) 0 128 = Some (Some (FIRST_USABLE, esp_last)).
Proof. reflexivity. Qed.

Lemma first_entries total : exists rest, slice 0 512 (parts_bytes (parts total)) = esp_entry ++ rest.
Proof.
  exists (take 384 (part_bytes (mk_gpt_part root_type root_type (esp_last + 1) (total - 34) 0 root_name) ++ concat (map part_bytes (replicate 126 zero_part)))).
  unfold parts_bytes, parts, slice. rewrite drop_0. cbn [map concat].
  change (part_bytes (mk_gpt_part esp_type esp_type FIRST_USABLE esp_last 0 esp_name)) with esp_entry. rewrite take_app_ge by (change (length esp_entry) with 128%nat; lia). done.
Qed.

(** ** Sectors of a buffer *)

Lemma length_sectors (ls : list (list Z)) : Forall (fun l => length l = 512%nat) ls -> length (concat ls) = (512 * length ls)%nat.
Proof. induction 1 as [|l ls Hl _ IH]; [done|]. cbn [concat length]. rewrite length_app, Hl, IH. lia. Qed.

Lemma slice_sector (ls : list (list Z)) k l : Forall (fun l => length l = 512%nat) ls -> ls !! k = Some l -> slice (k * 512) 512 (concat ls) = l.
Proof.
  intros H. revert k. induction H as [|x ls Hx _ IH]; intros k Hk; [done|]. unfold slice in *. cbn [concat]. destruct k as [|k]; simpl in Hk.
  - injection Hk as ->. change (0 * 512)%nat with 0%nat. rewrite drop_0. rewrite <- Hx at 1. apply take_app_length.
  - rewrite drop_app_ge by lia. replace (S k * 512 - length x)%nat with (k * 512)%nat by lia. by apply IH.
Qed.

(** ** One disk of the set *)

Section disks.
Context {W : Type} (inv : W -> Prop) (ok : block_dev_t -> Prop) dev_read dev_write (sector : block_dev_t -> W -> Z -> list Z) `{HD : !Disks inv ok dev_read dev_write sector}.

Lemma seqZ_1 lba : seqZ lba 1 = [lba].
Proof. rewrite seqZ_cons by lia. done. Qed.

Lemma one_disk d : ok d -> Disk inv d dev_read dev_write (sector d).
Proof.
  intros Hok. split.
  - intros w lba Hi Hl. destruct (disks_read d w lba 1) as (w' & Hr & Hi' & Hs); [done|done|lia|lia|lia|]. exists w'. rewrite Hr, seqZ_1. cbn [map concat]. rewrite app_nil_r. split; [done|]. split; [done|]. intros i. by apply Hs.
  - intros w lba data Hi Hl Hn Hby. destruct (disks_write d w lba 1 data) as (w' & Hr & Hi' & Hs & _); [done|done|lia|lia|lia|lia|done|]. exists w'. split; [done|]. split; [done|]. intros i. rewrite Hs.
    destruct (decide (i = lba)) as [->|Hne]; [rewrite decide_True by lia|by rewrite decide_False by lia]. rewrite Z.sub_diag. unfold slice. change (Z.to_nat 0 * 512)%nat with 0%nat. rewrite drop_0. by rewrite take_ge by lia.
  - intros w lba Hi Hl. by apply disks_sector.
Qed.

Lemma read_one d w lba : inv w -> ok d -> 0 <= lba < bd_sector_count d -> exists w', dev_read d w lba 1 = (0, sector d w lba, w') /\ inv w' /\ forall e i, ok e -> sector e w' i = sector e w i.
Proof.
  intros Hi Hok Hl. destruct (disks_read d w lba 1) as (w' & Hr & Hi' & Hs); [done|done|lia|lia|lia|]. exists w'. rewrite Hr, seqZ_1. cbn [map concat]. by rewrite app_nil_r.
Qed.

(** A table is found the way it was written. *)
Lemma read_esp_ok d w total old :
  inv w -> ok d -> bd_sector_count d = total -> MIN_SECTORS <= total < 2 ^ 64 -> laid_out total old (sector d w) ->
  exists w', read_esp_range dev_read d w = Some (Some (FIRST_USABLE, esp_last), w') /\ inv w' /\ forall e i, ok e -> sector e w' i = sector e w i.
Proof.
  intros Hi Hok Hd Ht [_ Hp _ Hent _]. unfold MIN_SECTORS in Ht. change ESP_SIZE_SECTORS with 1048576 in Ht.
  destruct (read_one d w 1 Hi Hok ltac:(lia)) as (w1 & Hr1 & I1 & S1). destruct (disks_sector d w 1 Hi Hok ltac:(lia)) as [Hl Hb].
  unfold read_esp_range. rewrite Hr1. cbn [negb Z.eqb]. destruct Hp as [_ Hsig _ _ _ _ _ _ He Hn Hz _].
  assert (Hm : memcmp (sector d w 1) (c_str "EFI PART") 8 = Some 0) by (rewrite <- (take_drop 8 (sector d w 1)), Hsig; reflexivity). rewrite Hm. cbn [mbind option_bind negb Z.eqb].
  rewrite rd64le_ok, !rd32le_ok by (by apply Forall_drop || (rewrite length_drop; lia)). rewrite !drop_rd, He, Hn, Hz. cbn [mbind option_bind].
  change ((128 <? 128) || (128 =? 0) || (128 <? 128)) with false. cbv iota zeta. change (512 / 128 =? 0) with false. cbv iota.
  change (Z.to_nat ((128 + 512 / 128 - 1) / (512 / 128))) with 32%nat. cbn [scan_table]. change (u64 (2 + 0)) with 2.
  destruct (read_one d w1 2 I1 Hok ltac:(lia)) as (w2 & Hr2 & I2 & S2). rewrite Hr2. cbn [negb Z.eqb]. destruct (Hent 0%nat ltac:(lia)) as [E0 _].
  rewrite (S1 d 2 Hok). change (2 + Z.of_nat 0) with 2 in E0. rewrite E0. destruct (first_entries total) as [rest Hrest]. change (0 * 512)%nat with 0%nat. rewrite Hrest, scan_esp. cbn [mbind option_bind].
  exists w2. split; [done|]. split; [done|]. intros e i He'. by rewrite S2, S1.
Qed.

(** ** The size of the copy *)

(** The size the first sector of a FAT volume gives, the size of the disk without one. *)
Definition volume_size (count : Z) (sec : list Z) : Z :=
  let small := le_val (slice 19 2 sec) in
  let total := if decide (small = 0) then le_val (slice 32 4 sec) else small in
  if decide (slice 510 2 sec = [0x55; 0xAA] /\ le_val (slice 11 2 sec) = 512 /\ 0 < total) then total else count.

Lemma source_sectors_ok d w :
  inv w -> ok d -> 0 < bd_sector_count d ->
  exists w', source_sectors dev_read d w = Some (volume_size (bd_sector_count d) (sector d w 0), w') /\ inv w' /\ forall e i, ok e -> sector e w' i = sector e w i.
Proof.
  intros Hi Hok Hc. destruct (read_one d w 0 Hi Hok ltac:(lia)) as (w1 & Hr & I1 & S1). destruct (disks_sector d w 0 Hi Hok ltac:(lia)) as [Hl Hb]. exists w1. split; [|done].
  unfold source_sectors. rewrite Hr. cbn [negb Z.eqb]. set (sec := sector d w 0) in *. clearbody sec.
  destruct (nth_byte sec 510 Hb ltac:(lia)) as (b0 & E0 & R0). destruct (nth_byte sec 511 Hb ltac:(lia)) as (b1 & E1 & R1). rewrite E0, E1. cbn [mbind option_bind].
  assert (Hsig : slice 510 2 sec = [b0; b1]) by (by rewrite (slice_S _ _ _ _ E0), (slice_S _ _ _ _ E1)). unfold volume_size. rewrite Hsig.
  rewrite !rd16le_ok, rd32le_ok by (by apply Forall_drop || (rewrite length_drop; lia)). rewrite !drop_rd. cbn [mbind option_bind].
  destruct (Z.eqb_spec b0 0x55) as [->|Hn]; [|rewrite decide_False; [done|intros [? _]; congruence]].
  destruct (Z.eqb_spec b1 0xAA) as [->|Hn]; [|rewrite decide_False; [done|intros [? _]; congruence]]. cbn [andb negb].
  destruct (Z.eqb_spec (le_val (slice 19 2 sec)) 0) as [Hz|Hz]; [rewrite (decide_True (P := le_val _ = 0)) by done|rewrite (decide_False (P := le_val _ = 0)) by done]; cbn [mbind option_bind];
    (destruct (Z.eqb_spec (le_val (slice 11 2 sec)) 512); [|rewrite decide_False; [done|naive_solver]]); cbn [andb];
    match goal with |- context [0 <? ?x] => destruct (Z.ltb_spec 0 x) end; [rewrite decide_True by done|rewrite decide_False by lia|rewrite decide_True by done|rewrite decide_False by lia]; done.
Qed.

(** ** The copy *)

Lemma sectors_ok d w lba n : inv w -> ok d -> 0 <= lba -> lba + n <= bd_sector_count d -> Forall (fun l => length l = 512%nat) (map (sector d w) (seqZ lba n)).
Proof. intros Hw Hok H0 Hn. apply Forall_fmap, Forall_forall. intros i Hi. apply elem_of_seqZ in Hi. apply disks_sector; [done|done|lia]. Qed.

Lemma sectors_bytes d w lba n : inv w -> ok d -> 0 <= lba -> lba + n <= bd_sector_count d -> Forall byte (concat (map (sector d w) (seqZ lba n))).
Proof. intros Hw Hok H0 Hn. apply Forall_concat, Forall_fmap, Forall_forall. intros i Hi. apply elem_of_seqZ in Hi. apply disks_sector; [done|done|lia]. Qed.

Lemma nth_sector d w lba n k : 0 <= k < n -> map (sector d w) (seqZ lba n) !! Z.to_nat k = Some (sector d w (lba + k)).
Proof. intros Hk. apply list_lookup_fmap_Some. exists (lba + k). split; [done|]. rewrite lookup_seqZ. lia. Qed.

Lemma copy_loop_ok target source first src fuel w done :
  inv w -> ok target -> ok source -> target <> source -> 0 <= first -> first + src <= bd_sector_count target < 2 ^ 64 -> src <= bd_sector_count source -> src < 2 ^ 32 ->
  0 <= done <= src -> src - done < Z.of_nat fuel ->
  exists w', copy_loop dev_read dev_write fuel target source w first src done = Some (0, w') /\ inv w' /\
    (forall i, sector target w' i = if decide (first + done <= i < first + src) then sector source w (i - first) else sector target w i) /\
    forall e i, ok e -> e <> target -> sector e w' i = sector e w i.
Proof.
  intros Hw0 Ht Hs Hne Hf Htc Hsc H32. revert w done Hw0. induction fuel as [|fuel IH]; intros w done Hw0 Hd Hfuel; [lia|]. cbn [copy_loop].
  destruct (Z.ltb_spec done src) as [Hlt|Hge]; [|exists w; split; [reflexivity|]; split; [exact Hw0|]; split; [|reflexivity]; intros i; by rewrite decide_False by lia].
  rewrite u32_small by lia. set (chunk := if COPY_CHUNK_SECS <? src - done then COPY_CHUNK_SECS else src - done).
  assert (Hc : 0 < chunk <= src - done /\ chunk <= 64) by (unfold chunk, COPY_CHUNK_SECS; destruct (Z.ltb_spec 64 (src - done)); lia). clearbody chunk.
  destruct (disks_read source w done chunk) as (w1 & Hr & I1 & S1); [exact Hw0|exact Hs|lia|lia|lia|]. rewrite Hr. cbn [negb Z.eqb]. rewrite (u64_small (first + done)) by lia.
  pose proof (sectors_ok source w done chunk Hw0 Hs ltac:(lia) ltac:(lia)) as Hl.
  destruct (disks_write target w1 (first + done) chunk (concat (map (sector source w) (seqZ done chunk)))) as (w2 & Hw & I2 & S2 & O2);
    [exact I1|exact Ht|lia|lia|lia|rewrite length_sectors, length_map, length_seqZ by exact Hl; lia|apply sectors_bytes; [exact Hw0|exact Hs|lia|lia]|].
  rewrite Hw. cbn [negb Z.eqb]. rewrite u64_small by lia. destruct (IH w2 (done + chunk)) as (w3 & H3 & I3 & S3 & O3); [exact I2|lia|lia|]. rewrite H3. exists w3. split; [reflexivity|]. split; [exact I3|]. split.
  - intros i. rewrite S3, S2. destruct (decide (first + (done + chunk) <= i < first + src)) as [Hi|Hi].
    + rewrite decide_True by lia. rewrite O2, S1 by (exact Hs || by apply not_eq_sym). reflexivity.
    + destruct (decide (first + done <= i < first + done + chunk)) as [Hj|Hj]; [rewrite decide_True by lia|rewrite decide_False by lia; by apply S1].
      rewrite (slice_sector _ _ (sector source w (done + (i - (first + done)))) Hl); [f_equal; lia|]. apply nth_sector. lia.
  - intros e i He Hn. rewrite O3, O2, S1 by assumption. reflexivity.
Qed.

(** The number of sectors the installer copies to a fresh disk. *)
Definition copied (source : block_dev_t) (w : W) : Z :=
  Z.min 262144 (Z.min (bd_sector_count source) (volume_size (bd_sector_count source) (sector source w 0))).

Lemma volume_size_pos count sec : 0 < count -> 0 < volume_size count sec.
Proof. intros H. unfold volume_size. destruct (decide (_ /\ _)) as [(_ & _ & ?)|]; [done|lia]. Qed.

Lemma install_media_ok target source w old :
  inv w -> ok target -> ok source -> target <> source -> bd_read target <> 0 -> bd_write target <> 0 -> bd_read source <> 0 ->
  MIN_SECTORS <= bd_sector_count target < 2 ^ 64 -> 0 < bd_sector_count source -> laid_out (bd_sector_count target) old (sector target w) ->
  exists w', install_boot_media dev_read dev_write (Some target) (Some source) w = Some (0, w') /\ inv w' /\
    (forall i, sector target w' i = if decide (FIRST_USABLE <= i < FIRST_USABLE + copied source w) then sector source w (i - FIRST_USABLE) else sector target w i) /\
    forall e i, ok e -> e <> target -> sector e w' i = sector e w i.
Proof.
  intros Hw0 Ht Hs Hne Hr Hw Hrs Hc Hsc Hlay. unfold install_boot_media. rewrite (proj2 (Z.eqb_neq _ _) Hw), (proj2 (Z.eqb_neq _ _) Hr), (proj2 (Z.eqb_neq _ _) Hrs). cbn [orb].
  destruct (read_esp_ok target w _ old Hw0 Ht eq_refl Hc Hlay) as (w1 & -> & I1 & S1). cbn [mbind option_bind].
  destruct (source_sectors_ok source w1 I1 Hs Hsc) as (w2 & -> & I2 & S2). cbn [mbind option_bind]. rewrite (S1 source 0 Hs).
  unfold MIN_SECTORS in Hc. change ESP_SIZE_SECTORS with 1048576 in Hc. unfold copied. pose proof (volume_size_pos (bd_sector_count source) (sector source w 0) Hsc) as Hv.
  set (v := volume_size _ _) in *. clearbody v. rewrite (proj2 (Z.eqb_neq v 0)) by lia. change (u64 (esp_last - FIRST_USABLE + 1)) with 1048576. change FIRST_USABLE with 2048.
  cbv zeta. rewrite (proj2 (Z.leb_gt (bd_sector_count target) 2048)) by lia. rewrite (u64_small (bd_sector_count target - 2048)) by lia.
  set (n := Z.min 262144 (Z.min (bd_sector_count source) v)).
  assert (Hn : (if 262144 <? (if bd_sector_count source <? v then bd_sector_count source else v) then 262144 else if bd_sector_count source <? v then bd_sector_count source else v) = n).
  { unfold n. destruct (Z.ltb_spec (bd_sector_count source) v); match goal with |- context [262144 <? ?x] => destruct (Z.ltb_spec 262144 x) end; lia. }
  rewrite Hn. assert (0 < n <= 262144 /\ n <= bd_sector_count source) by (unfold n; lia). clearbody n. rewrite (proj2 (Z.ltb_ge 1048576 n)) by lia.
  rewrite (proj2 (Z.ltb_ge (bd_sector_count target - 2048) n)) by lia.
  destruct (copy_loop_ok target source 2048 n (S (Z.to_nat n)) w2 0) as (w3 & H3 & I3 & S3 & O3); [done|done|done|done|lia|lia|lia|lia|lia|lia|].
  exists w3. split; [done|]. split; [done|]. split; [|intros e i He Hn'; by rewrite O3, S2, S1]. intros i. rewrite S3, Z.add_0_r. case_decide; by rewrite S2, S1.
Qed.

(** ** The partition table beside other disks *)

(** The sectors of [d], and at the negative indices those of [e]. *)
Definition beside (d e : block_dev_t) (w : W) (i : Z) : list Z := if decide (0 <= i) then sector d w i else sector e w (-1 - i).

Lemma beside_disk d e : ok d -> ok e -> e <> d -> Disk inv d dev_read dev_write (beside d e).
Proof.
  intros Hd He Hne. split.
  - intros w lba Hw0 Hl. destruct (read_one d w lba Hw0 Hd Hl) as (w' & Hr & Hi' & Hs). exists w'. unfold beside. rewrite decide_True by lia. split; [done|]. split; [done|]. intros i. case_decide; by apply Hs.
  - intros w lba data Hw0 Hl Hn Hby. destruct (disks_write d w lba 1 data) as (w' & Hr & Hi' & Hs & Ho); [done|done|lia|lia|lia|lia|done|]. exists w'. split; [done|]. split; [done|]. intros i. unfold beside.
    destruct (decide (0 <= i)); [|rewrite decide_False by lia; by apply Ho]. rewrite Hs.
    destruct (decide (i = lba)) as [->|Hi]; [rewrite decide_True by lia|by rewrite decide_False by lia]. rewrite Z.sub_diag. unfold slice. change (Z.to_nat 0 * 512)%nat with 0%nat. rewrite drop_0. by rewrite take_ge by lia.
  - intros w lba Hw0 Hl. unfold beside. rewrite decide_True by lia. by apply disks_sector.
Qed.

Lemma gpt_blank_ok d w cs :
  inv w -> ok d -> bd_read d <> 0 -> bd_write d <> 0 -> bd_sector_size d = 512 -> MIN_SECTORS <= bd_sector_count d < 2 ^ 64 -> crc_inv cs -> boot_sig (sector d w 0) <> 0xAA55 ->
  exists w' cs', gpt_init_single_disk dev_read dev_write (Some d) w cs = Some (0, w', cs') /\ crc_inv cs' /\ inv w' /\ laid_out (bd_sector_count d) (sector d w) (sector d w') /\
    forall e i, ok e -> e <> d -> 0 <= i -> sector e w' i = sector e w i.
Proof.
  intros Hw0 Hok Hr Hw Hs Hn Hcs Hsig. pose proof (one_disk d Hok) as H1. destruct (init_blank inv d dev_read dev_write (sector d) w cs Hw0 Hr Hw Hs Hn Hcs Hsig) as (w' & cs' & He & Hc & Hi & Hl).
  exists w', cs'. split; [done|]. split; [done|]. split; [done|]. split; [done|]. intros e i He' Hne Hi0. pose proof (beside_disk d e Hok He' Hne) as H2.
  destruct (init_blank inv d dev_read dev_write (beside d e) w cs Hw0 Hr Hw Hs Hn Hcs Hsig) as (w2 & cs2 & E2 & _ & _ & [_ _ _ _ Hrest]). assert (w2 = w') as -> by congruence.
  unfold MIN_SECTORS in Hn. change ESP_SIZE_SECTORS with 1048576 in Hn. specialize (Hrest (-1 - i) ltac:(lia) ltac:(lia)). unfold beside in Hrest. rewrite !decide_False in Hrest by lia. by replace (-1 - (-1 - i)) with i in Hrest by lia.
Qed.

End disks.

(** ** The source of the copy *)

(** A readable device other than the target, at index [i] of the enumeration. *)
Definition candidate (t : list block_dev_t) (target : nat) (i : Z) (k : nat) (d : block_dev_t) : Prop :=
  block_get t i = Some k /\ t !! k = Some d /\ bd_read d <> 0 /\ k <> target.

(** The largest candidate below index [i], or none with a sector. *)
Definition best_of (t : list block_dev_t) (target : nat) (i : Z) (source : option nat) (best : Z) : Prop :=
  0 <= best /\ (forall j k d, 0 <= j < i -> candidate t target j k d -> bd_sector_count d <= best) /\
  match source with None => best = 0 | Some k => exists j d, 0 <= j < i /\ candidate t target j k d /\ bd_sector_count d = best /\ 0 < best end.

Lemma source_loop_ok t target n i source best :
  0 <= i -> best_of t target i source best -> exists best', best_of t target (i + Z.of_nat n) (source_loop t target i n source best) best'.
Proof.
  revert i source best. induction n as [|n IH]; intros i source best Hi Hb; cbn [source_loop]; [exists best; by rewrite Z.add_0_r|].
  replace (i + Z.of_nat (S n)) with (i + 1 + Z.of_nat n) by lia. destruct Hb as (H0 & Hmax & Hsrc).
  assert (Hkeep : (forall k d, candidate t target i k d -> bd_sector_count d <= best) -> best_of t target (i + 1) source best).
  { intros Hc. split; [done|]. split; [|destruct source; [|done]; destruct Hsrc as (j & d & ? & ?); exists j, d; split; [lia|done]].
    intros j k d Hj Hk. destruct (decide (j = i)) as [->|]; [by eapply Hc|by apply (Hmax j k d); [lia|]]. }
  destruct (block_get t i) as [k|] eqn:Hk; [|apply IH; [lia|apply Hkeep; intros k d [? _]; congruence]].
  destruct (t !! k) as [d|] eqn:Hd; [|apply IH; [lia|apply Hkeep; intros k' d (? & ? & _); congruence]].
  destruct ((bd_read d =? 0) || bool_decide (k = target)) eqn:Hskip.
  { apply IH; [lia|]. apply Hkeep. intros k' d' (? & ? & ? & ?). simplify_eq. apply orb_true_iff in Hskip as [Hz|Hz]; [apply Z.eqb_eq in Hz; done|by apply bool_decide_eq_true in Hz]. }
  apply orb_false_iff in Hskip as [Hz Ht]. apply Z.eqb_neq in Hz. apply bool_decide_eq_false in Ht. destruct (Z.ltb_spec best (bd_sector_count d)) as [Hlt|Hge]; (apply IH; [lia|]).
  - split; [lia|]. split; [|exists i, d; unfold candidate; split; [lia|]; split; [done|]; split; [done|lia]]. intros j k' d' Hj Hk'. destruct (decide (j = i)) as [->|]; [destruct Hk' as (? & ? & _); simplify_eq; lia|]. transitivity best; [by apply (Hmax j k' d'); [lia|]|lia].
  - apply Hkeep. intros k' d' (? & ? & _). simplify_eq. lia.
Qed.

(** The source is the largest readable device that is not the target; there is none only if no
    other device has a sector. *)
Lemma find_source_ok t target : exists best, best_of t target (block_count t) (find_source t target) best.
Proof.
  assert (Hn : 0 <= block_count t) by (unfold block_count; rewrite count_loop_ok; lia).
  destruct (source_loop_ok t target (Z.to_nat (block_count t)) 0 None 0) as [best Hb]; [lia|split; [lia|]; split; [lia|done]|]. exists best. by rewrite Z2Nat.id, Z.add_0_l in Hb by lia.
Qed.

(** ** Disks in memory, told apart by their context *)

Notation mems := (gmap (Z * Z) (list Z)).

Definition mems_sector (d : block_dev_t) (w : mems) (lba : Z) : list Z :=
  match w !! (bd_ctx d, lba) with Some data => if decide (length data = 512%nat /\ Forall byte data) then data else replicate 512 0 | None => replicate 512 0 end.

Definition mems_read (d : block_dev_t) (w : mems) (lba n : Z) : Z * list Z * mems :=
  if decide (0 <= lba /\ lba + n <= bd_sector_count d) then (0, concat (map (mems_sector d w) (seqZ lba n)), w) else (-1, [], w).

Fixpoint mems_put (d : block_dev_t) (w : mems) (lba : Z) (n : nat) (data : list Z) : mems :=
  match n with O => w | S n' => mems_put d (<[(bd_ctx d, lba) := take 512 data]> w) (lba + 1) n' (drop 512 data) end.

Definition mems_write (d : block_dev_t) (w : mems) (lba n : Z) (data : list Z) : Z * mems :=
  if decide (0 <= lba /\ lba + n <= bd_sector_count d) then (0, mems_put d w lba (Z.to_nat n) data) else (-1, w).

Lemma mems_put_ok d w lba n data e i :
  length data = (n * 512)%nat -> Forall byte data ->
  mems_sector e (mems_put d w lba n data) i = if decide (bd_ctx e = bd_ctx d /\ lba <= i < lba + Z.of_nat n) then slice (Z.to_nat (i - lba) * 512) 512 data else mems_sector e w i.
Proof.
  revert w lba data. induction n as [|n IH]; intros w lba data Hl Hb; cbn [mems_put]; [by rewrite decide_False by lia|].
  rewrite IH; [|rewrite length_drop; lia|by apply Forall_drop]. destruct (decide (bd_ctx e = bd_ctx d /\ lba + 1 <= i < lba + 1 + Z.of_nat n)) as [[He Hi]|Hn].
  - rewrite decide_True by (split; [done|lia]). unfold slice. rewrite drop_drop. do 2 f_equal. lia.
  - unfold mems_sector. destruct (decide (bd_ctx e = bd_ctx d /\ i = lba)) as [[He ->]|Hne].
    + rewrite decide_True by (split; [done|lia]). rewrite He, lookup_insert_eq, Z.sub_diag. change (Z.to_nat 0 * 512)%nat with 0%nat. unfold slice. rewrite drop_0.
      rewrite decide_True; [done|]. split; [rewrite length_take; lia|by apply Forall_take].
    + rewrite (decide_False (P := bd_ctx e = bd_ctx d /\ lba <= i < _)) by (intros [? ?]; destruct (decide (i = lba)); [by apply Hne|apply Hn; split; [done|lia]]).
      rewrite lookup_insert_ne; [done|]. intros Heq. apply Hne. by injection Heq as -> ->.
Qed.

Lemma mems_disks (ok : block_dev_t -> Prop) : (forall d e, ok d -> ok e -> bd_ctx d = bd_ctx e -> d = e) -> Disks (fun _ => True) ok mems_read mems_write mems_sector.
Proof.
  intros Hinj. split.
  - intros d w lba n _ Hok H0 Hn Hc. exists w. unfold mems_read. by rewrite decide_True by lia.
  - intros d w lba n data _ Hok H0 Hn Hc Hl Hb. eexists. unfold mems_write. rewrite decide_True by lia. split; [done|]. split; [done|]. split.
    + intros i. rewrite mems_put_ok by (lia || done). destruct (decide (lba <= i < lba + n)); [rewrite decide_True by (split; [done|lia])|rewrite decide_False by lia]; done.
    + intros e i He Hne. rewrite mems_put_ok by (lia || done). rewrite decide_False; [done|]. intros [Hctx _]. apply Hne. by apply Hinj.
  - intros d w lba _ Hok Hl. unfold mems_sector. assert (Hz : length (replicate 512 0) = 512%nat /\ Forall byte (replicate 512 0)) by (split; [done|by apply Forall_replicate]).
    destruct (w !! _); [|exact Hz]. by destruct (decide _).
Qed.

(** ** Properties *)

(** C6: on a blank disk the two disk steps of an installation succeed: the partition table is laid
    out, the EFI system partition is found in it, and the sectors of the boot medium, as many as its
    file system has, up to the size of the medium and 262144, are in the first sectors of that
    partition.  Every other sector of the target is as the partition table writer left it, both
    copies of the table included, and no other disk changes. *)
Theorem install_disk_ok {W} inv ok dev_read dev_write (sector : block_dev_t -> W -> Z -> list Z) target source w cs :
  Disks inv ok dev_read dev_write sector -> inv w -> ok target -> ok source -> target <> source -> bd_read target <> 0 -> bd_write target <> 0 -> bd_read source <> 0 ->
  bd_sector_size target = 512 -> MIN_SECTORS <= bd_sector_count target < 2 ^ 64 -> 0 < bd_sector_count source -> crc_inv cs -> boot_sig (sector target w 0) <> 0xAA55 ->
  exists w1 cs1 w2, gpt_init_single_disk dev_read dev_write (Some target) w cs = Some (0, w1, cs1) /\
    install_boot_media dev_read dev_write (Some target) (Some source) w1 = Some (0, w2) /\ inv w2 /\ let n := copied sector source w in
    0 < n /\ FIRST_USABLE + n <= esp_last + 1 /\ (forall i, 0 <= i < n -> sector target w2 (FIRST_USABLE + i) = sector source w i) /\
    (forall i, 34 <= i -> ~ FIRST_USABLE <= i < FIRST_USABLE + n -> ~ bd_sector_count target - 33 <= i < bd_sector_count target -> sector target w2 i = sector target w i) /\
    laid_out (bd_sector_count target) (sector target w2) (sector target w2) /\ forall e i, ok e -> e <> target -> 0 <= i -> sector e w2 i = sector e w i.
Proof.
  intros HD Hw0 Ht Hs Hne Hr Hw Hrs Hsz Hn Hc Hcs Hsig. destruct (gpt_blank_ok inv ok dev_read dev_write sector target w cs Hw0 Ht Hr Hw Hsz Hn Hcs Hsig) as (w1 & cs1 & H1 & _ & I1 & L1 & O1).
  destruct (install_media_ok inv ok dev_read dev_write sector target source w1 (sector target w) I1 Ht Hs Hne Hr Hw Hrs Hn Hc L1) as (w2 & H2 & I2 & S2 & O2).
  exists w1, cs1, w2. split; [done|]. split; [done|]. split; [done|]. assert (Hcop : copied sector source w1 = copied sector source w) by (unfold copied; by rewrite O1 by (lia || done)). rewrite Hcop in S2.
  pose proof (volume_size_pos (bd_sector_count source) (sector source w 0) Hc) as Hv. assert (Hn0 : 0 < copied sector source w <= 262144) by (unfold copied; lia).
  set (n := copied sector source w) in *. clearbody n. change FIRST_USABLE with 2048 in *. change esp_last with 1050623. cbv zeta. unfold MIN_SECTORS in Hn. change ESP_SIZE_SECTORS with 1048576 in Hn. destruct L1 as [M1 M2 M3 M4 M5].
  split_and!; [lia|lia| | | |].
  - intros i Hi. rewrite S2, decide_True, O1 by (lia || done). f_equal. lia.
  - intros i Hi Hi1 Hi2. rewrite S2, decide_False by lia. apply M5; lia.
  - constructor; [rewrite S2, decide_False by lia; done..| |done]. intros i Hi. rewrite !S2, !decide_False by lia. by apply M4.
  - intros e i He Hne' Hi. by rewrite O2, O1.
Qed.

(** A boot medium of four sectors. *)
Definition demo_media : block_dev_t := mk_block_dev (c_str "ram0" ++ replicate 28 0) 512 4 1 1 2.
Definition demo_disks (d : block_dev_t) : Prop := d = demo_dev \/ d = demo_media.
Definition demo_image : mems := {[ (1, 2) := replicate 512 7 ]}.

Lemma demo_disks_ok : Disks (fun _ => True) demo_disks mems_read mems_write mems_sector.
Proof. apply mems_disks. by intros d e [->| ->] [->| ->]. Qed.

Lemma install_disk_ok_witness : exists w1 cs1 w2, gpt_init_single_disk mems_read mems_write (Some demo_dev) demo_image demo_crc = Some (0, w1, cs1) /\
  install_boot_media mems_read mems_write (Some demo_dev) (Some demo_media) w1 = Some (0, w2) /\ mems_sector demo_dev w2 2050 = replicate 512 7.
Proof.
  destruct (install_disk_ok (fun _ => True) demo_disks mems_read mems_write mems_sector demo_dev demo_media demo_image demo_crc) as (w1 & cs1 & w2 & H1 & H2 & _ & _ & _ & H3 & _);
    [exact demo_disks_ok|exact I|by left|by right|discriminate|discriminate|discriminate|discriminate|reflexivity|vm_compute; split; [discriminate|reflexivity]|reflexivity|discriminate|vm_compute; discriminate|].
  exists w1, cs1, w2. split; [exact H1|]. split; [exact H2|]. change 2050 with (FIRST_USABLE + 2). rewrite (H3 2) by (vm_compute; split; [discriminate|reflexivity]). vm_compute. reflexivity.
Defined.
