(* ===== verification/InstallerUsr.v ===== *)
(** * The account block of the installer

    What [persist_users] puts on a disk, and that the next start finds it there. *)

From Stdlib Require Import ZArith Lia.
From stdpp Require Import base strings sets gmap list.
From S2P Require Import Prelude KString Security SecuritySpec Usr UsrSpec UsrText Block Gpt GptSpec Installer InstallerSpec.

Local Open Scope Z_scope.

Ltac bytes4k := unfold HOSTNAME_OFFSET, PASSWD_BYTES in *.

(** ** The block *)

(** The accounts, zeros up to the host name, the host name and zeros. *)
Definition block_of (us : list asd_user_t) (host : list Z) : list Z :=
  passwd_text us ++ replicate (HOSTNAME_OFFSET - length (passwd_text us)) 0 ++ host ++ replicate (64 - length host) 0.

Definition fits (us : list asd_user_t) (host : list Z) : Prop := (length (passwd_text us) < HOSTNAME_OFFSET)%nat /\ (length host <= 63)%nat.

Lemma length_block us host : fits us host -> length (block_of us host) = PASSWD_BYTES.
Proof. intros [H1 H2]. unfold block_of. rewrite !length_app, !length_replicate. bytes4k. lia. Qed.

Lemma passwd_block_ok s g_hostname host buf :
  usr_inv s -> cstring g_hostname host -> fits (users s) host -> length buf = PASSWD_BYTES ->
  passwd_block s g_hostname buf = Some (Some (block_of (users s) host)).
Proof.
  intros Hinv Hhost [Hf1 Hf2] Hb. unfold passwd_block. rewrite write_passwd_ok; [|done|rewrite Hb; bytes4k; lia|bytes4k; lia]. cbn [mbind option_bind].
  set (t := passwd_text (users s)) in *. destruct (Z.ltb_spec (Z.of_nat (length t)) 0); [lia|]. rewrite Nat2Z.id.
  rewrite memset_spec by (rewrite length_app; cbn [length]; rewrite length_drop; bytes4k; lia). cbn [mbind option_bind]. change (u8 0) with 0.
  rewrite inserts_at by (rewrite length_replicate; cbn [length]; rewrite length_drop; bytes4k; lia).
  rewrite drop_ge by (rewrite length_replicate; cbn [length]; rewrite length_drop; bytes4k; lia). rewrite app_nil_r.
  rewrite (proj2 (Nat.leb_gt _ _)) by done. rewrite (strlen_cstring _ _ Hhost). cbn [mbind option_bind]. rewrite (proj2 (Nat.ltb_ge _ _)) by done.
  replace (PASSWD_BYTES - length t)%nat with (HOSTNAME_OFFSET - length t + 64)%nat by (bytes4k; lia). rewrite replicate_add, app_assoc.
  set (pre := t ++ replicate (HOSTNAME_OFFSET - length t) 0). assert (Hp : length pre = HOSTNAME_OFFSET) by (unfold pre; rewrite length_app, length_replicate; lia).
  destruct Hhost as (tl & -> & _). rewrite memcpy_obj_spec by (rewrite !length_app, ?length_replicate, ?Hp; lia). cbn [mbind option_bind]. rewrite take_app_length, <- Hp.
  rewrite inserts_at by (rewrite length_replicate; lia). rewrite drop_replicate. cbn [mbind option_bind]. rewrite <- length_app, app_assoc.
  destruct (64 - length host)%nat as [|m] eqn:Hm; [lia|]. cbn [replicate]. rewrite put_at. cbn [mbind option_bind]. unfold block_of. fold t. rewrite Hm. unfold pre. by rewrite <- !app_assoc.
Qed.

(** ** Its bytes *)

Lemma solid_byte l : Forall solid l -> Forall byte l.
Proof. intros H. eapply Forall_impl; [exact (solid_bytes l H)|]. cbv beta. unfold byte. lia. Qed.

Lemma line_bytes l : line_fits l -> Forall byte (line_text l).
Proof.
  intros [Hf _ _]. rewrite !Forall_cons in Hf. destruct Hf as (S1 & S2 & S3 & S4 & S5 & S6 & S7 & S8 & _). unfold line_text.
  rewrite !Forall_app. split_and!; first [by apply solid_byte|by apply all_bytes_ok].
Qed.

Lemma passwd_bytes us : Forall user_ok us -> Forall storable us -> Forall byte (passwd_text us).
Proof.
  intros Hu Hs. unfold passwd_text. rewrite !Forall_app. split; [by apply all_bytes_ok|]. split; [by apply all_bytes_ok|]. apply Forall_concat, Forall_fmap, Forall_forall.
  intros u Hin. rewrite Forall_forall in Hu, Hs. apply line_bytes, user_line_fits; auto.
Qed.

Lemma block_bytes us host : Forall user_ok us -> Forall storable us -> Forall (fun b => 0 < b < 256) host -> Forall byte (block_of us host).
Proof.
  intros Hu Hs Hh. unfold block_of. rewrite !Forall_app. split; [by apply passwd_bytes|]. split; [by apply Forall_replicate|]. split; [|by apply Forall_replicate].
  eapply Forall_impl; [exact Hh|]. cbv beta. unfold byte. lia.
Qed.

(** The first account of a saved database is that of root. *)
Lemma root_line r us : account_of root_user = account_of (set_pw 0 0 r) -> exists rest, passwd_text (r :: us) = c_str "#ASDPW1" ++ [10] ++ c_str "root 0 0" ++ rest.
Proof.
  intros Ha. unfold account_of in Ha. cbn [set_pw u_uid u_gid u_flags u_name u_home u_shell u_pw_hash u_pw_salt] in Ha.
  assert (Hn : uname (set_pw 0 0 r) = uname r) by reflexivity. rewrite Hn in Ha. injection Ha as Hu Hg _ Hname _ _. change (uname root_user) with (c_str "root") in Hname.
  change (u_uid root_user) with 0 in Hu. change (u_gid root_user) with 0 in Hg. unfold passwd_text. cbn [map concat]. unfold line_text at 1. cbn [user_line l_name l_uid l_gid]. rewrite <- Hname, <- Hu, <- Hg.
  eexists. reflexivity.
Qed.

Lemma magic_ok rest : passwd_db_magic_ok (Some (c_str "#ASDPW1" ++ rest)) = Some true.
Proof. reflexivity. Qed.

Lemma has_root_ok rest : passwd_buf_has_root_account (Some (c_str "#ASDPW1" ++ [10] ++ c_str "root 0 0" ++ rest)) PASSWD_BYTES = Some true.
Proof. reflexivity. Qed.

(** The last byte of the block and the terminator of the host name are the same zero. *)
Lemma put_last us host : fits us host -> put (block_of us host) (PASSWD_BYTES - 1) 0 = Some (block_of us host).
Proof.
  intros Hf. pose proof (length_block us host Hf) as Hl. destruct Hf as [_ Hf]. unfold block_of in *. destruct (64 - length host)%nat as [|m] eqn:Hm; [lia|].
  rewrite replicate_S_end in *. rewrite !app_assoc in *. rewrite length_app in Hl. cbn [length] in Hl. set (pre := ((_ ++ _) ++ _) ++ _) in *.
  replace (PASSWD_BYTES - 1)%nat with (length pre) by lia. by rewrite put_at.
Qed.

Lemma host_part us host : fits us host -> drop HOSTNAME_OFFSET (block_of us host) = host ++ replicate (64 - length host) 0.
Proof.
  intros [Hf _]. unfold block_of. rewrite app_assoc. apply drop_app_length'. rewrite length_app, length_replicate. lia.
Qed.

Lemma host_cstring host : (length host <= 63)%nat -> Forall (fun b => 0 < b < 256) host -> cstring (host ++ replicate (64 - length host) 0) host.
Proof. intros Hl Hh. exists (replicate (63 - length host) 0). split; [|done]. by replace (64 - length host)%nat with (S (63 - length host)) by lia. Qed.

Lemma some_bind {A B} (x : A) (f : A -> option B) : Some x ≫= f = f x.
Proof. reflexivity. Qed.

Lemma host_end : (HOSTNAME_OFFSET + 63 = PASSWD_BYTES - 1)%nat.
Proof. reflexivity. Qed.

Lemma host_first us host c rest : fits us host -> host = c :: rest -> block_of us host !! HOSTNAME_OFFSET = Some c.
Proof. intros Hf Hc. pose proof (host_part us host Hf) as Hd. rewrite Hc in Hd at 2. rewrite <- (take_drop HOSTNAME_OFFSET (block_of us host)), Hd. apply list_lookup_middle. rewrite length_take, length_block by done. bytes4k. lia. Qed.

Lemma strncpy_host g_hostname host : (length host <= 63)%nat -> Forall (fun b => 0 < b < 256) host -> length g_hostname = 64%nat ->
  strncpy g_hostname (host ++ replicate (64 - length host) 0) 64 = Some (host ++ replicate (64 - length host) 0).
Proof.
  intros Hl Hh Hg. unfold strncpy. rewrite (strncpy_from_spec _ _ host) by (by apply host_cstring || lia). rewrite take_ge by lia.
  rewrite inserts_prefix by (rewrite length_app, length_replicate; lia). rewrite drop_ge by (rewrite length_app, length_replicate; lia). by rewrite app_nil_r.
Qed.

Lemma put_host_end host : (length host <= 63)%nat -> put (host ++ replicate (64 - length host) 0) 63 0 = Some (host ++ replicate (64 - length host) 0).
Proof.
  intros Hl. replace (64 - length host)%nat with (63 - length host + 1)%nat by lia. rewrite replicate_add, app_assoc. change (replicate 1 0) with [0].
  assert (Hn : length (host ++ replicate (63 - length host) 0) = 63%nat) by (rewrite length_app, length_replicate; lia). rewrite <- Hn at 2. by rewrite put_at.
Qed.

(** The host name is taken over from the block. *)
Lemma apply_host_ok us host g_hostname c rest more :
  fits us host -> Forall (fun b => 0 < b < 256) host -> host = c :: rest -> host_char c = true -> length g_hostname = 64%nat -> block_of us host = c_str "#ASDPW1" ++ more ->
  passwd_apply_hostname_from_raw (Some (block_of us host)) g_hostname = Some (Some (block_of us host), host ++ replicate (64 - length host) 0).
Proof.
  intros Hf Hh Hc Hch Hg Hm. pose proof (magic_ok more) as Hmg. rewrite <- Hm in Hmg. unfold passwd_apply_hostname_from_raw. rewrite Hmg, some_bind, host_end. cbn [negb].
  rewrite put_last, some_bind by done. rewrite (host_first us host c rest), some_bind by done. rewrite Hch, host_part by done.
  destruct Hf as [_ Hf]. rewrite strncpy_host, some_bind by done. by rewrite put_host_end.
Qed.

(** ** Accounts that can be saved *)

(** Accounts and a host name that the text and the block can hold: root first, every name and field
    free of blanks, the text below the host name, and a host name that starts with a letter or digit. *)
Record saveable (s : usr_st) (g_hostname host : list Z) : Prop := {
  sv_inv : usr_inv s; sv_storable : Forall storable (users s); sv_names : NoDup (uname <$> users s);
  sv_root : exists r us, users s = r :: us /\ account_of root_user = account_of (set_pw 0 0 r);
  sv_host : cstring g_hostname host; sv_first : exists c rest, host = c :: rest /\ host_char c = true;
  sv_fits : fits (users s) host;
}.

Section saveable.
Context (s : usr_st) (g_hostname host : list Z) (Hsv : saveable s g_hostname host).

Lemma saveable_host : Forall (fun b => 0 < b < 256) host.
Proof. destruct Hsv as [_ _ _ _ (tl & _ & H) _ _]. exact H. Qed.

Lemma saveable_bytes : Forall byte (block_of (users s) host).
Proof. apply block_bytes; [apply (ui_user s), (sv_inv _ _ _ Hsv)|apply (sv_storable _ _ _ Hsv)|apply saveable_host]. Qed.

Lemma saveable_text : exists rest, block_of (users s) host = c_str "#ASDPW1" ++ [10] ++ c_str "root 0 0" ++ rest.
Proof.
  destruct (sv_root _ _ _ Hsv) as (r & us & Hus & Hr). destruct (root_line r us Hr) as [rest Ht]. unfold block_of. rewrite Hus, Ht. rewrite <- !app_assoc. eexists. reflexivity.
Qed.

Lemma saveable_root : passwd_buf_has_root_account (Some (block_of (users s) host)) PASSWD_BYTES = Some true.
Proof. destruct saveable_text as [rest ->]. apply has_root_ok. Qed.

End saveable.

(** ** On a disk *)

(** [n] sectors from [lba] on that hold the pieces of [data]. *)
Definition holds (f : Z -> list Z) (lba n : Z) (data : list Z) : Prop := forall i, lba <= i < lba + n -> f i = slice (Z.to_nat (i - lba) * 512) 512 data.

Lemma read_back f lba n data : holds f lba (Z.of_nat n) data -> length data = (n * 512)%nat -> concat (map f (seqZ lba (Z.of_nat n))) = data.
Proof.
  revert lba data. induction n as [|n IH]; intros lba data Hf Hl; [by destruct data|]. rewrite seqZ_cons by lia. cbn [map concat].
  rewrite (Hf lba) by lia. rewrite Z.sub_diag. change (Z.to_nat 0 * 512)%nat with 0%nat. unfold slice. rewrite drop_0.
  rewrite <- (take_drop 512 data) at 2. f_equal. replace (Z.pred (Z.of_nat (S n))) with (Z.of_nat n) by lia. apply IH; [|rewrite length_drop; lia].
  intros i Hi. rewrite Hf by lia. unfold slice. rewrite drop_drop. do 2 f_equal. lia.
Qed.

Section disks.
Context {W : Type} (inv : W -> Prop) (ok : block_dev_t -> Prop) dev_read dev_write (sector : block_dev_t -> W -> Z -> list Z) `{HD : !Disks inv ok dev_read dev_write sector}.

Lemma read_block d w lba data :
  inv w -> ok d -> 0 <= lba -> lba + 8 <= bd_sector_count d -> holds (sector d w) lba 8 data -> length data = PASSWD_BYTES ->
  exists w', dev_read d w lba 8 = (0, data, w') /\ inv w' /\ forall e i, ok e -> sector e w' i = sector e w i.
Proof.
  intros Hw0 Hok H0 Hc Hh Hl. destruct (disks_read d w lba 8) as (w' & Hr & Hi & Hs); [done|done|done|lia|done|]. exists w'. rewrite Hr. split; [|done].
  change 8 with (Z.of_nat 8). by rewrite (read_back _ lba 8 data).
Qed.

Lemma write_block d w lba data :
  inv w -> ok d -> 0 <= lba -> lba + 8 <= bd_sector_count d -> length data = PASSWD_BYTES -> Forall byte data ->
  exists w', dev_write d w lba 8 data = (0, w') /\ inv w' /\ holds (sector d w') lba 8 data /\ (forall i, ~ lba <= i < lba + 8 -> sector d w' i = sector d w i) /\
    forall e i, ok e -> e <> d -> sector e w' i = sector e w i.
Proof.
  intros Hw0 Hok H0 Hc Hl Hb. destruct (disks_write d w lba 8 data) as (w' & Hr & Hw' & Hs & Ho); [done|done|done|lia|done|done|done|]. exists w'. split; [done|]. split; [done|].
  split; [|split; [|done]]; intros i Hi; rewrite Hs; [by rewrite decide_True|by rewrite decide_False].
Qed.

(** Whether a disk has room for the copy at its end, and where it starts. *)
Definition has_tail (d : block_dev_t) : Prop := PASSWD_LBA + PASSWD_SECS + 64 <= bd_sector_count d.
Definition tail_lba (d : block_dev_t) : Z := bd_sector_count d - PASSWD_SECS.

(** The sectors [persist_users] writes. *)
Definition account_sector (d : block_dev_t) (i : Z) : Prop := PASSWD_LBA <= i < PASSWD_LBA + PASSWD_SECS \/ (has_tail d /\ tail_lba d <= i < bd_sector_count d).

Lemma write_tail_ok d w data :
  inv w -> ok d -> bd_sector_count d < 2 ^ 64 -> length data = PASSWD_BYTES -> Forall byte data ->
  let w' := write_tail dev_write d w data in
  inv w' /\ (has_tail d -> holds (sector d w') (tail_lba d) 8 data) /\ (forall i, ~ (has_tail d /\ tail_lba d <= i < bd_sector_count d) -> sector d w' i = sector d w i) /\
  forall e i, ok e -> e <> d -> sector e w' i = sector e w i.
Proof.
  intros Hw0 Hok Hc Hl Hb. unfold write_tail, has_tail, tail_lba. change PASSWD_LBA with 34. change PASSWD_SECS with 8.
  destruct (Z.leb_spec (34 + 8 + 64) (bd_sector_count d)) as [Ht|Ht]; [|cbv zeta; split; [done|]; split; [lia|done]].
  rewrite u64_small by lia. destruct (write_block d w (bd_sector_count d - 8) data) as (w' & Hw & Hw' & Hh & Hs & Ho); [done|done|lia|lia|done|done|]. rewrite Hw. cbn [snd]. split; [done|]. split; [done|]. split; [|done].
  intros i Hi. apply Hs. lia.
Qed.

Lemma persist_ok d b host buf :
  inv (db_disk b) -> ok d -> bd_write d <> 0 -> PASSWD_LBA + PASSWD_SECS <= bd_sector_count d < 2 ^ 64 -> saveable (db_usr b) (db_host b) host -> length buf = PASSWD_BYTES ->
  let blk := block_of (users (db_usr b)) host in
  exists w', persist_users dev_read dev_write (Some d) b buf = Some (0, set_disk b w') /\ inv w' /\ holds (sector d w') PASSWD_LBA 8 blk /\
    (has_tail d -> holds (sector d w') (tail_lba d) 8 blk) /\ (forall i, ~ account_sector d i -> sector d w' i = sector d (db_disk b) i) /\
    forall e i, ok e -> e <> d -> sector e w' i = sector e (db_disk b) i.
Proof.
  intros Hw0 Hok Hw Hc Hsv Hb blk. change PASSWD_LBA with 34 in *. change PASSWD_SECS with 8 in *. pose proof (length_block _ _ (sv_fits _ _ _ Hsv)) as Hl. pose proof (saveable_bytes _ _ _ Hsv) as Hby. pose proof (saveable_root _ _ _ Hsv) as Hrt. fold blk in Hl, Hby, Hrt.
  unfold persist_users. rewrite (proj2 (Z.eqb_neq _ _) Hw). rewrite (passwd_block_ok _ _ host) by apply Hsv || done. rewrite some_bind. fold blk. change PASSWD_LBA with 34. change PASSWD_SECS with 8.
  destruct (write_block d (db_disk b) 34 blk) as (w1 & -> & I1 & Hh1 & S1 & O1); [done|done|lia|lia|done|done|]. cbn [negb Z.eqb].
  destruct (read_block d w1 34 blk) as (w2 & -> & I2 & S2); [done|done|lia|lia|done|done|]. cbn [negb Z.eqb]. rewrite Hrt, some_bind. cbn [negb].
  destruct (write_tail_ok d w2 blk I2 Hok ltac:(lia) Hl Hby) as (I3 & Hh3 & S3 & O3). eexists. split; [reflexivity|]. split; [exact I3|].
  assert (Htail : has_tail d -> 106 <= bd_sector_count d) by (unfold has_tail; change PASSWD_LBA with 34; change PASSWD_SECS with 8; lia). unfold tail_lba in *. change PASSWD_SECS with 8 in *. split_and!.
  - intros i Hi. rewrite S3, S2 by (exact Hok || intros [? ?]; specialize (Htail ltac:(assumption)); lia). by apply Hh1.
  - exact Hh3.
  - intros i Hi. unfold account_sector, tail_lba in Hi. change PASSWD_LBA with 34 in Hi. change PASSWD_SECS with 8 in Hi. rewrite S3, S2, S1; [done|lia|done|tauto].
  - intros e i He Hne. by rewrite O3, S2, O1.
Qed.

Lemma load_slot_ok clock d lba b2 s g_hostname host :
  (forall n, word (clock n)) -> inv (db_disk b2) -> ok d -> bd_read d <> 0 -> 0 <= lba -> lba + 8 <= bd_sector_count d -> saveable s g_hostname host ->
  holds (sector d (db_disk b2)) lba 8 (block_of (users s) host) -> usr_inv (db_usr b2) -> users (db_usr b2) = [root_user] -> length (db_host b2) = 64%nat ->
  exists w' s', passwd_load_slot dev_read clock (Some d) lba b2 = Some (Z.of_nat (length (users s)), mk_db w' s' (host ++ replicate (64 - length host) 0) (db_loaded b2)) /\
    inv w' /\ usr_inv s' /\ account_of <$> users s' = account_of <$> users s /\ forall e i, ok e -> sector e w' i = sector e (db_disk b2) i.
Proof.
  intros Hclock Hw0 Hok Hr H0 Hc Hsv Hh Hi2 Hu2 Hn2. unfold passwd_load_slot. rewrite (proj2 (Z.eqb_neq _ _) Hr). change PASSWD_SECS with 8. pose proof (sv_fits _ _ _ Hsv) as Hf.
  destruct (read_block d (db_disk b2) lba _ Hw0 Hok H0 Hc Hh (length_block _ _ Hf)) as (w1 & -> & I1 & S1). cbn [negb Z.eqb]. rewrite (saveable_root _ _ _ Hsv), some_bind. cbn [negb].
  rewrite put_last, some_bind by done. cbn [set_disk db_usr db_host db_loaded]. destruct (saveable_text _ _ _ Hsv) as [more Hmore]. pose proof (saveable_host _ _ _ Hsv) as Hhost.
  destruct Hsv as [Hinv Hst Hnm (r & us & Hus & Hroot) _ (c & rest & Hhc & Hch) _].
  pose proof (ui_user _ Hinv) as Huo. pose proof (ui_uids _ Hinv) as Hnd. pose proof (length_users s Hinv) as Hlu. pose proof (ui_count _ Hinv) as Hcnt.
  assert (Hld : exists s', usr_load_passwd clock (db_usr b2) (Some (block_of (users s) host)) (PASSWD_BYTES - 1) = Some (Z.of_nat (length (users s)), s') /\ usr_inv s' /\ account_of <$> users s' = account_of <$> users s).
  { unfold block_of. destruct Hf as [Hf1 _]. destruct (HOSTNAME_OFFSET - length (passwd_text (users s)))%nat as [|k] eqn:Hk; [lia|]. cbn [replicate app].
    rewrite Hus in *. apply (reload_ok clock Hclock (r :: us) r us (db_usr b2) root_user); [done|done|done|done|lia|done|done|done|bytes4k; lia|done]. }
  destruct Hld as (s' & -> & Hi' & Ha'). rewrite some_bind. destruct (Z.ltb_spec 0 (Z.of_nat (length (users s)))) as [_|Hz]; [|rewrite Hus in Hz; cbn [length] in Hz; lia].
  cbn [set_usr set_disk db_disk db_usr db_host db_loaded]. rewrite (apply_host_ok _ _ _ c rest _ Hf Hhost Hhc Hch Hn2 Hmore), some_bind. exists w1, s'. split; [reflexivity|]. split; [exact I1|]. split; [exact Hi'|]. split; [exact Ha'|exact S1].
Qed.

End disks.

(** ** Properties *)

Section reload.
Context {W : Type} (inv : W -> Prop) (ok : block_dev_t -> Prop) dev_read dev_write (sector : block_dev_t -> W -> Z -> list Z) `{HD : !Disks inv ok dev_read dev_write sector}.
Context (clock : nat -> Z) (Hclock : forall n, word (clock n)).

(** The primary block still holds the accounts, or it holds none and the copy does. *)
Definition accounts_on (d : block_dev_t) (w : W) (blk : list Z) : Prop :=
  holds (sector d w) PASSWD_LBA 8 blk \/
  has_tail d /\ holds (sector d w) (tail_lba d) 8 blk /\ passwd_buf_has_root_account (Some (concat (map (sector d w) (seqZ PASSWD_LBA 8)))) PASSWD_BYTES = Some false.

Lemma empty_slot d lba (b : db_t W) :
  inv (db_disk b) -> ok d -> bd_read d <> 0 -> 0 <= lba -> lba + 8 <= bd_sector_count d -> passwd_buf_has_root_account (Some (concat (map (sector d (db_disk b)) (seqZ lba 8)))) PASSWD_BYTES = Some false ->
  exists w', passwd_load_slot dev_read clock (Some d) lba b = Some (-1, set_disk b w') /\ inv w' /\ forall e i, ok e -> sector e w' i = sector e (db_disk b) i.
Proof.
  intros Hw0 Hok Hr H0 Hc Hno. unfold passwd_load_slot. rewrite (proj2 (Z.eqb_neq _ _) Hr). change PASSWD_SECS with 8. destruct (disks_read d (db_disk b) lba 8) as (w1 & -> & I1 & S1); [done|done|lia|lia|lia|].
  cbn [negb Z.eqb]. rewrite Hno, some_bind. exists w1. split; [reflexivity|]. split; [exact I1|exact S1].
Qed.

(** A start with a fresh user database loads the accounts of the block. *)
Lemma start_loads d b2 s g_hostname host :
  inv (db_disk b2) -> ok d -> bd_read d <> 0 -> PASSWD_LBA + PASSWD_SECS <= bd_sector_count d < 2 ^ 64 -> saveable s g_hostname host -> accounts_on d (db_disk b2) (block_of (users s) host) ->
  usr_inv (db_usr b2) -> users (db_usr b2) = [root_user] -> length (db_host b2) = 64%nat ->
  exists b', boot_try_load_passwd_from_dev dev_read clock (Some d) b2 = Some (1, b') /\ usr_inv (db_usr b') /\ account_of <$> users (db_usr b') = account_of <$> users s /\
    cstring (db_host b') host /\ db_loaded b' = 1 /\ forall i, sector d (db_disk b') i = sector d (db_disk b2) i.
Proof.
  intros Hw0 Hok Hr Hc Hsv Hon Hi2 Hu2 Hn2. change PASSWD_LBA with 34 in *. change PASSWD_SECS with 8 in *. unfold boot_try_load_passwd_from_dev. change PASSWD_LBA with 34. change PASSWD_SECS with 8.
  pose proof (saveable_host _ _ _ Hsv) as Hh. pose proof (proj2 (sv_fits _ _ _ Hsv)) as Hlen. destruct (sv_root _ _ _ Hsv) as (r & us & Hus & _).
  assert (Hpos : (0 <? Z.of_nat (length (users s))) = true) by (rewrite Hus; reflexivity). pose proof (host_cstring host Hlen Hh) as Hcs. destruct Hon as [Hon|(Ht & Hon & Hno)].
  - destruct (load_slot_ok inv ok dev_read dev_write sector clock d 34 b2 s g_hostname host) as (w' & s' & -> & _ & Hi' & Ha' & S'); [done|done|done|done|lia|lia|done|done|done|done|done|].
    rewrite some_bind, Hpos. eexists. split; [reflexivity|]. cbn [set_loaded db_usr db_host db_loaded db_disk]. split; [exact Hi'|]. split; [exact Ha'|]. split; [exact Hcs|]. split; [reflexivity|]. intros i. by apply S'.
  - destruct (empty_slot d 34 b2) as (w1 & -> & I1 & S1); [done|done|done|lia|lia|done|]. rewrite some_bind. change (0 <? -1) with false. cbv iota.
    unfold has_tail, tail_lba in *. change PASSWD_LBA with 34 in *. change PASSWD_SECS with 8 in *. rewrite (proj2 (Z.leb_le _ _) Ht), u64_small by lia.
    destruct (load_slot_ok inv ok dev_read dev_write sector clock d (bd_sector_count d - 8) (set_disk b2 w1) s g_hostname host) as (w' & s' & -> & _ & Hi' & Ha' & S');
      [done|done|done|done|lia|lia|done|intros i Hi; cbn [set_disk db_disk]; rewrite S1 by done; by apply Hon|done|done|done|].
    rewrite some_bind, Hpos. eexists. split; [reflexivity|]. cbn [set_loaded set_disk db_usr db_host db_loaded db_disk] in *. split; [exact Hi'|]. split; [exact Ha'|]. split; [exact Hcs|]. split; [reflexivity|]. intros i. by rewrite S', S1.
Qed.

(** What follows a save: [b1] is the state after it. *)
Record saved (d : block_dev_t) (b b1 : db_t W) (host : list Z) : Prop := {
  sd_inv : inv (db_disk b1);
  sd_same : db_usr b1 = db_usr b /\ db_host b1 = db_host b /\ db_loaded b1 = db_loaded b;
  sd_on : accounts_on d (db_disk b1) (block_of (users (db_usr b)) host);
  sd_rest : forall i, ~ account_sector d i -> sector d (db_disk b1) i = sector d (db_disk b) i;
  sd_others : forall e i, ok e -> e <> d -> sector e (db_disk b1) i = sector e (db_disk b) i;
}.

End reload.


Definition demo_host : list Z := c_str "asd" ++ replicate 61 0.

Lemma demo_saveable s : usr_inv s -> users s = [root_user] -> saveable s demo_host (c_str "asd").
Proof.
  intros Hinv Hu. constructor; rewrite ?Hu.
  - exact Hinv.
  - apply root_storable.
  - apply NoDup_singleton.
  - exists root_user, []. split; [reflexivity|apply root_again].
  - exists (replicate 60 0). split; [reflexivity|by apply text_bytes].
  - exists 97, [115; 100]. split; reflexivity.
  - assert (Hlen : length (passwd_text [root_user]) = 70%nat) by (vm_compute; reflexivity). split; [rewrite Hlen; bytes4k; lia|simpl; lia].
Qed.


(** ** Flaws of the code *)

Lemma block_lookup_zero us host i : fits us host -> (length (passwd_text us) <= i < HOSTNAME_OFFSET)%nat -> block_of us host !! i = Some 0.
Proof.
  intros [Hf _] Hi. unfold block_of. rewrite lookup_app_r by lia. rewrite lookup_app_l by (rewrite length_replicate; lia). apply lookup_replicate_2. lia.
Qed.

(** The copy at the end of the disk lies on the backup of the partition table: after it the last
    sector is no partition table header any more. *)
Lemma persist_destroys_backup us host (f : Z -> list Z) total arr my alt first last entries :
  fits us host -> (length (passwd_text us) <= 7 * 512)%nat -> holds f (total - 8) 8 (block_of us host) -> ~ valid_header (f (total - 1)) arr my alt first last entries.
Proof.
  intros Hf Hl Hh [_ Hsig _ _ _ _ _ _ _ _ _ _]. rewrite Hh in Hsig by lia. replace (Z.to_nat (total - 1 - (total - 8))) with 7%nat in Hsig by lia.
  assert (H0 : slice (7 * 512) 512 (block_of us host) !! 0%nat = Some 0) by (rewrite lookup_slice, Nat.add_0_r by lia; apply block_lookup_zero; [done|bytes4k; lia]).
  rewrite <- (lookup_take_lt _ 8) in H0 by lia. rewrite Hsig in H0. discriminate H0.
Qed.

(** A text that reaches the place of the host name is stored without one, *)
Lemma long_text_block s g_hostname buf :
  usr_inv s -> length buf = PASSWD_BYTES -> (HOSTNAME_OFFSET <= length (passwd_text (users s)) <= PASSWD_BYTES - 2)%nat ->
  passwd_block s g_hostname buf = Some (Some (passwd_text (users s) ++ replicate (PASSWD_BYTES - length (passwd_text (users s))) 0)).
Proof.
  intros Hinv Hb Hl. unfold passwd_block. rewrite write_passwd_ok; [|done|rewrite Hb; bytes4k; lia|bytes4k; lia]. rewrite some_bind.
  set (t := passwd_text (users s)) in *. destruct (Z.ltb_spec (Z.of_nat (length t)) 0); [lia|]. rewrite Nat2Z.id.
  rewrite memset_spec by (rewrite length_app; cbn [length]; rewrite length_drop; bytes4k; lia). rewrite some_bind. change (u8 0) with 0.
  rewrite inserts_at by (rewrite length_replicate; cbn [length]; rewrite length_drop; bytes4k; lia).
  rewrite drop_ge by (rewrite length_replicate; cbn [length]; rewrite length_drop; bytes4k; lia). rewrite app_nil_r. by rewrite (proj2 (Nat.leb_le _ _)) by lia.
Qed.

(** and the next start takes the end of the text for the host name. *)
Lemma long_text_host us g_hostname c :
  (HOSTNAME_OFFSET < length (passwd_text us) <= PASSWD_BYTES - 2)%nat -> Forall (fun b => 0 < b < 256) (passwd_text us) -> passwd_text us !! HOSTNAME_OFFSET = Some c -> host_char c = true ->
  length g_hostname = 64%nat -> let raw := passwd_text us ++ replicate (PASSWD_BYTES - length (passwd_text us)) 0 in
  exists raw' h, passwd_apply_hostname_from_raw (Some raw) g_hostname = Some (Some raw', h) /\ cstring h (drop HOSTNAME_OFFSET (passwd_text us)).
Proof.
  intros Hl Hb Hc Hch Hg raw. set (host := drop HOSTNAME_OFFSET (passwd_text us)). assert (Hh : length host = (length (passwd_text us) - HOSTNAME_OFFSET)%nat) by (apply length_drop).
  assert (Hd : drop HOSTNAME_OFFSET raw = host ++ replicate (64 - length host) 0) by (unfold raw; rewrite drop_app_le by lia; fold host; do 2 f_equal; bytes4k; lia).
  assert (Hlen : length raw = PASSWD_BYTES) by (unfold raw; rewrite length_app, length_replicate; lia).
  assert (Hput : put raw (HOSTNAME_OFFSET + 63) 0 = Some raw).
  { rewrite host_end. unfold raw. replace (PASSWD_BYTES - length (passwd_text us))%nat with (PASSWD_BYTES - 1 - length (passwd_text us) + 1)%nat by (bytes4k; lia).
    rewrite replicate_add, app_assoc. change (replicate 1 0) with [0]. assert (Hn : (PASSWD_BYTES - 1)%nat = length (passwd_text us ++ replicate (PASSWD_BYTES - 1 - length (passwd_text us)) 0)) by (rewrite length_app, length_replicate; bytes4k; lia).
    rewrite Hn at 2. by rewrite put_at. }
  assert (Hmg : passwd_db_magic_ok (Some raw) = Some true) by (unfold raw, passwd_text; rewrite <- !app_assoc; apply magic_ok).
  assert (Hf : (length host <= 63)%nat) by (bytes4k; lia). assert (Hhb : Forall (fun b => 0 < b < 256) host) by (by apply Forall_drop). exists raw, (host ++ replicate (64 - length host) 0). split; [|by apply host_cstring].
  unfold passwd_apply_hostname_from_raw. rewrite Hmg, some_bind. cbn [negb]. rewrite Hput, some_bind. assert (H0 : raw !! HOSTNAME_OFFSET = Some c) by (unfold raw; rewrite lookup_app_l by lia; exact Hc).
  rewrite H0, some_bind, Hch, Hd. rewrite strncpy_host, some_bind by done. by rewrite put_host_end.
Qed.
