(* ===== verification/Virtio.v ===== *)
(** * The virtio block driver (src/kernel/drv/virtio_blk.c)

    Requests are laid out in a block of memory that the driver shares with the device: a table of
    descriptors, the ring of available requests, the ring of used ones, and the area of the request
    itself.  The model keeps the block as bytes and the pointers of the driver as offsets in it.
    The device and the ports are parameters: [tick] is what the device does between two looks of
    the driver. *)

From Stdlib Require Import ZArith Lia.
From stdpp Require Import base strings sets list.
From S2P Require Import Prelude KString Block.

Local Open Scope Z_scope.

Definition VIRTIO_BLK_T_IN : Z := 0.
Definition VIRTIO_BLK_T_OUT : Z := 1.
Definition VRING_DESC_F_NEXT : Z := 1.
Definition VRING_DESC_F_WRITE : Z := 2.
Definition VBLK_REQ_DATA_OFF : nat := 32.
Definition VBLK_MAX_XFER_SECTORS : Z := 32.
Definition VBLK_REQ_STATUS_OFF : nat := 32 + 32 * 512.
Definition VBLK_REQ_TOTAL_SIZE : Z := 16417.
Definition VBLK_SPINS : positive := 50000000.

(** ** A loop with a bound and an early exit

    At most [p] steps; [inr] ends the loop.  The recursion halves the bound, so that a run is as
    long as the steps it takes. *)
Fixpoint iter_until {S R : Type} (f : S -> S + R) (p : positive) (s : S) : S + R :=
  match p with
  | xH => f s
  | xO p' => match iter_until f p' s with inl s => iter_until f p' s | inr r => inr r end
  | xI p' => match f s with inl s => match iter_until f p' s with inl s => iter_until f p' s | inr r => inr r end | inr r => inr r end
  end.

(** ** Memory *)

Definition rd_le (m : list Z) (off n : nat) : option Z := if decide (off + n <= length m)%nat then Some (le_val (slice off n m)) else None.
Definition wr (m : list Z) (off : nat) (bs : list Z) : option (list Z) := memcpy_obj m off bs (length bs).

(** The packed structures. *)
Definition vr_desc_t (addr len flags next : Z) : list Z := le_bytes 8 addr ++ le_bytes 4 len ++ le_bytes 2 flags ++ le_bytes 2 next.
Definition vblk_req_hdr_t (type sector : Z) : list Z := le_bytes 4 type ++ le_bytes 4 0 ++ le_bytes 8 sector.

(** Pointers into the block are offsets. *)
Record virtio_blk_ctx_t := mk_vctx {
  vc_io_base : Z; vc_qnum : Z; vc_last_used_idx : Z; vc_q_phys : Z; vc_capacity_sectors : Z;
  vc_desc : nat; vc_avail : nat; vc_used : nat; vc_req_area : nat; vc_req_phys : Z;
}.

Definition set_last (c : virtio_blk_ctx_t) (i : Z) : virtio_blk_ctx_t :=
  mk_vctx (vc_io_base c) (vc_qnum c) i (vc_q_phys c) (vc_capacity_sectors c) (vc_desc c) (vc_avail c) (vc_used c) (vc_req_area c) (vc_req_phys c).

(** The request of [sectors] sectors at [lba], with the bytes from [src] on for a write, and its
    entry in the ring of available requests. *)
Definition fill_request (c : virtio_blk_ctx_t) (m : list Z) (lba : Z) (src : list Z) (sectors : Z) (is_write : bool) : option (list Z) :=
  let req := vc_req_area c in
  let data_len := u32 (sectors * 512) in
  m ← (if is_write then memcpy_obj m (req + VBLK_REQ_DATA_OFF) src (Z.to_nat data_len) else memset m (req + VBLK_REQ_DATA_OFF) 0 (Z.to_nat data_len));
  m ← put m (req + VBLK_REQ_STATUS_OFF) 0xFF;
  m ← wr m req (vblk_req_hdr_t (if is_write then VIRTIO_BLK_T_OUT else VIRTIO_BLK_T_IN) lba);
  m ← wr m (vc_desc c) (vr_desc_t (vc_req_phys c) 16 VRING_DESC_F_NEXT 1);
  m ← wr m (vc_desc c + 16) (vr_desc_t (u64 (vc_req_phys c + Z.of_nat VBLK_REQ_DATA_OFF)) data_len (Z.lor VRING_DESC_F_NEXT (if is_write then 0 else VRING_DESC_F_WRITE)) 2);
  m ← wr m (vc_desc c + 32) (vr_desc_t (u64 (vc_req_phys c + Z.of_nat VBLK_REQ_STATUS_OFF)) 1 VRING_DESC_F_WRITE 0);
  aidx ← rd_le m (vc_avail c + 2) 2;
  if vc_qnum c =? 0 then None else
  m ← wr m (vc_avail c + 4 + 2 * Z.to_nat (aidx mod vc_qnum c)) (le_bytes 2 0);
  wr m (vc_avail c + 2) (le_bytes 2 (u16 (aidx + 1))).

Section device.
(** A write to the port that tells the device of a request, and what it does to its state and the block. *)
Context {D : Type} (notify : D -> Z -> Z -> D) (tick : D -> list Z -> D * list Z).

(** A device with its driver context and block. *)
Record vblk_t := mk_vblk { vb_ctx : virtio_blk_ctx_t; vb_mem : list Z; vb_dev : D }.

(** One turn of the polling loop: [inr] with the new index of the used ring. *)
Definition poll_step (c : virtio_blk_ctx_t) (s : D * list Z) : (D * list Z) + option (Z * D * list Z) :=
  let '(dv, m) := tick s.1 s.2 in
  match rd_le m (vc_used c + 2) 2 with
  | None => inr None
  | Some used_idx => if used_idx =? vc_last_used_idx c then inl (dv, m) else inr (Some (used_idx, dv, m))
  end.

(** [buf] from [off] on is the buffer of the caller. *)
Definition virtio_blk_submit (v : vblk_t) (lba : Z) (buf : list Z) (off : nat) (sectors : Z) (is_write : bool) : option (Z * list Z * vblk_t) :=
  let c := vb_ctx v in
  if (sectors =? 0) || (VBLK_MAX_XFER_SECTORS <? sectors) then Some (-1, buf, v) else
  m ← fill_request c (vb_mem v) lba (drop off buf) sectors is_write;
  match iter_until (poll_step c) VBLK_SPINS (notify (vb_dev v) (u16 (vc_io_base c + 0x10)) 0, m) with
  | inl (dv, m) => Some (-1, buf, mk_vblk c m dv)
  | inr None => None
  | inr (Some (used_idx, dv, m)) =>
      let v := mk_vblk (set_last c used_idx) m dv in
      status ← m !! (vc_req_area c + VBLK_REQ_STATUS_OFF)%nat;
      if negb (status =? 0) then Some (-1, buf, v)
      else if is_write then Some (0, buf, v)
      else buf ← memcpy_obj buf off (drop (vc_req_area c + VBLK_REQ_DATA_OFF) m) (Z.to_nat (u32 (sectors * 512))); Some (0, buf, v)
  end.

(** The transfer one sector at a time after a failure, [n] sectors to go. *)
Fixpoint retry_loop (v : vblk_t) (lba : Z) (buf : list Z) (done i : Z) (n : nat) (is_write : bool) : option (Z * list Z * vblk_t) :=
  match n with
  | O => Some (0, buf, v)
  | S n' =>
      '(r, buf, v) ← virtio_blk_submit v (u64 (lba + done + i)) buf (Z.to_nat (u32 (u32 (done + i) * 512))) 1 is_write;
      if negb (r =? 0) then Some (-1, buf, v) else retry_loop v lba buf done (i + 1) n' is_write
  end.

Fixpoint xfer_loop (fuel : nat) (v : vblk_t) (lba count : Z) (buf : list Z) (done : Z) (is_write : bool) : option (Z * list Z * vblk_t) :=
  match fuel with
  | O => None
  | S fuel' =>
      if done <? count then
        let chunk := u32 (count - done) in
        let chunk := if VBLK_MAX_XFER_SECTORS <? chunk then VBLK_MAX_XFER_SECTORS else chunk in
        '(r, buf, v) ← virtio_blk_submit v (u64 (lba + done)) buf (Z.to_nat (u32 (done * 512))) chunk is_write;
        if r =? 0 then xfer_loop fuel' v lba count buf (u32 (done + chunk)) is_write
        else
          '(r, buf, v) ← retry_loop v lba buf done 0 (Z.to_nat chunk) is_write;
          if negb (r =? 0) then Some (-1, buf, v) else xfer_loop fuel' v lba count buf (u32 (done + chunk)) is_write
      else Some (0, buf, v)
  end.

(** The two functions of the device, which differ in the direction only.  [v] is what [dev->ctx]
    points at. *)
Definition vblk_stub (dev : option block_dev_t) (v : vblk_t) (lba count : Z) (buf : option (list Z)) (is_write : bool) : option (Z * option (list Z) * vblk_t) :=
  match dev, buf with
  | Some d, Some b =>
      if (bd_ctx d =? 0) || (count =? 0) then Some (-1, buf, v)
      else if vc_capacity_sectors (vb_ctx v) <? u64 (lba + count) then Some (-1, buf, v)
      else '(r, b, v) ← xfer_loop (S (Z.to_nat count)) v lba count b 0 is_write; Some (r, Some b, v)
  | _, _ => Some (-1, buf, v)
  end.

Definition vblk_stub_rw (dev : option block_dev_t) (v : vblk_t) (lba count : Z) (buf : option (list Z)) : option (Z * option (list Z) * vblk_t) := vblk_stub dev v lba count buf false.
Definition vblk_stub_wr (dev : option block_dev_t) (v : vblk_t) (lba count : Z) (buf : option (list Z)) : option (Z * option (list Z) * vblk_t) := vblk_stub dev v lba count buf true.

End device.

#[global] Arguments mk_vblk {D}.
#[global] Arguments vb_ctx {D}.
#[global] Arguments vb_mem {D}.
#[global] Arguments vb_dev {D}.

(** ** Finding the devices *)

Definition align_up_u64 (x a : Z) : Z := Z.land (u64 (x + a - 1)) (u64 (Z.lnot (a - 1))).

(** The offsets of the available ring, the used ring and the request area, and the size of it all. *)
Definition queue_layout (qnum : Z) : Z * Z * Z * Z :=
  let desc_bytes := 16 * qnum in
  let avail_bytes := 4 + 2 * qnum in
  let used_bytes := 4 + 8 * qnum in
  let off_avail := desc_bytes in
  let off_used := align_up_u64 (off_avail + avail_bytes) 4096 in
  let off_req := align_up_u64 (off_used + used_bytes) 16 in
  (off_avail, off_used, off_req, align_up_u64 (off_req + VBLK_REQ_TOTAL_SIZE) 4096).

(** [while ((PAGE_SIZE << order) < total) order++] *)
Fixpoint order_loop (fuel : nat) (order total : Z) : option Z :=
  match fuel with
  | O => None
  | S fuel' => if u64 (Z.shiftl 4096 order) <? total then order_loop fuel' (order + 1) total else Some order
  end.

Section ports.
(** The ports, the page allocator and the heap; [fn_rw] and [fn_wr] are the addresses of the two functions. *)
Context {IO : Type} (in16 in32 : IO -> Z -> Z * IO) (out8 out16 out32 : IO -> Z -> Z -> IO) (amm_phys_alloc kmalloc : IO -> Z -> Z * IO) (fn_rw fn_wr : Z).

Definition pci_addr (bus slot func off : Z) : Z :=
  Z.lor (Z.lor (Z.lor (Z.lor (Z.shiftl 1 31) (Z.shiftl bus 16)) (Z.shiftl slot 11)) (Z.shiftl func 8)) (Z.land off 0xFC).

Definition pci_cfg_read32 (io : IO) (bus slot func off : Z) : Z * IO := in32 (out32 io 0xCF8 (pci_addr bus slot func off)) 0xCFC.

Definition pci_cfg_read16 (io : IO) (bus slot func off : Z) : Z * IO :=
  let '(v, io) := pci_cfg_read32 io bus slot func (u8 (Z.land off 0xFC)) in
  (u16 (Z.land (Z.shiftr v (Z.land off 2 * 8)) 0xFFFF), io).

Definition pci_cfg_write16 (io : IO) (bus slot func off val : Z) : IO :=
  let aoff := u8 (Z.land off 0xFC) in
  let '(oldv, io) := pci_cfg_read32 io bus slot func aoff in
  let shift := Z.land off 2 * 8 in
  let mask := u32 (Z.shiftl 0xFFFF shift) in
  let newv := Z.lor (Z.land oldv (u32 (Z.lnot mask))) (u32 (Z.shiftl val shift)) in
  out32 (out32 io 0xCF8 (pci_addr bus slot func aoff)) 0xCFC newv.

(** The device table, the number of devices found, and the contexts with their addresses and the
    sizes of their blocks. *)
Record vinit_t := mk_vinit { vi_io : IO; vi_table : list block_dev_t; vi_idx : Z; vi_ctxs : list (Z * virtio_blk_ctx_t * Z) }.

Definition set_io (s : vinit_t) (io : IO) : vinit_t := mk_vinit io (vi_table s) (vi_idx s) (vi_ctxs s).

(** The queue of the device at [io_base] and its registration. *)
Definition setup_queue (s : vinit_t) (io_base qnum : Z) : option vinit_t :=
  let '(off_avail, off_used, off_req, total) := queue_layout qnum in
  order ← order_loop 52 0 total;
  let '(qphys, io) := amm_phys_alloc (vi_io s) order in
  if qphys =? 0 then Some (set_io s io) else
  let io := out32 io (u16 (io_base + 0x08)) (u32 (Z.shiftr qphys 12)) in
  let '(ctx, io) := kmalloc io 96 in
  if ctx =? 0 then Some (set_io s io) else
  let '(cap_lo, io) := in32 io (u16 (io_base + 0x14)) in
  let '(cap_hi, io) := in32 io (u16 (io_base + 0x18)) in
  let cap := Z.lor (u64 (Z.shiftl cap_hi 32)) cap_lo in
  let c := mk_vctx io_base qnum 0 qphys cap 0 (Z.to_nat off_avail) (Z.to_nat off_used) (Z.to_nat off_req) (u64 (qphys + off_req)) in
  let dev := mk_block_dev ([118; 100; u8 (97 + vi_idx s)] ++ replicate 29 0) 512 cap ctx fn_rw fn_wr in
  let io := out8 io (u16 (io_base + 0x12)) 7 in
  let '(r, t) := block_register (vi_table s) (Some dev) in
  Some (mk_vinit io t (if r =? 0 then vi_idx s + 1 else vi_idx s) (vi_ctxs s ++ [(ctx, c, Z.shiftl 4096 order)])).

(** One slot of a bus; the flag is the return when the table is full. *)
Definition probe_slot (s : vinit_t) (bus slot : Z) : option (bool * vinit_t) :=
  let '(vd, io) := pci_cfg_read32 (vi_io s) bus slot 0 0 in
  if Z.land vd 0xFFFF =? 0xFFFF then Some (false, set_io s io) else
  let vendor := u16 (Z.land vd 0xFFFF) in
  let device := u16 (Z.shiftr vd 16) in
  if negb (vendor =? 0x1AF4) then Some (false, set_io s io) else
  if negb (device =? 0x1001) && negb (device =? 0x1042) then Some (false, set_io s io) else
  let '(cmd, io) := pci_cfg_read16 io bus slot 0 4 in
  let io := pci_cfg_write16 io bus slot 0 4 (Z.lor cmd 5) in
  if negb (device =? 0x1001) then Some (false, set_io s io) else
  let '(bar0, io) := pci_cfg_read32 io bus slot 0 0x10 in
  if Z.land bar0 1 =? 0 then Some (false, set_io s io) else
  let io_base := u16 (Z.land bar0 (u32 (Z.lnot 3))) in
  let io := out8 io (u16 (io_base + 0x12)) 0 in
  let io := out8 io (u16 (io_base + 0x12)) 1 in
  let io := out8 io (u16 (io_base + 0x12)) 3 in
  let io := out32 io (u16 (io_base + 0x04)) 0 in
  let io := out16 io (u16 (io_base + 0x0E)) 0 in
  let '(qnum, io) := in16 io (u16 (io_base + 0x0C)) in
  if qnum <? 3 then Some (false, set_io s io) else
  s ← setup_queue (set_io s io) io_base qnum;
  Some (Z.of_nat BLOCK_MAX_DEVS <=? vi_idx s, s).

(** The slots from [i] on, numbered through all buses, [n] of them. *)
Fixpoint probe_slots (s : vinit_t) (i : Z) (n : nat) : option vinit_t :=
  match n with
  | O => Some s
  | S n' => '(stop, s) ← probe_slot s (i / 32) (i mod 32); if (stop : bool) then Some s else probe_slots s (i + 1) n'
  end.

Definition virtio_blk_init (s : vinit_t) : option vinit_t := probe_slots (mk_vinit (vi_io s) (vi_table s) 0 (vi_ctxs s)) 0 (256 * 32).

End ports.
