(* ===== verification/VirtioSpec.v ===== *)
(** * Specification of the virtio block driver

    What the driver relies on of a device, as the legacy interface describes it, and what it makes
    of it: the disk contract of the partition table writer and the installer. *)

From Stdlib Require Import ZArith Lia.
From stdpp Require Import base strings sets gmap list.
From S2P Require Import Prelude KString Block Gpt GptSpec InstallerSpec Virtio.

Local Open Scope Z_scope.

#[global] Instance block_dev_eq_dec : EqDecision block_dev_t.
Proof. solve_decision. Defined.

(** ** The bounded loop *)

(** [n] steps in sequence. *)
Fixpoint steps {S R : Type} (f : S -> S + R) (n : nat) (s : S) : S + R :=
  match n with O => inl s | S n' => match f s with inl s => steps f n' s | inr r => inr r end end.

Lemma steps_add {S R} (f : S -> S + R) a b s : steps f (a + b) s = match steps f a s with inl s => steps f b s | inr r => inr r end.
Proof. revert s. induction a as [|a IH]; intros s; [done|]. cbn [steps Nat.add]. destruct (f s); [apply IH|done]. Qed.

Lemma iter_until_steps {S R} (f : S -> S + R) p s : iter_until f p s = steps f (Pos.to_nat p) s.
Proof.
  revert s. induction p as [p IH|p IH|]; intros s; cbn [iter_until].
  - rewrite Pos2Nat.inj_xI. cbn [steps]. destruct (f s) as [s'|]; [|done]. replace (2 * Pos.to_nat p)%nat with (Pos.to_nat p + Pos.to_nat p)%nat by lia. rewrite steps_add, IH. destruct (steps _ _ s'); [apply IH|done].
  - rewrite Pos2Nat.inj_xO. replace (2 * Pos.to_nat p)%nat with (Pos.to_nat p + Pos.to_nat p)%nat by lia. rewrite steps_add, IH. destruct (steps _ _ s); [apply IH|done].
  - rewrite Pos2Nat.inj_1. cbn [steps]. by destruct (f s).
Qed.

(** ** The block *)

Lemma wr_ok m off bs : (off + length bs <= length m)%nat -> wr m off bs = Some (list_inserts off bs m).
Proof. intros H. unfold wr. rewrite memcpy_obj_spec by lia. by rewrite firstn_all. Qed.

Lemma rd_ok m off n : (off + n <= length m)%nat -> rd_le m off n = Some (le_val (slice off n m)).
Proof. intros H. unfold rd_le. by rewrite decide_True. Qed.

Definition u16_at (m : list Z) (off : nat) : Z := le_val (slice off 2 m).

Lemma u16_at_range m off : Forall byte m -> 0 <= u16_at m off < 2 ^ 16.
Proof.
  intros Hb. unfold u16_at. pose proof (le_val_range (slice off 2 m)) as H. assert (Hl : (length (slice off 2 m) <= 2)%nat) by (unfold slice; rewrite length_take; lia).
  assert (Hf : Forall (fun b => 0 <= b < 256) (slice off 2 m)) by (by apply Forall_take, Forall_drop). specialize (H Hf).
  assert (256 ^ Z.of_nat (length (slice off 2 m)) <= 256 ^ 2) by (apply Z.pow_le_mono_r; lia). lia.
Qed.

Section ctx.
Context (c : virtio_blk_ctx_t).

Definition qn : nat := Z.to_nat (vc_qnum c).

(** The four parts lie behind one another in a block of [len] bytes. *)
Record ctx_ok (len : nat) : Prop := {
  co_qnum : 3 <= vc_qnum c < 2 ^ 16;
  co_desc : (vc_desc c + 16 * qn <= vc_avail c)%nat; co_avail : (vc_avail c + 4 + 2 * qn <= vc_used c)%nat;
  co_used : (vc_used c + 4 + 8 * qn <= vc_req_area c)%nat; co_req : (vc_req_area c + VBLK_REQ_STATUS_OFF + 1 <= len)%nat;
  co_phys : 0 <= vc_q_phys c /\ vc_q_phys c + Z.of_nat len <= 2 ^ 64; co_req_phys : vc_req_phys c = vc_q_phys c + Z.of_nat (vc_req_area c);
}.

(** ** Requests, as a device reads them *)

(** Descriptor [i]: address as an offset, length, flags, next. *)
Definition desc_at (m : list Z) (i : nat) : Z * Z * Z * Z :=
  let p := (vc_desc c + 16 * i)%nat in
  (le_val (slice p 8 m) - vc_q_phys c, le_val (slice (p + 8) 4 m), le_val (slice (p + 12) 2 m), le_val (slice (p + 14) 2 m)).

Record vreq := mk_vreq { rq_write : bool; rq_sector : Z; rq_data : nat; rq_len : Z; rq_status : nat }.

(** The chain of three descriptors at the last available entry: header, data, status. *)
Definition chain (m : list Z) : option vreq :=
  let aidx := u16_at m (vc_avail c + 2) in
  let head := u16_at m (vc_avail c + 4 + 2 * Z.to_nat (u16 (aidx - 1) mod vc_qnum c)) in
  let '(a0, l0, f0, n0) := desc_at m (Z.to_nat head) in
  let '(a1, l1, f1, n1) := desc_at m (Z.to_nat n0) in
  let '(a2, l2, f2, n2) := desc_at m (Z.to_nat n1) in
  if decide (l0 = 16 /\ f0 = VRING_DESC_F_NEXT /\ Z.testbit f1 0 = true /\ f2 = VRING_DESC_F_WRITE /\ l2 = 1 /\ 0 <= a0 /\ 0 <= a1 /\ 0 <= a2) then
    let type := le_val (slice (Z.to_nat a0) 4 m) in
    if decide (type = VIRTIO_BLK_T_OUT /\ Z.testbit f1 1 = false) then Some (mk_vreq true (le_val (slice (Z.to_nat a0 + 8) 8 m)) (Z.to_nat a1) l1 (Z.to_nat a2))
    else if decide (type = VIRTIO_BLK_T_IN /\ Z.testbit f1 1 = true) then Some (mk_vreq false (le_val (slice (Z.to_nat a0 + 8) 8 m)) (Z.to_nat a1) l1 (Z.to_nat a2))
    else None
  else None.

(** The request the driver means to make. *)
Definition request (lba sectors : Z) (is_write : bool) : vreq :=
  mk_vreq is_write lba (vc_req_area c + VBLK_REQ_DATA_OFF) (sectors * 512) (vc_req_area c + VBLK_REQ_STATUS_OFF).

End ctx.

#[global] Arguments qn : simpl never.

(** ** The writes of the driver *)

Definition eight_writes (m data st hdr d0 d1 d2 ring idx : list Z) (pd ps ph p0 pr pi : nat) : list Z :=
  list_inserts pi idx (list_inserts pr ring (list_inserts (p0 + 32) d2 (list_inserts (p0 + 16) d1 (list_inserts p0 d0 (list_inserts ph hdr (list_inserts ps st (list_inserts pd data m))))))).

Lemma slice_back (i n : nat) (k l : list Z) : length k = n -> (i + n <= length l)%nat -> slice i n (list_inserts i k l) = k.
Proof. intros <- H. by apply slice_inserts_same. Qed.

Ltac other_slice := rewrite slice_inserts_other by lia.

Lemma eight_writes_ok (m data st hdr d0 d1 d2 ring idx : list Z) (pd ps ph p0 pr pi pu : nat) :
  length st = 1%nat -> length hdr = 16%nat -> length d0 = 16%nat -> length d1 = 16%nat -> length d2 = 16%nat -> length ring = 2%nat -> length idx = 2%nat ->
  (p0 + 48 <= pi)%nat -> (pi + 2 <= pr)%nat -> (pr + 2 <= pu)%nat -> (pu + 2 <= ph)%nat -> (ph + 16 <= pd)%nat -> (pd + length data <= ps)%nat -> (ps + 1 <= length m)%nat ->
  let m' := eight_writes m data st hdr d0 d1 d2 ring idx pd ps ph p0 pr pi in
  length m' = length m /\ slice ph 16 m' = hdr /\ slice p0 16 m' = d0 /\ slice (p0 + 16) 16 m' = d1 /\ slice (p0 + 32) 16 m' = d2 /\
  slice pr 2 m' = ring /\ slice pi 2 m' = idx /\ slice pu 2 m' = slice pu 2 m /\ slice pd (length data) m' = data.
Proof.
  intros Ls Lh L0 L1 L2 Lr Li H1 H2 H3 H4 H5 H6 H7 m'. unfold m', eight_writes. repeat rewrite length_inserts. split; [done|]. split_and!.
  - do 5 other_slice. apply slice_back; [done|repeat rewrite length_inserts; lia].
  - do 4 other_slice. apply slice_back; [done|repeat rewrite length_inserts; lia].
  - do 3 other_slice. apply slice_back; [done|repeat rewrite length_inserts; lia].
  - do 2 other_slice. apply slice_back; [done|repeat rewrite length_inserts; lia].
  - other_slice. apply slice_back; [done|repeat rewrite length_inserts; lia].
  - apply slice_back; [done|repeat rewrite length_inserts; lia].
  - do 8 other_slice. done.
  - do 7 other_slice. apply slice_inserts_same. lia.
Qed.

Lemma bytes_list_inserts k l i : Forall byte k -> Forall byte l -> Forall byte (list_inserts i k l).
Proof. intros Hk. revert i l. induction Hk as [|b k Hb _ IH]; intros i l Hl; cbn [list_inserts]; [done|]. apply Forall_insert; [by apply IH|done]. Qed.

(** ** What a device reads back *)

Lemma desc_back c m i a l f n :
  slice (vc_desc c + 16 * i) 16 m = vr_desc_t a l f n -> 0 <= a < 2 ^ 64 -> 0 <= l < 2 ^ 32 -> 0 <= f < 2 ^ 16 -> 0 <= n < 2 ^ 16 -> desc_at c m i = (a - vc_q_phys c, l, f, n).
Proof.
  intros Hs Ha Hl Hf Hn. unfold desc_at. set (p := (vc_desc c + 16 * i)%nat) in *.
  assert (Hv : forall k w v, (k + w <= 16)%nat -> slice k w (vr_desc_t a l f n) = le_bytes w v -> 0 <= v < 256 ^ Z.of_nat w -> le_val (slice (p + k) w m) = v).
  { intros k w v Hk He Hr. rewrite <- (slice_slice p 16 k w) by lia. rewrite Hs, He. by apply le_val_bytes. }
  rewrite (Hv 8%nat 4%nat l), (Hv 12%nat 2%nat f), (Hv 14%nat 2%nat n) by (done || lia). replace (slice p 8 m) with (slice (p + 0) 8 m) by (by rewrite Nat.add_0_r).
  by rewrite (Hv 0%nat 8%nat a) by (done || lia).
Qed.

Lemma hdr_back m p t s : slice p 16 m = vblk_req_hdr_t t s -> 0 <= t < 2 ^ 32 -> 0 <= s < 2 ^ 64 -> le_val (slice p 4 m) = t /\ le_val (slice (p + 8) 8 m) = s.
Proof.
  intros Hs Ht Hss. split.
  - replace (slice p 4 m) with (slice (p + 0) 4 m) by (by rewrite Nat.add_0_r). rewrite <- (slice_slice p 16 0 4) by lia. rewrite Hs. change (slice 0 4 (vblk_req_hdr_t t s)) with (le_bytes 4 t). by apply le_val_bytes.
  - rewrite <- (slice_slice p 16 8 8) by lia. rewrite Hs. change (slice 8 8 (vblk_req_hdr_t t s)) with (le_bytes 8 s). by apply le_val_bytes.
Qed.

(** The bytes that go into the data area. *)
Definition payload (src : list Z) (sectors : Z) (is_write : bool) : list Z := if is_write then take (Z.to_nat (sectors * 512)) src else replicate (Z.to_nat (sectors * 512)) 0.

Section fill.
Context (c : virtio_blk_ctx_t) (m : list Z) (lba sectors : Z) (src : list Z) (is_write : bool).
Context (Hc : ctx_ok c (length m)) (Hm : Forall byte m) (Hlba : 0 <= lba < 2 ^ 64) (Hs : 1 <= sectors <= 32).
Context (Hsrc : is_write = true -> (Z.to_nat (sectors * 512) <= length src)%nat /\ Forall byte src).

Let aidx := u16_at m (vc_avail c + 2).

(** The block after the writes. *)
Definition filled : list Z :=
  eight_writes m (payload src sectors is_write) [255] (vblk_req_hdr_t (if is_write then VIRTIO_BLK_T_OUT else VIRTIO_BLK_T_IN) lba)
    (vr_desc_t (vc_req_phys c) 16 VRING_DESC_F_NEXT 1)
    (vr_desc_t (vc_req_phys c + Z.of_nat VBLK_REQ_DATA_OFF) (sectors * 512) (Z.lor VRING_DESC_F_NEXT (if is_write then 0 else VRING_DESC_F_WRITE)) 2)
    (vr_desc_t (vc_req_phys c + Z.of_nat VBLK_REQ_STATUS_OFF) 1 VRING_DESC_F_WRITE 0)
    (le_bytes 2 0) (le_bytes 2 (u16 (aidx + 1)))
    (vc_req_area c + VBLK_REQ_DATA_OFF) (vc_req_area c + VBLK_REQ_STATUS_OFF) (vc_req_area c) (vc_desc c)
    (vc_avail c + 4 + 2 * Z.to_nat (aidx mod vc_qnum c)) (vc_avail c + 2).

Lemma payload_length : length (payload src sectors is_write) = Z.to_nat (sectors * 512).
Proof. unfold payload. destruct is_write; [rewrite length_take; destruct (Hsrc eq_refl); lia|apply length_replicate]. Qed.

Lemma payload_bytes : Forall byte (payload src sectors is_write).
Proof. unfold payload. destruct is_write; [apply Forall_take; by destruct (Hsrc eq_refl)|by apply Forall_replicate]. Qed.

Lemma ring_slot : (Z.to_nat (aidx mod vc_qnum c) < qn c)%nat.
Proof. destruct Hc as [Hq _ _ _ _ _ _]. unfold qn. pose proof (Z.mod_pos_bound aidx (vc_qnum c) ltac:(lia)). lia. Qed.

Lemma fill_request_filled : fill_request c m lba src sectors is_write = Some filled.
Proof.
  pose proof ring_slot as Hslot. pose proof payload_length as Hpl. destruct Hc as [Hq Hd Ha Hu Hr Hp Hrp]. assert (Hqn : (3 <= qn c)%nat) by (unfold qn; lia). unfold VBLK_REQ_STATUS_OFF in *.
  unfold fill_request, VBLK_REQ_DATA_OFF, VBLK_REQ_STATUS_OFF. rewrite u32_small by lia.
  assert (H0 : (if is_write then memcpy_obj m (vc_req_area c + 32) src (Z.to_nat (sectors * 512)) else memset m (vc_req_area c + 32) 0 (Z.to_nat (sectors * 512))) = Some (list_inserts (vc_req_area c + 32) (payload src sectors is_write) m)).
  { unfold payload. destruct is_write; [rewrite memcpy_obj_spec by (destruct (Hsrc eq_refl); lia); done|rewrite memset_spec by lia; done]. }
  rewrite H0. cbn [mbind option_bind]. unfold put. rewrite decide_True by (rewrite length_inserts; lia). cbn [mbind option_bind].
  change (<[(vc_req_area c + (32 + 32 * 512))%nat := 255]> (list_inserts (vc_req_area c + 32) (payload src sectors is_write) m)) with (list_inserts (vc_req_area c + (32 + 32 * 512)) [255] (list_inserts (vc_req_area c + 32) (payload src sectors is_write) m)).
  rewrite wr_ok by (rewrite !length_inserts; unfold vblk_req_hdr_t; rewrite !length_app, !length_le_bytes; lia). cbn [mbind option_bind].
  assert (Ld : forall a l f n, length (vr_desc_t a l f n) = 16%nat) by (intros; unfold vr_desc_t; by rewrite !length_app, !length_le_bytes). rewrite !(u64_small (vc_req_phys c + _)) by lia.
  do 3 (rewrite wr_ok by (repeat rewrite length_inserts; rewrite Ld; lia); cbn [mbind option_bind]).
  rewrite rd_ok by (repeat rewrite length_inserts; lia). cbn [mbind option_bind].
  assert (Hx : le_val (slice (vc_avail c + 2) 2 (list_inserts (vc_desc c + 32) (vr_desc_t (vc_req_phys c + Z.of_nat (32 + 32 * 512)) 1 VRING_DESC_F_WRITE 0)
    (list_inserts (vc_desc c + 16) (vr_desc_t (vc_req_phys c + Z.of_nat 32) (sectors * 512) (Z.lor VRING_DESC_F_NEXT (if is_write then 0 else VRING_DESC_F_WRITE)) 2)
    (list_inserts (vc_desc c) (vr_desc_t (vc_req_phys c) 16 VRING_DESC_F_NEXT 1)
    (list_inserts (vc_req_area c) (vblk_req_hdr_t (if is_write then VIRTIO_BLK_T_OUT else VIRTIO_BLK_T_IN) lba) (list_inserts (vc_req_area c + (32 + 32 * 512)) [255] (list_inserts (vc_req_area c + 32) (payload src sectors is_write) m))))))) = aidx).
  { do 6 (rewrite slice_inserts_other by (rewrite ?Ld; lia)). done. }
  rewrite Hx. rewrite (proj2 (Z.eqb_neq _ _)) by lia.
  rewrite wr_ok by (repeat rewrite length_inserts; rewrite length_le_bytes; lia). cbn [mbind option_bind]. by rewrite wr_ok by (repeat rewrite length_inserts; rewrite length_le_bytes; lia).
Qed.

Lemma filled_ok :
  length filled = length m /\ Forall byte filled /\ u16_at filled (vc_avail c + 2) = u16 (aidx + 1) /\ u16_at filled (vc_used c + 2) = u16_at m (vc_used c + 2) /\
  chain c filled = Some (request c lba sectors is_write) /\ slice (vc_req_area c + VBLK_REQ_DATA_OFF) (Z.to_nat (sectors * 512)) filled = payload src sectors is_write.
Proof.
  pose proof ring_slot as Hslot. pose proof payload_length as Hpl. pose proof payload_bytes as Hpb. pose proof (u16_at_range m (vc_avail c + 2) Hm) as Hai. fold aidx in Hai.
  destruct Hc as [Hq Hd Ha Hu Hr Hp Hrp]. assert (Hqn : (3 <= qn c)%nat) by (unfold qn; lia). unfold VBLK_REQ_STATUS_OFF in *.
  destruct (eight_writes_ok m (payload src sectors is_write) [255] (vblk_req_hdr_t (if is_write then VIRTIO_BLK_T_OUT else VIRTIO_BLK_T_IN) lba)
    (vr_desc_t (vc_req_phys c) 16 VRING_DESC_F_NEXT 1)
    (vr_desc_t (vc_req_phys c + Z.of_nat VBLK_REQ_DATA_OFF) (sectors * 512) (Z.lor VRING_DESC_F_NEXT (if is_write then 0 else VRING_DESC_F_WRITE)) 2)
    (vr_desc_t (vc_req_phys c + Z.of_nat VBLK_REQ_STATUS_OFF) 1 VRING_DESC_F_WRITE 0) (le_bytes 2 0) (le_bytes 2 (u16 (aidx + 1)))
    (vc_req_area c + VBLK_REQ_DATA_OFF) (vc_req_area c + VBLK_REQ_STATUS_OFF) (vc_req_area c) (vc_desc c)
    (vc_avail c + 4 + 2 * Z.to_nat (aidx mod vc_qnum c)) (vc_avail c + 2) (vc_used c + 2)) as (E1 & E2 & E3 & E4 & E5 & E6 & E7 & E8 & E9);
    try reflexivity; try (unfold VBLK_REQ_DATA_OFF, VBLK_REQ_STATUS_OFF; lia).
  fold filled in E1, E2, E3, E4, E5, E6, E7, E8, E9. rewrite Hpl in E9. assert (Hu16 : 0 <= u16 (aidx + 1) < 2 ^ 16) by (unfold u16; apply Z.mod_pos_bound; lia).
  assert (Hav : u16_at filled (vc_avail c + 2) = u16 (aidx + 1)) by (unfold u16_at; rewrite E7; apply le_val_bytes; exact Hu16).
  split; [exact E1|]. split; [|split; [exact Hav|]].
  { unfold filled, eight_writes. repeat apply bytes_list_inserts; try done; unfold vr_desc_t, vblk_req_hdr_t; rewrite ?Forall_app; split_and?; try apply le_bytes_byte; by apply all_bytes_ok. }
  split; [unfold u16_at; by rewrite E8|]. split; [|exact E9]. unfold chain. rewrite Hav.
  assert (Hprev : u16 (u16 (aidx + 1) - 1) = aidx) by (unfold u16 in *; destruct (decide (aidx = 65535)) as [->|]; [reflexivity|rewrite (Z.mod_small (aidx + 1)) by lia; rewrite Z.mod_small by lia; lia]). rewrite Hprev.
  assert (Hring : u16_at filled (vc_avail c + 4 + 2 * Z.to_nat (aidx mod vc_qnum c)) = 0) by (unfold u16_at; rewrite E6; reflexivity). rewrite Hring. change (Z.to_nat 0) with 0%nat.
  rewrite (desc_back c filled 0 _ _ _ _ ltac:(rewrite Nat.mul_0_r, Nat.add_0_r; exact E3)) by (unfold VRING_DESC_F_NEXT; lia). change (Z.to_nat 1) with 1%nat.
  assert (Hf1 : 0 <= Z.lor VRING_DESC_F_NEXT (if is_write then 0 else VRING_DESC_F_WRITE) < 2 ^ 16) by (case is_write; by vm_compute).
  rewrite (desc_back c filled 1 _ _ _ _ E4) by (unfold VBLK_REQ_DATA_OFF; lia). change (Z.to_nat 2) with 2%nat.
  rewrite (desc_back c filled 2 _ _ _ _ E5) by (unfold VBLK_REQ_STATUS_OFF, VRING_DESC_F_WRITE; lia). rewrite decide_True by (split_and!; try reflexivity; try (case is_write; reflexivity); unfold VBLK_REQ_DATA_OFF, VBLK_REQ_STATUS_OFF; lia).
  rewrite Hrp. replace (Z.to_nat (vc_q_phys c + Z.of_nat (vc_req_area c) - vc_q_phys c)) with (vc_req_area c) by lia.
  destruct (hdr_back _ _ _ _ E2) as [-> ->]; [case is_write; by vm_compute|lia|]. unfold request.
  replace (Z.to_nat (vc_q_phys c + Z.of_nat (vc_req_area c) + Z.of_nat VBLK_REQ_DATA_OFF - vc_q_phys c)) with (vc_req_area c + VBLK_REQ_DATA_OFF)%nat by lia.
  replace (Z.to_nat (vc_q_phys c + Z.of_nat (vc_req_area c) + Z.of_nat VBLK_REQ_STATUS_OFF - vc_q_phys c)) with (vc_req_area c + VBLK_REQ_STATUS_OFF)%nat by lia.
  clear. by destruct is_write.
Qed.

End fill.

(** ** What the driver relies on *)

(** [n] turns of the device. *)
Fixpoint ticks {D} (tick : D -> list Z -> D * list Z) (n : nat) (s : D * list Z) : D * list Z :=
  match n with O => s | S n' => ticks tick n' (tick s.1 s.2) end.

(** The bytes of the block a device may write while it serves [rq]. *)
Definition device_writes (c : virtio_blk_ctx_t) (rq : vreq) (i : nat) : Prop :=
  (rq_write rq = false /\ (rq_data rq <= i < rq_data rq + Z.to_nat (rq_len rq))%nat) \/ i = rq_status rq \/ (vc_used c <= i < vc_used c + 4 + 8 * qn c)%nat.

(** A request has been served: the status is zero, the used ring has caught up, and the sectors
    have been moved between the disk, whose sectors are [content], and the data area. *)
Record served {D} (content : D -> Z -> list Z) (c : virtio_blk_ctx_t) (rq : vreq) (dv : D) (m : list Z) (dv' : D) (m' : list Z) : Prop := {
  se_length : length m' = length m; se_bytes : Forall byte m'; se_status : m' !! rq_status rq = Some 0;
  se_used : u16_at m' (vc_used c + 2) = u16_at m (vc_avail c + 2);
  se_same : forall i, ~ device_writes c rq i -> m' !! i = m !! i;
  se_out : rq_write rq = true -> forall i, content dv' i =
    if decide (rq_sector rq <= i < rq_sector rq + rq_len rq / 512) then slice (rq_data rq + Z.to_nat (i - rq_sector rq) * 512) 512 m else content dv i;
  se_in : rq_write rq = false -> slice (rq_data rq) (Z.to_nat (rq_len rq)) m' = concat (map (content dv) (seqZ (rq_sector rq) (rq_len rq / 512))) /\ forall i, content dv' i = content dv i;
}.

(** A request inside the disk and the block. *)
Record proper (c : virtio_blk_ctx_t) (len : nat) (rq : vreq) : Prop := {
  pr_len : 0 < rq_len rq /\ rq_len rq mod 512 = 0; pr_sector : 0 <= rq_sector rq /\ rq_sector rq + rq_len rq / 512 <= vc_capacity_sectors c;
  pr_data : (rq_data rq + Z.to_nat (rq_len rq) <= len)%nat; pr_status : (rq_status rq < len)%nat;
  pr_apart : (vc_used c + 4 + 8 * qn c <= rq_data rq)%nat /\ (rq_data rq + Z.to_nat (rq_len rq) <= rq_status rq)%nat;
}.

(** A device that has the queue of [c]: when one request is available that has not been used, it
    is served within the turns the driver waits, and the used ring does not move before. *)
Class VirtioBlk {D : Type} (notify : D -> Z -> Z -> D) (tick : D -> list Z -> D * list Z) (content : D -> Z -> list Z) (attached : virtio_blk_ctx_t -> D -> Prop) : Prop := {
  vio_serve c dv m rq : attached c dv -> ctx_ok c (length m) -> Forall byte m -> chain c m = Some rq -> proper c (length m) rq ->
    u16_at m (vc_avail c + 2) = u16 (u16_at m (vc_used c + 2) + 1) ->
    let s := (notify dv (u16 (vc_io_base c + 0x10)) 0, m) in
    exists k dv' m', Z.of_nat k < Z.pos VBLK_SPINS /\ ticks tick (S k) s = (dv', m') /\ attached c dv' /\ served content c rq dv m dv' m' /\
      forall j, (1 <= j <= k)%nat -> length (ticks tick j s).2 = length m /\ u16_at (ticks tick j s).2 (vc_used c + 2) = u16_at m (vc_used c + 2);
  vio_attached c dv i : attached c dv -> attached (set_last c i) dv;
  vio_content c dv i : attached c dv -> 0 <= i < vc_capacity_sectors c -> length (content dv i) = 512%nat /\ Forall byte (content dv i);
}.

(** ** A request *)

Section submit.
Context {D : Type} (notify : D -> Z -> Z -> D) (tick : D -> list Z -> D * list Z) (content : D -> Z -> list Z) (attached : virtio_blk_ctx_t -> D -> Prop) `{HV : !VirtioBlk notify tick content attached}.

(** No request is on its way. *)
Record vblk_inv (v : vblk_t (D := D)) : Prop := {
  vi_attached : attached (vb_ctx v) (vb_dev v); vi_ctx : ctx_ok (vb_ctx v) (length (vb_mem v)); vi_bytes : Forall byte (vb_mem v);
  vi_used : u16_at (vb_mem v) (vc_used (vb_ctx v) + 2) = vc_last_used_idx (vb_ctx v);
  vi_avail : u16_at (vb_mem v) (vc_avail (vb_ctx v) + 2) = vc_last_used_idx (vb_ctx v);
  vi_cap : vc_capacity_sectors (vb_ctx v) < 2 ^ 64;
}.

Lemma poll_waits c k s :
  (forall j, (1 <= j <= k)%nat -> (vc_used c + 4 <= length (ticks tick j s).2)%nat /\ u16_at (ticks tick j s).2 (vc_used c + 2) = vc_last_used_idx c) ->
  steps (poll_step tick c) k s = inl (ticks tick k s).
Proof.
  revert s. induction k as [|k IH]; intros s H; [done|]. cbn [steps ticks]. destruct (H 1%nat ltac:(lia)) as [Hl Hu]. cbn [ticks] in Hl, Hu. unfold poll_step at 1.
  destruct (tick s.1 s.2) as [dv m] eqn:Ht. cbn [snd] in Hl, Hu. rewrite rd_ok by lia. unfold u16_at in Hu. rewrite Hu, Z.eqb_refl. apply IH. intros j Hj. specialize (H (S j) ltac:(lia)). cbn [ticks] in H. by rewrite Ht in H.
Qed.

Lemma ticks_snoc n s : ticks tick (S n) s = tick (ticks tick n s).1 (ticks tick n s).2.
Proof. revert s. induction n as [|n IH]; intros s; [done|]. cbn [ticks]. cbn [ticks] in IH. apply IH. Qed.

Lemma poll_ends p c k s dv' m' :
  Z.of_nat k < Z.pos p -> ticks tick (S k) s = (dv', m') -> (vc_used c + 4 <= length m')%nat -> u16_at m' (vc_used c + 2) <> vc_last_used_idx c ->
  (forall j, (1 <= j <= k)%nat -> (vc_used c + 4 <= length (ticks tick j s).2)%nat /\ u16_at (ticks tick j s).2 (vc_used c + 2) = vc_last_used_idx c) ->
  iter_until (poll_step tick c) p s = inr (Some (u16_at m' (vc_used c + 2), dv', m')).
Proof.
  intros Hk Ht Hl Hu Hw. rewrite iter_until_steps. replace (Pos.to_nat p) with (k + S (Pos.to_nat p - S k))%nat by lia.
  rewrite steps_add, poll_waits by done. cbn [steps]. rewrite ticks_snoc in Ht. unfold poll_step at 1. rewrite Ht, rd_ok by lia. unfold u16_at in *. by rewrite (proj2 (Z.eqb_neq _ _) Hu).
Qed.

Lemma same_slice (m m' : list Z) i n : (forall j, (i <= j < i + n)%nat -> m' !! j = m !! j) -> slice i n m' = slice i n m.
Proof.
  intros H. apply list_eq. intros j. destruct (decide (j < n)%nat); [rewrite !lookup_slice by done; apply H; lia|]. unfold slice. by rewrite !lookup_take_ge by lia.
Qed.

Lemma request_proper c len lba sectors is_write :
  ctx_ok c len -> 0 <= lba -> 1 <= sectors <= 32 -> lba + sectors <= vc_capacity_sectors c -> proper c len (request c lba sectors is_write).
Proof.
  intros [Hq Hd Ha Hu Hr Hp Hrp] H0 Hs Hcap. unfold VBLK_REQ_STATUS_OFF in Hr. unfold request. constructor; cbn [rq_len rq_sector rq_data rq_status]; unfold VBLK_REQ_DATA_OFF, VBLK_REQ_STATUS_OFF; try lia.
  - split; [lia|]. apply Z.mod_mul. lia.
  - rewrite Z.div_mul by lia. lia.
Qed.

(** The effect of a request on the disk and the buffer of the caller. *)
Definition moved_sectors (dv dv' : D) (lba sectors : Z) (buf buf' : list Z) (off : nat) (is_write : bool) : Prop :=
  if is_write then buf' = buf /\ forall i, content dv' i = if decide (lba <= i < lba + sectors) then slice (off + Z.to_nat (i - lba) * 512) 512 buf else content dv i
  else buf' = list_inserts off (concat (map (content dv) (seqZ lba sectors))) buf /\ forall i, content dv' i = content dv i.

(** The context but for the index of the used ring. *)
Definition same_ctx (c c' : virtio_blk_ctx_t) : Prop := exists i, c' = set_last c i.

Lemma ctx_ok_set_last c i len : ctx_ok c len -> ctx_ok (set_last c i) len.
Proof. intros [H1 H2 H3 H4 H5 H6 H7]. constructor; assumption. Qed.

Lemma served_inv c lba sectors is_write dv m dv' m' :
  ctx_ok c (length m) -> attached c dv' -> vc_capacity_sectors c < 2 ^ 64 -> served content c (request c lba sectors is_write) dv m dv' m' ->
  vblk_inv (mk_vblk (set_last c (u16_at m' (vc_used c + 2))) m' dv').
Proof.
  intros Hc Ha Hcap [El Eb Es Eu Esame _ _]. constructor; cbn [vb_ctx vb_mem vb_dev set_last vc_used vc_avail vc_last_used_idx vc_capacity_sectors]; [by apply vio_attached|rewrite El; by apply ctx_ok_set_last|done|done| |done].
  rewrite Eu. unfold u16_at. f_equal. destruct Hc as [Hq Hd Hav Hu Hr Hp Hrp]. unfold VBLK_REQ_STATUS_OFF in Hr. apply same_slice. intros j Hj. apply Esame. unfold device_writes, request. cbn [rq_write rq_data rq_len rq_status].
  unfold VBLK_REQ_DATA_OFF, VBLK_REQ_STATUS_OFF. lia.
Qed.

Lemma submit_ok v lba buf off sectors is_write :
  vblk_inv v -> 0 <= lba -> 1 <= sectors <= 32 -> lba + sectors <= vc_capacity_sectors (vb_ctx v) -> (off + Z.to_nat (sectors * 512) <= length buf)%nat -> (is_write = true -> Forall byte buf) ->
  exists buf' v', virtio_blk_submit notify tick v lba buf off sectors is_write = Some (0, buf', v') /\ vblk_inv v' /\ same_ctx (vb_ctx v) (vb_ctx v') /\
    moved_sectors (vb_dev v) (vb_dev v') lba sectors buf buf' off is_write.
Proof.
  intros [Ia Ic Ib Iu Iav Icap] H0 Hs Hcap Hbuf Hby. set (c := vb_ctx v) in *. set (m := vb_mem v) in *. set (dv := vb_dev v) in *.
  unfold virtio_blk_submit. fold c m dv. rewrite (proj2 (Z.eqb_neq sectors 0)), (proj2 (Z.ltb_ge VBLK_MAX_XFER_SECTORS sectors)) by (unfold VBLK_MAX_XFER_SECTORS; lia). cbn [orb].
  assert (Hsrc : is_write = true -> (Z.to_nat (sectors * 512) <= length (drop off buf))%nat /\ Forall byte (drop off buf)) by (intros Hw; split; [rewrite length_drop; lia|by apply Forall_drop, Hby]).
  assert (Hlba : 0 <= lba < 2 ^ 64) by lia. rewrite (fill_request_filled c m lba sectors (drop off buf) is_write Ic Hs Hsrc). cbn [mbind option_bind].
  destruct (filled_ok c m lba sectors (drop off buf) is_write Ic Ib Hlba Hs Hsrc) as (F1 & F2 & F3 & F4 & F5 & F6). set (f := filled c m lba sectors (drop off buf) is_write) in *. clearbody f.
  assert (Hcf : ctx_ok c (length f)) by (by rewrite F1). pose proof (request_proper c (length f) lba sectors is_write Hcf H0 Hs Hcap) as Hpr.
  destruct (vio_serve c dv f _ Ia Hcf F2 F5 Hpr) as (k & dv' & m' & Hk & Ht & Ha' & Hsv & Hw); [by rewrite F3, F4, Iav, Iu|].
  pose proof (u16_at_range m (vc_avail c + 2) Ib) as Hr16. destruct Hcf as [Hq Hd Hav Hu Hr Hp Hrp]. unfold VBLK_REQ_STATUS_OFF in Hr.
  assert (Hne : u16_at m' (vc_used c + 2) <> vc_last_used_idx c).
  { rewrite (se_used _ _ _ _ _ _ _ Hsv), F3, <- Iav. intros He. unfold u16 in He. destruct (decide (u16_at m (vc_avail c + 2) = 65535)) as [E|E]; [rewrite E in He; discriminate He|]. rewrite Z.mod_small in He by lia. lia. }
  rewrite (poll_ends VBLK_SPINS c k _ dv' m' Hk Ht); [|rewrite (se_length _ _ _ _ _ _ _ Hsv); lia|exact Hne|intros j Hj; destruct (Hw j Hj) as [W1 W2]; split; [lia|by rewrite W2, F4, <- Iu]].
  pose proof (se_status _ _ _ _ _ _ _ Hsv) as Hst. cbn [request rq_status] in Hst. rewrite Hst. cbn [mbind option_bind negb Z.eqb].
  pose proof (served_inv c lba sectors is_write dv f dv' m' ltac:(by rewrite F1) Ha' Icap Hsv) as Hinv. destruct is_write.
  - eexists buf, _. split; [reflexivity|]. split; [exact Hinv|]. split; [eexists; reflexivity|]. split; [reflexivity|]. intros i. cbn [vb_dev]. pose proof (se_out _ _ _ _ _ _ _ Hsv eq_refl i) as Ho. cbn [request rq_sector rq_len rq_data] in Ho. rewrite Z.div_mul in Ho by lia. rewrite Ho.
    destruct (decide (lba <= i < lba + sectors)) as [Hi|Hi]; [|reflexivity]. rewrite <- (slice_slice _ (Z.to_nat (sectors * 512))) by lia. rewrite F6. unfold payload. rewrite drop_rd, slice_slice by lia. reflexivity.
  - destruct (se_in _ _ _ _ _ _ _ Hsv eq_refl) as [Hi1 Hi2]. cbn [request rq_sector rq_len rq_data] in Hi1. rewrite Z.div_mul in Hi1 by lia. rewrite u32_small by lia.
    rewrite memcpy_obj_spec by (rewrite ?length_drop, ?(se_length _ _ _ _ _ _ _ Hsv); unfold VBLK_REQ_DATA_OFF; lia). cbn [mbind option_bind]. rewrite drop_rd, Hi1.
    eexists _, _. split; [reflexivity|]. split; [exact Hinv|]. split; [eexists; reflexivity|]. split; [reflexivity|exact Hi2].
Qed.

(** ** A transfer *)

Lemma same_ctx_trans c c' c'' : same_ctx c c' -> same_ctx c' c'' -> same_ctx c c''.
Proof. intros [i ->] [j ->]. exists j. reflexivity. Qed.

Lemma same_ctx_cap c c' : same_ctx c c' -> vc_capacity_sectors c' = vc_capacity_sectors c.
Proof. by intros [i ->]. Qed.

Lemma length_read c dv lba n : attached c dv -> 0 <= lba -> 0 <= n -> lba + n <= vc_capacity_sectors c -> length (concat (map (content dv) (seqZ lba n))) = Z.to_nat (n * 512).
Proof.
  intros Ha H0 Hn Hc. rewrite length_sectors; [rewrite length_map, length_seqZ; lia|]. apply Forall_fmap, Forall_forall. intros i Hi. apply elem_of_seqZ in Hi. eapply vio_content; [exact Ha|lia].
Qed.

Lemma sectors_trans c dv dv1 dv2 lba count done chunk buf buf1 buf2 is_write :
  attached c dv -> 0 <= lba -> 0 <= done -> 0 < chunk <= count - done -> lba + count <= vc_capacity_sectors c -> (Z.to_nat (count * 512) <= length buf)%nat ->
  moved_sectors dv dv1 (lba + done) chunk buf buf1 (Z.to_nat (done * 512)) is_write ->
  moved_sectors dv1 dv2 (lba + (done + chunk)) (count - (done + chunk)) buf1 buf2 (Z.to_nat ((done + chunk) * 512)) is_write ->
  moved_sectors dv dv2 (lba + done) (count - done) buf buf2 (Z.to_nat (done * 512)) is_write.
Proof.
  intros Ha H0 Hd Hc Hcap Hl. unfold moved_sectors. destruct is_write.
  - intros [-> E1] [-> E2]. split; [done|]. intros i. rewrite E2, E1. destruct (decide (lba + (done + chunk) <= i < lba + (done + chunk) + (count - (done + chunk)))).
    + rewrite decide_True by lia. f_equal. lia.
    + destruct (decide (lba + done <= i < lba + done + chunk)); [rewrite decide_True by lia; f_equal; lia|by rewrite decide_False by lia].
  - intros [-> E1] [-> E2]. split; [|intros i; by rewrite E2, E1]. rewrite (map_ext _ _ E1).
    replace (count - done) with (chunk + (count - (done + chunk))) by lia. rewrite seqZ_app by lia. rewrite map_app, concat_app, <- inserts_app.
    pose proof (length_read c dv (lba + done) chunk Ha ltac:(lia) ltac:(lia) ltac:(lia)) as Hlen. rewrite Hlen. f_equal; [lia|]. do 3 f_equal. lia.
Qed.

Lemma xfer_loop_ok fuel v lba count buf done is_write :
  vblk_inv v -> 0 <= lba -> 0 <= done <= count -> count < 2 ^ 23 -> lba + count <= vc_capacity_sectors (vb_ctx v) -> (Z.to_nat (count * 512) <= length buf)%nat -> (is_write = true -> Forall byte buf) ->
  count - done < Z.of_nat fuel ->
  exists buf' v', xfer_loop notify tick fuel v lba count buf done is_write = Some (0, buf', v') /\ vblk_inv v' /\ same_ctx (vb_ctx v) (vb_ctx v') /\
    moved_sectors (vb_dev v) (vb_dev v') (lba + done) (count - done) buf buf' (Z.to_nat (done * 512)) is_write.
Proof.
  revert v buf done. induction fuel as [|fuel IH]; intros v buf done Hinv H0 Hd Hc23 Hcap Hl Hby Hfuel; [lia|]. cbn [xfer_loop].
  destruct (Z.ltb_spec done count) as [Hlt|Hge].
  2:{ exists buf, v. split; [reflexivity|]. split; [exact Hinv|]. split; [exists (vc_last_used_idx (vb_ctx v)); by destruct (vb_ctx v)|]. replace (count - done) with 0 by lia. unfold moved_sectors.
      destruct is_write; [split; [done|]; intros i; by rewrite decide_False by lia|]. done. }
  rewrite (u32_small (count - done)) by lia. set (chunk := if VBLK_MAX_XFER_SECTORS <? count - done then VBLK_MAX_XFER_SECTORS else count - done).
  assert (Hc : 0 < chunk <= count - done /\ chunk <= 32) by (unfold chunk, VBLK_MAX_XFER_SECTORS; destruct (Z.ltb_spec 32 (count - done)); lia). clearbody chunk.
  assert (Hcap64 : vc_capacity_sectors (vb_ctx v) < 2 ^ 64) by (apply Hinv). rewrite (u64_small (lba + done)), (u32_small (done * 512)) by lia.
  destruct (submit_ok v (lba + done) buf (Z.to_nat (done * 512)) chunk is_write) as (buf1 & v1 & -> & I1 & C1 & M1); [done|lia|lia|lia|lia|done|]. cbn [mbind option_bind Z.eqb].
  rewrite (u32_small (done + chunk)) by lia. assert (Hl1 : length buf1 = length buf) by (unfold moved_sectors in M1; destruct is_write; destruct M1 as [-> _]; [done|apply length_inserts]).
  destruct (IH v1 buf1 (done + chunk)) as (buf2 & v2 & -> & I2 & C2 & M2); [done|lia|lia|lia|by rewrite (same_ctx_cap _ _ C1)|lia|intros ->; destruct M1 as [-> _]; by apply Hby|lia|].
  exists buf2, v2. split; [reflexivity|]. split; [exact I2|]. split; [by eapply same_ctx_trans|]. apply (sectors_trans (vb_ctx v) _ (vb_dev v1) _ lba count done chunk buf buf1); first [lia|assumption|apply Hinv].
Qed.

Lemma stub_ok d v lba n buf is_write :
  vblk_inv v -> bd_ctx d <> 0 -> 0 <= lba -> 0 < n < 2 ^ 23 -> lba + n <= vc_capacity_sectors (vb_ctx v) -> length buf = Z.to_nat (n * 512) -> (is_write = true -> Forall byte buf) ->
  exists buf' v', vblk_stub notify tick (Some d) v lba n (Some buf) is_write = Some (0, Some buf', v') /\ vblk_inv v' /\ same_ctx (vb_ctx v) (vb_ctx v') /\
    moved_sectors (vb_dev v) (vb_dev v') lba n buf buf' 0 is_write.
Proof.
  intros Hinv Hctx H0 Hn Hcap Hl Hby. unfold vblk_stub. pose proof (vi_cap _ Hinv) as Hc64. rewrite (proj2 (Z.eqb_neq _ _) Hctx), (proj2 (Z.eqb_neq n 0)) by lia. cbn [orb].
  rewrite u64_small by lia. rewrite (proj2 (Z.ltb_ge _ _)) by lia.
  destruct (xfer_loop_ok (S (Z.to_nat n)) v lba n buf 0 is_write) as (buf' & v' & -> & I' & C' & M'); [done|lia|lia|lia|lia|lia|done|lia|]. cbn [mbind option_bind].
  exists buf', v'. split; [reflexivity|]. split; [exact I'|]. split; [exact C'|]. by rewrite Z.add_0_r, Z.sub_0_r in M'.
Qed.

(** ** The disks of the driver *)

(** The contexts at their addresses. *)
Notation vworld := (gmap Z (vblk_t (D := D))).

Definition vd_read (d : block_dev_t) (w : vworld) (lba n : Z) : Z * list Z * vworld :=
  match w !! bd_ctx d with
  | None => (-1, [], w)
  | Some v =>
      match vblk_stub_rw notify tick (Some d) v lba n (Some (replicate (Z.to_nat (n * 512)) 0)) with
      | Some (r, Some b, v') => (r, b, <[bd_ctx d := v']> w)
      | _ => (-1, [], w)
      end
  end.

Definition vd_write (d : block_dev_t) (w : vworld) (lba n : Z) (data : list Z) : Z * vworld :=
  match w !! bd_ctx d with
  | None => (-1, w)
  | Some v => match vblk_stub_wr notify tick (Some d) v lba n (Some data) with Some (r, _, v') => (r, <[bd_ctx d := v']> w) | None => (-1, w) end
  end.

Definition vd_sector (d : block_dev_t) (w : vworld) (i : Z) : list Z := match w !! bd_ctx d with Some v => content (vb_dev v) i | None => replicate 512 0 end.

(** Every device has a context in order, and its size. *)
Definition vd_inv (ok : block_dev_t -> Prop) (w : vworld) : Prop :=
  forall d, ok d -> bd_ctx d <> 0 /\ exists v, w !! bd_ctx d = Some v /\ vblk_inv v /\ vc_capacity_sectors (vb_ctx v) = bd_sector_count d.

Context (ok : block_dev_t -> Prop) (Hinj : forall d e, ok d -> ok e -> bd_ctx d = bd_ctx e -> d = e).

Lemma vd_inv_insert w d v v' : vd_inv ok w -> ok d -> w !! bd_ctx d = Some v -> vblk_inv v' -> same_ctx (vb_ctx v) (vb_ctx v') -> vd_inv ok (<[bd_ctx d := v']> w).
Proof.
  intros Hw Hok Hv Hi Hs e He. destruct (Hw e He) as (Hne & u & Hu & Hui & Huc). split; [done|]. destruct (decide (bd_ctx e = bd_ctx d)) as [Heq|Hneq].
  - exists v'. rewrite Heq, lookup_insert_eq. split; [done|]. split; [done|]. rewrite (same_ctx_cap _ _ Hs). rewrite Heq in Hu. congruence.
  - exists u. by rewrite lookup_insert_ne.
Qed.

Lemma vd_sector_insert w d v v' e i : ok d -> ok e -> w !! bd_ctx d = Some v -> vd_sector e (<[bd_ctx d := v']> w) i = if decide (e = d) then content (vb_dev v') i else vd_sector e w i.
Proof.
  intros Hd He Hv. unfold vd_sector. destruct (decide (e = d)) as [->|Hne]; [by rewrite lookup_insert_eq|]. rewrite lookup_insert_ne; [done|]. intros Heq. apply Hne. by apply Hinj.
Qed.

Lemma vd_disks : Disks (vd_inv ok) ok vd_read vd_write vd_sector.
Proof.
  split.
  - intros d w lba n Hw Hok H0 Hn Hc. destruct (Hw d Hok) as (Hne & v & Hv & Hvi & Hcap). unfold vd_read. rewrite Hv.
    destruct (stub_ok d v lba n (replicate (Z.to_nat (n * 512)) 0) false) as (b & v' & E & I' & C' & M); [done|done|lia|lia|lia|apply length_replicate|done|]. unfold vblk_stub_rw. rewrite E. destruct M as [-> Mc].
    exists (<[bd_ctx d := v']> w). split; [|split; [by eapply vd_inv_insert|]].
    + f_equal. f_equal. rewrite (map_ext (vd_sector d w) (content (vb_dev v))) by (intros i; unfold vd_sector; by rewrite Hv).
      pose proof (length_read (vb_ctx v) (vb_dev v) lba n ltac:(apply Hvi) ltac:(lia) ltac:(lia) ltac:(lia)) as Hlen. rewrite inserts_prefix by (rewrite Hlen, length_replicate; lia). rewrite Hlen, drop_ge by (rewrite length_replicate; lia). by rewrite app_nil_r.
    + intros e i He. rewrite (vd_sector_insert w d v) by done. destruct (decide (e = d)) as [->|]; [|done]. rewrite Mc. unfold vd_sector. by rewrite Hv.
  - intros d w lba n data Hw Hok H0 Hn Hc Hl Hb. destruct (Hw d Hok) as (Hne & v & Hv & Hvi & Hcap). unfold vd_write. rewrite Hv.
    destruct (stub_ok d v lba n data true) as (b & v' & E & I' & C' & M); [done|done|lia|lia|lia|done|done|]. unfold vblk_stub_wr. rewrite E. destruct M as [_ Mc].
    exists (<[bd_ctx d := v']> w). split; [done|]. split; [by eapply vd_inv_insert|]. split.
    + intros i. rewrite (vd_sector_insert w d v) by done. rewrite decide_True by done. rewrite Mc. unfold vd_sector. by rewrite Hv.
    + intros e i He Hed. rewrite (vd_sector_insert w d v) by done. by rewrite decide_False.
  - intros d w lba Hw Hok Hl. destruct (Hw d Hok) as (Hne & v & Hv & Hvi & Hcap). unfold vd_sector. rewrite Hv. eapply vio_content; [apply Hvi|lia].
Qed.

End submit.

(** ** Properties *)

(** C3: the read and write functions of the driver keep the contract of a set of disks, the one the
    partition table writer and the installer are proved against, on any device that serves the
    requests of its queue: transfers inside the disk succeed, a read returns the sectors and
    a write replaces them, the other disks stay as they are, and afterwards the queue is
    empty again. *)
Theorem virtio_disks {D} notify tick content attached (ok : block_dev_t -> Prop) :
  VirtioBlk (D := D) notify tick content attached -> (forall d e, ok d -> ok e -> bd_ctx d = bd_ctx e -> d = e) ->
  Disks (vd_inv attached ok) ok (vd_read notify tick) (vd_write notify tick) (vd_sector content).
Proof. intros HV Hinj. by apply (vd_disks notify tick content attached). Qed.
