(* ===== verification/VirtioInit.v ===== *)
(** * The set-up of the virtio block driver

    The search over the PCI slots returns, and every device it registers has a queue whose parts
    lie in the memory that was allocated for it without overlapping. *)

From Stdlib Require Import ZArith Lia.
From stdpp Require Import base strings sets gmap list.
From S2P Require Import Prelude KString Block Gpt GptSpec Virtio VirtioSpec.

Local Open Scope Z_scope.

(** ** The layout of a queue *)

Lemma align_up_ok x k : 0 <= k < 64 -> 0 <= x -> x + 2 ^ k <= 2 ^ 64 -> let y := align_up_u64 x (2 ^ k) in x <= y < x + 2 ^ k /\ (2 ^ k | y).
Proof.
  intros Hk Hx Hb. assert (Hp : 0 < 2 ^ k) by (apply Z.pow_pos_nonneg; lia). unfold align_up_u64. rewrite u64_small by lia. rewrite mask_round by lia.
  pose proof (Z.div_mod (x + 2 ^ k - 1) (2 ^ k) ltac:(lia)). pose proof (Z.mod_pos_bound (x + 2 ^ k - 1) (2 ^ k) ltac:(lia)). split; [lia|]. apply Z.divide_factor_r.
Qed.

Lemma queue_layout_ok qnum : 3 <= qnum < 2 ^ 16 -> let '(off_avail, off_used, off_req, total) := queue_layout qnum in
  off_avail = 16 * qnum /\ off_avail + 4 + 2 * qnum <= off_used /\ (4096 | off_used) /\ off_used + 4 + 8 * qnum <= off_req /\ (16 | off_req) /\ off_req + VBLK_REQ_TOTAL_SIZE <= total < 2 ^ 22.
Proof.
  intros Hq. unfold queue_layout, VBLK_REQ_TOTAL_SIZE. set (u := align_up_u64 (16 * qnum + (4 + 2 * qnum)) 4096). set (r := align_up_u64 (u + (4 + 8 * qnum)) 16). set (t := align_up_u64 (r + 16417) 4096).
  destruct (align_up_ok (16 * qnum + (4 + 2 * qnum)) 12) as [U1 U2]; [lia|lia|lia|]. change (2 ^ 12) with 4096 in U1, U2. fold u in U1, U2.
  destruct (align_up_ok (u + (4 + 8 * qnum)) 4) as [R1 R2]; [lia|lia|lia|]. change (2 ^ 4) with 16 in R1, R2. fold r in R1, R2.
  destruct (align_up_ok (r + 16417) 12) as [T1 T2]; [lia|lia|lia|]. change (2 ^ 12) with 4096 in T1, T2. fold t in T1, T2.
  clearbody u r t. split; [done|]. split; [lia|]. split; [done|]. split; [lia|]. split; [done|]. lia.
Qed.

(** The order is the least one that is large enough. *)
Lemma order_loop_ok fuel order total :
  0 <= order -> order + Z.of_nat fuel <= 52 -> (fuel = 0%nat -> False) -> total <= 4096 * 2 ^ (order + Z.of_nat fuel - 1) -> (order = 0 \/ 4096 * 2 ^ (order - 1) < total) ->
  exists o, order_loop fuel order total = Some o /\ order <= o < 52 /\ total <= 4096 * 2 ^ o /\ (o = 0 \/ 4096 * 2 ^ (o - 1) < total).
Proof.
  revert order. induction fuel as [|fuel IH]; intros order H0 H52 Hf Ht Hmin; [by destruct Hf|]. cbn [order_loop]. rewrite Z.shiftl_mul_pow2 by lia.
  assert (Hb : 0 < 2 ^ order <= 2 ^ 51) by (split; [apply Z.pow_pos_nonneg; lia|apply Z.pow_le_mono_r; lia]). rewrite u64_small by lia.
  destruct (Z.ltb_spec (4096 * 2 ^ order) total) as [Hlt|Hge]; [|exists order; split; [done|]; split; [lia|]; split; [lia|done]].
  destruct fuel as [|fuel]; [replace (order + Z.of_nat 1 - 1) with order in Ht by lia; lia|].
  destruct (IH (order + 1)) as (o & Ho & Hr & Hl); [lia|lia|done|by replace (order + 1 + Z.of_nat (S fuel) - 1) with (order + Z.of_nat (S (S fuel)) - 1) by lia|right; by replace (order + 1 - 1) with order by lia|].
  exists o. split; [done|]. split; [lia|done].
Qed.

Section init.
Context {IO : Type} (in16 in32 : IO -> Z -> Z * IO) (out8 out16 out32 : IO -> Z -> Z -> IO) (amm_phys_alloc kmalloc : IO -> Z -> Z * IO) (fn_rw fn_wr : Z).
(** A port read of two bytes gives two bytes, one of four bytes four; the allocator gives nothing or a block. *)
Context (Hin16 : forall io p, 0 <= (in16 io p).1 < 2 ^ 16) (Hin32 : forall io p, 0 <= (in32 io p).1 < 2 ^ 32).
Context (Halloc : forall io o, (amm_phys_alloc io o).1 = 0 \/ 0 < (amm_phys_alloc io o).1 /\ (amm_phys_alloc io o).1 + 4096 * 2 ^ o <= 2 ^ 64).
Context (Hfn : fn_rw <> 0 /\ fn_wr <> 0).

(** A device has the two functions, sectors of 512 bytes, and a context with its capacity. *)
Definition registered (ctxs : list (Z * virtio_blk_ctx_t * Z)) (d : block_dev_t) : Prop :=
  bd_read d = fn_rw /\ bd_write d = fn_wr /\ bd_sector_size d = 512 /\ exists c size, (bd_ctx d, c, size) ∈ ctxs /\ vc_capacity_sectors c = bd_sector_count d.

(** A context is at an address, its queue lies in its block, and no request has been made. *)
Definition good_ctx (x : Z * virtio_blk_ctx_t * Z) : Prop := x.1.1 <> 0 /\ ctx_ok x.1.2 (Z.to_nat x.2) /\ vc_last_used_idx x.1.2 = 0 /\ 0 <= vc_capacity_sectors x.1.2 < 2 ^ 64.

Definition init_inv (s : vinit_t (IO := IO)) : Prop :=
  exists ds, table_of (vi_table s) ds /\ vi_idx s = Z.of_nat (length ds) /\ Forall (registered (vi_ctxs s)) ds /\ Forall good_ctx (vi_ctxs s).

Lemma registered_more l l' d : registered l d -> registered (l ++ l') d.
Proof. intros (H1 & H2 & H3 & c & size & Hin & Hc). split; [done|]. split; [done|]. split; [done|]. exists c, size. split; [apply elem_of_app; by left|done]. Qed.

Lemma capacity_range hi lo : 0 <= hi < 2 ^ 32 -> 0 <= lo < 2 ^ 32 -> 0 <= Z.lor (u64 (Z.shiftl hi 32)) lo < 2 ^ 64.
Proof. intros Hh Hl. rewrite Z.shiftl_mul_pow2 by lia. rewrite u64_small by lia. rewrite <- Z.shiftl_mul_pow2, Z.lor_comm, lor_shiftl by lia. lia. Qed.

Lemma setup_queue_ok s io_base qnum :
  init_inv s -> vi_idx s < 8 -> 3 <= qnum < 2 ^ 16 -> exists s', setup_queue in32 out8 out32 amm_phys_alloc kmalloc fn_rw fn_wr s io_base qnum = Some s' /\ init_inv s'.
Proof.
  intros (ds & Ht & Hi & Hr & Hc) Hidx Hq. unfold setup_queue. pose proof (queue_layout_ok qnum Hq) as Hlay. destruct (queue_layout qnum) as [[[oa ou] orq] total]. destruct Hlay as (-> & L1 & _ & L2 & _ & L3).
  destruct (order_loop_ok 52 0 total) as (o & -> & Ho & Hto & _); [lia|lia|done|change (2 ^ (0 + Z.of_nat 52 - 1)) with (2 ^ 51); lia|by left|]. cbn [mbind option_bind].
  pose proof (Halloc (vi_io s) o) as Ha. destruct (amm_phys_alloc (vi_io s) o) as [qphys io1]. cbn [fst] in Ha. destruct (Z.eqb_spec qphys 0) as [->|Hqp]; [eexists; split; [done|]; by exists ds|].
  destruct (kmalloc _ 96) as [ctx io2]. destruct (Z.eqb_spec ctx 0) as [->|Hctx]; [eexists; split; [done|]; by exists ds|].
  pose proof (Hin32 io2 (u16 (io_base + 0x14))) as Hlo. destruct (in32 io2 _) as [lo io3]. pose proof (Hin32 io3 (u16 (io_base + 0x18))) as Hhi. destruct (in32 io3 _) as [hi io4]. cbn [fst] in Hlo, Hhi.
  pose proof (capacity_range hi lo Hhi Hlo) as Hcap. set (cap := Z.lor _ lo) in *. clearbody cap. destruct Ha as [Ha|[Ha Hab]]; [done|]. unfold VBLK_REQ_TOTAL_SIZE in L3.
  set (c := mk_vctx _ _ _ _ _ _ _ _ _ _). set (d := mk_block_dev _ _ _ _ _ _). assert (Hn : 0 <= u8 (97 + vi_idx s) < 256 /\ u8 (97 + vi_idx s) <> 0) by (rewrite u8_small by lia; lia).
  assert (Hd : dev_ok d). { assert (Hcs : cstring (bd_name d) [118; 100; u8 (97 + vi_idx s)]) by (exists (replicate 28 0); split; [done|]; repeat (constructor; [lia|]); constructor). unfold dev_ok, str_of. rewrite (until0_cstring _ _ Hcs). done. }
  destruct Hfn as [Hf1 Hf2]. pose proof (block_register_ok (vi_table s) ds d Ht Hd Hf1 Hf2 ltac:(discriminate)) as [_ Hreg].
  assert (Hgood : good_ctx (ctx, c, Z.shiftl 4096 o)).
  { split; [done|]. split; [|split; [done|done]]. cbn [fst snd]. rewrite Z.shiftl_mul_pow2 by lia. assert (0 < 2 ^ o) by (apply Z.pow_pos_nonneg; lia).
    assert (HS : VBLK_REQ_STATUS_OFF = Z.to_nat 16416) by reflexivity. constructor; unfold qn; rewrite ?HS; cbn [c vc_qnum vc_desc vc_avail vc_used vc_req_area vc_q_phys vc_req_phys]; try lia. rewrite u64_small by lia. lia. }
  rewrite decide_True in Hreg by (unfold BLOCK_MAX_DEVS; lia). destruct Hreg as (t' & -> & Ht'). cbn [Z.eqb]. eexists. split; [done|]. exists (ds ++ [d]). cbn [vi_table vi_idx vi_ctxs].
  split; [done|]. split; [rewrite length_app; cbn [length]; lia|]. split; [|by apply Forall_app; split; [|apply Forall_singleton]]. apply Forall_app. split; [eapply Forall_impl; [exact Hr|]; intros e; apply registered_more|].
  apply Forall_singleton. split; [done|]. split; [done|]. split; [done|]. exists c, (Z.shiftl 4096 o). split; [apply elem_of_app; right; by apply list_elem_of_singleton|done].
Qed.

Lemma init_inv_io s io : init_inv s -> init_inv (set_io s io).
Proof. intros (ds & H). by exists ds. Qed.

Lemma probe_slot_ok s bus slot :
  init_inv s -> vi_idx s < 8 -> exists stop s', probe_slot in16 in32 out8 out16 out32 amm_phys_alloc kmalloc fn_rw fn_wr s bus slot = Some (stop, s') /\ init_inv s' /\ (stop = false -> vi_idx s' < 8).
Proof.
  intros Hinv Hidx. assert (Hskip : forall io, exists stop s', Some (false, set_io s io) = Some (stop, s') /\ init_inv s' /\ (stop = false -> vi_idx s' < 8)) by (intros io; eexists _, _; split; [reflexivity|]; split; [by apply init_inv_io|done]).
  unfold probe_slot. destruct (pci_cfg_read32 _ _ (vi_io s) bus slot 0 0) as [vd io1]. destruct (_ =? 0xFFFF); [apply Hskip|]. destruct (negb _); [apply Hskip|]. destruct (_ && _); [apply Hskip|].
  destruct (pci_cfg_read16 _ _ _ _ _ _ _) as [cmd io2]. destruct (negb _); [apply Hskip|]. destruct (pci_cfg_read32 _ _ _ _ _ _ _) as [bar0 io3]. destruct (_ =? 0); [apply Hskip|].
  match goal with |- context [in16 ?io ?p] => pose proof (Hin16 io p) as Hq; destruct (in16 io p) as [qnum io4] end. cbn [fst] in Hq. destruct (Z.ltb_spec qnum 3) as [|Hq3]; [apply Hskip|].
  match goal with |- context [setup_queue _ _ _ _ _ _ _ _ ?b _] => destruct (setup_queue_ok (set_io s io4) b qnum) as (s' & -> & Hs'); [by apply init_inv_io|done|lia|] end. cbn [mbind option_bind].
  eexists _, s'. split; [reflexivity|]. split; [done|]. destruct (Z.leb_spec (Z.of_nat BLOCK_MAX_DEVS) (vi_idx s')) as [|Hlt]; [done|]. intros _. unfold BLOCK_MAX_DEVS in Hlt. lia.
Qed.

Lemma probe_slots_ok n s i : init_inv s -> vi_idx s < 8 -> exists s', probe_slots in16 in32 out8 out16 out32 amm_phys_alloc kmalloc fn_rw fn_wr s i n = Some s' /\ init_inv s'.
Proof.
  revert s i. induction n as [|n IH]; intros s i Hinv Hidx; cbn [probe_slots]; [by exists s|].
  destruct (probe_slot_ok s (i / 32) (i mod 32) Hinv Hidx) as (stop & s' & -> & Hi' & Hn'). cbn [mbind option_bind]. destruct stop; [by exists s'|]. by apply IH, Hn'.
Qed.

End init.

(** ** Properties *)

(** C28: whatever the slots answer, the search for devices returns.  The table then holds the devices
    it found, at most eight, each with the driver's functions, and every queue it set up lies in
    the block allocated for it, the descriptors, both rings and the request area one behind the
    other. *)
Theorem virtio_blk_init_ok {IO} in16 in32 out8 out16 out32 amm_phys_alloc kmalloc fn_rw fn_wr (io : IO) :
  (forall io p, 0 <= (in16 io p).1 < 2 ^ 16) -> (forall io p, 0 <= (in32 io p).1 < 2 ^ 32) ->
  (forall io o, (amm_phys_alloc io o).1 = 0 \/ 0 < (amm_phys_alloc io o).1 /\ (amm_phys_alloc io o).1 + 4096 * 2 ^ o <= 2 ^ 64) -> fn_rw <> 0 /\ fn_wr <> 0 ->
  exists s ds, virtio_blk_init in16 in32 out8 out16 out32 amm_phys_alloc kmalloc fn_rw fn_wr (mk_vinit io block_init 0 []) = Some s /\
    table_of (vi_table s) ds /\ (length ds <= 8)%nat /\ Forall (registered fn_rw fn_wr (vi_ctxs s)) ds /\ Forall good_ctx (vi_ctxs s).
Proof.
  intros H16 H32 Ha Hf. unfold virtio_blk_init. cbn [vi_io vi_table vi_ctxs].
  destruct (probe_slots_ok in16 in32 out8 out16 out32 amm_phys_alloc kmalloc fn_rw fn_wr H16 H32 Ha Hf (256 * 32) (mk_vinit io block_init 0 []) 0) as (s & -> & ds & Ht & _ & Hr & Hc);
    [exists []; split; [exists 8%nat; by split|]; done|cbn; lia|].
  exists s, ds. split; [done|]. split; [done|]. split; [|done]. destruct Ht as (n & Ht & Hl & _). rewrite Ht, length_app in Hl. unfold BLOCK_MAX_DEVS in Hl. lia.
Qed.

(** One device in slot 3 of bus 0 with a queue of 128 entries and 8 sectors; the state of the ports
    is the address last selected. *)
Definition demo_in32 (io p : Z) : Z * Z :=
  (if p =? 0xCFC then (if io =? 0x80001800 then 0x10011AF4 else if io =? 0x80001810 then 0xC001 else if io =? 0x80001804 then 0 else 0xFFFFFFFF)
   else if p =? 0xC014 then 8 else 0, io).
Definition demo_in16 (io p : Z) : Z * Z := (if p =? 0xC00C then 128 else 0, io).
Definition demo_out (io p v : Z) : Z := if p =? 0xCF8 then v else io.
Definition demo_alloc (io o : Z) : Z * Z := (if o <? 10 then 0x100000 else 0, io).
Definition demo_kmalloc (io n : Z) : Z * Z := (0x5000, io).

Lemma virtio_blk_init_ok_witness : exists s ds, virtio_blk_init demo_in16 demo_in32 demo_out demo_out demo_out demo_alloc demo_kmalloc 1 2 (mk_vinit 0 block_init 0 []) = Some s /\
  table_of (vi_table s) ds /\ Forall good_ctx (vi_ctxs s) /\ block_count (vi_table s) = 1.
Proof.
  destruct (virtio_blk_init_ok demo_in16 demo_in32 demo_out demo_out demo_out demo_alloc demo_kmalloc 1 2 0) as (s & ds & H1 & H2 & _ & _ & H3).
  - intros io p. unfold demo_in16. cbn [fst]. destruct (_ =? _); lia.
  - intros io p. unfold demo_in32. cbn [fst]. repeat destruct (_ =? _); lia.
  - intros io o. unfold demo_alloc. cbn [fst]. destruct (Z.ltb_spec o 10) as [Ho|Ho]; [|by left]. right. assert (2 ^ o <= 2 ^ 10) by (destruct (Z.neg_nonneg_cases o); [rewrite Z.pow_neg_r by lia; lia|apply Z.pow_le_mono_r; lia]). lia.
  - split; discriminate.
  - exists s, ds. split; [exact H1|]. split; [exact H2|]. split; [exact H3|].
    assert (Hc : option_map (fun s => block_count (vi_table s)) (virtio_blk_init demo_in16 demo_in32 demo_out demo_out demo_out demo_alloc demo_kmalloc 1 2 (mk_vinit 0 block_init 0 [])) = Some 1) by (vm_compute; reflexivity).
    rewrite H1 in Hc. injection Hc as Hc. exact Hc.
Defined.
