(* ===== verification/VirtioDemo.v ===== *)
(** * A virtio disk

    A device that meets the contract of the driver, after any number of turns, and with it the
    property that the driver gives its clients disks; and a run in which a device is late. *)

From Stdlib Require Import ZArith Lia.
From stdpp Require Import base strings sets gmap list.
From S2P Require Import Prelude KString Block Gpt GptSpec InstallerSpec Virtio VirtioSpec.

Local Open Scope Z_scope.

(** ** A device *)

Record sim_t := mk_sim { sm_disk : gmap Z (list Z); sm_ctx : virtio_blk_ctx_t; sm_pending : option nat }.

Definition sim_content (d : sim_t) (i : Z) : list Z :=
  match sm_disk d !! i with Some s => if decide (length s = 512%nat /\ Forall byte s) then s else replicate 512 0 | None => replicate 512 0 end.

(** The sectors of [data] from [lba] on. *)
Fixpoint sim_store (w : gmap Z (list Z)) (lba : Z) (n : nat) (data : list Z) : gmap Z (list Z) :=
  match n with O => w | S n' => sim_store (<[lba := take 512 data]> w) (lba + 1) n' (drop 512 data) end.

Definition sim_serve (d : sim_t) (m : list Z) : sim_t * list Z :=
  match chain (sm_ctx d) m with
  | None => (d, m)
  | Some rq =>
      let n := rq_len rq / 512 in
      let m1 := if rq_write rq then m else list_inserts (rq_data rq) (concat (map (sim_content d) (seqZ (rq_sector rq) n))) m in
      let m2 := list_inserts (rq_status rq) [0] m1 in
      let m3 := list_inserts (vc_used (sm_ctx d) + 2) (le_bytes 2 (u16_at m (vc_avail (sm_ctx d) + 2))) m2 in
      (mk_sim (if rq_write rq then sim_store (sm_disk d) (rq_sector rq) (Z.to_nat n) (slice (rq_data rq) (Z.to_nat (rq_len rq)) m) else sm_disk d) (sm_ctx d) None, m3)
  end.

Definition sim_tick (d : sim_t) (m : list Z) : sim_t * list Z :=
  match sm_pending d with
  | None => (d, m)
  | Some O => sim_serve d m
  | Some (S k) => (mk_sim (sm_disk d) (sm_ctx d) (Some k), m)
  end.

Section latency.
Context (latency : nat) (Hlat : Z.of_nat latency < Z.pos VBLK_SPINS).

Definition sim_notify (d : sim_t) (port v : Z) : sim_t :=
  if port =? u16 (vc_io_base (sm_ctx d) + 0x10) then mk_sim (sm_disk d) (sm_ctx d) (Some latency) else d.

Definition sim_attached (c : virtio_blk_ctx_t) (d : sim_t) : Prop := exists i, c = set_last (sm_ctx d) i.

Lemma sim_content_ok d i : length (sim_content d i) = 512%nat /\ Forall byte (sim_content d i).
Proof.
  assert (Hz : length (replicate 512 0) = 512%nat /\ Forall byte (replicate 512 0)) by (split; [done|by apply Forall_replicate]).
  unfold sim_content. destruct (sm_disk d !! i); [|exact Hz]. by destruct (decide _).
Qed.

Lemma sim_store_ok n w lba data c p i :
  length data = (n * 512)%nat -> Forall byte data -> sim_content (mk_sim (sim_store w lba n data) c p) i =
    if decide (lba <= i < lba + Z.of_nat n) then slice (Z.to_nat (i - lba) * 512) 512 data else sim_content (mk_sim w c p) i.
Proof.
  revert w lba data. induction n as [|n IH]; intros w lba data Hl Hb; cbn [sim_store]; [by rewrite decide_False by lia|]. rewrite IH; [|rewrite length_drop; lia|by apply Forall_drop].
  destruct (decide (lba + 1 <= i < lba + 1 + Z.of_nat n)) as [Hi|Hi]; [rewrite decide_True by lia; unfold slice; rewrite drop_drop; do 2 f_equal; lia|].
  unfold sim_content. cbn [sm_disk]. destruct (decide (i = lba)) as [->|Hne].
  - rewrite decide_True by lia. rewrite lookup_insert_eq, Z.sub_diag. change (Z.to_nat 0 * 512)%nat with 0%nat. unfold slice. rewrite drop_0. rewrite decide_True; [done|]. split; [rewrite length_take; lia|by apply Forall_take].
  - rewrite decide_False by lia. by rewrite lookup_insert_ne.
Qed.

Lemma sim_waits k d m j : sm_pending d = Some k -> (j <= k)%nat -> ticks sim_tick j (d, m) = (mk_sim (sm_disk d) (sm_ctx d) (Some (k - j)%nat), m).
Proof.
  revert k d. induction j as [|j IH]; intros k d Hp Hj; cbn [ticks]; [rewrite Nat.sub_0_r, <- Hp; by destruct d|]. destruct k as [|k]; [lia|]. cbn [fst snd]. unfold sim_tick at 2. rewrite Hp. rewrite (IH k) by (done || lia). done.
Qed.

Lemma lookup_other (m k : list Z) p i : (i < p \/ p + length k <= i)%nat -> list_inserts p k m !! i = m !! i.
Proof. intros [H|H]; [by apply list_lookup_inserts_lt|by apply list_lookup_inserts_ge]. Qed.

Lemma sim_served d m rq c i :
  c = set_last (sm_ctx d) i -> Forall byte m -> ctx_ok c (length m) -> chain c m = Some rq -> proper c (length m) rq ->
  let s := sim_serve d m in served sim_content c rq d m s.1 s.2 /\ sim_attached c s.1.
Proof.
  intros -> Hb Hc Hch [[Hl Hmod] [Hs0 Hs1] Hd Hst [Hap1 Hap2]]. change (chain (set_last (sm_ctx d) i) m) with (chain (sm_ctx d) m) in Hch. unfold sim_serve. rewrite Hch. cbv zeta. cbn [fst snd]. split; [|by exists i].
  cbn [set_last vc_used vc_avail] in *. change (qn (set_last (sm_ctx d) i)) with (qn (sm_ctx d)) in *. set (n := rq_len rq / 512) in *. assert (Hn : rq_len rq = n * 512) by (unfold n; pose proof (Z.div_mod (rq_len rq) 512 ltac:(lia)); lia).
  assert (Hcl : length (concat (map (sim_content d) (seqZ (rq_sector rq) n))) = Z.to_nat (rq_len rq)) by (rewrite length_sectors; [rewrite length_map, length_seqZ; lia|]; apply Forall_fmap, Forall_forall; intros j _; apply sim_content_ok).
  assert (Hcb : Forall byte (concat (map (sim_content d) (seqZ (rq_sector rq) n)))) by (apply Forall_concat, Forall_fmap, Forall_forall; intros j _; apply sim_content_ok).
  set (m1 := if rq_write rq then m else _). assert (Hm1 : length m1 = length m) by (unfold m1; destruct (rq_write rq); [done|apply length_inserts]).
  destruct Hc as [Hq Hc1 Hc2 Hc3 Hc4 _ _]. cbn [set_last vc_used vc_avail vc_req_area vc_desc] in *. change (qn (set_last (sm_ctx d) i)) with (qn (sm_ctx d)) in *. constructor; cbn [set_last vc_used vc_avail].
  - by rewrite !length_inserts.
  - repeat apply bytes_list_inserts; [apply le_bytes_byte|by apply all_bytes_ok|]. unfold m1. destruct (rq_write rq); [done|by apply bytes_list_inserts].
  - rewrite lookup_other by (rewrite length_le_bytes; lia). cbn [list_inserts]. apply list_lookup_insert_eq. lia.
  - unfold u16_at at 1. rewrite slice_back by (rewrite ?length_le_bytes, ?length_inserts; lia). apply le_val_bytes. pose proof (u16_at_range m (vc_avail (sm_ctx d) + 2) Hb). change (256 ^ Z.of_nat 2) with (2 ^ 16). lia.
  - intros j Hj. unfold device_writes in Hj. cbn [set_last vc_used] in Hj. change (qn (set_last (sm_ctx d) i)) with (qn (sm_ctx d)) in Hj. rewrite !lookup_other by (rewrite ?length_le_bytes; cbn [length]; lia). unfold m1. destruct (rq_write rq); [done|]. apply lookup_other. rewrite Hcl.
    destruct (decide (j < rq_data rq)%nat); [by left|]. right. destruct (decide (rq_data rq + Z.to_nat (rq_len rq) <= j)%nat); [done|]. exfalso. apply Hj. left. split; [done|lia].
  - intros Hw j. rewrite Hw. fold n. rewrite sim_store_ok by (first [rewrite length_slice by lia; lia|by apply Forall_take, Forall_drop]). rewrite Z2Nat.id by lia.
    destruct (decide (rq_sector rq <= j < rq_sector rq + n)); [|by destruct d]. by rewrite slice_slice by lia.
  - intros Hw. fold n. rewrite Hw. unfold m1. rewrite Hw. split; [|done]. rewrite !slice_inserts_other by (rewrite ?length_le_bytes; cbn [length]; lia). by apply slice_back; [|lia].
Qed.

#[global] Instance sim_virtio : VirtioBlk sim_notify sim_tick sim_content sim_attached.
Proof.
  split.
  - intros c d m rq [i Hi] Hc Hb Hch Hp Hav s. assert (Hn : s = (mk_sim (sm_disk d) (sm_ctx d) (Some latency), m)) by (unfold s, sim_notify; rewrite Hi; cbn [set_last vc_io_base]; by rewrite Z.eqb_refl).
    rewrite Hn. clear s Hn. set (d1 := mk_sim _ _ _). destruct (sim_served d1 m rq c i Hi Hb Hc Hch Hp) as [Hsv Hat]. exists latency, (sim_serve d1 m).1, (sim_serve d1 m).2. split; [exact Hlat|].
    assert (Ht : ticks sim_tick (S latency) (d1, m) = sim_serve d1 m).
    { rewrite ticks_snoc, (sim_waits latency) by (done || lia). cbn [fst snd]. rewrite Nat.sub_diag. unfold sim_tick. cbn [sm_pending d1 sm_disk sm_ctx]. unfold sim_serve. cbn [sm_ctx sm_disk d1]. rewrite Hi in Hch. change (chain (sm_ctx d) m = Some rq) in Hch. rewrite Hch. reflexivity. }
    split; [rewrite Ht; by destruct (sim_serve d1 m)|]. split; [exact Hat|]. split.
    + destruct Hsv as [A1 A2 A3 A4 A5 A6 A7]. constructor; try assumption.
    + intros j Hj. rewrite (sim_waits latency) by (done || lia). done.
  - intros c d i [j ->]. by exists i.
  - intros c d i _ _. apply sim_content_ok.
Qed.

End latency.

(** ** A disk of a hundred sectors *)

Definition demo_vctx : virtio_blk_ctx_t := mk_vctx 0xC000 3 0 0x100000 100 0 48 4096 4128 0x101020.
Definition demo_vdev : block_dev_t := mk_block_dev (c_str "vda" ++ replicate 29 0) 512 100 0x5000 1 2.
Definition demo_block : list Z := replicate (Z.to_nat 32768) 0.
Definition demo_world : gmap Z (vblk_t (D := sim_t)) := {[ 0x5000 := mk_vblk demo_vctx demo_block (mk_sim ∅ demo_vctx None) ]}.
Definition demo_only (d : block_dev_t) : Prop := d = demo_vdev.

Lemma demo_ctx_ok : ctx_ok demo_vctx (Z.to_nat 32768).
Proof. assert (HS : VBLK_REQ_STATUS_OFF = Z.to_nat 16416) by reflexivity. constructor; unfold qn; rewrite ?HS; cbn [demo_vctx vc_qnum vc_desc vc_avail vc_used vc_req_area vc_q_phys vc_req_phys]; lia. Qed.

Lemma demo_world_ok : vd_inv sim_attached demo_only demo_world.
Proof.
  intros d ->. split; [discriminate|]. exists (mk_vblk demo_vctx demo_block (mk_sim ∅ demo_vctx None)). split; [reflexivity|]. split; [|reflexivity].
  constructor; cbn [vb_ctx vb_mem vb_dev].
  - exists 0. reflexivity.
  - unfold demo_block. rewrite length_replicate. apply demo_ctx_ok.
  - by apply Forall_replicate.
  - vm_compute. reflexivity.
  - vm_compute. reflexivity.
  - reflexivity.
Qed.

Lemma virtio_disks_witness : exists w1 w2, vd_write (sim_notify 1000) sim_tick demo_vdev demo_world 5 1 (replicate 512 7) = (0, w1) /\
  vd_read (sim_notify 1000) sim_tick demo_vdev w1 5 1 = (0, replicate 512 7, w2).
Proof.
  assert (HV : VirtioBlk (sim_notify 1000) sim_tick sim_content sim_attached) by (apply sim_virtio; reflexivity).
  pose proof (virtio_disks (sim_notify 1000) sim_tick sim_content sim_attached demo_only HV ltac:(by intros d e -> ->)) as HD.
  destruct (disks_write demo_vdev demo_world 5 1 (replicate 512 7)) as (w1 & H1 & I1 & S1 & _); [exact demo_world_ok|reflexivity|lia|lia|cbn; lia|reflexivity|by apply all_bytes_ok|].
  destruct (disks_read demo_vdev w1 5 1) as (w2 & H2 & _); [exact I1|reflexivity|lia|lia|cbn; lia|].
  exists w1, w2. split; [exact H1|]. rewrite H2, seqZ_1. cbn [map concat]. rewrite S1, decide_True by lia. reflexivity.
Defined.

(** ** Flaws of the code *)

(** A device that has taken on a request earlier and completes it now, with the sectors it was asked for then. *)
Definition late_tick (d : sim_t * option vreq) (m : list Z) : (sim_t * option vreq) * list Z :=
  match d.2 with
  | None => (d, m)
  | Some rq =>
      let m := list_inserts (rq_data rq) (concat (map (sim_content d.1) (seqZ (rq_sector rq) (rq_len rq / 512)))) m in
      let m := list_inserts (rq_status rq) [0] m in
      ((d.1, None), list_inserts (vc_used demo_vctx + 2) (le_bytes 2 (u16 (u16_at m (vc_used demo_vctx + 2) + 1))) m)
  end.

(** The disk has fives in sector 5; a request for it timed out and is still with the device. *)
Definition late_disk : vblk_t (D := sim_t * option vreq) :=
  mk_vblk demo_vctx (list_inserts 50 [1; 0] demo_block) (mk_sim {[ 5 := replicate 512 5 ]} demo_vctx None, Some (request demo_vctx 5 1 false)).

(** A timeout leaves the request with the device.  When the next request is made, the late completion of
    the first is taken for that of the second: the caller asks for sector 7 and gets sector 5. *)
Lemma timeout_mixes_requests : option_map (fun x => x.1) (virtio_blk_submit (fun d _ _ => d) late_tick late_disk 7 (replicate 512 0) 0 1 false) = Some (0, replicate 512 5).
Proof. vm_compute. reflexivity. Qed.

(** The range test adds in 64 bits: a request for the last sector number of all is made of a disk of a
    hundred sectors. *)
Lemma range_test_wraps : option_map (fun x => x.1.1) (vblk_stub_rw (fun d _ _ => d) late_tick (Some demo_vdev) late_disk (2 ^ 64 - 1) 1 (Some (replicate 512 0))) = Some 0.
Proof. vm_compute. reflexivity. Qed.
